(* ===== verification/_CoqProject ===== *)
-Q . S2P
Prelude.v
Bitmapset.v
BitmapsetIter.v
FsmPage.v
Transam.v
Clog.v
HeapTuple.v
Combocid.v
Tqual.v
TqualSpec.v
TqualProofs.v
TqualUpdate.v
TqualTheorems.v
TqualSnapshot.v
Procarray.v
BufPage.v
BufPageProofs.v
BufPageIndex.v
BufPageTheorems.v
ProcShared.v
ProcTrace.v
ProcSnapshot.v
ProcHorizon.v
ProcXid.v
MultiXact.v
MultiXactProofs.v
MultiXactLog.v
MultiXactTheorems.v
LockModes.v
RowLock.v
RowLockProofs.v
RowLockTheorems.v
HeapDelete.v
HeapDeleteProofs.v
HeapDeleteTheorems.v
LWLock.v
LWLockProofs.v
LWLockSteps.v
LWLockWakeup.v
LWLockTheorems.v
LWLockLiveness.v
Pglz.v
PglzFormat.v
PglzHistory.v
PglzTheorems.v
LockTable.v
LockInvariant.v
LockOps.v
LockRequests.v
LockSleep.v
Deadlock.v
DeadlockCycle.v
DeadlockTopo.v
DeadlockSearch.v
DeadlockApply.v
DeadlockVerdict.v
LockSystem.v
LockTheorems.v
LockBackend.v
LockFastPath.v
LockLocal.v
LockCounts.v
LockSession.v
LockOwn.v
LockOwnViews.v
LockOwnAcquire.v
LockOwnWait.v
LockOwnRelease.v
LockOwnReleaseAll.v
LockEnv.v
LockRuns.v
LockSessionTheorems.v
GinPosting.v
GinPostingProofs.v
GinPostingTheorems.v
