(* ===== verification/Prelude.v ===== *)
(** * PostgreSQL 11.1 storage and transaction core

    The repository is a collection of experiments around one large program, the
    annotated PostgreSQL 11.1 server in [src/other/postgresql-11.1].  This
    library models the part of the server that decides which rows exist: the
    transaction ids and their commit status, the snapshots, the visibility
    rules, row locks and deletion, the pages the rows live in, the locks that
    sessions wait for each other with and the detection of deadlocks among them,
    the light-weight locks that guard shared memory, the compression of long
    values and of the item lists of inverted indexes, and two data structures used under them (bitmap sets and the free
    space map page).  All paths below are relative to
    [src/other/postgresql-11.1/src].

    ** How the parts interact

    A transaction gets an id from [GetNewTransactionId] (varsup.c), publishes it
    in the shared process array (procarray.c) and stamps it into the rows it
    inserts ([t_xmin]) or deletes ([t_xmax]).  When it ends, its status goes to
    the commit log (clog.c, asked through transam.c; subtransactions point to
    their parents in subtrans.c) and its id is withdrawn from the process array.
    A snapshot ([GetSnapshotData]) copies the ids in the array; the routines of
    tqual.c decide from a row's header, a snapshot, the process array and the
    commit log whether the row is visible, and cache what they learnt in hint
    bits of the header.  VACUUM removes rows whose deleter is older than the
    horizon [GetOldestXmin] computes from the array.  Rows are items of slotted
    pages (bufpage.c), and the free space map (fsmpage.c) finds a page with room.
    Several transactions may hold a row: then [t_xmax] is a MultiXact, a number
    under which multixact.c keeps the holders and the strength of their locks;
    heapam.c computes the new [t_xmax] and decides who has to wait for whom before a
    row is deleted.  Waiting for a transaction or for a table is a request in the
    shared lock table (lock.c): it is granted, or the process joins the wait queue
    of the lock (proc.c) and sleeps until a release wakes it or a timeout makes it
    look for a deadlock (deadlock.c), which rearranges wait queues or makes the
    process give up.  A backend counts its own locks in a local table and takes weak
    locks on relations without the shared table (the fast path), as long as no count
    says that someone has or wants a strong lock; who wants one raises the count and
    moves the weak locks of the others to the shared table first.  Shared memory is
    guarded by light-weight locks (lwlock.c).

    ** Files

    - [Prelude]: the result type [cres] of C routines, machine integers, arrays,
      bounded loops, and lemmas and tactics every file uses.
    - [Bitmapset], [BitmapsetIter]: backend/nodes/bitmapset.c.  A set is a list
      of 32-bit words behind an optional pointer; one integer is its abstraction.
    - [FsmPage]: backend/storage/freespace/fsmpage.c.  A binary tree of maxima in
      an array of bytes.
    - [Transam]: backend/access/transam/transam.c and subtrans.c.  Circular id
      comparison, commit status with its one-entry cache, walks up the
      subtransaction tree.  The logs themselves are the class [CommitLog].
    - [Clog]: the status bits and group LSNs of backend/access/transam/clog.c.
    - [HeapTuple]: include/access/htup_details.h, header fields and flags.
    - [Combocid]: backend/utils/time/combocid.c, command ids that stand for a
      pair of an inserting and a deleting command.
    - [Tqual]: backend/utils/time/tqual.c.  What it asks of the rest is the class
      [SharedXacts] (in progress? committed? topmost parent? MultiXact members?)
      and the class [Backend] (own transaction? combo ids?).
      [TqualSpec] says what visibility means without hint bits, [TqualProofs] and
      [TqualUpdate] prove the routines against it, [TqualTheorems] has the
      resulting theorems, [TqualSnapshot] those on snapshots and logical decoding.
    - [Procarray]: [TransactionIdIsInProgress] of backend/storage/ipc/procarray.c
      and [TransactionIdIsCurrentTransactionId] of backend/access/transam/xact.c,
      which implement the questions of [SharedXacts] and [Backend].
    - [BufPage]: backend/storage/page/bufpage.c.  A page is its header fields, its
      line pointers and its bytes.  [BufPageProofs] has the invariant and the
      view of a page as a sequence of items, [BufPageIndex] the index-page
      routines, [BufPageTheorems] the theorems.
    - [ProcShared]: the shared process array as other backends change it:
      assigning ids, ending transactions, [GetSnapshotData], [GetOldestXmin], and
      [SnapshotResetXmin] of utils/time/snapmgr.c, with which a backend advances the
      [xmin] it has published.  [ProcTrace] has executions of it, [ProcSnapshot],
      [ProcHorizon] and [ProcXid] the theorems; [ProcSnapshot] also shows that the
      walk up pg_subtrans of [Transam] gives what the theorem on overflowed snapshots
      asks of it.
    - [MultiXact]: backend/access/transam/multixact.c, the assignment of
      MultiXactIds, the offset and member areas, the cache of a backend and the
      limits.  What other backends do while the lock is let go for warnings, or
      between reserving a number and writing its contents, are functions of the class
      [MXEnv]; the steps they are made of, refused reservations included, are
      [mx_step].  [MultiXactProofs] is on
      the layout of the areas, [MultiXactLog] on the log of MultiXacts they stand
      for, [MultiXactTheorems] has the theorems.
    - [RowLock]: the holders of a row in backend/access/heap/heapam.c
      ([compute_new_xmax_infomask], [DoesMultiXactIdConflict] and their tables) and
      [MultiXactIdExpand], with the conflict table of storage/lmgr/lock.c, which is
      in [LockModes].  What it
      asks of MultiXacts is the class [MultiStore]; [RowLockTheorems] gives the
      instance made from [MultiXact].  [RowLockProofs] relates [t_xmax] and the flag
      words to a list of holders.
    - [HeapDelete]: [heap_delete] of heapam.c, which uses [Tqual], [RowLock] and
      [Combocid]; what may happen to the row while it waits is the record [World],
      and the snapshot to crosscheck a row against is its visibility test.
      [HeapDeleteProofs] and [HeapDeleteTheorems] have the proofs and theorems.
    - [LWLock]: backend/storage/lmgr/lwlock.c as steps of any number of processes
      on the state word, the list of waiters and the semaphores of one lock.
      [LWLockProofs] has the arithmetic of the word, the invariants and the changes
      a step can make ([view]), [LWLockSteps] shows that every step is such a change
      and keeps the first two layers of the invariant, [LWLockWakeup] the third (who
      will wake the waiters); [LWLockTheorems] and [LWLockLiveness] have the
      theorems.
    - [Pglz]: common/pg_lzcompress.c, which compresses long values.
      [PglzFormat] has the format of the data and the decompressor, [PglzHistory]
      the lists of earlier positions, [PglzTheorems] the compressor and the theorems.
    - [GinPosting]: backend/access/gin/ginpostinglist.c, the compressed lists of item
      pointers in inverted indexes.  [GinPostingProofs] has the numbers of variable
      length and what a segment stands for, [GinPostingTheorems] the theorems.
    - [LockTable]: the shared lock table of backend/storage/lmgr/lock.c and the wait
      queues of proc.c.  A [lmgr] maps lock tags to [LOCK]s, pairs of a tag and a
      process to [PROCLOCK]s, and processes to the fields of their [PGPROC]; the
      operations are [SetupLockInTable], [LockCheckConflicts], [GrantLock],
      [UnGrantLock], [CleanUpLock], [ProcSleep] up to the sleep, [ProcLockWakeup],
      [RemoveFromWaitQueue], and from them [acquire_shared] and [release_shared],
      the parts of [LockAcquireExtended] and [LockRelease] that run under the
      partition lock.  [LockInvariant] has the invariant of the table (counts and
      masks agree with the holders, queues with the waiting processes, and every
      waiter has a reason to wait) and the test for conflicts, [LockOps] the waking
      of waiters and the removal from a queue, [LockRequests] the release and the
      entry of a request, [LockSleep] the whole acquisition.
    - [Deadlock]: backend/storage/lmgr/deadlock.c, all of the search, with the sizes of
      its work arrays checked.  [DeadlockCycle] is on [FindLockCycle], [DeadlockTopo] on
      [TopoSort], [DeadlockSearch] on [TestConfiguration] and
      [DeadLockCheckRecurse], [DeadlockApply] on the rearranged queues and the
      wake-ups they cause, [DeadlockVerdict] on [DeadLockCheck] and [CheckDeadLock].
    - [LockSystem]: runs of the lock table by any number of processes, whose steps are
      an acquisition, a release, the cancelling of a wait, the transfer of a fast-path
      lock, the release of all modes of one lock and the deadlock timeout;
      [LockTheorems] has the theorems on them and on the detector.
    - [LockBackend]: the backend's side of lock.c.  A [backend] has the local table of
      [LOCALLOCK]s, the resource owners' lists (utils/resowner/resowner.c), the strong
      lock in progress and the awaited lock; a [lockenv] is the shared table, the
      fast-path slots of all processes, the counts of strong locks and the backends.
      [LockAcquireExtended], [LockRelease], [LockReleaseAll] and [LockErrorCleanup] are
      cut into sections, one function each, and a [point] says where a backend is
      between two of them.  [LockFastPath] is on the slots and their transfer,
      [LockLocal] on local entries and owners, [LockCounts] on the counts of strong
      locks.
    - [LockSession]: the steps of any number of backends ([backend_step]) and the
      invariant of one of them ([proc_ok]): how the view of each lock in the local
      table, the slots, the shared table and the marks fit together.  [LockOwn] says
      what a step of a backend may change ([own_step]), [LockOwnViews] has the common
      patterns of such changes, [LockOwnAcquire], [LockOwnWait], [LockOwnRelease] and
      [LockOwnReleaseAll] prove every section to be such a step that does not fail,
      [LockEnv] puts the backends together, [LockRuns] is a scheduler that computes
      concrete runs, and [LockSessionTheorems] has the theorems.

    ** How C is modelled

    A routine returns [Ret v], reports an error with [elog] or [ereport]
    ([Elog message]), or does what C or the code's own assertions do not allow:
    a failed [Assert], an access outside an array, or a loop that has not ended
    within its bound are all [Undef].  A theorem that a routine returns [Ret]
    therefore also says that its assertions hold, its accesses are in bounds and
    its loops end.  Integers are [Z] kept in range by explicit wrap-around ([u32],
    [s32], ...).  Arguments a routine changes are returned with its result.

    Loops are structural recursions where they run over a list.  Others run on
    fuel: [loop k] makes up to [2 ^ k] rounds, and [k] is chosen as the number of
    bits of the measure that decreases (32 for walks over transaction ids, where
    each round reaches an older id, 32 or 64 for binary searches by the width of
    the index); the climb and descent of the free space map
    have 14 rounds for the 13 levels of a page of [BLCKSZ] = 8192 bytes.  Theorems
    of termination show that the fuel is never used up.  [heap_delete] makes a
    round per wait and is given their number: enough is one more than the times
    others change the row meanwhile.  Light-weight locks have no fuel: their steps
    are a relation, and [step_bound] bounds the number of them.  The loops of the
    compressor have a round more than the longest match, the number of history
    entries and the input have elements; a number of 64 bits takes at most ten bytes in
    a posting list, and a segment has at most as many items as bytes.  The search for a cycle of waits goes at
    most [MaxBackends + 2] calls deep, as each call visits another process; the search
    over constraints has a level more than the constraints it may add, and the
    topological sort a round per process of the queue.

    The hash code of a lock tag is any function; whether the shared table has room for
    an entry is decided anew at every request; the order in which a hash table is read
    is any order of its entries.  The theorems on backends assume that the processes
    are in the array of processes, are at most [MaxBackends], that relation tags are
    made by their macro, and that a count of strong locks has not reached [2 ^ 32 - 1].

    The work arrays of the deadlock detector have a place per backend; the theorems
    that it stays within them are about at most [MaxBackends] processes, and
    [deadlock_detector_flaws] has a run with one more, a prepared transaction.

    The theorems on creating MultiXacts are about normal running under the
    postmaster.  When the lock was let go for warnings, the counter must stand
    neither at zero nor at the stop limit when it is taken again ([relocks_fine]):
    the code does not check a second time.  A lookup is exact unless it is for the
    last number before zero after a refused reservation has moved the counter off
    zero ([counter_moved]).  [multixact_counter_flaws] has a run for each.  A
    backend's [TransactionXmin] is not after the [xmin] of the snapshots it asks
    about, as the walk up pg_subtrans requires.

    Transaction ids are compared modulo [2 ^ 32]; theorems on their order are
    about ids at most [2 ^ 31 - 4] steps apart, which is the window that
    [SetTransactionIdLimit] and [GetNewTransactionId] keep (proved in [ProcXid]).

    ** What the theorems show

    - Visibility: each routine of tqual.c returns what the hint-free definition
      says, leaves only hint bits that are true, and gives the same answer again;
      a row VACUUM calls dead is invisible to every snapshot the horizon covers.
    - Running transactions: a snapshot taken while other backends go on is exactly
      the set of transactions running when the lock was taken (with aborted
      subtransactions of theirs, where a cache overflowed); the ids before VACUUM's
      horizon, for shared relations and for tables of one database, count as finished
      in every snapshot in use, but for ids of transactions in other databases;
      [TransactionIdIsInProgress] answers
      true exactly for running transactions; new ids come after all ids in use.
    - Commit status: outcome of a transaction tree, circular order, the bits of
      the commit log, combo command ids and their copy to parallel workers.
    - MultiXacts: what is read is what was created, across wraparound and while
      other backends create more or are refused, under the two conditions above.
    - Row locks and deletion: no holder that matters is lost when one is added,
      conflicts follow the documented table, [heap_delete] stamps a row only when it
      may, and every outcome of it is described: "updated" may also be on account of
      an updater that is just aborting or of the crosscheck, and a crosscheck that
      rejects a row marked as not deleted fails an assertion.
    - Light-weight locks: exclusion, no failed assertion, no lost wakeup, and every
      call ends if the holders release the lock.
    - Heavyweight locks: the shared table stays well formed, every waiter waits for a
      holder or an earlier waiter, and an acquisition has one of the documented
      outcomes.  Backends use the table only through its operations (refinement), so
      this holds while they run; no two backends of different groups own conflicting
      locks, whether taken by the fast path, in the shared table or after a sleep; the
      local tables, owners and counts agree with what is held; no internal error or
      assertion of lock.c is reached; [LockReleaseAll] ends and leaves nothing behind.
      A resource owner keeps track of at most 15 locks, and a strong lock granted
      while its wait was being cancelled is held without being counted as strong
      (there is a run); the theorems say what holds then.
    - Deadlocks: [FindLockCycle] finds a cycle exactly if there is one; the whole
      search ends, reports a deadlock only for a real cycle, none only if the
      process is on no cycle, and a rearrangement of queues leaves it on none; the
      sort of a queue keeps its constraints, but for those of a group with several
      processes in it (there is a run).
    - Compression: lossless, within its buffers, and failing for a wrong size.  This is
      about data the compressor has made; three runs on other data have no outcome.
    - Posting lists: compression within its buffers and lossless, as many items as fit,
      never longer when items are removed, for neighbours less than [2 ^ 31] blocks
      apart (with a run for items that are farther); merging is the sorted union.
    - Pages: well-formed pages stay well formed and every routine changes exactly
      the items it is asked to, byte for byte, or reports the code's error.
    - Free space map page: search ends and finds a slot if there is one; updates
      keep the tree valid; rebuilding repairs any torn page.
    - Bitmap sets: every routine is the corresponding operation on sets.

    Each theorem with hypotheses is followed by a concrete instance.

    ** What is not modelled

    Memory allocation and buffer locking, except where the code gives up a lock
    and others may change the data; WAL records; the SLRU buffers below clog.c,
    subtrans.c and multixact.c, truncation of these logs; hot standby's
    known-assigned ids (a parameter); page checksums.  Of snapmgr.c only
    [SnapshotResetXmin] is modelled, with the registered snapshots as a list.  Limits
    on the size of an allocation are left out.  A wait of [heap_delete] ends
    when the transaction is over.  The specification of row locks fixes of the flag
    words what others rely on without looking the holders up, not the lock-strength
    bits of a MultiXact.  Of heavyweight locks: locks of virtual
    transactions (which have a fast path of their own), prepared transactions, joining
    a lock group, the timers and signals of a sleep, the report of a deadlock, the
    views that list locks, the WAL record of an exclusive lock.  Sections are atomic
    where the code holds a lock all along; the count of strong locks that a failed
    request gives back is given back in the section that failed.
    Of light-weight locks: the variables attached to them; the order in which weakly ordered
    hardware makes stores visible.  The parser,
    planner, executor, replication, client programs and contrib modules of the
    server, and the other programs of the repository, are outside this library.

    ** Plan

    Next are the other operations on rows in backend/access/heap/heapam.c
    ([heap_lock_tuple], [heap_update]) on top of [RowLock], prepared transactions
    in lock.c, and the libraries the access methods share: binary
    heaps (lib/binaryheap.c), red-black trees (lib/rbtree.c) and the upper levels of
    the free space map (freespace.c). *)
From Stdlib Require Export ZArith Lia Bool.
From stdpp Require Export base decidable numbers list option strings.

#[global] Open Scope Z_scope.

(** * The outcome of a C routine

    A routine of the backend returns a value, leaves through
    [elog(ERROR)]/[ereport(ERROR|PANIC)], or does something C leaves undefined
    (an access outside an array, an [Assert] that fails in a checked build). *)
Inductive cres (A : Type) : Type :=
  | Ret (a : A)
  | Elog (msg : string)
  | Undef.
Arguments Ret {A} a.
Arguments Elog {A} msg.
Arguments Undef {A}.

Definition cbind {A B} (c : cres A) (k : A -> cres B) : cres B :=
  match c with
  | Ret a => k a
  | Elog m => Elog m
  | Undef => Undef
  end.

(** An access that is undefined when the object is not there. *)
Definition deref {A} (o : option A) : cres A :=
  match o with Some a => Ret a | None => Undef end.

(** An [Assert]. *)
Definition c_assert (b : bool) : cres unit := if b then Ret tt else Undef.

Declare Scope c_scope.
Delimit Scope c_scope with c.
Notation "'let*' x := c 'in' k" := (cbind c (fun x => k))
  (at level 10, x pattern, c at level 100, k at level 200) : c_scope.
Notation "c ;; k" := (cbind c (fun _ => k))
  (at level 100, k at level 200, right associativity) : c_scope.
#[global] Open Scope c_scope.

Lemma cbind_ret_l {A B} (a : A) (k : A -> cres B) : cbind (Ret a) k = k a.
Proof. done. Qed.

Lemma cbind_ret_inv {A B} (c : cres A) (k : A -> cres B) b :
  cbind c k = Ret b -> exists a, c = Ret a /\ k a = Ret b.
Proof. destruct c; naive_solver. Qed.

(** * Fixed-width integers *)

Definition u8 (z : Z) : Z := z mod 2 ^ 8.
Definition u16 (z : Z) : Z := z mod 2 ^ 16.
Definition u32 (z : Z) : Z := z mod 2 ^ 32.
Definition u64 (z : Z) : Z := z mod 2 ^ 64.
Definition s16 (z : Z) : Z := (z + 2 ^ 15) mod 2 ^ 16 - 2 ^ 15.
Definition s32 (z : Z) : Z := (z + 2 ^ 31) mod 2 ^ 32 - 2 ^ 31.

Definition is_u (w z : Z) : Prop := 0 <= z < 2 ^ w.

Lemma s16_small z : 0 <= z < 2 ^ 15 -> s16 z = z.
Proof. intros. unfold s16. rewrite Z.mod_small by lia. lia. Qed.

(** Side conditions about widths. *)
Ltac solve_isu := first [done | lia | unfold is_u in *; lia].

(** [~x] and [x << n] at width 32. *)
Definition u32_not (x : Z) : Z := u32 (Z.lnot x).
Definition u32_shl (x n : Z) : Z := u32 (Z.shiftl x n).

(** * Bits *)

Lemma testbit_mod_pow2 z n i :
  0 <= n -> Z.testbit (z mod 2 ^ n) i = (i <? n) && Z.testbit z i.
Proof.
  intros Hn. destruct (Z.ltb_spec i n).
  - by rewrite Z.mod_pow2_bits_low.
  - by rewrite Z.mod_pow2_bits_high by lia.
Qed.

Lemma is_u_testbit w z i : is_u w z -> 0 <= w <= i -> Z.testbit z i = false.
Proof.
  intros [H0 H1] Hi. rewrite <- (Z.mod_small z (2 ^ w)) by lia.
  by rewrite Z.mod_pow2_bits_high by lia.
Qed.

Lemma is_u_of_bits w z :
  0 <= w -> 0 <= z -> (forall i, w <= i -> Z.testbit z i = false) -> is_u w z.
Proof.
  intros Hw Hz Hb. split; [done|].
  assert (z = z mod 2 ^ w) as ->.
  { apply Z.bits_inj'; intros i Hi. rewrite testbit_mod_pow2 by done.
    destruct (Z.ltb_spec i w); [done|]. by apply Hb. }
  apply Z.mod_pos_bound. lia.
Qed.

Lemma is_u_mod w z : 0 <= w -> is_u w (z mod 2 ^ w).
Proof. intros. apply Z.mod_pos_bound. lia. Qed.

Lemma is_u_id w z : is_u w z -> z mod 2 ^ w = z.
Proof. apply Z.mod_small. Qed.

Lemma testbit_u32 z i : Z.testbit (u32 z) i = (i <? 32) && Z.testbit z i.
Proof. unfold u32. by rewrite testbit_mod_pow2. Qed.

Lemma testbit_s32 z i : i < 32 -> Z.testbit (s32 z) i = Z.testbit z i.
Proof.
  intros Hi. destruct (decide (0 <= i)) as [H0|H0];
    [|by rewrite !Z.testbit_neg_r by lia].
  assert (s32 z mod 2 ^ 32 = z mod 2 ^ 32) as E.
  { unfold s32. rewrite Zminus_mod, Zmod_mod, <- Zminus_mod. f_equal. lia. }
  rewrite <- (Z.mod_pow2_bits_low (s32 z) 32), <- (Z.mod_pow2_bits_low z 32) by lia.
  by rewrite E.
Qed.

Lemma is_u_u32 z : is_u 32 (u32 z).
Proof. by apply is_u_mod. Qed.

Lemma is_u_lor w a b : 0 <= w -> is_u w a -> is_u w b -> is_u w (Z.lor a b).
Proof.
  intros Hw [Ha Ha'] [Hb Hb']. apply is_u_of_bits; [done|by apply Z.lor_nonneg|].
  intros i Hi. rewrite Z.lor_spec, !(is_u_testbit w); solve_isu.
Qed.

Lemma is_u_land w a b : 0 <= w -> is_u w a -> 0 <= b -> is_u w (Z.land a b).
Proof.
  intros Hw Ha Hb. apply is_u_of_bits; [done|apply Z.land_nonneg; left; apply Ha|].
  intros i Hi. by rewrite Z.land_spec, (is_u_testbit w a).
Qed.

Lemma testbit_u32_not x i :
  0 <= i -> Z.testbit (u32_not x) i = (i <? 32) && negb (Z.testbit x i).
Proof. intros. unfold u32_not. by rewrite testbit_u32, Z.lnot_spec. Qed.

Lemma testbit_u32_shl x n i :
  0 <= i -> Z.testbit (u32_shl x n) i = (i <? 32) && Z.testbit x (i - n).
Proof. intros. unfold u32_shl. by rewrite testbit_u32, Z.shiftl_spec. Qed.

(** A number split at bit [n]. *)
Lemma testbit_split y x n i :
  is_u n y -> 0 <= n -> 0 <= i ->
  Z.testbit (y + 2 ^ n * x) i = if i <? n then Z.testbit y i else Z.testbit x (i - n).
Proof.
  intros Hy Hn Hi. destruct (Z.ltb_spec i n) as [Hlt|Hge].
  - rewrite <- (Z.mod_pow2_bits_low _ n) by done.
    by rewrite Z.mul_comm, Z_mod_plus_full, is_u_id.
  - replace i with ((i - n) + n) at 1 by lia.
    rewrite <- Z.shiftr_spec by lia. rewrite Z.shiftr_div_pow2 by done.
    rewrite Z.mul_comm, Z.div_add, Z.div_small by (destruct Hy; lia). done.
Qed.

(** [lowest_bit z k]: bit [k] is the least significant one bit of [z]. *)
Definition lowest_bit (z k : Z) : Prop :=
  0 <= k /\ Z.testbit z k = true /\ forall i, 0 <= i < k -> Z.testbit z i = false.

Lemma lowest_bit_unique z j k : lowest_bit z j -> lowest_bit z k -> j = k.
Proof.
  intros (Hj & Bj & Mj) (Hk & Bk & Mk).
  destruct (Z.lt_trichotomy j k) as [H|[H|H]]; [|done|].
  - by rewrite Mk in Bj by lia.
  - by rewrite Mj in Bk by lia.
Qed.

Lemma lowest_bit_odd_part z k :
  lowest_bit z k -> exists m, z = 2 ^ k * (2 * m + 1).
Proof.
  intros (Hk & Bk & Mk). exists (z / 2 ^ k / 2).
  assert (z mod 2 ^ k = 0) as Hm.
  { apply Z.bits_inj'; intros i Hi. rewrite testbit_mod_pow2, Z.bits_0 by done.
    destruct (Z.ltb_spec i k); [|done]. by apply Mk. }
  assert (z / 2 ^ k mod 2 = 1) as Ho.
  { rewrite <- Z.shiftr_div_pow2 by done. rewrite <- Z.bit0_mod.
    rewrite Z.shiftr_spec by done. by rewrite Z.add_0_l, Bk. }
  pose proof (Z.div_mod z (2 ^ k) ltac:(lia)).
  pose proof (Z.div_mod (z / 2 ^ k) 2 ltac:(lia)). rewrite Ho in *. lia.
Qed.

(** The two's complement trick: [z & -z] isolates the lowest one bit. *)
Lemma land_opp_lowest z k : lowest_bit z k -> Z.land z (- z) = 2 ^ k.
Proof.
  intros Hl. destruct (lowest_bit_odd_part z k Hl) as [m ->].
  destruct Hl as (Hk & _).
  assert (2 ^ k * (2 * m + 1) = 0 + 2 ^ k * (1 + 2 ^ 1 * m)) as E1 by lia.
  assert (- (2 ^ k * (2 * m + 1)) = Z.lnot (Z.ones k + 2 ^ k * (0 + 2 ^ 1 * m))) as E2.
  { unfold Z.lnot. rewrite Z.ones_equiv. lia. }
  rewrite E2, E1. apply Z.bits_inj'; intros i Hi.
  assert (is_u k (Z.ones k)) by (rewrite Z.ones_equiv; split; lia).
  rewrite Z.land_spec, Z.lnot_spec, Z.pow2_bits_eqb by done.
  rewrite (testbit_split 0 _ k), (testbit_split (Z.ones k) _ k) by solve_isu.
  destruct (Z.ltb_spec i k).
  - rewrite Z.bits_0. simpl. symmetry. apply Z.eqb_neq. lia.
  - rewrite !testbit_split by solve_isu.
    destruct (Z.ltb_spec (i - k) 1).
    + assert (i = k) as -> by lia. by rewrite Z.sub_diag, Z.eqb_refl.
    + rewrite andb_negb_r. symmetry. apply Z.eqb_neq. lia.
Qed.

(** A nonzero word has a lowest one bit. *)
Lemma lowest_bit_exists z : 0 < z -> exists k, lowest_bit z k.
Proof.
  intros Hz. destruct z as [|p|]; [lia| |lia]. clear Hz.
  induction p as [p IH|p [k (Hk & Bk & Mk)]|].
  - exists 0. split_and!; [lia|done|lia].
  - exists (k + 1). replace (Z.pos p~0) with (2 * Z.pos p) by lia.
    split_and!; [lia| |].
    + by rewrite Z.add_1_r, Z.double_bits_succ.
    + intros i Hi. destruct (decide (i = 0)) as [->|]; [apply Z.testbit_even_0|].
      replace i with (Z.succ (i - 1)) by lia. rewrite Z.double_bits_succ. apply Mk. lia.
  - exists 0. split_and!; [lia|done|lia].
Qed.

Lemma bits_nonzero z i : Z.testbit z i = true -> z <> 0.
Proof. intros H ->. by rewrite Z.bits_0 in H. Qed.

(** * Generic lemmas on lists and bytes *)

Lemma filter_seqZ_empty (P : Z -> Prop) `{forall x, Decision (P x)} m n :
  (forall x, m <= x < m + n -> ~ P x) -> filter P (seqZ m n) = [].
Proof.
  intros HP. apply elem_of_nil_inv.
  intros x. rewrite list_elem_of_filter, elem_of_seqZ. intros [Hp Hx].
  destruct (HP x ltac:(lia) Hp).
Qed.

Lemma filter_fmap_list {A B} (f : A -> B) (P : B -> Prop) `{forall x, Decision (P x)} (l : list A) :
  filter P (f <$> l) = f <$> filter (fun x => P (f x)) l.
Proof.
  induction l as [|x l IH]; [done|]. rewrite fmap_cons, !filter_cons, IH.
  by destruct (decide (P (f x))).
Qed.

Lemma filter_ext_in {A} (P Q : A -> Prop)
    `{forall x, Decision (P x)} `{forall x, Decision (Q x)} (l : list A) :
  (forall x, x ∈ l -> P x <-> Q x) -> filter P l = filter Q l.
Proof.
  induction l as [|x l IH]; [done|]. intros HPQ. rewrite !filter_cons.
  rewrite IH by (intros y Hy; apply HPQ; by constructor).
  pose proof (HPQ x ltac:(constructor)). destruct (decide (P x)), (decide (Q x)); done || tauto.
Qed.

Lemma lowest_bit_lt w k n : is_u n w -> 0 <= n -> lowest_bit w k -> k < n.
Proof.
  intros Hw Hn (Hk & Bk & _). destruct (Z.lt_ge_cases k n); [done|].
  by rewrite (is_u_testbit n w k Hw ltac:(lia)) in Bk.
Qed.

Lemma lowest_bit_pow2 k : 0 <= k -> lowest_bit (2 ^ k) k.
Proof.
  intros Hk. split_and!; [done|by rewrite Z.pow2_bits_eqb, Z.eqb_refl|].
  intros i Hi. rewrite Z.pow2_bits_eqb by done. apply Z.eqb_neq. lia.
Qed.

Lemma is_u_pow2 k n : 0 <= k < n -> is_u n (2 ^ k).
Proof. intros. split; [lia|]. apply Z.pow_lt_mono_r; lia. Qed.

Lemma land_255 w : Z.land w 255 = w mod 2 ^ 8.
Proof. by apply (Z.land_ones w 8). Qed.

Lemma testbit_byte w i : 0 <= i < 8 -> Z.testbit (Z.land w 255) i = Z.testbit w i.
Proof. intros. rewrite land_255, testbit_mod_pow2 by lia. by destruct (Z.ltb_spec i 8); [|lia]. Qed.

Lemma is_u_ldiff w a b : 0 <= w -> is_u w a -> is_u w (Z.ldiff a b).
Proof.
  intros Hw Ha. apply is_u_of_bits; [done|apply Z.ldiff_nonneg; left; apply Ha|].
  intros i Hi. by rewrite Z.ldiff_spec, (is_u_testbit w a).
Qed.

Lemma alter_nonempty {A} (f : A -> A) n (l : list A) : l <> [] -> alter f n l <> [].
Proof. intros Hl E. apply (f_equal length) in E. rewrite length_alter in E. by destruct l. Qed.

(** The block size the system is configured with. *)
Definition BLCKSZ : Z := 8192.

(** * Arrays indexed by a C [int] *)

Definition zget {A} (l : list A) (i : Z) : option A :=
  if i <? 0 then None else l !! Z.to_nat i.

(** [l[i] = x]; [None] when [i] is out of range. *)
Definition zset {A} (l : list A) (i : Z) (x : A) : option (list A) :=
  if (0 <=? i) && (i <? Z.of_nat (length l)) then Some (<[Z.to_nat i := x]> l) else None.

Definition zlen {A} (l : list A) : Z := Z.of_nat (length l).

Lemma zlen_nonneg {A} (l : list A) : 0 <= zlen l.
Proof. unfold zlen. lia. Qed.

Lemma zlen_cons {A} (x : A) l : zlen (x :: l) = 1 + zlen l.
Proof. unfold zlen. cbn [length]. lia. Qed.

Lemma zlen_app {A} (l l' : list A) : zlen (l ++ l') = zlen l + zlen l'.
Proof. unfold zlen. rewrite length_app. lia. Qed.

Lemma zget_Some_lt {A} (l : list A) i x : zget l i = Some x -> 0 <= i < zlen l.
Proof.
  unfold zget, zlen. destruct (Z.ltb_spec i 0); [done|]. intros Hx%lookup_lt_Some. lia.
Qed.

Lemma zget_nil {A} i : zget (@nil A) i = None.
Proof. unfold zget. by destruct (i <? 0). Qed.

Lemma zget_cons {A} (x : A) l i : zget (x :: l) i = if i =? 0 then Some x else zget l (i - 1).
Proof.
  unfold zget. destruct (Z.eqb_spec i 0) as [->|]; [done|].
  destruct (Z.ltb_spec i 0), (Z.ltb_spec (i - 1) 0); try lia; [done|].
  replace (Z.to_nat i) with (S (Z.to_nat (i - 1))) by lia. done.
Qed.

Lemma zget_is_Some {A} (l : list A) i : 0 <= i < zlen l -> exists x, zget l i = Some x.
Proof.
  unfold zget, zlen. intros Hi. destruct (Z.ltb_spec i 0); [lia|].
  apply lookup_lt_is_Some_2. lia.
Qed.

Lemma zset_is_Some {A} (l : list A) i x :
  0 <= i < zlen l -> exists l', zset l i x = Some l'.
Proof.
  unfold zset, zlen. intros Hi. destruct (Z.leb_spec 0 i); [|lia].
  destruct (Z.ltb_spec i (Z.of_nat (length l))); [|lia]. by eexists.
Qed.

Lemma zset_Some {A} (l l' : list A) i x :
  zset l i x = Some l' -> 0 <= i < zlen l /\ l' = <[Z.to_nat i := x]> l.
Proof.
  unfold zset, zlen. destruct (Z.leb_spec 0 i); [|done].
  destruct (Z.ltb_spec i (Z.of_nat (length l))); [|done]. intros [= <-]. split; [lia|done].
Qed.

Lemma zset_len {A} (l l' : list A) i x : zset l i x = Some l' -> zlen l' = zlen l.
Proof. intros [_ ->]%zset_Some. unfold zlen. by rewrite length_insert. Qed.

Lemma zget_zset {A} (l l' : list A) i j x :
  zset l i x = Some l' -> zget l' j = if decide (j = i) then Some x else zget l j.
Proof.
  intros [Hi ->]%zset_Some. unfold zget, zlen in *. destruct (Z.ltb_spec j 0).
  - by rewrite decide_False by lia.
  - case_decide as E.
    + subst j. apply list_lookup_insert_eq. lia.
    + apply list_lookup_insert_ne. lia.
Qed.

Lemma zget_app_l {A} (l l' : list A) i : i < zlen l -> zget (l ++ l') i = zget l i.
Proof. unfold zget, zlen. destruct (Z.ltb_spec i 0); [done|]. intros. apply lookup_app_l. lia. Qed.

Lemma zget_app_r {A} (l l' : list A) i : 0 <= i -> zget (l ++ l') (zlen l + i) = zget l' i.
Proof.
  unfold zget, zlen. intros Hi. destruct (Z.ltb_spec (Z.of_nat (length l) + i) 0); [lia|].
  destruct (Z.ltb_spec i 0); [lia|]. rewrite lookup_app_r by lia. f_equal. lia.
Qed.

Lemma zset_app_r {A} (l : list A) x y l' : zset (l ++ x :: l') (zlen l) y = Some (l ++ y :: l').
Proof.
  unfold zset, zlen. rewrite length_app. cbn. destruct (Z.leb_spec 0 (Z.of_nat (length l))); [|lia].
  destruct (Z.ltb_spec (Z.of_nat (length l)) (Z.of_nat (length l + S (length l')))); [|lia]. cbn.
  rewrite Nat2Z.id, insert_app_r_alt by lia. rewrite Nat.sub_diag. done.
Qed.

Lemma zget_mid {A} (pre l post : list A) i : 0 <= i < zlen l -> zget (pre ++ l ++ post) (zlen pre + i) = zget l i.
Proof. intros Hi. rewrite zget_app_r by lia. apply zget_app_l. lia. Qed.

Lemma zget_take {A} (l : list A) k i : 0 <= k -> zget (take (Z.to_nat k) l) i = if i <? k then zget l i else None.
Proof.
  intros Hk. unfold zget. destruct (Z.ltb_spec i 0), (Z.ltb_spec i k); try lia; [done| |].
  - apply lookup_take_lt. lia.
  - apply lookup_ge_None_2. rewrite length_take. lia.
Qed.

Lemma zlen_take {A} (l : list A) k : 0 <= k <= zlen l -> zlen (take (Z.to_nat k) l) = k.
Proof. unfold zlen. rewrite length_take. lia. Qed.

(** Arrays are equal when they agree at every index. *)
Lemma zget_ext {A} (l l' : list A) :
  zlen l = zlen l' -> (forall i, 0 <= i < zlen l -> zget l i = zget l' i) -> l = l'.
Proof.
  unfold zlen. intros Hl H. apply list_eq. intros i.
  destruct (decide (i < length l)%nat).
  - specialize (H (Z.of_nat i) ltac:(lia)). unfold zget in H.
    destruct (Z.ltb_spec (Z.of_nat i) 0); [lia|]. by rewrite Nat2Z.id in H.
  - rewrite !lookup_ge_None_2 by lia. done.
Qed.

(** * Loops without a structural measure

    [loop k step s] runs a loop body at most [2 ^ k] times and stops as soon
    as the body leaves the loop.  [Undef] stands for a loop that is still
    running then, so that a theorem that a loop returns has to bound it. *)
Fixpoint loop_steps {S R} (k : nat) (step : S -> S + R) (s : S) : S + R :=
  match k with
  | O => step s
  | Datatypes.S k' =>
      match loop_steps k' step s with
      | inl s' => loop_steps k' step s'
      | inr r => inr r
      end
  end.

Definition loop {S R} (k : nat) (step : S -> S + cres R) (s : S) : cres R :=
  match loop_steps k step s with inl _ => Undef | inr r => r end.

Section loop_lemmas.
Context {S R : Type} (step : S -> S + cres R) (I : S -> Prop) (m : S -> Z).
Hypothesis step_inv : forall s s', I s -> step s = inl s' -> I s' /\ 0 <= m s' < m s.

Lemma loop_steps_spec k s :
  I s ->
  match loop_steps k step s with
  | inl s' => I s' /\ m s' <= m s - 2 ^ Z.of_nat k /\ 0 <= m s'
  | inr r => exists s', I s' /\ step s' = inr r
  end.
Proof using step_inv.
  revert s. induction k as [|k IH]; intros s Hs.
  - simpl. destruct (step s) as [s'|r] eqn:E; [|by exists s].
    destruct (step_inv s s' Hs E). split_and!; [done|lia|lia].
  - cbn [loop_steps]. pose proof (IH s Hs) as H1.
    destruct (loop_steps k step s) as [s1|r]; [|done].
    destruct H1 as (Hs1 & Hm1 & Hp1). pose proof (IH s1 Hs1) as H2.
    destruct (loop_steps k step s1) as [s2|r]; [|done].
    destruct H2 as (Hs2 & Hm2 & Hp2). split_and!; [done| |done].
    replace (Z.of_nat (Datatypes.S k)) with (Z.of_nat k + 1) by lia.
    rewrite Z.pow_add_r by lia. lia.
Qed.

(** A loop whose measure starts below [2 ^ k] leaves through its body. *)
Lemma loop_exits k s :
  I s -> m s < 2 ^ Z.of_nat k -> exists s', I s' /\ step s' = inr (loop k step s).
Proof using step_inv.
  intros Hs Hm. pose proof (loop_steps_spec k s Hs) as H. unfold loop.
  destruct (loop_steps k step s) as [s'|r]; [lia|done].
Qed.

(** What every exit establishes, the loop returns. *)
Lemma loop_ensures k s (Q : cres R -> Prop) :
  I s -> m s < 2 ^ Z.of_nat k -> (forall s' r, I s' -> step s' = inr r -> Q r) ->
  Q (loop k step s).
Proof using step_inv. intros Hs Hm HQ. destruct (loop_exits k s Hs Hm) as (s' & Hs' & E). eauto. Qed.
End loop_lemmas.
