(* ===== verification/Bitmapset.v ===== *)
(** Bitmap sets (src/backend/nodes/bitmapset.c, src/include/nodes/bitmapset.h).

    A [Bitmapset] is an array of 32-bit words; a NULL pointer is [None] and
    stands for the empty set.  The abstraction of a set is one integer
    [bms_val], whose bit [x] is set when [x] is a member, so that the set
    operations are the bit operations of [Z].  Routines that modify or recycle
    an argument return the contents of the object they return; routines that
    free an argument return nothing of it.

    The loops over words are recursions on the word lists; the loops that
    shift a word byte by byte run on fuel, and running out of it is [Undef], so
    every theorem that gives a [Ret] result also shows that the loop ends. *)
From S2P Require Import Prelude.

(** * Data *)

Definition BITS_PER_BITMAPWORD : Z := 32.

Record Bitmapset := mkBitmapset { words : list Z }.

(** [words] is really [[nwords]]. *)
Definition nwords (a : Bitmapset) : Z := Z.of_nat (length (words a)).

Inductive BMS_Comparison := BMS_EQUAL | BMS_SUBSET1 | BMS_SUBSET2 | BMS_DIFFERENT.

Inductive BMS_Membership := BMS_EMPTY_SET | BMS_SINGLETON | BMS_MULTIPLE.

#[export] Instance BMS_Comparison_eq_dec : EqDecision BMS_Comparison.
Proof. solve_decision. Defined.
#[export] Instance BMS_Membership_eq_dec : EqDecision BMS_Membership.
Proof. solve_decision. Defined.

Definition WORDNUM (x : Z) : Z := Z.quot x BITS_PER_BITMAPWORD.
Definition BITNUM (x : Z) : Z := Z.rem x BITS_PER_BITMAPWORD.

(** [(signedbitmapword) (x) & -((signedbitmapword) (x))], read back as a word. *)
Definition RIGHTMOST_ONE (x : Z) : Z := u32 (Z.land (s32 x) (s32 (- s32 x))).
Definition HAS_MULTIPLE_ONES (x : Z) : bool := negb (RIGHTMOST_ONE x =? x).

Definition rightmost_one_pos : list Z :=
  [0; 0; 1; 0; 2; 0; 1; 0; 3; 0; 1; 0; 2; 0; 1; 0;
   4; 0; 1; 0; 2; 0; 1; 0; 3; 0; 1; 0; 2; 0; 1; 0;
   5; 0; 1; 0; 2; 0; 1; 0; 3; 0; 1; 0; 2; 0; 1; 0;
   4; 0; 1; 0; 2; 0; 1; 0; 3; 0; 1; 0; 2; 0; 1; 0;
   6; 0; 1; 0; 2; 0; 1; 0; 3; 0; 1; 0; 2; 0; 1; 0;
   4; 0; 1; 0; 2; 0; 1; 0; 3; 0; 1; 0; 2; 0; 1; 0;
   5; 0; 1; 0; 2; 0; 1; 0; 3; 0; 1; 0; 2; 0; 1; 0;
   4; 0; 1; 0; 2; 0; 1; 0; 3; 0; 1; 0; 2; 0; 1; 0;
   7; 0; 1; 0; 2; 0; 1; 0; 3; 0; 1; 0; 2; 0; 1; 0;
   4; 0; 1; 0; 2; 0; 1; 0; 3; 0; 1; 0; 2; 0; 1; 0;
   5; 0; 1; 0; 2; 0; 1; 0; 3; 0; 1; 0; 2; 0; 1; 0;
   4; 0; 1; 0; 2; 0; 1; 0; 3; 0; 1; 0; 2; 0; 1; 0;
   6; 0; 1; 0; 2; 0; 1; 0; 3; 0; 1; 0; 2; 0; 1; 0;
   4; 0; 1; 0; 2; 0; 1; 0; 3; 0; 1; 0; 2; 0; 1; 0;
   5; 0; 1; 0; 2; 0; 1; 0; 3; 0; 1; 0; 2; 0; 1; 0;
   4; 0; 1; 0; 2; 0; 1; 0; 3; 0; 1; 0; 2; 0; 1; 0].

Definition leftmost_one_pos : list Z :=
  [0; 0; 1; 1; 2; 2; 2; 2; 3; 3; 3; 3; 3; 3; 3; 3;
   4; 4; 4; 4; 4; 4; 4; 4; 4; 4; 4; 4; 4; 4; 4; 4;
   5; 5; 5; 5; 5; 5; 5; 5; 5; 5; 5; 5; 5; 5; 5; 5;
   5; 5; 5; 5; 5; 5; 5; 5; 5; 5; 5; 5; 5; 5; 5; 5;
   6; 6; 6; 6; 6; 6; 6; 6; 6; 6; 6; 6; 6; 6; 6; 6;
   6; 6; 6; 6; 6; 6; 6; 6; 6; 6; 6; 6; 6; 6; 6; 6;
   6; 6; 6; 6; 6; 6; 6; 6; 6; 6; 6; 6; 6; 6; 6; 6;
   6; 6; 6; 6; 6; 6; 6; 6; 6; 6; 6; 6; 6; 6; 6; 6;
   7; 7; 7; 7; 7; 7; 7; 7; 7; 7; 7; 7; 7; 7; 7; 7;
   7; 7; 7; 7; 7; 7; 7; 7; 7; 7; 7; 7; 7; 7; 7; 7;
   7; 7; 7; 7; 7; 7; 7; 7; 7; 7; 7; 7; 7; 7; 7; 7;
   7; 7; 7; 7; 7; 7; 7; 7; 7; 7; 7; 7; 7; 7; 7; 7;
   7; 7; 7; 7; 7; 7; 7; 7; 7; 7; 7; 7; 7; 7; 7; 7;
   7; 7; 7; 7; 7; 7; 7; 7; 7; 7; 7; 7; 7; 7; 7; 7;
   7; 7; 7; 7; 7; 7; 7; 7; 7; 7; 7; 7; 7; 7; 7; 7;
   7; 7; 7; 7; 7; 7; 7; 7; 7; 7; 7; 7; 7; 7; 7; 7].

Definition number_of_ones : list Z :=
  [0; 1; 1; 2; 1; 2; 2; 3; 1; 2; 2; 3; 2; 3; 3; 4;
   1; 2; 2; 3; 2; 3; 3; 4; 2; 3; 3; 4; 3; 4; 4; 5;
   1; 2; 2; 3; 2; 3; 3; 4; 2; 3; 3; 4; 3; 4; 4; 5;
   2; 3; 3; 4; 3; 4; 4; 5; 3; 4; 4; 5; 4; 5; 5; 6;
   1; 2; 2; 3; 2; 3; 3; 4; 2; 3; 3; 4; 3; 4; 4; 5;
   2; 3; 3; 4; 3; 4; 4; 5; 3; 4; 4; 5; 4; 5; 5; 6;
   2; 3; 3; 4; 3; 4; 4; 5; 3; 4; 4; 5; 4; 5; 5; 6;
   3; 4; 4; 5; 4; 5; 5; 6; 4; 5; 5; 6; 5; 6; 6; 7;
   1; 2; 2; 3; 2; 3; 3; 4; 2; 3; 3; 4; 3; 4; 4; 5;
   2; 3; 3; 4; 3; 4; 4; 5; 3; 4; 4; 5; 4; 5; 5; 6;
   2; 3; 3; 4; 3; 4; 4; 5; 3; 4; 4; 5; 4; 5; 5; 6;
   3; 4; 4; 5; 4; 5; 5; 6; 4; 5; 5; 6; 5; 6; 6; 7;
   2; 3; 3; 4; 3; 4; 4; 5; 3; 4; 4; 5; 4; 5; 5; 6;
   3; 4; 4; 5; 4; 5; 5; 6; 4; 5; 5; 6; 5; 6; 6; 7;
   3; 4; 4; 5; 4; 5; 5; 6; 4; 5; 5; 6; 5; 6; 6; 7;
   4; 5; 5; 6; 5; 6; 6; 7; 5; 6; 6; 7; 6; 7; 7; 8].

(** [~(bitmapword) 0]. *)
Definition all_ones : Z := u32_not 0.

(** The message of every range check. *)
Definition neg_member : string := "negative bitmapset member not allowed".

(** * Operations that leave their inputs untouched *)

Definition bms_copy (a : option Bitmapset) : option Bitmapset :=
  match a with
  | None => None
  | Some a => Some {| words := words a |}
  end.

(** [for (...) if (words[i] != 0) return false; return true]. *)
Fixpoint all_zero (ws : list Z) : bool :=
  match ws with
  | [] => true
  | w :: ws' => if negb (w =? 0) then false else all_zero ws'
  end.

Definition bms_is_empty (a : option Bitmapset) : bool :=
  match a with
  | None => true
  | Some a => all_zero (words a)
  end.

Fixpoint equal_loop (shorter longer : list Z) : bool :=
  match shorter with
  | [] => all_zero longer
  | x :: shorter' =>
      match longer with
      | [] => true
      | y :: longer' => if negb (x =? y) then false else equal_loop shorter' longer'
      end
  end.

Definition bms_equal (a b : option Bitmapset) : bool :=
  match a, b with
  | None, None => true
  | None, Some _ => bms_is_empty b
  | Some _, None => bms_is_empty a
  | Some a, Some b =>
      let '(shorter, longer) := if nwords a <=? nwords b then (a, b) else (b, a) in
      equal_loop (words shorter) (words longer)
  end.

(** [while (--i >= 0)] over the common words. *)
Fixpoint compare_down (a b : list Z) (i : nat) : Z :=
  match i with
  | O => 0
  | S i =>
      let aw := a !!! i in
      let bw := b !!! i in
      if negb (aw =? bw) then (if aw >? bw then 1 else -1) else compare_down a b i
  end.

Definition bms_compare (a b : option Bitmapset) : Z :=
  match a, b with
  | None, _ => if bms_is_empty b then 0 else -1
  | Some _, None => if bms_is_empty a then 0 else 1
  | Some a, Some b =>
      let shortlen := Nat.min (length (words a)) (length (words b)) in
      if negb (all_zero (drop shortlen (words a))) then 1
      else if negb (all_zero (drop shortlen (words b))) then -1
      else compare_down (words a) (words b) shortlen
  end.

Definition bms_make_singleton (x : Z) : cres (option Bitmapset) :=
  if x <? 0 then Elog neg_member
  else
    let wordnum := WORDNUM x in
    let bitnum := BITNUM x in
    let result := replicate (Z.to_nat (wordnum + 1)) 0 in
    Ret (Some {| words := <[Z.to_nat wordnum := u32_shl 1 bitnum]> result |}).

(** [result->words[i] |= other->words[i]] for every word of [other]. *)
Fixpoint or_into (result other : list Z) : list Z :=
  match other, result with
  | o :: other', r :: result' => Z.lor r o :: or_into result' other'
  | _, _ => result
  end.

Definition bms_union (a b : option Bitmapset) : option Bitmapset :=
  match a, b with
  | None, _ => bms_copy b
  | _, None => bms_copy a
  | Some a, Some b =>
      let '(result, other) := if nwords a <=? nwords b then (b, a) else (a, b) in
      Some {| words := or_into (words result) (words other) |}
  end.

(** [result->words[i] &= other->words[i]] for every word of [result]. *)
Fixpoint and_into (result other : list Z) : list Z :=
  match result, other with
  | r :: result', o :: other' => Z.land r o :: and_into result' other'
  | _, _ => result
  end.

Definition bms_intersect (a b : option Bitmapset) : option Bitmapset :=
  match a, b with
  | Some a, Some b =>
      let '(result, other) := if nwords a <=? nwords b then (a, b) else (b, a) in
      Some {| words := and_into (words result) (words other) |}
  | _, _ => None
  end.

(** [result->words[i] &= ~b->words[i]] for every word in common. *)
Fixpoint andnot_into (result b : list Z) : list Z :=
  match result, b with
  | r :: result', o :: b' => Z.land r (u32_not o) :: andnot_into result' b'
  | _, _ => result
  end.

Definition bms_difference (a b : option Bitmapset) : option Bitmapset :=
  match a, b with
  | None, _ => None
  | _, None => bms_copy a
  | Some a, Some b => Some {| words := andnot_into (words a) (words b) |}
  end.

Fixpoint is_subset_loop (a b : list Z) : bool :=
  match a, b with
  | [], _ => true
  | _, [] => all_zero a
  | x :: a', y :: b' =>
      if negb (Z.land x (u32_not y) =? 0) then false else is_subset_loop a' b'
  end.

Definition bms_is_subset (a b : option Bitmapset) : bool :=
  match a, b with
  | None, _ => true
  | _, None => bms_is_empty a
  | Some a, Some b => is_subset_loop (words a) (words b)
  end.

(** The extra words of the longer input, when a nonzero one moves the status
    to [found] unless it is already [against]. *)
Fixpoint subset_extra (found against : BMS_Comparison) (ws : list Z)
    (result : BMS_Comparison) : BMS_Comparison :=
  match ws with
  | [] => result
  | w :: ws' =>
      if negb (w =? 0) then
        if decide (result = against) then BMS_DIFFERENT
        else subset_extra found against ws' found
      else subset_extra found against ws' result
  end.

Fixpoint subset_common (a b : list Z) (result : BMS_Comparison) : BMS_Comparison :=
  match a, b with
  | aword :: a', bword :: b' =>
      let step2 (result : BMS_Comparison) :=
        if negb (Z.land bword (u32_not aword) =? 0) then
          if decide (result = BMS_SUBSET2) then BMS_DIFFERENT
          else subset_common a' b' BMS_SUBSET1
        else subset_common a' b' result in
      if negb (Z.land aword (u32_not bword) =? 0) then
        if decide (result = BMS_SUBSET1) then BMS_DIFFERENT
        else step2 BMS_SUBSET2
      else step2 result
  | [], [] => result
  | _ :: _, [] => subset_extra BMS_SUBSET2 BMS_SUBSET1 a result
  | [], _ :: _ => subset_extra BMS_SUBSET1 BMS_SUBSET2 b result
  end.

Definition bms_subset_compare (a b : option Bitmapset) : BMS_Comparison :=
  match a, b with
  | None, None => BMS_EQUAL
  | None, Some _ => if bms_is_empty b then BMS_EQUAL else BMS_SUBSET1
  | Some _, None => if bms_is_empty a then BMS_EQUAL else BMS_SUBSET2
  | Some a, Some b => subset_common (words a) (words b) BMS_EQUAL
  end.

(** [(a->words[wordnum] & ((bitmapword) 1 << bitnum)) != 0]. *)
Definition word_has (ws : list Z) (wordnum bitnum : Z) : bool :=
  negb (Z.land (ws !!! Z.to_nat wordnum) (u32_shl 1 bitnum) =? 0).

Definition bms_is_member (x : Z) (a : option Bitmapset) : cres bool :=
  if x <? 0 then Elog neg_member
  else
    match a with
    | None => Ret false
    | Some a =>
        let wordnum := WORDNUM x in
        let bitnum := BITNUM x in
        if wordnum >=? nwords a then Ret false
        else if word_has (words a) wordnum bitnum then Ret true
        else Ret false
    end.

Fixpoint overlap_loop (a b : list Z) : bool :=
  match a, b with
  | x :: a', y :: b' => if negb (Z.land x y =? 0) then true else overlap_loop a' b'
  | _, _ => false
  end.

Definition bms_overlap (a b : option Bitmapset) : bool :=
  match a, b with
  | Some a, Some b => overlap_loop (words a) (words b)
  | _, _ => false
  end.

(** The [foreach] over the integer list. *)
Fixpoint overlap_list_loop (a : Bitmapset) (b : list Z) : cres bool :=
  match b with
  | [] => Ret false
  | x :: b' =>
      if x <? 0 then Elog neg_member
      else
        let wordnum := WORDNUM x in
        let bitnum := BITNUM x in
        if (wordnum <? nwords a) && word_has (words a) wordnum bitnum then Ret true
        else overlap_list_loop a b'
  end.

Definition bms_overlap_list (a : option Bitmapset) (b : list Z) : cres bool :=
  match a, b with
  | None, _ | _, [] => Ret false
  | Some a, _ => overlap_list_loop a b
  end.

Fixpoint nonempty_difference_loop (a b : list Z) : bool :=
  match a, b with
  | [], _ => false
  | _, [] => negb (all_zero a)
  | x :: a', y :: b' =>
      if negb (Z.land x (u32_not y) =? 0) then true else nonempty_difference_loop a' b'
  end.

Definition bms_nonempty_difference (a b : option Bitmapset) : bool :=
  match a, b with
  | None, _ => false
  | Some _, None => negb (bms_is_empty a)
  | Some a, Some b => nonempty_difference_loop (words a) (words b)
  end.

(** [while ((w & 255) == 0) { w >>= 8; result += 8; }
     result += rightmost_one_pos[w & 255];] *)
Fixpoint rightmost_scan (fuel : nat) (w result : Z) : cres Z :=
  match fuel with
  | O => Undef
  | S fuel =>
      if Z.land w 255 =? 0 then rightmost_scan fuel (Z.shiftr w 8) (result + 8)
      else Ret (result + rightmost_one_pos !!! Z.to_nat (Z.land w 255))
  end.

Fixpoint singleton_member_loop (ws : list Z) (wordnum result : Z) : cres Z :=
  match ws with
  | [] => Ret result
  | w :: ws' =>
      if negb (w =? 0) then
        if (result >=? 0) || HAS_MULTIPLE_ONES w then Elog "bitmapset has multiple members"
        else
          let* result := rightmost_scan 4 w (wordnum * BITS_PER_BITMAPWORD) in
          singleton_member_loop ws' (wordnum + 1) result
      else singleton_member_loop ws' (wordnum + 1) result
  end.

Definition bms_singleton_member (a : option Bitmapset) : cres Z :=
  match a with
  | None => Elog "bitmapset is empty"
  | Some a =>
      let* result := singleton_member_loop (words a) 0 (-1) in
      if result <? 0 then Elog "bitmapset is empty" else Ret result
  end.

(** The loop of [bms_get_singleton_member]; [None] is its early [return false]. *)
Fixpoint get_singleton_loop (ws : list Z) (wordnum result : Z) : cres (option Z) :=
  match ws with
  | [] => Ret (Some result)
  | w :: ws' =>
      if negb (w =? 0) then
        if (result >=? 0) || HAS_MULTIPLE_ONES w then Ret None
        else
          let* result := rightmost_scan 4 w (wordnum * BITS_PER_BITMAPWORD) in
          get_singleton_loop ws' (wordnum + 1) result
      else get_singleton_loop ws' (wordnum + 1) result
  end.

(** Returns the boolean and the new value of [*member]. *)
Definition bms_get_singleton_member (a : option Bitmapset) (member : Z) : cres (bool * Z) :=
  match a with
  | None => Ret (false, member)
  | Some a =>
      let* r := get_singleton_loop (words a) 0 (-1) in
      match r with
      | None => Ret (false, member)
      | Some result => if result <? 0 then Ret (false, member) else Ret (true, result)
      end
  end.

(** [while (w != 0) { result += number_of_ones[w & 255]; w >>= 8; }] *)
Fixpoint count_ones (fuel : nat) (w result : Z) : cres Z :=
  if w =? 0 then Ret result
  else
    match fuel with
    | O => Undef
    | S fuel =>
        count_ones fuel (Z.shiftr w 8) (result + number_of_ones !!! Z.to_nat (Z.land w 255))
    end.

Fixpoint num_members_loop (ws : list Z) (result : Z) : cres Z :=
  match ws with
  | [] => Ret result
  | w :: ws' => let* result := count_ones 4 w result in num_members_loop ws' result
  end.

Definition bms_num_members (a : option Bitmapset) : cres Z :=
  match a with
  | None => Ret 0
  | Some a => num_members_loop (words a) 0
  end.

Fixpoint membership_loop (ws : list Z) (result : BMS_Membership) : BMS_Membership :=
  match ws with
  | [] => result
  | w :: ws' =>
      if negb (w =? 0) then
        if negb (bool_decide (result = BMS_EMPTY_SET)) || HAS_MULTIPLE_ONES w
        then BMS_MULTIPLE
        else membership_loop ws' BMS_SINGLETON
      else membership_loop ws' result
  end.

Definition bms_membership (a : option Bitmapset) : BMS_Membership :=
  match a with
  | None => BMS_EMPTY_SET
  | Some a => membership_loop (words a) BMS_EMPTY_SET
  end.

(** * Operations that recycle their inputs *)

(** [repalloc] to [n] words with the new ones zeroed. *)
Definition enlarge (ws : list Z) (n : Z) : list Z :=
  ws ++ replicate (Z.to_nat n - length ws) 0.

Definition bms_add_member (a : option Bitmapset) (x : Z) : cres (option Bitmapset) :=
  if x <? 0 then Elog neg_member
  else
    match a with
    | None => bms_make_singleton x
    | Some a =>
        let wordnum := WORDNUM x in
        let bitnum := BITNUM x in
        let ws := if wordnum >=? nwords a then enlarge (words a) (wordnum + 1) else words a in
        Ret (Some {| words := alter (fun w => Z.lor w (u32_shl 1 bitnum)) (Z.to_nat wordnum) ws |})
    end.

Definition bms_del_member (a : option Bitmapset) (x : Z) : cres (option Bitmapset) :=
  if x <? 0 then Elog neg_member
  else
    match a with
    | None => Ret None
    | Some a =>
        let wordnum := WORDNUM x in
        let bitnum := BITNUM x in
        if wordnum <? nwords a then
          Ret (Some {| words := alter (fun w => Z.land w (u32_not (u32_shl 1 bitnum)))
                                      (Z.to_nat wordnum) (words a) |})
        else Ret (Some a)
    end.

Definition bms_add_members (a b : option Bitmapset) : option Bitmapset :=
  match a, b with
  | None, _ => bms_copy b
  | _, None => a
  | Some a, Some b =>
      let '(result, other) := if nwords a <? nwords b then (b, a) else (a, b) in
      Some {| words := or_into (words result) (words other) |}
  end.

(** [while (wordnum < uwordnum) a->words[wordnum++] = ~(bitmapword) 0], [n] times. *)
Fixpoint fill_words (n : nat) (wordnum : nat) (ws : list Z) : list Z :=
  match n with
  | O => ws
  | S n => fill_words n (S wordnum) (<[wordnum := all_ones]> ws)
  end.

Definition bms_add_range (a : option Bitmapset) (lower upper : Z) : cres (option Bitmapset) :=
  if upper <? lower then Ret a
  else if lower <? 0 then Elog neg_member
  else
    let uwordnum := WORDNUM upper in
    let ws :=
      match a with
      | None => replicate (Z.to_nat (uwordnum + 1)) 0
      | Some a => if uwordnum >=? nwords a then enlarge (words a) (uwordnum + 1) else words a
      end in
    let lwordnum := WORDNUM lower in
    let lbitnum := BITNUM lower in
    let ushiftbits := BITS_PER_BITMAPWORD - (BITNUM upper + 1) in
    let lmask := u32_not (u32 (u32_shl 1 lbitnum - 1)) in
    let umask := Z.shiftr all_ones ushiftbits in
    if lwordnum =? uwordnum then
      Ret (Some {| words := alter (fun w => Z.lor w (Z.land lmask umask))
                                  (Z.to_nat lwordnum) ws |})
    else
      let ws := alter (fun w => Z.lor w lmask) (Z.to_nat lwordnum) ws in
      let ws := fill_words (Z.to_nat (uwordnum - (lwordnum + 1)))
                           (Z.to_nat (lwordnum + 1)) ws in
      let ws := alter (fun w => Z.lor w umask) (Z.to_nat uwordnum) ws in
      Ret (Some {| words := ws |}).

(** The common words are intersected, the rest of [a] is zeroed. *)
Fixpoint int_members_loop (a b : list Z) : list Z :=
  match a, b with
  | [], _ => []
  | _ :: a', [] => 0 :: int_members_loop a' []
  | x :: a', y :: b' => Z.land x y :: int_members_loop a' b'
  end.

Definition bms_int_members (a b : option Bitmapset) : option Bitmapset :=
  match a, b with
  | Some a, Some b => Some {| words := int_members_loop (words a) (words b) |}
  | _, _ => None
  end.

Definition bms_del_members (a b : option Bitmapset) : option Bitmapset :=
  match a, b with
  | None, _ => None
  | _, None => a
  | Some a, Some b => Some {| words := andnot_into (words a) (words b) |}
  end.

Definition bms_join (a b : option Bitmapset) : option Bitmapset :=
  match a, b with
  | None, _ => b
  | _, None => a
  | Some a, Some b =>
      let '(result, other) := if nwords a <? nwords b then (b, a) else (a, b) in
      Some {| words := or_into (words result) (words other) |}
  end.

(** * Iteration *)

(** Returns the member and the words with it removed; [None] when all are zero. *)
Fixpoint first_member_loop (ws : list Z) (wordnum : Z) : cres (option (Z * list Z)) :=
  match ws with
  | [] => Ret None
  | w :: ws' =>
      if negb (w =? 0) then
        let r := RIGHTMOST_ONE w in
        let* result := rightmost_scan 4 r (wordnum * BITS_PER_BITMAPWORD) in
        Ret (Some (result, Z.land w (u32_not r) :: ws'))
      else
        let* rest := first_member_loop ws' (wordnum + 1) in
        Ret (match rest with
             | Some (result, ws') => Some (result, w :: ws')
             | None => None
             end)
  end.

(** Returns the member, or -1, and the set as it is left. *)
Definition bms_first_member (a : option Bitmapset) : cres (Z * option Bitmapset) :=
  match a with
  | None => Ret (-1, None)
  | Some a =>
      let* r := first_member_loop (words a) 0 in
      match r with
      | Some (result, ws) => Ret (result, Some {| words := ws |})
      | None => Ret (-1, Some a)
      end
  end.

Fixpoint next_member_loop (ws : list Z) (wordnum mask : Z) : cres Z :=
  match ws with
  | [] => Ret (-2)
  | w :: ws' =>
      let w := Z.land w mask in
      if negb (w =? 0) then rightmost_scan 4 w (wordnum * BITS_PER_BITMAPWORD)
      else next_member_loop ws' (wordnum + 1) all_ones
  end.

Definition bms_next_member (a : option Bitmapset) (prevbit : Z) : cres Z :=
  match a with
  | None => Ret (-2)
  | Some a =>
      let prevbit := prevbit + 1 in
      let mask := u32_shl all_ones (BITNUM prevbit) in
      let wordnum := WORDNUM prevbit in
      next_member_loop (drop (Z.to_nat wordnum) (words a)) wordnum mask
  end.

(** [while ((w >> shift) == 0) shift -= 8;] and the table lookup. *)
Fixpoint leftmost_scan (fuel : nat) (w shift result : Z) : cres Z :=
  match fuel with
  | O => Undef
  | S fuel =>
      if Z.shiftr w shift =? 0 then leftmost_scan fuel w (shift - 8) result
      else Ret (result + (shift + leftmost_one_pos !!! Z.to_nat (Z.land (Z.shiftr w shift) 255)))
  end.

(** [n] is [wordnum + 1]. *)
Fixpoint prev_member_loop (ws : list Z) (n : nat) (mask : Z) : cres Z :=
  match n with
  | O => Ret (-2)
  | S wordnum =>
      let* w := deref (ws !! wordnum) in
      let w := Z.land w mask in
      if negb (w =? 0) then
        leftmost_scan 4 w (BITS_PER_BITMAPWORD - 8) (Z.of_nat wordnum * BITS_PER_BITMAPWORD)
      else prev_member_loop ws wordnum all_ones
  end.

Definition bms_prev_member (a : option Bitmapset) (prevbit : Z) : cres Z :=
  match a with
  | None => Ret (-2)
  | Some a =>
      if prevbit =? 0 then Ret (-2)
      else
        let prevbit :=
          if prevbit =? -1 then nwords a * BITS_PER_BITMAPWORD - 1 else prevbit - 1 in
        let ushiftbits := BITS_PER_BITMAPWORD - (BITNUM prevbit + 1) in
        let mask := Z.shiftr all_ones ushiftbits in
        prev_member_loop (words a) (Z.to_nat (WORDNUM prevbit + 1)) mask
  end.

(** * Hashing *)

(** [for (lastword = a->nwords; --lastword >= 0;)]: the number of words up to
    the last nonzero one. *)
Fixpoint last_nonzero (ws : list Z) (n : nat) : nat :=
  match n with
  | O => O
  | S lastword => if negb (ws !!! lastword =? 0) then n else last_nonzero ws lastword
  end.

(** [hash_any] is applied to the memory of the first [lastword + 1] words. *)
Definition bms_hash_value (hash_any : list Z -> Z) (a : option Bitmapset) : Z :=
  match a with
  | None => 0
  | Some a =>
      let n := last_nonzero (words a) (length (words a)) in
      if Nat.eqb n 0 then 0 else hash_any (take n (words a))
  end.

(** * The abstraction *)

(** The set of a word list, as the bits of an integer. *)
Fixpoint words_val (ws : list Z) : Z :=
  match ws with
  | [] => 0
  | w :: ws' => w + 2 ^ 32 * words_val ws'
  end.

Definition bms_val (a : option Bitmapset) : Z :=
  match a with None => 0 | Some a => words_val (words a) end.

Definition words_ok (ws : list Z) : Prop := Forall (is_u 32) ws.

(** Representation invariant: at least one word, every word 32 bits wide. *)
Definition bms_ok (a : option Bitmapset) : Prop :=
  match a with None => True | Some a => words a <> [] /\ words_ok (words a) end.

(** The members below [n], in increasing order. *)
Definition members_below (v n : Z) : list Z :=
  filter (fun x => Z.testbit v x = true) (seqZ 0 n).

Lemma words_val_nonneg ws : words_ok ws -> 0 <= words_val ws.
Proof.
  induction 1 as [|w ws Hw Hws IH]; simpl; [lia|]. destruct Hw. lia.
Qed.

Lemma words_val_cons_bit w ws i :
  is_u 32 w -> 0 <= i ->
  Z.testbit (words_val (w :: ws)) i =
  if i <? 32 then Z.testbit w i else Z.testbit (words_val ws) (i - 32).
Proof. intros. cbn [words_val]. by rewrite testbit_split. Qed.

Lemma split_bitop (op : Z -> Z -> Z) (f : bool -> bool -> bool) x y v u :
  (forall a b i, 0 <= i -> Z.testbit (op a b) i = f (Z.testbit a i) (Z.testbit b i)) ->
  is_u 32 x -> is_u 32 y -> is_u 32 (op x y) ->
  op (x + 2 ^ 32 * v) (y + 2 ^ 32 * u) = op x y + 2 ^ 32 * op v u.
Proof.
  intros Hop Hx Hy Hxy. apply Z.bits_inj'; intros i Hi.
  rewrite Hop, !testbit_split by solve_isu.
  destruct (Z.ltb_spec i 32); by rewrite Hop by lia.
Qed.

Lemma split_lor x y v u : is_u 32 x -> is_u 32 y ->
  Z.lor (x + 2 ^ 32 * v) (y + 2 ^ 32 * u) = Z.lor x y + 2 ^ 32 * Z.lor v u.
Proof.
  intros. apply (split_bitop Z.lor orb); auto using Z.lor_spec, is_u_lor.
  by apply is_u_lor.
Qed.

Lemma split_land x y v u : is_u 32 x -> is_u 32 y ->
  Z.land (x + 2 ^ 32 * v) (y + 2 ^ 32 * u) = Z.land x y + 2 ^ 32 * Z.land v u.
Proof.
  intros ? Hy. apply (split_bitop Z.land andb); auto using Z.land_spec.
  apply is_u_land; [done..|apply Hy].
Qed.

Lemma split_ldiff x y v u : is_u 32 x -> is_u 32 y ->
  Z.ldiff (x + 2 ^ 32 * v) (y + 2 ^ 32 * u) = Z.ldiff x y + 2 ^ 32 * Z.ldiff v u.
Proof.
  intros. apply (split_bitop Z.ldiff (fun a b => a && negb b)); auto using Z.ldiff_spec.
  by apply is_u_ldiff.
Qed.

(** [x & ~y] on words is the set difference. *)
Lemma land_u32_not x y : is_u 32 x -> Z.land x (u32_not y) = Z.ldiff x y.
Proof.
  intros Hx. apply Z.bits_inj'; intros i Hi.
  rewrite Z.land_spec, testbit_u32_not, Z.ldiff_spec by done.
  destruct (Z.ltb_spec i 32); [done|]. by rewrite (is_u_testbit 32 x) by solve_isu.
Qed.

Lemma all_zero_spec ws : words_ok ws -> all_zero ws = (words_val ws =? 0).
Proof.
  induction 1 as [|w ws Hw Hws IH]; [done|]. simpl.
  pose proof (words_val_nonneg ws Hws). destruct Hw as [Hw0 Hw1].
  rewrite IH.
  destruct (Z.eqb_spec w 0) as [->|]; simpl;
    destruct (Z.eqb_spec (words_val ws) 0); symmetry;
    (apply Z.eqb_eq || apply Z.eqb_neq); lia.
Qed.

Lemma bms_is_empty_val a : bms_ok a -> bms_is_empty a = (bms_val a =? 0).
Proof. destruct a as [a|]; simpl; [intros []; by apply all_zero_spec|done]. Qed.

Create HintDb bms.
#[export] Hint Resolve is_u_lor is_u_ldiff is_u_u32 words_val_nonneg : bms.

Lemma or_into_val r o :
  words_ok r -> words_ok o -> (length o <= length r)%nat ->
  words_ok (or_into r o) /\ words_val (or_into r o) = Z.lor (words_val r) (words_val o).
Proof.
  intros Hr. revert o. induction Hr as [|x r Hx Hr IH]; intros o Ho Hl.
  - destruct o; simpl in *; [by split; [constructor|]|lia].
  - destruct Ho as [|y o Hy Ho]; [simpl; rewrite Z.lor_0_r; split; [by constructor|done]|].
    destruct (IH o Ho ltac:(simpl in Hl; lia)) as [IH1 IH2].
    split; [constructor; [by apply is_u_lor|done]|]. simpl. by rewrite IH2, split_lor.
Qed.

Lemma and_into_val r o :
  words_ok r -> words_ok o -> (length r <= length o)%nat ->
  words_ok (and_into r o) /\ words_val (and_into r o) = Z.land (words_val r) (words_val o).
Proof.
  intros Hr. revert o. induction Hr as [|x r Hx Hr IH]; intros o Ho Hl; [by split; [constructor|]|].
  destruct Ho as [|y o Hy Ho]; simpl in Hl; [lia|].
  destruct (IH o Ho ltac:(lia)) as [IH1 IH2].
  split; [constructor; [apply is_u_land; [done..|apply Hy]|done]|].
  simpl. by rewrite IH2, split_land.
Qed.

Lemma andnot_into_val r o :
  words_ok r -> words_ok o ->
  words_ok (andnot_into r o) /\ words_val (andnot_into r o) = Z.ldiff (words_val r) (words_val o).
Proof.
  intros Hr. revert o. induction Hr as [|x r Hx Hr IH]; intros o Ho; [by destruct o; split; try constructor|].
  destruct Ho as [|y o Hy Ho]; [simpl; rewrite Z.ldiff_0_r; split; [by constructor|done]|].
  destruct (IH o Ho) as [IH1 IH2]. simpl. rewrite land_u32_not by done.
  split; [constructor; [by apply is_u_ldiff|done]|]. by rewrite IH2, split_ldiff.
Qed.

Lemma int_members_loop_val r o :
  words_ok r -> words_ok o ->
  words_ok (int_members_loop r o) /\
  words_val (int_members_loop r o) = Z.land (words_val r) (words_val o).
Proof.
  intros Hr. revert o. induction Hr as [|x r Hx Hr IH]; intros o Ho; [by split; [constructor|]|].
  destruct Ho as [|y o Hy Ho]; simpl.
  - destruct (IH [] ltac:(constructor)) as [IH1 IH2].
    split; [constructor; [split; lia|done]|]. by rewrite IH2, !Z.land_0_r.
  - destruct (IH o Ho) as [IH1 IH2].
    split; [constructor; [apply is_u_land; [done..|apply Hy]|done]|].
    by rewrite IH2, split_land.
Qed.

(** Words that differ only in trailing zeros, and the emptiness of a difference. *)
Lemma ldiff_zero_split x y v u :
  is_u 32 x -> is_u 32 y -> 0 <= v ->
  (Z.ldiff (x + 2 ^ 32 * v) (y + 2 ^ 32 * u) =? 0) = (Z.ldiff x y =? 0) && (Z.ldiff v u =? 0).
Proof.
  intros Hx Hy Hv. rewrite split_ldiff by done.
  destruct (is_u_ldiff 32 x y ltac:(lia) Hx) as [H0 H1].
  assert (0 <= Z.ldiff v u) by (apply Z.ldiff_nonneg; by left).
  destruct (Z.eqb_spec (Z.ldiff x y) 0), (Z.eqb_spec (Z.ldiff v u) 0); simpl;
    (apply Z.eqb_eq || apply Z.eqb_neq); lia.
Qed.

Lemma land_zero_split x y v u :
  is_u 32 x -> is_u 32 y -> 0 <= v ->
  (Z.land (x + 2 ^ 32 * v) (y + 2 ^ 32 * u) =? 0) = (Z.land x y =? 0) && (Z.land v u =? 0).
Proof.
  intros Hx Hy Hv. rewrite split_land by done.
  destruct (is_u_land 32 x y ltac:(lia) Hx ltac:(apply Hy)) as [H0 H1].
  assert (0 <= Z.land v u) by (apply Z.land_nonneg; by left).
  destruct (Z.eqb_spec (Z.land x y) 0), (Z.eqb_spec (Z.land v u) 0); simpl;
    (apply Z.eqb_eq || apply Z.eqb_neq); lia.
Qed.

Lemma eqb_split x y v u :
  is_u 32 x -> is_u 32 y ->
  (x + 2 ^ 32 * v =? y + 2 ^ 32 * u) = (x =? y) && (v =? u).
Proof.
  intros [Hx Hx'] [Hy Hy'].
  destruct (Z.eqb_spec x y), (Z.eqb_spec v u); simpl;
    (apply Z.eqb_eq || apply Z.eqb_neq); lia.
Qed.

Lemma equal_loop_val s l :
  words_ok s -> words_ok l -> (length s <= length l)%nat ->
  equal_loop s l = (words_val s =? words_val l).
Proof.
  intros Hs. revert l. induction Hs as [|x s Hx Hs IH]; intros l Hl Hlen.
  - cbn [equal_loop words_val]. rewrite all_zero_spec by done. apply Z.eqb_sym.
  - destruct Hl as [|y l Hy Hl]; simpl in Hlen; [lia|]. cbn [equal_loop words_val].
    rewrite eqb_split, <- IH by (done || lia). by destruct (x =? y).
Qed.

Lemma is_subset_loop_val a b :
  words_ok a -> words_ok b ->
  is_subset_loop a b = (Z.ldiff (words_val a) (words_val b) =? 0).
Proof.
  intros Ha. revert b. induction Ha as [|x a Hx Ha IH]; intros b Hb; [done|].
  destruct Hb as [|y b Hy Hb].
  - cbn [is_subset_loop]. rewrite all_zero_spec by (by constructor). by rewrite Z.ldiff_0_r.
  - cbn [is_subset_loop words_val]. rewrite ldiff_zero_split, land_u32_not by auto with bms.
    rewrite <- IH by done. by destruct (Z.ldiff x y =? 0).
Qed.

Lemma nonempty_difference_loop_val a b :
  words_ok a -> words_ok b ->
  nonempty_difference_loop a b = negb (Z.ldiff (words_val a) (words_val b) =? 0).
Proof.
  intros Ha. revert b. induction Ha as [|x a Hx Ha IH]; intros b Hb; [done|].
  destruct Hb as [|y b Hy Hb].
  - cbn [nonempty_difference_loop]. rewrite all_zero_spec by (by constructor).
    by rewrite Z.ldiff_0_r.
  - cbn [nonempty_difference_loop words_val].
    rewrite ldiff_zero_split, land_u32_not by auto with bms.
    rewrite negb_andb, <- IH by done. by destruct (Z.ldiff x y =? 0).
Qed.

Lemma overlap_loop_val a b :
  words_ok a -> words_ok b ->
  overlap_loop a b = negb (Z.land (words_val a) (words_val b) =? 0).
Proof.
  intros Ha. revert b. induction Ha as [|x a Hx Ha IH]; intros b Hb; [done|].
  destruct Hb as [|y b Hy Hb]; [cbn; by rewrite Z.land_0_r|].
  cbn [overlap_loop words_val]. rewrite land_zero_split by auto with bms.
  rewrite negb_andb, <- IH by done. by destruct (Z.land x y =? 0).
Qed.

(** The status of [bms_subset_compare] as the two inclusions. *)
Definition comparison_of (sub1 sub2 : bool) : BMS_Comparison :=
  match sub1, sub2 with
  | true, true => BMS_EQUAL
  | true, false => BMS_SUBSET1
  | false, true => BMS_SUBSET2
  | false, false => BMS_DIFFERENT
  end.

Lemma subset_extra_val2 ws s1 s2 :
  words_ok ws -> s1 || s2 = true ->
  subset_extra BMS_SUBSET2 BMS_SUBSET1 ws (comparison_of s1 s2) =
  comparison_of (s1 && (words_val ws =? 0)) s2.
Proof.
  intros Hws. revert s1 s2. induction Hws as [|w ws Hw Hws IH]; intros s1 s2 Hs;
    cbn [subset_extra words_val]; [by destruct s1, s2|].
  pose proof (eqb_split w 0 (words_val ws) 0 Hw ltac:(solve_isu)) as E.
  rewrite Z.add_0_l, Z.mul_0_r in E. rewrite E. clear E.
  destruct (w =? 0); simpl.
  - by rewrite IH.
  - destruct s1, s2; simpl; try done; rewrite ?decide_False by done;
      exact (IH false true eq_refl).
Qed.

Lemma subset_extra_val1 ws s1 s2 :
  words_ok ws -> s1 || s2 = true ->
  subset_extra BMS_SUBSET1 BMS_SUBSET2 ws (comparison_of s1 s2) =
  comparison_of s1 (s2 && (words_val ws =? 0)).
Proof.
  intros Hws. revert s1 s2. induction Hws as [|w ws Hw Hws IH]; intros s1 s2 Hs;
    cbn [subset_extra words_val]; [by destruct s1, s2|].
  pose proof (eqb_split w 0 (words_val ws) 0 Hw ltac:(solve_isu)) as E.
  rewrite Z.add_0_l, Z.mul_0_r in E. rewrite E. clear E.
  destruct (w =? 0); simpl.
  - by rewrite IH.
  - destruct s1, s2; simpl; try done; rewrite ?decide_False by done;
      exact (IH true false eq_refl).
Qed.

Lemma subset_common_val a b s1 s2 :
  words_ok a -> words_ok b -> s1 || s2 = true ->
  subset_common a b (comparison_of s1 s2) =
  comparison_of (s1 && (Z.ldiff (words_val a) (words_val b) =? 0))
                (s2 && (Z.ldiff (words_val b) (words_val a) =? 0)).
Proof.
  intros Ha. revert b s1 s2. induction Ha as [|x a Hx Ha IH]; intros b s1 s2 Hb Hs.
  - destruct Hb as [|y b Hy Hb]; [by destruct s1, s2|].
    cbn [subset_common]. rewrite subset_extra_val1 by (done || by constructor).
    cbn [words_val]. by rewrite Z.ldiff_0_l, Z.ldiff_0_r, andb_true_r.
  - destruct Hb as [|y b Hy Hb].
    + cbn [subset_common]. rewrite subset_extra_val2 by (done || by constructor).
      cbn [words_val]. by rewrite Z.ldiff_0_l, Z.ldiff_0_r, andb_true_r.
    + cbn [subset_common words_val]. rewrite !ldiff_zero_split by auto with bms.
      rewrite !land_u32_not by done.
      destruct (Z.ldiff x y =? 0), (Z.ldiff y x =? 0), s1, s2; simpl; try done;
        rewrite ?decide_False by done;
        first [exact (IH b true true Hb eq_refl) | exact (IH b true false Hb eq_refl)
              | exact (IH b false true Hb eq_refl)].
Qed.

Lemma words_val_app xs ys :
  words_val (xs ++ ys) = words_val xs + 2 ^ (32 * Z.of_nat (length xs)) * words_val ys.
Proof.
  induction xs as [|x xs IH]; [simpl; lia|].
  cbn [words_val app length]. rewrite IH.
  replace (32 * Z.of_nat (S (length xs))) with (32 + 32 * Z.of_nat (length xs)) by lia.
  rewrite Z.pow_add_r by lia. lia.
Qed.

Lemma words_val_bound ws : words_ok ws -> is_u (32 * Z.of_nat (length ws)) (words_val ws).
Proof.
  induction 1 as [|w ws [Hw Hw'] Hws [IH IH']]; [split; simpl; lia|]. unfold is_u.
  cbn [words_val length].
  replace (32 * Z.of_nat (S (length ws))) with (32 + 32 * Z.of_nat (length ws)) by lia.
  rewrite Z.pow_add_r by lia. nia.
Qed.

Lemma words_ok_lookup_total ws i : words_ok ws -> is_u 32 (ws !!! i).
Proof.
  intros Hws. destruct (ws !! i) as [w|] eqn:E.
  - rewrite (list_lookup_total_correct _ _ _ E). by eapply Forall_lookup_1.
  - rewrite list_lookup_total_alt, E. done.
Qed.

Lemma compare_down_val a b n :
  words_ok a -> words_ok b -> (n <= length a)%nat -> (n <= length b)%nat ->
  compare_down a b n = Z.sgn (words_val (take n a) - words_val (take n b)).
Proof.
  intros Ha Hb. induction n as [|n IH]; intros Hla Hlb; [done|].
  cbn [compare_down].
  assert (forall ws : list Z, (S n <= length ws)%nat -> words_ok ws ->
    words_val (take (S n) ws) = words_val (take n ws) + 2 ^ (32 * Z.of_nat n) * (ws !!! n) /\
    is_u (32 * Z.of_nat n) (words_val (take n ws))) as Hsplit.
  { intros ws Hl Hok. destruct (lookup_lt_is_Some_2 ws n ltac:(lia)) as [w Hw].
    rewrite (take_S_r _ _ _ Hw), words_val_app, (list_lookup_total_correct _ _ _ Hw).
    rewrite length_take_le by lia. simpl. split; [lia|].
    replace n with (length (take n ws)) at 1 by (rewrite length_take; lia).
    apply words_val_bound. by apply Forall_take. }
  destruct (Hsplit a Hla Ha) as [-> [HA HA']], (Hsplit b Hlb Hb) as [-> [HB HB']].
  rewrite IH by lia. clear IH Hsplit.
  destruct (Z.eqb_spec (a !!! n) (b !!! n)) as [->|Hne]; simpl; [f_equal; lia|].
  set (X := 2 ^ (32 * Z.of_nat n)) in *. clearbody X.
  symmetry. destruct (Z.gtb_spec (a !!! n) (b !!! n)); [apply Z.sgn_pos|apply Z.sgn_neg]; nia.
Qed.

(** * Set algebra *)

(** [bms_repr r v]: the result is well formed and stands for the set [v]. *)
Definition bms_repr (r : option Bitmapset) (v : Z) : Prop := bms_ok r /\ bms_val r = v.

Lemma or_into_nonempty r o : r <> [] -> or_into r o <> [].
Proof. by destruct r, o. Qed.

Lemma and_into_nonempty r o : r <> [] -> and_into r o <> [].
Proof. by destruct r, o. Qed.

Lemma andnot_into_nonempty r o : r <> [] -> andnot_into r o <> [].
Proof. by destruct r, o. Qed.

Lemma int_members_loop_nonempty r o : r <> [] -> int_members_loop r o <> [].
Proof. by destruct r, o. Qed.

Lemma or_into_repr r o :
  bms_ok (Some r) -> bms_ok (Some o) -> nwords o <= nwords r ->
  bms_repr (Some {| words := or_into (words r) (words o) |})
           (Z.lor (bms_val (Some r)) (bms_val (Some o))).
Proof.
  intros [Hr0 Hr] [Ho0 Ho] Hl. unfold nwords in Hl.
  destruct (or_into_val (words r) (words o) Hr Ho ltac:(lia)).
  repeat split; simpl; auto using or_into_nonempty.
Qed.

Lemma and_into_repr r o :
  bms_ok (Some r) -> bms_ok (Some o) -> nwords r <= nwords o ->
  bms_repr (Some {| words := and_into (words r) (words o) |})
           (Z.land (bms_val (Some r)) (bms_val (Some o))).
Proof.
  intros [Hr0 Hr] [Ho0 Ho] Hl. unfold nwords in Hl.
  destruct (and_into_val (words r) (words o) Hr Ho ltac:(lia)).
  repeat split; simpl; auto using and_into_nonempty.
Qed.

Lemma andnot_into_repr r o :
  bms_ok (Some r) -> bms_ok (Some o) ->
  bms_repr (Some {| words := andnot_into (words r) (words o) |})
           (Z.ldiff (bms_val (Some r)) (bms_val (Some o))).
Proof.
  intros [Hr0 Hr] [Ho0 Ho].
  destruct (andnot_into_val (words r) (words o) Hr Ho).
  repeat split; simpl; auto using andnot_into_nonempty.
Qed.

Lemma bms_copy_repr a : bms_ok a -> bms_repr (bms_copy a) (bms_val a).
Proof. by destruct a as [[ws]|]. Qed.

Lemma bms_self_repr a : bms_ok a -> bms_repr a (bms_val a).
Proof. done. Qed.

Lemma bms_null_repr : bms_repr None 0.
Proof. done. Qed.

#[export] Hint Resolve or_into_repr and_into_repr andnot_into_repr bms_copy_repr
  bms_self_repr bms_null_repr : bms.

(** Union, intersection and difference, fresh or in place, of every pair of
    well-formed sets. *)
Ltac bms_cases a b :=
  destruct a as [a|], b as [b|]; cbn -[bms_repr bms_val bms_copy];
  change (bms_val None) with 0;
  rewrite ?Z.lor_0_r, ?Z.lor_0_l, ?Z.land_0_r, ?Z.land_0_l, ?Z.ldiff_0_r, ?Z.ldiff_0_l.

Lemma bms_union_repr a b :
  bms_ok a -> bms_ok b -> bms_repr (bms_union a b) (Z.lor (bms_val a) (bms_val b)).
Proof.
  intros Ha Hb. bms_cases a b; auto with bms.
  destruct (Z.leb_spec (nwords a) (nwords b)); [rewrite Z.lor_comm|];
    apply or_into_repr; auto; lia.
Qed.

Lemma bms_intersect_repr a b :
  bms_ok a -> bms_ok b -> bms_repr (bms_intersect a b) (Z.land (bms_val a) (bms_val b)).
Proof.
  intros Ha Hb. bms_cases a b; auto with bms.
  destruct (Z.leb_spec (nwords a) (nwords b)); [|rewrite Z.land_comm];
    apply and_into_repr; auto; lia.
Qed.

Lemma bms_difference_repr a b :
  bms_ok a -> bms_ok b -> bms_repr (bms_difference a b) (Z.ldiff (bms_val a) (bms_val b)).
Proof. intros Ha Hb. bms_cases a b; auto with bms. Qed.

Lemma bms_add_members_repr a b :
  bms_ok a -> bms_ok b -> bms_repr (bms_add_members a b) (Z.lor (bms_val a) (bms_val b)).
Proof.
  intros Ha Hb. bms_cases a b; auto with bms.
  destruct (Z.ltb_spec (nwords a) (nwords b)); [rewrite Z.lor_comm|];
    apply or_into_repr; auto; lia.
Qed.

Lemma bms_join_repr a b :
  bms_ok a -> bms_ok b -> bms_repr (bms_join a b) (Z.lor (bms_val a) (bms_val b)).
Proof.
  intros Ha Hb. bms_cases a b; auto with bms.
  destruct (Z.ltb_spec (nwords a) (nwords b)); [rewrite Z.lor_comm|];
    apply or_into_repr; auto; lia.
Qed.

Lemma bms_int_members_repr a b :
  bms_ok a -> bms_ok b -> bms_repr (bms_int_members a b) (Z.land (bms_val a) (bms_val b)).
Proof.
  intros Ha Hb. bms_cases a b; auto with bms. destruct Ha as [Ha0 Ha], Hb as [Hb0 Hb].
  destruct (int_members_loop_val (words a) (words b) Ha Hb).
  repeat split; simpl; auto using int_members_loop_nonempty.
Qed.

Lemma bms_del_members_repr a b :
  bms_ok a -> bms_ok b -> bms_repr (bms_del_members a b) (Z.ldiff (bms_val a) (bms_val b)).
Proof. intros Ha Hb. bms_cases a b; auto with bms. Qed.

(** C16. Every set-valued operation on two sets, the fresh ones and the ones
    that recycle an input, keeps the representation invariant and computes
    exactly the union, intersection or difference of the sets its inputs stand
    for, for NULL inputs and inputs of different lengths too. *)
Theorem bms_set_algebra a b :
  bms_ok a -> bms_ok b ->
  bms_repr (bms_union a b) (Z.lor (bms_val a) (bms_val b)) /\
  bms_repr (bms_add_members a b) (Z.lor (bms_val a) (bms_val b)) /\
  bms_repr (bms_join a b) (Z.lor (bms_val a) (bms_val b)) /\
  bms_repr (bms_intersect a b) (Z.land (bms_val a) (bms_val b)) /\
  bms_repr (bms_int_members a b) (Z.land (bms_val a) (bms_val b)) /\
  bms_repr (bms_difference a b) (Z.ldiff (bms_val a) (bms_val b)) /\
  bms_repr (bms_del_members a b) (Z.ldiff (bms_val a) (bms_val b)).
Proof.
  intros Ha Hb. split_and!;
    auto using bms_union_repr, bms_add_members_repr, bms_join_repr, bms_intersect_repr,
      bms_int_members_repr, bms_difference_repr, bms_del_members_repr.
Qed.

(** Witness sets: {1, 40} and {1, 2}. *)
Definition bms_ex1 : option Bitmapset := Some {| words := [2; 256] |}.
Definition bms_ex2 : option Bitmapset := Some {| words := [6] |}.

Lemma bms_ex1_ok : bms_ok bms_ex1.
Proof. split; [done|]. repeat constructor; done. Qed.

Lemma bms_ex2_ok : bms_ok bms_ex2.
Proof. split; [done|]. repeat constructor; done. Qed.

Lemma bms_set_algebra_witness :
  bms_val (bms_union bms_ex1 bms_ex2) = Z.lor (bms_val bms_ex1) (bms_val bms_ex2) /\
  bms_union bms_ex1 bms_ex2 = Some {| words := [6; 256] |}.
Proof.
  split; [apply (bms_set_algebra bms_ex1 bms_ex2 bms_ex1_ok bms_ex2_ok)|reflexivity].
Defined.

Lemma bms_equal_val a b :
  bms_ok a -> bms_ok b -> bms_equal a b = (bms_val a =? bms_val b).
Proof.
  intros Ha Hb. pose proof (bms_is_empty_val a Ha) as Ea. pose proof (bms_is_empty_val b Hb) as Eb.
  destruct a as [a|], b as [b|]; cbn [bms_equal]; rewrite ?Ea, ?Eb;
    change (bms_val None) with 0; [|done|apply Z.eqb_sym|done].
  destruct Ha as [_ Ha], Hb as [_ Hb]. unfold nwords.
  destruct (Z.leb_spec (Z.of_nat (length (words a))) (Z.of_nat (length (words b)))); cbn [bms_val];
    rewrite equal_loop_val by (done || lia); [done|apply Z.eqb_sym].
Qed.

(** The relations between two sets decide exactly what they are named for:
    emptiness, equality, inclusion, overlap and non-inclusion of the sets, and
    [bms_subset_compare] reports which of the two inclusions hold. *)
Theorem bms_relations a b :
  bms_ok a -> bms_ok b ->
  bms_is_empty a = (bms_val a =? 0) /\
  bms_equal a b = (bms_val a =? bms_val b) /\
  bms_is_subset a b = (Z.ldiff (bms_val a) (bms_val b) =? 0) /\
  bms_overlap a b = negb (Z.land (bms_val a) (bms_val b) =? 0) /\
  bms_nonempty_difference a b = negb (Z.ldiff (bms_val a) (bms_val b) =? 0) /\
  bms_subset_compare a b =
    comparison_of (Z.ldiff (bms_val a) (bms_val b) =? 0) (Z.ldiff (bms_val b) (bms_val a) =? 0).
Proof.
  intros Ha Hb. rewrite bms_equal_val by done.
  pose proof (bms_is_empty_val a Ha) as Ea. pose proof (bms_is_empty_val b Hb) as Eb.
  destruct a as [a|], b as [b|]; cbn [bms_is_subset bms_overlap
    bms_nonempty_difference bms_subset_compare]; rewrite ?Ea, ?Eb;
    change (bms_val None) with 0; rewrite ?Z.ldiff_0_r, ?Z.ldiff_0_l, ?Z.land_0_r;
    try (split_and!; try done; by destruct (_ =? 0)).
  destruct Ha as [Ha0 Ha], Hb as [Hb0 Hb]. cbn [bms_val]. split_and!; [done|done|..].
  - by apply is_subset_loop_val.
  - by apply overlap_loop_val.
  - by apply nonempty_difference_loop_val.
  - by apply (subset_common_val _ _ true true).
Qed.

Lemma bms_relations_witness :
  bms_is_subset bms_ex1 bms_ex2 = (Z.ldiff (bms_val bms_ex1) (bms_val bms_ex2) =? 0) /\
  bms_subset_compare bms_ex1 bms_ex2 = BMS_DIFFERENT.
Proof.
  split; [apply (bms_relations bms_ex1 bms_ex2 bms_ex1_ok bms_ex2_ok)|reflexivity].
Defined.

(** [bms_compare] is the comparison of the sets as integers (the highest
    bit in which they differ decides): a total order whose equality is
    [bms_equal]. *)
Theorem bms_compare_order a b :
  bms_ok a -> bms_ok b ->
  bms_compare a b = Z.sgn (bms_val a - bms_val b).
Proof.
  intros Ha Hb. pose proof (bms_is_empty_val a Ha) as Ea. pose proof (bms_is_empty_val b Hb) as Eb.
  destruct a as [a|], b as [b|]; cbn [bms_compare]; rewrite ?Ea, ?Eb;
    change (bms_val None) with 0; rewrite ?Z.sub_0_r, ?Z.sub_0_l, ?Z.sgn_opp; [| | |done].
  2:{ destruct Ha as [_ Ha]. pose proof (words_val_nonneg _ Ha). simpl in *.
      destruct (Z.eqb_spec (words_val (words a)) 0) as [->|]; [done|].
      symmetry. apply Z.sgn_pos. lia. }
  2:{ destruct Hb as [_ Hb]. pose proof (words_val_nonneg _ Hb). simpl in *.
      destruct (Z.eqb_spec (words_val (words b)) 0) as [->|]; [done|].
      rewrite (Z.sgn_pos (words_val _)); lia. }
  destruct Ha as [_ Ha], Hb as [_ Hb]. simpl.
  set (n := Nat.min (length (words a)) (length (words b))).
  assert (forall ws, words_ok ws -> words_ok (drop n ws)) as Hd by (intros; by apply Forall_drop).
  rewrite !all_zero_spec by auto.
  assert (forall ws : list Z, words_ok ws -> (n <= length ws)%nat ->
    is_u (32 * Z.of_nat n) (words_val (take n ws)) /\
    words_val ws = words_val (take n ws) + 2 ^ (32 * Z.of_nat n) * words_val (drop n ws)) as Hs.
  { intros ws Hws Hl. split.
    - replace n with (length (take n ws)) at 1 by (rewrite length_take; lia).
      apply words_val_bound. by apply Forall_take.
    - rewrite <- (take_drop n ws) at 1. rewrite words_val_app, length_take_le by lia. done. }
  destruct (Hs (words a) Ha ltac:(lia)) as [[A0 A1] ->].
  destruct (Hs (words b) Hb ltac:(lia)) as [[B0 B1] ->]. clear Hs.
  pose proof (words_val_nonneg _ (Hd _ Ha)). pose proof (words_val_nonneg _ (Hd _ Hb)).
  rewrite compare_down_val by (done || lia).
  assert (drop n (words a) = [] \/ drop n (words b) = []) as Hnil.
  { destruct (Nat.min_spec (length (words a)) (length (words b))) as [[? E]|[? E]];
      [left|right]; apply drop_ge; unfold n; lia. }
  destruct (Z.eqb_spec (words_val (drop n (words a))) 0) as [EA|EA]; simpl.
  - destruct (Z.eqb_spec (words_val (drop n (words b))) 0) as [EB|EB]; simpl.
    + rewrite EA, EB. f_equal. lia.
    + symmetry. apply Z.sgn_neg. rewrite EA. nia.
  - destruct Hnil as [E|E]; rewrite E in *; [done|]. simpl.
    symmetry. apply Z.sgn_pos. nia.
Qed.

Lemma bms_compare_order_witness :
  bms_compare bms_ex1 bms_ex2 = Z.sgn (bms_val bms_ex1 - bms_val bms_ex2) /\
  bms_compare bms_ex1 bms_ex2 = 1.
Proof.
  split; [apply (bms_compare_order bms_ex1 bms_ex2 bms_ex1_ok bms_ex2_ok)|reflexivity].
Defined.

(** * Single members and ranges *)

(** Membership, read off the word that holds the bit. *)
Lemma words_bit ws x :
  words_ok ws -> 0 <= x ->
  Z.testbit (words_val ws) x =
  match ws !! Z.to_nat (x / 32) with Some w => Z.testbit w (x mod 32) | None => false end.
Proof.
  intros Hws. revert x. induction Hws as [|w ws Hw Hws IH]; intros x Hx; [apply Z.bits_0|].
  rewrite words_val_cons_bit by done. destruct (Z.ltb_spec x 32).
  - rewrite Z.div_small, Z.mod_small by lia. done.
  - rewrite IH by lia. replace (x - 32) with (x + (-1) * 32) by lia.
    rewrite Z.div_add, Z.mod_add by lia.
    assert (1 <= x / 32) by (apply Z.div_le_lower_bound; lia).
    replace (Z.to_nat (x / 32)) with (S (Z.to_nat (x / 32 + -1))) by lia. done.
Qed.

Lemma WORDNUM_div x : 0 <= x -> WORDNUM x = x / 32.
Proof. intros. by apply Z.quot_div_nonneg. Qed.

Lemma BITNUM_mod x : 0 <= x -> BITNUM x = x mod 32.
Proof. intros. by apply Z.rem_mod_nonneg. Qed.

(** Two bit positions in the same word differ in their offset. *)
Lemma same_bit x i : (i =? x) = (i / 32 =? x / 32) && (i mod 32 =? x mod 32).
Proof.
  pose proof (Z.div_mod i 32 ltac:(lia)). pose proof (Z.div_mod x 32 ltac:(lia)).
  destruct (Z.eqb_spec (i / 32) (x / 32)), (Z.eqb_spec (i mod 32) (x mod 32)); simpl;
    (apply Z.eqb_eq || apply Z.eqb_neq); congruence || lia.
Qed.

Lemma testbit_shl1 b j : 0 <= b -> 0 <= j < 32 -> Z.testbit (u32_shl 1 b) j = (j =? b).
Proof.
  intros Hb Hj. rewrite testbit_u32_shl by lia. destruct (Z.ltb_spec j 32); [|lia]. simpl.
  destruct (Z.eqb_spec j b) as [->|]; [by rewrite Z.sub_diag|].
  destruct (Z.lt_ge_cases (j - b) 0); [by rewrite Z.testbit_neg_r|].
  by rewrite (is_u_testbit 1 1) by solve_isu.
Qed.

Lemma land_shl1_zero w b :
  is_u 32 w -> 0 <= b < 32 -> negb (Z.land w (u32_shl 1 b) =? 0) = Z.testbit w b.
Proof.
  intros Hw Hb. destruct (Z.testbit w b) eqn:E.
  - apply negb_true_iff, Z.eqb_neq, (bits_nonzero _ b).
    by rewrite Z.land_spec, E, testbit_shl1, Z.eqb_refl by lia.
  - apply negb_false_iff, Z.eqb_eq. apply Z.bits_inj'; intros i Hi.
    rewrite Z.land_spec, Z.bits_0. destruct (Z.lt_ge_cases i 32).
    + rewrite testbit_shl1 by lia. destruct (Z.eqb_spec i b) as [->|]; [by rewrite E|].
      apply andb_false_r.
    + by rewrite (is_u_testbit 32 w) by solve_isu.
Qed.

Lemma word_has_val a x :
  bms_ok (Some a) -> 0 <= x -> x / 32 < nwords a ->
  word_has (words a) (x / 32) (x mod 32) = Z.testbit (bms_val (Some a)) x.
Proof.
  intros [_ Ha] Hx Hn. unfold word_has, nwords in *. cbn [bms_val].
  rewrite words_bit by done.
  assert (0 <= x / 32) by (apply Z.div_pos; lia).
  destruct (lookup_lt_is_Some_2 (words a) (Z.to_nat (x / 32)) ltac:(lia)) as [w Hw].
  rewrite Hw, (list_lookup_total_correct _ _ _ Hw). apply land_shl1_zero.
  - by eapply Forall_lookup_1.
  - apply Z.mod_pos_bound. lia.
Qed.

Lemma bms_bit_out a x :
  bms_ok (Some a) -> 0 <= x -> nwords a <= x / 32 -> Z.testbit (bms_val (Some a)) x = false.
Proof.
  intros [_ Ha] Hx Hn. cbn [bms_val]. rewrite words_bit by done.
  unfold nwords in Hn. by rewrite lookup_ge_None_2 by lia.
Qed.

Lemma bms_is_member_val x a :
  bms_ok a -> 0 <= x -> bms_is_member x a = Ret (Z.testbit (bms_val a) x).
Proof.
  intros Ha Hx. unfold bms_is_member. destruct (Z.ltb_spec x 0); [lia|].
  destruct a as [a|]; [|by rewrite Z.bits_0].
  rewrite WORDNUM_div, BITNUM_mod by done.
  destruct (Z.geb_spec (x / 32) (nwords a)).
  - by rewrite bms_bit_out.
  - rewrite word_has_val by done. by destruct (Z.testbit _ x).
Qed.

(** Changing one word changes the bits of that word only. *)
Lemma words_alter_bit (f : Z -> Z) ws n x :
  words_ok ws -> (forall w, is_u 32 w -> is_u 32 (f w)) -> 0 <= x ->
  words_ok (alter f n ws) /\
  Z.testbit (words_val (alter f n ws)) x =
  match ws !! Z.to_nat (x / 32) with
  | Some w => Z.testbit (if decide (Z.to_nat (x / 32) = n) then f w else w) (x mod 32)
  | None => false
  end.
Proof.
  intros Hws Hf Hx. assert (words_ok (alter f n ws)) as Hok.
  { by apply Forall_alter; [|intros w ? ?; auto]. }
  split; [done|]. rewrite words_bit by done. case_decide as E.
  - rewrite <- E, list_lookup_alter_eq. by destruct (ws !! _).
  - rewrite list_lookup_alter_ne by done. by destruct (ws !! _).
Qed.

Lemma words_val_zeros k : words_val (replicate k 0) = 0.
Proof. induction k; simpl; lia. Qed.

Lemma enlarge_ok ws n :
  words_ok ws -> words_ok (enlarge ws n) /\ words_val (enlarge ws n) = words_val ws.
Proof.
  intros Hws. unfold enlarge. split.
  - apply Forall_app; split; [done|]. apply Forall_replicate. solve_isu.
  - rewrite words_val_app, words_val_zeros. lia.
Qed.

Lemma enlarge_length ws n :
  Z.of_nat (length ws) <= n -> Z.of_nat (length (enlarge ws n)) = n.
Proof. intros. unfold enlarge. rewrite length_app, length_replicate. lia. Qed.

Lemma is_u_shl1 b : is_u 32 (u32_shl 1 b).
Proof. apply is_u_u32. Qed.

(** Or-ing bit [x] into the word that holds it. *)
Lemma set_bit_val ws x :
  words_ok ws -> 0 <= x -> x / 32 < Z.of_nat (length ws) ->
  words_ok (alter (fun w => Z.lor w (u32_shl 1 (x mod 32))) (Z.to_nat (x / 32)) ws) /\
  words_val (alter (fun w => Z.lor w (u32_shl 1 (x mod 32))) (Z.to_nat (x / 32)) ws)
  = Z.setbit (words_val ws) x.
Proof.
  intros Hws Hx Hl. pose proof (Z.mod_pos_bound x 32 ltac:(lia)).
  assert (forall w, is_u 32 w -> is_u 32 (Z.lor w (u32_shl 1 (x mod 32)))) as Hf
    by (intros; apply is_u_lor; auto using is_u_shl1; lia).
  split; [by apply (words_alter_bit _ ws (Z.to_nat (x / 32)) 0 Hws Hf)|].
  apply Z.bits_inj'; intros i Hi.
  rewrite (proj2 (words_alter_bit _ ws (Z.to_nat (x / 32)) i Hws Hf Hi)).
  rewrite Z.setbit_eqb, words_bit, Z.eqb_sym, same_bit by done.
  pose proof (Z.mod_pos_bound i 32 ltac:(lia)).
  assert (0 <= i / 32) by (apply Z.div_pos; lia). assert (0 <= x / 32) by (apply Z.div_pos; lia).
  destruct (ws !! Z.to_nat (i / 32)) as [w|] eqn:E.
  - case_decide as Eq.
    + rewrite Z.lor_spec, testbit_shl1 by lia.
      replace (i / 32 =? x / 32) with true by (symmetry; apply Z.eqb_eq; lia).
      apply orb_comm.
    + destruct (Z.eqb_spec (i / 32) (x / 32)); [|done]. congruence.
  - destruct (Z.eqb_spec (i / 32) (x / 32)); [|done].
    apply lookup_ge_None_1 in E. lia.
Qed.

Lemma clear_bit_val ws x :
  words_ok ws -> 0 <= x ->
  words_ok (alter (fun w => Z.land w (u32_not (u32_shl 1 (x mod 32)))) (Z.to_nat (x / 32)) ws) /\
  words_val (alter (fun w => Z.land w (u32_not (u32_shl 1 (x mod 32)))) (Z.to_nat (x / 32)) ws)
  = Z.clearbit (words_val ws) x.
Proof.
  intros Hws Hx. pose proof (Z.mod_pos_bound x 32 ltac:(lia)).
  assert (forall w, is_u 32 w -> is_u 32 (Z.land w (u32_not (u32_shl 1 (x mod 32))))) as Hf
    by (intros; apply is_u_land; [lia|done|apply is_u_u32]).
  split; [by apply (words_alter_bit _ ws (Z.to_nat (x / 32)) 0 Hws Hf)|].
  apply Z.bits_inj'; intros i Hi.
  rewrite (proj2 (words_alter_bit _ ws (Z.to_nat (x / 32)) i Hws Hf Hi)).
  rewrite Z.clearbit_eqb, words_bit, (Z.eqb_sym x i), same_bit by done.
  pose proof (Z.mod_pos_bound i 32 ltac:(lia)).
  assert (0 <= i / 32) by (apply Z.div_pos; lia). assert (0 <= x / 32) by (apply Z.div_pos; lia).
  destruct (ws !! Z.to_nat (i / 32)) as [w|] eqn:E; [|done].
  case_decide as Eq.
  - rewrite Z.land_spec, testbit_u32_not, testbit_shl1 by lia.
    replace (i / 32 =? x / 32) with true by (symmetry; apply Z.eqb_eq; lia).
    by replace (i mod 32 <? 32) with true by (symmetry; apply Z.ltb_lt; lia).
  - destruct (Z.eqb_spec (i / 32) (x / 32)); [congruence|]. simpl. by rewrite andb_true_r.
Qed.

Lemma bms_make_singleton_repr x :
  0 <= x -> exists r, bms_make_singleton x = Ret r /\ bms_repr r (2 ^ x).
Proof.
  intros Hx. unfold bms_make_singleton. destruct (Z.ltb_spec x 0); [lia|].
  rewrite WORDNUM_div, BITNUM_mod by done.
  assert (0 <= x / 32) by (apply Z.div_pos; lia).
  set (zs := replicate (Z.to_nat (x / 32 + 1)) 0).
  assert (words_ok zs) as Hz by (apply Forall_replicate; solve_isu).
  assert (words_val zs = 0) as Hv by apply words_val_zeros.
  assert (Z.of_nat (length zs) = x / 32 + 1) as Hl by (unfold zs; rewrite length_replicate; lia).
  assert (<[Z.to_nat (x / 32):=u32_shl 1 (x mod 32)]> zs =
          alter (fun w => Z.lor w (u32_shl 1 (x mod 32))) (Z.to_nat (x / 32)) zs) as ->.
  { apply list_eq; intros i. destruct (decide (i = Z.to_nat (x / 32))) as [->|].
    - rewrite list_lookup_insert_eq by lia. rewrite list_lookup_alter_eq.
      unfold zs. rewrite lookup_replicate_2 by lia. done.
    - by rewrite list_lookup_insert_ne, list_lookup_alter_ne by done. }
  destruct (set_bit_val zs x Hz Hx ltac:(lia)) as [Hok Hval].
  eexists. split; [reflexivity|]. split; [split; [|done]|].
  - simpl. intros E. apply (f_equal length) in E. rewrite length_alter in E. simpl in E. lia.
  - simpl. rewrite Hval, Hv. unfold Z.setbit. by rewrite Z.lor_0_l, Z.shiftl_1_l.
Qed.

Lemma bms_add_member_repr a x :
  bms_ok a -> 0 <= x ->
  exists r, bms_add_member a x = Ret r /\ bms_repr r (Z.setbit (bms_val a) x).
Proof.
  intros Ha Hx. unfold bms_add_member. destruct (Z.ltb_spec x 0); [lia|].
  destruct a as [a|].
  - rewrite WORDNUM_div, BITNUM_mod by done. destruct Ha as [Ha0 Ha].
    set (ws := if x / 32 >=? nwords a then _ else _).
    assert (words_ok ws /\ words_val ws = words_val (words a) /\ ws <> [] /\
            x / 32 < Z.of_nat (length ws)) as (Hok & Hv & Hne & Hl).
    { unfold ws, nwords. destruct (Z.geb_spec (x / 32) (Z.of_nat (length (words a)))) as [Hge|Hlt].
      - destruct (enlarge_ok (words a) (x / 32 + 1) Ha). rewrite enlarge_length by lia.
        split_and!; auto; [|lia]. unfold enlarge. by destruct (words a).
      - split_and!; auto. }
    destruct (set_bit_val ws x Hok Hx Hl) as [Hok' Hval].
    eexists. split; [reflexivity|]. split; [split|]; simpl; auto using alter_nonempty.
    by rewrite Hval, Hv.
  - destruct (bms_make_singleton_repr x Hx) as (r & Hr & Hok & Hv).
    exists r. split; [done|]. split; [done|]. rewrite Hv. simpl.
    unfold Z.setbit. by rewrite Z.lor_0_l, Z.shiftl_1_l.
Qed.

Lemma clearbit_out v x : Z.testbit v x = false -> 0 <= x -> Z.clearbit v x = v.
Proof.
  intros Hb Hx. apply Z.bits_inj'; intros i Hi. rewrite Z.clearbit_eqb by done.
  destruct (Z.eqb_spec x i) as [->|]; [by rewrite Hb|apply andb_true_r].
Qed.

Lemma bms_del_member_repr a x :
  bms_ok a -> 0 <= x ->
  exists r, bms_del_member a x = Ret r /\ bms_repr r (Z.clearbit (bms_val a) x).
Proof.
  intros Ha Hx. unfold bms_del_member. destruct (Z.ltb_spec x 0); [lia|].
  destruct a as [a|]; [|exists None; by rewrite clearbit_out by (done || apply Z.bits_0)].
  rewrite WORDNUM_div, BITNUM_mod by done. destruct (Z.ltb_spec (x / 32) (nwords a)).
  - destruct Ha as [Ha0 Ha]. destruct (clear_bit_val (words a) x Ha Hx) as [Hok Hval].
    eexists. split; [reflexivity|]. split; [split|]; simpl; auto using alter_nonempty.
  - eexists. split; [reflexivity|]. split; [done|].
    by rewrite clearbit_out by (done || by apply bms_bit_out).
Qed.

(** The operations on one member: a negative number is refused with the
    error of the code; for the others [bms_is_member] tests, [bms_add_member]
    sets and [bms_del_member] clears exactly that bit of the set, enlarging the
    word array when needed, and [bms_make_singleton] builds the one-element
    set. *)
Theorem bms_member_operations a x :
  bms_ok a ->
  (x < 0 -> bms_is_member x a = Elog neg_member /\ bms_add_member a x = Elog neg_member /\
            bms_del_member a x = Elog neg_member /\ bms_make_singleton x = Elog neg_member) /\
  (0 <= x ->
    bms_is_member x a = Ret (Z.testbit (bms_val a) x) /\
    (exists r, bms_make_singleton x = Ret r /\ bms_repr r (2 ^ x)) /\
    (exists r, bms_add_member a x = Ret r /\ bms_repr r (Z.setbit (bms_val a) x)) /\
    (exists r, bms_del_member a x = Ret r /\ bms_repr r (Z.clearbit (bms_val a) x))).
Proof.
  intros Ha. split; intros Hx.
  - unfold bms_is_member, bms_add_member, bms_del_member, bms_make_singleton.
    by destruct (Z.ltb_spec x 0); [|lia].
  - auto using bms_is_member_val, bms_make_singleton_repr, bms_add_member_repr,
      bms_del_member_repr.
Qed.

Lemma bms_member_operations_witness :
  bms_is_member 40 bms_ex1 = Ret (Z.testbit (bms_val bms_ex1) 40) /\
  bms_is_member 40 bms_ex1 = Ret true /\
  bms_add_member bms_ex2 64 = Ret (Some {| words := [6; 0; 1] |}).
Proof.
  split; [apply (bms_member_operations bms_ex1 40 bms_ex1_ok); lia|split; reflexivity].
Defined.

(** ** Ranges *)

Lemma lmask_bit lb j :
  0 <= lb < 32 -> 0 <= j < 32 ->
  Z.testbit (u32_not (u32 (u32_shl 1 lb - 1))) j = (lb <=? j).
Proof.
  intros Hlb Hj. rewrite testbit_u32_not, testbit_u32 by lia.
  destruct (Z.ltb_spec j 32); [|lia]. simpl.
  assert (u32_shl 1 lb = 2 ^ lb) as ->.
  { unfold u32_shl, u32. rewrite Z.shiftl_1_l. apply Z.mod_small.
    split; [lia|]. apply Z.pow_lt_mono_r; lia. }
  replace (2 ^ lb - 1) with (Z.ones lb) by (rewrite Z.ones_equiv; lia).
  rewrite Z.testbit_ones_nonneg by lia.
  destruct (Z.ltb_spec j lb), (Z.leb_spec lb j); simpl; done || lia.
Qed.

Lemma all_ones_eq : all_ones = Z.ones 32.
Proof. reflexivity. Qed.

Lemma is_u_all_ones : is_u 32 all_ones.
Proof. apply is_u_u32. Qed.

Lemma umask_bit ub j :
  0 <= ub < 32 -> 0 <= j ->
  Z.testbit (Z.shiftr all_ones (BITS_PER_BITMAPWORD - (ub + 1))) j = (j <=? ub).
Proof.
  intros Hub Hj. rewrite Z.shiftr_spec, all_ones_eq, Z.testbit_ones_nonneg
    by (unfold BITS_PER_BITMAPWORD; lia).
  unfold BITS_PER_BITMAPWORD. destruct (Z.leb_spec j ub); [apply Z.ltb_lt|apply Z.ltb_ge]; lia.
Qed.

Lemma is_u_umask s : 0 <= s -> is_u 32 (Z.shiftr all_ones s).
Proof.
  intros Hs. apply is_u_of_bits; [lia|by apply Z.shiftr_nonneg|].
  intros i Hi. rewrite Z.shiftr_spec by lia. by apply (is_u_testbit 32); [apply is_u_all_ones|lia].
Qed.

Lemma fill_words_lookup n k ws i :
  fill_words n k ws !! i =
  if decide (k <= i < k + n)%nat then (fun _ => all_ones) <$> ws !! i else ws !! i.
Proof.
  revert k ws. induction n as [|n IH]; intros k ws; cbn [fill_words].
  - by rewrite decide_False by lia.
  - rewrite IH. destruct (decide (k = i)) as [->|Hki].
    + rewrite decide_False, decide_True by lia.
      destruct (decide (i < length ws)%nat).
      * rewrite list_lookup_insert_eq by done.
        by destruct (lookup_lt_is_Some_2 ws i ltac:(done)) as [w ->].
      * rewrite list_insert_ge by lia. by rewrite lookup_ge_None_2 by lia.
    + rewrite list_lookup_insert_ne by done.
      destruct (decide (S k <= i < S k + n)%nat), (decide (k <= i < k + S n)%nat); done || lia.
Qed.

Lemma fill_words_length n k ws : length (fill_words n k ws) = length ws.
Proof.
  revert k ws. induction n as [|n IH]; intros k ws; cbn [fill_words]; [done|].
  by rewrite IH, length_insert.
Qed.

(** The words after [bms_add_range] has run over words [lw..uw], bit by bit. *)
Lemma range_words_bit ws lw uw lb ub x :
  words_ok ws -> 0 <= lw < uw -> uw < Z.of_nat (length ws) -> 0 <= lb < 32 -> 0 <= ub < 32 ->
  0 <= x ->
  let lmask := u32_not (u32 (u32_shl 1 lb - 1)) in
  let umask := Z.shiftr all_ones (BITS_PER_BITMAPWORD - (ub + 1)) in
  let r := alter (fun w => Z.lor w umask) (Z.to_nat uw)
             (fill_words (Z.to_nat (uw - (lw + 1))) (Z.to_nat (lw + 1))
                (alter (fun w => Z.lor w lmask) (Z.to_nat lw) ws)) in
  words_ok r /\
  Z.testbit (words_val r) x =
  Z.testbit (words_val ws) x || (lw * 32 + lb <=? x) && (x <=? uw * 32 + ub).
Proof.
  intros Hws Hlw Huw Hlb Hub Hx lmask umask r.
  assert (is_u 32 umask) as Hum by (apply is_u_umask; unfold BITS_PER_BITMAPWORD; lia).
  assert (is_u 32 lmask) as Hlm by apply is_u_u32.
  assert (words_ok r) as Hok.
  { apply Forall_alter; [|intros w _ ?; apply is_u_lor; auto; lia].
    apply Forall_lookup_2. intros i w. rewrite fill_words_lookup.
    assert (words_ok (alter (fun w => Z.lor w lmask) (Z.to_nat lw) ws)) as Ha.
    { apply Forall_alter; [done|intros ? _ ?; apply is_u_lor; auto; lia]. }
    case_decide; [|by apply Forall_lookup_1].
    destruct (alter _ _ ws !! i); intros ?; simplify_eq/=. apply is_u_all_ones. }
  split; [done|]. rewrite !words_bit by done. unfold r.
  pose proof (Z.div_mod x 32 ltac:(lia)) as Ex.
  pose proof (Z.mod_pos_bound x 32 ltac:(lia)) as Bx.
  assert (0 <= x / 32) by (apply Z.div_pos; lia).
  destruct (ws !! Z.to_nat (x / 32)) as [w|] eqn:Ew.
  2:{ apply lookup_ge_None_1 in Ew. rewrite lookup_ge_None_2
        by (rewrite length_alter, fill_words_length, length_alter; lia).
      symmetry. simpl. apply andb_false_intro2, Z.leb_gt. lia. }
  destruct (decide (x / 32 = uw)) as [Eu|Eu].
  - rewrite Eu, list_lookup_alter_eq, fill_words_lookup, decide_False by lia.
    rewrite list_lookup_alter_ne, <- Eu, Ew by lia. cbn [fmap option_fmap option_map].
    rewrite Z.lor_spec. unfold umask. rewrite umask_bit by lia. f_equal.
    destruct (Z.leb_spec (x mod 32) ub), (Z.leb_spec (lw * 32 + lb) x), (Z.leb_spec x (uw * 32 + ub));
      simpl; done || lia.
  - rewrite list_lookup_alter_ne, fill_words_lookup by lia.
    destruct (decide (x / 32 = lw)) as [El|El].
    + rewrite decide_False, El, list_lookup_alter_eq, <- El, Ew by lia.
      cbn [fmap option_fmap option_map]. rewrite Z.lor_spec. unfold lmask.
      rewrite lmask_bit by lia. f_equal.
      destruct (Z.leb_spec lb (x mod 32)), (Z.leb_spec (lw * 32 + lb) x), (Z.leb_spec x (uw * 32 + ub));
        simpl; done || lia.
    + rewrite list_lookup_alter_ne, Ew by lia.
      case_decide; cbn [fmap option_fmap option_map].
      * rewrite all_ones_eq, Z.testbit_ones_nonneg by lia.
        destruct (Z.ltb_spec (x mod 32) 32), (Z.leb_spec (lw * 32 + lb) x),
          (Z.leb_spec x (uw * 32 + ub)); rewrite ?orb_true_r; done || lia.
      * destruct (Z.leb_spec (lw * 32 + lb) x), (Z.leb_spec x (uw * 32 + ub));
          rewrite ?orb_false_r; done || lia.
Qed.

(** The same when the range lies in one word. *)
Lemma range_word_bit ws uw lb ub x :
  words_ok ws -> 0 <= uw < Z.of_nat (length ws) -> 0 <= lb < 32 -> 0 <= ub < 32 -> 0 <= x ->
  let lmask := u32_not (u32 (u32_shl 1 lb - 1)) in
  let umask := Z.shiftr all_ones (BITS_PER_BITMAPWORD - (ub + 1)) in
  let r := alter (fun w => Z.lor w (Z.land lmask umask)) (Z.to_nat uw) ws in
  words_ok r /\
  Z.testbit (words_val r) x =
  Z.testbit (words_val ws) x || (uw * 32 + lb <=? x) && (x <=? uw * 32 + ub).
Proof.
  intros Hws Huw Hlb Hub Hx lmask umask r.
  assert (is_u 32 lmask) as Hlm by apply is_u_u32.
  assert (is_u 32 umask) as [Hum _] by (apply is_u_umask; unfold BITS_PER_BITMAPWORD; lia).
  assert (forall w, is_u 32 w -> is_u 32 (Z.lor w (Z.land lmask umask))) as Hf
    by (intros; apply is_u_lor; auto using is_u_land with lia; apply is_u_land; auto; lia).
  destruct (words_alter_bit _ ws (Z.to_nat uw) x Hws Hf Hx) as [Hok Hbit].
  split; [done|]. unfold r. rewrite Hbit, words_bit by done.
  pose proof (Z.div_mod x 32 ltac:(lia)) as Ex.
  pose proof (Z.mod_pos_bound x 32 ltac:(lia)) as Bx.
  assert (0 <= x / 32) by (apply Z.div_pos; lia).
  destruct (ws !! Z.to_nat (x / 32)) as [w|] eqn:Ew.
  2:{ apply lookup_ge_None_1 in Ew. symmetry. simpl. apply andb_false_intro2, Z.leb_gt. lia. }
  case_decide as E.
  - rewrite Z.lor_spec, Z.land_spec. unfold lmask, umask.
    rewrite lmask_bit, umask_bit by lia. f_equal. f_equal.
    + destruct (Z.leb_spec lb (x mod 32)), (Z.leb_spec (uw * 32 + lb) x); done || lia.
    + destruct (Z.leb_spec (x mod 32) ub), (Z.leb_spec x (uw * 32 + ub)); done || lia.
  - destruct (Z.leb_spec (uw * 32 + lb) x), (Z.leb_spec x (uw * 32 + ub));
      rewrite ?orb_false_r; done || lia.
Qed.

(** The word array [bms_add_range] works on. *)
Lemma range_start_ok a uw :
  bms_ok a -> 0 <= uw ->
  let ws := match a with
            | None => replicate (Z.to_nat (uw + 1)) 0
            | Some a => if uw >=? nwords a then enlarge (words a) (uw + 1) else words a
            end in
  words_ok ws /\ words_val ws = bms_val a /\ uw < Z.of_nat (length ws).
Proof.
  intros Ha Huw. destruct a as [a|]; simpl.
  - destruct Ha as [_ Ha]. unfold nwords.
    destruct (Z.geb_spec uw (Z.of_nat (length (words a)))); [|done].
    destruct (enlarge_ok (words a) (uw + 1) Ha). rewrite enlarge_length by lia.
    split_and!; auto; lia.
  - rewrite words_val_zeros, length_replicate. split_and!; [|done|lia].
    apply Forall_replicate. solve_isu.
Qed.

(** [bms_add_range] does nothing on an empty range, refuses a negative lower
    bound, and otherwise returns a well-formed set whose members are those of
    the input and exactly the integers from [lower] to [upper], although it
    works on masks and whole words. *)
Theorem bms_add_range_spec a lower upper :
  bms_ok a ->
  (upper < lower -> bms_add_range a lower upper = Ret a) /\
  (lower <= upper -> lower < 0 -> bms_add_range a lower upper = Elog neg_member) /\
  (0 <= lower <= upper ->
    exists r, bms_add_range a lower upper = Ret r /\ bms_ok r /\
      forall x, 0 <= x ->
        Z.testbit (bms_val r) x = Z.testbit (bms_val a) x || (lower <=? x) && (x <=? upper)).
Proof.
  intros Ha. unfold bms_add_range. split_and!; intros Hr.
  { by destruct (Z.ltb_spec upper lower); [|lia]. }
  { intros Hn. destruct (Z.ltb_spec upper lower); [lia|]. by destruct (Z.ltb_spec lower 0); [|lia]. }
  destruct (Z.ltb_spec upper lower); [lia|]. destruct (Z.ltb_spec lower 0); [lia|].
  rewrite !WORDNUM_div, !BITNUM_mod by lia.
  pose proof (Z.mod_pos_bound lower 32 ltac:(lia)). pose proof (Z.mod_pos_bound upper 32 ltac:(lia)).
  pose proof (Z.div_mod lower 32 ltac:(lia)). pose proof (Z.div_mod upper 32 ltac:(lia)).
  assert (0 <= lower / 32) by (apply Z.div_pos; lia).
  assert (lower / 32 <= upper / 32) by (apply Z.div_le_mono; lia).
  destruct (range_start_ok a (upper / 32) Ha ltac:(lia)) as (Hok & Hv & Hl).
  set (ws := match a with None => _ | Some _ => _ end) in *.
  assert (ws <> []) by (intros E; rewrite E in Hl; simpl in Hl; lia).
  destruct (Z.eqb_spec (lower / 32) (upper / 32)) as [E|E].
  - eexists. split; [reflexivity|]. split.
    + split; [by apply alter_nonempty|]. rewrite E.
      by apply (range_word_bit ws (upper / 32) (lower mod 32) (upper mod 32) 0); try lia.
    + intros x Hx. rewrite E. cbn [bms_val words].
      rewrite (proj2 (range_word_bit ws (upper / 32) (lower mod 32) (upper mod 32) x
        Hok ltac:(lia) ltac:(lia) ltac:(lia) Hx)), Hv.
      do 2 f_equal; f_equal; lia.
  - eexists. split; [reflexivity|]. split.
    + split.
      * simpl. apply alter_nonempty. intros F. apply (f_equal length) in F.
        rewrite fill_words_length, length_alter in F. by destruct ws.
      * by apply (range_words_bit ws (lower / 32) (upper / 32) (lower mod 32) (upper mod 32) 0);
          try lia.
    + intros x Hx. cbn [bms_val words].
      rewrite (proj2 (range_words_bit ws (lower / 32) (upper / 32) (lower mod 32) (upper mod 32) x
        Hok ltac:(lia) ltac:(lia) ltac:(lia) ltac:(lia) Hx)), Hv.
      do 2 f_equal; f_equal; lia.
Qed.

Lemma bms_add_range_spec_witness :
  (exists r, bms_add_range bms_ex2 5 70 = Ret r /\ bms_ok r /\
     forall x, 0 <= x ->
       Z.testbit (bms_val r) x = Z.testbit (bms_val bms_ex2) x || (5 <=? x) && (x <=? 70)) /\
  bms_add_range bms_ex2 5 70 = Ret (Some {| words := [4294967270; 4294967295; 127] |}).
Proof.
  split; [apply (bms_add_range_spec bms_ex2 5 70 bms_ex2_ok); lia|reflexivity].
Defined.
