(* ===== verification/BitmapsetIter.v ===== *)
(** Bitmap sets, second part: the scans inside a word, iteration over the
    members in both directions, counting, and hashing
    (src/backend/nodes/bitmapset.c); the model is in [Bitmapset]. *)
From S2P Require Import Prelude Bitmapset.

(** * Scanning a word *)

(** The table of lowest bits is right for every nonzero byte. *)
Lemma rightmost_one_pos_ok b : 0 < b < 256 -> lowest_bit b (rightmost_one_pos !!! Z.to_nat b).
Proof.
  intros Hb.
  assert (forallb (fun b => let k := rightmost_one_pos !!! Z.to_nat b in
            (0 <=? k) && (k <? 8) && Z.testbit b k &&
            forallb (fun i => (k <=? i) || negb (Z.testbit b i)) (seqZ 0 8)) (seqZ 1 255) = true)
    as H by (vm_compute; reflexivity).
  rewrite forallb_forall in H. specialize (H b).
  rewrite <- list_elem_of_In, elem_of_seqZ in H. specialize (H ltac:(lia)).
  rewrite !andb_true_iff, forallb_forall in H. destruct H as [[[H0 H8] Hk] Hi].
  split_and!; [lia|done|]. intros i Hlt. specialize (Hi i).
  rewrite <- list_elem_of_In, elem_of_seqZ in Hi. specialize (Hi ltac:(lia)).
  destruct (Z.testbit b i); [|done]. simpl in Hi. rewrite orb_false_r in Hi. lia.
Qed.

(** The byte loop finds the lowest one bit. *)
Lemma rightmost_scan_ok n w base :
  0 < w < 2 ^ (8 * Z.of_nat n) ->
  exists k, rightmost_scan n w base = Ret (base + k) /\ lowest_bit w k.
Proof.
  revert w base. induction n as [|n IH]; intros w base Hw; [simpl in Hw; lia|].
  cbn [rightmost_scan]. destruct (Z.eqb_spec (Z.land w 255) 0) as [E|E].
  - rewrite land_255 in E. rewrite Z.shiftr_div_pow2 by lia.
    pose proof (Z.div_mod w (2 ^ 8) ltac:(lia)) as Ew. rewrite E, Z.add_0_r in Ew.
    destruct (IH (w / 2 ^ 8) (base + 8)) as (k & -> & Hk & Bk & Mk).
    { split; [lia|]. apply Z.div_lt_upper_bound; [lia|]. rewrite <- Z.pow_add_r by lia.
      replace (8 + 8 * Z.of_nat n) with (8 * Z.of_nat (S n)) by lia. apply Hw. }
    exists (k + 8). split; [f_equal; lia|]. split_and!; [lia| |].
    + by rewrite <- Z.shiftr_spec, Z.shiftr_div_pow2 by lia.
    + intros i Hi. destruct (Z.lt_ge_cases i 8).
      * rewrite <- (Z.mod_pow2_bits_low w 8), E by lia. apply Z.bits_0.
      * replace i with (i - 8 + 8) by lia.
        rewrite <- Z.shiftr_spec, Z.shiftr_div_pow2 by lia. apply Mk. lia.
  - assert (0 < Z.land w 255 < 256) as Hb.
    { rewrite land_255 in *. pose proof (Z.mod_pos_bound w (2 ^ 8) ltac:(lia)). lia. }
    destruct (rightmost_one_pos_ok _ Hb) as (Hk & Bk & Mk).
    eexists. split; [reflexivity|].
    set (k := rightmost_one_pos !!! _) in *. clearbody k.
    assert (k < 8) as Hk8.
    { destruct (Z.lt_ge_cases k 8); [done|].
      assert (is_u 8 (Z.land w 255)) as Hu by (split; [lia|apply Hb]).
      by rewrite (is_u_testbit 8 _ k Hu ltac:(lia)) in Bk. }
    split_and!; [done|by rewrite testbit_byte in Bk by lia|].
    intros i Hi. rewrite <- testbit_byte by lia. by apply Mk.
Qed.

Lemma rightmost_scan_word w base :
  is_u 32 w -> w <> 0 -> exists k, rightmost_scan 4 w base = Ret (base + k) /\ lowest_bit w k.
Proof. intros [H0 H1] Hw. apply (rightmost_scan_ok 4). simpl. lia. Qed.

(** The lowest bit of a word list is in its first nonzero word. *)
Lemma lowest_bit_low w v k : is_u 32 w -> lowest_bit w k -> lowest_bit (w + 2 ^ 32 * v) k.
Proof.
  intros Hw (Hk & Bk & Mk). assert (k < 32).
  { destruct (Z.lt_ge_cases k 32); [done|]. by rewrite (is_u_testbit 32 w) in Bk by solve_isu. }
  split_and!; [done| |].
  - rewrite testbit_split by solve_isu. by destruct (Z.ltb_spec k 32); [|lia].
  - intros i Hi. rewrite testbit_split by solve_isu. destruct (Z.ltb_spec i 32); [auto|lia].
Qed.

Lemma lowest_bit_high v k : lowest_bit v k -> lowest_bit (0 + 2 ^ 32 * v) (k + 32).
Proof.
  intros (Hk & Bk & Mk). split_and!; [lia| |].
  - rewrite testbit_split by solve_isu. destruct (Z.ltb_spec (k + 32) 32); [lia|].
    by rewrite Z.add_simpl_r.
  - intros i Hi. rewrite testbit_split by solve_isu. destruct (Z.ltb_spec i 32); [apply Z.bits_0|].
    apply Mk. lia.
Qed.

Lemma land_all_ones w : is_u 32 w -> Z.land w all_ones = w.
Proof. intros Hw. rewrite all_ones_eq, Z.land_ones by lia. by apply is_u_id. Qed.

Lemma next_member_loop_ok ws wn mask :
  words_ok ws -> is_u 32 mask ->
  let v := match ws with [] => 0 | w :: ws' => Z.land w mask + 2 ^ 32 * words_val ws' end in
  (v = 0 /\ next_member_loop ws wn mask = Ret (-2)) \/
  (exists k, lowest_bit v k /\ next_member_loop ws wn mask = Ret (wn * 32 + k)).
Proof.
  intros Hws. revert wn mask. induction Hws as [|w ws Hw Hws IH]; intros wn mask Hm; [by left|].
  cbn [next_member_loop]. destruct Hm as [Hm0 Hm1].
  pose proof (is_u_land 32 w mask ltac:(lia) Hw Hm0) as Hwm.
  destruct (Z.eqb_spec (Z.land w mask) 0) as [E|E]; cbn [negb].
  - rewrite E, Z.add_0_l. specialize (IH (wn + 1) all_ones is_u_all_ones).
    assert (match ws with [] => 0 | w :: ws' => Z.land w all_ones + 2 ^ 32 * words_val ws' end
            = words_val ws) as Ev.
    { destruct Hws; [done|]. cbn [words_val]. by rewrite land_all_ones. }
    cbv zeta in IH. rewrite Ev in IH. destruct IH as [[-> ->]|(k & Hk & ->)].
    + left. split; [lia|done].
    + right. exists (k + 32). split; [by apply lowest_bit_high|]. f_equal. lia.
  - destruct (rightmost_scan_word _ (wn * BITS_PER_BITMAPWORD) Hwm E) as (k & -> & Hk).
    right. exists k. split; [by apply lowest_bit_low|done].
Qed.

(** [is_next v p r]: [r] is the least member of [v] above [p], or -2 for none. *)
Definition is_next (v p r : Z) : Prop :=
  (r = -2 /\ forall x, p < x -> 0 <= x -> Z.testbit v x = false) \/
  (p < r /\ 0 <= r /\ Z.testbit v r = true /\
   forall x, p < x < r -> 0 <= x -> Z.testbit v x = false).

Lemma words_drop_bit ws n j :
  words_ok ws -> 0 <= j ->
  Z.testbit (words_val (drop n ws)) j = Z.testbit (words_val ws) (j + 32 * Z.of_nat n).
Proof.
  intros Hws Hj. rewrite !words_bit by (done || lia || by apply Forall_drop).
  rewrite lookup_drop. replace (j + 32 * Z.of_nat n) with (j + Z.of_nat n * 32) by lia.
  rewrite Z.div_add, Z.mod_add by lia.
  assert (0 <= j / 32) by (apply Z.div_pos; lia).
  by replace (n + Z.to_nat (j / 32))%nat with (Z.to_nat (j / 32 + Z.of_nat n)) by lia.
Qed.

Lemma next_mask_bit b i :
  0 <= b < 32 -> 0 <= i < 32 -> Z.testbit (u32_shl all_ones b) i = (b <=? i).
Proof.
  intros Hb Hi. rewrite testbit_u32_shl by lia. destruct (Z.ltb_spec i 32); [|lia]. simpl.
  destruct (Z.leb_spec b i).
  - rewrite all_ones_eq, Z.testbit_ones_nonneg by lia. apply Z.ltb_lt. lia.
  - by rewrite Z.testbit_neg_r by lia.
Qed.

(** The words from [p]'s word on, with the bits before [p] masked off. *)
Lemma next_start_bit ws p j :
  words_ok ws -> 0 <= p -> 0 <= j ->
  Z.testbit
    (match drop (Z.to_nat (p / 32)) ws with
     | [] => 0
     | w :: ws' => Z.land w (u32_shl all_ones (p mod 32)) + 2 ^ 32 * words_val ws'
     end) j
  = (p mod 32 <=? j) && Z.testbit (words_val ws) (j + 32 * (p / 32)).
Proof.
  intros Hws Hp Hj. assert (0 <= p / 32) by (apply Z.div_pos; lia).
  pose proof (Z.mod_pos_bound p 32 ltac:(lia)).
  pose proof (words_drop_bit ws (Z.to_nat (p / 32)) j Hws Hj) as E.
  rewrite Z2Nat.id in E by done. rewrite <- E. clear E.
  pose proof (Forall_drop _ (Z.to_nat (p / 32)) _ Hws) as Hd.
  destruct Hd as [|w ws' Hw Hws']; [cbn [words_val]; by rewrite !Z.bits_0, andb_false_r|].
  rewrite words_val_cons_bit, testbit_split by
    first [done | lia | apply is_u_land; [lia|done|apply is_u_u32]].
  destruct (Z.ltb_spec j 32).
  - rewrite Z.land_spec, next_mask_bit by lia. apply andb_comm.
  - by destruct (Z.leb_spec (p mod 32) j); [|lia].
Qed.

Lemma bms_next_member_ok a p :
  bms_ok a -> -1 <= p -> exists r, bms_next_member a p = Ret r /\ is_next (bms_val a) p r.
Proof.
  intros Ha Hp. destruct a as [a|].
  2:{ exists (-2). split; [done|]. left. split; [done|]. intros. apply Z.bits_0. }
  unfold bms_next_member. destruct Ha as [_ Ha]. cbn [bms_val].
  rewrite WORDNUM_div, BITNUM_mod by lia. set (q := p + 1).
  pose proof (Z.mod_pos_bound q 32 ltac:(lia)). pose proof (Z.div_mod q 32 ltac:(lia)).
  pose proof (fun j => next_start_bit (words a) q j Ha ltac:(lia)) as Hbit.
  pose proof (next_member_loop_ok (drop (Z.to_nat (q / 32)) (words a)) (q / 32)
    (u32_shl all_ones (q mod 32)) (Forall_drop _ _ _ Ha) (is_u_u32 _)) as Hloop.
  cbv zeta in Hloop. set (v := match drop _ (words a) with [] => 0 | _ :: _ => _ end) in *.
  destruct Hloop as [[Hv ->]|(k & (Hk & Bk & Mk) & ->)]; eexists; (split; [reflexivity|]).
  - left. split; [done|]. intros x Hx Hx0. specialize (Hbit (x - 32 * (q / 32)) ltac:(lia)).
    rewrite Hv, Z.bits_0 in Hbit. destruct (Z.leb_spec (q mod 32) (x - 32 * (q / 32))); [|lia].
    simpl in Hbit. rewrite Hbit. f_equal. lia.
  - right. rewrite Hbit in Bk by done. apply andb_true_iff in Bk as [Bk1 Bk2].
    apply Z.leb_le in Bk1. replace (q / 32 * 32 + k) with (k + 32 * (q / 32)) by lia.
    split_and!; [lia|lia|done|]. intros x Hx Hx0.
    specialize (Mk (x - 32 * (q / 32)) ltac:(lia)). rewrite Hbit in Mk by lia.
    destruct (Z.leb_spec (q mod 32) (x - 32 * (q / 32))); [|lia].
    simpl in Mk. rewrite <- Mk. f_equal. lia.
Qed.

(** * Iteration over the members *)

(** [x = -1; while ((x = bms_next_member(a, x)) >= 0) process member x;] *)
Fixpoint bms_foreach (fuel : nat) (a : option Bitmapset) (x : Z) : cres (list Z) :=
  match fuel with
  | O => Undef
  | S fuel =>
      let* x := bms_next_member a x in
      if x >=? 0 then let* xs := bms_foreach fuel a x in Ret (x :: xs) else Ret []
  end.

(** One past the largest number the word array can hold. *)
Definition bms_limit (a : option Bitmapset) : Z :=
  match a with None => 0 | Some a => 32 * nwords a end.

(** The members of a set in increasing order. *)
Definition bms_members (a : option Bitmapset) : list Z :=
  members_below (bms_val a) (bms_limit a).

Lemma bms_val_bound a : bms_ok a -> is_u (bms_limit a) (bms_val a).
Proof.
  destruct a as [a|]; simpl; [|solve_isu]. intros [_ Ha]. by apply words_val_bound.
Qed.

Lemma bms_limit_nonneg a : 0 <= bms_limit a.
Proof. destruct a; unfold bms_limit, nwords; lia. Qed.

Lemma bms_bit_bound a x : bms_ok a -> Z.testbit (bms_val a) x = true -> 0 <= x < bms_limit a.
Proof.
  intros Ha Hx. split.
  - destruct (Z.lt_ge_cases x 0); [by rewrite Z.testbit_neg_r in Hx|done].
  - destruct (Z.lt_ge_cases x (bms_limit a)); [done|].
    pose proof (bms_limit_nonneg a).
    by rewrite (is_u_testbit (bms_limit a)) in Hx by (by apply bms_val_bound || lia).
Qed.

Lemma elem_of_bms_members a x :
  bms_ok a -> x ∈ bms_members a <-> Z.testbit (bms_val a) x = true.
Proof.
  intros Ha. unfold bms_members, members_below. rewrite list_elem_of_filter, elem_of_seqZ.
  split; [by intros []|]. intros Hx. pose proof (bms_bit_bound a x Ha Hx). split; [done|lia].
Qed.

(** The members above [p], after the next one has been taken. *)
Lemma members_above_next v n p r :
  0 <= r < n -> -1 <= p < r -> Z.testbit v r = true ->
  (forall x, p < x < r -> 0 <= x -> Z.testbit v x = false) ->
  filter (fun x => Z.testbit v x = true) (seqZ (p + 1) (n - (p + 1))) =
  r :: filter (fun x => Z.testbit v x = true) (seqZ (r + 1) (n - (r + 1))).
Proof.
  intros Hr Hp Hb Hgap.
  replace (n - (p + 1)) with ((r - (p + 1)) + (n - r)) by lia.
  rewrite seqZ_app by lia. rewrite filter_app.
  rewrite filter_seqZ_empty; [|intros x Hx; rewrite Hgap by lia; done].
  replace (p + 1 + (r - (p + 1))) with r by lia. rewrite (seqZ_cons r) by lia.
  rewrite filter_cons_True by done. simpl. do 3 f_equal; lia.
Qed.

Lemma bms_foreach_ok a fuel p :
  bms_ok a -> -1 <= p ->
  let rest := filter (fun x => Z.testbit (bms_val a) x = true)
                (seqZ (p + 1) (bms_limit a - (p + 1))) in
  (length rest < fuel)%nat -> bms_foreach fuel a p = Ret rest.
Proof.
  intros Ha. revert p. induction fuel as [|fuel IH]; intros p Hp rest Hf; [lia|].
  cbn [bms_foreach]. destruct (bms_next_member_ok a p Ha Hp) as (r & -> & Hr).
  cbn [cbind]. destruct Hr as [[-> Hnone]|(Hpr & Hr0 & Hb & Hgap)].
  - simpl. f_equal. unfold rest. symmetry. apply filter_seqZ_empty.
    intros x Hx. by rewrite Hnone by lia.
  - pose proof (bms_bit_bound a r Ha Hb).
    pose proof (members_above_next (bms_val a) (bms_limit a) p r
      ltac:(lia) ltac:(lia) Hb Hgap) as E.
    unfold rest in *. rewrite E in Hf |- *. simpl in Hf.
    destruct (Z.geb_spec r 0); [|lia]. rewrite IH by lia. done.
Qed.

(** [bms_next_member] returns the least member above [prevbit], or -2 when
    there is none, and the documented loop over it visits every member of the
    set exactly once, in increasing order, and ends. *)
Theorem bms_next_member_iterates a p :
  bms_ok a -> -1 <= p ->
  (exists r, bms_next_member a p = Ret r /\ is_next (bms_val a) p r) /\
  bms_foreach (S (length (bms_members a))) a (-1) = Ret (bms_members a) /\
  (forall x, x ∈ bms_members a <-> Z.testbit (bms_val a) x = true).
Proof.
  intros Ha Hp. split_and!.
  - by apply bms_next_member_ok.
  - unfold bms_members, members_below.
    pose proof (bms_foreach_ok a (S (length (bms_members a))) (-1) Ha ltac:(lia)) as H.
    unfold bms_members, members_below in H. cbv zeta in H.
    replace (-1 + 1) with 0 in H by lia. rewrite Z.sub_0_r in H. apply H. lia.
  - intros x. by apply elem_of_bms_members.
Qed.

Lemma bms_next_member_iterates_witness :
  bms_foreach (S (length (bms_members bms_ex1))) bms_ex1 (-1) = Ret (bms_members bms_ex1) /\
  bms_members bms_ex1 = [1; 40].
Proof.
  split; [apply (bms_next_member_iterates bms_ex1 (-1) bms_ex1_ok); lia|vm_compute; reflexivity].
Defined.

(** ** Destructive iteration *)

Lemma RIGHTMOST_ONE_lowest w k : is_u 32 w -> lowest_bit w k -> RIGHTMOST_ONE w = 2 ^ k.
Proof.
  intros Hw Hl. rewrite <- (land_opp_lowest w k Hl). unfold RIGHTMOST_ONE.
  apply Z.bits_inj'; intros i Hi. rewrite testbit_u32, !Z.land_spec.
  destruct (Z.ltb_spec i 32); [|by rewrite (is_u_testbit 32 w) by solve_isu].
  rewrite !testbit_s32 by done. cbn [andb]. f_equal.
  assert (u32 (- s32 w) = u32 (- w)) as E.
  { unfold u32. rewrite <- !Z.sub_0_l, Zminus_mod, (Zminus_mod 0 w). do 2 f_equal.
    unfold s32. rewrite Zminus_mod, Zmod_mod, <- Zminus_mod. f_equal. lia. }
  pose proof (f_equal (fun z => Z.testbit z i) E) as Et. cbv beta in Et.
  rewrite !testbit_u32 in Et. by destruct (Z.ltb_spec i 32); [|lia].
Qed.

Lemma first_member_loop_ok ws wn :
  words_ok ws ->
  (words_val ws = 0 /\ first_member_loop ws wn = Ret None) \/
  (exists k ws', lowest_bit (words_val ws) k /\
     first_member_loop ws wn = Ret (Some (wn * 32 + k, ws')) /\
     words_ok ws' /\ length ws' = length ws /\ words_val ws' = Z.clearbit (words_val ws) k).
Proof.
  intros Hws. revert wn. induction Hws as [|w ws Hw Hws IH]; intros wn; [by left|].
  cbn [first_member_loop words_val]. destruct (Z.eqb_spec w 0) as [->|E]; cbn [negb].
  - destruct (IH (wn + 1)) as [[-> ->]|(k & ws' & Hk & -> & Hok & Hl & Hv)].
    { left. by split. }
    right. exists (k + 32), (0 :: ws'). split_and!.
    + by apply lowest_bit_high.
    + cbn [cbind]. do 2 f_equal. f_equal. lia.
    + by constructor.
    + simpl. lia.
    + cbn [words_val]. rewrite Hv. apply Z.bits_inj'; intros i Hi. destruct Hk as [Hk _].
      rewrite Z.clearbit_eqb, !testbit_split by solve_isu.
      destruct (Z.ltb_spec i 32); [by rewrite Z.bits_0|].
      rewrite Z.clearbit_eqb by lia. do 2 f_equal.
      destruct (Z.eqb_spec k (i - 32)), (Z.eqb_spec (k + 32) i); done || lia.
  - destruct (lowest_bit_exists w ltac:(destruct Hw; lia)) as [k Hk].
    pose proof (lowest_bit_lt w k 32 Hw ltac:(lia) Hk) as Hk32. pose proof (proj1 Hk) as Hk0.
    rewrite (RIGHTMOST_ONE_lowest w k) by done.
    destruct (rightmost_scan_word (2 ^ k) (wn * BITS_PER_BITMAPWORD)
      (is_u_pow2 k 32 ltac:(lia)) ltac:(lia)) as (k' & -> & Hk').
    rewrite (lowest_bit_unique _ _ _ Hk' (lowest_bit_pow2 k Hk0)).
    right. exists k. eexists. split_and!; [by apply lowest_bit_low|reflexivity|..].
    + constructor; [|done]. apply is_u_land; [lia|done|apply is_u_u32].
    + done.
    + cbn [words_val]. rewrite land_u32_not by done. apply Z.bits_inj'; intros i Hi.
      rewrite Z.clearbit_eqb, !testbit_split by (done || lia || by apply is_u_ldiff).
      rewrite Z.ldiff_spec, Z.pow2_bits_eqb by lia.
      destruct (Z.ltb_spec i 32); [done|].
      destruct (Z.eqb_spec k i); [lia|]. by rewrite andb_true_r.
Qed.

(** [bms_first_member] removes and returns the least member; it returns -1
    and leaves the set alone exactly when the set is empty. *)
Theorem bms_first_member_pops a :
  bms_ok a ->
  (bms_val a = 0 /\ bms_first_member a = Ret (-1, a)) \/
  (exists k a', bms_first_member a = Ret (k, a') /\ lowest_bit (bms_val a) k /\
     bms_repr a' (Z.clearbit (bms_val a) k)).
Proof.
  intros Ha. destruct a as [a|]; [|by left]. destruct Ha as [Ha0 Ha].
  unfold bms_first_member. cbn [bms_val].
  destruct (first_member_loop_ok (words a) 0 Ha) as [[Hv ->]|(k & ws & Hk & -> & Hok & Hl & Hv)].
  - by left.
  - right. exists k, (Some {| words := ws |}). split_and!; [done|done|].
    split; [split; [|done]|done]. simpl. intros ->. by destruct (words a).
Qed.

Lemma bms_first_member_pops_witness :
  ((bms_val bms_ex1 = 0 /\ bms_first_member bms_ex1 = Ret (-1, bms_ex1)) \/
   (exists k a', bms_first_member bms_ex1 = Ret (k, a') /\ lowest_bit (bms_val bms_ex1) k /\
     bms_repr a' (Z.clearbit (bms_val bms_ex1) k))) /\
  bms_first_member bms_ex1 = Ret (1, Some {| words := [0; 256] |}).
Proof.
  split; [apply (bms_first_member_pops bms_ex1 bms_ex1_ok)|reflexivity].
Defined.

(** ** Iteration in reverse *)

Definition highest_bit (z k : Z) : Prop :=
  0 <= k /\ Z.testbit z k = true /\ forall i, k < i -> Z.testbit z i = false.

Lemma leftmost_one_pos_ok b : 0 < b < 256 -> highest_bit b (leftmost_one_pos !!! Z.to_nat b).
Proof.
  intros Hb.
  assert (forallb (fun b => let k := leftmost_one_pos !!! Z.to_nat b in
            (0 <=? k) && Z.testbit b k &&
            forallb (fun i => (i <=? k) || negb (Z.testbit b i)) (seqZ 0 8)) (seqZ 1 255) = true)
    as H by (vm_compute; reflexivity).
  rewrite forallb_forall in H. specialize (H b).
  rewrite <- list_elem_of_In, elem_of_seqZ in H. specialize (H ltac:(lia)).
  rewrite !andb_true_iff, forallb_forall in H. destruct H as [[H0 Hk] Hi].
  split_and!; [lia|done|]. intros i Hlt. destruct (Z.lt_ge_cases i 8).
  - specialize (Hi i). rewrite <- list_elem_of_In, elem_of_seqZ in Hi.
    specialize (Hi ltac:(lia)). destruct (Z.testbit b i); [|done].
    simpl in Hi. rewrite orb_false_r in Hi. lia.
  - apply (is_u_testbit 8); [split; lia|lia].
Qed.

Lemma leftmost_scan_ok n w base :
  0 < w < 2 ^ (8 * Z.of_nat (S n)) ->
  exists k, leftmost_scan (S n) w (8 * Z.of_nat n) base = Ret (base + k) /\ highest_bit w k.
Proof.
  revert base. induction n as [|n IH]; intros base Hw; cbn [leftmost_scan].
  - destruct (leftmost_one_pos_ok w) as (Hk & Bk & Mk); [simpl in Hw; lia|].
    change (8 * Z.of_nat 0) with 0. rewrite Z.shiftr_0_r.
    destruct (Z.eqb_spec w 0); [lia|].
    rewrite land_255, Z.mod_small by (simpl in Hw; lia).
    eexists. split; [reflexivity|]. by rewrite Z.add_0_l.
  - destruct (Z.eqb_spec (Z.shiftr w (8 * Z.of_nat (S n))) 0) as [E|E].
    + rewrite Z.shiftr_div_pow2 in E by lia.
      replace (8 * Z.of_nat (S n) - 8) with (8 * Z.of_nat n) by lia.
      apply (IH base). split; [lia|].
      pose proof (Z.div_mod w (2 ^ (8 * Z.of_nat (S n))) ltac:(lia)) as Ew.
      rewrite E, Z.mul_0_r, Z.add_0_l in Ew. rewrite Ew. apply Z.mod_pos_bound. lia.
    + set (s := 8 * Z.of_nat (S n)) in *.
      assert (0 < Z.shiftr w s < 256) as Hb.
      { assert (0 <= Z.shiftr w s) by (apply Z.shiftr_nonneg; lia). split; [lia|].
        rewrite Z.shiftr_div_pow2 by lia. apply Z.div_lt_upper_bound; [lia|].
        change 256 with (2 ^ 8). rewrite <- Z.pow_add_r by lia.
        replace (s + 8) with (8 * Z.of_nat (S (S n))) by lia. apply Hw. }
      rewrite land_255, Z.mod_small by lia.
      destruct (leftmost_one_pos_ok _ Hb) as (Hk & Bk & Mk).
      eexists. split; [reflexivity|]. set (k := leftmost_one_pos !!! _) in *.
      split_and!; [lia| |].
      * rewrite Z.shiftr_spec in Bk by lia. by rewrite Z.add_comm.
      * intros i Hi. specialize (Mk (i - s) ltac:(lia)).
        rewrite Z.shiftr_spec in Mk by lia. by rewrite Z.sub_add in Mk.
Qed.

Lemma prev_member_loop_ok ws n mask w :
  words_ok ws -> is_u 32 mask -> ws !! n = Some w ->
  let v := words_val (take n ws) + 2 ^ (32 * Z.of_nat n) * Z.land w mask in
  (v = 0 /\ prev_member_loop ws (S n) mask = Ret (-2)) \/
  (exists k, highest_bit v k /\ prev_member_loop ws (S n) mask = Ret k).
Proof.
  intros Hws. revert mask w. induction n as [|n IH]; intros mask w Hm Hw v;
    cbn [prev_member_loop]; rewrite Hw; cbn [deref cbind];
    pose proof (is_u_land 32 w mask ltac:(lia) (Forall_lookup_1 _ _ _ _ Hws Hw) (proj1 Hm)) as Hwm.
  all: destruct (Z.eqb_spec (Z.land w mask) 0) as [E|E]; cbn [negb].
  - left. unfold v. rewrite E. by simpl.
  - right. destruct (leftmost_scan_ok 3 (Z.land w mask) (Z.of_nat 0 * BITS_PER_BITMAPWORD))
      as (k & Hk1 & Hk2); [destruct Hwm; simpl; lia|].
    exists k. split; [|exact Hk1]. unfold v. simpl. by rewrite Z.mul_1_l.
  - destruct (lookup_lt_is_Some_2 ws n) as [w' Hw'];
      [apply lookup_lt_Some in Hw; lia|].
    specialize (IH all_ones w' is_u_all_ones Hw').
    rewrite land_all_ones in IH by (by eapply Forall_lookup_1). cbv zeta in IH.
    assert (v = words_val (take n ws) + 2 ^ (32 * Z.of_nat n) * w') as ->; [|exact IH].
    unfold v. rewrite E, (take_S_r _ _ _ Hw'), words_val_app.
    rewrite length_take_le by (apply lookup_lt_Some in Hw'; lia). simpl. lia.
  - right. destruct (leftmost_scan_ok 3 (Z.land w mask) (Z.of_nat (S n) * BITS_PER_BITMAPWORD))
      as (k & Hk1 & Hk & Bk & Mk); [destruct Hwm; simpl; lia|].
    exists (Z.of_nat (S n) * BITS_PER_BITMAPWORD + k). split; [|exact Hk1].
    assert (is_u (32 * Z.of_nat (S n)) (words_val (take (S n) ws))) as Hlow.
    { replace (S n) with (length (take (S n) ws)) at 1
        by (apply length_take_le; apply lookup_lt_Some in Hw; lia).
      apply words_val_bound. by apply Forall_take. }
    unfold v, BITS_PER_BITMAPWORD. split_and!; [lia| |].
    + rewrite testbit_split by (done || lia).
      destruct (Z.ltb_spec (Z.of_nat (S n) * 32 + k) (32 * Z.of_nat (S n))); [lia|].
      rewrite <- Bk. f_equal. lia.
    + intros i Hi. rewrite testbit_split by (done || lia).
      destruct (Z.ltb_spec i (32 * Z.of_nat (S n))); [lia|]. apply Mk. lia.
Qed.

(** [is_prev v p r]: [r] is the greatest member of [v] below [p], or -2 for none. *)
Definition is_prev (v p r : Z) : Prop :=
  (r = -2 /\ forall x, 0 <= x < p -> Z.testbit v x = false) \/
  (0 <= r < p /\ Z.testbit v r = true /\ forall x, r < x < p -> Z.testbit v x = false).

(** The words up to [q]'s word, with the bits after [q] masked off. *)
Lemma prev_start_bit ws q w j :
  words_ok ws -> 0 <= q -> ws !! Z.to_nat (q / 32) = Some w -> 0 <= j ->
  Z.testbit (words_val (take (Z.to_nat (q / 32)) ws) +
             2 ^ (32 * Z.of_nat (Z.to_nat (q / 32))) *
             Z.land w (Z.shiftr all_ones (BITS_PER_BITMAPWORD - (q mod 32 + 1)))) j
  = (j <=? q) && Z.testbit (words_val ws) j.
Proof.
  intros Hws Hq Hw Hj. assert (0 <= q / 32) by (apply Z.div_pos; lia).
  pose proof (Z.mod_pos_bound q 32 ltac:(lia)). pose proof (Z.div_mod q 32 ltac:(lia)).
  set (n := Z.to_nat (q / 32)) in *. pose proof (lookup_lt_Some _ _ _ Hw) as Hn.
  assert (is_u (32 * Z.of_nat n) (words_val (take n ws))) as Hlow.
  { replace n with (length (take n ws)) at 1 by (apply length_take_le; lia).
    apply words_val_bound. by apply Forall_take. }
  rewrite testbit_split by (done || lia).
  assert (Z.testbit (words_val ws) j =
          if j <? 32 * Z.of_nat n then Z.testbit (words_val (take n ws)) j
          else Z.testbit (words_val (drop n ws)) (j - 32 * Z.of_nat n)) as ->.
  { rewrite <- (take_drop n ws) at 1. rewrite words_val_app, length_take_le by lia.
    by rewrite testbit_split by (done || lia). }
  rewrite (drop_S _ _ _ Hw).
  destruct (Z.ltb_spec j (32 * Z.of_nat n)); [by destruct (Z.leb_spec j q); [|lia]|].
  rewrite words_val_cons_bit by first [lia | by eapply Forall_lookup_1].
  rewrite Z.land_spec, umask_bit by lia.
  destruct (Z.ltb_spec (j - 32 * Z.of_nat n) 32).
  - rewrite andb_comm. f_equal. destruct (Z.leb_spec (j - 32 * Z.of_nat n) (q mod 32)),
      (Z.leb_spec j q); done || lia.
  - rewrite (is_u_testbit 32 w) by first [lia | by eapply Forall_lookup_1].
    by destruct (Z.leb_spec j q); [lia|].
Qed.

(** [bms_prev_member] returns the greatest member below [prevbit] (below
    the end of the word array for -1), or -2 when there is none, as long as
    [prevbit] is within the documented range; then it never reads outside the
    word array. *)
Theorem bms_prev_member_spec a p :
  bms_ok (Some a) -> p = -1 \/ 0 <= p <= bms_limit (Some a) ->
  exists r, bms_prev_member (Some a) p = Ret r /\
    is_prev (bms_val (Some a)) (if p =? -1 then bms_limit (Some a) else p) r.
Proof.
  intros [Ha0 Ha] Hp. unfold bms_prev_member.
  assert (0 < nwords a) by (unfold nwords; destruct (words a); simpl in *; done || lia).
  destruct (Z.eqb_spec p 0) as [->|Hp0].
  { exists (-2). split; [done|]. left. split; [done|]. simpl. lia. }
  cbn [bms_limit] in *.
  set (top := if p =? -1 then 32 * nwords a else p).
  assert ((if p =? -1 then nwords a * BITS_PER_BITMAPWORD - 1 else p - 1) = top - 1) as ->.
  { unfold top, BITS_PER_BITMAPWORD. destruct (p =? -1); lia. }
  assert (0 < top <= 32 * nwords a) by (unfold top; destruct (Z.eqb_spec p (-1)); lia).
  set (q := top - 1). assert (0 <= q / 32) by (apply Z.div_pos; lia).
  pose proof (Z.mod_pos_bound q 32 ltac:(lia)). pose proof (Z.div_mod q 32 ltac:(lia)).
  rewrite WORDNUM_div, BITNUM_mod by lia.
  destruct (lookup_lt_is_Some_2 (words a) (Z.to_nat (q / 32))) as [w Hw];
    [unfold nwords in *; lia|].
  pose proof (fun j => prev_start_bit (words a) q w j Ha ltac:(lia) Hw) as Hbit.
  replace (Z.to_nat (q / 32 + 1)) with (S (Z.to_nat (q / 32))) by lia.
  pose proof (prev_member_loop_ok (words a) (Z.to_nat (q / 32))
    (Z.shiftr all_ones (BITS_PER_BITMAPWORD - (q mod 32 + 1))) w Ha
    (is_u_umask (32 - (q mod 32 + 1)) ltac:(lia)) Hw) as Hloop.
  cbv zeta in Hloop. set (v := words_val (take _ _) + _) in *. cbn [bms_val].
  destruct Hloop as [[Hv ->]|(k & (Hk & Bk & Mk) & ->)]; eexists; (split; [reflexivity|]).
  - left. split; [done|]. intros x Hx. specialize (Hbit x ltac:(lia)).
    rewrite Hv, Z.bits_0 in Hbit. by destruct (Z.leb_spec x q); [|lia].
  - right. rewrite Hbit in Bk by done. apply andb_true_iff in Bk as [Bk1 Bk2].
    apply Z.leb_le in Bk1. split_and!; [lia|lia|done|].
    intros x Hx. specialize (Mk x ltac:(lia)). rewrite Hbit in Mk by lia.
    by destruct (Z.leb_spec x q); [|lia].
Qed.

Lemma bms_prev_member_spec_witness :
  (exists r, bms_prev_member (Some {| words := [2; 256] |}) (-1) = Ret r /\
     is_prev (bms_val bms_ex1) (bms_limit bms_ex1) r) /\
  bms_prev_member bms_ex1 (-1) = Ret 40 /\ bms_prev_member bms_ex1 40 = Ret 1.
Proof.
  split; [apply (bms_prev_member_spec {| words := [2; 256] |} (-1) bms_ex1_ok); by left|].
  split; reflexivity.
Defined.

(** * Cardinality *)

(** The members of a number split at bit [s]. *)
Lemma members_split y v s m :
  is_u s y -> 0 <= s -> 0 <= m ->
  members_below (y + 2 ^ s * v) (s + m) = members_below y s ++ (Z.add s <$> members_below v m).
Proof.
  intros Hy Hs Hm. unfold members_below. rewrite seqZ_app, filter_app by lia. f_equal.
  - apply filter_ext_in. intros x Hx. apply elem_of_seqZ in Hx.
    rewrite testbit_split by (done || lia). by destruct (Z.ltb_spec x s); [|lia].
  - replace (seqZ (0 + s) m) with (Z.add s <$> seqZ 0 m) by (rewrite fmap_add_seqZ; f_equal; lia).
    rewrite filter_fmap_list. f_equal. apply filter_ext_in. intros x Hx.
    apply elem_of_seqZ in Hx. rewrite testbit_split by (done || lia).
    destruct (Z.ltb_spec (s + x) s); [lia|]. by replace (s + x - s) with x by lia.
Qed.

(** The members of a word list, word by word. *)
Fixpoint word_members (ws : list Z) (wn : Z) : list Z :=
  match ws with
  | [] => []
  | w :: ws' => (Z.add (32 * wn) <$> members_below w 32) ++ word_members ws' (wn + 1)
  end.

Lemma word_members_eq ws wn :
  words_ok ws ->
  (Z.add (32 * wn) <$> members_below (words_val ws) (32 * Z.of_nat (length ws))) =
  word_members ws wn.
Proof.
  intros Hws. revert wn. induction Hws as [|w ws Hw Hws IH]; intros wn; [done|].
  cbn [word_members words_val length].
  replace (32 * Z.of_nat (S (length ws))) with (32 + 32 * Z.of_nat (length ws)) by lia.
  rewrite members_split, fmap_app by (done || lia). f_equal. rewrite <- IH.
  rewrite <- list_fmap_compose. apply list_fmap_ext. intros i x _. simpl. lia.
Qed.

Lemma bms_members_eq a :
  bms_ok (Some a) -> bms_members (Some a) = word_members (words a) 0.
Proof.
  intros [_ Ha]. rewrite <- word_members_eq by done. unfold bms_members, bms_limit, nwords.
  rewrite Z.mul_0_r. cbn [bms_val]. etrans; [symmetry; apply list_fmap_id|].
  by apply list_fmap_ext.
Qed.

(** The members of a word by its lowest bit. *)
Lemma members_lowest w k n :
  is_u n w -> lowest_bit w k -> exists rest,
  members_below w n = k :: rest /\ (rest = [] <-> w = 2 ^ k) /\ 0 <= k < n.
Proof.
  intros Hw Hl. assert (0 <= n) as Hn.
  { destruct (Z.lt_ge_cases n 0); [|done]. destruct Hw. rewrite Z.pow_neg_r in * by done. lia. }
  pose proof (lowest_bit_lt w k n Hw Hn Hl) as Hkn. destruct Hl as (Hk & Bk & Mk).
  pose proof (members_above_next w n (-1) k ltac:(lia) ltac:(lia) Bk
    ltac:(intros; apply Mk; lia)) as E.
  replace (-1 + 1) with 0 in E by lia. rewrite Z.sub_0_r in E.
  eexists. split; [exact E|]. split; [|lia]. split.
  - intros Hnil. apply Z.bits_inj'; intros i Hi. rewrite Z.pow2_bits_eqb by done.
    destruct (Z.eqb_spec k i) as [->|Hne]; [done|].
    destruct (Z.testbit w i) eqn:Ei; [|done]. exfalso.
    assert (0 <= i < n) by (split; [done|]; destruct (Z.lt_ge_cases i n); [done|];
      by rewrite (is_u_testbit n w i Hw ltac:(lia)) in Ei).
    destruct (Z.lt_ge_cases i k); [by rewrite Mk in Ei by lia|].
    assert (i ∈ filter (fun x => Z.testbit w x = true) (seqZ (k + 1) (n - (k + 1)))) as Hin.
    { rewrite list_elem_of_filter, elem_of_seqZ. split; [done|lia]. }
    rewrite Hnil in Hin. by apply elem_of_nil in Hin.
  - intros ->. apply filter_seqZ_empty. intros x Hx. rewrite Z.pow2_bits_eqb by done.
    destruct (Z.eqb_spec k x); [lia|done].
Qed.

(** A word as the singleton loops see it. *)
Lemma word_cases w :
  is_u 32 w ->
  (w = 0 /\ members_below w 32 = []) \/
  (w <> 0 /\ HAS_MULTIPLE_ONES w = false /\
     exists k, 0 <= k < 32 /\ members_below w 32 = [k] /\
       forall base, rightmost_scan 4 w base = Ret (base + k)) \/
  (w <> 0 /\ HAS_MULTIPLE_ONES w = true /\ exists j k l, members_below w 32 = j :: k :: l).
Proof.
  intros Hw. destruct (decide (w = 0)) as [->|Hne].
  { left. split; [done|]. apply filter_seqZ_empty. intros x _. by rewrite Z.bits_0. }
  right. destruct (lowest_bit_exists w ltac:(destruct Hw; lia)) as [k Hk].
  destruct (members_lowest w k 32 Hw Hk) as (rest & Hm & Hrest & Hk32).
  unfold HAS_MULTIPLE_ONES. rewrite (RIGHTMOST_ONE_lowest w k Hw Hk).
  destruct (Z.eqb_spec (2 ^ k) w) as [E|E]; cbn [negb]; [left|right]; split_and!; try done.
  - exists k. split_and!; [lia|lia|rewrite Hm; f_equal; by apply Hrest|].
    intros base. destruct (rightmost_scan_word w base Hw Hne) as (k' & -> & Hk').
    by rewrite (lowest_bit_unique _ _ _ Hk' Hk).
  - destruct rest as [|j rest]; [|by exists k, j, rest].
    destruct E. symmetry. by apply Hrest.
Qed.

Lemma number_of_ones_ok b :
  0 <= b < 256 -> number_of_ones !!! Z.to_nat b = Z.of_nat (length (members_below b 8)).
Proof.
  intros Hb.
  assert (forallb (fun b => number_of_ones !!! Z.to_nat b =? Z.of_nat (length (members_below b 8)))
            (seqZ 0 256) = true) as H by (vm_compute; reflexivity).
  rewrite forallb_forall in H. apply Z.eqb_eq, H. rewrite <- list_elem_of_In, elem_of_seqZ. lia.
Qed.

Lemma count_ones_ok n w r :
  is_u (8 * Z.of_nat n) w ->
  count_ones n w r = Ret (r + Z.of_nat (length (members_below w (8 * Z.of_nat n)))).
Proof.
  revert w r. induction n as [|n IH]; intros w r Hw.
  - assert (w = 0) as -> by (destruct Hw; simpl in *; lia). simpl. f_equal. lia.
  - cbn [count_ones]. destruct (Z.eqb_spec w 0) as [->|Hne].
    { unfold members_below. rewrite filter_seqZ_empty; [simpl; f_equal; lia|].
      intros x _. by rewrite Z.bits_0. }
    pose proof (Z.div_mod w (2 ^ 8) ltac:(lia)) as E.
    pose proof (Z.mod_pos_bound w (2 ^ 8) ltac:(lia)) as Hb.
    rewrite Z.shiftr_div_pow2 by lia. rewrite IH.
    2:{ destruct Hw as [Hw0 Hw1]. split; [apply Z.div_pos; lia|].
        apply Z.div_lt_upper_bound; [lia|]. rewrite <- Z.pow_add_r by lia.
        by replace (8 + 8 * Z.of_nat n) with (8 * Z.of_nat (S n)) by lia. }
    rewrite land_255, number_of_ones_ok by (simpl in Hb; lia). f_equal.
    replace (8 * Z.of_nat (S n)) with (8 + 8 * Z.of_nat n) by lia.
    replace (members_below w (8 + 8 * Z.of_nat n)) with
      (members_below (w mod 2 ^ 8 + 2 ^ 8 * (w / 2 ^ 8)) (8 + 8 * Z.of_nat n)) by (f_equal; lia).
    rewrite members_split by (lia || done). rewrite length_app, length_fmap. lia.
Qed.

Lemma num_members_loop_ok ws wn r :
  words_ok ws -> num_members_loop ws r = Ret (r + Z.of_nat (length (word_members ws wn))).
Proof.
  intros Hws. revert wn r. induction Hws as [|w ws Hw Hws IH]; intros wn r;
    [simpl; f_equal; lia|].
  cbn [num_members_loop word_members]. rewrite (count_ones_ok 4) by done. cbn [cbind].
  rewrite (IH (wn + 1)), length_app, length_fmap. f_equal. change (8 * Z.of_nat 4) with 32. lia.
Qed.

(** What is reported for a list of members. *)
Definition membership_of (l : list Z) : BMS_Membership :=
  match l with [] => BMS_EMPTY_SET | [_] => BMS_SINGLETON | _ => BMS_MULTIPLE end.

Definition singleton_of (l : list Z) : cres Z :=
  match l with
  | [] => Elog "bitmapset is empty"
  | [x] => Ret x
  | _ => Elog "bitmapset has multiple members"
  end.

Definition get_singleton_of (l : list Z) (member : Z) : cres (bool * Z) :=
  match l with [x] => Ret (true, x) | _ => Ret (false, member) end.

Lemma membership_loop_ok ws wn (seen : list Z) :
  words_ok ws -> (length seen <= 1)%nat ->
  membership_loop ws (membership_of seen) = membership_of (seen ++ word_members ws wn).
Proof.
  intros Hws. revert wn seen. induction Hws as [|w ws Hw Hws IH]; intros wn seen Hs;
    cbn [membership_loop word_members]; [by rewrite app_nil_r|].
  destruct (word_cases w Hw) as [[-> Hm]|[(Hne & -> & k & Hk & Hm & _)|(Hne & -> & i & k & l & Hm)]];
    rewrite Hm; [by apply IH|..]; (destruct (Z.eqb_spec w 0); [done|]); cbn [negb];
    destruct seen as [|x [|]]; simpl in Hs; try lia; try done.
  exact (IH (wn + 1) [32 * wn + k] ltac:(simpl; lia)).
Qed.

Lemma singleton_loops_ok ws wn (seen : list Z) :
  words_ok ws -> (length seen <= 1)%nat -> Forall (fun x => 0 <= x) seen -> 0 <= wn ->
  let acc := match seen with [] => -1 | x :: _ => x end in
  let l := seen ++ word_members ws wn in
  (let* r := singleton_member_loop ws wn acc in
   if r <? 0 then Elog "bitmapset is empty" else Ret r) = singleton_of l /\
  (forall member,
   (let* r := get_singleton_loop ws wn acc in
    match r with
    | None => Ret (false, member)
    | Some result => if result <? 0 then Ret (false, member) else Ret (true, result)
    end) = get_singleton_of l member).
Proof.
  intros Hws. revert wn seen. induction Hws as [|w ws Hw Hws IH]; intros wn seen Hs Hpos Hwn acc l;
    subst acc l; cbn [singleton_member_loop get_singleton_loop word_members].
  { destruct seen as [|x [|]]; simpl in Hs; [done| |lia]. apply Forall_cons_1 in Hpos as [Hx _].
    simpl. by destruct (Z.ltb_spec x 0); [lia|]. }
  destruct (word_cases w Hw) as [[-> Hm]|[(Hne & -> & k & Hk & Hm & Hscan)|(Hne & -> & i & k & l & Hm)]];
    rewrite Hm; [by apply IH; auto; lia|..]; (destruct (Z.eqb_spec w 0); [done|]); cbn [negb];
    destruct seen as [|x [|]]; simpl in Hs; try lia.
  2,4: apply Forall_cons_1 in Hpos as [Hx _]; by destruct (Z.geb_spec x 0); [|lia].
  2: done.
  rewrite Hscan. cbn [Z.geb Z.compare orb cbind].
  replace (wn * BITS_PER_BITMAPWORD + k) with (32 * wn + k) by (unfold BITS_PER_BITMAPWORD; lia).
  apply (IH (wn + 1) [32 * wn + k]); [simpl; lia| |lia]. repeat constructor. lia.
Qed.

(** Counting: [bms_num_members] is the number of members, and
    [bms_membership], [bms_singleton_member] and [bms_get_singleton_member]
    report zero, one (and which one) or several members, with the errors the
    code raises for the wrong count. *)
Theorem bms_cardinality a member :
  bms_ok a ->
  bms_num_members a = Ret (Z.of_nat (length (bms_members a))) /\
  bms_membership a = membership_of (bms_members a) /\
  bms_singleton_member a = singleton_of (bms_members a) /\
  bms_get_singleton_member a member = get_singleton_of (bms_members a) member.
Proof.
  intros Ha. destruct a as [a|]; [|done]. rewrite bms_members_eq by done.
  destruct Ha as [_ Ha]. unfold bms_num_members, bms_membership, bms_singleton_member,
    bms_get_singleton_member. split_and!.
  - by rewrite (num_members_loop_ok _ 0).
  - by apply (membership_loop_ok _ 0 []); [|simpl; lia].
  - by apply (singleton_loops_ok (words a) 0 []); [|simpl; lia|constructor|].
  - by apply (singleton_loops_ok (words a) 0 []); [|simpl; lia|constructor|].
Qed.

Lemma bms_cardinality_witness :
  bms_num_members bms_ex1 = Ret (Z.of_nat (length (bms_members bms_ex1))) /\
  bms_num_members bms_ex1 = Ret 2 /\ bms_membership bms_ex1 = BMS_MULTIPLE.
Proof.
  split; [apply (bms_cardinality bms_ex1 0 bms_ex1_ok)|split; reflexivity].
Defined.

(** * Hashing *)

Lemma last_cons_nonzero w (ws : list Z) : last (w :: ws) <> Some 0 -> last ws <> Some 0.
Proof. by destruct ws. Qed.

(** A word list without trailing zero words is determined by its set. *)
Lemma words_canonical xs ys :
  words_ok xs -> words_ok ys -> last xs <> Some 0 -> last ys <> Some 0 ->
  words_val xs = words_val ys -> xs = ys.
Proof.
  assert (forall ws, words_ok ws -> last ws <> Some 0 -> words_val ws = 0 -> ws = []) as Hnil.
  { induction 1 as [|w ws Hw Hws IH]; intros Hl Hv; [done|]. cbn [words_val] in Hv.
    pose proof (words_val_nonneg ws Hws). destruct Hw.
    assert (ws = []) as -> by (apply IH; [eauto using last_cons_nonzero|lia]).
    exfalso. apply Hl. simpl. f_equal. lia. }
  intros Hx. revert ys. induction Hx as [|x xs Hx Hxs IH]; intros ys Hy Lx Ly E.
  - symmetry. by apply Hnil.
  - destruct Hy as [|y ys Hy Hys]; [by apply Hnil; [constructor|..]|].
    cbn [words_val] in E. pose proof (eqb_split x y (words_val xs) (words_val ys) Hx Hy) as Es.
    rewrite (proj2 (Z.eqb_eq _ _) E) in Es. symmetry in Es. apply andb_true_iff in Es as [E1 E2].
    apply Z.eqb_eq in E1, E2. f_equal; [done|]. eauto using last_cons_nonzero.
Qed.

Lemma last_nonzero_strip ws n :
  words_ok ws -> (n <= length ws)%nat ->
  last (take (last_nonzero ws n) ws) <> Some 0 /\
  words_val (take (last_nonzero ws n) ws) = words_val (take n ws).
Proof.
  intros Hws. induction n as [|n IH]; intros Hn; [done|]. cbn [last_nonzero].
  destruct (lookup_lt_is_Some_2 ws n ltac:(lia)) as [w Hw].
  rewrite (list_lookup_total_correct _ _ _ Hw).
  destruct (Z.eqb_spec w 0) as [->|Hne]; cbn [negb].
  - destruct (IH ltac:(lia)) as [H1 H2]. split; [done|]. rewrite H2.
    rewrite (take_S_r _ _ _ Hw), words_val_app. cbn [words_val]. lia.
  - split; [|done]. rewrite (take_S_r _ _ _ Hw), last_snoc. by intros [= ->].
Qed.

(** Sets that [bms_equal] calls equal have the same hash value, whatever
    [hash_any] computes: trailing zero words never reach the hash function and
    every representation of the empty set hashes to 0. *)
Theorem bms_hash_respects_equal hash_any a b :
  bms_ok a -> bms_ok b -> bms_equal a b = true ->
  bms_hash_value hash_any a = bms_hash_value hash_any b.
Proof.
  intros Ha Hb E. rewrite bms_equal_val in E by done. apply Z.eqb_eq in E.
  assert (forall a, bms_ok (Some a) ->
    let l := take (last_nonzero (words a) (length (words a))) (words a) in
    words_ok l /\ last l <> Some 0 /\ words_val l = bms_val (Some a) /\
    bms_hash_value hash_any (Some a) = if decide (l = []) then 0 else hash_any l) as Hcase.
  { clear. intros a [_ Ha] l.
    destruct (last_nonzero_strip (words a) (length (words a)) Ha ltac:(lia)) as [H1 H2].
    rewrite firstn_all in H2. split_and!; [by apply Forall_take|done|done|].
    unfold bms_hash_value, l. set (n := last_nonzero _ _). destruct (Nat.eqb_spec n 0) as [->|Hn].
    - by rewrite take_0, decide_True.
    - rewrite decide_False; [done|]. intros En. apply take_nil_inv in En as [?|En]; [done|].
      unfold n in Hn. by rewrite En in Hn. }
  assert (forall a, bms_ok (Some a) -> bms_val (Some a) = 0 -> bms_hash_value hash_any (Some a) = 0)
    as Hempty.
  { intros c Hc Hv. destruct (Hcase c Hc) as (H1 & H2 & H3 & ->).
    rewrite decide_True; [done|]. by apply (words_canonical _ [] H1); [constructor|..|rewrite H3]. }
  destruct a as [a|], b as [b|]; [|by apply Hempty|symmetry; by apply Hempty|done].
  destruct (Hcase a Ha) as (A1 & A2 & A3 & ->), (Hcase b Hb) as (B1 & B2 & B3 & ->).
  by rewrite (words_canonical _ _ A1 B1 A2 B2 ltac:(congruence)).
Qed.

Lemma bms_hash_respects_equal_witness :
  bms_hash_value (fun ws => words_val ws) (Some {| words := [6; 0; 0] |}) =
  bms_hash_value (fun ws => words_val ws) bms_ex2 /\
  bms_hash_value (fun ws => words_val ws) bms_ex2 = 6.
Proof.
  split; [|reflexivity].
  apply (bms_hash_respects_equal (fun ws => words_val ws) (Some {| words := [6; 0; 0] |}) bms_ex2);
    [split; [done|repeat constructor; done]|exact bms_ex2_ok|reflexivity].
Defined.
