(* ===== verification/FsmPage.v ===== *)
(** The free space map page (src/backend/storage/freespace/fsmpage.c,
    src/include/storage/fsm_internals.h).

    A page of the free space map is a complete binary tree in an array: a leaf
    per heap page with its free-space category, and in every inner node the
    largest category below it.  [fsm_ok] is that invariant.  The page may be
    torn on disk, so the routines also run on pages that break it; the theorems
    say what holds then.

    The loops climb or descend a tree of 13 levels, so 14 rounds of fuel are
    enough; running out of fuel or reading outside the array is [Undef].  In
    [fsm_search_avail] the page is unlocked and locked again before it is
    repaired: [relock] is what other backends do to it in between. *)
From S2P Require Import Prelude.

(** * Data *)

(** [MAXALIGN(SizeOfPageHeaderData)] and [offsetof(FSMPageData, fp_nodes)]. *)
Definition FsmHeader : Z := 24 + 4.
Definition NodesPerPage : Z := BLCKSZ - FsmHeader.
Definition NonLeafNodesPerPage : Z := BLCKSZ / 2 - 1.
Definition LeafNodesPerPage : Z := NodesPerPage - NonLeafNodesPerPage.

Record FSMPageData := mkFSMPage { fp_next_slot : Z; fp_nodes : list Z }.

Definition set_nodes (page : FSMPageData) (nodes : list Z) : FSMPageData :=
  {| fp_next_slot := fp_next_slot page; fp_nodes := nodes |}.

(** * Navigation *)

Definition leftchild (x : Z) : Z := 2 * x + 1.
Definition rightchild (x : Z) : Z := 2 * x + 2.
Definition parentof (x : Z) : Z := Z.quot (x - 1) 2.

Definition rightneighbor (x : Z) : Z :=
  let x := x + 1 in
  if Z.land (x + 1) x =? 0 then parentof x else x.

Definition node_at (nodes : list Z) (i : Z) : cres Z := deref (zget nodes i).
Definition node_set (nodes : list Z) (i v : Z) : cres (list Z) := deref (zset nodes i v).

(** * Operations *)

(** One round of [fsm_rebuild_page]: the value the children give a node. *)
Definition rebuild_value (nodes : list Z) (nodeno : Z) : cres Z :=
  let lchild := leftchild nodeno in
  let rchild := lchild + 1 in
  let* newvalue := if lchild <? NodesPerPage then node_at nodes lchild else Ret 0 in
  if rchild <? NodesPerPage then
    let* r := node_at nodes rchild in Ret (Z.max newvalue r)
  else Ret newvalue.

(** [for (nodeno = NonLeafNodesPerPage - 1; nodeno >= 0; nodeno--)]; [n] is
    [nodeno + 1]. *)
Fixpoint rebuild_loop (n : nat) (nodes : list Z) (changed : bool) : cres (bool * list Z) :=
  match n with
  | O => Ret (changed, nodes)
  | S n =>
      let nodeno := Z.of_nat n in
      let* newvalue := rebuild_value nodes nodeno in
      let* oldvalue := node_at nodes nodeno in
      if negb (oldvalue =? newvalue) then
        let* nodes := node_set nodes nodeno newvalue in
        rebuild_loop n nodes true
      else rebuild_loop n nodes changed
  end.

Definition fsm_rebuild_page (page : FSMPageData) : cres (bool * FSMPageData) :=
  let* (changed, nodes) :=
    rebuild_loop (Z.to_nat NonLeafNodesPerPage) (fp_nodes page) false in
  Ret (changed, set_nodes page nodes).

(** The [do ... while (nodeno > 0)] loop of [fsm_set_avail]. *)
Fixpoint propagate (fuel : nat) (nodes : list Z) (nodeno : Z) : cres (list Z) :=
  match fuel with
  | O => Undef
  | S fuel =>
      let nodeno := parentof nodeno in
      let lchild := leftchild nodeno in
      let rchild := lchild + 1 in
      let* newvalue := node_at nodes lchild in
      let* newvalue :=
        if rchild <? NodesPerPage then
          let* r := node_at nodes rchild in Ret (Z.max newvalue r)
        else Ret newvalue in
      let* oldvalue := node_at nodes nodeno in
      if oldvalue =? newvalue then Ret nodes
      else
        let* nodes := node_set nodes nodeno newvalue in
        if nodeno >? 0 then propagate fuel nodes nodeno else Ret nodes
  end.

Definition fsm_set_avail (page : FSMPageData) (slot value : Z) : cres (bool * FSMPageData) :=
  let nodeno := NonLeafNodesPerPage + slot in
  c_assert (slot <? LeafNodesPerPage) ;;
  let* oldvalue := node_at (fp_nodes page) nodeno in
  let* root := node_at (fp_nodes page) 0 in
  if (oldvalue =? value) && (value <=? root) then Ret (false, page)
  else
    let* nodes := node_set (fp_nodes page) nodeno value in
    let* nodes := propagate 14 nodes nodeno in
    let* root := node_at nodes 0 in
    if value >? root then
      let* (_, page) := fsm_rebuild_page (set_nodes page nodes) in
      Ret (true, page)
    else Ret (true, set_nodes page nodes).

Definition fsm_get_avail (page : FSMPageData) (slot : Z) : cres Z :=
  c_assert (slot <? LeafNodesPerPage) ;;
  node_at (fp_nodes page) (NonLeafNodesPerPage + slot).

Definition fsm_get_max_avail (page : FSMPageData) : cres Z := node_at (fp_nodes page) 0.

(** [while (nodeno > 0) { if (fp_nodes[nodeno] >= minvalue) break;
     nodeno = parentof(rightneighbor(nodeno)); }] *)
Fixpoint climb (fuel : nat) (nodes : list Z) (minvalue nodeno : Z) : cres Z :=
  if nodeno >? 0 then
    match fuel with
    | O => Undef
    | S fuel =>
        let* v := node_at nodes nodeno in
        if v >=? minvalue then Ret nodeno
        else climb fuel nodes minvalue (parentof (rightneighbor nodeno))
    end
  else Ret nodeno.

(** [childnodeno < NodesPerPage && fp_nodes[childnodeno] >= minvalue] *)
Definition child_has_space (nodes : list Z) (minvalue childnodeno : Z) : cres bool :=
  if childnodeno <? NodesPerPage then
    let* v := node_at nodes childnodeno in Ret (v >=? minvalue)
  else Ret false.

(** The descent; [None] when neither child has the space its parent promised. *)
Fixpoint descend (fuel : nat) (nodes : list Z) (minvalue nodeno : Z) : cres (option Z) :=
  if nodeno <? NonLeafNodesPerPage then
    match fuel with
    | O => Undef
    | S fuel =>
        let childnodeno := leftchild nodeno in
        let* l := child_has_space nodes minvalue childnodeno in
        if l then descend fuel nodes minvalue childnodeno
        else
          let childnodeno := childnodeno + 1 in
          let* r := child_has_space nodes minvalue childnodeno in
          if r then descend fuel nodes minvalue childnodeno else Ret None
    end
  else Ret (Some nodeno).

(** [fsm_search_avail] from the label [restart]; [fuel] bounds the restarts. *)
Fixpoint search_restart (relock : FSMPageData -> FSMPageData) (fuel : nat)
    (page : FSMPageData) (minvalue : Z) (advancenext exclusive_lock_held : bool)
    : cres (Z * FSMPageData) :=
  match fuel with
  | O => Undef
  | S fuel =>
      let* root := node_at (fp_nodes page) 0 in
      if root <? minvalue then Ret (-1, page)
      else
        let target := fp_next_slot page in
        let target := if (target <? 0) || (target >=? LeafNodesPerPage) then 0 else target in
        let target := target + NonLeafNodesPerPage in
        let* nodeno := climb 14 (fp_nodes page) minvalue target in
        let* found := descend 14 (fp_nodes page) minvalue nodeno in
        match found with
        | Some nodeno =>
            let slot := u16 (nodeno - NonLeafNodesPerPage) in
            Ret (slot, {| fp_next_slot := slot + (if advancenext then 1 else 0);
                          fp_nodes := fp_nodes page |})
        | None =>
            let page := if exclusive_lock_held then page else relock page in
            let* (_, page) := fsm_rebuild_page page in
            search_restart relock fuel page minvalue advancenext true
        end
  end.

Definition fsm_search_avail (relock : FSMPageData -> FSMPageData) (page : FSMPageData)
    (minvalue : Z) (advancenext exclusive_lock_held : bool) : cres (Z * FSMPageData) :=
  search_restart relock 2 page minvalue advancenext exclusive_lock_held.

(** [for (; ptr < &fp_nodes[NodesPerPage]; ptr++)]: clear the rest of the array. *)
Fixpoint clear_nodes (nodes : list Z) (changed : bool) : bool * list Z :=
  match nodes with
  | [] => (changed, [])
  | v :: nodes' =>
      let '(changed, nodes') := clear_nodes nodes' (if negb (v =? 0) then true else changed) in
      (changed, 0 :: nodes')
  end.

Definition fsm_truncate_avail (page : FSMPageData) (nslots : Z) : cres (bool * FSMPageData) :=
  c_assert ((0 <=? nslots) && (nslots <? LeafNodesPerPage)) ;;
  let n := Z.to_nat (NonLeafNodesPerPage + nslots) in
  let '(changed, rest) := clear_nodes (drop n (fp_nodes page)) false in
  let page := set_nodes page (take n (fp_nodes page) ++ rest) in
  if changed then
    let* (_, page) := fsm_rebuild_page page in Ret (true, page)
  else Ret (false, page).

(** * The tree invariant *)

Definition node (nodes : list Z) (i : Z) : Z := default 0 (zget nodes i).

Definition leaf (page : FSMPageData) (slot : Z) : Z :=
  node (fp_nodes page) (NonLeafNodesPerPage + slot).

(** A page-sized array of bytes. *)
Definition sized (nodes : list Z) : Prop :=
  zlen nodes = NodesPerPage /\ forall i, is_u 8 (node nodes i).

(** An inner node holds the maximum of its children. *)
Definition node_ok (nodes : list Z) (n : Z) : Prop :=
  node nodes n = Z.max (node nodes (leftchild n)) (node nodes (rightchild n)).

Definition tree_ok (nodes : list Z) : Prop :=
  forall n, 0 <= n < NonLeafNodesPerPage -> node_ok nodes n.

Definition fsm_ok (page : FSMPageData) : Prop :=
  sized (fp_nodes page) /\ tree_ok (fp_nodes page).

(** Arithmetic on node numbers, with the sizes of a page evaluated. *)
Ltac fsm_lia :=
  change LeafNodesPerPage with 4069 in *; change NodesPerPage with 8164 in *;
  change NonLeafNodesPerPage with 4095 in *; unfold leftchild, rightchild in *; lia.

Lemma node_at_ok nodes i :
  0 <= i < zlen nodes -> node_at nodes i = Ret (node nodes i).
Proof.
  intros Hi. destruct (zget_is_Some nodes i Hi) as [v Hv].
  unfold node_at, node. by rewrite Hv.
Qed.

Lemma node_out nodes i : zlen nodes <= i -> node nodes i = 0.
Proof.
  intros Hi. unfold node. destruct (zget nodes i) eqn:E; [|done].
  apply zget_Some_lt in E. lia.
Qed.

Lemma node_set_ok nodes i v :
  0 <= i < zlen nodes -> exists nodes', node_set nodes i v = Ret nodes' /\
  zlen nodes' = zlen nodes /\
  forall j, node nodes' j = if decide (j = i) then v else node nodes j.
Proof.
  intros Hi. destruct (zset_is_Some nodes i v Hi) as [nodes' E].
  exists nodes'. unfold node_set. rewrite E. split_and!; [done|by eapply zset_len|].
  intros j. unfold node. rewrite (zget_zset _ _ _ _ _ E). by case_decide.
Qed.

Lemma sized_node_at nodes i :
  sized nodes -> 0 <= i < NodesPerPage -> node_at nodes i = Ret (node nodes i).
Proof. intros [Hl _] Hi. apply node_at_ok. lia. Qed.

Lemma sized_node_set nodes i v :
  sized nodes -> 0 <= i < NodesPerPage -> is_u 8 v ->
  exists nodes', node_set nodes i v = Ret nodes' /\ sized nodes' /\
  forall j, node nodes' j = if decide (j = i) then v else node nodes j.
Proof.
  intros [Hl Hu] Hi Hv. destruct (node_set_ok nodes i v ltac:(lia)) as (ns & Hns & Hl' & Hn).
  exists ns. split_and!; [done| |done]. split; [congruence|].
  intros j. rewrite Hn. by case_decide.
Qed.

Lemma node_ext nodes nodes' :
  zlen nodes = zlen nodes' -> (forall i, 0 <= i < zlen nodes -> node nodes i = node nodes' i) ->
  nodes = nodes'.
Proof.
  intros Hl H. apply zget_ext; [done|]. intros i Hi. specialize (H i Hi).
  destruct (zget_is_Some nodes i Hi) as [x Hx], (zget_is_Some nodes' i ltac:(lia)) as [y Hy].
  unfold node in H. rewrite Hx, Hy in *. simpl in H. by subst.
Qed.

Lemma rebuild_value_ok nodes n :
  sized nodes -> 0 <= n < NonLeafNodesPerPage ->
  rebuild_value nodes n =
    Ret (Z.max (node nodes (leftchild n)) (node nodes (rightchild n))).
Proof.
  intros [Hl Hu] Hn. unfold rebuild_value.
  replace (leftchild n + 1) with (rightchild n) by fsm_lia.
  pose proof (Hu (leftchild n)) as [HL _]. pose proof (Hu (rightchild n)) as [HR _].
  destruct (Z.ltb_spec (leftchild n) NodesPerPage), (Z.ltb_spec (rightchild n) NodesPerPage);
    try (exfalso; fsm_lia); rewrite ?node_at_ok by fsm_lia; cbn [cbind]; [done|..].
  - rewrite (node_out nodes (rightchild n)) by lia. f_equal. lia.
  - by rewrite !node_out by lia.
Qed.

Lemma is_u_max w a b : is_u w a -> is_u w b -> is_u w (Z.max a b).
Proof. unfold is_u. lia. Qed.

(** Setting an inner node leaves the nodes behind it alone. *)
Lemma node_ok_set_below nodes nodes' i v m :
  (forall j, node nodes' j = if decide (j = i) then v else node nodes j) ->
  0 <= m -> i <= m -> m <> i -> node_ok nodes m -> node_ok nodes' m.
Proof.
  intros Hn Hm Him Hne. unfold node_ok. rewrite !Hn.
  rewrite !decide_False by fsm_lia. done.
Qed.

Lemma node_ok_set_self nodes nodes' i :
  0 <= i ->
  (forall j, node nodes' j =
     if decide (j = i) then Z.max (node nodes (leftchild i)) (node nodes (rightchild i))
     else node nodes j) ->
  node_ok nodes' i.
Proof.
  intros Hi Hn. unfold node_ok. rewrite !Hn, decide_True, !decide_False by fsm_lia. done.
Qed.

(** Two arrays that agree from [n] on. *)
Definition agree_from (n : Z) (nodes nodes' : list Z) : Prop :=
  forall j, n <= j -> node nodes' j = node nodes j.

Lemma rebuild_loop_ok n nodes changed :
  sized nodes -> (Z.of_nat n <= NonLeafNodesPerPage) ->
  (forall m, Z.of_nat n <= m < NonLeafNodesPerPage -> node_ok nodes m) ->
  exists changed' nodes', rebuild_loop n nodes changed = Ret (changed', nodes') /\
    sized nodes' /\ tree_ok nodes' /\ agree_from (Z.of_nat n) nodes nodes' /\
    ((changed' = changed /\ nodes' = nodes) \/ (changed' = true /\ nodes' <> nodes)).
Proof.
  revert nodes changed. induction n as [|n IH]; intros nodes changed Hs Hn Hok.
  - exists changed, nodes. split_and!; [done..| |by left]. done.
  - cbn [rebuild_loop]. rewrite rebuild_value_ok by (done || lia). cbn [cbind].
    rewrite sized_node_at by (done || fsm_lia). cbn [cbind].
    set (v := Z.max _ _). destruct (Z.eqb_spec (node nodes (Z.of_nat n)) v) as [E|E]; cbn [negb].
    + destruct (IH nodes changed Hs ltac:(lia)) as (c & ns & -> & Hs' & Ht & Ha & Hc).
      { intros m Hm. destruct (decide (m = Z.of_nat n)) as [->|]; [exact E|]. apply Hok. lia. }
      exists c, ns. split_and!; try done. intros j Hj. apply Ha. lia.
    + destruct (sized_node_set nodes (Z.of_nat n) v Hs) as (ns & -> & Hsn & Hnode);
        [fsm_lia|apply is_u_max; apply Hs|]. cbn [cbind].
      destruct (IH ns true Hsn ltac:(lia)) as (c & ns' & -> & Hs' & Ht & Ha & Hc).
      { intros m Hm. destruct (decide (m = Z.of_nat n)) as [->|].
        - by apply (node_ok_set_self nodes); [lia|].
        - eapply node_ok_set_below; [done|lia..|]. apply Hok. lia. }
      exists c, ns'. split_and!; try done.
      * intros j Hj. rewrite Ha, Hnode, decide_False by lia. done.
      * right. split; [by destruct Hc as [[-> _]|[-> _]]|].
        assert (node ns' (Z.of_nat n) = v) by (by rewrite Ha, Hnode, decide_True by lia).
        congruence.
Qed.

Lemma tree_ok_rebuild_noop nodes nodes' :
  sized nodes -> sized nodes' -> tree_ok nodes -> tree_ok nodes' ->
  agree_from NonLeafNodesPerPage nodes nodes' -> nodes' = nodes.
Proof.
  intros [Hl _] [Hl' _] Ht Ht' Ha. apply node_ext; [congruence|].
  assert (forall k i, 0 <= i -> NodesPerPage - i <= Z.of_nat k -> node nodes' i = node nodes i) as H.
  { induction k as [|k IH]; intros i Hi Hk.
    - by rewrite !node_out by lia.
    - destruct (Z.lt_ge_cases i NonLeafNodesPerPage); [|by apply Ha].
      rewrite (Ht i), (Ht' i) by lia. f_equal; apply IH; fsm_lia. }
  intros i Hi. apply (H (Z.to_nat NodesPerPage)); lia.
Qed.

Lemma fsm_rebuild_page_ok page :
  sized (fp_nodes page) ->
  exists changed page', fsm_rebuild_page page = Ret (changed, page') /\ fsm_ok page' /\
    fp_next_slot page' = fp_next_slot page /\
    (forall slot, 0 <= slot -> leaf page' slot = leaf page slot) /\
    (changed = false <-> page' = page) /\ (fsm_ok page -> page' = page).
Proof.
  intros Hs. unfold fsm_rebuild_page.
  destruct (rebuild_loop_ok (Z.to_nat NonLeafNodesPerPage) (fp_nodes page) false Hs)
    as (c & ns & -> & Hs' & Ht & Ha & Hc); [fsm_lia|fsm_lia|]. cbn [cbind].
  exists c, (set_nodes page ns). split_and!; try done.
  - intros slot Hslot. unfold leaf. simpl. apply Ha. fsm_lia.
  - destruct page as [nx nodes]. unfold set_nodes. simpl in *.
    destruct Hc as [[-> ->]|[-> Hne]]; [done|]. split; [done|]. by intros [= ?].
  - intros [_ Htree]. destruct page as [nx nodes]. unfold set_nodes. simpl in *. f_equal.
    apply tree_ok_rebuild_noop; auto.
Qed.

(** [fsm_rebuild_page] turns any page-sized array of bytes, torn or not,
    into a valid tree without touching a leaf or the next-slot hint, returns
    whether it changed anything, and leaves a valid tree as it is. *)
Theorem fsm_rebuild_page_repairs page :
  sized (fp_nodes page) ->
  exists changed page', fsm_rebuild_page page = Ret (changed, page') /\ fsm_ok page' /\
    fp_next_slot page' = fp_next_slot page /\
    (forall slot, 0 <= slot -> leaf page' slot = leaf page slot) /\
    (changed = false <-> page' = page) /\ (fsm_ok page -> page' = page).
Proof. apply fsm_rebuild_page_ok. Qed.

(** Witness pages: an empty map page and one whose root alone promises space. *)
Definition empty_page : FSMPageData :=
  {| fp_next_slot := 0; fp_nodes := replicate (Z.to_nat NodesPerPage) 0 |}.
Definition torn_page : FSMPageData := set_nodes empty_page (<[0%nat := 7]> (fp_nodes empty_page)).

Lemma sized_of_forall nodes :
  zlen nodes = NodesPerPage -> Forall (is_u 8) nodes -> sized nodes.
Proof.
  intros Hl Hf. split; [done|]. intros i. unfold node, zget.
  destruct (i <? 0); [done|]. destruct (nodes !! Z.to_nat i) eqn:E; [|done].
  by eapply Forall_lookup_1.
Qed.

Lemma empty_page_sized : sized (fp_nodes empty_page).
Proof. apply sized_of_forall; [done|]. by apply Forall_replicate. Qed.

Lemma torn_page_sized : sized (fp_nodes torn_page).
Proof.
  apply sized_of_forall; [reflexivity|]. apply Forall_insert; [|done]. by apply Forall_replicate.
Qed.

Lemma node_replicate_0 n i : node (replicate n 0) i = 0.
Proof.
  unfold node, zget. destruct (i <? 0); [done|].
  destruct (replicate n 0 !! Z.to_nat i) eqn:E; [|done]. by apply lookup_replicate in E as [-> _].
Qed.

Lemma empty_page_ok : fsm_ok empty_page.
Proof.
  split; [apply empty_page_sized|]. intros n _. unfold node_ok.
  change (fp_nodes empty_page) with (replicate (Z.to_nat NodesPerPage) 0).
  by rewrite !node_replicate_0.
Qed.

Lemma fsm_rebuild_page_repairs_witness :
  (exists changed page', fsm_rebuild_page torn_page = Ret (changed, page') /\ fsm_ok page' /\
    fp_next_slot page' = fp_next_slot torn_page /\
    (forall slot, 0 <= slot -> leaf page' slot = leaf torn_page slot) /\
    (changed = false <-> page' = torn_page) /\ (fsm_ok torn_page -> page' = torn_page)) /\
  node (fp_nodes torn_page) 0 = 7.
Proof. split; [apply (fsm_rebuild_page_repairs torn_page torn_page_sized)|reflexivity]. Defined.

(** * Setting a slot *)

Lemma parentof_bounds n : 1 <= n -> 0 <= parentof n < n /\ parentof n = (n - 1) / 2.
Proof.
  intros Hn. unfold parentof. rewrite Z.quot_div_nonneg by lia.
  split; [|done]. split; [apply Z.div_pos; lia|apply Z.div_lt_upper_bound; lia].
Qed.

Lemma parentof_child n :
  1 <= n -> n = leftchild (parentof n) \/ n = rightchild (parentof n).
Proof.
  intros Hn. destruct (parentof_bounds n Hn) as [_ ->]. unfold leftchild, rightchild.
  pose proof (Z.div_mod (n - 1) 2 ltac:(lia)). pose proof (Z.mod_pos_bound (n - 1) 2 ltac:(lia)).
  lia.
Qed.

(** In a valid tree the root bounds every node. *)
Lemma tree_ok_root nodes i : sized nodes -> tree_ok nodes -> 0 <= i -> node nodes i <= node nodes 0.
Proof.
  intros [Hl Hu] Ht. revert i.
  assert (forall k i, 0 <= i < Z.of_nat k -> node nodes i <= node nodes 0) as H.
  { induction k as [|k IH]; intros i Hi; [lia|]. destruct (decide (i = 0)) as [->|]; [lia|].
    destruct (Z.lt_ge_cases i NodesPerPage).
    - destruct (parentof_bounds i ltac:(lia)) as [Hp _].
      destruct (parentof_child i ltac:(lia)) as [E|E];
        specialize (Ht (parentof i) ltac:(fsm_lia)); unfold node_ok in Ht; rewrite <- E in Ht;
        specialize (IH (parentof i) ltac:(lia)); lia.
    - rewrite (node_out nodes i) by lia. apply Hu. }
  intros i Hi. apply (H (Z.to_nat (i + 1))). lia.
Qed.

(** Changing node [i] breaks the invariant at its parent at most. *)
Lemma node_ok_set_above nodes nodes' i v m :
  (forall j, node nodes' j = if decide (j = i) then v else node nodes j) ->
  1 <= i -> m <> i -> m <> parentof i -> node_ok nodes m -> node_ok nodes' m.
Proof.
  intros Hn Hi Hne Hp. unfold node_ok. rewrite !Hn, (decide_False (P := m = i)) by done.
  rewrite !decide_False; [done|..]; intros E; apply Hp; rewrite <- E; unfold parentof;
    rewrite Z.quot_div_nonneg by fsm_lia; unfold leftchild, rightchild.
  - replace (2 * m + 2 - 1) with (1 + m * 2) by lia. by rewrite Z.div_add.
  - replace (2 * m + 1 - 1) with (m * 2) by lia. by rewrite Z.div_mul.
Qed.

Lemma propagate_ok fuel nodes n :
  sized nodes -> 1 <= n < NodesPerPage -> n < 2 ^ Z.of_nat fuel ->
  exists nodes', propagate fuel nodes n = Ret nodes' /\ sized nodes' /\
    (forall j, n <= j \/ NonLeafNodesPerPage <= j -> node nodes' j = node nodes j) /\
    ((forall m, 0 <= m < NonLeafNodesPerPage -> m <> parentof n -> node_ok nodes m) ->
     tree_ok nodes').
Proof.
  revert nodes n. induction fuel as [|fuel IH]; intros nodes n Hs Hn Hf; [simpl in Hf; lia|].
  cbn [propagate]. destruct (parentof_bounds n ltac:(lia)) as [Hp Hpe]. set (p := parentof n) in *.
  assert (0 <= p < NonLeafNodesPerPage).
  { split; [lia|]. rewrite Hpe. apply Z.div_lt_upper_bound; [lia|]. fsm_lia. }
  assert (leftchild p < NodesPerPage).
  { destruct (parentof_child n ltac:(lia)) as [E|E]; fold p in E; fsm_lia. }
  replace (leftchild p + 1) with (rightchild p) by fsm_lia.
  rewrite sized_node_at by (done || fsm_lia). cbn [cbind].
  set (v := Z.max (node nodes (leftchild p)) (node nodes (rightchild p))).
  assert ((if rightchild p <? NodesPerPage
           then let* r := node_at nodes (rightchild p) in
                Ret (Z.max (node nodes (leftchild p)) r)
           else Ret (node nodes (leftchild p))) = Ret v) as ->.
  { destruct (Z.ltb_spec (rightchild p) NodesPerPage).
    - by rewrite sized_node_at by (done || fsm_lia).
    - unfold v. destruct Hs as [Hl Hu]. rewrite (node_out nodes (rightchild p)) by lia.
      pose proof (Hu (leftchild p)) as [? _]. f_equal. lia. }
  cbn [cbind]. rewrite sized_node_at by (done || fsm_lia). cbn [cbind].
  destruct (Z.eqb_spec (node nodes p) v) as [E|E].
  - exists nodes. split_and!; try done. intros Hok m Hm.
    destruct (decide (m = p)) as [->|]; [exact E|by apply Hok].
  - destruct (sized_node_set nodes p v Hs) as (ns & -> & Hsn & Hnode);
      [fsm_lia|apply is_u_max; apply Hs|]. cbn [cbind].
    assert (node_ok ns p) as Hself by (apply (node_ok_set_self nodes); [lia|done]).
    destruct (Z.gtb_spec p 0) as [Hp0|Hp0].
    + destruct (IH ns p Hsn) as (ns' & -> & Hs' & Ha & Ht);
        [fsm_lia| |].
      { rewrite Hpe. apply Z.div_lt_upper_bound; [lia|].
        rewrite Nat2Z.inj_succ, Z.pow_succ_r in Hf by lia. lia. }
      exists ns'. split_and!; try done.
      * intros j Hj. rewrite Ha, Hnode, decide_False by lia. done.
      * intros Hok. apply Ht. intros m Hm Hmp.
        destruct (decide (m = p)) as [->|]; [done|].
        by apply (node_ok_set_above nodes ns p v); [|lia|..|apply Hok].
    + exists ns. split_and!; try done.
      * intros j Hj. rewrite Hnode, decide_False by lia. done.
      * intros Hok m Hm. destruct (decide (m = p)) as [->|]; [done|].
        apply (node_ok_set_below nodes ns p v); [done|lia..|by apply Hok].
Qed.

(** The state after [fp_nodes[nodeno] = value] and the propagation. *)
Lemma set_and_propagate page slot value :
  sized (fp_nodes page) -> 0 <= slot < LeafNodesPerPage -> is_u 8 value ->
  exists nodes1 nodes2,
    node_set (fp_nodes page) (NonLeafNodesPerPage + slot) value = Ret nodes1 /\
    propagate 14 nodes1 (NonLeafNodesPerPage + slot) = Ret nodes2 /\
    sized nodes2 /\ node nodes2 (NonLeafNodesPerPage + slot) = value /\
    (forall s, 0 <= s -> s <> slot ->
       node nodes2 (NonLeafNodesPerPage + s) = leaf page s) /\
    (tree_ok (fp_nodes page) -> tree_ok nodes2).
Proof.
  intros Hs Hslot Hv. set (n := NonLeafNodesPerPage + slot).
  destruct (sized_node_set (fp_nodes page) n value Hs ltac:(fsm_lia) Hv)
    as (ns1 & E1 & Hs1 & Hn1).
  destruct (propagate_ok 14 ns1 n Hs1 ltac:(fsm_lia) ltac:(fsm_lia)) as (ns2 & E2 & Hs2 & Ha & Ht).
  exists ns1, ns2. split_and!; try done.
  - by rewrite Ha, Hn1, decide_True by fsm_lia.
  - intros s Hs0 Hne. rewrite Ha, Hn1, decide_False by fsm_lia. done.
  - intros Htree. apply Ht. intros m Hm Hmp.
    apply (node_ok_set_above (fp_nodes page) ns1 n value); [done|fsm_lia|fsm_lia|done|by apply Htree].
Qed.

(** [fsm_set_avail] stores the category in its slot and in no other,
    reports false only when the page is left as it was, keeps a valid tree
    valid, and on any page, torn ones included, leaves a root that does not
    hide the new value; [fsm_get_avail] then reads it back. *)
Theorem fsm_set_avail_spec page slot value :
  sized (fp_nodes page) -> 0 <= slot < LeafNodesPerPage -> is_u 8 value ->
  exists modified page', fsm_set_avail page slot value = Ret (modified, page') /\
    sized (fp_nodes page') /\ fp_next_slot page' = fp_next_slot page /\
    (forall s, 0 <= s -> leaf page' s = if decide (s = slot) then value else leaf page s) /\
    (modified = false -> page' = page) /\
    (fsm_ok page -> fsm_ok page') /\
    fsm_get_avail page' slot = Ret value /\
    (exists root, fsm_get_max_avail page' = Ret root /\ value <= root).
Proof.
  intros Hs Hslot Hv. unfold fsm_set_avail.
  assert (forall p : FSMPageData, sized (fp_nodes p) -> leaf p slot = value ->
    fsm_get_avail p slot = Ret value) as Hget.
  { intros p Hp Hl. unfold fsm_get_avail. destruct (Z.ltb_spec slot LeafNodesPerPage); [|lia].
    cbn [c_assert cbind]. rewrite sized_node_at by (done || fsm_lia). f_equal. exact Hl. }
  assert (forall p, sized (fp_nodes p) -> fsm_get_max_avail p = Ret (node (fp_nodes p) 0)) as Hmax.
  { intros p Hp. apply sized_node_at; [done|fsm_lia]. }
  destruct (Z.ltb_spec slot LeafNodesPerPage); [|lia]. cbn [c_assert cbind].
  rewrite !sized_node_at by (done || fsm_lia). cbn [cbind].
  destruct (_ && _) eqn:Hsame.
  { apply andb_true_iff in Hsame as [E1 E2]. apply Z.eqb_eq in E1. apply Z.leb_le in E2.
    exists false, page. split_and!; auto; [|eauto].
    intros s Hs0. case_decide; [by subst|done]. }
  destruct (set_and_propagate page slot value Hs Hslot Hv)
    as (ns1 & ns2 & -> & E2 & Hs2 & Hval & Hoth & Ht). cbn [cbind]. rewrite E2. cbn [cbind].
  rewrite sized_node_at by (done || fsm_lia). cbn [cbind].
  destruct (Z.gtb_spec value (node ns2 0)) as [Hgt|Hle].
  - destruct (fsm_rebuild_page_ok (set_nodes page ns2) Hs2)
      as (c & page' & -> & [Hs' Ht'] & Hnx & Hleaf & _ & _). cbn [cbind].
    assert (leaf page' slot = value) as Hl by (rewrite Hleaf by lia; exact Hval).
    exists true, page'. split_and!; auto; try done.
    + intros s Hs0. rewrite Hleaf by done. case_decide; [by subst|]. by apply Hoth.
    + eexists. split; [by apply Hmax|]. rewrite <- Hl. apply tree_ok_root; auto. fsm_lia.
  - exists true, (set_nodes page ns2). split_and!; auto; try done.
    + intros s Hs0. unfold leaf at 1. simpl. case_decide; [by subst|]. by apply Hoth.
    + intros [_ Htree]. split; [done|]. by apply Ht.
    + eexists. split; [by apply Hmax|]. done.
Qed.

Lemma fsm_set_avail_spec_witness :
  (exists modified page', fsm_set_avail torn_page 5 9 = Ret (modified, page') /\
    sized (fp_nodes page') /\ fp_next_slot page' = fp_next_slot torn_page /\
    (forall s, 0 <= s -> leaf page' s = if decide (s = 5) then 9 else leaf torn_page s) /\
    (modified = false -> page' = torn_page) /\
    (fsm_ok torn_page -> fsm_ok page') /\
    fsm_get_avail page' 5 = Ret 9 /\
    (exists root, fsm_get_max_avail page' = Ret root /\ 9 <= root)) /\ 5 < LeafNodesPerPage.
Proof.
  split; [apply (fsm_set_avail_spec torn_page 5 9 torn_page_sized); [fsm_lia|split; lia]|done].
Defined.

(** * Searching for a slot *)

Lemma climb_step n :
  1 <= n -> 0 <= parentof (rightneighbor n) <= n / 2.
Proof.
  intros Hn. unfold rightneighbor.
  assert (parentof (n + 1) = n / 2) as E.
  { unfold parentof. rewrite Z.add_simpl_r. apply Z.quot_div_nonneg; lia. }
  assert (0 <= n / 2) by (apply Z.div_pos; lia).
  destruct (_ =? 0); rewrite ?E; [|lia].
  destruct (decide (n / 2 = 0)) as [->|].
  - change (parentof 0) with 0. lia.
  - destruct (parentof_bounds (n / 2) ltac:(lia)). lia.
Qed.

Lemma climb_ok fuel nodes minvalue n :
  sized nodes -> 0 <= n < NodesPerPage -> n < 2 ^ Z.of_nat fuel -> minvalue <= node nodes 0 ->
  exists n', climb fuel nodes minvalue n = Ret n' /\ 0 <= n' <= n /\ minvalue <= node nodes n' /\
    (0 < n -> minvalue <= node nodes n -> n' = n).
Proof.
  intros Hs. revert n. induction fuel as [|fuel IH]; intros n Hn Hf Hroot; cbn [climb].
  - assert (n = 0) as -> by (simpl in Hf; lia). exists 0. split_and!; first [done | intros; lia].
  - destruct (Z.gtb_spec n 0) as [Hpos|Hz].
    2:{ assert (n = 0) as -> by lia. exists 0. split_and!; first [done | intros; lia]. }
    rewrite sized_node_at by (done || lia). cbn [cbind].
    destruct (Z.geb_spec (node nodes n) minvalue).
    { exists n. split_and!; first [done | intros; lia]. }
    pose proof (climb_step n ltac:(lia)). assert (n / 2 < n) by (apply Z.div_lt; lia).
    destruct (IH (parentof (rightneighbor n))) as (n' & -> & Hn' & Hm & _); [lia| |done|].
    { apply Z.le_lt_trans with (n / 2); [lia|]. apply Z.div_lt_upper_bound; [lia|].
      rewrite Nat2Z.inj_succ, Z.pow_succ_r in Hf by lia. lia. }
    exists n'. split_and!; first [done | intros; lia].
Qed.

Lemma child_has_space_ok nodes minvalue c :
  sized nodes -> 0 <= c ->
  child_has_space nodes minvalue c = Ret ((c <? NodesPerPage) && (node nodes c >=? minvalue)).
Proof.
  intros Hs Hc. unfold child_has_space. destruct (Z.ltb_spec c NodesPerPage); [|done].
  by rewrite sized_node_at by (done || lia).
Qed.

(** The descent reaches a leaf that has the space, or reports a broken promise;
    in a valid tree it only does the first. *)
Lemma descend_ok fuel nodes minvalue n :
  sized nodes -> 0 <= n < NodesPerPage -> minvalue <= node nodes n ->
  NonLeafNodesPerPage < (n + 1) * 2 ^ Z.of_nat fuel ->
  (exists n', descend fuel nodes minvalue n = Ret (Some n') /\
     NonLeafNodesPerPage <= n' < NodesPerPage /\ minvalue <= node nodes n') \/
  (descend fuel nodes minvalue n = Ret None /\ n < NonLeafNodesPerPage /\
     ~ (tree_ok nodes /\ 0 < minvalue)).
Proof.
  intros Hs. revert n. induction fuel as [|fuel IH]; intros n Hn Hv Hf; cbn [descend].
  { change (2 ^ Z.of_nat 0) with 1 in Hf.
    destruct (Z.ltb_spec n NonLeafNodesPerPage); [lia|]. left. exists n. split_and!; first [done | intros; lia]. }
  destruct (Z.ltb_spec n NonLeafNodesPerPage) as [Hlt|Hge].
  2:{ left. exists n. split_and!; first [done | intros; lia]. }
  rewrite Nat2Z.inj_succ, Z.pow_succ_r in Hf by lia.
  rewrite child_has_space_ok by (done || fsm_lia). cbn [cbind].
  destruct (Z.ltb_spec (leftchild n) NodesPerPage) as [Hl|Hl],
    (Z.geb_spec (node nodes (leftchild n)) minvalue) as [Hlv|Hlv]; cbn [andb].
  1: { destruct (IH (leftchild n)) as [H|(-> & _ & H)]; [fsm_lia|lia|unfold leftchild; lia|auto..]. }
  all: rewrite child_has_space_ok by (done || fsm_lia); cbn [cbind];
    replace (leftchild n + 1) with (rightchild n) by fsm_lia;
    destruct (Z.ltb_spec (rightchild n) NodesPerPage) as [Hr|Hr],
      (Z.geb_spec (node nodes (rightchild n)) minvalue) as [Hrv|Hrv]; cbn [andb];
    try (destruct (IH (rightchild n)) as [H|(-> & _ & H)];
      [fsm_lia|lia|unfold rightchild; lia|auto..]).
  all: right; split_and!; [done|lia|]; intros [Ht Hpos]; specialize (Ht n ltac:(lia));
    unfold node_ok in Ht; destruct Hs as [Hlen _];
    rewrite ?(node_out nodes (leftchild n)), ?(node_out nodes (rightchild n)) in Ht by lia; lia.
Qed.

(** Where the search starts: a slot of the page, whatever the hint says. *)
Lemma search_target page :
  let target := fp_next_slot page in
  let target := if (target <? 0) || (target >=? LeafNodesPerPage) then 0 else target in
  NonLeafNodesPerPage <= target + NonLeafNodesPerPage < NodesPerPage.
Proof.
  simpl. destruct (Z.ltb_spec (fp_next_slot page) 0),
    (Z.geb_spec (fp_next_slot page) LeafNodesPerPage); simpl; fsm_lia.
Qed.

(** What a successful search promises about the page it leaves. *)
Definition search_result (minvalue : Z) (advancenext : bool) (page : FSMPageData)
    (slot : Z) (page' : FSMPageData) : Prop :=
  (slot = -1 /\ page' = page /\ node (fp_nodes page) 0 < minvalue) \/
  (0 <= slot < LeafNodesPerPage /\ minvalue <= leaf page slot /\
   page' = {| fp_next_slot := slot + (if advancenext then 1 else 0); fp_nodes := fp_nodes page |}).

(** One pass: a result, or the discovery that the tree is not valid. *)
Lemma search_pass relock fuel page minvalue adv excl :
  sized (fp_nodes page) ->
  (exists slot page', search_restart relock (S fuel) page minvalue adv excl = Ret (slot, page') /\
     search_result minvalue adv page slot page') \/
  (~ tree_ok (fp_nodes page) /\
   search_restart relock (S fuel) page minvalue adv excl =
     (let* (_, page) := fsm_rebuild_page (if excl then page else relock page) in
      search_restart relock fuel page minvalue adv true)).
Proof.
  intros Hs. cbn [search_restart]. rewrite sized_node_at by (done || fsm_lia). cbn [cbind].
  destruct (Z.ltb_spec (node (fp_nodes page) 0) minvalue).
  { left. exists (-1), page. split; [done|]. by left. }
  pose proof (search_target page) as Ht. cbv zeta in Ht.
  set (target := (if (_ || _)%bool then 0 else _) + NonLeafNodesPerPage) in *.
  destruct (climb_ok 14 (fp_nodes page) minvalue target) as (n & -> & Hn & Hv & Heq);
    [done|fsm_lia|fsm_lia|done|]. cbn [cbind].
  destruct (descend_ok 14 (fp_nodes page) minvalue n) as [(n' & -> & Hn' & Hv')|(-> & Hlt & Hbad)];
    [done|fsm_lia|done|fsm_lia| |]; cbn [cbind].
  - left. assert (u16 (n' - NonLeafNodesPerPage) = n' - NonLeafNodesPerPage) as ->.
    { unfold u16. apply Z.mod_small. fsm_lia. }
    eexists _, _. split; [reflexivity|]. right. split_and!; [fsm_lia|fsm_lia| |done].
    unfold leaf. by replace (NonLeafNodesPerPage + (n' - NonLeafNodesPerPage)) with n' by lia.
  - right. split; [|done]. intros Htree. apply Hbad. split; [done|].
    destruct (Z.lt_ge_cases 0 minvalue); [done|]. exfalso.
    assert (n = target) as ->; [|lia].
    apply Heq; [fsm_lia|]. destruct Hs as [_ Hu]. destruct (Hu target). lia.
Qed.

(** C15. [fsm_search_avail] always ends, on torn pages too and whatever other
    backends do to the page while it is unlocked for the repair.  It returns
    -1 only when the root of the page it leaves promises too little, and
    otherwise a slot whose leaf has at least the asked category, with the hint
    moved to it or past it.  On a valid page it changes nothing but the hint,
    and it finds a slot whenever there is one. *)
Theorem fsm_search_avail_spec relock page minvalue advancenext exclusive :
  (forall p, sized (fp_nodes p) -> sized (fp_nodes (relock p))) ->
  sized (fp_nodes page) ->
  exists slot page',
    fsm_search_avail relock page minvalue advancenext exclusive = Ret (slot, page') /\
    sized (fp_nodes page') /\
    ((slot = -1 /\ node (fp_nodes page') 0 < minvalue) \/
     (0 <= slot < LeafNodesPerPage /\ minvalue <= leaf page' slot /\
      fp_next_slot page' = slot + (if advancenext then 1 else 0))) /\
    (fsm_ok page ->
      fp_nodes page' = fp_nodes page /\
      (slot = -1 -> forall s, 0 <= s < LeafNodesPerPage -> leaf page s < minvalue)).
Proof.
  intros Hrelock Hs. unfold fsm_search_avail.
  assert (forall p slot p', sized (fp_nodes p) -> search_result minvalue advancenext p slot p' ->
    sized (fp_nodes p') /\ fp_nodes p' = fp_nodes p /\
    ((slot = -1 /\ node (fp_nodes p') 0 < minvalue) \/
     (0 <= slot < LeafNodesPerPage /\ minvalue <= leaf p' slot /\
      fp_next_slot p' = slot + (if advancenext then 1 else 0)))) as Hres.
  { intros p slot p' Hp [(-> & -> & ?)|(? & ? & ->)]; split_and!; auto. }
  destruct (search_pass relock 1 page minvalue advancenext exclusive Hs)
    as [(slot & page' & -> & Hr)|(Hbad & ->)].
  - destruct (Hres _ _ _ Hs Hr) as (Hs' & En & Hcase).
    exists slot, page'. split_and!; auto. intros [_ Htree]. split; [done|].
    intros -> s Hs0. destruct Hcase as [[_ Hlt]|[? _]]; [|lia]. rewrite En in Hlt.
    pose proof (tree_ok_root (fp_nodes page) (NonLeafNodesPerPage + s) Hs Htree ltac:(fsm_lia)).
    unfold leaf. lia.
  - set (p1 := if exclusive then page else relock page).
    assert (sized (fp_nodes p1)) as Hs1 by (unfold p1; destruct exclusive; auto).
    destruct (fsm_rebuild_page_ok p1 Hs1) as (c & p2 & -> & [Hs2 Ht2] & _). cbn [cbind].
    destruct (search_pass relock 0 p2 minvalue advancenext true Hs2)
      as [(slot & page' & -> & Hr)|(Hbad2 & _)]; [|done].
    destruct (Hres _ _ _ Hs2 Hr) as (Hs' & En & Hcase).
    exists slot, page'. split_and!; auto. intros [_ Htree]. done.
Qed.

Lemma fsm_search_avail_spec_witness :
  (exists slot page',
    fsm_search_avail (fun p => p) torn_page 3 true false = Ret (slot, page') /\
    sized (fp_nodes page') /\
    ((slot = -1 /\ node (fp_nodes page') 0 < 3) \/
     (0 <= slot < LeafNodesPerPage /\ 3 <= leaf page' slot /\ fp_next_slot page' = slot + 1)) /\
    (fsm_ok torn_page ->
      fp_nodes page' = fp_nodes torn_page /\
      (slot = -1 -> forall s, 0 <= s < LeafNodesPerPage -> leaf torn_page s < 3))) /\
  NodesPerPage = 8164.
Proof.
  split; [|reflexivity].
  apply (fsm_search_avail_spec (fun p => p) torn_page 3 true false);
    [intros p Hp; exact Hp|exact torn_page_sized].
Defined.

(** * Truncation *)

Lemma clear_nodes_ok nodes changed :
  clear_nodes nodes changed =
  (changed || negb (bool_decide (nodes = replicate (length nodes) 0)), replicate (length nodes) 0).
Proof.
  revert changed. induction nodes as [|v nodes IH]; intros changed;
    cbn [clear_nodes length replicate]; [by rewrite orb_false_r|].
  rewrite IH. f_equal. destruct (Z.eqb_spec v 0) as [->|Hne]; cbn [negb].
  - f_equal. f_equal. apply bool_decide_ext. split; [intros E; by f_equal|by intros [= ?]].
  - rewrite (bool_decide_eq_false_2 (v :: _ = _)) by (intros [= ? _]; lia).
    cbn [negb]. by rewrite orb_true_r.
Qed.

(** The array after the leaves from [nslots] on are cleared. *)
Lemma truncated_node nodes k i :
  0 <= k <= zlen nodes ->
  node (take (Z.to_nat k) nodes ++ replicate (length (drop (Z.to_nat k) nodes)) 0) i =
  if i <? k then node nodes i else 0.
Proof.
  unfold zlen. intros Hk. unfold node, zget. destruct (Z.ltb_spec i 0), (Z.ltb_spec i k); try done.
  - rewrite lookup_app_l by (rewrite length_take; lia). by rewrite lookup_take_lt by lia.
  - rewrite lookup_app_r by (rewrite length_take; lia).
    destruct (replicate _ 0 !! _) eqn:E; [|done]. by apply lookup_replicate in E as [-> _].
Qed.

(** [fsm_truncate_avail] zeroes every slot from [nslots] on, keeps the
    others, keeps a valid tree valid, and returns false only when it left the
    page alone. *)
Theorem fsm_truncate_avail_spec page nslots :
  sized (fp_nodes page) -> 0 <= nslots < LeafNodesPerPage ->
  exists changed page', fsm_truncate_avail page nslots = Ret (changed, page') /\
    sized (fp_nodes page') /\ fp_next_slot page' = fp_next_slot page /\
    (forall s, 0 <= s -> leaf page' s = if s <? nslots then leaf page s else 0) /\
    (changed = false -> page' = page) /\ (fsm_ok page -> fsm_ok page').
Proof.
  intros Hs Hn. unfold fsm_truncate_avail.
  destruct (Z.leb_spec 0 nslots), (Z.ltb_spec nslots LeafNodesPerPage); try lia.
  cbn [andb c_assert cbind]. rewrite clear_nodes_ok.
  set (k := NonLeafNodesPerPage + nslots). set (nodes := fp_nodes page) in *.
  assert (0 <= k <= zlen nodes) as Hk by (destruct Hs as [-> _]; fsm_lia).
  pose proof (fun i => truncated_node nodes k i Hk) as Hnode.
  set (ns := take _ nodes ++ _) in *.
  assert (sized ns) as Hs'.
  { destruct Hs as [Hl Hu]. split.
    - unfold ns, zlen in *. rewrite length_app, length_take, length_replicate, length_drop. lia.
    - intros i. rewrite Hnode. destruct (i <? k); [apply Hu|done]. }
  assert (forall s, 0 <= s -> node ns (NonLeafNodesPerPage + s) =
    if s <? nslots then leaf page s else 0) as Hleaf.
  { intros s Hs0. rewrite Hnode. unfold leaf, k, nodes.
    destruct (Z.ltb_spec (NonLeafNodesPerPage + s) (NonLeafNodesPerPage + nslots)),
      (Z.ltb_spec s nslots); done || lia. }
  case_bool_decide as E; cbn [orb negb].
  - assert (ns = nodes) as En by (unfold ns; rewrite <- E; apply take_drop).
    exists false, page. replace (set_nodes page ns) with page
      by (rewrite En; by destruct page). split_and!; auto.
    intros s Hs0. rewrite <- Hleaf by done. rewrite En. done.
  - destruct (fsm_rebuild_page_ok (set_nodes page ns) Hs')
      as (c & page' & -> & [Hs2 Ht2] & Hnx & Hl & _). cbn [cbind].
    exists true, page'. split_and!; auto; try done.
    intros s Hs0. rewrite Hl by done. by apply Hleaf.
Qed.

Lemma fsm_truncate_avail_spec_witness :
  (exists changed page', fsm_truncate_avail torn_page 100 = Ret (changed, page') /\
    sized (fp_nodes page') /\ fp_next_slot page' = fp_next_slot torn_page /\
    (forall s, 0 <= s -> leaf page' s = if s <? 100 then leaf torn_page s else 0) /\
    (changed = false -> page' = torn_page) /\ (fsm_ok torn_page -> fsm_ok page')) /\
  100 < LeafNodesPerPage.
Proof.
  split; [apply (fsm_truncate_avail_spec torn_page 100 torn_page_sized); fsm_lia|done].
Defined.
