(* ===== verification/Transam.v ===== *)
(** Transaction ids: their circular order, and the commit status of a
    transaction as [transam.c] derives it from the commit log and the
    subtransaction log.

    A [TransactionId] is a 32-bit unsigned integer.  [CommitLog] is what this
    file asks of the shared logs: the status and commit LSN stored for an id
    ([TransactionIdGetStatus]), the parent stored for it (the entry [SubTransGetParent] reads)
    and the backend's [TransactionXmin]. *)
From stdpp Require Import relations.
From S2P Require Import Prelude.

Abbreviation TransactionId := Z (only parsing).
Abbreviation XidStatus := Z (only parsing).
Abbreviation XLogRecPtr := Z (only parsing).

Definition InvalidTransactionId : TransactionId := 0.
Definition BootstrapTransactionId : TransactionId := 1.
Definition FrozenTransactionId : TransactionId := 2.
Definition FirstNormalTransactionId : TransactionId := 3.
Definition MaxTransactionId : TransactionId := 4294967295.

Definition TransactionIdIsValid (xid : TransactionId) : bool := negb (xid =? InvalidTransactionId).
Definition TransactionIdIsNormal (xid : TransactionId) : bool := FirstNormalTransactionId <=? xid.
Definition TransactionIdEquals (id1 id2 : TransactionId) : bool := id1 =? id2.

(** [(dest)++], then past the permanent ids. *)
Definition TransactionIdAdvance (dest : TransactionId) : TransactionId :=
  let dest := u32 (dest + 1) in
  if dest <? FirstNormalTransactionId then FirstNormalTransactionId else dest.

(** [do { dest--; } while (dest < FirstNormalTransactionId)]; at most four
    rounds, since 0, 1 and 2 are the only ids skipped. *)
Definition TransactionIdRetreat (dest : TransactionId) : cres TransactionId :=
  loop 2 (fun d => let d := u32 (d - 1) in
                   if d <? FirstNormalTransactionId then inl d else inr (Ret d)) dest.

Definition TransactionIdPrecedes (id1 id2 : TransactionId) : bool :=
  if negb (TransactionIdIsNormal id1) || negb (TransactionIdIsNormal id2) then id1 <? id2
  else s32 (id1 - id2) <? 0.

Definition TransactionIdPrecedesOrEquals (id1 id2 : TransactionId) : bool :=
  if negb (TransactionIdIsNormal id1) || negb (TransactionIdIsNormal id2) then id1 <=? id2
  else s32 (id1 - id2) <=? 0.

Definition TransactionIdFollows (id1 id2 : TransactionId) : bool :=
  if negb (TransactionIdIsNormal id1) || negb (TransactionIdIsNormal id2) then id1 >? id2
  else s32 (id1 - id2) >? 0.

Definition TransactionIdFollowsOrEquals (id1 id2 : TransactionId) : bool :=
  if negb (TransactionIdIsNormal id1) || negb (TransactionIdIsNormal id2) then id1 >=? id2
  else s32 (id1 - id2) >=? 0.

(** [while (--nxids >= 0)]: the array is scanned from its end. *)
Fixpoint latest_loop (result : TransactionId) (rxids : list TransactionId) : TransactionId :=
  match rxids with
  | [] => result
  | x :: rxids => latest_loop (if TransactionIdPrecedes result x then x else result) rxids
  end.

Definition TransactionIdLatest (mainxid : TransactionId) (xids : list TransactionId) : TransactionId :=
  latest_loop mainxid (rev xids).

(** ** Commit status *)

Definition TRANSACTION_STATUS_IN_PROGRESS : XidStatus := 0.
Definition TRANSACTION_STATUS_COMMITTED : XidStatus := 1.
Definition TRANSACTION_STATUS_ABORTED : XidStatus := 2.
Definition TRANSACTION_STATUS_SUB_COMMITTED : XidStatus := 3.
Definition InvalidXLogRecPtr : XLogRecPtr := 0.

Class CommitLog := {
  TransactionIdGetStatus : TransactionId -> XidStatus * XLogRecPtr;
  subtrans_entry : TransactionId -> TransactionId;
  TransactionXmin : TransactionId
}.

(** The single-item cache of [transam.c]. *)
Record FetchCache := {
  cachedFetchXid : TransactionId;
  cachedFetchXidStatus : XidStatus;
  cachedCommitLSN : XLogRecPtr
}.

Definition initial_cache : FetchCache :=
  {| cachedFetchXid := InvalidTransactionId;
     cachedFetchXidStatus := 0; cachedCommitLSN := 0 |}.

Section Status.
Context `{CommitLog}.

Definition TransactionLogFetch (c : FetchCache) (transactionId : TransactionId) : XidStatus * FetchCache :=
  if TransactionIdEquals transactionId (cachedFetchXid c) then (cachedFetchXidStatus c, c)
  else if negb (TransactionIdIsNormal transactionId) then
    if TransactionIdEquals transactionId BootstrapTransactionId then (TRANSACTION_STATUS_COMMITTED, c)
    else if TransactionIdEquals transactionId FrozenTransactionId then (TRANSACTION_STATUS_COMMITTED, c)
    else (TRANSACTION_STATUS_ABORTED, c)
  else
    let '(xidstatus, xidlsn) := TransactionIdGetStatus transactionId in
    if negb (xidstatus =? TRANSACTION_STATUS_IN_PROGRESS) &&
       negb (xidstatus =? TRANSACTION_STATUS_SUB_COMMITTED)
    then (xidstatus, {| cachedFetchXid := transactionId;
                        cachedFetchXidStatus := xidstatus;
                        cachedCommitLSN := xidlsn |})
    else (xidstatus, c).

(** The parent stored in pg_subtrans. *)
Definition SubTransGetParent (xid : TransactionId) : cres TransactionId :=
  c_assert (TransactionIdFollowsOrEquals xid TransactionXmin) ;;
  Ret (if negb (TransactionIdIsNormal xid) then InvalidTransactionId else subtrans_entry xid).

(** Run the rest of a loop body after a call that may fail. *)
Definition call {S R A} (c : cres A) (k : A -> S + cres R) : S + cres R :=
  match c with Ret a => k a | Elog m => inr (Elog m) | Undef => inr Undef end.

(** One activation of [TransactionIdDidCommit]: a result, or the tail call on
    the parent. *)
Definition did_commit_step (s : FetchCache * TransactionId)
    : (FetchCache * TransactionId) + cres (bool * FetchCache) :=
  let '(c, transactionId) := s in
  let '(xidstatus, c) := TransactionLogFetch c transactionId in
  if xidstatus =? TRANSACTION_STATUS_COMMITTED then inr (Ret (true, c))
  else if xidstatus =? TRANSACTION_STATUS_SUB_COMMITTED then
    if TransactionIdPrecedes transactionId TransactionXmin then inr (Ret (false, c))
    else call (SubTransGetParent transactionId) (fun parentXid =>
      if negb (TransactionIdIsValid parentXid) then inr (Ret (false, c))
      else inl (c, parentXid))
  else inr (Ret (false, c)).

Definition TransactionIdDidCommit (c : FetchCache) (transactionId : TransactionId)
    : cres (bool * FetchCache) :=
  loop 32 did_commit_step (c, transactionId).

Definition did_abort_step (s : FetchCache * TransactionId)
    : (FetchCache * TransactionId) + cres (bool * FetchCache) :=
  let '(c, transactionId) := s in
  let '(xidstatus, c) := TransactionLogFetch c transactionId in
  if xidstatus =? TRANSACTION_STATUS_ABORTED then inr (Ret (true, c))
  else if xidstatus =? TRANSACTION_STATUS_SUB_COMMITTED then
    if TransactionIdPrecedes transactionId TransactionXmin then inr (Ret (true, c))
    else call (SubTransGetParent transactionId) (fun parentXid =>
      if negb (TransactionIdIsValid parentXid) then inr (Ret (true, c))
      else inl (c, parentXid))
  else inr (Ret (false, c)).

Definition TransactionIdDidAbort (c : FetchCache) (transactionId : TransactionId)
    : cres (bool * FetchCache) :=
  loop 32 did_abort_step (c, transactionId).

Definition TransactionIdIsKnownCompleted (c : FetchCache) (transactionId : TransactionId) : bool :=
  TransactionIdEquals transactionId (cachedFetchXid c).

Definition TransactionIdGetCommitLSN (c : FetchCache) (xid : TransactionId) : XLogRecPtr :=
  if TransactionIdEquals xid (cachedFetchXid c) then cachedCommitLSN c
  else if negb (TransactionIdIsNormal xid) then InvalidXLogRecPtr
  else (TransactionIdGetStatus xid).2.

(** [SubTransGetTopmostTransaction]: the loop carries the parent found last. *)
Definition topmost_step (parentXid : TransactionId) : TransactionId + cres TransactionId :=
  let previousXid := parentXid in
  if TransactionIdPrecedes parentXid TransactionXmin then inr (Ret previousXid)
  else call (SubTransGetParent parentXid) (fun parentXid =>
    if negb (TransactionIdPrecedes parentXid previousXid)
    then inr (Elog "pg_subtrans contains invalid entry")
    else if TransactionIdIsValid parentXid then inl parentXid else inr (Ret previousXid)).

Definition SubTransGetTopmostTransaction (xid : TransactionId) : cres TransactionId :=
  c_assert (TransactionIdFollowsOrEquals xid TransactionXmin) ;;
  c_assert (TransactionIdIsValid xid) ;;
  loop 32 topmost_step xid.
End Status.

(** ** The circular order *)

Lemma s32_spec z : exists k, s32 z = z - 2 ^ 32 * k /\ - 2 ^ 31 <= s32 z < 2 ^ 31.
Proof.
  exists ((z + 2 ^ 31) / 2 ^ 32). unfold s32.
  pose proof (Z.div_mod (z + 2 ^ 31) (2 ^ 32)). pose proof (Z.mod_pos_bound (z + 2 ^ 31) (2 ^ 32)). lia.
Qed.

(** [normal_xid x]: a 32-bit id that is not one of the permanent ones. *)
Definition normal_xid (x : TransactionId) : Prop := 3 <= x < 2 ^ 32.

(** The number of normal ids. *)
Definition xid_count : Z := 2 ^ 32 - 3.

Lemma advance_closed x (k : nat) :
  normal_xid x ->
  Nat.iter k TransactionIdAdvance x = 3 + (x - 3 + Z.of_nat k) mod xid_count.
Proof.
  unfold normal_xid. intros Hx. assert (xid_count = 4294967293) as Hn by done.
  induction k as [|k IH].
  - simpl Nat.iter. rewrite Z.mod_small; lia.
  - rewrite Nat.iter_succ, IH. replace (Z.of_nat (S k)) with (Z.of_nat k + 1) by lia.
    set (y := x - 3 + Z.of_nat k). replace (x - 3 + (Z.of_nat k + 1)) with (y + 1) by lia.
    pose proof (Z.mod_pos_bound y xid_count ltac:(lia)).
    rewrite <- (Z.add_mod_idemp_l y 1) by lia. set (r := y mod xid_count) in *.
    unfold TransactionIdAdvance, u32, FirstNormalTransactionId. cbn zeta.
    destruct (decide (r + 1 = xid_count)) as [E|E].
    + replace (3 + r + 1) with (2 ^ 32) by lia. rewrite E, !Z.mod_same by lia. done.
    + rewrite !Z.mod_small by lia. destruct (Z.ltb_spec (3 + r + 1) 3); lia.
Qed.

Lemma advance_normal x k : normal_xid x -> normal_xid (Nat.iter k TransactionIdAdvance x).
Proof.
  intros Hx. rewrite advance_closed by done. unfold normal_xid. pose proof (Z.mod_pos_bound (x - 3 + Z.of_nat k) xid_count).
  assert (xid_count = 4294967293) by done. lia.
Qed.

Lemma advance_diff x (i j : nat) :
  normal_xid x -> Z.abs (Z.of_nat i - Z.of_nat j) <= 2 ^ 31 - 4 ->
  let d := s32 (Nat.iter i TransactionIdAdvance x - Nat.iter j TransactionIdAdvance x) in
  Z.sgn d = Z.sgn (Z.of_nat i - Z.of_nat j).
Proof.
  intros Hx Hij d. subst d. rewrite !advance_closed by done.
  destruct (s32_spec (3 + (x - 3 + Z.of_nat i) mod xid_count - (3 + (x - 3 + Z.of_nat j) mod xid_count)))
    as (k & -> & Hk). revert Hk.
  assert (xid_count = 4294967293) as Hn by done. rewrite Hn.
  pose proof (Z.mod_pos_bound (x - 3 + Z.of_nat i) 4294967293 ltac:(lia)).
  pose proof (Z.mod_pos_bound (x - 3 + Z.of_nat j) 4294967293 ltac:(lia)).
  pose proof (Z.div_mod (x - 3 + Z.of_nat i) 4294967293 ltac:(lia)).
  pose proof (Z.div_mod (x - 3 + Z.of_nat j) 4294967293 ltac:(lia)).
  generalize dependent ((x - 3 + Z.of_nat i) mod 4294967293). intros a Ha Ea.
  generalize dependent ((x - 3 + Z.of_nat j) mod 4294967293). intros b Hb Eb Hk.
  lia.
Qed.

Lemma normal_is_normal x : normal_xid x -> TransactionIdIsNormal x = true.
Proof. unfold normal_xid, TransactionIdIsNormal, FirstNormalTransactionId. lia. Qed.

Lemma retreat_advance x : normal_xid x -> TransactionIdRetreat (TransactionIdAdvance x) = Ret x.
Proof.
  unfold normal_xid; intros Hx.
  pose proof (advance_closed x 1 Hx) as E. simpl Nat.iter in E. rewrite E.
  assert (xid_count = 4294967293) as Hn by done. rewrite Hn.
  unfold TransactionIdRetreat, loop. cbn [loop_steps]. unfold u32, FirstNormalTransactionId.
  destruct (decide (x = 2 ^ 32 - 1)) as [->|].
  - done.
  - rewrite (Z.mod_small (x - 3 + Z.of_nat 1)) by lia.
    rewrite (Z.mod_small (3 + (x - 3 + Z.of_nat 1) - 1)) by lia.
    destruct (Z.ltb_spec (3 + (x - 3 + Z.of_nat 1) - 1) 3); [lia|]. f_equal. lia.
Qed.

(** Transaction ids are handed out by [TransactionIdAdvance], which wraps
    around at 2^32 and skips the three permanent ids.  Any two ids that are
    at most 2^31 - 4 steps apart compare the way they were handed out, for all
    four comparison routines and across the wraparound; the permanent ids
    precede every normal one; and [TransactionIdRetreat] undoes
    [TransactionIdAdvance]. *)
Theorem xid_circular_order (x : TransactionId) (i j : nat) :
  normal_xid x -> Z.abs (Z.of_nat i - Z.of_nat j) <= 2 ^ 31 - 4 ->
  let a := Nat.iter i TransactionIdAdvance x in
  let b := Nat.iter j TransactionIdAdvance x in
  TransactionIdPrecedes a b = (Z.of_nat i <? Z.of_nat j) /\
  TransactionIdPrecedesOrEquals a b = (Z.of_nat i <=? Z.of_nat j) /\
  TransactionIdFollows a b = (Z.of_nat i >? Z.of_nat j) /\
  TransactionIdFollowsOrEquals a b = (Z.of_nat i >=? Z.of_nat j) /\
  (forall p, p < FirstNormalTransactionId ->
     TransactionIdPrecedes p a = true /\ TransactionIdFollowsOrEquals p a = false) /\
  TransactionIdRetreat (TransactionIdAdvance a) = Ret a.
Proof.
  intros Hx Hij a b. pose proof (advance_diff x i j Hx Hij) as Hd. cbn zeta in Hd.
  pose proof (advance_normal x i Hx) as Ha. pose proof (advance_normal x j Hx) as Hb.
  fold a b in Hd, Ha, Hb.
  unfold TransactionIdPrecedes, TransactionIdPrecedesOrEquals, TransactionIdFollows,
    TransactionIdFollowsOrEquals.
  rewrite !normal_is_normal by done. cbn [negb orb].
  split_and!; [lia|lia|lia|lia| |by apply retreat_advance].
  intros p Hp. unfold TransactionIdIsNormal, FirstNormalTransactionId, normal_xid in *.
  destruct (Z.leb_spec 3 p); [lia|]. cbn [negb orb]. lia.
Qed.

Lemma xid_circular_order_witness :
  let a := Nat.iter 1 TransactionIdAdvance MaxTransactionId in
  normal_xid MaxTransactionId /\ a = 3 /\ TransactionIdPrecedes MaxTransactionId a = true.
Proof.
  split; [unfold normal_xid, MaxTransactionId; lia|]. split; [done|].
  destruct (xid_circular_order MaxTransactionId 0 1) as [H _];
    [unfold normal_xid, MaxTransactionId; lia|lia|exact H].
Defined.

(** The scan of [TransactionIdLatest] on ids given by their position in the
    order of assignment. *)
Lemma latest_loop_max x (base : nat) (steps : list nat) (m : nat) :
  normal_xid x -> (base <= m <= base + Z.to_nat (2 ^ 31 - 4))%nat ->
  Forall (fun k => base <= k <= base + Z.to_nat (2 ^ 31 - 4))%nat steps ->
  latest_loop (Nat.iter m TransactionIdAdvance x)
    ((fun k => Nat.iter k TransactionIdAdvance x) <$> steps)
  = Nat.iter (foldl Nat.max m steps) TransactionIdAdvance x.
Proof.
  intros Hx. revert m. induction steps as [|k steps IH]; intros m Hm Hs; [done|].
  inversion_clear Hs as [|? ? Hk Hs']. cbn [fmap list_fmap latest_loop foldl].
  assert (TransactionIdPrecedes (Nat.iter m TransactionIdAdvance x) (Nat.iter k TransactionIdAdvance x)
          = (Z.of_nat m <? Z.of_nat k)) as ->.
  { unfold TransactionIdPrecedes. rewrite !normal_is_normal by by apply advance_normal.
    cbn [negb orb]. pose proof (advance_diff x m k Hx ltac:(lia)) as Hd. cbn zeta in Hd. lia. }
  destruct (Z.ltb_spec (Z.of_nat m) (Z.of_nat k)).
  - rewrite (Nat.max_r m k) by lia. by apply IH; [lia|].
  - rewrite (Nat.max_l m k) by lia. by apply IH; [lia|].
Qed.

(** [fetch_status x]: what [TransactionLogFetch] answers without its cache. *)
Definition fetch_status `{CommitLog} (x : TransactionId) : XidStatus :=
  if TransactionIdIsNormal x then (TransactionIdGetStatus x).1
  else if TransactionIdEquals x BootstrapTransactionId || TransactionIdEquals x FrozenTransactionId
  then TRANSACTION_STATUS_COMMITTED else TRANSACTION_STATUS_ABORTED.

(** The transaction tree an id belongs to, as far back as it can be followed. *)
Inductive parent_of `{CommitLog} (x p : TransactionId) : Prop :=
  | parent_of_intro :
      TransactionIdPrecedes x TransactionXmin = false ->
      SubTransGetParent x = Ret p -> TransactionIdIsValid p = true -> parent_of x p.

Inductive tx_committed `{CommitLog} (x : TransactionId) : Prop :=
  | tx_committed_self : fetch_status x = TRANSACTION_STATUS_COMMITTED -> tx_committed x
  | tx_committed_parent p :
      fetch_status x = TRANSACTION_STATUS_SUB_COMMITTED -> parent_of x p ->
      tx_committed p -> tx_committed x.

Inductive tx_aborted `{CommitLog} (x : TransactionId) : Prop :=
  | tx_aborted_self : fetch_status x = TRANSACTION_STATUS_ABORTED -> tx_aborted x
  | tx_aborted_orphan :
      fetch_status x = TRANSACTION_STATUS_SUB_COMMITTED ->
      (forall p, ~ parent_of x p) -> tx_aborted x
  | tx_aborted_parent p :
      fetch_status x = TRANSACTION_STATUS_SUB_COMMITTED -> parent_of x p ->
      tx_aborted p -> tx_aborted x.

(** What [SubTransSetParent] asserts of every entry it stores. *)
Class SubtransOk `{CommitLog} : Prop := {
  subtrans_xmin : normal_xid TransactionXmin;
  subtrans_before : forall x, normal_xid x ->
    subtrans_entry x = InvalidTransactionId \/
    (normal_xid (subtrans_entry x) /\ TransactionIdPrecedes (subtrans_entry x) x = true)
}.

(** A cache entry repeats a final status of the log. *)
Definition cache_ok `{CommitLog} (c : FetchCache) : Prop :=
  TransactionIdIsValid (cachedFetchXid c) = true ->
  TransactionIdIsNormal (cachedFetchXid c) = true /\
  TransactionIdGetStatus (cachedFetchXid c) = (cachedFetchXidStatus c, cachedCommitLSN c) /\
  cachedFetchXidStatus c <> TRANSACTION_STATUS_IN_PROGRESS /\
  cachedFetchXidStatus c <> TRANSACTION_STATUS_SUB_COMMITTED.

Section StatusProofs.
Context `{SubtransOk}.

Lemma log_fetch_spec c x :
  cache_ok c -> TransactionIdIsValid x = true ->
  exists c', TransactionLogFetch c x = (fetch_status x, c') /\ cache_ok c'.
Proof.
  intros Hc Hx. unfold TransactionLogFetch, fetch_status, TransactionIdEquals.
  destruct (Z.eqb_spec x (cachedFetchXid c)) as [->|Hne].
  - destruct (Hc Hx) as (-> & -> & _). eauto.
  - destruct (TransactionIdIsNormal x) eqn:En; cbn [negb].
    + destruct (TransactionIdGetStatus x) as [st lsn] eqn:Es. cbn [fst].
      destruct (Z.eqb_spec st TRANSACTION_STATUS_IN_PROGRESS); [by eexists|].
      destruct (Z.eqb_spec st TRANSACTION_STATUS_SUB_COMMITTED); [by eexists|].
      eexists. split; [done|]. intros _. by cbn.
    + destruct (x =? BootstrapTransactionId); cbn [orb]; [by eexists|].
      destruct (x =? FrozenTransactionId); by eexists.
Qed.

Lemma precedes_normal a b : normal_xid a -> normal_xid b ->
  TransactionIdPrecedes a b = (s32 (a - b) <? 0).
Proof. intros. unfold TransactionIdPrecedes. by rewrite !normal_is_normal. Qed.

Lemma subtrans_parent_cases x :
  normal_xid x -> TransactionIdPrecedes x TransactionXmin = false ->
  SubTransGetParent x = Ret (subtrans_entry x).
Proof.
  intros Hx Hp. pose proof subtrans_xmin. unfold SubTransGetParent, TransactionIdFollowsOrEquals.
  rewrite precedes_normal in Hp by done. rewrite !normal_is_normal by done. cbn [negb orb].
  destruct (Z.geb_spec (s32 (x - TransactionXmin)) 0); [done|lia].
Qed.

(** How far an id is above [TransactionXmin]; 0 below it. *)
Definition xid_depth (x : TransactionId) : Z :=
  if TransactionIdPrecedes x TransactionXmin then 0 else 1 + u32 (x - TransactionXmin).

Lemma u32_spec z : exists k, u32 z = z - 2 ^ 32 * k /\ 0 <= u32 z < 2 ^ 32.
Proof.
  exists (z / 2 ^ 32). unfold u32.
  pose proof (Z.div_mod z (2 ^ 32)). pose proof (Z.mod_pos_bound z (2 ^ 32)). lia.
Qed.

Lemma xid_depth_bound x : normal_xid x -> 0 <= xid_depth x < 2 ^ 32.
Proof.
  intros Hx. pose proof subtrans_xmin as Hm. unfold xid_depth. rewrite precedes_normal by done.
  destruct (s32_spec (x - TransactionXmin)) as (k & Ek & Bk).
  destruct (u32_spec (x - TransactionXmin)) as (j & Ej & Bj).
  destruct (Z.ltb_spec (s32 (x - TransactionXmin)) 0); lia.
Qed.

Lemma xid_depth_parent x p :
  normal_xid x -> normal_xid p -> TransactionIdPrecedes p x = true ->
  TransactionIdPrecedes x TransactionXmin = false -> 0 <= xid_depth p < xid_depth x.
Proof.
  intros Hx Hp Hpx Hxm. pose proof (xid_depth_bound p Hp). pose proof subtrans_xmin as Hm.
  unfold xid_depth in *. rewrite Hxm. rewrite precedes_normal in * by done.
  destruct (s32_spec (x - TransactionXmin)) as (k & Ek & Bk).
  destruct (s32_spec (p - TransactionXmin)) as (l & El & Bl).
  destruct (s32_spec (p - x)) as (i & Ei & Bi).
  destruct (u32_spec (x - TransactionXmin)) as (j & Ej & Bj).
  destruct (u32_spec (p - TransactionXmin)) as (h & Eh & Bh).
  destruct (Z.ltb_spec (s32 (p - TransactionXmin)) 0); lia.
Qed.

(** A 32-bit id other than [InvalidTransactionId]. *)
Definition valid_xid (x : TransactionId) : Prop := 0 < x < 2 ^ 32.

Lemma normal_valid x : normal_xid x -> valid_xid x.
Proof. unfold normal_xid, valid_xid. lia. Qed.

Lemma valid_is_valid x : valid_xid x -> TransactionIdIsValid x = true.
Proof. unfold valid_xid, TransactionIdIsValid, InvalidTransactionId. lia. Qed.

Lemma sub_committed_normal x :
  valid_xid x -> fetch_status x = TRANSACTION_STATUS_SUB_COMMITTED -> normal_xid x.
Proof.
  unfold fetch_status, TransactionIdIsNormal, FirstNormalTransactionId, valid_xid, normal_xid.
  intros Hx. destruct (Z.leb_spec 3 x); [lia|]. by destruct (_ || _).
Qed.

Lemma parent_unique x p q : parent_of x p -> parent_of x q -> p = q.
Proof. intros [_ E _] [_ E' _]. congruence. Qed.

Lemma parent_step x p :
  normal_xid x -> parent_of x p -> normal_xid p /\ 0 <= xid_depth p < xid_depth x.
Proof.
  intros Hx [Hm E Hv]. rewrite subtrans_parent_cases in E by done. injection E as E.
  destruct (subtrans_before x Hx) as [E0|[Hn Hp]]; rewrite E in *; [by rewrite E0 in Hv|].
  split; [done|]. by apply xid_depth_parent.
Qed.

(** The part [TransactionIdDidCommit] and [TransactionIdDidAbort] share: the
    lookup of the parent of a subcommitted transaction. *)
Lemma parent_lookup x :
  normal_xid x ->
  (TransactionIdPrecedes x TransactionXmin = true /\ forall p, ~ parent_of x p) \/
  (TransactionIdPrecedes x TransactionXmin = false /\
   exists p, SubTransGetParent x = Ret p /\
     ((TransactionIdIsValid p = false /\ forall q, ~ parent_of x q) \/
      (TransactionIdIsValid p = true /\ parent_of x p))).
Proof.
  intros Hx. destruct (TransactionIdPrecedes x TransactionXmin) eqn:Hm; [left|right]; split; try done.
  - intros p [Hm' _ _]. congruence.
  - pose proof (subtrans_parent_cases x Hx Hm) as E. exists (subtrans_entry x). split; [done|].
    destruct (TransactionIdIsValid (subtrans_entry x)) eqn:Ev; [right|left]; split; try done.
    intros q [_ E' Hv]. congruence.
Qed.

Ltac status_cases x :=
  destruct (Z.eqb_spec (fetch_status x) TRANSACTION_STATUS_COMMITTED);
  destruct (Z.eqb_spec (fetch_status x) TRANSACTION_STATUS_ABORTED);
  destruct (Z.eqb_spec (fetch_status x) TRANSACTION_STATUS_SUB_COMMITTED);
  unfold TRANSACTION_STATUS_COMMITTED, TRANSACTION_STATUS_ABORTED,
    TRANSACTION_STATUS_SUB_COMMITTED in *; try lia.

Lemma tx_committed_inv x :
  tx_committed x ->
  fetch_status x = TRANSACTION_STATUS_COMMITTED \/
  fetch_status x = TRANSACTION_STATUS_SUB_COMMITTED /\ exists p, parent_of x p /\ tx_committed p.
Proof. intros []; eauto. Qed.

Lemma tx_aborted_inv x :
  tx_aborted x ->
  fetch_status x = TRANSACTION_STATUS_ABORTED \/
  fetch_status x = TRANSACTION_STATUS_SUB_COMMITTED /\
    ((forall p, ~ parent_of x p) \/ exists p, parent_of x p /\ tx_aborted p).
Proof. intros []; [by left|right; eauto|right; eauto 10]. Qed.

Lemma did_commit_step_spec c x :
  cache_ok c -> valid_xid x ->
  match did_commit_step (c, x) with
  | inl (c', p) => cache_ok c' /\ normal_xid x /\ parent_of x p /\ (tx_committed x <-> tx_committed p)
  | inr r => exists b c', r = Ret (b, c') /\ cache_ok c' /\ (b = true <-> tx_committed x)
  end.
Proof.
  intros Hc Hx. unfold did_commit_step.
  destruct (log_fetch_spec c x Hc (valid_is_valid x Hx)) as (c' & -> & Hc').
  pose proof (tx_committed_inv x) as Hinv.
  pose proof (sub_committed_normal x Hx) as Hsub. status_cases x.
  - eexists _, _. split_and!; [done..|]. split; [|done]. intros _. by constructor 1.
  - eexists _, _. split_and!; [done..|]. split; [done|]. intros [?|[? _]]%Hinv; lia.
  - specialize (Hsub ltac:(done)). destruct (parent_lookup x Hsub) as [[-> Hno]|(-> & p & -> & Hp)].
    + eexists _, _. split_and!; [done..|]. split; [done|]. intros [?|(_ & p & Hp & _)]%Hinv; [lia|].
      by destruct (Hno p).
    + cbn [call]. destruct Hp as [[-> Hno]|[-> Hp]]; cbn [negb].
      * eexists _, _. split_and!; [done..|]. split; [done|]. intros [?|(_ & q & Hq & _)]%Hinv; [lia|].
        by destruct (Hno q).
      * split_and!; [done..|]. split; [|by econstructor 2].
        intros [?|(_ & q & Hq & Ht)]%Hinv; [lia|]. by rewrite (parent_unique x p q).
  - eexists _, _. split_and!; [done..|]. split; [done|]. intros [?|[? _]]%Hinv; lia.
Qed.

Lemma did_abort_step_spec c x :
  cache_ok c -> valid_xid x ->
  match did_abort_step (c, x) with
  | inl (c', p) => cache_ok c' /\ normal_xid x /\ parent_of x p /\ (tx_aborted x <-> tx_aborted p)
  | inr r => exists b c', r = Ret (b, c') /\ cache_ok c' /\ (b = true <-> tx_aborted x)
  end.
Proof.
  intros Hc Hx. unfold did_abort_step.
  destruct (log_fetch_spec c x Hc (valid_is_valid x Hx)) as (c' & -> & Hc').
  pose proof (tx_aborted_inv x) as Hinv.
  pose proof (sub_committed_normal x Hx) as Hsub. status_cases x.
  - eexists _, _. split_and!; [done..|]. split; [done|]. intros [?|[? _]]%Hinv; lia.
  - eexists _, _. split_and!; [done..|]. split; [|done]. intros _. by constructor 1.
  - specialize (Hsub ltac:(done)). destruct (parent_lookup x Hsub) as [[-> Hno]|(-> & p & -> & Hp)].
    + eexists _, _. split_and!; [done..|]. split; [|done]. intros _. by constructor 2.
    + cbn [call]. destruct Hp as [[-> Hno]|[-> Hp]]; cbn [negb].
      * eexists _, _. split_and!; [done..|]. split; [|done]. intros _. by constructor 2.
      * split_and!; [done..|]. split; [|by econstructor 3].
        intros [?|(_ & [Hno|(q & Hq & Ht)])]%Hinv; [lia|by destruct (Hno p)|].
        by rewrite (parent_unique x p q).
  - eexists _, _. split_and!; [done..|]. split; [done|]. intros [?|[? _]]%Hinv; lia.
Qed.

(** A walk up the transaction tree that answers at each transaction or goes on
    with its parent, for either of the two routines. *)
Lemma walk_up_spec step (T : TransactionId -> Prop) c x :
  (forall c x, cache_ok c -> valid_xid x ->
   match step (c, x) with
   | inl (c', p) => cache_ok c' /\ normal_xid x /\ parent_of x p /\ (T x <-> T p)
   | inr r => exists b c', r = Ret (b, c') /\ cache_ok c' /\ (b = true <-> T x)
   end) ->
  cache_ok c -> valid_xid x ->
  exists b c', loop 32 step (c, x) = Ret (b, c') /\ cache_ok c' /\ (b = true <-> T x).
Proof.
  intros Hstep Hc Hx.
  set (I := fun s : FetchCache * TransactionId => cache_ok s.1 /\ valid_xid s.2 /\ (T x <-> T s.2)).
  set (m := fun s : FetchCache * TransactionId =>
              if TransactionIdIsNormal s.2 then xid_depth s.2 else 0).
  apply (loop_ensures step I m) with
    (Q := fun r => exists b c', r = Ret (b, c') /\ cache_ok c' /\ (b = true <-> T x)).
  - intros [c1 y] [c2 p] (Hc1 & Hy & Ht) E. specialize (Hstep c1 y Hc1 Hy). rewrite E in Hstep.
    destruct Hstep as (Hc2 & Hn & Hp & Htp). destruct (parent_step y p Hn Hp) as [Hnp Hd].
    cbn [fst snd] in *. split; [|by unfold m; cbn [snd]; rewrite !normal_is_normal].
    split_and!; [done|by apply normal_valid|by rewrite Ht].
  - by split_and!.
  - unfold m. cbn [snd]. destruct (TransactionIdIsNormal x) eqn:En; [|lia].
    apply xid_depth_bound. unfold TransactionIdIsNormal, FirstNormalTransactionId, valid_xid, normal_xid in *.
    lia.
  - intros [c1 y] r (Hc1 & Hy & Ht) E. specialize (Hstep c1 y Hc1 Hy). rewrite E in Hstep.
    destruct Hstep as (b & c' & -> & Hc' & Hb). exists b, c'. by rewrite Ht.
Qed.

Lemma committed_not_aborted x : tx_committed x -> tx_aborted x -> False.
Proof.
  induction 1 as [x Hs|x p Hs Hp _ IH]; intros [Ha|[Ha Hr]]%tx_aborted_inv;
    rewrite Hs in Ha; try done.
  destruct Hr as [Hno|(q & Hq & Hab)]; [by apply (Hno p)|].
  by rewrite (parent_unique x p q) in IH; auto.
Qed.
End StatusProofs.

(** C33. [TransactionIdDidCommit] and [TransactionIdDidAbort] always return:
    they walk up the tree of subtransactions, which pg_subtrans keeps ordered,
    and answer true exactly when the transaction, or the ancestor that decided
    for it, is committed, respectively aborted (a subcommitted transaction
    whose parent can no longer be found counts as aborted).  The single-item
    cache never changes the answer and stays coherent with the log, and no
    transaction is reported both committed and aborted. *)
Theorem did_commit_did_abort `{SubtransOk} c x :
  cache_ok c -> valid_xid x ->
  exists b d c' c'',
    TransactionIdDidCommit c x = Ret (b, c') /\ cache_ok c' /\ (b = true <-> tx_committed x) /\
    TransactionIdDidAbort c x = Ret (d, c'') /\ cache_ok c'' /\ (d = true <-> tx_aborted x) /\
    ~ (b = true /\ d = true).
Proof.
  intros Hc Hx.
  destruct (walk_up_spec did_commit_step tx_committed c x did_commit_step_spec Hc Hx)
    as (b & c' & E & Hc' & Hb).
  destruct (walk_up_spec did_abort_step tx_aborted c x did_abort_step_spec Hc Hx)
    as (d & c'' & E' & Hc'' & Hd).
  exists b, d, c', c''. split_and!; [done..|].
  intros [B D]. by apply (committed_not_aborted x); [apply Hb|apply Hd].
Qed.

(** A small log: 10 committed, 11 and 12 its subcommitted children, 13 in
    progress with the subcommitted child 14. *)
Definition sample_log : CommitLog := {|
  TransactionIdGetStatus x :=
    (if x =? 10 then 1 else if (x =? 11) || (x =? 12) || (x =? 14) then 3
     else if x =? 13 then 0 else 2, 0);
  subtrans_entry x := if x =? 11 then 10 else if x =? 12 then 11 else if x =? 14 then 13 else 0;
  TransactionXmin := 9 |}.

Lemma sample_log_ok : @SubtransOk sample_log.
Proof.
  constructor; [unfold normal_xid; cbn; lia|]. intros x Hx. cbn [subtrans_entry sample_log].
  destruct (Z.eqb_spec x 11) as [->|]; [by right; split; [unfold normal_xid; lia|]|].
  destruct (Z.eqb_spec x 12) as [->|]; [by right; split; [unfold normal_xid; lia|]|].
  destruct (Z.eqb_spec x 14) as [->|]; [by right; split; [unfold normal_xid; lia|]|]. by left.
Qed.

Lemma initial_cache_ok `{CommitLog} : cache_ok initial_cache.
Proof. by intros ?. Qed.

Lemma did_commit_did_abort_witness :
  (exists c, @TransactionIdDidCommit sample_log initial_cache 12 = Ret (true, c)) /\
  exists b d c' c'',
    @TransactionIdDidCommit sample_log initial_cache 12 = Ret (b, c') /\ @cache_ok sample_log c' /\
    (b = true <-> @tx_committed sample_log 12) /\
    @TransactionIdDidAbort sample_log initial_cache 12 = Ret (d, c'') /\ @cache_ok sample_log c'' /\
    (d = true <-> @tx_aborted sample_log 12) /\ ~ (b = true /\ d = true).
Proof.
  split; [eexists; vm_compute; reflexivity|].
  apply (@did_commit_did_abort sample_log sample_log_ok initial_cache 12).
  - apply initial_cache_ok.
  - unfold valid_xid. lia.
Defined.

(** ** The topmost transaction *)

Section Topmost.
Context `{SubtransOk}.

Lemma topmost_step_spec x :
  normal_xid x ->
  match topmost_step x with
  | inl p => parent_of x p
  | inr r => r = Ret x /\ forall p, ~ parent_of x p
  end.
Proof.
  intros Hx. unfold topmost_step.
  destruct (parent_lookup x Hx) as [[-> Hno]|(Hm & p & E & Hp)]; [done|].
  rewrite Hm, E. cbn [call]. rewrite subtrans_parent_cases in E by done. injection E as <-.
  destruct Hp as [[Hv Hno]|[Hv Hp]]; rewrite Hv.
  - destruct (subtrans_before x Hx) as [->|[Hn _]]; [|by rewrite valid_is_valid in Hv by by apply normal_valid].
    assert (TransactionIdPrecedes InvalidTransactionId x = true) as -> by
      (unfold TransactionIdPrecedes, InvalidTransactionId, normal_xid in *; cbn; lia). done.
  - destruct (subtrans_before x Hx) as [E0|[_ ->]]; [by rewrite E0 in Hv|done].
Qed.

Lemma topmost_walk x :
  normal_xid x -> TransactionIdFollowsOrEquals x TransactionXmin = true ->
  exists t, SubTransGetTopmostTransaction x = Ret t /\
    rtc parent_of x t /\ normal_xid t /\ forall p, ~ parent_of t p.
Proof.
  intros Hx Hf. unfold SubTransGetTopmostTransaction. rewrite Hf, valid_is_valid by by apply normal_valid.
  cbn [c_assert cbind].
  apply (loop_ensures topmost_step (fun y => normal_xid y /\ rtc parent_of x y) xid_depth) with
    (Q := fun r => exists t, r = Ret t /\ rtc parent_of x t /\ normal_xid t /\ forall p, ~ parent_of t p).
  - intros y p [Hy Hr] E. pose proof (topmost_step_spec y Hy) as Hs. rewrite E in Hs.
    destruct (parent_step y p Hy Hs). split; [split; [done|]|done]. by eapply rtc_r.
  - by split.
  - by apply xid_depth_bound.
  - intros y r [Hy Hr] E. pose proof (topmost_step_spec y Hy) as Hs. rewrite E in Hs.
    destruct Hs as [-> Hno]. by exists y.
Qed.

Lemma topmost_total x :
  normal_xid x -> TransactionIdFollowsOrEquals x TransactionXmin = true ->
  exists t, SubTransGetTopmostTransaction x = Ret t /\ normal_xid t.
Proof. intros Hx Hf. destruct (topmost_walk x Hx Hf) as (t & E & _ & Hn & _). by exists t. Qed.

(** [SubTransGetTopmostTransaction] always returns, without reporting a
    corrupted pg_subtrans, an ancestor (or the id itself) that has no parent
    that could be looked up: a top-level transaction, or one older than
    [TransactionXmin]. *)
Theorem subtrans_topmost x :
  normal_xid x -> TransactionIdFollowsOrEquals x TransactionXmin = true ->
  exists t, SubTransGetTopmostTransaction x = Ret t /\
    rtc parent_of x t /\ normal_xid t /\ forall p, ~ parent_of t p.
Proof. apply topmost_walk. Qed.
End Topmost.

Lemma subtrans_topmost_witness :
  @SubTransGetTopmostTransaction sample_log 12 = Ret 10 /\
  exists t, @SubTransGetTopmostTransaction sample_log 12 = Ret t /\
    rtc (@parent_of sample_log) 12 t /\ normal_xid t /\ forall p, ~ @parent_of sample_log t p.
Proof.
  split; [vm_compute; reflexivity|].
  apply (@subtrans_topmost sample_log sample_log_ok 12); [unfold normal_xid; lia|reflexivity].
Defined.
