(* ===== verification/Clog.v ===== *)
(** The commit log pages of [clog.c]: two status bits per transaction, packed
    four to a byte, and the latest commit LSN of every group of 32
    transactions.

    [ClogShared] is the part of the shared SLRU state these routines touch: the
    pages in the buffer slots and the group LSNs of all slots.  Which slot a
    page is in is decided by the SLRU layer and is an argument. *)
From S2P Require Import Prelude Transam.

Definition CLOG_BITS_PER_XACT : Z := 2.
Definition CLOG_XACTS_PER_BYTE : Z := 4.
Definition CLOG_XACTS_PER_PAGE : Z := BLCKSZ * CLOG_XACTS_PER_BYTE.
Definition CLOG_XACT_BITMASK : Z := Z.shiftl 1 CLOG_BITS_PER_XACT - 1.

Definition TransactionIdToPage (xid : TransactionId) : Z := xid / CLOG_XACTS_PER_PAGE.
Definition TransactionIdToPgIndex (xid : TransactionId) : Z := xid mod CLOG_XACTS_PER_PAGE.
Definition TransactionIdToByte (xid : TransactionId) : Z := TransactionIdToPgIndex xid / CLOG_XACTS_PER_BYTE.
Definition TransactionIdToBIndex (xid : TransactionId) : Z := xid mod CLOG_XACTS_PER_BYTE.

Definition CLOG_XACTS_PER_LSN_GROUP : Z := 32.
Definition CLOG_LSNS_PER_PAGE : Z := CLOG_XACTS_PER_PAGE / CLOG_XACTS_PER_LSN_GROUP.
Definition GetLSNIndex (slotno : Z) (xid : TransactionId) : Z :=
  slotno * CLOG_LSNS_PER_PAGE + (xid mod CLOG_XACTS_PER_PAGE) / CLOG_XACTS_PER_LSN_GROUP.

Record ClogShared := {
  page_buffer : list (list Z);
  group_lsn : list XLogRecPtr
}.

(** Conversion of an [int] to [char], which is signed here. *)
Definition s8 (z : Z) : Z := (z + 2 ^ 7) mod 2 ^ 8 - 2 ^ 7.

Definition TransactionIdSetStatusBit (InRecovery : bool) (sh : ClogShared)
    (xid : TransactionId) (status : XidStatus) (lsn : XLogRecPtr) (slotno : Z) : cres ClogShared :=
  let byteno := TransactionIdToByte xid in
  let bshift := TransactionIdToBIndex xid * CLOG_BITS_PER_XACT in
  let* page := deref (zget (page_buffer sh) slotno) in
  let* byte := deref (zget page byteno) in
  let curval := Z.land (Z.shiftr byte bshift) CLOG_XACT_BITMASK in
  if InRecovery && (status =? TRANSACTION_STATUS_SUB_COMMITTED) &&
     (curval =? TRANSACTION_STATUS_COMMITTED) then Ret sh
  else
    c_assert ((curval =? 0) ||
              ((curval =? TRANSACTION_STATUS_SUB_COMMITTED) &&
               negb (status =? TRANSACTION_STATUS_IN_PROGRESS)) ||
              (curval =? status)) ;;
    let byteval := s8 (Z.land byte (Z.lnot (Z.shiftl (Z.shiftl 1 CLOG_BITS_PER_XACT - 1) bshift))) in
    let byteval := s8 (Z.lor byteval (Z.shiftl status bshift)) in
    let* page := deref (zset page byteno byteval) in
    let* pages := deref (zset (page_buffer sh) slotno page) in
    if negb (lsn =? InvalidXLogRecPtr) then
      let lsnindex := GetLSNIndex slotno xid in
      let* cur := deref (zget (group_lsn sh) lsnindex) in
      if cur <? lsn then
        let* lsns := deref (zset (group_lsn sh) lsnindex lsn) in
        Ret {| page_buffer := pages; group_lsn := lsns |}
      else Ret {| page_buffer := pages; group_lsn := group_lsn sh |}
    else Ret {| page_buffer := pages; group_lsn := group_lsn sh |}.

(** [TransactionIdGetStatus], for the page found in [slotno]: the status and
    the group's LSN. *)
Definition clog_get_status (sh : ClogShared) (xid : TransactionId) (slotno : Z)
    : cres (XidStatus * XLogRecPtr) :=
  let byteno := TransactionIdToByte xid in
  let bshift := TransactionIdToBIndex xid * CLOG_BITS_PER_XACT in
  let* page := deref (zget (page_buffer sh) slotno) in
  let* byte := deref (zget page byteno) in
  let status := Z.land (Z.shiftr byte bshift) CLOG_XACT_BITMASK in
  let* lsn := deref (zget (group_lsn sh) (GetLSNIndex slotno xid)) in
  Ret (status, lsn).

(** The shape of the shared state: [n] slots of 8192 signed bytes. *)
Definition is_s8 (z : Z) : Prop := - 2 ^ 7 <= z < 2 ^ 7.

Record clog_ok (n : Z) (sh : ClogShared) : Prop := {
  clog_slots : zlen (page_buffer sh) = n;
  clog_pages : forall k page, zget (page_buffer sh) k = Some page ->
    zlen page = BLCKSZ /\ forall i b, zget page i = Some b -> is_s8 b;
  clog_lsns : zlen (group_lsn sh) = n * CLOG_LSNS_PER_PAGE
}.

Lemma testbit_s8 z i : i < 8 -> Z.testbit (s8 z) i = Z.testbit z i.
Proof.
  intros Hi. destruct (decide (0 <= i)); [|by rewrite !Z.testbit_neg_r by lia].
  assert (s8 z mod 2 ^ 8 = z mod 2 ^ 8) as E.
  { unfold s8. rewrite Zminus_mod, Zmod_mod, <- Zminus_mod. f_equal. lia. }
  rewrite <- (Z.mod_pow2_bits_low (s8 z) 8), <- (Z.mod_pow2_bits_low z 8) by lia. by rewrite E.
Qed.

Lemma is_s8_s8 z : is_s8 (s8 z).
Proof. unfold is_s8, s8. pose proof (Z.mod_pos_bound (z + 2 ^ 7) (2 ^ 8)). lia. Qed.

(** The two-bit field [k] of a byte. *)
Definition field (b k : Z) : Z := Z.land (Z.shiftr b (k * CLOG_BITS_PER_XACT)) CLOG_XACT_BITMASK.

Definition set_field (b k st : Z) : Z :=
  s8 (Z.lor (s8 (Z.land b (Z.lnot (Z.shiftl (Z.shiftl 1 CLOG_BITS_PER_XACT - 1) (k * CLOG_BITS_PER_XACT)))))
            (Z.shiftl st (k * CLOG_BITS_PER_XACT))).

Lemma testbit_field b k i :
  0 <= k -> 0 <= i -> Z.testbit (field b k) i = (i <? 2) && Z.testbit b (i + 2 * k).
Proof.
  intros Hk Hi. unfold field, CLOG_BITS_PER_XACT. change CLOG_XACT_BITMASK with (Z.ones 2).
  rewrite Z.land_spec, Z.shiftr_spec, Z.testbit_ones_nonneg by lia.
  rewrite andb_comm. f_equal. f_equal. lia.
Qed.

Lemma testbit_set_field b k st i :
  0 <= k < 4 -> 0 <= i < 8 ->
  Z.testbit (set_field b k st) i =
    (Z.testbit b i && negb ((2 * k <=? i) && (i <? 2 * k + 2))) || Z.testbit st (i - 2 * k).
Proof.
  intros Hk Hi. unfold set_field, CLOG_BITS_PER_XACT.
  rewrite testbit_s8, Z.lor_spec, testbit_s8, Z.land_spec, Z.lnot_spec, !Z.shiftl_spec by lia.
  replace (k * 2) with (2 * k) by lia. f_equal. f_equal. f_equal.
  change (Z.shiftl 1 2 - 1) with (Z.ones 2).
  destruct (Z.leb_spec (2 * k) i).
  - rewrite Z.testbit_ones_nonneg by lia. cbn [andb].
    destruct (Z.ltb_spec (i - 2 * k) 2), (Z.ltb_spec i (2 * k + 2)); done || lia.
  - by rewrite Z.testbit_neg_r by lia.
Qed.

Lemma field_set_field b k j st :
  0 <= k < 4 -> 0 <= j < 4 -> is_u 2 st ->
  field (set_field b k st) j = if decide (j = k) then st else field b j.
Proof.
  intros Hk Hj Hst. apply Z.bits_inj'. intros i Hi.
  rewrite testbit_field by lia. destruct (Z.ltb_spec i 2) as [Hlt|Hge]; cbn [andb].
  - rewrite testbit_set_field by lia. case_decide as E.
    + subst j. destruct (Z.leb_spec (2 * k) (i + 2 * k)), (Z.ltb_spec (i + 2 * k) (2 * k + 2)); try lia.
      rewrite andb_false_r. cbn [orb]. f_equal. lia.
    + rewrite testbit_field by lia. destruct (Z.ltb_spec i 2); [|lia]. cbn [andb].
      destruct (decide (i + 2 * j < 2 * k)).
      * rewrite (Z.testbit_neg_r st) by lia. destruct (Z.leb_spec (2 * k) (i + 2 * j)); [lia|].
        cbn [andb negb]. by rewrite andb_true_r, orb_false_r.
      * rewrite (is_u_testbit 2 st) by solve_isu. destruct (Z.ltb_spec (i + 2 * j) (2 * k + 2)); [lia|].
        rewrite andb_false_r. cbn [negb]. by rewrite andb_true_r, orb_false_r.
  - case_decide; [by rewrite (is_u_testbit 2 st) by solve_isu|].
    rewrite testbit_field by lia. by destruct (Z.ltb_spec i 2); [lia|].
Qed.

(** ** Reading and writing one entry *)

(** The changes of status [TransactionIdSetStatusBit] asserts: out of "in
    progress" to anything, out of "subcommitted" to a final status, or none. *)
Definition transition_ok (cur st : XidStatus) : bool :=
  (cur =? TRANSACTION_STATUS_IN_PROGRESS) ||
  ((cur =? TRANSACTION_STATUS_SUB_COMMITTED) && negb (st =? TRANSACTION_STATUS_IN_PROGRESS)) ||
  (cur =? st).

Ltac clog_consts :=
  unfold TransactionIdToByte, TransactionIdToBIndex, TransactionIdToPgIndex, GetLSNIndex in *;
  change CLOG_LSNS_PER_PAGE with 1024 in *; change CLOG_XACTS_PER_PAGE with 32768 in *;
  change CLOG_XACTS_PER_BYTE with 4 in *; change CLOG_XACTS_PER_LSN_GROUP with 32 in *;
  change BLCKSZ with 8192 in *.
Ltac clog_lia := clog_consts; Z.to_euclidean_division_equations; lia.

Lemma byte_range xid : 0 <= TransactionIdToByte xid < BLCKSZ.
Proof. clog_lia. Qed.
Lemma bindex_range xid : 0 <= TransactionIdToBIndex xid < 4.
Proof. clog_lia. Qed.
Lemma lsn_index_range n slotno xid :
  0 <= slotno < n -> 0 <= GetLSNIndex slotno xid < n * CLOG_LSNS_PER_PAGE.
Proof. intros. clog_consts. Z.to_euclidean_division_equations. nia. Qed.
Lemma same_entry xid y :
  TransactionIdToByte xid = TransactionIdToByte y -> TransactionIdToBIndex xid = TransactionIdToBIndex y ->
  TransactionIdToPgIndex xid = TransactionIdToPgIndex y.
Proof. clog_lia. Qed.

Lemma clog_get n sh xid slotno :
  clog_ok n sh -> 0 <= slotno < n ->
  exists page b l, zget (page_buffer sh) slotno = Some page /\
    zget page (TransactionIdToByte xid) = Some b /\
    zget (group_lsn sh) (GetLSNIndex slotno xid) = Some l /\
    clog_get_status sh xid slotno = Ret (field b (TransactionIdToBIndex xid), l).
Proof.
  intros [Hn Hp Hl] Hs.
  destruct (zget_is_Some (page_buffer sh) slotno ltac:(lia)) as [page Ep].
  destruct (Hp slotno page Ep) as [Hlen _]. pose proof (byte_range xid).
  destruct (zget_is_Some page (TransactionIdToByte xid) ltac:(lia)) as [b Eb].
  pose proof (lsn_index_range n slotno xid Hs).
  destruct (zget_is_Some (group_lsn sh) (GetLSNIndex slotno xid) ltac:(lia)) as [l El].
  exists page, b, l. split_and!; [done..|]. unfold clog_get_status. rewrite Ep. cbn [deref cbind].
  rewrite Eb. cbn [deref cbind]. by rewrite El.
Qed.

(** The state after a write: byte and, when the LSN is newer, group LSN. *)
Definition clog_put (sh sh' : ClogShared) (xid st lsn slotno : Z) : Prop :=
  exists page b page' l,
    zget (page_buffer sh) slotno = Some page /\ zget page (TransactionIdToByte xid) = Some b /\
    zset page (TransactionIdToByte xid) (set_field b (TransactionIdToBIndex xid) st) = Some page' /\
    zset (page_buffer sh) slotno page' = Some (page_buffer sh') /\
    zget (group_lsn sh) (GetLSNIndex slotno xid) = Some l /\
    zset (group_lsn sh) (GetLSNIndex slotno xid)
         (if lsn =? InvalidXLogRecPtr then l else Z.max l lsn) = Some (group_lsn sh').

Lemma zset_self {A} (l : list A) i x : zget l i = Some x -> zset l i x = Some l.
Proof.
  intros E. pose proof (zget_Some_lt _ _ _ E) as Hi.
  destruct (zset_is_Some l i x Hi) as [l' E']. rewrite E'. f_equal.
  apply zget_ext; [by apply zset_len in E'|]. intros j _. rewrite (zget_zset _ _ _ _ _ E').
  case_decide; by subst.
Qed.

Lemma set_status_put n sh xid st lsn slotno cur l r :
  clog_ok n sh -> 0 <= slotno < n ->
  clog_get_status sh xid slotno = Ret (cur, l) -> transition_ok cur st = true ->
  (r && (st =? TRANSACTION_STATUS_SUB_COMMITTED) && (cur =? TRANSACTION_STATUS_COMMITTED)) = false ->
  exists sh', TransactionIdSetStatusBit r sh xid st lsn slotno = Ret sh' /\
    clog_put sh sh' xid st lsn slotno.
Proof.
  intros Hok Hs Hg Ht Hr.
  destruct (clog_get n sh xid slotno Hok Hs) as (page & b & l' & Ep & Eb & El & Eg).
  rewrite Hg in Eg. injection Eg as -> ->.
  pose proof (zget_Some_lt _ _ _ Eb) as Hb. pose proof (zget_Some_lt _ _ _ Ep) as Hp.
  destruct (zset_is_Some page _ (set_field b (TransactionIdToBIndex xid) st) Hb) as [page' Epage'].
  destruct (zset_is_Some (page_buffer sh) _ page' Hp) as [pages' Epages'].
  unfold TransactionIdSetStatusBit. rewrite Ep. cbn [deref cbind]. rewrite Eb. cbn [deref cbind].
  fold (field b (TransactionIdToBIndex xid)). rewrite Hr. unfold transition_ok in Ht.
  change (field b (TransactionIdToBIndex xid) =? 0)
    with (field b (TransactionIdToBIndex xid) =? TRANSACTION_STATUS_IN_PROGRESS).
  rewrite Ht. cbn [c_assert cbind]. fold (set_field b (TransactionIdToBIndex xid) st).
  rewrite Epage'. cbn [deref cbind]. rewrite Epages'. cbn [deref cbind].
  unfold clog_put. rewrite El.
  pose proof (zset_self (group_lsn sh) _ l' El) as Eself.
  destruct (Z.eqb_spec lsn InvalidXLogRecPtr); cbn [negb].
  - eexists. split; [done|]. eexists page, b, page', l'. by split_and!.
  - cbn [deref cbind]. destruct (Z.ltb_spec l' lsn).
    + destruct (zset_is_Some (group_lsn sh) _ lsn (zget_Some_lt _ _ _ El)) as [lsns Els].
      rewrite Els. cbn [deref cbind]. eexists. split; [done|]. eexists page, b, page', l'.
      rewrite Z.max_r by lia. by split_and!.
    + eexists. split; [done|]. eexists page, b, page', l'. rewrite Z.max_l by lia. by split_and!.
Qed.

Lemma clog_put_ok n sh sh' xid st lsn slotno :
  clog_ok n sh -> clog_put sh sh' xid st lsn slotno -> clog_ok n sh'.
Proof.
  intros [Hn Hp Hl] (page & b & page' & l & Ep & Eb & Epage' & Epages' & El & Els).
  constructor.
  - by rewrite (zset_len _ _ _ _ Epages').
  - intros k pg. rewrite (zget_zset _ _ _ _ _ Epages'). case_decide as E; [|apply Hp].
    intros [= <-]. destruct (Hp slotno page Ep) as [Hlen Hb].
    split; [by rewrite (zset_len _ _ _ _ Epage')|].
    intros i x. rewrite (zget_zset _ _ _ _ _ Epage'). case_decide; [|apply Hb].
    intros [= <-]. apply is_s8_s8.
  - by rewrite (zset_len _ _ _ _ Els).
Qed.

(** What a write does to the status and the LSN read at any entry. *)
Lemma clog_put_get n sh sh' xid st lsn slotno y slot' cur l :
  clog_ok n sh -> 0 <= slotno < n -> 0 <= slot' < n -> is_u 2 st ->
  clog_put sh sh' xid st lsn slotno ->
  clog_get_status sh y slot' = Ret (cur, l) ->
  clog_get_status sh' y slot' = Ret
    (if decide (slot' = slotno /\ TransactionIdToPgIndex y = TransactionIdToPgIndex xid) then st else cur,
     if decide (GetLSNIndex slot' y = GetLSNIndex slotno xid)
     then if lsn =? InvalidXLogRecPtr then l else Z.max l lsn else l).
Proof.
  intros Hok Hs Hs' Hst Hput Hg.
  destruct (clog_get n sh' y slot' (clog_put_ok _ _ _ _ _ _ _ Hok Hput) Hs')
    as (pg2 & b2 & l2 & Ep2 & Eb2 & El2 & ->).
  destruct (clog_get n sh y slot' Hok Hs') as (pg1 & b1 & l1 & Ep1 & Eb1 & El1 & Eg).
  rewrite Hg in Eg. injection Eg as -> ->.
  destruct Hput as (page & b & page' & l0 & Ep & Eb & Epage' & Epages' & El & Els).
  rewrite (zget_zset _ _ _ _ _ Epages') in Ep2. rewrite (zget_zset _ _ _ _ _ Els) in El2.
  f_equal. f_equal.
  - destruct (decide (slot' = slotno)) as [->|Hne].
    + injection Ep2 as ->. rewrite Ep in Ep1. injection Ep1 as ->.
      rewrite (zget_zset _ _ _ _ _ Epage') in Eb2.
      destruct (decide (TransactionIdToByte y = TransactionIdToByte xid)) as [Ey|Ey].
      * injection Eb2 as <-. rewrite Ey, Eb in Eb1. injection Eb1 as ->.
        rewrite field_set_field by (apply bindex_range || done).
        destruct (decide (TransactionIdToBIndex y = TransactionIdToBIndex xid)) as [Eb'|Eb'].
        -- by rewrite decide_True by (split; [done|by apply same_entry]).
        -- rewrite decide_False; [done|]. intros [_ E]. apply Eb'. clear - E. clog_lia.
      * rewrite Eb1 in Eb2. injection Eb2 as ->. rewrite decide_False; [done|].
        intros [_ E]. apply Ey. unfold TransactionIdToByte. by rewrite E.
    + rewrite Ep1 in Ep2. injection Ep2 as ->. rewrite Eb1 in Eb2. injection Eb2 as ->.
      by rewrite decide_False by tauto.
  - destruct (decide (GetLSNIndex slot' y = GetLSNIndex slotno xid)) as [E|E].
    + injection El2 as <-. rewrite E, El in El1. by injection El1 as ->.
    + rewrite El1 in El2. by injection El2 as ->.
Qed.

(** The commit log as a map from transactions to statuses.  Where the
    asserted state machine allows the change, [TransactionIdSetStatusBit]
    stores the status of its transaction and of no other (the neighbours share
    its byte), raises the commit LSN of the transaction's group to the given
    one if that is newer and of no other group, and keeps the page's shape.
    Where it does not, the assertion fails, except that replay ignores a
    subcommit that comes after the commit. *)
Theorem clog_set_status_spec (n : Z) sh xid st lsn slotno r cur l :
  clog_ok n sh -> 0 <= slotno < n -> is_u 2 st ->
  clog_get_status sh xid slotno = Ret (cur, l) ->
  let replayed := r && (st =? TRANSACTION_STATUS_SUB_COMMITTED) && (cur =? TRANSACTION_STATUS_COMMITTED) in
  (replayed = true -> TransactionIdSetStatusBit r sh xid st lsn slotno = Ret sh) /\
  (replayed = false -> transition_ok cur st = false ->
     TransactionIdSetStatusBit r sh xid st lsn slotno = Undef) /\
  (replayed = false -> transition_ok cur st = true ->
     exists sh', TransactionIdSetStatusBit r sh xid st lsn slotno = Ret sh' /\ clog_ok n sh' /\
       forall y slot' c k, 0 <= slot' < n -> clog_get_status sh y slot' = Ret (c, k) ->
         clog_get_status sh' y slot' = Ret
           (if decide (slot' = slotno /\ TransactionIdToPgIndex y = TransactionIdToPgIndex xid) then st else c,
            if decide (GetLSNIndex slot' y = GetLSNIndex slotno xid)
            then if lsn =? InvalidXLogRecPtr then k else Z.max k lsn else k)).
Proof.
  intros Hok Hs Hst Hg replayed. split_and!.
  - intros Hr. destruct (clog_get n sh xid slotno Hok Hs) as (page & b & l' & Ep & Eb & El & Eg).
    rewrite Hg in Eg. injection Eg as -> ->. unfold TransactionIdSetStatusBit.
    rewrite Ep. cbn [deref cbind]. rewrite Eb. cbn [deref cbind].
    fold (field b (TransactionIdToBIndex xid)). fold replayed. by rewrite Hr.
  - intros Hr Ht. destruct (clog_get n sh xid slotno Hok Hs) as (page & b & l' & Ep & Eb & El & Eg).
    rewrite Hg in Eg. injection Eg as -> ->. unfold TransactionIdSetStatusBit.
    rewrite Ep. cbn [deref cbind]. rewrite Eb. cbn [deref cbind].
    fold (field b (TransactionIdToBIndex xid)). fold replayed. rewrite Hr.
    unfold transition_ok, TRANSACTION_STATUS_IN_PROGRESS in *. by rewrite Ht.
  - intros Hr Ht. destruct (set_status_put n sh xid st lsn slotno cur l r Hok Hs Hg Ht Hr) as (sh' & E & Hput).
    exists sh'. split_and!; [done|by eapply clog_put_ok|].
    intros y slot' c k Hs' Hy. by eapply clog_put_get.
Qed.

Definition fresh_clog : ClogShared :=
  {| page_buffer := [replicate (Z.to_nat BLCKSZ) 0];
     group_lsn := replicate (Z.to_nat CLOG_LSNS_PER_PAGE) 0 |}.

Lemma fresh_clog_ok : clog_ok 1 fresh_clog.
Proof.
  constructor; [done| |by unfold fresh_clog, zlen; cbn [group_lsn]; rewrite length_replicate].
  intros k page. cbn [page_buffer fresh_clog]. intros Hk.
  assert (k = 0) as -> by (apply zget_Some_lt in Hk; unfold zlen in Hk; cbn in Hk; lia).
  assert (page = replicate (Z.to_nat BLCKSZ) 0) as -> by (symmetry; exact (Some_inj _ _ Hk)). unfold zlen. rewrite length_replicate. split; [done|].
  unfold zget. intros i b. destruct (i <? 0); [done|].
  intros [-> _]%lookup_replicate. unfold is_s8. lia.
Qed.

Lemma clog_set_status_spec_witness :
  exists sh', TransactionIdSetStatusBit false fresh_clog 6 TRANSACTION_STATUS_COMMITTED 77 0 = Ret sh' /\
    clog_ok 1 sh' /\ clog_get_status sh' 6 0 = Ret (TRANSACTION_STATUS_COMMITTED, 77) /\
    clog_get_status sh' 5 0 = Ret (TRANSACTION_STATUS_IN_PROGRESS, 77) /\
    clog_get_status sh' 40 0 = Ret (TRANSACTION_STATUS_IN_PROGRESS, 0).
Proof.
  destruct (clog_set_status_spec 1 fresh_clog 6 TRANSACTION_STATUS_COMMITTED 77 0 false 0 0
              fresh_clog_ok ltac:(lia) ltac:(split; [done|reflexivity])
              ltac:(vm_compute; reflexivity)) as (_ & _ & H).
  destruct (H eq_refl eq_refl) as (sh' & E & Hok & Hget). exists sh'.
  split_and!; [done|done|..].
  - rewrite (Hget 6 0 0 0) by (lia || (vm_compute; reflexivity)). vm_compute. reflexivity.
  - rewrite (Hget 5 0 0 0) by (lia || (vm_compute; reflexivity)). vm_compute. reflexivity.
  - rewrite (Hget 40 0 0 0) by (lia || (vm_compute; reflexivity)). vm_compute. reflexivity.
Defined.
