(* ===== verification/HeapTuple.v ===== *)
(** The tuple header of the heap ([htup_details.h]) and the command ids stored
    in it ([combocid.c]).

    [HeapTupleHeader] has the fields visibility depends on: the inserting and
    deleting transaction ids, the field shared by the command id and the id of
    an old-style VACUUM, the item pointer and the flag word [t_infomask]. *)
From stdpp Require Import gmap.
From S2P Require Import Prelude Transam.

Abbreviation CommandId := Z (only parsing).
Abbreviation MultiXactId := Z (only parsing).

Record ItemPointerData := { ip_blkid : Z; ip_posid : Z }.

Record HeapTupleHeader := {
  t_xmin : TransactionId;
  t_xmax : TransactionId;   (* or a MultiXactId *)
  t_field3 : Z;             (* t_cid or t_xvac *)
  t_ctid : ItemPointerData;
  t_infomask : Z
}.

Record HeapTuple := {
  t_self : ItemPointerData;
  t_tableOid : Z;
  t_data : HeapTupleHeader
}.

Definition set_infomask (h : HeapTupleHeader) (m : Z) : HeapTupleHeader :=
  {| t_xmin := t_xmin h; t_xmax := t_xmax h; t_field3 := t_field3 h;
     t_ctid := t_ctid h; t_infomask := m |}.

(** ** Flags *)

Definition HEAP_XMAX_KEYSHR_LOCK : Z := 0x0010.
Definition HEAP_COMBOCID : Z := 0x0020.
Definition HEAP_XMAX_EXCL_LOCK : Z := 0x0040.
Definition HEAP_XMAX_LOCK_ONLY : Z := 0x0080.
Definition HEAP_XMAX_SHR_LOCK : Z := Z.lor HEAP_XMAX_EXCL_LOCK HEAP_XMAX_KEYSHR_LOCK.
Definition HEAP_LOCK_MASK : Z :=
  Z.lor (Z.lor HEAP_XMAX_SHR_LOCK HEAP_XMAX_EXCL_LOCK) HEAP_XMAX_KEYSHR_LOCK.
Definition HEAP_XMIN_COMMITTED : Z := 0x0100.
Definition HEAP_XMIN_INVALID : Z := 0x0200.
Definition HEAP_XMIN_FROZEN : Z := Z.lor HEAP_XMIN_COMMITTED HEAP_XMIN_INVALID.
Definition HEAP_XMAX_COMMITTED : Z := 0x0400.
Definition HEAP_XMAX_INVALID : Z := 0x0800.
Definition HEAP_XMAX_IS_MULTI : Z := 0x1000.
Definition HEAP_MOVED_OFF : Z := 0x4000.
Definition HEAP_MOVED_IN : Z := 0x8000.
Definition HEAP_MOVED : Z := Z.lor HEAP_MOVED_OFF HEAP_MOVED_IN.

(** [if (infomask & flag)]. *)
Definition has (infomask flag : Z) : bool := negb (Z.land infomask flag =? 0).

Definition HEAP_XMAX_IS_LOCKED_ONLY (infomask : Z) : bool :=
  has infomask HEAP_XMAX_LOCK_ONLY ||
  (Z.land infomask (Z.lor HEAP_XMAX_IS_MULTI HEAP_LOCK_MASK) =? HEAP_XMAX_EXCL_LOCK).

Definition HEAP_LOCKED_UPGRADED (infomask : Z) : bool :=
  has infomask HEAP_XMAX_IS_MULTI && has infomask HEAP_XMAX_LOCK_ONLY &&
  (Z.land infomask (Z.lor HEAP_XMAX_EXCL_LOCK HEAP_XMAX_KEYSHR_LOCK) =? 0).

Definition HeapTupleHeaderXminCommitted (tup : HeapTupleHeader) : bool :=
  has (t_infomask tup) HEAP_XMIN_COMMITTED.
Definition HeapTupleHeaderXminInvalid (tup : HeapTupleHeader) : bool :=
  Z.land (t_infomask tup) (Z.lor HEAP_XMIN_COMMITTED HEAP_XMIN_INVALID) =? HEAP_XMIN_INVALID.
Definition HeapTupleHeaderXminFrozen (tup : HeapTupleHeader) : bool :=
  Z.land (t_infomask tup) HEAP_XMIN_FROZEN =? HEAP_XMIN_FROZEN.

Definition HeapTupleHeaderGetRawXmin (tup : HeapTupleHeader) : TransactionId := t_xmin tup.
Definition HeapTupleHeaderGetXmin (tup : HeapTupleHeader) : TransactionId :=
  if HeapTupleHeaderXminFrozen tup then FrozenTransactionId else HeapTupleHeaderGetRawXmin tup.
Definition HeapTupleHeaderGetRawXmax (tup : HeapTupleHeader) : TransactionId := t_xmax tup.
Definition HeapTupleHeaderGetRawCommandId (tup : HeapTupleHeader) : CommandId := t_field3 tup.
Definition HeapTupleHeaderGetXvac (tup : HeapTupleHeader) : TransactionId :=
  if has (t_infomask tup) HEAP_MOVED then t_field3 tup else InvalidTransactionId.

Definition ItemPointerIsValid (p : ItemPointerData) : bool := negb (ip_posid p =? 0).
Definition SpecTokenOffsetNumber : Z := 0xfffe.
Definition HeapTupleHeaderIsSpeculative (tup : HeapTupleHeader) : bool :=
  ip_posid (t_ctid tup) =? SpecTokenOffsetNumber.
Definition HeapTupleHeaderGetSpeculativeToken (tup : HeapTupleHeader) : cres Z :=
  c_assert (HeapTupleHeaderIsSpeculative tup) ;;
  c_assert (ItemPointerIsValid (t_ctid tup)) ;;
  Ret (ip_blkid (t_ctid tup)).

(** ** Flags as bits *)

Lemma land_pow2_r m k : 0 <= k -> Z.land m (2 ^ k) = if Z.testbit m k then 2 ^ k else 0.
Proof.
  intros Hk. apply Z.bits_inj'. intros i Hi. rewrite Z.land_spec, Z.pow2_bits_eqb by done.
  destruct (Z.eqb_spec k i) as [->|Hne].
  - destruct (Z.testbit m i) eqn:E; cbn [andb]; [by rewrite Z.pow2_bits_eqb, Z.eqb_refl|by rewrite Z.bits_0].
  - rewrite andb_false_r. destruct (Z.testbit m k); [|by rewrite Z.bits_0].
    rewrite Z.pow2_bits_eqb by done. symmetry. by apply Z.eqb_neq.
Qed.

Lemma has_bit m k : 0 <= k -> has m (2 ^ k) = Z.testbit m k.
Proof.
  intros Hk. unfold has. rewrite land_pow2_r by done.
  destruct (Z.testbit m k); [|done]. destruct (Z.eqb_spec (2 ^ k) 0); [lia|done].
Qed.

Lemma locked_only_bits m :
  HEAP_XMAX_IS_LOCKED_ONLY m =
    Z.testbit m 7 || (negb (Z.testbit m 12) && Z.testbit m 6 && negb (Z.testbit m 4)).
Proof.
  unfold HEAP_XMAX_IS_LOCKED_ONLY. change HEAP_XMAX_LOCK_ONLY with (2 ^ 7). rewrite has_bit by done.
  change (Z.lor HEAP_XMAX_IS_MULTI HEAP_LOCK_MASK) with (Z.lor (2 ^ 12) (Z.lor (2 ^ 6) (2 ^ 4))).
  rewrite !Z.land_lor_distr_r, !land_pow2_r by done.
  by destruct (Z.testbit m 12), (Z.testbit m 6), (Z.testbit m 4).
Qed.

Lemma locked_upgraded_bits m :
  HEAP_LOCKED_UPGRADED m =
    Z.testbit m 12 && Z.testbit m 7 && negb (Z.testbit m 6) && negb (Z.testbit m 4).
Proof.
  unfold HEAP_LOCKED_UPGRADED. change HEAP_XMAX_LOCK_ONLY with (2 ^ 7).
  change HEAP_XMAX_IS_MULTI with (2 ^ 12). rewrite !has_bit by done.
  change (Z.lor HEAP_XMAX_EXCL_LOCK HEAP_XMAX_KEYSHR_LOCK) with (Z.lor (2 ^ 6) (2 ^ 4)).
  rewrite !Z.land_lor_distr_r, !land_pow2_r by done.
  by destruct (Z.testbit m 12), (Z.testbit m 7), (Z.testbit m 6), (Z.testbit m 4).
Qed.

Lemma xmin_committed_bits h : HeapTupleHeaderXminCommitted h = Z.testbit (t_infomask h) 8.
Proof. by apply (has_bit _ 8). Qed.

Lemma xmin_invalid_bits h :
  HeapTupleHeaderXminInvalid h = negb (Z.testbit (t_infomask h) 8) && Z.testbit (t_infomask h) 9.
Proof.
  unfold HeapTupleHeaderXminInvalid.
  change (Z.lor HEAP_XMIN_COMMITTED HEAP_XMIN_INVALID) with (Z.lor (2 ^ 8) (2 ^ 9)).
  rewrite !Z.land_lor_distr_r, !land_pow2_r by done.
  by destruct (Z.testbit (t_infomask h) 8), (Z.testbit (t_infomask h) 9).
Qed.

Lemma xmin_frozen_bits h :
  HeapTupleHeaderXminFrozen h = Z.testbit (t_infomask h) 8 && Z.testbit (t_infomask h) 9.
Proof.
  unfold HeapTupleHeaderXminFrozen. change HEAP_XMIN_FROZEN with (Z.lor (2 ^ 8) (2 ^ 9)).
  rewrite !Z.land_lor_distr_r, !land_pow2_r by done.
  by destruct (Z.testbit (t_infomask h) 8), (Z.testbit (t_infomask h) 9).
Qed.

Lemma moved_bits m : has m HEAP_MOVED = Z.testbit m 14 || Z.testbit m 15.
Proof.
  unfold has. change HEAP_MOVED with (Z.lor (2 ^ 14) (2 ^ 15)).
  rewrite !Z.land_lor_distr_r, !land_pow2_r by done. by destruct (Z.testbit m 14), (Z.testbit m 15).
Qed.

Lemma has_combocid m : has m HEAP_COMBOCID = Z.testbit m 5.
Proof. by apply (has_bit _ 5). Qed.
Lemma has_lock_only m : has m HEAP_XMAX_LOCK_ONLY = Z.testbit m 7.
Proof. by apply (has_bit _ 7). Qed.
Lemma has_xmax_committed m : has m HEAP_XMAX_COMMITTED = Z.testbit m 10.
Proof. by apply (has_bit _ 10). Qed.
Lemma has_xmax_invalid m : has m HEAP_XMAX_INVALID = Z.testbit m 11.
Proof. by apply (has_bit _ 11). Qed.
Lemma has_multi m : has m HEAP_XMAX_IS_MULTI = Z.testbit m 12.
Proof. by apply (has_bit _ 12). Qed.
Lemma has_moved_off m : has m HEAP_MOVED_OFF = Z.testbit m 14.
Proof. by apply (has_bit _ 14). Qed.
Lemma has_moved_in m : has m HEAP_MOVED_IN = Z.testbit m 15.
Proof. by apply (has_bit _ 15). Qed.

Create Rewrite HintDb infomask.
#[export] Hint Rewrite xmin_committed_bits xmin_invalid_bits xmin_frozen_bits locked_only_bits
  locked_upgraded_bits moved_bits has_combocid has_lock_only has_xmax_committed has_xmax_invalid
  has_multi has_moved_off has_moved_in : infomask.
