(* ===== verification/Combocid.v ===== *)
(** Combo command ids ([combocid.c]): when a transaction deletes a row it
    inserted itself, the one command-id field of the tuple has to stand for
    both the inserting and the deleting command.  The backend keeps the pairs
    in an array indexed by the combo id, with a hash table from pairs to ids.

    The hash table is a finite map; the array has [sizeComboCids] cells of
    which the first [usedComboCids] are in use. *)
From stdpp Require Import gmap.
From S2P Require Import Prelude Transam HeapTuple.

Record ComboState := {
  comboHash : option (gmap (CommandId * CommandId) CommandId);
  comboCids : list (CommandId * CommandId);
  usedComboCids : Z;
  sizeComboCids : Z
}.

Definition CCID_ARRAY_SIZE : Z := 100.

(** The state at transaction start, and after [AtEOXact_ComboCid]. *)
Definition AtEOXact_ComboCid : ComboState :=
  {| comboHash := None; comboCids := []; usedComboCids := 0; sizeComboCids := 0 |}.

(** Uninitialised memory of the array; nothing reads it. *)
Definition fresh_cells (n : Z) : list (CommandId * CommandId) := replicate (Z.to_nat n) (0, 0).

(** The first use in a transaction: [palloc] the array, create the table. *)
Definition combo_init (st : ComboState) : ComboState * gmap (CommandId * CommandId) CommandId :=
  match comboHash st with
  | Some h => (st, h)
  | None => ({| comboHash := Some ∅; comboCids := fresh_cells CCID_ARRAY_SIZE;
                usedComboCids := 0; sizeComboCids := CCID_ARRAY_SIZE |}, ∅)
  end.

(** [repalloc] to twice the size when there is no free slot. *)
Definition combo_grow (st : ComboState) : ComboState :=
  if sizeComboCids st <=? usedComboCids st then
    let newsize := sizeComboCids st * 2 in
    {| comboHash := comboHash st;
       comboCids := comboCids st ++ fresh_cells (newsize - sizeComboCids st);
       usedComboCids := usedComboCids st; sizeComboCids := newsize |}
  else st.

Definition GetComboCommandId (st : ComboState) (cmin cmax : CommandId) : cres (CommandId * ComboState) :=
  let '(st, hash) := combo_init st in
  let st := combo_grow st in
  match hash !! (cmin, cmax) with
  | Some combocid => Ret (combocid, st)
  | None =>
      let combocid := usedComboCids st in
      let* cids := deref (zset (comboCids st) combocid (cmin, cmax)) in
      Ret (combocid,
           {| comboHash := Some (<[(cmin, cmax) := combocid]> hash); comboCids := cids;
              usedComboCids := usedComboCids st + 1; sizeComboCids := sizeComboCids st |})
  end.

Definition GetRealCmin (st : ComboState) (combocid : CommandId) : cres CommandId :=
  c_assert (combocid <? usedComboCids st) ;;
  let* p := deref (zget (comboCids st) combocid) in Ret p.1.

Definition GetRealCmax (st : ComboState) (combocid : CommandId) : cres CommandId :=
  c_assert (combocid <? usedComboCids st) ;;
  let* p := deref (zget (comboCids st) combocid) in Ret p.2.

(** The serialized form, as 32-bit words: the count, then the pairs. *)
Definition EstimateComboCIDStateSpace (st : ComboState) : Z := 4 + 8 * usedComboCids st.

Fixpoint flatten (l : list (CommandId * CommandId)) : list Z :=
  match l with [] => [] | (a, b) :: l => a :: b :: flatten l end.

Definition SerializeComboCIDState (st : ComboState) (maxsize : Z) : cres (list Z) :=
  if maxsize <? 4 + 8 * usedComboCids st
  then Elog "not enough space to serialize ComboCID state"
  else Ret (usedComboCids st :: flatten (take (Z.to_nat (usedComboCids st)) (comboCids st))).

(** [for (i = 0; i < num_elements; i++)] over the words after the count. *)
Fixpoint restore_loop (num_elements : nat) (i : Z) (words : list Z) (st : ComboState) : cres ComboState :=
  match num_elements with
  | O => Ret st
  | S n =>
      match words with
      | cmin :: cmax :: words =>
          let* (cid, st) := GetComboCommandId st cmin cmax in
          if negb (cid =? i) then Elog "unexpected command ID while restoring combo CIDs"
          else restore_loop n (i + 1) words st
      | _ => Undef
      end
  end.

Definition RestoreComboCIDState (st : ComboState) (words : list Z) : cres ComboState :=
  c_assert (match comboCids st, comboHash st with [], None => true | _, _ => false end) ;;
  match words with
  | num_elements :: keydata => restore_loop (Z.to_nat num_elements) 0 keydata st
  | [] => Undef
  end.

(** ** Invariant: hash table and array agree, no pair occurs twice *)

Definition used_pairs (st : ComboState) : list (CommandId * CommandId) :=
  take (Z.to_nat (usedComboCids st)) (comboCids st).

Record combo_ok (st : ComboState) : Prop := {
  combo_size : zlen (comboCids st) = sizeComboCids st;
  combo_used : 0 <= usedComboCids st <= sizeComboCids st;
  combo_hash : forall h, comboHash st = Some h -> 0 < sizeComboCids st /\
    forall p i, h !! p = Some i <-> 0 <= i < usedComboCids st /\ zget (comboCids st) i = Some p;
  combo_none : comboHash st = None -> usedComboCids st = 0
}.

Lemma zlen_fresh n : 0 <= n -> zlen (fresh_cells n) = n.
Proof. intros. unfold zlen, fresh_cells. rewrite length_replicate. lia. Qed.

Lemma combo_init_ok st : combo_ok st ->
  let '(st', h) := combo_init st in
  combo_ok st' /\ comboHash st' = Some h /\ usedComboCids st' = usedComboCids st /\
  forall i, 0 <= i < usedComboCids st -> zget (comboCids st') i = zget (comboCids st) i.
Proof.
  intros Hok. unfold combo_init. destruct (comboHash st) as [h|] eqn:E; [done|].
  pose proof (combo_none st Hok E) as H0. split_and!; [|done|done|lia].
  constructor; cbn.
  - by apply zlen_fresh.
  - done.
  - intros h [= <-]. split; [done|]. intros p i. rewrite lookup_empty. split; [done|]. lia.
  - done.
Qed.

Lemma combo_grow_ok st h : combo_ok st -> comboHash st = Some h ->
  let st' := combo_grow st in
  combo_ok st' /\ comboHash st' = Some h /\ usedComboCids st' = usedComboCids st /\
  usedComboCids st' < sizeComboCids st' /\
  forall i, 0 <= i < usedComboCids st -> zget (comboCids st') i = zget (comboCids st) i.
Proof.
  intros Hok E. destruct (combo_hash st Hok h E) as [Hpos Hh].
  destruct Hok as [Hsz Hu _ _]. unfold combo_grow.
  destruct (Z.leb_spec (sizeComboCids st) (usedComboCids st)) as [Hle|Hgt].
  - assert (forall i, 0 <= i < usedComboCids st ->
      zget (comboCids st ++ fresh_cells (sizeComboCids st * 2 - sizeComboCids st)) i = zget (comboCids st) i)
      as Hget by (intros i Hi; apply zget_app_l; lia).
    cbn. split_and!; [|done|done|lia|done]. constructor; cbn.
    + unfold zlen in *. rewrite length_app, Nat2Z.inj_add. pose proof (zlen_fresh (sizeComboCids st * 2 - sizeComboCids st)).
      unfold zlen in *. lia.
    + lia.
    + intros h' E'. rewrite E in E'. injection E' as <-. split; [lia|]. intros p i. rewrite Hh.
      split; intros [Hi Hg]; (split; [done|]); by rewrite Hget in *.
    + congruence.
  - split_and!; [|done|done|done|done]. constructor; try done.
    + intros h' E'. rewrite E in E'. by injection E' as <-.
    + congruence.
Qed.

Lemma get_combo_spec st cmin cmax : combo_ok st ->
  exists id st', GetComboCommandId st cmin cmax = Ret (id, st') /\ combo_ok st' /\
    0 <= id < usedComboCids st' /\ zget (comboCids st') id = Some (cmin, cmax) /\
    (forall i, 0 <= i < usedComboCids st -> zget (comboCids st') i = zget (comboCids st) i) /\
    ((id < usedComboCids st /\ usedComboCids st' = usedComboCids st) \/
     (id = usedComboCids st /\ usedComboCids st' = usedComboCids st + 1 /\
      forall i, 0 <= i < usedComboCids st -> zget (comboCids st) i <> Some (cmin, cmax))).
Proof.
  intros Hok. unfold GetComboCommandId. pose proof (combo_init_ok st Hok) as H1.
  destruct (combo_init st) as [st1 h]. destruct H1 as (Hok1 & E1 & U1 & G1).
  pose proof (combo_grow_ok st1 h Hok1 E1) as H2. cbn zeta in H2. set (st2 := combo_grow st1) in *.
  destruct H2 as (Hok2 & E2 & U2 & L2 & G2).
  assert (forall i, 0 <= i < usedComboCids st -> zget (comboCids st2) i = zget (comboCids st) i) as G
    by (intros i Hi; rewrite G2, G1; [done|lia|lia]).
  destruct (combo_hash st2 Hok2 h E2) as [Hpos Hh].
  destruct (h !! (cmin, cmax)) as [id|] eqn:Eh.
  - pose proof (proj1 (Hh _ _) Eh) as [Hid Hg]. exists id, st2.
    split_and!; [done|done|lia|lia|done|done|]. left. lia.
  - destruct Hok2 as [Hsz Hu _ _].
    destruct (zset_is_Some (comboCids st2) (usedComboCids st2) (cmin, cmax) ltac:(lia)) as [cids Ec].
    rewrite Ec. cbn [deref cbind]. eexists _, _. split; [done|]. cbn.
    assert (forall i, 0 <= i < usedComboCids st2 -> zget cids i = zget (comboCids st2) i) as Gc.
    { intros i Hi. rewrite (zget_zset _ _ _ _ _ Ec). by rewrite decide_False by lia. }
    assert (zget cids (usedComboCids st2) = Some (cmin, cmax)) as Gn.
    { rewrite (zget_zset _ _ _ _ _ Ec). by rewrite decide_True. }
    split_and!; [|lia|lia|done| |right; split_and!; [lia|lia|]].
    + constructor; cbn; [by rewrite (zset_len _ _ _ _ Ec)|lia| |done].
      intros h' [= <-]. split; [done|]. intros p i.
      destruct (decide (p = (cmin, cmax))) as [->|Hne].
      * rewrite lookup_insert_eq. split; [intros [= <-]; split; [lia|done]|].
        intros [Hi Hg]. destruct (decide (i = usedComboCids st2)) as [->|]; [done|].
        rewrite Gc in Hg by lia. assert (h !! (cmin, cmax) = Some i) by (apply Hh; split; [lia|done]). congruence.
      * rewrite lookup_insert_ne by done. rewrite Hh. split.
        -- intros [Hi Hg]. rewrite Gc by lia. split; [lia|done].
        -- intros [Hi Hg]. destruct (decide (i = usedComboCids st2)) as [->|]; [congruence|].
           rewrite Gc in Hg by lia. split; [lia|done].
    + intros i Hi. rewrite Gc by lia. by apply G.
    + intros i Hi Hg. rewrite <- G in Hg by done.
      assert (h !! (cmin, cmax) = Some i) by (apply Hh; split; [lia|done]). congruence.
Qed.

Lemma get_real_spec st i p : 0 <= i < usedComboCids st -> zget (comboCids st) i = Some p ->
  GetRealCmin st i = Ret p.1 /\ GetRealCmax st i = Ret p.2.
Proof.
  intros Hi Hg. unfold GetRealCmin, GetRealCmax. destruct (Z.ltb_spec i (usedComboCids st)); [|lia].
  by rewrite Hg.
Qed.

(** C40. [GetComboCommandId] returns an id from which [GetRealCmin] and
    [GetRealCmax] give back exactly the pair it was asked for, with any number
    of ids before and after it: ids handed out earlier keep their meaning, a
    pair seen before gets the id it had, and a new pair gets the next id. *)
Theorem combo_command_id_roundtrip st cmin cmax : combo_ok st ->
  exists id st', GetComboCommandId st cmin cmax = Ret (id, st') /\ combo_ok st' /\
    GetRealCmin st' id = Ret cmin /\ GetRealCmax st' id = Ret cmax /\
    (forall i, 0 <= i < usedComboCids st ->
       GetRealCmin st' i = GetRealCmin st i /\ GetRealCmax st' i = GetRealCmax st i) /\
    (forall i, 0 <= i < usedComboCids st ->
       GetRealCmin st i = Ret cmin -> GetRealCmax st i = Ret cmax ->
       id = i /\ usedComboCids st' = usedComboCids st) /\
    usedComboCids st <= usedComboCids st' <= usedComboCids st + 1.
Proof.
  intros Hok. destruct (get_combo_spec st cmin cmax Hok) as (id & st' & E & Hok' & Hid & Hg & Hold & Hnew).
  destruct (get_real_spec st' id _ Hid Hg) as [Emin Emax].
  exists id, st'. split_and!; [done..| | |lia|lia].
  - intros i Hi. destruct (zget_is_Some (comboCids st) i) as [p Hp]; [destruct Hok; lia|].
    destruct (get_real_spec st i p Hi Hp) as [-> ->]. apply get_real_spec; [lia|]. by rewrite Hold.
  - intros i Hi Hmin Hmax. destruct (zget_is_Some (comboCids st) i) as [p Hp]; [destruct Hok; lia|].
    destruct (get_real_spec st i p Hi Hp) as [E1 E2]. rewrite Hmin in E1. rewrite Hmax in E2.
    injection E1 as ->. injection E2 as ->. destruct Hnew as [[Hl Hu]|(-> & Hu & Hno)].
    + split; [|done]. destruct (comboHash st') as [h|] eqn:Eh.
      * destruct (combo_hash st' Hok' h Eh) as [_ Hh].
        assert (h !! (p.1, p.2) = Some id) by by apply Hh.
        assert (h !! (p.1, p.2) = Some i) by (apply Hh; rewrite Hold, Hp by done; destruct p; split; [lia|done]).
        congruence.
      * pose proof (combo_none st' Hok' Eh). lia.
    + destruct (Hno i Hi). rewrite Hp. by destruct p.
Qed.

Lemma empty_combo_ok : combo_ok AtEOXact_ComboCid.
Proof. by constructor. Qed.

Lemma combo_command_id_roundtrip_witness :
  exists id st', GetComboCommandId AtEOXact_ComboCid 3 5 = Ret (id, st') /\ combo_ok st' /\
    GetRealCmin st' id = Ret 3 /\ GetRealCmax st' id = Ret 5.
Proof.
  destruct (combo_command_id_roundtrip AtEOXact_ComboCid 3 5 empty_combo_ok)
    as (id & st' & E & Hok & Emin & Emax & _).
  exists id, st'. by split_and!.
Defined.

Lemma combo_distinct st i j p : combo_ok st -> 0 <= i < usedComboCids st -> 0 <= j < usedComboCids st ->
  zget (comboCids st) i = Some p -> zget (comboCids st) j = Some p -> i = j.
Proof.
  intros Hok Hi Hj Gi Gj. destruct (comboHash st) as [h|] eqn:Eh.
  - destruct (combo_hash st Hok h Eh) as [_ Hh].
    assert (h !! p = Some i) by by apply Hh. assert (h !! p = Some j) by by apply Hh. congruence.
  - pose proof (combo_none st Hok Eh). lia.
Qed.

(** Restoring continues a state that already holds the first [k] pairs. *)
Lemma restore_loop_spec st n k (st1 : ComboState) :
  combo_ok st -> combo_ok st1 -> usedComboCids st1 = k -> k + Z.of_nat n = usedComboCids st ->
  (forall i, 0 <= i < k -> zget (comboCids st1) i = zget (comboCids st) i) ->
  exists st', restore_loop n k (flatten (drop (Z.to_nat k) (used_pairs st))) st1 = Ret st' /\
    combo_ok st' /\ usedComboCids st' = usedComboCids st /\
    forall i, 0 <= i < usedComboCids st -> zget (comboCids st') i = zget (comboCids st) i.
Proof.
  intros Hok. revert k st1. induction n as [|n IH]; intros k st1 Hok1 Hk Hn Hg.
  - exists st1. split_and!; [done|done|lia|]. intros i Hi. apply Hg. lia.
  - pose proof (combo_used st1 Hok1) as Hk0.
    destruct (zget_is_Some (comboCids st) k) as [[a b] Hab]; [destruct Hok; lia|].
    assert (used_pairs st !! Z.to_nat k = Some (a, b)) as Hl.
    { unfold used_pairs. rewrite lookup_take_lt by lia. unfold zget in Hab.
      by destruct (Z.ltb_spec k 0); [lia|]. }
    rewrite (drop_S _ _ _ Hl). cbn [flatten restore_loop].
    destruct (get_combo_spec st1 a b Hok1) as (id & st2 & -> & Hok2 & Hid & Hgid & Hold & Hnew).
    cbn [cbind]. destruct Hnew as [[Hlt Hu]|(-> & Hu & _)].
    + rewrite Hold, Hg in Hgid by lia.
      pose proof (combo_distinct st id k (a, b) Hok ltac:(lia) ltac:(lia) Hgid Hab). lia.
    + rewrite Hk. rewrite Z.eqb_refl. cbn [negb].
      replace (S (Z.to_nat k)) with (Z.to_nat (k + 1)) by lia.
      apply IH; [done|lia|lia|]. intros i Hi. destruct (decide (i = k)) as [->|].
      * rewrite Hab. by rewrite <- Hk.
      * rewrite Hold by lia. apply Hg. lia.
Qed.

Lemma length_flatten l : length (flatten l) = (2 * length l)%nat.
Proof. induction l as [|[a b] l IH]; [done|]. cbn [flatten length]. rewrite IH. lia. Qed.

(** The combo ids a leader serializes for its parallel workers fill
    exactly the space [EstimateComboCIDStateSpace] asks for, and a worker that
    restores them resolves every id to the same cmin and cmax; with less space
    the serialization reports the error. *)
Theorem combo_serialize_roundtrip st maxsize : combo_ok st ->
  (maxsize < EstimateComboCIDStateSpace st ->
     SerializeComboCIDState st maxsize = Elog "not enough space to serialize ComboCID state") /\
  (EstimateComboCIDStateSpace st <= maxsize ->
     exists words st', SerializeComboCIDState st maxsize = Ret words /\
       4 * zlen words = EstimateComboCIDStateSpace st /\
       RestoreComboCIDState AtEOXact_ComboCid words = Ret st' /\ combo_ok st' /\
       usedComboCids st' = usedComboCids st /\
       forall i, 0 <= i < usedComboCids st ->
         GetRealCmin st' i = GetRealCmin st i /\ GetRealCmax st' i = GetRealCmax st i).
Proof.
  intros Hok. unfold SerializeComboCIDState, EstimateComboCIDStateSpace.
  pose proof (combo_used st Hok) as Hu. pose proof (combo_size st Hok) as Hs.
  destruct (Z.ltb_spec maxsize (4 + 8 * usedComboCids st)); (split; [|]); try done; try lia.
  intros _. fold (used_pairs st).
  destruct (restore_loop_spec st (Z.to_nat (usedComboCids st)) 0 AtEOXact_ComboCid Hok empty_combo_ok)
    as (st' & E & Hok' & Hu' & Hg); [done|lia|lia|].
  eexists _, st'. split_and!; [done| |exact E|done|done|].
  - unfold zlen. cbn [length]. rewrite length_flatten. unfold used_pairs. rewrite length_take.
    unfold zlen in Hs. lia.
  - intros i Hi. destruct (zget_is_Some (comboCids st) i ltac:(lia)) as [p Hp].
    destruct (get_real_spec st i p Hi Hp) as [-> ->]. apply get_real_spec; [lia|]. by rewrite Hg.
Qed.

(** Two combo ids in use. *)
Definition two_combos : ComboState :=
  {| comboHash := Some {[ (3, 5) := 0; (4, 5) := 1 ]};
     comboCids := [(3, 5); (4, 5); (0, 0)]; usedComboCids := 2; sizeComboCids := 3 |}.

Lemma two_combos_ok : combo_ok two_combos.
Proof.
  constructor; [done|done| |done]. cbn. intros h [= <-]. split; [done|]. intros p i.
  rewrite lookup_insert_Some, lookup_singleton_Some. split.
  - intros [[<- <-]|[_ [<- <-]]]; done.
  - intros [Hi Hg]. assert (i = 0 \/ i = 1) as [-> | ->] by lia; cbn in Hg; injection Hg as <-; [by left|right].
    by split.
Qed.

Lemma combo_serialize_roundtrip_witness :
  exists words st', SerializeComboCIDState two_combos 20 = Ret words /\
    words = [2; 3; 5; 4; 5] /\ RestoreComboCIDState AtEOXact_ComboCid words = Ret st' /\
    GetRealCmin st' 1 = Ret 4.
Proof.
  destruct (combo_serialize_roundtrip two_combos 20 two_combos_ok) as [_ H].
  destruct (H ltac:(done)) as (words & st' & E & _ & R & _ & _ & G).
  exists words, st'. split; [done|]. cbn in E. injection E as <-. split_and!; [done|done|].
  destruct (G 1 ltac:(done)) as [-> _]. done.
Defined.
