(* ===== verification/Tqual.v ===== *)
(** Tuple visibility ([utils/time/tqual.c]): the routines that decide, from the
    transaction ids and flags in a tuple's header, whether the tuple exists for
    a snapshot, for an update, or for VACUUM, and that leave hint bits in the
    header on the way.

    What they ask of the transaction system is the interface [SharedXacts]
    (the state all backends share) and [Backend] (the one's own).  A call sees
    one state of it.  Every routine takes the header and returns it with the
    hint bits it set; a failed [Assert] is [Undef].  Routines longer than a
    page are split where the source says "by here, the inserting transaction
    has committed": the [_xmin] part either returns or falls through to the
    [_xmax] part. *)
From S2P Require Import Prelude Transam HeapTuple Combocid.

Record MultiXactMember := { mx_xid : TransactionId; mx_status : Z }.
Definition MultiXactStatusForKeyShare : Z := 0.
Definition MultiXactStatusForShare : Z := 1.
Definition MultiXactStatusForNoKeyUpdate : Z := 2.
Definition MultiXactStatusForUpdate : Z := 3.
Definition MultiXactStatusNoKeyUpdate : Z := 4.
Definition MultiXactStatusUpdate : Z := 5.
Definition ISUPDATE_from_mxstatus (status : Z) : bool := MultiXactStatusForUpdate <? status.

(** The shared state of the transaction system and of the buffer. *)
Class SharedXacts := {
  xact_in_progress : TransactionId -> bool;          (* TransactionIdIsInProgress *)
  xact_did_commit : TransactionId -> bool;           (* TransactionIdDidCommit *)
  xact_topmost : TransactionId -> cres TransactionId;(* SubTransGetTopmostTransaction *)
  multi_members : MultiXactId -> bool -> bool -> cres (list MultiXactMember); (* GetMultiXactIdMembers *)
  commit_lsn : TransactionId -> XLogRecPtr;          (* TransactionIdGetCommitLSN *)
  BufferIsPermanent : Z -> bool;
  XLogNeedsFlush : XLogRecPtr -> bool;
  BufferGetLSNAtomic : Z -> XLogRecPtr
}.

(** The state of the backend that looks. *)
Class Backend := {
  xact_current : TransactionId -> bool;              (* TransactionIdIsCurrentTransactionId *)
  combo_state : ComboState;
  CritSectionCount : Z
}.

Record SnapshotData := {
  snap_xmin : TransactionId;
  snap_xmax : TransactionId;
  snap_xip : list TransactionId;
  snap_xcnt : Z;
  snap_subxip : list TransactionId;
  snap_subxcnt : Z;
  snap_suboverflowed : bool;
  snap_takenDuringRecovery : bool;
  snap_curcid : CommandId;
  snap_speculativeToken : Z
}.

Inductive HTSU_Result :=
  | HeapTupleMayBeUpdated | HeapTupleInvisible | HeapTupleSelfUpdated
  | HeapTupleUpdated | HeapTupleBeingUpdated | HeapTupleWouldBlock.

Inductive HTSV_Result :=
  | HEAPTUPLE_DEAD | HEAPTUPLE_LIVE | HEAPTUPLE_RECENTLY_DEAD
  | HEAPTUPLE_INSERT_IN_PROGRESS | HEAPTUPLE_DELETE_IN_PROGRESS.

#[export] Instance HTSU_Result_eq_dec : EqDecision HTSU_Result.
Proof. solve_decision. Defined.
#[export] Instance HTSV_Result_eq_dec : EqDecision HTSV_Result.
Proof. solve_decision. Defined.

(** What a part of a routine does: return, or go on below. *)
Inductive flow (R : Type) := Return (r : R) | FallThrough.
Arguments Return {R} r.
Arguments FallThrough {R}.

Section Tqual.
Context `{SharedXacts} `{Backend}.

(** ** The callees *)

(** [MultiXactIdGetUpdateXid] of heapam.c, as a checked build runs it. *)
Fixpoint update_xact_loop (update_xact : TransactionId) (members : list MultiXactMember) : cres TransactionId :=
  match members with
  | [] => Ret update_xact
  | m :: members =>
      if negb (ISUPDATE_from_mxstatus (mx_status m)) then update_xact_loop update_xact members
      else c_assert (update_xact =? InvalidTransactionId) ;;
           update_xact_loop (mx_xid m) members
  end.

Definition MultiXactIdGetUpdateXid (xmax : TransactionId) (infomask : Z) : cres TransactionId :=
  c_assert (negb (has infomask HEAP_XMAX_LOCK_ONLY)) ;;
  c_assert (has infomask HEAP_XMAX_IS_MULTI) ;;
  let* members := multi_members xmax false false in
  update_xact_loop InvalidTransactionId members.

Definition HeapTupleGetUpdateXid (tuple : HeapTupleHeader) : cres TransactionId :=
  MultiXactIdGetUpdateXid (HeapTupleHeaderGetRawXmax tuple) (t_infomask tuple).

Definition HeapTupleHeaderGetUpdateXid (tup : HeapTupleHeader) : cres TransactionId :=
  if negb (has (t_infomask tup) HEAP_XMAX_INVALID) && has (t_infomask tup) HEAP_XMAX_IS_MULTI &&
     negb (has (t_infomask tup) HEAP_XMAX_LOCK_ONLY)
  then HeapTupleGetUpdateXid tup else Ret (HeapTupleHeaderGetRawXmax tup).

Definition MultiXactIdIsRunning (multi : MultiXactId) (isLockOnly : bool) : cres bool :=
  let* members := multi_members multi false isLockOnly in
  if zlen members <=? 0 then Ret false
  else if existsb (fun m => xact_current (mx_xid m)) members then Ret true
  else Ret (existsb (fun m => xact_in_progress (mx_xid m)) members).

Definition HeapTupleHeaderGetCmin (tup : HeapTupleHeader) : cres CommandId :=
  let cid := HeapTupleHeaderGetRawCommandId tup in
  c_assert (negb (has (t_infomask tup) HEAP_MOVED)) ;;
  c_assert (xact_current (HeapTupleHeaderGetXmin tup)) ;;
  if has (t_infomask tup) HEAP_COMBOCID then GetRealCmin combo_state cid else Ret cid.

Definition HeapTupleHeaderGetCmax (tup : HeapTupleHeader) : cres CommandId :=
  let cid := HeapTupleHeaderGetRawCommandId tup in
  c_assert (negb (has (t_infomask tup) HEAP_MOVED)) ;;
  (if 0 <? CritSectionCount then Ret tt
   else let* x := HeapTupleHeaderGetUpdateXid tup in c_assert (xact_current x)) ;;
  if has (t_infomask tup) HEAP_COMBOCID then GetRealCmax combo_state cid else Ret cid.

Definition SetHintBits (tuple : HeapTupleHeader) (buffer infomask : Z) (xid : TransactionId) : HeapTupleHeader :=
  if TransactionIdIsValid xid &&
     (BufferIsPermanent buffer && XLogNeedsFlush (commit_lsn xid) &&
      (BufferGetLSNAtomic buffer <? commit_lsn xid))
  then tuple
  else set_infomask tuple (Z.lor (t_infomask tuple) infomask).

Definition HeapTupleSetHintBits := SetHintBits.

(** [for (i = 0; i < cnt; i++) if (TransactionIdEquals(xid, arr[i])) return true;] *)
Fixpoint xid_array_scan (n : nat) (i : Z) (xid : TransactionId) (arr : list TransactionId) : cres bool :=
  match n with
  | O => Ret false
  | S n =>
      let* x := deref (zget arr i) in
      if TransactionIdEquals xid x then Ret true else xid_array_scan n (i + 1) xid arr
  end.

Definition XidInMVCCSnapshot (xid : TransactionId) (snapshot : SnapshotData) : cres bool :=
  if TransactionIdPrecedes xid (snap_xmin snapshot) then Ret false
  else if TransactionIdFollowsOrEquals xid (snap_xmax snapshot) then Ret true
  else if negb (snap_takenDuringRecovery snapshot) then
    if negb (snap_suboverflowed snapshot) then
      let* sub := xid_array_scan (Z.to_nat (snap_subxcnt snapshot)) 0 xid (snap_subxip snapshot) in
      if sub then Ret true
      else xid_array_scan (Z.to_nat (snap_xcnt snapshot)) 0 xid (snap_xip snapshot)
    else
      let* xid := xact_topmost xid in
      if TransactionIdPrecedes xid (snap_xmin snapshot) then Ret false
      else xid_array_scan (Z.to_nat (snap_xcnt snapshot)) 0 xid (snap_xip snapshot)
  else
    if snap_suboverflowed snapshot then
      let* xid := xact_topmost xid in
      if TransactionIdPrecedes xid (snap_xmin snapshot) then Ret false
      else xid_array_scan (Z.to_nat (snap_subxcnt snapshot)) 0 xid (snap_subxip snapshot)
    else xid_array_scan (Z.to_nat (snap_subxcnt snapshot)) 0 xid (snap_subxip snapshot).

Definition running (xid : TransactionId) : cres bool := Ret (xact_in_progress xid).

(** The asserts every routine starts with. *)
Definition check_htup (htup : HeapTuple) : cres unit :=
  c_assert (ItemPointerIsValid (t_self htup)) ;;
  c_assert (negb (t_tableOid htup =? 0)).

(** ** Tuples moved by an old-style VACUUM FULL

    The same text in every routine but [HeapTupleSatisfiesVacuum], up to the
    test for a running transaction and the value returned. *)
Definition xmin_moved_off {R} (in_progress : TransactionId -> cres bool) (invisible : R)
    (tuple : HeapTupleHeader) (buffer : Z) : cres (flow R * HeapTupleHeader) :=
  let xvac := HeapTupleHeaderGetXvac tuple in
  if xact_current xvac then Ret (Return invisible, tuple)
  else
    let* busy := in_progress xvac in
    if negb busy then
      if xact_did_commit xvac
      then Ret (Return invisible, SetHintBits tuple buffer HEAP_XMIN_INVALID InvalidTransactionId)
      else Ret (FallThrough, SetHintBits tuple buffer HEAP_XMIN_COMMITTED InvalidTransactionId)
    else Ret (FallThrough, tuple).

Definition xmin_moved_in {R} (in_progress : TransactionId -> cres bool) (invisible : R)
    (tuple : HeapTupleHeader) (buffer : Z) : cres (flow R * HeapTupleHeader) :=
  let xvac := HeapTupleHeaderGetXvac tuple in
  if negb (xact_current xvac) then
    let* busy := in_progress xvac in
    if busy then Ret (Return invisible, tuple)
    else if xact_did_commit xvac
      then Ret (FallThrough, SetHintBits tuple buffer HEAP_XMIN_COMMITTED InvalidTransactionId)
      else Ret (Return invisible, SetHintBits tuple buffer HEAP_XMIN_INVALID InvalidTransactionId)
  else Ret (FallThrough, tuple).

(** The last two branches of the chain on xmin: committed or aborted. *)
Definition xmin_finished {R} (invisible : R) (tuple : HeapTupleHeader) (buffer : Z)
    : flow R * HeapTupleHeader :=
  if xact_did_commit (HeapTupleHeaderGetRawXmin tuple)
  then (FallThrough, SetHintBits tuple buffer HEAP_XMIN_COMMITTED (HeapTupleHeaderGetRawXmin tuple))
  else (Return invisible, SetHintBits tuple buffer HEAP_XMIN_INVALID InvalidTransactionId).

(** ** HeapTupleSatisfiesSelf *)

Definition Self_own (tuple : HeapTupleHeader) (buffer : Z) : cres (bool * HeapTupleHeader) :=
  if has (t_infomask tuple) HEAP_XMAX_INVALID then Ret (true, tuple)
  else if HEAP_XMAX_IS_LOCKED_ONLY (t_infomask tuple) then Ret (true, tuple)
  else if has (t_infomask tuple) HEAP_XMAX_IS_MULTI then
    let* xmax := HeapTupleGetUpdateXid tuple in
    c_assert (TransactionIdIsValid xmax) ;;
    if negb (xact_current xmax) then Ret (true, tuple) else Ret (false, tuple)
  else if negb (xact_current (HeapTupleHeaderGetRawXmax tuple))
  then Ret (true, SetHintBits tuple buffer HEAP_XMAX_INVALID InvalidTransactionId)
  else Ret (false, tuple).

Definition Self_xmin (tuple : HeapTupleHeader) (buffer : Z) : cres (flow bool * HeapTupleHeader) :=
  if negb (HeapTupleHeaderXminCommitted tuple) then
    if HeapTupleHeaderXminInvalid tuple then Ret (Return false, tuple)
    else if has (t_infomask tuple) HEAP_MOVED_OFF then xmin_moved_off running false tuple buffer
    else if has (t_infomask tuple) HEAP_MOVED_IN then xmin_moved_in running false tuple buffer
    else if xact_current (HeapTupleHeaderGetRawXmin tuple) then
      let* (r, tuple) := Self_own tuple buffer in Ret (Return r, tuple)
    else if xact_in_progress (HeapTupleHeaderGetRawXmin tuple) then Ret (Return false, tuple)
    else Ret (xmin_finished false tuple buffer)
  else Ret (FallThrough, tuple).

Definition Self_xmax (tuple : HeapTupleHeader) (buffer : Z) : cres (bool * HeapTupleHeader) :=
  if has (t_infomask tuple) HEAP_XMAX_INVALID then Ret (true, tuple)
  else if has (t_infomask tuple) HEAP_XMAX_COMMITTED then
    if HEAP_XMAX_IS_LOCKED_ONLY (t_infomask tuple) then Ret (true, tuple) else Ret (false, tuple)
  else if has (t_infomask tuple) HEAP_XMAX_IS_MULTI then
    if HEAP_XMAX_IS_LOCKED_ONLY (t_infomask tuple) then Ret (true, tuple)
    else
      let* xmax := HeapTupleGetUpdateXid tuple in
      c_assert (TransactionIdIsValid xmax) ;;
      if xact_current xmax then Ret (false, tuple)
      else if xact_in_progress xmax then Ret (true, tuple)
      else if xact_did_commit xmax then Ret (false, tuple)
      else Ret (true, tuple)
  else if xact_current (HeapTupleHeaderGetRawXmax tuple) then
    if HEAP_XMAX_IS_LOCKED_ONLY (t_infomask tuple) then Ret (true, tuple) else Ret (false, tuple)
  else if xact_in_progress (HeapTupleHeaderGetRawXmax tuple) then Ret (true, tuple)
  else if negb (xact_did_commit (HeapTupleHeaderGetRawXmax tuple)) then
    Ret (true, SetHintBits tuple buffer HEAP_XMAX_INVALID InvalidTransactionId)
  else if HEAP_XMAX_IS_LOCKED_ONLY (t_infomask tuple) then
    Ret (true, SetHintBits tuple buffer HEAP_XMAX_INVALID InvalidTransactionId)
  else Ret (false, SetHintBits tuple buffer HEAP_XMAX_COMMITTED (HeapTupleHeaderGetRawXmax tuple)).

(** Go on with the second part unless the first one returned. *)
Definition and_then {R} (c : cres (flow R * HeapTupleHeader))
    (k : HeapTupleHeader -> cres (R * HeapTupleHeader)) : cres (R * HeapTupleHeader) :=
  let* (f, tuple) := c in
  match f with Return r => Ret (r, tuple) | FallThrough => k tuple end.

Definition HeapTupleSatisfiesSelf (htup : HeapTuple) (buffer : Z) : cres (bool * HeapTupleHeader) :=
  check_htup htup ;;
  and_then (Self_xmin (t_data htup) buffer) (fun tuple => Self_xmax tuple buffer).

Definition HeapTupleSatisfiesAny (htup : HeapTuple) (buffer : Z) : cres (bool * HeapTupleHeader) :=
  Ret (true, t_data htup).

Definition HeapTupleSatisfiesToast (htup : HeapTuple) (buffer : Z) : cres (bool * HeapTupleHeader) :=
  let tuple := t_data htup in
  check_htup htup ;;
  and_then
    (if negb (HeapTupleHeaderXminCommitted tuple) then
       if HeapTupleHeaderXminInvalid tuple then Ret (Return false, tuple)
       else if has (t_infomask tuple) HEAP_MOVED_OFF then xmin_moved_off running false tuple buffer
       else if has (t_infomask tuple) HEAP_MOVED_IN then xmin_moved_in running false tuple buffer
       else if negb (TransactionIdIsValid (HeapTupleHeaderGetXmin tuple)) then Ret (Return false, tuple)
       else Ret (FallThrough, tuple)
     else Ret (FallThrough, tuple))
    (fun tuple => Ret (true, tuple)).

(** ** HeapTupleSatisfiesUpdate *)

(** [HeapTupleHeaderGetCmax(tuple) >= curcid]: updated after or before the
    scan started. *)
Definition self_updated (curcid : CommandId) (tuple : HeapTupleHeader) : cres (HTSU_Result * HeapTupleHeader) :=
  let* cmax := HeapTupleHeaderGetCmax tuple in
  if curcid <=? cmax then Ret (HeapTupleSelfUpdated, tuple) else Ret (HeapTupleInvisible, tuple).

Definition Update_own (tuple : HeapTupleHeader) (curcid : CommandId) (buffer : Z)
    : cres (HTSU_Result * HeapTupleHeader) :=
  let* cmin := HeapTupleHeaderGetCmin tuple in
  if curcid <=? cmin then Ret (HeapTupleInvisible, tuple)
  else if has (t_infomask tuple) HEAP_XMAX_INVALID then Ret (HeapTupleMayBeUpdated, tuple)
  else if HEAP_XMAX_IS_LOCKED_ONLY (t_infomask tuple) then
    let xmax := HeapTupleHeaderGetRawXmax tuple in
    if has (t_infomask tuple) HEAP_XMAX_IS_MULTI then
      let* busy := MultiXactIdIsRunning xmax true in
      if busy then Ret (HeapTupleBeingUpdated, tuple) else Ret (HeapTupleMayBeUpdated, tuple)
    else if negb (xact_in_progress xmax) then Ret (HeapTupleMayBeUpdated, tuple)
    else Ret (HeapTupleBeingUpdated, tuple)
  else if has (t_infomask tuple) HEAP_XMAX_IS_MULTI then
    let* xmax := HeapTupleGetUpdateXid tuple in
    c_assert (TransactionIdIsValid xmax) ;;
    if negb (xact_current xmax) then
      let* busy := MultiXactIdIsRunning (HeapTupleHeaderGetRawXmax tuple) false in
      if busy then Ret (HeapTupleBeingUpdated, tuple) else Ret (HeapTupleMayBeUpdated, tuple)
    else self_updated curcid tuple
  else if negb (xact_current (HeapTupleHeaderGetRawXmax tuple)) then
    Ret (HeapTupleMayBeUpdated, SetHintBits tuple buffer HEAP_XMAX_INVALID InvalidTransactionId)
  else self_updated curcid tuple.

Definition Update_xmin (tuple : HeapTupleHeader) (curcid : CommandId) (buffer : Z)
    : cres (flow HTSU_Result * HeapTupleHeader) :=
  if negb (HeapTupleHeaderXminCommitted tuple) then
    if HeapTupleHeaderXminInvalid tuple then Ret (Return HeapTupleInvisible, tuple)
    else if has (t_infomask tuple) HEAP_MOVED_OFF
    then xmin_moved_off running HeapTupleInvisible tuple buffer
    else if has (t_infomask tuple) HEAP_MOVED_IN
    then xmin_moved_in running HeapTupleInvisible tuple buffer
    else if xact_current (HeapTupleHeaderGetRawXmin tuple) then
      let* (r, tuple) := Update_own tuple curcid buffer in Ret (Return r, tuple)
    else if xact_in_progress (HeapTupleHeaderGetRawXmin tuple) then Ret (Return HeapTupleInvisible, tuple)
    else Ret (xmin_finished HeapTupleInvisible tuple buffer)
  else Ret (FallThrough, tuple).

(** The case of a MultiXact xmax. *)
Definition Update_multi (tuple : HeapTupleHeader) (curcid : CommandId) (buffer : Z)
    : cres (HTSU_Result * HeapTupleHeader) :=
  if HEAP_LOCKED_UPGRADED (t_infomask tuple) then Ret (HeapTupleMayBeUpdated, tuple)
  else if HEAP_XMAX_IS_LOCKED_ONLY (t_infomask tuple) then
    let* busy := MultiXactIdIsRunning (HeapTupleHeaderGetRawXmax tuple) true in
    if busy then Ret (HeapTupleBeingUpdated, tuple)
    else Ret (HeapTupleMayBeUpdated, SetHintBits tuple buffer HEAP_XMAX_INVALID InvalidTransactionId)
  else
    let* xmax := HeapTupleGetUpdateXid tuple in
    let* early :=
      (if negb (TransactionIdIsValid xmax)
       then MultiXactIdIsRunning (HeapTupleHeaderGetRawXmax tuple) false else Ret false) in
    if early then Ret (HeapTupleBeingUpdated, tuple)
    else
      c_assert (TransactionIdIsValid xmax) ;;
      if xact_current xmax then self_updated curcid tuple
      else
        let* busy := MultiXactIdIsRunning (HeapTupleHeaderGetRawXmax tuple) false in
        if busy then Ret (HeapTupleBeingUpdated, tuple)
        else if xact_did_commit xmax then Ret (HeapTupleUpdated, tuple)
        else
          let* busy := MultiXactIdIsRunning (HeapTupleHeaderGetRawXmax tuple) false in
          if negb busy
          then Ret (HeapTupleMayBeUpdated, SetHintBits tuple buffer HEAP_XMAX_INVALID InvalidTransactionId)
          else Ret (HeapTupleBeingUpdated, tuple).

Definition Update_xmax (tuple : HeapTupleHeader) (curcid : CommandId) (buffer : Z)
    : cres (HTSU_Result * HeapTupleHeader) :=
  if has (t_infomask tuple) HEAP_XMAX_INVALID then Ret (HeapTupleMayBeUpdated, tuple)
  else if has (t_infomask tuple) HEAP_XMAX_COMMITTED then
    if HEAP_XMAX_IS_LOCKED_ONLY (t_infomask tuple) then Ret (HeapTupleMayBeUpdated, tuple)
    else Ret (HeapTupleUpdated, tuple)
  else if has (t_infomask tuple) HEAP_XMAX_IS_MULTI then Update_multi tuple curcid buffer
  else if xact_current (HeapTupleHeaderGetRawXmax tuple) then
    if HEAP_XMAX_IS_LOCKED_ONLY (t_infomask tuple) then Ret (HeapTupleBeingUpdated, tuple)
    else self_updated curcid tuple
  else if xact_in_progress (HeapTupleHeaderGetRawXmax tuple) then Ret (HeapTupleBeingUpdated, tuple)
  else if negb (xact_did_commit (HeapTupleHeaderGetRawXmax tuple)) then
    Ret (HeapTupleMayBeUpdated, SetHintBits tuple buffer HEAP_XMAX_INVALID InvalidTransactionId)
  else if HEAP_XMAX_IS_LOCKED_ONLY (t_infomask tuple) then
    Ret (HeapTupleMayBeUpdated, SetHintBits tuple buffer HEAP_XMAX_INVALID InvalidTransactionId)
  else Ret (HeapTupleUpdated, SetHintBits tuple buffer HEAP_XMAX_COMMITTED (HeapTupleHeaderGetRawXmax tuple)).

Definition HeapTupleSatisfiesUpdate (htup : HeapTuple) (curcid : CommandId) (buffer : Z)
    : cres (HTSU_Result * HeapTupleHeader) :=
  check_htup htup ;;
  and_then (Update_xmin (t_data htup) curcid buffer) (fun tuple => Update_xmax tuple curcid buffer).

(** ** HeapTupleSatisfiesDirty

    The snapshot is an output argument: its [xmin], [xmax] and
    [speculativeToken] are what these parts return beside the answer. *)
Record dirty_out := { out_xmin : TransactionId; out_xmax : TransactionId; out_token : Z }.
Definition no_out : dirty_out :=
  {| out_xmin := InvalidTransactionId; out_xmax := InvalidTransactionId; out_token := 0 |}.

Definition Dirty_xmin (tuple : HeapTupleHeader) (buffer : Z)
    : cres (flow (bool * dirty_out) * HeapTupleHeader) :=
  if negb (HeapTupleHeaderXminCommitted tuple) then
    if HeapTupleHeaderXminInvalid tuple then Ret (Return (false, no_out), tuple)
    else if has (t_infomask tuple) HEAP_MOVED_OFF then xmin_moved_off running (false, no_out) tuple buffer
    else if has (t_infomask tuple) HEAP_MOVED_IN then xmin_moved_in running (false, no_out) tuple buffer
    else if xact_current (HeapTupleHeaderGetRawXmin tuple) then
      let* (r, tuple) := Self_own tuple buffer in Ret (Return (r, no_out), tuple)
    else if xact_in_progress (HeapTupleHeaderGetRawXmin tuple) then
      let* token :=
        (if HeapTupleHeaderIsSpeculative tuple then
           let* token := HeapTupleHeaderGetSpeculativeToken tuple in
           c_assert (negb (token =? 0)) ;; Ret token
         else Ret 0) in
      Ret (Return (true, {| out_xmin := HeapTupleHeaderGetRawXmin tuple;
                            out_xmax := InvalidTransactionId; out_token := token |}), tuple)
    else Ret (xmin_finished (false, no_out) tuple buffer)
  else Ret (FallThrough, tuple).

Definition out_deleter (xmax : TransactionId) : dirty_out :=
  {| out_xmin := InvalidTransactionId; out_xmax := xmax; out_token := 0 |}.

Definition Dirty_xmax (tuple : HeapTupleHeader) (buffer : Z) : cres ((bool * dirty_out) * HeapTupleHeader) :=
  if has (t_infomask tuple) HEAP_XMAX_INVALID then Ret (true, no_out, tuple)
  else if has (t_infomask tuple) HEAP_XMAX_COMMITTED then
    if HEAP_XMAX_IS_LOCKED_ONLY (t_infomask tuple) then Ret (true, no_out, tuple)
    else Ret (false, no_out, tuple)
  else if has (t_infomask tuple) HEAP_XMAX_IS_MULTI then
    if HEAP_XMAX_IS_LOCKED_ONLY (t_infomask tuple) then Ret (true, no_out, tuple)
    else
      let* xmax := HeapTupleGetUpdateXid tuple in
      c_assert (TransactionIdIsValid xmax) ;;
      if xact_current xmax then Ret (false, no_out, tuple)
      else if xact_in_progress xmax then Ret (true, out_deleter xmax, tuple)
      else if xact_did_commit xmax then Ret (false, no_out, tuple)
      else Ret (true, no_out, tuple)
  else if xact_current (HeapTupleHeaderGetRawXmax tuple) then
    if HEAP_XMAX_IS_LOCKED_ONLY (t_infomask tuple) then Ret (true, no_out, tuple)
    else Ret (false, no_out, tuple)
  else if xact_in_progress (HeapTupleHeaderGetRawXmax tuple) then
    Ret (true, if negb (HEAP_XMAX_IS_LOCKED_ONLY (t_infomask tuple))
               then out_deleter (HeapTupleHeaderGetRawXmax tuple) else no_out, tuple)
  else if negb (xact_did_commit (HeapTupleHeaderGetRawXmax tuple)) then
    Ret (true, no_out, SetHintBits tuple buffer HEAP_XMAX_INVALID InvalidTransactionId)
  else if HEAP_XMAX_IS_LOCKED_ONLY (t_infomask tuple) then
    Ret (true, no_out, SetHintBits tuple buffer HEAP_XMAX_INVALID InvalidTransactionId)
  else Ret (false, no_out, SetHintBits tuple buffer HEAP_XMAX_COMMITTED (HeapTupleHeaderGetRawXmax tuple)).

Definition store_out (snapshot : SnapshotData) (o : dirty_out) : SnapshotData :=
  {| snap_xmin := out_xmin o; snap_xmax := out_xmax o; snap_xip := snap_xip snapshot;
     snap_xcnt := snap_xcnt snapshot; snap_subxip := snap_subxip snapshot;
     snap_subxcnt := snap_subxcnt snapshot; snap_suboverflowed := snap_suboverflowed snapshot;
     snap_takenDuringRecovery := snap_takenDuringRecovery snapshot;
     snap_curcid := snap_curcid snapshot; snap_speculativeToken := out_token o |}.

Definition HeapTupleSatisfiesDirty (htup : HeapTuple) (snapshot : SnapshotData) (buffer : Z)
    : cres (bool * SnapshotData * HeapTupleHeader) :=
  check_htup htup ;;
  let* (r, tuple) := and_then (Dirty_xmin (t_data htup) buffer) (fun tuple => Dirty_xmax tuple buffer) in
  Ret (r.1, store_out snapshot r.2, tuple).

(** ** HeapTupleSatisfiesMVCC *)

(** [HeapTupleHeaderGetCmax(tuple) >= snapshot->curcid]: deleted after the
    scan started, hence visible. *)
Definition cmax_after (snapshot : SnapshotData) (tuple : HeapTupleHeader) : cres (bool * HeapTupleHeader) :=
  let* cmax := HeapTupleHeaderGetCmax tuple in
  if snap_curcid snapshot <=? cmax then Ret (true, tuple) else Ret (false, tuple).

Definition MVCC_own (tuple : HeapTupleHeader) (snapshot : SnapshotData) (buffer : Z)
    : cres (bool * HeapTupleHeader) :=
  let* cmin := HeapTupleHeaderGetCmin tuple in
  if snap_curcid snapshot <=? cmin then Ret (false, tuple)
  else if has (t_infomask tuple) HEAP_XMAX_INVALID then Ret (true, tuple)
  else if HEAP_XMAX_IS_LOCKED_ONLY (t_infomask tuple) then Ret (true, tuple)
  else if has (t_infomask tuple) HEAP_XMAX_IS_MULTI then
    let* xmax := HeapTupleGetUpdateXid tuple in
    c_assert (TransactionIdIsValid xmax) ;;
    if negb (xact_current xmax) then Ret (true, tuple) else cmax_after snapshot tuple
  else if negb (xact_current (HeapTupleHeaderGetRawXmax tuple)) then
    Ret (true, SetHintBits tuple buffer HEAP_XMAX_INVALID InvalidTransactionId)
  else cmax_after snapshot tuple.

Definition MVCC_xmin (tuple : HeapTupleHeader) (snapshot : SnapshotData) (buffer : Z)
    : cres (flow bool * HeapTupleHeader) :=
  let in_snapshot xid := XidInMVCCSnapshot xid snapshot in
  if negb (HeapTupleHeaderXminCommitted tuple) then
    if HeapTupleHeaderXminInvalid tuple then Ret (Return false, tuple)
    else if has (t_infomask tuple) HEAP_MOVED_OFF then xmin_moved_off in_snapshot false tuple buffer
    else if has (t_infomask tuple) HEAP_MOVED_IN then xmin_moved_in in_snapshot false tuple buffer
    else if xact_current (HeapTupleHeaderGetRawXmin tuple) then
      let* (r, tuple) := MVCC_own tuple snapshot buffer in Ret (Return r, tuple)
    else
      let* busy := in_snapshot (HeapTupleHeaderGetRawXmin tuple) in
      if busy then Ret (Return false, tuple) else Ret (xmin_finished false tuple buffer)
  else if negb (HeapTupleHeaderXminFrozen tuple) then
    let* busy := in_snapshot (HeapTupleHeaderGetRawXmin tuple) in
    if busy then Ret (Return false, tuple) else Ret (FallThrough, tuple)
  else Ret (FallThrough, tuple).

Definition MVCC_xmax (tuple : HeapTupleHeader) (snapshot : SnapshotData) (buffer : Z)
    : cres (bool * HeapTupleHeader) :=
  if has (t_infomask tuple) HEAP_XMAX_INVALID then Ret (true, tuple)
  else if HEAP_XMAX_IS_LOCKED_ONLY (t_infomask tuple) then Ret (true, tuple)
  else if has (t_infomask tuple) HEAP_XMAX_IS_MULTI then
    c_assert (negb (HEAP_XMAX_IS_LOCKED_ONLY (t_infomask tuple))) ;;
    let* xmax := HeapTupleGetUpdateXid tuple in
    c_assert (TransactionIdIsValid xmax) ;;
    if xact_current xmax then cmax_after snapshot tuple
    else
      let* busy := XidInMVCCSnapshot xmax snapshot in
      if busy then Ret (true, tuple)
      else if xact_did_commit xmax then Ret (false, tuple)
      else Ret (true, tuple)
  else if negb (has (t_infomask tuple) HEAP_XMAX_COMMITTED) then
    if xact_current (HeapTupleHeaderGetRawXmax tuple) then cmax_after snapshot tuple
    else
      let* busy := XidInMVCCSnapshot (HeapTupleHeaderGetRawXmax tuple) snapshot in
      if busy then Ret (true, tuple)
      else if negb (xact_did_commit (HeapTupleHeaderGetRawXmax tuple)) then
        Ret (true, SetHintBits tuple buffer HEAP_XMAX_INVALID InvalidTransactionId)
      else
        Ret (false, SetHintBits tuple buffer HEAP_XMAX_COMMITTED (HeapTupleHeaderGetRawXmax tuple))
  else
    let* busy := XidInMVCCSnapshot (HeapTupleHeaderGetRawXmax tuple) snapshot in
    if busy then Ret (true, tuple) else Ret (false, tuple).

Definition HeapTupleSatisfiesMVCC (htup : HeapTuple) (snapshot : SnapshotData) (buffer : Z)
    : cres (bool * HeapTupleHeader) :=
  check_htup htup ;;
  and_then (MVCC_xmin (t_data htup) snapshot buffer) (fun tuple => MVCC_xmax tuple snapshot buffer).

(** ** HeapTupleSatisfiesVacuum *)

Definition HeapTupleHeaderIsOnlyLocked (tuple : HeapTupleHeader) : cres bool :=
  if has (t_infomask tuple) HEAP_XMAX_INVALID then Ret true
  else if has (t_infomask tuple) HEAP_XMAX_LOCK_ONLY then Ret true
  else if negb (TransactionIdIsValid (HeapTupleHeaderGetRawXmax tuple)) then Ret true
  else if negb (has (t_infomask tuple) HEAP_XMAX_IS_MULTI) then Ret false
  else
    let* xmax := HeapTupleGetUpdateXid tuple in
    c_assert (TransactionIdIsValid xmax) ;;
    if xact_current xmax then Ret false
    else if xact_in_progress xmax then Ret false
    else if xact_did_commit xmax then Ret false
    else Ret true.

Definition Vacuum_moved (tuple : HeapTupleHeader) (buffer : Z) (busy_result : HTSV_Result)
    (commit_falls : bool) : flow HTSV_Result * HeapTupleHeader :=
  let xvac := HeapTupleHeaderGetXvac tuple in
  if xact_current xvac then (Return busy_result, tuple)
  else if xact_in_progress xvac then (Return busy_result, tuple)
  else if Bool.eqb (xact_did_commit xvac) commit_falls
  then (FallThrough, SetHintBits tuple buffer HEAP_XMIN_COMMITTED InvalidTransactionId)
  else (Return HEAPTUPLE_DEAD, SetHintBits tuple buffer HEAP_XMIN_INVALID InvalidTransactionId).

Definition Vacuum_own (tuple : HeapTupleHeader) : cres HTSV_Result :=
  if has (t_infomask tuple) HEAP_XMAX_INVALID then Ret HEAPTUPLE_INSERT_IN_PROGRESS
  else
    let* only_locked :=
      (if HEAP_XMAX_IS_LOCKED_ONLY (t_infomask tuple) then Ret true
       else HeapTupleHeaderIsOnlyLocked tuple) in
    if only_locked then Ret HEAPTUPLE_INSERT_IN_PROGRESS
    else
      let* xmax := HeapTupleHeaderGetUpdateXid tuple in
      if xact_current xmax then Ret HEAPTUPLE_DELETE_IN_PROGRESS
      else Ret HEAPTUPLE_INSERT_IN_PROGRESS.

Definition Vacuum_xmin (tuple : HeapTupleHeader) (buffer : Z) : cres (flow HTSV_Result * HeapTupleHeader) :=
  if negb (HeapTupleHeaderXminCommitted tuple) then
    if HeapTupleHeaderXminInvalid tuple then Ret (Return HEAPTUPLE_DEAD, tuple)
    else if has (t_infomask tuple) HEAP_MOVED_OFF
    then Ret (Vacuum_moved tuple buffer HEAPTUPLE_DELETE_IN_PROGRESS false)
    else if has (t_infomask tuple) HEAP_MOVED_IN
    then Ret (Vacuum_moved tuple buffer HEAPTUPLE_INSERT_IN_PROGRESS true)
    else if xact_current (HeapTupleHeaderGetRawXmin tuple) then
      let* r := Vacuum_own tuple in Ret (Return r, tuple)
    else if xact_in_progress (HeapTupleHeaderGetRawXmin tuple)
    then Ret (Return HEAPTUPLE_INSERT_IN_PROGRESS, tuple)
    else Ret (xmin_finished HEAPTUPLE_DEAD tuple buffer)
  else Ret (FallThrough, tuple).

(** The xmax is only a locker: the tuple is live, and hinted once the locker
    is gone. *)
Definition Vacuum_locked (tuple : HeapTupleHeader) (buffer : Z) : cres (HTSV_Result * HeapTupleHeader) :=
  if negb (has (t_infomask tuple) HEAP_XMAX_COMMITTED) then
    if has (t_infomask tuple) HEAP_XMAX_IS_MULTI then
      let* busy :=
        (if negb (HEAP_LOCKED_UPGRADED (t_infomask tuple))
         then MultiXactIdIsRunning (HeapTupleHeaderGetRawXmax tuple) true else Ret false) in
      if busy then Ret (HEAPTUPLE_LIVE, tuple)
      else Ret (HEAPTUPLE_LIVE, SetHintBits tuple buffer HEAP_XMAX_INVALID InvalidTransactionId)
    else if xact_in_progress (HeapTupleHeaderGetRawXmax tuple) then Ret (HEAPTUPLE_LIVE, tuple)
    else Ret (HEAPTUPLE_LIVE, SetHintBits tuple buffer HEAP_XMAX_INVALID InvalidTransactionId)
  else Ret (HEAPTUPLE_LIVE, tuple).

Definition Vacuum_multi (tuple : HeapTupleHeader) (OldestXmin : TransactionId) (buffer : Z)
    : cres (HTSV_Result * HeapTupleHeader) :=
  let* xmax := HeapTupleGetUpdateXid tuple in
  c_assert (negb (HEAP_XMAX_IS_LOCKED_ONLY (t_infomask tuple))) ;;
  c_assert (TransactionIdIsValid xmax) ;;
  if xact_in_progress xmax then Ret (HEAPTUPLE_DELETE_IN_PROGRESS, tuple)
  else if xact_did_commit xmax then
    if negb (TransactionIdPrecedes xmax OldestXmin) then Ret (HEAPTUPLE_RECENTLY_DEAD, tuple)
    else Ret (HEAPTUPLE_DEAD, tuple)
  else
    let* busy := MultiXactIdIsRunning (HeapTupleHeaderGetRawXmax tuple) false in
    if negb busy
    then Ret (HEAPTUPLE_LIVE, SetHintBits tuple buffer HEAP_XMAX_INVALID InvalidTransactionId)
    else Ret (HEAPTUPLE_LIVE, tuple).

(** The deleter committed: the horizon decides. *)
Definition Vacuum_horizon (tuple : HeapTupleHeader) (OldestXmin : TransactionId) : HTSV_Result :=
  if negb (TransactionIdPrecedes (HeapTupleHeaderGetRawXmax tuple) OldestXmin)
  then HEAPTUPLE_RECENTLY_DEAD else HEAPTUPLE_DEAD.

Definition Vacuum_xmax (tuple : HeapTupleHeader) (OldestXmin : TransactionId) (buffer : Z)
    : cres (HTSV_Result * HeapTupleHeader) :=
  if has (t_infomask tuple) HEAP_XMAX_INVALID then Ret (HEAPTUPLE_LIVE, tuple)
  else if HEAP_XMAX_IS_LOCKED_ONLY (t_infomask tuple) then Vacuum_locked tuple buffer
  else if has (t_infomask tuple) HEAP_XMAX_IS_MULTI then Vacuum_multi tuple OldestXmin buffer
  else if negb (has (t_infomask tuple) HEAP_XMAX_COMMITTED) then
    if xact_in_progress (HeapTupleHeaderGetRawXmax tuple) then Ret (HEAPTUPLE_DELETE_IN_PROGRESS, tuple)
    else if xact_did_commit (HeapTupleHeaderGetRawXmax tuple) then
      Ret (Vacuum_horizon tuple OldestXmin,
           SetHintBits tuple buffer HEAP_XMAX_COMMITTED (HeapTupleHeaderGetRawXmax tuple))
    else Ret (HEAPTUPLE_LIVE, SetHintBits tuple buffer HEAP_XMAX_INVALID InvalidTransactionId)
  else Ret (Vacuum_horizon tuple OldestXmin, tuple).

Definition HeapTupleSatisfiesVacuum (htup : HeapTuple) (OldestXmin : TransactionId) (buffer : Z)
    : cres (HTSV_Result * HeapTupleHeader) :=
  check_htup htup ;;
  and_then (Vacuum_xmin (t_data htup) buffer) (fun tuple => Vacuum_xmax tuple OldestXmin buffer).

Definition HeapTupleSatisfiesNonVacuumable (htup : HeapTuple) (snapshot : SnapshotData) (buffer : Z)
    : cres (bool * HeapTupleHeader) :=
  let* (r, tuple) := HeapTupleSatisfiesVacuum htup (snap_xmin snapshot) buffer in
  Ret (negb (bool_decide (r = HEAPTUPLE_DEAD)), tuple).

Definition HeapTupleIsSurelyDead (htup : HeapTuple) (OldestXmin : TransactionId) : cres bool :=
  let tuple := t_data htup in
  check_htup htup ;;
  if negb (HeapTupleHeaderXminCommitted tuple) then Ret (HeapTupleHeaderXminInvalid tuple)
  else if has (t_infomask tuple) HEAP_XMAX_INVALID then Ret false
  else if HEAP_XMAX_IS_LOCKED_ONLY (t_infomask tuple) then Ret false
  else if has (t_infomask tuple) HEAP_XMAX_IS_MULTI then Ret false
  else if negb (has (t_infomask tuple) HEAP_XMAX_COMMITTED) then Ret false
  else Ret (TransactionIdPrecedes (HeapTupleHeaderGetRawXmax tuple) OldestXmin).
End Tqual.
