(* ===== verification/TqualSpec.v ===== *)
(** What visibility means, without hint bits: when a tuple's inserter and
    deleter count as done, and the invariant that ties the hint bits to the
    state of the transaction system.  The routines of [Tqual.v] are proved
    against these definitions in the files that follow. *)
From S2P Require Import Prelude Transam HeapTuple Combocid Tqual.

Definition bit (h : HeapTupleHeader) (k : Z) : bool := Z.testbit (t_infomask h) k.
Definition bit_xmin_committed (h : HeapTupleHeader) : bool := bit h 8.
Definition bit_xmin_invalid (h : HeapTupleHeader) : bool := bit h 9.

Definition xmin_frozen (h : HeapTupleHeader) : bool := bit h 8 && bit h 9.
Definition moved_off (h : HeapTupleHeader) : bool := bit h 14.
Definition moved_in (h : HeapTupleHeader) : bool := negb (bit h 14) && bit h 15.
Definition was_moved (h : HeapTupleHeader) : bool := bit h 14 || bit h 15.
Definition only_locked (h : HeapTupleHeader) : bool := HEAP_XMAX_IS_LOCKED_ONLY (t_infomask h).
Definition is_multi (h : HeapTupleHeader) : bool := bit h 12.

Section Spec.
Context `{SharedXacts} `{Backend}.

(** The transaction that deleted or updated the tuple, if any. *)
Definition deleter (h : HeapTupleHeader) : option TransactionId :=
  if only_locked h then None
  else if is_multi h
  then match HeapTupleGetUpdateXid h with Ret x => Some x | _ => None end
  else Some (t_xmax h).

(** The inserting and the deleting command, for the inserting and deleting
    transaction itself. *)
Definition tuple_cmin (h : HeapTupleHeader) : cres CommandId :=
  if bit h 5 then GetRealCmin combo_state (t_field3 h) else Ret (t_field3 h).
Definition tuple_cmax (h : HeapTupleHeader) : cres CommandId :=
  if bit h 5 then GetRealCmax combo_state (t_field3 h) else Ret (t_field3 h).

Definition cid_before (c : cres CommandId) (curcid : CommandId) : bool :=
  match c with Ret c => c <? curcid | _ => false end.

(** The insertion counts, where [busy] says which transactions are still
    running (to a snapshot, or now) and [own] whether an insertion by the
    backend's own transaction counts. *)
Definition inserted (busy : TransactionId -> bool) (own : bool) (h : HeapTupleHeader) : bool :=
  if xmin_frozen h then true
  else if moved_off h
  then negb (xact_current (t_field3 h)) && (busy (t_field3 h) || negb (xact_did_commit (t_field3 h)))
  else if moved_in h
  then xact_current (t_field3 h) || (negb (busy (t_field3 h)) && xact_did_commit (t_field3 h))
  else if xact_current (t_xmin h) then own
  else negb (busy (t_xmin h)) && xact_did_commit (t_xmin h).

(** The deletion counts. *)
Definition deleted (busy : TransactionId -> bool) (own : bool) (h : HeapTupleHeader) : bool :=
  match deleter h with
  | None => false
  | Some x => if xact_current x then own else negb (busy x) && xact_did_commit x
  end.

(** ** The invariant *)

(** Finished transactions: [committed] and [gone] (aborted or crashed). *)
Definition committed (x : TransactionId) : Prop :=
  xact_in_progress x = false /\ xact_did_commit x = true.
Definition gone (x : TransactionId) : Prop :=
  xact_in_progress x = false /\ xact_did_commit x = false.

(** What the hint "xmin committed", respectively "xmin invalid", stands for;
    for a tuple moved by VACUUM the outcome of the mover decides. *)
Definition insert_good (h : HeapTupleHeader) : Prop :=
  if moved_off h then gone (t_field3 h)
  else if moved_in h then committed (t_field3 h) else committed (t_xmin h).
Definition insert_bad (h : HeapTupleHeader) : Prop :=
  if moved_off h then committed (t_field3 h)
  else if moved_in h then gone (t_field3 h) else gone (t_xmin h).

Definition delete_good (h : HeapTupleHeader) : Prop :=
  match deleter h with None => True | Some x => committed x end.
Definition delete_bad (h : HeapTupleHeader) : Prop :=
  match deleter h with None => True | Some x => gone x end.

(** The hint bits of a header only repeat what the shared state says. *)
Record hints_ok (h : HeapTupleHeader) : Prop := {
  hint_xmin_committed : bit h 8 = true -> bit h 9 = false -> insert_good h;
  hint_xmin_invalid : bit h 8 = false -> bit h 9 = true -> insert_bad h;
  hint_xmax_committed : bit h 10 = true -> bit h 11 = false -> delete_good h;
  hint_xmax_invalid : bit h 11 = true -> delete_bad h
}.

(** What the heap guarantees about its tuples beside the hints: a MultiXact
    that is not a mere lock has an updater; nobody but the inserting
    transaction can have deleted a tuple it has not committed; and a command id
    of the own transaction can be resolved. *)
Record tuple_ok (h : HeapTupleHeader) : Prop := {
  tuple_updater : only_locked h = false -> is_multi h = true ->
    exists x, HeapTupleGetUpdateXid h = Ret x /\ TransactionIdIsValid x = true;
  tuple_own : bit h 8 = false -> was_moved h = false -> xact_current (t_xmin h) = true ->
    (exists c, tuple_cmin h = Ret c) /\
    forall x, deleter h = Some x -> xact_current x = false -> gone x;
  tuple_own_delete : forall x, deleter h = Some x -> xact_current x = true ->
    was_moved h = false /\ exists c, tuple_cmax h = Ret c
}.

(** [hint_step h h']: [h'] is [h] with more hint bits, and says the same about
    freezing. *)
Record hint_step (h h' : HeapTupleHeader) : Prop := {
  step_xmin : t_xmin h' = t_xmin h;
  step_xmax : t_xmax h' = t_xmax h;
  step_field3 : t_field3 h' = t_field3 h;
  step_ctid : t_ctid h' = t_ctid h;
  step_keeps : forall k, bit h k = true -> bit h' k = true;
  step_only_hints : forall k, k <> 8 -> k <> 9 -> k <> 10 -> k <> 11 -> bit h' k = bit h k;
  step_frozen : xmin_frozen h' = xmin_frozen h
}.

Lemma hint_step_refl h : hint_step h h.
Proof. by constructor. Qed.

Lemma hint_step_trans h1 h2 h3 : hint_step h1 h2 -> hint_step h2 h3 -> hint_step h1 h3.
Proof.
  intros [] []. constructor; try congruence; [by eauto|].
  intros k ????. rewrite step_only_hints1 by done. by apply step_only_hints0.
Qed.

Section step.
Context (h h' : HeapTupleHeader) (Hstep : hint_step h h').

Lemma step_locked : only_locked h' = only_locked h.
Proof using Hstep.
  unfold only_locked. rewrite !locked_only_bits. fold (bit h' 7) (bit h' 12) (bit h' 6) (bit h' 4).
  fold (bit h 7) (bit h 12) (bit h 6) (bit h 4).
  by rewrite !(step_only_hints _ _ Hstep) by done.
Qed.

Lemma step_multi : is_multi h' = is_multi h.
Proof using Hstep. by apply (step_only_hints _ _ Hstep). Qed.

Lemma step_update_xid : HeapTupleGetUpdateXid h' = HeapTupleGetUpdateXid h.
Proof using Hstep.
  unfold HeapTupleGetUpdateXid, MultiXactIdGetUpdateXid, HeapTupleHeaderGetRawXmax.
  rewrite !has_lock_only, !has_multi, (step_xmax _ _ Hstep).
  fold (bit h' 7) (bit h' 12) (bit h 7) (bit h 12). by rewrite !(step_only_hints _ _ Hstep) by done.
Qed.

Lemma step_deleter : deleter h' = deleter h.
Proof using Hstep.
  unfold deleter. by rewrite step_locked, step_multi, step_update_xid, (step_xmax _ _ Hstep).
Qed.

Lemma step_moved : moved_off h' = moved_off h /\ moved_in h' = moved_in h /\ was_moved h' = was_moved h.
Proof using Hstep.
  unfold moved_off, moved_in, was_moved. by rewrite !(step_only_hints _ _ Hstep) by done.
Qed.

Lemma step_cids : tuple_cmin h' = tuple_cmin h /\ tuple_cmax h' = tuple_cmax h.
Proof using Hstep.
  unfold tuple_cmin, tuple_cmax. by rewrite !(step_only_hints _ _ Hstep), (step_field3 _ _ Hstep) by done.
Qed.

Lemma step_deleted busy own : deleted busy own h' = deleted busy own h.
Proof using Hstep. unfold deleted. by rewrite step_deleter. Qed.

Lemma step_insert_good : insert_good h' <-> insert_good h.
Proof using Hstep.
  unfold insert_good. destruct step_moved as (-> & -> & _).
  by rewrite (step_field3 _ _ Hstep), (step_xmin _ _ Hstep).
Qed.

Lemma step_insert_bad : insert_bad h' <-> insert_bad h.
Proof using Hstep.
  unfold insert_bad. destruct step_moved as (-> & -> & _).
  by rewrite (step_field3 _ _ Hstep), (step_xmin _ _ Hstep).
Qed.

Lemma step_delete_good : delete_good h' <-> delete_good h.
Proof using Hstep. unfold delete_good. by rewrite step_deleter. Qed.

Lemma step_delete_bad : delete_bad h' <-> delete_bad h.
Proof using Hstep. unfold delete_bad. by rewrite step_deleter. Qed.

Lemma step_tuple_ok : tuple_ok h -> tuple_ok h'.
Proof using Hstep.
  intros [Hu Ho Hd]. destruct step_moved as (_ & _ & Em). destruct step_cids as [Emin Emax].
  constructor.
  - by rewrite step_locked, step_multi, step_update_xid.
  - rewrite Em, step_deleter, Emin, (step_xmin _ _ Hstep). intros H8. apply Ho.
    destruct (bit h 8) eqn:E; [|done]. by rewrite (step_keeps _ _ Hstep 8 E) in H8.
  - by rewrite Em, step_deleter, Emax.
Qed.
End step.

(** ** Setting a hint bit *)

Definition step_ok (h h' : HeapTupleHeader) : Prop := hint_step h h' /\ hints_ok h' /\ tuple_ok h'.

Lemma step_ok_refl h : hints_ok h -> tuple_ok h -> step_ok h h.
Proof. intros. split_and!; [apply hint_step_refl|done|done]. Qed.

Lemma step_ok_trans h1 h2 h3 : hint_step h1 h2 -> step_ok h2 h3 -> step_ok h1 h3.
Proof. intros H1 (H2 & ? & ?). split_and!; [by eapply hint_step_trans|done|done]. Qed.

(** What justifies setting hint bit [k]. *)
Definition hint_reason (k : Z) (h : HeapTupleHeader) : Prop :=
  (k = 8 /\ bit h 9 = false /\ insert_good h) \/ (k = 9 /\ bit h 8 = false /\ insert_bad h) \/
  (k = 10 /\ delete_good h) \/ (k = 11 /\ delete_bad h).

Lemma bit_set_infomask h k j :
  0 <= k -> bit (set_infomask h (Z.lor (t_infomask h) (2 ^ k))) j = bit h j || (k =? j).
Proof. intros Hk. unfold bit. cbn [t_infomask set_infomask]. by rewrite Z.lor_spec, Z.pow2_bits_eqb. Qed.

Lemma raise_hint_ok k h :
  hints_ok h -> tuple_ok h -> hint_reason k h ->
  step_ok h (set_infomask h (Z.lor (t_infomask h) (2 ^ k))).
Proof.
  intros Hh Ht Hr. set (h' := set_infomask h _).
  assert (0 <= k) as Hk by (unfold hint_reason in Hr; lia).
  assert (forall j, bit h' j = bit h j || (k =? j)) as Hb by (intros j; by apply bit_set_infomask).
  assert (hint_step h h') as Hs.
  { constructor; try done.
    - intros j Hj. by rewrite Hb, Hj.
    - intros j ????. rewrite Hb. destruct (Z.eqb_spec k j) as [->|]; [|by rewrite orb_false_r].
      unfold hint_reason in Hr. lia.
    - unfold xmin_frozen. rewrite !Hb.
      destruct Hr as [(-> & -> & _)|[(-> & -> & _)|[(-> & _)|(-> & _)]]]; cbn;
        by rewrite ?orb_false_r, ?andb_false_r. }
  split_and!; [done| |by eapply step_tuple_ok].
  destruct Hh as [H8 H9 H10 H11].
  constructor; rewrite ?Hb, ?(step_insert_good h h'), ?(step_insert_bad h h'), ?(step_delete_good h h'),
    ?(step_delete_bad h h') by done;
    destruct Hr as [(-> & ? & ?)|[(-> & ? & ?)|[(-> & ?)|(-> & ?)]]]; cbn;
    rewrite ?orb_false_r, ?orb_true_r; intros; (done || (by auto) || congruence).
Qed.

Lemma set_hint_ok k h buffer xid :
  hints_ok h -> tuple_ok h -> hint_reason k h -> step_ok h (SetHintBits h buffer (2 ^ k) xid).
Proof.
  intros. unfold SetHintBits. case_match; [by apply step_ok_refl|by apply raise_hint_ok].
Qed.

Lemma set_xmin_committed_ok h buffer xid :
  hints_ok h -> tuple_ok h -> bit h 9 = false -> insert_good h ->
  step_ok h (SetHintBits h buffer HEAP_XMIN_COMMITTED xid).
Proof. intros. apply (set_hint_ok 8); [done|done|left; done]. Qed.

Lemma set_xmin_invalid_ok h buffer xid :
  hints_ok h -> tuple_ok h -> bit h 8 = false -> insert_bad h ->
  step_ok h (SetHintBits h buffer HEAP_XMIN_INVALID xid).
Proof. intros. apply (set_hint_ok 9); [done|done|right; left; done]. Qed.

Lemma set_xmax_committed_ok h buffer xid :
  hints_ok h -> tuple_ok h -> delete_good h -> step_ok h (SetHintBits h buffer HEAP_XMAX_COMMITTED xid).
Proof. intros. apply (set_hint_ok 10); [done|done|right; right; left; done]. Qed.

Lemma set_xmax_invalid_ok h buffer xid :
  hints_ok h -> tuple_ok h -> delete_bad h -> step_ok h (SetHintBits h buffer HEAP_XMAX_INVALID xid).
Proof. intros. apply (set_hint_ok 11); [done|done|right; right; right; done]. Qed.

(** ** The shared parts of the routines *)

(** A test for running transactions that agrees with [busy], where
    transactions of others that are not [busy] have finished. *)
Definition busy_test (in_progress : TransactionId -> cres bool) (busy : TransactionId -> bool) : Prop :=
  forall x, in_progress x = Ret (busy x) /\
    (busy x = false -> xact_current x = false -> xact_in_progress x = false).

Lemma running_test : busy_test running xact_in_progress.
Proof. by intros x. Qed.

Lemma get_xvac h : was_moved h = true -> HeapTupleHeaderGetXvac h = t_field3 h.
Proof. intros Hm. unfold HeapTupleHeaderGetXvac. rewrite moved_bits. unfold was_moved, bit in Hm. by rewrite Hm. Qed.

Lemma moved_off_spec {R} inprog busy (invisible : R) own h buffer :
  busy_test inprog busy -> hints_ok h -> tuple_ok h ->
  bit h 8 = false -> bit h 9 = false -> moved_off h = true ->
  exists f h', xmin_moved_off inprog invisible h buffer = Ret (f, h') /\ step_ok h h' /\
    (f = Return invisible /\ inserted busy own h = false \/ f = FallThrough /\ inserted busy own h = true).
Proof.
  intros Hb Hh Ht H8 H9 Hm. assert (was_moved h = true) as Hw by (unfold was_moved, moved_off in *; by rewrite Hm).
  unfold xmin_moved_off. rewrite get_xvac by done. destruct (Hb (t_field3 h)) as [-> Hbusy].
  assert (forall P : Prop, P -> step_ok h h /\ P) as Hrefl by (intros; split; [by apply step_ok_refl|done]).
  unfold inserted, xmin_frozen. rewrite H8, Hm. cbn [andb].
  destruct (xact_current (t_field3 h)) eqn:Ec; cbn [negb andb];
    [by eexists _, _; split; [done|]; apply Hrefl; left|].
  cbn [cbind]. destruct (busy (t_field3 h)) eqn:Eb; cbn [negb orb].
  - eexists _, _. split; [done|]. apply Hrefl. by right.
  - specialize (Hbusy eq_refl eq_refl). destruct (xact_did_commit (t_field3 h)) eqn:Ed.
    + eexists _, _. split; [done|]. split; [|by left].
      apply set_xmin_invalid_ok; try done. unfold insert_bad. by rewrite Hm.
    + eexists _, _. split; [done|]. split; [|by right].
      apply set_xmin_committed_ok; try done. unfold insert_good. by rewrite Hm.
Qed.

Lemma moved_in_spec {R} inprog busy (invisible : R) own h buffer :
  busy_test inprog busy -> hints_ok h -> tuple_ok h ->
  bit h 8 = false -> bit h 9 = false -> moved_in h = true ->
  exists f h', xmin_moved_in inprog invisible h buffer = Ret (f, h') /\ step_ok h h' /\
    (f = Return invisible /\ inserted busy own h = false \/ f = FallThrough /\ inserted busy own h = true).
Proof.
  intros Hb Hh Ht H8 H9 Hm.
  assert (was_moved h = true /\ moved_off h = false) as [Hw Ho]
    by (unfold was_moved, moved_in, moved_off in *; destruct (bit h 14), (bit h 15); done).
  unfold xmin_moved_in. rewrite get_xvac by done. destruct (Hb (t_field3 h)) as [-> Hbusy].
  assert (forall P : Prop, P -> step_ok h h /\ P) as Hrefl by (intros; split; [by apply step_ok_refl|done]).
  unfold inserted, xmin_frozen. rewrite H8, Hm, Ho. cbn [andb].
  destruct (xact_current (t_field3 h)) eqn:Ec; cbn [negb orb];
    [by eexists _, _; split; [done|]; apply Hrefl; right|].
  cbn [cbind]. destruct (busy (t_field3 h)) eqn:Eb; cbn [negb andb].
  - eexists _, _. split; [done|]. apply Hrefl. by left.
  - specialize (Hbusy eq_refl eq_refl). destruct (xact_did_commit (t_field3 h)) eqn:Ed.
    + eexists _, _. split; [done|]. split; [|by right].
      apply set_xmin_committed_ok; try done. unfold insert_good. by rewrite Ho, Hm.
    + eexists _, _. split; [done|]. split; [|by left].
      apply set_xmin_invalid_ok; try done. unfold insert_bad. by rewrite Ho, Hm.
Qed.

Lemma finished_spec {R} (invisible : R) h buffer :
  hints_ok h -> tuple_ok h -> bit h 8 = false -> bit h 9 = false -> was_moved h = false ->
  xact_in_progress (t_xmin h) = false ->
  exists f h', xmin_finished invisible h buffer = (f, h') /\ step_ok h h' /\
    (f = Return invisible /\ xact_did_commit (t_xmin h) = false \/
     f = FallThrough /\ xact_did_commit (t_xmin h) = true).
Proof.
  intros Hh Ht H8 H9 Hm Hp. unfold xmin_finished, HeapTupleHeaderGetRawXmin.
  assert (moved_off h = false /\ moved_in h = false) as [Ho Hi]
    by (unfold was_moved, moved_in, moved_off in *; destruct (bit h 14), (bit h 15); done).
  destruct (xact_did_commit (t_xmin h)) eqn:Ed; eexists _, _; (split; [done|]); (split; [|by auto]).
  - apply set_xmin_committed_ok; try done. unfold insert_good. by rewrite Ho, Hi.
  - apply set_xmin_invalid_ok; try done. unfold insert_bad. by rewrite Ho, Hi.
Qed.

(** Command ids of the own transaction. *)
Lemma get_cmin_own h :
  tuple_ok h -> bit h 8 = false -> was_moved h = false -> xact_current (t_xmin h) = true ->
  exists c, HeapTupleHeaderGetCmin h = Ret c /\ tuple_cmin h = Ret c.
Proof.
  intros Ht H8 Hm Hc. destruct (tuple_own h Ht H8 Hm Hc) as [[c Ec] _]. exists c. split; [|done].
  unfold HeapTupleHeaderGetCmin, HeapTupleHeaderGetXmin, HeapTupleHeaderGetRawXmin, HeapTupleHeaderGetRawCommandId.
  rewrite moved_bits, xmin_frozen_bits, has_combocid.
  unfold was_moved, bit, tuple_cmin in *. rewrite Hm, H8. cbn [negb andb c_assert cbind]. by rewrite Hc.
Qed.

Lemma get_cmax_own h x :
  tuple_ok h -> bit h 11 = false -> deleter h = Some x -> xact_current x = true ->
  exists c, HeapTupleHeaderGetCmax h = Ret c /\ tuple_cmax h = Ret c.
Proof.
  intros Ht H11 Hd Hc. destruct (tuple_own_delete h Ht x Hd Hc) as [Hm [c Ec]]. exists c. split; [|done].
  unfold HeapTupleHeaderGetCmax, HeapTupleHeaderGetRawCommandId.
  rewrite moved_bits, has_combocid. unfold was_moved, bit in Hm. rewrite Hm. cbn [negb c_assert cbind].
  assert (HeapTupleHeaderGetUpdateXid h = Ret x) as ->.
  { unfold HeapTupleHeaderGetUpdateXid. rewrite has_xmax_invalid, has_multi, has_lock_only.
    fold (bit h 11) (bit h 12) (bit h 7). rewrite H11. unfold deleter, only_locked in Hd.
    rewrite locked_only_bits in Hd. fold (bit h 12) (bit h 7) in Hd. unfold is_multi in Hd. cbn [negb andb].
    destruct (bit h 7), (bit h 12); cbn [orb negb andb] in *; try done.
    - destruct (HeapTupleGetUpdateXid h); congruence.
    - case_match; [done|]. by injection Hd as <-. }
  unfold tuple_cmax, bit in Ec.
  destruct (0 <? CritSectionCount); cbn [cbind]; rewrite ?Hc; cbn [c_assert cbind]; done.
Qed.
End Spec.

(** A backend's own transactions are in progress. *)
Class BackendLaws `{SharedXacts} `{Backend} : Prop :=
  current_in_progress : forall x, xact_current x = true -> xact_in_progress x = true.

Lemma finished_not_current `{BackendLaws} x : xact_in_progress x = false -> xact_current x = false.
Proof.
  intros Hp. destruct (xact_current x) eqn:E; [|done]. apply current_in_progress in E. congruence.
Qed.
