(* ===== verification/TqualProofs.v ===== *)
(** The visibility routines against their specification: the answer of each of
    them is the hint-free one, and the hint bits they leave keep the invariant
    of [TqualSpec.v]. *)
From S2P Require Import Prelude Transam HeapTuple Combocid Tqual TqualSpec.

Section Proofs.
Context `{BackendLaws}.

(** ** Shared lemmas *)

Lemma insert_bad_never busy own h :
  xmin_frozen h = false -> insert_bad h ->
  (was_moved h = true -> xact_in_progress (t_field3 h) = false -> busy (t_field3 h) = false) ->
  inserted busy own h = false.
Proof.
  intros Hf Hbad Hb. unfold inserted, insert_bad, was_moved, moved_in, moved_off in *. rewrite Hf.
  destruct (bit h 14); cbn [orb negb andb] in *.
  - destruct Hbad as [Hp ->]. by rewrite (Hb eq_refl Hp), andb_false_r.
  - destruct (bit h 15); destruct Hbad as [Hp ->]; by rewrite (finished_not_current _ Hp), andb_false_r.
Qed.

Lemma xmin_invalid_hint busy own h :
  hints_ok h -> bit h 8 = false -> bit h 9 = true ->
  (was_moved h = true -> xact_in_progress (t_field3 h) = false -> busy (t_field3 h) = false) ->
  inserted busy own h = false.
Proof.
  intros Hh H8 H9. apply insert_bad_never; [unfold xmin_frozen; by rewrite H8|by apply hint_xmin_invalid].
Qed.

Lemma xmin_committed_hint busy own h :
  hints_ok h -> bit h 8 = true -> bit h 9 = false ->
  (was_moved h = true -> xact_in_progress (t_field3 h) = false -> busy (t_field3 h) = false) ->
  inserted busy own h = if was_moved h then true else negb (busy (t_xmin h)).
Proof.
  intros Hh H8 H9 Hb. pose proof (hint_xmin_committed h Hh H8 H9) as Hgood.
  unfold inserted, xmin_frozen, insert_good, was_moved, moved_in, moved_off in *. rewrite H8, H9. cbn [andb].
  destruct (bit h 14); cbn [orb negb andb] in *.
  - destruct Hgood as [Hp ->]. by rewrite (finished_not_current _ Hp), orb_true_r.
  - destruct (bit h 15); destruct Hgood as [Hp ->]; rewrite (finished_not_current _ Hp), andb_true_r; [|done].
    by rewrite (Hb eq_refl Hp).
Qed.

Lemma not_moved h : bit h 14 = false -> bit h 15 = false ->
  was_moved h = false /\ moved_off h = false /\ moved_in h = false.
Proof. unfold was_moved, moved_off, moved_in. by intros -> ->. Qed.

Lemma inserted_plain busy own h :
  bit h 8 = false -> was_moved h = false ->
  inserted busy own h =
    if xact_current (t_xmin h) then own else negb (busy (t_xmin h)) && xact_did_commit (t_xmin h).
Proof.
  unfold inserted, xmin_frozen, was_moved, moved_in, moved_off. intros ->.
  destruct (bit h 14), (bit h 15); done.
Qed.

(** The three shapes of an xmax that is not marked invalid. *)
Lemma deleter_cases h : tuple_ok h ->
  (only_locked h = true /\ deleter h = None) \/
  (only_locked h = false /\ is_multi h = true /\
   exists x, HeapTupleGetUpdateXid h = Ret x /\ TransactionIdIsValid x = true /\ deleter h = Some x) \/
  (only_locked h = false /\ is_multi h = false /\ deleter h = Some (t_xmax h)).
Proof.
  intros Ht. unfold deleter. destruct (only_locked h) eqn:El; [by left|right].
  destruct (is_multi h) eqn:Em; [left|by right].
  destruct (tuple_updater h Ht El Em) as (x & -> & Hv). split_and!; [done|done|by exists x].
Qed.

Lemma deleted_some busy own h x : deleter h = Some x ->
  deleted busy own h = if xact_current x then own else negb (busy x) && xact_did_commit x.
Proof. unfold deleted. by intros ->. Qed.

Lemma deleted_none busy own h : deleter h = None -> deleted busy own h = false.
Proof. unfold deleted. by intros ->. Qed.

Lemma xmax_invalid_hint busy own h :
  hints_ok h -> bit h 11 = true -> deleted busy own h = false.
Proof.
  intros Hh H11. pose proof (hint_xmax_invalid h Hh H11) as Hbad. unfold delete_bad in Hbad.
  destruct (deleter h) as [x|] eqn:E; [|by apply deleted_none].
  destruct Hbad as [Hp Hc]. rewrite (deleted_some _ _ _ x E), (finished_not_current _ Hp), Hc.
  apply andb_false_r.
Qed.

Lemma xmax_committed_hint busy own h x :
  hints_ok h -> bit h 10 = true -> bit h 11 = false -> deleter h = Some x ->
  committed x /\ xact_current x = false /\ deleted busy own h = negb (busy x).
Proof.
  intros Hh H10 H11 E. pose proof (hint_xmax_committed h Hh H10 H11) as Hgood. unfold delete_good in Hgood.
  rewrite E in Hgood. destruct Hgood as [Hp Hc]. pose proof (finished_not_current _ Hp) as Hn.
  split_and!; [done|done|]. by rewrite (deleted_some _ _ _ x E), Hn, Hc, andb_true_r.
Qed.

Lemma delete_bad_gone h x : deleter h = Some x -> gone x -> delete_bad h.
Proof. unfold delete_bad. by intros ->. Qed.
Lemma delete_bad_none h : deleter h = None -> delete_bad h.
Proof. unfold delete_bad. by intros ->. Qed.
Lemma delete_good_committed h x : deleter h = Some x -> committed x -> delete_good h.
Proof. unfold delete_good. by intros ->. Qed.

Lemma and_then_spec {R} (c : cres (flow R * HeapTupleHeader)) k f h :
  c = Ret (f, h) -> and_then c k = match f with Return r => Ret (r, h) | FallThrough => k h end.
Proof. by intros ->. Qed.

(** ** HeapTupleSatisfiesMVCC *)

Section MVCC.
Context (snap : SnapshotData).

Definition in_snap (x : TransactionId) : bool :=
  match XidInMVCCSnapshot x snap with Ret b => b | _ => false end.

(** The snapshot answers for every id, and an id of another backend that is
    running now was running, or not yet started, when it was taken. *)
Definition snap_ok : Prop := busy_test (fun x => XidInMVCCSnapshot x snap) in_snap.

(** Tuples moved by an old-style VACUUM come from before the upgrade: the
    transactions in them precede every snapshot. *)
Definition moved_old (h : HeapTupleHeader) : Prop :=
  was_moved h = true -> in_snap (t_xmin h) = false /\ in_snap (t_field3 h) = false.

(** The tuple exists for the snapshot: inserted by a transaction (for the own
    one: by a command) the snapshot sees, and not deleted by such a one. *)
Definition mvcc_visible (h : HeapTupleHeader) : bool :=
  inserted in_snap (cid_before (tuple_cmin h) (snap_curcid snap)) h &&
  negb (deleted in_snap (cid_before (tuple_cmax h) (snap_curcid snap)) h).

Hypothesis Hsnap : snap_ok.

Lemma cmax_after_spec h x :
  tuple_ok h -> bit h 11 = false -> deleter h = Some x -> xact_current x = true ->
  cmax_after snap h =
    Ret (negb (deleted in_snap (cid_before (tuple_cmax h) (snap_curcid snap)) h), h).
Proof.
  intros Ht H11 Hd Hc. destruct (get_cmax_own h x Ht H11 Hd Hc) as (c & E & Ec).
  unfold cmax_after. rewrite E, (deleted_some _ _ _ x Hd), Hc, Ec. cbn [cbind cid_before].
  destruct (Z.leb_spec (snap_curcid snap) c), (Z.ltb_spec c (snap_curcid snap)); done || lia.
Qed.

Lemma mvcc_own_spec h buffer :
  hints_ok h -> tuple_ok h -> bit h 8 = false -> was_moved h = false -> xact_current (t_xmin h) = true ->
  exists h', MVCC_own h snap buffer = Ret (mvcc_visible h, h') /\ step_ok h h'.
Proof.
  intros Hh Ht H8 Hm Hc. destruct (get_cmin_own h Ht H8 Hm Hc) as (c & E & Ec).
  destruct (tuple_own h Ht H8 Hm Hc) as [_ Hgone]. pose proof (step_ok_refl h Hh Ht) as Hrefl.
  unfold MVCC_own, mvcc_visible. rewrite E, inserted_plain, Hc, Ec by done. cbn [cbind cid_before].
  destruct (Z.leb_spec (snap_curcid snap) c), (Z.ltb_spec c (snap_curcid snap)); try lia;
    cbn [andb]; [by exists h|].
  rewrite has_xmax_invalid, has_multi. fold (bit h 11) (bit h 12) (only_locked h) (is_multi h).
  destruct (bit h 11) eqn:E11; [rewrite xmax_invalid_hint by done; by exists h|].
  destruct (deleter_cases h Ht) as [[-> Hd]|[(-> & -> & x & -> & Hv & Hd)|(-> & -> & Hd)]].
  - rewrite deleted_none by done. by exists h.
  - cbn [cbind]. rewrite Hv. cbn [cbind c_assert]. destruct (xact_current x) eqn:Ex; cbn [negb].
    + rewrite (cmax_after_spec h x) by done. by exists h.
    + rewrite (deleted_some _ _ _ x Hd), Ex. destruct (Hgone x Hd Ex) as [_ ->].
      rewrite andb_false_r. by exists h.
  - unfold HeapTupleHeaderGetRawXmax. destruct (xact_current (t_xmax h)) eqn:Ex; cbn [negb].
    + rewrite (cmax_after_spec h (t_xmax h)) by done. by exists h.
    + rewrite (deleted_some _ _ _ _ Hd), Ex. destruct (Hgone _ Hd Ex) as [Hp Hdc]. rewrite Hdc, andb_false_r.
      eexists. split; [done|]. apply set_xmax_invalid_ok; try done. by eapply delete_bad_gone.
Qed.

Lemma mvcc_xmin_spec h buffer :
  hints_ok h -> tuple_ok h -> moved_old h ->
  exists f h', MVCC_xmin h snap buffer = Ret (f, h') /\ step_ok h h' /\
    match f with
    | Return r => r = mvcc_visible h
    | FallThrough => inserted in_snap (cid_before (tuple_cmin h) (snap_curcid snap)) h = true
    end.
Proof.
  intros Hh Ht Hmv. pose proof (step_ok_refl h Hh Ht) as Hrefl.
  set (own := cid_before (tuple_cmin h) (snap_curcid snap)).
  assert (forall r : bool, r = false -> inserted in_snap own h = false -> r = mvcc_visible h) as Hinv.
  { intros r -> Hi. unfold mvcc_visible. fold own. by rewrite Hi. }
  assert (was_moved h = true -> xact_in_progress (t_field3 h) = false -> in_snap (t_field3 h) = false) as Hmb
    by (intros Hw _; by apply Hmv).
  unfold MVCC_xmin. rewrite xmin_committed_bits, xmin_invalid_bits, xmin_frozen_bits, has_moved_off, has_moved_in.
  fold (bit h 8) (bit h 9) (bit h 14) (bit h 15).
  destruct (bit h 8) eqn:E8; cbn [negb andb].
  - destruct (bit h 9) eqn:E9; cbn [negb].
    + eexists _, _. split_and!; [done|done|]. unfold inserted, xmin_frozen. by rewrite E8, E9.
    + destruct (Hsnap (HeapTupleHeaderGetRawXmin h)) as [-> _]. cbn [cbind]. unfold HeapTupleHeaderGetRawXmin.
      pose proof (xmin_committed_hint in_snap own h Hh E8 E9 Hmb) as Hi.
      destruct (in_snap (t_xmin h)) eqn:Es; eexists _, _; (split_and!; [done|done|]).
      * apply Hinv; [done|]. rewrite Hi. destruct (was_moved h) eqn:Ew; [|done].
        destruct (Hmv Ew). congruence.
      * rewrite Hi. by destruct (was_moved h).
  - destruct (bit h 9) eqn:E9.
    + eexists _, _. split_and!; [done|done|]. apply Hinv; [done|]. by apply xmin_invalid_hint.
    + destruct (bit h 14) eqn:E14; [|destruct (bit h 15) eqn:E15].
      * destruct (moved_off_spec (fun x => XidInMVCCSnapshot x snap) in_snap false own h buffer Hsnap Hh Ht E8 E9 E14)
          as (f & h' & -> & Hs & Hf). eexists _, _. split_and!; [done|done|].
        destruct Hf as [[-> Hi]|[-> Hi]]; [by apply Hinv|done].
      * assert (moved_in h = true) as Hmi by (unfold moved_in; by rewrite E14, E15).
        destruct (moved_in_spec (fun x => XidInMVCCSnapshot x snap) in_snap false own h buffer Hsnap Hh Ht E8 E9 Hmi)
          as (f & h' & -> & Hs & Hf). eexists _, _. split_and!; [done|done|].
        destruct Hf as [[-> Hi]|[-> Hi]]; [by apply Hinv|done].
      * destruct (not_moved h E14 E15) as (Hw & _ & _). unfold HeapTupleHeaderGetRawXmin.
        pose proof (inserted_plain in_snap own h E8 Hw) as Hi.
        destruct (xact_current (t_xmin h)) eqn:Ec.
        -- destruct (mvcc_own_spec h buffer Hh Ht E8 Hw Ec) as (h' & -> & Hs). cbn [cbind].
           eexists _, _. by split_and!.
        -- destruct (Hsnap (t_xmin h)) as [-> Hb]. cbn [cbind]. destruct (in_snap (t_xmin h)) eqn:Es.
           ++ eexists _, _. split_and!; [done|done|]. by apply Hinv.
           ++ specialize (Hb eq_refl Ec).
              destruct (finished_spec false h buffer Hh Ht E8 E9 Hw Hb) as (f & h' & -> & Hs & Hf).
              eexists _, _. split_and!; [done|done|]. destruct Hf as [[-> Hc]|[-> Hc]]; rewrite Hc in Hi;
                [by apply Hinv|done].
Qed.

Lemma mvcc_xmax_spec h buffer :
  hints_ok h -> tuple_ok h ->
  exists h', MVCC_xmax h snap buffer =
      Ret (negb (deleted in_snap (cid_before (tuple_cmax h) (snap_curcid snap)) h), h') /\ step_ok h h'.
Proof.
  intros Hh Ht. pose proof (step_ok_refl h Hh Ht) as Hrefl. unfold MVCC_xmax, HeapTupleHeaderGetRawXmax.
  set (own := cid_before (tuple_cmax h) (snap_curcid snap)).
  rewrite has_xmax_invalid, has_multi, has_xmax_committed.
  fold (bit h 11) (bit h 12) (bit h 10) (only_locked h) (is_multi h).
  destruct (bit h 11) eqn:E11; [rewrite xmax_invalid_hint by done; by exists h|].
  destruct (deleter_cases h Ht) as [[-> Hd]|[(-> & -> & x & -> & Hv & Hd)|(-> & -> & Hd)]].
  - rewrite deleted_none by done. by exists h.
  - cbn [negb cbind c_assert]. rewrite Hv. cbn [cbind c_assert]. destruct (xact_current x) eqn:Ex.
    + rewrite (cmax_after_spec h x) by done. by exists h.
    + destruct (Hsnap x) as [-> _]. rewrite (deleted_some _ _ _ x Hd), Ex. cbn [cbind].
      destruct (in_snap x); [by exists h|]. destruct (xact_did_commit x); by exists h.
  - destruct (bit h 10) eqn:E10; cbn [negb].
    + destruct (xmax_committed_hint in_snap own h _ Hh E10 E11 Hd) as (_ & _ & ->).
      destruct (Hsnap (t_xmax h)) as [-> _]. cbn [cbind]. destruct (in_snap (t_xmax h)); by exists h.
    + destruct (xact_current (t_xmax h)) eqn:Ex.
      * rewrite (cmax_after_spec h (t_xmax h)) by done. by exists h.
      * destruct (Hsnap (t_xmax h)) as [-> Hb]. rewrite (deleted_some _ _ _ _ Hd), Ex. cbn [cbind].
        destruct (in_snap (t_xmax h)); [by exists h|]. specialize (Hb eq_refl Ex).
        destruct (xact_did_commit (t_xmax h)) eqn:Ed; cbn [negb andb]; (eexists; split; [done|]).
        -- apply set_xmax_committed_ok; try done. by eapply delete_good_committed.
        -- apply set_xmax_invalid_ok; try done. by eapply delete_bad_gone.
Qed.

Lemma mvcc_answer htup buffer :
  check_htup htup = Ret tt -> hints_ok (t_data htup) -> tuple_ok (t_data htup) -> moved_old (t_data htup) ->
  exists h', HeapTupleSatisfiesMVCC htup snap buffer = Ret (mvcc_visible (t_data htup), h') /\
    step_ok (t_data htup) h'.
Proof.
  intros Hc Hh Ht Hm. unfold HeapTupleSatisfiesMVCC. rewrite Hc. cbn [cbind].
  destruct (mvcc_xmin_spec (t_data htup) buffer Hh Ht Hm) as (f & h' & E & Hs & Hf).
  rewrite (and_then_spec _ _ _ _ E). destruct f as [r|]; [subst r; by exists h'|].
  destruct Hs as (Hst & Hh' & Ht'). destruct (mvcc_xmax_spec h' buffer Hh' Ht') as (h'' & E' & Hs'').
  exists h''. rewrite E'. split; [|by eapply step_ok_trans].
  unfold mvcc_visible. rewrite Hf. cbn [andb].
  rewrite (step_deleted _ _ Hst). by destruct (step_cids _ _ Hst) as [_ ->].
Qed.
End MVCC.

(** ** HeapTupleSatisfiesSelf and HeapTupleSatisfiesDirty *)

(** The tuple exists now, own changes included. *)
Definition self_visible (h : HeapTupleHeader) : bool :=
  inserted xact_in_progress true h && negb (deleted xact_in_progress true h).

Lemma self_own_spec h buffer :
  hints_ok h -> tuple_ok h -> bit h 8 = false -> was_moved h = false -> xact_current (t_xmin h) = true ->
  exists h', Self_own h buffer = Ret (self_visible h, h') /\ step_ok h h'.
Proof.
  intros Hh Ht H8 Hm Hc. destruct (tuple_own h Ht H8 Hm Hc) as [_ Hgone].
  pose proof (step_ok_refl h Hh Ht) as Hrefl.
  unfold Self_own, self_visible. rewrite inserted_plain, Hc by done. cbn [andb].
  rewrite has_xmax_invalid, has_multi. fold (bit h 11) (bit h 12) (only_locked h) (is_multi h).
  destruct (bit h 11) eqn:E11; [rewrite xmax_invalid_hint by done; by exists h|].
  destruct (deleter_cases h Ht) as [[-> Hd]|[(-> & -> & x & -> & Hv & Hd)|(-> & -> & Hd)]].
  - rewrite deleted_none by done. by exists h.
  - cbn [cbind]. rewrite Hv, (deleted_some _ _ _ x Hd). cbn [cbind c_assert].
    destruct (xact_current x) eqn:Ex; cbn [negb]; [by exists h|].
    destruct (Hgone x Hd Ex) as [_ ->]. rewrite andb_false_r. by exists h.
  - unfold HeapTupleHeaderGetRawXmax. rewrite (deleted_some _ _ _ _ Hd).
    destruct (xact_current (t_xmax h)) eqn:Ex; cbn [negb]; [by exists h|].
    destruct (Hgone _ Hd Ex) as [Hp Hdc]. rewrite Hdc, andb_false_r.
    eexists. split; [done|]. apply set_xmax_invalid_ok; try done. by eapply delete_bad_gone.
Qed.

(** Another transaction is still inserting the tuple. *)
Definition insert_pending (h : HeapTupleHeader) : bool :=
  negb (xmin_frozen h) && negb (was_moved h) && negb (xact_current (t_xmin h)) && xact_in_progress (t_xmin h).

(** A deleter other than the own transaction that is still running. *)
Definition delete_pending (h : HeapTupleHeader) : option TransactionId :=
  match deleter h with
  | Some x => if negb (xact_current x) && xact_in_progress x then Some x else None
  | None => None
  end.

(** The answer of [HeapTupleSatisfiesDirty] and what it stores in the snapshot. *)
Definition dirty_spec (h : HeapTupleHeader) : bool * dirty_out :=
  if insert_pending h
  then (true, {| out_xmin := t_xmin h; out_xmax := InvalidTransactionId;
                 out_token := if HeapTupleHeaderIsSpeculative h then ip_blkid (t_ctid h) else 0 |})
  else (self_visible h,
        if inserted xact_in_progress true h
        then match delete_pending h with Some x => out_deleter x | None => no_out end
        else no_out).

(** A speculative insertion in progress carries a token. *)
Definition token_ok (h : HeapTupleHeader) : Prop :=
  insert_pending h = true -> HeapTupleHeaderIsSpeculative h = true -> ip_blkid (t_ctid h) <> 0.

Lemma hinted_not_pending h : hints_ok h -> bit h 8 || bit h 9 = true -> insert_pending h = false.
Proof.
  intros Hh Hb. unfold insert_pending, xmin_frozen.
  destruct (was_moved h) eqn:Em; [by rewrite andb_false_r|].
  assert (bit h 8 && bit h 9 = true \/ xact_in_progress (t_xmin h) = false) as [-> | ->]; [|done|by rewrite andb_false_r].
  destruct (bit h 8) eqn:E8, (bit h 9) eqn:E9; try done; [by left|right..].
  - pose proof (hint_xmin_committed h Hh E8 E9) as Hg. unfold insert_good, was_moved, moved_off, moved_in in *.
    destruct (bit h 14), (bit h 15); try done. by destruct Hg.
  - pose proof (hint_xmin_invalid h Hh E8 E9) as Hg. unfold insert_bad, was_moved, moved_off, moved_in in *.
    destruct (bit h 14), (bit h 15); try done. by destruct Hg.
Qed.

Lemma xmax_done_not_pending h : delete_bad h \/ delete_good h -> delete_pending h = None.
Proof.
  unfold delete_bad, delete_good, delete_pending. destruct (deleter h) as [x|]; [|done].
  intros [[-> _]|[-> _]]; by rewrite andb_false_r.
Qed.

(** One proof for the xmax parts of Self and Dirty: Dirty also reports. *)
Lemma dirty_xmax_spec h buffer :
  hints_ok h -> tuple_ok h ->
  exists h', Dirty_xmax h buffer =
      Ret (negb (deleted xact_in_progress true h),
           match delete_pending h with Some x => out_deleter x | None => no_out end, h') /\
    Self_xmax h buffer = Ret (negb (deleted xact_in_progress true h), h') /\ step_ok h h'.
Proof.
  intros Hh Ht. pose proof (step_ok_refl h Hh Ht) as Hrefl.
  unfold Dirty_xmax, Self_xmax, HeapTupleHeaderGetRawXmax.
  rewrite has_xmax_invalid, has_multi, has_xmax_committed.
  fold (bit h 11) (bit h 12) (bit h 10) (only_locked h) (is_multi h).
  destruct (bit h 11) eqn:E11.
  { rewrite xmax_invalid_hint, xmax_done_not_pending by (done || (left; by apply hint_xmax_invalid)). by exists h. }
  destruct (bit h 10) eqn:E10.
  { rewrite xmax_done_not_pending by (right; by apply hint_xmax_committed).
    destruct (only_locked h) eqn:El.
    - rewrite deleted_none by (unfold deleter; by rewrite El). by exists h.
    - destruct (deleter_cases h Ht) as [[? _]|[(_ & _ & x & _ & _ & Hd)|(_ & _ & Hd)]]; [congruence|..];
        destruct (xmax_committed_hint xact_in_progress true h _ Hh E10 E11 Hd) as ([-> _] & _ & ->); by exists h. }
  destruct (deleter_cases h Ht) as [[El Hd]|[(El & -> & x & -> & Hv & Hd)|(El & -> & Hd)]]; rewrite El; cbn [negb].
  - rewrite deleted_none by done. unfold delete_pending. rewrite Hd. destruct (is_multi h); [by exists h|].
    destruct (xact_current (t_xmax h)); [by exists h|]. destruct (xact_in_progress (t_xmax h)); [by exists h|].
    destruct (xact_did_commit (t_xmax h)); cbn [negb]; (eexists; split_and!; [done|done|]);
      apply set_xmax_invalid_ok; try done; by apply delete_bad_none.
  - cbn [cbind]. rewrite Hv. cbn [cbind c_assert]. rewrite (deleted_some _ _ _ x Hd).
    unfold delete_pending. rewrite Hd.
    destruct (xact_current x); [by exists h|]. cbn [negb andb].
    destruct (xact_in_progress x); [by exists h|]. destruct (xact_did_commit x); by exists h.
  - rewrite (deleted_some _ _ _ _ Hd). unfold delete_pending. rewrite Hd.
    destruct (xact_current (t_xmax h)) eqn:Ex; [by exists h|]. cbn [negb andb].
    destruct (xact_in_progress (t_xmax h)) eqn:Ep; [by exists h|].
    destruct (xact_did_commit (t_xmax h)) eqn:Ed; cbn [negb andb]; (eexists; split_and!; [done|done|]).
    + apply set_xmax_committed_ok; try done. by eapply delete_good_committed.
    + apply set_xmax_invalid_ok; try done. by eapply delete_bad_gone.
Qed.

(** The chain of tests on xmin that Self, Dirty and Update share, with their
    own branches left open. *)
Definition xmin_chain {R} (invisible : R) (own pend : cres (flow R * HeapTupleHeader))
    (h : HeapTupleHeader) (buffer : Z) : cres (flow R * HeapTupleHeader) :=
  if negb (HeapTupleHeaderXminCommitted h) then
    if HeapTupleHeaderXminInvalid h then Ret (Return invisible, h)
    else if has (t_infomask h) HEAP_MOVED_OFF then xmin_moved_off running invisible h buffer
    else if has (t_infomask h) HEAP_MOVED_IN then xmin_moved_in running invisible h buffer
    else if xact_current (t_xmin h) then own
    else if xact_in_progress (t_xmin h) then pend
    else Ret (xmin_finished invisible h buffer)
  else Ret (FallThrough, h).

Inductive chain_outcome {R} (invisible : R) (own pend : cres (flow R * HeapTupleHeader))
    (h : HeapTupleHeader) : cres (flow R * HeapTupleHeader) -> Prop :=
  | chain_invisible h' :
      step_ok h h' -> insert_pending h = false ->
      (forall o, inserted xact_in_progress o h = false) -> chain_outcome invisible own pend h (Ret (Return invisible, h'))
  | chain_falls h' :
      step_ok h h' -> insert_pending h = false ->
      (forall o, inserted xact_in_progress o h = true) -> chain_outcome invisible own pend h (Ret (FallThrough, h'))
  | chain_own :
      bit h 8 = false -> was_moved h = false -> xact_current (t_xmin h) = true ->
      insert_pending h = false -> chain_outcome invisible own pend h own
  | chain_pending :
      insert_pending h = true -> (forall o, inserted xact_in_progress o h = false) ->
      chain_outcome invisible own pend h pend.

Lemma xmin_chain_spec {R} (invisible : R) own pend h buffer :
  hints_ok h -> tuple_ok h -> chain_outcome invisible own pend h (xmin_chain invisible own pend h buffer).
Proof.
  intros Hh Ht. pose proof (step_ok_refl h Hh Ht) as Hrefl. unfold xmin_chain.
  rewrite xmin_committed_bits, xmin_invalid_bits, has_moved_off, has_moved_in.
  fold (bit h 8) (bit h 9) (bit h 14) (bit h 15). pose proof (hinted_not_pending h Hh) as Hnp.
  destruct (bit h 8) eqn:E8; cbn [negb andb].
  - apply chain_falls; [done|by apply Hnp|]. intros o. destruct (bit h 9) eqn:E9.
    + unfold inserted, xmin_frozen. by rewrite E8, E9.
    + rewrite xmin_committed_hint by done. destruct (was_moved h) eqn:Ew; [done|].
      pose proof (hint_xmin_committed h Hh E8 E9) as Hg. unfold insert_good, was_moved, moved_off, moved_in in *.
      destruct (bit h 14), (bit h 15); try done. by destruct Hg as [-> _].
  - destruct (bit h 9) eqn:E9; [apply chain_invisible; [done|by apply Hnp|]; intros o; by apply xmin_invalid_hint|].
    assert (was_moved h = true -> insert_pending h = false) as Hmp
      by (unfold insert_pending; intros ->; by rewrite andb_false_r).
    destruct (bit h 14) eqn:E14; [|destruct (bit h 15) eqn:E15].
    + assert (was_moved h = true) as Hw by (unfold was_moved; by rewrite E14).
      destruct (moved_off_spec running xact_in_progress invisible true h buffer running_test Hh Ht E8 E9 E14)
        as (f & h' & -> & Hs & Hf).
      assert (forall o, inserted xact_in_progress o h = inserted xact_in_progress true h) as Ho
        by (intros o; unfold inserted, moved_off; by rewrite E14).
      destruct Hf as [[-> Hi]|[-> Hi]]; [apply chain_invisible|apply chain_falls]; auto; intros o; by rewrite Ho.
    + assert (was_moved h = true) as Hw by (unfold was_moved; by rewrite E15, orb_true_r).
      assert (moved_in h = true) as Hmi by (unfold moved_in; by rewrite E14, E15).
      destruct (moved_in_spec running xact_in_progress invisible true h buffer running_test Hh Ht E8 E9 Hmi)
        as (f & h' & -> & Hs & Hf).
      assert (forall o, inserted xact_in_progress o h = inserted xact_in_progress true h) as Ho
        by (intros o; unfold inserted, moved_off; by rewrite E14, Hmi).
      destruct Hf as [[-> Hi]|[-> Hi]]; [apply chain_invisible|apply chain_falls]; auto; intros o; by rewrite Ho.
    + destruct (not_moved h E14 E15) as (Hw & _ & _).
      assert (insert_pending h = negb (xact_current (t_xmin h)) && xact_in_progress (t_xmin h)) as Hp
        by (unfold insert_pending, xmin_frozen; by rewrite E8, Hw).
      pose proof (fun o => inserted_plain xact_in_progress o h E8 Hw) as Hi.
      destruct (xact_current (t_xmin h)) eqn:Ec; [by apply chain_own|].
      destruct (xact_in_progress (t_xmin h)) eqn:Ep; [by apply chain_pending|].
      destruct (finished_spec invisible h buffer Hh Ht E8 E9 Hw Ep) as (f & h' & -> & Hs & Hf).
      destruct Hf as [[-> Hc]|[-> Hc]]; [apply chain_invisible|apply chain_falls]; try done; intros o;
        by rewrite Hi, Hc.
Qed.

Lemma self_answer htup buffer :
  check_htup htup = Ret tt -> hints_ok (t_data htup) -> tuple_ok (t_data htup) ->
  exists h', HeapTupleSatisfiesSelf htup buffer = Ret (self_visible (t_data htup), h') /\
    step_ok (t_data htup) h'.
Proof.
  intros Hc Hh Ht. unfold HeapTupleSatisfiesSelf. rewrite Hc. cbn [cbind]. set (h := t_data htup) in *.
  change (Self_xmin h buffer) with
    (xmin_chain false (let* (r, tuple) := Self_own h buffer in Ret (Return r, tuple))
       (Ret (Return false, h)) h buffer).
  destruct (xmin_chain_spec false (let* (r, tuple) := Self_own h buffer in Ret (Return r, tuple))
       (Ret (Return false, h)) h buffer Hh Ht) as [h' Hs _ Hi|h' Hs _ Hi|H8 Hw Hcur _|Hp Hi]; cbn [and_then cbind].
  - exists h'. unfold self_visible. by rewrite Hi.
  - destruct Hs as (Hst & Hh' & Ht'). destruct (dirty_xmax_spec h' buffer Hh' Ht') as (h'' & _ & -> & Hs'').
    exists h''. split; [|by eapply step_ok_trans]. unfold self_visible. by rewrite Hi, (step_deleted _ _ Hst).
  - destruct (self_own_spec h buffer Hh Ht H8 Hw Hcur) as (h' & -> & Hs). cbn [cbind]. by exists h'.
  - exists h. unfold self_visible. rewrite Hi. split; [done|by apply step_ok_refl].
Qed.

Lemma dirty_answer htup snap buffer :
  check_htup htup = Ret tt -> hints_ok (t_data htup) -> tuple_ok (t_data htup) -> token_ok (t_data htup) ->
  exists h', HeapTupleSatisfiesDirty htup snap buffer =
      Ret ((dirty_spec (t_data htup)).1, store_out snap (dirty_spec (t_data htup)).2, h') /\
    step_ok (t_data htup) h'.
Proof.
  intros Hc Hh Ht Htok. unfold HeapTupleSatisfiesDirty. rewrite Hc. cbn [cbind]. set (h := t_data htup) in *.
  set (own := let* (r, tuple) := Self_own h buffer in Ret (Return (r, no_out), tuple)).
  set (pend := let* token := (if HeapTupleHeaderIsSpeculative h then
                 let* token := HeapTupleHeaderGetSpeculativeToken h in
                 c_assert (negb (token =? 0)) ;; Ret token else Ret 0) in
               Ret (Return (true, {| out_xmin := t_xmin h; out_xmax := InvalidTransactionId;
                                     out_token := token |}), h)).
  change (Dirty_xmin h buffer) with (xmin_chain (false, no_out) own pend h buffer).
  unfold dirty_spec.
  destruct (xmin_chain_spec (false, no_out) own pend h buffer Hh Ht)
    as [h' Hs Hp Hi|h' Hs Hp Hi|H8 Hw Hcur Hp|Hp Hi]; cbn [and_then cbind]; rewrite Hp.
  - exists h'. unfold self_visible. by rewrite Hi.
  - destruct Hs as (Hst & Hh' & Ht'). destruct (dirty_xmax_spec h' buffer Hh' Ht') as (h'' & -> & _ & Hs'').
    exists h''. split; [|by eapply step_ok_trans]. unfold self_visible, delete_pending.
    by rewrite Hi, (step_deleted _ _ Hst), (step_deleter _ _ Hst).
  - subst own. destruct (self_own_spec h buffer Hh Ht H8 Hw Hcur) as (h' & -> & Hs). cbn [cbind].
    exists h'. split; [|done]. rewrite inserted_plain, Hcur by done. unfold delete_pending.
    destruct (deleter h) as [x|] eqn:Ed; [|done]. destruct (xact_current x) eqn:Ex; [done|].
    destruct (tuple_own h Ht H8 Hw Hcur) as [_ Hg]. by destruct (Hg x Ed Ex) as [-> _].
  - exists h. subst pend. unfold HeapTupleHeaderGetSpeculativeToken.
    destruct (HeapTupleHeaderIsSpeculative h) eqn:Es; cbn [c_assert cbind fst snd];
      [|split; [done|by apply step_ok_refl]].
    assert (ItemPointerIsValid (t_ctid h) = true) as ->.
    { unfold ItemPointerIsValid, HeapTupleHeaderIsSpeculative, SpecTokenOffsetNumber in *.
      apply Z.eqb_eq in Es. by rewrite Es. }
    cbn [c_assert cbind]. specialize (Htok Hp Es). destruct (Z.eqb_spec (ip_blkid (t_ctid h)) 0); [done|].
    cbn [negb c_assert cbind]. split; [done|by apply step_ok_refl].
Qed.
End Proofs.
