(* ===== verification/TqualUpdate.v ===== *)
(** [HeapTupleSatisfiesUpdate] and [HeapTupleSatisfiesVacuum] against their
    specification. *)
From S2P Require Import Prelude Transam HeapTuple Combocid Tqual TqualSpec TqualProofs.

Section UpdateSpec.
Context `{BackendLaws}.

(** The members of a tuple's MultiXact can be read. *)
Definition multi_readable (h : HeapTupleHeader) : Prop :=
  is_multi h = true -> forall only, exists l, multi_members (t_xmax h) false only = Ret l.

(** Some transaction named by xmax, updater or locker, is running. *)
Definition xmax_busy (h : HeapTupleHeader) : Prop :=
  if is_multi h then MultiXactIdIsRunning (t_xmax h) (only_locked h) = Ret true
  else xact_in_progress (t_xmax h) = true.

(** What each answer of [HeapTupleSatisfiesUpdate] asserts. *)
Definition update_verdict (h : HeapTupleHeader) (curcid : CommandId) (r : HTSU_Result) : Prop :=
  let there := inserted xact_in_progress (cid_before (tuple_cmin h) curcid) h in
  match r with
  | HeapTupleInvisible =>
      there = false \/
      exists x, deleter h = Some x /\ xact_current x = true /\ cid_before (tuple_cmax h) curcid = true
  | HeapTupleSelfUpdated =>
      there = true /\
      exists x, deleter h = Some x /\ xact_current x = true /\ cid_before (tuple_cmax h) curcid = false
  | HeapTupleUpdated => there = true /\ exists x, deleter h = Some x /\ committed x
  | HeapTupleMayBeUpdated => there = true /\ delete_bad h
  | HeapTupleBeingUpdated =>
      there = true /\ (forall x, deleter h = Some x -> xact_current x = false) /\ xmax_busy h
  | HeapTupleWouldBlock => False
  end.

End UpdateSpec.

(** Give the answer found, leaving what it asserts. *)
Ltac answer := eexists _, _; split; [reflexivity|]; unfold update_verdict; cbn zeta.

Section Update.
Context `{BackendLaws}.

Lemma update_xact_member u l x :
  update_xact_loop u l = Ret x -> x = u \/ exists m, m ∈ l /\ mx_xid m = x.
Proof.
  revert u. induction l as [|m l IH]; intros u E; [by injection E as <-; left|]. cbn in E.
  destruct (ISUPDATE_from_mxstatus (mx_status m)); cbn in E.
  - destruct (Z.eqb_spec u InvalidTransactionId); [|done]. cbn in E.
    destruct (IH _ E) as [->|(m' & Hm & Hx)]; right; [exists m|exists m']; (split; [by constructor|done]).
  - destruct (IH _ E) as [->|(m' & Hm & Hx)]; [by left|right]. exists m'. split; [by constructor|done].
Qed.

(** The updater of a MultiXact that is not running has finished. *)
Lemma multi_not_running h x :
  HeapTupleGetUpdateXid h = Ret x -> TransactionIdIsValid x = true ->
  MultiXactIdIsRunning (t_xmax h) false = Ret false -> xact_in_progress x = false.
Proof.
  unfold HeapTupleGetUpdateXid, MultiXactIdGetUpdateXid, HeapTupleHeaderGetRawXmax, MultiXactIdIsRunning.
  intros E Hv Hr. destruct (negb _); [|done]. destruct (has _ _); [|done]. cbn [c_assert cbind] in E.
  destruct (multi_members (t_xmax h) false false) as [l| |]; [|done|done]. cbn [cbind] in *.
  destruct (update_xact_member _ _ _ E) as [->|(m & Hm & <-)]; [done|].
  destruct (Z.leb_spec (zlen l) 0); [destruct l; [by apply not_elem_of_nil in Hm|by unfold zlen in *; cbn in *; lia]|].
  destruct (existsb _ l); [done|]. injection Hr as Hr.
  destruct (xact_in_progress (mx_xid m)) eqn:Ep; [|done].
  assert (existsb (fun m => xact_in_progress (mx_xid m)) l = true) as Ht; [|congruence].
  apply existsb_exists. exists m. split; [by apply list_elem_of_In|done].
Qed.

Lemma multi_running_total h only : multi_readable h -> is_multi h = true ->
  exists b, MultiXactIdIsRunning (t_xmax h) only = Ret b.
Proof.
  intros Hr Hm. destruct (Hr Hm only) as [l El]. unfold MultiXactIdIsRunning. rewrite El. cbn [cbind].
  repeat case_match; eauto.
Qed.

Section verdict.
Context (h : HeapTupleHeader) (curcid : CommandId).
Hypothesis (Hh : hints_ok h) (Ht : tuple_ok h) (Hread : multi_readable h).
Hypothesis (Hthere : inserted xact_in_progress (cid_before (tuple_cmin h) curcid) h = true).

Lemma self_updated_spec x : bit h 11 = false -> deleter h = Some x -> xact_current x = true ->
  exists r, self_updated curcid h = Ret (r, h) /\ update_verdict h curcid r.
Proof using Ht Hthere.
  intros H11 Hd Hc. destruct (get_cmax_own h x Ht H11 Hd Hc) as (c & E & Ec).
  unfold self_updated. rewrite E. cbn [cbind].
  assert (cid_before (tuple_cmax h) curcid = (c <? curcid)) as Eb by by rewrite Ec.
  destruct (Z.leb_spec curcid c), (Z.ltb_spec c curcid); try lia; eexists; (split; [done|]).
  - split; [done|]. exists x. by rewrite Eb.
  - right. exists x. by rewrite Eb.
Qed.

Lemma update_multi_spec buffer : bit h 11 = false -> is_multi h = true ->
  exists r h', Update_multi h curcid buffer = Ret (r, h') /\ step_ok h h' /\ update_verdict h curcid r.
Proof using All.
  intros H11 Hm. pose proof (step_ok_refl h Hh Ht) as Hrefl. unfold Update_multi, HeapTupleHeaderGetRawXmax.
  fold (only_locked h).
  destruct (HEAP_LOCKED_UPGRADED (t_infomask h)) eqn:Eu.
  { answer. split_and!; [done|done|]. apply delete_bad_none. unfold deleter.
    assert (only_locked h = true) as ->; [|done]. unfold only_locked. rewrite locked_only_bits.
    rewrite locked_upgraded_bits in Eu. by destruct (Z.testbit (t_infomask h) 7), (Z.testbit (t_infomask h) 12). }
  destruct (deleter_cases h Ht) as [[El Hd]|[(El & _ & x & -> & Hv & Hd)|(_ & ? & _)]]; [| |congruence]; rewrite El.
  - destruct (multi_running_total h true Hread Hm) as [b Eb]. rewrite Eb. cbn [cbind].
    destruct b; answer; split_and!.
    + done.
    + done.
    + by rewrite Hd.
    + unfold xmax_busy. by rewrite Hm, El.
    + apply set_xmax_invalid_ok; try done. by apply delete_bad_none.
    + done.
    + by apply delete_bad_none.
  - cbn [cbind]. rewrite Hv. cbn [negb cbind c_assert].
    destruct (xact_current x) eqn:Ex.
    { destruct (self_updated_spec x H11 Hd Ex) as (r & -> & Hr). by eexists _, _. }
    destruct (multi_running_total h false Hread Hm) as [b Eb]. rewrite Eb. cbn [cbind]. destruct b.
    { answer. split_and!; [done|done| |].
      - rewrite Hd. by intros ? [= <-].
      - unfold xmax_busy. by rewrite Hm, El. }
    assert (HeapTupleGetUpdateXid h = Ret x) as Hx.
    { unfold deleter in Hd. rewrite El, Hm in Hd. destruct (HeapTupleGetUpdateXid h); congruence. }
    pose proof (multi_not_running h x Hx Hv Eb) as Hp. cbn [negb].
    destruct (xact_did_commit x) eqn:Ed; answer; split_and!.
    + done.
    + done.
    + by exists x.
    + apply set_xmax_invalid_ok; try done. by eapply delete_bad_gone.
    + done.
    + by eapply delete_bad_gone.
Qed.

Lemma update_xmax_spec buffer :
  exists r h', Update_xmax h curcid buffer = Ret (r, h') /\ step_ok h h' /\ update_verdict h curcid r.
Proof using All.
  pose proof (step_ok_refl h Hh Ht) as Hrefl. unfold Update_xmax, HeapTupleHeaderGetRawXmax.
  rewrite has_xmax_invalid, has_multi, has_xmax_committed.
  fold (bit h 11) (bit h 12) (bit h 10) (only_locked h) (is_multi h).
  destruct (bit h 11) eqn:E11.
  { answer. split_and!; [done|done|by apply hint_xmax_invalid]. }
  destruct (bit h 10) eqn:E10.
  { pose proof (hint_xmax_committed h Hh E10 E11) as Hg.
    destruct (deleter_cases h Ht) as [[El Hd]|[(El & _ & x & _ & _ & Hd)|(El & _ & Hd)]]; rewrite El;
      (answer; split_and!; [done|done|]).
    - by apply delete_bad_none.
    - exists x. unfold delete_good in Hg. by rewrite Hd in Hg.
    - exists (t_xmax h). unfold delete_good in Hg. by rewrite Hd in Hg. }
  destruct (is_multi h) eqn:Em; [by apply update_multi_spec|].
  destruct (deleter_cases h Ht) as [[El Hd]|[(_ & ? & _)|(El & _ & Hd)]]; [|congruence|]; rewrite El.
  - assert (forall x, deleter h = Some x -> xact_current x = false) as Hno by (by rewrite Hd).
    assert (forall hh, SetHintBits h buffer HEAP_XMAX_INVALID InvalidTransactionId = hh -> step_ok h hh) as Hset.
    { intros ? <-. apply set_xmax_invalid_ok; try done. by apply delete_bad_none. }
    destruct (xact_current (t_xmax h)) eqn:Ex; [|destruct (xact_in_progress (t_xmax h)) eqn:Ep].
    + answer. split_and!; [done|done|done|]. unfold xmax_busy. rewrite Em. by apply current_in_progress.
    + answer. split_and!; [done|done|done|]. unfold xmax_busy. by rewrite Em.
    + destruct (xact_did_commit (t_xmax h)); cbn [negb]; answer;
        (split_and!; [by apply Hset|done|by apply delete_bad_none]).
  - destruct (xact_current (t_xmax h)) eqn:Ex.
    { destruct (self_updated_spec _ E11 Hd Ex) as (r & -> & Hr). by eexists _, _. }
    destruct (xact_in_progress (t_xmax h)) eqn:Ep.
    { answer. split_and!; [done|done| |unfold xmax_busy; by rewrite Em].
      rewrite Hd. by intros ? [= <-]. }
    destruct (xact_did_commit (t_xmax h)) eqn:Ed; cbn [negb]; answer; split_and!.
    + apply set_xmax_committed_ok; try done. by eapply delete_good_committed.
    + done.
    + by exists (t_xmax h).
    + apply set_xmax_invalid_ok; try done. by eapply delete_bad_gone.
    + done.
    + by eapply delete_bad_gone.
Qed.
End verdict.

Lemma update_own_spec h curcid buffer :
  hints_ok h -> tuple_ok h -> multi_readable h ->
  bit h 8 = false -> was_moved h = false -> xact_current (t_xmin h) = true ->
  exists r h', Update_own h curcid buffer = Ret (r, h') /\ step_ok h h' /\ update_verdict h curcid r.
Proof.
  intros Hh Ht Hread H8 Hm Hc. destruct (get_cmin_own h Ht H8 Hm Hc) as (c & E & Ec).
  destruct (tuple_own h Ht H8 Hm Hc) as [_ Hgone]. pose proof (step_ok_refl h Hh Ht) as Hrefl.
  assert (inserted xact_in_progress (cid_before (tuple_cmin h) curcid) h = (c <? curcid)) as Hi
    by by rewrite inserted_plain, Hc, Ec.
  unfold Update_own. rewrite E. cbn [cbind].
  destruct (Z.leb_spec curcid c), (Z.ltb_spec c curcid); try lia; [answer; split_and!; [done|by left]|].
  rewrite has_xmax_invalid, has_multi. unfold HeapTupleHeaderGetRawXmax.
  fold (bit h 11) (bit h 12) (only_locked h) (is_multi h).
  destruct (bit h 11) eqn:E11; [answer; split_and!; [done|done|by apply hint_xmax_invalid]|].
  destruct (deleter_cases h Ht) as [[El Hd]|[(El & Em & x & Hx & Hv & Hd)|(El & Em & Hd)]]; rewrite El.
  - destruct (is_multi h) eqn:Em.
    + destruct (multi_running_total h true Hread Em) as [[] Eb]; rewrite Eb; cbn [cbind]; answer;
        split_and!; try done; [by rewrite Hd|unfold xmax_busy; by rewrite Em, El|by apply delete_bad_none].
    + destruct (xact_in_progress (t_xmax h)) eqn:Ep; cbn [negb]; answer;
        split_and!; try done; [by rewrite Hd|unfold xmax_busy; by rewrite Em|by apply delete_bad_none].
  - rewrite Em, Hx. cbn [cbind]. rewrite Hv. cbn [cbind c_assert].
    destruct (xact_current x) eqn:Ex; cbn [negb].
    { destruct (self_updated_spec h curcid Ht Hi x E11 Hd Ex) as (r & -> & Hr). by eexists _, _. }
    destruct (multi_running_total h false Hread Em) as [[] Eb]; rewrite Eb; cbn [cbind]; answer; split_and!; try done.
    + rewrite Hd. by intros ? [= <-].
    + unfold xmax_busy. by rewrite Em, El.
    + eapply delete_bad_gone; [done|by apply Hgone].
  - rewrite Em. destruct (xact_current (t_xmax h)) eqn:Ex; cbn [negb].
    { destruct (self_updated_spec h curcid Ht Hi _ E11 Hd Ex) as (r & -> & Hr). by eexists _, _. }
    answer. assert (delete_bad h) by (eapply delete_bad_gone; [done|by apply Hgone]).
    split_and!; [by apply set_xmax_invalid_ok|done|done].
Qed.

Lemma verdict_step h h' curcid r :
  hint_step h h' -> inserted xact_in_progress (cid_before (tuple_cmin h) curcid) h =
    inserted xact_in_progress (cid_before (tuple_cmin h') curcid) h' ->
  update_verdict h' curcid r -> update_verdict h curcid r.
Proof.
  intros Hs Hi. unfold update_verdict. cbn zeta. rewrite <- Hi.
  unfold delete_bad. rewrite (step_deleter _ _ Hs). destruct (step_cids _ _ Hs) as [_ ->].
  unfold xmax_busy. by rewrite (step_multi _ _ Hs), (step_locked _ _ Hs), (step_xmax _ _ Hs).
Qed.

Lemma step_inserted busy own h h' :
  hint_step h h' -> inserted busy own h' = inserted busy own h.
Proof.
  intros Hs. unfold inserted. destruct (step_moved _ _ Hs) as (-> & -> & _).
  by rewrite (step_frozen _ _ Hs), (step_field3 _ _ Hs), (step_xmin _ _ Hs).
Qed.

Lemma update_answer htup curcid buffer :
  check_htup htup = Ret tt -> hints_ok (t_data htup) -> tuple_ok (t_data htup) -> multi_readable (t_data htup) ->
  exists r h', HeapTupleSatisfiesUpdate htup curcid buffer = Ret (r, h') /\
    step_ok (t_data htup) h' /\ update_verdict (t_data htup) curcid r.
Proof.
  intros Hc Hh Ht Hread. unfold HeapTupleSatisfiesUpdate. rewrite Hc. cbn [cbind]. set (h := t_data htup) in *.
  set (own := let* (r, tuple) := Update_own h curcid buffer in Ret (Return r, tuple)).
  set (pend := Ret (Return HeapTupleInvisible, h)).
  change (Update_xmin h curcid buffer) with (xmin_chain HeapTupleInvisible own pend h buffer).
  destruct (xmin_chain_spec HeapTupleInvisible own pend h buffer Hh Ht)
    as [h' Hs _ Hi|h' Hs _ Hi|H8 Hw Hcur _|Hp Hi]; cbn [and_then cbind].
  - answer. split; [done|]. left. apply Hi.
  - destruct Hs as (Hst & Hh' & Ht').
    destruct (update_xmax_spec h' curcid Hh' Ht') with (buffer := buffer) as (r & h'' & -> & Hs'' & Hr).
    + unfold multi_readable. by rewrite (step_multi _ _ Hst), (step_xmax _ _ Hst).
    + rewrite (step_inserted _ _ _ _ Hst). apply Hi.
    + exists r, h''. split_and!; [done|by eapply step_ok_trans|].
      eapply verdict_step; [done| |done]. rewrite (step_inserted _ _ _ _ Hst). by rewrite !Hi.
  - subst own. destruct (update_own_spec h curcid buffer Hh Ht Hread H8 Hw Hcur) as (r & h' & -> & Hs & Hr).
    cbn [cbind]. by exists r, h'.
  - subst pend. answer. split; [by apply step_ok_refl|]. left. apply Hi.
Qed.

(** ** HeapTupleSatisfiesVacuum *)

(** The inserter is known to have committed, or known to have failed. *)
Definition insert_done (h : HeapTupleHeader) : Prop := xmin_frozen h = true \/ insert_good h.
Definition insert_failed (h : HeapTupleHeader) : Prop := xmin_frozen h = false /\ insert_bad h.

(** The transaction whose outcome decides the insertion is running. *)
Definition insert_running (h : HeapTupleHeader) : Prop :=
  xact_in_progress (if was_moved h then t_field3 h else t_xmin h) = true.

Definition vacuum_verdict (h : HeapTupleHeader) (OldestXmin : TransactionId) (r : HTSV_Result) : Prop :=
  match r with
  | HEAPTUPLE_DEAD =>
      insert_failed h \/
      insert_done h /\ exists x, deleter h = Some x /\ committed x /\ TransactionIdPrecedes x OldestXmin = true
  | HEAPTUPLE_RECENTLY_DEAD =>
      insert_done h /\ exists x, deleter h = Some x /\ committed x /\ TransactionIdPrecedes x OldestXmin = false
  | HEAPTUPLE_LIVE => insert_done h /\ delete_bad h
  | HEAPTUPLE_INSERT_IN_PROGRESS => insert_running h /\ moved_off h = false
  | HEAPTUPLE_DELETE_IN_PROGRESS =>
      (insert_running h /\ moved_off h = true) \/ exists x, deleter h = Some x /\ xact_in_progress x = true
  end.

Lemma vacuum_xmax_spec h OldestXmin buffer :
  hints_ok h -> tuple_ok h -> multi_readable h -> insert_done h ->
  exists r h', Vacuum_xmax h OldestXmin buffer = Ret (r, h') /\ step_ok h h' /\ vacuum_verdict h OldestXmin r.
Proof.
  intros Hh Ht Hread Hi. pose proof (step_ok_refl h Hh Ht) as Hrefl.
  unfold Vacuum_xmax, HeapTupleHeaderGetRawXmax. rewrite has_xmax_invalid, has_multi, has_xmax_committed.
  fold (bit h 11) (bit h 12) (bit h 10) (only_locked h) (is_multi h).
  destruct (bit h 11) eqn:E11.
  { eexists _, _. split; [done|]. split; [done|]. split; [done|by apply hint_xmax_invalid]. }
  destruct (deleter_cases h Ht) as [[El Hd]|[(El & Em & x & Hx & Hv & Hd)|(El & Em & Hd)]]; rewrite El.
  - pose proof (delete_bad_none h Hd) as Hbad.
    assert (step_ok h (SetHintBits h buffer HEAP_XMAX_INVALID InvalidTransactionId)) as Hset
      by by apply set_xmax_invalid_ok.
    exists HEAPTUPLE_LIVE. unfold Vacuum_locked, HeapTupleHeaderGetRawXmax. rewrite has_multi, has_xmax_committed.
    fold (bit h 10) (bit h 12) (is_multi h). destruct (bit h 10); cbn [negb]; [by exists h|].
    destruct (is_multi h) eqn:Em.
    + destruct (multi_running_total h true Hread Em) as [b Eb].
      destruct (HEAP_LOCKED_UPGRADED (t_infomask h)); cbn [negb cbind]; [eexists; split; [done|]; by split|].
      rewrite Eb. cbn [cbind]. destruct b; eexists; (split; [done|]; by split).
    + destruct (xact_in_progress (t_xmax h)); eexists; (split; [done|]; by split).
  - rewrite Em. unfold Vacuum_multi, HeapTupleHeaderGetRawXmax. fold (only_locked h). rewrite Hx, El.
    cbn [cbind c_assert negb]. rewrite Hv. cbn [cbind c_assert].
    destruct (xact_in_progress x) eqn:Ep; [eexists _, _; split; [done|]; split; [done|]; right; by exists x|].
    destruct (xact_did_commit x) eqn:Ed.
    + destruct (TransactionIdPrecedes x OldestXmin) eqn:Eo; cbn [negb]; (eexists _, _; split; [done|]; split; [done|]).
      * right. split; [done|]. by exists x.
      * split; [done|]. by exists x.
    + assert (delete_bad h) by by eapply delete_bad_gone.
      destruct (multi_running_total h false Hread Em) as [[] Eb]; rewrite Eb; cbn [cbind negb];
        (eexists _, _; split; [done|]; split; [|done]); [done|by apply set_xmax_invalid_ok].
  - rewrite Em.
    assert (forall hh, committed (t_xmax h) -> step_ok h hh ->
      exists r h', Ret (Vacuum_horizon h OldestXmin, hh) = Ret (r, h') /\ step_ok h h' /\ vacuum_verdict h OldestXmin r) as Hhor.
    { intros hh Hcom Hs. eexists _, _. split; [done|]. split; [done|].
      unfold Vacuum_horizon, HeapTupleHeaderGetRawXmax.
      destruct (TransactionIdPrecedes (t_xmax h) OldestXmin) eqn:Eo; cbn [negb vacuum_verdict];
        [right|]; (split; [done|]); by exists (t_xmax h). }
    destruct (bit h 10) eqn:E10; cbn [negb].
    + apply Hhor; [|done]. by destruct (xmax_committed_hint xact_in_progress true h _ Hh E10 E11 Hd).
    + destruct (xact_in_progress (t_xmax h)) eqn:Ep;
        [eexists _, _; split; [done|]; split; [done|]; right; by exists (t_xmax h)|].
      destruct (xact_did_commit (t_xmax h)) eqn:Ed.
      * apply Hhor; [done|]. apply set_xmax_committed_ok; try done. by eapply delete_good_committed.
      * assert (delete_bad h) by by eapply delete_bad_gone.
        eexists _, _. split; [done|]. split; [by apply set_xmax_invalid_ok|done].
Qed.

Lemma only_locked_spec h :
  tuple_ok h -> only_locked h = false -> exists b, HeapTupleHeaderIsOnlyLocked h = Ret b.
Proof.
  intros Ht El. unfold HeapTupleHeaderIsOnlyLocked. rewrite has_multi. fold (bit h 12) (is_multi h).
  destruct (has _ _); [by eexists|]. destruct (has _ _); [by eexists|]. destruct (negb _); [by eexists|].
  destruct (is_multi h) eqn:Em; cbn [negb]; [|by eexists].
  destruct (tuple_updater h Ht El Em) as (x & -> & Hv). cbn [cbind]. rewrite Hv. cbn [c_assert cbind].
  repeat case_match; by eexists.
Qed.

Lemma vacuum_own_spec h OldestXmin :
  hints_ok h -> tuple_ok h -> bit h 8 = false -> was_moved h = false -> xact_current (t_xmin h) = true ->
  exists r, Vacuum_own h = Ret r /\ vacuum_verdict h OldestXmin r.
Proof.
  intros Hh Ht H8 Hw Hc.
  assert (vacuum_verdict h OldestXmin HEAPTUPLE_INSERT_IN_PROGRESS) as Hins.
  { split; [unfold insert_running; rewrite Hw; by apply current_in_progress|].
    unfold was_moved, moved_off in *. by destruct (bit h 14). }
  unfold Vacuum_own, HeapTupleHeaderGetUpdateXid. rewrite has_xmax_invalid, has_multi, has_lock_only.
  fold (bit h 11) (bit h 12) (bit h 7) (is_multi h) (only_locked h).
  destruct (bit h 11); [by eexists|]. cbn [negb andb].
  destruct (deleter_cases h Ht) as [[-> Hd]|[(El & Em & x & Hx & Hv & Hd)|(El & Em & Hd)]]; [by eexists| |];
    rewrite El; destruct (only_locked_spec h Ht El) as [b Eb]; rewrite Eb; cbn [cbind];
    (destruct b; [by eexists|]); rewrite Em; cbn [andb].
  - assert (bit h 7 = false) as ->.
    { unfold only_locked in El. rewrite locked_only_bits in El. fold (bit h 7) in El. by destruct (bit h 7). }
    cbn [negb]. rewrite Hx. cbn [cbind]. destruct (xact_current x) eqn:Ex; [|by eexists].
    eexists. split; [done|]. right. exists x. split; [done|by apply current_in_progress].
  - unfold HeapTupleHeaderGetRawXmax. cbn [cbind]. destruct (xact_current (t_xmax h)) eqn:Ex; [|by eexists].
    eexists. split; [done|]. right. exists (t_xmax h). split; [done|by apply current_in_progress].
Qed.

Lemma vacuum_xmin_spec h OldestXmin buffer :
  hints_ok h -> tuple_ok h ->
  exists f h', Vacuum_xmin h buffer = Ret (f, h') /\ step_ok h h' /\
    match f with Return r => vacuum_verdict h OldestXmin r | FallThrough => insert_done h end.
Proof.
  intros Hh Ht. pose proof (step_ok_refl h Hh Ht) as Hrefl. unfold Vacuum_xmin, HeapTupleHeaderGetRawXmin.
  rewrite xmin_committed_bits, xmin_invalid_bits, has_moved_off, has_moved_in.
  fold (bit h 8) (bit h 9) (bit h 14) (bit h 15).
  destruct (bit h 8) eqn:E8; cbn [negb andb].
  { eexists _, _. split_and!; [done|done|]. unfold insert_done, xmin_frozen. rewrite E8.
    destruct (bit h 9) eqn:E9; [by left|right]. by apply hint_xmin_committed. }
  assert (xmin_frozen h = false) as Hf by (unfold xmin_frozen; by rewrite E8).
  destruct (bit h 9) eqn:E9.
  { eexists _, _. split_and!; [done|done|]. left. split; [done|by apply hint_xmin_invalid]. }
  destruct (bit h 14) eqn:E14; [|destruct (bit h 15) eqn:E15].
  - assert (was_moved h = true) as Hw by (unfold was_moved; by rewrite E14).
    assert (moved_off h = true) as Ho by done.
    unfold Vacuum_moved. rewrite get_xvac by done.
    destruct (xact_current (t_field3 h)) eqn:Ec; [|destruct (xact_in_progress (t_field3 h)) eqn:Ep].
    + eexists _, _. split_and!; [done|done|]. left. unfold insert_running. rewrite Hw. split; [by apply current_in_progress|done].
    + eexists _, _. split_and!; [done|done|]. left. unfold insert_running. by rewrite Hw.
    + destruct (xact_did_commit (t_field3 h)) eqn:Ed; cbn [Bool.eqb]; (eexists _, _; split; [done|]).
      * assert (insert_bad h) by (unfold insert_bad; by rewrite Ho).
        split; [by apply set_xmin_invalid_ok|by left].
      * assert (insert_good h) by (unfold insert_good; by rewrite Ho).
        split; [by apply set_xmin_committed_ok|by right].
  - assert (was_moved h = true) as Hw by (unfold was_moved; by rewrite E15, orb_true_r).
    assert (moved_off h = false) as Ho by done.
    assert (moved_in h = true) as Hmi by (unfold moved_in; by rewrite E14, E15).
    unfold Vacuum_moved. rewrite get_xvac by done.
    destruct (xact_current (t_field3 h)) eqn:Ec; [|destruct (xact_in_progress (t_field3 h)) eqn:Ep].
    + eexists _, _. split_and!; [done|done|]. unfold vacuum_verdict, insert_running. rewrite Hw. split; [by apply current_in_progress|done].
    + eexists _, _. split_and!; [done|done|]. unfold vacuum_verdict, insert_running. by rewrite Hw.
    + destruct (xact_did_commit (t_field3 h)) eqn:Ed; cbn [Bool.eqb]; (eexists _, _; split; [done|]).
      * assert (insert_good h) by (unfold insert_good; by rewrite Ho, Hmi).
        split; [by apply set_xmin_committed_ok|by right].
      * assert (insert_bad h) by (unfold insert_bad; by rewrite Ho, Hmi).
        split; [by apply set_xmin_invalid_ok|by left].
  - destruct (not_moved h E14 E15) as (Hw & Ho & Hmi).
    destruct (xact_current (t_xmin h)) eqn:Ec; [|destruct (xact_in_progress (t_xmin h)) eqn:Ep].
    + destruct (vacuum_own_spec h OldestXmin Hh Ht E8 Hw Ec) as (r & -> & Hr). cbn [cbind]. by eexists _, _.
    + eexists _, _. split_and!; [done|done|]. unfold vacuum_verdict, insert_running. by rewrite Hw.
    + destruct (finished_spec HEAPTUPLE_DEAD h buffer Hh Ht E8 E9 Hw Ep) as (f & h' & -> & Hs & Hc).
      eexists _, _. split_and!; [done|done|]. destruct Hc as [[-> Hc]|[-> Hc]].
      * left. split; [done|]. unfold insert_bad. by rewrite Ho, Hmi.
      * right. unfold insert_good. by rewrite Ho, Hmi.
Qed.

Lemma vacuum_verdict_step h h' OldestXmin r :
  hint_step h h' -> vacuum_verdict h' OldestXmin r -> vacuum_verdict h OldestXmin r.
Proof.
  intros Hs. unfold vacuum_verdict, insert_failed, insert_done, insert_running, insert_bad, insert_good, delete_bad.
  destruct (step_moved _ _ Hs) as (-> & -> & ->).
  by rewrite (step_deleter _ _ Hs), (step_frozen _ _ Hs), (step_field3 _ _ Hs), (step_xmin _ _ Hs).
Qed.

Lemma vacuum_answer htup OldestXmin buffer :
  check_htup htup = Ret tt -> hints_ok (t_data htup) -> tuple_ok (t_data htup) -> multi_readable (t_data htup) ->
  exists r h', HeapTupleSatisfiesVacuum htup OldestXmin buffer = Ret (r, h') /\
    step_ok (t_data htup) h' /\ vacuum_verdict (t_data htup) OldestXmin r.
Proof.
  intros Hc Hh Ht Hread. unfold HeapTupleSatisfiesVacuum. rewrite Hc. cbn [cbind]. set (h := t_data htup) in *.
  destruct (vacuum_xmin_spec h OldestXmin buffer Hh Ht) as (f & h' & E & Hs & Hf).
  rewrite (and_then_spec _ _ _ _ E). destruct f as [r|]; [by exists r, h'|].
  destruct Hs as (Hst & Hh' & Ht').
  destruct (vacuum_xmax_spec h' OldestXmin buffer Hh' Ht') as (r & h'' & -> & Hs'' & Hr).
  - unfold multi_readable. by rewrite (step_multi _ _ Hst), (step_xmax _ _ Hst).
  - unfold insert_done. by rewrite (step_frozen _ _ Hst), (step_insert_good _ _ Hst).
  - exists r, h''. split_and!; [done|by eapply step_ok_trans|by eapply vacuum_verdict_step].
Qed.

(** A dead tuple is invisible to whoever counts a deleter before the horizon as
    finished. *)
Lemma dead_not_in_snap h OldestXmin (busy : TransactionId -> bool) o1 o2 :
  vacuum_verdict h OldestXmin HEAPTUPLE_DEAD ->
  (was_moved h = true -> xact_in_progress (t_field3 h) = false -> busy (t_field3 h) = false) ->
  (forall x, deleter h = Some x -> TransactionIdPrecedes x OldestXmin = true -> busy x = false) ->
  inserted busy o1 h && negb (deleted busy o2 h) = false.
Proof.
  intros [[Hf Hbad]|(_ & x & Hd & [Hp Hc] & Ho)] Hmv Hhor.
  - by rewrite (insert_bad_never busy o1 h).
  - rewrite (deleted_some _ _ _ x Hd), (finished_not_current _ Hp), (Hhor x Hd Ho), Hc. apply andb_false_r.
Qed.
End Update.
