(* ===== verification/TqualTheorems.v ===== *)
(** The properties of the visibility routines, with the concrete transaction
    system their witnesses run on. *)
From S2P Require Import Prelude Transam HeapTuple Combocid Tqual TqualSpec TqualProofs TqualUpdate.

(** ** The properties *)

Section Theorems.
Context `{BackendLaws}.

(** C10. [HeapTupleSatisfiesMVCC] answers exactly whether the tuple was
    inserted by a transaction (for the own one: a command) the snapshot sees
    and not deleted by such a one, whatever hint bits the header carries and
    whatever the buffer lets it set.  The header it leaves says the same about
    the tuple, with hint bits that only repeat the state of the transaction
    system, and asking again gives the same answer. *)
Theorem mvcc_visibility snap htup buffer :
  snap_ok snap -> check_htup htup = Ret tt ->
  hints_ok (t_data htup) -> tuple_ok (t_data htup) -> moved_old snap (t_data htup) ->
  exists h', HeapTupleSatisfiesMVCC htup snap buffer = Ret (mvcc_visible snap (t_data htup), h') /\
    hint_step (t_data htup) h' /\ hints_ok h' /\ tuple_ok h' /\
    forall buffer', exists h'',
      HeapTupleSatisfiesMVCC {| t_self := t_self htup; t_tableOid := t_tableOid htup; t_data := h' |} snap buffer'
      = Ret (mvcc_visible snap (t_data htup), h'').
Proof.
  intros Hs Hc Hh Ht Hm. destruct (mvcc_answer snap Hs htup buffer Hc Hh Ht Hm) as (h' & E & Hst & Hh' & Ht').
  exists h'. split_and!; [done..|]. intros buffer'.
  destruct (mvcc_answer snap Hs {| t_self := t_self htup; t_tableOid := t_tableOid htup; t_data := h' |} buffer')
    as (h'' & E' & _); [done|done|done| |].
  - intros Hw. cbn in *. destruct (step_moved _ _ Hst) as (_ & _ & Ew). rewrite Ew in Hw.
    rewrite (step_xmin _ _ Hst), (step_field3 _ _ Hst). by apply Hm.
  - exists h''. rewrite E'. cbn [t_data]. unfold mvcc_visible.
    rewrite (step_inserted _ _ _ _ Hst), (step_deleted _ _ Hst). by destruct (step_cids _ _ Hst) as [-> ->].
Qed.

(** [HeapTupleSatisfiesSelf] answers exactly whether the tuple exists at
    this moment, own changes included.  [HeapTupleSatisfiesDirty] gives the same
    answer, except that an insertion still in progress in another backend also
    counts, and it stores in the snapshot exactly the transaction to wait for:
    the running inserter with its speculative token, or the running deleter, or
    nothing.  Both leave only correct hint bits. *)
Theorem self_dirty_visibility htup snap buffer :
  check_htup htup = Ret tt -> hints_ok (t_data htup) -> tuple_ok (t_data htup) -> token_ok (t_data htup) ->
  (exists h', HeapTupleSatisfiesSelf htup buffer = Ret (self_visible (t_data htup), h') /\
     step_ok (t_data htup) h') /\
  (exists h', HeapTupleSatisfiesDirty htup snap buffer =
       Ret ((dirty_spec (t_data htup)).1, store_out snap (dirty_spec (t_data htup)).2, h') /\
     step_ok (t_data htup) h').
Proof. intros. split; [by apply self_answer|by apply dirty_answer]. Qed.

(** C31. [HeapTupleSatisfiesUpdate] always answers, and each answer means what
    its caller relies on: "may be updated" that the tuple is there and nobody
    deleted it, "updated" that a committed transaction did, "being updated"
    that it is there and some other transaction in xmax, updater or locker, is
    running, "self updated" and "invisible" that the own transaction deleted it
    after, respectively before, the given command, or that it is not there.  The
    hint bits it leaves are correct. *)
Theorem update_verdicts htup curcid buffer :
  check_htup htup = Ret tt -> hints_ok (t_data htup) -> tuple_ok (t_data htup) -> multi_readable (t_data htup) ->
  exists r h', HeapTupleSatisfiesUpdate htup curcid buffer = Ret (r, h') /\
    step_ok (t_data htup) h' /\ update_verdict (t_data htup) curcid r.
Proof. apply update_answer. Qed.

(** [HeapTupleIsSurelyDead] looks at the hint bits only. *)
Lemma surely_dead_vacuum htup OldestXmin buffer :
  HeapTupleIsSurelyDead htup OldestXmin = Ret true ->
  HeapTupleSatisfiesVacuum htup OldestXmin buffer = Ret (HEAPTUPLE_DEAD, t_data htup).
Proof.
  unfold HeapTupleIsSurelyDead, HeapTupleSatisfiesVacuum.
  destruct (check_htup htup); [|done|done]. cbn [cbind]. set (h := t_data htup).
  unfold Vacuum_xmin, Vacuum_xmax, Vacuum_horizon.
  destruct (HeapTupleHeaderXminCommitted h); cbn [negb and_then cbind]; [|by intros [= ->]].
  destruct (has (t_infomask h) HEAP_XMAX_INVALID); [done|].
  destruct (HEAP_XMAX_IS_LOCKED_ONLY (t_infomask h)); [done|].
  destruct (has (t_infomask h) HEAP_XMAX_IS_MULTI); [done|].
  destruct (has (t_infomask h) HEAP_XMAX_COMMITTED); [|done]. cbn [negb]. by intros [= ->].
Qed.

(** C36. [HeapTupleSatisfiesVacuum] always answers, and each answer means what
    it says about inserter and deleter relative to the horizon;
    [HeapTupleSatisfiesNonVacuumable] is its negation of "dead", and
    [HeapTupleIsSurelyDead], which looks at the hint bits only, says true only
    when it answers "dead". *)
Theorem vacuum_verdicts htup OldestXmin buffer :
  check_htup htup = Ret tt -> hints_ok (t_data htup) -> tuple_ok (t_data htup) -> multi_readable (t_data htup) ->
  exists r h', HeapTupleSatisfiesVacuum htup OldestXmin buffer = Ret (r, h') /\
    step_ok (t_data htup) h' /\ vacuum_verdict (t_data htup) OldestXmin r /\
    (forall snap, snap_xmin snap = OldestXmin ->
       HeapTupleSatisfiesNonVacuumable htup snap buffer = Ret (bool_decide (r <> HEAPTUPLE_DEAD), h')) /\
    (HeapTupleIsSurelyDead htup OldestXmin = Ret true -> r = HEAPTUPLE_DEAD).
Proof.
  intros Hc Hh Ht Hr. destruct (vacuum_answer htup OldestXmin buffer Hc Hh Ht Hr) as (r & h' & E & Hs & Hv).
  exists r, h'. split_and!; [done..| |].
  - intros snap <-. unfold HeapTupleSatisfiesNonVacuumable. rewrite E. cbn [cbind]. by destruct r.
  - intros Hd%(surely_dead_vacuum _ _ buffer). rewrite E in Hd. by injection Hd as ->.
Qed.
End Theorems.

(** C12. A tuple that VACUUM finds dead is invisible to every backend: for any
    backend sharing the same transaction system, and any of its snapshots whose
    [xmin] comes after the deleter if the horizon VACUUM used does,
    [HeapTupleSatisfiesMVCC] answers false.  ([ProcHorizon.v] shows that
    [GetOldestXmin] computes such a horizon.) *)
Theorem vacuum_dead_invisible `{S : SharedXacts} (vac reader : Backend) htup OldestXmin buffer h' snap buffer' :
  @BackendLaws S vac -> @BackendLaws S reader ->
  check_htup htup = Ret tt -> hints_ok (t_data htup) ->
  @tuple_ok S vac (t_data htup) -> @tuple_ok S reader (t_data htup) -> multi_readable (t_data htup) ->
  @snap_ok S reader snap -> moved_old snap (t_data htup) ->
  (forall x, deleter (t_data htup) = Some x ->
    TransactionIdPrecedes x OldestXmin = true -> TransactionIdPrecedes x (snap_xmin snap) = true) ->
  @HeapTupleSatisfiesVacuum S vac htup OldestXmin buffer = Ret (HEAPTUPLE_DEAD, h') ->
  exists h'', @HeapTupleSatisfiesMVCC S reader htup snap buffer' = Ret (false, h'').
Proof.
  intros Lv Lr Hc Hh Htv Htr Hread Hs Hm Hhor E.
  destruct (@vacuum_answer S vac Lv htup OldestXmin buffer Hc Hh Htv Hread) as (r & h1 & E1 & _ & Hv).
  rewrite E in E1. injection E1 as <- <-.
  destruct (@mvcc_answer S reader Lr snap Hs htup buffer' Hc Hh Htr Hm) as (h'' & E'' & _).
  exists h''. rewrite E''. f_equal. f_equal. unfold mvcc_visible.
  apply (@dead_not_in_snap S reader Lr _ OldestXmin); [done| |].
  - intros Hw _. by apply Hm.
  - intros x Hd Hx. unfold in_snap, XidInMVCCSnapshot. by rewrite (Hhor x Hd Hx).
Qed.

(** ** A small system

    Transaction 100 committed, 101 is running in another backend, 102 aborted,
    103 is the backend's own; 200 is a MultiXact of the locker 101 and the
    updater 100. *)
Definition sample_shared : SharedXacts := {|
  xact_in_progress x := (x =? 101) || (x =? 103);
  xact_did_commit x := x =? 100;
  xact_topmost x := Ret x;
  multi_members m _ _ :=
    if m =? 200 then Ret [{| mx_xid := 101; mx_status := 0 |}; {| mx_xid := 100; mx_status := 5 |}] else Ret [];
  commit_lsn _ := 0;
  BufferIsPermanent _ := true;
  XLogNeedsFlush _ := false;
  BufferGetLSNAtomic _ := 0 |}.

Definition sample_backend : Backend :=
  {| xact_current x := x =? 103; combo_state := two_combos; CritSectionCount := 0 |}.

#[local] Existing Instances sample_shared sample_backend.

Lemma sample_laws : @BackendLaws sample_shared sample_backend.
Proof. intros x. cbn. destruct (Z.eqb_spec x 103); [by rewrite orb_true_r|done]. Qed.

Definition sample_header (xmin xmax cid mask : Z) : HeapTupleHeader :=
  {| t_xmin := xmin; t_xmax := xmax; t_field3 := cid;
     t_ctid := {| ip_blkid := 7; ip_posid := 1 |}; t_infomask := mask |}.

Definition sample_tuple (xmin xmax cid mask : Z) : HeapTuple :=
  {| t_self := {| ip_blkid := 7; ip_posid := 1 |}; t_tableOid := 16384;
     t_data := sample_header xmin xmax cid mask |}.

Definition sample_snapshot : SnapshotData := {|
  snap_xmin := 101; snap_xmax := 104; snap_xip := [101]; snap_xcnt := 1;
  snap_subxip := []; snap_subxcnt := 0; snap_suboverflowed := false;
  snap_takenDuringRecovery := false; snap_curcid := 5; snap_speculativeToken := 0 |}.

(** A tuple inserted by 100 and deleted by 101, without hints. *)
Definition being_deleted : HeapTuple := sample_tuple 100 101 3 0.
(** A tuple inserted and deleted by the own transaction (combo id 1: commands
    4 and 5). *)
Definition own_deleted : HeapTuple := sample_tuple 103 103 1 HEAP_COMBOCID.
(** A tuple locked by 101 and updated by 100. *)
Definition multi_updated : HeapTuple := sample_tuple 100 200 3 HEAP_XMAX_IS_MULTI.

Lemma being_deleted_hints : hints_ok (t_data being_deleted).
Proof. by constructor. Qed.
Lemma being_deleted_ok : tuple_ok (t_data being_deleted).
Proof. constructor; [done|done|]. by intros x [= <-]. Qed.
Lemma own_deleted_hints : hints_ok (t_data own_deleted).
Proof. by constructor. Qed.
Lemma own_deleted_ok : tuple_ok (t_data own_deleted).
Proof.
  constructor; [done| |].
  - intros _ _ _. split; [by eexists|]. by intros x [= <-].
  - intros x _ _. split; [done|by eexists].
Qed.
Lemma multi_updated_hints : hints_ok (t_data multi_updated).
Proof. by constructor. Qed.
Lemma multi_updated_ok : tuple_ok (t_data multi_updated).
Proof. constructor; [by eexists|done|]. by intros x [= <-]. Qed.
Lemma multi_updated_readable : multi_readable (t_data multi_updated).
Proof. intros _ only. by eexists. Qed.
Lemma sample_readable xmin xmax cid : multi_readable (sample_header xmin xmax cid 0).
Proof. done. Qed.

Lemma sample_in_snap x :
  XidInMVCCSnapshot x sample_snapshot = Ret (in_snap sample_snapshot x) /\
  (in_snap sample_snapshot x = false -> (x =? 103) = false -> (x =? 101) || (x =? 103) = false).
Proof.
  split.
  - unfold in_snap, XidInMVCCSnapshot. cbn [snap_xmin snap_xmax snap_takenDuringRecovery snap_suboverflowed sample_snapshot
      negb snap_subxcnt snap_xcnt snap_subxip snap_xip].
    destruct (TransactionIdPrecedes x 101); [done|]. destruct (TransactionIdFollowsOrEquals x 104); [done|].
    change (Z.to_nat 0) with 0%nat. change (Z.to_nat 1) with 1%nat. cbn [xid_array_scan cbind].
    change (zget [101] 0) with (Some 101). cbn [deref cbind]. by destruct (TransactionIdEquals x 101).
  - intros Hs H103. rewrite H103, orb_false_r. destruct (Z.eqb_spec x 101) as [->|]; [|done].
    by vm_compute in Hs.
Qed.

Lemma sample_snap_ok : snap_ok sample_snapshot.
Proof. intros x. apply sample_in_snap. Qed.

(** ** Witnesses *)

Lemma mvcc_visibility_witness :
  (exists h', HeapTupleSatisfiesMVCC being_deleted sample_snapshot 0 = Ret (true, h')) /\
  exists h', HeapTupleSatisfiesMVCC own_deleted sample_snapshot 0
             = Ret (mvcc_visible sample_snapshot (t_data own_deleted), h').
Proof.
  split; [by eexists|].
  destruct (@mvcc_visibility _ _ sample_laws sample_snapshot own_deleted 0 sample_snap_ok eq_refl
              own_deleted_hints own_deleted_ok ltac:(done)) as (h' & E & _).
  by exists h'.
Defined.

Lemma self_dirty_visibility_witness :
  (exists h', HeapTupleSatisfiesDirty being_deleted sample_snapshot 0
     = Ret (true, store_out sample_snapshot (out_deleter 101), h')) /\
  exists h', HeapTupleSatisfiesSelf being_deleted 0 = Ret (true, h') /\ step_ok (t_data being_deleted) h'.
Proof.
  destruct (@self_dirty_visibility _ _ sample_laws being_deleted sample_snapshot 0 eq_refl
              being_deleted_hints being_deleted_ok ltac:(done)) as [H1 (h2 & E2 & _)].
  split; [by exists h2|exact H1].
Defined.

Lemma update_verdicts_witness :
  exists r h', HeapTupleSatisfiesUpdate multi_updated 5 0 = Ret (r, h') /\
    r = HeapTupleBeingUpdated /\ update_verdict (t_data multi_updated) 5 r.
Proof.
  destruct (@update_verdicts _ _ sample_laws multi_updated 5 0 eq_refl multi_updated_hints
              multi_updated_ok multi_updated_readable) as (r & h' & E & _ & Hv).
  exists r, h'. split_and!; [done| |done]. vm_compute in E. by injection E as <- _.
Defined.

Lemma vacuum_verdicts_witness :
  exists r h', HeapTupleSatisfiesVacuum multi_updated 101 0 = Ret (r, h') /\
    r = HEAPTUPLE_DEAD /\ vacuum_verdict (t_data multi_updated) 101 r.
Proof.
  destruct (@vacuum_verdicts _ _ sample_laws multi_updated 101 0 eq_refl multi_updated_hints
              multi_updated_ok multi_updated_readable) as (r & h' & E & _ & Hv & _).
  exists r, h'. split_and!; [done| |done]. vm_compute in E. by injection E as <- _.
Defined.

Lemma vacuum_dead_invisible_witness :
  exists h'', HeapTupleSatisfiesMVCC multi_updated sample_snapshot 3 = Ret (false, h'').
Proof.
  eapply (@vacuum_dead_invisible _ sample_backend sample_backend multi_updated 101 0 _ sample_snapshot 3
            sample_laws sample_laws eq_refl multi_updated_hints multi_updated_ok multi_updated_ok
            multi_updated_readable sample_snap_ok ltac:(done) ltac:(done)).
  vm_compute. reflexivity.
Defined.
