(* ===== verification/TqualSnapshot.v ===== *)
(** Snapshots: what [XidInMVCCSnapshot] of tqual.c makes of the three ways a
    snapshot lists running transactions, and the historic snapshots of logical
    decoding ([TransactionIdInArray], [HeapTupleSatisfiesHistoricMVCC]), which
    list the committed ones in sorted arrays. *)
From S2P Require Import Prelude Transam HeapTuple Combocid Tqual TqualSpec.

(** ** Scanning an array *)

Lemma xid_array_scan_spec n i x arr :
  0 <= i -> i + Z.of_nat n <= zlen arr ->
  xid_array_scan n i x arr = Ret (bool_decide (x ∈ take n (drop (Z.to_nat i) arr))).
Proof.
  revert i. induction n as [|n IH]; intros i Hi Hn.
  - cbn. by rewrite bool_decide_false by apply not_elem_of_nil.
  - destruct (zget_is_Some arr i ltac:(lia)) as [y Ey].
    cbn [xid_array_scan]. rewrite Ey. cbn [deref cbind].
    assert (arr !! Z.to_nat i = Some y) as Hl by (unfold zget in Ey; by destruct (Z.ltb_spec i 0); [lia|]).
    rewrite (drop_S _ _ _ Hl), firstn_cons. unfold TransactionIdEquals.
    destruct (Z.eqb_spec x y) as [->|Hne]; [by rewrite bool_decide_true by constructor|].
    rewrite IH by lia. replace (Z.to_nat (i + 1)) with (S (Z.to_nat i)) by lia.
    f_equal. apply bool_decide_ext. rewrite elem_of_cons. tauto.
Qed.

Definition listed (x : TransactionId) (arr : list TransactionId) (cnt : Z) : Prop :=
  x ∈ take (Z.to_nat cnt) arr.

Lemma scan_listed x arr cnt :
  0 <= cnt <= zlen arr ->
  exists b, xid_array_scan (Z.to_nat cnt) 0 x arr = Ret b /\ (b = true <-> listed x arr cnt).
Proof.
  intros Hc. eexists. rewrite xid_array_scan_spec by lia. split; [done|].
  unfold listed. rewrite bool_decide_eq_true. by rewrite drop_0.
Qed.

Section Snapshot.
Context `{SharedXacts}.

(** What [GetSnapshotData] promises: [running] are the transactions (with
    their subtransactions) in progress when the snapshot was taken. *)
Record snapshot_of (s : SnapshotData) (running : TransactionId -> Prop) : Prop := {
  so_counts : 0 <= snap_xcnt s <= zlen (snap_xip s) /\ 0 <= snap_subxcnt s <= zlen (snap_subxip s);
  so_range : forall x, TransactionIdPrecedes x (snap_xmin s) = true -> ~ running x;
  (* an overflowed snapshot has only top-level ids: a subtransaction runs as
     long as its topmost transaction does *)
  so_topmost : snap_suboverflowed s = true ->
    forall x, TransactionIdPrecedes x (snap_xmin s) = false -> TransactionIdFollowsOrEquals x (snap_xmax s) = false ->
    exists t, xact_topmost x = Ret t /\ (running x <-> running t) /\
      (TransactionIdPrecedes t (snap_xmin s) = false ->
       (running t <-> if snap_takenDuringRecovery s then listed t (snap_subxip s) (snap_subxcnt s)
                      else listed t (snap_xip s) (snap_xcnt s)));
  so_full : snap_suboverflowed s = false ->
    forall x, TransactionIdPrecedes x (snap_xmin s) = false -> TransactionIdFollowsOrEquals x (snap_xmax s) = false ->
    (running x <-> listed x (snap_subxip s) (snap_subxcnt s) \/
                   (snap_takenDuringRecovery s = false /\ listed x (snap_xip s) (snap_xcnt s)))
}.

(** The answer for one id, from what the snapshot says about that id and, when
    it is overflowed, about its topmost parent. *)
Lemma xid_in_snapshot s (running : TransactionId -> Prop) x :
  0 <= snap_xcnt s <= zlen (snap_xip s) /\ 0 <= snap_subxcnt s <= zlen (snap_subxip s) ->
  (TransactionIdPrecedes x (snap_xmin s) = true -> ~ running x) ->
  (snap_suboverflowed s = true ->
    TransactionIdPrecedes x (snap_xmin s) = false -> TransactionIdFollowsOrEquals x (snap_xmax s) = false ->
    exists t, xact_topmost x = Ret t /\ (running x <-> running t) /\
      (TransactionIdPrecedes t (snap_xmin s) = true -> ~ running t) /\
      (TransactionIdPrecedes t (snap_xmin s) = false ->
       (running t <-> if snap_takenDuringRecovery s then listed t (snap_subxip s) (snap_subxcnt s)
                      else listed t (snap_xip s) (snap_xcnt s)))) ->
  (snap_suboverflowed s = false ->
    TransactionIdPrecedes x (snap_xmin s) = false -> TransactionIdFollowsOrEquals x (snap_xmax s) = false ->
    (running x <-> listed x (snap_subxip s) (snap_subxcnt s) \/
                   (snap_takenDuringRecovery s = false /\ listed x (snap_xip s) (snap_xcnt s)))) ->
  (TransactionIdPrecedes x (snap_xmin s) = true -> TransactionIdFollowsOrEquals x (snap_xmax s) = false) ->
  exists b, XidInMVCCSnapshot x s = Ret b /\
    (b = true <-> TransactionIdFollowsOrEquals x (snap_xmax s) = true \/
                  (TransactionIdFollowsOrEquals x (snap_xmax s) = false /\ running x)).
Proof.
  intros [Hc1 Hc2] Hr Htop Hfull Hx. unfold XidInMVCCSnapshot.
  destruct (TransactionIdPrecedes x (snap_xmin s)) eqn:Ep.
  { exists false. split; [done|]. rewrite (Hx eq_refl). pose proof (Hr eq_refl). split; [done|]. intros [?|[_ ?]]; done. }
  destruct (TransactionIdFollowsOrEquals x (snap_xmax s)) eqn:Ef; [exists true; split; [done|]; tauto|].
  assert (forall b, (b = true <-> running x) ->
    b = true <-> false = true \/ (false = false /\ running x)) as Hfin by (intros b ->; intuition congruence).
  destruct (snap_suboverflowed s) eqn:Eo.
  - destruct (Htop eq_refl eq_refl eq_refl) as (t & Et & Hrun & Hrt & Hl).
    destruct (scan_listed t _ _ Hc1) as (b1 & E1 & Hb1). destruct (scan_listed t _ _ Hc2) as (b2 & E2 & Hb2).
    rewrite Et. cbn [cbind negb]. rewrite E1, E2.
    destruct (TransactionIdPrecedes t (snap_xmin s)) eqn:Ept.
    + exists false. split; [by destruct (snap_takenDuringRecovery s)|]. apply Hfin. pose proof (Hrt eq_refl). intuition congruence.
    + destruct (snap_takenDuringRecovery s); eexists; (split; [done|]); apply Hfin; by rewrite Hrun, Hl.
  - pose proof (Hfull eq_refl eq_refl eq_refl) as Hrun.
    destruct (scan_listed x _ _ Hc1) as (b1 & E1 & Hb1). destruct (scan_listed x _ _ Hc2) as (b2 & E2 & Hb2).
    cbn [negb]. rewrite E1, E2. cbn [cbind].
    destruct (snap_takenDuringRecovery s); cbn [negb].
    + exists b2. split; [done|]. apply Hfin. intuition congruence.
    + destruct b2; eexists; (split; [done|]); apply Hfin; intuition congruence.
Qed.

(** [XidInMVCCSnapshot] always answers, for complete and overflowed
    snapshots, taken in normal running or during recovery: true exactly for the
    ids that were running when the snapshot was taken and for the ids at or
    after its [xmax].  (The id is one the circular order can place: not both
    before [xmin] and after [xmax].) *)
Theorem xid_in_snapshot_spec s running x :
  snapshot_of s running ->
  (TransactionIdPrecedes x (snap_xmin s) = true -> TransactionIdFollowsOrEquals x (snap_xmax s) = false) ->
  exists b, XidInMVCCSnapshot x s = Ret b /\
    (b = true <-> TransactionIdFollowsOrEquals x (snap_xmax s) = true \/
                  (TransactionIdFollowsOrEquals x (snap_xmax s) = false /\ running x)).
Proof.
  intros [Hc Hr Htop Hfull] Hx. apply xid_in_snapshot; auto. intros Eo Ep Ef.
  destruct (Htop Eo x Ep Ef) as (t & Et & Hrun & Hl). exists t. auto.
Qed.
End Snapshot.

(** Overflowed: 12 and 13 are subtransactions of the running 11. *)
Definition overflow_shared : SharedXacts := {|
  xact_in_progress x := false; xact_did_commit x := false;
  xact_topmost x := Ret (if (x =? 12) || (x =? 13) then 11 else x);
  multi_members m _ _ := Ret []; commit_lsn _ := 0; BufferIsPermanent _ := true;
  XLogNeedsFlush _ := false; BufferGetLSNAtomic _ := 0 |}.

Definition overflow_snapshot : SnapshotData := {|
  snap_xmin := 11; snap_xmax := 15; snap_xip := [11]; snap_xcnt := 1;
  snap_subxip := []; snap_subxcnt := 0; snap_suboverflowed := true;
  snap_takenDuringRecovery := false; snap_curcid := 0; snap_speculativeToken := 0 |}.

Lemma overflow_snapshot_of :
  @snapshot_of overflow_shared overflow_snapshot (fun x => x = 11 \/ x = 12 \/ x = 13).
Proof.
  constructor.
  - by cbn.
  - intros x Hx [-> |[-> | ->]]; by vm_compute in Hx.
  - intros _ x Hp Hf. cbn. eexists. split; [done|].
    unfold listed. change (take (Z.to_nat 1) [11]) with [11]. rewrite list_elem_of_singleton.
    destruct (Z.eqb_spec x 12); [cbn; split; [lia|]; intros; lia|].
    destruct (Z.eqb_spec x 13); cbn; (split; [lia|]); intros; lia.
  - done.
Qed.

Lemma xid_in_snapshot_spec_witness :
  @XidInMVCCSnapshot overflow_shared 13 overflow_snapshot = Ret true /\
  exists b, @XidInMVCCSnapshot overflow_shared 14 overflow_snapshot = Ret b /\
    (b = true <-> TransactionIdFollowsOrEquals 14 15 = true \/
                  (TransactionIdFollowsOrEquals 14 15 = false /\ (14 = 11 \/ 14 = 12 \/ 14 = 13))).
Proof.
  split; [vm_compute; reflexivity|].
  exact (@xid_in_snapshot_spec overflow_shared overflow_snapshot _ 14 overflow_snapshot_of ltac:(done)).
Defined.

(** ** Historic snapshots *)

(** [xidComparator] of xid.c. *)
Definition xidComparator (xid1 xid2 : TransactionId) : Z :=
  if xid1 >? xid2 then 1 else if xid1 <? xid2 then -1 else 0.

(** The C library's [bsearch] for an id; the state is the interval left. *)
Definition bsearch_step (key : TransactionId) (base : list TransactionId) (lu : Z * Z) : (Z * Z) + cres bool :=
  let '(l, u) := lu in
  if l <? u then
    let idx := (l + u) / 2 in
    call (deref (zget base idx)) (fun p =>
      let comparison := xidComparator key p in
      if comparison <? 0 then inl (l, idx)
      else if comparison >? 0 then inl (idx + 1, u)
      else inr (Ret true))
  else inr (Ret false).

Definition TransactionIdInArray (xid : TransactionId) (xip : list TransactionId) (num : Z) : cres bool :=
  loop 64 (bsearch_step xid xip) (0, num).

Definition InvalidCommandId : CommandId := 2 ^ 32 - 1.

Section Historic.
Context `{SharedXacts}.

(** [ResolveCminCmaxDuringDecoding]: the command ids recorded for the tuple
    while the transaction was decoded, or none. *)
Context (resolve : HeapTuple -> Z -> option (CommandId * CommandId)).

(** Has the snapshot seen the inserting transaction? *)
Definition Historic_xmin (htup : HeapTuple) (snapshot : SnapshotData) (buffer : Z) : cres bool :=
  let tuple := t_data htup in
  let xmin := HeapTupleHeaderGetXmin tuple in
  if HeapTupleHeaderXminInvalid tuple then
    c_assert (negb (xact_did_commit xmin)) ;; Ret false
  else
    let* own := TransactionIdInArray xmin (snap_subxip snapshot) (snap_subxcnt snapshot) in
    if own then
      match resolve htup buffer with
      | None => Elog "could not resolve cmin/cmax of catalog tuple"
      | Some (cmin, _) =>
          c_assert (negb (cmin =? InvalidCommandId)) ;;
          Ret (negb (snap_curcid snapshot <=? cmin))
      end
    else if TransactionIdPrecedes xmin (snap_xmin snapshot) then
      c_assert (negb (HeapTupleHeaderXminCommitted tuple && negb (xact_did_commit xmin))) ;;
      Ret (negb (negb (HeapTupleHeaderXminCommitted tuple) && negb (xact_did_commit xmin)))
    else if TransactionIdFollowsOrEquals xmin (snap_xmax snapshot) then Ret false
    else TransactionIdInArray xmin (snap_xip snapshot) (snap_xcnt snapshot).

Definition Historic_xmax (htup : HeapTuple) (snapshot : SnapshotData) (buffer : Z) : cres bool :=
  let tuple := t_data htup in
  if has (t_infomask tuple) HEAP_XMAX_INVALID then Ret true
  else if HEAP_XMAX_IS_LOCKED_ONLY (t_infomask tuple) then Ret true
  else
    let* xmax := (if has (t_infomask tuple) HEAP_XMAX_IS_MULTI then HeapTupleGetUpdateXid tuple
                  else Ret (HeapTupleHeaderGetRawXmax tuple)) in
    let* own := TransactionIdInArray xmax (snap_subxip snapshot) (snap_subxcnt snapshot) in
    if own then
      match resolve htup buffer with
      | None => Elog "could not resolve combocid to cmax"
      | Some (_, cmax) =>
          c_assert (negb (cmax =? InvalidCommandId)) ;;
          if snap_curcid snapshot <=? cmax then Ret true else Ret false
      end
    else if TransactionIdPrecedes xmax (snap_xmin snapshot) then
      c_assert (negb (has (t_infomask tuple) HEAP_XMAX_COMMITTED && negb (xact_did_commit xmax))) ;;
      if has (t_infomask tuple) HEAP_XMAX_COMMITTED then Ret false
      else Ret (negb (xact_did_commit xmax))
    else if TransactionIdFollowsOrEquals xmax (snap_xmax snapshot) then Ret true
    else
      let* done := TransactionIdInArray xmax (snap_xip snapshot) (snap_xcnt snapshot) in
      if done then Ret false else Ret true.

Definition HeapTupleSatisfiesHistoricMVCC (htup : HeapTuple) (snapshot : SnapshotData) (buffer : Z) : cres bool :=
  check_htup htup ;;
  let* seen := Historic_xmin htup snapshot buffer in
  if seen then Historic_xmax htup snapshot buffer else Ret false.
End Historic.

(** The binary search on a sorted array decides membership. *)
Definition xid_sorted (arr : list TransactionId) : Prop :=
  forall i j x y, i <= j -> zget arr i = Some x -> zget arr j = Some y -> x <= y.

Lemma listed_zget x arr cnt : 0 <= cnt <= zlen arr ->
  (listed x arr cnt <-> exists i, 0 <= i < cnt /\ zget arr i = Some x).
Proof.
  intros Hc. unfold listed. rewrite list_elem_of_lookup. split.
  - intros [i Hi]. pose proof (lookup_lt_Some _ _ _ Hi) as Hl. rewrite length_take in Hl.
    rewrite lookup_take_lt in Hi by lia. exists (Z.of_nat i). split; [lia|].
    unfold zget. destruct (Z.ltb_spec (Z.of_nat i) 0); [lia|]. by rewrite Nat2Z.id.
  - intros (i & Hi & Hg). unfold zget in Hg. destruct (Z.ltb_spec i 0); [done|].
    exists (Z.to_nat i). by rewrite lookup_take_lt by lia.
Qed.

Lemma in_array_spec x arr cnt :
  xid_sorted arr -> 0 <= cnt <= zlen arr -> cnt < 2 ^ 64 ->
  exists b, TransactionIdInArray x arr cnt = Ret b /\ (b = true <-> listed x arr cnt).
Proof.
  intros Hs Hc Hmax. setoid_rewrite (listed_zget x arr cnt Hc).
  set (found := exists i, 0 <= i < cnt /\ zget arr i = Some x).
  apply (loop_ensures (bsearch_step x arr)
    (fun '(l, u) => 0 <= l /\ u <= cnt /\ (found -> exists i, l <= i < u /\ zget arr i = Some x))
    (fun '(l, u) => Z.max 0 (u - l))) with
    (Q := fun r => exists b, r = Ret b /\ (b = true <-> found)).
  - intros [l u] [l' u'] (Hl & Hu & Hf) E. unfold bsearch_step in E.
    destruct (Z.ltb_spec l u); [|done].
    assert (l <= (l + u) / 2 < u) as Hi by (Z.to_euclidean_division_equations; lia).
    destruct (zget_is_Some arr ((l + u) / 2)) as [p Ep]; [lia|]. rewrite Ep in E. cbn [deref call] in E.
    unfold xidComparator in E. destruct (Z.gtb_spec x p), (Z.ltb_spec x p); try lia; cbn in E;
      try done; injection E as <- <-; (split; [|lia]); (split_and!; [lia|lia|]);
      intros Hfound; destruct (Hf Hfound) as (i & Hi' & Hg); exists i; (split; [|done]).
    + destruct (decide (i <= (l + u) / 2)) as [Hle|]; [|lia]. pose proof (Hs i _ _ _ Hle Hg Ep). lia.
    + destruct (decide (i < (l + u) / 2)); [lia|].
      pose proof (Hs ((l + u) / 2) i _ _ ltac:(lia) Ep Hg). lia.
  - split_and!; [lia|lia|]. done.
  - lia.
  - intros [l u] r (Hl & Hu & Hf) E. unfold bsearch_step in E.
    destruct (Z.ltb_spec l u) as [Hlt|Hge].
    + assert (l <= (l + u) / 2 < u) as Hi by (Z.to_euclidean_division_equations; lia).
      destruct (zget_is_Some arr ((l + u) / 2)) as [p Ep]; [lia|]. rewrite Ep in E. cbn [deref call] in E.
      unfold xidComparator in E. destruct (Z.gtb_spec x p), (Z.ltb_spec x p); try lia; cbn in E; try done.
      assert (x = p) as -> by lia. injection E as <-. exists true. split; [done|]. split; [|done].
      intros _. exists ((l + u) / 2). split; [lia|done].
    + injection E as <-. exists false. split; [done|]. split; [done|].
      intros Hfound. destruct (Hf Hfound) as (i & Hi & _). lia.
Qed.

#[export] Instance listed_dec x arr cnt : Decision (listed x arr cnt).
Proof. unfold listed. apply _. Defined.

Section HistoricSpec.
Context `{SharedXacts} (resolve : HeapTuple -> Z -> option (CommandId * CommandId)).

(** The decoded transaction's own changes count by command, transactions
    before the horizon by their outcome, later ones if listed as committed. *)
Definition hist_seen (s : SnapshotData) (own : bool) (x : TransactionId) : bool :=
  if bool_decide (listed x (snap_subxip s) (snap_subxcnt s)) then own
  else if TransactionIdPrecedes x (snap_xmin s) then xact_did_commit x
  else if TransactionIdFollowsOrEquals x (snap_xmax s) then false
  else bool_decide (listed x (snap_xip s) (snap_xcnt s)).

Record historic_ok (s : SnapshotData) : Prop := {
  hs_xip : xid_sorted (snap_xip s) /\ 0 <= snap_xcnt s <= zlen (snap_xip s) /\ snap_xcnt s < 2 ^ 64;
  hs_subxip : xid_sorted (snap_subxip s) /\ 0 <= snap_subxcnt s <= zlen (snap_subxip s) /\ snap_subxcnt s < 2 ^ 64
}.

(** The deleter a reader without transaction state can see. *)
Definition hinted_deleter (h : HeapTupleHeader) : option TransactionId :=
  if bit h 11 then None else deleter h.

(** Hint bits agree with the commit log; MultiXacts have an updater. *)
Record hist_tuple_ok (h : HeapTupleHeader) : Prop := {
  ht_xmin : HeapTupleHeaderXminInvalid h = true -> xact_did_commit (HeapTupleHeaderGetXmin h) = false;
  ht_xmin' : HeapTupleHeaderXminCommitted h = true -> xact_did_commit (HeapTupleHeaderGetXmin h) = true;
  ht_xmax : bit h 10 = true -> forall x, hinted_deleter h = Some x -> xact_did_commit x = true;
  ht_multi : only_locked h = false -> is_multi h = true -> exists x, HeapTupleGetUpdateXid h = Ret x
}.

Lemma in_array_bool x arr cnt :
  xid_sorted arr /\ 0 <= cnt <= zlen arr /\ cnt < 2 ^ 64 ->
  TransactionIdInArray x arr cnt = Ret (bool_decide (listed x arr cnt)).
Proof.
  intros (Hs & Hc & Hm). destruct (in_array_spec x arr cnt Hs Hc Hm) as (b & -> & Hb). f_equal.
  destruct b; symmetry; [apply bool_decide_eq_true_2|apply bool_decide_eq_false_2]; intuition congruence.
Qed.

Lemma historic_xmin_spec htup s buffer cmin cmax :
  historic_ok s -> hist_tuple_ok (t_data htup) ->
  resolve htup buffer = Some (cmin, cmax) -> cmin <> InvalidCommandId ->
  Historic_xmin resolve htup s buffer =
    Ret (negb (HeapTupleHeaderXminInvalid (t_data htup)) &&
         hist_seen s (cmin <? snap_curcid s) (HeapTupleHeaderGetXmin (t_data htup))).
Proof.
  intros [H1 H2] [Hinv Hcom _ _] Hr Hc. unfold Historic_xmin, hist_seen.
  rewrite !in_array_bool by done. set (h := t_data htup) in *. set (x := HeapTupleHeaderGetXmin h) in *.
  destruct (HeapTupleHeaderXminInvalid h); [by rewrite Hinv|]. cbn [negb andb cbind].
  case_bool_decide.
  - rewrite Hr. destruct (Z.eqb_spec cmin InvalidCommandId); [done|]. cbn [negb c_assert cbind].
    f_equal. destruct (Z.leb_spec (snap_curcid s) cmin), (Z.ltb_spec cmin (snap_curcid s)); done || lia.
  - destruct (TransactionIdPrecedes x (snap_xmin s)).
    + destruct (HeapTupleHeaderXminCommitted h); [by rewrite Hcom|]. cbn. by rewrite negb_involutive.
    + by destruct (TransactionIdFollowsOrEquals x (snap_xmax s)).
Qed.

Lemma historic_xmax_spec htup s buffer cmin cmax :
  historic_ok s -> hist_tuple_ok (t_data htup) ->
  resolve htup buffer = Some (cmin, cmax) -> cmax <> InvalidCommandId ->
  Historic_xmax resolve htup s buffer =
    Ret (negb (match hinted_deleter (t_data htup) with
               | Some x => hist_seen s (cmax <? snap_curcid s) x | None => false end)).
Proof.
  intros [H1 H2] [_ _ Hcom Hmul] Hr Hc. unfold Historic_xmax. set (h := t_data htup) in *.
  unfold hinted_deleter, deleter in *.
  rewrite has_xmax_invalid, has_multi, has_xmax_committed.
  fold (bit h 11) (bit h 12) (bit h 10) (only_locked h) (is_multi h).
  destruct (bit h 11); [done|]. destruct (only_locked h); [done|].
  assert (exists x, (if is_multi h then HeapTupleGetUpdateXid h else Ret (HeapTupleHeaderGetRawXmax h)) = Ret x /\
    (if is_multi h then match HeapTupleGetUpdateXid h with Ret x => Some x | _ => None end else Some (t_xmax h))
    = Some x) as (x & -> & Ex).
  { destruct (is_multi h); [|by eexists]. destruct (Hmul eq_refl eq_refl) as [x ->]. by exists x. }
  rewrite Ex in Hcom |- *. cbn [cbind]. rewrite !in_array_bool by done. unfold hist_seen. cbn [cbind].
  case_bool_decide.
  - rewrite Hr. destruct (Z.eqb_spec cmax InvalidCommandId); [done|]. cbn [negb c_assert cbind].
    destruct (Z.leb_spec (snap_curcid s) cmax), (Z.ltb_spec cmax (snap_curcid s)); done || lia.
  - destruct (TransactionIdPrecedes x (snap_xmin s)).
    + destruct (bit h 10); [by rewrite (Hcom eq_refl x eq_refl)|done].
    + destruct (TransactionIdFollowsOrEquals x (snap_xmax s)); [done|]. by case_bool_decide.
Qed.

(** During logical decoding [HeapTupleSatisfiesHistoricMVCC] answers
    whether the tuple was inserted, and not deleted, by a transaction the
    historic snapshot has seen: binary search in its sorted arrays is
    membership, the decoded transaction's own changes count by the command ids
    recorded for them, and an own tuple without such a record is an error. *)
Theorem historic_visibility htup s buffer :
  check_htup htup = Ret tt -> historic_ok s -> hist_tuple_ok (t_data htup) ->
  (forall cmin cmax, resolve htup buffer = Some (cmin, cmax) ->
     cmin <> InvalidCommandId -> cmax <> InvalidCommandId ->
     HeapTupleSatisfiesHistoricMVCC resolve htup s buffer =
       Ret (negb (HeapTupleHeaderXminInvalid (t_data htup)) &&
            hist_seen s (cmin <? snap_curcid s) (HeapTupleHeaderGetXmin (t_data htup)) &&
            negb (match hinted_deleter (t_data htup) with
                  | Some x => hist_seen s (cmax <? snap_curcid s) x | None => false end))) /\
  (resolve htup buffer = None -> HeapTupleHeaderXminInvalid (t_data htup) = false ->
     listed (HeapTupleHeaderGetXmin (t_data htup)) (snap_subxip s) (snap_subxcnt s) ->
     HeapTupleSatisfiesHistoricMVCC resolve htup s buffer =
       Elog "could not resolve cmin/cmax of catalog tuple").
Proof.
  intros Hc Hs Ht. unfold HeapTupleSatisfiesHistoricMVCC. rewrite Hc. cbn [cbind]. split.
  - intros cmin cmax Hr Hmin Hmax.
    rewrite (historic_xmin_spec htup s buffer cmin cmax Hs Ht Hr Hmin). cbn [cbind].
    destruct (negb _ && _); cbn [andb]; [|done]. by apply historic_xmax_spec with (cmin := cmin).
  - intros Hr Hi Hl. unfold Historic_xmin. rewrite Hi. destruct Hs as [_ Hs].
    rewrite in_array_bool, bool_decide_true by done. cbn [cbind]. by rewrite Hr.
Qed.
End HistoricSpec.

(** Transactions 30 and 31 are decoded, 20 and 25 have committed since 20. *)
Definition hist_snapshot : SnapshotData := {|
  snap_xmin := 20; snap_xmax := 29; snap_xip := [20; 25]; snap_xcnt := 2;
  snap_subxip := [30; 31]; snap_subxcnt := 2; snap_suboverflowed := false;
  snap_takenDuringRecovery := false; snap_curcid := 4; snap_speculativeToken := 0 |}.

Definition hist_tuple : HeapTuple :=
  {| t_self := {| ip_blkid := 7; ip_posid := 1 |}; t_tableOid := 1259;
     t_data := {| t_xmin := 25; t_xmax := 30; t_field3 := 0;
                  t_ctid := {| ip_blkid := 7; ip_posid := 1 |}; t_infomask := 0 |} |}.

Lemma pair_sorted a b : a <= b -> xid_sorted [a; b].
Proof.
  intros Hab i j x y Hij Hi Hj.
  pose proof (zget_Some_lt _ _ _ Hi) as Bi. pose proof (zget_Some_lt _ _ _ Hj) as Bj. unfold zlen in *. cbn in Bi, Bj.
  assert (i = 0 \/ i = 1) as [-> | ->] by lia; assert (j = 0 \/ j = 1) as [-> | ->] by lia;
    (lia || (cbn in Hi, Hj; injection Hi as <-; injection Hj as <-; lia)).
Qed.

Lemma historic_visibility_witness :
  @HeapTupleSatisfiesHistoricMVCC overflow_shared (fun _ _ => Some (2, 5)) hist_tuple hist_snapshot 0 = Ret true.
Proof.
  destruct (@historic_visibility overflow_shared (fun _ _ => Some (2, 5)) hist_tuple hist_snapshot 0 eq_refl)
    as [H _].
  - constructor; (split; [by apply pair_sorted|done]).
  - by constructor.
  - rewrite (H 2 5 eq_refl ltac:(done) ltac:(done)). vm_compute. reflexivity.
Defined.
