(* ===== verification/Procarray.v ===== *)
(** Which transactions are running: [TransactionIdIsCurrentTransactionId] of
    xact.c, which looks at the backend's own transaction stack, and
    [TransactionIdIsInProgress] of procarray.c, which looks at every other
    backend's published ids.  Together with [Transam.v] they implement the
    interface of the visibility routines ([SharedXacts] and [Backend] of
    [Tqual.v]).

    Hot standby is left to parameters: the list of known-assigned ids is what
    [KnownAssignedXidExists] and [KnownAssignedXidsGet] answer. *)
From S2P Require Import Prelude Transam HeapTuple Combocid Tqual TqualSpec.

(** ** The own transaction *)

Record TransactionStateData := {
  transactionId : TransactionId;
  state_is_abort : bool;                  (* s->state == TRANS_ABORT *)
  childXids : list TransactionId          (* nChildXids entries *)
}.

(** [while (low <= high)]: binary search in an array ordered by [before]. *)
Definition search_step (before : TransactionId -> TransactionId -> bool) (arr : list TransactionId)
    (xid : TransactionId) (lh : Z * Z) : (Z * Z) + cres bool :=
  let '(low, high) := lh in
  if low <=? high then
    let middle := low + Z.quot (high - low) 2 in
    call (deref (zget arr middle)) (fun probe =>
      if TransactionIdEquals probe xid then inr (Ret true)
      else if before probe xid then inl (middle + 1, high)
      else inl (low, middle - 1))
  else inr (Ret false).

Definition binary_search (before : TransactionId -> TransactionId -> bool) (arr : list TransactionId)
    (xid : TransactionId) : cres bool :=
  loop 32 (search_step before arr xid) (0, zlen arr - 1).

(** [for (s = CurrentTransactionState; s != NULL; s = s->parent)]. *)
Fixpoint stack_scan (stack : list TransactionStateData) (xid : TransactionId) : cres bool :=
  match stack with
  | [] => Ret false
  | s :: parents =>
      if state_is_abort s then stack_scan parents xid
      else if negb (TransactionIdIsValid (transactionId s)) then stack_scan parents xid
      else if TransactionIdEquals xid (transactionId s) then Ret true
      else
        let* found := binary_search TransactionIdPrecedes (childXids s) xid in
        if found then Ret true else stack_scan parents xid
  end.

Definition TransactionIdIsCurrentTransactionId (ParallelCurrentXids : list TransactionId)
    (stack : list TransactionStateData) (xid : TransactionId) : cres bool :=
  if negb (TransactionIdIsNormal xid) then Ret false
  else if 0 <? zlen ParallelCurrentXids then binary_search Z.ltb ParallelCurrentXids xid
  else stack_scan stack xid.

(** ** Other backends *)

(** One entry of the process array: [pgxact->xid], the cached subtransaction
    ids and the overflow flag. *)
Record ProcEntry := {
  is_my_proc : bool;
  pgxact_xid : TransactionId;
  subxids : list TransactionId;
  overflowed : bool
}.

Record ProcArray := {
  procs : list ProcEntry;
  latestCompletedXid : TransactionId;
  lastOverflowedXid : TransactionId;
  RecentXmin : TransactionId;
  recovery : bool;                                        (* RecoveryInProgress() *)
  KnownAssignedXidExists : TransactionId -> bool;
  KnownAssignedXidsGet : TransactionId -> list TransactionId
}.

(** [for (j = pgxact->nxids - 1; j >= 0; j--)]. *)
Definition cached_child (xid : TransactionId) (p : ProcEntry) : bool :=
  existsb (fun cxid => TransactionIdEquals cxid xid) (rev (subxids p)).

(** Steps 1 and 2: [inr tt] when the id was found, otherwise the main ids saved
    for step 4. *)
Fixpoint proc_scan (ps : list ProcEntry) (xid : TransactionId) (saved : list TransactionId)
    : list TransactionId + unit :=
  match ps with
  | [] => inl saved
  | p :: ps =>
      if is_my_proc p then proc_scan ps xid saved
      else
        let pxid := pgxact_xid p in
        if negb (TransactionIdIsValid pxid) then proc_scan ps xid saved
        else if TransactionIdEquals pxid xid then inr tt
        else if TransactionIdPrecedes xid pxid then proc_scan ps xid saved
        else if cached_child xid p then inr tt
        else proc_scan ps xid (if overflowed p then saved ++ [pxid] else saved)
  end.

Section InProgress.
Context `{CommitLog} (arr : ProcArray) (cache : FetchCache) (current : TransactionId -> cres bool).

(** Step 4: the parent may be running although the child is not cached. *)
Definition subtrans_check (xid : TransactionId) (xids : list TransactionId) : cres bool :=
  if zlen xids =? 0 then Ret false
  else
    let* (aborted, _) := TransactionIdDidAbort cache xid in
    if aborted then Ret false
    else
      let* topxid := SubTransGetTopmostTransaction xid in
      c_assert (TransactionIdIsValid topxid) ;;
      if negb (TransactionIdEquals topxid xid)
      then Ret (existsb (fun x => TransactionIdEquals x topxid) xids)
      else Ret false.

Definition TransactionIdIsInProgress (xid : TransactionId) : cres bool :=
  if TransactionIdPrecedes xid (RecentXmin arr) then Ret false
  else if TransactionIdIsKnownCompleted cache xid then Ret false
  else
    let* mine := current xid in
    if mine then Ret true
    else if TransactionIdPrecedes (latestCompletedXid arr) xid then Ret true
    else
      match proc_scan (procs arr) xid [] with
      | inr _ => Ret true
      | inl xids =>
          if recovery arr then
            c_assert (zlen xids =? 0) ;;
            if KnownAssignedXidExists arr xid then Ret true
            else
              subtrans_check xid
                (if TransactionIdPrecedesOrEquals xid (lastOverflowedXid arr)
                 then KnownAssignedXidsGet arr xid else xids)
          else subtrans_check xid xids
      end.
End InProgress.

(** ** Binary search *)

Definition ordered_by (before : TransactionId -> TransactionId -> bool) (arr : list TransactionId) : Prop :=
  forall i j a b, i < j -> zget arr i = Some a -> zget arr j = Some b ->
    before a b = true /\ before b a = false /\ a <> b.

Lemma elem_of_zget {A} (x : A) l : x ∈ l <-> exists i, zget l i = Some x.
Proof.
  rewrite list_elem_of_lookup. unfold zget. split.
  - intros [i Hi]. exists (Z.of_nat i). destruct (Z.ltb_spec (Z.of_nat i) 0); [lia|]. by rewrite Nat2Z.id.
  - intros [i Hi]. destruct (i <? 0); [done|]. by exists (Z.to_nat i).
Qed.

Lemma binary_search_spec before arr x :
  ordered_by before arr -> zlen arr < 2 ^ 32 ->
  exists b, binary_search before arr x = Ret b /\ (b = true <-> x ∈ arr).
Proof.
  intros Ho Hl. setoid_rewrite elem_of_zget. set (found := exists i, zget arr i = Some x).
  apply (loop_ensures (search_step before arr x)
    (fun '(l, h) => 0 <= l /\ h < zlen arr /\ (found -> exists i, l <= i <= h /\ zget arr i = Some x))
    (fun '(l, h) => Z.max 0 (h + 1 - l))) with
    (Q := fun r => exists b, r = Ret b /\ (b = true <-> found)).
  - intros [l h] [l' h'] (H0 & Hh & Hf) E. unfold search_step in E.
    destruct (Z.leb_spec l h); [|done].
    assert (l <= l + Z.quot (h - l) 2 <= h) as Hi by (rewrite Z.quot_div_nonneg by lia; Z.to_euclidean_division_equations; lia).
    set (k := l + Z.quot (h - l) 2) in *.
    destruct (zget_is_Some arr k) as [p Ep]; [lia|]. rewrite Ep in E. cbn [deref call] in E.
    unfold TransactionIdEquals in E. destruct (Z.eqb_spec p x); [done|].
    destruct (before p x) eqn:Eb; injection E as <- <-; (split; [|lia]); (split_and!; [lia|lia|]);
      intros Hfound; destruct (Hf Hfound) as (i & Hi' & Hg); exists i; (split; [|done]);
      assert (i <> k) by congruence.
    + destruct (decide (i < k)) as [Hlt|]; [|lia]. destruct (Ho i k x p Hlt Hg Ep) as (_ & ? & _). congruence.
    + destruct (decide (k < i)) as [Hlt|]; [|lia]. destruct (Ho k i p x Hlt Ep Hg) as (? & _). congruence.
  - split_and!; [lia|lia|]. intros [i Hg]. exists i. split; [|done]. apply zget_Some_lt in Hg. lia.
  - unfold zlen in *. lia.
  - intros [l h] r (H0 & Hh & Hf) E. unfold search_step in E. destruct (Z.leb_spec l h).
    + assert (l <= l + Z.quot (h - l) 2 <= h) as Hi by (rewrite Z.quot_div_nonneg by lia; Z.to_euclidean_division_equations; lia).
      set (k := l + Z.quot (h - l) 2) in *.
      destruct (zget_is_Some arr k) as [p Ep]; [lia|]. rewrite Ep in E. cbn [deref call] in E.
      unfold TransactionIdEquals in E. destruct (Z.eqb_spec p x) as [Epx|Hne]; [|by destruct (before p x)].
      rewrite Epx in Ep. injection E as <-. exists true. split; [done|]. split; [|done]. intros _. by exists k.
    + injection E as <-. exists false. split; [done|]. split; [done|]. intros Hfound.
      destruct (Hf Hfound) as (i & Hi & _). lia.
Qed.

(** ** The own transaction *)

Definition stack_ok (stack : list TransactionStateData) : Prop :=
  Forall (fun s => ordered_by TransactionIdPrecedes (childXids s) /\ zlen (childXids s) < 2 ^ 32) stack.

(** [x] is the id of a transaction on the stack that is not being aborted, or
    of one of its subcommitted children. *)
Definition own_xid (stack : list TransactionStateData) (x : TransactionId) : Prop :=
  exists s, s ∈ stack /\ state_is_abort s = false /\ TransactionIdIsValid (transactionId s) = true /\
    (x = transactionId s \/ x ∈ childXids s).

Lemma own_xid_cons s stack x :
  own_xid (s :: stack) x <->
  (state_is_abort s = false /\ TransactionIdIsValid (transactionId s) = true /\
   (x = transactionId s \/ x ∈ childXids s)) \/ own_xid stack x.
Proof.
  unfold own_xid. setoid_rewrite elem_of_cons. split.
  - intros (t & [->|Ht] & H); [by left|right; by exists t].
  - intros [H|(t & Ht & H)]; [exists s; by split; [left|]|exists t; split; [by right|done]].
Qed.

Lemma stack_scan_spec stack x : stack_ok stack ->
  exists b, stack_scan stack x = Ret b /\ (b = true <-> own_xid stack x).
Proof.
  induction 1 as [|s stack [Ho Hl] _ IH].
  - exists false. split; [done|]. split; [done|]. intros (s & Hs & _). by apply not_elem_of_nil in Hs.
  - destruct IH as (b & Eb & Hb). destruct (binary_search_spec _ _ x Ho Hl) as (c & Ec & Hc).
    setoid_rewrite own_xid_cons. cbn [stack_scan]. unfold TransactionIdEquals. rewrite Ec, Eb.
    destruct (state_is_abort s); [exists b; split; [done|]; intuition congruence|].
    destruct (TransactionIdIsValid (transactionId s)); cbn [negb]; [|exists b; split; [done|]; intuition congruence].
    destruct (Z.eqb_spec x (transactionId s)); [exists true; split; [done|]; intuition congruence|].
    cbn [cbind]. destruct c; [exists true|exists b]; (split; [done|]); intuition congruence.
Qed.

(** What [TransactionIdIsCurrentTransactionId] promises. *)
Definition my_xid (parallel : list TransactionId) (stack : list TransactionStateData) (x : TransactionId) : Prop :=
  TransactionIdIsNormal x = true /\ if 0 <? zlen parallel then x ∈ parallel else own_xid stack x.

Lemma is_current_spec parallel stack x :
  stack_ok stack -> ordered_by Z.ltb parallel -> zlen parallel < 2 ^ 32 ->
  exists b, TransactionIdIsCurrentTransactionId parallel stack x = Ret b /\ (b = true <-> my_xid parallel stack x).
Proof.
  intros Hs Ho Hl. unfold TransactionIdIsCurrentTransactionId, my_xid.
  destruct (TransactionIdIsNormal x); cbn [negb]; [|exists false; split; [done|]; intuition congruence].
  destruct (0 <? zlen parallel).
  - destruct (binary_search_spec _ _ x Ho Hl) as (b & -> & Hb). exists b. split; [done|]. tauto.
  - destruct (stack_scan_spec stack x Hs) as (b & -> & Hb). exists b. split; [done|]. tauto.
Qed.

(** ** Other backends *)

Lemma cached_child_spec x p : cached_child x p = true <-> x ∈ subxids p.
Proof.
  unfold cached_child, TransactionIdEquals. rewrite existsb_exists. setoid_rewrite Z.eqb_eq.
  setoid_rewrite <- in_rev. rewrite list_elem_of_In. split; [by intros (y & Hy & <-)|eauto].
Qed.

(** Steps 1 and 2: found, or the ids saved are those of the overflowed
    backends that can have the id as a child. *)
Definition scan_post (ps : list ProcEntry) (x : TransactionId) (saved : list TransactionId)
    (r : list TransactionId + unit) : Prop :=
  match r with
  | inr _ => exists p, p ∈ ps /\ is_my_proc p = false /\ TransactionIdIsValid (pgxact_xid p) = true /\
               (x = pgxact_xid p \/ x ∈ subxids p)
  | inl xids =>
      (forall p, p ∈ ps -> is_my_proc p = false -> TransactionIdIsValid (pgxact_xid p) = true ->
         x <> pgxact_xid p /\ (TransactionIdPrecedes x (pgxact_xid p) = false -> x ∉ subxids p)) /\
      forall t, t ∈ xids <-> t ∈ saved \/ exists p, p ∈ ps /\ is_my_proc p = false /\
        TransactionIdIsValid (pgxact_xid p) = true /\ TransactionIdPrecedes x (pgxact_xid p) = false /\
        overflowed p = true /\ t = pgxact_xid p
  end.

(** An entry that contributes nothing. *)
Lemma scan_post_skip p ps x saved r :
  (is_my_proc p = true \/ TransactionIdIsValid (pgxact_xid p) = false \/
   (TransactionIdPrecedes x (pgxact_xid p) = true /\ x <> pgxact_xid p) \/
   (x <> pgxact_xid p /\ (x ∉ subxids p) /\ overflowed p = false)) ->
  scan_post ps x saved r -> scan_post (p :: ps) x saved r.
Proof.
  intros Hp. destruct r as [xids|].
  - intros [IH1 IH2]. split.
    + intros q [->|Hq]%elem_of_cons; [|by apply IH1]. intuition congruence.
    + intros t. rewrite IH2. split; (intros [?|(q & Hq & Hr)]; [by left|right]).
      * exists q. split; [by right|done].
      * apply elem_of_cons in Hq as [->|Hq]; [intuition congruence|by exists q].
  - intros (q & Hq & Hr). exists q. split; [by right|done].
Qed.

Lemma proc_scan_spec ps x saved : scan_post ps x saved (proc_scan ps x saved).
Proof.
  revert saved. induction ps as [|p ps IH]; intros saved.
  { cbn. split; [by intros p Hp%not_elem_of_nil|]. intros t. split; [by left|].
    intros [?|(p & Hp & _)]; [done|by apply not_elem_of_nil in Hp]. }
  cbn [proc_scan].
  destruct (is_my_proc p) eqn:Em; [by apply scan_post_skip; [left|]|].
  destruct (TransactionIdIsValid (pgxact_xid p)) eqn:Ev; cbn [negb]; [|by apply scan_post_skip; [right; left|]].
  unfold TransactionIdEquals. destruct (Z.eqb_spec (pgxact_xid p) x) as [Ex|Hne].
  { exists p. split_and!; [by left|done|done|by left]. }
  destruct (TransactionIdPrecedes x (pgxact_xid p)) eqn:Ep; [by apply scan_post_skip; [right; right; left|]|].
  destruct (cached_child x p) eqn:Ec.
  { apply cached_child_spec in Ec. exists p. split_and!; [by left|done|done|by right]. }
  assert (x ∉ subxids p) as Hnc by (intros Hx%cached_child_spec; congruence).
  destruct (overflowed p) eqn:Eo; [|by apply scan_post_skip; [right; right; right|]].
  specialize (IH (saved ++ [pgxact_xid p])). destruct (proc_scan ps x (saved ++ [pgxact_xid p])) as [xids|].
  - destruct IH as [IH1 IH2]. split.
    + intros q [->|Hq]%elem_of_cons; [intros _ _; split; [congruence|done]|by apply IH1].
    + intros t. rewrite IH2, elem_of_app, list_elem_of_singleton. split.
      * intros [[?| ->]|(q & Hq & Hr)]; [by left|right; exists p; split_and!; [by left|done..]|].
        right. exists q. split; [by right|done].
      * intros [?|(q & Hq & Hr)]; [by left; left|]. apply elem_of_cons in Hq as [->|Hq]; [|right; by exists q].
        left. right. by destruct Hr as (_ & _ & _ & _ & ->).
  - destruct IH as (q & Hq & Hr). exists q. split; [by right|done].
Qed.
Section InProgressSpec.
Context `{SubtransOk} (arr : ProcArray) (cache : FetchCache) (mine : TransactionId -> Prop).
(** [live_sub p x]: [x] is a subtransaction of [p] that has not failed. *)
Context (live_sub : ProcEntry -> TransactionId -> Prop).
(** [assigned x]: [x] was handed out, and recently enough to be asked about. *)
Context (assigned : TransactionId -> Prop).

(** A backend other than the own one with a transaction id. *)
Definition other_proc (p : ProcEntry) : Prop :=
  p ∈ procs arr /\ is_my_proc p = false /\ TransactionIdIsValid (pgxact_xid p) = true.

Definition running_xid (x : TransactionId) : Prop :=
  mine x \/ exists p, other_proc p /\ (x = pgxact_xid p \/ live_sub p x).

(** How the published state relates to the transactions that run: the shortcuts
    are sound; subtransactions get later ids than their parent; the cache of a
    backend that has not overflowed is complete; and the subtransactions of one
    that has are found through pg_subtrans. *)
Record procarray_ok : Prop := {
  pa_normal : recovery arr = false /\ normal_xid (RecentXmin arr);
  pa_recent : forall x, TransactionIdPrecedes x (RecentXmin arr) = true -> ~ running_xid x;
  pa_xmin : forall x, assigned x -> normal_xid x -> TransactionIdPrecedes x (RecentXmin arr) = false ->
    TransactionIdFollowsOrEquals x TransactionXmin = true;
  pa_completed : TransactionIdIsValid (cachedFetchXid cache) = true -> ~ running_xid (cachedFetchXid cache);
  pa_latest : forall x, assigned x -> normal_xid x -> TransactionIdPrecedes (latestCompletedXid arr) x = true -> running_xid x;
  pa_after : forall p x, other_proc p -> live_sub p x -> TransactionIdPrecedes x (pgxact_xid p) = false;
  pa_cached : forall p x, other_proc p -> x ∈ subxids p -> live_sub p x;
  pa_complete : forall p x, other_proc p -> overflowed p = false -> live_sub p x -> x ∈ subxids p;
  pa_overflow : forall p x, other_proc p -> overflowed p = true -> assigned x -> normal_xid x ->
    (live_sub p x <-> ~ tx_aborted x /\ pgxact_xid p <> x /\ SubTransGetTopmostTransaction x = Ret (pgxact_xid p))
}.


(** Step 4 for an id found nowhere above: running exactly when it is a live
    subtransaction of an overflowed backend. *)
Lemma subtrans_check_spec x xids :
  procarray_ok -> cache_ok cache -> assigned x -> normal_xid x ->
  TransactionIdPrecedes x (RecentXmin arr) = false ->
  scan_post (procs arr) x [] (inl xids) ->
  exists b, subtrans_check cache x xids = Ret b /\
    (b = true <-> exists p, other_proc p /\ (x = pgxact_xid p \/ live_sub p x)).
Proof.
  intros Hok Hcache Has Hx Hrecent [Hno Hxids].
  (* a running holder of the id is an overflowed backend among the saved ones *)
  assert (forall p, other_proc p -> (x = pgxact_xid p \/ live_sub p x) ->
            overflowed p = true /\ pgxact_xid p ∈ xids /\ live_sub p x) as Hholder.
  { intros p Hp Hr. pose proof Hp as (Hin & Hm & Hv). destruct (Hno p Hin Hm Hv) as [Hne Hnc].
    destruct Hr as [?|Hl]; [done|]. pose proof (pa_after Hok p x Hp Hl) as Ha.
    assert (overflowed p = true) as Ho.
    { destruct (overflowed p) eqn:E; [done|]. by destruct (Hnc Ha (pa_complete Hok p x Hp E Hl)). }
    split_and!; [done| |done]. apply Hxids. right. by exists p. }
  unfold subtrans_check. destruct (Z.eqb_spec (zlen xids) 0) as [Hz|Hz].
  { exists false. split; [done|]. split; [done|]. intros (p & Hp & Hr).
    destruct (Hholder p Hp Hr) as (_ & Hin & _). destruct xids; [by apply not_elem_of_nil in Hin|].
    unfold zlen in Hz. cbn in Hz. lia. }
  destruct (walk_up_spec did_abort_step tx_aborted cache x did_abort_step_spec Hcache (normal_valid x Hx))
    as (ab & c' & Eab & _ & Hab).
  unfold TransactionIdDidAbort. rewrite Eab. cbn [cbind].
  destruct ab.
  { exists false. split; [done|]. split; [done|]. intros (p & Hp & Hr).
    destruct (Hholder p Hp Hr) as (Ho & _ & Hl). apply (pa_overflow Hok p x Hp Ho Has Hx) in Hl as (Hna & _).
    destruct Hna. by apply Hab. }
  assert (~ tx_aborted x) as Hna by (intros Ha; by apply Hab in Ha).
  destruct (topmost_total x Hx (pa_xmin Hok x Has Hx Hrecent)) as (t & Et & Hnt). rewrite Et. cbn [cbind].
  rewrite valid_is_valid by by apply normal_valid. cbn [c_assert cbind].
  unfold TransactionIdEquals. destruct (Z.eqb_spec t x) as [->|Htx]; cbn [negb].
  - exists false. split; [done|]. split; [done|]. intros (p & Hp & Hr).
    destruct (Hholder p Hp Hr) as (Ho & _ & Hl). apply (pa_overflow Hok p x Hp Ho Has Hx) in Hl as (_ & Hne & E).
    congruence.
  - eexists. split; [done|]. rewrite existsb_exists. setoid_rewrite Z.eqb_eq. split.
    + intros (y & Hy%list_elem_of_In & ->). apply Hxids in Hy as [Hy|(p & Hin & Hm & Hv & _ & Ho & Ep)];
        [by apply not_elem_of_nil in Hy|]. exists p. split; [by split_and!|]. right.
      apply (pa_overflow Hok p x); [by split_and!|done|done|done|]. subst t. by split_and!.
    + intros (p & Hp & Hr). destruct (Hholder p Hp Hr) as (Ho & Hin & Hl).
      apply (pa_overflow Hok p x Hp Ho Has Hx) in Hl as (_ & _ & E). rewrite Et in E. injection E as ->.
      exists (pgxact_xid p). split; [by apply list_elem_of_In|done].
Qed.

Lemma in_progress_answer (current : TransactionId -> cres bool) x :
  procarray_ok -> cache_ok cache -> assigned x -> 0 <= x < 2 ^ 32 ->
  (forall y, exists b, current y = Ret b /\ (b = true <-> mine y)) ->
  exists b, TransactionIdIsInProgress arr cache current x = Ret b /\ (b = true <-> running_xid x).
Proof.
  intros Hok Hcache Has Hx Hcur. unfold TransactionIdIsInProgress, TransactionIdIsKnownCompleted.
  destruct (pa_normal Hok) as [Hrec Hrx].
  destruct (TransactionIdPrecedes x (RecentXmin arr)) eqn:Er.
  { exists false. split; [done|]. pose proof (pa_recent Hok x Er). intuition congruence. }
  assert (normal_xid x) as Hn.
  { unfold TransactionIdPrecedes, TransactionIdIsNormal, FirstNormalTransactionId, normal_xid in *.
    destruct (Z.leb_spec 3 x); [lia|]. cbn in Er. lia. }
  unfold TransactionIdEquals. destruct (Z.eqb_spec x (cachedFetchXid cache)) as [Ec|_].
  { exists false. split; [done|]. rewrite Ec in Hn |- *.
    pose proof (pa_completed Hok (valid_is_valid _ (normal_valid _ Hn))). intuition congruence. }
  destruct (Hcur x) as (m & -> & Hm). cbn [cbind].
  destruct m; [exists true; split; [done|]; split; [by left; apply Hm|done]|].
  destruct (TransactionIdPrecedes (latestCompletedXid arr) x) eqn:El.
  { exists true. split; [done|]. split; [by intros _; apply (pa_latest Hok)|done]. }
  pose proof (proc_scan_spec (procs arr) x []) as Hscan.
  destruct (proc_scan (procs arr) x []) as [xids|].
  - rewrite Hrec. destruct (subtrans_check_spec x xids Hok Hcache Has Hn Er Hscan) as (b & Eb & Hb).
    exists b. split; [done|]. rewrite Hb. unfold running_xid. intuition congruence.
  - exists true. split; [done|]. split; [intros _|done]. destruct Hscan as (p & Hin & Hmy & Hv & Hr).
    right. exists p. assert (other_proc p) as Hp by by split_and!. split; [done|].
    destruct Hr as [->|Hs]; [by left|right; by apply (pa_cached Hok)].
Qed.

(** C32. [TransactionIdIsInProgress] always answers, true exactly for the ids
    of running transactions: the backend's own, those other backends publish,
    their cached subtransactions, and the subtransactions that did not fit into
    an overflowed cache and are found through pg_subtrans. *)
Theorem xid_in_progress_spec (current : TransactionId -> cres bool) x :
  procarray_ok -> cache_ok cache -> assigned x -> 0 <= x < 2 ^ 32 ->
  (forall y, exists b, current y = Ret b /\ (b = true <-> mine y)) ->
  exists b, TransactionIdIsInProgress arr cache current x = Ret b /\ (b = true <-> running_xid x).
Proof. apply in_progress_answer. Qed.
End InProgressSpec.

(** ** The interface of the visibility routines, implemented

    One backend's view: the answers of the routines above, with the members of
    MultiXacts and the buffer's WAL position still left open. *)
Definition answer_of (c : cres bool) : bool := match c with Ret b => b | _ => false end.

Definition shared_view (log : CommitLog) (arr : ProcArray) (cache : FetchCache)
    (current : TransactionId -> cres bool)
    (members : MultiXactId -> bool -> bool -> cres (list MultiXactMember))
    (permanent : Z -> bool) (needs_flush : XLogRecPtr -> bool) (page_lsn : Z -> XLogRecPtr) : SharedXacts := {|
  xact_in_progress x := answer_of (TransactionIdIsInProgress arr cache current x);
  xact_did_commit x := match TransactionIdDidCommit cache x with Ret (b, _) => b | _ => false end;
  xact_topmost := SubTransGetTopmostTransaction;
  multi_members := members;
  commit_lsn := TransactionIdGetCommitLSN cache;
  BufferIsPermanent := permanent; XLogNeedsFlush := needs_flush; BufferGetLSNAtomic := page_lsn |}.

Definition backend_view (parallel : list TransactionId) (stack : list TransactionStateData)
    (combos : ComboState) (crit : Z) : Backend :=
  {| xact_current x := answer_of (TransactionIdIsCurrentTransactionId parallel stack x);
     combo_state := combos; CritSectionCount := crit |}.

(** The law the visibility theorems ask of a backend holds of the real
    routines: every id of the own transaction is in progress. *)
Lemma view_laws `{SubtransOk} arr cache parallel stack live_sub assigned members permanent needs_flush page_lsn combos crit :
  procarray_ok arr cache (my_xid parallel stack) live_sub assigned -> cache_ok cache ->
  stack_ok stack -> ordered_by Z.ltb parallel -> zlen parallel < 2 ^ 32 ->
  (forall x, my_xid parallel stack x -> assigned x /\ 0 <= x < 2 ^ 32) ->
  @BackendLaws
    (shared_view _ arr cache (TransactionIdIsCurrentTransactionId parallel stack) members permanent needs_flush page_lsn)
    (backend_view parallel stack combos crit).
Proof.
  intros Hok Hcache Hs Ho Hl Hmine x. cbn. intros Hx.
  assert (my_xid parallel stack x) as Hm.
  { destruct (is_current_spec parallel stack x Hs Ho Hl) as (b & E & Hb). rewrite E in Hx. by apply Hb. }
  destruct (Hmine x Hm) as [Has Hr].
  destruct (in_progress_answer arr cache (my_xid parallel stack) live_sub assigned
              (TransactionIdIsCurrentTransactionId parallel stack) x Hok Hcache Has Hr) as (b & -> & Hb).
  - intros y. by apply is_current_spec.
  - apply Hb. by left.
Qed.

(** Backend 0 is the own one (transaction 16); backend 1 runs 13, whose
    subtransaction 14 did not fit into its cache; backend 2 is idle. *)
Definition sample_procs : ProcArray := {|
  procs := [ {| is_my_proc := true; pgxact_xid := 16; subxids := []; overflowed := false |};
             {| is_my_proc := false; pgxact_xid := 13; subxids := []; overflowed := true |};
             {| is_my_proc := false; pgxact_xid := 0; subxids := []; overflowed := false |} ];
  latestCompletedXid := 15; lastOverflowedXid := 0; RecentXmin := 13; recovery := false;
  KnownAssignedXidExists _ := false; KnownAssignedXidsGet _ := [] |}.

Definition sample_stack : list TransactionStateData :=
  [ {| transactionId := 16; state_is_abort := false; childXids := [] |} ].

Definition sample_sub (p : ProcEntry) (x : TransactionId) : Prop := pgxact_xid p = 13 /\ x = 14.
Definition sample_assigned (x : TransactionId) : Prop := 10 <= x <= 16.

Lemma sample_other p : other_proc sample_procs p ->
  p = {| is_my_proc := false; pgxact_xid := 13; subxids := []; overflowed := true |}.
Proof.
  intros (Hin & Hm & Hv). unfold sample_procs in Hin. cbn [procs] in Hin.
  repeat (apply elem_of_cons in Hin as [->|Hin]; [done|]). by apply not_elem_of_nil in Hin.
Qed.

Lemma sample_running x : running_xid sample_procs (fun y => y = 16) sample_sub x <-> x = 13 \/ x = 14 \/ x = 16.
Proof.
  unfold running_xid. split.
  - intros [->|(p & ->%sample_other & [->|[_ ->]])]; cbn; lia.
  - assert (other_proc sample_procs {| is_my_proc := false; pgxact_xid := 13; subxids := []; overflowed := true |})
      as Hp by (split; [right; left|done]).
    intros [->|[->| ->]]; [right|right|by left]; eexists; (split; [exact Hp|]); [by left|right; by split].
Qed.

Lemma sample_procarray_ok :
  @procarray_ok sample_log sample_procs initial_cache (fun y => y = 16) sample_sub sample_assigned.
Proof.
  constructor.
  - split; [done|]. unfold normal_xid. cbn. lia.
  - intros x Hx [->|[->| ->]]%sample_running; by vm_compute in Hx.
  - intros x Hx _ Hp. unfold sample_assigned in Hx.
    assert (x = 10 \/ x = 11 \/ x = 12 \/ x = 13 \/ x = 14 \/ x = 15 \/ x = 16) as Hc by lia.
    by destruct Hc as [->|[->|[->|[->|[->|[->| ->]]]]]].
  - done.
  - intros x Hx _ Hp. unfold sample_assigned in Hx. apply sample_running.
    assert (x = 10 \/ x = 11 \/ x = 12 \/ x = 13 \/ x = 14 \/ x = 15 \/ x = 16) as Hc by lia.
    destruct Hc as [->|[->|[->|[->|[->|[->| ->]]]]]]; vm_compute in Hp; try done; lia.
  - by intros p x _ [-> ->].
  - intros p x ->%sample_other Hx. by apply not_elem_of_nil in Hx.
  - by intros p x ->%sample_other.
  - intros p x ->%sample_other _ Hx _. unfold sample_assigned, sample_sub in *. cbn [pgxact_xid].
    assert (x = 10 \/ x = 11 \/ x = 12 \/ x = 13 \/ x = 14 \/ x = 15 \/ x = 16) as Hc by lia.
    destruct Hc as [->|[->|[->|[->|[->|[->| ->]]]]]]; (split; [|intros (_ & ? & E); try done; vm_compute in E; done]);
      intros [_ ?]; try done.
    split_and!; [|done|done].
    intros [E|[_ [Hno|(p & Hp & Ha)]]]%(@tx_aborted_inv sample_log); [done| |].
    + apply (Hno 13). by constructor.
    + assert (p = 13) as -> by (apply (@parent_unique sample_log 14); [done|by constructor]).
      by apply (@tx_aborted_inv sample_log) in Ha as [?|[? _]].
Qed.

Lemma xid_in_progress_spec_witness :
  let current := TransactionIdIsCurrentTransactionId [] sample_stack in
  @TransactionIdIsInProgress sample_log sample_procs initial_cache current 12 = Ret false /\
  exists b, @TransactionIdIsInProgress sample_log sample_procs initial_cache current 14 = Ret b /\
    (b = true <-> running_xid sample_procs (fun y => y = 16) sample_sub 14).
Proof.
  intros current. split; [vm_compute; reflexivity|].
  apply (@xid_in_progress_spec sample_log sample_log_ok sample_procs initial_cache (fun y => y = 16)
           sample_sub sample_assigned current 14 sample_procarray_ok).
  - apply (@initial_cache_ok sample_log).
  - split; lia.
  - lia.
  - intros y. subst current.
    destruct (is_current_spec [] sample_stack y) as (b & -> & Hb).
    + constructor; [|constructor]. split; [|done]. intros i j a b' _ Hi. unfold zget in Hi. by destruct (i <? 0).
    + intros i j a b' _ Hi. unfold zget in Hi. by destruct (i <? 0).
    + done.
    + exists b. split; [done|]. rewrite Hb. unfold my_xid. cbn. split.
      * intros [_ (s & Hs & _ & _ & Hx)]. apply list_elem_of_singleton in Hs as ->.
        destruct Hx as [->|Hx]; [done|by apply not_elem_of_nil in Hx].
      * intros ->. split; [done|]. eexists. split; [by left|]. split_and!; [done|done|by left].
Defined.
