(* ===== verification/BufPage.v ===== *)
(** The slotted page of heap and index files ([storage/page/bufpage.c]): a
    header, an array of line pointers growing up from it, and item data growing
    down from the special space.

    A [Page] has the header fields, the line pointers between the header and
    [pd_lower], and the bytes of the block indexed by their offset.  Line
    pointers and header live in that block too; the model keeps them apart, and
    makes an access to block bytes below the line pointers' end, or beyond the
    block, [Undef].  So a theorem that a routine returns also says that it
    never overwrites header or line pointers with item data. *)
From stdpp Require Import sorting.
From S2P Require Import Prelude.

Abbreviation OffsetNumber := Z (only parsing).

Definition MAXALIGN (len : Z) : Z := Z.land (len + 7) (Z.lnot 7).

Record ItemIdData := { lp_off : Z; lp_flags : Z; lp_len : Z }.
Definition LP_UNUSED : Z := 0.
Definition LP_NORMAL : Z := 1.
Definition LP_REDIRECT : Z := 2.
Definition LP_DEAD : Z := 3.

Definition ItemIdIsUsed (lp : ItemIdData) : bool := negb (lp_flags lp =? LP_UNUSED).
Definition ItemIdHasStorage (lp : ItemIdData) : bool := negb (lp_len lp =? 0).
Definition ItemIdGetLength (lp : ItemIdData) : Z := lp_len lp.
Definition ItemIdGetOffset (lp : ItemIdData) : Z := lp_off lp.

(** The bit fields [lp_off] and [lp_len] are 15 bits wide. *)
Definition u15 (z : Z) : Z := z mod 2 ^ 15.
Definition ItemIdSetUnused : ItemIdData := {| lp_off := 0; lp_flags := LP_UNUSED; lp_len := 0 |}.
Definition ItemIdSetNormal (off len : Z) : ItemIdData :=
  {| lp_off := u15 off; lp_flags := LP_NORMAL; lp_len := u15 len |}.
Definition set_lp_off (lp : ItemIdData) (off : Z) : ItemIdData :=
  {| lp_off := u15 off; lp_flags := lp_flags lp; lp_len := lp_len lp |}.

Record Page := {
  pd_flags : Z;
  pd_lower : Z;
  pd_upper : Z;
  pd_special : Z;
  pd_pagesize_version : Z;
  pd_linp : list ItemIdData;
  pd_block : list Z
}.

Definition PD_HAS_FREE_LINES : Z := 1.
Definition SizeOfPageHeaderData : Z := 24.
Definition sizeof_ItemIdData : Z := 4.
Definition PG_PAGE_LAYOUT_VERSION : Z := 4.
Definition InvalidOffsetNumber : OffsetNumber := 0.
Definition FirstOffsetNumber : OffsetNumber := 1.
Definition MaxOffsetNumber : OffsetNumber := BLCKSZ / sizeof_ItemIdData.
Definition OffsetNumberIsValid (o : OffsetNumber) : bool :=
  negb (o =? InvalidOffsetNumber) && (o <=? MaxOffsetNumber).
Definition OffsetNumberNext (o : OffsetNumber) : OffsetNumber := u16 (1 + o).
Definition SizeofHeapTupleHeader : Z := 23.
Definition MaxHeapTuplesPerPage : Z :=
  (BLCKSZ - SizeOfPageHeaderData) / (MAXALIGN SizeofHeapTupleHeader + sizeof_ItemIdData).
Definition sizeof_IndexTupleData : Z := 8.
Definition MaxIndexTuplesPerPage : Z :=
  (BLCKSZ - SizeOfPageHeaderData) / (MAXALIGN (sizeof_IndexTupleData + 1) + sizeof_ItemIdData).
Definition PAI_OVERWRITE : Z := 1.
Definition PAI_IS_HEAP : Z := 2.

Definition PageGetMaxOffsetNumber (p : Page) : OffsetNumber :=
  if pd_lower p <=? SizeOfPageHeaderData then 0
  else (pd_lower p - SizeOfPageHeaderData) / sizeof_ItemIdData.
Definition PageIsEmpty (p : Page) : bool := pd_lower p <=? SizeOfPageHeaderData.
Definition PageHasFreeLinePointers (p : Page) : bool := negb (Z.land (pd_flags p) PD_HAS_FREE_LINES =? 0).
Definition PageGetItemId (p : Page) (o : OffsetNumber) : cres ItemIdData := deref (zget (pd_linp p) (o - 1)).
Definition PageGetPageSize (p : Page) : Z := Z.land (pd_pagesize_version p) 0xFF00.

Definition set_flags (p : Page) (f : Z) : Page :=
  {| pd_flags := f; pd_lower := pd_lower p; pd_upper := pd_upper p; pd_special := pd_special p;
     pd_pagesize_version := pd_pagesize_version p; pd_linp := pd_linp p; pd_block := pd_block p |}.
Definition set_bounds (p : Page) (lower upper : Z) : Page :=
  {| pd_flags := pd_flags p; pd_lower := u16 lower; pd_upper := u16 upper; pd_special := pd_special p;
     pd_pagesize_version := pd_pagesize_version p; pd_linp := pd_linp p; pd_block := pd_block p |}.
Definition set_linp (p : Page) (l : list ItemIdData) : Page :=
  {| pd_flags := pd_flags p; pd_lower := pd_lower p; pd_upper := pd_upper p; pd_special := pd_special p;
     pd_pagesize_version := pd_pagesize_version p; pd_linp := l; pd_block := pd_block p |}.
Definition set_block (p : Page) (b : list Z) : Page :=
  {| pd_flags := pd_flags p; pd_lower := pd_lower p; pd_upper := pd_upper p; pd_special := pd_special p;
     pd_pagesize_version := pd_pagesize_version p; pd_linp := pd_linp p; pd_block := b |}.

Definition PageSetHasFreeLinePointers (p : Page) : Page := set_flags p (Z.lor (pd_flags p) PD_HAS_FREE_LINES).
Definition PageClearHasFreeLinePointers (p : Page) : Page :=
  set_flags p (Z.land (pd_flags p) (Z.lnot PD_HAS_FREE_LINES)).

(** ** Block bytes

    [lo] is the end of the line pointers at the time of the access. *)
Definition get_bytes (block : list Z) (off len : Z) : list Z :=
  take (Z.to_nat len) (drop (Z.to_nat off) block).
Definition put_bytes (block : list Z) (off : Z) (bytes : list Z) : list Z :=
  take (Z.to_nat off) block ++ bytes ++ drop (Z.to_nat off + length bytes) block.
Definition in_block (lo off len : Z) : bool := (lo <=? off) && (0 <=? len) && (off + len <=? BLCKSZ).

(** [memcpy(page + off, item, size)]. *)
Definition memcpy_in (lo : Z) (block : list Z) (off : Z) (item : list Z) (size : Z) : cres (list Z) :=
  c_assert (in_block lo off size && (size <=? zlen item)) ;;
  Ret (put_bytes block off (take (Z.to_nat size) item)).

(** [memmove(page + dst, page + src, len)]. *)
Definition memmove (lo : Z) (block : list Z) (dst src len : Z) : cres (list Z) :=
  c_assert (in_block lo dst len && in_block lo src len) ;;
  Ret (put_bytes block dst (get_bytes block src len)).

(** ** PageInit *)

Definition PageInit (pageSize specialSize : Z) : cres Page :=
  let specialSize := MAXALIGN specialSize in
  c_assert (pageSize =? BLCKSZ) ;;
  c_assert (specialSize + SizeOfPageHeaderData <? pageSize) ;;
  c_assert (Z.land pageSize 0xFF00 =? pageSize) ;;
  Ret {| pd_flags := 0; pd_lower := SizeOfPageHeaderData;
         pd_upper := u16 (pageSize - specialSize); pd_special := u16 (pageSize - specialSize);
         pd_pagesize_version := Z.lor pageSize PG_PAGE_LAYOUT_VERSION;
         pd_linp := []; pd_block := replicate (Z.to_nat pageSize) 0 |}.

(** ** PageAddItemExtended *)

Definition corrupted_pointers (p : Page) : bool :=
  (pd_lower p <? SizeOfPageHeaderData) || (pd_upper p <? pd_lower p) ||
  (pd_special p <? pd_upper p) || (BLCKSZ <? pd_special p).

(** The first unused line pointer without storage, or [limit]. *)
Fixpoint find_free (linp : list ItemIdData) (offsetNumber : OffsetNumber) : OffsetNumber :=
  match linp with
  | [] => offsetNumber
  | lp :: linp =>
      if negb (ItemIdIsUsed lp) && negb (ItemIdHasStorage lp) then offsetNumber
      else find_free linp (offsetNumber + 1)
  end.

(** Where to put the item: the offset number, whether pointers have to be
    moved, and the page with its hint corrected; [None] for a refusal. *)
Definition select_offset (p : Page) (offsetNumber : OffsetNumber) (flags limit : Z)
    : cres (option (OffsetNumber * bool * Page)) :=
  if OffsetNumberIsValid offsetNumber then
    if negb (Z.land flags PAI_OVERWRITE =? 0) then
      if offsetNumber <? limit then
        let* itemId := PageGetItemId p offsetNumber in
        if ItemIdIsUsed itemId || ItemIdHasStorage itemId then Ret None
        else Ret (Some (offsetNumber, false, p))
      else Ret (Some (offsetNumber, false, p))
    else Ret (Some (offsetNumber, offsetNumber <? limit, p))
  else if PageHasFreeLinePointers p then
    let offsetNumber := find_free (take (Z.to_nat (limit - 1)) (pd_linp p)) 1 in
    if limit <=? offsetNumber then Ret (Some (offsetNumber, false, PageClearHasFreeLinePointers p))
    else Ret (Some (offsetNumber, false, p))
  else Ret (Some (limit, false, p)).

Definition PageAddItemExtended (p : Page) (item : list Z) (size : Z) (offsetNumber : OffsetNumber) (flags : Z)
    : cres (OffsetNumber * Page) :=
  if corrupted_pointers p then Elog "corrupted page pointers"
  else
    let limit := OffsetNumberNext (PageGetMaxOffsetNumber p) in
    let* sel := select_offset p offsetNumber flags limit in
    match sel with
    | None => Ret (InvalidOffsetNumber, p)
    | Some (offsetNumber, needshuffle, p) =>
        if limit <? offsetNumber then Ret (InvalidOffsetNumber, p)
        else if negb (Z.land flags PAI_IS_HEAP =? 0) && (MaxHeapTuplesPerPage <? offsetNumber)
        then Ret (InvalidOffsetNumber, p)
        else
          let lower := if (offsetNumber =? limit) || needshuffle
                       then pd_lower p + sizeof_ItemIdData else pd_lower p in
          let alignedSize := MAXALIGN size in
          let upper := pd_upper p - s32 alignedSize in
          if upper <? lower then Ret (InvalidOffsetNumber, p)
          else
            let itemId := ItemIdSetNormal upper size in
            let* linp :=
              (if needshuffle || (offsetNumber =? limit)
               then Ret (take (Z.to_nat (offsetNumber - 1)) (pd_linp p) ++ itemId ::
                         drop (Z.to_nat (offsetNumber - 1)) (pd_linp p))
               else deref (zset (pd_linp p) (offsetNumber - 1) itemId)) in
            let* block := memcpy_in lower (pd_block p) upper item size in
            Ret (offsetNumber, set_bounds (set_block (set_linp p linp) block) lower upper)
    end.

(** ** Free space *)

Definition PageGetFreeSpace (p : Page) : Z :=
  let space := pd_upper p - pd_lower p in
  if space <? sizeof_ItemIdData then 0 else space - sizeof_ItemIdData.

Definition PageGetFreeSpaceForMultipleTuples (p : Page) (ntups : Z) : Z :=
  let space := pd_upper p - pd_lower p in
  if space <? ntups * sizeof_ItemIdData then 0 else space - ntups * sizeof_ItemIdData.

Definition PageGetExactFreeSpace (p : Page) : Z :=
  let space := pd_upper p - pd_lower p in if space <? 0 then 0 else space.

Definition PageGetHeapFreeSpace (p : Page) : Z :=
  let space := PageGetFreeSpace p in
  if 0 <? space then
    let nline := PageGetMaxOffsetNumber p in
    if MaxHeapTuplesPerPage <=? nline then
      if PageHasFreeLinePointers p then
        if existsb (fun lp => negb (ItemIdIsUsed lp)) (take (Z.to_nat nline) (pd_linp p)) then space else 0
      else 0
    else space
  else space.

(** ** Compaction *)

Record itemIdSortData := { offsetindex : Z; itemoff : Z; alignedlen : Z }.

Definition itemoffcompare (a b : itemIdSortData) : Z := itemoff b - itemoff a.

(** The loop of [compactify_tuples] over the sorted items. *)
Fixpoint compactify_loop (lo : Z) (items : list itemIdSortData) (upper : Z)
    (linp : list ItemIdData) (block : list Z) : cres (Z * list ItemIdData * list Z) :=
  match items with
  | [] => Ret (upper, linp, block)
  | it :: items =>
      let* lp := deref (zget linp (offsetindex it)) in
      let upper := upper - alignedlen it in
      let* block := memmove lo block upper (itemoff it) (alignedlen it) in
      let* linp := deref (zset linp (offsetindex it) (set_lp_off lp upper)) in
      compactify_loop lo items upper linp block
  end.

(** What [qsort] promises, for the one order it is used with here. *)
Class ItemSort := qsort : list itemIdSortData -> list itemIdSortData.
Class ItemSortLaws `{ItemSort} : Prop := {
  qsort_perm : forall l, qsort l ≡ₚ l;
  qsort_sorted : forall l, StronglySorted (fun a b => itemoffcompare a b <= 0) (qsort l)
}.

Section Compaction.
Context `{ItemSort}.

Definition compactify_tuples (items : list itemIdSortData) (p : Page) : cres Page :=
  let* (r, block) := compactify_loop (pd_lower p) (qsort items) (pd_special p) (pd_linp p) (pd_block p) in
  Ret (set_bounds (set_block (set_linp p r.2) block) (pd_lower p) r.1).

(** The scan of [PageRepairFragmentation]: line pointers with unused ones
    cleaned, the items with storage, their total length, the number unused. *)
Record scan_state := {
  sc_linp : list ItemIdData;
  sc_items : list itemIdSortData;
  sc_total : Z;
  sc_unused : Z
}.

Fixpoint repair_scan (pd_upper pd_special : Z) (linp : list ItemIdData) (i : Z) (s : scan_state) : cres scan_state :=
  match linp with
  | [] => Ret s
  | lp :: linp =>
      if ItemIdIsUsed lp then
        if ItemIdHasStorage lp then
          let off := s16 (ItemIdGetOffset lp) in
          c_assert (zlen (sc_items s) <? MaxHeapTuplesPerPage) ;;
          if (off <? pd_upper) || (pd_special <=? off) then Elog "corrupted item pointer"
          else
            let alen := u16 (MAXALIGN (ItemIdGetLength lp)) in
            repair_scan pd_upper pd_special linp (i + 1)
              {| sc_linp := sc_linp s ++ [lp];
                 sc_items := sc_items s ++ [{| offsetindex := i; itemoff := off; alignedlen := alen |}];
                 sc_total := sc_total s + alen; sc_unused := sc_unused s |}
        else
          repair_scan pd_upper pd_special linp (i + 1)
            {| sc_linp := sc_linp s ++ [lp]; sc_items := sc_items s; sc_total := sc_total s;
               sc_unused := sc_unused s |}
      else
        repair_scan pd_upper pd_special linp (i + 1)
          {| sc_linp := sc_linp s ++ [ItemIdSetUnused]; sc_items := sc_items s; sc_total := sc_total s;
             sc_unused := sc_unused s + 1 |}
  end.

Definition PageRepairFragmentation (p : Page) : cres Page :=
  if corrupted_pointers p || negb (pd_special p =? MAXALIGN (pd_special p)) then Elog "corrupted page pointers"
  else
    let nline := PageGetMaxOffsetNumber p in
    c_assert (nline <=? zlen (pd_linp p)) ;;
    let* s := repair_scan (pd_upper p) (pd_special p) (take (Z.to_nat nline) (pd_linp p)) 0
                {| sc_linp := []; sc_items := []; sc_total := 0; sc_unused := 0 |} in
    let p1 := set_linp p (sc_linp s ++ drop (Z.to_nat nline) (pd_linp p)) in
    let* p2 :=
      (if zlen (sc_items s) =? 0 then Ret (set_bounds p1 (pd_lower p) (pd_special p))
       else if pd_special p - pd_lower p <? sc_total s then Elog "corrupted item lengths"
       else compactify_tuples (sc_items s) p1) in
    Ret (if 0 <? sc_unused s then PageSetHasFreeLinePointers p2 else PageClearHasFreeLinePointers p2).

(** ** Index pages *)

Definition corrupted_item (p : Page) (offset size : Z) : bool :=
  (offset <? pd_upper p) || (pd_special p <? offset + size) || negb (offset =? MAXALIGN offset).

(** [if (offset > pd_upper) memmove(addr + size, addr, offset - pd_upper)]. *)
Definition close_gap (p : Page) (lo offset size : Z) : cres (list Z) :=
  if pd_upper p <? offset
  then memmove lo (pd_block p) (pd_upper p + size) (pd_upper p) (offset - pd_upper p)
  else Ret (pd_block p).

(** Every remaining item has storage; those up to [offset] have moved. *)
Fixpoint adjust_all (linp : list ItemIdData) (offset size : Z) : cres (list ItemIdData) :=
  match linp with
  | [] => Ret []
  | ii :: linp =>
      c_assert (ItemIdHasStorage ii) ;;
      let* rest := adjust_all linp offset size in
      Ret ((if ItemIdGetOffset ii <=? offset then set_lp_off ii (lp_off ii + size) else ii) :: rest)
  end.

Definition PageIndexTupleDelete (p : Page) (offnum : OffsetNumber) : cres Page :=
  if corrupted_pointers p || negb (pd_special p =? MAXALIGN (pd_special p)) then Elog "corrupted page pointers"
  else
    let nline := PageGetMaxOffsetNumber p in
    if (offnum <=? 0) || (nline <? offnum) then Elog "invalid index offnum"
    else
      let offidx := offnum - 1 in
      let* tup := PageGetItemId p offnum in
      c_assert (ItemIdHasStorage tup) ;;
      let size := ItemIdGetLength tup in
      let offset := ItemIdGetOffset tup in
      if corrupted_item p offset size then Elog "corrupted item pointer"
      else
        let size := MAXALIGN size in
        let linp := take (Z.to_nat offidx) (pd_linp p) ++ drop (Z.to_nat offnum) (pd_linp p) in
        let* block := close_gap p (pd_lower p - sizeof_ItemIdData) offset size in
        let p := set_bounds (set_block (set_linp p linp) block)
                   (pd_lower p - sizeof_ItemIdData) (pd_upper p + size) in
        if negb (PageIsEmpty p) then
          let* linp := adjust_all (pd_linp p) offset size in Ret (set_linp p linp)
        else Ret p.

(** The scan of [PageIndexMultiDelete]: the items kept, their new line
    pointers, the total length, and how many of [itemnos] were met. *)
Record multi_state := {
  md_items : list itemIdSortData;
  md_newitemids : list ItemIdData;
  md_total : Z;
  md_nextitm : Z
}.

Fixpoint multi_scan (p : Page) (itemnos : list OffsetNumber) (linp : list ItemIdData) (offnum : OffsetNumber)
    (s : multi_state) : cres multi_state :=
  match linp with
  | [] => Ret s
  | lp :: linp =>
      c_assert (ItemIdHasStorage lp) ;;
      let size := ItemIdGetLength lp in
      let offset := ItemIdGetOffset lp in
      if corrupted_item p offset size then Elog "corrupted item pointer"
      else if bool_decide (zget itemnos (md_nextitm s) = Some offnum) then
        multi_scan p itemnos linp (OffsetNumberNext offnum)
          {| md_items := md_items s; md_newitemids := md_newitemids s; md_total := md_total s;
             md_nextitm := md_nextitm s + 1 |}
      else
        c_assert (zlen (md_items s) <? MaxIndexTuplesPerPage) ;;
        let alen := u16 (MAXALIGN size) in
        multi_scan p itemnos linp (OffsetNumberNext offnum)
          {| md_items := md_items s ++
               [{| offsetindex := zlen (md_newitemids s); itemoff := s16 offset; alignedlen := alen |}];
             md_newitemids := md_newitemids s ++ [lp];
             md_total := md_total s + alen; md_nextitm := md_nextitm s |}
  end.

(** [while (--nitems >= 0) PageIndexTupleDelete(page, itemnos[nitems]);] *)
Fixpoint delete_each (p : Page) (ritemnos : list OffsetNumber) : cres Page :=
  match ritemnos with
  | [] => Ret p
  | o :: ritemnos => let* p := PageIndexTupleDelete p o in delete_each p ritemnos
  end.

Definition PageIndexMultiDelete (p : Page) (itemnos : list OffsetNumber) : cres Page :=
  let nitems := zlen itemnos in
  c_assert (nitems <=? MaxIndexTuplesPerPage) ;;
  if nitems <=? 2 then delete_each p (rev itemnos)
  else if corrupted_pointers p || negb (pd_special p =? MAXALIGN (pd_special p)) then Elog "corrupted page pointers"
  else
    let nline := PageGetMaxOffsetNumber p in
    c_assert (nline <=? zlen (pd_linp p)) ;;
    let* s := multi_scan p itemnos (take (Z.to_nat nline) (pd_linp p)) FirstOffsetNumber
                {| md_items := []; md_newitemids := []; md_total := 0; md_nextitm := 0 |} in
    if negb (md_nextitm s =? nitems) then Elog "incorrect index offsets supplied"
    else if pd_special p - pd_lower p <? md_total s then Elog "corrupted item lengths"
    else
      compactify_tuples (md_items s)
        (set_bounds (set_linp p (md_newitemids s))
           (SizeOfPageHeaderData + zlen (md_newitemids s) * sizeof_ItemIdData) (pd_upper p)).

(** Items without storage are allowed and left alone. *)
Definition adjust_stored (linp : list ItemIdData) (offset size : Z) : list ItemIdData :=
  (fun ii => if ItemIdHasStorage ii && (ItemIdGetOffset ii <=? offset)
             then set_lp_off ii (lp_off ii + size) else ii) <$> linp.

Definition PageIndexTupleDeleteNoCompact (p : Page) (offnum : OffsetNumber) : cres Page :=
  if corrupted_pointers p || negb (pd_special p =? MAXALIGN (pd_special p)) then Elog "corrupted page pointers"
  else
    let nline := PageGetMaxOffsetNumber p in
    if (offnum <=? 0) || (nline <? offnum) then Elog "invalid index offnum"
    else
      let* tup := PageGetItemId p offnum in
      c_assert (ItemIdHasStorage tup) ;;
      let size := ItemIdGetLength tup in
      let offset := ItemIdGetOffset tup in
      if corrupted_item p offset size then Elog "corrupted item pointer"
      else
        let size := MAXALIGN size in
        let* (linp, lower) :=
          (if offnum <? nline
           then let* l := deref (zset (pd_linp p) (offnum - 1) ItemIdSetUnused) in Ret (l, pd_lower p)
           else Ret (take (Z.to_nat (offnum - 1)) (pd_linp p), pd_lower p - sizeof_ItemIdData)) in
        let* block := close_gap p lower offset size in
        let p := set_bounds (set_block (set_linp p linp) block) lower (pd_upper p + size) in
        if negb (PageIsEmpty p) then Ret (set_linp p (adjust_stored (pd_linp p) offset size)) else Ret p.

Definition PageIndexTupleOverwrite (p : Page) (offnum : OffsetNumber) (newtup : list Z) (newsize : Z)
    : cres (bool * Page) :=
  if corrupted_pointers p || negb (pd_special p =? MAXALIGN (pd_special p)) then Elog "corrupted page pointers"
  else
    let itemcount := PageGetMaxOffsetNumber p in
    if (offnum <=? 0) || (itemcount <? offnum) then Elog "invalid index offnum"
    else
      let* tupid := PageGetItemId p offnum in
      c_assert (ItemIdHasStorage tupid) ;;
      let oldsize := ItemIdGetLength tupid in
      let offset := ItemIdGetOffset tupid in
      if corrupted_item p offset oldsize then Elog "corrupted item pointer"
      else
        let oldsize := MAXALIGN oldsize in
        let alignednewsize := MAXALIGN newsize in
        if oldsize + (pd_upper p - pd_lower p) <? alignednewsize then Ret (false, p)
        else
          let size_diff := oldsize - alignednewsize in
          let* p :=
            (if negb (size_diff =? 0) then
               let* block := memmove (pd_lower p) (pd_block p) (pd_upper p + size_diff) (pd_upper p)
                               (offset - pd_upper p) in
               Ret (set_linp (set_bounds (set_block p block) (pd_lower p) (pd_upper p + size_diff))
                      (adjust_stored (pd_linp p) offset size_diff))
             else Ret p) in
          let newid := ItemIdSetNormal (offset + size_diff) newsize in
          let* linp := deref (zset (pd_linp p) (offnum - 1) newid) in
          c_assert (ItemIdHasStorage newid) ;;
          let* block := memcpy_in (pd_lower p) (pd_block p) (ItemIdGetOffset newid) newtup newsize in
          Ret (true, set_block (set_linp p linp) block).
End Compaction.
