(* ===== verification/BufPageProofs.v ===== *)
(** Pages as sequences of items: the invariant of a page, and what each
    routine of [BufPage.v] does to the sequence. *)
From stdpp Require Import sorting.
From S2P Require Import Prelude BufPage.

(** ** Bytes of a block *)

Lemma maxalign_eq len : 0 <= len -> MAXALIGN len = (len + 7) / 8 * 8.
Proof.
  intros Hl. unfold MAXALIGN. rewrite <- Z.ldiff_land. change 7 with (Z.ones 3) at 2.
  rewrite Z.ldiff_ones_r by done. by rewrite Z.shiftr_div_pow2, Z.shiftl_mul_pow2 by done.
Qed.

Lemma maxalign_mod len : MAXALIGN len mod 8 = 0.
Proof.
  unfold MAXALIGN. rewrite <- Z.ldiff_land. change 7 with (Z.ones 3) at 2.
  rewrite Z.ldiff_ones_r, Z.shiftl_mul_pow2 by done. by apply Z.mod_mul.
Qed.

Lemma maxalign_bounds len : 0 <= len -> len <= MAXALIGN len < len + 8 /\ MAXALIGN len mod 8 = 0.
Proof. intros Hl. rewrite maxalign_eq by done. Z.to_euclidean_division_equations. lia. Qed.

Lemma maxalign_aligned len : 0 <= len -> len mod 8 = 0 -> MAXALIGN len = len.
Proof. intros Hl Ha. rewrite maxalign_eq by done. Z.to_euclidean_division_equations. lia. Qed.

Lemma zget_app {A} (l l' : list A) i :
  0 <= i -> zget (l ++ l') i = if i <? zlen l then zget l i else zget l' (i - zlen l).
Proof.
  intros Hi. unfold zget, zlen. destruct (Z.ltb_spec i 0); [lia|].
  destruct (Z.ltb_spec i (Z.of_nat (length l))).
  - apply lookup_app_l. lia.
  - destruct (Z.ltb_spec (i - Z.of_nat (length l)) 0); [lia|].
    rewrite lookup_app_r by lia. f_equal. lia.
Qed.

Lemma zget_get_bytes block off len i :
  0 <= off -> zget (get_bytes block off len) i = if (0 <=? i) && (i <? len) then zget block (off + i) else None.
Proof.
  intros Ho. unfold get_bytes, zget. destruct (Z.ltb_spec i 0).
  - destruct (Z.leb_spec 0 i); [lia|done].
  - destruct (Z.leb_spec 0 i); [|lia]. destruct (Z.ltb_spec (off + i) 0); [lia|]. cbn [andb].
    destruct (Z.ltb_spec i len).
    + rewrite lookup_take_lt, lookup_drop by lia. f_equal. lia.
    + apply lookup_ge_None_2. rewrite length_take. lia.
Qed.

Lemma zlen_get_bytes block off len :
  0 <= off -> 0 <= len -> off + len <= zlen block -> zlen (get_bytes block off len) = len.
Proof. unfold zlen, get_bytes. intros. rewrite length_take, length_drop. lia. Qed.

Lemma zlen_put_bytes block off bs :
  0 <= off -> off + zlen bs <= zlen block -> zlen (put_bytes block off bs) = zlen block.
Proof. unfold zlen, put_bytes. intros. rewrite !length_app, length_take, length_drop. lia. Qed.

Lemma zget_put_bytes block off bs i :
  0 <= off -> off + zlen bs <= zlen block -> 0 <= i ->
  zget (put_bytes block off bs) i =
    if (off <=? i) && (i <? off + zlen bs) then zget bs (i - off) else zget block i.
Proof.
  intros Ho Hl Hi. unfold put_bytes. rewrite zget_app by done.
  assert (zlen (take (Z.to_nat off) block) = off) as Ht.
  { unfold zlen in *. rewrite length_take. lia. }
  rewrite Ht. destruct (Z.ltb_spec i off).
  - destruct (Z.leb_spec off i); [lia|]. cbn [andb]. unfold zget. destruct (i <? 0); [done|].
    apply lookup_take_lt. lia.
  - destruct (Z.leb_spec off i); [|lia]. cbn [andb]. rewrite zget_app by lia.
    destruct (Z.ltb_spec (i - off) (zlen bs)), (Z.ltb_spec i (off + zlen bs)); try lia; [done|].
    unfold zget, zlen in *. destruct (Z.ltb_spec (i - off - Z.of_nat (length bs)) 0); [lia|].
    destruct (Z.ltb_spec i 0); [lia|]. rewrite lookup_drop. f_equal. lia.
Qed.

Lemma get_bytes_ext block block' off off' len :
  0 <= off -> 0 <= off' -> 0 <= len -> off + len <= zlen block -> off' + len <= zlen block' ->
  (forall i, 0 <= i < len -> zget block (off + i) = zget block' (off' + i)) ->
  get_bytes block off len = get_bytes block' off' len.
Proof.
  intros. apply zget_ext; [by rewrite !zlen_get_bytes|]. rewrite zlen_get_bytes by done. intros i Hi.
  rewrite !zget_get_bytes by done. destruct (Z.leb_spec 0 i), (Z.ltb_spec i len); try lia. cbn [andb]. auto.
Qed.

(** A write leaves disjoint ranges alone. *)
Lemma get_put_other block off bs o l :
  0 <= off -> off + zlen bs <= zlen block -> 0 <= o -> 0 <= l -> o + l <= zlen block ->
  o + l <= off \/ off + zlen bs <= o ->
  get_bytes (put_bytes block off bs) o l = get_bytes block o l.
Proof.
  intros. apply get_bytes_ext; try done; [by rewrite zlen_put_bytes|].
  intros i Hi. rewrite zget_put_bytes by lia.
  destruct (Z.leb_spec off (o + i)), (Z.ltb_spec (o + i) (off + zlen bs)); try lia; done.
Qed.

(** A range moved with its surroundings is found at the new place. *)
Lemma get_put_moved block dst src len o l :
  0 <= dst -> dst + len <= zlen block -> 0 <= src -> src + len <= zlen block -> 0 <= len ->
  src <= o -> 0 <= l -> o + l <= src + len ->
  get_bytes (put_bytes block dst (get_bytes block src len)) (o + (dst - src)) l = get_bytes block o l.
Proof.
  intros. assert (zlen (get_bytes block src len) = len) as Hz by by apply zlen_get_bytes.
  apply get_bytes_ext; try lia; [rewrite zlen_put_bytes by lia; lia|].
  intros i Hi. rewrite zget_put_bytes, Hz by lia.
  destruct (Z.leb_spec dst (o + (dst - src) + i)), (Z.ltb_spec (o + (dst - src) + i) (dst + len)); try lia.
  cbn [andb]. rewrite zget_get_bytes by done.
  destruct (Z.leb_spec 0 (o + (dst - src) + i - dst)), (Z.ltb_spec (o + (dst - src) + i - dst) len); try lia.
  cbn [andb]. f_equal. lia.
Qed.

Lemma get_put_same block off bs :
  0 <= off -> off + zlen bs <= zlen block -> get_bytes (put_bytes block off bs) off (zlen bs) = bs.
Proof.
  intros Ho Hl. pose proof (zlen_nonneg bs).
  assert (zlen (get_bytes (put_bytes block off bs) off (zlen bs)) = zlen bs) as E.
  { apply zlen_get_bytes; [done|done|]. by rewrite zlen_put_bytes. }
  apply zget_ext; [done|]. rewrite E. intros i Hi. rewrite zget_get_bytes, zget_put_bytes by lia.
  destruct (Z.leb_spec 0 i), (Z.ltb_spec i (zlen bs)); try lia. cbn [andb].
  destruct (Z.leb_spec off (off + i)), (Z.ltb_spec (off + i) (off + zlen bs)); try lia.
  cbn [andb]. f_equal. lia.
Qed.

(** ** Pages as sequences of items *)

Inductive entry :=
  | NoStorage (flags off : Z)
  | Stored (flags : Z) (bytes : list Z).

Definition entry_of (block : list Z) (lp : ItemIdData) : entry :=
  if ItemIdHasStorage lp then Stored (lp_flags lp) (get_bytes block (lp_off lp) (lp_len lp))
  else NoStorage (lp_flags lp) (lp_off lp).

Definition view (p : Page) : list entry := entry_of (pd_block p) <$> pd_linp p.

(** The end of an item's data. *)
Definition lp_end (lp : ItemIdData) : Z := lp_off lp + MAXALIGN (lp_len lp).

Record lp_ok (upper special : Z) (lp : ItemIdData) : Prop := {
  lp_fields : 0 <= lp_off lp < 2 ^ 15 /\ 0 <= lp_len lp < 2 ^ 15 /\ 0 <= lp_flags lp <= 3;
  lp_unused : lp_flags lp = LP_UNUSED -> lp = ItemIdSetUnused;
  lp_stored : ItemIdHasStorage lp = true -> upper <= lp_off lp /\ lp_end lp <= special /\ lp_off lp mod 8 = 0
}.

(** Two items do not share bytes. *)
Definition apart (a b : ItemIdData) : Prop :=
  ItemIdHasStorage a = true -> ItemIdHasStorage b = true -> lp_end a <= lp_off b \/ lp_end b <= lp_off a.

Record page_ok (p : Page) : Prop := {
  po_lower : pd_lower p = SizeOfPageHeaderData + sizeof_ItemIdData * zlen (pd_linp p);
  po_bounds : pd_lower p <= pd_upper p <= pd_special p /\ pd_special p <= BLCKSZ;
  po_aligned : pd_upper p mod 8 = 0 /\ pd_special p mod 8 = 0;
  po_block : zlen (pd_block p) = BLCKSZ;
  po_items : forall i lp, zget (pd_linp p) i = Some lp -> lp_ok (pd_upper p) (pd_special p) lp;
  po_apart : forall i j a b, i <> j -> zget (pd_linp p) i = Some a -> zget (pd_linp p) j = Some b -> apart a b
}.

Ltac page_consts :=
  change SizeOfPageHeaderData with 24 in *; change sizeof_ItemIdData with 4 in *; change BLCKSZ with 8192 in *.

Lemma max_offset_number p : page_ok p -> PageGetMaxOffsetNumber p = zlen (pd_linp p).
Proof.
  intros Hok. pose proof (po_lower p Hok) as Hl. unfold PageGetMaxOffsetNumber. page_consts. rewrite Hl.
  unfold zlen. destruct (Z.leb_spec (24 + 4 * Z.of_nat (length (pd_linp p))) 24); [lia|].
  replace (24 + 4 * Z.of_nat (length (pd_linp p)) - 24) with (Z.of_nat (length (pd_linp p)) * 4) by lia.
  by rewrite Z.div_mul.
Qed.

Lemma linp_count p : page_ok p -> zlen (pd_linp p) <= 2042.
Proof. intros []. page_consts. lia. Qed.

Lemma not_corrupted p : page_ok p -> corrupted_pointers p = false.
Proof. intros []. unfold corrupted_pointers. page_consts. unfold zlen in *. lia. Qed.

Lemma special_aligned p : page_ok p -> (pd_special p =? MAXALIGN (pd_special p)) = true.
Proof.
  intros []. apply Z.eqb_eq. rewrite maxalign_aligned; [done|page_consts; unfold zlen in *; lia|tauto].
Qed.

Lemma u16_small z : 0 <= z < 2 ^ 16 -> u16 z = z.
Proof. apply Z.mod_small. Qed.
Lemma u15_small z : 0 <= z < 2 ^ 15 -> u15 z = z.
Proof. apply Z.mod_small. Qed.
Lemma s32_small z : 0 <= z < 2 ^ 31 -> s32 z = z.
Proof. intros. unfold s32. rewrite Z.mod_small by lia. lia. Qed.
(** ** Compaction *)

(** The sort entries of the items with storage. *)
Definition item_of (i : Z) (lp : ItemIdData) : itemIdSortData :=
  {| offsetindex := i; itemoff := lp_off lp; alignedlen := MAXALIGN (lp_len lp) |}.

Fixpoint items_from (linp : list ItemIdData) (i : Z) : list itemIdSortData :=
  match linp with
  | [] => []
  | lp :: linp => (if ItemIdHasStorage lp then [item_of i lp] else []) ++ items_from linp (i + 1)
  end.

Lemma items_from_spec linp i it :
  it ∈ items_from linp i <->
  exists j lp, zget linp j = Some lp /\ ItemIdHasStorage lp = true /\ it = item_of (i + j) lp.
Proof.
  revert i. induction linp as [|lp linp IH]; intros i; cbn [items_from].
  - split; [by intros ?%elem_of_nil|]. intros (j & lp & H & _). by rewrite zget_nil in H.
  - rewrite elem_of_app, IH. split.
    + intros [H|(j & lp' & Hj & Hs & ->)].
      * destruct (ItemIdHasStorage lp) eqn:E; [|by apply elem_of_nil in H].
        apply list_elem_of_singleton in H as ->. exists 0, lp. rewrite Z.add_0_r. by rewrite zget_cons.
      * exists (j + 1), lp'. pose proof (zget_Some_lt _ _ _ Hj). rewrite zget_cons.
        destruct (Z.eqb_spec (j + 1) 0); [lia|]. rewrite Z.add_simpl_r. split_and!; [done..|]. f_equal. lia.
    + intros (j & lp' & Hj & Hs & ->). rewrite zget_cons in Hj. destruct (Z.eqb_spec j 0) as [->|].
      * injection Hj as ->. left. rewrite Hs, Z.add_0_r. by apply list_elem_of_singleton.
      * right. exists (j - 1), lp'. split_and!; [done..|]. f_equal. lia.
Qed.

Lemma items_from_NoDup linp i : NoDup (offsetindex <$> items_from linp i).
Proof.
  revert i. induction linp as [|lp linp IH]; intros i; cbn [items_from]; [constructor|].
  destruct (ItemIdHasStorage lp); [|by apply IH]. cbn [app fmap list_fmap]. constructor; [|by apply IH].
  intros (it & E & (j & lp' & Hj & _ & ->)%items_from_spec)%list_elem_of_fmap.
  apply zget_Some_lt in Hj. cbn [offsetindex item_of] in E. lia.
Qed.

Definition total_len (items : list itemIdSortData) : Z := foldr (fun it n => alignedlen it + n) 0 items.

Lemma total_len_perm l l' : l ≡ₚ l' -> total_len l = total_len l'.
Proof. induction 1; cbn [total_len foldr]; unfold total_len in *; lia. Qed.

(** The items are the sort entries of line pointers. *)
Definition describes (linp : list ItemIdData) (items : list itemIdSortData) : Prop :=
  forall it, it ∈ items -> exists lp,
    zget linp (offsetindex it) = Some lp /\ it = item_of (offsetindex it) lp /\ 0 <= lp_len lp.

Lemma total_len_aligned linp items :
  describes linp items -> total_len items mod 8 = 0.
Proof.
  induction items as [|it items IH]; intros Hd; [done|]. cbn [total_len foldr]. fold (total_len items).
  destruct (Hd it) as (lp & _ & E & Hl); [left|]. rewrite E. cbn [alignedlen item_of].
  rewrite Zplus_mod, IH, (proj2 (maxalign_bounds (lp_len lp) Hl)); [done|]. intros it' Hin. apply Hd. by right.
Qed.

(** Items in descending order, each ending where the one before begins or
    below. *)
Fixpoint chain (lo upper : Z) (items : list itemIdSortData) : Prop :=
  match items with
  | [] => lo <= upper
  | it :: items =>
      0 <= alignedlen it /\ itemoff it + alignedlen it <= upper /\ chain lo (itemoff it) items
  end.

Lemma chain_total lo upper items : chain lo upper items -> lo + total_len items <= upper.
Proof.
  revert upper. induction items as [|it items IH]; intros upper; cbn [chain total_len foldr]; [lia|].
  intros (? & ? & H%IH). unfold total_len in *. lia.
Qed.

Lemma chain_total_nonneg lo upper items : chain lo upper items -> 0 <= total_len items.
Proof.
  revert upper. induction items as [|it items IH]; intros upper; cbn [chain total_len foldr]; [done|].
  intros (? & _ & H%IH). unfold total_len in *. lia.
Qed.

Lemma chain_weaken lo upper upper' items : chain lo upper items -> upper <= upper' -> chain lo upper' items.
Proof. destruct items; cbn [chain]; intuition lia. Qed.

Lemma chain_bound lo upper items it :
  chain lo upper items -> it ∈ items ->
  lo <= itemoff it /\ 0 <= alignedlen it /\ itemoff it + alignedlen it <= upper.
Proof.
  revert upper. induction items as [|it' items IH]; intros upper; cbn [chain]; [by intros _ ?%elem_of_nil|].
  intros (H0 & H1 & H2) [->|H]%elem_of_cons.
  - apply chain_total in H2 as H3. apply chain_total_nonneg in H2. lia.
  - apply IH in H2; [lia|done].
Qed.

Lemma sorted_chain lo upper items :
  lo <= upper ->
  StronglySorted (fun a b => itemoffcompare a b <= 0) items ->
  NoDup (offsetindex <$> items) ->
  (forall it, it ∈ items -> lo <= itemoff it /\ 0 < alignedlen it /\ itemoff it + alignedlen it <= upper) ->
  (forall a b, a ∈ items -> b ∈ items -> offsetindex a <> offsetindex b ->
    itemoff a + alignedlen a <= itemoff b \/ itemoff b + alignedlen b <= itemoff a) ->
  chain lo upper items.
Proof.
  intros Hlo Hs. revert upper Hlo. induction Hs as [|it items Hs IH Hall]; intros upper Hlo Hnd Hin Hap; [done|].
  cbn [fmap list_fmap] in Hnd. apply NoDup_cons in Hnd as [Hni Hnd]. cbn [chain].
  destruct (Hin it) as (H1 & H2 & H3); [left|]. split_and!; [lia|lia|]. apply IH; [lia|done| |].
  - intros b Hb. destruct (Hin b) as (Hb1 & Hb2 & Hb3); [by right|]. split_and!; [lia|lia|].
    rewrite List.Forall_forall in Hall. specialize (Hall b). unfold itemoffcompare in Hall.
    apply list_elem_of_In in Hb as Hb'. specialize (Hall Hb').
    destruct (Hap it b) as [H|H]; [left|by right| |lia|lia].
    intros E. apply Hni. rewrite E. by apply list_elem_of_fmap_2.
  - intros a b Ha Hb. apply Hap; by right.
Qed.

(** What moving the data of [items] to below [upper] does. *)
Record compacted (upper upper' : Z) (items : list itemIdSortData) (linp : list ItemIdData) (block : list Z)
    (linp' : list ItemIdData) (block' : list Z) : Prop := {
  cp_linp : zlen linp' = zlen linp;
  cp_block : zlen block' = BLCKSZ;
  cp_other : forall i, (i ∉ offsetindex <$> items) -> zget linp' i = zget linp i;
  cp_above : forall o l, upper <= o -> 0 <= l -> o + l <= BLCKSZ -> get_bytes block' o l = get_bytes block o l;
  cp_item : forall it lp, it ∈ items -> zget linp (offsetindex it) = Some lp ->
    exists o, zget linp' (offsetindex it) = Some (set_lp_off lp o) /\ u15 o = o /\
      upper' <= o /\ o + alignedlen it <= upper /\ o mod 8 = 0 /\
      get_bytes block' o (lp_len lp) = get_bytes block (lp_off lp) (lp_len lp);
  cp_apart : forall a b lpa lpb, a ∈ items -> b ∈ items -> offsetindex a <> offsetindex b ->
    zget linp' (offsetindex a) = Some lpa -> zget linp' (offsetindex b) = Some lpb -> apart lpa lpb
}.

Lemma memmove_ret lo block dst src len :
  lo <= dst -> lo <= src -> 0 <= len -> dst + len <= BLCKSZ -> src + len <= BLCKSZ ->
  memmove lo block dst src len = Ret (put_bytes block dst (get_bytes block src len)).
Proof.
  intros. unfold memmove, in_block.
  assert ((lo <=? dst) && (0 <=? len) && (dst + len <=? BLCKSZ) &&
          ((lo <=? src) && (0 <=? len) && (src + len <=? BLCKSZ)) = true) as -> by lia.
  done.
Qed.

Lemma set_lp_off_end lp o : u15 o = o -> lp_end (set_lp_off lp o) = o + MAXALIGN (lp_len lp).
Proof. intros E. unfold lp_end, set_lp_off. cbn [lp_off lp_len]. by rewrite E. Qed.

Lemma describes_other linp linp' it items lp :
  describes linp (it :: items) -> NoDup (offsetindex <$> it :: items) ->
  zset linp (offsetindex it) lp = Some linp' -> describes linp' items.
Proof.
  intros Hd [Hni _]%NoDup_cons Hz it' Hin. destruct (Hd it') as (lp' & H1 & H2); [by right|].
  exists lp'. rewrite (zget_zset _ _ _ _ _ Hz). rewrite decide_False; [done|].
  intros E. apply Hni. rewrite <- E. by apply list_elem_of_fmap_2.
Qed.

Section compact_step.
Context (lo upper upper' : Z) (it : itemIdSortData) (items : list itemIdSortData) (lp : ItemIdData).
Context (linp linp1 linp' : list ItemIdData) (block block' : list Z).
Let dst := upper - alignedlen it.
Let block1 := put_bytes block dst (get_bytes block (itemoff it) (alignedlen it)).
Hypothesis Hlo : 0 <= lo.
Hypothesis Hupper : upper <= BLCKSZ /\ upper mod 8 = 0.
Hypothesis Hblock : zlen block = BLCKSZ.
Hypothesis Hchain : chain lo upper (it :: items).
Hypothesis Hdesc : describes linp (it :: items).
Hypothesis Hnodup : NoDup (offsetindex <$> it :: items).
Hypothesis Hget : zget linp (offsetindex it) = Some lp.
Hypothesis Hit : it = item_of (offsetindex it) lp /\ 0 <= lp_len lp.
Hypothesis Hset : zset linp (offsetindex it) (set_lp_off lp dst) = Some linp1.
Hypothesis Hupper' : upper' <= dst.
Hypothesis Hrest : compacted dst upper' items linp1 block1 linp' block'.

Lemma step_sizes :
  lo <= itemoff it <= dst /\ 0 <= lp_len lp <= alignedlen it /\ alignedlen it mod 8 = 0 /\ itemoff it = lp_off lp /\
  zlen (get_bytes block (itemoff it) (alignedlen it)) = alignedlen it /\ u15 dst = dst /\ dst mod 8 = 0.
Proof.
  destruct (chain_bound _ _ _ it Hchain) as (H1 & H2 & H3); [left|]. destruct Hit as [Ei Hl].
  pose proof (maxalign_bounds (lp_len lp) Hl) as Hm.
  assert (alignedlen it = MAXALIGN (lp_len lp) /\ itemoff it = lp_off lp) as [Ea Eo] by (rewrite Ei; done).
  rewrite Ea in *. unfold dst. rewrite !Ea. change BLCKSZ with 8192 in *.
  split_and!; try lia; [apply zlen_get_bytes; lia|apply Z.mod_small; lia|].
  Z.to_euclidean_division_equations. lia.
Qed.

(** The data of the other items is still where it was. *)
Lemma step_rest_bytes it' : it' ∈ items -> forall l, 0 <= l <= alignedlen it' ->
  get_bytes block1 (itemoff it') l = get_bytes block (itemoff it') l.
Proof.
  intros Hin l Hl. destruct step_sizes as (H1 & H2 & H3 & H4 & H5 & H6 & H7).
  destruct Hchain as (Ha & Hend & Hch).
  destruct (chain_bound _ _ _ it' Hch Hin) as (B1 & B2 & B3).
  unfold block1, dst in *. apply get_put_other; lia.
Qed.

Lemma step_other it' : it' ∈ items -> offsetindex it' <> offsetindex it.
Proof.
  intros Hin E. apply NoDup_cons in Hnodup as [Hni _]. apply Hni. rewrite <- E. by apply list_elem_of_fmap_2.
Qed.

Lemma step_get : zget linp' (offsetindex it) = Some (set_lp_off lp dst).
Proof.
  rewrite (cp_other _ _ _ _ _ _ _ Hrest); [|by apply NoDup_cons in Hnodup as [Hni _]].
  rewrite (zget_zset _ _ _ _ _ Hset). by rewrite decide_True.
Qed.

Lemma step_item it' lp' : it' ∈ items -> zget linp (offsetindex it') = Some lp' ->
  exists o, zget linp' (offsetindex it') = Some (set_lp_off lp' o) /\ u15 o = o /\
    upper' <= o /\ o + alignedlen it' <= dst /\ o mod 8 = 0 /\
    get_bytes block' o (lp_len lp') = get_bytes block (lp_off lp') (lp_len lp').
Proof.
  intros Hin Hg. destruct (cp_item _ _ _ _ _ _ _ Hrest it' lp' Hin) as (o & P1 & P2 & P3 & P4 & P5 & P6).
  { rewrite (zget_zset _ _ _ _ _ Hset), decide_False; [done|by apply step_other]. }
  exists o. split_and!; try done. rewrite P6.
  destruct (Hdesc it') as (lp2 & Hg2 & Ei & Hl); [by right|]. rewrite Hg in Hg2. injection Hg2 as <-.
  replace (lp_off lp') with (itemoff it') by (rewrite Ei; done). apply step_rest_bytes; [done|].
  rewrite Ei. cbn [alignedlen item_of]. pose proof (maxalign_bounds (lp_len lp') Hl). lia.
Qed.

(** What is not below the item moved stays clear of it. *)
Lemma step_apart it' lpa lpb : it' ∈ items ->
  zget linp' (offsetindex it) = Some lpa -> zget linp' (offsetindex it') = Some lpb -> lp_end lpb <= lp_off lpa.
Proof.
  intros Hin Ha Hb. destruct step_sizes as (_ & _ & _ & _ & _ & H6 & _).
  rewrite step_get in Ha. injection Ha as <-. destruct (Hdesc it') as (lp' & Hg & Ei & _); [by right|].
  destruct (step_item it' lp' Hin Hg) as (o & P1 & P2 & _ & P4 & _). rewrite P1 in Hb. injection Hb as <-.
  rewrite set_lp_off_end by done. cbn [lp_off set_lp_off]. rewrite H6.
  replace (MAXALIGN (lp_len lp')) with (alignedlen it') by (rewrite Ei; done). done.
Qed.

Lemma compacted_cons : compacted upper upper' (it :: items) linp block linp' block'.
Proof.
  destruct step_sizes as (H1 & H2 & H3 & H4 & H5 & H6 & H7). destruct Hchain as (Ha & Hend & Hch).
  destruct Hrest as [C1 C2 C3 C4 C5 C6]. split.
  - rewrite C1. by apply zset_len in Hset.
  - done.
  - intros i [Hne Hi]%not_elem_of_cons. rewrite C3 by done.
    by rewrite (zget_zset _ _ _ _ _ Hset), decide_False.
  - intros o l Ho Hl Hb. rewrite C4 by (unfold dst in *; lia). unfold block1, dst in *. apply get_put_other; lia.
  - intros it' lp' [->|Hin]%elem_of_cons Hg.
    + rewrite Hget in Hg. injection Hg as <-. exists dst. rewrite step_get. split_and!; try done; [unfold dst; lia|].
      rewrite C4 by (unfold dst in *; lia). replace dst with (itemoff it + (dst - itemoff it)) at 1 by lia.
      unfold block1. rewrite get_put_moved by (unfold dst in *; lia). by rewrite H4.
    + destruct (step_item it' lp' Hin Hg) as (o & P1 & P2 & P3 & P4 & P5 & P6).
      exists o. split_and!; try done. unfold dst in *. lia.
  - intros a b lpa lpb [->|Hina]%elem_of_cons [->|Hinb]%elem_of_cons Hne Hga Hgb; [done| | |eauto].
    + intros _ _. right. eauto using step_apart.
    + intros _ _. left. eauto using step_apart.
Qed.
End compact_step.

Lemma compactify_loop_spec lo items upper linp block :
  0 <= lo -> upper <= BLCKSZ /\ upper mod 8 = 0 -> zlen block = BLCKSZ ->
  chain lo upper items -> describes linp items -> NoDup (offsetindex <$> items) ->
  exists linp' block',
    compactify_loop lo items upper linp block = Ret (upper - total_len items, linp', block') /\
    compacted upper (upper - total_len items) items linp block linp' block'.
Proof.
  intros Hlo. revert upper linp block. induction items as [|it items IH]; intros upper linp block Hup Hbl Hch Hd Hnd.
  - exists linp, block. cbn [compactify_loop total_len foldr]. rewrite Z.sub_0_r.
    split; [done|]. by split; try done; intros * ?%elem_of_nil.
  - destruct (Hd it) as (lp & Hg & Hit & Hl); [left|].
    destruct (step_sizes lo upper it items lp block Hlo Hup Hbl Hch (conj Hit Hl)) as (H1 & H2 & H3 & H4 & H5 & H6 & H7).
    destruct (zset_is_Some linp (offsetindex it) (set_lp_off lp (upper - alignedlen it))) as [linp1 Hz].
    { by eapply zget_Some_lt. }
    pose proof (proj2 (proj2 Hch)) as Hch'. pose proof (proj1 (proj2 Hch)) as Hend.
    destruct (IH (upper - alignedlen it) linp1
                (put_bytes block (upper - alignedlen it) (get_bytes block (itemoff it) (alignedlen it))))
      as (linp' & block' & E & C).
    { lia. } { rewrite zlen_put_bytes; lia. } { eapply chain_weaken; [done|lia]. }
    { by eapply describes_other. } { by apply NoDup_cons in Hnd as [_ ?]. }
    exists linp', block'. cbn [compactify_loop]. rewrite Hg. cbn [deref cbind].
    rewrite memmove_ret by lia. cbn [cbind]. rewrite Hz. cbn [deref cbind]. rewrite E.
    cbn [total_len foldr]. fold (total_len items).
    replace (upper - (alignedlen it + total_len items)) with (upper - alignedlen it - total_len items) by lia.
    split; [done|].
    apply (compacted_cons lo _ _ it items lp linp linp1 linp' block); try done.
    apply chain_total in Hch' as Ht. pose proof (chain_total_nonneg _ _ _ Hch'). lia.
Qed.

Lemma zget_fmap {A B} (f : A -> B) (l : list A) i : zget (f <$> l) i = f <$> zget l i.
Proof. unfold zget. destruct (i <? 0); [done|]. by rewrite list_lookup_fmap. Qed.

Lemma zlen_fmap {A B} (f : A -> B) (l : list A) : zlen (f <$> l) = zlen l.
Proof. unfold zlen. by rewrite length_fmap. Qed.

(** Two pages show the same items when they do so line pointer by line
    pointer. *)
Lemma view_ext p p' :
  zlen (pd_linp p') = zlen (pd_linp p) ->
  (forall i lp lp', zget (pd_linp p) i = Some lp -> zget (pd_linp p') i = Some lp' ->
    entry_of (pd_block p') lp' = entry_of (pd_block p) lp) ->
  view p' = view p.
Proof.
  intros Hl H. unfold view. apply zget_ext; rewrite !zlen_fmap; [done|]. intros i Hi. rewrite !zget_fmap.
  destruct (zget_is_Some (pd_linp p') i Hi) as [lp' E']. destruct (zget_is_Some (pd_linp p) i) as [lp E]; [lia|].
  rewrite E, E'. cbn. f_equal. eauto.
Qed.

(** A line pointer either has no storage and no sort entry, or both. *)
Lemma items_from_case linp i lp :
  zget linp i = Some lp ->
  (ItemIdHasStorage lp = false /\ i ∉ offsetindex <$> items_from linp 0) \/
  (ItemIdHasStorage lp = true /\ item_of i lp ∈ items_from linp 0).
Proof.
  intros Hi. destruct (ItemIdHasStorage lp) eqn:E; [right|left]; split; try done.
  - apply items_from_spec. by exists i, lp.
  - intros (it & -> & (j & lp' & Hj & Hs & ->)%items_from_spec)%list_elem_of_fmap.
    cbn [offsetindex item_of] in Hi. rewrite Z.add_0_l, Hj in Hi. congruence.
Qed.

Lemma has_storage lp : ItemIdHasStorage lp = true <-> lp_len lp <> 0.
Proof. unfold ItemIdHasStorage. lia. Qed.

Lemma items_bounds p it :
  page_ok p -> it ∈ items_from (pd_linp p) 0 ->
  pd_lower p <= itemoff it /\ 0 < alignedlen it /\ itemoff it + alignedlen it <= pd_special p.
Proof.
  intros Hok (j & lp & Hj & Hs & ->)%items_from_spec. destruct (po_items p Hok j lp Hj) as [F _ S].
  destruct (S Hs) as (S1 & S2 & _). apply has_storage in Hs. unfold lp_end in S2.
  cbn [itemoff alignedlen item_of]. pose proof (maxalign_bounds (lp_len lp)). destruct (po_bounds p Hok). lia.
Qed.

Lemma items_apart p a b :
  page_ok p -> a ∈ items_from (pd_linp p) 0 -> b ∈ items_from (pd_linp p) 0 -> offsetindex a <> offsetindex b ->
  itemoff a + alignedlen a <= itemoff b \/ itemoff b + alignedlen b <= itemoff a.
Proof.
  intros Hok (i & la & Hi & Hsa & ->)%items_from_spec (j & lb & Hj & Hsb & ->)%items_from_spec Hne.
  cbn [offsetindex item_of] in Hne. by apply (po_apart p Hok i j la lb); [lia|..].
Qed.

Lemma items_describe p items : page_ok p -> items ≡ₚ items_from (pd_linp p) 0 -> describes (pd_linp p) items.
Proof.
  intros Hok Hp it Hin. rewrite Hp in Hin. apply items_from_spec in Hin as (j & lp & Hj & Hs & ->).
  exists lp. cbn [offsetindex item_of]. rewrite Z.add_0_l. destruct (po_items p Hok j lp Hj) as [F _ _].
  split_and!; try done. lia.
Qed.

Section compactify.
Context `{ItemSortLaws}.

Lemma qsort_chain p :
  page_ok p -> chain (pd_lower p) (pd_special p) (qsort (items_from (pd_linp p) 0)).
Proof.
  intros Hok. pose proof (qsort_perm (items_from (pd_linp p) 0)) as Hp.
  apply sorted_chain; [destruct (po_bounds p Hok); lia|apply qsort_sorted| | |].
  - rewrite Hp. apply items_from_NoDup.
  - intros it Hin. rewrite Hp in Hin. by apply (items_bounds p).
  - intros a b Ha Hb. rewrite Hp in Ha, Hb. by apply (items_apart p).
Qed.

Lemma items_total p : page_ok p -> pd_lower p + total_len (items_from (pd_linp p) 0) <= pd_special p.
Proof.
  intros Hok. pose proof (chain_total _ _ _ (qsort_chain p Hok)) as Hc.
  by rewrite (total_len_perm _ _ (qsort_perm _)) in Hc.
Qed.

(** A line pointer after compaction. *)
Lemma compacted_pointer p upper' items linp' block' i lp' :
  page_ok p -> items ≡ₚ items_from (pd_linp p) 0 ->
  compacted (pd_special p) upper' items (pd_linp p) (pd_block p) linp' block' ->
  zget linp' i = Some lp' ->
  exists lp, zget (pd_linp p) i = Some lp /\ entry_of block' lp' = entry_of (pd_block p) lp /\
    lp_ok upper' (pd_special p) lp' /\ ItemIdHasStorage lp' = ItemIdHasStorage lp.
Proof.
  intros Hok Hp C Hi. destruct (zget_is_Some (pd_linp p) i) as [lp Hlp].
  { apply zget_Some_lt in Hi. by rewrite (cp_linp _ _ _ _ _ _ _ C) in Hi. }
  exists lp. split; [done|]. destruct (po_items p Hok i lp Hlp) as [F U S].
  destruct (items_from_case _ _ _ Hlp) as [[Hs Hni]|[Hs Hin]]; rewrite <- Hp in *.
  - rewrite (cp_other _ _ _ _ _ _ _ C), Hlp in Hi by done. injection Hi as <-.
    unfold entry_of. rewrite Hs. split_and!; [done| |done]. split; [done|done|congruence].
  - destruct (cp_item _ _ _ _ _ _ _ C _ lp Hin Hlp) as (o & P1 & P2 & P3 & P4 & P5 & P6).
    cbn [offsetindex item_of alignedlen] in *. rewrite Hi in P1. injection P1 as ->.
    assert (ItemIdHasStorage (set_lp_off lp o) = true) as Hs' by (by apply has_storage in Hs; apply has_storage).
    unfold entry_of. rewrite Hs, Hs'. cbn [lp_off lp_flags lp_len set_lp_off]. rewrite P2, P6.
    split_and!; [done| |done]. split.
    + cbn [lp_off lp_flags lp_len set_lp_off]. pose proof (Z.mod_pos_bound o (2 ^ 15)). unfold u15. lia.
    + intros Hu. rewrite (U Hu) in Hs. done.
    + intros _. rewrite set_lp_off_end by done. cbn [lp_off set_lp_off]. by rewrite P2.
Qed.

Lemma compactify_page p :
  page_ok p ->
  exists p', compactify_tuples (items_from (pd_linp p) 0) p = Ret p' /\ page_ok p' /\ view p' = view p /\
    pd_upper p' = pd_special p - total_len (items_from (pd_linp p) 0) /\ pd_special p' = pd_special p /\
    pd_flags p' = pd_flags p.
Proof.
  intros Hok. pose proof (qsort_perm (items_from (pd_linp p) 0)) as Hp.
  pose proof (items_total p Hok) as Ht. pose proof (qsort_chain p Hok) as Hch.
  pose proof (chain_total_nonneg _ _ _ Hch) as Hnn.
  pose proof Hok as [Ol Ob Oa Obl Oi Oap].
  pose proof (zlen_nonneg (pd_linp p)) as Hz.
  destruct (compactify_loop_spec (pd_lower p) (qsort (items_from (pd_linp p) 0)) (pd_special p) (pd_linp p) (pd_block p))
    as (linp' & block' & E & C); try done.
  { page_consts. lia. } { tauto. } { by apply items_describe. } { rewrite Hp. apply items_from_NoDup. }
  rewrite (total_len_perm _ _ Hp) in *. unfold compactify_tuples. rewrite E. cbn [cbind fst snd].
  eexists. split; [done|]. cbn [pd_upper pd_special pd_flags set_bounds set_linp set_block].
  assert (0 <= total_len (items_from (pd_linp p) 0)) by done.
  rewrite (u16_small (pd_special p - total_len _)) by (page_consts; lia). split_and!; [| |done..].
  - split; cbn [pd_upper pd_lower pd_special pd_linp pd_block set_bounds set_linp set_block];
      rewrite ?(u16_small (pd_lower p)), ?(u16_small (pd_special p - total_len _)) by (page_consts; lia).
    + by rewrite (cp_linp _ _ _ _ _ _ _ C).
    + lia.
    + split; [|tauto]. rewrite Zminus_mod, (proj2 Oa), (total_len_aligned (pd_linp p)); [done|by apply items_describe].
    + apply (cp_block _ _ _ _ _ _ _ C).
    + intros i lp Hi. by destruct (compacted_pointer _ _ _ _ _ _ _ Hok Hp C Hi) as (? & _ & _ & ? & _).
    + intros i j a b Hne Ha Hb Hsa Hsb.
      destruct (compacted_pointer _ _ _ _ _ _ _ Hok Hp C Ha) as (la & Hla & _ & _ & Esa).
      destruct (compacted_pointer _ _ _ _ _ _ _ Hok Hp C Hb) as (lb & Hlb & _ & _ & Esb).
      apply (cp_apart _ _ _ _ _ _ _ C (item_of i la) (item_of j lb)); try done;
        rewrite Hp; apply items_from_spec; [exists i, la|exists j, lb]; rewrite Z.add_0_l; split_and!; congruence.
  - apply view_ext; cbn [pd_linp pd_block set_bounds set_linp set_block]; [apply (cp_linp _ _ _ _ _ _ _ C)|].
    intros i lp lp' Hl Hl'. destruct (compacted_pointer _ _ _ _ _ _ _ Hok Hp C Hl') as (l2 & Hl2 & He & _).
    congruence.
Qed.
End compactify.

(** ** PageRepairFragmentation *)

Definition unused_count (linp : list ItemIdData) : Z := zlen (filter (fun lp => lp_flags lp = LP_UNUSED) linp).

Lemma repair_scan_spec upper special linp i s :
  special <= BLCKSZ -> 0 <= upper -> zlen (sc_items s) + zlen linp <= MaxHeapTuplesPerPage ->
  (forall j lp, zget linp j = Some lp -> lp_ok upper special lp) ->
  repair_scan upper special linp i s =
    Ret {| sc_linp := sc_linp s ++ linp; sc_items := sc_items s ++ items_from linp i;
           sc_total := sc_total s + total_len (items_from linp i); sc_unused := sc_unused s + unused_count linp |}.
Proof.
  intros Hsp Hup. revert i s. induction linp as [|lp linp IH]; intros i s Hc Hok; cbn [repair_scan items_from].
  { rewrite !app_nil_r. unfold total_len, unused_count. cbn. rewrite !Z.add_0_r. by destruct s. }
  assert (forall j lp, zget linp j = Some lp -> lp_ok upper special lp) as Hok'.
  { intros j lp' Hj. apply (Hok (j + 1)). pose proof (zget_Some_lt _ _ _ Hj). rewrite zget_cons.
    destruct (Z.eqb_spec (j + 1) 0); [lia|]. by rewrite Z.add_simpl_r. }
  destruct (Hok 0 lp) as [F U S]; [done|].
  assert (zlen (lp :: linp) = 1 + zlen linp) as Hz by (unfold zlen; cbn [length]; lia). rewrite Hz in Hc.
  pose proof (zlen_nonneg linp). unfold ItemIdIsUsed, unused_count. rewrite filter_cons.
  destruct (Z.eqb_spec (lp_flags lp) LP_UNUSED) as [Eu|Eu]; cbn [negb].
  - rewrite decide_True by done. pose proof (U Eu) as Elp. subst lp. cbn [app].
    change (ItemIdHasStorage ItemIdSetUnused) with false. cbn [app]. rewrite IH by (cbn [sc_items]; done || lia).
    cbn [sc_linp sc_items sc_total sc_unused]. rewrite <- app_assoc. cbn [app]. do 2 f_equal.
    unfold unused_count, zlen. cbn [length]. lia.
  - rewrite decide_False by done. destruct (ItemIdHasStorage lp) eqn:Es.
    + destruct (S eq_refl) as (S1 & S2 & _). apply has_storage in Es. unfold lp_end in S2.
      pose proof (maxalign_bounds (lp_len lp)) as Hm. unfold ItemIdGetOffset, ItemIdGetLength.
      page_consts. rewrite s16_small, u16_small by lia.
      assert ((zlen (sc_items s) <? MaxHeapTuplesPerPage) = true) as -> by lia. cbn [cbind c_assert].
      assert ((lp_off lp <? upper) || (special <=? lp_off lp) = false) as -> by lia.
      rewrite IH; cbn [sc_items sc_linp sc_total sc_unused]; [| |done].
      * rewrite <- !app_assoc. cbn [app]. do 2 f_equal. cbn [total_len foldr alignedlen item_of].
        unfold total_len. lia.
      * rewrite zlen_app. change (zlen [?x]) with 1. lia.
    + rewrite IH; cbn [sc_items sc_linp sc_total sc_unused]; [|lia|done]. by rewrite <- !app_assoc.
Qed.

(** ** Adding an item *)

Lemma zget_splice {A} (l : list A) x k k' i :
  0 <= k <= zlen l -> 0 <= k' ->
  zget (take (Z.to_nat k) l ++ x :: drop (Z.to_nat k') l) i =
    if i <? k then zget l i else if i =? k then Some x else zget l (i - 1 - k + k').
Proof.
  intros Hk Hk'. destruct (Z.ltb_spec i 0) as [Hi|Hi].
  { unfold zget. destruct (Z.ltb_spec i 0), (Z.ltb_spec i k); done || lia. }
  assert (zlen (take (Z.to_nat k) l) = k) as Hl by (unfold zlen in *; rewrite length_take; lia).
  rewrite zget_app, Hl by done. destruct (Z.ltb_spec i k).
  - unfold zget. destruct (i <? 0); [done|]. apply lookup_take_lt. lia.
  - rewrite zget_cons. destruct (Z.eqb_spec (i - k) 0), (Z.eqb_spec i k); try lia; [done|].
    unfold zget. destruct (Z.ltb_spec (i - k - 1) 0), (Z.ltb_spec (i - 1 - k + k') 0); try lia.
    rewrite lookup_drop. f_equal. lia.
Qed.

Lemma zset_splice {A} (l : list A) i x :
  0 <= i < zlen l -> zset l i x = Some (take (Z.to_nat i) l ++ x :: drop (Z.to_nat (i + 1)) l).
Proof.
  intros Hi. destruct (zset_is_Some l i x Hi) as [l' E]. rewrite E. apply zset_Some in E as [_ ->].
  rewrite insert_take_drop by (unfold zlen in Hi; lia). by replace (Z.to_nat (i + 1)) with (S (Z.to_nat i)) by lia.
Qed.

Lemma zlen_splice {A} (l : list A) x k k' :
  0 <= k <= k' -> k' <= zlen l -> zlen (take (Z.to_nat k) l ++ x :: drop (Z.to_nat k') l) = zlen l + 1 + k - k'.
Proof. unfold zlen. intros. rewrite length_app. cbn [length]. rewrite length_take, length_drop. lia. Qed.

Lemma entries_ext block block' linp :
  (forall i lp, zget linp i = Some lp -> entry_of block' lp = entry_of block lp) ->
  entry_of block' <$> linp = entry_of block <$> linp.
Proof.
  intros H. apply zget_ext; rewrite !zlen_fmap; [done|]. intros i Hi. rewrite !zget_fmap.
  destruct (zget_is_Some linp i Hi) as [lp E]. rewrite E. cbn. f_equal. eauto.
Qed.

(** A write below the items leaves them alone. *)
Lemma entry_put_below p lp off bs :
  page_ok p -> lp_ok (pd_upper p) (pd_special p) lp -> 0 <= off -> off + zlen bs <= pd_upper p ->
  entry_of (put_bytes (pd_block p) off bs) lp = entry_of (pd_block p) lp.
Proof.
  intros Hok [F U S] Ho Hb. unfold entry_of. destruct (ItemIdHasStorage lp) eqn:E; [|done]. f_equal.
  destruct (S eq_refl) as (S1 & S2 & _). unfold lp_end in S2. pose proof (maxalign_bounds (lp_len lp)).
  destruct (po_bounds p Hok). pose proof (po_block p Hok). apply get_put_other; lia.
Qed.

Section add.
Context (p : Page) (item : list Z) (size k k' : Z).
Let upper := pd_upper p - MAXALIGN size.
Let new := ItemIdSetNormal upper size.
Let linp := take (Z.to_nat k) (pd_linp p) ++ new :: drop (Z.to_nat k') (pd_linp p).
Let lower := SizeOfPageHeaderData + sizeof_ItemIdData * zlen linp.
Let block := put_bytes (pd_block p) upper (take (Z.to_nat size) item).
Let p' := set_bounds (set_block (set_linp p linp) block) lower upper.
Hypothesis Hok : page_ok p.
Hypothesis Hsize : 0 < size <= zlen item.
Hypothesis Hk : 0 <= k <= zlen (pd_linp p) /\ k <= k' <= k + 1.
Hypothesis Hfit : lower <= upper.

Lemma add_sizes :
  size <= MAXALIGN size /\ 0 <= lower /\ pd_upper p <= BLCKSZ /\ upper mod 8 = 0 /\
  lp_off new = upper /\ lp_len new = size /\ lp_flags new = LP_NORMAL /\
  zlen (take (Z.to_nat size) item) = size /\ lp_end new = pd_upper p.
Proof.
  pose proof (maxalign_bounds size) as Hm. destruct (po_bounds p Hok), (po_aligned p Hok).
  pose proof (zlen_nonneg linp). unfold new, ItemIdSetNormal, lp_end, upper, lower in *. page_consts.
  cbn [lp_off lp_len lp_flags]. rewrite !u15_small by lia.
  split_and!; try lia; [|unfold zlen in *; rewrite length_take; lia].
  rewrite Zminus_mod. replace (pd_upper p mod 8) with 0 by lia. replace (MAXALIGN size mod 8) with 0 by lia. done.
Qed.

Lemma add_old lp : lp_ok (pd_upper p) (pd_special p) lp -> entry_of block lp = entry_of (pd_block p) lp.
Proof. intros Hlp. destruct add_sizes as (A1 & A2 & A3 & A4 & A5 & A6 & A7 & A8 & A9). apply entry_put_below; lia || done. Qed.

Lemma add_new : entry_of block new = Stored LP_NORMAL (take (Z.to_nat size) item).
Proof.
  destruct add_sizes as (A1 & A2 & A3 & A4 & A5 & A6 & A7 & A8 & A9). unfold entry_of.
  assert (ItemIdHasStorage new = true) as -> by (apply has_storage; lia). rewrite A5, A6, A7. f_equal.
  unfold block. rewrite <- A8 at 2. apply get_put_same; [lia|]. rewrite (po_block p Hok). lia.
Qed.

Lemma add_view :
  view p' = take (Z.to_nat k) (view p) ++ Stored LP_NORMAL (take (Z.to_nat size) item) :: drop (Z.to_nat k') (view p).
Proof.
  unfold view, p'. cbn [pd_linp pd_block set_bounds set_block set_linp]. unfold linp.
  rewrite fmap_app, fmap_cons, add_new, !fmap_take, !fmap_drop.
  rewrite (entries_ext (pd_block p) block (pd_linp p)); [done|].
  intros i lp Hi. apply add_old, (po_items p Hok i lp Hi).
Qed.

Lemma add_zget i lp :
  zget linp i = Some lp -> (i = k /\ lp = new) \/
    (i <> k /\ zget (pd_linp p) (if i <? k then i else i - 1 - k + k') = Some lp).
Proof.
  unfold linp. rewrite zget_splice by lia. destruct (Z.ltb_spec i k); [intuition lia|].
  destruct (Z.eqb_spec i k); [intros [= <-]; by left|by right].
Qed.

Lemma add_page_ok : page_ok p'.
Proof.
  destruct add_sizes as (A1 & A2 & A3 & A4 & A5 & A6 & A7 & A8 & A9). pose proof Hok as [Ol Ob Oa Obl Oi Oap].
  assert (u16 lower = lower /\ u16 upper = upper) as [El Eu] by (split; apply u16_small; page_consts; lia).
  assert (forall i lp, zget (pd_linp p) i = Some lp -> ItemIdHasStorage lp = true -> lp_end new <= lp_off lp) as Hclear.
  { intros i lp Hi Hs. destruct (Oi i lp Hi) as [_ _ S]. destruct (S Hs). lia. }
  split; unfold p'; cbn [pd_lower pd_upper pd_special pd_linp pd_block set_bounds set_block set_linp]; rewrite ?El, ?Eu.
  - done.
  - lia.
  - tauto.
  - unfold block. rewrite zlen_put_bytes; lia.
  - intros i lp [[_ ->]|[_ Hi]]%add_zget.
    + split; rewrite ?A5, ?A6, ?A7, ?A9; [page_consts; unfold LP_NORMAL; lia|done|intros _; lia].
    + destruct (Oi _ _ Hi) as [F U S]. split; [done|done|]. intros Hs. destruct (S Hs). lia.
  - intros i j a b Hne [[-> ->]|[Hi Ha]]%add_zget [[-> ->]|[Hj Hb]]%add_zget; [done| | |].
    + intros _ Hs. left. eauto.
    + intros Hs _. right. eauto.
    + eapply Oap; [|done..]. destruct (Z.ltb_spec i k), (Z.ltb_spec j k); lia.
Qed.
End add.
