(* ===== verification/BufPageIndex.v ===== *)
(** Deleting and overwriting items of index pages ([storage/page/bufpage.c]):
    an item's data is taken out and everything below it moved by the
    difference. *)
From stdpp Require Import sorting.
From S2P Require Import Prelude BufPage BufPageProofs.

(** ** Moving the data below an item *)

(** The block with the data between [pd_upper] and [offset] moved by [diff]. *)
Definition moved_block (p : Page) (offset diff : Z) : list Z :=
  put_bytes (pd_block p) (pd_upper p + diff) (get_bytes (pd_block p) (pd_upper p) (offset - pd_upper p)).

(** A line pointer after the move. *)
Definition shift (offset diff : Z) (lp : ItemIdData) : ItemIdData :=
  if ItemIdHasStorage lp && (ItemIdGetOffset lp <=? offset) then set_lp_off lp (lp_off lp + diff) else lp.

Section shift.
Context (p : Page) (t : Z) (tup : ItemIdData) (diff : Z).
Let upper := pd_upper p + diff.
Let offset := lp_off tup.
Let block := moved_block p offset diff.
Hypothesis Hok : page_ok p.
Hypothesis Htup : zget (pd_linp p) t = Some tup.
Hypothesis Hstored : ItemIdHasStorage tup = true.
Hypothesis Hdiff : 0 <= upper /\ diff <= MAXALIGN (lp_len tup) /\ diff mod 8 = 0.

Lemma shift_tup :
  pd_upper p <= offset /\ lp_end tup <= pd_special p /\ lp_end tup = offset + MAXALIGN (lp_len tup) /\
  0 < MAXALIGN (lp_len tup) /\ 0 <= pd_upper p /\ pd_special p <= 8192.
Proof using Hok Htup Hstored.
  clear Hdiff block upper diff.
  destruct (po_items p Hok t tup Htup) as [F U S]. destruct (S Hstored) as (S1 & S2 & _).
  pose proof (maxalign_bounds (lp_len tup)). apply has_storage in Hstored. destruct (po_bounds p Hok).
  pose proof (po_lower p Hok). pose proof (zlen_nonneg (pd_linp p)). unfold offset. page_consts.
  split_and!; done || lia.
Qed.

(** Where another item lies, before and after. *)
Lemma shift_cases i lp :
  i <> t -> zget (pd_linp p) i = Some lp -> ItemIdHasStorage lp = true ->
  (lp_end lp <= offset /\ lp_off lp <= offset /\ lp_off (shift offset diff lp) = lp_off lp + diff /\
   lp_end (shift offset diff lp) = lp_end lp + diff) \/
  (lp_end tup <= lp_off lp /\ shift offset diff lp = lp).
Proof.
  intros Hne Hi Hs. destruct shift_tup as (T1 & T2 & T3 & T4 & T5 & T6).
  destruct (po_items p Hok i lp Hi) as [F U S]. destruct (S Hs) as (S1 & S2 & _).
  pose proof (maxalign_bounds (lp_len lp)) as Hm. pose proof (proj1 (has_storage lp) Hs). unfold lp_end in S2.
  pose proof (po_apart p Hok i t lp tup Hne Hi Htup Hs Hstored) as Hap. unfold lp_end in Hap at 1.
  unfold shift. rewrite Hs. unfold ItemIdGetOffset. unfold offset in *.
  destruct (Z.leb_spec (lp_off lp) (lp_off tup)); cbn [andb].
  - left. assert (u15 (lp_off lp + diff) = lp_off lp + diff) as Hu by (apply u15_small; unfold upper in *; lia).
    rewrite set_lp_off_end by done. cbn [lp_off set_lp_off]. rewrite Hu. unfold lp_end. lia.
  - right. split; [lia|done].
Qed.

Lemma shift_storage lp : ItemIdHasStorage (shift offset diff lp) = ItemIdHasStorage lp.
Proof. unfold shift. by destruct (_ && _). Qed.

Lemma shift_fields lp :
  lp_len (shift offset diff lp) = lp_len lp /\ lp_flags (shift offset diff lp) = lp_flags lp /\
  (ItemIdHasStorage lp = false -> shift offset diff lp = lp).
Proof. unfold shift. destruct (ItemIdHasStorage lp); cbn [andb]; [|done]. by destruct (ItemIdGetOffset lp <=? offset). Qed.

Lemma shift_entry i lp :
  i <> t -> zget (pd_linp p) i = Some lp ->
  entry_of block (shift offset diff lp) = entry_of (pd_block p) lp.
Proof.
  intros Hne Hi. destruct shift_tup as (T1 & T2 & T3 & T4 & T5 & T6).
  destruct (shift_fields lp) as (Fl & Ff & Fs). unfold entry_of. rewrite shift_storage.
  destruct (ItemIdHasStorage lp) eqn:Es; [|by rewrite Fs]. rewrite Fl, Ff. f_equal.
  destruct (po_items p Hok i lp Hi) as [F U S]. destruct (S Es) as (S1 & S2 & _).
  pose proof (maxalign_bounds (lp_len lp)) as Hm. pose proof (po_block p Hok) as Hbl. unfold lp_end in *. page_consts.
  assert (zlen (get_bytes (pd_block p) (pd_upper p) (offset - pd_upper p)) = offset - pd_upper p) as Hz
    by (apply zlen_get_bytes; lia).
  destruct (shift_cases i lp Hne Hi Es) as [(C1 & C2 & C3 & C4)|[C1 C2]]; unfold lp_end in *.
  - rewrite C3. replace (lp_off lp + diff) with (lp_off lp + (upper - pd_upper p)) by (unfold upper; lia).
    unfold block, moved_block. apply get_put_moved; unfold upper in *; lia.
  - rewrite C2. unfold block, moved_block. apply get_put_other; unfold upper in *; lia.
Qed.

Lemma shift_lp_ok i lp :
  i <> t -> zget (pd_linp p) i = Some lp -> lp_ok upper (pd_special p) (shift offset diff lp).
Proof.
  intros Hne Hi. destruct shift_tup as (T1 & T2 & T3 & T4 & T5 & T6).
  destruct (po_items p Hok i lp Hi) as [F U S]. destruct (shift_fields lp) as (Fl & Ff & Fs).
  destruct (ItemIdHasStorage lp) eqn:Es.
  2: { rewrite Fs by done. split; [done|done|congruence]. }
  destruct (S eq_refl) as (S1 & S2 & S3).
  split; rewrite ?Fl, ?Ff, ?shift_storage.
  - destruct (shift_cases i lp Hne Hi Es) as [(C1 & C2 & C3 & C4)|[C1 C2]]; [|by rewrite C2].
    rewrite C3. unfold upper in *. lia.
  - intros Hu. by rewrite (U Hu) in Es.
  - intros _. destruct (shift_cases i lp Hne Hi Es) as [(C1 & C2 & C3 & C4)|[C1 C2]]; [|rewrite C2; unfold upper; lia].
    rewrite C3, C4. split_and!; [unfold upper; lia|lia|]. rewrite Zplus_mod, S3. by destruct Hdiff as (_ & _ & ->).
Qed.

Lemma shift_block : zlen block = BLCKSZ.
Proof.
  destruct shift_tup as (T1 & T2 & T3 & T4 & T5 & T6). pose proof (po_block p Hok).
  assert (zlen (get_bytes (pd_block p) (pd_upper p) (offset - pd_upper p)) = offset - pd_upper p) as Hz
    by (apply zlen_get_bytes; page_consts; lia).
  unfold block, moved_block. rewrite zlen_put_bytes; unfold upper in *; page_consts; lia.
Qed.

(** What is put in the place of the item must stay in its space. *)
Definition in_place (lp : ItemIdData) : Prop :=
  lp_ok upper (pd_special p) lp /\
  (ItemIdHasStorage lp = true -> offset + diff <= lp_off lp /\ lp_end lp <= lp_end tup).

Lemma shift_apart_place i lp lp' :
  i <> t -> zget (pd_linp p) i = Some lp -> in_place lp' -> apart (shift offset diff lp) lp'.
Proof.
  intros Hne Hi [_ Hin] Hs Hs'. rewrite shift_storage in Hs. destruct (Hin Hs').
  destruct (shift_cases i lp Hne Hi Hs) as [(C1 & C2 & C3 & C4)|[C1 C2]]; [left; lia|right; rewrite C2; lia].
Qed.

Lemma shift_apart i j a b :
  i <> t -> j <> t -> i <> j -> zget (pd_linp p) i = Some a -> zget (pd_linp p) j = Some b ->
  apart (shift offset diff a) (shift offset diff b).
Proof.
  intros Hit Hjt Hij Ha Hb Hsa Hsb. rewrite shift_storage in Hsa, Hsb.
  destruct shift_tup as (T1 & T2 & T3 & T4 & T5 & T6).
  pose proof (po_apart p Hok i j a b Hij Ha Hb Hsa Hsb).
  destruct (shift_cases i a Hit Ha Hsa) as [(C1 & C2 & C3 & C4)|[C1 C2]],
    (shift_cases j b Hjt Hb Hsb) as [(D1 & D2 & D3 & D4)|[D1 D2]]; rewrite ?C2, ?D2; lia.
Qed.

(** A page whose line pointers are the moved ones, with something harmless in
    the place of the item, if anything. *)
Lemma shift_page_ok linp' lower' (idx : Z -> Z) :
  (forall i j, idx i = idx j -> i = j) ->
  (forall i lp', zget linp' i = Some lp' ->
    (idx i = t /\ in_place lp') \/
    (idx i <> t /\ exists lp, zget (pd_linp p) (idx i) = Some lp /\ lp' = shift offset diff lp)) ->
  lower' = SizeOfPageHeaderData + sizeof_ItemIdData * zlen linp' -> lower' <= upper ->
  page_ok (set_linp (set_bounds (set_block p block) lower' upper) linp').
Proof.
  intros Hinj Hsrc Hlow Hfit. destruct shift_tup as (T1 & T2 & T3 & T4 & T5 & T6).
  pose proof (zlen_nonneg linp'). pose proof Hok as [Ol Ob Oa Obl Oi Oap]. page_consts.
  assert (u16 lower' = lower' /\ u16 upper = upper) as [El Eu] by (split; apply u16_small; unfold upper in *; lia).
  split; cbn [pd_lower pd_upper pd_special pd_linp pd_block set_bounds set_block set_linp]; rewrite ?El, ?Eu.
  - done.
  - unfold upper in *. page_consts. lia.
  - unfold upper. rewrite Zplus_mod. destruct Oa as [-> Oa], Hdiff as (_ & _ & ->). done.
  - apply shift_block.
  - intros i lp' [[_ [? _]]|(Hne & lp & Hi & ->)]%Hsrc; [done|by eapply shift_lp_ok].
  - intros i j a b Hne [[Ei Ha]|(Hi & la & Hla & ->)]%Hsrc [[Ej Hb]|(Hj & lb & Hlb & ->)]%Hsrc.
    + exfalso. apply Hne, Hinj. congruence.
    + intros Hsa Hsb. destruct (shift_apart_place (idx j) lb a Hj Hlb Ha Hsb Hsa); [by right|by left].
    + by eapply shift_apart_place.
    + apply (shift_apart (idx i) (idx j)); try done. intros E. apply Hne, Hinj, E.
Qed.
End shift.

(** ** Line pointer arrays *)

Lemma zget_cut {A} (l : list A) t i :
  0 <= t < zlen l ->
  zget (take (Z.to_nat t) l ++ drop (Z.to_nat (t + 1)) l) i = zget l (if i <? t then i else i + 1).
Proof.
  intros Ht. destruct (Z.ltb_spec i 0).
  { destruct (Z.ltb_spec i t); [|lia]. unfold zget. by destruct (Z.ltb_spec i 0); [|lia]. }
  rewrite zget_app, zlen_take by lia. destruct (Z.ltb_spec i t).
  - rewrite zget_take by lia. by destruct (Z.ltb_spec i t); [|lia].
  - unfold zget. destruct (Z.ltb_spec (i - t) 0), (Z.ltb_spec (i + 1) 0); try lia. rewrite lookup_drop. f_equal. lia.
Qed.

Lemma zget_cut_Some {A} (l : list A) t :
  0 <= t < zlen l -> forall i x, zget (take (Z.to_nat t) l ++ drop (Z.to_nat (t + 1)) l) i = Some x ->
  (if i <? t then i else i + 1) <> t /\ zget l (if i <? t then i else i + 1) = Some x.
Proof.
  intros Ht i x. rewrite zget_cut by done. intros ->. split; [|done]. destruct (Z.ltb_spec i t); lia.
Qed.

Lemma zlen_cut {A} (l : list A) t :
  0 <= t < zlen l -> zlen (take (Z.to_nat t) l ++ drop (Z.to_nat (t + 1)) l) = zlen l - 1.
Proof. unfold zlen. intros. rewrite length_app, length_take, length_drop. lia. Qed.

Lemma fmap_ext_zget {A B} (f g : A -> B) (l : list A) :
  (forall i x, zget l i = Some x -> f x = g x) -> f <$> l = g <$> l.
Proof.
  intros H. apply list_fmap_ext. intros i x Hx. apply (H (Z.of_nat i)). unfold zget.
  destruct (Z.ltb_spec (Z.of_nat i) 0); [lia|]. by rewrite Nat2Z.id.
Qed.

(** ** The routines *)

(** The page of a routine, past its sanity checks. *)
Lemma close_gap_ret p lo t tup :
  page_ok p -> zget (pd_linp p) t = Some tup -> ItemIdHasStorage tup = true -> lo <= pd_upper p ->
  close_gap p lo (lp_off tup) (MAXALIGN (lp_len tup)) =
    Ret (moved_block p (lp_off tup) (MAXALIGN (lp_len tup))).
Proof.
  intros Hok Ht Hs Hlo. destruct (shift_tup p t tup Hok Ht Hs) as (T1 & T2 & T3 & T4 & T5 & T6).
  unfold close_gap, moved_block. destruct (Z.ltb_spec (pd_upper p) (lp_off tup)).
  - apply memmove_ret; page_consts; lia.
  - replace (lp_off tup - pd_upper p) with 0 by lia. unfold get_bytes, put_bytes. change (Z.to_nat 0) with 0%nat.
    rewrite take_0. cbn [app length]. by rewrite Nat.add_0_r, take_drop.
Qed.

Lemma item_checked p t tup :
  page_ok p -> zget (pd_linp p) t = Some tup -> ItemIdHasStorage tup = true ->
  corrupted_item p (ItemIdGetOffset tup) (ItemIdGetLength tup) = false.
Proof.
  intros Hok Ht Hs. destruct (shift_tup p t tup Hok Ht Hs) as (T1 & T2 & T3 & T4 & T5 & T6).
  destruct (po_items p Hok t tup Ht) as [F _ S]. destruct (S Hs) as (S1 & S2 & S3).
  unfold corrupted_item, ItemIdGetOffset, ItemIdGetLength. rewrite (maxalign_aligned (lp_off tup)) by lia.
  pose proof (maxalign_bounds (lp_len tup)). lia.
Qed.

Lemma adjust_all_shift linp offset size :
  (forall i lp, zget linp i = Some lp -> ItemIdHasStorage lp = true) ->
  adjust_all linp offset size = Ret (shift offset size <$> linp).
Proof.
  induction linp as [|lp linp IH]; intros H; cbn [adjust_all]; [done|].
  pose proof (H 0 lp eq_refl) as Hs. rewrite Hs. cbn [c_assert cbind]. rewrite IH.
  - cbn [cbind fmap list_fmap]. unfold shift at 2. by rewrite Hs.
  - intros i lp' Hi. apply (H (i + 1)). pose proof (zget_Some_lt _ _ _ Hi). rewrite zget_cons.
    destruct (Z.eqb_spec (i + 1) 0); [lia|]. by rewrite Z.add_simpl_r.
Qed.

(** The loop over the line pointers, skipped on an empty page. *)
Lemma adjust_after p offset size :
  pd_lower p = SizeOfPageHeaderData + sizeof_ItemIdData * zlen (pd_linp p) ->
  (forall i lp, zget (pd_linp p) i = Some lp -> ItemIdHasStorage lp = true) ->
  (if negb (PageIsEmpty p) then let* linp := adjust_all (pd_linp p) offset size in Ret (set_linp p linp) else Ret p) =
  Ret (set_linp p (shift offset size <$> pd_linp p)).
Proof.
  intros Hl H. unfold PageIsEmpty. rewrite Hl. page_consts.
  destruct (Z.leb_spec (24 + 4 * zlen (pd_linp p)) 24); cbn [negb].
  - assert (pd_linp p = []) as E by (destruct (pd_linp p); [done|unfold zlen in *; cbn [length] in *; lia]).
    rewrite E. cbn [fmap list_fmap]. f_equal. destruct p; by cbn in E; subst.
  - by rewrite adjust_all_shift.
Qed.

(** Every item has storage. *)
Definition all_stored (p : Page) : Prop := forall i lp, zget (pd_linp p) i = Some lp -> ItemIdHasStorage lp = true.

Lemma tuple_delete p offnum :
  page_ok p -> all_stored p -> 1 <= offnum <= zlen (pd_linp p) ->
  exists p', PageIndexTupleDelete p offnum = Ret p' /\ page_ok p' /\ all_stored p' /\
    view p' = take (Z.to_nat (offnum - 1)) (view p) ++ drop (Z.to_nat offnum) (view p) /\
    zlen (pd_linp p') = zlen (pd_linp p) - 1.
Proof.
  intros Hok Hall Ho. unfold PageIndexTupleDelete. rewrite not_corrupted, special_aligned, max_offset_number by done.
  cbn [orb negb]. assert ((offnum <=? 0) || (zlen (pd_linp p) <? offnum) = false) as -> by lia.
  destruct (zget_is_Some (pd_linp p) (offnum - 1)) as [tup Ht]; [lia|].
  pose proof (Hall _ _ Ht) as Hs. unfold PageGetItemId. rewrite Ht. cbn [deref cbind]. rewrite Hs. cbn [c_assert cbind].
  rewrite (item_checked p _ tup Hok Ht Hs). unfold ItemIdGetOffset, ItemIdGetLength.
  destruct (shift_tup p _ tup Hok Ht Hs) as (T1 & T2 & T3 & T4 & T5 & T6). destruct (po_bounds p Hok) as [B1 B2].
  pose proof (po_lower p Hok) as Hlow.
  rewrite (close_gap_ret p _ _ tup Hok Ht Hs) by (page_consts; lia). cbn [cbind].
  replace (Z.to_nat offnum) with (Z.to_nat (offnum - 1 + 1)) by (f_equal; lia).
  set (linp := take _ (pd_linp p) ++ drop _ (pd_linp p)).
  pose proof (zget_cut_Some (pd_linp p) (offnum - 1)) as Hsrc. specialize (Hsrc ltac:(lia)). fold linp in Hsrc.
  assert (zlen linp = zlen (pd_linp p) - 1) as Hlen by (apply zlen_cut; lia).
  set (lower := pd_lower p - sizeof_ItemIdData).
  assert (lower = SizeOfPageHeaderData + sizeof_ItemIdData * zlen linp) as El by (unfold lower; page_consts; lia).
  match goal with |- context [set_bounds ?q lower ?u] => set (p0 := set_bounds q lower u) end.
  assert (pd_lower p0 = lower) as Elo by (apply u16_small; pose proof (zlen_nonneg linp); page_consts; lia).
  rewrite (adjust_after p0); [|by rewrite Elo|intros i lp [_ Hi]%Hsrc; by eapply Hall].
  assert (0 <= pd_upper p + MAXALIGN (lp_len tup) /\ MAXALIGN (lp_len tup) <= MAXALIGN (lp_len tup) /\
          MAXALIGN (lp_len tup) mod 8 = 0) as Hd by (split_and!; [lia|lia|apply maxalign_mod]).
  eexists. split; [done|]. split_and!.
  - apply (shift_page_ok p (offnum - 1) tup (MAXALIGN (lp_len tup)) Hok Ht Hs Hd) with
      (idx := fun i => if i <? offnum - 1 then i else i + 1).
    + intros i j. destruct (Z.ltb_spec i (offnum - 1)), (Z.ltb_spec j (offnum - 1)); lia.
    + intros i lp'. change (pd_linp p0) with linp. rewrite zget_fmap.
      destruct (zget linp i) as [lp|] eqn:E; [|done]. intros [= <-]. right. destruct (Hsrc i lp E). eauto.
    + change (pd_linp p0) with linp. by rewrite zlen_fmap.
    + unfold lower. page_consts. lia.
  - intros i lp'. cbn [pd_linp set_linp]. change (pd_linp p0) with linp. rewrite zget_fmap.
    destruct (zget linp i) as [lp|] eqn:E; [|done]. intros [= <-]. destruct (Hsrc i lp E) as [_ Hi].
    rewrite shift_storage. by eapply Hall.
  - unfold view. cbn [pd_linp pd_block set_linp]. change (pd_linp p0) with linp. rewrite <- list_fmap_compose.
    rewrite (fmap_ext_zget _ (entry_of (pd_block p)) linp).
    + unfold linp. by rewrite fmap_app, fmap_take, fmap_drop.
    + intros i lp [Hne Hi]%Hsrc. exact (shift_entry p _ tup _ Hok Ht Hs Hd _ lp Hne Hi).
  - cbn [pd_linp set_linp]. rewrite zlen_fmap. done.
Qed.

Lemma adjust_stored_shift linp offset size : adjust_stored linp offset size = shift offset size <$> linp.
Proof. done. Qed.

(** The same for a loop that skips items without storage. *)
Lemma adjust_stored_after p offset size :
  pd_lower p = SizeOfPageHeaderData + sizeof_ItemIdData * zlen (pd_linp p) ->
  (if negb (PageIsEmpty p) then Ret (set_linp p (adjust_stored (pd_linp p) offset size)) else Ret p) =
  Ret (set_linp p (shift offset size <$> pd_linp p)).
Proof.
  intros Hl. unfold PageIsEmpty. rewrite Hl. page_consts.
  destruct (Z.leb_spec (24 + 4 * zlen (pd_linp p)) 24); cbn [negb]; [|done].
  assert (pd_linp p = []) as E by (destruct (pd_linp p); [done|unfold zlen in *; cbn [length] in *; lia]).
  rewrite E. cbn [fmap list_fmap]. f_equal. destruct p; by cbn in E; subst.
Qed.

(** The line pointers [PageIndexTupleDeleteNoCompact] keeps. *)
Definition unlink {A} (l : list A) (offnum : Z) (x : A) : list A :=
  if offnum <? zlen l then take (Z.to_nat (offnum - 1)) l ++ x :: drop (Z.to_nat offnum) l
  else take (Z.to_nat (offnum - 1)) l.

Lemma zget_unlink {A} (l : list A) offnum x i y :
  1 <= offnum <= zlen l -> zget (unlink l offnum x) i = Some y ->
  (i = offnum - 1 /\ y = x) \/ (i <> offnum - 1 /\ zget l i = Some y).
Proof.
  intros Ho. unfold unlink. destruct (Z.ltb_spec offnum (zlen l)).
  - rewrite zget_splice by lia. destruct (Z.ltb_spec i (offnum - 1)); [intuition lia|].
    destruct (Z.eqb_spec i (offnum - 1)); [intros [= <-]; by left|].
    replace (i - 1 - (offnum - 1) + offnum) with i by lia. by right.
  - rewrite zget_take by lia. destruct (Z.ltb_spec i (offnum - 1)); [intuition lia|done].
Qed.

Lemma fmap_take_ext {A B} (f g : A -> B) l k :
  0 <= k -> (forall i y, i < k -> zget l i = Some y -> f y = g y) -> f <$> take (Z.to_nat k) l = take (Z.to_nat k) (g <$> l).
Proof.
  intros Hk H. rewrite <- fmap_take. apply fmap_ext_zget. intros i x. rewrite zget_take by done.
  destruct (Z.ltb_spec i k); [|done]. by apply H.
Qed.

Lemma fmap_drop_ext {A B} (f g : A -> B) l k :
  0 <= k -> (forall i y, k <= i -> zget l i = Some y -> f y = g y) -> f <$> drop (Z.to_nat k) l = drop (Z.to_nat k) (g <$> l).
Proof.
  intros Hk H. rewrite <- fmap_drop. apply list_fmap_ext. intros i x. rewrite lookup_drop. intros Hx.
  apply (H (k + Z.of_nat i)); [lia|]. unfold zget. destruct (Z.ltb_spec (k + Z.of_nat i) 0); [lia|].
  by replace (Z.to_nat (k + Z.of_nat i)) with (Z.to_nat k + i)%nat by lia.
Qed.

Lemma fmap_unlink {A B} (f g : A -> B) l offnum x :
  1 <= offnum -> (forall i y, i <> offnum - 1 -> zget l i = Some y -> f y = g y) ->
  f <$> unlink l offnum x = unlink (g <$> l) offnum (f x).
Proof.
  intros Ho H. unfold unlink. rewrite zlen_fmap. destruct (offnum <? zlen l); rewrite ?fmap_app, ?fmap_cons.
  - rewrite (fmap_take_ext f g), (fmap_drop_ext f g); [done|lia| |lia|]; intros i y Hi; apply H; lia.
  - apply fmap_take_ext; [lia|]. intros i y Hi. apply H; lia.
Qed.

Lemma zlen_unlink {A} (l : list A) offnum x :
  1 <= offnum <= zlen l -> zlen (unlink l offnum x) = if offnum <? zlen l then zlen l else zlen l - 1.
Proof.
  intros Ho. unfold unlink. destruct (Z.ltb_spec offnum (zlen l)).
  - unfold zlen in *. rewrite length_app. cbn [length]. rewrite length_take, length_drop. lia.
  - rewrite zlen_take; lia.
Qed.

Lemma tuple_delete_no_compact p offnum tup :
  page_ok p -> zget (pd_linp p) (offnum - 1) = Some tup -> ItemIdHasStorage tup = true ->
  exists p', PageIndexTupleDeleteNoCompact p offnum = Ret p' /\ page_ok p' /\
    view p' = unlink (view p) offnum (NoStorage LP_UNUSED 0).
Proof.
  intros Hok Ht Hs. pose proof (zget_Some_lt _ _ _ Ht) as Ho. unfold PageIndexTupleDeleteNoCompact.
  rewrite not_corrupted, special_aligned, max_offset_number by done.
  cbn [orb negb]. assert ((offnum <=? 0) || (zlen (pd_linp p) <? offnum) = false) as -> by lia.
  unfold PageGetItemId. rewrite Ht. cbn [deref cbind]. rewrite Hs. cbn [c_assert cbind].
  rewrite (item_checked p _ tup Hok Ht Hs). unfold ItemIdGetOffset, ItemIdGetLength.
  destruct (shift_tup p _ tup Hok Ht Hs) as (T1 & T2 & T3 & T4 & T5 & T6). destruct (po_bounds p Hok) as [B1 B2].
  pose proof (po_lower p Hok) as Hlow.
  set (linp := unlink (pd_linp p) offnum ItemIdSetUnused).
  set (lower := SizeOfPageHeaderData + sizeof_ItemIdData * zlen linp).
  assert (pd_lower p - 4 <= lower <= pd_lower p) as Hl1.
  { unfold lower, linp. rewrite zlen_unlink by lia. page_consts. destruct (offnum <? zlen (pd_linp p)); lia. }
  match goal with |- context [cbind ?c _] => replace c with (Ret (linp, lower)) end.
  2: { unfold lower, linp. rewrite zlen_unlink by lia. unfold unlink. destruct (Z.ltb_spec offnum (zlen (pd_linp p))).
       - rewrite zset_splice by lia. cbn [deref cbind]. replace (offnum - 1 + 1) with offnum by lia. by rewrite Hlow.
       - do 2 f_equal. page_consts. lia. }
  cbn [cbind]. rewrite (close_gap_ret p _ _ tup Hok Ht Hs) by lia. cbn [cbind].
  assert (0 <= pd_upper p + MAXALIGN (lp_len tup) /\ MAXALIGN (lp_len tup) <= MAXALIGN (lp_len tup) /\
          MAXALIGN (lp_len tup) mod 8 = 0) as Hd by (split_and!; [lia|lia|apply maxalign_mod]).
  pose proof (zlen_nonneg linp).
  rewrite adjust_stored_after; [|change (u16 lower = lower); apply u16_small; unfold lower in *; page_consts; lia].
  eexists. split; [done|]. split.
  - apply (shift_page_ok p _ tup _ Hok Ht Hs Hd) with (idx := fun i => i).
    + done.
    + intros i lp'. cbn [pd_linp set_bounds set_block set_linp]. rewrite zget_fmap.
      destruct (zget linp i) as [lp|] eqn:E; [|done]. intros [= <-].
      apply zget_unlink in E as [[-> ->]|[Hne Hi]]; [left|right; eauto|lia].
      split; [done|]. by split; [split|].
    + unfold lower. cbn [pd_linp set_bounds set_block set_linp]. by rewrite zlen_fmap.
    + lia.
  - unfold view. cbn [pd_linp pd_block set_linp set_bounds set_block]. rewrite <- list_fmap_compose.
    unfold linp. rewrite (fmap_unlink _ (entry_of (pd_block p))); [done|lia|]. intros i lp Hne Hi.
    exact (shift_entry p _ tup _ Hok Ht Hs Hd i lp Hne Hi).
Qed.

(** Moving by nothing is no move. *)
Lemma put_get_same block o l :
  0 <= o -> 0 <= l -> o + l <= zlen block -> put_bytes block o (get_bytes block o l) = block.
Proof.
  intros. assert (zlen (get_bytes block o l) = l) as Hz by (by apply zlen_get_bytes).
  apply zget_ext; rewrite zlen_put_bytes by lia; [done|]. intros i Hi. rewrite zget_put_bytes, Hz by lia.
  destruct (Z.leb_spec o i), (Z.ltb_spec i (o + l)); cbn [andb]; try done. rewrite zget_get_bytes by done.
  destruct (Z.leb_spec 0 (i - o)), (Z.ltb_spec (i - o) l); try lia. cbn [andb]. f_equal. lia.
Qed.

Lemma no_shift p t tup :
  page_ok p -> zget (pd_linp p) t = Some tup -> ItemIdHasStorage tup = true ->
  set_linp (set_bounds (set_block p (moved_block p (lp_off tup) 0)) (pd_lower p) (pd_upper p + 0))
    (shift (lp_off tup) 0 <$> pd_linp p) = p.
Proof.
  intros Hok Ht Hs. destruct (shift_tup p t tup Hok Ht Hs) as (T1 & T2 & T3 & T4 & T5 & T6).
  pose proof Hok as [Ol Ob Oa Obl Oi Oap]. pose proof (zlen_nonneg (pd_linp p)). page_consts.
  unfold moved_block. rewrite Z.add_0_r, put_get_same by lia.
  replace (shift (lp_off tup) 0 <$> pd_linp p) with (pd_linp p).
  2: { rewrite <- (list_fmap_id (pd_linp p)) at 1. apply fmap_ext_zget. intros i lp Hi.
       destruct (Oi i lp Hi) as [F _ _]. unfold shift. destruct (_ && _); [|done]. unfold set_lp_off.
       rewrite Z.add_0_r, u15_small by lia. by destruct lp. }
  unfold set_linp, set_bounds, set_block. cbn. rewrite !u16_small by lia. by destruct p.
Qed.

Lemma page_ok_block p b : page_ok p -> zlen b = BLCKSZ -> page_ok (set_block p b).
Proof. by intros []. Qed.

Section overwrite.
Context (p : Page) (offnum : Z) (tup : ItemIdData) (newtup : list Z) (newsize : Z).
Let diff := MAXALIGN (lp_len tup) - MAXALIGN newsize.
Let newid := ItemIdSetNormal (lp_off tup + diff) newsize.
Hypothesis Hok : page_ok p.
Hypothesis Ht : zget (pd_linp p) (offnum - 1) = Some tup.
Hypothesis Hs : ItemIdHasStorage tup = true.
Hypothesis Hnew : 0 < newsize <= zlen newtup.
Hypothesis Hfit : pd_lower p <= pd_upper p + diff.

Lemma overwrite_diff :
  0 <= pd_lower p /\ 0 <= pd_upper p + diff /\ diff <= MAXALIGN (lp_len tup) /\ diff mod 8 = 0 /\
  newsize <= MAXALIGN newsize.
Proof.
  pose proof (po_lower p Hok). pose proof (zlen_nonneg (pd_linp p)). pose proof (maxalign_bounds newsize).
  unfold diff in *. page_consts. split_and!; try lia. rewrite Zminus_mod, !maxalign_mod. done.
Qed.

Lemma overwrite_newid :
  lp_off newid = lp_off tup + diff /\ lp_len newid = newsize /\ lp_end newid = lp_end tup /\
  ItemIdHasStorage newid = true.
Proof.
  destruct (shift_tup p _ tup Hok Ht Hs) as (T1 & T2 & T3 & T4 & T5 & T6).
  destruct overwrite_diff as (D1 & D2 & D3 & D4 & D5).
  unfold newid, ItemIdSetNormal, lp_end. cbn [lp_off lp_len]. unfold lp_end in *.
  rewrite !u15_small by (unfold diff in *; lia). split_and!; try done; [unfold diff; lia|].
  unfold ItemIdHasStorage. cbn [lp_len]. lia.
Qed.

Lemma overwrite_in_place : in_place p tup diff newid.
Proof.
  destruct (shift_tup p _ tup Hok Ht Hs) as (T1 & T2 & T3 & T4 & T5 & T6).
  destruct overwrite_diff as (D1 & D2 & D3 & D4 & D5). destruct overwrite_newid as (N1 & N2 & N3 & N4).
  destruct (po_items p Hok _ tup Ht) as [F U S]. destruct (S Hs) as (S1 & S2 & S3).
  split; [|by rewrite N1, N3]. split; rewrite ?N1, ?N2, ?N3.
  - cbn [lp_flags newid ItemIdSetNormal]. unfold LP_NORMAL, diff in *. lia.
  - done.
  - intros _. split_and!; [lia|done|]. rewrite Zplus_mod, S3, D4. done.
Qed.

Let block1 := moved_block p (lp_off tup) diff.
Let block2 := put_bytes block1 (lp_off tup + diff) (take (Z.to_nat newsize) newtup).
Let linp1 := shift (lp_off tup) diff <$> pd_linp p.
Let linp2 := take (Z.to_nat (offnum - 1)) linp1 ++ newid :: drop (Z.to_nat offnum) linp1.
Let p2 := set_block (set_linp (set_bounds (set_block p block1) (pd_lower p) (pd_upper p + diff)) linp2) block2.

Lemma overwrite_put :
  0 <= lp_off tup + diff /\ zlen (take (Z.to_nat newsize) newtup) = newsize /\ zlen block1 = BLCKSZ /\
  lp_off tup + diff + newsize <= BLCKSZ.
Proof.
  destruct (shift_tup p _ tup Hok Ht Hs) as (T1 & T2 & T3 & T4 & T5 & T6).
  destruct overwrite_diff as (D1 & D2 & D3 & D4 & D5).
  split_and!; [lia|apply zlen_take; lia|by apply (shift_block p _ tup diff Hok Ht Hs)|unfold diff; page_consts; lia].
Qed.

Lemma overwrite_page_ok : page_ok p2.
Proof.
  destruct overwrite_diff as (D1 & D2 & D3 & D4 & D5). destruct overwrite_put as (B1 & B2 & B3 & B4).
  pose proof (zget_Some_lt _ _ _ Ht) as Ho.
  assert (zlen linp1 = zlen (pd_linp p)) as Hl1 by apply zlen_fmap.
  apply page_ok_block.
  - apply (shift_page_ok p _ tup diff Hok Ht Hs (conj D2 (conj D3 D4))) with (idx := fun i => i); [done| | |done].
    + intros i lp'. unfold linp2. rewrite zget_splice by lia.
      destruct (Z.eqb_spec i (offnum - 1)) as [->|Hne].
      * rewrite Z.ltb_irrefl. intros [= <-]. left. split; [done|]. apply overwrite_in_place.
      * right. split; [done|]. revert H. replace (i - 1 - (offnum - 1) + offnum) with i by lia.
        destruct (i <? offnum - 1); unfold linp1; rewrite zget_fmap; destruct (zget (pd_linp p) i); try done;
          intros [= <-]; eauto.
    + rewrite (po_lower p Hok). unfold linp2. replace offnum with (offnum - 1 + 1) at 2 by lia.
      rewrite zlen_splice by lia. rewrite Hl1. page_consts. lia.
  - unfold block2. rewrite zlen_put_bytes; lia.
Qed.

Lemma overwrite_view :
  view p2 = take (Z.to_nat (offnum - 1)) (view p) ++ Stored LP_NORMAL (take (Z.to_nat newsize) newtup) ::
            drop (Z.to_nat offnum) (view p).
Proof.
  destruct overwrite_diff as (D1 & D2 & D3 & D4 & D5). destruct overwrite_put as (B1 & B2 & B3 & B4).
  destruct overwrite_newid as (N1 & N2 & N3 & N4). pose proof (zget_Some_lt _ _ _ Ht) as Ho.
  assert (entry_of block2 newid = Stored LP_NORMAL (take (Z.to_nat newsize) newtup)) as En.
  { unfold entry_of. rewrite N4, N1, N2. cbn [lp_flags newid ItemIdSetNormal]. f_equal.
    unfold block2. rewrite <- B2 at 2. apply get_put_same; lia. }
  assert (forall i lp, i <> offnum - 1 -> zget (pd_linp p) i = Some lp ->
    entry_of block2 (shift (lp_off tup) diff lp) = entry_of (pd_block p) lp) as Hold.
  { intros i lp Hne Hi. rewrite <- (shift_entry p _ tup diff Hok Ht Hs (conj D2 (conj D3 D4)) i lp Hne Hi).
    pose proof (shift_apart_place p _ tup diff Hok Ht Hs (conj D2 (conj D3 D4)) i lp newid Hne Hi overwrite_in_place) as Hap.
    pose proof (shift_lp_ok p _ tup diff Hok Ht Hs (conj D2 (conj D3 D4)) i lp Hne Hi) as [F _ S].
    unfold entry_of. destruct (ItemIdHasStorage (shift (lp_off tup) diff lp)) eqn:E; [|done]. f_equal.
    specialize (Hap E N4). destruct (S eq_refl) as (S1 & S2 & _). unfold lp_end in Hap, S2. rewrite N1, N2 in Hap.
    pose proof (maxalign_bounds (lp_len (shift (lp_off tup) diff lp))). destruct (po_bounds p Hok).
    unfold block2, block1 in *. apply get_put_other; lia. }
  unfold view, p2. cbn [pd_linp pd_block set_block set_linp set_bounds]. unfold linp2, linp1.
  rewrite fmap_app, fmap_cons, En, <- fmap_take, <- fmap_drop, <- !list_fmap_compose.
  rewrite (fmap_take_ext _ (entry_of (pd_block p))), (fmap_drop_ext _ (entry_of (pd_block p))); try lia; [done|..];
    intros i lp Hi Hg; apply (Hold i); done || lia.
Qed.
End overwrite.

Lemma tuple_overwrite p offnum tup newtup newsize :
  page_ok p -> zget (pd_linp p) (offnum - 1) = Some tup -> ItemIdHasStorage tup = true ->
  0 < newsize <= zlen newtup ->
  if MAXALIGN (lp_len tup) + (pd_upper p - pd_lower p) <? MAXALIGN newsize
  then PageIndexTupleOverwrite p offnum newtup newsize = Ret (false, p)
  else exists p', PageIndexTupleOverwrite p offnum newtup newsize = Ret (true, p') /\ page_ok p' /\
    view p' = take (Z.to_nat (offnum - 1)) (view p) ++ Stored LP_NORMAL (take (Z.to_nat newsize) newtup) ::
              drop (Z.to_nat offnum) (view p).
Proof.
  intros Hok Ht Hs Hnew. pose proof (zget_Some_lt _ _ _ Ht) as Ho. unfold PageIndexTupleOverwrite.
  rewrite not_corrupted, special_aligned, max_offset_number by done.
  cbn [orb negb]. assert ((offnum <=? 0) || (zlen (pd_linp p) <? offnum) = false) as -> by lia.
  unfold PageGetItemId. rewrite Ht. cbn [deref cbind]. rewrite Hs. cbn [c_assert cbind].
  rewrite (item_checked p _ tup Hok Ht Hs). unfold ItemIdGetOffset, ItemIdGetLength.
  destruct (Z.ltb_spec (MAXALIGN (lp_len tup) + (pd_upper p - pd_lower p)) (MAXALIGN newsize)) as [Hno|Hfit]; [done|].
  set (diff := MAXALIGN (lp_len tup) - MAXALIGN newsize).
  assert (pd_lower p <= pd_upper p + diff) as Hlow by (unfold diff; lia).
  destruct (shift_tup p _ tup Hok Ht Hs) as (T1 & T2 & T3 & T4 & T5 & T6).
  destruct (overwrite_diff p tup newtup newsize Hok Hnew Hlow) as (D1 & D2 & D3 & D4 & D5).
  destruct (overwrite_newid p offnum tup newtup newsize Hok Ht Hs Hnew Hlow) as (N1 & N2 & N3 & N4).
  destruct (overwrite_put p offnum tup newtup newsize Hok Ht Hs Hnew Hlow) as (B1 & B2 & B3 & B4).
  fold diff in D2, D3, D4, N1, N2, N3, N4, B1, B3, B4. set (newid := ItemIdSetNormal (lp_off tup + diff) newsize) in N1, N2, N3, N4 |- *.
  set (p1 := set_linp (set_bounds (set_block p (moved_block p (lp_off tup) diff)) (pd_lower p) (pd_upper p + diff))
               (shift (lp_off tup) diff <$> pd_linp p)).
  match goal with |- context [cbind (if negb (diff =? 0) then ?a else ?b) _] =>
    replace (if negb (diff =? 0) then a else b) with (Ret p1) end.
  2: { unfold p1. destruct (Z.eqb_spec diff 0) as [E|E]; cbn [negb].
       - rewrite E. f_equal. by apply (no_shift p (offnum - 1)).
       - rewrite memmove_ret by (destruct (po_bounds p Hok); page_consts; lia). done. }
  cbn [cbind]. pose proof (zlen_fmap (shift (lp_off tup) diff) (pd_linp p)) as Hl1.
  change (pd_linp p1) with (shift (lp_off tup) diff <$> pd_linp p).
  rewrite zset_splice by lia. cbn [deref cbind]. rewrite N4. cbn [c_assert cbind]. rewrite N1.
  assert (pd_lower p1 = pd_lower p) as -> by (apply u16_small; destruct (po_bounds p Hok); lia).
  unfold memcpy_in, in_block.
  assert (((pd_lower p <=? lp_off tup + diff) && (0 <=? newsize) && (lp_off tup + diff + newsize <=? BLCKSZ)
           && (newsize <=? zlen newtup)) = true) as -> by lia.
  cbn [c_assert cbind]. replace (offnum - 1 + 1) with offnum by lia. eexists. split; [done|]. split.
  - by apply (overwrite_page_ok p offnum tup newtup newsize).
  - by apply (overwrite_view p offnum tup newtup newsize).
Qed.

(** ** Deleting many items *)

(** A sequence without the elements at the given positions, counted from
    [pos]. *)
Fixpoint without {A} (l : list A) (pos : Z) (nos : list Z) : list A :=
  match l with
  | [] => []
  | x :: l => (if bool_decide (pos ∈ nos) then [] else [x]) ++ without l (pos + 1) nos
  end.

Lemma without_nil {A} (l : list A) pos : without l pos [] = l.
Proof. revert pos. induction l as [|x l IH]; intros pos; cbn [without]; [done|]. by rewrite IH. Qed.

Lemma without_perm {A} (l : list A) pos nos nos' : nos ≡ₚ nos' -> without l pos nos = without l pos nos'.
Proof.
  intros Hp. revert pos. induction l as [|x l IH]; intros pos; cbn [without]; [done|]. rewrite IH. f_equal.
  by rewrite (bool_decide_ext (pos ∈ nos) (pos ∈ nos')) by (by rewrite Hp).
Qed.

Lemma without_fmap {A B} (f : A -> B) l pos nos : f <$> without l pos nos = without (f <$> l) pos nos.
Proof.
  revert pos. induction l as [|x l IH]; intros pos; cbn [without fmap list_fmap]; [done|].
  rewrite fmap_app, IH. by destruct (bool_decide _).
Qed.

(** Positions that are passed do not matter. *)
Lemma without_past {A} (l : list A) pos b nos : b < pos -> without l pos (b :: nos) = without l pos nos.
Proof.
  revert pos. induction l as [|x l IH]; intros pos Hb; cbn [without]; [done|]. rewrite IH by lia.
  f_equal. destruct (decide (pos ∈ nos)).
  - rewrite !bool_decide_eq_true_2; [done|done|by right].
  - rewrite !bool_decide_eq_false_2; [done|done|]. intros [|]%elem_of_cons; [lia|done].
Qed.

Lemma without_before {A} (l : list A) pos nos : (forall a, a ∈ nos -> a < pos) -> without l pos nos = l.
Proof.
  revert pos. induction l as [|x l IH]; intros pos H; cbn [without]; [done|].
  rewrite bool_decide_eq_false_2 by (intros ?%H; lia). cbn [app]. f_equal. apply IH. intros a Ha%H. lia.
Qed.

Lemma without_cut {A} (l : list A) pos b nos :
  pos <= b < pos + zlen l -> (forall a, a ∈ nos -> a < b) ->
  without l pos (b :: nos) = without (take (Z.to_nat (b - pos)) l ++ drop (Z.to_nat (b - pos + 1)) l) pos nos.
Proof.
  revert pos. induction l as [|x l IH]; intros pos Hb Hlt; [unfold zlen in Hb; cbn [length] in Hb; lia|].
  assert (zlen (x :: l) = zlen l + 1) as Hz by (unfold zlen; cbn [length]; lia). rewrite Hz in Hb.
  cbn [without]. destruct (decide (b = pos)) as [->|Hne].
  - rewrite bool_decide_eq_true_2 by left. rewrite Z.sub_diag. cbn [app]. change (Z.to_nat 0) with 0%nat.
    change (Z.to_nat (0 + 1)) with 1%nat. cbn [take drop app]. rewrite without_past by lia.
    rewrite !without_before; [done|done|]. intros a Ha%Hlt. lia.
  - replace (Z.to_nat (b - pos)) with (S (Z.to_nat (b - (pos + 1)))) by lia.
    replace (Z.to_nat (b - pos + 1)) with (S (Z.to_nat (b - (pos + 1) + 1))) by lia.
    cbn [take drop app without]. rewrite IH by (done || lia). f_equal.
    destruct (decide (pos ∈ nos)).
    + rewrite !bool_decide_eq_true_2; [done|done|by right].
    + rewrite !bool_decide_eq_false_2; [done|done|]. intros [|]%elem_of_cons; [lia|done].
Qed.

Lemma scanned_item p lp :
  page_ok p -> all_stored p -> (exists i, zget (pd_linp p) i = Some lp) ->
  ItemIdHasStorage lp = true /\ corrupted_item p (ItemIdGetOffset lp) (ItemIdGetLength lp) = false /\
  s16 (ItemIdGetOffset lp) = lp_off lp /\ u16 (MAXALIGN (ItemIdGetLength lp)) = MAXALIGN (lp_len lp).
Proof.
  intros Hok Hall (i & Hi). pose proof (Hall i lp Hi) as Hs. destruct (shift_tup p i lp Hok Hi Hs) as (T1 & T2 & T3 & T4 & T5 & T6).
  split_and!; [done|by apply (item_checked p i)|apply s16_small|apply u16_small]; unfold ItemIdGetOffset, ItemIdGetLength; lia.
Qed.

(** One position met by the scan. *)
Lemma scan_position offnum fin rest :
  (forall a, a ∈ fin -> a < offnum) -> StronglySorted Z.lt rest -> (forall a, a ∈ rest -> offnum <= a) ->
  (zget (fin ++ rest) (zlen fin) = Some offnum /\ offnum ∈ fin ++ rest /\
    exists rest', rest = offnum :: rest' /\ StronglySorted Z.lt rest' /\ forall a, a ∈ rest' -> offnum + 1 <= a) \/
  (zget (fin ++ rest) (zlen fin) <> Some offnum /\ (offnum ∉ fin ++ rest) /\ forall a, a ∈ rest -> offnum + 1 <= a).
Proof.
  intros Hfin Hsort Hrest. pose proof (zlen_nonneg fin). rewrite zget_app, Z.ltb_irrefl, Z.sub_diag by done.
  destruct rest as [|a rest']; cbn [zget].
  - right. rewrite zget_nil, app_nil_r. split_and!; [done|intros ?%Hfin; lia|by intros ? ?%elem_of_nil].
  - rewrite zget_cons. cbn [Z.eqb]. apply StronglySorted_inv in Hsort as [Hsort Hall].
    rewrite List.Forall_forall in Hall. setoid_rewrite <- list_elem_of_In in Hall.
    destruct (decide (a = offnum)) as [->|Hne].
    + left. split_and!; [done|apply elem_of_app; right; left|]. exists rest'. split_and!; [done|done|].
      intros b Hb%Hall. lia.
    + right. pose proof (Hrest a ltac:(left)). split_and!; [congruence| |].
      * intros [?%Hfin|[?|Hin%Hall]%elem_of_cons]%elem_of_app; lia.
      * intros b [->|Hb%Hall]%elem_of_cons; lia.
Qed.

Lemma multi_scan_spec p fin rest linp offnum s :
  page_ok p -> all_stored p ->
  (forall lp, lp ∈ linp -> exists i, zget (pd_linp p) i = Some lp) ->
  0 <= offnum -> offnum + zlen linp < 2 ^ 16 ->
  (forall a, a ∈ fin -> a < offnum) -> StronglySorted Z.lt rest ->
  (forall a, a ∈ rest -> offnum <= a < offnum + zlen linp) ->
  md_nextitm s = zlen fin -> zlen (md_items s) + zlen linp <= MaxIndexTuplesPerPage ->
  let kept := without linp offnum (fin ++ rest) in
  let items := items_from kept (zlen (md_newitemids s)) in
  multi_scan p (fin ++ rest) linp offnum s =
    Ret {| md_items := md_items s ++ items; md_newitemids := md_newitemids s ++ kept;
           md_total := md_total s + total_len items; md_nextitm := zlen (fin ++ rest) |}.
Proof.
  intros Hok Hall. revert fin rest offnum s.
  induction linp as [|lp linp IH]; intros fin rest offnum s Hlp H0 Hw Hfin Hsort Hrest Hnext Hcount; cbn [multi_scan].
  { destruct rest as [|a rest]; [|specialize (Hrest a ltac:(left)); unfold zlen in Hrest; cbn [length] in Hrest; lia].
    cbn [without items_from total_len foldr]. rewrite !app_nil_r, Z.add_0_r, <- Hnext. by destruct s. }
  assert (zlen (lp :: linp) = zlen linp + 1) as Hz by (unfold zlen; cbn [length]; lia). rewrite Hz in *.
  pose proof (zlen_nonneg linp).
  destruct (scanned_item p lp Hok Hall) as (L1 & L2 & L3 & L4); [apply Hlp; left|].
  rewrite L1. cbn [c_assert cbind]. rewrite L2, L3, L4.
  assert (forall lp, lp ∈ linp -> exists i, zget (pd_linp p) i = Some lp) as Hlp' by (intros; apply Hlp; by right).
  assert (OffsetNumberNext offnum = offnum + 1) as -> by (unfold OffsetNumberNext; rewrite u16_small; lia).
  rewrite Hnext. cbn [without].
  destruct (scan_position offnum fin rest Hfin Hsort) as [(P1 & P2 & rest' & -> & P3 & P4)|(P1 & P2 & P3)].
  { intros a Ha%Hrest. lia. }
  - rewrite (bool_decide_eq_true_2 _ P1), (bool_decide_eq_true_2 _ P2). cbn [app].
    replace (fin ++ offnum :: rest') with ((fin ++ [offnum]) ++ rest') by (by rewrite <- app_assoc).
    rewrite IH; cbn [md_nextitm md_items md_newitemids md_total]; try done || lia.
    + intros a [?%Hfin|?%list_elem_of_singleton]%elem_of_app; lia.
    + intros a Ha. specialize (P4 a Ha). specialize (Hrest a ltac:(by right)). lia.
    + rewrite zlen_app. done.
  - rewrite (bool_decide_eq_false_2 _ P1), (bool_decide_eq_false_2 _ P2).
    assert ((zlen (md_items s) <? MaxIndexTuplesPerPage) = true) as -> by lia. cbn [c_assert cbind app].
    rewrite IH; cbn [md_nextitm md_items md_newitemids md_total]; try done || lia.
    + rewrite <- !app_assoc, zlen_app. cbn [app items_from]. rewrite L1. cbn [app total_len foldr alignedlen item_of].
      change (zlen [lp]) with 1. do 2 f_equal. unfold total_len. lia.
    + intros a Ha%Hfin. lia.
    + intros a Ha. specialize (P3 a Ha). specialize (Hrest a Ha). lia.
    + rewrite zlen_app. change (zlen [?x]) with 1. lia.
Qed.

Lemma zget_elem {A} (l : list A) x : x ∈ l <-> exists i, zget l i = Some x.
Proof.
  rewrite list_elem_of_lookup. split.
  - intros [i Hi]. exists (Z.of_nat i). unfold zget. destruct (Z.ltb_spec (Z.of_nat i) 0); [lia|]. by rewrite Nat2Z.id.
  - intros [i Hi]. unfold zget in Hi. destruct (i <? 0); [done|]. eauto.
Qed.

Lemma without_elem {A} (l : list A) pos nos x : x ∈ without l pos nos -> x ∈ l.
Proof.
  revert pos. induction l as [|y l IH]; intros pos; cbn [without]; [done|]. intros [H|H]%elem_of_app.
  - destruct (bool_decide _); [by apply elem_of_nil in H|]. apply list_elem_of_singleton in H as ->. left.
  - right. eauto.
Qed.

Lemma without_sorted {A} (R : A -> A -> Prop) (l : list A) pos nos :
  StronglySorted R l -> StronglySorted R (without l pos nos).
Proof.
  intros Hs. revert pos. induction Hs as [|x l Hs IH Hall]; intros pos; cbn [without]; [constructor|].
  destruct (bool_decide _); [by apply IH|]. cbn [app]. constructor; [by apply IH|].
  rewrite Forall_forall in Hall |- *. intros y Hy. apply Hall. by eapply without_elem.
Qed.

Lemma zlen_without {A} (l : list A) pos nos : zlen (without l pos nos) <= zlen l.
Proof.
  revert pos. induction l as [|x l IH]; intros pos; cbn [without]; [done|]. specialize (IH (pos + 1)).
  unfold zlen in *. rewrite length_app. destruct (bool_decide _); cbn [length]; lia.
Qed.

(** Distinct line pointers are apart, as a property of the list. *)
Lemma apart_sorted linp :
  (forall i j a b, i <> j -> zget linp i = Some a -> zget linp j = Some b -> apart a b) <-> StronglySorted apart linp.
Proof.
  induction linp as [|lp linp IH].
  { split; [constructor|]. intros _ i j a b _. by rewrite zget_nil. }
  assert (forall i x, zget linp i = Some x -> zget (lp :: linp) (i + 1) = Some x) as Hup.
  { intros i x Hi. pose proof (zget_Some_lt _ _ _ Hi). rewrite zget_cons.
    destruct (Z.eqb_spec (i + 1) 0); [lia|]. by rewrite Z.add_simpl_r. }
  split.
  - intros H. constructor.
    + apply IH. intros i j a b Hne Ha%Hup Hb%Hup. eapply (H (i + 1) (j + 1)); done || lia.
    + apply Forall_forall. intros b (j & Hb)%zget_elem. pose proof (zget_Some_lt _ _ _ Hb). apply Hup in Hb.
      apply (H 0 (j + 1)); done || lia.
  - intros [Hs Hall]%StronglySorted_inv. pose proof (proj2 IH Hs) as Hs'. rewrite Forall_forall in Hall.
    intros i j a b Hne. rewrite !zget_cons. destruct (Z.eqb_spec i 0), (Z.eqb_spec j 0).
    + lia.
    + intros [= ->] Hb. apply Hall, zget_elem. eauto.
    + intros Ha [= ->] Hsa Hsb. destruct (Hall a) as [H|H]; [apply zget_elem; eauto|done|done|by right|by left].
    + apply Hs'. lia.
Qed.

Lemma total_without linp pos nos i i' :
  (forall lp, lp ∈ linp -> 0 <= lp_len lp) ->
  total_len (items_from (without linp pos nos) i) <= total_len (items_from linp i').
Proof.
  revert pos i i'. induction linp as [|lp linp IH]; intros pos i i' H; cbn [without]; [done|].
  assert (forall lp, lp ∈ linp -> 0 <= lp_len lp) as H' by (intros; apply H; by right).
  pose proof (H lp ltac:(left)) as Hl. pose proof (maxalign_bounds (lp_len lp) Hl).
  destruct (bool_decide _); cbn [app items_from].
  - specialize (IH (pos + 1) i (i' + 1) H').
    destruct (ItemIdHasStorage lp); cbn [app]; [|done]. unfold total_len in *. cbn [foldr alignedlen item_of]. lia.
  - specialize (IH (pos + 1) (i + 1) (i' + 1) H').
    destruct (ItemIdHasStorage lp); cbn [app]; [|done]. unfold total_len in *. cbn [foldr alignedlen item_of]. lia.
Qed.

(** The page between the scan and the compaction. *)
Lemma without_page p nos :
  let linp := without (pd_linp p) FirstOffsetNumber nos in
  let p1 := set_bounds (set_linp p linp) (SizeOfPageHeaderData + zlen linp * sizeof_ItemIdData) (pd_upper p) in
  page_ok p -> page_ok p1 /\ view p1 = without (view p) FirstOffsetNumber nos /\
    total_len (items_from linp 0) <= total_len (items_from (pd_linp p) 0).
Proof.
  intros linp p1 Hok. pose proof (zlen_without (pd_linp p) FirstOffsetNumber nos) as Hlen. fold linp in Hlen.
  pose proof (zlen_nonneg linp). pose proof Hok as [Ol Ob Oa Obl Oi Oap]. page_consts. split_and!.
  - split; unfold p1; cbn [pd_lower pd_upper pd_special pd_linp pd_block set_bounds set_linp]; page_consts;
      rewrite ?u16_small by lia; try done; try lia.
    + intros i lp Hi. assert (lp ∈ pd_linp p) as (j & Hj)%zget_elem; [|by eapply Oi].
      eapply without_elem, zget_elem. by exists i.
    + apply apart_sorted, without_sorted, apart_sorted, Oap.
  - unfold view, p1. cbn [pd_linp pd_block set_bounds set_linp]. apply without_fmap.
  - apply total_without. intros lp (i & Hi)%zget_elem. destruct (Oi i lp Hi). lia.
Qed.

Section multi.
Context `{ItemSortLaws}.

Lemma multi_delete_few p nos :
  page_ok p -> all_stored p -> StronglySorted Z.lt nos -> (forall a, a ∈ nos -> 1 <= a <= zlen (pd_linp p)) ->
  zlen nos <= 2 ->
  exists p', delete_each p (rev nos) = Ret p' /\ page_ok p' /\ view p' = without (view p) FirstOffsetNumber nos.
Proof.
  intros Hok Hall Hsort Hin Hn. unfold FirstOffsetNumber.
  assert (zlen (view p) = zlen (pd_linp p)) as Hv by apply zlen_fmap.
  destruct nos as [|a [|b [|c nos]]]; cbn [rev app delete_each].
  - exists p. by rewrite without_nil.
  - destruct (tuple_delete p a Hok Hall) as (p' & E & P1 & _ & P2 & _); [apply Hin; left|].
    exists p'. rewrite E. split_and!; [done|done|]. pose proof (Hin a ltac:(left)).
    rewrite without_cut, without_nil by (lia || by intros ? ?%elem_of_nil). by replace (a - 1 + 1) with a by lia.
  - pose proof (Hin a ltac:(left)). pose proof (Hin b ltac:(right; left)).
    apply StronglySorted_inv in Hsort as [_ [Hab _]%Forall_cons].
    destruct (tuple_delete p b Hok Hall) as (p1 & E1 & Q1 & Q2 & Q3 & Q4); [lia|].
    destruct (tuple_delete p1 a Q1 Q2) as (p' & E & P1 & _ & P2 & _); [lia|].
    exists p'. rewrite E1. cbn [cbind]. rewrite E. split_and!; [done|done|].
    assert (zlen (view p1) = zlen (pd_linp p1)) as Hv1 by apply zlen_fmap.
    rewrite (without_perm _ _ _ [b; a]) by apply perm_swap.
    rewrite (without_cut _ 1 b [a]); [|lia|intros x ->%list_elem_of_singleton; lia].
    replace (b - 1 + 1) with b by lia. rewrite <- Q3.
    rewrite without_cut, without_nil by (lia || by intros ? ?%elem_of_nil). by replace (a - 1 + 1) with a by lia.
  - unfold zlen in Hn. cbn [length] in Hn. lia.
Qed.

(** More than two items go through the scan and one compaction. *)
Lemma multi_delete_many p nos :
  page_ok p -> all_stored p -> StronglySorted Z.lt nos -> (forall a, a ∈ nos -> 1 <= a <= zlen (pd_linp p)) ->
  zlen (pd_linp p) <= MaxIndexTuplesPerPage ->
  multi_scan p nos (pd_linp p) FirstOffsetNumber {| md_items := []; md_newitemids := []; md_total := 0; md_nextitm := 0 |} =
    Ret (let linp := without (pd_linp p) FirstOffsetNumber nos in
         {| md_items := items_from linp 0; md_newitemids := linp; md_total := total_len (items_from linp 0);
            md_nextitm := zlen nos |}).
Proof.
  intros Hok Hall Hsort Hin Hn. pose proof (linp_count p Hok). unfold FirstOffsetNumber.
  apply (multi_scan_spec p [] nos); try done.
  - intros lp Hlp. by apply zget_elem.
  - lia.
  - by intros ? ?%elem_of_nil.
  - intros b Hb%Hin. lia.
Qed.

Lemma multi_delete p nos :
  page_ok p -> all_stored p -> zlen (pd_linp p) <= MaxIndexTuplesPerPage ->
  StronglySorted Z.lt nos -> (forall a, a ∈ nos -> 1 <= a <= zlen (pd_linp p)) -> zlen nos <= MaxIndexTuplesPerPage ->
  exists p', PageIndexMultiDelete p nos = Ret p' /\ page_ok p' /\ view p' = without (view p) FirstOffsetNumber nos.
Proof.
  intros Hok Hall Hn Hsort Hin Hc. unfold PageIndexMultiDelete. rewrite (proj2 (Z.leb_le _ _) Hc). cbn [c_assert cbind].
  destruct (Z.leb_spec (zlen nos) 2); [by apply multi_delete_few|].
  rewrite not_corrupted, special_aligned, max_offset_number by done. cbn [orb negb].
  rewrite Z.leb_refl. cbn [c_assert cbind].
  replace (Z.to_nat (zlen (pd_linp p))) with (length (pd_linp p)) by (unfold zlen; lia). rewrite take_ge by lia.
  rewrite multi_delete_many by done. cbn [cbind md_nextitm md_total md_items md_newitemids]. rewrite Z.eqb_refl. cbn [negb].
  destruct (without_page p nos Hok) as (P1 & P2 & P3). pose proof (items_total p Hok).
  destruct (Z.ltb_spec (pd_special p - pd_lower p)
    (total_len (items_from (without (pd_linp p) FirstOffsetNumber nos) 0))); [lia|].
  destruct (compactify_page _ P1) as (p' & E & Q1 & Q2 & _). exists p'. split_and!; [exact E|done|]. by rewrite Q2.
Qed.
End multi.
