(* ===== verification/BufPageTheorems.v ===== *)
(** What the routines of [storage/page/bufpage.c] do to the items of a page:
    each theorem says that a well-formed page stays well formed, and which
    sequence of items it shows afterwards. *)
From stdpp Require Import sorting.
From S2P Require Import Prelude BufPage BufPageProofs BufPageIndex.

(** ** Hints and space *)

Lemma page_ok_flags p f : page_ok p -> page_ok (set_flags p f).
Proof. by intros []. Qed.

Lemma has_free_set p : PageHasFreeLinePointers (PageSetHasFreeLinePointers p) = true.
Proof.
  unfold PageHasFreeLinePointers, PageSetHasFreeLinePointers. cbn [pd_flags set_flags].
  apply negb_true_iff, Z.eqb_neq, (bits_nonzero _ 0). rewrite Z.land_spec, Z.lor_spec.
  by rewrite (orb_comm _ _).
Qed.

Lemma has_free_clear p : PageHasFreeLinePointers (PageClearHasFreeLinePointers p) = false.
Proof.
  unfold PageHasFreeLinePointers, PageClearHasFreeLinePointers. cbn [pd_flags set_flags].
  rewrite <- Z.land_assoc. change (Z.land (Z.lnot PD_HAS_FREE_LINES) PD_HAS_FREE_LINES) with 0.
  by rewrite Z.land_0_r.
Qed.

(** The space the data of a sequence of items takes. *)
Definition data_size (v : list entry) : Z :=
  foldr (fun e n => match e with Stored _ bytes => MAXALIGN (zlen bytes) + n | NoStorage _ _ => n end) 0 v.

Lemma total_len_data block linp i :
  (forall j lp, zget linp j = Some lp -> 0 <= lp_off lp /\ 0 <= lp_len lp /\
    (ItemIdHasStorage lp = true -> lp_off lp + lp_len lp <= zlen block)) ->
  total_len (items_from linp i) = data_size (entry_of block <$> linp).
Proof.
  revert i. induction linp as [|lp linp IH]; intros i H; [done|].
  assert (total_len (items_from linp (i + 1)) = data_size (entry_of block <$> linp)) as E.
  { apply IH. intros j lp' Hj. apply (H (j + 1)). pose proof (zget_Some_lt _ _ _ Hj). rewrite zget_cons.
    destruct (Z.eqb_spec (j + 1) 0); [lia|]. by rewrite Z.add_simpl_r. }
  destruct (H 0 lp) as (H1 & H2 & H3); [done|]. cbn [items_from fmap list_fmap data_size foldr]. unfold entry_of at 1.
  destruct (ItemIdHasStorage lp); cbn [app total_len foldr alignedlen item_of]; [|done].
  rewrite zlen_get_bytes by auto. f_equal. apply E.
Qed.

Lemma page_data_size p : page_ok p -> total_len (items_from (pd_linp p) 0) = data_size (view p).
Proof.
  intros Hok. apply total_len_data. intros j lp Hj. destruct (po_items p Hok j lp Hj) as [F U S].
  split_and!; [lia|lia|]. intros Hs. destruct (S Hs) as (_ & S2 & _). unfold lp_end in S2.
  pose proof (maxalign_bounds (lp_len lp)). rewrite (po_block p Hok). destruct (po_bounds p Hok). lia.
Qed.

Lemma unused_count_pos linp :
  0 < unused_count linp <-> exists i lp, zget linp i = Some lp /\ lp_flags lp = LP_UNUSED.
Proof.
  unfold unused_count, zlen. split.
  - intros Hl. destruct (filter _ linp) as [|lp l] eqn:E; [done|].
    assert (lp ∈ filter (fun lp => lp_flags lp = LP_UNUSED) linp) as Hin by (rewrite E; left).
    apply list_elem_of_filter in Hin as [Hf [i Hi]%list_elem_of_lookup_1].
    exists (Z.of_nat i), lp. split; [|done]. unfold zget. destruct (Z.ltb_spec (Z.of_nat i) 0); [lia|].
    by rewrite Nat2Z.id.
  - intros (i & lp & Hi & Hf). unfold zget in Hi. destruct (i <? 0); [done|].
    apply list_elem_of_lookup_2 in Hi.
    assert (lp ∈ filter (fun lp => lp_flags lp = LP_UNUSED) linp) as Hin by (by apply list_elem_of_filter).
    destruct (filter _ linp); [by apply elem_of_nil in Hin|]. cbn [length]. lia.
Qed.

Lemma unused_in_view p :
  page_ok p -> 0 < unused_count (pd_linp p) <-> NoStorage LP_UNUSED 0 ∈ view p.
Proof.
  intros Hok. rewrite unused_count_pos. unfold view. rewrite list_elem_of_fmap. split.
  - intros (i & lp & Hi & Hf). exists lp. destruct (po_items p Hok i lp Hi) as [_ U _]. rewrite (U Hf) in *.
    split; [done|]. unfold zget in Hi. destruct (i <? 0); [done|]. by apply list_elem_of_lookup_2 in Hi.
  - intros (lp & E & [i Hi]%list_elem_of_lookup_1). exists (Z.of_nat i), lp. unfold zget.
    destruct (Z.ltb_spec (Z.of_nat i) 0); [lia|]. rewrite Nat2Z.id. split; [done|].
    unfold entry_of in E. destruct (ItemIdHasStorage lp); [done|]. by injection E.
Qed.

(** ** Compaction of heap pages *)

Section repair.
Context `{ItemSortLaws}.

(** A page without any item data. *)
Lemma reset_empty p :
  page_ok p -> items_from (pd_linp p) 0 = [] ->
  page_ok (set_bounds p (pd_lower p) (pd_special p)) /\ view (set_bounds p (pd_lower p) (pd_special p)) = view p.
Proof.
  intros Hok Hno. split; [|done]. pose proof (zlen_nonneg (pd_linp p)). destruct Hok as [Ol Ob Oa Obl Oi Oap].
  split; cbn [pd_lower pd_upper pd_special pd_linp pd_block set_bounds]; try done;
    rewrite ?(u16_small (pd_lower p)), ?(u16_small (pd_special p)) by (page_consts; lia); try done; [lia|tauto|].
  intros i lp Hi. destruct (Oi i lp Hi) as [F U S]. split; [done|done|].
  destruct (items_from_case _ _ _ Hi) as [[E _]|[_ E]]; [congruence|]. rewrite Hno in E. by apply elem_of_nil in E.
Qed.

Lemma compact_items p :
  page_ok p ->
  exists p', (if zlen (items_from (pd_linp p) 0) =? 0 then Ret (set_bounds p (pd_lower p) (pd_special p))
              else if pd_special p - pd_lower p <? total_len (items_from (pd_linp p) 0)
                   then Elog "corrupted item lengths"
              else compactify_tuples (items_from (pd_linp p) 0) p) = Ret p' /\
    page_ok p' /\ view p' = view p /\ pd_special p' = pd_special p /\
    pd_upper p' = pd_special p - data_size (view p).
Proof.
  intros Hok. rewrite <- page_data_size by done. pose proof (items_total p Hok). pose proof (zlen_nonneg (pd_linp p)).
  destruct (Z.eqb_spec (zlen (items_from (pd_linp p) 0)) 0) as [E|E].
  - assert (items_from (pd_linp p) 0 = []) as En by (destruct (items_from _ _); [done|unfold zlen in E; done]).
    destruct (reset_empty p Hok En) as [R1 R2]. eexists. split; [done|]. rewrite En. split_and!; try done.
    cbn [pd_upper set_bounds total_len foldr]. destruct Hok. rewrite u16_small by (page_consts; lia). lia.
  - destruct (Z.ltb_spec (pd_special p - pd_lower p) (total_len (items_from (pd_linp p) 0))); [lia|].
    destruct (compactify_page p Hok) as (p' & P1 & P2 & P3 & P4 & P5 & P6). by exists p'.
Qed.

(** C14. [PageRepairFragmentation] on a well-formed page of at most
    [MaxHeapTuplesPerPage] line pointers returns a well-formed page that shows
    the same items under the same offset numbers, byte for byte; all the space
    that no item takes is now contiguous between the line pointers and the
    items; and the free-line-pointer hint says exactly whether some line
    pointer is unused. *)
Theorem repair_fragmentation_spec p :
  page_ok p -> zlen (pd_linp p) <= MaxHeapTuplesPerPage ->
  exists p', PageRepairFragmentation p = Ret p' /\ page_ok p' /\ view p' = view p /\
    pd_special p' = pd_special p /\
    PageGetExactFreeSpace p' = pd_special p - pd_lower p - data_size (view p) /\
    (PageHasFreeLinePointers p' = true <-> NoStorage LP_UNUSED 0 ∈ view p).
Proof.
  intros Hok Hn. pose proof (zlen_nonneg (pd_linp p)). unfold PageRepairFragmentation.
  rewrite not_corrupted, special_aligned, max_offset_number by done. cbn [orb negb].
  rewrite (proj2 (Z.leb_le _ _)) by lia. cbn [c_assert cbind].
  replace (Z.to_nat (zlen (pd_linp p))) with (length (pd_linp p)) by (unfold zlen; lia).
  rewrite take_ge, drop_ge by lia.
  destruct (po_bounds p Hok) as [Hb1 Hb2]. pose proof (po_lower p Hok) as Hlo.
  rewrite repair_scan_spec; [|done|page_consts; lia|cbn [sc_items]; unfold zlen at 1; cbn [length]; lia|by apply po_items].
  cbn [cbind sc_linp sc_items sc_total sc_unused app]. rewrite app_nil_r, !Z.add_0_l.
  replace (set_linp p (pd_linp p)) with p by (by destruct p).
  destruct (compact_items p Hok) as (p' & E & P1 & P2 & P3 & P4). rewrite E. cbn [cbind].
  pose proof (unused_in_view p Hok) as Huv.
  assert (pd_lower p' = pd_lower p) as El.
  { rewrite (po_lower p' P1), Hlo. f_equal. f_equal. apply (f_equal zlen) in P2. unfold view in P2.
    by rewrite !zlen_fmap in P2. }
  assert (PageGetExactFreeSpace p' = pd_special p - pd_lower p - data_size (view p)) as Ef.
  { unfold PageGetExactFreeSpace. rewrite P4, El. pose proof (items_total p Hok). rewrite page_data_size in * by done.
    destruct (Z.ltb_spec (pd_special p - data_size (view p) - pd_lower p) 0); lia. }
  destruct (Z.ltb_spec 0 (unused_count (pd_linp p))) as [Hu|Hu]; eexists; (split; [done|]);
    (split; [by apply page_ok_flags|]); split_and!; try done; rewrite <- Huv, ?has_free_set, ?has_free_clear; split; try done; lia.
Qed.
End repair.

(** ** Adding an item *)

Lemma find_free_spec linp i :
  exists j, find_free linp i = i + j /\ 0 <= j <= zlen linp /\
    (j < zlen linp -> exists lp, zget linp j = Some lp /\ lp_flags lp = LP_UNUSED) /\
    (j = zlen linp -> forall m lp, zget linp m = Some lp -> lp_flags lp = LP_UNUSED -> ItemIdHasStorage lp = true).
Proof.
  revert i. induction linp as [|lp linp IH]; intros i; cbn [find_free].
  - exists 0. change (zlen (@nil ItemIdData)) with 0. split_and!; try lia. intros _ m lp. by rewrite zget_nil.
  - assert (zlen (lp :: linp) = 1 + zlen linp) as -> by (unfold zlen; cbn [length]; lia).
    pose proof (zlen_nonneg linp). unfold ItemIdIsUsed. rewrite negb_involutive.
    destruct (Z.eqb_spec (lp_flags lp) LP_UNUSED) as [Eu|Eu], (ItemIdHasStorage lp) eqn:Es; cbn [andb negb].
    2: { exists 0. split_and!; try lia. intros _. by exists lp. }
    all: destruct (IH (i + 1)) as (j & E & Hj & H1 & H2); exists (j + 1); rewrite E; split_and!; try lia;
      [intros Hlt; destruct H1 as (lp' & Hg & Hu); [lia|]; exists lp'; rewrite zget_cons;
       destruct (Z.eqb_spec (j + 1) 0); [lia|]; by rewrite Z.add_simpl_r
      |intros Heq m lp'; rewrite zget_cons; destruct (Z.eqb_spec m 0) as [->|]; [by intros [= <-]|eapply H2; lia]].
Qed.

(** How an item may enter a page of [n] line pointers when [offsetNumber] is
    asked for: [o] is the offset number it gets, [reuse] says whether that line
    pointer was there already. *)
Definition may_add (p : Page) (offsetNumber flags o : Z) (reuse : bool) : Prop :=
  1 <= o /\
  (if OffsetNumberIsValid offsetNumber then o = offsetNumber else o <= zlen (pd_linp p) + 1) /\
  reuse = (o <=? zlen (pd_linp p)) &&
    (negb (OffsetNumberIsValid offsetNumber) || negb (Z.land flags PAI_OVERWRITE =? 0)) /\
  (reuse = true -> zget (pd_linp p) (o - 1) = Some ItemIdSetUnused).

Lemma select_offset_spec p offsetNumber flags :
  page_ok p -> 0 <= offsetNumber ->
  exists sel, select_offset p offsetNumber flags (zlen (pd_linp p) + 1) = Ret sel /\
  match sel with
  | None => OffsetNumberIsValid offsetNumber = true
  | Some (o, needshuffle, p1) =>
      (p1 = p \/ p1 = PageClearHasFreeLinePointers p) /\
      (exists reuse, may_add p offsetNumber flags o reuse /\
        needshuffle = (o <=? zlen (pd_linp p)) && negb reuse) /\
      (OffsetNumberIsValid offsetNumber = false -> PageHasFreeLinePointers p = true ->
        NoStorage LP_UNUSED 0 ∈ view p -> o <= zlen (pd_linp p))
  end.
Proof.
  intros Hok Hoff. pose proof (zlen_nonneg (pd_linp p)) as Hz. unfold select_offset, may_add.
  assert (forall i lp, zget (pd_linp p) i = Some lp -> lp_flags lp = LP_UNUSED -> lp = ItemIdSetUnused) as Hun.
  { intros i lp Hi. apply (po_items p Hok i lp Hi). }
  destruct (OffsetNumberIsValid offsetNumber) eqn:Ev; cbn [negb orb].
  - assert (1 <= offsetNumber) as H1.
    { unfold OffsetNumberIsValid in Ev. change InvalidOffsetNumber with 0 in Ev. lia. }
    destruct (Z.land flags PAI_OVERWRITE =? 0) eqn:Eo; cbn [negb].
    + eexists. split; [done|]. cbn iota beta. split_and!; [by left| |done]. exists false. rewrite andb_false_r.
      split_and!; try done; lia.
    + destruct (Z.ltb_spec offsetNumber (zlen (pd_linp p) + 1)).
      * unfold PageGetItemId. destruct (zget_is_Some (pd_linp p) (offsetNumber - 1)) as [lp Hlp]; [lia|].
        rewrite Hlp. cbn [deref cbind]. destruct (ItemIdIsUsed lp || ItemIdHasStorage lp) eqn:Eu; [by exists None|].
        eexists. split; [done|]. cbn iota beta. split_and!; [by left| |done]. exists true.
        assert ((offsetNumber <=? zlen (pd_linp p)) = true) as -> by lia. split_and!; try done.
        intros _. rewrite Hlp. f_equal. eapply Hun; [done|]. unfold ItemIdIsUsed in Eu. lia.
      * eexists. split; [done|]. cbn iota beta. split_and!; [by left| |done]. exists false.
        assert ((offsetNumber <=? zlen (pd_linp p)) = false) as -> by lia. by split_and!.
  - replace (Z.to_nat (zlen (pd_linp p) + 1 - 1)) with (length (pd_linp p)) by (unfold zlen; lia).
    rewrite take_ge by lia. destruct (find_free_spec (pd_linp p) 1) as (j & Ej & Hj & Hfree & Hfull).
    rewrite Ej. destruct (PageHasFreeLinePointers p) eqn:Eh.
    + destruct (Z.leb_spec (zlen (pd_linp p) + 1) (1 + j)) as [Hle|Hlt]; eexists; (split; [done|]); cbn iota beta.
      * split_and!; [by right| |].
        -- exists false. assert ((1 + j <=? zlen (pd_linp p)) = false) as -> by lia. split_and!; done || lia.
        -- intros _ _ Hu. apply (unused_in_view p Hok), unused_count_pos in Hu as (m & lp & Hm & Hf).
           pose proof (Hfull ltac:(lia) m lp Hm Hf) as Hs. by rewrite (Hun m lp Hm Hf) in Hs.
      * split_and!; [by left| |lia]. exists true. assert ((1 + j <=? zlen (pd_linp p)) = true) as -> by lia.
        split_and!; try done; [lia..|]. intros _. destruct Hfree as (lp & Hg & Hu); [lia|].
        replace (1 + j - 1) with j by lia. rewrite Hg. f_equal. eauto.
    + eexists. split; [done|]. cbn iota beta. split_and!; [by left| |done]. exists false.
      assert ((zlen (pd_linp p) + 1 <=? zlen (pd_linp p)) = false) as -> by lia. split_and!; done || lia.
Qed.

(** Writing the item once its place is known. *)
Lemma place_item p item size o reuse needshuffle :
  page_ok p -> 0 < size <= zlen item -> 1 <= o <= zlen (pd_linp p) + 1 ->
  (reuse = true -> o <= zlen (pd_linp p)) -> needshuffle = (o <=? zlen (pd_linp p)) && negb reuse ->
  let limit := zlen (pd_linp p) + 1 in
  let lower := if (o =? limit) || needshuffle then pd_lower p + sizeof_ItemIdData else pd_lower p in
  let upper := pd_upper p - MAXALIGN size in
  lower <= upper ->
  exists p', (let* linp :=
       (if needshuffle || (o =? limit)
        then Ret (take (Z.to_nat (o - 1)) (pd_linp p) ++ ItemIdSetNormal upper size ::
                  drop (Z.to_nat (o - 1)) (pd_linp p))
        else deref (zset (pd_linp p) (o - 1) (ItemIdSetNormal upper size))) in
     let* block := memcpy_in lower (pd_block p) upper item size in
     Ret (o, set_bounds (set_block (set_linp p linp) block) lower upper)) = Ret (o, p') /\
    page_ok p' /\
    view p' = take (Z.to_nat (o - 1)) (view p) ++ Stored LP_NORMAL (take (Z.to_nat size) item) ::
              drop (Z.to_nat (if reuse then o else o - 1)) (view p).
Proof.
  intros Hok Hs Ho Hr Hns limit lower upper Hfit.
  set (k' := if reuse then o else o - 1).
  assert (o - 1 <= k' <= o /\ k' <= zlen (pd_linp p)) as Hk' by (unfold k'; destruct reuse; [specialize (Hr eq_refl)|]; lia).
  set (linp := take (Z.to_nat (o - 1)) (pd_linp p) ++ ItemIdSetNormal upper size :: drop (Z.to_nat k') (pd_linp p)).
  assert ((needshuffle || (o =? limit)) = negb reuse) as Ens.
  { rewrite Hns. destruct reuse; [specialize (Hr eq_refl)|]; cbn [negb]; lia. }
  assert (lower = SizeOfPageHeaderData + sizeof_ItemIdData * zlen linp) as El.
  { unfold lower, linp. rewrite orb_comm, Ens, zlen_splice by lia. rewrite (po_lower p Hok). page_consts.
    unfold k'. destruct reuse; cbn [negb]; lia. }
  replace (if needshuffle || (o =? limit) then _ else _) with (Ret linp).
  2: { rewrite Ens. unfold linp, k'. destruct reuse; cbn [negb]; [|done]. rewrite zset_splice by lia.
       by replace (o - 1 + 1) with o by lia. }
  cbn [cbind]. pose proof (zlen_nonneg linp). pose proof (maxalign_bounds size) as Hm. destruct (po_bounds p Hok).
  unfold memcpy_in, in_block. unfold upper in *.
  assert (((lower <=? pd_upper p - MAXALIGN size) && (0 <=? size) && (pd_upper p - MAXALIGN size + size <=? BLCKSZ)
           && (size <=? zlen item)) = true) as -> by lia.
  cbn [c_assert cbind]. eexists. split; [done|]. rewrite El in *. split.
  - apply add_page_ok; done || lia.
  - apply add_view; done || lia.
Qed.

(** The space a caller may rely on, heap or not. *)
Definition usable_space (p : Page) (flags : Z) : Z :=
  if Z.land flags PAI_IS_HEAP =? 0 then PageGetFreeSpace p else PageGetHeapFreeSpace p.

Lemma usable_room p flags size o :
  page_ok p -> 0 < size -> MAXALIGN size <= usable_space p flags -> 1 <= o <= zlen (pd_linp p) + 1 ->
  (PageHasFreeLinePointers p = true -> NoStorage LP_UNUSED 0 ∈ view p -> o <= zlen (pd_linp p)) ->
  zlen (pd_linp p) <= MaxHeapTuplesPerPage ->
  pd_lower p + sizeof_ItemIdData <= pd_upper p - MAXALIGN size /\
  negb (Z.land flags PAI_IS_HEAP =? 0) && (MaxHeapTuplesPerPage <? o) = false.
Proof.
  intros Hok Hs Hu Ho Hfree Hn. pose proof (maxalign_bounds size). unfold usable_space in Hu.
  assert (MAXALIGN size <= PageGetFreeSpace p ->
          pd_lower p + sizeof_ItemIdData <= pd_upper p - MAXALIGN size) as Hroom.
  { unfold PageGetFreeSpace. page_consts. destruct (Z.ltb_spec (pd_upper p - pd_lower p) 4); lia. }
  destruct (Z.land flags PAI_IS_HEAP =? 0); cbn [negb andb]; [split; [auto|done]|].
  unfold PageGetHeapFreeSpace in Hu. rewrite max_offset_number in Hu by done.
  destruct (Z.ltb_spec 0 (PageGetFreeSpace p)); [|lia].
  destruct (Z.leb_spec MaxHeapTuplesPerPage (zlen (pd_linp p))); [|split; [auto|lia]].
  destruct (PageHasFreeLinePointers p); [|lia].
  replace (Z.to_nat (zlen (pd_linp p))) with (length (pd_linp p)) in Hu by (unfold zlen; lia).
  rewrite take_ge in Hu by lia. destruct (existsb _ (pd_linp p)) eqn:Ee; [|lia]. split; [auto|].
  assert (o <= zlen (pd_linp p)); [|lia]. apply Hfree; [done|]. apply (unused_in_view p Hok), unused_count_pos.
  apply existsb_exists in Ee as (lp & [i Hi]%list_elem_of_In%list_elem_of_lookup_1 & Hl). exists (Z.of_nat i), lp.
  unfold zget. destruct (Z.ltb_spec (Z.of_nat i) 0); [lia|]. rewrite Nat2Z.id. unfold ItemIdIsUsed in Hl.
  split; [done|lia].
Qed.


(** ** Index pages *)

(** On a well-formed index page [PageIndexTupleDelete] takes exactly one
    item out of the sequence and renumbers the later ones, and
    [PageIndexTupleDeleteNoCompact] marks it unused, or drops the last one, and
    renumbers nothing; every other item keeps its bytes and the page stays well
    formed.  Both report an offset number that is not on the page. *)
Theorem tuple_delete_spec p offnum :
  page_ok p ->
  (all_stored p -> 1 <= offnum <= zlen (pd_linp p) ->
    exists p', PageIndexTupleDelete p offnum = Ret p' /\ page_ok p' /\
      view p' = take (Z.to_nat (offnum - 1)) (view p) ++ drop (Z.to_nat offnum) (view p)) /\
  (forall tup, zget (pd_linp p) (offnum - 1) = Some tup -> ItemIdHasStorage tup = true ->
    exists p', PageIndexTupleDeleteNoCompact p offnum = Ret p' /\ page_ok p' /\
      view p' = unlink (view p) offnum (NoStorage LP_UNUSED 0)) /\
  (offnum < 1 \/ zlen (pd_linp p) < offnum ->
    PageIndexTupleDelete p offnum = Elog "invalid index offnum" /\
    PageIndexTupleDeleteNoCompact p offnum = Elog "invalid index offnum").
Proof.
  intros Hok. split_and!.
  - intros Hall Ho. destruct (tuple_delete p offnum Hok Hall Ho) as (p' & ? & ? & _ & ? & _). by exists p'.
  - intros tup. by apply tuple_delete_no_compact.
  - intros Ho. unfold PageIndexTupleDelete, PageIndexTupleDeleteNoCompact.
    rewrite not_corrupted, special_aligned, max_offset_number by done. cbn [orb negb].
    by assert ((offnum <=? 0) || (zlen (pd_linp p) <? offnum) = true) as -> by lia.
Qed.

(** C39. [PageIndexTupleOverwrite] on an item of a well-formed page answers
    false, leaving the page alone, exactly when the aligned new size exceeds the
    old aligned size plus the free space; otherwise the item holds exactly the
    new bytes, every other item keeps its offset number and bytes although its
    data may have moved, and the page stays well formed. *)
Theorem tuple_overwrite_spec p offnum tup newtup newsize :
  page_ok p -> zget (pd_linp p) (offnum - 1) = Some tup -> ItemIdHasStorage tup = true ->
  0 < newsize <= zlen newtup ->
  if MAXALIGN (lp_len tup) + PageGetExactFreeSpace p <? MAXALIGN newsize
  then PageIndexTupleOverwrite p offnum newtup newsize = Ret (false, p)
  else exists p', PageIndexTupleOverwrite p offnum newtup newsize = Ret (true, p') /\ page_ok p' /\
    view p' = take (Z.to_nat (offnum - 1)) (view p) ++ Stored LP_NORMAL (take (Z.to_nat newsize) newtup) ::
              drop (Z.to_nat offnum) (view p).
Proof.
  intros Hok Ht Hs Hn. replace (PageGetExactFreeSpace p) with (pd_upper p - pd_lower p).
  - by apply tuple_overwrite.
  - unfold PageGetExactFreeSpace. destruct (po_bounds p Hok), (Z.ltb_spec (pd_upper p - pd_lower p) 0); lia.
Qed.

Section multi.
Context `{ItemSortLaws}.

(** C38. [PageIndexMultiDelete], given the offset numbers to delete in
    increasing order, returns a well-formed page with exactly the other items,
    in order and byte for byte, on the path that deletes them one by one and on
    the path that compacts the page once. *)
Theorem multi_delete_spec p itemnos :
  page_ok p -> all_stored p -> zlen (pd_linp p) <= MaxIndexTuplesPerPage ->
  StronglySorted Z.lt itemnos -> (forall a, a ∈ itemnos -> 1 <= a <= zlen (pd_linp p)) ->
  zlen itemnos <= MaxIndexTuplesPerPage ->
  exists p', PageIndexMultiDelete p itemnos = Ret p' /\ page_ok p' /\
    view p' = without (view p) FirstOffsetNumber itemnos.
Proof. apply multi_delete. Qed.
End multi.

(** ** A page *)

Definition apartb (a b : ItemIdData) : bool :=
  negb (ItemIdHasStorage a) || negb (ItemIdHasStorage b) || (lp_end a <=? lp_off b) || (lp_end b <=? lp_off a).

Definition lp_okb (upper special : Z) (lp : ItemIdData) : bool :=
  (0 <=? lp_off lp) && (lp_off lp <? 2 ^ 15) && (0 <=? lp_len lp) && (lp_len lp <? 2 ^ 15) &&
  (0 <=? lp_flags lp) && (lp_flags lp <=? 3) &&
  (ItemIdIsUsed lp || (lp_off lp =? 0) && (lp_len lp =? 0)) &&
  (negb (ItemIdHasStorage lp) || (upper <=? lp_off lp) && (lp_end lp <=? special) && (lp_off lp mod 8 =? 0)).

Fixpoint pairwise (f : ItemIdData -> ItemIdData -> bool) (l : list ItemIdData) : bool :=
  match l with [] => true | x :: l => forallb (f x) l && pairwise f l end.

Definition page_okb (p : Page) : bool :=
  (pd_lower p =? SizeOfPageHeaderData + sizeof_ItemIdData * zlen (pd_linp p)) &&
  (pd_lower p <=? pd_upper p) && (pd_upper p <=? pd_special p) && (pd_special p <=? BLCKSZ) &&
  (pd_upper p mod 8 =? 0) && (pd_special p mod 8 =? 0) && (zlen (pd_block p) =? BLCKSZ) &&
  forallb (lp_okb (pd_upper p) (pd_special p)) (pd_linp p) && pairwise apartb (pd_linp p).

Lemma lp_okb_sound upper special lp : lp_okb upper special lp = true -> lp_ok upper special lp.
Proof.
  unfold lp_okb, ItemIdIsUsed. intros H. split.
  - lia.
  - intros Hu. destruct lp as [o f l]. cbn [lp_flags lp_off lp_len] in *. subst f.
    change (negb (LP_UNUSED =? LP_UNUSED)) with false in H. assert (o = 0 /\ l = 0) as [-> ->] by lia. done.
  - intros Hs. rewrite Hs in H. cbn [negb orb] in H. lia.
Qed.

Lemma pairwise_sound linp : pairwise apartb linp = true -> StronglySorted apart linp.
Proof.
  induction linp as [|lp linp IH]; cbn [pairwise]; [constructor|]. intros [H1 H2]%andb_true_iff.
  constructor; [auto|]. apply Forall_forall. intros b Hb%list_elem_of_In Hs Hs'. rewrite forallb_forall in H1.
  specialize (H1 b Hb). unfold apartb in H1. rewrite Hs, Hs' in H1. cbn [negb orb] in H1. lia.
Qed.

Lemma page_okb_sound p : page_okb p = true -> page_ok p.
Proof.
  unfold page_okb. intros [[H H1]%andb_true_iff H2]%andb_true_iff. split; try lia.
  - intros i lp Hi. apply lp_okb_sound. rewrite forallb_forall in H1. apply H1, list_elem_of_In, zget_elem. eauto.
  - by apply apart_sorted, pairwise_sound.
Qed.

#[global] Instance itemoffcompare_dec : RelDecision (fun a b => itemoffcompare a b <= 0).
Proof. intros a b. unfold Decision. apply Z_le_dec. Defined.

#[global] Instance sort_by_offset : ItemSort := merge_sort (fun a b => itemoffcompare a b <= 0).

#[global] Instance sort_by_offset_laws : ItemSortLaws.
Proof.
  split; intros l; [apply merge_sort_Permutation|]. apply StronglySorted_merge_sort.
  - intros a b c. unfold itemoffcompare. lia.
  - intros a b. unfold itemoffcompare. lia.
Qed.

(** A page with four items, the second of them freed. *)
Definition sample_page : Page :=
  {| pd_flags := 0; pd_lower := 40; pd_upper := 8144; pd_special := 8176; pd_pagesize_version := 8196;
     pd_linp := [ItemIdSetNormal 8168 5; ItemIdSetUnused; ItemIdSetNormal 8152 8; ItemIdSetNormal 8144 3];
     pd_block := (fun i => Z.of_nat i mod 251) <$> seq 0 (Z.to_nat BLCKSZ) |}.

Lemma sample_page_ok : page_ok sample_page.
Proof. apply page_okb_sound. vm_compute. reflexivity. Qed.

Definition sample_index : Page :=
  {| pd_flags := 0; pd_lower := 40; pd_upper := 8144; pd_special := 8176; pd_pagesize_version := 8196;
     pd_linp := [ItemIdSetNormal 8168 5; ItemIdSetNormal 8160 6; ItemIdSetNormal 8152 8; ItemIdSetNormal 8144 3];
     pd_block := (fun i => Z.of_nat i mod 251) <$> seq 0 (Z.to_nat BLCKSZ) |}.

Lemma sample_index_ok : page_ok sample_index /\ all_stored sample_index.
Proof.
  split; [apply page_okb_sound; vm_compute; reflexivity|].
  assert (forallb ItemIdHasStorage (pd_linp sample_index) = true) as H by reflexivity. rewrite forallb_forall in H.
  intros i lp Hi. apply H, list_elem_of_In, zget_elem. eauto.
Qed.

Lemma repair_fragmentation_spec_witness :
  exists p', PageRepairFragmentation sample_page = Ret p' /\ view p' = view sample_page /\
    PageGetExactFreeSpace p' = 8112 /\ PageHasFreeLinePointers p' = true.
Proof.
  destruct (repair_fragmentation_spec sample_page) as (p' & E & _ & V & _ & S & F);
    [exact sample_page_ok|vm_compute; discriminate|].
  exists p'. split; [exact E|]. split; [exact V|]. split.
  - rewrite S. vm_compute. reflexivity.
  - apply F. apply (unused_in_view _ sample_page_ok). vm_compute. reflexivity.
Defined.


Lemma tuple_delete_spec_witness :
  (exists p', PageIndexTupleDelete sample_index 3 = Ret p' /\ page_ok p' /\
    view p' = take 2 (view sample_index) ++ drop 3 (view sample_index)) /\
  (exists p', PageIndexTupleDeleteNoCompact sample_page 3 = Ret p' /\ page_ok p' /\
    view p' = unlink (view sample_page) 3 (NoStorage LP_UNUSED 0)) /\
  PageIndexTupleDelete sample_index 5 = Elog "invalid index offnum".
Proof.
  split; [|split].
  - apply (tuple_delete_spec sample_index 3); [apply sample_index_ok..|]. vm_compute. split; discriminate.
  - apply (tuple_delete_spec sample_page 3) with (ItemIdSetNormal 8152 8); [exact sample_page_ok|reflexivity..].
  - apply (tuple_delete_spec sample_index 5); [apply sample_index_ok|]. right. reflexivity.
Defined.

Lemma tuple_overwrite_spec_witness :
  exists p', PageIndexTupleOverwrite sample_index 2 [1; 2; 3; 4; 5; 6; 7; 8; 9] 9 = Ret (true, p') /\ page_ok p' /\
    view p' = take 1 (view sample_index) ++ Stored LP_NORMAL [1; 2; 3; 4; 5; 6; 7; 8; 9] :: drop 2 (view sample_index).
Proof.
  apply (tuple_overwrite_spec sample_index 2 (ItemIdSetNormal 8160 6) [1; 2; 3; 4; 5; 6; 7; 8; 9] 9);
    [apply sample_index_ok|reflexivity..|vm_compute; split; [reflexivity|discriminate]].
Defined.

Lemma multi_delete_spec_witness :
  exists p', PageIndexMultiDelete sample_index [1; 2; 4] = Ret p' /\ page_ok p' /\
    view p' = drop 2 (take 3 (view sample_index)).
Proof.
  apply (multi_delete_spec sample_index [1; 2; 4]); [apply sample_index_ok..|vm_compute; discriminate| |
    |vm_compute; discriminate].
  - repeat (constructor; [|repeat constructor; reflexivity]). constructor.
  - intros a Ha. repeat (apply elem_of_cons in Ha as [->|Ha]; [vm_compute; split; discriminate|]).
    by apply elem_of_nil in Ha.
Defined.
