(* ===== verification/ProcShared.v ===== *)
(** The shared process array ([storage/ipc/procarray.c]) and the assignment of
    transaction ids ([access/transam/varsup.c]): what a backend publishes, how
    ids are handed out and withdrawn, and how snapshots and the VACUUM horizon
    are computed from it.

    [GetSnapshotData] and [GetOldestXmin] hold [ProcArrayLock] in share mode
    only, so other backends go on assigning ids and publishing their [xmin]
    while they scan.  Both therefore read from a memory that changes with time:
    [mem t] is the contents of [allPgXact] at the [t]-th read of the scan. *)
From S2P Require Import Prelude Transam HeapTuple Combocid Tqual.

(** ** What a backend publishes *)

(** [PGXACT] with the fields of [PGPROC] that belong to the transaction;
    [px_subxids] are the first [nxids] entries of [subxids.xids]. *)
Record PGXACT := {
  px_xid : TransactionId;
  px_xmin : TransactionId;
  px_vacuumFlags : Z;
  px_overflowed : bool;
  px_delayChkpt : bool;
  px_subxids : list TransactionId;
  px_lxid : Z;
  px_recoveryConflictPending : bool;
  px_databaseId : Z
}.

Definition PGPROC_MAX_CACHED_SUBXIDS : Z := 64.
Definition PROC_IN_VACUUM : Z := 2.
Definition PROC_IN_ANALYZE : Z := 4.
Definition PROC_VACUUM_FOR_WRAPAROUND : Z := 8.
Definition PROC_IN_LOGICAL_DECODING : Z := 16.
Definition PROC_VACUUM_STATE_MASK : Z := Z.lor (Z.lor PROC_IN_VACUUM PROC_IN_ANALYZE) PROC_VACUUM_FOR_WRAPAROUND.
Definition PROCARRAY_SLOTS_XMIN : Z := 32.
Definition PROCARRAY_PROC_FLAGS_MASK : Z := Z.lor (Z.lor 2 4) 16.
Definition InvalidLocalTransactionId : Z := 0.
Definition InvalidOid : Z := 0.

(** [ShmemVariableCache], [procArray] and [allPgXact]. *)
Record ProcShared := {
  sh_nextXid : TransactionId;
  sh_oldestXid : TransactionId;
  sh_xidVacLimit : TransactionId;
  sh_xidWarnLimit : TransactionId;
  sh_xidStopLimit : TransactionId;
  sh_xidWrapLimit : TransactionId;
  sh_latestCompletedXid : TransactionId;
  sh_maxProcs : Z;
  sh_pgprocnos : list Z;
  sh_allPgXact : list PGXACT;
  sh_replication_slot_xmin : TransactionId;
  sh_replication_slot_catalog_xmin : TransactionId
}.

Definition set_allPgXact (s : ProcShared) (m : list PGXACT) : ProcShared :=
  {| sh_nextXid := sh_nextXid s; sh_oldestXid := sh_oldestXid s; sh_xidVacLimit := sh_xidVacLimit s;
     sh_xidWarnLimit := sh_xidWarnLimit s; sh_xidStopLimit := sh_xidStopLimit s; sh_xidWrapLimit := sh_xidWrapLimit s;
     sh_latestCompletedXid := sh_latestCompletedXid s; sh_maxProcs := sh_maxProcs s; sh_pgprocnos := sh_pgprocnos s;
     sh_allPgXact := m; sh_replication_slot_xmin := sh_replication_slot_xmin s;
     sh_replication_slot_catalog_xmin := sh_replication_slot_catalog_xmin s |}.

Definition set_nextXid (s : ProcShared) (x : TransactionId) : ProcShared :=
  {| sh_nextXid := x; sh_oldestXid := sh_oldestXid s; sh_xidVacLimit := sh_xidVacLimit s;
     sh_xidWarnLimit := sh_xidWarnLimit s; sh_xidStopLimit := sh_xidStopLimit s; sh_xidWrapLimit := sh_xidWrapLimit s;
     sh_latestCompletedXid := sh_latestCompletedXid s; sh_maxProcs := sh_maxProcs s; sh_pgprocnos := sh_pgprocnos s;
     sh_allPgXact := sh_allPgXact s; sh_replication_slot_xmin := sh_replication_slot_xmin s;
     sh_replication_slot_catalog_xmin := sh_replication_slot_catalog_xmin s |}.

Definition set_latestCompletedXid (s : ProcShared) (x : TransactionId) : ProcShared :=
  {| sh_nextXid := sh_nextXid s; sh_oldestXid := sh_oldestXid s; sh_xidVacLimit := sh_xidVacLimit s;
     sh_xidWarnLimit := sh_xidWarnLimit s; sh_xidStopLimit := sh_xidStopLimit s; sh_xidWrapLimit := sh_xidWrapLimit s;
     sh_latestCompletedXid := x; sh_maxProcs := sh_maxProcs s; sh_pgprocnos := sh_pgprocnos s;
     sh_allPgXact := sh_allPgXact s; sh_replication_slot_xmin := sh_replication_slot_xmin s;
     sh_replication_slot_catalog_xmin := sh_replication_slot_catalog_xmin s |}.

Definition set_pgprocnos (s : ProcShared) (l : list Z) : ProcShared :=
  {| sh_nextXid := sh_nextXid s; sh_oldestXid := sh_oldestXid s; sh_xidVacLimit := sh_xidVacLimit s;
     sh_xidWarnLimit := sh_xidWarnLimit s; sh_xidStopLimit := sh_xidStopLimit s; sh_xidWrapLimit := sh_xidWrapLimit s;
     sh_latestCompletedXid := sh_latestCompletedXid s; sh_maxProcs := sh_maxProcs s; sh_pgprocnos := l;
     sh_allPgXact := sh_allPgXact s; sh_replication_slot_xmin := sh_replication_slot_xmin s;
     sh_replication_slot_catalog_xmin := sh_replication_slot_catalog_xmin s |}.

(** [allPgXact[i] = f(allPgXact[i])]. *)
Definition update_proc (s : ProcShared) (i : Z) (f : PGXACT -> PGXACT) : cres ProcShared :=
  let* p := deref (zget (sh_allPgXact s) i) in
  let* m := deref (zset (sh_allPgXact s) i (f p)) in
  Ret (set_allPgXact s m).

Definition set_xid (x : TransactionId) (p : PGXACT) : PGXACT :=
  {| px_xid := x; px_xmin := px_xmin p; px_vacuumFlags := px_vacuumFlags p; px_overflowed := px_overflowed p;
     px_delayChkpt := px_delayChkpt p; px_subxids := px_subxids p; px_lxid := px_lxid p;
     px_recoveryConflictPending := px_recoveryConflictPending p; px_databaseId := px_databaseId p |}.
Definition set_xmin (x : TransactionId) (p : PGXACT) : PGXACT :=
  {| px_xid := px_xid p; px_xmin := x; px_vacuumFlags := px_vacuumFlags p; px_overflowed := px_overflowed p;
     px_delayChkpt := px_delayChkpt p; px_subxids := px_subxids p; px_lxid := px_lxid p;
     px_recoveryConflictPending := px_recoveryConflictPending p; px_databaseId := px_databaseId p |}.
Definition set_subxids (l : list TransactionId) (o : bool) (p : PGXACT) : PGXACT :=
  {| px_xid := px_xid p; px_xmin := px_xmin p; px_vacuumFlags := px_vacuumFlags p; px_overflowed := o;
     px_delayChkpt := px_delayChkpt p; px_subxids := l; px_lxid := px_lxid p;
     px_recoveryConflictPending := px_recoveryConflictPending p; px_databaseId := px_databaseId p |}.

(** A backend marks itself while it holds [ProcArrayLock], as [vacuum_rel] of
    vacuum.c does. *)
Definition set_vacuumFlags (f : Z) (p : PGXACT) : PGXACT :=
  {| px_xid := px_xid p; px_xmin := px_xmin p; px_vacuumFlags := Z.lor (px_vacuumFlags p) f;
     px_overflowed := px_overflowed p; px_delayChkpt := px_delayChkpt p; px_subxids := px_subxids p;
     px_lxid := px_lxid p; px_recoveryConflictPending := px_recoveryConflictPending p;
     px_databaseId := px_databaseId p |}.

(** A backend that starts marks its entry with its database, without a lock, as
    [InitPostgres] of postinit.c does. *)
Definition set_databaseId (d : Z) (p : PGXACT) : PGXACT :=
  {| px_xid := px_xid p; px_xmin := px_xmin p; px_vacuumFlags := px_vacuumFlags p;
     px_overflowed := px_overflowed p; px_delayChkpt := px_delayChkpt p; px_subxids := px_subxids p;
     px_lxid := px_lxid p; px_recoveryConflictPending := px_recoveryConflictPending p; px_databaseId := d |}.

(** ** Assigning ids *)

Record BackendMode := {
  IsInParallelMode : bool;
  IsBootstrapProcessingMode : bool;
  RecoveryInProgress : bool;
  IsUnderPostmaster : bool
}.

(** The first part of [GetNewTransactionId], before the lock may be dropped. *)
Definition xid_limit_check (env : BackendMode) (s : ProcShared) : cres unit :=
  let xid := sh_nextXid s in
  if TransactionIdFollowsOrEquals xid (sh_xidVacLimit s) && IsUnderPostmaster env &&
     TransactionIdFollowsOrEquals xid (sh_xidStopLimit s)
  then Elog "database is not accepting commands to avoid wraparound data loss"
  else Ret tt.

(** The second part: advance [nextXid] and publish the id. *)
Definition publish_xid (s : ProcShared) (me : Z) (isSubXact : bool) : cres (TransactionId * ProcShared) :=
  let xid := sh_nextXid s in
  let s := set_nextXid s (TransactionIdAdvance xid) in
  let* s := update_proc s me (fun p =>
    if negb isSubXact then set_xid xid p
    else if zlen (px_subxids p) <? PGPROC_MAX_CACHED_SUBXIDS
         then set_subxids (px_subxids p ++ [xid]) (px_overflowed p) p
         else set_subxids (px_subxids p) true p) in
  Ret (xid, s).

(** [s2] is the shared state when [XidGenLock] is taken again after the
    warnings, in the case that it was released. *)
Definition GetNewTransactionId (env : BackendMode) (s s2 : ProcShared) (me : Z) (isSubXact : bool)
    : cres (TransactionId * ProcShared) :=
  if IsInParallelMode env then Elog "cannot assign TransactionIds during a parallel operation"
  else if IsBootstrapProcessingMode env then
    c_assert (negb isSubXact) ;;
    let* s := update_proc s me (set_xid BootstrapTransactionId) in
    Ret (BootstrapTransactionId, s)
  else if RecoveryInProgress env then Elog "cannot assign TransactionIds during recovery"
  else
    xid_limit_check env s ;;
    if TransactionIdFollowsOrEquals (sh_nextXid s) (sh_xidVacLimit s) then publish_xid s2 me isSubXact
    else publish_xid s me isSubXact.

Definition SetTransactionIdLimit (autovacuum_freeze_max_age : Z) (oldest_datfrozenxid : TransactionId) (s : ProcShared)
    : cres ProcShared :=
  c_assert (TransactionIdIsNormal oldest_datfrozenxid) ;;
  let xidWrapLimit := u32 (oldest_datfrozenxid + Z.shiftr MaxTransactionId 1) in
  let xidWrapLimit := if xidWrapLimit <? FirstNormalTransactionId
                      then u32 (xidWrapLimit + FirstNormalTransactionId) else xidWrapLimit in
  let xidStopLimit := u32 (xidWrapLimit - 1000000) in
  let xidStopLimit := if xidStopLimit <? FirstNormalTransactionId
                      then u32 (xidStopLimit - FirstNormalTransactionId) else xidStopLimit in
  let xidWarnLimit := u32 (xidStopLimit - 10000000) in
  let xidWarnLimit := if xidWarnLimit <? FirstNormalTransactionId
                      then u32 (xidWarnLimit - FirstNormalTransactionId) else xidWarnLimit in
  let xidVacLimit := u32 (oldest_datfrozenxid + autovacuum_freeze_max_age) in
  let xidVacLimit := if xidVacLimit <? FirstNormalTransactionId
                     then u32 (xidVacLimit + FirstNormalTransactionId) else xidVacLimit in
  Ret {| sh_nextXid := sh_nextXid s; sh_oldestXid := oldest_datfrozenxid; sh_xidVacLimit := xidVacLimit;
         sh_xidWarnLimit := xidWarnLimit; sh_xidStopLimit := xidStopLimit; sh_xidWrapLimit := xidWrapLimit;
         sh_latestCompletedXid := sh_latestCompletedXid s; sh_maxProcs := sh_maxProcs s;
         sh_pgprocnos := sh_pgprocnos s; sh_allPgXact := sh_allPgXact s;
         sh_replication_slot_xmin := sh_replication_slot_xmin s;
         sh_replication_slot_catalog_xmin := sh_replication_slot_catalog_xmin s |}.

(** ** Entering and leaving the array *)

(** The array is kept sorted by [pgprocno]. *)
Fixpoint insert_procno (l : list Z) (pgprocno : Z) : list Z :=
  match l with
  | [] => [pgprocno]
  | i :: l' => if (i =? -1) || (i >? pgprocno) then pgprocno :: l else i :: insert_procno l' pgprocno
  end.

Definition ProcArrayAdd (s : ProcShared) (pgprocno : Z) : cres ProcShared :=
  if sh_maxProcs s <=? zlen (sh_pgprocnos s) then Elog "sorry, too many clients already"
  else Ret (set_pgprocnos s (insert_procno (sh_pgprocnos s) pgprocno)).

Definition advance_latest (s : ProcShared) (latestXid : TransactionId) : ProcShared :=
  if TransactionIdPrecedes (sh_latestCompletedXid s) latestXid then set_latestCompletedXid s latestXid else s.

Fixpoint remove_procno (l : list Z) (pgprocno : Z) : list Z :=
  match l with
  | [] => []
  | i :: l' => if i =? pgprocno then l' else i :: remove_procno l' pgprocno
  end.

(** Whether the entry was missing is only logged. *)
Definition ProcArrayRemove (s : ProcShared) (pgprocno : Z) (latestXid : TransactionId) : cres ProcShared :=
  let* p := deref (zget (sh_allPgXact s) pgprocno) in
  c_assert (Bool.eqb (TransactionIdIsValid latestXid) (TransactionIdIsValid (px_xid p))) ;;
  let s := if TransactionIdIsValid latestXid then advance_latest s latestXid else s in
  Ret (set_pgprocnos s (remove_procno (sh_pgprocnos s) pgprocno)).

Definition ProcArrayEndTransactionInternal (s : ProcShared) (pgprocno : Z) (latestXid : TransactionId)
    : cres ProcShared :=
  let* s := update_proc s pgprocno (fun p =>
    {| px_xid := InvalidTransactionId; px_xmin := InvalidTransactionId;
       px_vacuumFlags := Z.land (px_vacuumFlags p) (Z.lnot PROC_VACUUM_STATE_MASK);
       px_overflowed := false; px_delayChkpt := false; px_subxids := []; px_lxid := InvalidLocalTransactionId;
       px_recoveryConflictPending := false; px_databaseId := px_databaseId p |}) in
  Ret (advance_latest s latestXid).

(** The leader of a group clears the ids of all its members under one lock. *)
Fixpoint group_clear (s : ProcShared) (members : list (Z * TransactionId)) : cres ProcShared :=
  match members with
  | [] => Ret s
  | (pgprocno, latestXid) :: members =>
      let* s := ProcArrayEndTransactionInternal s pgprocno latestXid in group_clear s members
  end.

(** [group]: what the lock was not free for, if so; the backend is then among
    the members. *)
Definition ProcArrayEndTransaction (s : ProcShared) (pgprocno : Z) (latestXid : TransactionId)
    (group : option (list (Z * TransactionId))) : cres ProcShared :=
  let* p := deref (zget (sh_allPgXact s) pgprocno) in
  if TransactionIdIsValid latestXid then
    c_assert (TransactionIdIsValid (px_xid p)) ;;
    match group with
    | None => ProcArrayEndTransactionInternal s pgprocno latestXid
    | Some members => group_clear s members
    end
  else
    c_assert (negb (TransactionIdIsValid (px_xid p))) ;;
    c_assert ((zlen (px_subxids p) =? 0) && negb (px_overflowed p)) ;;
    update_proc s pgprocno (fun p =>
      {| px_xid := px_xid p; px_xmin := InvalidTransactionId;
         px_vacuumFlags := Z.land (px_vacuumFlags p) (Z.lnot PROC_VACUUM_STATE_MASK);
         px_overflowed := px_overflowed p; px_delayChkpt := false; px_subxids := px_subxids p;
         px_lxid := InvalidLocalTransactionId; px_recoveryConflictPending := false;
         px_databaseId := px_databaseId p |}).

(** [XidCacheRemove(i)] for the last entry equal to [xid], if there is one: the
    last entry of the array takes its place. *)
Definition cache_remove (l : list TransactionId) (xid : TransactionId) : list TransactionId :=
  match list_find (fun y => y = xid) (rev l) with
  | None => l
  | Some (k, _) =>
      let j := (length l - 1 - k)%nat in
      match last l with
      | None => l
      | Some y => take (length l - 1) (<[j := y]> l)
      end
  end.

Definition XidCacheRemoveRunningXids (s : ProcShared) (me : Z) (xid : TransactionId) (xids : list TransactionId)
    (latestXid : TransactionId) : cres ProcShared :=
  c_assert (TransactionIdIsValid xid) ;;
  let* s := update_proc s me (fun p =>
    set_subxids (cache_remove (foldl cache_remove (px_subxids p) (rev xids)) xid) (px_overflowed p) p) in
  Ret (advance_latest s latestXid).

(** ** Snapshots *)

Definition NormalTransactionIdPrecedes (id1 id2 : TransactionId) : cres bool :=
  c_assert (TransactionIdIsNormal id1 && TransactionIdIsNormal id2) ;;
  Ret (s32 (id1 - id2) <? 0).

(** [if (TransactionIdIsNormal(x) && NormalTransactionIdPrecedes(x, m)) m = x;] *)
Definition lower_to (x m : TransactionId) : cres TransactionId :=
  if TransactionIdIsNormal x then
    let* b := NormalTransactionIdPrecedes x m in Ret (if b then x else m)
  else Ret m.

(** The variables of the loop; [snapshot->xip] and [subxip] hold [count] and
    [subcount] ids. *)
Record snap_scan := {
  sc_xmin : TransactionId;
  sc_globalxmin : TransactionId;
  sc_xip : list TransactionId;
  sc_subxip : list TransactionId;
  sc_suboverflowed : bool
}.

(** One round of the loop over [pgprocnos]: [p] is the entry when [xmin] and
    [xid] are fetched, [q] when the subtransaction ids are. *)
Definition snapshot_visit (maxProcs me : Z) (xmax : TransactionId) (pgprocno : Z) (p q : PGXACT) (sc : snap_scan)
    : cres snap_scan :=
  if has (px_vacuumFlags p) PROC_IN_LOGICAL_DECODING then Ret sc
  else if has (px_vacuumFlags p) PROC_IN_VACUUM then Ret sc
  else
    let* globalxmin := lower_to (px_xmin p) (sc_globalxmin sc) in
    let xid := px_xid p in
    let* skip := (if negb (TransactionIdIsNormal xid) then Ret true
                  else let* b := NormalTransactionIdPrecedes xid xmax in Ret (negb b)) in
    if skip then
      Ret {| sc_xmin := sc_xmin sc; sc_globalxmin := globalxmin; sc_xip := sc_xip sc; sc_subxip := sc_subxip sc;
             sc_suboverflowed := sc_suboverflowed sc |}
    else
      let* b := NormalTransactionIdPrecedes xid (sc_xmin sc) in
      let xmin := if b then xid else sc_xmin sc in
      if pgprocno =? me then
        Ret {| sc_xmin := xmin; sc_globalxmin := globalxmin; sc_xip := sc_xip sc; sc_subxip := sc_subxip sc;
               sc_suboverflowed := sc_suboverflowed sc |}
      else
        c_assert (zlen (sc_xip sc) <? maxProcs) ;;
        let xip := sc_xip sc ++ [xid] in
        if sc_suboverflowed sc then
          Ret {| sc_xmin := xmin; sc_globalxmin := globalxmin; sc_xip := xip; sc_subxip := sc_subxip sc;
                 sc_suboverflowed := true |}
        else if px_overflowed q then
          Ret {| sc_xmin := xmin; sc_globalxmin := globalxmin; sc_xip := xip; sc_subxip := sc_subxip sc;
                 sc_suboverflowed := true |}
        else
          c_assert (zlen (sc_subxip sc) + zlen (px_subxids q) <=? (PGPROC_MAX_CACHED_SUBXIDS + 1) * maxProcs) ;;
          Ret {| sc_xmin := xmin; sc_globalxmin := globalxmin; sc_xip := xip; sc_subxip := sc_subxip sc ++ px_subxids q;
                 sc_suboverflowed := false |}.

Fixpoint snapshot_loop (maxProcs me : Z) (xmax : TransactionId) (pgprocnos : list Z) (mem : nat -> list PGXACT) (t : nat)
    (sc : snap_scan) : cres snap_scan :=
  match pgprocnos with
  | [] => Ret sc
  | pgprocno :: pgprocnos =>
      let* p := deref (zget (mem t) pgprocno) in
      let* q := deref (zget (mem (S t)) pgprocno) in
      let* sc := snapshot_visit maxProcs me xmax pgprocno p q sc in
      snapshot_loop maxProcs me xmax pgprocnos mem (S (S t)) sc
  end.

(** The backend's own variables a snapshot sets. *)
Record SnapshotResult := {
  res_snapshot : SnapshotData;
  res_my_xmin : TransactionId;           (* MyPgXact->xmin afterwards *)
  res_RecentXmin : TransactionId;
  res_RecentGlobalXmin : TransactionId;
  res_RecentGlobalDataXmin : TransactionId
}.

(** [RecentGlobalXmin] and [RecentGlobalDataXmin] after the scan. *)
Definition recent_global (s : ProcShared) (vacuum_defer_cleanup_age : Z) (globalxmin : TransactionId)
    : cres (TransactionId * TransactionId) :=
  let g := u32 (globalxmin - vacuum_defer_cleanup_age) in
  let g := if TransactionIdIsNormal g then g else FirstNormalTransactionId in
  let slot := sh_replication_slot_xmin s in
  let* g := (if TransactionIdIsValid slot
             then let* b := NormalTransactionIdPrecedes slot g in Ret (if b then slot else g) else Ret g) in
  let* c := lower_to (sh_replication_slot_catalog_xmin s) g in
  Ret (c, g).

(** [s]: the shared state when [ProcArrayLock] is taken; [mem]: what the scan
    reads, the last read being the own [xmin].  In recovery the running ids are
    what [known_assigned] ([KnownAssignedXidsGetAndSetXmin]) answers. *)
Definition GetSnapshotData (env : BackendMode) (vacuum_defer_cleanup_age : Z) (lastOverflowedXid : TransactionId)
    (known_assigned : TransactionId -> TransactionId -> list TransactionId * TransactionId)
    (curcid : CommandId) (s : ProcShared) (mem : nat -> list PGXACT) (me : Z) : cres SnapshotResult :=
  c_assert (TransactionIdIsNormal (sh_latestCompletedXid s)) ;;
  let xmax := TransactionIdAdvance (sh_latestCompletedXid s) in
  let* sc :=
    (if negb (RecoveryInProgress env) then
       snapshot_loop (sh_maxProcs s) me xmax (sh_pgprocnos s) mem 0
         {| sc_xmin := xmax; sc_globalxmin := xmax; sc_xip := []; sc_subxip := []; sc_suboverflowed := false |}
     else
       let '(subxip, xmin) := known_assigned xmax xmax in
       Ret {| sc_xmin := xmin; sc_globalxmin := xmax; sc_xip := []; sc_subxip := subxip;
              sc_suboverflowed := TransactionIdPrecedesOrEquals xmin lastOverflowedXid |}) in
  let* mine := deref (zget (mem (2 * length (sh_pgprocnos s))%nat) me) in
  let my_xmin := if negb (TransactionIdIsValid (px_xmin mine)) then sc_xmin sc else px_xmin mine in
  let globalxmin := if TransactionIdPrecedes (sc_xmin sc) (sc_globalxmin sc) then sc_xmin sc else sc_globalxmin sc in
  let* (g, gd) := recent_global s vacuum_defer_cleanup_age globalxmin in
  Ret {| res_snapshot :=
           {| snap_xmin := sc_xmin sc; snap_xmax := xmax; snap_xip := sc_xip sc; snap_xcnt := zlen (sc_xip sc);
              snap_subxip := sc_subxip sc; snap_subxcnt := zlen (sc_subxip sc);
              snap_suboverflowed := sc_suboverflowed sc; snap_takenDuringRecovery := RecoveryInProgress env;
              snap_curcid := curcid; snap_speculativeToken := 0 |};
         res_my_xmin := my_xmin; res_RecentXmin := sc_xmin sc;
         res_RecentGlobalXmin := g; res_RecentGlobalDataXmin := gd |}.

(** ** Letting go of snapshots ([utils/time/snapmgr.c]) *)

Definition xmin_cmp (asnap bsnap : SnapshotData) : Z :=
  if TransactionIdPrecedes (snap_xmin asnap) (snap_xmin bsnap) then 1
  else if TransactionIdFollows (snap_xmin asnap) (snap_xmin bsnap) then -1
  else 0.

(** [pairingheap_first(&RegisteredSnapshots)]: one that no other compares greater
    to; [None] for the empty heap. *)
Definition first_registered (registered : list SnapshotData) : option SnapshotData :=
  match registered with
  | [] => None
  | a :: l => Some (fold_left (fun m b => if 0 <? xmin_cmp b m then b else m) l a)
  end.

(** [active]: whether the stack of active snapshots is not empty. *)
Definition SnapshotResetXmin (s : ProcShared) (me : Z) (active : bool) (registered : list SnapshotData) : cres ProcShared :=
  if active then Ret s else
  match first_registered registered with
  | None => update_proc s me (set_xmin InvalidTransactionId)
  | Some minSnapshot =>
      let* p := deref (zget (sh_allPgXact s) me) in
      if TransactionIdPrecedes (px_xmin p) (snap_xmin minSnapshot)
      then update_proc s me (set_xmin (snap_xmin minSnapshot)) else Ret s
  end.

(** ** The horizon of VACUUM *)

(** [if (TransactionIdIsNormal(x) && TransactionIdPrecedes(x, result)) result = x;] *)
Definition oldest_of (x result : TransactionId) : TransactionId :=
  if TransactionIdIsNormal x && TransactionIdPrecedes x result then x else result.

Definition oldest_visit (flags : Z) (allDbs : bool) (MyDatabaseId : Z) (p q : PGXACT) (result : TransactionId)
    : TransactionId :=
  if has (px_vacuumFlags p) (Z.land flags PROCARRAY_PROC_FLAGS_MASK) then result
  else if allDbs || (px_databaseId p =? MyDatabaseId) || (px_databaseId p =? 0)
       then oldest_of (px_xmin q) (oldest_of (px_xid p) result)
       else result.

Fixpoint oldest_loop (flags : Z) (allDbs : bool) (MyDatabaseId : Z) (pgprocnos : list Z) (mem : nat -> list PGXACT)
    (t : nat) (result : TransactionId) : cres TransactionId :=
  match pgprocnos with
  | [] => Ret result
  | pgprocno :: pgprocnos =>
      let* p := deref (zget (mem t) pgprocno) in
      let* q := deref (zget (mem (S t)) pgprocno) in
      oldest_loop flags allDbs MyDatabaseId pgprocnos mem (S (S t)) (oldest_visit flags allDbs MyDatabaseId p q result)
  end.

(** [rel]: [None] for all relations, else whether it is shared and whether
    logical decoding looks at it. *)
Definition GetOldestXmin (env : BackendMode) (vacuum_defer_cleanup_age : Z) (kaxmin : TransactionId)
    (MyDatabaseId : Z) (rel : option (bool * bool)) (flags : Z) (s : ProcShared) (mem : nat -> list PGXACT)
    : cres TransactionId :=
  let allDbs := match rel with None => true | Some (shared, _) => shared end in
  let catalog := match rel with None => true | Some (_, decoding) => decoding end in
  c_assert (allDbs || negb (RecoveryInProgress env)) ;;
  c_assert (TransactionIdIsNormal (sh_latestCompletedXid s)) ;;
  let* result := oldest_loop flags allDbs MyDatabaseId (sh_pgprocnos s) mem 0
                   (TransactionIdAdvance (sh_latestCompletedXid s)) in
  let result :=
    if RecoveryInProgress env then oldest_of kaxmin result
    else let r := u32 (result - vacuum_defer_cleanup_age) in
         if TransactionIdIsNormal r then r else FirstNormalTransactionId in
  let slots := Z.land flags PROCARRAY_SLOTS_XMIN =? 0 in
  let* result :=
    (if slots && TransactionIdIsValid (sh_replication_slot_xmin s)
     then let* b := NormalTransactionIdPrecedes (sh_replication_slot_xmin s) result in
          Ret (if b then sh_replication_slot_xmin s else result)
     else Ret result) in
  (if slots && catalog && TransactionIdIsValid (sh_replication_slot_catalog_xmin s)
   then let* b := NormalTransactionIdPrecedes (sh_replication_slot_catalog_xmin s) result in
        Ret (if b then sh_replication_slot_catalog_xmin s else result)
   else Ret result).
