(* ===== verification/ProcTrace.v ===== *)
(** Executions of the process array: states in the order of time, with the
    steps other backends may take while [ProcArrayLock] is held in share mode
    told apart from those that need it exclusively. *)
From S2P Require Import Prelude Transam HeapTuple Combocid Tqual ProcShared.

(** ** Ids counted from an oldest one *)

(** How many assignments after [b] the id [x] comes. *)
Definition seqno (b x : TransactionId) : Z := (x - b) mod xid_count.

(** Ids up to this far apart compare by age. *)
Definition xid_window : Z := 2 ^ 31 - 4.

Lemma seqno_bound b x : 0 <= seqno b x < xid_count.
Proof. apply Z.mod_pos_bound. done. Qed.

Lemma seqno_iter b x :
  normal_xid b -> normal_xid x -> Nat.iter (Z.to_nat (seqno b x)) TransactionIdAdvance b = x.
Proof.
  intros Hb Hx. rewrite advance_closed by done. pose proof (seqno_bound b x). rewrite Z2Nat.id by lia.
  unfold seqno. rewrite Z.add_mod_idemp_r by done. replace (b - 3 + (x - b)) with (x - 3) by lia.
  assert (xid_count = 4294967293) as Hn by done. unfold normal_xid in Hx. rewrite Z.mod_small; lia.
Qed.

Lemma seqno_inj b x y : normal_xid b -> normal_xid x -> normal_xid y -> seqno b x = seqno b y -> x = y.
Proof. intros Hb Hx Hy E. by rewrite <- (seqno_iter b x), <- (seqno_iter b y), E. Qed.

Lemma advance_is_normal x : normal_xid x -> normal_xid (TransactionIdAdvance x).
Proof. apply (advance_normal x 1). Qed.

Lemma seqno_advance b x :
  normal_xid x -> seqno b x <= xid_window -> seqno b (TransactionIdAdvance x) = seqno b x + 1.
Proof.
  intros Hx Hw. pose proof (advance_closed x 1 Hx) as E. cbn [Nat.iter nat_rect] in E. simpl Nat.iter in E. rewrite E.
  unfold seqno in *. assert (xid_count = 4294967293) as Hn by done. unfold xid_window, normal_xid in *. rewrite Hn in *.
  pose proof (Z.mod_pos_bound (x - b) 4294967293 ltac:(lia)).
  replace (3 + (x - 3 + Z.of_nat 1) mod 4294967293 - b) with ((x - 3 + 1) mod 4294967293 + (3 - b)) by lia.
  rewrite Z.add_mod_idemp_l by lia. replace (x - 3 + 1 + (3 - b)) with ((x - b) + 1) by lia.
  rewrite <- Z.add_mod_idemp_l by lia. apply Z.mod_small. lia.
Qed.

(** In the window the circular comparison is the one of the numbers. *)
Lemma seqno_diff b x y :
  normal_xid b -> normal_xid x -> normal_xid y -> seqno b x <= xid_window -> seqno b y <= xid_window ->
  Z.sgn (s32 (x - y)) = Z.sgn (seqno b x - seqno b y).
Proof.
  intros Hb Hx Hy Hwx Hwy. pose proof (seqno_bound b x). pose proof (seqno_bound b y). unfold xid_window in *.
  pose proof (advance_diff b (Z.to_nat (seqno b x)) (Z.to_nat (seqno b y)) Hb ltac:(lia)) as Hd. cbn zeta in Hd.
  rewrite !seqno_iter, !Z2Nat.id in Hd by (done || lia). done.
Qed.

Lemma seqno_precedes b x y :
  normal_xid b -> normal_xid x -> normal_xid y -> seqno b x <= xid_window -> seqno b y <= xid_window ->
  TransactionIdPrecedes x y = (seqno b x <? seqno b y).
Proof.
  intros Hb Hx Hy Hwx Hwy. pose proof (seqno_diff b x y Hb Hx Hy Hwx Hwy).
  unfold TransactionIdPrecedes. rewrite !normal_is_normal by done. cbn [negb orb]. lia.
Qed.

Lemma seqno_follows_eq b x y :
  normal_xid b -> normal_xid x -> normal_xid y -> seqno b x <= xid_window -> seqno b y <= xid_window ->
  TransactionIdFollowsOrEquals x y = (seqno b y <=? seqno b x).
Proof.
  intros Hb Hx Hy Hwx Hwy. pose proof (seqno_diff b x y Hb Hx Hy Hwx Hwy).
  unfold TransactionIdFollowsOrEquals. rewrite !normal_is_normal by done. cbn [negb orb]. lia.
Qed.

Lemma seqno_normal_precedes b x y :
  normal_xid b -> normal_xid x -> normal_xid y -> seqno b x <= xid_window -> seqno b y <= xid_window ->
  NormalTransactionIdPrecedes x y = Ret (seqno b x <? seqno b y).
Proof.
  intros Hb Hx Hy Hwx Hwy. pose proof (seqno_diff b x y Hb Hx Hy Hwx Hwy).
  unfold NormalTransactionIdPrecedes. rewrite !normal_is_normal by done. cbn [andb c_assert cbind]. f_equal. lia.
Qed.

(** ** Well-formed shared state *)

Section trace.
Context (b : TransactionId).

Record proc_ok (next : Z) (p : PGXACT) : Prop := {
  pk_xid : px_xid p = InvalidTransactionId \/ (normal_xid (px_xid p) /\ seqno b (px_xid p) < next);
  pk_xmin : px_xmin p = InvalidTransactionId \/ (normal_xid (px_xmin p) /\ seqno b (px_xmin p) <= next);
  pk_subs : forall x, x ∈ px_subxids p ->
    px_xid p <> InvalidTransactionId /\ normal_xid x /\ seqno b (px_xid p) < seqno b x < next;
  pk_nxids : zlen (px_subxids p) <= PGPROC_MAX_CACHED_SUBXIDS;
  pk_overflowed : px_overflowed p = true -> px_xid p <> InvalidTransactionId
}.

Record shared_ok (s : ProcShared) : Prop := {
  so_next : normal_xid (sh_nextXid s) /\ seqno b (sh_nextXid s) <= xid_window;
  so_latest : normal_xid (sh_latestCompletedXid s) /\ seqno b (sh_latestCompletedXid s) < seqno b (sh_nextXid s);
  so_procs : forall i p, zget (sh_allPgXact s) i = Some p -> proc_ok (seqno b (sh_nextXid s)) p;
  so_procnos : NoDup (sh_pgprocnos s) /\ zlen (sh_pgprocnos s) <= sh_maxProcs s /\
    forall i, i ∈ sh_pgprocnos s -> 0 <= i < zlen (sh_allPgXact s)
}.

(** ** Steps *)

(** Steps that need no exclusive [ProcArrayLock]: publishing an id or a
    subtransaction id, publishing, advancing or withdrawing the own [xmin], and
    marking the entry with a database. *)
Inductive share_step (s : ProcShared) : ProcShared -> Prop :=
  | step_none : share_step s s
  | step_assign me p x s' :
      zget (sh_allPgXact s) me = Some p -> px_xid p = InvalidTransactionId ->
      publish_xid s me false = Ret (x, s') -> share_step s s'
  | step_assign_sub me p x s' :
      zget (sh_allPgXact s) me = Some p -> px_xid p <> InvalidTransactionId ->
      publish_xid s me true = Ret (x, s') -> share_step s s'
  | step_xmin me p x s' :
      zget (sh_allPgXact s) me = Some p -> px_xmin p = InvalidTransactionId ->
      normal_xid x -> seqno b x <= seqno b (sh_nextXid s) ->
      update_proc s me (set_xmin x) = Ret s' -> share_step s s'
  | step_reset me active registered s' :
      (forall snap, snap ∈ registered -> normal_xid (snap_xmin snap) /\ seqno b (snap_xmin snap) <= seqno b (sh_nextXid s)) ->
      SnapshotResetXmin s me active registered = Ret s' -> share_step s s'
  | step_database me p d s' :
      zget (sh_allPgXact s) me = Some p -> px_xid p = InvalidTransactionId ->
      update_proc s me (set_databaseId d) = Ret s' -> share_step s s'
  | step_end_noxid me s' :
      ProcArrayEndTransaction s me InvalidTransactionId None = Ret s' -> share_step s s'.

(** Steps under the exclusive lock.  [latestXid] is an id that was assigned,
    and not before the ids it ends. *)
Definition ends (s : ProcShared) (me : Z) (latestXid : TransactionId) : Prop :=
  exists p, zget (sh_allPgXact s) me = Some p /\ px_xid p <> InvalidTransactionId /\
    normal_xid latestXid /\ seqno b (px_xid p) <= seqno b latestXid < seqno b (sh_nextXid s).

Inductive excl_step (s : ProcShared) : ProcShared -> Prop :=
  | step_end me latestXid group s' :
      ends s me latestXid ->
      (forall members, group = Some members -> (me, latestXid) ∈ members /\
        forall i l, (i, l) ∈ members -> ends s i l) ->
      ProcArrayEndTransaction s me latestXid group = Ret s' -> excl_step s s'
  | step_abort_sub me xid xids latestXid s' :
      ends s me latestXid ->
      XidCacheRemoveRunningXids s me xid xids latestXid = Ret s' -> excl_step s s'
  | step_add me p s' :
      zget (sh_allPgXact s) me = Some p -> px_xid p = InvalidTransactionId -> (me ∉ sh_pgprocnos s) ->
      ProcArrayAdd s me = Ret s' -> excl_step s s'
  | step_remove me latestXid s' :
      (latestXid = InvalidTransactionId \/ ends s me latestXid) ->
      ProcArrayRemove s me latestXid = Ret s' -> excl_step s s'
  | step_flags me p f s' :
      zget (sh_allPgXact s) me = Some p -> px_xid p = InvalidTransactionId ->
      update_proc s me (set_vacuumFlags f) = Ret s' -> excl_step s s'.

Definition any_step (s s' : ProcShared) : Prop := share_step s s' \/ excl_step s s'.

Lemma proc_ok_mono n n' p : n <= n' -> proc_ok n p -> proc_ok n' p.
Proof.
  intros Hn [X M S N O]. split; try done.
  - destruct X as [|[? ?]]; [by left|right; split; [done|lia]].
  - destruct M as [|[? ?]]; [by left|right; split; [done|lia]].
  - intros x (? & ? & ?)%S. split_and!; done || lia.
Qed.

(** ** What a step leaves alone *)

Lemma update_proc_inv s i f s' :
  update_proc s i f = Ret s' ->
  exists p m, zget (sh_allPgXact s) i = Some p /\ zset (sh_allPgXact s) i (f p) = Some m /\ s' = set_allPgXact s m.
Proof.
  unfold update_proc. destruct (zget (sh_allPgXact s) i) as [p|]; [|done]. cbn [deref cbind].
  destruct (zset _ i (f p)) as [m|] eqn:E; [|done]. cbn [deref cbind]. intros [= <-]. by exists p, m.
Qed.

Lemma update_proc_get s i f s' j :
  update_proc s i f = Ret s' ->
  zget (sh_allPgXact s') j = if decide (j = i) then f <$> zget (sh_allPgXact s) i else zget (sh_allPgXact s) j.
Proof.
  intros (p & m & Hp & Hm & ->)%update_proc_inv. cbn [sh_allPgXact set_allPgXact].
  rewrite (zget_zset _ _ _ _ _ Hm), Hp. done.
Qed.

(** Everything but the entries is as before. *)
Definition same_array (s s' : ProcShared) : Prop :=
  sh_latestCompletedXid s' = sh_latestCompletedXid s /\ sh_maxProcs s' = sh_maxProcs s /\
  sh_pgprocnos s' = sh_pgprocnos s /\ zlen (sh_allPgXact s') = zlen (sh_allPgXact s).

Lemma update_proc_same s i f s' :
  update_proc s i f = Ret s' -> same_array s s' /\ sh_nextXid s' = sh_nextXid s.
Proof.
  intros (p & m & _ & Hm & ->)%update_proc_inv. apply zset_len in Hm. by split_and!.
Qed.

(** How the entry of a backend may change while [ProcArrayLock] is shared: a
    running transaction stays, with at least its subtransactions; what is new
    is at least [n], the count of ids assigned before. *)
Record grows (n : Z) (p p' : PGXACT) : Prop := {
  gr_running : px_xid p <> InvalidTransactionId ->
    px_xid p' = px_xid p /\ px_vacuumFlags p' = px_vacuumFlags p /\
    (forall x, x ∈ px_subxids p -> x ∈ px_subxids p') /\
    (forall x, x ∈ px_subxids p' -> x ∈ px_subxids p \/ n <= seqno b x) /\
    (px_overflowed p = true -> px_overflowed p' = true);
  gr_idle : px_xid p = InvalidTransactionId ->
    px_xid p' = InvalidTransactionId \/ (normal_xid (px_xid p') /\ n <= seqno b (px_xid p'));
  gr_db : px_xid p <> InvalidTransactionId -> px_databaseId p' = px_databaseId p
}.

Lemma grows_refl n p : grows n p p.
Proof. split; [intros; split_and!; auto|by left|done]. Qed.

Lemma grows_trans n n' p p' p'' : n <= n' -> grows n p p' -> grows n' p' p'' -> grows n p p''.
Proof.
  intros Hn [R1 I1 D1] [R2 I2 D2]. split.
  - intros Hp. destruct (R1 Hp) as (A1 & A2 & A3 & A4 & A5).
    destruct R2 as (B1 & B2 & B3 & B4 & B5); [congruence|]. split_and!; [congruence|congruence|auto| |auto].
    intros x [Hx|Hx]%B4; [auto|right; lia].
  - intros Hp. destruct (decide (px_xid p' = InvalidTransactionId)) as [E|E].
    + destruct (I2 E) as [|[? ?]]; [by left|right; split; [done|lia]].
    + destruct (I1 Hp) as [|[? ?]]; [done|]. destruct (R2 E) as (-> & _). by right.
  - intros Hp. destruct (R1 Hp) as (A1 & _). rewrite D2, D1 by congruence. done.
Qed.

(** A step that only changes entries, each within [grows]. *)
Record share_frame (s s' : ProcShared) : Prop := {
  sf_same : same_array s s';
  sf_next : seqno b (sh_nextXid s) <= seqno b (sh_nextXid s');
  sf_grows : forall i p, zget (sh_allPgXact s) i = Some p ->
    exists p', zget (sh_allPgXact s') i = Some p' /\ grows (seqno b (sh_nextXid s)) p p'
}.

Lemma share_frame_refl s : share_frame s s.
Proof. split; [by split_and!|lia|]. intros i p Hp. exists p. split; [done|apply grows_refl]. Qed.

Lemma share_frame_trans s s' s'' : share_frame s s' -> share_frame s' s'' -> share_frame s s''.
Proof.
  intros [(A1 & A2 & A3 & A4) N1 G1] [(B1 & B2 & B3 & B4) N2 G2]. split; [split_and!; congruence|lia|].
  intros i p (p' & Hp' & Gp)%G1. destruct (G2 i p' Hp') as (p'' & Hp'' & Gp'). exists p''. split; [done|].
  by eapply grows_trans.
Qed.

(** One entry rewritten, and [nextXid] perhaps advanced. *)
Lemma share_frame_update s y i f s' :
  update_proc (set_nextXid s y) i f = Ret s' -> seqno b (sh_nextXid s) <= seqno b y ->
  (forall p, zget (sh_allPgXact s) i = Some p -> grows (seqno b (sh_nextXid s)) p (f p)) -> share_frame s s'.
Proof.
  intros Hu Hy Hg. destruct (update_proc_same _ _ _ _ Hu) as [Hsame Hn].
  split; [done|by rewrite Hn|]. intros j p Hp. rewrite (update_proc_get _ _ _ _ j Hu).
  cbn [sh_allPgXact set_nextXid]. case_decide as E.
  - subst j. rewrite Hp. exists (f p). split; [done|]. by apply Hg.
  - exists p. split; [done|apply grows_refl].
Qed.

Lemma shared_ok_update s y i f s' :
  shared_ok s -> update_proc (set_nextXid s y) i f = Ret s' ->
  normal_xid y -> seqno b (sh_nextXid s) <= seqno b y <= xid_window ->
  (forall p, zget (sh_allPgXact s) i = Some p -> proc_ok (seqno b y) (f p)) -> shared_ok s'.
Proof.
  intros [[Hn Hw] [Hl Hlt] Hp Hnos] Hu Hy Hb Hf. destruct (update_proc_same _ _ _ _ Hu) as [(E1 & E2 & E3 & E4) En].
  cbn [sh_latestCompletedXid sh_maxProcs sh_pgprocnos sh_allPgXact sh_nextXid set_nextXid] in *.
  split; rewrite ?E1, ?E2, ?E3, ?E4, ?En; [split; [done|lia]|split; [done|lia]| |done].
  intros j p. rewrite (update_proc_get _ _ _ _ j Hu). cbn [sh_allPgXact set_nextXid]. case_decide as E.
  - destruct (zget (sh_allPgXact s) i) as [q|] eqn:Eq; [|done]. intros [= <-]. by apply Hf.
  - intros Hj. apply (proc_ok_mono (seqno b (sh_nextXid s))); [lia|]. by eapply Hp.
Qed.

Lemma set_nextXid_same s : set_nextXid s (sh_nextXid s) = s.
Proof. by destruct s. Qed.

(** ** Steps keep the state well formed *)

(** The entry after its backend got the id [xid]. *)
Definition with_xid (isSubXact : bool) (xid : TransactionId) (p : PGXACT) : PGXACT :=
  if negb isSubXact then set_xid xid p
  else if zlen (px_subxids p) <? PGPROC_MAX_CACHED_SUBXIDS
       then set_subxids (px_subxids p ++ [xid]) (px_overflowed p) p
       else set_subxids (px_subxids p) true p.

Lemma publish_inv s me isSubXact x s' :
  publish_xid s me isSubXact = Ret (x, s') ->
  x = sh_nextXid s /\
  update_proc (set_nextXid s (TransactionIdAdvance (sh_nextXid s))) me (with_xid isSubXact (sh_nextXid s)) = Ret s'.
Proof.
  unfold publish_xid. destruct (update_proc _ me _) as [s1| |] eqn:E; [|done..]. cbn [cbind]. intros [= <- <-].
  done.
Qed.

Lemma grows_with_xid n isSubXact p x :
  (px_xid p = InvalidTransactionId <-> isSubXact = false) -> normal_xid x -> n <= seqno b x ->
  grows n p (with_xid isSubXact x p).
Proof.
  intros Hi Hx Hn. unfold with_xid. destruct isSubXact; cbn [negb].
  - destruct (zlen (px_subxids p) <? PGPROC_MAX_CACHED_SUBXIDS); split; cbn; try tauto;
      [|intuition congruence..]. intros _. split_and!; try done.
    + intros y Hy. apply elem_of_app. by left.
    + intros y [Hy| ->%list_elem_of_singleton]%elem_of_app; [by left|by right].
  - split; cbn; [intros Hne; by destruct Hne; apply Hi|by right|done].
Qed.

Lemma proc_ok_with_xid n isSubXact p x :
  proc_ok n p -> (px_xid p = InvalidTransactionId <-> isSubXact = false) -> normal_xid x -> n = seqno b x ->
  proc_ok (n + 1) (with_xid isSubXact x p).
Proof.
  intros Hok Hi Hx Hn. pose proof (proc_ok_mono n (n + 1) p ltac:(lia) Hok) as [X M S N O].
  destruct Hok as [X0 _ S0 _ _]. unfold with_xid. destruct isSubXact; cbn [negb].
  - assert (px_xid p <> InvalidTransactionId) as Hne by (intros E%Hi; done).
    destruct X0 as [|[X1 X2]]; [done|].
    destruct (Z.ltb_spec (zlen (px_subxids p)) PGPROC_MAX_CACHED_SUBXIDS); split; cbn; try done.
    + intros y [Hy| ->%list_elem_of_singleton]%elem_of_app; [by apply S|]. split_and!; done || lia.
    + unfold zlen in *. rewrite length_app. cbn [length]. lia.
  - assert (px_xid p = InvalidTransactionId) as E by (by apply Hi).
    assert (px_subxids p = []) as Es.
    { destruct (px_subxids p) as [|y l] eqn:El; [done|]. destruct (S0 y) as [? _]; [rewrite ?El; left|done]. }
    split; cbn; try done.
    + right. split; [done|lia].
    + rewrite Es. by intros y ?%elem_of_nil.
    + intros _. unfold InvalidTransactionId, normal_xid in *. lia.
Qed.

Lemma publish_step s me p isSubXact x s' :
  shared_ok s -> zget (sh_allPgXact s) me = Some p -> (px_xid p = InvalidTransactionId <-> isSubXact = false) ->
  publish_xid s me isSubXact = Ret (x, s') ->
  share_frame s s' /\ (seqno b (sh_nextXid s') <= xid_window -> shared_ok s').
Proof.
  intros Hok Hp Hi [-> Hu]%publish_inv. destruct (so_next s Hok) as [Hn Hw]. pose proof (seqno_advance b _ Hn Hw) as Ea.
  split.
  - eapply share_frame_update; [done|lia|]. intros p' Hp'. rewrite Hp in Hp'. injection Hp' as <-.
    apply grows_with_xid; done || lia.
  - destruct (update_proc_same _ _ _ _ Hu) as [_ ->]. cbn [sh_nextXid set_nextXid]. intros Hw'.
    eapply shared_ok_update; [done|done|by apply advance_is_normal|lia|]. intros p' Hp'. rewrite Hp in Hp'.
    injection Hp' as <-. rewrite Ea. apply proc_ok_with_xid; try done. by eapply so_procs.
Qed.

Lemma end_noxid_inv s me s' :
  ProcArrayEndTransaction s me InvalidTransactionId None = Ret s' ->
  exists p f, zget (sh_allPgXact s) me = Some p /\ px_xid p = InvalidTransactionId /\ update_proc s me f = Ret s' /\
    px_xid (f p) = px_xid p /\ px_xmin (f p) = InvalidTransactionId /\ px_subxids (f p) = px_subxids p /\
    px_overflowed (f p) = px_overflowed p /\ px_databaseId (f p) = px_databaseId p.
Proof.
  unfold ProcArrayEndTransaction. destruct (zget (sh_allPgXact s) me) as [p|] eqn:Ep; [|done].
  cbn [deref cbind]. change (TransactionIdIsValid InvalidTransactionId) with false. cbn iota.
  destruct (TransactionIdIsValid (px_xid p)) eqn:Ev; [done|]. cbn [negb c_assert cbind].
  destruct (_ && _); [|done]. cbn [c_assert cbind]. intros Hu. exists p. eexists. split_and!; [done| |done|done..].
  unfold TransactionIdIsValid, InvalidTransactionId in *. lia.
Qed.

Lemma first_registered_spec l m :
  normal_xid b -> (forall snap, snap ∈ l -> normal_xid (snap_xmin snap) /\ seqno b (snap_xmin snap) <= xid_window) ->
  first_registered l = Some m -> m ∈ l /\ forall snap, snap ∈ l -> seqno b (snap_xmin m) <= seqno b (snap_xmin snap).
Proof.
  intros Hb. destruct l as [|a l]; [done|]. cbn [first_registered]. intros Hl [= <-].
  revert a Hl. induction l as [|c l IH]; intros a Hl; cbn [fold_left].
  { split; [left|]. by intros snap ->%list_elem_of_singleton. }
  destruct (Hl a) as [A1 A2]; [left|]. destruct (Hl c) as [C1 C2]; [right; left|].
  assert ((0 <? xmin_cmp c a) = (seqno b (snap_xmin c) <? seqno b (snap_xmin a))) as ->.
  { unfold xmin_cmp. rewrite (seqno_precedes b) by done.
    destruct (seqno b (snap_xmin c) <? seqno b (snap_xmin a)); [done|]. by destruct (TransactionIdFollows _ _). }
  set (d := if _ <? _ then c else a).
  assert (d ∈ a :: c :: l /\ seqno b (snap_xmin d) <= seqno b (snap_xmin a) /\ seqno b (snap_xmin d) <= seqno b (snap_xmin c)) as (Hd & Hda & Hdc).
  { unfold d. destruct (Z.ltb_spec (seqno b (snap_xmin c)) (seqno b (snap_xmin a))); split_and!; try lia; [right; left|left]. }
  destruct (IH d) as [I1 I2].
  { intros snap [->|Hs]%elem_of_cons; [by apply Hl|]. apply Hl. by do 2 right. }
  pose proof (I2 d ltac:(left)). split.
  - apply elem_of_cons in I1 as [->|I1]; [done|by do 2 right].
  - intros snap [->|[->|Hs]%elem_of_cons]%elem_of_cons; [lia|lia|]. apply I2. by right.
Qed.

(** Letting go of snapshots leaves everything alone, or withdraws the [xmin], or
    advances it to the least of those still needed. *)
Lemma reset_inv s me active registered s' :
  SnapshotResetXmin s me active registered = Ret s' ->
  s' = s \/ exists x, update_proc s me (set_xmin x) = Ret s' /\
    (x = InvalidTransactionId /\ registered = [] \/
     exists p m, zget (sh_allPgXact s) me = Some p /\ first_registered registered = Some m /\ x = snap_xmin m /\
       TransactionIdPrecedes (px_xmin p) x = true).
Proof.
  unfold SnapshotResetXmin. destruct active; [intros [= <-]; by left|].
  destruct (first_registered registered) as [m|] eqn:Em.
  - destruct (zget (sh_allPgXact s) me) as [p|] eqn:Ep; [|done]. cbn [deref cbind].
    destruct (TransactionIdPrecedes _ _) eqn:E; [|intros [= <-]; by left]. intros Hu. right. eexists. split; [done|]. right. by exists p, m.
  - intros Hu. right. eexists. split; [done|]. left. by destruct registered.
Qed.

(** Steps under the shared lock. *)
Lemma share_step_spec s s' :
  normal_xid b -> shared_ok s -> share_step s s' ->
  share_frame s s' /\ (seqno b (sh_nextXid s') <= xid_window -> shared_ok s').
Proof.
  intros Hb Hok Hst. destruct (so_next s Hok) as [Hn Hw].
  assert (forall me x s', update_proc s me (set_xmin x) = Ret s' ->
    x = InvalidTransactionId \/ (normal_xid x /\ seqno b x <= seqno b (sh_nextXid s)) ->
    share_frame s s' /\ (seqno b (sh_nextXid s') <= xid_window -> shared_ok s')) as Hxmin.
  { intros me x s1 Hu Hx. rewrite <- (set_nextXid_same s) in Hu. split.
    + eapply share_frame_update; [done|lia|]. intros q Hq. split; cbn; [intros; split_and!; auto|by left|done].
    + intros _. eapply shared_ok_update; [done|done|done|lia|]. intros q Hq. destruct (so_procs s Hok _ _ Hq) as [X M S N O].
      split; cbn; done. }
  destruct Hst as [|me p x s' Hp Hi Hpub|me p x s' Hp Hi Hpub|me p x s' Hp Hi Hx Hle Hu|me active regs s' Hregs Hres
    |me p d s' Hp Hi Hu|me s' He].
  - split; [apply share_frame_refl|done].
  - eapply (publish_step s me p false); try done.
  - eapply (publish_step s me p true); try done.
  - apply (Hxmin me x); auto.
  - destruct (reset_inv _ _ _ _ _ Hres) as [->|(x & Hu & Hx)]; [split; [apply share_frame_refl|done]|].
    apply (Hxmin me x); [done|]. destruct Hx as [[-> _]|(p & m & _ & Hm & -> & _)]; [by left|right].
    apply Hregs. eapply first_registered_spec; [done| |done]. intros snap Hs. destruct (Hregs snap Hs). split; [done|lia].
  - rewrite <- (set_nextXid_same s) in Hu. split.
    + eapply share_frame_update; [done|lia|]. intros q Hq. rewrite Hp in Hq. injection Hq as <-.
      split; cbn; [done|by left|done].
    + intros _. eapply shared_ok_update; [done|done|done|lia|]. intros q Hq. destruct (so_procs s Hok _ _ Hq) as [X M S N O].
      by split.
  - apply end_noxid_inv in He as (p & f & Hp & Hx & Hu & F1 & F2 & F3 & F4 & F5).
    rewrite <- (set_nextXid_same s) in Hu. split.
    + eapply share_frame_update; [done|lia|]. intros q Hq. rewrite Hp in Hq. injection Hq as <-.
      split; [congruence|left; congruence|done].
    + intros _. eapply shared_ok_update; [done|done|done|lia|]. intros q Hq. rewrite Hp in Hq. injection Hq as <-.
      destruct (so_procs s Hok _ _ Hp) as [X M S N O]. split; rewrite ?F1, ?F2, ?F3, ?F4; try done. by left.
Qed.

(** ** Steps under the exclusive lock *)

(** A running transaction the scans consider: the id, the flags and the database
    of a listed entry. *)
Definition runs (s : ProcShared) (i : Z) (x : TransactionId) (flags db : Z) : Prop :=
  i ∈ sh_pgprocnos s /\ exists p, zget (sh_allPgXact s) i = Some p /\ px_xid p = x /\ px_vacuumFlags p = flags /\
    px_databaseId p = db /\ x <> InvalidTransactionId.

(** Exclusive steps withdraw ids, advance [latestCompletedXid] and never assign
    an id. *)
Record excl_frame (s s' : ProcShared) : Prop := {
  ef_len : zlen (sh_allPgXact s') = zlen (sh_allPgXact s);
  ef_next : sh_nextXid s' = sh_nextXid s;
  ef_latest : seqno b (sh_latestCompletedXid s) <= seqno b (sh_latestCompletedXid s');
  ef_runs : forall i x flags db, runs s' i x flags db -> runs s i x flags db
}.

Lemma excl_frame_refl s : excl_frame s s.
Proof. by split. Qed.

Lemma excl_frame_trans s s' s'' : excl_frame s s' -> excl_frame s' s'' -> excl_frame s s''.
Proof. intros [Z1 N1 L1 R1] [Z2 N2 L2 R2]. split; [congruence|congruence|lia|auto]. Qed.

Definition assigned (s : ProcShared) (x : TransactionId) : Prop :=
  normal_xid x /\ seqno b x < seqno b (sh_nextXid s).

Lemma advance_latest_spec s x :
  normal_xid b -> shared_ok s -> assigned s x -> shared_ok (advance_latest s x) /\ excl_frame s (advance_latest s x).
Proof.
  intros Hb Hok [Hx Hlt]. unfold advance_latest. destruct (so_next s Hok) as [Hn Hw]. destruct (so_latest s Hok) as [Hl Hlw].
  rewrite (seqno_precedes b) by (done || lia).
  destruct (Z.ltb_spec (seqno b (sh_latestCompletedXid s)) (seqno b x)); [|split; [done|apply excl_frame_refl]].
  destruct Hok as [O1 O2 O3 O4]. split; split; cbn; done || lia.
Qed.

(** An update of one entry that withdraws ids. *)
Lemma excl_update s i f s' :
  shared_ok s -> update_proc s i f = Ret s' ->
  (forall p, zget (sh_allPgXact s) i = Some p -> proc_ok (seqno b (sh_nextXid s)) (f p) /\
    (px_xid (f p) = InvalidTransactionId \/ (px_xid (f p) = px_xid p /\ px_vacuumFlags (f p) = px_vacuumFlags p /\
      px_databaseId (f p) = px_databaseId p))) ->
  shared_ok s' /\ excl_frame s s' /\ sh_pgprocnos s' = sh_pgprocnos s.
Proof.
  intros Hok Hu Hf. destruct (so_next s Hok) as [Hn Hw]. destruct (update_proc_same _ _ _ _ Hu) as [(E1 & E2 & E3 & E4) En].
  split_and!; [| |done].
  - rewrite <- (set_nextXid_same s) in Hu. eapply shared_ok_update; [done|done|done|lia|]. by intros p [? _]%Hf.
  - split; [done|done|by rewrite E1|]. intros j x flags db (Hj & p & Hp & Hx & Hfl & Hdb & Hne). rewrite E3 in Hj. split; [done|].
    rewrite (update_proc_get _ _ _ _ j Hu) in Hp. case_decide as E; [|by exists p]. subst j.
    destruct (zget (sh_allPgXact s) i) as [q|] eqn:Eq; [|done]. injection Hp as <-. exists q. split; [done|].
    destruct (Hf q eq_refl) as [_ [H|(H1 & H2 & H3)]]; [congruence|]. split_and!; congruence.
Qed.

Lemma end_internal_spec s me x s' :
  normal_xid b -> shared_ok s -> assigned s x -> ProcArrayEndTransactionInternal s me x = Ret s' ->
  shared_ok s' /\ excl_frame s s'.
Proof.
  intros Hb Hok Hx. unfold ProcArrayEndTransactionInternal. destruct (update_proc s me _) as [s1| |] eqn:Hu; [|done..].
  cbn [cbind]. intros [= <-]. destruct (excl_update _ _ _ _ Hok Hu) as (Hok1 & Hfr & _).
  { intros p Hp. split; [|by left]. split; cbn; try done; [by left|by left|by intros y ?%elem_of_nil]. }
  destruct (advance_latest_spec s1 x Hb Hok1) as [H1 H2].
  { unfold assigned. by rewrite (ef_next _ _ Hfr). }
  split; [done|]. by eapply excl_frame_trans.
Qed.

Lemma group_clear_spec s members s' :
  normal_xid b -> shared_ok s -> (forall i x, (i, x) ∈ members -> assigned s x) -> group_clear s members = Ret s' ->
  shared_ok s' /\ excl_frame s s'.
Proof.
  intros Hb. revert s. induction members as [|[i x] members IH]; intros s Hok Hm; cbn [group_clear].
  { intros [= <-]. split; [done|apply excl_frame_refl]. }
  destruct (ProcArrayEndTransactionInternal s i x) as [s1| |] eqn:E; [|done..]. cbn [cbind]. intros Hg.
  destruct (end_internal_spec s i x s1 Hb Hok) as [Hok1 Hfr]; [apply (Hm i); left|done|].
  apply IH in Hg as [H1 H2]; [split; [done|by eapply excl_frame_trans]|done|].
  intros j y Hy. unfold assigned. rewrite (ef_next _ _ Hfr). apply (Hm j). by right.
Qed.

Lemma cache_remove_sub l x : (forall y, y ∈ cache_remove l x -> y ∈ l) /\ zlen (cache_remove l x) <= zlen l.
Proof.
  unfold cache_remove. destruct (list_find _ (rev l)) as [[k z]|]; [|done].
  destruct (last l) as [y|] eqn:El; [|done]. split.
  - intros w (j & Hj)%list_elem_of_lookup. apply lookup_take_Some in Hj as [Hj _].
    apply list_lookup_insert_Some in Hj as [(_ & -> & _)|[_ Hj]].
    + by apply last_Some_elem_of.
    + by eapply list_elem_of_lookup_2.
  - unfold zlen. rewrite length_take, length_insert. lia.
Qed.

Lemma cache_removes_sub l xs : (forall y, y ∈ foldl cache_remove l xs -> y ∈ l) /\ zlen (foldl cache_remove l xs) <= zlen l.
Proof.
  revert l. induction xs as [|x xs IH]; intros l; cbn [foldl]; [done|].
  destruct (IH (cache_remove l x)) as [H1 H2]. destruct (cache_remove_sub l x) as [H3 H4]. split; [auto|lia].
Qed.

Lemma ends_assigned s me x : ends s me x -> assigned s x.
Proof. intros (p & _ & _ & Hx & Hl). split; [done|lia]. Qed.

Lemma insert_procno_elem l i j : j ∈ insert_procno l i <-> j = i \/ j ∈ l.
Proof.
  induction l as [|k l IH]; cbn [insert_procno]; [rewrite list_elem_of_singleton, elem_of_nil; tauto|].
  destruct (_ || _); rewrite !elem_of_cons, ?IH; tauto.
Qed.

Lemma insert_procno_ok l i : NoDup l -> (i ∉ l) -> NoDup (insert_procno l i) /\ zlen (insert_procno l i) = zlen l + 1.
Proof.
  intros Hnd Hi. induction l as [|k l IH]; cbn [insert_procno]; [split; [apply NoDup_singleton|done]|].
  apply not_elem_of_cons in Hi as [Hki Hi]. apply NoDup_cons in Hnd as [Hk Hnd]. destruct (IH Hnd Hi) as [H1 H2].
  destruct (_ || _).
  - split; [|unfold zlen in *; cbn [length] in *; lia].
    apply NoDup_cons. split; [by apply not_elem_of_cons|by apply NoDup_cons].
  - split; [|unfold zlen in *; cbn [length] in *; lia]. apply NoDup_cons. split; [|done].
    rewrite insert_procno_elem. intros [->|]; done.
Qed.

Lemma remove_procno_sub l i j : j ∈ remove_procno l i -> j ∈ l.
Proof.
  induction l as [|k l IH]; cbn [remove_procno]; [done|]. destruct (k =? i); [by right|].
  intros [->|H]%elem_of_cons; [left|right; auto].
Qed.

Lemma remove_procno_ok l i : NoDup l -> NoDup (remove_procno l i) /\ zlen (remove_procno l i) <= zlen l.
Proof.
  induction l as [|k l IH]; cbn [remove_procno]; [done|]. intros [Hk Hnd]%NoDup_cons. destruct (IH Hnd) as [H1 H2].
  destruct (k =? i); [split; [done|unfold zlen; cbn [length]; lia]|].
  split; [|unfold zlen in *; cbn [length]; lia]. apply NoDup_cons. split; [|done]. by intros ?%remove_procno_sub.
Qed.

Lemma procnos_spec s l :
  shared_ok s -> NoDup l -> zlen l <= sh_maxProcs s -> (forall i, i ∈ l -> 0 <= i < zlen (sh_allPgXact s)) ->
  (forall i x f p, i ∈ l -> zget (sh_allPgXact s) i = Some p -> px_xid p = x -> px_vacuumFlags p = f ->
    x <> InvalidTransactionId -> i ∈ sh_pgprocnos s) ->
  shared_ok (set_pgprocnos s l) /\ excl_frame s (set_pgprocnos s l).
Proof.
  intros [O1 O2 O3 O4] Hnd Hl Hin Hrun. split; [by split|]. split; [done|done|done|].
  intros i x f db (Hi & p & Hp & Hx & Hf & Hdb & Hne). split; [by eapply Hrun|]. by exists p.
Qed.

Lemma excl_step_spec s s' :
  normal_xid b -> shared_ok s -> excl_step s s' -> shared_ok s' /\ excl_frame s s'.
Proof.
  intros Hb Hok Hst. destruct (so_next s Hok) as [Hn Hw]. destruct (so_procnos s Hok) as (P1 & P2 & P3).
  destruct Hst as [me x group s' He Hg Hend|me xid xids x s' He Hr|me p s' Hp Hx Hnin Ha|me x s' Hx Hr|me p f s' Hp Hx Hu].
  - pose proof (ends_assigned _ _ _ He) as Has. revert Hend. unfold ProcArrayEndTransaction.
    destruct He as (p & Hp & Hpx & Hxn & _). rewrite Hp. cbn [deref cbind].
    assert (TransactionIdIsValid x = true) as -> by (unfold TransactionIdIsValid, InvalidTransactionId, normal_xid in *; lia).
    destruct (c_assert _); [|done..]. cbn [cbind]. destruct group as [members|].
    + apply group_clear_spec; try done. intros i y Hy. eapply ends_assigned. by eapply Hg.
    + by apply end_internal_spec.
  - revert Hr. unfold XidCacheRemoveRunningXids. destruct (c_assert _); [|done..]. cbn [cbind].
    destruct (update_proc s me _) as [s1| |] eqn:Hu; [|done..]. cbn [cbind]. intros [= <-].
    destruct (excl_update _ _ _ _ Hok Hu) as (Hok1 & Hfr & _).
    { intros p Hp. split; [|by right]. destruct (so_procs s Hok _ _ Hp) as [X M S N O].
      destruct (cache_removes_sub (px_subxids p) (rev xids)) as [C1 C2].
      destruct (cache_remove_sub (foldl cache_remove (px_subxids p) (rev xids)) xid) as [C3 C4].
      split; cbn; try done; [intros y Hy; auto|lia]. }
    destruct (advance_latest_spec s1 x Hb Hok1) as [H1 H2].
    { unfold assigned. rewrite (ef_next _ _ Hfr). by eapply ends_assigned. }
    split; [done|]. by eapply excl_frame_trans.
  - revert Ha. unfold ProcArrayAdd. destruct (Z.leb_spec (sh_maxProcs s) (zlen (sh_pgprocnos s))); [done|].
    intros [= <-]. destruct (insert_procno_ok _ me P1 Hnin) as [H1 H2]. apply procnos_spec; try done; [lia| |].
    + intros i [->|Hi]%insert_procno_elem; [by eapply zget_Some_lt|auto].
    + intros i y f q [->|Hi]%insert_procno_elem; [|done]. rewrite Hp. intros [= <-]. congruence.
  - revert Hr. unfold ProcArrayRemove. destruct (zget (sh_allPgXact s) me) as [p|] eqn:Ep; [|done]. cbn [deref cbind].
    destruct (c_assert _); [|done..]. cbn [cbind]. intros [= <-].
    assert (shared_ok (if TransactionIdIsValid x then advance_latest s x else s) /\
            excl_frame s (if TransactionIdIsValid x then advance_latest s x else s)) as [H1 H2].
    { destruct Hx as [->|He]; [split; [done|apply excl_frame_refl]|]. destruct (TransactionIdIsValid x);
        [apply advance_latest_spec; try done; by eapply ends_assigned|split; [done|apply excl_frame_refl]]. }
    set (s1 := if TransactionIdIsValid x then _ else s) in *.
    destruct (so_procnos s1 H1) as (Q1 & Q2 & Q3). destruct (remove_procno_ok _ me Q1) as [R1 R2].
    destruct (procnos_spec s1 (remove_procno (sh_pgprocnos s1) me) H1 R1) as [K1 K2].
    { lia. } { intros i Hi%remove_procno_sub. auto. } { intros i y f q Hi%remove_procno_sub. done. }
    split; [done|]. by eapply excl_frame_trans.
  - destruct (excl_update _ _ _ _ Hok Hu) as (Hok1 & Hfr & _); [|done]. intros q Hq.
    rewrite Hp in Hq. injection Hq as <-. split; [|by left]. by destruct (so_procs s Hok _ _ Hp) as [X M S N O].
Qed.

(** An id that runs after a step ran before it, or is new. *)
Lemma share_runs s s' i x f db :
  shared_ok s -> share_frame s s' -> runs s' i x f db -> runs s i x f db \/ seqno b (sh_nextXid s) <= seqno b x.
Proof.
  intros Hok [(E1 & E2 & E3 & E4) Hn Hg] (Hi & p' & Hp' & Hx & Hf & Hdb & Hne). rewrite E3 in Hi.
  destruct (zget_is_Some (sh_allPgXact s) i) as [p Hp]; [apply zget_Some_lt in Hp'; lia|].
  destruct (Hg i p Hp) as (p2 & Hp2 & G). rewrite Hp' in Hp2. injection Hp2 as <-.
  destruct (decide (px_xid p = InvalidTransactionId)) as [E|E].
  - right. destruct (gr_idle _ _ _ G E) as [?|[_ ?]]; congruence.
  - left. destruct (gr_running _ _ _ G E) as (R1 & R2 & _). pose proof (gr_db _ _ _ G E). split; [done|]. exists p.
    split_and!; congruence.
Qed.

(** ** Executions *)

(** States in the order of time.  No id is more than a window after [b]: the
    wraparound limit sees to that. *)
Record execution (st : nat -> ProcShared) : Prop := {
  ex_base : normal_xid b;
  ex_init : shared_ok (st O);
  ex_step : forall t, any_step (st t) (st (S t));
  ex_window : forall t, seqno b (sh_nextXid (st t)) <= xid_window
}.

Lemma exec_ok st t : execution st -> shared_ok (st t).
Proof.
  intros [Hb H0 Hst Hw]. induction t as [|t IH]; [done|]. destruct (Hst t) as [Hs|Hs].
  - by apply (share_step_spec _ _ Hb IH Hs).
  - by apply (excl_step_spec _ _ Hb IH Hs).
Qed.

(** [ProcArrayLock] is held in share mode from time [a] to time [z]. *)
Definition share_locked (st : nat -> ProcShared) (a z : nat) : Prop :=
  (a <= z)%nat /\ forall t, (a <= t < z)%nat -> share_step (st t) (st (S t)).

Lemma locked_frame st a z t u :
  execution st -> share_locked st a z -> (a <= t <= u)%nat -> (u <= z)%nat -> share_frame (st t) (st u).
Proof.
  intros Hex [Haz Hst] Htu Huz. destruct Htu as [Hat Htu]. induction Htu as [|u Htu IH]; [apply share_frame_refl|].
  eapply share_frame_trans; [apply IH; lia|]. apply (share_step_spec _ _ (ex_base _ Hex) (exec_ok st u Hex)). apply Hst. lia.
Qed.

(** Over any stretch of time, what runs at the end ran at the beginning or is
    new, and [latestCompletedXid] does not go back. *)
Lemma exec_later st t u :
  execution st -> (t <= u)%nat ->
  seqno b (sh_nextXid (st t)) <= seqno b (sh_nextXid (st u)) /\
  seqno b (sh_latestCompletedXid (st t)) <= seqno b (sh_latestCompletedXid (st u)) /\
  forall i x f db, runs (st u) i x f db -> runs (st t) i x f db \/ seqno b (sh_nextXid (st t)) <= seqno b x.
Proof.
  intros Hex Htu. induction Htu as [|u Htu (IH1 & IH2 & IH3)]; [split_and!; [lia|lia|by left]|].
  pose proof (exec_ok st u Hex) as Hok. destruct (ex_step _ Hex u) as [Hs|Hs].
  - destruct (share_step_spec _ _ (ex_base _ Hex) Hok Hs) as [Hfr _]. destruct (sf_same _ _ Hfr) as (E & _). pose proof (sf_next _ _ Hfr).
    split_and!; [lia|rewrite E; lia|]. intros i x f db [Hr|Hr]%(share_runs _ _ _ _ _ _ Hok Hfr); [auto|right; lia].
  - destruct (excl_step_spec _ _ (ex_base _ Hex) Hok Hs) as [_ [_ E1 E2 E3]]. split_and!; [by rewrite E1|lia|].
    intros i x f db Hr%E3. auto.
Qed.
End trace.
