(* ===== verification/ProcSnapshot.v ===== *)
(** [GetSnapshotData] while other backends go on: the snapshot is the state of
    the moment [ProcArrayLock] was taken, although the scan reads entry after
    entry from a changing array. *)
From stdpp Require Import relations.
From S2P Require Import Prelude Transam HeapTuple Combocid Tqual TqualSnapshot Procarray ProcShared ProcTrace.

Section scan.
Context (b : TransactionId) (s0 : ProcShared) (me : Z) (mem : nat -> list PGXACT) (last : Z).
Abbreviation seq := (seqno b).
Let n := seq (sh_nextXid s0).
Let xmax := TransactionIdAdvance (sh_latestCompletedXid s0).
Hypothesis Hb : normal_xid b.
Hypothesis Hok : shared_ok b s0.
Hypothesis Hlast : last <= xid_window.
(** Whatever the time, the entries have only grown since. *)
Hypothesis Hmem : forall k i p, zget (sh_allPgXact s0) i = Some p ->
  exists p', zget (mem k) i = Some p' /\ grows b n p p' /\ proc_ok b last p'.

Definition ignored (p : PGXACT) : bool :=
  has (px_vacuumFlags p) PROC_IN_LOGICAL_DECODING || has (px_vacuumFlags p) PROC_IN_VACUUM.

(** Entries whose id the snapshot lists or, for the own one, notes in [xmin]. *)
Definition counted (p : PGXACT) : bool :=
  negb (ignored p) && negb (px_xid p =? InvalidTransactionId) && (seq (px_xid p) <? seq xmax).

Definition counted_in (l : list Z) (i : Z) (p : PGXACT) : Prop :=
  i ∈ l /\ zget (sh_allPgXact s0) i = Some p /\ counted p = true.

(** What the scan of the entries [l] adds to the loop's variables. *)
Record scan_post (l : list Z) (sc sc' : snap_scan) : Prop := {
  sp_xmin : normal_xid (sc_xmin sc') /\ seq (sc_xmin sc') <= seq (sc_xmin sc) /\
    (forall i p, counted_in l i p -> seq (sc_xmin sc') <= seq (px_xid p)) /\
    (sc_xmin sc' = sc_xmin sc \/ exists i p, counted_in l i p /\ sc_xmin sc' = px_xid p);
  sp_global : normal_xid (sc_globalxmin sc');
  sp_xip : forall x, x ∈ sc_xip sc' <->
    x ∈ sc_xip sc \/ exists i p, counted_in l i p /\ i <> me /\ x = px_xid p;
  sp_len : zlen (sc_xip sc') <= zlen (sc_xip sc) + zlen l /\
    zlen (sc_subxip sc') <= zlen (sc_subxip sc) + PGPROC_MAX_CACHED_SUBXIDS * zlen l;
  sp_sub : sc_suboverflowed sc' = false ->
    sc_suboverflowed sc = false /\
    (forall i p, counted_in l i p -> i <> me -> px_overflowed p = false) /\
    forall x, seq x < seq xmax ->
      (x ∈ sc_subxip sc' <-> x ∈ sc_subxip sc \/ exists i p, counted_in l i p /\ i <> me /\ x ∈ px_subxids p)
}.

Lemma xmax_facts : normal_xid xmax /\ seq xmax = seq (sh_latestCompletedXid s0) + 1 /\ seq xmax <= n /\ n <= xid_window.
Proof.
  destruct (so_next _ _ Hok) as [Hn Hw]. destruct (so_latest _ _ Hok) as [Hl Hlt]. unfold xmax, n.
  split_and!; [by apply advance_is_normal|apply seqno_advance; [done|lia]| |done].
  rewrite seqno_advance by (done || lia). lia.
Qed.

Lemma lower_to_normal x m :
  (x = InvalidTransactionId \/ normal_xid x) -> normal_xid m -> exists r, lower_to x m = Ret r /\ normal_xid r.
Proof.
  intros Hx Hm. unfold lower_to. destruct (TransactionIdIsNormal x) eqn:E; [|by exists m].
  destruct Hx as [->|Hx]; [done|]. unfold NormalTransactionIdPrecedes. rewrite !normal_is_normal by done.
  cbn [andb c_assert cbind]. eexists. split; [done|]. by destruct (_ <? _).
Qed.

(** An entry that only matters for the global horizon. *)
Lemma skipped i p0 sc sc' :
  zget (sh_allPgXact s0) i = Some p0 -> counted p0 = false ->
  normal_xid (sc_xmin sc) -> normal_xid (sc_globalxmin sc') ->
  sc_xmin sc' = sc_xmin sc -> sc_xip sc' = sc_xip sc -> sc_subxip sc' = sc_subxip sc ->
  sc_suboverflowed sc' = sc_suboverflowed sc -> scan_post [i] sc sc'.
Proof.
  intros Hi Hc Hx Hg E1 E2 E3 E4.
  assert (forall j p, ~ counted_in [i] j p) as Hno.
  { intros j p (Hj & Hp & Hcp). apply list_elem_of_singleton in Hj as ->. congruence. }
  split; rewrite ?E1, ?E2, ?E3, ?E4; change (zlen [i]) with 1.
  - split_and!; [done|lia|by intros j p ?%Hno|by left].
  - done.
  - intros x. split; [by left|]. intros [?|(j & p & ?%Hno & _)]; done.
  - unfold PGPROC_MAX_CACHED_SUBXIDS. lia.
  - intros Eo. split_and!; [done|by intros j p ?%Hno|]. intros x _. split; [by left|].
    intros [?|(j & p & ?%Hno & _)]; done.
Qed.

Lemma counted_singleton i p0 j p :
  zget (sh_allPgXact s0) i = Some p0 -> counted p0 = true -> counted_in [i] j p <-> j = i /\ p = p0.
Proof.
  intros Hi Hc. unfold counted_in. rewrite list_elem_of_singleton. split.
  - intros (-> & Hp & _). split; [done|]. congruence.
  - by intros [-> ->].
Qed.

(** An entry whose id is listed, with its subtransactions as they are read. *)
Lemma listed_entry i p0 q sc sc' xmin :
  zget (sh_allPgXact s0) i = Some p0 -> counted p0 = true -> grows b n p0 q -> proc_ok b last q ->
  normal_xid (sc_xmin sc) -> normal_xid (px_xid p0) -> normal_xid (sc_globalxmin sc') ->
  xmin = (if seq (px_xid p0) <? seq (sc_xmin sc) then px_xid p0 else sc_xmin sc) ->
  sc_xmin sc' = xmin ->
  (if i =? me
   then sc_xip sc' = sc_xip sc /\ sc_subxip sc' = sc_subxip sc /\ sc_suboverflowed sc' = sc_suboverflowed sc
   else sc_xip sc' = sc_xip sc ++ [px_xid p0] /\
     (sc_suboverflowed sc' = false -> sc_suboverflowed sc = false /\ px_overflowed q = false /\
        sc_subxip sc' = sc_subxip sc ++ px_subxids q) /\
     zlen (sc_subxip sc') <= zlen (sc_subxip sc) + zlen (px_subxids q)) ->
  scan_post [i] sc sc'.
Proof.
  intros Hi Hc Hg Hq Hx Hpx Hgl -> Exmin Hrest. destruct xmax_facts as (X1 & X2 & X3 & X4).
  pose proof (counted_singleton i p0) as Hcs.
  assert (px_xid p0 <> InvalidTransactionId) as Hne.
  { unfold counted in Hc. lia. }
  destruct (gr_running _ _ _ _ Hg Hne) as (G1 & G2 & G3 & G4 & G5). destruct Hq as [_ _ _ Q4 _].
  split.
  - rewrite Exmin. destruct (Z.ltb_spec (seq (px_xid p0)) (seq (sc_xmin sc))); split_and!; try done; try lia.
    + intros j p [-> ->]%Hcs; [lia|done|done].
    + right. exists i, p0. split; [by apply Hcs|done].
    + intros j p [-> ->]%Hcs; [lia|done|done].
  - done.
  - intros x. destruct (Z.eqb_spec i me) as [->|Hme].
    + destruct Hrest as (-> & _). split; [by left|]. intros [?|(j & p & [-> _]%Hcs & ? & _)]; done.
    + destruct Hrest as (-> & _). rewrite elem_of_app, list_elem_of_singleton. split.
      * intros [?| ->]; [by left|right]. exists i, p0. split; [by apply Hcs|done].
      * intros [?|(j & p & [-> ->]%Hcs & _ & ->)]; [by left|by right|done|done].
  - change (zlen [i]) with 1. destruct (i =? me).
    + destruct Hrest as (-> & -> & _). unfold PGPROC_MAX_CACHED_SUBXIDS. lia.
    + destruct Hrest as (-> & _ & Hl). rewrite zlen_app. change (zlen [px_xid p0]) with 1. lia.
  - intros Eo. destruct (Z.eqb_spec i me) as [->|Hme].
    + destruct Hrest as (_ & -> & E). rewrite E in Eo. split_and!; [done|by intros j p [-> _]%Hcs|].
      intros x _. split; [by left|]. intros [?|(j & p & [-> _]%Hcs & ? & _)]; done.
    + destruct Hrest as (_ & H & _). destruct (H Eo) as (H1 & H2 & ->). split_and!; [done| |].
      * intros j p [-> ->]%Hcs _; [|done..]. destruct (px_overflowed p0); [by rewrite G5 in H2|done].
      * intros x Hlt. rewrite elem_of_app. split.
        -- intros [?|[?|?]%G4]; [by left|right; exists i, p0; split; [by apply Hcs|done]|lia].
        -- intros [?|(j & p & [-> ->]%Hcs & _ & ?)]; [by left|right; auto|done|done].
Qed.

Lemma visit_spec maxProcs i p0 p q sc :
  zget (sh_allPgXact s0) i = Some p0 -> grows b n p0 p -> proc_ok b last p -> grows b n p0 q -> proc_ok b last q ->
  normal_xid (sc_xmin sc) -> seq (sc_xmin sc) <= seq xmax -> normal_xid (sc_globalxmin sc) ->
  zlen (sc_xip sc) < maxProcs ->
  zlen (sc_subxip sc) + PGPROC_MAX_CACHED_SUBXIDS <= (PGPROC_MAX_CACHED_SUBXIDS + 1) * maxProcs ->
  exists sc', snapshot_visit maxProcs me xmax i p q sc = Ret sc' /\ scan_post [i] sc sc'.
Proof.
  intros Hi Hgp Hkp Hgq Hkq Hxm Hle Hgl Hc1 Hc2. destruct xmax_facts as (X1 & X2 & X3 & X4).
  unfold snapshot_visit. destruct Hkp as [K1 K2 _ _ _].
  destruct (lower_to_normal (px_xmin p) (sc_globalxmin sc)) as (g & Eg & Hg); [destruct K2 as [|[? _]]; auto|done|].
  assert (px_xid p <> InvalidTransactionId -> TransactionIdIsNormal (px_xid p) = true /\ normal_xid (px_xid p) /\
    NormalTransactionIdPrecedes (px_xid p) xmax = Ret (seq (px_xid p) <? seq xmax)) as Hpx.
  { intros Hne. destruct K1 as [?|[K1 K1']]; [done|]. split_and!; [by apply normal_is_normal|done|].
    apply seqno_normal_precedes; done || lia. }
  destruct (decide (px_xid p0 = InvalidTransactionId)) as [E0|E0].
  - assert (counted p0 = false) as Hcf by (unfold counted; rewrite E0; by rewrite andb_false_r).
    destruct (has (px_vacuumFlags p) PROC_IN_LOGICAL_DECODING); [eexists; split; [done|by eapply skipped]|].
    destruct (has (px_vacuumFlags p) PROC_IN_VACUUM); [eexists; split; [done|by eapply skipped]|].
    rewrite Eg. cbn [cbind]. destruct (gr_idle _ _ _ _ Hgp E0) as [Ex|[Hn Hx]].
    + rewrite Ex. cbn [TransactionIdIsNormal negb cbind]. eexists. split; [done|]. by eapply skipped.
    + destruct Hpx as (-> & _ & ->); [unfold InvalidTransactionId, normal_xid in *; lia|]. cbn [negb cbind].
      destruct (Z.ltb_spec (seq (px_xid p)) (seq xmax)); [lia|]. cbn [negb]. eexists. split; [done|]. by eapply skipped.
  - destruct (gr_running _ _ _ _ Hgp E0) as (Ex & Ef & _). rewrite Ef, Ex in *.
    destruct (Hpx E0) as (Hnorm & Hnx & Hlt). clear Hpx.
    assert (counted p0 = negb (ignored p0) && (seq (px_xid p0) <? seq xmax)) as Hcnt.
    { unfold counted. destruct (Z.eqb_spec (px_xid p0) InvalidTransactionId); [done|]. by rewrite andb_true_r. }
    unfold ignored in Hcnt. destruct (has (px_vacuumFlags p0) PROC_IN_LOGICAL_DECODING); [eexists; split; [done|by eapply skipped]|].
    destruct (has (px_vacuumFlags p0) PROC_IN_VACUUM); [eexists; split; [done|by eapply skipped]|].
    cbn [orb negb andb] in Hcnt. rewrite Eg, Hnorm. cbn [cbind negb]. rewrite Hlt. cbn [cbind].
    destruct (seq (px_xid p0) <? seq xmax) eqn:El; cbn [negb]; [|eexists; split; [done|by eapply skipped]].
    rewrite (seqno_normal_precedes b) by (done || lia). cbn [cbind].
    pose proof (listed_entry i p0 q sc) as Hentry. pose proof (pk_nxids _ _ _ Hkq) as Hq.
    destruct (i =? me); [eexists; split; [done|]; by eapply Hentry|].
    rewrite (proj2 (Z.ltb_lt _ _) Hc1). cbn [c_assert cbind].
    destruct (sc_suboverflowed sc); [eexists; split; [done|]; eapply Hentry; try done; cbn; split_and!; [done|done|pose proof (zlen_nonneg (px_subxids q)); lia]|].
    destruct (px_overflowed q); [eexists; split; [done|]; eapply Hentry; try done; cbn; split_and!; [done|done|pose proof (zlen_nonneg (px_subxids q)); lia]|].
    rewrite (proj2 (Z.leb_le _ _)) by lia. cbn [c_assert cbind].
    eexists. split; [done|]. eapply Hentry; try done. cbn. split_and!; [done|done|]. rewrite zlen_app. lia.
Qed.

Lemma counted_cons i l j p : counted_in (i :: l) j p <-> counted_in [i] j p \/ counted_in l j p.
Proof. unfold counted_in. rewrite elem_of_cons, list_elem_of_singleton. tauto. Qed.

Lemma exists_counted_cons i l (Q : Z -> PGXACT -> Prop) :
  (exists j p, counted_in (i :: l) j p /\ Q j p) <->
  (exists j p, counted_in [i] j p /\ Q j p) \/ (exists j p, counted_in l j p /\ Q j p).
Proof.
  split.
  - intros (j & p & [H|H]%counted_cons & HQ); [left|right]; by exists j, p.
  - intros [(j & p & H & HQ)|(j & p & H & HQ)]; exists j, p; (split; [|done]); apply counted_cons; [by left|by right].
Qed.

Lemma scan_post_cons i l sc sc1 sc2 : scan_post [i] sc sc1 -> scan_post l sc1 sc2 -> scan_post (i :: l) sc sc2.
Proof.
  intros [A1 A2 A3 A4 A5] [B1 B2 B3 B4 B5].
  assert (zlen (i :: l) = 1 + zlen l) as Hz by (unfold zlen; cbn [length]; lia).
  destruct A1 as (A11 & A12 & A13 & A14), B1 as (B11 & B12 & B13 & B14). split.
  - split_and!; [done|lia| |].
    + intros j p [Hj%A13|Hj]%counted_cons; [lia|by eapply B13].
    + rewrite (exists_counted_cons i l). destruct B14 as [->|?]; [|auto]. destruct A14 as [?|?]; auto.
  - done.
  - intros x. rewrite B3, A3, (exists_counted_cons i l). tauto.
  - rewrite Hz. change (zlen [i]) with 1 in A4. lia.
  - intros Eo. destruct (B5 Eo) as (E1 & O1 & M1). destruct (A5 E1) as (E0 & O0 & M0). split_and!; [done| |].
    + intros j p [Hj|Hj]%counted_cons; eauto.
    + intros x Hx. rewrite M1, M0, (exists_counted_cons i l) by done. tauto.
Qed.

Lemma scan_post_nil sc : normal_xid (sc_xmin sc) -> normal_xid (sc_globalxmin sc) -> scan_post [] sc sc.
Proof.
  intros H1 H2. assert (forall j p, ~ counted_in [] j p) as Hno by (by intros j p (?%elem_of_nil & _)).
  split; [split_and!; [done|lia|by intros j p ?%Hno|by left]|done| |unfold zlen; cbn [length]; lia|].
  - intros x. split; [by left|]. by intros [?|(j & p & ?%Hno & _)].
  - intros E. split_and!; [done|by intros j p ?%Hno|]. intros x _. split; [by left|]. by intros [?|(j & p & ?%Hno & _)].
Qed.

Lemma snapshot_loop_spec maxProcs l t sc :
  (forall i, i ∈ l -> 0 <= i < zlen (sh_allPgXact s0)) ->
  normal_xid (sc_xmin sc) -> seq (sc_xmin sc) <= seq xmax -> normal_xid (sc_globalxmin sc) ->
  zlen (sc_xip sc) + zlen l <= maxProcs ->
  zlen (sc_subxip sc) + PGPROC_MAX_CACHED_SUBXIDS * zlen l <= PGPROC_MAX_CACHED_SUBXIDS * maxProcs ->
  exists sc', snapshot_loop maxProcs me xmax l mem t sc = Ret sc' /\ scan_post l sc sc'.
Proof.
  revert t sc. induction l as [|i l IH]; intros t sc Hl Hx Hle Hg H1 H2; cbn [snapshot_loop].
  { exists sc. split; [done|by apply scan_post_nil]. }
  assert (zlen (i :: l) = 1 + zlen l) as Hz by (unfold zlen; cbn [length]; lia). rewrite Hz in *.
  pose proof (zlen_nonneg l). pose proof (zlen_nonneg (sc_xip sc)).
  destruct (zget_is_Some (sh_allPgXact s0) i) as [p0 Hp0]; [apply Hl; left|].
  destruct (Hmem t i p0 Hp0) as (p & Ep & Gp & Kp). destruct (Hmem (S t) i p0 Hp0) as (q & Eq & Gq & Kq).
  rewrite Ep, Eq. cbn [deref cbind].
  destruct (visit_spec maxProcs i p0 p q sc Hp0 Gp Kp Gq Kq) as (sc1 & E1 & S1);
    [done|done|done|lia|unfold PGPROC_MAX_CACHED_SUBXIDS in *; lia|].
  rewrite E1. cbn [cbind]. destruct (sp_xmin _ _ _ S1) as (A11 & A12 & _). pose proof (sp_len _ _ _ S1) as A4.
  change (zlen [i]) with 1 in A4.
  destruct (IH (S (S t)) sc1) as (sc2 & E2 & S2);
    [intros j Hj; apply Hl; by right|done|lia|by apply (sp_global _ _ _ S1)|lia
    |unfold PGPROC_MAX_CACHED_SUBXIDS in *; lia|].
  exists sc2. split; [done|]. by eapply scan_post_cons.
Qed.

(** Replication slots hold no id or a normal one. *)
Definition slots_ok : Prop :=
  (sh_replication_slot_xmin s0 = InvalidTransactionId \/ normal_xid (sh_replication_slot_xmin s0)) /\
  (sh_replication_slot_catalog_xmin s0 = InvalidTransactionId \/ normal_xid (sh_replication_slot_catalog_xmin s0)).

Lemma recent_global_ret age g : slots_ok -> exists r, recent_global s0 age g = Ret r.
Proof.
  intros [H1 H2]. unfold recent_global. set (g1 := u32 (g - age)).
  set (g2 := if TransactionIdIsNormal g1 then g1 else FirstNormalTransactionId).
  assert (normal_xid g2) as Hg2.
  { unfold g2, g1, normal_xid, TransactionIdIsNormal, FirstNormalTransactionId, u32.
    pose proof (Z.mod_pos_bound (g - age) (2 ^ 32)). destruct (Z.leb_spec 3 ((g - age) mod 2 ^ 32)); lia. }
  assert (forall y, normal_xid y -> exists c, lower_to (sh_replication_slot_catalog_xmin s0) y = Ret c) as Hc.
  { intros y Hy. destruct (lower_to_normal _ y H2 Hy) as (c & ? & _). by exists c. }
  destruct (TransactionIdIsValid (sh_replication_slot_xmin s0)) eqn:Ev.
  - destruct H1 as [E|Hn]; [by rewrite E in Ev|]. unfold NormalTransactionIdPrecedes at 1.
    rewrite !normal_is_normal by done. cbn [andb c_assert cbind].
    match goal with |- context [if ?c then sh_replication_slot_xmin s0 else g2] => destruct c end;
      [destruct (Hc _ Hn) as [c ->]|destruct (Hc _ Hg2) as [c ->]]; by eexists.
  - cbn [cbind]. destruct (Hc _ Hg2) as [c ->]. by eexists.
Qed.

Definition scan_init : snap_scan :=
  {| sc_xmin := xmax; sc_globalxmin := xmax; sc_xip := []; sc_subxip := []; sc_suboverflowed := false |}.

Lemma get_snapshot_ret env age lastOverflowedXid known curcid :
  RecoveryInProgress env = false -> slots_ok -> 0 <= me < zlen (sh_allPgXact s0) ->
  exists r sc p0 p, GetSnapshotData env age lastOverflowedXid known curcid s0 mem me = Ret r /\
    scan_post (sh_pgprocnos s0) scan_init sc /\
    res_snapshot r = {| snap_xmin := sc_xmin sc; snap_xmax := xmax; snap_xip := sc_xip sc; snap_xcnt := zlen (sc_xip sc);
                        snap_subxip := sc_subxip sc; snap_subxcnt := zlen (sc_subxip sc);
                        snap_suboverflowed := sc_suboverflowed sc; snap_takenDuringRecovery := false;
                        snap_curcid := curcid; snap_speculativeToken := 0 |} /\
    zget (sh_allPgXact s0) me = Some p0 /\ zget (mem (2 * length (sh_pgprocnos s0))%nat) me = Some p /\
    res_my_xmin r = (if TransactionIdIsValid (px_xmin p) then px_xmin p else sc_xmin sc).
Proof.
  intros Hr Hslots Hme. destruct xmax_facts as (X1 & X2 & X3 & X4). destruct (so_procnos _ _ Hok) as (P1 & P2 & P3).
  unfold GetSnapshotData. rewrite normal_is_normal by apply (so_latest _ _ Hok). cbn [c_assert cbind]. rewrite Hr. cbn [negb].
  fold xmax. fold scan_init.
  destruct (snapshot_loop_spec (sh_maxProcs s0) (sh_pgprocnos s0) 0 scan_init) as (sc & E & Hp); try done.
  { cbn. unfold PGPROC_MAX_CACHED_SUBXIDS. change (zlen (@nil TransactionId)) with 0. lia. }
  rewrite E. cbn [cbind]. destruct (zget_is_Some (sh_allPgXact s0) me Hme) as [p0 Hp0].
  destruct (Hmem (2 * length (sh_pgprocnos s0))%nat me p0 Hp0) as (p & Ep & _). rewrite Ep. cbn [deref cbind].
  match goal with |- context [recent_global s0 age ?g] => destruct (recent_global_ret age g Hslots) as [[g1 g2] ->] end.
  cbn [cbind]. eexists _, sc, p0, p. split; [done|]. cbn. split_and!; try done.
  by destruct (TransactionIdIsValid (px_xmin p)).
Qed.

(** ** What the snapshot means *)

(** The subtransactions of the running transactions: [subs i] all those of
    backend [i], [live i] those not aborted.  The cache of an entry holds the
    live ones until it overflows, and [xact_topmost] is what pg_subtrans
    answers: it goes back as far as [oldest], the [TransactionXmin] of the
    backend that asks, and leads a subtransaction of a transaction not before
    that to the transaction. *)
Context `{SharedXacts} (oldest : TransactionId) (subs live : Z -> TransactionId -> Prop).
Record subtrees : Prop := {
  st_live : forall i x, live i x -> subs i x;
  st_cached : forall i p x, zget (sh_allPgXact s0) i = Some p -> x ∈ px_subxids p -> live i x;
  st_full : forall i p x, zget (sh_allPgXact s0) i = Some p -> px_overflowed p = false -> live i x -> x ∈ px_subxids p;
  st_later : forall i p x, zget (sh_allPgXact s0) i = Some p -> subs i x -> seq (px_xid p) < seq x;
  st_top : forall x, normal_xid x -> seq oldest <= seq x < seq (sh_nextXid s0) -> exists t, xact_topmost x = Ret t /\
    forall i p, zget (sh_allPgXact s0) i = Some p -> px_xid p <> InvalidTransactionId -> seq oldest <= seq (px_xid p) ->
      ~ subs i t /\ (t = px_xid p <-> x = px_xid p \/ subs i x)
}.
Hypothesis Htree : subtrees.

(** [x] belongs to the transaction of another backend that was running. *)
Definition running_in (members : Z -> TransactionId -> Prop) (x : TransactionId) : Prop :=
  exists i p, i ∈ sh_pgprocnos s0 /\ i <> me /\ zget (sh_allPgXact s0) i = Some p /\ ignored p = false /\
    px_xid p <> InvalidTransactionId /\ (x = px_xid p \/ members i x).

(** The same, as far as the scan lists it. *)
Definition counted_run (members : Z -> TransactionId -> Prop) (x : TransactionId) : Prop :=
  exists i p, counted_in (sh_pgprocnos s0) i p /\ i <> me /\ (x = px_xid p \/ members i x).

Lemma counted_xid i p : counted_in (sh_pgprocnos s0) i p ->
  px_xid p <> InvalidTransactionId /\ normal_xid (px_xid p) /\ seq (px_xid p) < seq xmax /\ ignored p = false.
Proof.
  intros (Hi & Hp & Hc). unfold counted in Hc. destruct (pk_xid _ _ _ (so_procs _ _ Hok _ _ Hp)) as [E|[Hn _]].
  - rewrite E in Hc. rewrite andb_false_r in Hc. done.
  - split_and!; [unfold InvalidTransactionId, normal_xid in *; lia|done|lia|]. destruct (ignored p); [done|done].
Qed.

(** Below [xmax] the listed transactions are the running ones. *)
Lemma counted_running members x :
  (forall i x, members i x -> subs i x) -> seq x < seq xmax -> counted_run members x <-> running_in members x.
Proof.
  intros Hm Hx. split.
  - intros (i & p & Hc & Hne & Hor). destruct (counted_xid i p Hc) as (C1 & C2 & C3 & C4). destruct Hc as (Hi & Hp & _).
    by exists i, p.
  - intros (i & p & Hi & Hne & Hp & Hig & Hpx & Hor). exists i, p. split_and!; [|done|done]. split_and!; [done|done|].
    unfold counted. rewrite Hig. assert (seq (px_xid p) <= seq x) as Hle.
    { destruct Hor as [->|Hor]; [lia|]. pose proof (st_later Htree i p x Hp (Hm i x Hor)). lia. }
    destruct (Z.eqb_spec (px_xid p) InvalidTransactionId); [done|]. cbn [negb andb]. lia.
Qed.

(** Nothing the snapshot lists is before its [xmin]. *)
Lemma counted_after_xmin sc members x :
  scan_post (sh_pgprocnos s0) scan_init sc -> (forall i x, members i x -> subs i x) ->
  counted_run members x -> seq (sc_xmin sc) <= seq x.
Proof.
  intros Hp Hm (i & p & Hc & _ & Hor). destruct (sp_xmin _ _ _ Hp) as (_ & _ & Hmin & _).
  pose proof (Hmin i p Hc). destruct Hor as [->|Hor]; [done|]. destruct Hc as (_ & Hp' & _).
  pose proof (st_later Htree i p x Hp' (Hm i x Hor)). lia.
Qed.

Lemma listed_all x (l : list TransactionId) : listed x l (zlen l) <-> x ∈ l.
Proof. unfold listed, zlen. by rewrite Nat2Z.id, take_ge by lia. Qed.

(** The transactions an answer of [XidInMVCCSnapshot] is about: an overflowed
    snapshot cannot tell aborted subtransactions from running ones. *)
Definition snap_members (sc : snap_scan) (i : Z) (x : TransactionId) : Prop :=
  if sc_suboverflowed sc then subs i x else live i x.

Lemma snap_members_sub sc i x : snap_members sc i x -> subs i x.
Proof. unfold snap_members. destruct (sc_suboverflowed sc); [done|apply (st_live Htree)]. Qed.

Lemma listed_full sc x :
  scan_post (sh_pgprocnos s0) scan_init sc -> sc_suboverflowed sc = false -> seq x < seq xmax ->
  counted_run (snap_members sc) x <-> x ∈ sc_subxip sc \/ x ∈ sc_xip sc.
Proof.
  intros Hp Eo Hx. destruct (sp_sub _ _ _ Hp Eo) as (_ & Hno & Hsub). rewrite (sp_xip _ _ _ Hp), (Hsub x Hx).
  cbn [sc_xip sc_subxip scan_init]. unfold counted_run, snap_members. rewrite Eo. split.
  - intros (i & p & Hc & Hne & [->|Hl]); [right; right; by exists i, p|left; right]. exists i, p.
    split_and!; [done|done|]. eapply (st_full Htree); [by apply Hc|by eapply Hno|done].
  - intros [[?%elem_of_nil|(i & p & Hc & Hne & Hl)]|[?%elem_of_nil|(i & p & Hc & Hne & ->)]]; try done; exists i, p.
    + split_and!; [done|done|right]. eapply (st_cached Htree); [by apply Hc|done].
    + split_and!; [done|done|by left].
Qed.

Lemma topmost_listed sc x t :
  scan_post (sh_pgprocnos s0) scan_init sc -> sc_suboverflowed sc = true -> seq oldest <= seq (sc_xmin sc) ->
  (forall i p, zget (sh_allPgXact s0) i = Some p -> px_xid p <> InvalidTransactionId -> seq oldest <= seq (px_xid p) ->
    ~ subs i t /\ (t = px_xid p <-> x = px_xid p \/ subs i x)) ->
  (counted_run (snap_members sc) x <-> counted_run (snap_members sc) t) /\
  (counted_run (snap_members sc) t <-> t ∈ sc_xip sc).
Proof.
  intros Hp Eo Hold Ht. unfold counted_run, snap_members. rewrite Eo.
  assert (forall i p, counted_in (sh_pgprocnos s0) i p -> ~ subs i t /\ (t = px_xid p <-> x = px_xid p \/ subs i x)) as Htc.
  { intros i p Hc. destruct (counted_xid i p Hc) as (C1 & _). destruct (sp_xmin _ _ _ Hp) as (_ & _ & Hmin & _).
    pose proof (Hmin i p Hc). apply Ht; [apply Hc|done|lia]. }
  assert (forall i p, counted_in (sh_pgprocnos s0) i p -> t = px_xid p \/ subs i t <-> x = px_xid p \/ subs i x) as Hiff.
  { intros i p Hc. destruct (Htc i p Hc) as [Hns <-]. split; [intros [?|?]; done|by left]. }
  split.
  - split; intros (i & p & Hc & Hne & Hor); exists i, p; (split_and!; [done|done|]); by apply (Hiff i p Hc).
  - rewrite (sp_xip _ _ _ Hp). cbn [sc_xip scan_init]. split.
    + intros (i & p & Hc & Hne & [->|Hs]); [right; by exists i, p|]. by destruct (Htc i p Hc).
    + intros [?%elem_of_nil|(i & p & Hc & Hne & ->)]; [done|]. exists i, p. split_and!; [done|done|by left].
Qed.

Lemma snapshot_answers sc snap x :
  scan_post (sh_pgprocnos s0) scan_init sc ->
  snap_xmin snap = sc_xmin sc -> snap_xmax snap = xmax -> snap_xip snap = sc_xip sc -> snap_xcnt snap = zlen (sc_xip sc) ->
  snap_subxip snap = sc_subxip sc -> snap_subxcnt snap = zlen (sc_subxip sc) ->
  snap_suboverflowed snap = sc_suboverflowed sc -> snap_takenDuringRecovery snap = false ->
  seq oldest <= seq (sc_xmin sc) -> normal_xid x -> seq x <= xid_window ->
  exists ans, XidInMVCCSnapshot x snap = Ret ans /\
    (ans = true <-> seq (sh_latestCompletedXid s0) < seq x \/ running_in (snap_members sc) x).
Proof.
  intros Hp E1 E2 E3 E4 E5 E6 E7 E8 Hold Hx Hw. destruct xmax_facts as (X1 & X2 & X3 & X4).
  destruct (sp_xmin _ _ _ Hp) as (M1 & M2 & M3 & _). cbn [sc_xmin scan_init] in M2.
  assert (TransactionIdPrecedes x (sc_xmin sc) = (seq x <? seq (sc_xmin sc))) as Ep by (apply seqno_precedes; done || lia).
  assert (TransactionIdFollowsOrEquals x xmax = (seq xmax <=? seq x)) as Ef by (apply seqno_follows_eq; done || lia).
  pose proof (fun y => counted_after_xmin sc (snap_members sc) y Hp (snap_members_sub sc)) as Hafter.
  destruct (xid_in_snapshot snap (counted_run (snap_members sc)) x) as (ans & Eans & Hans).
  - rewrite E3, E4, E5, E6. pose proof (zlen_nonneg (sc_xip sc)). pose proof (zlen_nonneg (sc_subxip sc)). lia.
  - rewrite E1, Ep. intros Hlt Hc%Hafter. lia.
  - rewrite E1, E2, E3, E4, E7, E8. intros Eo Epx Efx. rewrite Ep in Epx. rewrite Ef in Efx.
    destruct (st_top Htree x Hx ltac:(unfold n in X3; lia)) as (t & Et & Htop). exists t.
    destruct (topmost_listed sc x t Hp Eo Hold Htop) as [Hiff Hl]. split_and!; [done|done| |].
    + intros Hpt Hc. apply Hl, (sp_xip _ _ _ Hp) in Hc as [?%elem_of_nil|(i & p & Hc & _ & ->)]; [done|].
      destruct (counted_xid i p Hc) as (C1 & C2 & C3 & C4). pose proof (M3 i p Hc).
      rewrite (seqno_precedes b) in Hpt by (done || lia). lia.
    + intros _. by rewrite listed_all.
  - rewrite E1, E2, E3, E4, E5, E6, E7, E8. intros Eo Epx Efx. rewrite Ef in Efx.
    rewrite (listed_full sc x Hp Eo) by lia. rewrite !listed_all. tauto.
  - rewrite E1, E2, Ep, Ef. lia.
  - exists ans. split; [done|]. rewrite Hans, E2, Ef. split.
    + intros [?|[? Hc]]; [left; lia|right]. apply counted_running; [apply snap_members_sub|lia|done].
    + intros [?|Hr]; [left; lia|]. destruct (Z.leb_spec (seq xmax) (seq x)); [by left|right].
      split; [done|]. apply counted_running; [apply snap_members_sub|lia|done].
Qed.
End scan.

(** ** What pg_subtrans has to hold *)

Section subtrans.
Context `{SubtransOk} (b : TransactionId) (s0 : ProcShared) (subs : Z -> TransactionId -> Prop).
Abbreviation seq := (seqno b).
Abbreviation proc i p := (zget (sh_allPgXact s0) i = Some p /\ px_xid p <> InvalidTransactionId).

(** Every subtransaction of a running transaction has its parent, another one or
    the transaction itself, in pg_subtrans, the transaction has none, and no
    others lead there. *)
Record subtrans_holds : Prop := {
  pst_sub : forall i p x, proc i p -> subs i x -> normal_xid x /\ seq (px_xid p) < seq x <= xid_window /\
    (subtrans_entry x = px_xid p \/ subs i (subtrans_entry x));
  pst_top : forall i p, proc i p -> subtrans_entry (px_xid p) = InvalidTransactionId;
  pst_only : forall i p x, proc i p -> normal_xid x -> subtrans_entry x = px_xid p \/ subs i (subtrans_entry x) -> subs i x
}.
Hypothesis Hb : normal_xid b.
Hypothesis Hok : shared_ok b s0.
Hypothesis Hholds : subtrans_holds.
Hypothesis Hxmin : seq TransactionXmin <= xid_window.

Lemma not_before x : normal_xid x -> seq TransactionXmin <= seq x <= xid_window ->
  TransactionIdPrecedes x TransactionXmin = false /\ TransactionIdFollowsOrEquals x TransactionXmin = true.
Proof.
  intros Hx Hw. pose proof subtrans_xmin. rewrite (seqno_precedes b), (seqno_follows_eq b) by (done || lia). lia.
Qed.

(** Upwards and downwards the tree of a transaction is not left. *)
Lemma parents_of_sub i p x t :
  proc i p -> rtc parent_of x t -> x = px_xid p \/ subs i x -> t = px_xid p \/ subs i t.
Proof.
  intros Hp Hr. induction Hr as [x|x y t [Hm E Hv] _ IH]; [done|]. intros Hx. apply IH.
  destruct Hx as [->|Hx].
  - pose proof (pk_xid _ _ _ (so_procs _ _ Hok _ _ (proj1 Hp))) as [?|[Hn _]]; [by destruct Hp|].
    rewrite subtrans_parent_cases, (pst_top Hholds i p Hp) in E by done. injection E as <-. done.
  - destruct (pst_sub Hholds i p x Hp Hx) as (Hn & _ & Hor). rewrite subtrans_parent_cases in E by done.
    by injection E as <-.
Qed.

Lemma children_of_sub i p x t :
  proc i p -> rtc parent_of x t -> normal_xid x -> t = px_xid p \/ subs i t -> x = px_xid p \/ subs i x.
Proof.
  intros Hp Hr. induction Hr as [x|x y t Hxy _ IH]; [done|]. intros Hx Ht.
  destruct (parent_step x y Hx Hxy) as [Hy _]. specialize (IH Hy Ht). right. apply (pst_only Hholds i p x Hp Hx).
  destruct Hxy as [Hm E Hv]. rewrite subtrans_parent_cases in E by done. by injection E as <-.
Qed.

(** So [SubTransGetTopmostTransaction] answers what the snapshots rely on. *)
Lemma subtrans_topmost_tree x :
  normal_xid x -> seq TransactionXmin <= seq x < seq (sh_nextXid s0) -> exists t, SubTransGetTopmostTransaction x = Ret t /\
    forall i p, zget (sh_allPgXact s0) i = Some p -> px_xid p <> InvalidTransactionId ->
      seq TransactionXmin <= seq (px_xid p) -> ~ subs i t /\ (t = px_xid p <-> x = px_xid p \/ subs i x).
Proof.
  intros Hx Hr. destruct (so_next _ _ Hok) as [_ Hw]. destruct (not_before x Hx ltac:(lia)) as [_ Hf].
  destruct (topmost_walk x Hx Hf) as (t & Et & Hrt & Hnt & Hno). exists t. split; [done|]. intros i p Hi Hne Hle.
  assert (proc i p) as Hp by done.
  assert (~ subs i t) as Hns.
  { intros Hs. destruct (pst_sub Hholds i p t Hp Hs) as (_ & Hlt & Hor). destruct (not_before t Hnt ltac:(lia)) as [Hm _].
    apply (Hno (subtrans_entry t)). split; [done|by apply subtrans_parent_cases|].
    destruct Hor as [->|Hs'].
    - unfold TransactionIdIsValid. unfold InvalidTransactionId in Hne. lia.
    - destruct (pst_sub Hholds i p _ Hp Hs') as (Hn & _). by apply valid_is_valid, normal_valid. }
  split; [done|]. split.
  - intros ->. apply (children_of_sub i p x (px_xid p)); auto.
  - intros Hor. by destruct (parents_of_sub i p x t Hp Hrt Hor).
Qed.
End subtrans.

(** ** In an execution *)

Section exact.
Context (b : TransactionId) (st : nat -> ProcShared) (a z : nat) (read : nat -> nat).
Hypothesis Hex : execution b st.
Hypothesis Hlock : share_locked b st a z.
Hypothesis Hread : forall k, (a <= read k <= z)%nat.

Lemma reads_grow k i p :
  zget (sh_allPgXact (st a)) i = Some p ->
  exists p', zget (sh_allPgXact (st (read k))) i = Some p' /\ grows b (seqno b (sh_nextXid (st a))) p p' /\
    proc_ok b (seqno b (sh_nextXid (st z))) p'.
Proof.
  intros Hp. destruct (Hread k). destruct (locked_frame b st a z a (read k) Hex Hlock) as [_ _ Hg]; [lia|lia|].
  destruct (Hg i p Hp) as (p' & Hp' & G). exists p'. split_and!; [done|done|].
  destruct (locked_frame b st a z (read k) z Hex Hlock) as [_ Hn _]; [lia|lia|].
  apply (proc_ok_mono b (seqno b (sh_nextXid (st (read k))))); [done|]. by apply (so_procs _ _ (exec_ok _ _ _ Hex) _ _ Hp').
Qed.
End exact.

(** What a snapshot whose scan ended in [sc] says, in terms of the backends. *)
Lemma snapshot_says `{SharedXacts} b st a me oldest subs live sc r curcid x :
  execution b st -> subtrees b (st a) oldest subs live -> scan_post b (st a) me (sh_pgprocnos (st a)) (scan_init (st a)) sc ->
  res_snapshot r = {| snap_xmin := sc_xmin sc; snap_xmax := TransactionIdAdvance (sh_latestCompletedXid (st a));
                      snap_xip := sc_xip sc; snap_xcnt := zlen (sc_xip sc);
                      snap_subxip := sc_subxip sc; snap_subxcnt := zlen (sc_subxip sc);
                      snap_suboverflowed := sc_suboverflowed sc; snap_takenDuringRecovery := false;
                      snap_curcid := curcid; snap_speculativeToken := 0 |} ->
  seqno b oldest <= seqno b (snap_xmin (res_snapshot r)) -> normal_xid x -> seqno b x <= xid_window ->
  exists ans, XidInMVCCSnapshot x (res_snapshot r) = Ret ans /\
    (seqno b (sh_latestCompletedXid (st a)) < seqno b x \/ running_in (st a) me live x -> ans = true) /\
    (ans = true -> seqno b (sh_latestCompletedXid (st a)) < seqno b x \/ running_in (st a) me subs x).
Proof.
  intros Hex Htree Hp Er Hold Hx Hw. rewrite Er in Hold. cbn in Hold.
  destruct (snapshot_answers b (st a) me (ex_base _ _ Hex) (exec_ok _ _ _ Hex) oldest subs live Htree sc (res_snapshot r) x Hp)
    as (ans & Eans & Hans); try (rewrite Er; done); try done.
  exists ans. split; [done|]. rewrite Hans. unfold running_in, snap_members. split.
  - intros [?|(i & q & ? & ? & ? & ? & ? & Hor)]; [by left|right]. exists i, q. split_and!; try done.
    destruct Hor; [by left|right]. destruct (sc_suboverflowed sc); [by apply (st_live _ _ _ _ _ Htree)|done].
  - intros [?|(i & q & ? & ? & ? & ? & ? & Hor)]; [by left|right]. exists i, q. split_and!; try done.
    destruct Hor; [by left|right]. destruct (sc_suboverflowed sc); [done|by apply (st_live _ _ _ _ _ Htree)].
Qed.


(** ** A small system

    Backend 0 is idle, backend 1 runs transaction 10 with the subtransaction
    11, backend 2 is idle; 12 was the last to complete. *)
Definition sample_entry (xid : TransactionId) (subxids : list TransactionId) : PGXACT :=
  {| px_xid := xid; px_xmin := 0; px_vacuumFlags := 0; px_overflowed := false; px_delayChkpt := false;
     px_subxids := subxids; px_lxid := 0; px_recoveryConflictPending := false; px_databaseId := 5 |}.

Definition sample_shared : ProcShared :=
  {| sh_nextXid := 13; sh_oldestXid := 3; sh_xidVacLimit := 200000003; sh_xidWarnLimit := 2136483650;
     sh_xidStopLimit := 2146483650; sh_xidWrapLimit := 2147483650; sh_latestCompletedXid := 12; sh_maxProcs := 10;
     sh_pgprocnos := [0; 1; 2]; sh_allPgXact := [sample_entry 0 []; sample_entry 10 [11]; sample_entry 0 []];
     sh_replication_slot_xmin := 0; sh_replication_slot_catalog_xmin := 0 |}.

Definition sample_mode : BackendMode :=
  {| IsInParallelMode := false; IsBootstrapProcessingMode := false; RecoveryInProgress := false;
     IsUnderPostmaster := true |}.

Lemma zget_three {A} (x y w : A) i p : zget [x; y; w] i = Some p -> (i = 0 /\ p = x) \/ (i = 1 /\ p = y) \/ (i = 2 /\ p = w).
Proof.
  rewrite !zget_cons. destruct (Z.eqb_spec i 0); [intros [= <-]; by left|].
  destruct (Z.eqb_spec (i - 1) 0); [intros [= <-]; right; left; split; [lia|done]|].
  destruct (Z.eqb_spec (i - 1 - 1) 0); [intros [= <-]; right; right; split; [lia|done]|]. by rewrite zget_nil.
Qed.

Lemma sample_proc_ok i p :
  zget (sh_allPgXact sample_shared) i = Some p -> proc_ok 3 (seqno 3 (sh_nextXid sample_shared)) p.
Proof.
  intros [[_ ->]|[[_ ->]|[_ ->]]]%zget_three; (split; [..|vm_compute; discriminate|done]); cbn;
    try (by left); try (by intros x ?%elem_of_nil).
  - right. by split.
  - intros x ->%list_elem_of_singleton. split_and!; done.
Qed.

Lemma sample_shared_ok : shared_ok 3 sample_shared.
Proof.
  split; [by split|by split|apply sample_proc_ok|]. split_and!; [|done|].
  - by apply (bool_decide_unpack _).
  - intros i. cbn. rewrite !elem_of_cons, elem_of_nil. change (zlen _) with 3. lia.
Qed.

(** The same with a third transaction id given out, where backend 1 has two
    subtransactions, 11 and its child 12, of which only the first is in the cache;
    and backend 2 gets the id 14 while backend 0 takes its snapshot. *)
Definition crowded_entry : PGXACT :=
  {| px_xid := 10; px_xmin := 0; px_vacuumFlags := 0; px_overflowed := true; px_delayChkpt := false;
     px_subxids := [11]; px_lxid := 0; px_recoveryConflictPending := false; px_databaseId := 5 |}.
Definition crowded_shared : ProcShared :=
  {| sh_nextXid := 14; sh_oldestXid := 3; sh_xidVacLimit := 200000003; sh_xidWarnLimit := 2136483650;
     sh_xidStopLimit := 2146483650; sh_xidWrapLimit := 2147483650; sh_latestCompletedXid := 13; sh_maxProcs := 10;
     sh_pgprocnos := [0; 1; 2]; sh_allPgXact := [sample_entry 0 []; crowded_entry; sample_entry 0 []];
     sh_replication_slot_xmin := 0; sh_replication_slot_catalog_xmin := 0 |}.
Definition crowded_next : ProcShared :=
  match publish_xid crowded_shared 2 false with Ret (_, s) => s | _ => crowded_shared end.
Definition crowded_run (t : nat) : ProcShared := match t with O => crowded_shared | S _ => crowded_next end.

Lemma crowded_ok : shared_ok 3 crowded_shared.
Proof.
  split; [by split|by split| |].
  - intros i p [[_ ->]|[[_ ->]|[_ ->]]]%zget_three; (split; [..|vm_compute; discriminate|done]); cbn;
      try (by left); try (by intros x ?%elem_of_nil); [by right|].
    intros x ->%list_elem_of_singleton. split_and!; done.
  - split_and!; [by apply (bool_decide_unpack _)|done|].
    intros i. cbn. rewrite !elem_of_cons, elem_of_nil. change (zlen _) with 3. lia.
Qed.

Lemma crowded_assign : share_step 3 crowded_shared crowded_next.
Proof. by apply (step_assign 3 _ 2 (sample_entry 0 []) 14). Qed.

Lemma crowded_execution : execution 3 crowded_run.
Proof.
  split; [done|apply crowded_ok| |by intros [|t]].
  intros [|t]; left; [apply crowded_assign|apply step_none].
Qed.

(** pg_subtrans, asked by a backend whose [TransactionXmin] is 10. *)
Definition crowded_log : CommitLog := {|
  TransactionIdGetStatus x := (0, 0);
  subtrans_entry x := if x =? 11 then 10 else if x =? 12 then 11 else 0;
  TransactionXmin := 10 |}.

Lemma crowded_log_ok : @SubtransOk crowded_log.
Proof.
  constructor; [done|]. intros x Hx. cbn [subtrans_entry crowded_log].
  destruct (Z.eqb_spec x 11) as [->|]; [by right|]. destruct (Z.eqb_spec x 12) as [->|]; [by right|by left].
Qed.

Definition crowded_view : SharedXacts :=
  shared_view crowded_log sample_procs initial_cache (fun _ => Ret false) (fun _ _ _ => Ret []) (fun _ => true)
    (fun _ => false) (fun _ => 0).

Definition crowded_subs (i : Z) (x : TransactionId) : Prop := i = 1 /\ (x = 11 \/ x = 12).

Lemma crowded_holds : @subtrans_holds crowded_log 3 crowded_shared crowded_subs.
Proof.
  split; intros i p.
  - intros x [[[-> ->]|[[-> ->]|[-> ->]]]%zget_three Hne] [? Hx]; try done. cbn.
    destruct Hx as [-> | ->]; (split_and!; [done|vm_compute; done|vm_compute; discriminate|]); [by left|right; by split; [|left]].
  - by intros [[[-> ->]|[[-> ->]|[-> ->]]]%zget_three Hne].
  - intros x [[[-> ->]|[[-> ->]|[-> ->]]]%zget_three Hne] Hx; try done. cbn. unfold crowded_subs.
    destruct (Z.eqb_spec x 11) as [->|]; [by auto|]. destruct (Z.eqb_spec x 12) as [->|]; [by auto|]. lia.
Qed.

Lemma crowded_subtrees : @subtrees 3 crowded_shared crowded_view 10 crowded_subs crowded_subs.
Proof.
  split.
  - done.
  - intros i p x [[-> ->]|[[-> ->]|[-> ->]]]%zget_three; cbn; [by intros ?%elem_of_nil| |by intros ?%elem_of_nil].
    intros ->%list_elem_of_singleton. split; auto.
  - intros i p x [[-> ->]|[[-> ->]|[-> ->]]]%zget_three Ho [? Hx]; done.
  - intros i p x [[-> ->]|[[-> ->]|[-> ->]]]%zget_three [? [-> | ->]]; done.
  - apply (@subtrans_topmost_tree crowded_log crowded_log_ok 3 crowded_shared crowded_subs ltac:(done) crowded_ok crowded_holds).
    vm_compute. discriminate.
Qed.

