(* ===== verification/ProcHorizon.v ===== *)
(** The horizon [GetOldestXmin] computes for VACUUM: every snapshot that is in use
    or taken later counts what is before it as finished, however the two scans of
    the process array overlap. *)
From S2P Require Import Prelude Transam HeapTuple Combocid Tqual TqualSnapshot ProcShared ProcTrace ProcSnapshot.

Definition ignored_flags (f : Z) : bool := has f PROC_IN_LOGICAL_DECODING || has f PROC_IN_VACUUM.

(** [PROCARRAY_FLAGS_VACUUM]: ignore other VACUUMs and logical decoding. *)
Definition PROCARRAY_FLAGS_VACUUM : Z := 18.

Lemma vacuum_ignores f : has f (Z.land PROCARRAY_FLAGS_VACUUM PROCARRAY_PROC_FLAGS_MASK) = ignored_flags f.
Proof.
  unfold ignored_flags, has, PROC_IN_LOGICAL_DECODING, PROC_IN_VACUUM.
  change (Z.land PROCARRAY_FLAGS_VACUUM PROCARRAY_PROC_FLAGS_MASK) with (Z.lor 16 2).
  rewrite Z.land_lor_distr_r. rewrite <- negb_andb. f_equal.
  destruct (Z.eqb_spec (Z.land f 16) 0) as [E1|E1], (Z.eqb_spec (Z.land f 2) 0) as [E2|E2]; cbn [andb].
  - by rewrite E1, E2.
  - rewrite E1, Z.lor_0_l. by apply Z.eqb_neq.
  - rewrite E2, Z.lor_0_r. by apply Z.eqb_neq.
  - apply Z.eqb_neq. intros [? _]%Z.lor_eq_0_iff. done.
Qed.

Section horizon.
Context (b : TransactionId) (st : nat -> ProcShared).
Hypothesis Hex : execution b st.
Abbreviation seq := (seqno b).

(** ** The scan of [GetOldestXmin] *)

Lemma oldest_of_spec x m :
  (x = InvalidTransactionId \/ (normal_xid x /\ seq x <= xid_window)) -> normal_xid m -> seq m <= xid_window ->
  normal_xid (oldest_of x m) /\ seq (oldest_of x m) <= seq m /\
  (x <> InvalidTransactionId -> seq (oldest_of x m) <= seq x).
Proof.
  intros Hx Hm Hw. unfold oldest_of. destruct Hx as [->|[Hx Hxw]]; [split_and!; [done|cbn; lia|done]|].
  rewrite normal_is_normal by done. cbn [andb]. rewrite (seqno_precedes b) by (done || apply (ex_base _ _ Hex)).
  destruct (Z.ltb_spec (seq x) (seq m)); split_and!; done || lia.
Qed.

(** Whether VACUUM of a relation of database [db], or of one [all] databases see,
    considers a backend that is connected to [d]. *)
Definition db_seen (all : bool) (db d : Z) : bool := all || (d =? db) || (d =? 0).

(** Nothing that was published is before [l]. *)
Definition ids_after (l : Z) (p : PGXACT) : Prop :=
  (px_xid p <> InvalidTransactionId -> l <= seq (px_xid p)) /\ (px_xmin p <> InvalidTransactionId -> l <= seq (px_xmin p)).

Lemma oldest_of_after x m l :
  l <= seq m -> (x <> InvalidTransactionId -> l <= seq x) -> l <= seq (oldest_of x m).
Proof.
  intros Hm Hx. unfold oldest_of. destruct (TransactionIdIsNormal x) eqn:E; [|done]. cbn [andb].
  destruct (TransactionIdPrecedes x m); [|done]. apply Hx. intros ->. done.
Qed.

(** Entries that were considered, at the times they were read. *)
Lemma oldest_loop_spec all db l mem t m low :
  (forall k i, i ∈ l -> exists p, zget (mem k) i = Some p /\ proc_ok b xid_window p /\ ids_after low p) ->
  normal_xid m -> low <= seq m <= xid_window ->
  exists h, oldest_loop PROCARRAY_FLAGS_VACUUM all db l mem t m = Ret h /\ normal_xid h /\ low <= seq h <= seq m /\
    forall i, i ∈ l -> exists k, forall p q, zget (mem k) i = Some p -> zget (mem (S k)) i = Some q ->
      ignored p = false -> db_seen all db (px_databaseId p) = true ->
      (px_xid p <> InvalidTransactionId -> seq h <= seq (px_xid p)) /\
      (px_xmin q <> InvalidTransactionId -> seq h <= seq (px_xmin q)).
Proof.
  intros Hmem. revert t m. induction l as [|i l IH]; intros t m Hm Hw; cbn [oldest_loop].
  { exists m. split_and!; [done|done|lia|lia|]. by intros i ?%elem_of_nil. }
  destruct (Hmem t i) as (p & Ep & Kp & Lp); [left|]. destruct (Hmem (S t) i) as (q & Eq & Kq & Lq); [left|].
  rewrite Ep, Eq. cbn [deref cbind]. unfold oldest_visit. rewrite vacuum_ignores.
  change (ignored_flags (px_vacuumFlags p)) with (ignored p). fold (db_seen all db (px_databaseId p)).
  destruct (oldest_of_spec (px_xid p) m) as (A1 & A2 & A3); [destruct (pk_xid _ _ _ Kp) as [|[? ?]]; [by left|right; split; [done|lia]]|done|lia|].
  destruct (oldest_of_spec (px_xmin q) (oldest_of (px_xid p) m)) as (B1 & B2 & B3);
    [destruct (pk_xmin _ _ _ Kq) as [|[? ?]]; [by left|by right]|done|lia|].
  set (m' := if ignored p then m else _).
  assert (normal_xid m' /\ low <= seq m' <= seq m) as [Hm' Hle].
  { pose proof (oldest_of_after (px_xid p) m low ltac:(lia) (proj1 Lp)) as L1.
    pose proof (oldest_of_after (px_xmin q) _ low L1 (proj2 Lq)).
    unfold m'. destruct (ignored p); [split; done || lia|]. destruct (db_seen _ _ _); split; done || lia. }
  destruct (IH) with (t := S (S t)) (m := m') as (h & Eh & Hn & Hhm & Hh); [intros k j Hj; apply Hmem; by right|done|lia|].
  exists h. split_and!; [exact Eh|done|lia|lia|]. intros j [->|Hj]%elem_of_cons; [|by apply Hh].
  exists t. intros p' q' Hp' Hq' Hig Hdb. rewrite Ep in Hp'. rewrite Eq in Hq'. injection Hp' as <-. injection Hq' as <-.
  unfold m' in Hhm. rewrite Hig, Hdb in Hhm. split; intros Hne; [specialize (A3 Hne)|specialize (B3 Hne)]; lia.
Qed.

Definition slots_in_window (s : ProcShared) : Prop :=
  (sh_replication_slot_xmin s = InvalidTransactionId \/
    (normal_xid (sh_replication_slot_xmin s) /\ seq (sh_replication_slot_xmin s) <= xid_window)) /\
  (sh_replication_slot_catalog_xmin s = InvalidTransactionId \/
    (normal_xid (sh_replication_slot_catalog_xmin s) /\ seq (sh_replication_slot_catalog_xmin s) <= xid_window)).

(** Replication slots only lower the horizon. *)
Lemma slot_lowers (c : bool) x m :
  (x = InvalidTransactionId \/ (normal_xid x /\ seq x <= xid_window)) -> normal_xid m -> seq m <= xid_window ->
  exists r, (if c && TransactionIdIsValid x
             then let* b := NormalTransactionIdPrecedes x m in Ret (if b then x else m) else Ret m) = Ret r /\
    normal_xid r /\ seq r <= seq m.
Proof.
  intros Hx Hm Hw. destruct (c && TransactionIdIsValid x) eqn:E; [|exists m; split_and!; done || lia].
  destruct Hx as [->|[Hx Hxw]]; [by rewrite andb_false_r in E|].
  rewrite (seqno_normal_precedes b) by (done || apply (ex_base _ _ Hex)). cbn [cbind]. eexists. split; [done|].
  destruct (Z.ltb_spec (seq x) (seq m)); split; done || lia.
Qed.

(** [vacuum_defer_cleanup_age] only lowers the horizon, if there are as many ids
    after [b]. *)
Lemma deferred m age :
  normal_xid m -> age = 0 \/ (0 <= age /\ age + 3 <= seq m) ->
  let r := u32 (m - age) in
  let r := if TransactionIdIsNormal r then r else FirstNormalTransactionId in
  normal_xid r /\ seq r <= seq m.
Proof.
  pose proof (ex_base _ _ Hex) as Hb. unfold normal_xid, TransactionIdIsNormal, FirstNormalTransactionId, seqno, u32 in *.
  assert (xid_count = 4294967293) as -> by done. change (2 ^ 32) with 4294967296 in *. intros Hm [->|[Ha Hs]]; cbv zeta.
  - rewrite Z.sub_0_r, Z.mod_small by lia. destruct (Z.leb_spec 3 m); lia.
  - destruct (Z.leb_spec 3 ((m - age) mod 4294967296)); Z.div_mod_to_equations; lia.
Qed.

Lemma window_ok t i p : zget (sh_allPgXact (st t)) i = Some p -> proc_ok b xid_window p.
Proof.
  intros Hp. apply (proc_ok_mono b (seq (sh_nextXid (st t)))); [apply (ex_window _ _ Hex)|].
  by apply (so_procs _ _ (exec_ok _ _ _ Hex) _ _ Hp).
Qed.

Lemma latest_next t : seq (TransactionIdAdvance (sh_latestCompletedXid (st t))) = seq (sh_latestCompletedXid (st t)) + 1 /\
  normal_xid (TransactionIdAdvance (sh_latestCompletedXid (st t))) /\
  seq (sh_latestCompletedXid (st t)) + 1 <= seq (sh_nextXid (st t)) /\ seq (sh_nextXid (st t)) <= xid_window.
Proof.
  pose proof (exec_ok _ _ t Hex) as Hok. destruct (so_latest _ _ Hok) as [Hl Hlt]. destruct (so_next _ _ Hok) as [_ Hw].
  split_and!; [apply seqno_advance; [done|lia]|by apply advance_is_normal|lia|done].
Qed.

(** What VACUUM's scan from time [c] to time [d] establishes. *)
Record horizon_of (all : bool) (db : Z) (c d : nat) (h : TransactionId) : Prop := {
  ho_normal : normal_xid h;
  ho_latest : seq h <= seq (sh_latestCompletedXid (st c)) + 1;
  ho_runs : forall i x f d, runs (st c) i x f d -> ignored_flags f = false -> db_seen all db d = true -> seq h <= seq x;
  ho_xmin : forall i, i ∈ sh_pgprocnos (st c) -> exists t t', (c <= t <= d)%nat /\ (c <= t' <= d)%nat /\
    forall p q, zget (sh_allPgXact (st t)) i = Some p -> zget (sh_allPgXact (st t')) i = Some q ->
      ignored p = false -> db_seen all db (px_databaseId p) = true -> px_xmin q <> InvalidTransactionId ->
      seq h <= seq (px_xmin q)
}.

(** There are ids enough before all that are in use for the horizon to be put
    off by [age]. *)
Definition defer_room (c d : nat) (age : Z) : Prop :=
  age = 0 \/
  (0 <= age /\ age + 3 <= seq (sh_latestCompletedXid (st c)) + 1 /\
   forall t i p, (c <= t <= d)%nat -> zget (sh_allPgXact (st t)) i = Some p -> ids_after (age + 3) p).

Definition all_databases (rel : option (bool * bool)) : bool := match rel with None => true | Some (shared, _) => shared end.

Lemma oldest_xmin_ret c d read env age kaxmin db rel :
  share_locked b st c d -> (forall k, (c <= read k <= d)%nat) ->
  RecoveryInProgress env = false -> defer_room c d age -> slots_in_window (st c) ->
  exists h, GetOldestXmin env age kaxmin db rel PROCARRAY_FLAGS_VACUUM (st c) (fun k => sh_allPgXact (st (read k))) = Ret h /\
    horizon_of (all_databases rel) db c d h.
Proof.
  intros Hlock Hread Hrec Hroom [Hs1 Hs2]. unfold GetOldestXmin. fold (all_databases rel). set (all := all_databases rel).
  pose proof (exec_ok _ _ c Hex) as Hok. destruct (latest_next c) as (L1 & L2 & L3 & L4).
  rewrite normal_is_normal by apply (so_latest _ _ Hok). rewrite Hrec, orb_true_r. cbn [c_assert cbind].
  set (low := if decide (age = 0) then 0 else age + 3).
  assert (low <= seq (TransactionIdAdvance (sh_latestCompletedXid (st c)))) as Hlow.
  { unfold low. destruct (decide (age = 0)); [pose proof (seqno_bound b (TransactionIdAdvance (sh_latestCompletedXid (st c)))); lia|].
    destruct Hroom as [?|(_ & ? & _)]; [done|lia]. }
  destruct (oldest_loop_spec all db (sh_pgprocnos (st c)) (fun k => sh_allPgXact (st (read k))) 0
    (TransactionIdAdvance (sh_latestCompletedXid (st c))) low) as (m & Em & Hn & Hm & Hseen); [|done|lia|].
  { intros k i Hi. destruct (so_procnos _ _ Hok) as (_ & _ & Hin). destruct (zget_is_Some _ i (Hin i Hi)) as [p Hp].
    destruct (reads_grow b st c d read Hex Hlock Hread k i p Hp) as (p' & Hp' & _). exists p'. split_and!; [done|by eapply window_ok|].
    unfold low. destruct (decide (age = 0)).
    - split; intros _; apply seqno_bound.
    - destruct Hroom as [?|(_ & _ & Hr)]; [done|]. by apply (Hr (read k) i). }
  rewrite Em. cbn [cbind].
  destruct (deferred m age Hn) as [Hd1 Hd2].
  { destruct (decide (age = 0)); [by left|right]. destruct Hroom as [?|(? & _)]; [done|].
    assert (low = age + 3) by (unfold low; by repeat case_decide). lia. }
  cbv zeta in Hd1, Hd2. set (m' := if TransactionIdIsNormal _ then _ else _) in *.
  destruct (slot_lowers (Z.land PROCARRAY_FLAGS_VACUUM PROCARRAY_SLOTS_XMIN =? 0) _ m' Hs1 Hd1 ltac:(lia)) as (r & -> & Hr & Hrm).
  cbn [cbind].
  destruct (slot_lowers ((Z.land PROCARRAY_FLAGS_VACUUM PROCARRAY_SLOTS_XMIN =? 0) &&
    match rel with None => true | Some (_, decoding) => decoding end) _ r Hs2 Hr ltac:(lia)) as (h & Eh & Hh & Hhr).
  exists h. split; [exact Eh|]. split; [done|lia| |].
  - intros i x f d' (Hi & p & Hp & Hx & Hf & Hdb & Hne) Hig Hsee. destruct (Hseen i Hi) as (k & Hk).
    destruct (reads_grow b st c d read Hex Hlock Hread k i p Hp) as (p' & Hp' & G & _).
    destruct (reads_grow b st c d read Hex Hlock Hread (S k) i p Hp) as (q' & Hq' & _).
    assert (px_xid p <> InvalidTransactionId) as Hne' by congruence.
    destruct (gr_running _ _ _ _ G Hne') as (G1 & G2 & _). pose proof (gr_db _ _ _ _ G Hne') as G3.
    destruct (Hk p' q' Hp' Hq') as [Hk1 _]; [unfold ignored; rewrite G2, Hf; done|by rewrite G3, Hdb|].
    rewrite G1, Hx in Hk1. specialize (Hk1 Hne). lia.
  - intros i Hi. destruct (Hseen i Hi) as (k & Hk). exists (read k), (read (S k)). split_and!; try apply Hread.
    intros p q Hp Hq Hig Hsee Hne. destruct (Hk p q Hp Hq Hig Hsee) as [_ Hk2]. specialize (Hk2 Hne). lia.
Qed.

(** ** Snapshots and what runs later *)

(** Backend [me] takes a snapshot between times [a] and [z]. *)
Definition takes_snapshot (me : Z) (a z : nat) (r : SnapshotResult) : Prop :=
  exists read env age lastOverflowedXid known curcid,
    share_locked b st a z /\ (forall k, (a <= read k <= z)%nat) /\
    RecoveryInProgress env = false /\ slots_ok (st a) /\ 0 <= me < zlen (sh_allPgXact (st a)) /\
    GetSnapshotData env age lastOverflowedXid known curcid (st a) (fun k => sh_allPgXact (st (read k))) me = Ret r.

Abbreviation xmin_of r := (snap_xmin (res_snapshot r)).

(** The scan behind a snapshot. *)
Lemma snapshot_scan me a z r :
  takes_snapshot me a z r ->
  exists sc curcid t p, scan_post b (st a) me (sh_pgprocnos (st a)) (scan_init (st a)) sc /\
    res_snapshot r = {| snap_xmin := sc_xmin sc; snap_xmax := TransactionIdAdvance (sh_latestCompletedXid (st a));
                        snap_xip := sc_xip sc; snap_xcnt := zlen (sc_xip sc);
                        snap_subxip := sc_subxip sc; snap_subxcnt := zlen (sc_subxip sc);
                        snap_suboverflowed := sc_suboverflowed sc; snap_takenDuringRecovery := false;
                        snap_curcid := curcid; snap_speculativeToken := 0 |} /\
    (a <= t <= z)%nat /\ zget (sh_allPgXact (st t)) me = Some p /\
    res_my_xmin r = (if TransactionIdIsValid (px_xmin p) then px_xmin p else sc_xmin sc).
Proof.
  intros (read & env & age & lov & known & curcid & Hlock & Hread & Hrec & Hslots & Hme & E).
  destruct (get_snapshot_ret b (st a) me _ (seqno b (sh_nextXid (st z))) (ex_base _ _ Hex) (exec_ok _ _ _ Hex)
    (ex_window _ _ Hex z) (reads_grow b st a z read Hex Hlock Hread) env age lov known curcid Hrec Hslots Hme)
    as (r' & sc & p0 & p & E' & Hp & Er & _ & Hmine & Em). rewrite E in E'. injection E' as <-.
  exists sc, curcid, (read (2 * length (sh_pgprocnos (st a)))%nat), p. by split_and!; try apply Hread.
Qed.

(** The [xmin] of a snapshot is the oldest running id, or the next one. *)
Lemma snapshot_xmin me a z r :
  takes_snapshot me a z r ->
  normal_xid (xmin_of r) /\ seq (xmin_of r) <= seq (sh_latestCompletedXid (st a)) + 1 /\
  (forall i x f d, runs (st a) i x f d -> ignored_flags f = false -> seq (xmin_of r) <= seq x) /\
  (seq (xmin_of r) = seq (sh_latestCompletedXid (st a)) + 1 \/
   exists i f d, runs (st a) i (xmin_of r) f d /\ ignored_flags f = false).
Proof.
  intros (sc & curcid & t & p & Hp & -> & _)%snapshot_scan. cbn [snap_xmin].
  destruct (latest_next a) as (L1 & L2 & L3 & L4). destruct (sp_xmin _ _ _ _ _ _ Hp) as (S1 & S2 & S3 & S4).
  cbn [sc_xmin scan_init] in S2, S4. rewrite L1 in S2. split_and!; [done|lia| |].
  - intros i x f d (Hi & q & Hq & Hx & Hf & _ & Hne) Hig.
    destruct (Z.ltb_spec (seq x) (seq (TransactionIdAdvance (sh_latestCompletedXid (st a))))); [|lia].
    rewrite <- Hx. apply (S3 i q). split_and!; [done|done|]. unfold counted, ignored.
    rewrite Hf, Hx. unfold ignored_flags in Hig. rewrite Hig. destruct (Z.eqb_spec x InvalidTransactionId); [done|].
    cbn [negb andb]. by apply Z.ltb_lt.
  - destruct S4 as [->|(i & q & Hc & ->)]; [by left|right]. exists i, (px_vacuumFlags q), (px_databaseId q).
    destruct (counted_xid b (st a) (exec_ok _ _ _ Hex) i q Hc) as (C1 & C2 & C3 & C4).
    destruct Hc as (Hi & Hq & _). split; [|done]. split; [done|]. by exists q.
Qed.

Lemma snapshot_window me a z r : takes_snapshot me a z r -> seq (xmin_of r) <= xid_window.
Proof. intros (_ & X2 & _)%snapshot_xmin. destruct (latest_next a) as (L1 & L2 & L3 & L4). lia. Qed.

(** From then on it is a lower bound of whatever runs. *)
Lemma snapshot_floor me a z r t :
  takes_snapshot me a z r -> (a <= t)%nat ->
  seq (xmin_of r) <= seq (sh_latestCompletedXid (st t)) + 1 /\
  forall i x f d, runs (st t) i x f d -> ignored_flags f = false -> seq (xmin_of r) <= seq x.
Proof.
  intros Hs Hat. destruct (snapshot_xmin me a z r Hs) as (X1 & X2 & X3 & _).
  destruct (exec_later b st a t Hex Hat) as (E1 & E2 & E3). destruct (latest_next a) as (L1 & L2 & L3 & L4).
  split; [lia|]. intros i x f d [Hr|Hr]%E3 Hig; [by eapply X3|lia].
Qed.

(** ** Published [xmin]s *)

(** Every [xmin] a backend publishes is that of a snapshot it has taken: the one
    just taken, or one that it still needs when others are let go. *)
Definition xmins_taken : Prop := forall t i p p',
  zget (sh_allPgXact (st t)) i = Some p -> zget (sh_allPgXact (st (S t))) i = Some p' ->
  px_xmin p' <> px_xmin p -> px_xmin p' <> InvalidTransactionId ->
  exists a z r, (z <= t)%nat /\ takes_snapshot i a z r /\ px_xmin p' = xmin_of r.
Hypothesis Htaken : xmins_taken.
(** At the beginning none is published. *)
Hypothesis Hinit : forall i p, zget (sh_allPgXact (st O)) i = Some p -> px_xmin p = InvalidTransactionId.

Lemma entries_stay t i p : zget (sh_allPgXact (st (S t))) i = Some p -> exists p1, zget (sh_allPgXact (st t)) i = Some p1.
Proof using Hex.
  intros Hp. apply zget_is_Some. pose proof (exec_ok _ _ t Hex) as Hok. apply zget_Some_lt in Hp.
  destruct (ex_step _ _ Hex t) as [Hs|Hs].
  - destruct (share_step_spec b _ _ (ex_base _ _ Hex) Hok Hs) as [[(_ & _ & _ & E) _ _] _]. lia.
  - destruct (excl_step_spec b _ _ (ex_base _ _ Hex) Hok Hs) as [_ [E _ _ _]]. lia.
Qed.

Lemma published_floor t i p :
  zget (sh_allPgXact (st t)) i = Some p -> px_xmin p <> InvalidTransactionId ->
  seq (px_xmin p) <= seq (sh_latestCompletedXid (st t)) + 1 /\
  forall j x f d, runs (st t) j x f d -> ignored_flags f = false -> seq (px_xmin p) <= seq x.
Proof.
  revert i p. induction t as [|t IH]; intros i p Hp Hne; [by rewrite (Hinit _ _ Hp) in Hne|].
  destruct (entries_stay t i p Hp) as [p1 Hp1].
  destruct (decide (px_xmin p = px_xmin p1)) as [E|E].
  - rewrite E in Hne |- *. destruct (IH i p1 Hp1 Hne) as [H1 H2].
    destruct (exec_later b st t (S t) Hex ltac:(lia)) as (E1 & E2 & E3). destruct (latest_next t) as (L1 & L2 & L3 & L4).
    split; [lia|]. intros j x f d [Hr|Hr]%E3 Hig; [by eapply H2|lia].
  - destruct (Htaken t i p1 p Hp1 Hp E Hne) as (a & z & r & Hz & Hs & ->). eapply snapshot_floor; [done|].
    destruct Hs as (read & ? & ? & ? & ? & ? & [Haz _] & _). lia.
Qed.

Lemma locked_runs a z t i x f d :
  share_locked b st a z -> (a <= t <= z)%nat -> runs (st a) i x f d -> runs (st t) i x f d.
Proof.
  intros Hlock Ht (Hi & p & Hp & Hx & Hf & Hd & Hne).
  destruct (locked_frame b st a z a t Hex Hlock) as [(_ & _ & E & _) _ Hg]; [lia|lia|].
  destruct (Hg i p Hp) as (p' & Hp' & G). destruct (gr_running _ _ _ _ G) as (G1 & G2 & _); [congruence|].
  pose proof (gr_db _ _ _ _ G ltac:(congruence)). split; [by rewrite E|]. exists p'. split_and!; congruence.
Qed.

(** What a backend publishes covers the snapshot just taken and, in the same
    transaction, those taken before. *)
Lemma my_xmin_covers me a z r :
  takes_snapshot me a z r -> seq (res_my_xmin r) <= seq (xmin_of r) /\ res_my_xmin r <> InvalidTransactionId.
Proof.
  intros Hs. destruct (snapshot_xmin me a z r Hs) as (X1 & X2 & X3 & X4).
  pose proof Hs as (read & env & age & lov & known & curcid & Hlock & _).
  destruct (snapshot_scan me a z r Hs) as (sc & ccid & t & p & _ & Er & Ht & Hp & Em).
  rewrite Er in X1, X2, X3, X4 |- *. cbn [snap_xmin] in *. rewrite Em.
  destruct (TransactionIdIsValid (px_xmin p)) eqn:Ev; [|split; [lia|unfold normal_xid, InvalidTransactionId in *; lia]].
  assert (px_xmin p <> InvalidTransactionId) as Hne by (unfold TransactionIdIsValid in Ev; lia). split; [|done].
  destruct (published_floor t me p Hp Hne) as [F1 F2].
  destruct X4 as [->|(i & f & d & Hr & Hig)].
  - destruct (locked_frame b st a z a t Hex Hlock) as [(E1 & _) _ _]; [lia|lia|]. by rewrite <- E1.
  - eapply F2; [|done]. eapply locked_runs; [done|lia|done].
Qed.

(** ** Snapshots in use *)

(** A snapshot in use until time [e]: its backend is one VACUUM considers, has
    published what [GetSnapshotData] left in [MyPgXact->xmin], and changes that
    only by letting go of other snapshots. *)
Record in_use (all : bool) (db : Z) (me : Z) (a z : nat) (r : SnapshotResult) (e : nat) : Prop := {
  use_taken : takes_snapshot me a z r;
  use_seen : forall t, (z < t <= e)%nat -> me ∈ sh_pgprocnos (st t) /\
    exists p, zget (sh_allPgXact (st t)) me = Some p /\ ignored p = false /\ db_seen all db (px_databaseId p) = true;
  use_published : (z < e)%nat -> forall p, zget (sh_allPgXact (st (S z))) me = Some p -> px_xmin p = res_my_xmin r;
  use_kept : forall t p p', (z < t < e)%nat -> zget (sh_allPgXact (st t)) me = Some p ->
    zget (sh_allPgXact (st (S t))) me = Some p' -> px_xmin p' <> px_xmin p ->
    exists registered, res_snapshot r ∈ registered /\
      (forall snap, snap ∈ registered -> normal_xid (snap_xmin snap) /\ seq (snap_xmin snap) <= xid_window) /\
      SnapshotResetXmin (st t) me false registered = Ret (st (S t))
}.

(** The published [xmin] stays one that covers the snapshot. *)
Lemma use_covers all db me a z r e t p :
  in_use all db me a z r e -> (z < t <= e)%nat -> zget (sh_allPgXact (st t)) me = Some p ->
  px_xmin p <> InvalidTransactionId /\ seq (px_xmin p) <= seq (xmin_of r).
Proof.
  intros [Hs _ Hpub Hkept] Ht. destruct (my_xmin_covers me a z r Hs) as [M1 M2].
  destruct Ht as [Hzt Hte]. revert p Hte. induction Hzt as [|t Hzt IH]; intros p Hte Hp.
  { rewrite (Hpub ltac:(lia) p Hp). done. }
  destruct (entries_stay t me p Hp) as [p1 Hp1]. destruct (IH p1 ltac:(lia) Hp1) as [I1 I2].
  destruct (decide (px_xmin p = px_xmin p1)) as [->|Hne]; [done|].
  destruct (Hkept t p1 p ltac:(lia) Hp1 Hp Hne) as (regs & Hin & Hregs & Hreset).
  destruct (reset_inv _ _ _ _ _ Hreset) as [E|(x & Hu & Hx)]; [rewrite E in Hp; congruence|].
  rewrite (update_proc_get _ _ _ _ me Hu), decide_True, Hp1 in Hp by done. injection Hp as <-. cbn [px_xmin set_xmin].
  destruct Hx as [[_ ->]|(_ & m & _ & Hm & -> & _)]; [by apply elem_of_nil in Hin|].
  destruct (first_registered_spec b regs m (ex_base _ _ Hex) Hregs Hm) as [Hmin Hle].
  destruct (Hregs m Hmin) as [Hn _]. split; [unfold normal_xid, InvalidTransactionId in *; lia|]. by apply Hle.
Qed.

(** Either the scan met the [xmin] that covers the snapshot, or the snapshot was
    taken when the scan had begun. *)
Lemma horizon_cases all db c d h me a z r e :
  share_locked b st c d -> horizon_of all db c d h -> in_use all db me a z r e -> (d <= e)%nat ->
  seq h <= seq (xmin_of r) \/
  (seq h <= seq (sh_latestCompletedXid (st a)) + 1 /\
   forall i x f d', runs (st a) i x f d' -> ignored_flags f = false -> db_seen all db d' = true -> seq h <= seq x).
Proof.
  intros Hcd [H1 H2 H3 H4] Huse Hde. pose proof (use_taken _ _ _ _ _ _ _ Huse) as (read & _ & _ & _ & _ & _ & Haz & _).
  destruct (latest_next c) as (L1 & L2 & L3 & L4).
  destruct (le_lt_dec c z) as [Hcz|Hzc]; [right; destruct (le_lt_dec c a) as [Hca|Hac]|left].
  - (* the snapshot is taken during the scan or after it *)
    destruct (exec_later b st c a Hex Hca) as (E1 & E2 & E3). split; [lia|].
    intros i x f d' [Hr|Hr]%E3 Hig Hdb; [by eapply H3|lia].
  - (* the snapshot is being taken when the scan begins *)
    destruct (locked_frame b st a z a c Hex Haz) as [(E1 & _) _ _]; [lia|lia|]. split; [by rewrite <- E1|].
    intros i x f d' Hr Hig Hdb. eapply H3; [|done|done]. eapply locked_runs; [done|lia|done].
  - (* it was taken before, so the scan meets the published xmin *)
    destruct Hcd as [Hcd _]. destruct (use_seen _ _ _ _ _ _ _ Huse c) as (Hin & _); [lia|]. destruct (H4 me Hin) as (t & t' & Ht & Ht' & Hmin).
    destruct (use_seen _ _ _ _ _ _ _ Huse t) as (_ & p & Hp & Hig & Hdb); [lia|].
    destruct (use_seen _ _ _ _ _ _ _ Huse t') as (_ & q & Hq & _); [lia|].
    destruct (use_covers all db me a z r e t' q Huse ltac:(lia) Hq) as [M1 M2].
    pose proof (Hmin p q Hp Hq Hig Hdb M1). lia.
Qed.
End horizon.

Lemma before_xmin `{SharedXacts} x snap : TransactionIdPrecedes x (snap_xmin snap) = true -> XidInMVCCSnapshot x snap = Ret false.
Proof. intros E. unfold XidInMVCCSnapshot. by rewrite E. Qed.

(** C13. Let VACUUM compute [GetOldestXmin] for a relation, one of its database
    or one that all databases see, holding [ProcArrayLock] in share mode from
    time [c] to time [d], in an execution in which backends publish as [xmin]
    what their snapshots got and advance it as they let go of snapshots.  Then it
    returns a horizon such that whatever snapshot is still in use at time [d] or
    is taken later, by a backend that VACUUM does not ignore (one in VACUUM or
    logical decoding, or connected to another database) and however its own scan
    overlaps with VACUUM's, counts every id before the horizon as finished,
    unless the id belongs to a transaction of another database, which cannot have
    touched the relation.  For a relation all databases see, the ids are even
    before the [xmin] of the snapshot.  (With the flags VACUUM uses and not in
    recovery; [vacuum_defer_cleanup_age] may put the horizon off.) *)
Theorem horizon_safe b st c d read env age kaxmin db rel :
  execution b st -> xmins_taken b st ->
  (forall i p, zget (sh_allPgXact (st O)) i = Some p -> px_xmin p = InvalidTransactionId) ->
  share_locked b st c d -> (forall k, (c <= read k <= d)%nat) ->
  RecoveryInProgress env = false -> defer_room b st c d age -> slots_in_window b (st c) ->
  exists h, GetOldestXmin env age kaxmin db rel PROCARRAY_FLAGS_VACUUM (st c) (fun k => sh_allPgXact (st (read k))) = Ret h /\
    forall me a z r e x, in_use b st (all_databases rel) db me a z r e -> (d <= e)%nat ->
      normal_xid x -> seqno b x <= xid_window -> TransactionIdPrecedes x h = true ->
      (all_databases rel = true -> TransactionIdPrecedes x (snap_xmin (res_snapshot r)) = true) /\
      forall (shared : SharedXacts) oldest subs live,
        subtrees b (st a) oldest subs live -> seqno b oldest <= seqno b (snap_xmin (res_snapshot r)) ->
        XidInMVCCSnapshot x (res_snapshot r) = Ret false \/
        exists i p, zget (sh_allPgXact (st a)) i = Some p /\ px_xid p <> InvalidTransactionId /\ (x = px_xid p \/ subs i x) /\
          db_seen (all_databases rel) db (px_databaseId p) = false.
Proof.
  intros Hex Htaken Hinit Hcd Hread Hrec Hroom Hslots.
  destruct (oldest_xmin_ret b st Hex c d read env age kaxmin db rel Hcd Hread Hrec Hroom Hslots) as (h & Eh & Hh).
  exists h. split; [done|]. intros me a z r e x Huse Hde Hx Hw Hp. set (all := all_databases rel) in *.
  pose proof (horizon_cases b st Hex Htaken Hinit all db c d h me a z r e Hcd Hh Huse Hde) as Hcase.
  pose proof (use_taken _ _ _ _ _ _ _ _ _ Huse) as Hs. pose proof (ex_base _ _ Hex) as Hb.
  destruct (snapshot_xmin b st Hex me a z r Hs) as (X1 & X2 & X3 & X4). pose proof (snapshot_window b st Hex me a z r Hs) as Xw.
  destruct (latest_next b st Hex c) as (_ & _ & L3 & L4).
  pose proof (ho_latest _ _ _ _ _ _ _ Hh). pose proof (ho_normal _ _ _ _ _ _ _ Hh).
  rewrite (seqno_precedes b) in Hp by (done || lia). apply Z.ltb_lt in Hp.
  assert (TransactionIdPrecedes x (snap_xmin (res_snapshot r)) = (seqno b x <? seqno b (snap_xmin (res_snapshot r)))) as Epx
    by (apply seqno_precedes; done || lia).
  split.
  - intros Eall. rewrite Epx. destruct Hcase as [?|[C1 C2]]; [lia|]. destruct X4 as [->|(i & f & d' & Hr & Hig)]; [lia|].
    pose proof (C2 _ _ _ _ Hr Hig ltac:(by rewrite Eall)). lia.
  - intros shared oldest subs live Htree Hold. destruct Hcase as [?|[C1 C2]]; [left; apply before_xmin; rewrite Epx; lia|].
    destruct (snapshot_scan b st Hex me a z r Hs) as (sc & curcid & t & p & Hsc & Er & _).
    destruct (snapshot_says b st a me oldest subs live sc r curcid x Hex Htree Hsc Er Hold Hx Hw) as (ans & -> & _ & Hans).
    destruct ans; [|by left]. right. destruct (Hans eq_refl) as [?|(i & q & Hi & Hme & Hq & Hig & Hne & Hor)]; [lia|].
    exists i, q. split_and!; try done. destruct (db_seen all db (px_databaseId q)) eqn:Edb; [|done]. exfalso.
    assert (runs (st a) i (px_xid q) (px_vacuumFlags q) (px_databaseId q)) as Hr by (split; [done|by exists q]).
    pose proof (C2 _ _ _ _ Hr Hig Edb). destruct Hor as [->|Hsub]; [lia|].
    pose proof (st_later _ _ _ _ _ Htree i q x Hq Hsub). lia.
Qed.

(** Backend 0 takes a snapshot while backend 1 runs transaction 10, and publishes
    10 as its [xmin]; 10 commits; backend 0 takes a second snapshot and lets go of
    the first, which advances its [xmin] to 13; then backend 2 computes the
    horizon for a table of their database. *)
Definition state_of (c : cres ProcShared) : ProcShared := match c with Ret s => s | _ => sample_shared end.
Definition sample_published : ProcShared := state_of (update_proc sample_shared 0 (set_xmin 10)).
Definition sample_committed : ProcShared := state_of (ProcArrayEndTransaction sample_published 1 11 None).

Definition sample_result : SnapshotResult :=
  {| res_snapshot := {| snap_xmin := 10; snap_xmax := 13; snap_xip := [10]; snap_xcnt := 1; snap_subxip := [11];
       snap_subxcnt := 1; snap_suboverflowed := false; snap_takenDuringRecovery := false; snap_curcid := 0;
       snap_speculativeToken := 0 |};
     res_my_xmin := 10; res_RecentXmin := 10; res_RecentGlobalXmin := 10; res_RecentGlobalDataXmin := 10 |}.
Definition second_result : SnapshotResult :=
  {| res_snapshot := {| snap_xmin := 13; snap_xmax := 13; snap_xip := []; snap_xcnt := 0; snap_subxip := [];
       snap_subxcnt := 0; snap_suboverflowed := false; snap_takenDuringRecovery := false; snap_curcid := 0;
       snap_speculativeToken := 0 |};
     res_my_xmin := 10; res_RecentXmin := 13; res_RecentGlobalXmin := 10; res_RecentGlobalDataXmin := 10 |}.
Definition sample_advanced : ProcShared := state_of (SnapshotResetXmin sample_committed 0 false [res_snapshot second_result]).

Definition sample_vacuum_run (t : nat) : ProcShared :=
  match t with
  | 0%nat | 1%nat => sample_shared
  | 2%nat => sample_published
  | 3%nat | 4%nat => sample_committed
  | _ => sample_advanced
  end.

Lemma sample_vacuum_execution : execution 3 sample_vacuum_run.
Proof.
  split; [done|apply sample_shared_ok| |by intros [|[|[|[|[|t]]]]]].
  intros [|[|[|[|[|t]]]]]; try (left; apply step_none).
  - left. by apply (step_xmin 3 _ 0 (sample_entry 0 []) 10).
  - right. apply (step_end 3 _ 1 11 None); [|done|done]. exists (sample_entry 10 [11]). by split_and!.
  - left. apply (step_reset 3 _ 0 false [res_snapshot second_result]); [|done]. intros snap ->%list_elem_of_singleton. by split.
Qed.

Lemma sample_takes : takes_snapshot 3 sample_vacuum_run 0 0 1 sample_result.
Proof.
  exists (fun _ => O), sample_mode, 0, 0, (fun _ x => ([], x)), 0.
  split; [split; [lia|]; intros [|t] Ht; [apply step_none|lia]|]. split; [intros k; lia|].
  split; [done|]. split; [split; by left|]. split; [done|]. vm_compute. reflexivity.
Qed.

Lemma second_takes : takes_snapshot 3 sample_vacuum_run 0 3 3 second_result.
Proof.
  exists (fun _ => 3%nat), sample_mode, 0, 0, (fun _ x => ([], x)), 0.
  split; [split; [lia|]; lia|]. split; [intros k; lia|].
  split; [done|]. split; [split; by left|]. split; [done|]. vm_compute. reflexivity.
Qed.

Lemma second_in_use : in_use 3 sample_vacuum_run false 5 0 3 3 second_result 9.
Proof.
  split; [apply second_takes| | |].
  - intros [|[|[|[|[|t]]]]] Ht; try lia; (split; [left|]; by eexists).
  - intros _ p Hp. vm_compute in Hp. injection Hp as <-. reflexivity.
  - intros [|[|[|[|[|t]]]]] p p' Ht; try lia; intros Hp Hp' Hne; [|cbn [sample_vacuum_run] in *; congruence].
    exists [res_snapshot second_result]. split_and!; [left| |reflexivity]. intros snap ->%list_elem_of_singleton. by split.
Qed.

Lemma second_subtrees : @subtrees 3 sample_committed crowded_view 10 (fun _ _ => False) (fun _ _ => False).
Proof.
  assert (forall i p, zget (sh_allPgXact sample_committed) i = Some p -> px_xid p = 0 /\ px_subxids p = []) as Hidle.
  { intros i p Hp. vm_compute sh_allPgXact in Hp. by apply zget_three in Hp as [[_ ->]|[[_ ->]|[_ ->]]]. }
  split; try done.
  - intros i p x Hp. destruct (Hidle i p Hp) as [_ ->]. by intros ?%elem_of_nil.
  - apply (@subtrans_topmost_tree crowded_log crowded_log_ok 3 sample_committed (fun _ _ => False)); [done| | |vm_compute; discriminate].
    + apply (exec_ok 3 sample_vacuum_run 3 sample_vacuum_execution).
    + split; [done| |]; intros i p; [|intros x]; intros [Hp Hne]; by destruct (Hidle i p Hp).
Qed.

Lemma sample_xmins_taken : xmins_taken 3 sample_vacuum_run.
Proof.
  intros t i p p'. destruct t as [|[|[|[|[|t]]]]]; cbn [sample_vacuum_run]; try congruence; intros Hp Hp' Hne Hv;
    vm_compute sh_allPgXact in Hp; vm_compute sh_allPgXact in Hp';
    apply zget_three in Hp as [[-> ->]|[[-> ->]|[-> ->]]]; vm_compute in Hp'; injection Hp' as <-; try done.
  - exists 0%nat, 1%nat, sample_result. split_and!; [lia|apply sample_takes|done].
  - exists 3%nat, 3%nat, second_result. split_and!; [lia|apply second_takes|done].
Qed.

Lemma horizon_safe_witness :
  exists h, GetOldestXmin sample_mode 0 0 5 (Some (false, false)) PROCARRAY_FLAGS_VACUUM sample_advanced
      (fun k => sh_allPgXact (sample_vacuum_run (5 + Nat.min k 3))) = Ret h /\
    h = 13 /\ @XidInMVCCSnapshot crowded_view 12 (res_snapshot second_result) = Ret false.
Proof.
  destruct (horizon_safe 3 sample_vacuum_run 5 8 (fun k => 5 + Nat.min k 3)%nat sample_mode 0 0 5 (Some (false, false))) as (h & E & Hh).
  - exact sample_vacuum_execution.
  - exact sample_xmins_taken.
  - intros i p [[_ ->]|[[_ ->]|[_ ->]]]%zget_three; reflexivity.
  - split; [lia|]. intros [|[|[|[|[|t]]]]] Ht; try lia. apply step_none.
  - intros k. lia.
  - reflexivity.
  - by left.
  - split; by left.
  - exists h. split; [exact E|]. vm_compute in E. injection E as <-. split; [reflexivity|].
    destruct (Hh 0 3%nat 3%nat second_result 9%nat 12 second_in_use) as [_ Hx]; [lia|done|done|reflexivity|].
    destruct (Hx crowded_view 10 _ _ second_subtrees) as [Ef|(i & p & Hp & Hne & _)]; [vm_compute; discriminate|exact Ef|].
    vm_compute sh_allPgXact in Hp. by apply zget_three in Hp as [[_ ->]|[[_ ->]|[_ ->]]].
Defined.
