(* ===== verification/ProcXid.v ===== *)
(** The wraparound limits of [access/transam/varsup.c]: as long as they are kept
    up to date, a new id comes after every id that is still around. *)
From S2P Require Import Prelude Transam HeapTuple Combocid Tqual ProcShared ProcTrace ProcSnapshot.

(** ** Where the limits lie *)

Lemma seqno_cases b x : normal_xid b -> normal_xid x ->
  seqno b x = if b <=? x then x - b else x - b + 4294967293.
Proof.
  unfold normal_xid, seqno. intros Hb Hx. change xid_count with 4294967293. destruct (Z.leb_spec b x).
  - apply Z.mod_small. lia.
  - rewrite <- (Z.mod_small (x - b + 4294967293) 4294967293) by lia.
    rewrite <- (Z.mul_1_l 4294967293) at 2. by rewrite Z.mod_add.
Qed.

Lemma u32_add z : 0 <= z < 2 ^ 33 -> u32 z = if z <? 2 ^ 32 then z else z - 2 ^ 32.
Proof.
  intros Hz. unfold u32. destruct (Z.ltb_spec z (2 ^ 32)); [apply Z.mod_small; lia|].
  rewrite <- (Z.mod_small (z - 2 ^ 32) (2 ^ 32)) by lia. replace (z - 2 ^ 32) with (z + (-1) * 2 ^ 32) by lia.
  by rewrite Z.mod_add.
Qed.

Lemma u32_sub z : - 2 ^ 32 <= z < 2 ^ 32 -> u32 z = if z <? 0 then z + 2 ^ 32 else z.
Proof.
  intros Hz. unfold u32. destruct (Z.ltb_spec z 0); [|apply Z.mod_small; lia].
  rewrite <- (Z.mod_small (z + 2 ^ 32) (2 ^ 32)) by lia. replace (z + 2 ^ 32) with (z + 1 * 2 ^ 32) by lia.
  by rewrite Z.mod_add.
Qed.

(** An id [k] after [b] in 32-bit arithmetic, stepped over the permanent ids. *)
Lemma seqno_after b k :
  normal_xid b -> 0 <= k < 2 ^ 31 ->
  let y := u32 (b + k) in let y := if y <? FirstNormalTransactionId then u32 (y + FirstNormalTransactionId) else y in
  normal_xid y /\ k - 3 <= seqno b y <= k.
Proof.
  intros Hb Hk y0 y. unfold normal_xid in *.
  assert (y0 = if b + k <? 2 ^ 32 then b + k else b + k - 2 ^ 32) as E0 by (apply u32_add; lia).
  assert (y = if y0 <? 3 then y0 + 3 else y0) as E1.
  { unfold y. change FirstNormalTransactionId with 3. destruct (Z.ltb_spec y0 3); [|done].
    rewrite u32_add by (destruct (Z.ltb_spec (b + k) (2 ^ 32)); lia). destruct (Z.ltb_spec (y0 + 3) (2 ^ 32)); lia. }
  assert (3 <= y < 2 ^ 32) as Hy.
  { rewrite E1. destruct (Z.ltb_spec y0 3), (Z.ltb_spec (b + k) (2 ^ 32)); lia. }
  split; [done|]. rewrite seqno_cases by done. rewrite E1.
  destruct (Z.ltb_spec y0 3), (Z.ltb_spec (b + k) (2 ^ 32)); try lia;
    match goal with |- context [b <=? ?v] => destruct (Z.leb_spec b v) end; lia.
Qed.

(** The same backwards. *)
Lemma seqno_before b x k :
  normal_xid b -> normal_xid x -> 3 <= k <= seqno b x - 6 ->
  let y := u32 (x - k) in let y := if y <? FirstNormalTransactionId then u32 (y - FirstNormalTransactionId) else y in
  normal_xid y /\ seqno b x - k <= seqno b y <= seqno b x - k + 3.
Proof.
  intros Hb Hx Hk y0 y. rewrite (seqno_cases b x) in * by done. unfold normal_xid in *.
  assert (k < 4294967293) as Hkb by (destruct (Z.leb_spec b x); lia).
  assert (y0 = if x - k <? 0 then x - k + 2 ^ 32 else x - k) as E0 by (apply u32_sub; lia).
  assert (y = if y0 <? 3 then y0 - 3 + 2 ^ 32 else y0) as E1.
  { unfold y. change FirstNormalTransactionId with 3. destruct (Z.ltb_spec y0 3); [|done].
    rewrite u32_sub by (destruct (Z.ltb_spec (x - k) 0); lia). destruct (Z.ltb_spec (y0 - 3) 0); lia. }
  assert (3 <= y < 2 ^ 32) as Hy.
  { rewrite E1. destruct (Z.ltb_spec y0 3), (Z.ltb_spec (x - k) 0); lia. }
  split; [done|]. rewrite (seqno_cases b y) by done. rewrite E1.
  destruct (Z.ltb_spec y0 3), (Z.ltb_spec (x - k) 0), (Z.leb_spec b x); try lia;
    match goal with |- context [b <=? ?v] => destruct (Z.leb_spec b v) end; lia.
Qed.

Record limits_for (oldest : TransactionId) (s : ProcShared) : Prop := {
  lf_vac : normal_xid (sh_xidVacLimit s) /\ seqno oldest (sh_xidVacLimit s) <= 2000000000;
  lf_stop : normal_xid (sh_xidStopLimit s) /\ 2146483644 <= seqno oldest (sh_xidStopLimit s) <= 2146483650
}.

Lemma set_limit_spec autovacuum_freeze_max_age oldest s0 s :
  normal_xid oldest -> 0 <= autovacuum_freeze_max_age <= 2000000000 ->
  SetTransactionIdLimit autovacuum_freeze_max_age oldest s0 = Ret s -> limits_for oldest s.
Proof.
  intros Ho Hm. unfold SetTransactionIdLimit. rewrite normal_is_normal by done. cbn [c_assert cbind].
  change (Z.shiftr MaxTransactionId 1) with 2147483647.
  destruct (seqno_after oldest 2147483647 Ho ltac:(lia)) as [W1 W2].
  set (wrap := if u32 (oldest + 2147483647) <? FirstNormalTransactionId then _ else _) in *.
  destruct (seqno_before oldest wrap 1000000 Ho W1 ltac:(lia)) as [S1 S2].
  destruct (seqno_after oldest autovacuum_freeze_max_age Ho ltac:(lia)) as [V1 V2].
  intros [= <-]. split; cbn [sh_xidVacLimit sh_xidStopLimit].
  - split; [exact V1|]. revert V2. cbn zeta. lia.
  - split; [exact S1|]. revert S2. cbn zeta. lia.
Qed.

(** The id and the published entry, when the second part runs on [s]. *)
Lemma publish_spec b s me isSubXact x s' :
  normal_xid b -> normal_xid (sh_nextXid s) -> seqno b (sh_nextXid s) < xid_window ->
  publish_xid s me isSubXact = Ret (x, s') ->
  x = sh_nextXid s /\ normal_xid (sh_nextXid s') /\ seqno b (sh_nextXid s') = seqno b x + 1 /\
  (forall y, normal_xid y -> seqno b y < seqno b x -> TransactionIdPrecedes y x = true) /\
  exists p, zget (sh_allPgXact s) me = Some p /\ zget (sh_allPgXact s') me = Some (with_xid isSubXact x p).
Proof.
  intros Hb Hn Hw [-> Hu]%publish_inv. destruct (update_proc_same _ _ _ _ Hu) as [_ E]. cbn [sh_nextXid set_nextXid] in E.
  rewrite E. split_and!; [done|by apply advance_is_normal|apply seqno_advance; [done|lia]| |].
  - intros y Hy Hlt. rewrite (seqno_precedes b) by (done || lia). lia.
  - pose proof (update_proc_get _ _ _ _ me Hu) as Hg. rewrite decide_True in Hg by done.
    apply update_proc_inv in Hu as (p & m & Hp & _ & _). cbn [sh_allPgXact set_nextXid] in *. exists p.
    split; [done|]. by rewrite Hg, Hp.
Qed.

Lemma publish_total s me isSubXact :
  0 <= me < zlen (sh_allPgXact s) -> exists x s', publish_xid s me isSubXact = Ret (x, s').
Proof.
  intros Hme. unfold publish_xid, update_proc. cbn [sh_allPgXact set_nextXid].
  destruct (zget_is_Some (sh_allPgXact s) me Hme) as [p Hp]. rewrite Hp. cbn [deref cbind].
  match goal with |- context [zset _ me ?q] => destruct (zset_is_Some (sh_allPgXact s) me q Hme) as [m ->] end.
  cbn [deref cbind]. eauto.
Qed.

(** C34. With the limits [SetTransactionIdLimit] derives from the oldest id still
    in use, [GetNewTransactionId] under a postmaster hands out [nextXid],
    publishes it in the backend's entry and advances [nextXid] past the
    permanent ids; the new id comes after every id assigned since the oldest
    one in the circular order, even when up to 900000 other ids were assigned
    between its check and its second critical section; and it does not refuse
    before a million ids from the wraparound point. *)
Theorem new_xid_spec autovacuum_freeze_max_age oldest s0 s s2 env me isSubXact :
  normal_xid oldest -> 0 <= autovacuum_freeze_max_age <= 2000000000 ->
  SetTransactionIdLimit autovacuum_freeze_max_age oldest s0 = Ret s ->
  IsUnderPostmaster env = true -> IsBootstrapProcessingMode env = false ->
  normal_xid (sh_nextXid s) -> normal_xid (sh_nextXid s2) -> seqno oldest (sh_nextXid s) <= xid_window ->
  seqno oldest (sh_nextXid s) <= seqno oldest (sh_nextXid s2) <= seqno oldest (sh_nextXid s) + 900000 ->
  (forall x s', GetNewTransactionId env s s2 me isSubXact = Ret (x, s') ->
    normal_xid x /\ seqno oldest (sh_nextXid s) <= seqno oldest x < xid_window /\
    normal_xid (sh_nextXid s') /\ seqno oldest (sh_nextXid s') = seqno oldest x + 1 /\
    (forall y, normal_xid y -> seqno oldest y < seqno oldest x -> TransactionIdPrecedes y x = true) /\
    exists p, zget (sh_allPgXact s') me = Some (with_xid isSubXact x p)) /\
  (seqno oldest (sh_nextXid s) < 2 ^ 31 - 1000004 ->
   IsInParallelMode env = false -> RecoveryInProgress env = false ->
   0 <= me < zlen (sh_allPgXact s) -> 0 <= me < zlen (sh_allPgXact s2) ->
   exists x s', GetNewTransactionId env s s2 me isSubXact = Ret (x, s')).
Proof.
  intros Ho Hm Hset Hpm Hboot Hn Hn2 Hw Hs2. destruct (set_limit_spec _ _ _ _ Ho Hm Hset) as [[V1 V2] [S1 S2]].
  unfold GetNewTransactionId. rewrite Hboot. unfold xid_limit_check. rewrite Hpm, andb_true_r.
  assert (2146483650 + 900000 < xid_window) as Hwin by (vm_compute; reflexivity).
  rewrite !(seqno_follows_eq oldest) by (done || lia).
  destruct (Z.leb_spec (seqno oldest (sh_xidVacLimit s)) (seqno oldest (sh_nextXid s))) as [Hv|Hv]; cbn [andb].
  - split.
    + intros x s'. destruct (IsInParallelMode env); [done|]. destruct (RecoveryInProgress env); [done|].
      destruct (Z.leb_spec (seqno oldest (sh_xidStopLimit s)) (seqno oldest (sh_nextXid s))); [done|]. cbn [cbind].
      intros Hp. destruct (publish_spec oldest s2 me isSubXact x s' Ho Hn2 ltac:(lia) Hp) as (-> & P1 & P2 & P3 & p & _ & P4).
      split_and!; try done; try lia. by exists p.
    + intros Hlow -> -> H1 H2. change (2 ^ 31 - 1000004) with 2146483644 in Hlow.
      destruct (Z.leb_spec (seqno oldest (sh_xidStopLimit s)) (seqno oldest (sh_nextXid s))); [lia|]. cbn [cbind].
      by apply publish_total.
  - split.
    + intros x s'. destruct (IsInParallelMode env); [done|]. destruct (RecoveryInProgress env); [done|]. cbn [cbind].
      intros Hp. destruct (publish_spec oldest s me isSubXact x s' Ho Hn ltac:(lia) Hp) as (-> & P1 & P2 & P3 & p & _ & P4).
      split_and!; try done; try lia. by exists p.
    + intros _ -> -> H1 H2. cbn [cbind]. by apply publish_total.
Qed.

Definition sample_limits : ProcShared :=
  match SetTransactionIdLimit 200000000 3 sample_shared with Ret s => s | _ => sample_shared end.

Lemma new_xid_spec_witness :
  exists x s', GetNewTransactionId sample_mode sample_limits sample_limits 2 false = Ret (x, s') /\
    x = 13 /\ sh_nextXid s' = 14 /\ TransactionIdPrecedes 12 x = true.
Proof.
  destruct (new_xid_spec 200000000 3 sample_shared sample_limits sample_limits sample_mode 2 false) as [Hspec Htotal].
  - split; [discriminate|reflexivity].
  - lia.
  - vm_compute. reflexivity.
  - reflexivity.
  - reflexivity.
  - split; [discriminate|reflexivity].
  - split; [discriminate|reflexivity].
  - vm_compute. discriminate.
  - lia.
  - destruct Htotal as (x & s' & E); try reflexivity; try (split; [discriminate|reflexivity]).
    exists x, s'. split; [exact E|]. destruct (Hspec x s' E) as (_ & _ & _ & _ & Hp & _).
    assert (x = 13 /\ sh_nextXid s' = 14) as [Ex En] by (vm_compute in E; injection E as <- <-; split; reflexivity).
    split; [exact Ex|]. split; [exact En|]. apply Hp; [split; [discriminate|reflexivity]|]. rewrite Ex. vm_compute. reflexivity.
Defined.
