(* ===== verification/MultiXact.v ===== *)
(** MultiXacts ([access/transam/multixact.c]): sets of transactions with a lock
    or update status each, which stand in a tuple's [xmax] when one transaction
    is not enough.

    A MultiXact is a number in a counter that wraps around and skips zero.  Two
    log-like areas ("SLRU") hold the contents: for every number the offset of
    its first member, and for every offset a member.  An SLRU area is a map from
    page numbers to pages; reading a page that is not there is the error of
    [SimpleLruReadPage].  Offset pages are indexed by entry, member pages by the
    byte offset of a 32-bit word.

    Creating a MultiXact takes two steps under different locks: numbers and
    space are reserved by [GetNewMultiXactId], the contents written by
    [RecordNewMultiXact].  Routines that change the shared state return it also
    when they fail. *)
From stdpp Require Import list.
From S2P Require Import Prelude Transam HeapTuple Tqual.

Abbreviation MultiXactOffset := Z (only parsing).

Definition InvalidMultiXactId : MultiXactId := 0.
Definition FirstMultiXactId : MultiXactId := 1.
Definition MaxMultiXactId : MultiXactId := 0xFFFFFFFF.
Definition MaxMultiXactOffset : MultiXactOffset := 0xFFFFFFFF.

Definition MultiXactIdIsValid (multi : MultiXactId) : bool := negb (multi =? InvalidMultiXactId).

Definition MultiXactIdPrecedes (multi1 multi2 : MultiXactId) : bool := s32 (multi1 - multi2) <? 0.

(** ** Where offsets and members are *)

Definition MULTIXACT_OFFSETS_PER_PAGE : Z := BLCKSZ / 4.
Definition MultiXactIdToOffsetPage (multi : MultiXactId) : Z := multi / MULTIXACT_OFFSETS_PER_PAGE.
Definition MultiXactIdToOffsetEntry (multi : MultiXactId) : Z := multi mod MULTIXACT_OFFSETS_PER_PAGE.

Definition MXACT_MEMBER_BITS_PER_XACT : Z := 8.
Definition MXACT_MEMBER_FLAGS_PER_BYTE : Z := 1.
Definition MXACT_MEMBER_XACT_BITMASK : Z := Z.shiftl 1 MXACT_MEMBER_BITS_PER_XACT - 1.
Definition MULTIXACT_FLAGBYTES_PER_GROUP : Z := 4.
Definition MULTIXACT_MEMBERS_PER_MEMBERGROUP : Z :=
  MULTIXACT_FLAGBYTES_PER_GROUP * MXACT_MEMBER_FLAGS_PER_BYTE.
Definition MULTIXACT_MEMBERGROUP_SIZE : Z :=
  4 * MULTIXACT_MEMBERS_PER_MEMBERGROUP + MULTIXACT_FLAGBYTES_PER_GROUP.
Definition MULTIXACT_MEMBERGROUPS_PER_PAGE : Z := BLCKSZ / MULTIXACT_MEMBERGROUP_SIZE.
Definition MULTIXACT_MEMBERS_PER_PAGE : Z :=
  MULTIXACT_MEMBERGROUPS_PER_PAGE * MULTIXACT_MEMBERS_PER_MEMBERGROUP.
Definition MAX_MEMBERS_IN_LAST_MEMBERS_PAGE : Z := u32 (0xFFFFFFFF mod MULTIXACT_MEMBERS_PER_PAGE + 1).
Definition SLRU_PAGES_PER_SEGMENT : Z := 32.

Definition MXOffsetToMemberPage (off : MultiXactOffset) : Z := off / MULTIXACT_MEMBERS_PER_PAGE.
Definition MXOffsetToFlagsOffset (off : MultiXactOffset) : Z :=
  (off / MULTIXACT_MEMBERS_PER_MEMBERGROUP) mod MULTIXACT_MEMBERGROUPS_PER_PAGE * MULTIXACT_MEMBERGROUP_SIZE.
Definition MXOffsetToFlagsBitShift (off : MultiXactOffset) : Z :=
  off mod MULTIXACT_MEMBERS_PER_MEMBERGROUP * MXACT_MEMBER_BITS_PER_XACT.
Definition MXOffsetToMemberOffset (off : MultiXactOffset) : Z :=
  MXOffsetToFlagsOffset off + MULTIXACT_FLAGBYTES_PER_GROUP + off mod MULTIXACT_MEMBERS_PER_MEMBERGROUP * 4.

(** ** The SLRU areas *)

Abbreviation Slru := (Z -> option (Z -> Z)) (only parsing).

Definition SimpleLruZeroPage (ctl : Slru) (pageno : Z) : Slru :=
  fun p => if p =? pageno then Some (fun _ => 0) else ctl p.

Definition slru_get (ctl : Slru) (pageno i : Z) : cres Z :=
  match ctl pageno with
  | Some page => Ret (page i)
  | None => Elog "could not access status of transaction"
  end.

Definition slru_put (ctl : Slru) (pageno i v : Z) : cres Slru :=
  match ctl pageno with
  | Some page => Ret (fun p => if p =? pageno then Some (fun j => if j =? i then v else page j) else ctl p)
  | None => Elog "could not access status of transaction"
  end.

(** ** The shared state *)

Record MultiXactStateData := {
  nextMXact : MultiXactId;
  nextOffset : MultiXactOffset;
  finishedStartup : bool;
  oldestMultiXactId : MultiXactId;
  oldestOffset : MultiXactOffset;
  oldestOffsetKnown : bool;
  multiVacLimit : MultiXactId;
  multiWarnLimit : MultiXactId;
  multiStopLimit : MultiXactId;
  multiWrapLimit : MultiXactId;
  offsetStopLimit : MultiXactOffset
}.

Record MXShared := {
  MultiXactState : MultiXactStateData;
  MultiXactOffsetCtl : Slru;
  MultiXactMemberCtl : Slru;
  OldestMemberMXactId : list MultiXactId;   (* by backend; 0 = none *)
  OldestVisibleMXactId : list MultiXactId
}.

Definition set_next (s : MultiXactStateData) (multi : MultiXactId) (offset : MultiXactOffset) : MultiXactStateData :=
  {| nextMXact := multi; nextOffset := offset; finishedStartup := finishedStartup s;
     oldestMultiXactId := oldestMultiXactId s; oldestOffset := oldestOffset s;
     oldestOffsetKnown := oldestOffsetKnown s; multiVacLimit := multiVacLimit s;
     multiWarnLimit := multiWarnLimit s; multiStopLimit := multiStopLimit s;
     multiWrapLimit := multiWrapLimit s; offsetStopLimit := offsetStopLimit s |}.

Definition with_state (m : MXShared) (s : MultiXactStateData) : MXShared :=
  {| MultiXactState := s; MultiXactOffsetCtl := MultiXactOffsetCtl m; MultiXactMemberCtl := MultiXactMemberCtl m;
     OldestMemberMXactId := OldestMemberMXactId m; OldestVisibleMXactId := OldestVisibleMXactId m |}.
Definition with_offsets (m : MXShared) (c : Slru) : MXShared :=
  {| MultiXactState := MultiXactState m; MultiXactOffsetCtl := c; MultiXactMemberCtl := MultiXactMemberCtl m;
     OldestMemberMXactId := OldestMemberMXactId m; OldestVisibleMXactId := OldestVisibleMXactId m |}.
Definition with_members (m : MXShared) (c : Slru) : MXShared :=
  {| MultiXactState := MultiXactState m; MultiXactOffsetCtl := MultiXactOffsetCtl m; MultiXactMemberCtl := c;
     OldestMemberMXactId := OldestMemberMXactId m; OldestVisibleMXactId := OldestVisibleMXactId m |}.
Definition with_oldest (m : MXShared) (mem vis : list MultiXactId) : MXShared :=
  {| MultiXactState := MultiXactState m; MultiXactOffsetCtl := MultiXactOffsetCtl m;
     MultiXactMemberCtl := MultiXactMemberCtl m; OldestMemberMXactId := mem; OldestVisibleMXactId := vis |}.

(** ** Reserving numbers and space *)

Definition ExtendMultiXactOffset (m : MXShared) (multi : MultiXactId) : MXShared :=
  if negb (MultiXactIdToOffsetEntry multi =? 0) && negb (multi =? FirstMultiXactId) then m
  else with_offsets m (SimpleLruZeroPage (MultiXactOffsetCtl m) (MultiXactIdToOffsetPage multi)).

(** The [while] loop takes at least one member off in every round. *)
Fixpoint extend_member_loop (fuel : nat) (ctl : Slru) (offset : MultiXactOffset) (nmembers : Z) : cres Slru :=
  if nmembers <=? 0 then Ret ctl else
  match fuel with
  | O => Undef
  | S fuel =>
      let flagsoff := MXOffsetToFlagsOffset offset in
      let flagsbit := MXOffsetToFlagsBitShift offset in
      let ctl := if (flagsoff =? 0) && (flagsbit =? 0)
                 then SimpleLruZeroPage ctl (MXOffsetToMemberPage offset) else ctl in
      let difference :=
        if u32 (offset + MAX_MEMBERS_IN_LAST_MEMBERS_PAGE) <? offset
        then MaxMultiXactOffset - offset + 1
        else MULTIXACT_MEMBERS_PER_PAGE - offset mod MULTIXACT_MEMBERS_PER_PAGE in
      extend_member_loop fuel ctl (u32 (offset + difference)) (nmembers - difference)
  end.

Definition ExtendMultiXactMember (m : MXShared) (offset : MultiXactOffset) (nmembers : Z) : cres MXShared :=
  let* ctl := extend_member_loop (Z.to_nat nmembers) (MultiXactMemberCtl m) offset nmembers in
  Ret (with_members m ctl).

Definition MultiXactOffsetWouldWrap (boundary start : MultiXactOffset) (distance : Z) : bool :=
  let finish := u32 (start + distance) in
  let finish := if finish <? start then u32 (finish + 1) else finish in
  if start <? boundary then (boundary <=? finish) || (finish <? start)
  else (boundary <=? finish) && (finish <? start).

(** What surrounds the calls: recovery, single-user mode, and what other
    backends do to the shared state while [GetNewMultiXactId] has released
    [MultiXactGenLock] for warnings, and between the reservation of a number and
    the writing of its contents. *)
Class MXEnv := {
  mx_RecoveryInProgress : bool;
  mx_IsUnderPostmaster : bool;
  mx_relock : MXShared -> MXShared;
  mx_unlocked : MXShared -> MXShared;
  mx_MyBackendId : Z;
  autovacuum_multixact_freeze_max_age : Z
}.

(** What [qsort] promises, for the order it is used with here. *)
Class MemberSort := qsort_members : list MultiXactMember -> list MultiXactMember.

Section Create.
Context `{MXEnv} `{MemberSort}.

(** From [ExtendMultiXactOffset] on. *)
Definition reserve_members (m : MXShared) (result : MultiXactId) (nmembers : Z)
  : cres (MultiXactId * MultiXactOffset) * MXShared :=
  let m := ExtendMultiXactOffset m result in
  let s := MultiXactState m in
  let '(offset, nmembers) := if nextOffset s =? 0 then (1, nmembers + 1) else (nextOffset s, nmembers) in
  if oldestOffsetKnown s && MultiXactOffsetWouldWrap (offsetStopLimit s) (nextOffset s) nmembers
  then (Elog "multixact members limit exceeded", m)
  else
    match ExtendMultiXactMember m (nextOffset s) nmembers with
    | Ret m => (Ret (result, offset),
                with_state m (set_next s (u32 (nextMXact s + 1)) (u32 (nextOffset s + nmembers))))
    | Elog e => (Elog e, m)
    | Undef => (Undef, m)
    end.

(** Until the lock is released: with the answer, or ([None]) for the warnings
    that are due from [multiVacLimit] on. *)
Definition new_multi_entry (m : MXShared) (nmembers : Z)
  : option (cres (MultiXactId * MultiXactOffset)) * MXShared :=
  if mx_RecoveryInProgress then (Some (Elog "cannot assign MultiXactIds during recovery"), m) else
  let s := MultiXactState m in
  let s := if nextMXact s <? FirstMultiXactId then set_next s FirstMultiXactId (nextOffset s) else s in
  let m := with_state m s in
  let result := nextMXact s in
  if negb (MultiXactIdPrecedes result (multiVacLimit s)) then
    if mx_IsUnderPostmaster && negb (MultiXactIdPrecedes result (multiStopLimit s))
    then (Some (Elog "database is not accepting commands that generate new MultiXactIds to avoid wraparound data loss"), m)
    else (None, m)
  else let '(r, m) := reserve_members m result nmembers in (Some r, m).

(** From "Re-acquire lock and start over" on. *)
Definition new_multi_again (m : MXShared) (nmembers : Z) : cres (MultiXactId * MultiXactOffset) * MXShared :=
  let result := nextMXact (MultiXactState m) in
  let result := if result <? FirstMultiXactId then FirstMultiXactId else result in
  reserve_members m result nmembers.

Definition GetNewMultiXactId (m : MXShared) (nmembers : Z)
  : cres (MultiXactId * MultiXactOffset) * MXShared :=
  match new_multi_entry m nmembers with
  | (Some r, m) => (r, m)
  | (None, m) => new_multi_again (mx_relock m) nmembers
  end.

(** ** Writing the contents *)

Fixpoint record_members (ctl : Slru) (offset : MultiXactOffset) (members : list MultiXactMember) : cres Slru :=
  match members with
  | [] => Ret ctl
  | m :: members =>
      c_assert (mx_status m <=? MultiXactStatusUpdate) ;;
      let pageno := MXOffsetToMemberPage offset in
      let memberoff := MXOffsetToMemberOffset offset in
      let flagsoff := MXOffsetToFlagsOffset offset in
      let bshift := MXOffsetToFlagsBitShift offset in
      let* ctl := slru_put ctl pageno memberoff (mx_xid m) in
      let* flagsval := slru_get ctl pageno flagsoff in
      let flagsval := Z.land flagsval (u32_not (u32_shl (Z.shiftl 1 MXACT_MEMBER_BITS_PER_XACT - 1) bshift)) in
      let flagsval := Z.lor flagsval (u32_shl (mx_status m) bshift) in
      let* ctl := slru_put ctl pageno flagsoff flagsval in
      record_members ctl (u32 (offset + 1)) members
  end.

Definition RecordNewMultiXact (m : MXShared) (multi : MultiXactId) (offset : MultiXactOffset)
    (members : list MultiXactMember) : cres MXShared :=
  let* offs := slru_put (MultiXactOffsetCtl m) (MultiXactIdToOffsetPage multi)
                 (MultiXactIdToOffsetEntry multi) offset in
  let* mems := record_members (MultiXactMemberCtl m) offset members in
  Ret (with_members (with_offsets m offs) mems).

(** ** The backend's cache of MultiXacts *)

Record MXCache := {
  MXactCache : list (MultiXactId * list MultiXactMember);   (* most recently used first *)
  MXactCacheMembers : Z
}.

Definition MAX_CACHE_ENTRIES : Z := 256.

Definition mxactMemberComparator (member1 member2 : MultiXactMember) : Z :=
  if mx_xid member2 <? mx_xid member1 then 1
  else if mx_xid member1 <? mx_xid member2 then -1
  else if mx_status member2 <? mx_status member1 then 1
  else if mx_status member1 <? mx_status member2 then -1
  else 0.

#[export] Instance MultiXactMember_eq_dec : EqDecision MultiXactMember.
Proof. solve_decision. Defined.

(** The first entry that satisfies [f], and the list with it moved to the head. *)
Fixpoint find_move (f : MultiXactId * list MultiXactMember -> bool) (l : list (MultiXactId * list MultiXactMember))
  : option ((MultiXactId * list MultiXactMember) * list (MultiXactId * list MultiXactMember)) :=
  match l with
  | [] => None
  | e :: l =>
      if f e then Some (e, e :: l)
      else match find_move f l with
           | Some (e', l') => Some (e', e' :: e :: tail l')
           | None => None
           end
  end.

(** Also returns the array, sorted in place. *)
Definition mXactCacheGetBySet (c : MXCache) (members : list MultiXactMember)
  : MultiXactId * MXCache * list MultiXactMember :=
  let members := qsort_members members in
  match find_move (fun e => bool_decide (e.2 = members)) (MXactCache c) with
  | Some (e, l) => (e.1, {| MXactCache := l; MXactCacheMembers := MXactCacheMembers c |}, members)
  | None => (InvalidMultiXactId, c, members)
  end.

Definition mXactCacheGetById (c : MXCache) (multi : MultiXactId) : option (list MultiXactMember) * MXCache :=
  match find_move (fun e => e.1 =? multi) (MXactCache c) with
  | Some (e, l) => (Some e.2, {| MXactCache := l; MXactCacheMembers := MXactCacheMembers c |})
  | None => (None, c)
  end.

Definition mXactCachePut (c : MXCache) (multi : MultiXactId) (members : list MultiXactMember) : MXCache :=
  let l := (multi, qsort_members members) :: MXactCache c in
  if MAX_CACHE_ENTRIES <=? MXactCacheMembers c
  then {| MXactCache := removelast l; MXactCacheMembers := MXactCacheMembers c |}
  else {| MXactCache := l; MXactCacheMembers := MXactCacheMembers c + 1 |}.

(** ** Creating *)

(** The [for] loop that looks for a second updater. *)
Fixpoint single_updater (has_update : bool) (members : list MultiXactMember) : cres unit :=
  match members with
  | [] => Ret tt
  | m :: members =>
      if ISUPDATE_from_mxstatus (mx_status m)
      then if has_update then Elog "new multixact has more than one updating member"
           else single_updater true members
      else single_updater has_update members
  end.

Definition MultiXactIdCreateFromMembers (m : MXShared) (c : MXCache) (members : list MultiXactMember)
  : cres (MultiXactId * MXCache) * MXShared :=
  let '(multi, c, members) := mXactCacheGetBySet c members in
  if MultiXactIdIsValid multi then (Ret (multi, c), m) else
  match single_updater false members with
  | Ret _ =>
      match GetNewMultiXactId m (zlen members) with
      | (Ret (multi, offset), m) =>
          let m := mx_unlocked m in
          match RecordNewMultiXact m multi offset members with
          | Ret m => (Ret (multi, mXactCachePut c multi members), m)
          | Elog e => (Elog e, m)
          | Undef => (Undef, m)
          end
      | (Elog e, m) => (Elog e, m)
      | (Undef, m) => (Undef, m)
      end
  | Elog e => (Elog e, m)
  | Undef => (Undef, m)
  end.

Definition MultiXactIdCreate (m : MXShared) (c : MXCache)
    (xid1 : TransactionId) (status1 : Z) (xid2 : TransactionId) (status2 : Z)
  : cres (MultiXactId * MXCache) * MXShared :=
  match c_assert (TransactionIdIsValid xid1 && TransactionIdIsValid xid2 &&
                  (negb (TransactionIdEquals xid1 xid2) || negb (status1 =? status2))) ;;
        let* me := deref (zget (OldestMemberMXactId m) mx_MyBackendId) in
        c_assert (MultiXactIdIsValid me) with
  | Ret _ => MultiXactIdCreateFromMembers m c
               [{| mx_xid := xid1; mx_status := status1 |}; {| mx_xid := xid2; mx_status := status2 |}]
  | Elog e => (Elog e, m)
  | Undef => (Undef, m)
  end.

(** ** Looking a MultiXact up *)

Definition wrapped_next (m : MXShared) : MultiXactId :=
  let next := nextMXact (MultiXactState m) in if next <? FirstMultiXactId then FirstMultiXactId else next.

Definition MultiXactIdSetOldestMember (m : MXShared) : cres MXShared :=
  let* me := deref (zget (OldestMemberMXactId m) mx_MyBackendId) in
  if MultiXactIdIsValid me then Ret m
  else let* l := deref (zset (OldestMemberMXactId m) mx_MyBackendId (wrapped_next m)) in
       Ret (with_oldest m l (OldestVisibleMXactId m)).

Definition older_member (oldest thisoldest : MultiXactId) : MultiXactId :=
  if MultiXactIdIsValid thisoldest && MultiXactIdPrecedes thisoldest oldest then thisoldest else oldest.

Definition MultiXactIdSetOldestVisible (m : MXShared) : cres MXShared :=
  let* me := deref (zget (OldestVisibleMXactId m) mx_MyBackendId) in
  if MultiXactIdIsValid me then Ret m
  else let oldest := fold_left older_member (tail (OldestMemberMXactId m)) (wrapped_next m) in
       let* l := deref (zset (OldestVisibleMXactId m) mx_MyBackendId oldest) in
       Ret (with_oldest m (OldestMemberMXactId m) l).

(** One round of the [retry] loop: the offset of the first member and the number
    of member slots, or [None] when the next MultiXact is still being filled in. *)
Definition read_offsets (ctl : Slru) (multi next : MultiXactId) (next_offset : MultiXactOffset)
  : cres (option (MultiXactOffset * Z)) :=
  let* offset := slru_get ctl (MultiXactIdToOffsetPage multi) (MultiXactIdToOffsetEntry multi) in
  c_assert (negb (offset =? 0)) ;;
  let tmp := u32 (multi + 1) in
  if next =? tmp then Ret (Some (offset, s32 (next_offset - offset)))
  else
    let tmp := if tmp <? FirstMultiXactId then FirstMultiXactId else tmp in
    let* nextMXOffset := slru_get ctl (MultiXactIdToOffsetPage tmp) (MultiXactIdToOffsetEntry tmp) in
    if nextMXOffset =? 0 then Ret None
    else Ret (Some (offset, s32 (nextMXOffset - offset))).

Fixpoint read_members (ctl : Slru) (length : nat) (offset : MultiXactOffset) : cres (list MultiXactMember) :=
  match length with
  | O => Ret []
  | S length =>
      let pageno := MXOffsetToMemberPage offset in
      let* xid := slru_get ctl pageno (MXOffsetToMemberOffset offset) in
      if negb (TransactionIdIsValid xid) then
        c_assert (offset =? 0) ;; read_members ctl length (u32 (offset + 1))
      else
        let* flags := slru_get ctl pageno (MXOffsetToFlagsOffset offset) in
        let* rest := read_members ctl length (u32 (offset + 1)) in
        Ret ({| mx_xid := xid;
                mx_status := Z.land (Z.shiftr flags (MXOffsetToFlagsBitShift offset)) MXACT_MEMBER_XACT_BITMASK |} :: rest)
  end.

(** [goto retry] after a sleep: the offsets are read again from what the shared
    memory is by then, and the members after the offsets.  [None] is a loop that
    is still waiting after [fuel] rounds. *)
Fixpoint read_retry (fuel : nat) (mem : nat -> MXShared) (t : nat) (multi next : MultiXactId)
    (next_offset : MultiXactOffset) : cres (option (list MultiXactMember)) :=
  match fuel with
  | O => Ret None
  | S fuel =>
      let* r := read_offsets (MultiXactOffsetCtl (mem t)) multi next next_offset in
      match r with
      | None => read_retry fuel mem (S t) multi next next_offset
      | Some (offset, length) =>
          let* l := read_members (MultiXactMemberCtl (mem (S t))) (Z.to_nat length) offset in
          Ret (Some l)
      end
  end.

Inductive members_result :=
  | NoMembers                                   (* return -1 *)
  | Members (members : list MultiXactMember)
  | Waiting.                                    (* still in the retry loop *)

(** [mem t] is the shared memory when the [t]-th lock is taken: at 0 to set the
    oldest visible MultiXact, at 1 to read the counters, then once per round. *)
Definition GetMultiXactIdMembers (fuel : nat) (mem : nat -> MXShared) (c : MXCache) (multi : MultiXactId)
    (from_pgupgrade onlyLock : bool) : cres (members_result * MXCache) :=
  if negb (MultiXactIdIsValid multi) || from_pgupgrade then Ret (NoMembers, c) else
  match mXactCacheGetById c multi with
  | (Some members, c) => Ret (Members members, c)
  | (None, c) =>
      let* m := MultiXactIdSetOldestVisible (mem 0%nat) in
      let* visible := deref (zget (OldestVisibleMXactId m) mx_MyBackendId) in
      if onlyLock && MultiXactIdPrecedes multi visible then Ret (NoMembers, c) else
      let s := MultiXactState (mem 1%nat) in
      if MultiXactIdPrecedes multi (oldestMultiXactId s)
      then Elog "MultiXactId does no longer exist -- apparent wraparound"
      else if negb (MultiXactIdPrecedes multi (nextMXact s))
      then Elog "MultiXactId has not been created yet -- apparent wraparound"
      else
        let* r := read_retry fuel mem 2%nat multi (nextMXact s) (nextOffset s) in
        match r with
        | None => Ret (Waiting, c)
        | Some members => Ret (Members members, mXactCachePut c multi members)
        end
  end.

(** ** Limits *)

Definition find_multixact_start (m : MXShared) (multi : MultiXactId) : cres (option MultiXactOffset) :=
  c_assert (finishedStartup (MultiXactState m)) ;;
  match MultiXactOffsetCtl m (MultiXactIdToOffsetPage multi) with
  | None => Ret None
  | Some page => Ret (Some (page (MultiXactIdToOffsetEntry multi)))
  end.

Definition offset_stop_limit (oldest : MultiXactOffset) : MultiXactOffset :=
  let segment := MULTIXACT_MEMBERS_PER_PAGE * SLRU_PAGES_PER_SEGMENT in
  u32 (u32 (oldest - oldest mod segment) - segment).

Definition SetOffsetVacuumLimit (m : MXShared) : cres MXShared :=
  let s := MultiXactState m in
  c_assert (finishedStartup s) ;;
  let* found := if oldestMultiXactId s =? nextMXact s then Ret (Some (nextOffset s))
                else find_multixact_start m (oldestMultiXactId s) in
  let '(oldest, known, stop) :=
    match found with
    | Some oldest => (oldest, true, offset_stop_limit oldest)
    | None => if oldestOffsetKnown s then (oldestOffset s, true, offsetStopLimit s) else (0, false, 0)
    end in
  Ret (with_state m
    {| nextMXact := nextMXact s; nextOffset := nextOffset s; finishedStartup := finishedStartup s;
       oldestMultiXactId := oldestMultiXactId s; oldestOffset := oldest; oldestOffsetKnown := known;
       multiVacLimit := multiVacLimit s; multiWarnLimit := multiWarnLimit s;
       multiStopLimit := multiStopLimit s; multiWrapLimit := multiWrapLimit s; offsetStopLimit := stop |}).

(** [limit += FirstMultiXactId] or [-=] where the limit is zero. *)
Definition limit_up (limit : MultiXactId) : MultiXactId :=
  if limit <? FirstMultiXactId then u32 (limit + FirstMultiXactId) else limit.
Definition limit_down (limit : MultiXactId) : MultiXactId :=
  if limit <? FirstMultiXactId then u32 (limit - FirstMultiXactId) else limit.

Definition SetMultiXactIdLimit (m : MXShared) (oldest_datminmxid : MultiXactId) : cres MXShared :=
  c_assert (MultiXactIdIsValid oldest_datminmxid) ;;
  let wrap := limit_up (u32 (oldest_datminmxid + Z.shiftr MaxMultiXactId 1)) in
  let stop := limit_down (u32 (wrap - 100)) in
  let warn := limit_down (u32 (stop - 10000000)) in
  let vac := limit_up (u32 (oldest_datminmxid + autovacuum_multixact_freeze_max_age)) in
  let s := MultiXactState m in
  let m := with_state m
    {| nextMXact := nextMXact s; nextOffset := nextOffset s; finishedStartup := finishedStartup s;
       oldestMultiXactId := oldest_datminmxid; oldestOffset := oldestOffset s;
       oldestOffsetKnown := oldestOffsetKnown s; multiVacLimit := vac; multiWarnLimit := warn;
       multiStopLimit := stop; multiWrapLimit := wrap; offsetStopLimit := offsetStopLimit s |} in
  if negb (finishedStartup s) then Ret m else SetOffsetVacuumLimit m.
End Create.
