(* ===== verification/MultiXactProofs.v ===== *)
(** The storage of MultiXacts: where members are kept, what extending, writing
    and reading the areas does, and the log of MultiXacts the areas represent. *)
From stdpp Require Import list.
From S2P Require Import Prelude Transam HeapTuple Tqual MultiXact.

(** ** Layout of member pages *)

Lemma layout_constants :
  MULTIXACT_MEMBERS_PER_PAGE = 1636 /\ MULTIXACT_MEMBERGROUPS_PER_PAGE = 409 /\
  MULTIXACT_MEMBERS_PER_MEMBERGROUP = 4 /\ MULTIXACT_MEMBERGROUP_SIZE = 20 /\
  MULTIXACT_OFFSETS_PER_PAGE = 2048 /\ MAX_MEMBERS_IN_LAST_MEMBERS_PAGE = 4294967296 mod 1636.
Proof. done. Qed.


Lemma member_addr_inj a b :
  MXOffsetToMemberPage a = MXOffsetToMemberPage b -> MXOffsetToMemberOffset a = MXOffsetToMemberOffset b -> a = b.
Proof.
  unfold MXOffsetToMemberPage, MXOffsetToMemberOffset, MXOffsetToFlagsOffset.
  destruct layout_constants as (-> & -> & -> & -> & _ & _). unfold MULTIXACT_FLAGBYTES_PER_GROUP.
  intros. Z.div_mod_to_equations. lia.
Qed.

Lemma member_not_flags a b : MXOffsetToMemberOffset a <> MXOffsetToFlagsOffset b.
Proof.
  unfold MXOffsetToMemberOffset, MXOffsetToFlagsOffset.
  destruct layout_constants as (_ & -> & -> & -> & _ & _). unfold MULTIXACT_FLAGBYTES_PER_GROUP.
  Z.div_mod_to_equations. lia.
Qed.

Lemma flags_addr_inj a b :
  MXOffsetToMemberPage a = MXOffsetToMemberPage b -> MXOffsetToFlagsOffset a = MXOffsetToFlagsOffset b ->
  MXOffsetToFlagsBitShift a = MXOffsetToFlagsBitShift b -> a = b.
Proof.
  unfold MXOffsetToMemberPage, MXOffsetToFlagsBitShift, MXOffsetToFlagsOffset.
  destruct layout_constants as (-> & -> & -> & -> & _ & _). unfold MXACT_MEMBER_BITS_PER_XACT.
  intros. Z.div_mod_to_equations. lia.
Qed.

Lemma bshift_cases a : exists r, 0 <= r < 4 /\ MXOffsetToFlagsBitShift a = 8 * r.
Proof.
  unfold MXOffsetToFlagsBitShift. destruct layout_constants as (_ & _ & -> & _ & _ & _).
  exists (a mod 4). unfold MXACT_MEMBER_BITS_PER_XACT. split; [apply Z.mod_pos_bound; lia|lia].
Qed.

(** ** One member slot *)

Definition slot_xid (ctl : Slru) (o : MultiXactOffset) : option Z :=
  (fun page => page (MXOffsetToMemberOffset o)) <$> ctl (MXOffsetToMemberPage o).
Definition slot_status (ctl : Slru) (o : MultiXactOffset) : option Z :=
  (fun page => Z.land (Z.shiftr (page (MXOffsetToFlagsOffset o)) (MXOffsetToFlagsBitShift o))
                 MXACT_MEMBER_XACT_BITMASK) <$> ctl (MXOffsetToMemberPage o).

(** A slot holds a member. *)
Definition slot_holds (ctl : Slru) (o : MultiXactOffset) (m : MultiXactMember) : Prop :=
  slot_xid ctl o = Some (mx_xid m) /\ slot_status ctl o = Some (mx_status m).

Definition page_there (ctl : Slru) (o : MultiXactOffset) : Prop := is_Some (ctl (MXOffsetToMemberPage o)).

(** What the code may put into a member slot. *)
Definition member_ok (m : MultiXactMember) : Prop :=
  mx_xid m <> InvalidTransactionId /\ 0 <= mx_status m <= MultiXactStatusUpdate.

Lemma byte_mask z i : 0 <= i -> Z.testbit (Z.land z MXACT_MEMBER_XACT_BITMASK) i = (i <? 8) && Z.testbit z i.
Proof.
  intros Hi. change MXACT_MEMBER_XACT_BITMASK with (Z.ones 8). rewrite Z.land_ones by lia.
  by rewrite testbit_mod_pow2 by lia.
Qed.

(** Replacing the status byte at bit [8 * r] of a flag word. *)
Lemma flag_byte_set f v r q :
  0 <= v < 256 -> 0 <= r < 4 -> 0 <= q < 4 ->
  Z.land (Z.shiftr (Z.lor (Z.land f (u32_not (u32_shl (Z.shiftl 1 MXACT_MEMBER_BITS_PER_XACT - 1) (8 * r))))
                          (u32_shl v (8 * r))) (8 * q)) MXACT_MEMBER_XACT_BITMASK =
  if q =? r then v else Z.land (Z.shiftr f (8 * q)) MXACT_MEMBER_XACT_BITMASK.
Proof.
  intros Hv Hr Hq. apply Z.bits_inj'. intros i Hi.
  rewrite byte_mask by done. destruct (Z.ltb_spec i 8) as [Hi8|Hi8]; cbn [andb].
  2:{ symmetry. destruct (q =? r).
      - apply (is_u_testbit 8 v i); [unfold is_u; lia|lia].
      - rewrite byte_mask by done. destruct (Z.ltb_spec i 8); [lia|done]. }
  rewrite Z.shiftr_spec by done. rewrite Z.lor_spec, Z.land_spec, testbit_u32_not, !testbit_u32_shl by lia.
  replace (Z.shiftl 1 MXACT_MEMBER_BITS_PER_XACT - 1) with (Z.ones 8) by done.
  destruct (Z.ltb_spec (i + 8 * q) 32); [|lia]. cbn [andb].
  destruct (Z.eqb_spec q r) as [->|Hne].
  - replace (i + 8 * r - 8 * r) with i by lia. rewrite Z.ones_spec_low by lia.
    cbn [andb negb]. by rewrite andb_false_r.
  - rewrite byte_mask by done. destruct (Z.ltb_spec i 8); [|lia]. rewrite Z.shiftr_spec by done. cbn [andb].
    destruct (Z.le_gt_cases (8 * r) (i + 8 * q)).
    + rewrite Z.ones_spec_high by lia. rewrite (is_u_testbit 8 v) by (unfold is_u; lia).
      cbn [negb]. by rewrite andb_true_r, orb_false_r.
    + rewrite !(Z.testbit_neg_r _ (i + 8 * q - 8 * r)) by lia. cbn [negb]. by rewrite andb_true_r, orb_false_r.
Qed.

(** One round of the loop of [RecordNewMultiXact]. *)
Definition record_member (ctl : Slru) (offset : MultiXactOffset) (m : MultiXactMember) : cres Slru :=
  record_members ctl offset [m].

Lemma record_members_cons ctl o m l :
  record_members ctl o (m :: l) = let* ctl := record_member ctl o m in record_members ctl (u32 (o + 1)) l.
Proof.
  unfold record_member. cbn [record_members].
  destruct (c_assert _); cbn [cbind]; [|done..].
  destruct (slru_put ctl _ _ _) as [c1| |]; cbn [cbind]; [|done..].
  destruct (slru_get c1 _ _); cbn [cbind]; [|done..].
  by destruct (slru_put c1 _ _ _); cbn [cbind].
Qed.

Lemma record_member_spec ctl o m :
  member_ok m -> page_there ctl o ->
  exists ctl', record_member ctl o m = Ret ctl' /\ slot_holds ctl' o m /\
    (forall o', o' <> o -> slot_xid ctl' o' = slot_xid ctl o' /\ slot_status ctl' o' = slot_status ctl o') /\
    (forall o', page_there ctl o' -> page_there ctl' o').
Proof.
  intros [Hx Hs] [pg Epg]. unfold record_member, record_members, slru_put, slru_get.
  destruct (Z.leb_spec (mx_status m) MultiXactStatusUpdate); [|lia]. cbn [c_assert cbind].
  rewrite Epg. cbn [cbind]. rewrite !Z.eqb_refl. cbn [cbind].
  eexists. split; [done|].
  pose proof (member_not_flags o) as Hmf.
  destruct (bshift_cases o) as (r & Hr & Er). unfold MultiXactStatusUpdate in Hs.
  assert ((MXOffsetToFlagsOffset o =? MXOffsetToMemberOffset o) = false) as ->
    by (apply Z.eqb_neq; intros E; by apply (Hmf o)).
  split_and!.
  - unfold slot_holds, slot_xid, slot_status. rewrite !Z.eqb_refl. cbn [fmap option_fmap option_map].
    destruct (Z.eqb_spec (MXOffsetToMemberOffset o) (MXOffsetToFlagsOffset o)) as [E|_]; [by apply Hmf in E|].
    rewrite !Z.eqb_refl. split; [done|]. f_equal. rewrite Er, flag_byte_set by lia. by rewrite Z.eqb_refl.
  - intros o' Hne. unfold slot_xid, slot_status.
    destruct (Z.eqb_spec (MXOffsetToMemberPage o') (MXOffsetToMemberPage o)) as [Ep|]; [|done].
    rewrite Ep, Epg. rewrite ?Z.eqb_refl. cbn [fmap option_fmap option_map]. split.
    + destruct (Z.eqb_spec (MXOffsetToMemberOffset o') (MXOffsetToFlagsOffset o)) as [E|_];
        [by apply member_not_flags in E|].
      destruct (Z.eqb_spec (MXOffsetToMemberOffset o') (MXOffsetToMemberOffset o)) as [E|_]; [|done].
      by destruct (Hne (member_addr_inj _ _ Ep E)).
    + f_equal. destruct (Z.eqb_spec (MXOffsetToFlagsOffset o') (MXOffsetToFlagsOffset o)) as [E|_].
      * destruct (bshift_cases o') as (q & Hq & Eq). rewrite Eq, Er, flag_byte_set by lia.
        destruct (Z.eqb_spec q r) as [->|]; [|by rewrite E].
        destruct Hne. apply flags_addr_inj; [done|done|congruence].
      * destruct (Z.eqb_spec (MXOffsetToFlagsOffset o') (MXOffsetToMemberOffset o)) as [E|_]; [|done].
        symmetry in E. by apply member_not_flags in E.
  - intros o' [pg' E]. unfold page_there. destruct (MXOffsetToMemberPage o' =? MXOffsetToMemberPage o); [eauto|].
    destruct (MXOffsetToMemberPage o' =? MXOffsetToMemberPage o); eauto.
Qed.

Lemma u32_succ p : u32 (u32 p + 1) = u32 (p + 1).
Proof. unfold u32. by rewrite Z.add_mod_idemp_l. Qed.

Lemma u32_inj_near p q : u32 p = u32 q -> - 2 ^ 32 < p - q < 2 ^ 32 -> p = q.
Proof. unfold u32. intros. Z.div_mod_to_equations. lia. Qed.

(** The members of a list in consecutive slots, from the one of position [p];
    positions grow without bound, slots are positions modulo [2 ^ 32]. *)
Definition slots_hold (ctl : Slru) (p : Z) (l : list MultiXactMember) : Prop :=
  forall (k : nat) m, l !! k = Some m -> slot_holds ctl (u32 (p + Z.of_nat k)) m.

Lemma slots_hold_cons ctl p m l :
  slots_hold ctl p (m :: l) <-> slot_holds ctl (u32 p) m /\ slots_hold ctl (p + 1) l.
Proof.
  unfold slots_hold. split.
  - intros Hh. split; [by specialize (Hh 0%nat m eq_refl); rewrite Z.add_0_r in Hh|].
    intros k m' Hk. specialize (Hh (S k) m' Hk). by replace (p + 1 + Z.of_nat k) with (p + Z.of_nat (S k)) by lia.
  - intros [H0 Hh] [|k] m' Hk; cbn in Hk; [injection Hk as <-; by rewrite Z.add_0_r|].
    replace (p + Z.of_nat (S k)) with (p + 1 + Z.of_nat k) by lia. by apply Hh.
Qed.

Lemma record_members_spec l : forall ctl p,
  Forall member_ok l -> zlen l <= 2 ^ 32 ->
  (forall q, p <= q < p + zlen l -> page_there ctl (u32 q)) ->
  exists ctl', record_members ctl (u32 p) l = Ret ctl' /\ slots_hold ctl' p l /\
    (forall o, (forall q, p <= q < p + zlen l -> u32 q <> o) ->
       slot_xid ctl' o = slot_xid ctl o /\ slot_status ctl' o = slot_status ctl o) /\
    (forall o, page_there ctl o -> page_there ctl' o).
Proof.
  induction l as [|m l IH]; intros ctl p Hok Hlen Hpg.
  - exists ctl. split_and!; [done|by intros k m Hk|done|done].
  - apply Forall_cons in Hok as [Hm Hl]. rewrite zlen_cons in *. pose proof (zlen_nonneg l).
    destruct (record_member_spec ctl (u32 p) m Hm) as (c1 & E1 & Hh1 & Hf1 & Hp1); [apply Hpg; lia|].
    rewrite record_members_cons, E1. cbn [cbind]. rewrite u32_succ.
    destruct (IH c1 (p + 1) Hl) as (c2 & E2 & Hh2 & Hf2 & Hp2); [lia|intros q Hq; apply Hp1, Hpg; lia|].
    exists c2. split_and!; [done| | |auto].
    + apply slots_hold_cons. split; [|done]. destruct Hh1 as [Hx Hs].
      destruct (Hf2 (u32 p)) as [Ex Es]; [|by unfold slot_holds; rewrite Ex, Es].
      intros q Hq E. apply u32_inj_near in E; lia.
    + intros o Ho. destruct (Hf2 o) as [-> ->]; [intros q Hq; apply Ho; lia|].
      apply Hf1. intros ->. apply (Ho p); [lia|done].
Qed.

Lemma read_members_app l : forall ctl p j,
  Forall member_ok l -> slots_hold ctl p l ->
  read_members ctl (length l + j) (u32 p) =
    let* rest := read_members ctl j (u32 (p + zlen l)) in Ret (l ++ rest).
Proof.
  induction l as [|m l IH]; intros ctl p j Hok Hh.
  - cbn [length Nat.add]. change (zlen (@nil MultiXactMember)) with 0. rewrite Z.add_0_r.
    by destruct (read_members ctl j (u32 p)).
  - apply Forall_cons in Hok as [[Hx _] Hl]. apply slots_hold_cons in Hh as [[Ex Es] Hh].
    unfold slot_xid, slot_status in Ex, Es. cbn [length Nat.add read_members]. unfold slru_get.
    destruct (ctl (MXOffsetToMemberPage (u32 p))) as [pg|]; [|done]. cbn in Ex, Es.
    injection Ex as Ex. injection Es as Es. cbn [cbind]. rewrite Ex, Es.
    unfold TransactionIdIsValid. destruct (Z.eqb_spec (mx_xid m) InvalidTransactionId); [done|]. cbn [negb].
    rewrite u32_succ, IH by done. rewrite zlen_cons.
    replace (p + (1 + zlen l)) with (p + 1 + zlen l) by lia.
    destruct (read_members ctl j _); cbn [cbind]; [|done..]. by destruct m.
Qed.

(** ** Extending the member area *)

(** The slot of a position starts a page. *)
Definition page_start (q : Z) : Prop := u32 q mod MULTIXACT_MEMBERS_PER_PAGE = 0.

Definition zero_page (ctl : Slru) (pageno : Z) : Prop :=
  exists page, ctl pageno = Some page /\ forall i, page i = 0.

Lemma flags_page_start o :
  0 <= o -> (MXOffsetToFlagsOffset o =? 0) && (MXOffsetToFlagsBitShift o =? 0) =
            (o mod MULTIXACT_MEMBERS_PER_PAGE =? 0).
Proof.
  intros Ho. unfold MXOffsetToFlagsOffset, MXOffsetToFlagsBitShift.
  destruct layout_constants as (-> & -> & -> & -> & _ & _). unfold MXACT_MEMBER_BITS_PER_XACT.
  destruct (Z.eqb_spec ((o / 4) mod 409 * 20) 0), (Z.eqb_spec (o mod 4 * 8) 0), (Z.eqb_spec (o mod 1636) 0);
    cbn [andb]; try done; exfalso; Z.div_mod_to_equations; lia.
Qed.

(** The distance to the next page start, as the loop computes it. *)
Definition page_rest (o : MultiXactOffset) : Z :=
  if u32 (o + MAX_MEMBERS_IN_LAST_MEMBERS_PAGE) <? o
  then MaxMultiXactOffset - o + 1
  else MULTIXACT_MEMBERS_PER_PAGE - o mod MULTIXACT_MEMBERS_PER_PAGE.

Lemma page_rest_spec p :
  let d := page_rest (u32 p) in
  1 <= d <= 1636 /\ page_start (p + d) /\
  forall q, p < q < p + d -> ~ page_start q /\ MXOffsetToMemberPage (u32 q) = MXOffsetToMemberPage (u32 p).
Proof.
  cbn zeta. unfold page_rest, page_start, MXOffsetToMemberPage, MaxMultiXactOffset, u32.
  destruct layout_constants as (-> & _ & _ & _ & _ & ->). change (2 ^ 32) with 4294967296.
  change (4294967296 mod 1636) with 1036.
  destruct (Z.ltb_spec ((p mod 4294967296 + 1036) mod 4294967296) (p mod 4294967296)).
  - split_and!; [Z.div_mod_to_equations; lia..|]. intros q Hq. Z.div_mod_to_equations; lia.
  - split_and!; [Z.div_mod_to_equations; lia..|]. intros q Hq. Z.div_mod_to_equations; lia.
Qed.

Lemma zero_page_zeroed ctl P : zero_page (SimpleLruZeroPage ctl P) P.
Proof. exists (fun _ => 0). unfold SimpleLruZeroPage. by rewrite Z.eqb_refl. Qed.

Lemma zeroed_other ctl P Q : P <> Q -> SimpleLruZeroPage ctl P Q = ctl Q.
Proof. intros. unfold SimpleLruZeroPage. destruct (Z.eqb_spec Q P); [congruence|done]. Qed.

Lemma zero_page_stays ctl P Q : zero_page ctl P -> zero_page (SimpleLruZeroPage ctl Q) P.
Proof.
  intros Hz. destruct (decide (P = Q)) as [->|]; [apply zero_page_zeroed|].
  unfold zero_page. by rewrite zeroed_other.
Qed.

Lemma extend_member_loop_spec fuel : forall ctl p n,
  n <= Z.of_nat fuel ->
  exists ctl', extend_member_loop fuel ctl (u32 p) n = Ret ctl' /\
    (forall q, p <= q < p + n -> page_start q -> zero_page ctl' (MXOffsetToMemberPage (u32 q))) /\
    (forall P, (forall q, p <= q < p + n -> page_start q -> MXOffsetToMemberPage (u32 q) <> P) -> ctl' P = ctl P) /\
    (forall P, zero_page ctl P -> zero_page ctl' P) /\
    (forall P, is_Some (ctl P) -> is_Some (ctl' P)).
Proof.
  induction fuel as [|fuel IH]; intros ctl p n Hn; cbn [extend_member_loop];
    destruct (Z.leb_spec n 0); try (exists ctl; split_and!; [done|lia|done|done|done]); [lia|].
  rewrite flags_page_start by apply is_u_u32. fold (page_rest (u32 p)).
  pose proof (page_rest_spec p) as (Hd & Hs & Hmid). set (d := page_rest (u32 p)) in *. cbn zeta.
  set (c1 := if _ =? 0 then SimpleLruZeroPage ctl _ else ctl).
  replace (u32 (u32 p + d)) with (u32 (p + d)) by (unfold u32; by rewrite Z.add_mod_idemp_l).
  destruct (IH c1 (p + d) (n - d)) as (c2 & E & HA & HB & HD & HC); [lia|].
  exists c2. split_and!; [done| | | |].
  - intros q Hq Hqs. destruct (Z.lt_ge_cases q (p + d)) as [Hlt|Hge]; [|apply HA; [lia|done]].
    destruct (decide (q = p)) as [->|]; [|by destruct (Hmid q ltac:(lia)) as [Hno _]].
    apply HD. unfold c1. unfold page_start in Hqs. rewrite Hqs. apply zero_page_zeroed.
  - intros P HP. rewrite HB by (intros q Hq; apply HP; lia). unfold c1.
    destruct (Z.eqb_spec (u32 p mod MULTIXACT_MEMBERS_PER_PAGE) 0) as [Hps|]; [|done].
    apply zeroed_other. apply (HP p); [lia|done].
  - intros P Hz. apply HD. unfold c1. destruct (_ =? 0); [by apply zero_page_stays|done].
  - intros P HP. apply HC. unfold c1. destruct (_ =? 0); [|done]. unfold SimpleLruZeroPage.
    destruct (P =? _); [by eexists|done].
Qed.

(** ** Offsets that wrap around *)

(** Zero is not used, neither as the number of a MultiXact nor as the offset
    where one starts. *)
Definition skip0 (p : Z) : Z := if u32 p =? 0 then p + 1 else p.

Lemma skip0_cases p : (u32 p = 0 /\ skip0 p = p + 1) \/ (u32 p <> 0 /\ skip0 p = p).
Proof. unfold skip0. destruct (Z.eqb_spec (u32 p) 0); auto. Qed.

Lemma u32_skip0 p : u32 (skip0 p) <> 0.
Proof.
  destruct (skip0_cases p) as [[E ->]|[E ->]]; [|done].
  rewrite <- u32_succ, E. done.
Qed.

Lemma skip0_wrapped p : u32 (skip0 p) = if u32 p <? 1 then 1 else u32 p.
Proof.
  pose proof (is_u_u32 p) as Hu. unfold is_u in Hu.
  destruct (skip0_cases p) as [[E ->]|[E ->]].
  - rewrite <- u32_succ, E. done.
  - destruct (Z.ltb_spec (u32 p) 1); [lia|done].
Qed.

(** What [MultiXactOffsetWouldWrap] lets pass ends before the boundary, as long as
    that is less than a whole turn ahead. *)
Lemma would_wrap_spec start limit n :
  start < limit < start + 2 ^ 32 -> 0 <= n < 2 ^ 31 ->
  MultiXactOffsetWouldWrap (u32 limit) (u32 start) n = false -> start + n < limit.
Proof.
  unfold MultiXactOffsetWouldWrap, u32. change (2 ^ 32) with 4294967296. change (2 ^ 31) with 2147483648.
  intros Hl Hn. cbn zeta.
  repeat match goal with
  | |- context [?a <? ?b] => destruct (Z.ltb_spec a b)
  | |- context [?a <=? ?b] => destruct (Z.leb_spec a b)
  end; cbn [andb orb]; intros Hf; try done; Z.div_mod_to_equations; lia.
Qed.

Lemma multi_precedes_near a b :
  - 2 ^ 31 <= a - b < 2 ^ 31 -> MultiXactIdPrecedes (u32 a) (u32 b) = (a <? b).
Proof.
  unfold MultiXactIdPrecedes, s32, u32. change (2 ^ 32) with 4294967296. change (2 ^ 31) with 2147483648. intros Hd.
  destruct (Z.ltb_spec a b), (Z.ltb_spec ((a mod 4294967296 - b mod 4294967296 + 2147483648) mod 4294967296 - 2147483648) 0);
    try done; exfalso; Z.div_mod_to_equations; lia.
Qed.

Lemma same_page_succ q :
  ~ page_start (q + 1) -> MXOffsetToMemberPage (u32 (q + 1)) = MXOffsetToMemberPage (u32 q).
Proof.
  unfold page_start, MXOffsetToMemberPage, u32. destruct layout_constants as (-> & _).
  change (2 ^ 32) with 4294967296. intros. Z.div_mod_to_equations. lia.
Qed.

#[export] Instance page_start_dec q : Decision (page_start q).
Proof. unfold page_start. apply _. Defined.

(** Going up from a page or from its tail, every slot is on a page that starts on
    the way or on the first one. *)
Lemma page_reached p q : p <= q ->
  (exists s, p <= s <= q /\ page_start s /\ MXOffsetToMemberPage (u32 s) = MXOffsetToMemberPage (u32 q)) \/
  (~ page_start p /\ MXOffsetToMemberPage (u32 q) = MXOffsetToMemberPage (u32 p)).
Proof.
  intros Hpq. replace q with (p + Z.of_nat (Z.to_nat (q - p))) by lia.
  induction (Z.to_nat (q - p)) as [|k IH]; [|clear Hpq].
  - rewrite Z.add_0_r. destruct (decide (page_start p)); [left; exists p|right]; split_and!; (done || lia).
  - destruct (decide (page_start (p + Z.of_nat (S k)))) as [Hs|Hs].
    { left. exists (p + Z.of_nat (S k)). split_and!; (done || lia). }
    assert (MXOffsetToMemberPage (u32 (p + Z.of_nat (S k))) = MXOffsetToMemberPage (u32 (p + Z.of_nat k))) as ->.
    { replace (p + Z.of_nat (S k)) with (p + Z.of_nat k + 1) in * by lia. by apply same_page_succ. }
    destruct IH as [(s & Hs1 & Hs2 & Hs3)|IH]; [left; exists s; split_and!; (done || lia)|by right].
Qed.
