(* ===== verification/MultiXactLog.v ===== *)
(** The log of MultiXacts that the offset and member areas represent, and that
    every routine of [multixact.c] that changes them keeps it. *)
From stdpp Require Import list.
From S2P Require Import Prelude Transam HeapTuple Tqual MultiXact MultiXactProofs.

(** Numbers and positions are unwrapped: number [a] is stored as [u32 a], and the
    member at position [p] in slot [u32 p].  The numbers from [log_lo] up to but
    not including [log_hi] exist, those that would wrap to zero apart. *)
Record MXLog := {
  log_lo : Z;
  log_hi : Z;
  log_start : Z;                               (* members before it are gone *)
  log_end : Z;
  log_pos : Z -> Z;
  log_members : Z -> list MultiXactMember;
  log_written : Z -> bool                      (* or only reserved *)
}.

Definition in_log (g : MXLog) (a : Z) : Prop := log_lo g <= a < log_hi g /\ u32 a <> 0.
Definition next_multi (a : Z) : Z := skip0 (a + 1).
Definition log_stop (g : MXLog) (a : Z) : Z := log_pos g a + zlen (log_members g a).

Definition log_append (g : MXLog) (l : list MultiXactMember) : MXLog :=
  let a := skip0 (log_hi g) in
  {| log_lo := log_lo g; log_hi := a + 1; log_start := log_start g;
     log_end := skip0 (log_end g) + zlen l;
     log_pos := fun b => if b =? a then skip0 (log_end g) else log_pos g b;
     log_members := fun b => if b =? a then l else log_members g b;
     log_written := fun b => if b =? a then false else log_written g b |}.

(** The counter moves off zero although nothing is assigned. *)
Definition log_skip (g : MXLog) : MXLog :=
  {| log_lo := log_lo g; log_hi := skip0 (log_hi g); log_start := log_start g; log_end := log_end g;
     log_pos := log_pos g; log_members := log_members g; log_written := log_written g |}.

Definition log_write (g : MXLog) (a : Z) : MXLog :=
  {| log_lo := log_lo g; log_hi := log_hi g; log_start := log_start g; log_end := log_end g;
     log_pos := log_pos g; log_members := log_members g;
     log_written := fun b => if b =? a then true else log_written g b |}.

Definition updaters (l : list MultiXactMember) : list MultiXactMember :=
  filter (fun m => ISUPDATE_from_mxstatus (mx_status m) = true) l.

Record members_ok (l : list MultiXactMember) : Prop := {
  members_each : Forall member_ok l;
  members_single : (length (updaters l) <= 1)%nat;
  members_few : zlen l < 2 ^ 31 - 2
}.

Definition offset_at (ctl : Slru) (multi : MultiXactId) : option Z :=
  (fun page => page (MultiXactIdToOffsetEntry multi)) <$> ctl (MultiXactIdToOffsetPage multi).

Definition member_segment : Z := MULTIXACT_MEMBERS_PER_PAGE * SLRU_PAGES_PER_SEGMENT.

(** The last numbers and positions that may be used while those from [lo] and
    [start] on are needed; the routines that set the limits compute them modulo
    [2 ^ 32]. *)
Definition id_limit (lo : Z) : Z :=
  let stop := skip0 (lo + (2 ^ 31 - 1)) - 100 in if u32 stop =? 0 then stop - 1 else stop.
Definition member_limit (start : Z) : Z := start - u32 start mod member_segment - member_segment + 2 ^ 32.

Record limits_ok (s : MultiXactStateData) (g : MXLog) : Prop := {
  lim_ids : exists vac stop, multiVacLimit s = u32 vac /\ multiStopLimit s = u32 stop /\
    log_lo g < vac <= stop /\ stop <= id_limit (log_lo g) /\ log_hi g <= stop /\ u32 stop <> 0;
  lim_started : finishedStartup s = true;
  lim_known : oldestOffsetKnown s = true;
  lim_members : exists limit, offsetStopLimit s = u32 limit /\
    log_end g < limit <= member_limit (log_start g)
}.

Record mx_inv (m : MXShared) (g : MXLog) : Prop := {
  inv_next : nextMXact (MultiXactState m) = u32 (log_hi g);
  inv_next_offset : nextOffset (MultiXactState m) = u32 (log_end g);
  inv_oldest : oldestMultiXactId (MultiXactState m) = u32 (log_lo g) /\ u32 (log_lo g) <> 0;
  inv_order : log_lo g <= skip0 (log_hi g) /\ log_start g <= log_end g;
  inv_limits : limits_ok (MultiXactState m) g;
  inv_entry : forall a, in_log g a -> log_start g <= log_pos g a /\ u32 (log_pos g a) <> 0 /\
    log_stop g a <= log_end g /\ members_ok (log_members g a);
  inv_chain : forall a, in_log g a ->
    if next_multi a <? log_hi g then log_pos g (next_multi a) = skip0 (log_stop g a)
    else log_end g = log_stop g a;
  inv_offsets : forall a, in_log g a ->
    offset_at (MultiXactOffsetCtl m) (u32 a) = Some (if log_written g a then u32 (log_pos g a) else 0);
  inv_fresh : forall a, log_hi g <= a -> a / 2048 = (log_hi g - 1) / 2048 ->
    log_hi g mod 2048 <> 0 -> u32 (log_hi g) <> 1 -> offset_at (MultiXactOffsetCtl m) (u32 a) = Some 0;
  inv_members : forall a, in_log g a -> log_written g a = true ->
    slots_hold (MultiXactMemberCtl m) (log_pos g a) (log_members g a);
  inv_gap : forall a, in_log g a -> in_log g (next_multi a) -> u32 (log_stop g a) = 0 ->
    slot_xid (MultiXactMemberCtl m) 0 = Some 0;
  inv_pages : forall q, log_start g <= q < log_end g -> page_there (MultiXactMemberCtl m) (u32 q);
  inv_tail : page_start (log_end g) \/ page_there (MultiXactMemberCtl m) (u32 (log_end g))
}.

(** ** Facts about the log *)

Lemma skip0_ge p : p <= skip0 p <= p + 1.
Proof. destruct (skip0_cases p) as [[_ ->]|[_ ->]]; lia. Qed.

Lemma next_multi_gt a : a < next_multi a <= a + 2.
Proof. unfold next_multi. pose proof (skip0_ge (a + 1)). lia. Qed.

Lemma next_multi_least a b : a < b -> u32 b <> 0 -> next_multi a <= b.
Proof.
  intros Hab Hb. unfold next_multi. destruct (skip0_cases (a + 1)) as [[E ->]|[E ->]]; [|lia].
  destruct (decide (b = a + 1)) as [->|]; [done|lia].
Qed.

Lemma id_limit_bound lo : lo + 2 ^ 31 - 102 <= id_limit lo <= lo + 2 ^ 31 - 100.
Proof.
  unfold id_limit. pose proof (skip0_ge (lo + (2 ^ 31 - 1))). destruct (_ =? 0); lia.
Qed.

Lemma id_limit_nz lo : u32 (id_limit lo) <> 0.
Proof.
  unfold id_limit. set (p := skip0 _ - 100). destruct (Z.eqb_spec (u32 p) 0) as [E|]; [|done].
  unfold u32 in *. change (2 ^ 32) with 4294967296 in *. Z.div_mod_to_equations. lia.
Qed.

Lemma member_limit_bound p :
  p + 2 ^ 32 - 2 * member_segment < member_limit p <= p + 2 ^ 32 - member_segment.
Proof.
  unfold member_limit. pose proof (Z.mod_pos_bound (u32 p) member_segment ltac:(done)). lia.
Qed.

Section Log.
Context (m : MXShared) (g : MXLog) (Hinv : mx_inv m g).

Lemma log_window : log_hi g <= log_lo g + 2 ^ 31 - 50.
Proof. destruct (lim_ids _ _ (inv_limits _ _ Hinv)) as (v & s & _ & _ & ? & ? & ? & _).
  pose proof (id_limit_bound (log_lo g)). lia.
Qed.

Lemma log_room : log_end g < log_start g + 2 ^ 32 - member_segment.
Proof. destruct (lim_members _ _ (inv_limits _ _ Hinv)) as (l & _ & ?).
  pose proof (member_limit_bound (log_start g)). lia.
Qed.

Lemma in_log_next a : in_log g a -> next_multi a < log_hi g -> in_log g (next_multi a).
Proof. intros [Ha _] Hn. pose proof (next_multi_gt a). split; [lia|apply u32_skip0]. Qed.

(** The last number: nothing is between it and the next to be assigned, though
    the counter may have been moved off zero. *)
Lemma log_last a : in_log g a -> ~ next_multi a < log_hi g ->
  next_multi a = skip0 (log_hi g) /\ (log_hi g = a + 1 \/ (log_hi g = a + 2 /\ u32 (a + 1) = 0)).
Proof using.
  intros [Ha Hu] Hn. unfold next_multi in *. destruct (skip0_cases (a + 1)) as [[E1 E2]|[E1 E2]]; rewrite E2 in *.
  - destruct (decide (log_hi g = a + 1)) as [->|]; [by rewrite E2; auto|]. assert (log_hi g = a + 1 + 1) as -> by lia.
    split; [|right; split; [lia|done]]. destruct (skip0_cases (a + 1 + 1)) as [[E _]|[_ ->]]; [|done].
    rewrite <- u32_succ, E1 in E. done.
  - assert (log_hi g = a + 1) as -> by lia. rewrite E2. auto.
Qed.

Lemma log_ordered a b : in_log g a -> in_log g b -> a < b -> skip0 (log_stop g a) <= log_pos g b.
Proof.
  intros Ha Hb Hab. remember (Z.to_nat (b - a)) as k eqn:Ek. revert a Ha Hab Ek.
  induction (lt_wf k) as [k _ IH]. intros a Ha Hab ->.
  pose proof (next_multi_least a b Hab (proj2 Hb)) as Hle. pose proof (next_multi_gt a).
  assert (next_multi a < log_hi g) as Hn by (destruct Hb; lia).
  pose proof (inv_chain _ _ Hinv a Ha) as Hc. destruct (Z.ltb_spec (next_multi a) (log_hi g)); [|lia].
  rewrite <- Hc. destruct (decide (next_multi a = b)) as [->|]; [done|].
  specialize (IH (Z.to_nat (b - next_multi a)) ltac:(lia) (next_multi a) (in_log_next a Ha Hn) ltac:(lia) eq_refl).
  pose proof (skip0_ge (log_stop g (next_multi a))). unfold log_stop in *.
  pose proof (zlen_nonneg (log_members g (next_multi a))). lia.
Qed.

Lemma in_log_u32_inj a b : in_log g a -> in_log g b -> u32 a = u32 b -> a = b.
Proof. intros [Ha _] [Hb _] E. pose proof log_window. apply u32_inj_near; [done|lia]. Qed.
End Log.

(** ** Reserving *)

Lemma offset_at_zeroed ctl P multi :
  offset_at (SimpleLruZeroPage ctl P) multi =
    if decide (MultiXactIdToOffsetPage multi = P) then Some 0 else offset_at ctl multi.
Proof.
  unfold offset_at, SimpleLruZeroPage. destruct (Z.eqb_spec (MultiXactIdToOffsetPage multi) P) as [E|E];
    [by rewrite decide_True|by rewrite decide_False].
Qed.

Section Reserve.
Context (m : MXShared) (g : MXLog) (Hinv : mx_inv m g).

Lemma extend_offset_spec :
  let a := skip0 (log_hi g) in
  let m' := ExtendMultiXactOffset m (u32 a) in
  MultiXactState m' = MultiXactState m /\ MultiXactMemberCtl m' = MultiXactMemberCtl m /\
  (forall b, in_log g b -> offset_at (MultiXactOffsetCtl m') (u32 b) = offset_at (MultiXactOffsetCtl m) (u32 b)) /\
  (forall b, a <= b -> b / 2048 = a / 2048 -> offset_at (MultiXactOffsetCtl m') (u32 b) = Some 0).
Proof.
  intros a m'. unfold m', ExtendMultiXactOffset, MultiXactIdToOffsetEntry, FirstMultiXactId.
  change MULTIXACT_OFFSETS_PER_PAGE with 2048.
  pose proof (log_window m g Hinv) as Hw. pose proof (skip0_cases (log_hi g)) as Hs. fold a in Hs.
  destruct (Z.eqb_spec (u32 a mod 2048) 0) as [E0|E0], (Z.eqb_spec (u32 a) 1) as [E1|E1]; cbn [negb andb].
  4:{ split_and!; [done..|]. intros b Hb Hpg. destruct Hs as [[Eu Es]|[Eu Es]].
      { rewrite Es, <- u32_succ, Eu in E1. done. }
      rewrite Es in *. apply (inv_fresh _ _ Hinv); [lia| |unfold u32 in E0; Z.div_mod_to_equations; lia|done].
      unfold u32 in E0. change (2 ^ 32) with 4294967296 in *. Z.div_mod_to_equations. lia. }
  all: cbn [with_offsets MultiXactState MultiXactMemberCtl MultiXactOffsetCtl]; split_and!; [done..| |];
    intros b; [intros [Hb Hub]|intros Hb Hpg]; rewrite offset_at_zeroed; unfold MultiXactIdToOffsetPage;
    change MULTIXACT_OFFSETS_PER_PAGE with 2048.
  all: try (rewrite decide_True; [done|]; unfold u32; change (2 ^ 32) with 4294967296; Z.div_mod_to_equations; lia).
  all: rewrite decide_False; [done|]; intros Hpg; unfold u32 in *; change (2 ^ 32) with 4294967296 in *;
    change (2 ^ 31) with 2147483648 in *; destruct Hs as [[Eu Es]|[Eu Es]]; rewrite Es in *; clear Es;
    Z.div_mod_to_equations; lia.
Qed.

Lemma page_apart q s :
  log_start g <= q < log_end g -> log_end g <= s < log_start g + 2 ^ 32 - member_segment -> page_start s ->
  MXOffsetToMemberPage (u32 s) <> MXOffsetToMemberPage (u32 q).
Proof using.
  unfold page_start, MXOffsetToMemberPage, u32. change member_segment with 52352.
  change MULTIXACT_MEMBERS_PER_PAGE with 1636. change (2 ^ 32) with 4294967296.
  intros Hq Hs Hps E. Z.div_mod_to_equations. lia.
Qed.

Lemma extend_member_spec n :
  0 <= n -> log_end g + n < log_start g + 2 ^ 32 - member_segment ->
  exists ctl, ExtendMultiXactMember m (u32 (log_end g)) n = Ret (with_members m ctl) /\
    (forall q, log_start g <= q < log_end g ->
       ctl (MXOffsetToMemberPage (u32 q)) = MultiXactMemberCtl m (MXOffsetToMemberPage (u32 q))) /\
    (forall q, log_start g <= q < log_end g + n -> page_there ctl (u32 q)) /\
    (page_start (log_end g + n) \/ page_there ctl (u32 (log_end g + n))) /\
    (u32 (log_end g) = 0 -> 0 < n -> slot_xid ctl 0 = Some 0).
Proof.
  intros Hn Hroom. unfold ExtendMultiXactMember.
  destruct (extend_member_loop_spec (Z.to_nat n) (MultiXactMemberCtl m) (log_end g) n ltac:(lia))
    as (ctl & -> & HA & HB & _ & HC). cbn [cbind]. exists ctl. split; [done|].
  assert (forall q, log_start g <= q < log_end g ->
    ctl (MXOffsetToMemberPage (u32 q)) = MultiXactMemberCtl m (MXOffsetToMemberPage (u32 q))) as Hold.
  { intros q Hq. apply HB. intros s Hs Hps. apply page_apart; (done || lia). }
  assert (forall q, log_end g <= q <= log_end g + n -> (q = log_end g + n -> ~ page_start q) ->
    page_there ctl (u32 q)) as Hnew.
  { intros q Hq Hlast. destruct (page_reached (log_end g) q ltac:(lia)) as [(s & Hs & Hps & Ep)|[Hps Ep]].
    - unfold page_there. rewrite <- Ep.
      assert (s < log_end g + n) as Hlt.
      { destruct (decide (s = log_end g + n)) as [->|]; [|lia]. assert (q = log_end g + n) as -> by lia. by destruct Hlast. }
      destruct (HA s ltac:(lia) Hps) as (pg & -> & _). by eexists.
    - unfold page_there. rewrite Ep. destruct (inv_tail _ _ Hinv) as [?|Ht]; [done|].
      by apply HC. }
  split_and!; [done| | |].
  - intros q Hq. destruct (Z.lt_ge_cases q (log_end g)).
    + unfold page_there. rewrite Hold by lia. apply (inv_pages _ _ Hinv). lia.
    + apply Hnew; [lia|]. intros ->. lia.
  - destruct (decide (page_start (log_end g + n))); [by left|right]. apply Hnew; [lia|done].
  - intros E0 Hn0. destruct (HA (log_end g) ltac:(lia)) as (pg & Epg & Hz); [unfold page_start; by rewrite E0|].
    rewrite E0 in Epg. unfold slot_xid. rewrite Epg. cbn. by rewrite Hz.
Qed.
End Reserve.

Lemma slots_hold_pages ctl ctl' p l :
  (forall q, p <= q < p + zlen l -> ctl' (MXOffsetToMemberPage (u32 q)) = ctl (MXOffsetToMemberPage (u32 q))) ->
  slots_hold ctl p l -> slots_hold ctl' p l.
Proof.
  intros Hpg Hh k mb Hk. specialize (Hh k mb Hk). unfold slot_holds, slot_xid, slot_status in *.
  apply lookup_lt_Some in Hk. rewrite Hpg by (unfold zlen; lia). done.
Qed.

Lemma in_log_append g l b :
  log_lo g <= skip0 (log_hi g) -> in_log (log_append g l) b <-> in_log g b \/ b = skip0 (log_hi g).
Proof.
  intros Hlo. unfold in_log. cbn [log_append log_lo log_hi].
  pose proof (u32_skip0 (log_hi g)) as Hu. destruct (skip0_cases (log_hi g)) as [[E Es]|[E Es]]; rewrite Es in *.
  - split; [|intros [?| ->]; (split; [lia|tauto])]. intros [Hb Hub].
    destruct (decide (b = log_hi g)) as [->|]; [done|]. destruct (decide (b = log_hi g + 1)); [by right|left].
    split; [lia|done].
  - split; [|intros [?| ->]; (split; [lia|tauto])]. intros [Hb Hub].
    destruct (decide (b = log_hi g)); [by right|left]. split; [lia|done].
Qed.

Section Append.
Context (m : MXShared) (g : MXLog) (l : list MultiXactMember) (Hinv : mx_inv m g) (Hl : members_ok l).

(** How many slots are taken: one more when slot zero is left out. *)
Definition append_slots : Z := skip0 (log_end g) + zlen l - log_end g.

Lemma append_end : log_end (log_append g l) = log_end g + append_slots /\ 0 <= append_slots.
Proof using.
  pose proof (skip0_ge (log_end g)). pose proof (zlen_nonneg l). unfold append_slots. cbn. lia.
Qed.

Lemma append_cases b : in_log (log_append g l) b ->
  (in_log g b /\ (b =? skip0 (log_hi g)) = false) \/ b = skip0 (log_hi g).
Proof using Hinv.
  intros [Hb|Hb]%in_log_append; [left|by right|by apply (inv_order _ _ Hinv)].
  split; [done|]. apply Z.eqb_neq. pose proof (skip0_ge (log_hi g)). destruct Hb. lia.
Qed.

Lemma append_entry b : in_log (log_append g l) b ->
  log_start g <= log_pos (log_append g l) b /\ u32 (log_pos (log_append g l) b) <> 0 /\
  log_stop (log_append g l) b <= log_end (log_append g l) /\ members_ok (log_members (log_append g l) b).
Proof using Type*.
  destruct append_end as [-> Hn]. pose proof (skip0_ge (log_end g)). destruct (inv_order _ _ Hinv) as [_ Hse].
  intros [[Hb E]| ->]%append_cases; unfold log_stop; cbn [log_append log_pos log_members].
  - rewrite E. destruct (inv_entry _ _ Hinv b Hb) as (? & ? & ? & ?). unfold log_stop in *. split_and!; (done || lia).
  - rewrite Z.eqb_refl. unfold append_slots. split_and!; [lia|apply u32_skip0|lia|done].
Qed.

Lemma append_chain b : in_log (log_append g l) b ->
  if next_multi b <? log_hi (log_append g l)
  then log_pos (log_append g l) (next_multi b) = skip0 (log_stop (log_append g l) b)
  else log_end (log_append g l) = log_stop (log_append g l) b.
Proof using Type*.
  destruct append_end as [-> _]. intros [[Hb E]| ->]%append_cases; unfold log_stop;
    cbn [log_append log_pos log_members log_hi]; set (a := skip0 (log_hi g)) in *.
  - rewrite E. fold (log_stop g b). pose proof (inv_chain _ _ Hinv b Hb) as Hc.
    pose proof (skip0_ge (log_hi g)) as Ha. fold a in Ha.
    destruct (Z.ltb_spec (next_multi b) (log_hi g)).
    + destruct (Z.ltb_spec (next_multi b) (a + 1)); [|lia]. destruct (Z.eqb_spec (next_multi b) a); [lia|done].
    + destruct (log_last g b Hb ltac:(lia)) as [-> _]. fold a.
      destruct (Z.ltb_spec a (a + 1)); [|lia]. rewrite Z.eqb_refl. by rewrite Hc.
  - pose proof (next_multi_gt a). destruct (Z.ltb_spec (next_multi a) (a + 1)); [lia|].
    rewrite Z.eqb_refl. unfold append_slots. lia.
Qed.

(** The member area after the extension keeps what was there, has the new pages,
    and zero in a slot that is left out. *)
Record members_extended (mems : Slru) : Prop := {
  mext_old : forall q, log_start g <= q < log_end g ->
    mems (MXOffsetToMemberPage (u32 q)) = MultiXactMemberCtl m (MXOffsetToMemberPage (u32 q));
  mext_pages : forall q, log_start g <= q < log_end g + append_slots -> page_there mems (u32 q);
  mext_tail : page_start (log_end g + append_slots) \/ page_there mems (u32 (log_end g + append_slots));
  mext_zero : u32 (log_end g) = 0 -> slot_xid mems 0 = Some 0
}.

Lemma append_gap mems b : members_extended mems ->
  in_log (log_append g l) b -> in_log (log_append g l) (next_multi b) -> u32 (log_stop (log_append g l) b) = 0 ->
  slot_xid mems 0 = Some 0.
Proof using Type*.
  intros Hm [[Hb E]| ->]%append_cases Hb'.
  2:{ destruct Hb' as [Hb' _]. cbn in Hb'. pose proof (next_multi_gt (skip0 (log_hi g))). lia. }
  unfold log_stop. cbn [log_append log_pos log_members]. rewrite E. fold (log_stop g b). intros E0.
  pose proof (inv_chain _ _ Hinv b Hb) as Hc. destruct (Z.ltb_spec (next_multi b) (log_hi g)) as [Hlt|Hge].
  - pose proof (in_log_next g b Hb Hlt) as Hnb. pose proof (inv_gap _ _ Hinv b Hb Hnb E0) as Hg.
    destruct (inv_entry _ _ Hinv b Hb) as (? & ? & ? & ?). destruct (inv_entry _ _ Hinv _ Hnb) as (? & ? & Hstop & ?).
    destruct (skip0_cases (log_stop g b)) as [[_ Es]|[? _]]; [|done].
    pose proof (zlen_nonneg (log_members g b)). pose proof (zlen_nonneg (log_members g (next_multi b))).
    unfold slot_xid in *. rewrite <- E0, (mext_old _ Hm) by (unfold log_stop in *; lia). by rewrite E0.
  - apply (mext_zero _ Hm). by rewrite Hc.
Qed.

(** The state after a reservation represents the log with one more entry. *)
Lemma append_inv offs mems s :
  nextMXact s = u32 (skip0 (log_hi g) + 1) -> nextOffset s = u32 (log_end g + append_slots) ->
  oldestMultiXactId s = oldestMultiXactId (MultiXactState m) ->
  limits_ok s (log_append g l) ->
  (forall b, in_log g b -> offset_at offs (u32 b) = offset_at (MultiXactOffsetCtl m) (u32 b)) ->
  (forall b, skip0 (log_hi g) <= b -> b / 2048 = skip0 (log_hi g) / 2048 -> offset_at offs (u32 b) = Some 0) ->
  members_extended mems ->
  mx_inv (with_state (with_members (with_offsets m offs) mems) s) (log_append g l).
Proof using Type*.
  intros Hnm Hno Hold Hlim HO1 HO2 Hm. destruct append_end as [Een Hn]. destruct (inv_order _ _ Hinv) as [Hlo Hse].
  constructor; cbn [with_state with_members with_offsets MultiXactState MultiXactOffsetCtl MultiXactMemberCtl].
  - done.
  - by rewrite Een.
  - rewrite Hold. apply (inv_oldest _ _ Hinv).
  - rewrite Een. cbn [log_append log_lo log_hi log_start]. pose proof (skip0_ge (skip0 (log_hi g) + 1)). lia.
  - done.
  - apply append_entry.
  - apply append_chain.
  - intros b [[Hb E]| ->]%append_cases; cbn [log_append log_written log_pos].
    + rewrite E, HO1 by done. by apply (inv_offsets _ _ Hinv).
    + rewrite Z.eqb_refl. by apply HO2.
  - cbn [log_append log_hi]. intros b Hb Hpg _ _. apply HO2; [lia|].
    by rewrite Z.add_simpl_r in Hpg.
  - intros b [[Hb E]| ->]%append_cases; cbn [log_append log_written log_pos log_members].
    + rewrite E. intros Hw. apply (slots_hold_pages (MultiXactMemberCtl m)); [|by apply (inv_members _ _ Hinv)].
      intros q Hq. destruct (inv_entry _ _ Hinv b Hb) as (? & ? & ? & ?). unfold log_stop in *. apply (mext_old _ Hm). lia.
    + by rewrite Z.eqb_refl.
  - intros b. by apply append_gap.
  - intros q Hq. apply (mext_pages _ Hm). by rewrite Een in Hq.
  - rewrite Een. apply (mext_tail _ Hm).
Qed.
End Append.

(** The environment of normal operation: not in recovery, under the postmaster. *)
Class NormalEnv `{MXEnv} : Prop := {
  env_not_recovery : mx_RecoveryInProgress = false;
  env_postmaster : mx_IsUnderPostmaster = true
}.

Lemma set_next_same s : set_next s (nextMXact s) (nextOffset s) = s.
Proof. by destruct s. Qed.

Lemma with_state_same m : with_state m (MultiXactState m) = m.
Proof. by destruct m. Qed.

(** The state while a number is assigned: the counter has skipped zero. *)
Definition counter_skipped (m : MXShared) (g : MXLog) : MXShared :=
  with_state m (set_next (MultiXactState m) (u32 (skip0 (log_hi g))) (nextOffset (MultiXactState m))).

Lemma counter_skipped_same m g : mx_inv m g -> u32 (log_hi g) <> 0 -> counter_skipped m g = m.
Proof.
  intros Hinv Hu. unfold counter_skipped. destruct (skip0_cases (log_hi g)) as [[? _]|[_ ->]]; [done|].
  by rewrite <- (inv_next _ _ Hinv), set_next_same, with_state_same.
Qed.

Lemma counter_skipped_state m g : mx_inv m g ->
  (if nextMXact (MultiXactState m) <? FirstMultiXactId
   then set_next (MultiXactState m) FirstMultiXactId (nextOffset (MultiXactState m)) else MultiXactState m) =
  MultiXactState (counter_skipped m g).
Proof.
  intros Hinv. cbn. rewrite skip0_wrapped, <- (inv_next _ _ Hinv). unfold FirstMultiXactId.
  destruct (_ <? 1); [done|]. by rewrite set_next_same.
Qed.

(** Zeroing the page of the next number's offset changes no entry in use. *)
Lemma extended_inv m g :
  mx_inv m g -> u32 (log_hi g) <> 0 -> mx_inv (ExtendMultiXactOffset m (u32 (skip0 (log_hi g)))) g.
Proof.
  intros Hinv Hu. destruct (extend_offset_spec m g Hinv) as (Es & Em & HO1 & HO2). cbn zeta in *.
  destruct (skip0_cases (log_hi g)) as [[? _]|[_ E]]; [done|]. rewrite E in *.
  set (m' := ExtendMultiXactOffset m (u32 (log_hi g))) in *.
  constructor; rewrite ?Es, ?Em; try apply Hinv.
  - intros a Ha. rewrite HO1 by done. by apply (inv_offsets _ _ Hinv).
  - intros a Ha Hpg Hmod Hu1. apply HO2; [lia|]. rewrite Hpg. Z.div_mod_to_equations. lia.
Qed.

Lemma reserve_members_spec m g l :
  mx_inv m g -> members_ok l ->
  (forall vac stop, multiVacLimit (MultiXactState m) = u32 vac -> multiStopLimit (MultiXactState m) = u32 stop ->
     log_lo g < vac <= stop -> stop <= id_limit (log_lo g) -> skip0 (log_hi g) < stop) ->
  match reserve_members (counter_skipped m g) (u32 (skip0 (log_hi g))) (zlen l) with
  | (Ret (multi, offset), m') => multi = u32 (skip0 (log_hi g)) /\ offset = u32 (skip0 (log_end g)) /\
                                 mx_inv m' (log_append g l)
  | (Elog _, m') => u32 (log_hi g) <> 0 -> mx_inv m' g
  | (Undef, _) => False
  end.
Proof.
  intros Hinv Hl Hstop. pose proof (zlen_nonneg l) as Hz. pose proof (members_few _ Hl) as Hfew.
  destruct (extend_offset_spec m g Hinv) as (_ & _ & HO1 & HO2). cbn zeta in HO1, HO2.
  pose proof (extended_inv m g Hinv) as Hext. pose proof (counter_skipped_same m g Hinv) as Hsame.
  set (a := skip0 (log_hi g)) in *. set (c := skip0 (log_end g)).
  assert (exists offs, MultiXactOffsetCtl (ExtendMultiXactOffset m (u32 a)) = offs /\
    ExtendMultiXactOffset (counter_skipped m g) (u32 a) = with_offsets (counter_skipped m g) offs) as (offs & Eo & Ee).
  { unfold ExtendMultiXactOffset. destruct (_ && _); eexists; (split; [done|]); by destruct m. }
  rewrite Eo in HO1, HO2. unfold reserve_members. rewrite Ee.
  cbn [with_offsets counter_skipped with_state MultiXactState set_next nextOffset nextMXact offsetStopLimit oldestOffsetKnown].
  rewrite (inv_next_offset _ _ Hinv).
  assert ((if u32 (log_end g) =? 0 then (1, zlen l + 1) else (u32 (log_end g), zlen l)) =
          (u32 c, c + zlen l - log_end g)) as ->.
  { unfold c. destruct (skip0_cases (log_end g)) as [[E ->]|[E ->]]; destruct (Z.eqb_spec (u32 (log_end g)) 0); try done.
    - f_equal; [by rewrite <- u32_succ, E|lia].
    - f_equal. lia. }
  destruct (inv_limits _ _ Hinv) as [(vac & stop & Ev & Es & Hvs & Hw & Hh & Hnz) Hstarted Hknown (limit & Elim & Hlim)].
  rewrite Hknown, Elim. cbn [andb]. pose proof (skip0_ge (log_end g)) as Hc. fold c in Hc.
  set (n := c + zlen l - log_end g). assert (member_segment = 52352) as Hseg by done.
  pose proof (member_limit_bound (log_start g)) as Hmb.
  destruct (inv_order _ _ Hinv) as [Hlo Hse].
  destruct (MultiXactOffsetWouldWrap (u32 limit) (u32 (log_end g)) n) eqn:Ew.
  { intros Hu. rewrite (Hsame Hu) in Ee. rewrite Hsame by done. rewrite <- Ee. by apply Hext. }
  apply would_wrap_spec in Ew; [|lia|unfold n; lia].
  destruct (extend_member_spec m g Hinv n ltac:(unfold n; lia) ltac:(lia)) as (mems & Ex & HM1 & HM2 & HM3 & HM4).
  unfold ExtendMultiXactMember in *. cbn [with_offsets MultiXactMemberCtl counter_skipped with_state].
  destruct (extend_member_loop _ (MultiXactMemberCtl m) _ _) as [mems'| |]; cbn [cbind] in *; [|done..].
  injection Ex as ->. cbn zeta. split_and!; [done|done|].
  specialize (Hstop vac stop Ev Es Hvs Hw).
  assert (n = append_slots g l) as En by done.
  apply (append_inv m g l Hinv Hl offs mems
    (set_next (set_next (MultiXactState m) (u32 a) (u32 (log_end g))) (u32 (u32 a + 1)) (u32 (u32 (log_end g) + n))));
    try done.
  - cbn. by rewrite u32_succ.
  - cbn. unfold n, u32. by rewrite Z.add_mod_idemp_l.
  - constructor; cbn; [|done|done|].
    + exists vac, stop. fold a. split_and!; (done || lia).
    + exists limit. fold c. unfold n in Ew. split_and!; (done || lia).
  - constructor; rewrite <- ?En; try done. intros E0. apply HM4; [done|]. unfold n, c. destruct (skip0_cases (log_end g)) as [[_ ->]|[? _]]; [lia|done].
Qed.

Lemma skip0_nz p : u32 p <> 0 -> skip0 p = p.
Proof. destruct (skip0_cases p) as [[? _]|[_ ->]]; done. Qed.

Lemma in_log_skip g a : in_log (log_skip g) a -> in_log g a.
Proof.
  unfold in_log. cbn [log_skip log_lo log_hi]. destruct (skip0_cases (log_hi g)) as [[E ->]|[E ->]]; [|done].
  intros [Ha Hu]. split; [|done]. destruct (decide (a = log_hi g)) as [->|]; [done|lia].
Qed.

Lemma log_skip_same g : u32 (log_hi g) <> 0 -> log_skip g = g.
Proof. intros E. unfold log_skip. rewrite (skip0_nz _ E). by destruct g. Qed.

(** Moving the counter off zero keeps the log. *)
Lemma skip_inv m g : mx_inv m g -> mx_inv (counter_skipped m g) (log_skip g).
Proof.
  intros Hinv. destruct (decide (u32 (log_hi g) = 0)) as [E0|E0];
    [|by rewrite (log_skip_same g E0), (counter_skipped_same m g Hinv E0)].
  pose proof (skip0_ge (log_hi g)) as Hge. destruct (skip0_cases (log_hi g)) as [[_ Es]|[? _]]; [|done].
  assert (forall b, in_log g b -> next_multi b <> log_hi g) as Hne.
  { intros b _ Hb. pose proof (u32_skip0 (b + 1)) as Hu. unfold next_multi in Hb. by rewrite Hb in Hu. }
  constructor; cbn [counter_skipped with_state MultiXactState MultiXactOffsetCtl MultiXactMemberCtl set_next
    nextMXact nextOffset oldestMultiXactId log_skip log_hi log_lo log_end log_start log_pos log_members log_written];
    try apply Hinv; try done.
  - destruct (inv_order _ _ Hinv). rewrite (skip0_nz (skip0 _)) by apply u32_skip0. lia.
  - destruct (inv_limits _ _ Hinv) as [(vac & stop & Ev & Es' & Hvs & Hw & Hh & Hnz) H1 H2 H3]. constructor; try done.
    exists vac, stop. assert (log_hi g <> stop) by (intros E; by rewrite E in E0).
    cbn [log_skip log_lo log_hi]. rewrite Es. split_and!; done || lia.
  - intros a Ha%in_log_skip. exact (inv_entry _ _ Hinv a Ha).
  - intros a Ha%in_log_skip. pose proof (inv_chain _ _ Hinv a Ha) as Hc. pose proof (Hne a Ha). unfold log_stop in *. cbn.
    destruct (Z.ltb_spec (next_multi a) (log_hi g)), (Z.ltb_spec (next_multi a) (skip0 (log_hi g))); done || lia.
  - intros a Ha%in_log_skip. exact (inv_offsets _ _ Hinv a Ha).
  - rewrite Es, <- u32_succ, E0. done.
  - intros a Ha%in_log_skip. exact (inv_members _ _ Hinv a Ha).
  - intros a Ha%in_log_skip Ha'%in_log_skip. exact (inv_gap _ _ Hinv a Ha Ha').
Qed.

(** [reserve_members] where the counter does not stand at zero, before the stop
    limit. *)
Lemma reserve_spec m g l :
  mx_inv m g -> members_ok l -> u32 (log_hi g) <> 0 ->
  MultiXactIdPrecedes (u32 (log_hi g)) (multiStopLimit (MultiXactState m)) = true ->
  match reserve_members m (u32 (log_hi g)) (zlen l) with
  | (Ret (multi, offset), m') => multi = u32 (log_hi g) /\ offset = u32 (skip0 (log_end g)) /\ mx_inv m' (log_append g l)
  | (Elog _, m') => mx_inv m' g
  | (Undef, _) => False
  end.
Proof.
  intros Hinv Hl Hu Hstop. pose proof (reserve_members_spec m g l Hinv Hl) as Hr.
  rewrite (counter_skipped_same m g Hinv Hu), (skip0_nz _ Hu) in Hr.
  assert (forall vac stop, multiVacLimit (MultiXactState m) = u32 vac -> multiStopLimit (MultiXactState m) = u32 stop ->
     log_lo g < vac <= stop -> stop <= id_limit (log_lo g) -> log_hi g < stop) as Hst.
  { intros vac stop _ Es Hvs Hw. rewrite Es in Hstop. pose proof (log_window m g Hinv). pose proof (id_limit_bound (log_lo g)).
    destruct (inv_order _ _ Hinv) as [Hlo _]. rewrite (skip0_nz _ Hu) in Hlo. rewrite multi_precedes_near in Hstop by lia. lia. }
  specialize (Hr Hst). destruct (reserve_members m _ _) as [[[multi offset]| |] m']; [done|by apply Hr|done].
Qed.

Lemma new_entry_spec `{NormalEnv} m g l :
  mx_inv m g -> members_ok l ->
  match new_multi_entry m (zlen l) with
  | (Some (Ret (multi, offset)), m') =>
      multi = u32 (skip0 (log_hi g)) /\ offset = u32 (skip0 (log_end g)) /\ mx_inv m' (log_append (log_skip g) l)
  | (Some (Elog _), m') | (None, m') => mx_inv m' (log_skip g)
  | (Some Undef, _) => False
  end.
Proof.
  intros Hinv Hl. unfold new_multi_entry. rewrite env_not_recovery, env_postmaster.
  rewrite (counter_skipped_state m g Hinv). change (with_state m _) with (counter_skipped m g). cbn zeta.
  pose proof (skip_inv m g Hinv) as Hinv'. assert (u32 (log_hi (log_skip g)) <> 0) as Hu by apply u32_skip0.
  change (nextMXact (MultiXactState (counter_skipped m g))) with (u32 (log_hi (log_skip g))).
  destruct (MultiXactIdPrecedes _ (multiVacLimit _)) eqn:Ev; cbn [negb].
  2:{ destruct (MultiXactIdPrecedes _ (multiStopLimit _)); cbn [negb andb]; done. }
  pose proof (reserve_spec _ _ l Hinv' Hl Hu) as Hr.
  assert (MultiXactIdPrecedes (u32 (log_hi (log_skip g))) (multiStopLimit (MultiXactState (counter_skipped m g))) = true) as Hst.
  { destruct (inv_limits _ _ Hinv') as [(vac & stop & Ev' & Es & Hvs & Hw & Hh & _) _ _ _]. pose proof (id_limit_bound (log_lo g)).
    pose proof (log_window _ _ Hinv'). destruct (inv_order _ _ Hinv') as [Hlo _]. rewrite (skip0_nz _ Hu) in Hlo.
    change (log_lo (log_skip g)) with (log_lo g) in *. rewrite Ev' in Ev. rewrite Es. rewrite multi_precedes_near in Ev by lia.
    rewrite multi_precedes_near by lia. lia. }
  specialize (Hr Hst). destruct (reserve_members _ _ _) as [[[multi offset]| |] m']; done.
Qed.

(** What starting over would establish, and the code takes for granted: the
    counter does not stand at zero, nor at the stop limit. *)
Definition relock_fine (m : MXShared) : Prop :=
  nextMXact (MultiXactState m) <> 0 /\
  MultiXactIdPrecedes (nextMXact (MultiXactState m)) (multiStopLimit (MultiXactState m)) = true.

Lemma new_again_spec m g l :
  mx_inv m g -> members_ok l -> relock_fine m ->
  match new_multi_again m (zlen l) with
  | (Ret (multi, offset), m') => multi = u32 (log_hi g) /\ offset = u32 (skip0 (log_end g)) /\ mx_inv m' (log_append g l)
  | (Elog _, m') => mx_inv m' g
  | (Undef, _) => False
  end.
Proof.
  intros Hinv Hl [Hnz Hst]. unfold new_multi_again. rewrite (inv_next _ _ Hinv) in *.
  assert ((if u32 (log_hi g) <? FirstMultiXactId then FirstMultiXactId else u32 (log_hi g)) = u32 (log_hi g)) as ->.
  { pose proof (is_u_u32 (log_hi g)) as Hr. unfold is_u, FirstMultiXactId in *. destruct (Z.ltb_spec (u32 (log_hi g)) 1); lia. }
  by apply reserve_spec.
Qed.

(** ** Writing *)

Lemma offset_put ctl multi v old :
  offset_at ctl multi = Some old ->
  exists ctl', slru_put ctl (MultiXactIdToOffsetPage multi) (MultiXactIdToOffsetEntry multi) v = Ret ctl' /\
    offset_at ctl' multi = Some v /\
    forall multi', multi' <> multi -> offset_at ctl' multi' = offset_at ctl multi'.
Proof.
  unfold offset_at, slru_put. destruct (ctl (MultiXactIdToOffsetPage multi)) as [pg|] eqn:E; [|done]. intros _.
  eexists. split; [done|]. split; [by cbn; rewrite !Z.eqb_refl; cbn; rewrite Z.eqb_refl|]. intros multi' Hne. cbv beta.
  destruct (Z.eqb_spec (MultiXactIdToOffsetPage multi') (MultiXactIdToOffsetPage multi)) as [Ep|]; [|done].
  rewrite Ep, E. cbn. destruct (Z.eqb_spec (MultiXactIdToOffsetEntry multi') (MultiXactIdToOffsetEntry multi)) as [Ee|];
    [|done]. destruct Hne. unfold MultiXactIdToOffsetPage, MultiXactIdToOffsetEntry in *.
  rewrite (Z.div_mod multi' MULTIXACT_OFFSETS_PER_PAGE), (Z.div_mod multi MULTIXACT_OFFSETS_PER_PAGE) by done. congruence.
Qed.

(** Positions of different entries, and the skipped ones, are in different slots. *)
Lemma slots_apart m g a b q q' :
  mx_inv m g -> in_log g a -> in_log g b -> a <> b ->
  log_pos g a <= q < log_stop g a -> log_pos g b <= q' < log_stop g b -> u32 q <> u32 q'.
Proof.
  intros Hinv Ha Hb Hne Hq Hq' E. pose proof (log_room m g Hinv) as Hroom.
  destruct (inv_entry _ _ Hinv a Ha) as (? & _ & ? & _). destruct (inv_entry _ _ Hinv b Hb) as (? & _ & ? & _).
  assert (member_segment = 52352) by done. apply u32_inj_near in E; [|lia]. subst q'.
  destruct (Z.lt_total a b) as [Hlt|[?|Hlt]]; [|done|].
  - pose proof (log_ordered m g Hinv a b Ha Hb Hlt). pose proof (skip0_ge (log_stop g a)). lia.
  - pose proof (log_ordered m g Hinv b a Hb Ha Hlt). pose proof (skip0_ge (log_stop g b)). lia.
Qed.

Lemma gap_apart m g a b q :
  mx_inv m g -> in_log g a -> in_log g b -> in_log g (next_multi b) -> u32 (log_stop g b) = 0 ->
  log_pos g a <= q < log_stop g a -> u32 q <> 0.
Proof.
  intros Hinv Ha Hb Hb' E0 Hq E. pose proof (log_room m g Hinv) as Hroom.
  destruct (inv_entry _ _ Hinv a Ha) as (? & _ & ? & _). destruct (inv_entry _ _ Hinv b Hb) as (? & _ & ? & _).
  assert (member_segment = 52352) by done. rewrite <- E0 in E.
  pose proof (zlen_nonneg (log_members g b)). unfold log_stop in *.
  apply u32_inj_near in E; [|lia]. subst q. pose proof (next_multi_gt b).
  destruct (Z.lt_ge_cases b a) as [Hlt|Hge].
  - pose proof (log_ordered m g Hinv b a Hb Ha Hlt) as Ho. unfold log_stop in Ho.
    destruct (skip0_cases (log_pos g b + zlen (log_members g b))) as [[_ Es]|[? _]]; [lia|done].
  - destruct (decide (a = b)) as [->|]; [lia|].
    pose proof (log_ordered m g Hinv a b Ha Hb ltac:(lia)) as Ho. unfold log_stop in Ho.
    pose proof (skip0_ge (log_pos g a + zlen (log_members g a))). lia.
Qed.

Lemma record_inv m g a :
  mx_inv m g -> in_log g a -> log_written g a = false ->
  exists m', RecordNewMultiXact m (u32 a) (u32 (log_pos g a)) (log_members g a) = Ret m' /\
    mx_inv m' (log_write g a) /\
    OldestVisibleMXactId m' = OldestVisibleMXactId m /\ OldestMemberMXactId m' = OldestMemberMXactId m.
Proof.
  intros Hinv Ha Hw. unfold RecordNewMultiXact.
  destruct (offset_put _ (u32 a) (u32 (log_pos g a)) _ (inv_offsets _ _ Hinv a Ha)) as (offs & -> & Eo & Hoo).
  cbn [cbind]. destruct (inv_entry _ _ Hinv a Ha) as (Hst & Hu & Hend & Hok). destruct Hok as [Hok Hsingle Hfew].
  destruct (record_members_spec (log_members g a) (MultiXactMemberCtl m) (log_pos g a) Hok) as (mems & -> & Hh & Hf & Hp);
    [lia|intros q Hq; apply (inv_pages _ _ Hinv); unfold log_stop in *; lia|].
  cbn [cbind]. eexists. split; [done|]. split; [|done].
  assert (forall b, in_log g b -> b <> a -> u32 b <> u32 a) as Hne.
  { intros b Hb Hba E. by apply (in_log_u32_inj m g Hinv b a) in E. }
  constructor; cbn [with_members with_offsets MultiXactState MultiXactOffsetCtl MultiXactMemberCtl]; try apply Hinv.
  - destruct (inv_limits _ _ Hinv). by constructor.
  - intros b Hb. cbn [log_write log_written log_pos]. change (in_log g b) in Hb. destruct (Z.eqb_spec b a) as [->|Hba]; [done|].
    rewrite Hoo by (by apply Hne). by apply (inv_offsets _ _ Hinv).
  - cbn [log_write log_hi]. intros b Hb Hpg Hmod Hu1. rewrite Hoo; [by apply (inv_fresh _ _ Hinv)|].
    intros E. pose proof (log_window m g Hinv). destruct Ha as [Ha _].
    assert (b < log_hi g + 2048) by (Z.div_mod_to_equations; lia). apply u32_inj_near in E; lia.
  - intros b Hb. cbn [log_write log_written log_pos log_members]. change (in_log g b) in Hb.
    destruct (Z.eqb_spec b a) as [->|Hba]; [done|]. intros Hwb k mb Hk.
    pose proof (inv_members _ _ Hinv b Hb Hwb k mb Hk) as Hs. apply lookup_lt_Some in Hk. unfold slot_holds in *.
    destruct (Hf (u32 (log_pos g b + Z.of_nat k))) as [-> ->]; [|done].
    intros q Hq. apply (slots_apart m g a b); [done..|auto|exact Hq|]. unfold log_stop, zlen. lia.
  - cbn [log_write log_pos log_members]. intros b Hb Hb' E0. change (in_log g b) in Hb. change (in_log g (next_multi b)) in Hb'.
    destruct (Hf 0) as [-> _]; [|by apply (inv_gap _ _ Hinv b)].
    intros q Hq. by apply (gap_apart m g a b).
  - intros q Hq. by apply Hp, (inv_pages _ _ Hinv).
  - destruct (inv_tail _ _ Hinv); [by left|right]. by apply Hp.
Qed.

(** ** Moving the limits *)

Definition log_trim (g : MXLog) (lo : Z) : MXLog :=
  {| log_lo := lo; log_hi := log_hi g;
     log_start := if lo <? log_hi g then log_pos g lo else log_end g;
     log_end := log_end g; log_pos := log_pos g; log_members := log_members g; log_written := log_written g |}.

(** The oldest number needed is one that is written, or the next to be used. *)
Definition may_trim (g : MXLog) (lo : Z) : Prop :=
  (in_log g lo /\ log_written g lo = true) \/ (lo = log_hi g /\ log_lo g <= lo /\ u32 lo <> 0).

Lemma id_limit_mono lo lo' : lo <= lo' -> id_limit lo <= id_limit lo'.
Proof.
  intros Hle. pose proof (id_limit_bound lo) as Hb. pose proof (id_limit_bound lo') as Hb'.
  destruct (Z.le_gt_cases (lo + 2) lo'); [lia|]. assert (lo' = lo \/ lo' = lo + 1) as [->| ->] by lia; [done|].
  unfold id_limit, skip0, u32. change (2 ^ 32) with 4294967296. change (2 ^ 31) with 2147483648.
  repeat match goal with |- context [?a =? ?b] => destruct (Z.eqb_spec a b) end; Z.div_mod_to_equations; lia.
Qed.

Lemma member_limit_mono p q : p <= q -> member_limit p <= member_limit q.
Proof.
  unfold member_limit, u32. change member_segment with 52352. change (2 ^ 32) with 4294967296. intros.
  Z.div_mod_to_equations. lia.
Qed.

Lemma stop_limit_spec p : offset_stop_limit (u32 p) = u32 (member_limit p).
Proof.
  unfold offset_stop_limit, member_limit. fold member_segment. unfold u32.
  change member_segment with 52352. change (2 ^ 32) with 4294967296. Z.div_mod_to_equations. lia.
Qed.

Lemma trim_start m g lo : mx_inv m g -> may_trim g lo ->
  log_lo g <= lo <= log_hi g /\ u32 lo <> 0 /\ log_start g <= log_start (log_trim g lo) <= log_end g /\
  forall a, in_log (log_trim g lo) a -> in_log g a /\ log_start (log_trim g lo) <= log_pos g a.
Proof.
  intros Hinv [[Hlo Hw]|(-> & Hlo & Hu)]; destruct (inv_order _ _ Hinv); cbn [log_trim log_start].
  - destruct (inv_entry _ _ Hinv lo Hlo) as (? & ? & ? & _). unfold log_stop in *. pose proof (zlen_nonneg (log_members g lo)).
    destruct Hlo as [Hlo Hu]. destruct (Z.ltb_spec lo (log_hi g)); [|lia]. split_and!; [lia..|done|lia|lia|].
    intros a [Ha Hua]. cbn in Ha. assert (in_log g a) as Hin by (split; [lia|done]). split; [done|].
    destruct (decide (a = lo)) as [->|]; [done|].
    pose proof (log_ordered m g Hinv lo a ltac:(split; [lia|done]) Hin ltac:(lia)).
    pose proof (skip0_ge (log_stop g lo)). unfold log_stop in *. lia.
  - destruct (Z.ltb_spec (log_hi g) (log_hi g)); [lia|]. split_and!; [lia..|done|lia|lia|].
    intros a [Ha _]. cbn in Ha. lia.
Qed.

(** Everything but the limits, for a state with the same areas and counters. *)
Lemma trim_inv m g lo s :
  mx_inv m g -> may_trim g lo ->
  nextMXact s = u32 (log_hi g) -> nextOffset s = u32 (log_end g) -> oldestMultiXactId s = u32 lo ->
  limits_ok s (log_trim g lo) -> mx_inv (with_state m s) (log_trim g lo).
Proof.
  intros Hinv Ht E1 E2 E3 Hlim. destruct (trim_start m g lo Hinv Ht) as (Hlo & Hu & Hst & Hin).
  pose proof (skip0_ge (log_hi g)).
  constructor; cbn [with_state MultiXactState MultiXactOffsetCtl MultiXactMemberCtl]; try done; try apply Hinv.
  - cbn [log_trim log_lo log_hi log_end]. lia.
  - intros a Ha. destruct (Hin a Ha) as [Ha' Hp]. destruct (inv_entry _ _ Hinv a Ha') as (_ & ? & ? & ?). done.
  - intros a Ha. apply (inv_chain _ _ Hinv), Hin, Ha.
  - intros a Ha. apply (inv_offsets _ _ Hinv), Hin, Ha.
  - intros a Ha. apply (inv_members _ _ Hinv), Hin, Ha.
  - intros a Ha Ha'. apply (inv_gap _ _ Hinv); [apply Hin, Ha|apply Hin, Ha'].
  - intros q Hq. apply (inv_pages _ _ Hinv). change (log_end (log_trim g lo)) with (log_end g) in Hq. lia.
Qed.

(** [autovacuum_multixact_freeze_max_age] is limited to these values (guc.c). *)
Class FreezeAge `{MXEnv} : Prop := freeze_age : 10000 <= autovacuum_multixact_freeze_max_age <= 2000000000.

Lemma limit_up_spec p : limit_up (u32 p) = u32 (skip0 p).
Proof.
  unfold limit_up, FirstMultiXactId. rewrite skip0_wrapped. pose proof (is_u_u32 p) as Hu. unfold is_u in Hu.
  destruct (Z.ltb_spec (u32 p) 1) as [E|]; [|done]. by replace (u32 p) with 0 by lia.
Qed.

Lemma limit_down_spec p : limit_down (u32 p) = u32 (if u32 p =? 0 then p - 1 else p).
Proof.
  unfold limit_down, FirstMultiXactId. pose proof (is_u_u32 p) as Hu. unfold is_u in Hu.
  destruct (Z.ltb_spec (u32 p) 1), (Z.eqb_spec (u32 p) 0); try lia.
  unfold u32. by rewrite Zminus_mod_idemp_l.
Qed.

Lemma set_limit_inv `{FreezeAge} m g lo :
  mx_inv m g -> may_trim g lo ->
  exists m', SetMultiXactIdLimit m (u32 lo) = Ret m' /\ mx_inv m' (log_trim g lo).
Proof.
  intros Hinv Ht. destruct (trim_start m g lo Hinv Ht) as (Hlo & Hu & Hst & _).
  destruct (inv_limits _ _ Hinv) as [(vac & stop & Ev & Es & Hvs & Hw & Hh & Hnz) Hstarted Hknown (limit & Elim & Hlim)].
  unfold SetMultiXactIdLimit, MultiXactIdIsValid, InvalidMultiXactId. destruct (Z.eqb_spec (u32 lo) 0); [done|].
  cbn [negb c_assert cbind]. rewrite Hstarted. cbn [negb].
  replace (u32 (u32 lo + Z.shiftr MaxMultiXactId 1)) with (u32 (lo + (2 ^ 31 - 1)))
    by (unfold u32; by rewrite Z.add_mod_idemp_l).
  replace (u32 (u32 lo + autovacuum_multixact_freeze_max_age)) with (u32 (lo + autovacuum_multixact_freeze_max_age))
    by (unfold u32; by rewrite Z.add_mod_idemp_l).
  rewrite !limit_up_spec.
  replace (u32 (u32 (skip0 (lo + (2 ^ 31 - 1))) - 100)) with (u32 (skip0 (lo + (2 ^ 31 - 1)) - 100))
    by (unfold u32; by rewrite Zminus_mod_idemp_l).
  rewrite limit_down_spec. fold (id_limit lo).
  unfold SetOffsetVacuumLimit, find_multixact_start. cbn. rewrite ?Hstarted, (inv_next _ _ Hinv), (inv_next_offset _ _ Hinv).
  cbn [c_assert cbind].
  assert (exists r, (if u32 lo =? u32 (log_hi g) then Ret (Some (u32 (log_end g)))
     else match MultiXactOffsetCtl m (MultiXactIdToOffsetPage (u32 lo)) with
          | Some page => Ret (Some (page (MultiXactIdToOffsetEntry (u32 lo)))) | None => Ret None end) = Ret (Some r) /\
     r = u32 (log_start (log_trim g lo))) as (r & Er & ->).
  { cbn [log_trim log_start]. destruct Ht as [[Hin Hwr]|(-> & _ & _)].
    - pose proof (inv_offsets _ _ Hinv lo Hin) as Ho. rewrite Hwr in Ho. unfold offset_at in Ho.
      destruct (MultiXactOffsetCtl m _) as [pg|]; [|done]. cbn in Ho. injection Ho as Ho. rewrite Ho.
      destruct Hin as [Hin _]. destruct (Z.ltb_spec lo (log_hi g)); [|lia].
      destruct (Z.eqb_spec (u32 lo) (u32 (log_hi g))) as [E|_]; [|eauto].
      pose proof (log_window m g Hinv). apply u32_inj_near in E; lia.
    - rewrite Z.eqb_refl. destruct (Z.ltb_spec (log_hi g) (log_hi g)); [lia|eauto]. }
  rewrite Er. cbn [cbind]. eexists. split; [done|]. apply (trim_inv m g lo); try done.
  constructor; cbn; try done.
  - exists (skip0 (lo + autovacuum_multixact_freeze_max_age)), (id_limit lo).
    pose proof (skip0_ge (lo + autovacuum_multixact_freeze_max_age)). pose proof (id_limit_bound lo).
    pose proof (id_limit_mono (log_lo g) lo ltac:(lia)). pose proof freeze_age. split_and!; [done|apply limit_down_spec|lia..|apply id_limit_nz].
  - exists (member_limit (log_start (log_trim g lo))).
    pose proof (member_limit_mono (log_start g) (log_start (log_trim g lo)) ltac:(lia)).
    cbn [log_trim log_start] in *. rewrite stop_limit_spec. split_and!; (done || lia).
Qed.
