(* ===== verification/MultiXactTheorems.v ===== *)
(** What MultiXacts promise to their users: the members given when one was
    created are the members found later, through the backend's cache, across the
    wraparound of numbers and offsets, and while other backends create more. *)
From stdpp Require Import list relations sorting.
From S2P Require Import Prelude Transam HeapTuple Tqual MultiXact MultiXactProofs MultiXactLog.

Class MemberSortLaws `{MemberSort} : Prop := {
  qsort_members_perm : forall l, qsort_members l ≡ₚ l;
  qsort_members_sorted : forall l, StronglySorted (fun a b => mxactMemberComparator a b <= 0) (qsort_members l)
}.

(** ** Executions *)

(** What backends do to the shared areas, each step under the locks it takes, and
    what that is in the log: reserve a number at once, be refused, or let go of
    the lock for warnings and reserve (or be refused) once it is taken again;
    write the contents of a number that is reserved; move the limits; set the own
    entries of the arrays of oldest numbers.  The one thing that is left out is a
    reservation after warnings that finds the counter at zero or at the stop
    limit ([relock_fine]): it assigns numbers twice or past the limit. *)
Inductive mx_step `{MXEnv} : MXShared * MXLog -> MXShared * MXLog -> Prop :=
  | step_reserve m g l r m' :
      members_ok l -> new_multi_entry m (zlen l) = (Some (Ret r), m') ->
      mx_step (m, g) (m', log_append (log_skip g) l)
  | step_refused m g l e m' :
      members_ok l -> new_multi_entry m (zlen l) = (Some (Elog e), m') -> mx_step (m, g) (m', log_skip g)
  | step_warned m g l m' :
      members_ok l -> new_multi_entry m (zlen l) = (None, m') -> mx_step (m, g) (m', log_skip g)
  | step_again m g l r m' :
      members_ok l -> relock_fine m -> new_multi_again m (zlen l) = (Ret r, m') ->
      mx_step (m, g) (m', log_append g l)
  | step_again_refused m g l e m' :
      members_ok l -> relock_fine m -> new_multi_again m (zlen l) = (Elog e, m') -> mx_step (m, g) (m', g)
  | step_record m g a m' :
      in_log g a -> log_written g a = false ->
      RecordNewMultiXact m (u32 a) (u32 (log_pos g a)) (log_members g a) = Ret m' ->
      mx_step (m, g) (m', log_write g a)
  | step_limit m g lo m' :
      may_trim g lo -> SetMultiXactIdLimit m (u32 lo) = Ret m' ->
      mx_step (m, g) (m', log_trim g lo)
  | step_oldest m g mem vis :
      zlen mem = zlen (OldestMemberMXactId m) -> zlen vis = zlen (OldestVisibleMXactId m) ->
      mx_step (m, g) (with_oldest m mem vis, g).

Definition mx_run `{MXEnv} : MXShared * MXLog -> MXShared * MXLog -> Prop := rtc mx_step.

(** A log that came later: entries may have been added, written or dropped. *)
Record log_extends (g g' : MXLog) : Prop := {
  ext_range : log_lo g <= log_lo g' /\ log_hi g <= log_hi g';
  ext_same : forall a, a < log_hi g -> log_pos g' a = log_pos g a /\ log_members g' a = log_members g a /\
    (log_written g a = true -> log_written g' a = true)
}.

#[export] Instance log_extends_preorder : PreOrder log_extends.
Proof.
  split.
  - intros g. by constructor.
  - intros g g' g'' [[? ?] Hs1] [[? ?] Hs2]. constructor; [lia|]. intros a Ha. destruct (Hs1 a Ha) as (<- & <- & Hw).
    destruct (Hs2 a ltac:(lia)) as (-> & -> & Hw'). auto.
Qed.

Lemma extends_append g l : log_extends g (log_append g l).
Proof.
  pose proof (skip0_ge (log_hi g)). constructor; cbn; [lia|]. intros a Ha.
  destruct (Z.eqb_spec a (skip0 (log_hi g))); [lia|done].
Qed.

Lemma extends_skip g : log_extends g (log_skip g).
Proof. pose proof (skip0_ge (log_hi g)). constructor; cbn; [lia|done]. Qed.

Lemma extends_write g a : log_extends g (log_write g a).
Proof. constructor; cbn; [lia|]. intros b Hb. split_and!; [done..|]. by destruct (b =? a). Qed.

Lemma extends_trim g lo : log_lo g <= lo -> log_extends g (log_trim g lo).
Proof. by constructor. Qed.

Section Runs.
Context `{NormalEnv} `{!FreezeAge}.

Lemma oldest_inv m g mem vis : mx_inv m g -> mx_inv (with_oldest m mem vis) g.
Proof using. intros []. by constructor. Qed.

Lemma step_inv m g m' g' : mx_step (m, g) (m', g') -> mx_inv m g -> mx_inv m' g' /\ log_extends g g'.
Proof.
  intros Hs Hinv. inversion Hs as [? ? l [multi offset] ? Hl E|? ? l e ? Hl E|? ? l ? Hl E|? ? l [multi offset] ? Hl Hf E
    |? ? l e ? Hl Hf E|? ? a ? Ha Hw E|? ? lo ? Ht E|? ? mem vis Hm Hv]; subst.
  1-3: pose proof (new_entry_spec m g l Hinv Hl) as Hg; rewrite E in Hg.
  - destruct Hg as (_ & _ & Hg). split; [done|]. transitivity (log_skip g); [apply extends_skip|apply extends_append].
  - split; [done|apply extends_skip].
  - split; [done|apply extends_skip].
  - pose proof (new_again_spec m g l Hinv Hl Hf) as Hg. rewrite E in Hg. destruct Hg as (_ & _ & Hg).
    split; [done|apply extends_append].
  - pose proof (new_again_spec m g' l Hinv Hl Hf) as Hg. by rewrite E in Hg.
  - destruct (record_inv m g a Hinv Ha Hw) as (m1 & E1 & Hi & _). rewrite E in E1. injection E1 as <-.
    split; [done|apply extends_write].
  - destruct (set_limit_inv m g lo Hinv Ht) as (m1 & E1 & Hi). rewrite E in E1. injection E1 as <-.
    destruct (trim_start m g lo Hinv Ht) as (? & _). split; [done|apply extends_trim; lia].
  - split; [by apply oldest_inv|done].
Qed.

Lemma run_inv s s' : mx_run s s' -> mx_inv s.1 s.2 -> mx_inv s'.1 s'.2 /\ log_extends s.2 s'.2.
Proof.
  induction 1 as [s|[m g] [m1 g1] s' Hs _ IH]; intros Hinv; [done|].
  destruct (step_inv _ _ _ _ Hs Hinv) as [Hinv1 Hext]. destruct (IH Hinv1) as [? ?]. split; [done|].
  by transitivity g1.
Qed.
End Runs.

(** ** Reading *)

Lemma slru_offset ctl multi v :
  offset_at ctl multi = Some v -> slru_get ctl (MultiXactIdToOffsetPage multi) (MultiXactIdToOffsetEntry multi) = Ret v.
Proof. unfold offset_at, slru_get. destruct (ctl _); [|done]. by intros [= ->]. Qed.

Lemma s32_diff p q : 0 <= p - q < 2 ^ 31 -> s32 (u32 p - u32 q) = p - q.
Proof.
  unfold s32, u32. change (2 ^ 32) with 4294967296. change (2 ^ 31) with 2147483648. intros.
  Z.div_mod_to_equations. lia.
Qed.

Lemma set_oldest_visible_state `{MXEnv} m :
  0 <= mx_MyBackendId < zlen (OldestVisibleMXactId m) ->
  exists m' v, MultiXactIdSetOldestVisible m = Ret m' /\ MultiXactState m' = MultiXactState m /\
    zget (OldestVisibleMXactId m') mx_MyBackendId = Some v.
Proof.
  intros Hme. unfold MultiXactIdSetOldestVisible.
  destruct (zget_is_Some _ _ Hme) as [v Ev]. rewrite Ev. cbn [deref cbind].
  destruct (MultiXactIdIsValid v); [by eauto|].
  destruct (zset_is_Some _ _ (fold_left older_member (tail (OldestMemberMXactId m)) (wrapped_next m)) Hme) as [l El].
  rewrite El. cbn [deref cbind]. eexists _, _. split_and!; [done|done|].
  cbn. rewrite (zget_zset _ _ _ _ _ El). by rewrite decide_True.
Qed.

Section Reading.
(** The counter has been moved off zero with no number assigned after [a], the
    last one before zero. *)
Definition counter_moved (g : MXLog) (a : Z) : Prop := log_hi g = a + 2 /\ u32 (a + 1) = 0.

(** The log when the counters are read, and a later state; [a] is written and not
    dropped. *)
Context (m0 : MXShared) (g0 : MXLog) (m : MXShared) (g : MXLog) (a : Z).
Context (Hinv0 : mx_inv m0 g0) (Hinv : mx_inv m g) (Hext : log_extends g0 g).
Context (Ha : in_log g0 a) (Hw : log_written g0 a = true) (Hlo : log_lo g <= a) (Hnm : ~ counter_moved g0 a).

Lemma later_entry b : in_log g0 b -> log_lo g <= b ->
  in_log g b /\ log_pos g b = log_pos g0 b /\ log_members g b = log_members g0 b.
Proof using Hext.
  intros [Hb Hu] Hl. destruct Hext as [[? ?] Hs]. destruct (Hs b ltac:(lia)) as (-> & -> & _). by split; [split; [lia|]|].
Qed.

Lemma read_offsets_spec :
  read_offsets (MultiXactOffsetCtl m) (u32 a) (u32 (log_hi g0)) (u32 (log_end g0)) =
    if next_multi a <? log_hi g0 then
      if log_written g (next_multi a) then Ret (Some (u32 (log_pos g0 a), skip0 (log_stop g0 a) - log_pos g0 a))
      else Ret None
    else Ret (Some (u32 (log_pos g0 a), zlen (log_members g0 a))).
Proof using Type*.
  destruct (later_entry a Ha Hlo) as (Hag & Ep & Em). pose proof (inv_entry _ _ Hinv0 a Ha) as (? & Hpu & ? & Hok).
  pose proof (members_few _ Hok). pose proof (zlen_nonneg (log_members g0 a)). pose proof (log_window m0 g0 Hinv0).
  destruct (ext_same _ _ Hext a ltac:(destruct Ha; lia)) as (_ & _ & Hw').
  unfold read_offsets. pose proof (inv_offsets _ _ Hinv a Hag) as Ho. rewrite (Hw' Hw), Ep in Ho.
  rewrite (slru_offset _ _ _ Ho). cbn [cbind]. destruct (Z.eqb_spec (u32 (log_pos g0 a)) 0); [done|].
  cbn [negb c_assert cbind]. rewrite u32_succ. pose proof (inv_chain _ _ Hinv0 a Ha) as Hc.
  destruct (Z.ltb_spec (next_multi a) (log_hi g0)) as [Hlt|Hge].
  - pose proof (next_multi_gt a). pose proof (in_log_next g0 a Ha Hlt) as Hn.
    destruct (Z.eqb_spec (u32 (log_hi g0)) (u32 (a + 1))) as [E|_].
    { destruct Ha as [Ha1 _]. apply u32_inj_near in E; [|lia]. unfold next_multi in *. pose proof (skip0_ge (a + 1)). lia. }
    replace (if u32 (a + 1) <? FirstMultiXactId then FirstMultiXactId else u32 (a + 1)) with (u32 (next_multi a))
      by apply skip0_wrapped.
    destruct (later_entry (next_multi a) Hn ltac:(lia)) as (Hng & Epn & _).
    rewrite (slru_offset _ _ _ (inv_offsets _ _ Hinv _ Hng)). cbn [cbind].
    destruct (log_written g (next_multi a)); [|done].
    pose proof (inv_entry _ _ Hinv _ Hng) as (_ & Hnu & _ & _). rewrite Epn in *.
    destruct (Z.eqb_spec (u32 (log_pos g0 (next_multi a))) 0); [done|]. rewrite Hc.
    pose proof (skip0_ge (log_stop g0 a)). rewrite s32_diff; [done|]. unfold log_stop in *. lia.
  - destruct (log_last g0 a Ha ltac:(lia)) as [_ [E|?]]; [|done]. rewrite E, Z.eqb_refl.
    rewrite s32_diff by (unfold log_stop in *; lia). do 3 f_equal. unfold log_stop in *. lia.
Qed.

Lemma read_members_spec n :
  n = zlen (log_members g0 a) \/ (next_multi a < log_hi g0 /\ n = skip0 (log_stop g0 a) - log_pos g0 a) ->
  read_members (MultiXactMemberCtl m) (Z.to_nat n) (u32 (log_pos g0 a)) = Ret (log_members g0 a).
Proof using Type*.
  intros Hn. destruct (later_entry a Ha Hlo) as (Hag & Ep & Em).
  destruct (ext_same _ _ Hext a ltac:(destruct Ha; lia)) as (_ & _ & Hw').
  pose proof (inv_entry _ _ Hinv0 a Ha) as (_ & _ & _ & Hok).
  pose proof (inv_members _ _ Hinv a Hag (Hw' Hw)) as Hh. rewrite Ep, Em in Hh.
  pose proof (zlen_nonneg (log_members g0 a)) as Hz. set (l := log_members g0 a) in *.
  assert (n = zlen l \/ (n = zlen l + 1 /\ next_multi a < log_hi g0 /\ u32 (log_stop g0 a) = 0)) as Hcases.
  { destruct Hn as [|[Hlt ->]]; [by left|]. unfold log_stop. fold l.
    destruct (skip0_cases (log_pos g0 a + zlen l)) as [[E ->]|[E ->]]; [right; split_and!; (done || lia)|left; lia]. }
  destruct Hcases as [->|(-> & Hlt & E0)].
  - replace (Z.to_nat (zlen l)) with (length l + 0)%nat by (unfold zlen; lia).
    rewrite read_members_app by (done || apply Hok). cbn [read_members cbind]. by rewrite app_nil_r.
  - replace (Z.to_nat (zlen l + 1)) with (length l + 1)%nat by (unfold zlen; lia).
    rewrite read_members_app by (done || apply Hok). pose proof (next_multi_gt a).
    destruct (later_entry (next_multi a) (in_log_next g0 a Ha Hlt) ltac:(lia)) as (Hng & _).
    assert (slot_xid (MultiXactMemberCtl m) 0 = Some 0) as Hx.
    { apply (inv_gap _ _ Hinv a); [done|done|]. unfold log_stop. by rewrite Ep, Em. }
    unfold log_stop in E0. fold l in E0. rewrite E0. cbn [read_members]. unfold slot_xid in Hx. unfold slru_get.
    destruct (MultiXactMemberCtl m _); [|done]. cbn in Hx. injection Hx as Hx. cbn [cbind]. rewrite Hx. cbn.
    by rewrite app_nil_r.
Qed.
End Reading.

(** ** The cache *)

Lemma find_move_Some f l e l' : find_move f l = Some (e, l') -> f e = true /\ e ∈ l /\ exists r, l' = e :: r /\ l' ≡ₚ l.
Proof.
  revert e l'. induction l as [|x l IH]; intros e l'; cbn [find_move]; [done|].
  destruct (f x) eqn:Ex.
  - intros [= <- <-]. split_and!; [done|left|]. by exists l.
  - destruct (find_move f l) as [[e1 l1]|]; [|done]. intros [= -> <-].
    destruct (IH e l1 eq_refl) as (Hf & Hin & r & -> & Hp). split_and!; [done|by right|].
    exists (x :: r). split; [done|]. cbn [tail]. rewrite <- Hp. apply Permutation_swap.
Qed.

Lemma find_move_None f l e : find_move f l = None -> e ∈ l -> f e = false.
Proof.
  induction l as [|x l IH]; cbn [find_move]; [by intros _ ?%not_elem_of_nil|].
  destruct (f x) eqn:Ex; [done|]. destruct (find_move f l) as [[e1 l1]|]; [done|]. intros _ [->|Hin]%elem_of_cons; auto.
Qed.

Lemma updaters_cons m l :
  updaters (m :: l) = if ISUPDATE_from_mxstatus (mx_status m) then m :: updaters l else updaters l.
Proof.
  unfold updaters. destruct (ISUPDATE_from_mxstatus (mx_status m)) eqn:E;
    [by rewrite filter_cons_True|by rewrite filter_cons_False by congruence].
Qed.

Lemma single_updater_spec b l :
  single_updater b l = if bool_decide (length (updaters l) + (if b then 1 else 0) <= 1)%nat then Ret tt
                       else Elog "new multixact has more than one updating member".
Proof.
  revert b. induction l as [|m l IH]; intros b; cbn [single_updater]; [by destruct b|].
  rewrite updaters_cons. destruct (ISUPDATE_from_mxstatus (mx_status m)) eqn:E; [|apply IH].
  destruct b; cbn [length]; [by rewrite bool_decide_eq_false_2 by lia|].
  rewrite IH. rewrite (bool_decide_ext (length (updaters l) + 1 <= 1)%nat (S (length (updaters l)) + 0 <= 1)%nat) by lia.
  done.
Qed.

Lemma members_ok_perm l l' : l ≡ₚ l' -> members_ok l -> members_ok l'.
Proof.
  intros Hp [Hf Hs Hl]. constructor.
  - by rewrite <- Hp.
  - unfold updaters in *. by rewrite <- Hp.
  - unfold zlen in *. by rewrite <- Hp.
Qed.

Section Theorems.
Context `{NormalEnv} `{!FreezeAge} `{MemberSortLaws}.

(** The oldest number the backend has declared it needs. *)
Context (needed : Z).

(** An entry of the cache is a MultiXact of the log with its members sorted. *)
Definition cache_entry_ok (g : MXLog) (e : MultiXactId * list MultiXactMember) : Prop :=
  exists a, needed <= a /\ in_log g a /\ log_written g a = true /\ e.1 = u32 a /\ e.2 = qsort_members (log_members g a).
Definition cache_ok (c : MXCache) (g : MXLog) : Prop := Forall (cache_entry_ok g) (MXactCache c).

Lemma cache_entry_extends g g' e :
  log_extends g g' -> log_lo g' <= needed -> cache_entry_ok g e -> cache_entry_ok g' e.
Proof.
  intros [[? ?] Hs] El (a & Hn & [Ha Hu] & Hw & E1 & E2). destruct (Hs a ltac:(lia)) as (_ & Em & Hw'). exists a.
  split_and!; [done|split; [lia|done]|auto|done|by rewrite Em].
Qed.

Lemma cache_extends g g' c : log_extends g g' -> log_lo g' <= needed -> cache_ok c g -> cache_ok c g'.
Proof. intros He Hl Hc. apply (Forall_impl _ _ _ Hc). intros e. by apply cache_entry_extends. Qed.

Lemma cache_moved c g l : cache_ok c g -> l ≡ₚ MXactCache c ->
  cache_ok {| MXactCache := l; MXactCacheMembers := MXactCacheMembers c |} g.
Proof. unfold cache_ok. cbn. by intros ? ->. Qed.

Lemma cache_put c g a l :
  cache_ok c g -> needed <= a -> in_log g a -> log_written g a = true -> l = log_members g a ->
  cache_ok (mXactCachePut c (u32 a) l) g.
Proof.
  intros Hc Hn Ha Hw ->. unfold cache_ok, mXactCachePut.
  assert (Forall (cache_entry_ok g) ((u32 a, qsort_members (log_members g a)) :: MXactCache c)) as Hf.
  { constructor; [|done]. by exists a. }
  destruct (_ <=? _); cbn [MXactCache]; [|done].
  rewrite (app_removelast_last (u32 a, []) (l := _ :: _)) in Hf by done. by apply Forall_app in Hf as [Hf _].
Qed.

(** A cached set of members is found again under the number it has in the log. *)
Lemma cache_by_set c g l :
  cache_ok c g ->
  match mXactCacheGetBySet c l with
  | (multi, c', l') => l' = qsort_members l /\ cache_ok c' g /\
      (multi = InvalidMultiXactId \/
       exists a, in_log g a /\ log_written g a = true /\ multi = u32 a /\ log_members g a ≡ₚ l)
  end.
Proof.
  intros Hc. unfold mXactCacheGetBySet.
  destruct (find_move _ (MXactCache c)) as [[e l1]|] eqn:E; [|by auto].
  apply find_move_Some in E as (Hf & Hin & r & -> & Hp). apply bool_decide_eq_true in Hf.
  split_and!; [done|by apply cache_moved|]. right.
  destruct (proj1 (Forall_forall _ _) Hc e Hin) as (a & _ & Ha & Hw & E1 & E2). exists a. split_and!; [done..|].
  rewrite <- (qsort_members_perm (log_members g a)), <- E2, Hf. apply qsort_members_perm.
Qed.

(** What may happen while the backend has let go of [MultiXactGenLock]: steps of
    other backends, which keep the numbers it needs and do not write the contents
    of one that it has reserved. *)
Class Others : Prop := {
  others_relock : forall m g, mx_inv m g -> log_lo g <= needed ->
    exists g', mx_run (m, g) (mx_relock m, g') /\ log_lo g' <= needed;
  others_unlocked : forall m g a, mx_inv m g -> log_lo g <= needed -> needed <= a -> in_log g a -> log_written g a = false ->
    exists g', mx_run (m, g) (mx_unlocked m, g') /\ log_lo g' <= needed /\ log_written g' a = false
}.

(** If the lock is let go for warnings, it is taken again where the counter is
    neither at zero nor at the stop limit. *)
Definition relocks_fine (m : MXShared) (nmembers : Z) : Prop :=
  forall m', new_multi_entry m nmembers = (None, m') -> relock_fine (mx_relock m').

(** A number is reserved, perhaps after others have acted. *)
Lemma get_new_spec `{!Others} m g l :
  mx_inv m g -> log_lo g <= needed -> members_ok l -> relocks_fine m (zlen l) ->
  match GetNewMultiXactId m (zlen l) with
  | (Ret (multi, offset), m') => exists g', mx_run (m, g) (m', log_append g' l) /\ mx_inv m' (log_append g' l) /\
      log_extends g g' /\ log_lo g' <= needed /\ log_lo g' <= skip0 (log_hi g') /\
      multi = u32 (skip0 (log_hi g')) /\ offset = u32 (skip0 (log_end g'))
  | (Elog _, m') => exists g', mx_run (m, g) (m', g') /\ log_lo g' <= needed
  | (Undef, _) => False
  end.
Proof.
  intros Hinv Hn Hl Hfine. unfold GetNewMultiXactId. pose proof (new_entry_spec m g l Hinv Hl) as He. red in Hfine.
  destruct (new_multi_entry m (zlen l)) as [[[[multi offset]|e|]|] m1] eqn:E; [| |done|].
  - destruct He as (-> & -> & Hi). exists (log_skip g). cbn [log_skip log_hi log_lo log_end].
    rewrite (skip0_nz (skip0 _)) by apply u32_skip0. destruct (inv_order _ _ Hinv).
    split_and!; try done; [by apply rtc_once, (step_reserve m g l (u32 (skip0 (log_hi g)), u32 (skip0 (log_end g))))|apply extends_skip].
  - exists (log_skip g). split; [by apply rtc_once, (step_refused m g l e)|done].
  - destruct (others_relock m1 (log_skip g) He Hn) as (g2 & Hrun & Hn2). destruct (run_inv _ _ Hrun He) as [Hi2 Hx2].
    cbn [fst snd] in *. pose proof (Hfine m1 eq_refl) as Hf. pose proof (new_again_spec _ g2 l Hi2 Hl Hf) as Ha.
    assert (mx_run (m, g) (mx_relock m1, g2)) as Hrun' by (eapply rtc_l; [by apply (step_warned m g l)|done]).
    assert (skip0 (log_hi g2) = log_hi g2) as Es.
    { apply skip0_nz. destruct Hf as [Hf _]. by rewrite (inv_next _ _ Hi2) in Hf. }
    destruct (new_multi_again _ _) as [[[multi offset]|e|] m2] eqn:E2; [| |done].
    + destruct Ha as (-> & -> & Hi). exists g2. rewrite Es. destruct (inv_order _ _ Hi2) as [Hlo _]. rewrite Es in Hlo.
      split_and!; try done; [|by transitivity (log_skip g); [apply extends_skip|]].
      eapply rtc_r; [done|]. by apply (step_again _ g2 l (u32 (log_hi g2), u32 (skip0 (log_end g2)))).
    + exists g2. split; [|done]. eapply rtc_r; [done|]. by apply (step_again_refused _ g2 l e).
Qed.

(** The contents of the number just reserved are written, perhaps after others
    have acted. *)
Lemma write_reserved `{!Others} m g l :
  mx_inv m (log_append g l) -> log_lo g <= skip0 (log_hi g) -> log_lo g <= needed -> needed <= skip0 (log_hi g) ->
  let a := skip0 (log_hi g) in
  exists m' g', RecordNewMultiXact (mx_unlocked m) (u32 a) (u32 (skip0 (log_end g))) l = Ret m' /\
    mx_run (m, log_append g l) (m', g') /\ mx_inv m' g' /\ log_extends (log_append g l) g' /\ log_lo g' <= needed /\
    in_log g' a /\ log_written g' a = true /\ log_members g' a = l.
Proof.
  intros Hinv Hlo Hn Ha a. set (g1 := log_append g l) in *.
  assert (in_log g1 a) as Hin by (apply in_log_append; [done|by right]).
  assert (log_written g1 a = false /\ log_pos g1 a = skip0 (log_end g) /\ log_members g1 a = l) as (Hw & Ep & Em).
  { cbn. fold a. by rewrite Z.eqb_refl. }
  destruct (others_unlocked m g1 a Hinv Hn Ha Hin Hw) as (g2 & Hrun & Hn2 & Hw2).
  destruct (run_inv _ _ Hrun Hinv) as [Hi2 Hx2]. cbn [fst snd] in *. destruct (ext_same _ _ Hx2 a ltac:(destruct Hin; lia)) as (Ep2 & Em2 & _).
  assert (in_log g2 a) as Hin2 by (destruct Hin as [? Hu], (ext_range _ _ Hx2); split; [lia|done]).
  destruct (record_inv _ g2 a Hi2 Hin2 Hw2) as (m2 & E2 & Hinv2 & _).
  exists m2, (log_write g2 a). pose proof E2 as E2'. rewrite Ep2, Em2, Ep, Em in E2. split_and!; try done.
  - eapply rtc_r; [done|]. by apply (step_record _ g2 a).
  - transitivity g2; [done|apply extends_write].
  - cbn. by rewrite Z.eqb_refl.
  - cbn. congruence.
Qed.

(** Creating a MultiXact that is not in the cache. *)
Lemma create_new `{!Others} m g c l :
  mx_inv m g -> log_lo g <= needed <= log_hi g -> members_ok l -> relocks_fine m (zlen l) ->
  (mXactCacheGetBySet c l).1.1 = InvalidMultiXactId ->
  match MultiXactIdCreateFromMembers m c l with
  | (Ret (multi, c'), m') => exists g' a,
      mx_run (m, g) (m', g') /\ mx_inv m' g' /\ log_extends g g' /\ log_lo g' <= needed /\
      in_log g' a /\ log_written g' a = true /\ log_members g' a = qsort_members l /\ log_hi g <= a /\
      multi = u32 a /\ c' = mXactCachePut (mXactCacheGetBySet c l).1.2 multi (qsort_members l)
  | (Elog _, m') => exists g', mx_run (m, g) (m', g') /\ log_lo g' <= needed
  | (Undef, _) => False
  end.
Proof.
  intros Hinv Hn Hl Hfine Hno. unfold MultiXactIdCreateFromMembers.
  assert (exists c1, mXactCacheGetBySet c l = (InvalidMultiXactId, c1, qsort_members l)) as [c1 Ec].
  { unfold mXactCacheGetBySet in *. destruct (find_move _ _) as [[e l1]|]; cbn in Hno; [rewrite Hno|]; by eexists. }
  rewrite Ec. change (MultiXactIdIsValid InvalidMultiXactId) with false. cbn [fst snd].
  assert (members_ok (qsort_members l)) as Hl1.
  { apply (members_ok_perm l); [symmetry; apply qsort_members_perm|done]. }
  assert (zlen (qsort_members l) = zlen l) as Ez by (unfold zlen; by rewrite qsort_members_perm).
  rewrite single_updater_spec, bool_decide_eq_true_2 by (pose proof (members_single _ Hl1); lia).
  pose proof (get_new_spec m g _ Hinv (proj1 Hn) Hl1 ltac:(by rewrite Ez)) as Hg.
  destruct (GetNewMultiXactId m (zlen (qsort_members l))) as [[[multi offset]| |] m1]; [|done|done].
  destruct Hg as (g1 & Hrun & Hinv1 & Hx1 & Hn1 & Hlo1 & -> & ->).
  pose proof (skip0_ge (log_hi g1)). destruct (ext_range _ _ Hx1).
  destruct (write_reserved m1 g1 _ Hinv1 Hlo1 Hn1 ltac:(lia)) as (m2 & g2 & -> & Hrun2 & Hi2 & Hx2 & Hn2 & Hin & Hw & Em).
  exists g2, (skip0 (log_hi g1)). split_and!; try done; [by etrans| |lia].
  transitivity g1; [done|]. transitivity (log_append g1 (qsort_members l)); [apply extends_append|done].
Qed.

Lemma create_refines `{!Others} m g c l :
  mx_inv m g -> log_lo g <= needed <= log_hi g -> cache_ok c g -> members_ok l -> relocks_fine m (zlen l) ->
  match MultiXactIdCreateFromMembers m c l with
  | (Ret (multi, c'), m') => exists g' a,
      mx_run (m, g) (m', g') /\ mx_inv m' g' /\ log_extends g g' /\ log_lo g' <= needed /\ cache_ok c' g' /\
      in_log g' a /\ log_written g' a = true /\ multi = u32 a /\ log_members g' a ≡ₚ l /\
      (in_log g a /\ log_written g a = true \/ log_hi g <= a)
  | (Elog _, m') => exists g', mx_run (m, g) (m', g') /\ mx_inv m' g' /\ log_extends g g' /\ cache_ok c g'
  | (Undef, _) => False
  end.
Proof.
  intros Hinv Hn Hc Hl Hfine. pose proof (cache_by_set c g l Hc) as Hb. pose proof (create_new m g c l Hinv Hn Hl Hfine) as Hnew.
  destruct (mXactCacheGetBySet c l) as [[multi c1] l1] eqn:Ec.
  destruct Hb as (-> & Hc1 & Hb). cbn [fst snd] in Hnew.
  destruct (decide (multi = InvalidMultiXactId)) as [->|Hv].
  - specialize (Hnew eq_refl). destruct (MultiXactIdCreateFromMembers m c l) as [[[multi c']| |] m']; [| |done].
    + destruct Hnew as (g' & a & Hrun & Hi & Hx & Hn' & Hin & Hw & Em & Ha & -> & ->). exists g', a.
      split_and!; try done; [|by rewrite Em; apply qsort_members_perm|by right].
      apply cache_put; try done; [by apply (cache_extends g)|lia].
    + destruct Hnew as (g' & Hrun & Hn'). destruct (run_inv _ _ Hrun Hinv) as [Hi Hx]. exists g'.
      split_and!; try done. by apply (cache_extends g).
  - clear Hnew. unfold MultiXactIdCreateFromMembers. rewrite Ec. unfold MultiXactIdIsValid.
    destruct (Z.eqb_spec multi InvalidMultiXactId); [done|]. cbn [negb].
    destruct Hb as [?|(a & Ha' & Hw' & -> & Hp)]; [done|]. exists g, a. split_and!; try done; [lia|by left].
Qed.


(** ** Looking up while others go on *)

(** The shared memory and its log at successive moments. *)
Definition mx_execution (mem : nat -> MXShared) (G : nat -> MXLog) : Prop :=
  mx_inv (mem 0%nat) (G 0%nat) /\ forall t, mx_run (mem t, G t) (mem (S t), G (S t)).

Lemma execution_at mem G t : mx_execution mem G -> mx_inv (mem t) (G t).
Proof. intros [Hz Hs]. induction t as [|t Hi]; [done|]. by destruct (run_inv _ _ (Hs t) Hi). Qed.

Lemma execution_later mem G t u : mx_execution mem G -> (t <= u)%nat -> log_extends (G t) (G u).
Proof.
  intros He Htu. induction Htu as [|u Htu IH]; [done|].
  destruct (run_inv _ _ (proj2 He u) (execution_at mem G u He)) as [_ ?]. by transitivity (G u).
Qed.

(** From the time [b] on at which the counters were read. *)
Lemma read_retry_spec mem G b a fuel : forall t,
  mx_execution mem G -> (b <= t)%nat -> in_log (G b) a -> log_written (G b) a = true -> ~ counter_moved (G b) a ->
  (forall u, (u <= t + fuel)%nat -> log_lo (G u) <= a) ->
  exists r, read_retry fuel mem t (u32 a) (u32 (log_hi (G b))) (u32 (log_end (G b))) = Ret r /\
    match r with
    | Some l => l = log_members (G b) a
    | None => forall u, (t <= u < t + fuel)%nat ->
        in_log (G b) (next_multi a) /\ log_written (G u) (next_multi a) = false
    end.
Proof.
  induction fuel as [|fuel IH]; intros t He Hbt Ha Hw Hnm Hlo; cbn [read_retry].
  { exists None. split; [done|]. lia. }
  pose proof (execution_at mem G t He) as Hi. pose proof (execution_at mem G (S t) He) as Hi'.
  pose proof (execution_at mem G b He) as Hi0. pose proof (execution_later mem G b t He Hbt) as Hx.
  pose proof (execution_later mem G b (S t) He ltac:(lia)) as Hx'.
  rewrite (read_offsets_spec (mem b) (G b) _ (G t)) by (done || (apply Hlo; lia)).
  pose proof (read_members_spec (mem b) (G b) (mem (S t)) (G (S t)) a Hi0 Hi' Hx' Ha Hw ltac:(apply Hlo; lia) Hnm) as Hr.
  destruct (Z.ltb_spec (next_multi a) (log_hi (G b))) as [Hlt|_].
  - destruct (log_written (G t) (next_multi a)) eqn:Ewn; cbn [cbind].
    + rewrite Hr by auto. cbn [cbind]. by eexists.
    + destruct (IH (S t) He ltac:(lia) Ha Hw Hnm) as (r & -> & Hres); [intros u Hu; apply Hlo; lia|].
      exists r. split; [done|]. destruct r as [l|]; [done|]. intros u Hu.
      destruct (decide (u = t)) as [->|]; [|apply Hres; lia]. split; [by apply in_log_next|done].
  - cbn [cbind]. rewrite Hr by auto. cbn [cbind]. by eexists.
Qed.


(** ** Errors *)

Lemma not_cached c g m a :
  mx_inv m g -> cache_ok c g -> ~ in_log g a -> log_lo g - 2 ^ 31 <= a < log_lo g + 2 ^ 31 - 1 ->
  mXactCacheGetById c (u32 a) = (None, c).
Proof.
  intros Hinv Hc Ha Hr. unfold mXactCacheGetById.
  destruct (find_move _ (MXactCache c)) as [[e l1]|] eqn:Ef; [|done].
  apply find_move_Some in Ef as (Hf & Hin & _). apply Z.eqb_eq in Hf.
  destruct (proj1 (Forall_forall _ _) Hc e Hin) as (b & _ & Hb & _ & E1 & _). destruct Ha.
  pose proof (log_window m g Hinv). rewrite Hf in E1. apply u32_inj_near in E1; [by subst|]. destruct Hb. lia.
Qed.

Lemma create_two_updaters m g c l :
  mx_inv m g -> cache_ok c g -> (1 < length (updaters l))%nat ->
  MultiXactIdCreateFromMembers m c l = (Elog "new multixact has more than one updating member", m).
Proof.
  intros Hinv Hc Hl. unfold MultiXactIdCreateFromMembers. pose proof (cache_by_set c g l Hc) as Hb.
  destruct (mXactCacheGetBySet c l) as [[multi c1] l1]. destruct Hb as (-> & _ & [->|(a & Ha & _ & _ & Hp)]).
  - change (MultiXactIdIsValid InvalidMultiXactId) with false. rewrite single_updater_spec. unfold updaters in *.
    by rewrite bool_decide_eq_false_2 by (rewrite qsort_members_perm; lia).
  - destruct (inv_entry _ _ Hinv a Ha) as (_ & _ & _ & Hok). pose proof (members_single _ Hok) as Hs.
    unfold updaters in *. rewrite Hp in Hs. lia.
Qed.

Lemma stop_limit_refuses m g stop n :
  mx_inv m g -> multiStopLimit (MultiXactState m) = u32 stop -> log_lo g < stop <= id_limit (log_lo g) ->
  stop <= skip0 (log_hi g) ->
  (GetNewMultiXactId m n).1 =
    Elog "database is not accepting commands that generate new MultiXactIds to avoid wraparound data loss".
Proof.
  intros Hinv Es Hstop Hge. destruct (inv_limits _ _ Hinv) as [(vac & stop' & Ev & Es' & Hvs & Hw & Hh) _ _ _].
  pose proof (id_limit_bound (log_lo g)). pose proof (skip0_ge (log_hi g)).
  rewrite Es in Es'. apply u32_inj_near in Es'; [|lia]. subst stop'.
  unfold GetNewMultiXactId, new_multi_entry. rewrite env_not_recovery, env_postmaster, counter_skipped_state with (g := g) by done.
  change (nextMXact (MultiXactState (counter_skipped m g))) with (u32 (skip0 (log_hi g))).
  change (multiVacLimit (MultiXactState (counter_skipped m g))) with (multiVacLimit (MultiXactState m)).
  change (multiStopLimit (MultiXactState (counter_skipped m g))) with (multiStopLimit (MultiXactState m)).
  rewrite Ev, Es, !multi_precedes_near by lia.
  destruct (Z.ltb_spec (skip0 (log_hi g)) vac); [lia|]. by destruct (Z.ltb_spec (skip0 (log_hi g)) stop); [lia|].
Qed.

(** The errors of the routines are raised where they are meant to be: two
    updaters in one MultiXact are refused and nothing changes; a number that is
    no longer needed, or has not been assigned yet, is reported as such instead
    of reading other members in its place; and no number is assigned from the
    stop limit on. *)
Theorem multixact_errors m g c :
  mx_inv m g -> cache_ok c g -> 0 <= mx_MyBackendId < zlen (OldestVisibleMXactId m) ->
  (forall l, (1 < length (updaters l))%nat ->
     MultiXactIdCreateFromMembers m c l = (Elog "new multixact has more than one updating member", m)) /\
  (forall a fuel, u32 a <> 0 -> log_lo g - 2 ^ 31 <= a < log_lo g ->
     GetMultiXactIdMembers fuel (fun _ => m) c (u32 a) false false =
       Elog "MultiXactId does no longer exist -- apparent wraparound") /\
  (forall a fuel, u32 a <> 0 -> log_hi g <= a < log_lo g + 2 ^ 31 - 1 ->
     GetMultiXactIdMembers fuel (fun _ => m) c (u32 a) false false =
       Elog "MultiXactId has not been created yet -- apparent wraparound") /\
  (forall stop n, multiStopLimit (MultiXactState m) = u32 stop -> log_lo g < stop <= id_limit (log_lo g) ->
     stop <= skip0 (log_hi g) ->
     (GetNewMultiXactId m n).1 =
       Elog "database is not accepting commands that generate new MultiXactIds to avoid wraparound data loss").
Proof.
  intros Hinv Hc Hme. pose proof (log_window m g Hinv) as Hwin. destruct (inv_order _ _ Hinv) as [Hlo _].
  assert (forall a fuel, u32 a <> 0 -> ~ in_log g a -> log_lo g - 2 ^ 31 <= a < log_lo g + 2 ^ 31 - 1 ->
    GetMultiXactIdMembers fuel (fun _ => m) c (u32 a) false false =
      if a <? log_lo g then Elog "MultiXactId does no longer exist -- apparent wraparound"
      else Elog "MultiXactId has not been created yet -- apparent wraparound") as Hget.
  { intros a fuel Hu Hno Hr. unfold GetMultiXactIdMembers, MultiXactIdIsValid.
    destruct (Z.eqb_spec (u32 a) InvalidMultiXactId); [done|]. cbn [negb orb].
    rewrite (not_cached c g m a) by done.
    destruct (set_oldest_visible_state m Hme) as (m' & v & -> & Es & Ev). cbn [cbind]. rewrite Ev. cbn [deref cbind andb].
    destruct (inv_oldest _ _ Hinv) as [-> _]. rewrite (inv_next _ _ Hinv).
    pose proof (skip0_ge (log_hi g)). rewrite multi_precedes_near by lia.
    destruct (Z.ltb_spec a (log_lo g)); [done|]. rewrite multi_precedes_near by lia.
    destruct (Z.ltb_spec a (log_hi g)); [|done]. destruct Hno. by split. }
  split_and!.
  - intros l. by apply (create_two_updaters m g).
  - intros a fuel Hu Ha. rewrite Hget; [|done|intros [? _]; lia|lia]. by destruct (Z.ltb_spec a (log_lo g)); [|lia].
  - intros a fuel Hu Ha. assert (log_lo g <= a).
    { destruct (skip0_cases (log_hi g)) as [[Eh Es]|[_ Es]]; [|lia].
      destruct (decide (a = log_hi g)) as [->|]; [done|lia]. }
    rewrite Hget; [|done|intros [? _]; lia|lia]. by destruct (Z.ltb_spec a (log_lo g)); [lia|].
  - intros stop n Es Hstop Hge. by apply (stop_limit_refuses m g stop).
Qed.
End Theorems.

(** ** A system at the point of wraparound

    The next number is the last one before zero, and the members in use end two
    slots before the end of the offset space. *)
#[export] Instance quiet_env : MXEnv := {|
  mx_RecoveryInProgress := false; mx_IsUnderPostmaster := true; mx_relock m := m; mx_unlocked m := m;
  mx_MyBackendId := 1; autovacuum_multixact_freeze_max_age := 400000000 |}.

#[export] Instance quiet_env_normal : NormalEnv.
Proof. by constructor. Qed.

#[export] Instance quiet_env_age : FreezeAge.
Proof. unfold FreezeAge. cbn. lia. Qed.

#[export] Instance mxactMemberComparator_dec : RelDecision (fun a b => mxactMemberComparator a b <= 0).
Proof. intros a b. unfold Decision. apply Z_le_dec. Defined.

#[export] Instance sort_members : MemberSort := merge_sort (fun a b => mxactMemberComparator a b <= 0).

Lemma comparator_le a b :
  mxactMemberComparator a b <= 0 <-> mx_xid a < mx_xid b \/ (mx_xid a = mx_xid b /\ mx_status a <= mx_status b).
Proof.
  unfold mxactMemberComparator.
  repeat match goal with |- context [?x <? ?y] => destruct (Z.ltb_spec x y) end; lia.
Qed.

#[export] Instance sort_members_laws : MemberSortLaws.
Proof.
  split; intros l; [apply merge_sort_Permutation|]. apply StronglySorted_merge_sort.
  - intros a b c. rewrite !comparator_le. lia.
  - intros a b. rewrite !comparator_le. lia.
Qed.

#[export] Instance quiet_others needed : Others needed.
Proof. split; intros m g *; exists g; split_and!; done || apply rtc_refl. Qed.

Definition last_number : Z := 2 ^ 32 - 1.
Definition wrap_position : Z := 2 ^ 32 - 2.

Definition wrap_log : MXLog := {|
  log_lo := last_number; log_hi := last_number; log_start := wrap_position; log_end := wrap_position;
  log_pos _ := 0; log_members _ := []; log_written _ := false |}.

Definition wrap_state : MXShared := {|
  MultiXactState := {|
    nextMXact := last_number; nextOffset := wrap_position; finishedStartup := true;
    oldestMultiXactId := last_number; oldestOffset := wrap_position; oldestOffsetKnown := true;
    multiVacLimit := u32 (last_number + 400000000); multiWarnLimit := u32 (id_limit last_number - 10000000);
    multiStopLimit := u32 (id_limit last_number); multiWrapLimit := u32 (last_number + (2 ^ 31 - 1));
    offsetStopLimit := u32 (member_limit wrap_position) |};
  MultiXactOffsetCtl p := if p =? MultiXactIdToOffsetPage last_number then Some (fun _ => 0) else None;
  MultiXactMemberCtl p := if p =? MXOffsetToMemberPage wrap_position then Some (fun _ => 0) else None;
  OldestMemberMXactId := [0; last_number]; OldestVisibleMXactId := [0; 0] |}.

Lemma wrap_state_ok : mx_inv wrap_state wrap_log.
Proof.
  assert (forall a, ~ in_log wrap_log a) as Hno by (intros a [Ha _]; cbn in Ha; lia).
  constructor; try (intros a Ha; by destruct (Hno a)).
  - done.
  - done.
  - done.
  - done.
  - constructor; [|done|done|].
    + exists (last_number + 400000000), (id_limit last_number). done.
    + exists (member_limit wrap_position). done.
  - intros a Ha Hpg _ _. cbn [wrap_log log_hi] in *. unfold last_number in *.
    assert (a = 2 ^ 32 - 1) as -> by (change (2 ^ 32) with 4294967296 in *; Z.div_mod_to_equations; lia). done.
  - intros q Hq. cbn in Hq. lia.
  - right. by eexists.
Qed.

Definition locker_and_updater : list MultiXactMember :=
  [{| mx_xid := 701; mx_status := 5 |}; {| mx_xid := 700; mx_status := 0 |}].
Definition three_lockers : list MultiXactMember :=
  [{| mx_xid := 702; mx_status := 1 |}; {| mx_xid := 700; mx_status := 0 |}; {| mx_xid := 701; mx_status := 2 |}].
Definition no_cache : MXCache := {| MXactCache := []; MXactCacheMembers := 0 |}.

Lemma locker_and_updater_ok : members_ok locker_and_updater.
Proof. split; [repeat constructor; done|by vm_compute; repeat constructor|done]. Qed.
Lemma three_lockers_ok : members_ok three_lockers.
Proof. split; [repeat constructor; done|by vm_compute; repeat constructor|done]. Qed.

Definition after_first : MXShared := (MultiXactIdCreateFromMembers wrap_state no_cache locker_and_updater).2.
Definition after_second : MXShared := (MultiXactIdCreateFromMembers after_first no_cache three_lockers).2.

(** The two members of the last number take the last two slots; the next number
    is 1, slot zero is left out, and both are found again. *)
Example wraparound_run :
  (MultiXactIdCreateFromMembers after_first no_cache three_lockers).1 =
    Ret (1, {| MXactCache := [(1, qsort_members three_lockers)]; MXactCacheMembers := 1 |}) /\
  GetMultiXactIdMembers 1 (fun _ => after_second) no_cache last_number false false =
    Ret (Members (qsort_members locker_and_updater),
         {| MXactCache := [(last_number, qsort_members locker_and_updater)]; MXactCacheMembers := 1 |}) /\
  nextOffset (MultiXactState after_second) = 4.
Proof. vm_compute. done. Qed.

Lemma no_cache_ok needed g : cache_ok needed no_cache g.
Proof. constructor. Qed.

(** In the busy environment another backend reserves a number with two members
    before the contents of the own one are written. *)
Definition busy_env : MXEnv := {|
  mx_RecoveryInProgress := false; mx_IsUnderPostmaster := true; mx_relock m := m;
  mx_unlocked m := (@new_multi_entry quiet_env m 2).2;
  mx_MyBackendId := 1; autovacuum_multixact_freeze_max_age := 400000000 |}.

Lemma busy_env_normal : @NormalEnv busy_env.
Proof. by constructor. Qed.

Lemma busy_others needed : @Others busy_env needed.
Proof.
  constructor.
  - intros m g _ Hn. exists g. split; [apply rtc_refl|done].
  - intros m g a Hinv Hn _ _ Hw. pose proof locker_and_updater_ok as Hl.
    pose proof (@new_entry_spec busy_env busy_env_normal m g _ Hinv Hl) as He.
    change (mx_unlocked m) with (@new_multi_entry busy_env m (zlen locker_and_updater)).2.
    destruct (@new_multi_entry busy_env m (zlen locker_and_updater)) as [[[r|e|]|] m'] eqn:E; [| |done|]; cbn [snd].
    + exists (log_append (log_skip g) locker_and_updater).
      split_and!; [by apply rtc_once, (@step_reserve busy_env m g locker_and_updater r)|done|]. cbn. by destruct (a =? _).
    + exists (log_skip g). split_and!; [by apply rtc_once, (@step_refused busy_env m g locker_and_updater e)|done|done].
    + exists (log_skip g). split_and!; [by apply rtc_once, (@step_warned busy_env m g locker_and_updater)|done|done].
Qed.


(** Without others: the two steps of a creation. *)
Definition log_create (g : MXLog) (l : list MultiXactMember) : MXLog :=
  log_write (log_append (log_skip g) (qsort_members l)) (skip0 (log_hi g)).

Lemma create_steps m g l x m' :
  mx_inv m g -> members_ok (qsort_members l) -> (new_multi_entry m (zlen (qsort_members l))).1 <> None ->
  MultiXactIdCreateFromMembers m no_cache l = (Ret x, m') -> mx_run (m, g) (m', log_create g l).
Proof.
  intros Hinv Hl Hnw. unfold MultiXactIdCreateFromMembers, GetNewMultiXactId, log_create.
  change (mXactCacheGetBySet no_cache l) with (InvalidMultiXactId, no_cache, qsort_members l).
  change (MultiXactIdIsValid InvalidMultiXactId) with false. cbn iota. destruct (single_updater false (qsort_members l)); [|done|done].
  pose proof (new_entry_spec m g _ Hinv Hl) as He. set (l' := qsort_members l) in *.
  destruct (new_multi_entry m (zlen l')) as [[[[multi offset]|e|]|] m1] eqn:E; try done.
  destruct He as (-> & -> & Hi). change (mx_unlocked m1) with m1. set (g1 := log_append (log_skip g) l') in *.
  assert (skip0 (skip0 (log_hi g)) = skip0 (log_hi g)) as Es by apply skip0_nz, u32_skip0.
  assert (in_log g1 (skip0 (log_hi g))) as Hin.
  { apply (in_log_append (log_skip g) l'); [destruct (inv_order _ _ (skip_inv m g Hinv)); done|]. right. by cbn. }
  destruct (RecordNewMultiXact _ _ _ _) as [m2| |] eqn:Er; [|done|done]. intros [= _ <-].
  eapply rtc_l; [by apply (step_reserve m g l' (u32 (skip0 (log_hi g)), u32 (skip0 (log_end g))))|].
  apply rtc_once, step_record; [done| |]; cbn; rewrite Es, Z.eqb_refl; done.
Qed.

(** The log after the first creation: one written entry. *)
Definition first_log : MXLog := log_create wrap_log locker_and_updater.

Lemma created_Ret m c l x : (MultiXactIdCreateFromMembers m c l).1 = Ret x ->
  MultiXactIdCreateFromMembers m c l = (Ret x, (MultiXactIdCreateFromMembers m c l).2).
Proof. by destruct (MultiXactIdCreateFromMembers m c l) as [? ?]; cbn; intros ->. Qed.

Lemma first_run : mx_run (wrap_state, wrap_log) (after_first, first_log).
Proof.
  assert (exists x, (MultiXactIdCreateFromMembers wrap_state no_cache locker_and_updater).1 = Ret x) as [x Ex]
    by (vm_compute; eexists; reflexivity).
  apply (create_steps _ _ _ x); [apply wrap_state_ok| |vm_compute; congruence|by apply created_Ret].
  apply (members_ok_perm locker_and_updater); [by rewrite qsort_members_perm|apply locker_and_updater_ok].
Qed.

Lemma after_first_ok : mx_inv after_first first_log.
Proof. apply (run_inv _ _ first_run wrap_state_ok). Qed.

(** A reader of the last number while another backend creates the next one: when
    the counters are read, it is already there. *)
Definition reading_memory (t : nat) : MXShared := match t with 0%nat => after_first | _ => after_second end.
Definition reading_log (t : nat) : MXLog :=
  match t with 0%nat => first_log | _ => log_create first_log three_lockers end.

Lemma reading_execution : mx_execution reading_memory reading_log.
Proof.
  split; [apply after_first_ok|]. intros [|t]; [|apply rtc_refl]. cbn [reading_memory reading_log].
  destruct wraparound_run as [Ex _]. eapply create_steps; [apply after_first_ok| |vm_compute; congruence|by apply created_Ret].
  apply (members_ok_perm three_lockers); [by rewrite qsort_members_perm|apply three_lockers_ok].
Qed.


Lemma multixact_errors_witness :
  GetMultiXactIdMembers 1 (fun _ => after_first) no_cache 1 false false =
    Elog "MultiXactId has not been created yet -- apparent wraparound" /\
  (MultiXactIdCreateFromMembers after_first no_cache (locker_and_updater ++ locker_and_updater)).1 =
    Elog "new multixact has more than one updating member".
Proof.
  destruct (multixact_errors last_number after_first first_log no_cache after_first_ok (no_cache_ok _ _)) as (H1 & _ & H3 & _);
    [vm_compute; split; congruence|].
  split.
  - apply (H3 (2 ^ 32 + 1) 1%nat); [vm_compute; congruence|vm_compute; split; congruence].
  - rewrite (H1 (locker_and_updater ++ locker_and_updater)); [done|]. vm_compute. repeat constructor.
Defined.

(** ** Two flaws at the wraparound of the counter

    Both need the counter to stand at zero, that is right after the last number
    has been assigned, and numbers past [multiVacLimit]. *)

Definition with_id_limits (m : MXShared) (vac stop : Z) : MXShared :=
  let s := MultiXactState m in
  with_state m
    {| nextMXact := nextMXact s; nextOffset := nextOffset s; finishedStartup := finishedStartup s;
       oldestMultiXactId := oldestMultiXactId s; oldestOffset := oldestOffset s;
       oldestOffsetKnown := oldestOffsetKnown s; multiVacLimit := vac; multiWarnLimit := multiWarnLimit s;
       multiStopLimit := stop; multiWrapLimit := multiWrapLimit s; offsetStopLimit := offsetStopLimit s |}.

(** Another backend assigns the last number while the lock is released. *)
Definition racing_env : MXEnv := {|
  mx_RecoveryInProgress := false; mx_IsUnderPostmaster := true;
  mx_relock m := (@GetNewMultiXactId quiet_env m 2).2; mx_unlocked m := m;
  mx_MyBackendId := 1; autovacuum_multixact_freeze_max_age := 400000000 |}.

(** Two runs at the wraparound of the counter.  Number 1 can be assigned twice, and the members of the last number can
    become unreadable.  When the lock is taken again after a warning, the
    counter is read but, other than on entry, not moved off zero before it is
    incremented: number 1 is assigned, the counter becomes 1, and the next
    backend is assigned number 1 as well.  And an error on the way leaves the
    counter moved off zero although number 1 was not assigned; the last number
    is then no longer seen to be the last, and looking it up fails. *)
Example multixact_counter_flaws :
  (let m := with_id_limits wrap_state (last_number - 1) (u32 (last_number + 1000)) in
   let r := @GetNewMultiXactId racing_env m 2 in
   r.1 = Ret (1, 1) /\ (@GetNewMultiXactId quiet_env r.2 2).1 = Ret (1, 3)) /\
  (let m := with_id_limits after_first (last_number - 1) (last_number - 1) in
   let r := GetNewMultiXactId m 2 in
   r.1 = Elog "database is not accepting commands that generate new MultiXactIds to avoid wraparound data loss" /\
   GetMultiXactIdMembers 1 (fun _ => m) no_cache last_number false false =
     Ret (Members (qsort_members locker_and_updater), mXactCachePut no_cache last_number locker_and_updater) /\
   GetMultiXactIdMembers 1 (fun _ => r.2) no_cache last_number false false =
     Elog "could not access status of transaction").
Proof. vm_compute. done. Qed.
