(* ===== verification/LockModes.v ===== *)
(** * Lock modes and the conflict table ([storage/lmgr/lock.c], [include/storage/lockdefs.h])

    The eight modes of the heavyweight lock manager, and which of them conflict.  Row
    locks use them through the tables of [heapam.c]. *)
From stdpp Require Import list.
From S2P Require Import Prelude.

Definition AccessShareLock : Z := 1.
Definition RowShareLock : Z := 2.
Definition RowExclusiveLock : Z := 3.
Definition ShareUpdateExclusiveLock : Z := 4.
Definition ShareLock : Z := 5.
Definition ShareRowExclusiveLock : Z := 6.
Definition ExclusiveLock : Z := 7.
Definition AccessExclusiveLock : Z := 8.

Definition LOCKBIT_ON (lockmode : Z) : Z := Z.shiftl 1 lockmode.

Definition lockbits (modes : list Z) : Z := foldr (fun m b => Z.lor (LOCKBIT_ON m) b) 0 modes.

Definition LockConflicts : list Z :=
  [ 0;
    lockbits [AccessExclusiveLock];
    lockbits [ExclusiveLock; AccessExclusiveLock];
    lockbits [ShareLock; ShareRowExclusiveLock; ExclusiveLock; AccessExclusiveLock];
    lockbits [ShareUpdateExclusiveLock; ShareLock; ShareRowExclusiveLock; ExclusiveLock; AccessExclusiveLock];
    lockbits [RowExclusiveLock; ShareUpdateExclusiveLock; ShareRowExclusiveLock; ExclusiveLock; AccessExclusiveLock];
    lockbits [RowExclusiveLock; ShareUpdateExclusiveLock; ShareLock; ShareRowExclusiveLock; ExclusiveLock;
              AccessExclusiveLock];
    lockbits [RowShareLock; RowExclusiveLock; ShareUpdateExclusiveLock; ShareLock; ShareRowExclusiveLock;
              ExclusiveLock; AccessExclusiveLock];
    lockbits [AccessShareLock; RowShareLock; RowExclusiveLock; ShareUpdateExclusiveLock; ShareLock;
              ShareRowExclusiveLock; ExclusiveLock; AccessExclusiveLock] ].

Definition DoLockModesConflict (mode1 mode2 : Z) : cres bool :=
  let* mask := deref (zget LockConflicts mode1) in
  Ret (negb (Z.land mask (LOCKBIT_ON mode2) =? 0)).
