(* ===== verification/RowLock.v ===== *)
(** Row locks and deletion ([access/heap/heapam.c]): what is stored in the [xmax]
    of a tuple when a transaction locks or deletes it while others may hold locks
    on it, and the wait loop of [heap_delete].

    The transactions that lock a tuple and the one that updates it are its
    holders.  One holder is stored in [xmax] itself, its lock strength in the
    flag words; several are a MultiXact.  What this file asks of multixact.c is
    the class [MultiStore]: creating a MultiXact gives its number and changes
    what [GetMultiXactIdMembers] finds, which is the [MultiView] afterwards. *)
From stdpp Require Import list.
From S2P Require Import Prelude Transam HeapTuple Combocid Tqual LockModes.

Inductive LockTupleMode :=
  | LockTupleKeyShare | LockTupleShare | LockTupleNoKeyExclusive | LockTupleExclusive.

#[export] Instance LockTupleMode_eq_dec : EqDecision LockTupleMode.
Proof. solve_decision. Defined.

(** The value of the enumeration. *)
Definition lock_level (mode : LockTupleMode) : Z :=
  match mode with
  | LockTupleKeyShare => 0 | LockTupleShare => 1 | LockTupleNoKeyExclusive => 2 | LockTupleExclusive => 3
  end.

(** ** Tables *)

Record tupleLockInfo := { hwlock : Z; lockstatus : Z; updstatus : Z }.

Definition tupleLockExtraInfo (mode : LockTupleMode) : tupleLockInfo :=
  match mode with
  | LockTupleKeyShare =>
      {| hwlock := AccessShareLock; lockstatus := MultiXactStatusForKeyShare; updstatus := -1 |}
  | LockTupleShare =>
      {| hwlock := RowShareLock; lockstatus := MultiXactStatusForShare; updstatus := -1 |}
  | LockTupleNoKeyExclusive =>
      {| hwlock := ExclusiveLock; lockstatus := MultiXactStatusForNoKeyUpdate;
         updstatus := MultiXactStatusNoKeyUpdate |}
  | LockTupleExclusive =>
      {| hwlock := AccessExclusiveLock; lockstatus := MultiXactStatusForUpdate; updstatus := MultiXactStatusUpdate |}
  end.

Definition MultiXactStatusLock : list LockTupleMode :=
  [ LockTupleKeyShare; LockTupleShare; LockTupleNoKeyExclusive; LockTupleExclusive;
    LockTupleNoKeyExclusive; LockTupleExclusive ].

Definition TUPLOCK_from_mxstatus (status : Z) : cres LockTupleMode := deref (zget MultiXactStatusLock status).

Definition LOCKMODE_from_mxstatus (status : Z) : cres Z :=
  let* mode := TUPLOCK_from_mxstatus status in Ret (hwlock (tupleLockExtraInfo mode)).

Definition get_mxact_status_for_lock (mode : LockTupleMode) (is_update : bool) : cres Z :=
  let retval := if is_update then updstatus (tupleLockExtraInfo mode) else lockstatus (tupleLockExtraInfo mode) in
  if retval =? -1 then Elog "invalid lock tuple mode" else Ret retval.

(** ** Flags *)

Definition HEAP_XMAX_IS_SHR_LOCKED (infomask : Z) : bool := Z.land infomask HEAP_LOCK_MASK =? HEAP_XMAX_SHR_LOCK.
Definition HEAP_XMAX_IS_EXCL_LOCKED (infomask : Z) : bool := Z.land infomask HEAP_LOCK_MASK =? HEAP_XMAX_EXCL_LOCK.
Definition HEAP_XMAX_IS_KEYSHR_LOCKED (infomask : Z) : bool :=
  Z.land infomask HEAP_LOCK_MASK =? HEAP_XMAX_KEYSHR_LOCK.
Definition HEAP_XMAX_BITS : Z :=
  Z.lor (Z.lor (Z.lor (Z.lor HEAP_XMAX_COMMITTED HEAP_XMAX_INVALID) HEAP_XMAX_IS_MULTI) HEAP_LOCK_MASK)
    HEAP_XMAX_LOCK_ONLY.
Definition HEAP_KEYS_UPDATED : Z := 0x2000.
Definition HEAP_HOT_UPDATED : Z := 0x4000.

(** [x &= ~bits] *)
Definition clear_bits (x bits : Z) : Z := Z.ldiff x bits.

Definition xmax_infomask_changed (new_infomask old_infomask : Z) : bool :=
  let interesting := Z.lor (Z.lor HEAP_XMAX_IS_MULTI HEAP_XMAX_LOCK_ONLY) HEAP_LOCK_MASK in
  negb (Z.land new_infomask interesting =? Z.land old_infomask interesting).

(** ** MultiXacts *)

(** What [GetMultiXactIdMembers] finds at some moment. *)
Definition MultiView : Type := MultiXactId -> cres (list MultiXactMember).

Class MultiStore := {
  multi_create : list MultiXactMember -> cres (MultiXactId * MultiView);   (* MultiXactIdCreateFromMembers *)
  OldestMember_set : bool;                                                 (* MultiXactIdSetOldestMember was called *)
  xact_did_abort : TransactionId -> bool                                   (* TransactionIdDidAbort *)
}.

Section RowLock.
Context `{SharedXacts} `{Backend} `{MultiStore}.

Definition current_view : MultiView := fun multi => multi_members multi false false.

Definition store_MultiXactIdCreate (xid1 : TransactionId) (status1 : Z) (xid2 : TransactionId) (status2 : Z)
  : cres (MultiXactId * MultiView) :=
  c_assert (TransactionIdIsValid xid1) ;; c_assert (TransactionIdIsValid xid2) ;;
  c_assert (negb (TransactionIdEquals xid1 xid2) || negb (status1 =? status2)) ;;
  c_assert OldestMember_set ;;
  multi_create [{| mx_xid := xid1; mx_status := status1 |}; {| mx_xid := xid2; mx_status := status2 |}].

(** The members that are still of interest. *)
Definition still_of_interest (m : MultiXactMember) : bool :=
  xact_in_progress (mx_xid m) || (ISUPDATE_from_mxstatus (mx_status m) && xact_did_commit (mx_xid m)).

Definition MultiXactIdExpand (multi : MultiXactId) (xid : TransactionId) (status : Z)
  : cres (MultiXactId * MultiView) :=
  c_assert (negb (multi =? 0)) ;; c_assert (TransactionIdIsValid xid) ;; c_assert OldestMember_set ;;
  let* members := current_view multi in
  let new := {| mx_xid := xid; mx_status := status |} in
  if existsb (fun m => TransactionIdEquals (mx_xid m) xid && (mx_status m =? status)) members then Ret (multi, current_view)
  else multi_create (filter (fun m => still_of_interest m = true) members ++ [new]).

(** The loop of [GetMultiXactIdHintBits]: flags of the second word, whether there
    is an updater, and the strongest mode. *)
Fixpoint hint_bits_loop (members : list MultiXactMember) (bits2 : Z) (has_update : bool) (strongest : LockTupleMode)
  : cres (Z * bool * LockTupleMode) :=
  match members with
  | [] => Ret (bits2, has_update, strongest)
  | m :: members =>
      let* mode := TUPLOCK_from_mxstatus (mx_status m) in
      let strongest := if lock_level strongest <? lock_level mode then mode else strongest in
      if mx_status m =? MultiXactStatusForUpdate
      then hint_bits_loop members (Z.lor bits2 HEAP_KEYS_UPDATED) has_update strongest
      else if mx_status m =? MultiXactStatusNoKeyUpdate
      then hint_bits_loop members bits2 true strongest
      else if mx_status m =? MultiXactStatusUpdate
      then hint_bits_loop members (Z.lor bits2 HEAP_KEYS_UPDATED) true strongest
      else hint_bits_loop members bits2 has_update strongest
  end.

Definition GetMultiXactIdHintBits (view : MultiView) (multi : MultiXactId) : cres (Z * Z) :=
  let* members := view multi in
  let* (r, strongest) := hint_bits_loop members 0 false LockTupleKeyShare in
  let bits :=
    Z.lor HEAP_XMAX_IS_MULTI
      (match strongest with
       | LockTupleExclusive | LockTupleNoKeyExclusive => HEAP_XMAX_EXCL_LOCK
       | LockTupleShare => HEAP_XMAX_SHR_LOCK
       | LockTupleKeyShare => HEAP_XMAX_KEYSHR_LOCK
       end) in
  Ret (if r.2 then bits else Z.lor bits HEAP_XMAX_LOCK_ONLY, r.1).

(** ** The new xmax *)

(** The new xmax, its flag words, and the MultiXacts afterwards. *)
Definition NewXmax : Type := TransactionId * Z * Z * MultiView.

(** The branch for a tuple nobody holds. *)
Definition sole_holder (add_to_xmax : TransactionId) (mode : LockTupleMode) (is_update : bool)
  : TransactionId * Z * Z :=
  if is_update then
    (add_to_xmax, 0, if decide (mode = LockTupleExclusive) then HEAP_KEYS_UPDATED else 0)
  else
    match mode with
    | LockTupleKeyShare => (add_to_xmax, Z.lor HEAP_XMAX_LOCK_ONLY HEAP_XMAX_KEYSHR_LOCK, 0)
    | LockTupleShare => (add_to_xmax, Z.lor HEAP_XMAX_LOCK_ONLY HEAP_XMAX_SHR_LOCK, 0)
    | LockTupleNoKeyExclusive => (add_to_xmax, Z.lor HEAP_XMAX_LOCK_ONLY HEAP_XMAX_EXCL_LOCK, 0)
    | LockTupleExclusive => (add_to_xmax, Z.lor HEAP_XMAX_LOCK_ONLY HEAP_XMAX_EXCL_LOCK, HEAP_KEYS_UPDATED)
    end.

Definition with_hint_bits (multi : cres (MultiXactId * MultiView)) : cres NewXmax :=
  let* (new_xmax, view) := multi in
  let* bits := GetMultiXactIdHintBits view new_xmax in
  Ret (new_xmax, bits.1, bits.2, view).

(** A committed updater is kept, beside the new holder. *)
Definition keep_updater (xmax : TransactionId) (old_infomask2 : Z) (add_to_xmax : TransactionId)
    (mode : LockTupleMode) (is_update : bool) : cres NewXmax :=
  let status := if has old_infomask2 HEAP_KEYS_UPDATED then MultiXactStatusUpdate else MultiXactStatusNoKeyUpdate in
  let* new_status := get_mxact_status_for_lock mode is_update in
  with_hint_bits (store_MultiXactIdCreate xmax status add_to_xmax new_status).

(** The status of a single holder, [None] for LOCK_ONLY without a lock bit. *)
Definition single_status (infomask infomask2 : Z) : option Z :=
  if HEAP_XMAX_IS_LOCKED_ONLY infomask then
    if HEAP_XMAX_IS_KEYSHR_LOCKED infomask then Some MultiXactStatusForKeyShare
    else if HEAP_XMAX_IS_SHR_LOCKED infomask then Some MultiXactStatusForShare
    else if HEAP_XMAX_IS_EXCL_LOCKED infomask then
      Some (if has infomask2 HEAP_KEYS_UPDATED then MultiXactStatusForUpdate else MultiXactStatusForNoKeyUpdate)
    else None
  else Some (if has infomask2 HEAP_KEYS_UPDATED then MultiXactStatusUpdate else MultiXactStatusNoKeyUpdate).

(** [l5:] to the end, where [l5] is what [goto l5] does. *)
Definition compute_round (l5 : Z -> LockTupleMode -> cres NewXmax) (xmax : TransactionId)
    (old_infomask old_infomask2 : Z) (add_to_xmax : TransactionId) (mode : LockTupleMode) (is_update : bool)
  : cres NewXmax :=
  if has old_infomask HEAP_XMAX_INVALID then Ret (sole_holder add_to_xmax mode is_update, current_view)
  else if has old_infomask HEAP_XMAX_IS_MULTI then
    c_assert (negb (has old_infomask HEAP_XMAX_COMMITTED)) ;;
    let unheld := Z.lor (clear_bits old_infomask HEAP_XMAX_IS_MULTI) HEAP_XMAX_INVALID in
    if HEAP_LOCKED_UPGRADED old_infomask then l5 unheld mode
    else
      let* running := MultiXactIdIsRunning xmax (HEAP_XMAX_IS_LOCKED_ONLY old_infomask) in
      let* obsolete :=
        (if running then Ret false
         else if HEAP_XMAX_IS_LOCKED_ONLY old_infomask then Ret true
         else let* updater := MultiXactIdGetUpdateXid xmax old_infomask in Ret (negb (xact_did_commit updater))) in
      if obsolete then l5 unheld mode
      else
        let* new_status := get_mxact_status_for_lock mode is_update in
        with_hint_bits (MultiXactIdExpand xmax add_to_xmax new_status)
  else if has old_infomask HEAP_XMAX_COMMITTED then keep_updater xmax old_infomask2 add_to_xmax mode is_update
  else if xact_in_progress xmax then
    match single_status old_infomask old_infomask2 with
    | None => l5 (clear_bits (Z.lor old_infomask HEAP_XMAX_INVALID) HEAP_XMAX_LOCK_ONLY) mode
    | Some old_status =>
        let* old_mode := TUPLOCK_from_mxstatus old_status in
        if xmax =? add_to_xmax then
          c_assert (HEAP_XMAX_IS_LOCKED_ONLY old_infomask) ;;
          l5 (Z.lor old_infomask HEAP_XMAX_INVALID) (if lock_level mode <? lock_level old_mode then old_mode else mode)
        else
          let* new_status := get_mxact_status_for_lock mode is_update in
          with_hint_bits (store_MultiXactIdCreate xmax old_status add_to_xmax new_status)
    end
  else if negb (HEAP_XMAX_IS_LOCKED_ONLY old_infomask) && xact_did_commit xmax
  then keep_updater xmax old_infomask2 add_to_xmax mode is_update
  else l5 (Z.lor old_infomask HEAP_XMAX_INVALID) mode.

(** Every [goto l5] comes with HEAP_XMAX_INVALID, so there are at most two rounds. *)
Fixpoint compute_l5 (rounds : nat) (xmax : TransactionId) (old_infomask old_infomask2 : Z)
    (add_to_xmax : TransactionId) (mode : LockTupleMode) (is_update : bool) : cres NewXmax :=
  match rounds with
  | O => Undef
  | S rounds =>
      compute_round (fun old_infomask mode => compute_l5 rounds xmax old_infomask old_infomask2 add_to_xmax mode is_update)
        xmax old_infomask old_infomask2 add_to_xmax mode is_update
  end.

Definition compute_new_xmax_infomask (xmax : TransactionId) (old_infomask old_infomask2 : Z)
    (add_to_xmax : TransactionId) (mode : LockTupleMode) (is_update : bool) : cres NewXmax :=
  c_assert (xact_current add_to_xmax) ;;
  compute_l5 2 xmax old_infomask old_infomask2 add_to_xmax mode is_update.

(** ** Conflicts *)

Fixpoint conflict_loop (members : list MultiXactMember) (wanted : Z) : cres bool :=
  match members with
  | [] => Ret false
  | m :: members =>
      let* memlockmode := LOCKMODE_from_mxstatus (mx_status m) in
      let* conflict := DoLockModesConflict memlockmode wanted in
      if negb conflict then conflict_loop members wanted
      else if xact_current (mx_xid m) then conflict_loop members wanted
      else if (if ISUPDATE_from_mxstatus (mx_status m) then xact_did_abort (mx_xid m)
               else negb (xact_in_progress (mx_xid m)))
      then conflict_loop members wanted
      else Ret true
  end.

Definition DoesMultiXactIdConflict (multi : MultiXactId) (infomask : Z) (lockmode : LockTupleMode) : cres bool :=
  let wanted := hwlock (tupleLockExtraInfo lockmode) in
  if HEAP_LOCKED_UPGRADED infomask then Ret false
  else let* members := multi_members multi false (HEAP_XMAX_IS_LOCKED_ONLY infomask) in
       conflict_loop members wanted.

(** ** Stamping *)

Definition UpdateXmaxHintBits (tuple : HeapTupleHeader) (buffer : Z) (xid : TransactionId) : cres HeapTupleHeader :=
  c_assert (TransactionIdEquals (HeapTupleHeaderGetRawXmax tuple) xid) ;;
  c_assert (negb (has (t_infomask tuple) HEAP_XMAX_IS_MULTI)) ;;
  if negb (has (t_infomask tuple) (Z.lor HEAP_XMAX_COMMITTED HEAP_XMAX_INVALID)) then
    if negb (HEAP_XMAX_IS_LOCKED_ONLY (t_infomask tuple)) && xact_did_commit xid
    then Ret (HeapTupleSetHintBits tuple buffer HEAP_XMAX_COMMITTED xid)
    else Ret (HeapTupleSetHintBits tuple buffer HEAP_XMAX_INVALID InvalidTransactionId)
  else Ret tuple.

(** The command id to store, whether it is a combo id, and the combo ids
    afterwards. *)
Definition HeapTupleHeaderAdjustCmax (tup : HeapTupleHeader) (cmax : CommandId) : cres (CommandId * bool * ComboState) :=
  if negb (HeapTupleHeaderXminCommitted tup) && xact_current (HeapTupleHeaderGetRawXmin tup) then
    let* cmin := HeapTupleHeaderGetCmin tup in
    let* (combo, st) := GetComboCommandId combo_state cmin cmax in
    Ret (combo, true, st)
  else Ret (cmax, false, combo_state).

Definition HeapTupleHeaderSetCmax (tup : HeapTupleHeader) (cid : CommandId) (iscombo : bool) : cres HeapTupleHeader :=
  c_assert (negb (has (t_infomask tup) HEAP_MOVED)) ;;
  Ret {| t_xmin := t_xmin tup; t_xmax := t_xmax tup; t_field3 := cid; t_ctid := t_ctid tup;
         t_infomask := if iscombo then Z.lor (t_infomask tup) HEAP_COMBOCID
                       else clear_bits (t_infomask tup) HEAP_COMBOCID |}.

(** A tuple with both flag words. *)
Record LockedTuple := { lt_data : HeapTupleHeader; lt_infomask2 : Z }.

(** "Store transaction information of xact deleting the tuple". *)
Definition stamp_delete (tp : HeapTuple) (infomask2 : Z) (new_xmax : TransactionId) (new_infomask new_infomask2 : Z)
    (cid : CommandId) (iscombo : bool) : cres LockedTuple :=
  let h := t_data tp in
  let mask := Z.lor (clear_bits (t_infomask h) (Z.lor HEAP_XMAX_BITS HEAP_MOVED)) new_infomask in
  let mask2 := clear_bits (Z.lor (clear_bits infomask2 HEAP_KEYS_UPDATED) new_infomask2) HEAP_HOT_UPDATED in
  let h := {| t_xmin := t_xmin h; t_xmax := new_xmax; t_field3 := t_field3 h; t_ctid := t_ctid h; t_infomask := mask |} in
  let* h := HeapTupleHeaderSetCmax h cid iscombo in
  Ret {| lt_data := {| t_xmin := t_xmin h; t_xmax := t_xmax h; t_field3 := t_field3 h; t_ctid := t_self tp;
                       t_infomask := t_infomask h |};
         lt_infomask2 := mask2 |}.
End RowLock.
