(* ===== verification/RowLockProofs.v ===== *)
(** What [compute_new_xmax_infomask] does to the holders of a tuple. *)
From stdpp Require Import list.
From S2P Require Import Prelude Transam HeapTuple Combocid Tqual TqualSpec MultiXact MultiXactProofs MultiXactLog LockModes RowLock.

(** ** Lock strength *)

Definition status_mode (status : Z) : LockTupleMode :=
  if status =? MultiXactStatusForKeyShare then LockTupleKeyShare
  else if status =? MultiXactStatusForShare then LockTupleShare
  else if (status =? MultiXactStatusForNoKeyUpdate) || (status =? MultiXactStatusNoKeyUpdate) then LockTupleNoKeyExclusive
  else LockTupleExclusive.

Definition status_range (status : Z) : Prop := 0 <= status <= MultiXactStatusUpdate.

Lemma status_cases status : status_range status ->
  status = 0 \/ status = 1 \/ status = 2 \/ status = 3 \/ status = 4 \/ status = 5.
Proof. unfold status_range, MultiXactStatusUpdate. lia. Qed.

Ltac each_status H :=
  let H' := fresh in
  pose proof (status_cases _ H) as H'; destruct H' as [->|[->|[->|[->|[->| ->]]]]].

(** Decides comparisons of constants. *)
Ltac compute_tests :=
  repeat match goal with
  | |- context [Z.eqb ?a ?b] => let v := eval vm_compute in (Z.eqb a b) in
      match v with true => idtac | false => idtac end; change (Z.eqb a b) with v
  | |- context [ISUPDATE_from_mxstatus ?a] => let v := eval vm_compute in (ISUPDATE_from_mxstatus a) in
      match v with true => idtac | false => idtac end; change (ISUPDATE_from_mxstatus a) with v
  end.

Lemma tuplock_mode status : status_range status -> TUPLOCK_from_mxstatus status = Ret (status_mode status).
Proof. intros Hs. by each_status Hs. Qed.

Lemma status_for_lock mode is_update :
  (is_update = true -> lock_level LockTupleNoKeyExclusive <= lock_level mode) ->
  exists status, get_mxact_status_for_lock mode is_update = Ret status /\ status_range status /\
    status_mode status = mode /\ ISUPDATE_from_mxstatus status = is_update.
Proof.
  intros Hu. destruct is_update.
  - specialize (Hu eq_refl). destruct mode; cbn in Hu; try lia; eexists; (split; [done|]); done.
  - destruct mode; eexists; (split; [done|]); done.
Qed.

(** ** The holders of a tuple *)

Definition updates_keys (m : MultiXactMember) : bool :=
  (mx_status m =? MultiXactStatusForUpdate) || (mx_status m =? MultiXactStatusUpdate).
Definition is_updater (m : MultiXactMember) : bool := ISUPDATE_from_mxstatus (mx_status m).

Definition holders (members : MultiView) (xmax : TransactionId)
    (infomask infomask2 : Z) : cres (list MultiXactMember) :=
  if Z.testbit infomask 11 then Ret []
  else if Z.testbit infomask 12 then if HEAP_LOCKED_UPGRADED infomask then Ret [] else members xmax
  else match single_status infomask infomask2 with
       | Some status => Ret [{| mx_xid := xmax; mx_status := status |}]
       | None => Ret []
       end.

(** The flag words say of the holders what others rely on without looking them
    up: whether one of them updates the tuple, and whether the key columns are
    affected; and they carry no hint about the outcome. *)
Record flags_describe (infomask infomask2 : Z) (l : list MultiXactMember) : Prop := {
  flags_locked_only : HEAP_XMAX_IS_LOCKED_ONLY infomask = negb (existsb is_updater l);
  flags_keys : has infomask2 HEAP_KEYS_UPDATED = existsb updates_keys l;
  flags_no_hint : Z.testbit infomask 10 = false /\ Z.testbit infomask 11 = false
}.

(** Only flags about xmax are set. *)
Definition xmax_flags (mask mask2 : Z) : Prop := Z.ldiff mask HEAP_XMAX_BITS = 0 /\ Z.ldiff mask2 HEAP_KEYS_UPDATED = 0.

(** ** Hint bits of a MultiXact *)

Lemma hint_bits_loop_spec l : forall bits2 upd strongest,
  Forall (fun m => status_range (mx_status m)) l ->
  exists mode, hint_bits_loop l bits2 upd strongest =
    Ret (if existsb updates_keys l then Z.lor bits2 HEAP_KEYS_UPDATED else bits2, upd || existsb is_updater l, mode).
Proof.
  induction l as [|m l IH]; intros bits2 upd strongest Hl.
  - exists strongest. cbn. by rewrite orb_false_r.
  - apply Forall_cons in Hl as [Hm Hl]. cbn [hint_bits_loop existsb]. rewrite tuplock_mode by done. cbn [cbind].
    unfold updates_keys at 1, is_updater at 1.
    set (strongest' := if _ <? _ then _ else _). clearbody strongest'.
    each_status Hm; compute_tests; cbn [orb];
      match goal with |- exists mode, hint_bits_loop l ?b ?u ?s = _ => destruct (IH b u s Hl) as [mode ->] end;
      exists mode; cbn [orb]; rewrite ?orb_true_r, <- ?Z.lor_assoc, ?Z.lor_diag; try done;
      by destruct (existsb updates_keys l).
Qed.

(** What multixact.c promises here ([RowLockTheorems.v] shows that it keeps it). *)
Class MultiStoreLaws `{MultiStore} : Prop := {
  created_new : forall l multi view, Forall member_ok l -> zlen l < 2 ^ 31 - 2 -> multi_create l = Ret (multi, view) ->
    (length (updaters l) <= 1)%nat /\ exists l', view multi = Ret l' /\ l' ≡ₚ l;
  create_total : forall l, Forall member_ok l -> zlen l < 2 ^ 31 - 2 -> multi_create l <> Undef;
  oldest_set : OldestMember_set = true
}.

Lemma existsb_perm {A} (f : A -> bool) l l' : l ≡ₚ l' -> existsb f l = existsb f l'.
Proof.
  intros Hp. apply eq_true_iff_eq. rewrite !existsb_exists.
  split; intros (x & Hx & E); exists x; (split; [|done]);
    apply list_elem_of_In; apply list_elem_of_In in Hx; [by rewrite <- Hp|by rewrite Hp].
Qed.

Section Holders.
Context `{SharedXacts} `{Backend} `{MultiStore} `{!MultiStoreLaws}.

(** The flags for a MultiXact, whatever its strongest lock. *)
Lemma multi_flags_spec mode (upd : bool) :
  let bits := Z.lor HEAP_XMAX_IS_MULTI
      (match mode with
       | LockTupleExclusive | LockTupleNoKeyExclusive => HEAP_XMAX_EXCL_LOCK
       | LockTupleShare => HEAP_XMAX_SHR_LOCK
       | LockTupleKeyShare => HEAP_XMAX_KEYSHR_LOCK
       end) in
  let mask := if upd then bits else Z.lor bits HEAP_XMAX_LOCK_ONLY in
  HEAP_XMAX_IS_LOCKED_ONLY mask = negb upd /\ HEAP_LOCKED_UPGRADED mask = false /\
  Z.testbit mask 10 = false /\ Z.testbit mask 11 = false /\ Z.testbit mask 12 = true /\
  Z.ldiff mask HEAP_XMAX_BITS = 0.
Proof. by destruct mode, upd. Qed.

Lemma hint_bits_describe (view : MultiView) multi l :
  view multi = Ret l -> Forall member_ok l ->
  exists mask mask2, GetMultiXactIdHintBits view multi = Ret (mask, mask2) /\
    holders view multi mask mask2 = Ret l /\ flags_describe mask mask2 l /\ xmax_flags mask mask2.
Proof.
  intros El Hl. unfold GetMultiXactIdHintBits. rewrite El. cbn [cbind].
  destruct (hint_bits_loop_spec l 0 false LockTupleKeyShare) as [mode ->].
  { apply (Forall_impl _ _ _ Hl). by intros m [_ ?]. }
  cbn [cbind fst snd orb]. eexists _, _. split; [done|].
  destruct (multi_flags_spec mode (existsb is_updater l)) as (E1 & E2 & E3 & E4 & E5 & E6). cbn zeta in *. split_and!.
  - unfold holders. by rewrite E4, E5, E2.
  - constructor; [done| |done]. by destruct (existsb updates_keys l).
  - split; [done|]. by destruct (existsb updates_keys l).
Qed.

(** A single holder. *)
Lemma sole_holder_spec add mode is_update :
  (is_update = true -> lock_level LockTupleNoKeyExclusive <= lock_level mode) ->
  exists status mask mask2, sole_holder add mode is_update = (add, mask, mask2) /\
    status_range status /\ status_mode status = mode /\ ISUPDATE_from_mxstatus status = is_update /\
    holders current_view add mask mask2 = Ret [{| mx_xid := add; mx_status := status |}] /\
    flags_describe mask mask2 [{| mx_xid := add; mx_status := status |}] /\ xmax_flags mask mask2.
Proof.
  intros Hu. destruct (status_for_lock mode is_update Hu) as (status & Es & Hs & Hm & Hi). exists status.
  unfold get_mxact_status_for_lock in Es.
  destruct is_update; [specialize (Hu eq_refl)|]; destruct mode; cbn in Hu; try lia; vm_compute in Es; injection Es as <-;
    eexists _, _; (split; [done|]); split_and!; done.
Qed.

(** *** What has to hold beforehand *)

(** A MultiXact as the heap keeps it in an xmax: its members can be read, at most
    one updates, and the flags say whether one does. *)
Definition multi_xmax_ok (xmax : TransactionId) (infomask : Z) : Prop :=
  Z.testbit infomask 11 = false -> Z.testbit infomask 12 = true ->
  Z.testbit infomask 10 = false /\
  (HEAP_LOCKED_UPGRADED infomask = false -> xmax <> 0 /\
   exists l, multi_members xmax false false = Ret l /\ Forall member_ok l /\ zlen l < 2 ^ 31 - 3 /\
     (length (updaters l) <= 1)%nat /\
     HEAP_XMAX_IS_LOCKED_ONLY infomask = negb (existsb is_updater l) /\
     (HEAP_XMAX_IS_LOCKED_ONLY infomask = true ->
      multi_members xmax false true = Ret l \/
      (multi_members xmax false true = Ret [] /\
       forall m, m ∈ l -> xact_in_progress (mx_xid m) = false))).

(** The xmax of a tuple, with its flags, as the heap keeps it; [add] is the
    transaction to be added. *)
Record xmax_ok (xmax : TransactionId) (infomask : Z) (add : TransactionId) : Prop := {
  xok_multi : multi_xmax_ok xmax infomask;
  xok_single : Z.testbit infomask 11 = false -> Z.testbit infomask 12 = false ->
    TransactionIdIsValid xmax = true /\
    (Z.testbit infomask 10 = true -> HEAP_XMAX_IS_LOCKED_ONLY infomask = false /\ xmax <> add) /\
    (Z.testbit infomask 10 = false -> xmax = add -> HEAP_XMAX_IS_LOCKED_ONLY infomask = true)
}.

(** *** What holds afterwards *)

(** [add] holds the tuple at least as strongly as asked. *)
Definition now_held (l : list MultiXactMember) (add : TransactionId) (mode : LockTupleMode) (is_update : bool) : Prop :=
  exists status, {| mx_xid := add; mx_status := status |} ∈ l /\ status_range status /\
    lock_level mode <= lock_level (status_mode status) /\ ISUPDATE_from_mxstatus status = is_update.

(** A holder stays, or gives way to a stronger lock of the same transaction. *)
Definition kept (l : list MultiXactMember) (add : TransactionId) (m : MultiXactMember) : Prop :=
  m ∈ l \/ (mx_xid m = add /\ is_updater m = false /\
            exists status, {| mx_xid := add; mx_status := status |} ∈ l /\
              lock_level (status_mode (mx_status m)) <= lock_level (status_mode status)).

Record holders_step (old new : list MultiXactMember) (add : TransactionId) (mode : LockTupleMode)
    (is_update : bool) : Prop := {
  hs_held : now_held new add mode is_update;
  hs_kept : forall m, m ∈ old -> still_of_interest m = true -> kept new add m;
  hs_only : forall m, m ∈ new -> m ∈ old \/ mx_xid m = add;
  hs_single : (length (updaters new) <= 1)%nat
}.

Definition new_holders_ok (old : list MultiXactMember) (add : TransactionId) (mode : LockTupleMode) (is_update : bool)
    (r : cres NewXmax) : Prop :=
  match r with
  | Ret (xmax, mask, mask2, view) => exists new,
      holders view xmax mask mask2 = Ret new /\ flags_describe mask mask2 new /\ xmax_flags mask mask2 /\
      holders_step old new add mode is_update
  | Elog e => exists l, multi_create l = Elog e
  | Undef => False
  end.

(** Nobody of interest holds the tuple. *)
Lemma sole_holder_ok old add mode mode' is_update :
  (is_update = true -> lock_level LockTupleNoKeyExclusive <= lock_level mode') ->
  lock_level mode <= lock_level mode' ->
  (forall m, m ∈ old -> still_of_interest m = true ->
     mx_xid m = add /\ is_updater m = false /\ lock_level (status_mode (mx_status m)) <= lock_level mode') ->
  new_holders_ok old add mode is_update (Ret (sole_holder add mode' is_update, current_view)).
Proof.
  intros Hu Hle Hold. destruct (sole_holder_spec add mode' is_update Hu) as (status & mask & mask2 & -> & Hs & Hm & Hi & Hh & Hf & Hfl).
  eexists. do 3 (split; [done|]). constructor.
  - exists status. rewrite Hm. split_and!; [left|done..|done].
  - intros m Hin Hint. right. destruct (Hold m Hin Hint) as (? & ? & ?). split_and!; [done..|].
    exists status. rewrite Hm. split; [left|done].
  - intros m ->%list_elem_of_singleton. by right.
  - etransitivity; [apply length_filter|done].
Qed.

(** A MultiXact of the holders of interest and the new one. *)
Lemma create_holders_ok old l add status mode is_update :
  Forall member_ok (l ++ [{| mx_xid := add; mx_status := status |}]) -> zlen l < 2 ^ 31 - 3 ->
  status_mode status = mode -> ISUPDATE_from_mxstatus status = is_update ->
  (forall m, m ∈ old -> still_of_interest m = true -> m ∈ l) -> (forall m, m ∈ l -> m ∈ old) ->
  new_holders_ok old add mode is_update
    (with_hint_bits (multi_create (l ++ [{| mx_xid := add; mx_status := status |}]))).
Proof.
  intros Hl Hlen Hm Hi Hkeep Hsub. unfold with_hint_bits. set (l' := l ++ _) in *.
  assert (zlen l' < 2 ^ 31 - 2) as Hlen' by (unfold l', zlen in *; rewrite length_app; cbn [length]; lia).
  destruct (multi_create l') as [[multi view]|e|] eqn:Ec; cbn [cbind]; [|by exists l'|by apply (create_total l' Hl)].
  destruct (created_new l' multi view Hl Hlen' Ec) as (Hone & new & En & Hp).
  destruct (hint_bits_describe view multi new En) as (mask & mask2 & -> & Hh & Hf & Hfl); [by rewrite Hp|].
  cbn [cbind fst snd]. exists new. do 3 (split; [done|]).
  assert ({| mx_xid := add; mx_status := status |} ∈ new) as Hin by (rewrite Hp; apply elem_of_app; right; left).
  constructor.
  - exists status. split_and!; [done| |by rewrite Hm|done].
    by apply Forall_app in Hl as [_ [[_ ?] _]%Forall_cons].
  - intros m Hmo Hint. left. rewrite Hp. apply elem_of_app. left. by apply Hkeep.
  - intros m. rewrite Hp. intros [?|Hx]%elem_of_app; [left; by apply Hsub|right].
    by apply list_elem_of_singleton in Hx as ->.
  - unfold updaters in *. by rewrite Hp.
Qed.

(** ** The branches *)

Lemma single_status_range mask mask2 status : single_status mask mask2 = Some status ->
  status_range status /\ ISUPDATE_from_mxstatus status = negb (HEAP_XMAX_IS_LOCKED_ONLY mask).
Proof.
  unfold single_status. destruct (HEAP_XMAX_IS_LOCKED_ONLY mask).
  - destruct (HEAP_XMAX_IS_KEYSHR_LOCKED mask); [by intros [= <-]|].
    destruct (HEAP_XMAX_IS_SHR_LOCKED mask); [by intros [= <-]|].
    destruct (HEAP_XMAX_IS_EXCL_LOCKED mask); [|done]. destruct (has mask2 HEAP_KEYS_UPDATED); by intros [= <-].
  - destruct (has mask2 HEAP_KEYS_UPDATED); by intros [= <-].
Qed.

Lemma has_invalid_unheld mask : has (Z.lor (clear_bits mask HEAP_XMAX_IS_MULTI) HEAP_XMAX_INVALID) HEAP_XMAX_INVALID = true.
Proof. rewrite has_xmax_invalid, Z.lor_spec. by rewrite orb_true_r. Qed.

Lemma has_invalid_or mask : has (Z.lor mask HEAP_XMAX_INVALID) HEAP_XMAX_INVALID = true.
Proof. rewrite has_xmax_invalid, Z.lor_spec. by rewrite orb_true_r. Qed.

Lemma has_invalid_cleared mask :
  has (clear_bits (Z.lor mask HEAP_XMAX_INVALID) HEAP_XMAX_LOCK_ONLY) HEAP_XMAX_INVALID = true.
Proof. unfold clear_bits. rewrite has_xmax_invalid, Z.ldiff_spec, Z.lor_spec. by rewrite orb_true_r. Qed.

Section Branches.
Context (xmax : TransactionId) (mask mask2 : Z) (add : TransactionId) (mode : LockTupleMode) (is_update : bool).
Context (Hlaws : BackendLaws) (Hok : xmax_ok xmax mask add).
Context (Hcur : xact_current add = true) (Hadd : TransactionIdIsValid add = true).
Context (Hmode : is_update = true -> lock_level LockTupleNoKeyExclusive <= lock_level mode).

Lemma add_valid status : status_range status -> member_ok {| mx_xid := add; mx_status := status |}.
Proof.
  intros Hs. split; [|done]. cbn. unfold TransactionIdIsValid in Hadd. by destruct (Z.eqb_spec add InvalidTransactionId).
Qed.

(** Creating a MultiXact of one old holder and the new one. *)
Lemma create_two_ok old_status old :
  TransactionIdIsValid xmax = true -> status_range old_status -> xmax <> add ->
  old = [{| mx_xid := xmax; mx_status := old_status |}] ->
  new_holders_ok old add mode is_update
    (let* new_status := get_mxact_status_for_lock mode is_update in
     with_hint_bits (store_MultiXactIdCreate xmax old_status add new_status)).
Proof.
  intros Hv Hos Hne ->. destruct (status_for_lock mode is_update Hmode) as (status & -> & Hs & Hm & Hi). cbn [cbind].
  unfold store_MultiXactIdCreate. rewrite Hv, Hadd, oldest_set. unfold TransactionIdEquals.
  destruct (Z.eqb_spec xmax add); [done|]. cbn [c_assert cbind negb orb].
  apply (create_holders_ok _ [{| mx_xid := xmax; mx_status := old_status |}] add status); try done.
  constructor; [|by constructor; [apply add_valid|]].
  split; [|done]. cbn. unfold TransactionIdIsValid in Hv. by destruct (Z.eqb_spec xmax InvalidTransactionId).
Qed.

Lemma keep_updater_ok old :
  Z.testbit mask 11 = false -> Z.testbit mask 12 = false -> HEAP_XMAX_IS_LOCKED_ONLY mask = false -> xmax <> add ->
  holders current_view xmax mask mask2 = Ret old ->
  new_holders_ok old add mode is_update (keep_updater xmax mask2 add mode is_update).
Proof.
  intros E11 E12 El Hne. destruct (xok_single _ _ _ Hok E11 E12) as (Hv & _).
  unfold holders. rewrite E11, E12. unfold single_status. rewrite El. intros [= <-].
  unfold keep_updater. apply create_two_ok; try done. by destruct (has mask2 HEAP_KEYS_UPDATED).
Qed.

(** A MultiXact that holds no one of interest is done away with, otherwise it is
    expanded. *)
Lemma expand_ok l :
  xmax <> 0 -> multi_members xmax false false = Ret l -> Forall member_ok l -> zlen l < 2 ^ 31 - 3 ->
  (length (updaters l) <= 1)%nat ->
  new_holders_ok l add mode is_update
    (let* new_status := get_mxact_status_for_lock mode is_update in
     with_hint_bits (MultiXactIdExpand xmax add new_status)).
Proof.
  intros Hx El Hl Hlen Hone. destruct (status_for_lock mode is_update Hmode) as (status & -> & Hs & Hm & Hi). cbn [cbind].
  unfold MultiXactIdExpand. destruct (Z.eqb_spec xmax 0); [done|]. rewrite Hadd, oldest_set. unfold current_view at 1. rewrite El. cbn [c_assert negb cbind].
  destruct (existsb _ l) eqn:Ex.
  - apply existsb_exists in Ex as ([x st] & Hin & Heq). apply list_elem_of_In in Hin.
    unfold TransactionIdEquals in Heq. cbn in Heq. apply andb_true_iff in Heq as [->%Z.eqb_eq ->%Z.eqb_eq].
    unfold with_hint_bits. cbn [cbind].
    destruct (hint_bits_describe current_view xmax l El) as (mk & mk2 & -> & Hh & Hf & Hfl); [done|]. cbn [cbind fst snd].
    exists l. do 3 (split; [done|]). constructor.
    + exists status. split_and!; [done|done|by rewrite Hm|done].
    + intros m Hmo _. by left.
    + intros m. by left.
    + done.
  - apply create_holders_ok; try done.
    + apply Forall_app. split; [|by constructor; [apply add_valid|]].
      apply Forall_forall. intros m [_ Hmo]%list_elem_of_filter. by apply (proj1 (Forall_forall _ _) Hl).
    + unfold zlen in *. pose proof (length_filter (fun m => still_of_interest m = true) l). lia.
    + intros m Hmo Hint. by apply list_elem_of_filter.
    + by intros m [_ ?]%list_elem_of_filter.
Qed.
End Branches.
End Holders.

(** ** The updater of a MultiXact *)

Lemma update_loop_none u l : (forall m, m ∈ l -> is_updater m = false) -> update_xact_loop u l = Ret u.
Proof.
  induction l as [|m l IH]; intros Hno; [done|]. cbn [update_xact_loop].
  pose proof (Hno m ltac:(left)) as Hm. unfold is_updater in Hm. rewrite Hm. cbn [negb].
  apply IH. intros m' Hin. apply Hno. by right.
Qed.

Lemma update_loop_found l : (length (updaters l) <= 1)%nat ->
  exists v, update_xact_loop InvalidTransactionId l = Ret v /\ forall m, m ∈ l -> is_updater m = true -> mx_xid m = v.
Proof.
  induction l as [|m l IH]; intros Hlen; cbn [update_xact_loop].
  - eexists. split; [done|]. by intros m ?%not_elem_of_nil.
  - unfold updaters in Hlen. rewrite filter_cons in Hlen. fold (updaters l) in Hlen.
    destruct (ISUPDATE_from_mxstatus (mx_status m)) eqn:Ei; cbn [negb].
    + rewrite decide_True in Hlen by done. cbn [length] in Hlen.
      assert (forall m', m' ∈ l -> is_updater m' = false) as Hno.
      { intros m1 Hm1. destruct (is_updater m1) eqn:E; [|done].
        assert (m1 ∈ updaters l) as Hf by (apply list_elem_of_filter; by split).
        destruct (updaters l); [by apply not_elem_of_nil in Hf|cbn in Hlen; lia]. }
      change (InvalidTransactionId =? InvalidTransactionId) with true. cbn [c_assert cbind].
      rewrite update_loop_none by done. eexists. split; [done|].
      intros m' [->|Hin]%elem_of_cons Hu; [done|]. rewrite (Hno m' Hin) in Hu. done.
    + rewrite decide_False in Hlen by congruence. destruct (IH Hlen) as (v & -> & Hv). exists v. split; [done|].
      intros m' [->|Hin]%elem_of_cons Hu; [|by apply Hv]. unfold is_updater in Hu. congruence.
Qed.

(** ** Running MultiXacts *)

(** [MultiXactIdIsRunning] is asked about lockers only where there are only
    lockers, so it misses none that runs. *)
Lemma running_spec `{SharedXacts} `{Backend} xmax mask l :
  multi_xmax_ok xmax mask ->
  Z.testbit mask 11 = false -> Z.testbit mask 12 = true -> HEAP_LOCKED_UPGRADED mask = false ->
  multi_members xmax false false = Ret l ->
  exists b, MultiXactIdIsRunning xmax (HEAP_XMAX_IS_LOCKED_ONLY mask) = Ret b /\
    (b = false -> forall m, m ∈ l -> xact_in_progress (mx_xid m) = false).
Proof.
  intros Hok E11 E12 Eup El. destruct (Hok E11 E12) as [_ Hm]. destruct (Hm Eup) as (_ & l' & El' & _ & _ & _ & _ & Hl).
  rewrite El in El'. injection El' as <-.
  assert (exists l2, multi_members xmax false (HEAP_XMAX_IS_LOCKED_ONLY mask) = Ret l2 /\
    (l2 = l \/ (l2 = [] /\ forall m, m ∈ l -> xact_in_progress (mx_xid m) = false))) as (l2 & E2 & Hl2).
  { destruct (HEAP_XMAX_IS_LOCKED_ONLY mask); [|by eauto]. destruct (Hl eq_refl) as [?|[? ?]]; eauto. }
  unfold MultiXactIdIsRunning. rewrite E2. cbn [cbind].
  destruct (Z.leb_spec (zlen l2) 0) as [Hz|_].
  - exists false. split; [done|]. intros _. destruct Hl2 as [->|[_ ?]]; [|done].
    destruct l; [by intros m ?%not_elem_of_nil|unfold zlen in Hz; cbn in Hz; lia].
  - destruct (existsb (fun m => xact_current (mx_xid m)) l2); [by exists true|].
    eexists. split; [done|]. intros Ef. destruct Hl2 as [->|[_ ?]]; [|done]. intros m Hin.
    destruct (xact_in_progress (mx_xid m)) eqn:Ep; [|done]. rewrite <- Ef. symmetry. apply existsb_exists.
    exists m. split; [by apply list_elem_of_In|done].
Qed.

Section Compute.
Context `{SharedXacts} `{Backend} `{MultiStore} `{!MultiStoreLaws} (Hlaws : BackendLaws).
Context (xmax : TransactionId) (mask mask2 : Z) (add : TransactionId) (Hok : xmax_ok xmax mask add).

Context (mode : LockTupleMode) (is_update : bool) (old : list MultiXactMember).
Context (Hcur : xact_current add = true) (Hadd : TransactionIdIsValid add = true).
Context (Hmode : is_update = true -> lock_level LockTupleNoKeyExclusive <= lock_level mode).
Context (Hold : holders current_view xmax mask mask2 = Ret old).

(** The second round, after [goto l5]. *)
Lemma second_round unheld mode' :
  has unheld HEAP_XMAX_INVALID = true -> lock_level mode <= lock_level mode' ->
  (forall m, m ∈ old -> still_of_interest m = true ->
     mx_xid m = add /\ is_updater m = false /\ lock_level (status_mode (mx_status m)) <= lock_level mode') ->
  new_holders_ok old add mode is_update (compute_l5 1 xmax unheld mask2 add mode' is_update).
Proof. intros Eu Hle Hno. cbn [compute_l5]. unfold compute_round. rewrite Eu. apply sole_holder_ok; [|done|done]. intros Hu. specialize (Hmode Hu). lia. Qed.

Lemma compute_l5_two :
  compute_l5 2 xmax mask mask2 add mode is_update =
  compute_round (fun m md => compute_l5 1 xmax m mask2 add md is_update) xmax mask mask2 add mode is_update.
Proof. done. Qed.

Lemma multi_branch :
  Z.testbit mask 11 = false -> Z.testbit mask 12 = true ->
  new_holders_ok old add mode is_update (compute_l5 2 xmax mask mask2 add mode is_update).
Proof.
  intros E11 E12. rewrite compute_l5_two. unfold compute_round. rewrite has_xmax_invalid, E11, has_multi, E12, has_xmax_committed.
  destruct (xok_multi _ _ _ Hok E11 E12) as [E10 Hm]. rewrite E10. cbn [negb c_assert cbind].
  unfold holders in Hold. rewrite E11, E12 in Hold.
  destruct (HEAP_LOCKED_UPGRADED mask) eqn:Eup.
  { injection Hold as Eold. apply second_round; [apply has_invalid_unheld|done|by rewrite <- Eold; intros m ?%not_elem_of_nil]. }
  destruct (Hm eq_refl) as (Hx & l & El & Hl & Hlen & Hone & Elock & _). unfold current_view in Hold. rewrite Hold in El. injection El as El. subst l.
  destruct (running_spec xmax mask old (xok_multi _ _ _ Hok) E11 E12 Eup Hold) as (b & -> & Hrun). cbn [cbind].
  destruct b; cbn [cbind]; [by apply expand_ok|]. specialize (Hrun eq_refl).
  destruct (HEAP_XMAX_IS_LOCKED_ONLY mask) eqn:Elo; cbn [cbind].
  - apply second_round; [apply has_invalid_unheld|done|]. intros m Hin Hint. exfalso.
    unfold still_of_interest in Hint. rewrite (Hrun m Hin) in Hint. cbn [orb] in Hint.
    apply andb_true_iff in Hint as [Hu _]. symmetry in Elock. apply negb_true_iff in Elock.
    assert (existsb is_updater old = true) as Ht; [|congruence]. apply existsb_exists. exists m.
    split; [by apply list_elem_of_In|done].
  - unfold MultiXactIdGetUpdateXid. rewrite has_lock_only, has_multi, E12.
    assert (Z.testbit mask 7 = false) as ->.
    { rewrite locked_only_bits in Elo. by destruct (Z.testbit mask 7). }
    cbn [negb c_assert cbind]. rewrite Hold. cbn [cbind].
    destruct (update_loop_found old Hone) as (u & -> & Hu). cbn [cbind].
    destruct (xact_did_commit u) eqn:Ed; cbn [negb]; [by apply expand_ok|].
    apply second_round; [apply has_invalid_unheld|done|]. intros m Hin Hint. exfalso.
    unfold still_of_interest in Hint. rewrite (Hrun m Hin) in Hint. cbn [orb] in Hint.
    apply andb_true_iff in Hint as [Hi Hc]. rewrite (Hu m Hin Hi) in Hc. congruence.
Qed.

Lemma single_branch :
  Z.testbit mask 11 = false -> Z.testbit mask 12 = false ->
  new_holders_ok old add mode is_update (compute_l5 2 xmax mask mask2 add mode is_update).
Proof.
  intros E11 E12. pose proof (keep_updater_ok xmax mask mask2 add mode is_update Hok Hadd Hmode old E11 E12) as Hkeep.
  rewrite compute_l5_two. unfold compute_round. rewrite has_xmax_invalid, E11, has_multi, E12, has_xmax_committed.
  destruct (xok_single _ _ _ Hok E11 E12) as (Hv & Hcom & Hown).
  destruct (Z.testbit mask 10) eqn:E10.
  { destruct (Hcom eq_refl). by apply Hkeep. }
  specialize (Hown eq_refl). specialize (fun E N => Hkeep E N Hold). unfold holders in Hold. rewrite E11, E12 in Hold.
  assert (forall m, m ∈ old -> mx_xid m = xmax /\ is_updater m = negb (HEAP_XMAX_IS_LOCKED_ONLY mask)) as Hm.
  { intros m Hin. destruct (single_status mask mask2) as [st|] eqn:Est; injection Hold as Eold; rewrite <- Eold in Hin;
      [|by apply not_elem_of_nil in Hin]. apply list_elem_of_singleton in Hin as ->.
    by destruct (single_status_range _ _ _ Est) as [_ ?]. }
  destruct (xact_in_progress xmax) eqn:Ep.
  - destruct (single_status mask mask2) as [st|] eqn:Est; injection Hold as Eold.
    2:{ apply second_round; [apply has_invalid_cleared|done|by rewrite <- Eold; intros m ?%not_elem_of_nil]. }
    destruct (single_status_range _ _ _ Est) as [Hst Hup]. rewrite tuplock_mode by done. cbn [cbind].
    destruct (Z.eqb_spec xmax add) as [Heq|Hne]; [|by apply create_two_ok].
    rewrite (Hown Heq) in *. cbn [c_assert cbind].
    apply second_round; [apply has_invalid_or|destruct (Z.ltb_spec (lock_level mode) (lock_level (status_mode st))); lia|].
    intros m Hin _. destruct (Hm m Hin) as [Ex Eu]. split_and!; [congruence|done|].
    rewrite <- Eold in Hin. apply list_elem_of_singleton in Hin as ->. cbn [mx_status].
    destruct (Z.ltb_spec (lock_level mode) (lock_level (status_mode st))); lia.
  - destruct (negb (HEAP_XMAX_IS_LOCKED_ONLY mask) && xact_did_commit xmax) eqn:Ec.
    + apply andb_true_iff in Ec as [El _]. apply negb_true_iff in El. apply Hkeep; [done|].
      intros ->. apply current_in_progress in Hcur. congruence.
    + apply second_round; [apply has_invalid_or|done|]. intros m Hin Hint. exfalso.
      destruct (Hm m Hin) as [Ex Eu]. unfold still_of_interest in Hint. unfold is_updater in Eu.
      rewrite Ex, Ep, Eu in Hint. cbn [orb] in Hint. congruence.
Qed.

Lemma compute_new_xmax_spec :
  new_holders_ok old add mode is_update (compute_new_xmax_infomask xmax mask mask2 add mode is_update).
Proof.
  unfold compute_new_xmax_infomask. rewrite Hcur. cbn [c_assert cbind].
  destruct (Z.testbit mask 11) eqn:E11.
  - cbn [compute_l5]. unfold compute_round. rewrite has_xmax_invalid, E11. unfold holders in Hold. rewrite E11 in Hold. injection Hold as Eold.
    apply sole_holder_ok; [done|done|by rewrite <- Eold; intros m ?%not_elem_of_nil].
  - destruct (Z.testbit mask 12) eqn:E12; [by apply multi_branch|by apply single_branch].
Qed.
End Compute.
