(* ===== verification/RowLockTheorems.v ===== *)
(** What row locks guarantee: which modes conflict, that the MultiXacts of
    multixact.c are a [MultiStore], and that adding a holder to a tuple loses no
    other. *)
From stdpp Require Import list.
From S2P Require Import Prelude Transam HeapTuple Combocid Tqual TqualSpec MultiXact MultiXactProofs MultiXactLog MultiXactTheorems TqualUpdate TqualTheorems LockModes RowLock RowLockProofs.

(** ** Conflicts *)

(** The table of row-level lock conflicts: FOR KEY SHARE conflicts with FOR
    UPDATE only, FOR SHARE also with FOR NO KEY UPDATE, and so on. *)
Definition modes_conflict (mode1 mode2 : LockTupleMode) : bool :=
  match mode1, mode2 with
  | LockTupleExclusive, _ | _, LockTupleExclusive => true
  | LockTupleKeyShare, _ | _, LockTupleKeyShare => false
  | LockTupleShare, LockTupleShare => false
  | _, _ => true
  end.

Lemma hwlock_conflict mode1 mode2 :
  DoLockModesConflict (hwlock (tupleLockExtraInfo mode1)) (hwlock (tupleLockExtraInfo mode2)) =
  Ret (modes_conflict mode1 mode2).
Proof. by destruct mode1, mode2. Qed.

Section Conflicts.
Context `{SharedXacts} `{Backend} `{MultiStore}.

(** The member is in the way of [mode]: not one of us, its lock conflicts, and it
    is not over. *)
Definition in_the_way (mode : LockTupleMode) (m : MultiXactMember) : bool :=
  modes_conflict (status_mode (mx_status m)) mode && negb (xact_current (mx_xid m)) &&
  (if is_updater m then negb (xact_did_abort (mx_xid m)) else xact_in_progress (mx_xid m)).

Lemma conflict_loop_spec l mode : Forall member_ok l ->
  conflict_loop l (hwlock (tupleLockExtraInfo mode)) = Ret (existsb (in_the_way mode) l).
Proof.
  induction l as [|m l IH]; intros Hl; [done|]. apply Forall_cons in Hl as [[_ Hm] Hl]. cbn [conflict_loop existsb].
  unfold LOCKMODE_from_mxstatus. rewrite tuplock_mode by done. cbn [cbind]. rewrite hwlock_conflict. cbn [cbind].
  rewrite IH by done. set (rest := existsb (in_the_way mode) l). unfold in_the_way, is_updater.
  destruct (modes_conflict _ _); cbn [negb andb orb]; [|done].
  destruct (xact_current _); cbn [negb andb orb]; [done|].
  destruct (ISUPDATE_from_mxstatus _); [by destruct (xact_did_abort _)|by destruct (xact_in_progress _)].
Qed.

(** C28. [DoesMultiXactIdConflict] says whether the requested row lock has to wait:
    exactly when some member of the MultiXact, other than the backend's own
    transactions, holds a lock in a conflicting mode and is not over (a locker
    that still runs, an updater that has not aborted); never for locks from
    before pg_upgrade.  The conflicts are those of the documented table, which is
    symmetric and in which a stronger mode conflicts with no less. *)
Theorem row_lock_conflicts multi infomask mode l :
  multi_members multi false (HEAP_XMAX_IS_LOCKED_ONLY infomask) = Ret l -> Forall member_ok l ->
  DoesMultiXactIdConflict multi infomask mode =
    Ret (negb (HEAP_LOCKED_UPGRADED infomask) && existsb (in_the_way mode) l) /\
  (forall mode1 mode2, modes_conflict mode1 mode2 = modes_conflict mode2 mode1) /\
  (forall mode1 mode2 other, lock_level mode1 <= lock_level mode2 -> modes_conflict mode1 other = true ->
     modes_conflict mode2 other = true).
Proof.
  intros El Hl. split_and!.
  - unfold DoesMultiXactIdConflict. destruct (HEAP_LOCKED_UPGRADED infomask); [done|]. rewrite El. cbn [cbind negb andb].
    by apply conflict_loop_spec.
  - by intros [] [].
  - intros [] [] [] Hle; cbn in Hle; (done || lia).
Qed.
End Conflicts.

(** ** The store of multixact.c *)

Section Store.
Context `{NormalEnv} `{!FreezeAge} `{MemberSortLaws} (needed : Z) `{!Others needed}.

Definition store_view (m : MXShared) (c : MXCache) : MultiView := fun multi =>
  match GetMultiXactIdMembers 0 (fun _ => m) c multi false false with
  | Ret (Members l, _) => Ret l
  | Ret (NoMembers, _) => Ret []
  | Ret (Waiting, _) | Undef => Undef
  | Elog e => Elog e
  end.

(** A backend with cache [c] in shared state [m]. *)
Definition mx_store (m : MXShared) (c : MXCache) (did_abort : TransactionId -> bool) : MultiStore := {|
  multi_create l :=
    match MultiXactIdCreateFromMembers m c l with
    | (Ret (multi, c'), m') => Ret (multi, store_view m' c')
    | (Elog e, _) => Elog e
    | (Undef, _) => Undef
    end;
  OldestMember_set := match zget (OldestMemberMXactId m) mx_MyBackendId with Some me => MultiXactIdIsValid me | None => false end;
  xact_did_abort := did_abort |}.

(** What is first in the cache is found there. *)
Lemma view_cached m c multi l r : multi <> 0 -> MXactCache c = (multi, l) :: r -> store_view m c multi = Ret l.
Proof.
  intros Hv E. unfold store_view, GetMultiXactIdMembers, MultiXactIdIsValid, mXactCacheGetById.
  rewrite E. cbn [find_move fst]. rewrite Z.eqb_refl. unfold InvalidMultiXactId.
  by destruct (Z.eqb_spec multi 0).
Qed.

Lemma created_cached m g c l multi c' m' :
  mx_inv m g -> log_lo g <= needed <= log_hi g -> cache_ok needed c g -> MXactCacheMembers c = zlen (MXactCache c) ->
  members_ok l -> relocks_fine m (zlen l) ->
  MultiXactIdCreateFromMembers m c l = (Ret (multi, c'), m') ->
  multi <> 0 /\ exists l' r, MXactCache c' = (multi, l') :: r /\ l' ≡ₚ l.
Proof.
  intros Hinv Hn Hc Hcnt Hl Hf E. split.
  { pose proof (create_refines needed m g c l Hinv Hn Hc Hl Hf) as Hr. rewrite E in Hr.
    destruct Hr as (g' & a & _ & _ & _ & _ & _ & [_ Ha] & _ & -> & _). done. }
  unfold MultiXactIdCreateFromMembers, mXactCacheGetBySet in E.
  destruct (find_move _ (MXactCache c)) as [[[multi0 l0] l1]|] eqn:Ef.
  - apply find_move_Some in Ef as (Hs & Hin & r & -> & _). apply bool_decide_eq_true in Hs. cbn in Hs.
    destruct (proj1 (Forall_forall _ _) Hc _ Hin) as (a & _ & [_ Ha] & _ & E1 & _). cbn [fst] in *.
    unfold MultiXactIdIsValid, InvalidMultiXactId in E. destruct (Z.eqb_spec multi0 0); [congruence|].
    injection E as <- <- _. exists l0, r. split; [done|]. rewrite Hs. apply qsort_members_perm.
  - change (MultiXactIdIsValid InvalidMultiXactId) with false in E. cbn iota in E.
    destruct (single_updater _ _); [|done|done].
    destruct (GetNewMultiXactId _ _) as [[[multi1 offset]| |] m1]; [|done|done].
    destruct (RecordNewMultiXact _ _ _ _); [|done|done]. injection E as <- <- _.
    unfold mXactCachePut. exists (qsort_members (qsort_members l)).
    assert (qsort_members (qsort_members l) ≡ₚ l) as Hp by by rewrite !qsort_members_perm.
    destruct (Z.leb_spec MAX_CACHE_ENTRIES (MXactCacheMembers c)); cbn [MXactCache]; [|by eexists].
    unfold MAX_CACHE_ENTRIES in *. destruct (MXactCache c); [unfold zlen in Hcnt; cbn in Hcnt; lia|]. by eexists.
Qed.

Lemma create_single m g c l multi c' m' :
  mx_inv m g -> cache_ok needed c g -> MultiXactIdCreateFromMembers m c l = (Ret (multi, c'), m') ->
  (length (updaters l) <= 1)%nat.
Proof.
  intros Hinv Hc E. destruct (decide (1 < length (updaters l))%nat) as [Hs|]; [|lia].
  by rewrite (create_two_updaters needed m g) in E.
Qed.

(** Row locks may rely on multixact.c. *)
Lemma mx_store_laws m g c did_abort :
  mx_inv m g -> log_lo g <= needed <= log_hi g -> cache_ok needed c g -> MXactCacheMembers c = zlen (MXactCache c) ->
  (forall n, relocks_fine m n) ->
  (exists me, zget (OldestMemberMXactId m) mx_MyBackendId = Some me /\ me <> 0) ->
  @MultiStoreLaws (mx_store m c did_abort).
Proof.
  intros Hinv Hn Hc Hcnt Hf (me & Eme & Hme).
  assert (forall l multi c' m', MultiXactIdCreateFromMembers m c l = (Ret (multi, c'), m') ->
    Forall member_ok l -> zlen l < 2 ^ 31 - 2 -> members_ok l) as Hok.
  { intros l multi c' m' E Hl Hlen. constructor; [done| |done]. by eapply create_single. }
  constructor; cbn.
  - intros l multi view Hl Hlen E. destruct (MultiXactIdCreateFromMembers m c l) as [[[multi1 c']| |] m'] eqn:Ec; [|done|done].
    injection E as <- <-. pose proof (Hok _ _ _ _ Ec Hl Hlen) as Hmok. split; [apply Hmok|].
    destruct (created_cached _ _ _ _ _ _ _ Hinv Hn Hc Hcnt Hmok (Hf _) Ec) as (Hv & l' & r & Er & Hp).
    exists l'. split; [by eapply view_cached|done].
  - intros l Hl Hlen E. destruct (MultiXactIdCreateFromMembers m c l) as [[[multi1 c']| |] m'] eqn:Ec; [done|done|].
    destruct (decide (length (updaters l) <= 1)%nat) as [Hs|Hs].
    + pose proof (create_refines needed m g c l Hinv Hn Hc ltac:(by constructor) (Hf _)) as Hr. by rewrite Ec in Hr.
    + by rewrite (create_two_updaters needed m g) in Ec by (done || lia).
  - rewrite Eme. unfold MultiXactIdIsValid. by destruct (Z.eqb_spec me InvalidMultiXactId).
Qed.
End Store.

(** ** Adding a holder *)

(** C9. [compute_new_xmax_infomask] adds a holder to a tuple and loses none: from
    the old [xmax] and flags of a tuple it computes an [xmax] whose holders are
    the transaction to be added, at least as strongly as asked, and every old
    holder that still matters (a running one, or a committed updater), except a
    weaker lock of the same transaction; nobody else; and never two updaters.
    The flag words say of these holders what readers take from them without
    looking the members up: whether the tuple is updated or only locked, and
    whether its key is.  It returns an error only where creating a MultiXact
    does, and never fails an assertion; the [goto] runs at most once. *)
Theorem new_xmax_holders `{SharedXacts} `{Backend} `{MultiStore} xmax mask mask2 add mode is_update old :
  BackendLaws -> MultiStoreLaws ->
  xmax_ok xmax mask add -> xact_current add = true -> TransactionIdIsValid add = true ->
  (is_update = true -> lock_level LockTupleNoKeyExclusive <= lock_level mode) ->
  holders current_view xmax mask mask2 = Ret old ->
  new_holders_ok old add mode is_update (compute_new_xmax_infomask xmax mask mask2 add mode is_update).
Proof. intros. by apply compute_new_xmax_spec. Qed.

(** ** A small system

    Transactions as in [TqualTheorems.v], MultiXacts about to wrap around. *)
Definition sample_store : MultiStore := mx_store wrap_state no_cache (fun x => x =? 102).

Lemma sample_store_laws : @MultiStoreLaws sample_store.
Proof.
  apply (mx_store_laws last_number _ wrap_log); [apply wrap_state_ok|vm_compute; split; congruence|apply no_cache_ok|done| |].
  - intros n m'. unfold new_multi_entry. cbn -[reserve_members].
    replace (MultiXactIdPrecedes last_number _) with true by (vm_compute; reflexivity). cbn [negb].
    by destruct (reserve_members _ _ _).
  - exists last_number. by vm_compute.
Qed.

#[local] Existing Instances sample_shared sample_backend sample_store.

(** 200 has the committed updater 100 and the running locker 101: FOR SHARE has
    to wait for it (the updater), and so does FOR UPDATE. *)
Lemma row_lock_conflicts_witness :
  DoesMultiXactIdConflict 200 HEAP_XMAX_IS_MULTI LockTupleShare = Ret true /\
  in_the_way LockTupleShare {| mx_xid := 101; mx_status := 0 |} = false /\
  modes_conflict LockTupleKeyShare LockTupleShare = modes_conflict LockTupleShare LockTupleKeyShare.
Proof.
  destruct (row_lock_conflicts 200 HEAP_XMAX_IS_MULTI LockTupleShare
    [{| mx_xid := 101; mx_status := 0 |}; {| mx_xid := 100; mx_status := 5 |}]) as (E & Hsym & _).
  - done.
  - repeat constructor; done.
  - split_and!; [by rewrite E|done|apply Hsym].
Defined.

Definition keyshare_locked : Z := Z.lor HEAP_XMAX_LOCK_ONLY HEAP_XMAX_KEYSHR_LOCK.

(** 101 has a FOR KEY SHARE lock while 103 updates other columns: both are members
    of a new MultiXact. *)
Lemma new_xmax_holders_witness :
  exists mask mask2 view new,
    compute_new_xmax_infomask 101 keyshare_locked 0 103 LockTupleNoKeyExclusive true = Ret (last_number, mask, mask2, view) /\
    holders view last_number mask mask2 = Ret new /\
    holders_step [{| mx_xid := 101; mx_status := MultiXactStatusForKeyShare |}] new 103 LockTupleNoKeyExclusive true.
Proof.
  pose proof (new_xmax_holders 101 keyshare_locked 0 103 LockTupleNoKeyExclusive true
    [{| mx_xid := 101; mx_status := MultiXactStatusForKeyShare |}] sample_laws sample_store_laws) as Hn.
  assert (match compute_new_xmax_infomask 101 keyshare_locked 0 103 LockTupleNoKeyExclusive true with
          | Ret (x, _, _, _) => x = last_number | _ => False end) as Hx by (vm_compute; reflexivity).
  destruct (compute_new_xmax_infomask _ _ _ _ _ _) as [[[[x mask] mask2] view]| |]; [|done|done]. subst x.
  exists mask, mask2, view. cbn [new_holders_ok] in Hn.
  destruct Hn as (new & Hh & _ & _ & Hs); [|done|done|done|done|by exists new].
  by constructor.
Defined.
