(* ===== verification/HeapDelete.v ===== *)
(** [heap_delete] ([access/heap/heapam.c]): look at the tuple, wait for
    transactions in the way, look again, and stamp it.

    While it waits the buffer is not locked, so the transaction system and the
    tuple may be different afterwards: [worlds n] is what they are when the lock
    is taken for the [n]-th time.  Pages, the visibility map, WAL records,
    serializable conflicts and the heavyweight tuple lock are left out. *)
From stdpp Require Import list.
From S2P Require Import Prelude Transam HeapTuple Combocid Tqual LockModes RowLock.

Record World := {
  w_shared : SharedXacts;
  w_store : MultiStore;
  w_tuple : LockedTuple
}.

Definition InvalidCommandId : CommandId := 0xFFFFFFFF.
Definition MovedPartitions : ItemPointerData := {| ip_blkid := 0xFFFFFFFF; ip_posid := 0xfffd |}.

Record HeapUpdateFailureData := {
  hufd_ctid : ItemPointerData;
  hufd_xmax : TransactionId;
  hufd_cmax : CommandId
}.

(** What the caller gets; with the tuple as it is left in the page, and the
    MultiXacts and the combo command ids afterwards. *)
Inductive delete_result :=
  | Deleted (tuple : LockedTuple) (view : MultiView) (combo : ComboState)
  | NotDeleted (result : HTSU_Result) (hufd : HeapUpdateFailureData) (tuple : HeapTupleHeader).

(** "We may overwrite if previous xmax aborted, or if it committed but only
    locked the tuple without updating it." *)
Definition may_overwrite `{SharedXacts} `{Backend} (h : HeapTupleHeader) : cres HTSU_Result :=
  let* ok := (if has (t_infomask h) HEAP_XMAX_INVALID then Ret true
              else if HEAP_XMAX_IS_LOCKED_ONLY (t_infomask h) then Ret true
              else HeapTupleHeaderIsOnlyLocked h) in
  Ret (if (ok : bool) then HeapTupleMayBeUpdated else HeapTupleUpdated).

Section HeapDelete.
Context `{Backend}.
Context (worlds : nat -> World) (tid : ItemPointerData) (tableOid buffer : Z).

Definition delete_tuple (h : HeapTupleHeader) : HeapTuple :=
  {| t_self := tid; t_tableOid := tableOid; t_data := h |}.

(** From [l1:] until the fate of the tuple is known: the answer, the number of
    the lock acquisition it holds for, and the header. *)
Fixpoint delete_check (fuel : nat) (n : nat) (cid : CommandId) (wait : bool)
  : cres (HTSU_Result * nat * HeapTupleHeader) :=
  match fuel with
  | O => Undef
  | S fuel =>
      let W := worlds n in
      let* (result, h) := @HeapTupleSatisfiesUpdate (w_shared W) _ (delete_tuple (lt_data (w_tuple W))) cid buffer in
      if decide (result = HeapTupleInvisible) then Elog "attempted to delete invisible tuple"
      else if negb (bool_decide (result = HeapTupleBeingUpdated) && wait) then Ret (result, n, h)
      else
        let xwait := HeapTupleHeaderGetRawXmax h in
        let infomask := t_infomask h in
        let W' := worlds (S n) in
        let h' := lt_data (w_tuple W') in
        let changed := xmax_infomask_changed (t_infomask h') infomask ||
                       negb (TransactionIdEquals (HeapTupleHeaderGetRawXmax h') xwait) in
        if has infomask HEAP_XMAX_IS_MULTI then
          let* conflict := @DoesMultiXactIdConflict (w_shared W) _ (w_store W) xwait infomask LockTupleExclusive in
          if (conflict : bool) then
            if changed then delete_check fuel (S n) cid wait
            else let* result := @may_overwrite (w_shared W') _ h' in Ret (result, S n, h')
          else let* result := @may_overwrite (w_shared W) _ h in Ret (result, n, h)
        else if negb (xact_current xwait) then
          if changed then delete_check fuel (S n) cid wait
          else
            let* h' := @UpdateXmaxHintBits (w_shared W') h' buffer xwait in
            let* result := @may_overwrite (w_shared W') _ h' in Ret (result, S n, h')
        else let* result := @may_overwrite (w_shared W) _ h in Ret (result, n, h)
  end.

(** [crosscheck] is the visibility test of the snapshot to check against. *)
Definition heap_delete (fuel : nat) (IsInParallelMode : bool) (xid : TransactionId) (cid : CommandId)
    (crosscheck : option (SharedXacts -> HeapTuple -> Z -> cres (bool * HeapTupleHeader)))
    (wait changingPart : bool) : cres delete_result :=
  c_assert (ItemPointerIsValid tid) ;;
  if IsInParallelMode then Elog "cannot delete tuples during a parallel operation" else
  let* (rn, h) := delete_check fuel 0 cid wait in
  let '(result, n) := rn in
  let W := worlds n in
  let* (result, h) :=
    (match crosscheck with
     | Some test =>
         if decide (result = HeapTupleMayBeUpdated) then
           let* (visible, h) := test (w_shared W) (delete_tuple h) buffer in
           Ret (if (visible : bool) then result else HeapTupleUpdated, h)
         else Ret (result, h)
     | None => Ret (result, h)
     end) in
  if decide (result <> HeapTupleMayBeUpdated) then
    c_assert (bool_decide (result = HeapTupleSelfUpdated \/ result = HeapTupleUpdated \/ result = HeapTupleBeingUpdated)) ;;
    c_assert (negb (has (t_infomask h) HEAP_XMAX_INVALID)) ;;
    let* xmax := @HeapTupleHeaderGetUpdateXid (w_shared W) h in
    let* cmax := (if decide (result = HeapTupleSelfUpdated) then @HeapTupleHeaderGetCmax (w_shared W) _ h
                  else Ret InvalidCommandId) in
    Ret (NotDeleted result {| hufd_ctid := t_ctid h; hufd_xmax := xmax; hufd_cmax := cmax |} h)
  else
    let* (ci, combo) := HeapTupleHeaderAdjustCmax h cid in
    let* (xm, view) :=
      @compute_new_xmax_infomask (w_shared W) _ (w_store W) (HeapTupleHeaderGetRawXmax h) (t_infomask h)
        (lt_infomask2 (w_tuple W)) xid LockTupleExclusive true in
    let* lt := stamp_delete (delete_tuple h) (lt_infomask2 (w_tuple W)) xm.1.1 xm.1.2 xm.2 ci.1 ci.2 in
    let lt := if changingPart
              then {| lt_data := {| t_xmin := t_xmin (lt_data lt); t_xmax := t_xmax (lt_data lt);
                                    t_field3 := t_field3 (lt_data lt); t_ctid := MovedPartitions;
                                    t_infomask := t_infomask (lt_data lt) |};
                      lt_infomask2 := lt_infomask2 lt |}
              else lt in
    Ret (Deleted lt view combo).
End HeapDelete.
