(* ===== verification/HeapDeleteProofs.v ===== *)
(** When [heap_delete] goes ahead: what its checks and waits establish about the
    tuple. *)
From stdpp Require Import list.
From S2P Require Import Prelude Transam HeapTuple Combocid Tqual TqualSpec TqualProofs TqualUpdate MultiXact MultiXactProofs MultiXactLog LockModes RowLock RowLockProofs RowLockTheorems HeapDelete.

(** ** One look at the tuple *)

Section Look.
Context `{SharedXacts} `{Backend} `{MultiStore}.

(** Nothing of what [HeapTupleSatisfiesUpdate] waits for is going on. *)
Definition at_rest (h : HeapTupleHeader) : Prop :=
  bit h 11 = true \/ bit h 10 = true \/ HEAP_LOCKED_UPGRADED (t_infomask h) = true \/ ~ xmax_busy h.

Lemma set_invalid_bits h buffer :
  let h' := SetHintBits h buffer HEAP_XMAX_INVALID InvalidTransactionId in
  bit h' 11 = true /\ bit h' 10 = bit h 10.
Proof.
  unfold SetHintBits. change (TransactionIdIsValid InvalidTransactionId) with false. cbn [andb].
  change HEAP_XMAX_INVALID with (2 ^ 11). by rewrite !bit_set_infomask, orb_true_r, orb_false_r by done.
Qed.

(** What the second half leaves in the header. *)
Definition rest_spec (h : HeapTupleHeader) (r : HTSU_Result) (h' : HeapTupleHeader) : Prop :=
  (r <> HeapTupleUpdated -> bit h' 10 = bit h 10) /\ (r = HeapTupleMayBeUpdated -> at_rest h') /\
  (r = HeapTupleBeingUpdated -> bit h' 11 = false).

Lemma rest_same h r :
  (r = HeapTupleMayBeUpdated -> at_rest h) -> (r = HeapTupleBeingUpdated -> bit h 11 = false) -> rest_spec h r h.
Proof. intros. by unfold rest_spec. Qed.

Lemma rest_invalid h r buffer : r <> HeapTupleBeingUpdated -> rest_spec h r (SetHintBits h buffer HEAP_XMAX_INVALID InvalidTransactionId).
Proof. destruct (set_invalid_bits h buffer). intros. unfold rest_spec. split_and!; [done|by left|done]. Qed.

Lemma self_updated_rest h cid r h' : self_updated cid h = Ret (r, h') -> rest_spec h r h'.
Proof.
  unfold self_updated, cbind. repeat case_match; intros; simplify_eq; by apply rest_same.
Qed.

Lemma not_busy_multi h : is_multi h = true -> MultiXactIdIsRunning (t_xmax h) (only_locked h) = Ret false -> at_rest h.
Proof. intros Em Er. do 3 right. unfold xmax_busy. rewrite Em, Er. congruence. Qed.

Ltac leaf :=
  intros; simplify_eq;
  first [by apply rest_same | by apply rest_invalid | by unfold rest_spec | by eapply self_updated_rest
        | apply rest_same; intros ?; [|done];
          first [by left | by right; left | by right; right; left] ].

Lemma update_multi_rest h cid buffer r h' :
  bit h 11 = false -> is_multi h = true -> Update_multi h cid buffer = Ret (r, h') -> rest_spec h r h'.
Proof.
  intros E11 Em. unfold Update_multi, HeapTupleHeaderGetRawXmax, cbind, c_assert. fold (only_locked h).
  destruct (HEAP_LOCKED_UPGRADED (t_infomask h)) eqn:Eu; [leaf|].
  repeat case_match; leaf.
Qed.

Lemma update_xmax_rest h cid buffer r h' : Update_xmax h cid buffer = Ret (r, h') -> rest_spec h r h'.
Proof.
  unfold Update_xmax, HeapTupleHeaderGetRawXmax. rewrite has_xmax_invalid, has_xmax_committed, has_multi.
  fold (bit h 11) (bit h 10) (bit h 12) (is_multi h).
  destruct (bit h 11) eqn:E11; [leaf|]. destruct (bit h 10) eqn:E10; [case_match; leaf|].
  destruct (is_multi h) eqn:Em; [by apply update_multi_rest|]. repeat case_match; leaf.
Qed.

Lemma update_own_rest h cid buffer r h' : Update_own h cid buffer = Ret (r, h') -> rest_spec h r h'.
Proof.
  unfold Update_own, HeapTupleHeaderGetRawXmax, cbind, c_assert. rewrite has_xmax_invalid, has_multi.
  fold (bit h 11) (bit h 12) (is_multi h) (only_locked h).
  destruct (HeapTupleHeaderGetCmin h); [|done|done]. destruct (cid <=? _); [leaf|].
  destruct (bit h 11) eqn:E11; [leaf|]. destruct (only_locked h) eqn:El, (is_multi h) eqn:Em.
  - destruct (MultiXactIdIsRunning (t_xmax h) true) as [[]| |] eqn:Er; [leaf| |done|done]. intros [= <- <-].
    apply rest_same; [|done]. intros _. apply not_busy_multi; [done|by rewrite El].
  - destruct (xact_in_progress (t_xmax h)) eqn:Ep; cbn [negb]; [leaf|]. intros [= <- <-]. apply rest_same; [|done]. intros _.
    do 3 right. unfold xmax_busy. rewrite Em, Ep. done.
  - destruct (HeapTupleGetUpdateXid h); [|done|done]. destruct (TransactionIdIsValid _); [|done].
    destruct (negb _); [|leaf].
    destruct (MultiXactIdIsRunning (t_xmax h) false) as [[]| |] eqn:Er; [leaf| |done|done]. intros [= <- <-].
    apply rest_same; [|done]. intros _. apply not_busy_multi; [done|by rewrite El].
  - destruct (negb _); leaf.
Qed.

Lemma set_xmin_bits h buffer mask xid k : mask = HEAP_XMIN_COMMITTED \/ mask = HEAP_XMIN_INVALID ->
  k <> 8 -> k <> 9 -> bit (SetHintBits h buffer mask xid) k = bit h k.
Proof.
  intros Hm H8 H9. unfold SetHintBits. case_match; [done|].
  destruct Hm as [-> | ->]; [change HEAP_XMIN_COMMITTED with (2 ^ 8)|change HEAP_XMIN_INVALID with (2 ^ 9)];
    rewrite bit_set_infomask by done; [destruct (Z.eqb_spec 8 k)|destruct (Z.eqb_spec 9 k)]; (lia || apply orb_false_r).
Qed.

(** The first half changes nothing about xmax. *)
Lemma update_xmin_rest h cid buffer f h' :
  Update_xmin h cid buffer = Ret (f, h') ->
  (f = FallThrough -> bit h' 10 = bit h 10) /\ forall r, f = Return r -> rest_spec h r h'.
Proof.
  assert (forall mask xid, mask = HEAP_XMIN_COMMITTED \/ mask = HEAP_XMIN_INVALID ->
    forall r : flow HTSU_Result, r = FallThrough \/ r = Return HeapTupleInvisible ->
    Ret (r, SetHintBits h buffer mask xid) = Ret (f, h') ->
    (f = FallThrough -> bit h' 10 = bit h 10) /\ forall r, f = Return r -> rest_spec h r h') as Hset.
  { intros mask xid Hm r Hr [= <- <-]. rewrite (set_xmin_bits h buffer mask xid 10) by done. split; [done|].
    intros r' ->. destruct Hr as [?|[= ->]]; [done|]. unfold rest_spec. by rewrite (set_xmin_bits h buffer mask xid 10). }
  assert (forall r : flow HTSU_Result, r = FallThrough \/ r = Return HeapTupleInvisible ->
    Ret (r, h) = Ret (f, h') -> (f = FallThrough -> bit h' 10 = bit h 10) /\ forall r, f = Return r -> rest_spec h r h') as Hsame.
  { intros r Hr [= <- <-]. split; [done|]. intros r' ->. destruct Hr as [?|[= ->]]; [done|]. by apply rest_same. }
  unfold Update_xmin, xmin_moved_off, xmin_moved_in, xmin_finished, running, cbind.
  repeat case_match; try done; try (by apply Hset; auto); try (by apply Hsame; auto).
  intros [= <- <-]. split; [done|]. intros r [= <-]. by eapply update_own_rest.
Qed.

Lemma update_rest htup cid buffer r h' :
  HeapTupleSatisfiesUpdate htup cid buffer = Ret (r, h') -> rest_spec (t_data htup) r h'.
Proof.
  unfold HeapTupleSatisfiesUpdate, and_then. destruct (check_htup htup); [|done|done]. cbn [cbind].
  destruct (Update_xmin (t_data htup) cid buffer) as [[f h1]| |] eqn:E; [|done|done]. cbn [cbind].
  apply update_xmin_rest in E as [Hf Hr]. destruct f as [r0|].
  - intros [= <- <-]. by apply Hr.
  - intros (H10 & Hm & Hb)%update_xmax_rest. split; [|done]. intros Hu. rewrite <- Hf by done. by apply H10.
Qed.
End Look.

(** *** The crosscheck of a snapshot *)

Section Crosscheck.
Context `{SharedXacts} `{Backend}.

(** Of the hints about xmax, "committed" is only set on a plain deleter. *)
Definition commits_deleter (h h' : HeapTupleHeader) : Prop :=
  bit h' 10 = true -> bit h 10 = true \/ is_multi h = false /\ only_locked h = false.

Lemma mvcc_own_deleter h snap buffer v h' : MVCC_own h snap buffer = Ret (v, h') -> commits_deleter h h'.
Proof.
  unfold MVCC_own, cmax_after, cbind, c_assert, commits_deleter.
  repeat case_match; intros; simplify_eq; auto. destruct (set_invalid_bits h buffer) as [_ E]. rewrite E in *. auto.
Qed.

Lemma mvcc_xmin_deleter h snap buffer f h' : MVCC_xmin h snap buffer = Ret (f, h') -> commits_deleter h h'.
Proof.
  assert (forall mask xid, mask = HEAP_XMIN_COMMITTED \/ mask = HEAP_XMIN_INVALID ->
    commits_deleter h (SetHintBits h buffer mask xid)) as Hset.
  { intros mask xid Hm. unfold commits_deleter. rewrite (set_xmin_bits h buffer mask xid 10) by done. auto. }
  unfold MVCC_xmin, xmin_moved_off, xmin_moved_in, xmin_finished, cbind.
  repeat case_match; intros; simplify_eq; auto; try (by unfold commits_deleter; auto).
  by eapply mvcc_own_deleter.
Qed.

Lemma mvcc_xmax_deleter h snap buffer v h' : MVCC_xmax h snap buffer = Ret (v, h') -> commits_deleter h h'.
Proof.
  unfold MVCC_xmax, cmax_after, cbind, c_assert, commits_deleter. rewrite has_multi. fold (bit h 12) (is_multi h) (only_locked h).
  destruct (only_locked h), (is_multi h); repeat case_match; intros; simplify_eq; auto;
    destruct (set_invalid_bits h buffer) as [_ E]; rewrite E in *; auto.
Qed.

Lemma mvcc_deleter `{!BackendLaws} htup snap buffer v h' :
  snap_ok snap -> hints_ok (t_data htup) -> tuple_ok (t_data htup) -> moved_old snap (t_data htup) ->
  HeapTupleSatisfiesMVCC htup snap buffer = Ret (v, h') -> commits_deleter (t_data htup) h'.
Proof.
  intros Hs Hh Ht Hm. unfold HeapTupleSatisfiesMVCC, and_then. destruct (check_htup htup); [|done|done]. cbn [cbind].
  destruct (mvcc_xmin_spec snap Hs (t_data htup) buffer Hh Ht Hm) as (f & h1 & E & (Hst & _ & _) & _).
  rewrite E. cbn [cbind]. apply mvcc_xmin_deleter in E. destruct f as [r|]; [by intros [= <- <-]|].
  intros Hx%mvcc_xmax_deleter H10. unfold commits_deleter in *. rewrite (step_multi _ _ Hst), (step_locked _ _ Hst) in Hx.
  destruct (Hx H10); auto.
Qed.
End Crosscheck.

(** ** Who holds the tuple *)

Section Holding.
Context `{SharedXacts} `{Backend} `{MultiStore} (Hlaws : BackendLaws).

(** What the heap keeps true of an xmax. *)
Record xmax_wf (h : HeapTupleHeader) : Prop := {
  wf_multi : multi_xmax_ok (t_xmax h) (t_infomask h);
  wf_single : bit h 11 = false -> is_multi h = false ->
    TransactionIdIsValid (t_xmax h) = true /\ (bit h 10 = true -> only_locked h = false)
}.

(** Nobody else holds the tuple: a running holder is one of the backend's own
    transactions, or is aborting. *)
Definition alone (h : HeapTupleHeader) (mask2 : Z) : Prop :=
  forall l m, holders current_view (t_xmax h) (t_infomask h) mask2 = Ret l -> m ∈ l ->
    xact_in_progress (mx_xid m) = true -> xact_current (mx_xid m) = true \/ xact_did_abort (mx_xid m) = true.

Lemma step_upgraded h h' : hint_step h h' -> HEAP_LOCKED_UPGRADED (t_infomask h') = HEAP_LOCKED_UPGRADED (t_infomask h).
Proof.
  intros Hs. rewrite !locked_upgraded_bits.
  repeat match goal with |- context [Z.testbit (t_infomask ?x) ?k] => fold (bit x k) end.
  by rewrite !(step_only_hints _ _ Hs) by done.
Qed.

Lemma xmax_wf_step h h' :
  hint_step h h' -> xmax_wf h -> (bit h' 10 = true -> bit h 10 = true \/ is_multi h = false /\ only_locked h = false) ->
  xmax_wf h'.
Proof.
  intros Hs [Hm Hsg] H10.
  assert (bit h' 11 = false -> bit h 11 = false) as H11.
  { intros E. destruct (bit h 11) eqn:E'; [|done]. by rewrite (step_keeps _ _ Hs 11 E') in E. }
  constructor.
  - unfold multi_xmax_ok. fold (bit h' 11) (bit h' 12) (bit h' 10) (only_locked h'). fold (is_multi h').
    rewrite (step_multi _ _ Hs), (step_xmax _ _ Hs), (step_upgraded _ _ Hs), (step_locked _ _ Hs).
    intros E11 E12. destruct (Hm (H11 E11) E12) as [E10 Hl]. split; [|done]. fold (bit h 10) in E10.
    destruct (bit h' 10) eqn:E; [|done]. destruct (H10 eq_refl) as [|[? _]]; congruence.
  - rewrite (step_multi _ _ Hs), (step_xmax _ _ Hs), (step_locked _ _ Hs). intros E11 E12.
    destruct (Hsg (H11 E11) E12) as [Hv Hc]. split; [done|]. intros E. destruct (H10 E) as [|[_ ?]]; auto.
Qed.

(** Everyone in the list of holders. *)
Lemma holders_cases h mask2 l : holders current_view (t_xmax h) (t_infomask h) mask2 = Ret l ->
  l = [] \/ (bit h 11 = false /\ is_multi h = true /\ HEAP_LOCKED_UPGRADED (t_infomask h) = false /\
             multi_members (t_xmax h) false false = Ret l) \/
  (bit h 11 = false /\ is_multi h = false /\ forall m, m ∈ l -> mx_xid m = t_xmax h).
Proof.
  unfold holders, is_multi, bit. destruct (Z.testbit (t_infomask h) 11); [intros [= <-]; by left|].
  destruct (Z.testbit (t_infomask h) 12).
  - destruct (HEAP_LOCKED_UPGRADED (t_infomask h)); [intros [= <-]; by left|]. intros E. right; left. by split_and!.
  - destruct (single_status _ _); [|intros [= <-]; by left]. intros [= <-]. right; right. split_and!; [done..|].
    by intros m ->%list_elem_of_singleton.
Qed.

Lemma deleter_single h : is_multi h = false -> only_locked h = false -> deleter h = Some (t_xmax h).
Proof. intros Em El. unfold deleter. by rewrite El, Em. Qed.

Lemma alone_at_rest h mask2 : xmax_wf h -> delete_bad h -> at_rest h -> alone h mask2.
Proof.
  intros Hwf Hbad Hrest l m El Hin Hp. exfalso. destruct (holders_cases h mask2 l El) as [->|[(E11 & Em & Eu & Hl)|(E11 & Em & Hx)]].
  - by apply not_elem_of_nil in Hin.
  - destruct (wf_multi h Hwf E11 Em) as [E10 _]. fold (bit h 10) in E10.
    destruct (running_spec _ _ l (wf_multi h Hwf) E11 Em Eu Hl) as (b & Eb & Hno).
    destruct Hrest as [?|[?|[?|Hb]]]; [congruence..|]. unfold xmax_busy in Hb. rewrite Em in Hb.
    destruct b; [by destruct Hb|]. rewrite (Hno eq_refl m Hin) in Hp. done.
  - rewrite (Hx m Hin) in Hp. destruct (only_locked h) eqn:Elo.
    + destruct Hrest as [?|[E10|[Eu|Hb]]]; [congruence| | |].
      * destruct (wf_single h Hwf E11 Em) as [_ Hc]. rewrite (Hc E10) in Elo. done.
      * rewrite locked_upgraded_bits in Eu. unfold is_multi, bit in Em. by rewrite Em in Eu.
      * unfold xmax_busy in Hb. rewrite Em in Hb. congruence.
    + unfold delete_bad in Hbad. rewrite (deleter_single h Em Elo) in Hbad. destruct Hbad. congruence.
Qed.

Lemma alone_members h mask2 :
  (is_multi h = false -> xact_in_progress (t_xmax h) = false \/ xact_current (t_xmax h) = true) ->
  (is_multi h = true -> bit h 11 = false -> HEAP_LOCKED_UPGRADED (t_infomask h) = false ->
     forall l m, multi_members (t_xmax h) false false = Ret l -> m ∈ l ->
     xact_in_progress (mx_xid m) = true -> xact_current (mx_xid m) = true \/ xact_did_abort (mx_xid m) = true) ->
  alone h mask2.
Proof.
  intros Hsg Hm l m El Hin Hp. destruct (holders_cases h mask2 l El) as [->|[(E11 & Em & Eu & Hl)|(E11 & Em & Hx)]].
  - by apply not_elem_of_nil in Hin.
  - by eapply Hm.
  - rewrite (Hx m Hin) in *. destruct (Hsg Em); [congruence|by left].
Qed.

(** No conflict with the strongest lock. *)
Lemma no_conflict_alone h mask2 : xmax_wf h -> bit h 11 = false -> is_multi h = true ->
  exists b, DoesMultiXactIdConflict (t_xmax h) (t_infomask h) LockTupleExclusive = Ret b /\
    (b = false -> alone h mask2).
Proof.
  intros Hwf E11 Em. unfold DoesMultiXactIdConflict. destruct (HEAP_LOCKED_UPGRADED (t_infomask h)) eqn:Eu.
  { exists false. split; [done|]. intros _. apply alone_members; [congruence|congruence]. }
  destruct (wf_multi h Hwf E11 Em) as [_ Hm]. destruct (Hm Eu) as (_ & l & El & Hl & _ & _ & _ & Hlock).
  fold (only_locked h) in *.
  assert (exists l2, multi_members (t_xmax h) false (only_locked h) = Ret l2 /\
    (l2 = l \/ (l2 = [] /\ forall m, m ∈ l -> xact_in_progress (mx_xid m) = false))) as (l2 & -> & Hl2).
  { destruct (only_locked h); [|by eauto]. destruct (Hlock eq_refl) as [?|[? ?]]; eauto. }
  assert (Forall member_ok l2) as Hok2 by (destruct Hl2 as [->|[-> _]]; [done|constructor]).
  cbn [cbind]. rewrite conflict_loop_spec by done. eexists. split; [done|]. intros Hno.
  apply alone_members; [congruence|]. intros _ _ _ l' m El' Hin Hp. rewrite El in El'. injection El' as <-.
  destruct Hl2 as [->|[_ Hnone]]; [|rewrite (Hnone m Hin) in Hp; done].
  assert (in_the_way LockTupleExclusive m = false) as Hw.
  { destruct (in_the_way LockTupleExclusive m) eqn:E; [|done]. rewrite <- Hno. symmetry. apply existsb_exists.
    exists m. split; [by apply list_elem_of_In|done]. }
  unfold in_the_way in Hw. assert (modes_conflict (status_mode (mx_status m)) LockTupleExclusive = true) as Hc
    by by destruct (status_mode (mx_status m)).
  rewrite Hc in Hw. cbn [andb] in Hw. destruct (xact_current (mx_xid m)); [by left|]. cbn [negb andb] in Hw.
  right. destruct (is_updater m); [by destruct (xact_did_abort (mx_xid m))|congruence].
Qed.

(** ** After a wait *)

Lemma may_overwrite_spec h : hints_ok h -> tuple_ok h -> xmax_wf h ->
  exists r, may_overwrite h = Ret r /\
    ((r = HeapTupleMayBeUpdated /\ delete_bad h) \/
     (r = HeapTupleUpdated /\ bit h 11 = false /\
      exists x, deleter h = Some x /\ (is_multi h = true -> ~ gone x))).
Proof.
  intros Hh Ht Hwf. unfold may_overwrite. rewrite has_xmax_invalid. fold (bit h 11) (only_locked h).
  destruct (bit h 11) eqn:E11.
  { eexists. split; [done|]. left. split; [done|by apply hint_xmax_invalid]. }
  destruct (deleter_cases h Ht) as [[El Hd]|[(El & Em & x & Hx & Hv & Hd)|(El & Em & Hd)]]; rewrite El.
  - eexists. split; [done|]. left. split; [done|by apply delete_bad_none].
  - unfold HeapTupleHeaderIsOnlyLocked, HeapTupleHeaderGetRawXmax.
    rewrite has_xmax_invalid, has_lock_only, has_multi. fold (bit h 11) (bit h 7) (bit h 12) (is_multi h).
    assert (bit h 7 = false) as ->.
    { unfold only_locked in El. rewrite locked_only_bits in El. fold (bit h 7) in El. by destruct (bit h 7). }
    assert (TransactionIdIsValid (t_xmax h) = true) as ->.
    { destruct (wf_multi h Hwf E11 Em) as [_ Hm]. destruct Hm as [Hz _].
      - rewrite locked_upgraded_bits. unfold only_locked in El. rewrite locked_only_bits in El.
        destruct (Z.testbit (t_infomask h) 7); [done|]. by rewrite ?andb_false_r.
      - unfold TransactionIdIsValid. by destruct (Z.eqb_spec (t_xmax h) InvalidTransactionId). }
    rewrite E11, Em, Hx. cbn [negb cbind]. rewrite Hv. cbn [c_assert cbind].
    assert (forall b, (b = true -> delete_bad h) -> (b = false -> ~ gone x) ->
      exists r, (let* ok := Ret b in Ret (if (ok : bool) then HeapTupleMayBeUpdated else HeapTupleUpdated)) = Ret r /\
        ((r = HeapTupleMayBeUpdated /\ delete_bad h) \/
         (r = HeapTupleUpdated /\ false = false /\ exists x, deleter h = Some x /\ (true = true -> ~ gone x)))) as Hfin.
    { intros [] Hb Hg; eexists; (split; [done|]); [left; auto|right]. split_and!; [done..|]. exists x. auto. }
    destruct (xact_current x) eqn:Ec; [|destruct (xact_in_progress x) eqn:Ep; [|destruct (xact_did_commit x) eqn:Ed]];
      apply Hfin; try done; intros _.
    + intros [Hp _]. apply current_in_progress in Ec. congruence.
    + intros [? _]. congruence.
    + intros [_ ?]. congruence.
    + by eapply delete_bad_gone.
  - unfold HeapTupleHeaderIsOnlyLocked, HeapTupleHeaderGetRawXmax.
    rewrite has_xmax_invalid, has_lock_only, has_multi. fold (bit h 11) (bit h 7) (bit h 12) (is_multi h).
    assert (bit h 7 = false) as ->.
    { unfold only_locked in El. rewrite locked_only_bits in El. fold (bit h 7) in El. by destruct (bit h 7). }
    destruct (wf_single h Hwf E11 Em) as [-> _]. rewrite E11, Em. cbn [negb cbind].
    eexists. split; [done|]. right. split_and!; [done..|]. exists (t_xmax h). by split.
Qed.

Lemma has_xmax_done mask :
  has mask (Z.lor HEAP_XMAX_COMMITTED HEAP_XMAX_INVALID) = Z.testbit mask 10 || Z.testbit mask 11.
Proof.
  rewrite <- has_xmax_committed, <- has_xmax_invalid. unfold has. rewrite Z.land_lor_distr_r.
  destruct (Z.eqb_spec (Z.land mask HEAP_XMAX_COMMITTED) 0) as [->|Hc]; [done|].
  cbn [negb orb]. apply negb_true_iff, Z.eqb_neq. intros E. by apply Z.lor_eq_0_iff in E as [? _].
Qed.

(** The single transaction in xmax is over: either it is known to have left the
    tuple alone, or it deleted it. *)
Lemma update_hint_spec h buffer : hints_ok h -> tuple_ok h -> xmax_wf h -> is_multi h = false ->
  xact_in_progress (t_xmax h) = false ->
  exists h', UpdateXmaxHintBits h buffer (t_xmax h) = Ret h' /\ step_ok h h' /\ xmax_wf h' /\
    (bit h' 11 = false -> only_locked h = false -> committed (t_xmax h)).
Proof.
  intros Hh Ht Hwf Em Hp. unfold UpdateXmaxHintBits, HeapTupleHeaderGetRawXmax, TransactionIdEquals, HeapTupleSetHintBits.
  rewrite Z.eqb_refl, has_multi, has_xmax_done. fold (bit h 12) (bit h 10) (bit h 11) (is_multi h) (only_locked h).
  rewrite Em. cbn [negb c_assert cbind]. pose proof (step_ok_refl h Hh Ht) as Hrefl.
  destruct (bit h 10 || bit h 11) eqn:Eb; cbn [negb].
  { eexists. split; [done|]. split_and!; [done|done|]. intros E11 El. rewrite E11, orb_false_r in Eb.
    pose proof (hint_xmax_committed h Hh Eb E11) as Hg. unfold delete_good in Hg. by rewrite (deleter_single h Em El) in Hg. }
  apply orb_false_iff in Eb as [E10 E11].
  destruct (only_locked h) eqn:El; cbn [negb andb].
  - assert (step_ok h (SetHintBits h buffer HEAP_XMAX_INVALID InvalidTransactionId)) as Hs.
    { apply set_xmax_invalid_ok; try done. apply delete_bad_none. unfold deleter. by rewrite El. }
    destruct (set_invalid_bits h buffer) as [B11 B10]. eexists. split; [done|]. split_and!; [done| |done].
    apply (xmax_wf_step h); [apply Hs|done|]. rewrite B10. auto.
  - destruct (xact_did_commit (t_xmax h)) eqn:Ed.
    + assert (step_ok h (SetHintBits h buffer HEAP_XMAX_COMMITTED (t_xmax h))) as Hs.
      { apply set_xmax_committed_ok; try done. unfold delete_good. by rewrite (deleter_single h Em El). }
      eexists. split; [done|]. split_and!; [done| |done]. apply (xmax_wf_step h); [apply Hs|done|auto].
    + assert (step_ok h (SetHintBits h buffer HEAP_XMAX_INVALID InvalidTransactionId)) as Hs.
      { apply set_xmax_invalid_ok; try done. unfold delete_bad. by rewrite (deleter_single h Em El). }
      destruct (set_invalid_bits h buffer) as [B11 B10]. eexists. split; [done|]. split_and!; [done| |congruence].
      apply (xmax_wf_step h); [apply Hs|done|]. rewrite B10. auto.
Qed.

Lemma updater_alone h mask2 x : tuple_ok h -> is_multi h = true -> bit h 11 = false -> deleter h = Some x ->
  alone h mask2 -> xact_in_progress x = true -> xact_current x = true \/ xact_did_abort x = true.
Proof.
  intros Ht Em E11 Hd Hal Hp.
  destruct (deleter_cases h Ht) as [[_ Hd']|[(El & _ & y & Hy & Hv & Hd')|(_ & ? & _)]]; [congruence| |congruence].
  rewrite Hd in Hd'. injection Hd' as <-.
  assert (HEAP_LOCKED_UPGRADED (t_infomask h) = false) as Eu.
  { rewrite locked_upgraded_bits. unfold only_locked in El. rewrite locked_only_bits in El.
    destruct (Z.testbit (t_infomask h) 7); [done|]. by rewrite ?andb_false_r. }
  unfold HeapTupleGetUpdateXid, MultiXactIdGetUpdateXid, HeapTupleHeaderGetRawXmax in Hy.
  destruct (negb _); [|done]. destruct (has _ _); [|done]. cbn [c_assert cbind] in Hy.
  destruct (multi_members (t_xmax h) false false) as [l| |] eqn:El'; [|done|done]. cbn [cbind] in Hy.
  destruct (update_xact_member _ _ _ Hy) as [->|(m & Hin & <-)]; [done|].
  apply (Hal l m); [|done|done]. unfold holders. fold (bit h 11) (bit h 12) (is_multi h). by rewrite E11, Em, Eu.
Qed.

(** *** What the fate of the tuple is found to be *)
Definition delete_verdict (h : HeapTupleHeader) (mask2 : Z) (cid : CommandId) (wait : bool) (r : HTSU_Result) : Prop :=
  match r with
  | HeapTupleMayBeUpdated => delete_bad h /\ alone h mask2 /\ xmax_wf h
  | HeapTupleUpdated =>
      exists x, deleter h = Some x /\ (committed x \/ xact_in_progress x = true /\ xact_did_abort x = true)
  | HeapTupleSelfUpdated =>
      exists x, deleter h = Some x /\ xact_current x = true /\ cid_before (tuple_cmax h) cid = false
  | HeapTupleBeingUpdated => wait = false /\ xmax_busy h /\ bit h 11 = false
  | _ => False
  end.

(** The answer of [HeapTupleSatisfiesUpdate] is final. *)
Lemma look_verdict htup mask2 cid buffer wait r h' :
  hints_ok (t_data htup) -> tuple_ok (t_data htup) -> xmax_wf (t_data htup) ->
  HeapTupleSatisfiesUpdate htup cid buffer = Ret (r, h') -> step_ok (t_data htup) h' ->
  update_verdict (t_data htup) cid r -> r <> HeapTupleInvisible -> (r = HeapTupleBeingUpdated -> wait = false) ->
  delete_verdict h' mask2 cid wait r.
Proof.
  intros Hh Ht Hwf E (Hs & Hh' & Ht') Hv Hi Hw. destruct (update_rest _ _ _ _ _ E) as (H10 & Hr & H11).
  destruct (step_cids _ _ Hs) as [_ Ec]. pose proof (step_deleter _ _ Hs) as Ed.
  destruct r; cbn [update_verdict delete_verdict] in *; cbn zeta in *; try done.
  - destruct Hv as [_ Hbad]. rewrite <- (step_delete_bad _ _ Hs) in Hbad.
    assert (xmax_wf h') as Hwf' by (apply (xmax_wf_step (t_data htup)); [done|done|]; rewrite H10 by done; auto).
    split_and!; [done| |done]. by apply alone_at_rest; [| |apply Hr].
  - destruct Hv as (_ & x & Hd & ?). exists x. by rewrite Ed, Ec.
  - destruct Hv as (_ & x & Hd & ?). exists x. rewrite Ed. auto.
  - split; [by apply Hw|]. split; [|by apply H11]. destruct Hv as (_ & _ & Hb). unfold xmax_busy in *.
    by rewrite (step_multi _ _ Hs), (step_locked _ _ Hs), (step_xmax _ _ Hs).
Qed.

(** The answer after waiting, or without a reason to wait. *)
Lemma overwrite_verdict h mask2 cid wait r :
  hints_ok h -> tuple_ok h -> xmax_wf h -> alone h mask2 ->
  (forall x, deleter h = Some x -> xact_current x = false) ->
  (is_multi h = false -> only_locked h = false -> bit h 11 = false -> committed (t_xmax h)) ->
  may_overwrite h = Ret r -> delete_verdict h mask2 cid wait r.
Proof.
  intros Hh Ht Hwf Hal Hnc Hsg E. destruct (may_overwrite_spec h Hh Ht Hwf) as (r' & E' & Hr).
  rewrite E in E'. injection E' as <-. destruct Hr as [[-> Hbad]|(-> & E11 & x & Hd & Hg)]; [done|].
  exists x. split; [done|]. destruct (is_multi h) eqn:Em.
  - specialize (Hg eq_refl). destruct (xact_in_progress x) eqn:Ep.
    + right. split; [done|]. destruct (updater_alone h mask2 x Ht Em E11 Hd Hal Ep); [|done]. rewrite (Hnc x Hd) in *. done.
    + left. split; [done|]. destruct (xact_did_commit x) eqn:Ed; [done|]. by destruct Hg.
  - left. destruct (deleter_cases h Ht) as [[_ Hd']|[(_ & ? & _)|(El & _ & Hd')]]; [congruence..|].
    rewrite Hd in Hd'. injection Hd' as ->. by apply Hsg.
Qed.

Lemma single_status_hints h h' mask2 : hint_step h h' ->
  single_status (t_infomask h') mask2 = single_status (t_infomask h) mask2.
Proof.
  intros Hs. assert (Z.land (t_infomask h') HEAP_LOCK_MASK = Z.land (t_infomask h) HEAP_LOCK_MASK) as El.
  { apply Z.bits_inj'. intros k Hk. rewrite !Z.land_spec. fold (bit h' k) (bit h k).
    destruct (decide (k = 8 \/ k = 9 \/ k = 10 \/ k = 11)) as [Hh|Hh];
      [|by rewrite (step_only_hints _ _ Hs) by lia].
    destruct Hh as [->|[->|[->| ->]]]; by rewrite !andb_false_r. }
  unfold single_status, HEAP_XMAX_IS_KEYSHR_LOCKED, HEAP_XMAX_IS_SHR_LOCKED, HEAP_XMAX_IS_EXCL_LOCKED.
  fold (only_locked h') (only_locked h). by rewrite El, (step_locked _ _ Hs).
Qed.

(** Hints set later do not change the verdict that a tuple may be deleted. *)
Lemma holders_hints h h' mask2 l : hint_step h h' ->
  holders current_view (t_xmax h') (t_infomask h') mask2 = Ret l ->
  l = [] \/ holders current_view (t_xmax h) (t_infomask h) mask2 = Ret l.
Proof.
  intros Hs. unfold holders. rewrite (step_upgraded _ _ Hs), (step_xmax _ _ Hs).
  fold (bit h' 11) (bit h' 12) (bit h 11) (bit h 12). rewrite (step_only_hints _ _ Hs 12) by done.
  destruct (bit h' 11) eqn:E11; [intros [= <-]; by left|].
  assert (bit h 11 = false) as ->.
  { destruct (bit h 11) eqn:E; [|done]. by rewrite (step_keeps _ _ Hs 11 E) in E11. }
  assert (single_status (t_infomask h') mask2 = single_status (t_infomask h) mask2) as -> by (by apply single_status_hints).
  by right.
Qed.

Lemma may_delete_step h h' mask2 cid wait : hint_step h h' -> xmax_wf h' ->
  delete_verdict h mask2 cid wait HeapTupleMayBeUpdated -> delete_verdict h' mask2 cid wait HeapTupleMayBeUpdated.
Proof.
  intros Hs Hwf (Hbad & Hal & _). split_and!; [by rewrite (step_delete_bad _ _ Hs)| |done].
  intros l m Hl Hin. destruct (holders_hints _ _ _ _ Hs Hl) as [->|Hl']; [by apply not_elem_of_nil in Hin|by eapply Hal].
Qed.

(** No verdict against the deletion is given on a tuple marked as not deleted. *)
Lemma refused_valid h mask2 cid wait r : hints_ok h -> delete_verdict h mask2 cid wait r ->
  r <> HeapTupleMayBeUpdated -> bit h 11 = false.
Proof.
  intros Hh Hv Hr. destruct (bit h 11) eqn:E11; [exfalso|done]. pose proof (hint_xmax_invalid h Hh E11) as Hbad.
  unfold delete_bad in Hbad. destruct r; cbn [delete_verdict] in Hv; try done.
  - destruct Hv as (x & Hd & Hc & _). rewrite Hd in Hbad. destruct Hbad. apply current_in_progress in Hc. congruence.
  - destruct Hv as (x & Hd & Hc). rewrite Hd in Hbad. destruct Hbad. destruct Hc as [[? ?]|[? _]]; congruence.
  - destruct Hv as (_ & _ & ?). congruence.
Qed.

Lemma update_xid_spec h : tuple_ok h -> bit h 11 = false ->
  exists x, HeapTupleHeaderGetUpdateXid h = Ret x /\ forall y, deleter h = Some y -> x = y.
Proof.
  intros Ht E11. unfold HeapTupleHeaderGetUpdateXid, HeapTupleHeaderGetRawXmax.
  rewrite has_xmax_invalid, has_multi, has_lock_only. fold (bit h 11) (bit h 12) (bit h 7) (is_multi h). rewrite E11. cbn [negb andb].
  destruct (deleter_cases h Ht) as [[El Hd]|[(El & Em & x & Hx & Hv & Hd)|(El & Em & Hd)]].
  - assert (is_multi h && negb (bit h 7) = false) as ->.
    { unfold only_locked in El. rewrite locked_only_bits in El. unfold is_multi, bit in *.
      destruct (Z.testbit (t_infomask h) 12); [|done]. cbn [negb andb] in El. rewrite orb_false_r in El. by rewrite El. }
    eexists. split; [done|]. by rewrite Hd.
  - rewrite Em. assert (bit h 7 = false) as ->.
    { unfold only_locked in El. rewrite locked_only_bits in El. fold (bit h 7) in El. by destruct (bit h 7). }
    cbn [negb andb]. exists x. split; [done|]. rewrite Hd. congruence.
  - rewrite Em. eexists. split; [done|]. rewrite Hd. congruence.
Qed.

Lemma xmax_wf_ok h add : hints_ok h -> delete_bad h -> xmax_wf h -> xact_current add = true ->
  xmax_ok (t_xmax h) (t_infomask h) add.
Proof.
  intros Hh Hbad [Hm Hsg] Hc. constructor; [done|]. fold (bit h 11) (bit h 12) (bit h 10) (is_multi h) (only_locked h).
  intros E11 Em. destruct (Hsg E11 Em) as [Hv H10]. apply current_in_progress in Hc. unfold delete_bad in Hbad.
  split_and!; [done| |].
  - intros E10. split; [auto|]. intros Ea. rewrite (deleter_single h Em (H10 E10)) in Hbad. destruct Hbad as [Hb _]. rewrite Ea in Hb. congruence.
  - intros _ Ea. destruct (only_locked h) eqn:El; [done|]. rewrite (deleter_single h Em El) in Hbad. destruct Hbad as [Hb _]. rewrite Ea in Hb. congruence.
Qed.

Lemma xmax_wf_holders h mask2 : xmax_wf h ->
  exists old, holders current_view (t_xmax h) (t_infomask h) mask2 = Ret old.
Proof.
  intros [Hm _]. unfold holders. destruct (Z.testbit (t_infomask h) 11) eqn:E11; [by eexists|].
  destruct (Z.testbit (t_infomask h) 12) eqn:E12; [|by destruct (single_status _ _); eexists].
  destruct (HEAP_LOCKED_UPGRADED _) eqn:Eu; [by eexists|]. destruct (Hm E11 E12) as [_ Hl].
  destruct (Hl Eu) as (_ & l & El & _). by exists l.
Qed.
End Holding.

(** ** Stamping *)

(** Flags outside of those about xmax do not matter. *)
Lemma land_xmax_bits mask b : Z.land HEAP_XMAX_BITS b = b -> Z.land mask b = Z.land (Z.land mask HEAP_XMAX_BITS) b.
Proof. intros E. by rewrite <- Z.land_assoc, E. Qed.

Lemma testbit_xmax_bits mask k : Z.testbit HEAP_XMAX_BITS k = true ->
  Z.testbit mask k = Z.testbit (Z.land mask HEAP_XMAX_BITS) k.
Proof. intros E. by rewrite Z.land_spec, E, andb_true_r. Qed.

Section SameFlags.
Context (mask mask' mask2 mask2' : Z).
Context (Hsame : Z.land mask HEAP_XMAX_BITS = Z.land mask' HEAP_XMAX_BITS).
Context (Hkeys : has mask2 HEAP_KEYS_UPDATED = has mask2' HEAP_KEYS_UPDATED).

Lemma same_land b : Z.land HEAP_XMAX_BITS b = b -> Z.land mask b = Z.land mask' b.
Proof using Hsame. intros E. by rewrite (land_xmax_bits mask), (land_xmax_bits mask'), Hsame. Qed.

Lemma same_xmax_bit k : Z.testbit HEAP_XMAX_BITS k = true -> Z.testbit mask k = Z.testbit mask' k.
Proof using Hsame. intros E. by rewrite (testbit_xmax_bits mask), (testbit_xmax_bits mask'), Hsame. Qed.

Lemma same_locked_only : HEAP_XMAX_IS_LOCKED_ONLY mask = HEAP_XMAX_IS_LOCKED_ONLY mask'.
Proof using Hsame. rewrite !locked_only_bits. by rewrite !same_xmax_bit. Qed.

Lemma same_single_status : single_status mask mask2 = single_status mask' mask2'.
Proof using Hsame Hkeys.
  unfold single_status, HEAP_XMAX_IS_KEYSHR_LOCKED, HEAP_XMAX_IS_SHR_LOCKED, HEAP_XMAX_IS_EXCL_LOCKED.
  by rewrite same_locked_only, (same_land HEAP_LOCK_MASK), Hkeys.
Qed.

Lemma same_holders view xmax : holders view xmax mask mask2 = holders view xmax mask' mask2'.
Proof using Hsame Hkeys.
  unfold holders. rewrite same_single_status, !locked_upgraded_bits. by rewrite !same_xmax_bit.
Qed.

Lemma same_flags_describe l : flags_describe mask' mask2' l -> flags_describe mask mask2 l.
Proof using Hsame Hkeys.
  intros [H1 H2 H3]. constructor; [by rewrite same_locked_only|by rewrite Hkeys|]. by rewrite !same_xmax_bit.
Qed.
End SameFlags.

Definition stamped_bit (m nm : Z) (iscombo : bool) (k : Z) : bool :=
  if k =? 5 then iscombo
  else Z.testbit m k && negb (Z.testbit (Z.lor HEAP_XMAX_BITS HEAP_MOVED) k) || Z.testbit nm k.

Lemma ldiff_bit x b k : Z.ldiff x b = 0 -> Z.testbit b k = false -> Z.testbit x k = false.
Proof.
  intros E Hb. assert (Z.testbit (Z.ldiff x b) k = false) as Hz by (rewrite E; apply Z.bits_0).
  rewrite Z.ldiff_spec, Hb, andb_true_r in Hz. done.
Qed.

Lemma stamp_delete_spec tp mask2 xmax nm nm2 c iscombo :
  xmax_flags nm nm2 ->
  exists lt, stamp_delete tp mask2 xmax nm nm2 c iscombo = Ret lt /\
    t_xmin (lt_data lt) = t_xmin (t_data tp) /\ t_xmax (lt_data lt) = xmax /\ t_field3 (lt_data lt) = c /\
    t_ctid (lt_data lt) = t_self tp /\
    (forall k, 0 <= k -> bit (lt_data lt) k = stamped_bit (t_infomask (t_data tp)) nm iscombo k) /\
    has (lt_infomask2 lt) HEAP_KEYS_UPDATED = has nm2 HEAP_KEYS_UPDATED.
Proof.
  intros [Hn1 Hn2]. unfold stamp_delete, HeapTupleHeaderSetCmax. cbn [t_infomask t_data].
  set (m := t_infomask (t_data tp)). set (mask := Z.lor (clear_bits m _) nm).
  assert (forall k, Z.testbit mask k = Z.testbit m k && negb (Z.testbit (Z.lor HEAP_XMAX_BITS HEAP_MOVED) k) || Z.testbit nm k) as Hm.
  { intros k. unfold mask, clear_bits. by rewrite Z.lor_spec, Z.ldiff_spec. }
  assert (has mask HEAP_MOVED = false) as ->.
  { rewrite moved_bits, !Hm. rewrite (ldiff_bit nm _ 14 Hn1), (ldiff_bit nm _ 15 Hn1) by done.
    change (Z.testbit (Z.lor HEAP_XMAX_BITS HEAP_MOVED) 14) with true.
    change (Z.testbit (Z.lor HEAP_XMAX_BITS HEAP_MOVED) 15) with true. by rewrite !andb_false_r. }
  cbn [negb c_assert cbind]. eexists. split; [done|]. cbn [lt_data t_xmin t_xmax t_field3 t_ctid lt_infomask2].
  split_and!; [done..| |].
  - intros k Hk. unfold bit, stamped_bit. cbn [t_infomask]. rewrite <- Hm. change HEAP_COMBOCID with (2 ^ 5). unfold clear_bits.
    destruct iscombo; [rewrite Z.lor_spec|rewrite Z.ldiff_spec]; rewrite Z.pow2_bits_eqb by done; rewrite (Z.eqb_sym 5 k);
      destruct (k =? 5); by rewrite ?orb_true_r, ?orb_false_r, ?andb_true_r, ?andb_false_r.
  - change HEAP_KEYS_UPDATED with (2 ^ 13). rewrite !has_bit by done. unfold clear_bits.
    rewrite Z.ldiff_spec, Z.lor_spec, Z.ldiff_spec. change (Z.testbit (2 ^ 13) 13) with true.
    change (Z.testbit HEAP_HOT_UPDATED 13) with false. by rewrite andb_false_r, andb_true_r.
Qed.

Lemma stamped_xmax_bits (h : HeapTupleHeader) m nm nm2 iscombo : xmax_flags nm nm2 ->
  (forall k, 0 <= k -> bit h k = stamped_bit m nm iscombo k) ->
  Z.land (t_infomask h) HEAP_XMAX_BITS = Z.land nm HEAP_XMAX_BITS.
Proof.
  intros [Hn _] Hb. apply Z.bits_inj'. intros k Hk. rewrite !Z.land_spec. fold (bit h k). rewrite Hb by done.
  unfold stamped_bit. rewrite Z.lor_spec. destruct (Z.testbit HEAP_XMAX_BITS k) eqn:E; [|by rewrite !andb_false_r].
  rewrite !andb_true_r. destruct (Z.eqb_spec k 5) as [->|]; [done|]. cbn [orb negb]. by rewrite andb_false_r.
Qed.
