(* ===== verification/HeapDeleteTheorems.v ===== *)
(** What [heap_delete] guarantees: it stamps a tuple only when no other
    transaction has deleted it or holds a lock on it, what its other answers
    mean, that it comes to an end, and what it leaves in the tuple. *)
From stdpp Require Import list.
From S2P Require Import Prelude Transam HeapTuple Combocid Tqual TqualSpec TqualProofs TqualUpdate TqualTheorems MultiXact MultiXactProofs MultiXactLog MultiXactTheorems LockModes RowLock RowLockProofs RowLockTheorems HeapDelete HeapDeleteProofs.

Definition world_header (W : World) : HeapTupleHeader := lt_data (w_tuple W).

(** ** The tuple between two looks *)

Lemma infomask_same new old : xmax_infomask_changed new old = false ->
  forall k, k = 12 \/ k = 7 \/ k = 6 \/ k = 4 -> Z.testbit new k = Z.testbit old k.
Proof.
  unfold xmax_infomask_changed. intros E%negb_false_iff%Z.eqb_eq k Hk.
  assert (forall x, Z.testbit x k = Z.testbit (Z.land x 4304) k) as Hb.
  { intros x. rewrite Z.land_spec. destruct Hk as [->|[->|[->| ->]]]; by rewrite andb_true_r. }
  change (Z.lor (Z.lor HEAP_XMAX_IS_MULTI HEAP_XMAX_LOCK_ONLY) HEAP_LOCK_MASK) with 4304 in E.
  by rewrite Hb, E, <- Hb.
Qed.

Lemma infomask_changed_step h h' new : hint_step h h' ->
  xmax_infomask_changed new (t_infomask h') = xmax_infomask_changed new (t_infomask h).
Proof.
  intros Hs. unfold xmax_infomask_changed. do 2 f_equal.
  change (Z.lor (Z.lor HEAP_XMAX_IS_MULTI HEAP_XMAX_LOCK_ONLY) HEAP_LOCK_MASK) with 4304.
  apply Z.bits_inj'. intros k Hk. rewrite !Z.land_spec. fold (bit h' k) (bit h k).
  destruct (decide (k = 8 \/ k = 9 \/ k = 10 \/ k = 11)) as [Hh|Hh];
    [|rewrite (step_only_hints _ _ Hs) by lia; done].
  destruct Hh as [->|[->|[->| ->]]]; by rewrite !andb_false_r.
Qed.

Section Worlds.
Context `{Backend}.

(** The heap and the transaction system are in order. *)
Record world_ok (W : World) : Prop := {
  wo_laws : @BackendLaws (w_shared W) _;
  wo_store : @MultiStoreLaws (w_store W);
  wo_hints : @hints_ok (w_shared W) (world_header W);
  wo_tuple : @tuple_ok (w_shared W) _ (world_header W);
  wo_read : @multi_readable (w_shared W) (world_header W);
  wo_wf : @xmax_wf (w_shared W) (world_header W);
  wo_moved : bit (world_header W) 8 = false -> xact_current (t_xmin (world_header W)) = true ->
    was_moved (world_header W) = false
}.

(** What a wait achieves: [XactLockTableWait] returns when the transaction is
    over, [MultiXactIdWait] when all members but the backend's own are; and the
    members of a MultiXact do not change. *)
Record waited (W W' : World) : Prop := {
  wa_single : is_multi (world_header W) = false -> xact_current (t_xmax (world_header W)) = false ->
    @xact_in_progress (w_shared W') (t_xmax (world_header W)) = false;
  wa_multi : is_multi (world_header W) = true ->
    forall l m, @multi_members (w_shared W) (t_xmax (world_header W)) false false = Ret l -> m ∈ l ->
    xact_current (mx_xid m) = true \/ @xact_in_progress (w_shared W') (mx_xid m) = false;
  wa_same : is_multi (world_header W) = true ->
    @multi_members (w_shared W') (t_xmax (world_header W)) false false =
    @multi_members (w_shared W) (t_xmax (world_header W)) false false
}.

(** Nobody touched xmax during the wait. *)
Definition settled (W W' : World) : Prop :=
  xmax_infomask_changed (t_infomask (world_header W')) (t_infomask (world_header W)) = false /\
  t_xmax (world_header W') = t_xmax (world_header W).

Lemma settled_same W W' : settled W W' ->
  is_multi (world_header W') = is_multi (world_header W) /\ only_locked (world_header W') = only_locked (world_header W).
Proof.
  intros [Hc _]. pose proof (infomask_same _ _ Hc) as Hb. unfold is_multi, bit, only_locked.
  rewrite !locked_only_bits, (Hb 12), (Hb 7), (Hb 6), (Hb 4) by auto. done.
Qed.

Lemma settled_deleter W W' : settled W W' -> waited W W' ->
  @deleter (w_shared W') (world_header W') = @deleter (w_shared W) (world_header W).
Proof.
  intros Hs Hw. destruct (settled_same W W' Hs) as [Em El]. destruct Hs as [Hc Ex]. pose proof (infomask_same _ _ Hc) as Hb.
  unfold deleter. rewrite Em, El, Ex. destruct (only_locked (world_header W)); [done|]. destruct (is_multi (world_header W)) eqn:Emu; [|done].
  unfold HeapTupleGetUpdateXid, MultiXactIdGetUpdateXid, HeapTupleHeaderGetRawXmax.
  rewrite !has_lock_only, !has_multi, (Hb 7), (Hb 12), Ex, (wa_same _ _ Hw Emu) by auto. done.
Qed.
End Worlds.

(** ** Command ids *)

(** The backend once the combo command ids are [st]. *)
Definition with_combos `{Backend} (st : ComboState) : Backend :=
  {| xact_current := xact_current; combo_state := st; CritSectionCount := CritSectionCount |}.

Lemma adjust_cmax_spec `{SharedXacts} `{Backend} h cid :
  combo_ok combo_state -> tuple_ok h -> (bit h 8 = false -> xact_current (t_xmin h) = true -> was_moved h = false) ->
  exists c iscombo st, HeapTupleHeaderAdjustCmax h cid = Ret (c, iscombo, st) /\ combo_ok st /\
    (forall i, 0 <= i < usedComboCids combo_state -> zget (comboCids st) i = zget (comboCids combo_state) i) /\
    (if iscombo then GetRealCmax st c = Ret cid else c = cid) /\
    (bit h 8 = false -> xact_current (t_xmin h) = true ->
     iscombo = true /\ exists cmin, tuple_cmin h = Ret cmin /\ GetRealCmin st c = Ret cmin).
Proof.
  intros Hc Ht Hm. unfold HeapTupleHeaderAdjustCmax, HeapTupleHeaderXminCommitted, HeapTupleHeaderGetRawXmin.
  change (has (t_infomask h) HEAP_XMIN_COMMITTED) with (has (t_infomask h) (2 ^ 8)). rewrite has_bit by done. fold (bit h 8).
  destruct (bit h 8) eqn:E8; cbn [negb andb].
  { eexists _, false, _. split; [done|]. by split_and!. }
  destruct (xact_current (t_xmin h)) eqn:Ex.
  2:{ eexists _, false, _. split; [done|]. by split_and!. }
  destruct (get_cmin_own h Ht E8 (Hm eq_refl eq_refl) Ex) as (cmin & -> & Ec). cbn [cbind].
  destruct (get_combo_spec combo_state cmin cid Hc) as (id & st & -> & Hok & Hid & Hg & Hold & _). cbn [cbind].
  destruct (get_real_spec st id _ Hid Hg) as [E1 E2].
  exists id, true, st. split; [done|]. split_and!; [done..|]. intros _ _. split; [done|]. by exists cmin.
Qed.

Lemma unique_updater l m m' : (length (updaters l) <= 1)%nat -> m ∈ l -> m' ∈ l ->
  is_updater m = true -> is_updater m' = true -> m = m'.
Proof.
  intros Hone Hm Hm' Hu Hu'.
  assert (m ∈ updaters l) as Hf by (by apply list_elem_of_filter). assert (m' ∈ updaters l) as Hf' by (by apply list_elem_of_filter).
  destruct (updaters l) as [|u [|v r]]; [by apply not_elem_of_nil in Hf| |cbn in Hone; lia].
  apply list_elem_of_singleton in Hf, Hf'. congruence.
Qed.

Section Delete.
Context `{Backend} (worlds : nat -> World) (tid : ItemPointerData) (tableOid buffer : Z).
Context (Hok : forall k, world_ok (worlds k)) (Hwait : forall k, waited (worlds k) (worlds (S k))).
Context (Hcheck : forall h, check_htup (delete_tuple tid tableOid h) = Ret tt).

Definition look_ok (W : World) (h : HeapTupleHeader) : Prop := @step_ok (w_shared W) _ (world_header W) h.

(** The tuple is there, as far as the backend can see. *)
Definition there (W : World) (cid : CommandId) : Prop :=
  @inserted (w_shared W) _ (@xact_in_progress (w_shared W)) (cid_before (tuple_cmin (world_header W)) cid)
    (world_header W) = true.

(** [stuck] is what it takes to run out of fuel. *)
Definition check_spec (stuck : Prop) (n : nat) (cid : CommandId) (wait : bool) (c : cres (HTSU_Result * nat * HeapTupleHeader)) : Prop :=
  match c with
  | Ret (r, n', h) =>
      look_ok (worlds n') h /\ (exists k, (n <= k <= n')%nat /\ there (worlds k) cid) /\
      @delete_verdict (w_shared (worlds n')) _ (w_store (worlds n')) h (lt_infomask2 (w_tuple (worlds n'))) cid wait r
  | Elog e => e = "attempted to delete invisible tuple" /\
      exists k, (n <= k)%nat /\ @update_verdict (w_shared (worlds k)) _ (world_header (worlds k)) cid HeapTupleInvisible
  | Undef => stuck
  end.

Lemma check_spec_later (P Q : Prop) n cid wait c : (P -> Q) -> check_spec P (S n) cid wait c -> check_spec Q n cid wait c.
Proof.
  intros HPQ. destruct c as [[[r n'] h]|e|]; cbn; [|by intros (? & k & ? & ?); split; [|exists k; split; [lia|]]|done].
  intros (? & (k & ? & ?) & ?). split_and!; [done| |done]. exists k. split; [lia|done].
Qed.

(** The tuple after a wait during which xmax did not change, with the hints that
    are then set on it. *)
Lemma after_wait P n cid wait h :
  settled (worlds n) (worlds (S n)) -> there (worlds n) cid ->
  (forall x, @deleter (w_shared (worlds n)) (world_header (worlds n)) = Some x -> xact_current x = false) ->
  (is_multi (world_header (worlds n)) = false -> xact_current (t_xmax (world_header (worlds n))) = false) ->
  look_ok (worlds (S n)) h -> @xmax_wf (w_shared (worlds (S n))) h ->
  (is_multi h = false -> only_locked h = false -> bit h 11 = false -> @committed (w_shared (worlds (S n))) (t_xmax h)) ->
  check_spec P n cid wait (let* result := @may_overwrite (w_shared (worlds (S n))) _ h in Ret (result, S n, h)).
Proof.
  intros Hset Hth Hnc Hsg Hl Hwf Hcom. destruct Hl as (Hs & Hh & Ht). destruct (settled_same _ _ Hset) as [Em El].
  pose proof (wo_laws _ (Hok (S n))) as Hlaws.
  destruct (@may_overwrite_spec _ _ Hlaws h Hh Ht Hwf) as (r & E & _). rewrite E. cbn [cbind check_spec]. split_and!.
  - by split_and!.
  - exists n. split; [lia|done].
  - apply (@overwrite_verdict _ _ _ Hlaws); try done.
    + apply alone_members; rewrite (step_multi _ _ Hs), Em, (step_xmax _ _ Hs), (proj2 Hset).
      * intros Emu. left. by apply (wa_single _ _ (Hwait n)); [|apply Hsg].
      * intros Emu _ _ l m Hl Hin Hp. rewrite (wa_same _ _ (Hwait n) Emu) in Hl.
        destruct (wa_multi _ _ (Hwait n) Emu l m Hl Hin); [by left|congruence].
    + intros x. rewrite (step_deleter _ _ Hs), (settled_deleter _ _ Hset (Hwait n)). apply Hnc.
Qed.

Lemma changed_settled n h :
  hint_step (world_header (worlds n)) h ->
  let h' := world_header (worlds (S n)) in
  xmax_infomask_changed (t_infomask h') (t_infomask h) ||
    negb (TransactionIdEquals (HeapTupleHeaderGetRawXmax h') (HeapTupleHeaderGetRawXmax h)) = false <->
  settled (worlds n) (worlds (S n)).
Proof.
  intros Hs h'. rewrite (infomask_changed_step _ _ _ Hs). unfold settled, HeapTupleHeaderGetRawXmax, TransactionIdEquals.
  rewrite (step_xmax _ _ Hs), orb_false_iff, negb_false_iff, Z.eqb_eq. done.
Qed.

(** One round, where [again] is what [goto l1] does. *)
Definition check_round (again : cres (HTSU_Result * nat * HeapTupleHeader)) (n : nat) (cid : CommandId) (h : HeapTupleHeader)
  : cres (HTSU_Result * nat * HeapTupleHeader) :=
  let W := worlds n in
  let W' := worlds (S n) in
  let h' := world_header W' in
  let xwait := HeapTupleHeaderGetRawXmax h in
  let changed := xmax_infomask_changed (t_infomask h') (t_infomask h) ||
                 negb (TransactionIdEquals (HeapTupleHeaderGetRawXmax h') xwait) in
  if has (t_infomask h) HEAP_XMAX_IS_MULTI then
    let* conflict := @DoesMultiXactIdConflict (w_shared W) _ (w_store W) xwait (t_infomask h) LockTupleExclusive in
    if (conflict : bool) then
      if changed then again
      else let* result := @may_overwrite (w_shared W') _ h' in Ret (result, S n, h')
    else let* result := @may_overwrite (w_shared W) _ h in Ret (result, n, h)
  else if negb (xact_current xwait) then
    if changed then again
    else
      let* h' := @UpdateXmaxHintBits (w_shared W') h' buffer xwait in
      let* result := @may_overwrite (w_shared W') _ h' in Ret (result, S n, h')
  else let* result := @may_overwrite (w_shared W) _ h in Ret (result, n, h).

Lemma delete_check_S fuel n cid wait :
  delete_check worlds tid tableOid buffer (S fuel) n cid wait =
  let* (result, h) := @HeapTupleSatisfiesUpdate (w_shared (worlds n)) _
                        (delete_tuple tid tableOid (world_header (worlds n))) cid buffer in
  if decide (result = HeapTupleInvisible) then Elog "attempted to delete invisible tuple"
  else if negb (bool_decide (result = HeapTupleBeingUpdated) && wait) then Ret (result, n, h)
  else check_round (delete_check worlds tid tableOid buffer fuel (S n) cid wait) n cid h.
Proof. done. Qed.

(** Nobody is in the way already. *)
Lemma no_wait P n cid wait h :
  there (worlds n) cid -> look_ok (worlds n) h -> @xmax_wf (w_shared (worlds n)) h ->
  (forall x, @deleter (w_shared (worlds n)) h = Some x -> xact_current x = false) ->
  @alone (w_shared (worlds n)) _ (w_store (worlds n)) h (lt_infomask2 (w_tuple (worlds n))) ->
  (is_multi h = false -> only_locked h = true) ->
  check_spec P n cid wait (let* result := @may_overwrite (w_shared (worlds n)) _ h in Ret (result, n, h)).
Proof.
  intros Hth Hl Hwf Hnc Hal Hsg. destruct Hl as (Hs & Hh & Ht). pose proof (wo_laws _ (Hok n)) as Hlaws.
  destruct (@may_overwrite_spec _ _ Hlaws h Hh Ht Hwf) as (r & E & _). rewrite E. cbn [cbind check_spec]. split_and!.
  - by split_and!.
  - by exists n.
  - apply (@overwrite_verdict _ _ _ Hlaws); try done. intros Em El. rewrite (Hsg Em) in El. done.
Qed.

Lemma check_round_spec P again n cid wait h :
  there (worlds n) cid -> look_ok (worlds n) h -> @xmax_wf (w_shared (worlds n)) h -> bit h 11 = false ->
  (forall x, @deleter (w_shared (worlds n)) (world_header (worlds n)) = Some x -> xact_current x = false) ->
  (~ settled (worlds n) (worlds (S n)) -> check_spec P n cid wait again) ->
  check_spec P n cid wait (check_round again n cid h).
Proof.
  intros Hth Hl Hwf E11 Hnc Hag. destruct Hl as (Hs & Hh & Ht). pose proof (@step_deleter (w_shared (worlds n)) _ _ Hs) as Ed.
  unfold check_round. cbn zeta. rewrite has_multi. fold (bit h 12) (is_multi h).
  pose proof (changed_settled n h Hs) as Hch. cbn zeta in Hch.
  set (changed := xmax_infomask_changed _ _ || _) in *. unfold HeapTupleHeaderGetRawXmax.
  assert (changed = true -> check_spec P n cid wait again) as Hagain.
  { intros Ec. apply Hag. intros Hset%Hch. congruence. }
  destruct (Hok (S n)) as [Hlaws Hstore Hh1 Ht1 Hr1 Hwf1 _].
  destruct (is_multi h) eqn:Em.
  - destruct (@no_conflict_alone _ _ (w_store (worlds n)) h (lt_infomask2 (w_tuple (worlds n))) Hwf E11 Em) as (b & -> & Hal).
    cbn [cbind]. destruct b.
    + destruct changed eqn:Ec; [auto|]. pose proof (proj1 Hch eq_refl) as Hset. pose proof (settled_same _ _ Hset) as [Em1 _].
      rewrite (step_multi _ _ Hs) in Em. by apply after_wait; try done; congruence.
    + apply no_wait; try done; [by intros x; rewrite Ed; apply Hnc|by apply Hal|congruence].
  - destruct (xact_current (t_xmax h)) eqn:Ec; cbn [negb].
    + assert (only_locked h = true) as El.
      { destruct (only_locked h) eqn:El; [done|]. rewrite (Hnc (t_xmax h)) in Ec; [done|]. rewrite <- Ed. by apply deleter_single. }
      apply no_wait; try done; [by intros x; rewrite Ed; apply Hnc|]. apply alone_members; [auto|congruence].
    + destruct changed eqn:Ech; [auto|]. pose proof (proj1 Hch eq_refl) as Hset. pose proof (settled_same _ _ Hset) as [Em1 El1].
      rewrite (step_multi _ _ Hs) in Em. rewrite (step_xmax _ _ Hs) in *. rewrite <- (proj2 Hset).
      assert (@xact_in_progress (w_shared (worlds (S n))) (t_xmax (world_header (worlds (S n)))) = false) as Hp.
      { rewrite (proj2 Hset). by apply (wa_single _ _ (Hwait n)). }
      destruct (@update_hint_spec (w_shared (worlds (S n))) _ (world_header (worlds (S n))) buffer Hh1 Ht1 Hwf1
        ltac:(congruence) Hp) as (h1 & E1 & Hs1 & Hwf2 & Hcom). rewrite E1. cbn [cbind].
      apply after_wait; try done. intros _ El2 Hb. destruct Hs1 as [Hs1 _]. rewrite (step_xmax _ _ Hs1).
      apply Hcom; [done|]. by rewrite <- (step_locked _ _ Hs1).
Qed.

(** The checks of [heap_delete]: without an answer after [fuel] rounds, others
    changed xmax during each wait. *)
Lemma delete_check_spec fuel : forall n cid wait,
  check_spec (forall k, (n <= k < n + fuel)%nat -> ~ settled (worlds k) (worlds (S k))) n cid wait
    (delete_check worlds tid tableOid buffer fuel n cid wait).
Proof.
  induction fuel as [|fuel IH]; intros n cid wait; [cbn; lia|]. rewrite delete_check_S.
  destruct (Hok n) as [Hlaws Hstore Hh Ht Hr Hwf _].
  destruct (@update_answer _ _ Hlaws (delete_tuple tid tableOid (world_header (worlds n))) cid buffer)
    as (r & h & E & Hs & Hv); [apply Hcheck|done|done|done|]. rewrite E. cbn [cbind].
  destruct (decide (r = HeapTupleInvisible)) as [->|Hi]; [cbn; split; [done|]; by exists n|].
  assert (there (worlds n) cid) as Hth.
  { unfold there. destruct r; cbn [update_verdict] in Hv; cbn zeta in Hv; [apply Hv|done|apply Hv|apply Hv|apply Hv|done]. }
  destruct (negb (bool_decide (r = HeapTupleBeingUpdated) && wait)) eqn:Ew.
  - cbn [check_spec]. split_and!; [done|by exists n|]. apply (@look_verdict _ _ (w_store (worlds n)) (delete_tuple tid tableOid (world_header (worlds n))) _ _ buffer); try done.
    intros ->. cbn in Ew. by destruct wait.
  - apply negb_false_iff, andb_true_iff in Ew as [->%bool_decide_eq_true ->].
    destruct (update_rest _ _ _ _ _ E) as (H10 & _ & H11). destruct Hv as (_ & Hnc & _).
    apply check_round_spec; try done; [|by apply H11|].
    + apply (@xmax_wf_step _ (world_header (worlds n))); [apply Hs|done|]. rewrite H10 by done. auto.
    + intros Hset. eapply check_spec_later; [|apply IH]. intros Hst k Hk.
      destruct (decide (k = n)) as [->|Hne]; [done|]. apply Hst. lia.
Qed.

(** ** The deletion *)

(** [lt], [view] and [combo] are what a deletion by [xid] in command [cid] leaves
    of the tuple that was found as [h] in [W]. *)
Record deletion (W : World) (h : HeapTupleHeader) (xid : TransactionId) (cid : CommandId) (changingPart : bool)
    (lt : LockedTuple) (view : MultiView) (combo : ComboState) : Prop := {
  del_not_deleted : @delete_bad (w_shared W) h;
  del_alone : @alone (w_shared W) _ (w_store W) h (lt_infomask2 (w_tuple W));
  del_holders : exists old new,
    holders (@current_view (w_shared W)) (t_xmax h) (t_infomask h) (lt_infomask2 (w_tuple W)) = Ret old /\
    holders view (t_xmax (lt_data lt)) (t_infomask (lt_data lt)) (lt_infomask2 lt) = Ret new /\
    flags_describe (t_infomask (lt_data lt)) (lt_infomask2 lt) new /\
    @holders_step (w_shared W) old new xid LockTupleExclusive true /\
    (forall m, m ∈ new -> is_updater m = true -> mx_xid m = xid);
  del_cmax : @tuple_cmax (with_combos combo) (lt_data lt) = Ret cid;
  del_cmin : bit h 8 = false -> xact_current (t_xmin h) = true ->
    @tuple_cmin (with_combos combo) (lt_data lt) = tuple_cmin h;
  del_inserter : t_xmin (lt_data lt) = t_xmin h /\ bit (lt_data lt) 8 = bit h 8 /\ bit (lt_data lt) 9 = bit h 9 /\
    was_moved (lt_data lt) = false;
  del_ctid : t_ctid (lt_data lt) = if changingPart then MovedPartitions else tid
}.

(** From "CheckForSerializableConflictIn" to the end. *)
Definition delete_stamp (W : World) (h : HeapTupleHeader) (xid : TransactionId) (cid : CommandId) (changingPart : bool)
  : cres delete_result :=
  let* (ci, combo) := HeapTupleHeaderAdjustCmax h cid in
  let* (xm, view) :=
    @compute_new_xmax_infomask (w_shared W) _ (w_store W) (HeapTupleHeaderGetRawXmax h) (t_infomask h)
      (lt_infomask2 (w_tuple W)) xid LockTupleExclusive true in
  let* lt := stamp_delete (delete_tuple tid tableOid h) (lt_infomask2 (w_tuple W)) xm.1.1 xm.1.2 xm.2 ci.1 ci.2 in
  let lt := if changingPart
            then {| lt_data := {| t_xmin := t_xmin (lt_data lt); t_xmax := t_xmax (lt_data lt);
                                  t_field3 := t_field3 (lt_data lt); t_ctid := MovedPartitions;
                                  t_infomask := t_infomask (lt_data lt) |};
                    lt_infomask2 := lt_infomask2 lt |}
            else lt in
  Ret (Deleted lt view combo).

Lemma delete_stamp_spec W h xid cid changingPart :
  world_ok W -> look_ok W h -> combo_ok combo_state -> xact_current xid = true -> TransactionIdIsValid xid = true ->
  @delete_bad (w_shared W) h -> @alone (w_shared W) _ (w_store W) h (lt_infomask2 (w_tuple W)) -> @xmax_wf (w_shared W) h ->
  match delete_stamp W h xid cid changingPart with
  | Ret (Deleted lt view combo) => deletion W h xid cid changingPart lt view combo /\ combo_ok combo
  | Ret (NotDeleted _ _ _) => False
  | Elog e => exists l, @multi_create (w_store W) l = Elog e
  | Undef => False
  end.
Proof.
  intros Hw (Hs & Hh & Ht) Hcombo Hcur Hv Hbad Hal Hwf. destruct Hw as [Hlaws Hstore _ _ _ _ Hmoved].
  unfold delete_stamp, HeapTupleHeaderGetRawXmax.
  destruct (@adjust_cmax_spec (w_shared W) _ h cid Hcombo Ht) as (c & iscombo & st & -> & Hst & _ & Hcmax & Hcmin).
  { intros E8. rewrite (step_xmin _ _ Hs). destruct (step_moved _ _ Hs) as (_ & _ & ->). apply Hmoved.
    destruct (bit (world_header W) 8) eqn:E; [|done]. by rewrite (step_keeps _ _ Hs 8 E) in E8. }
  cbn [cbind]. destruct (@xmax_wf_holders (w_shared W) h (lt_infomask2 (w_tuple W)) Hwf) as [old Hold].
  pose proof (@compute_new_xmax_spec (w_shared W) _ (w_store W) Hstore Hlaws (t_xmax h) (t_infomask h) (lt_infomask2 (w_tuple W)) xid
    (@xmax_wf_ok _ _ Hlaws h xid Hh Hbad Hwf Hcur) LockTupleExclusive true old Hcur Hv ltac:(cbn; lia) Hold) as Hnew.
  destruct (compute_new_xmax_infomask _ _ _ _ _ _) as [[[[xm nm] nm2] view]|e|]; [|done|done]. cbn [cbind fst snd].
  destruct Hnew as (new & Hhold & Hf & Hfl & Hstep).
  destruct (stamp_delete_spec (delete_tuple tid tableOid h) (lt_infomask2 (w_tuple W)) xm nm nm2 c iscombo Hfl)
    as (lt & -> & Emin & Emax & E3 & Ect & Hb & Hk). cbn [cbind].
  pose proof (stamped_xmax_bits _ _ _ _ _ Hfl Hb) as Hx. destruct Hfl as [Hfl _].
  split; [|done]. set (lt' := if changingPart then _ else lt).
  assert (t_xmin (lt_data lt') = t_xmin h /\ t_xmax (lt_data lt') = xm /\ t_field3 (lt_data lt') = c /\
    t_infomask (lt_data lt') = t_infomask (lt_data lt) /\ lt_infomask2 lt' = lt_infomask2 lt /\
    t_ctid (lt_data lt') = if changingPart then MovedPartitions else tid) as (F1 & F2 & F3 & F4 & F5 & F6)
    by (unfold lt'; destruct changingPart; done).
  assert (forall k, 0 <= k -> bit (lt_data lt') k = stamped_bit (t_infomask h) nm iscombo k) as Hb'.
  { intros k Hk0. unfold bit. rewrite F4. by apply Hb. }
  assert (forall k, Z.testbit HEAP_XMAX_BITS k = false -> 0 <= k -> k <> 5 ->
    bit (lt_data lt') k = bit h k && negb (Z.testbit HEAP_MOVED k)) as Hkeep.
  { intros k Hxk Hk0 Hk5. rewrite Hb' by done. unfold stamped_bit. rewrite (ldiff_bit nm _ k Hfl), Z.lor_spec, Hxk by done.
    destruct (Z.eqb_spec k 5); [done|]. apply orb_false_r. }
  constructor; try done.
  - exists old, new. rewrite F2, F4, F5. split_and!; try done.
    + rewrite <- Hhold. apply same_holders; done.
    + by apply (same_flags_describe _ nm _ nm2).
    + intros m Hm Hu. destruct (hs_held _ _ _ _ _ Hstep) as (status & Hin & _ & _ & Hup).
      by rewrite (unique_updater new m _ (hs_single _ _ _ _ _ Hstep) Hm Hin Hu Hup).
  - unfold tuple_cmax. rewrite Hb', F3 by done. cbn. by destruct iscombo; [|subst].
  - intros E8 Ex. destruct (Hcmin E8 Ex) as (-> & cmin & -> & E). unfold tuple_cmin. by rewrite Hb', F3 by done.
  - split; [done|]. unfold was_moved. rewrite !Hkeep by done. cbn. by rewrite !andb_true_r, !andb_false_r.
Qed.

(** What a crosscheck may do: answer, and set hints like the other visibility
    routines. *)
Definition Crosscheck : Type := option (SharedXacts -> HeapTuple -> Z -> cres (bool * HeapTupleHeader)).
Definition crosscheck_ok (crosscheck : Crosscheck) : Prop :=
  forall test n h, crosscheck = Some test -> look_ok (worlds n) h -> @xmax_wf (w_shared (worlds n)) h ->
  exists v h', test (w_shared (worlds n)) (delete_tuple tid tableOid h) buffer = Ret (v, h') /\
    @step_ok (w_shared (worlds n)) _ h h' /\ @xmax_wf (w_shared (worlds n)) h'.

(** The crosscheck said [v] of a tuple that may be deleted, and left it as [h]. *)
Definition crosschecked (crosscheck : Crosscheck) (cid : CommandId) (wait v : bool) (n : nat) (h : HeapTupleHeader) : Prop :=
  exists test h0, crosscheck = Some test /\
    @delete_verdict (w_shared (worlds n)) _ (w_store (worlds n)) h0 (lt_infomask2 (w_tuple (worlds n))) cid wait HeapTupleMayBeUpdated /\
    test (w_shared (worlds n)) (delete_tuple tid tableOid h0) buffer = Ret (v, h).

Definition crosscheck_step (crosscheck : Crosscheck) (n : nat) (result : HTSU_Result) (h : HeapTupleHeader)
  : cres (HTSU_Result * HeapTupleHeader) :=
  match crosscheck with
  | Some test =>
      if decide (result = HeapTupleMayBeUpdated) then
        let* (visible, h) := test (w_shared (worlds n)) (delete_tuple tid tableOid h) buffer in
        Ret (if (visible : bool) then result else HeapTupleUpdated, h)
      else Ret (result, h)
  | None => Ret (result, h)
  end.

(** After the crosscheck the verdict stands, or the tuple was rejected. *)
Lemma crosscheck_step_spec crosscheck n r h cid wait :
  crosscheck_ok crosscheck -> look_ok (worlds n) h ->
  @delete_verdict (w_shared (worlds n)) _ (w_store (worlds n)) h (lt_infomask2 (w_tuple (worlds n))) cid wait r ->
  exists r' h', crosscheck_step crosscheck n r h = Ret (r', h') /\ look_ok (worlds n) h' /\
    ((@delete_verdict (w_shared (worlds n)) _ (w_store (worlds n)) h' (lt_infomask2 (w_tuple (worlds n))) cid wait r' /\
      (r' = HeapTupleMayBeUpdated -> crosscheck = None \/ crosschecked crosscheck cid wait true n h')) \/
     (r' = HeapTupleUpdated /\ crosschecked crosscheck cid wait false n h')).
Proof.
  intros Hx Hl Hv. unfold crosscheck_step. destruct crosscheck as [test|] eqn:Ex.
  2:{ exists r, h. split_and!; [done..|]. left. auto. }
  destruct (decide (r = HeapTupleMayBeUpdated)) as [->|Hr].
  2:{ exists r, h. split_and!; [done..|]. left. done. }
  destruct (Hx test n h eq_refl Hl (proj2 (proj2 Hv))) as (v & h' & E & Hs & Hwf). rewrite E. cbn [cbind].
  exists (if v then HeapTupleMayBeUpdated else HeapTupleUpdated), h'. split; [done|]. split.
  { destruct Hl as (Hl & _). by eapply step_ok_trans. }
  assert (crosschecked (Some test) cid wait v n h') as Hc by (by exists test, h).
  destruct v; [|by right]. left. split; [|by right].
  by apply (@may_delete_step _ _ (w_store (worlds n)) h); [apply Hs| |].
Qed.

Lemma heap_delete_unfold fuel xid cid crosscheck wait changingPart : ItemPointerIsValid tid = true ->
  heap_delete worlds tid tableOid buffer fuel false xid cid crosscheck wait changingPart =
  let* (rn, h) := delete_check worlds tid tableOid buffer fuel 0 cid wait in
  let '(result, n) := rn in
  let* (result, h) := crosscheck_step crosscheck n result h in
  if decide (result <> HeapTupleMayBeUpdated) then
    c_assert (bool_decide (result = HeapTupleSelfUpdated \/ result = HeapTupleUpdated \/ result = HeapTupleBeingUpdated)) ;;
    c_assert (negb (has (t_infomask h) HEAP_XMAX_INVALID)) ;;
    let* xmax := @HeapTupleHeaderGetUpdateXid (w_shared (worlds n)) h in
    let* cmax := (if decide (result = HeapTupleSelfUpdated) then @HeapTupleHeaderGetCmax (w_shared (worlds n)) _ h
                  else Ret InvalidCommandId) in
    Ret (NotDeleted result {| hufd_ctid := t_ctid h; hufd_xmax := xmax; hufd_cmax := cmax |} h)
  else delete_stamp (worlds n) h xid cid changingPart.
Proof. intros E. unfold heap_delete. rewrite E. done. Qed.

(** What a refusal tells: the link to the next version, the deleter, and for an
    own deletion its command. *)
Definition refusal_data (W : World) (r : HTSU_Result) (hufd : HeapUpdateFailureData) (h : HeapTupleHeader) : Prop :=
  hufd_ctid hufd = t_ctid h /\ (forall x, @deleter (w_shared W) h = Some x -> hufd_xmax hufd = x) /\
  (if decide (r = HeapTupleSelfUpdated) then tuple_cmax h = Ret (hufd_cmax hufd)
   else hufd_cmax hufd = InvalidCommandId).

Lemma refused_spec n r h cid wait :
  look_ok (worlds n) h -> r <> HeapTupleMayBeUpdated -> bit h 11 = false ->
  @delete_verdict (w_shared (worlds n)) _ (w_store (worlds n)) h (lt_infomask2 (w_tuple (worlds n))) cid wait r \/
    r = HeapTupleUpdated ->
  exists hufd,
   (c_assert (bool_decide (r = HeapTupleSelfUpdated \/ r = HeapTupleUpdated \/ r = HeapTupleBeingUpdated)) ;;
    c_assert (negb (has (t_infomask h) HEAP_XMAX_INVALID)) ;;
    let* xmax := @HeapTupleHeaderGetUpdateXid (w_shared (worlds n)) h in
    let* cmax := (if decide (r = HeapTupleSelfUpdated) then @HeapTupleHeaderGetCmax (w_shared (worlds n)) _ h
                  else Ret InvalidCommandId) in
    Ret (NotDeleted r {| hufd_ctid := t_ctid h; hufd_xmax := xmax; hufd_cmax := cmax |} h)) = Ret (NotDeleted r hufd h) /\
   refusal_data (worlds n) r hufd h.
Proof.
  intros (Hs & Hh & Ht) Hr E11 Hver.
  rewrite bool_decide_eq_true_2 by (destruct Hver as [Hver | ->]; [destruct r; auto; done|auto]).
  rewrite has_xmax_invalid. fold (bit h 11). rewrite E11.
  cbn [c_assert negb cbind]. destruct (@update_xid_spec (w_shared (worlds n)) _ h Ht E11) as (x & -> & Hx). cbn [cbind].
  unfold refusal_data. destruct (decide (r = HeapTupleSelfUpdated)) as [->|Hns].
  - destruct Hver as [Hver|?]; [|done]. destruct Hver as (y & Hd & Hc & Hcid).
    destruct (@get_cmax_own (w_shared (worlds n)) _ h y Ht E11 Hd Hc) as (c & -> & Ec).
    cbn [cbind]. eexists. by split_and!.
  - cbn [cbind]. eexists. by split_and!.
Qed.

Lemma heap_delete_spec fuel parallel xid cid crosscheck wait changingPart :
  ItemPointerIsValid tid = true -> combo_ok combo_state -> xact_current xid = true -> TransactionIdIsValid xid = true ->
  crosscheck_ok crosscheck ->
  match heap_delete worlds tid tableOid buffer fuel parallel xid cid crosscheck wait changingPart with
  | Ret (Deleted lt view combo) => parallel = false /\
      exists n h, look_ok (worlds n) h /\ (exists k, (k <= n)%nat /\ there (worlds k) cid) /\
      deletion (worlds n) h xid cid changingPart lt view combo /\ combo_ok combo /\
      (crosscheck = None \/ crosschecked crosscheck cid wait true n h)
  | Ret (NotDeleted r hufd h) => parallel = false /\
      exists n, look_ok (worlds n) h /\ r <> HeapTupleMayBeUpdated /\ refusal_data (worlds n) r hufd h /\
      (@delete_verdict (w_shared (worlds n)) _ (w_store (worlds n)) h (lt_infomask2 (w_tuple (worlds n))) cid wait r \/
       r = HeapTupleUpdated /\ crosschecked crosscheck cid wait false n h)
  | Elog e =>
      (e = "cannot delete tuples during a parallel operation" /\ parallel = true) \/
      (e = "attempted to delete invisible tuple" /\
       exists k, @update_verdict (w_shared (worlds k)) _ (world_header (worlds k)) cid HeapTupleInvisible) \/
      exists n l, @multi_create (w_store (worlds n)) l = Elog e
  | Undef => (forall k, (k < fuel)%nat -> ~ settled (worlds k) (worlds (S k))) \/
      exists n h, crosschecked crosscheck cid wait false n h /\ bit h 11 = true
  end.
Proof.
  intros Htid Hcombo Hcur Hv Hx. destruct parallel; [unfold heap_delete; rewrite Htid; by left|].
  rewrite heap_delete_unfold by done. pose proof (delete_check_spec fuel 0 cid wait) as Hc.
  destruct (delete_check worlds tid tableOid buffer fuel 0 cid wait) as [[[r n] h]|e|]; cbn [cbind check_spec] in *.
  2:{ right. left. destruct Hc as (-> & k & _ & ?). split; [done|]. by exists k. }
  2:{ left. intros k Hk. apply Hc. lia. }
  destruct Hc as (Hl & (k & Hk & Hth) & Hver). pose proof (wo_laws _ (Hok n)) as Hlaws.
  destruct (crosscheck_step_spec crosscheck n r h cid wait Hx Hl Hver) as (r' & h' & -> & Hl' & Hout). cbn [cbind].
  destruct (decide (r' <> HeapTupleMayBeUpdated)) as [Hr|Hr].
  - destruct (bit h' 11) eqn:E11.
    { destruct Hout as [[Hver' _]|[-> Hrej]].
      - pose proof (@refused_valid _ _ (w_store (worlds n)) Hlaws _ _ _ _ _ (proj1 (proj2 Hl')) Hver' Hr). congruence.
      - rewrite has_xmax_invalid. fold (bit h' 11). rewrite E11. right. by exists n, h'. }
    destruct (refused_spec n r' h' cid wait Hl' Hr E11) as (hufd & -> & Hd); [destruct Hout as [[? _]|[? _]]; auto|].
    split; [done|]. exists n. split_and!; [done..|]. destruct Hout as [[? _]|?]; auto.
  - assert (r' = HeapTupleMayBeUpdated) as -> by (by apply dec_stable). destruct Hout as [[Hver' Hcr]|[? _]]; [|done].
    destruct Hver' as (Hbad & Hal & Hwf).
    pose proof (delete_stamp_spec (worlds n) h' xid cid changingPart (Hok n) Hl' Hcombo Hcur Hv Hbad Hal Hwf) as Hd.
    destruct (delete_stamp _ _ _ _ _) as [[lt view combo|]|e|]; [|done| |done].
    + split; [done|]. exists n, h'. split_and!; [done| |by destruct Hd..|auto]. exists k. split; [lia|done].
    + right. right. exists n. done.
Qed.
End Delete.

(** ** The properties *)

(** Executions: at every moment the heap and the transaction system are in
    order, and a wait has the effect it should. *)
Record execution_ok `{Backend} (worlds : nat -> World) (tid : ItemPointerData) (tableOid : Z) : Prop := {
  ex_world : forall k, world_ok (worlds k);
  ex_wait : forall k, waited (worlds k) (worlds (S k));
  ex_tid : ItemPointerIsValid tid = true;
  ex_oid : tableOid <> 0
}.

Lemma execution_check `{Backend} worlds tid tableOid h :
  execution_ok worlds tid tableOid -> check_htup (delete_tuple tid tableOid h) = Ret tt.
Proof.
  intros [_ _ Ht Ho]. unfold check_htup, delete_tuple. cbn [t_self t_tableOid]. rewrite Ht.
  by destruct (Z.eqb_spec tableOid 0).
Qed.

(** C1. No update is lost: when [heap_delete] goes ahead, then at the moment it
    does, with the buffer locked, nobody has deleted or updated the tuple (its
    deleter, if xmax names one, has aborted), and nobody else has it locked: a
    running holder is one of the backend's own transactions, or an updater that
    is aborting.  What it leaves in the tuple names the deleting transaction as
    the only updater and keeps the backend's own locks; its command is found
    again as the deleting command, and that of an insertion by the same
    transaction still as the inserting one. *)
Theorem heap_delete_exclusive `{Backend} worlds tid tableOid buffer fuel xid cid wait changingPart lt view combo :
  execution_ok worlds tid tableOid -> combo_ok combo_state -> xact_current xid = true -> TransactionIdIsValid xid = true ->
  heap_delete worlds tid tableOid buffer fuel false xid cid None wait changingPart = Ret (Deleted lt view combo) ->
  exists n h, look_ok (worlds n) h /\ (exists k, (k <= n)%nat /\ there (worlds k) cid) /\
    deletion tid (worlds n) h xid cid changingPart lt view combo /\ combo_ok combo.
Proof.
  intros He Hc Hx Hv E.
  pose proof (heap_delete_spec worlds tid tableOid buffer (ex_world _ _ _ He) (ex_wait _ _ _ He)
    (fun h => execution_check _ _ _ h He) fuel false xid cid None wait changingPart (ex_tid _ _ _ He) Hc Hx Hv
    ltac:(done)) as Hs.
  rewrite E in Hs. destruct Hs as (_ & n & h & ? & ? & ? & ? & _). by exists n, h.
Qed.

(** C27. Every outcome of [heap_delete], with or without a snapshot to crosscheck
    the tuple against, and there is an outcome.  It refuses to work in a
    parallel operation.  It deletes the tuple only after the crosscheck, if
    there is one, found it visible.  "Updated" is answered when the tuple's
    deleter has committed, or is aborting: marked as aborted while it still
    counts as running; or when the crosscheck rejected a tuple that could have
    been deleted.  "Self updated" is answered when the own transaction has
    deleted it in this command or a later one, "being updated" only to callers
    that do not wait.  The deleter and the link to the next version are
    reported.  It is an error to delete a tuple that is not there, and the only
    other errors are those of creating a MultiXact.  An assertion fails only when
    the crosscheck rejects a tuple whose xmax is marked as invalid, and it waits
    again only if others changed xmax during the last wait. *)
Theorem heap_delete_answers `{Backend} worlds tid tableOid buffer fuel parallel xid cid crosscheck wait changingPart :
  execution_ok worlds tid tableOid -> combo_ok combo_state -> xact_current xid = true -> TransactionIdIsValid xid = true ->
  crosscheck_ok worlds tid tableOid buffer crosscheck ->
  (exists k, (k < fuel)%nat /\ settled (worlds k) (worlds (S k))) ->
  match heap_delete worlds tid tableOid buffer fuel parallel xid cid crosscheck wait changingPart with
  | Ret (Deleted lt view combo) => parallel = false /\
      exists n h, look_ok (worlds n) h /\ deletion tid (worlds n) h xid cid changingPart lt view combo /\
      (crosscheck = None \/ crosschecked worlds tid tableOid buffer crosscheck cid wait true n h)
  | Ret (NotDeleted r hufd h) => parallel = false /\
      exists n, look_ok (worlds n) h /\ r <> HeapTupleMayBeUpdated /\ refusal_data (worlds n) r hufd h /\
      (@delete_verdict (w_shared (worlds n)) _ (w_store (worlds n)) h (lt_infomask2 (w_tuple (worlds n))) cid wait r \/
       r = HeapTupleUpdated /\ crosschecked worlds tid tableOid buffer crosscheck cid wait false n h)
  | Elog e =>
      (e = "cannot delete tuples during a parallel operation" /\ parallel = true) \/
      (e = "attempted to delete invisible tuple" /\
       exists k, @update_verdict (w_shared (worlds k)) _ (world_header (worlds k)) cid HeapTupleInvisible) \/
      exists n l, @multi_create (w_store (worlds n)) l = Elog e
  | Undef => exists n h, crosschecked worlds tid tableOid buffer crosscheck cid wait false n h /\ bit h 11 = true
  end.
Proof.
  intros He Hc Hx Hv Hcc (k & Hk & Hset).
  pose proof (heap_delete_spec worlds tid tableOid buffer (ex_world _ _ _ He) (ex_wait _ _ _ He)
    (fun h => execution_check _ _ _ h He) fuel parallel xid cid crosscheck wait changingPart (ex_tid _ _ _ He) Hc Hx Hv Hcc) as Hs.
  destruct (heap_delete worlds tid tableOid buffer fuel parallel xid cid crosscheck wait changingPart) as [[|]| |]; try done.
  - destruct Hs as (? & n & h & ? & _ & ? & _ & ?). split; [done|]. by exists n, h.
  - destruct Hs as [Hs|?]; [|done]. by destruct (Hs k).
Qed.

(** The snapshot of a crosscheck: its test is [HeapTupleSatisfiesMVCC]. *)
Lemma mvcc_crosscheck `{Backend} worlds tid tableOid buffer snap :
  execution_ok worlds tid tableOid ->
  (forall n, @snap_ok (w_shared (worlds n)) _ snap /\ @moved_old (w_shared (worlds n)) snap (world_header (worlds n))) ->
  crosscheck_ok worlds tid tableOid buffer (Some (fun S htup buffer => @HeapTupleSatisfiesMVCC S _ htup snap buffer)).
Proof.
  intros He Hsn test n h [= <-] (Hs & Hh & Ht) Hwf. destruct (Hsn n) as [Hsnap Hmv].
  destruct (step_moved _ _ Hs) as (_ & _ & Ew).
  assert (@moved_old (w_shared (worlds n)) snap h) as Hmv'.
  { unfold moved_old. rewrite Ew, (step_xmin _ _ Hs), (step_field3 _ _ Hs). exact Hmv. }
  destruct (@mvcc_answer (w_shared (worlds n)) _ (wo_laws _ (ex_world _ _ _ He n)) snap Hsnap (delete_tuple tid tableOid h) buffer)
    as (h' & E & Hst); [by eapply execution_check|done..|].
  exists (@mvcc_visible (w_shared (worlds n)) _ snap h), h'. split_and!; [done..|]. apply (@xmax_wf_step _ h); [apply Hst|done|].
  by apply (@mvcc_deleter _ _ (wo_laws _ (ex_world _ _ _ He n)) (delete_tuple tid tableOid h) snap buffer _ _ Hsnap Hh Ht Hmv' E).
Qed.

(** ** A small execution *)

#[local] Existing Instance sample_backend.

(** As [sample_shared], but 101 has committed. *)
Definition sample_shared_later : SharedXacts := {|
  xact_in_progress x := x =? 103;
  xact_did_commit x := (x =? 100) || (x =? 101);
  xact_topmost x := Ret x;
  multi_members _ _ _ := Ret [];
  commit_lsn _ := 0;
  BufferIsPermanent _ := true;
  XLogNeedsFlush _ := false;
  BufferGetLSNAtomic _ := 0 |}.

(** The tuple was inserted by 100, and 101 is in its xmax, with flags [mask]. *)
Definition sample_world (S : SharedXacts) (mask : Z) : World :=
  {| w_shared := S; w_store := sample_store;
     w_tuple := {| lt_data := sample_header 100 101 3 mask; lt_infomask2 := 0 |} |}.

Definition sample_run (mask : Z) (k : nat) : World :=
  match k with O => sample_world sample_shared mask | S _ => sample_world sample_shared_later mask end.

Definition sample_tid : ItemPointerData := {| ip_blkid := 7; ip_posid := 1 |}.

(** Locked FOR UPDATE, or deleted, by 101. *)
Definition update_locked : Z := Z.lor HEAP_XMAX_LOCK_ONLY HEAP_XMAX_EXCL_LOCK.

Lemma sample_laws_later : @BackendLaws sample_shared_later sample_backend.
Proof. by intros x. Qed.

Lemma sample_world_ok (S : SharedXacts) mask : mask = update_locked \/ mask = 0 ->
  S = sample_shared \/ S = sample_shared_later -> world_ok (sample_world S mask).
Proof.
  intros Hm HS. constructor.
  - destruct HS as [-> | ->]; [apply sample_laws|apply sample_laws_later].
  - apply sample_store_laws.
  - destruct Hm as [-> | ->]; by constructor.
  - destruct Hm as [-> | ->]; constructor; try done. by intros x [= <-].
  - destruct Hm as [-> | ->]; done.
  - destruct Hm as [-> | ->]; by constructor.
  - done.
Qed.

Lemma sample_run_ok mask : mask = update_locked \/ mask = 0 -> execution_ok (sample_run mask) sample_tid 16384.
Proof.
  intros Hm. constructor; [| |done|done].
  - intros [|k]; apply sample_world_ok; auto.
  - intros k. constructor; [destruct k; done| |]; destruct k, Hm as [-> | ->]; done.
Qed.

Lemma sample_settled mask : exists k, (k < 1)%nat /\ settled (sample_run mask k) (sample_run mask (S k)).
Proof. exists 0%nat. split; [lia|]. split; [|done]. unfold xmax_infomask_changed. cbn. by rewrite Z.eqb_refl. Qed.

(** 103 waits for the lock of 101, and then deletes the tuple. *)
Lemma heap_delete_exclusive_witness :
  exists lt view combo n h,
    heap_delete (sample_run update_locked) sample_tid 16384 0 1 false 103 9 None true false = Ret (Deleted lt view combo) /\
    deletion sample_tid (sample_run update_locked n) h 103 9 false lt view combo.
Proof.
  assert (exists lt view combo,
    heap_delete (sample_run update_locked) sample_tid 16384 0 1 false 103 9 None true false = Ret (Deleted lt view combo))
    as (lt & view & combo & E) by (eexists _, _, _; reflexivity).
  destruct (heap_delete_exclusive (sample_run update_locked) sample_tid 16384 0 1 103 9 true false lt view combo)
    as (n & h & _ & _ & Hd & _); [by apply sample_run_ok; left|apply two_combos_ok|done|done|exact E|].
  by exists lt, view, combo, n, h.
Defined.

(** The test of a snapshot that sees 100, and not 101. *)
Definition delete_crosscheck : Crosscheck :=
  Some (fun S htup buffer => @HeapTupleSatisfiesMVCC S _ htup sample_snapshot buffer).

Lemma delete_crosscheck_ok mask : mask = update_locked \/ mask = 0 ->
  crosscheck_ok (sample_run mask) sample_tid 16384 0 delete_crosscheck.
Proof.
  intros Hm. apply mvcc_crosscheck; [by apply sample_run_ok|]. intros n. split.
  - destruct n; [apply sample_snap_ok|]. intros x. split; [apply sample_in_snap|done].
  - destruct n, Hm as [-> | ->]; done.
Qed.

(** 103 waits for the deletion by 101, which commits; and after a wait for a mere
    lock of 101 the crosscheck lets the deletion pass. *)
Lemma heap_delete_answers_witness :
  (exists hufd h, heap_delete (sample_run 0) sample_tid 16384 0 1 false 103 9 delete_crosscheck true false =
      Ret (NotDeleted HeapTupleUpdated hufd h) /\ hufd_xmax hufd = 101) /\
  (exists lt view combo n h,
     heap_delete (sample_run update_locked) sample_tid 16384 0 1 false 103 9 delete_crosscheck true false =
       Ret (Deleted lt view combo) /\
     crosschecked (sample_run update_locked) sample_tid 16384 0 delete_crosscheck 9 true true n h).
Proof.
  split.
  - pose proof (heap_delete_answers (sample_run 0) sample_tid 16384 0 1 false 103 9 delete_crosscheck true false
      (sample_run_ok 0 (or_intror eq_refl)) two_combos_ok eq_refl eq_refl (delete_crosscheck_ok 0 (or_intror eq_refl))
      (sample_settled 0)) as Hd.
    assert (exists hufd h, heap_delete (sample_run 0) sample_tid 16384 0 1 false 103 9 delete_crosscheck true false =
      Ret (NotDeleted HeapTupleUpdated hufd h) /\ only_locked h = false /\ is_multi h = false /\ t_xmax h = 101)
      as (hufd & h & E & El & Em & Ex) by (eexists _, _; split_and!; reflexivity).
    rewrite E in Hd. destruct Hd as (_ & n & _ & _ & (_ & Hxm & _) & _). exists hufd, h. split; [done|].
    rewrite <- Ex. apply Hxm. by apply deleter_single.
  - pose proof (heap_delete_answers (sample_run update_locked) sample_tid 16384 0 1 false 103 9 delete_crosscheck true false
      (sample_run_ok _ (or_introl eq_refl)) two_combos_ok eq_refl eq_refl (delete_crosscheck_ok _ (or_introl eq_refl))
      (sample_settled _)) as Hd.
    assert (exists lt view combo, heap_delete (sample_run update_locked) sample_tid 16384 0 1 false 103 9 delete_crosscheck true false =
      Ret (Deleted lt view combo)) as (lt & view & combo & E) by (eexists _, _, _; reflexivity).
    rewrite E in Hd. destruct Hd as (_ & n & h & _ & _ & [?|Hc]); [done|]. by exists lt, view, combo, n, h.
Defined.

(** ** Two runs *)

(** 103 has a key share lock, 104 updated the tuple and is aborting: it is marked
    as aborted, but still among the running transactions. *)
Definition aborting_shared : SharedXacts := {|
  xact_in_progress x := (x =? 103) || (x =? 104);
  xact_did_commit x := x =? 100;
  xact_topmost x := Ret x;
  multi_members m _ _ :=
    if m =? 300 then Ret [{| mx_xid := 103; mx_status := MultiXactStatusForKeyShare |};
                          {| mx_xid := 104; mx_status := MultiXactStatusNoKeyUpdate |}] else Ret [];
  commit_lsn _ := 0;
  BufferIsPermanent _ := true;
  XLogNeedsFlush _ := false;
  BufferGetLSNAtomic _ := 0 |}.

Definition aborting_world : World :=
  {| w_shared := aborting_shared; w_store := mx_store wrap_state no_cache (fun x => x =? 104);
     w_tuple := {| lt_data := sample_header 100 300 3 HEAP_XMAX_IS_MULTI; lt_infomask2 := 0 |} |}.

(** A tuple nobody has deleted, inserted by 100, and a snapshot to which 100 was
    still running. *)
Definition fresh_world : World :=
  {| w_shared := sample_shared; w_store := sample_store;
     w_tuple := {| lt_data := sample_header 100 0 3 HEAP_XMAX_INVALID; lt_infomask2 := 0 |} |}.
Definition older_snapshot : SnapshotData := {|
  snap_xmin := 100; snap_xmax := 101; snap_xip := [100]; snap_xcnt := 1;
  snap_subxip := []; snap_subxcnt := 0; snap_suboverflowed := false;
  snap_takenDuringRecovery := false; snap_curcid := 5; snap_speculativeToken := 0 |}.
Definition older_crosscheck (S : SharedXacts) (tup : HeapTuple) (buffer : Z) : cres (bool * HeapTupleHeader) :=
  HeapTupleSatisfiesMVCC tup older_snapshot buffer.

(** Two runs that show how far [heap_delete_answers] goes.  A deletion can be
    refused as "updated" on account of an update that has aborted: for the moment
    in which the updater is marked as aborted but still counted as running, the
    test for conflicts skips it, and the test that follows takes it for an
    updater that stays.  And when the crosscheck rejects a tuple marked as not
    deleted, there is no answer: the assertion about its xmax fails. *)
Example heap_delete_flaws :
  (@xact_did_abort (w_store aborting_world) 104 = true /\ @xact_did_commit (w_shared aborting_world) 104 = false /\
   exists h, heap_delete (fun _ => aborting_world) sample_tid 16384 0 1 false 103 9 None true false =
     Ret (NotDeleted HeapTupleUpdated
            {| hufd_ctid := sample_tid; hufd_xmax := 104; hufd_cmax := InvalidCommandId |} h)) /\
  (exists h, delete_check (fun _ => fresh_world) sample_tid 16384 0 1 0 9 true = Ret (HeapTupleMayBeUpdated, 0%nat, h) /\
   forall fuel, heap_delete (fun _ => fresh_world) sample_tid 16384 0 (S fuel) false 103 9 (Some older_crosscheck) true false =
     Undef).
Proof.
  split; [split_and!; [done|done|eexists; reflexivity]|]. eexists. split; [reflexivity|]. intros fuel. reflexivity.
Qed.
