(* ===== verification/LWLock.v ===== *)
(** Light-weight locks ([storage/lmgr/lwlock.c]): a word of shared memory that
    counts the holders, a list of waiting processes guarded by a bit of that
    word, and a semaphore per process.

    Processes run concurrently, so each operation is a sequence of steps, one
    per access to shared memory; [PC] says where in it a process stands, with
    the local variables that matter.  [lwlock_step i] is the next step of process
    [i], [None] if it cannot go on (it waits on its semaphore, or spins on the
    list lock).  Memory is sequentially consistent.  One lock is modelled; the semaphores are also used for other
    purposes, so a process may be signalled at any time.  Variables attached to
    a lock ([LWLockWaitForVar], [LWLockUpdateVar]), statistics and tracing are
    left out. *)
From stdpp Require Import list.
From S2P Require Import Prelude.

Definition LW_FLAG_HAS_WAITERS : Z := Z.shiftl 1 30.
Definition LW_FLAG_RELEASE_OK : Z := Z.shiftl 1 29.
Definition LW_FLAG_LOCKED : Z := Z.shiftl 1 28.
Definition LW_VAL_EXCLUSIVE : Z := Z.shiftl 1 24.
Definition LW_VAL_SHARED : Z := 1.
Definition LW_LOCK_MASK : Z := Z.shiftl 1 25 - 1.
Definition MAX_SIMUL_LWLOCKS : Z := 200.

Inductive LWLockMode := LW_EXCLUSIVE | LW_SHARED | LW_WAIT_UNTIL_FREE.

#[export] Instance LWLockMode_eq_dec : EqDecision LWLockMode.
Proof. solve_decision. Defined.

(** ** The locks a process holds *)

Record LWLockHandle := { h_lock : Z; h_mode : LWLockMode }.

Definition held_add (held : list LWLockHandle) (lock : Z) (mode : LWLockMode) : list LWLockHandle :=
  held ++ [{| h_lock := lock; h_mode := mode |}].

(** The latest entry for the lock, searched backwards, and the array without it. *)
Fixpoint held_remove_loop (reversed : list LWLockHandle) (lock : Z) : option (LWLockMode * list LWLockHandle) :=
  match reversed with
  | [] => None
  | h :: reversed =>
      if h_lock h =? lock then Some (h_mode h, reversed)
      else match held_remove_loop reversed lock with
           | Some (mode, reversed) => Some (mode, h :: reversed)
           | None => None
           end
  end.

Definition held_remove (held : list LWLockHandle) (lock : Z) : cres (LWLockMode * list LWLockHandle) :=
  match held_remove_loop (reverse held) lock with
  | Some (mode, reversed) => Ret (mode, reverse reversed)
  | None => Elog "lock is not held"
  end.

Definition LWLockHeldByMe (held : list LWLockHandle) (lock : Z) : bool :=
  existsb (fun h => h_lock h =? lock) held.

Definition LWLockHeldByMeInMode (held : list LWLockHandle) (lock : Z) (mode : LWLockMode) : bool :=
  existsb (fun h => (h_lock h =? lock) && bool_decide (h_mode h = mode)) held.

(** ** The state word *)

(** The body of the loop of [LWLockAttemptLock]: the desired state, and whether
    the lock was free. *)
Definition attempt_desired (old_state : Z) (mode : LWLockMode) : Z * bool :=
  match mode with
  | LW_EXCLUSIVE =>
      if Z.land old_state LW_LOCK_MASK =? 0 then (u32 (old_state + LW_VAL_EXCLUSIVE), true) else (old_state, false)
  | _ =>
      if Z.land old_state LW_VAL_EXCLUSIVE =? 0 then (u32 (old_state + LW_VAL_SHARED), true) else (old_state, false)
  end.

(** The desired state at the end of [LWLockWakeup]. *)
Definition wakeup_desired (old_state : Z) (new_release_ok woke_nobody : bool) : Z :=
  let desired := if new_release_ok then Z.lor old_state LW_FLAG_RELEASE_OK
                 else Z.land old_state (u32_not LW_FLAG_RELEASE_OK) in
  let desired := if woke_nobody then Z.land desired (u32_not LW_FLAG_HAS_WAITERS) else desired in
  Z.land desired (u32_not LW_FLAG_LOCKED).

Definition check_waiters (oldstate : Z) : bool :=
  (Z.land oldstate (Z.lor LW_FLAG_HAS_WAITERS LW_FLAG_RELEASE_OK) =? Z.lor LW_FLAG_HAS_WAITERS LW_FLAG_RELEASE_OK) &&
  (Z.land oldstate LW_LOCK_MASK =? 0).

(** ** Processes *)

Inductive Call := CallAcquire | CallConditionalAcquire | CallAcquireOrWait.

(** The mode a process queues itself with. *)
Definition queue_mode (c : Call) (mode : LWLockMode) : LWLockMode :=
  match c with CallAcquireOrWait => LW_WAIT_UNTIL_FREE | _ => mode end.

Inductive PC :=
  | Idle                                                    (* outside of these routines *)
  | Attempt1 (c : Call) (mode : LWLockMode) (old : option Z) (* LWLockAttemptLock, before queueing; the value read *)
  | QueueLock (c : Call) (mode : LWLockMode)                (* LWLockQueueSelf: taking the list lock *)
  | QueueFlag (c : Call) (mode : LWLockMode)
  | QueuePush (c : Call) (mode : LWLockMode)
  | QueueUnlock (c : Call) (mode : LWLockMode)
  | Attempt2 (c : Call) (mode : LWLockMode) (old : option Z) (* LWLockAttemptLock, queued *)
  | Sleep (c : Call) (mode : LWLockMode)                    (* on the semaphore, until lwWaiting is cleared *)
  | SetReleaseOk (mode : LWLockMode)                        (* LWLockAcquire, awakened *)
  | DequeueLock (c : Call) (mode : LWLockMode)              (* LWLockDequeueSelf: taking the list lock *)
  | DequeueRemove (c : Call) (mode : LWLockMode)
  | DequeueFlag (c : Call) (mode : LWLockMode) (found : bool)
  | DequeueUnlock (c : Call) (mode : LWLockMode) (found : bool)
  | DequeueFound (c : Call) (mode : LWLockMode)
  | DequeueReleaseOk (c : Call) (mode : LWLockMode)
  | DequeueSleep (c : Call) (mode : LWLockMode)
  | Finish (c : Call) (mode : LWLockMode) (got : bool)      (* the end of the three calls *)
  | ReleaseSub (mode : LWLockMode)                          (* LWLockRelease, removed from held_lwlocks *)
  | WakeupLock                                              (* LWLockWakeup: taking the list lock *)
  | WakeupSweep
  | WakeupCas (wakeup : list nat) (new_release_ok : bool) (old : option Z)
  | WakeupLoop (wakeup : list nat)
  | WakeupSignal (waiter : nat) (wakeup : list nat)         (* lwWaiting is cleared, the semaphore not yet raised *)
  | Broken (what : string).                                 (* a failed assertion or elog(PANIC) *)

(** The fields of PGPROC, and the variables of the process. *)
Record Proc := {
  p_pc : PC;
  lwWaiting : bool;
  lwWaitMode : LWLockMode;
  sem : Z;
  extraWaits : Z;
  result : bool;
  held_lwlocks : list LWLockHandle
}.

Definition at_pc (p : Proc) (pc : PC) : Proc :=
  {| p_pc := pc; lwWaiting := lwWaiting p; lwWaitMode := lwWaitMode p; sem := sem p; extraWaits := extraWaits p;
     result := result p; held_lwlocks := held_lwlocks p |}.
Definition set_waiting (p : Proc) (w : bool) (mode : LWLockMode) : Proc :=
  {| p_pc := p_pc p; lwWaiting := w; lwWaitMode := mode; sem := sem p; extraWaits := extraWaits p;
     result := result p; held_lwlocks := held_lwlocks p |}.
Definition set_sem (p : Proc) (count extra : Z) : Proc :=
  {| p_pc := p_pc p; lwWaiting := lwWaiting p; lwWaitMode := lwWaitMode p; sem := count; extraWaits := extra;
     result := result p; held_lwlocks := held_lwlocks p |}.
Definition set_result (p : Proc) (r : bool) : Proc :=
  {| p_pc := p_pc p; lwWaiting := lwWaiting p; lwWaitMode := lwWaitMode p; sem := sem p; extraWaits := extraWaits p;
     result := r; held_lwlocks := held_lwlocks p |}.
Definition set_held (p : Proc) (held : list LWLockHandle) : Proc :=
  {| p_pc := p_pc p; lwWaiting := lwWaiting p; lwWaitMode := lwWaitMode p; sem := sem p; extraWaits := extraWaits p;
     result := result p; held_lwlocks := held |}.

(** The lock, and all processes. *)
Record Sys := {
  lw_state : Z;
  lw_waiters : list nat;
  procs : list Proc
}.

Definition LWLockInitialize (procs : list Proc) : Sys :=
  {| lw_state := LW_FLAG_RELEASE_OK; lw_waiters := []; procs := procs |}.

(** Process [i] becomes [p]; the state word and the list as given. *)
Definition put (s : Sys) (i : nat) (p : Proc) (state : Z) (waiters : list nat) : Sys :=
  {| lw_state := state; lw_waiters := waiters; procs := <[i := p]> (procs s) |}.
Definition go (s : Sys) (i : nat) (p : Proc) : Sys := put s i p (lw_state s) (lw_waiters s).

(** ** The steps *)

Definition break_if (b : bool) (what : string) (pc : PC) : PC := if b then Broken what else pc.

(** One compare-and-exchange of [LWLockAttemptLock]; [got] and [must_wait] are
    where it returns to. *)
Definition attempt_step (s : Sys) (i : nat) (p : Proc) (mode : LWLockMode) (old : option Z)
    (again : option Z -> PC) (got must_wait : PC) : Sys :=
  match old with
  | None => go s i (at_pc p (again (Some (lw_state s))))
  | Some old =>
      let '(desired, lock_free) := attempt_desired old mode in
      if old =? lw_state s
      then put s i (at_pc p (if lock_free then got else must_wait)) desired (lw_waiters s)
      else go s i (at_pc p (again (Some (lw_state s))))
  end.

(** [LWLockWaitListLock]: spinning is not a step. *)
Definition list_lock_step (s : Sys) (i : nat) (p : Proc) (next : PC) : option Sys :=
  if Z.land (lw_state s) LW_FLAG_LOCKED =? 0
  then Some (put s i (at_pc p next) (Z.lor (lw_state s) LW_FLAG_LOCKED) (lw_waiters s))
  else None.

Definition list_unlock_step (s : Sys) (i : nat) (p : Proc) (next : PC) : Sys :=
  put s i (at_pc p (break_if (Z.land (lw_state s) LW_FLAG_LOCKED =? 0) "wait list not locked" next))
    (Z.land (lw_state s) (u32_not LW_FLAG_LOCKED)) (lw_waiters s).

(** A turn of the loops around [PGSemaphoreLock]. *)
Definition sleep_step (s : Sys) (i : nat) (p : Proc) (awake : PC) : option Sys :=
  if 0 <? sem p
  then Some (go s i (if lwWaiting p then set_sem p (sem p - 1) (extraWaits p + 1)
                     else at_pc (set_sem p (sem p - 1) (extraWaits p)) awake))
  else None.

(** The loop of [LWLockDequeueSelf] over the list. *)
Fixpoint dequeue_loop (i : nat) (waiters : list nat) : list nat * bool :=
  match waiters with
  | [] => ([], false)
  | w :: rest =>
      if decide (w = i) then (rest, true)
      else let '(rest, found) := dequeue_loop i rest in (w :: rest, found)
  end.

(** The loop of [LWLockWakeup] over the list: who stays, who is woken, and the
    two flags. *)
Fixpoint wakeup_sweep (mode_of : nat -> LWLockMode) (waiters : list nat) (wokeup_somebody new_release_ok : bool)
  : list nat * list nat * bool :=
  match waiters with
  | [] => ([], [], new_release_ok)
  | w :: rest =>
      if wokeup_somebody && bool_decide (mode_of w = LW_EXCLUSIVE)
      then let '(stay, wake, ok) := wakeup_sweep mode_of rest wokeup_somebody new_release_ok in (w :: stay, wake, ok)
      else
        let waits_free := bool_decide (mode_of w = LW_WAIT_UNTIL_FREE) in
        let ok := if waits_free then new_release_ok else false in
        if bool_decide (mode_of w = LW_EXCLUSIVE) then (rest, [w], ok)
        else let '(stay, wake, ok) := wakeup_sweep mode_of rest (wokeup_somebody || negb waits_free) ok in
             (stay, w :: wake, ok)
  end.

Definition wait_mode_of (s : Sys) (w : nat) : LWLockMode :=
  match procs s !! w with Some p => lwWaitMode p | None => LW_WAIT_UNTIL_FREE end.

(** The lock in the array of held locks; others have other numbers. *)
Definition this_lock : Z := 0.

(** [LWLockQueueSelf]. *)
Definition LWLockQueueSelf_step (i : nat) (s : Sys) (p : Proc) : option Sys :=
  match p_pc p with
  | QueueLock c mode =>
      if lwWaiting p then Some (go s i (at_pc p (Broken "queueing for lock while waiting on another one")))
      else list_lock_step s i p (QueueFlag c mode)
  | QueueFlag c mode =>
      Some (put s i (at_pc p (QueuePush c mode)) (Z.lor (lw_state s) LW_FLAG_HAS_WAITERS) (lw_waiters s))
  | QueuePush c mode =>
      Some (put s i (at_pc (set_waiting p true (queue_mode c mode)) (QueueUnlock c mode)) (lw_state s)
              (if decide (queue_mode c mode = LW_WAIT_UNTIL_FREE) then i :: lw_waiters s else lw_waiters s ++ [i]))
  | QueueUnlock c mode => Some (list_unlock_step s i p (Attempt2 c mode None))
  | _ => None
  end.

(** [LWLockDequeueSelf]; its [extraWaits] is added to that of the caller. *)
Definition LWLockDequeueSelf_step (i : nat) (s : Sys) (p : Proc) : option Sys :=
  match p_pc p with
  | DequeueLock c mode => list_lock_step s i p (DequeueRemove c mode)
  | DequeueRemove c mode =>
      let '(waiters, found) := dequeue_loop i (lw_waiters s) in
      Some (put s i (at_pc p (DequeueFlag c mode found)) (lw_state s) waiters)
  | DequeueFlag c mode found =>
      Some (put s i (at_pc p (DequeueUnlock c mode found))
              (if bool_decide (lw_waiters s = []) && negb (Z.land (lw_state s) LW_FLAG_HAS_WAITERS =? 0)
               then Z.land (lw_state s) (u32_not LW_FLAG_HAS_WAITERS) else lw_state s) (lw_waiters s))
  | DequeueUnlock c mode found =>
      Some (list_unlock_step s i p (if found then DequeueFound c mode else DequeueReleaseOk c mode))
  | DequeueFound c mode => Some (go s i (at_pc (set_waiting p false (lwWaitMode p)) (Finish c mode true)))
  | DequeueReleaseOk c mode =>
      Some (put s i (at_pc p (DequeueSleep c mode)) (Z.lor (lw_state s) LW_FLAG_RELEASE_OK) (lw_waiters s))
  | DequeueSleep c mode => sleep_step s i p (Finish c mode true)
  | _ => None
  end.

(** The end of the three calls: signals absorbed while waiting are given back,
    and the lock is noted if [got]. *)
Definition finish_step (i : nat) (s : Sys) (p : Proc) (mode : LWLockMode) (got : bool) : option Sys :=
  let p := set_sem p (sem p + extraWaits p) 0 in
  Some (go s i (at_pc (if got then set_held p (held_add (held_lwlocks p) this_lock mode) else set_result p false) Idle)).

Definition LWLockAcquire_step (i : nat) (s : Sys) (p : Proc) : option Sys :=
  match p_pc p with
  | Attempt1 c mode old => Some (attempt_step s i p mode old (Attempt1 c mode) (Finish c mode true) (QueueLock c mode))
  | Attempt2 c mode old => Some (attempt_step s i p mode old (Attempt2 c mode) (DequeueLock c mode) (Sleep c mode))
  | Sleep c mode => sleep_step s i p (SetReleaseOk mode)
  | SetReleaseOk mode =>
      Some (put s i (at_pc (set_result p false) (Attempt1 CallAcquire mode None))
              (Z.lor (lw_state s) LW_FLAG_RELEASE_OK) (lw_waiters s))
  | Finish c mode got => finish_step i s p mode got
  | _ => None
  end.

Definition LWLockConditionalAcquire_step (i : nat) (s : Sys) (p : Proc) : option Sys :=
  match p_pc p with
  | Attempt1 c mode old => Some (attempt_step s i p mode old (Attempt1 c mode) (Finish c mode true) (Finish c mode false))
  | Finish c mode got => finish_step i s p mode got
  | _ => None
  end.

Definition LWLockAcquireOrWait_step (i : nat) (s : Sys) (p : Proc) : option Sys :=
  match p_pc p with
  | Attempt1 c mode old => Some (attempt_step s i p mode old (Attempt1 c mode) (Finish c mode true) (QueueLock c mode))
  | Attempt2 c mode old => Some (attempt_step s i p mode old (Attempt2 c mode) (DequeueLock c mode) (Sleep c mode))
  | Sleep c mode => sleep_step s i p (Finish c mode false)
  | Finish c mode got => finish_step i s p mode got
  | _ => None
  end.

Definition call_step (c : Call) : nat -> Sys -> Proc -> option Sys :=
  match c with
  | CallAcquire => LWLockAcquire_step
  | CallConditionalAcquire => LWLockConditionalAcquire_step
  | CallAcquireOrWait => LWLockAcquireOrWait_step
  end.

(** [LWLockRelease], once the lock is off the list of held locks. *)
Definition LWLockRelease_step (i : nat) (s : Sys) (p : Proc) : option Sys :=
  match p_pc p with
  | ReleaseSub mode =>
      let state := u32 (lw_state s - (match mode with LW_EXCLUSIVE => LW_VAL_EXCLUSIVE | _ => LW_VAL_SHARED end)) in
      Some (put s i
              (at_pc p (break_if (negb (Z.land state LW_VAL_EXCLUSIVE =? 0)) "still held exclusively"
                          (if check_waiters state then WakeupLock else Idle)))
              state (lw_waiters s))
  | _ => None
  end.

(** [LWLockWakeup]. *)
Definition LWLockWakeup_step (i : nat) (s : Sys) (p : Proc) : option Sys :=
  match p_pc p with
  | WakeupLock => list_lock_step s i p WakeupSweep
  | WakeupSweep =>
      let '(stay, wake, ok) := wakeup_sweep (wait_mode_of s) (lw_waiters s) false true in
      Some (put s i
              (at_pc p (break_if (negb (bool_decide (wake = [])) && (Z.land (lw_state s) LW_FLAG_HAS_WAITERS =? 0))
                          "waiters without the flag" (WakeupCas wake ok None)))
              (lw_state s) stay)
  | WakeupCas wake ok None => Some (go s i (at_pc p (WakeupCas wake ok (Some (lw_state s)))))
  | WakeupCas wake ok (Some old) =>
      if old =? lw_state s
      then Some (put s i (at_pc p (WakeupLoop wake)) (wakeup_desired old ok (bool_decide (wake = []))) (lw_waiters s))
      else Some (go s i (at_pc p (WakeupCas wake ok (Some (lw_state s)))))
  | WakeupLoop [] => Some (go s i (at_pc p Idle))
  | WakeupLoop (w :: wake) =>
      match procs s !! w with
      | Some q => Some (go (go s w (set_waiting q false (lwWaitMode q))) i (at_pc p (WakeupSignal w wake)))
      | None => None
      end
  | WakeupSignal w wake =>
      match procs s !! w with
      | Some q => Some (go (go s w (set_sem q (sem q + 1) (extraWaits q))) i (at_pc p (WakeupLoop wake)))
      | None => None
      end
  | _ => None
  end.

(** The next step of process [i]. *)
Definition lwlock_step (i : nat) (s : Sys) : option Sys :=
  match procs s !! i with
  | None => None
  | Some p =>
      match p_pc p with
      | Idle | Broken _ => None
      | Attempt1 c _ _ | Attempt2 c _ _ | Sleep c _ | Finish c _ _ => call_step c i s p
      | SetReleaseOk _ => LWLockAcquire_step i s p
      | QueueLock _ _ | QueueFlag _ _ | QueuePush _ _ | QueueUnlock _ _ => LWLockQueueSelf_step i s p
      | DequeueLock _ _ | DequeueRemove _ _ | DequeueFlag _ _ _ | DequeueUnlock _ _ _ | DequeueFound _ _
      | DequeueReleaseOk _ _ | DequeueSleep _ _ => LWLockDequeueSelf_step i s p
      | ReleaseSub _ => LWLockRelease_step i s p
      | WakeupLock | WakeupSweep | WakeupCas _ _ _ | WakeupLoop _ | WakeupSignal _ _ => LWLockWakeup_step i s p
      end
  end.

(** ** The calls *)

(** [LWLockAcquire], [LWLockConditionalAcquire] and [LWLockAcquireOrWait] up to
    the first access to the lock. *)
Definition call_acquire (i : nat) (c : Call) (mode : LWLockMode) (s : Sys) : cres Sys :=
  let* p := deref (procs s !! i) in
  c_assert (bool_decide (mode <> LW_WAIT_UNTIL_FREE)) ;;
  if MAX_SIMUL_LWLOCKS <=? zlen (held_lwlocks p) then Elog "too many LWLocks taken"
  else Ret (go s i (at_pc (set_result (set_sem p (sem p) 0) true) (Attempt1 c mode None))).

(** [LWLockRelease], up to the release. *)
Definition call_release (i : nat) (s : Sys) : cres Sys :=
  let* p := deref (procs s !! i) in
  let* (mode, held) := held_remove (held_lwlocks p) this_lock in
  Ret (go s i (at_pc (set_held p held) (ReleaseSub mode))).

(** Somebody else raises the semaphore of [i]. *)
Definition other_signal (i : nat) (s : Sys) : Sys :=
  match procs s !! i with
  | Some p => go s i (set_sem p (sem p + 1) (extraWaits p))
  | None => s
  end.

(** What can happen: a step of a routine; a call by a process that is not in
    one, for a lock it does not hold, or holds; a signal. *)
Inductive sys_step : Sys -> Sys -> Prop :=
  | sys_internal i s s' : lwlock_step i s = Some s' -> sys_step s s'
  | sys_acquire i c mode s s' p :
      procs s !! i = Some p -> p_pc p = Idle -> LWLockHeldByMe (held_lwlocks p) this_lock = false ->
      call_acquire i c mode s = Ret s' -> sys_step s s'
  | sys_release i s s' p :
      procs s !! i = Some p -> p_pc p = Idle -> call_release i s = Ret s' -> sys_step s s'
  | sys_signal i s : sys_step s (other_signal i s).
