(* ===== verification/LWLockProofs.v ===== *)
(** Invariants of light-weight locks: the state word counts the holders, the
    list lock is held by one process, and who is in the list of waiters, or in
    that of a process that wakes them, is waiting. *)
From stdpp Require Import list.
From S2P Require Import Prelude LWLock.

(** ** The state word *)

(** Flags (waiters, release ok, list lock) and the numbers of exclusive and
    shared holders. *)
Definition word (hw rok lkd : bool) (e sh : Z) : Z :=
  Z.b2z hw * 2 ^ 30 + Z.b2z rok * 2 ^ 29 + Z.b2z lkd * 2 ^ 28 + e * 2 ^ 24 + sh.

Definition counts_ok (e sh : Z) : Prop := 0 <= e <= 1 /\ 0 <= sh < 2 ^ 23 /\ (e = 1 -> sh = 0).

Lemma lor_pow2 a k : 0 <= a -> 0 <= k -> Z.lor a (2 ^ k) = if Z.testbit a k then a else a + 2 ^ k.
Proof.
  intros Ha Hk. destruct (Z.testbit a k) eqn:E.
  - apply Z.bits_inj'. intros j Hj. rewrite Z.lor_spec, Z.pow2_bits_eqb by done.
    destruct (Z.eqb_spec k j) as [->|]; [by rewrite E|apply orb_false_r].
  - rewrite Z.add_nocarry_lxor, Z.lxor_lor; [done| |].
    all: apply Z.bits_inj'; intros j Hj; rewrite Z.land_spec, Z.pow2_bits_eqb, Z.bits_0 by done;
      destruct (Z.eqb_spec k j) as [->|]; [by rewrite E|apply andb_false_r].
Qed.

Lemma land_not_pow2 a k : 0 <= a < 2 ^ 32 -> 0 <= k < 32 ->
  Z.land a (u32_not (2 ^ k)) = if Z.testbit a k then a - 2 ^ k else a.
Proof.
  intros Ha Hk. assert (Z.land a (u32_not (2 ^ k)) = Z.ldiff a (2 ^ k)) as ->.
  { apply Z.bits_inj'. intros j Hj. rewrite Z.land_spec, Z.ldiff_spec, testbit_u32_not by done.
    destruct (Z.ltb_spec j 32); [done|]. rewrite (Z.bits_above_log2 a j); [done|lia|].
    destruct (Z.eq_dec a 0) as [->|]; [cbn; lia|]. apply Z.log2_lt_pow2; [lia|].
    apply (Z.lt_le_trans _ (2 ^ 32)); [lia|]. apply Z.pow_le_mono_r; lia. }
  destruct (Z.testbit a k) eqn:E.
  - rewrite Z.sub_nocarry_ldiff; [done|]. apply Z.bits_inj'. intros j Hj.
    rewrite Z.ldiff_spec, Z.pow2_bits_eqb, Z.bits_0 by lia. destruct (Z.eqb_spec k j) as [->|]; [by rewrite E|done].
  - apply Z.bits_inj'. intros j Hj. rewrite Z.ldiff_spec, Z.pow2_bits_eqb by lia.
    destruct (Z.eqb_spec k j) as [->|]; [by rewrite E|apply andb_true_r].
Qed.

Section Word.
Context (hw rok lkd : bool) (e sh : Z) (Hc : counts_ok e sh).

Lemma word_range : 0 <= word hw rok lkd e sh < 2 ^ 32.
Proof using Hc. destruct Hc as (? & ? & _). unfold word. destruct hw, rok, lkd; cbn [Z.b2z]; lia. Qed.

Lemma word_bit k : k = 30 \/ k = 29 \/ k = 28 \/ k = 24 ->
  Z.testbit (word hw rok lkd e sh) k =
    if k =? 30 then hw else if k =? 29 then rok else if k =? 28 then lkd else e =? 1.
Proof using Hc.
  destruct Hc as (He & Hs & _). intros Hk. apply Z.b2z_inj.
  assert (forall j, 0 <= j -> Z.b2z (Z.testbit (word hw rok lkd e sh) j) = (word hw rok lkd e sh / 2 ^ j) mod 2) as Hb
    by (intros j Hj; by rewrite Z.testbit_spec').
  destruct Hk as [->|[->|[->| ->]]]; rewrite Hb by lia; unfold word;
    [change (30 =? 30) with true|change (29 =? 30) with false; change (29 =? 29) with true
    |change (28 =? 30) with false; change (28 =? 29) with false; change (28 =? 28) with true
    |change (24 =? 30) with false; change (24 =? 29) with false; change (24 =? 28) with false];
    cbn iota; change (2 ^ 30) with 1073741824; change (2 ^ 29) with 536870912; change (2 ^ 28) with 268435456;
    change (2 ^ 24) with 16777216; change (2 ^ 23) with 8388608 in *;
    assert (0 <= Z.b2z hw <= 1 /\ 0 <= Z.b2z rok <= 1 /\ 0 <= Z.b2z lkd <= 1) as (? & ? & ?) by (by destruct hw, rok, lkd);
    try (assert (Z.b2z (e =? 1) = e) as -> by (destruct (Z.eqb_spec e 1); cbn [Z.b2z]; lia));
    Z.div_mod_to_equations; lia.
Qed.

Lemma word_or_waiters : Z.lor (word hw rok lkd e sh) LW_FLAG_HAS_WAITERS = word true rok lkd e sh.
Proof using Hc.
  pose proof word_range. change LW_FLAG_HAS_WAITERS with (2 ^ 30). rewrite lor_pow2, word_bit by (lia || auto).
  change (30 =? 30) with true. unfold word. destruct hw; cbn [Z.b2z]; lia.
Qed.
Lemma word_or_release_ok : Z.lor (word hw rok lkd e sh) LW_FLAG_RELEASE_OK = word hw true lkd e sh.
Proof using Hc.
  pose proof word_range. change LW_FLAG_RELEASE_OK with (2 ^ 29). rewrite lor_pow2, word_bit by (lia || auto).
  change (29 =? 30) with false. change (29 =? 29) with true. unfold word. destruct rok; cbn [Z.b2z]; lia.
Qed.
Lemma word_or_locked : Z.lor (word hw rok lkd e sh) LW_FLAG_LOCKED = word hw rok true e sh.
Proof using Hc.
  pose proof word_range. change LW_FLAG_LOCKED with (2 ^ 28). rewrite lor_pow2, word_bit by (lia || auto).
  change (28 =? 30) with false. change (28 =? 29) with false. change (28 =? 28) with true.
  unfold word. destruct lkd; cbn [Z.b2z]; lia.
Qed.
Lemma word_not_waiters : Z.land (word hw rok lkd e sh) (u32_not LW_FLAG_HAS_WAITERS) = word false rok lkd e sh.
Proof using Hc.
  pose proof word_range. change LW_FLAG_HAS_WAITERS with (2 ^ 30). rewrite land_not_pow2, word_bit by (lia || auto).
  change (30 =? 30) with true. unfold word. destruct hw; cbn [Z.b2z]; lia.
Qed.
Lemma word_not_release_ok : Z.land (word hw rok lkd e sh) (u32_not LW_FLAG_RELEASE_OK) = word hw false lkd e sh.
Proof using Hc.
  pose proof word_range. change LW_FLAG_RELEASE_OK with (2 ^ 29). rewrite land_not_pow2, word_bit by (lia || auto).
  change (29 =? 30) with false. change (29 =? 29) with true. unfold word. destruct rok; cbn [Z.b2z]; lia.
Qed.
Lemma word_not_locked : Z.land (word hw rok lkd e sh) (u32_not LW_FLAG_LOCKED) = word hw rok false e sh.
Proof using Hc.
  pose proof word_range. change LW_FLAG_LOCKED with (2 ^ 28). rewrite land_not_pow2, word_bit by (lia || auto).
  change (28 =? 30) with false. change (28 =? 29) with false. change (28 =? 28) with true.
  unfold word. destruct lkd; cbn [Z.b2z]; lia.
Qed.

Lemma land_pow2_zero a k : 0 <= k -> (Z.land a (2 ^ k) =? 0) = negb (Z.testbit a k).
Proof.
  intros Hk. destruct (Z.testbit a k) eqn:E; cbn [negb].
  - apply Z.eqb_neq. intros Hz. assert (Z.testbit (Z.land a (2 ^ k)) k = false) as Hb by (rewrite Hz; apply Z.bits_0).
    rewrite Z.land_spec, E, Z.pow2_bits_true in Hb by done. done.
  - apply Z.eqb_eq, Z.bits_inj'. intros j Hj. rewrite Z.land_spec, Z.pow2_bits_eqb, Z.bits_0 by done.
    destruct (Z.eqb_spec k j) as [->|]; [by rewrite E|apply andb_false_r].
Qed.

Lemma word_locked : (Z.land (word hw rok lkd e sh) LW_FLAG_LOCKED =? 0) = negb lkd.
Proof using Hc. change LW_FLAG_LOCKED with (2 ^ 28). rewrite land_pow2_zero, word_bit by (lia || auto). done. Qed.
Lemma word_waiters : (Z.land (word hw rok lkd e sh) LW_FLAG_HAS_WAITERS =? 0) = negb hw.
Proof using Hc. change LW_FLAG_HAS_WAITERS with (2 ^ 30). rewrite land_pow2_zero, word_bit by (lia || auto). done. Qed.
Lemma word_exclusive : (Z.land (word hw rok lkd e sh) LW_VAL_EXCLUSIVE =? 0) = (e =? 0).
Proof using Hc.
  change LW_VAL_EXCLUSIVE with (2 ^ 24). rewrite land_pow2_zero, word_bit by (lia || auto).
  change (24 =? 30) with false. change (24 =? 29) with false. change (24 =? 28) with false. cbn iota.
  destruct Hc as (? & _). destruct (Z.eqb_spec e 1), (Z.eqb_spec e 0); (done || lia).
Qed.
Lemma word_mask : Z.land (word hw rok lkd e sh) LW_LOCK_MASK = e * LW_VAL_EXCLUSIVE + sh * LW_VAL_SHARED.
Proof using Hc.
  destruct Hc as (He & Hs & _). change LW_LOCK_MASK with (Z.ones 25). rewrite Z.land_ones by lia.
  unfold word. change LW_VAL_EXCLUSIVE with 16777216. change LW_VAL_SHARED with 1.
  change (2 ^ 23) with 8388608 in *. change (2 ^ 30) with 1073741824; change (2 ^ 29) with 536870912;
  change (2 ^ 28) with 268435456; change (2 ^ 24) with 16777216; change (2 ^ 25) with 33554432.
  assert (0 <= Z.b2z hw <= 1 /\ 0 <= Z.b2z rok <= 1 /\ 0 <= Z.b2z lkd <= 1) as (? & ? & ?) by (by destruct hw, rok, lkd).
  Z.div_mod_to_equations. lia.
Qed.
Lemma word_lock : (Z.land (word hw rok lkd e sh) LW_LOCK_MASK =? 0) = (e =? 0) && (sh =? 0).
Proof using Hc.
  rewrite word_mask. destruct Hc as (He & Hs & _). change LW_VAL_EXCLUSIVE with (2 ^ 24). unfold LW_VAL_SHARED.
  destruct (Z.eqb_spec e 0), (Z.eqb_spec sh 0), (Z.eqb_spec (e * 2 ^ 24 + sh * 1) 0); cbn [andb]; (done || lia).
Qed.
Lemma word_check : check_waiters (word hw rok lkd e sh) = hw && rok && (e =? 0) && (sh =? 0).
Proof using Hc.
  unfold check_waiters. rewrite word_lock, <- (andb_assoc (hw && rok)). f_equal.
  change (Z.lor LW_FLAG_HAS_WAITERS LW_FLAG_RELEASE_OK) with (Z.lor (2 ^ 30) (2 ^ 29)).
  apply eq_true_iff_eq. rewrite Z.eqb_eq, andb_true_iff. split.
  - intros E. split.
    + assert (Z.testbit (Z.land (word hw rok lkd e sh) (Z.lor (2 ^ 30) (2 ^ 29))) 30 = true) as Hb by (by rewrite E).
      rewrite Z.land_spec, word_bit in Hb by auto. apply andb_true_iff in Hb as [Hb _]. exact Hb.
    + assert (Z.testbit (Z.land (word hw rok lkd e sh) (Z.lor (2 ^ 30) (2 ^ 29))) 29 = true) as Hb by (by rewrite E).
      rewrite Z.land_spec, word_bit in Hb by auto. apply andb_true_iff in Hb as [Hb _]. exact Hb.
  - intros [E1 E2]. apply Z.bits_inj'. intros j Hj. rewrite Z.land_spec, Z.lor_spec, !Z.pow2_bits_eqb by lia.
    destruct (Z.eqb_spec 30 j) as [<-|]; [by rewrite word_bit, E1 by auto|].
    destruct (Z.eqb_spec 29 j) as [<-|]; [by rewrite word_bit, E2 by auto|]. apply andb_false_r.
Qed.

(** [LWLockAttemptLock] on the decoded word. *)
Lemma word_attempt mode : attempt_desired (word hw rok lkd e sh) mode =
  match mode with
  | LW_EXCLUSIVE => if (e =? 0) && (sh =? 0) then (word hw rok lkd 1 0, true) else (word hw rok lkd e sh, false)
  | _ => if e =? 0 then (word hw rok lkd 0 (sh + 1), true) else (word hw rok lkd e sh, false)
  end.
Proof using Hc.
  assert (forall d, 0 <= d <= 2 ^ 24 -> e = 0 -> u32 (word hw rok lkd e sh + d) = word hw rok lkd e sh + d) as Hu.
  { intros d Hd He. destruct Hc as (_ & ? & _). unfold u32. apply Z.mod_small. unfold word.
    destruct hw, rok, lkd; cbn [Z.b2z]; lia. }
  destruct mode; unfold attempt_desired; rewrite ?word_lock, ?word_exclusive.
  - destruct (Z.eqb_spec e 0), (Z.eqb_spec sh 0); cbn [andb]; [|done..]. rewrite Hu by (done || lia). f_equal.
    unfold word. change LW_VAL_EXCLUSIVE with (2 ^ 24). lia.
  - destruct (Z.eqb_spec e 0); [|done]. rewrite Hu by (done || unfold LW_VAL_SHARED; lia). f_equal. unfold word, LW_VAL_SHARED. lia.
  - destruct (Z.eqb_spec e 0); [|done]. rewrite Hu by (done || unfold LW_VAL_SHARED; lia). f_equal. unfold word, LW_VAL_SHARED. lia.
Qed.
End Word.

(** ** Held locks *)

Definition n_this (held : list LWLockHandle) : nat := length (filter (fun h => h_lock h = this_lock) held).
Definition held_this (held : list LWLockHandle) : option LWLockMode :=
  match held_remove held this_lock with Ret (mode, _) => Some mode | _ => None end.

Lemma held_loop_spec l lock :
  match held_remove_loop l lock with
  | Some (mode, l') => exists l1 l2, l = l1 ++ {| h_lock := lock; h_mode := mode |} :: l2 /\ l' = l1 ++ l2
  | None => forall h, h ∈ l -> h_lock h <> lock
  end.
Proof.
  induction l as [|[k m] l IH]; cbn [held_remove_loop h_lock h_mode]; [by intros h ?%not_elem_of_nil|].
  destruct (Z.eqb_spec k lock) as [->|Hne].
  - by exists [], l.
  - destruct (held_remove_loop l lock) as [[mode l']|].
    + destruct IH as (l1 & l2 & -> & ->). by exists ({| h_lock := k; h_mode := m |} :: l1), l2.
    + intros h [->|Hin]%elem_of_cons; [done|by apply IH].
Qed.

(** [LWLockRelease] finds an entry of the lock if there is one, and takes away
    exactly that. *)
Lemma held_remove_spec held lock :
  match held_remove held lock with
  | Ret (mode, held') => exists l1 l2, held = l1 ++ {| h_lock := lock; h_mode := mode |} :: l2 /\ held' = l1 ++ l2
  | _ => forall h, h ∈ held -> h_lock h <> lock
  end.
Proof.
  unfold held_remove. pose proof (held_loop_spec (reverse held) lock) as Hs.
  destruct (held_remove_loop (reverse held) lock) as [[mode l']|].
  - destruct Hs as (l1 & l2 & E & ->). exists (reverse l2), (reverse l1).
    rewrite <- (reverse_involutive held), E, !reverse_app, reverse_cons, <- app_assoc. done.
  - intros h Hin. apply Hs. by apply elem_of_reverse.
Qed.

Lemma held_remove_add held mode : held_remove (held_add held this_lock mode) this_lock = Ret (mode, held).
Proof. unfold held_remove, held_add. rewrite reverse_snoc. cbn. by rewrite reverse_involutive. Qed.

Lemma n_this_zero held : n_this held = 0%nat <-> (forall h, h ∈ held -> h_lock h <> this_lock).
Proof.
  unfold n_this. rewrite length_zero_iff_nil. split.
  - intros E h Hin Hl. assert (h ∈ filter (fun h => h_lock h = this_lock) held) as Hf by (by apply list_elem_of_filter).
    rewrite E in Hf. by apply not_elem_of_nil in Hf.
  - intros Hno. destruct (filter (fun h => h_lock h = this_lock) held) as [|h l] eqn:E; [done|].
    assert (h ∈ h :: l) as Hin by left. rewrite <- E in Hin. apply list_elem_of_filter in Hin as [Hl Hin]. by destruct (Hno h Hin).
Qed.

Lemma not_held held : LWLockHeldByMe held this_lock = false <-> n_this held = 0%nat.
Proof.
  rewrite n_this_zero. unfold LWLockHeldByMe. split.
  - intros E h Hin Hl. apply not_true_iff_false in E. destruct E. apply existsb_exists. exists h.
    split; [by apply list_elem_of_In|by apply Z.eqb_eq].
  - intros Hno. apply not_true_iff_false. intros E. apply existsb_exists in E as (h & Hin & Hl).
    apply list_elem_of_In in Hin. by apply (Hno h Hin), Z.eqb_eq.
Qed.

Lemma held_this_none held : n_this held = 0%nat -> held_this held = None.
Proof.
  rewrite n_this_zero. intros Hno. unfold held_this. pose proof (held_remove_spec held this_lock) as Hs.
  destruct (held_remove held this_lock) as [[mode held']| |]; [|done|done].
  destruct Hs as (l1 & l2 & -> & _). destruct (Hno {| h_lock := this_lock; h_mode := mode |}); [|done].
  apply elem_of_app. right. left.
Qed.

Lemma n_this_remove held mode held' : held_remove held this_lock = Ret (mode, held') -> n_this held = S (n_this held').
Proof.
  intros E. pose proof (held_remove_spec held this_lock) as Hs. rewrite E in Hs. destruct Hs as (l1 & l2 & -> & ->).
  unfold n_this. rewrite !filter_app, filter_cons_True, !length_app by done. cbn. lia.
Qed.

(** ** Where a process stands *)

Definition lock_mode (mode : LWLockMode) : bool := negb (bool_decide (mode = LW_WAIT_UNTIL_FREE)).
Definition may_queue (c : Call) : bool := match c with CallConditionalAcquire => false | _ => true end.

Definition pc_ok (pc : PC) : bool :=
  match pc with
  | Idle | WakeupLock | WakeupSweep | WakeupCas _ _ _ | WakeupLoop _ | WakeupSignal _ _ => true
  | Attempt1 _ mode _ | Finish _ mode _ | SetReleaseOk mode | ReleaseSub mode => lock_mode mode
  | QueueLock c mode | QueueFlag c mode | QueuePush c mode | QueueUnlock c mode | Attempt2 c mode _ | Sleep c mode
  | DequeueLock c mode | DequeueRemove c mode | DequeueFlag c mode _ | DequeueUnlock c mode _ | DequeueFound c mode
  | DequeueReleaseOk c mode | DequeueSleep c mode => lock_mode mode && may_queue c
  | Broken _ => false
  end.

(** The mode a process waits with, from when it is in the list until it has
    noticed that it is not any more. *)
Definition queued_mode (pc : PC) : option LWLockMode :=
  match pc with
  | QueueUnlock c mode | Attempt2 c mode _ | Sleep c mode | DequeueLock c mode | DequeueRemove c mode
  | DequeueFlag c mode _ | DequeueUnlock c mode _ | DequeueFound c mode | DequeueReleaseOk c mode
  | DequeueSleep c mode => Some (queue_mode c mode)
  | _ => None
  end.

(** It has taken itself off the list. *)
Definition found_pc (pc : PC) : bool :=
  match pc with DequeueFlag _ _ true | DequeueUnlock _ _ true | DequeueFound _ _ => true | _ => false end.

(** It has the list lock. *)
Definition crit_pc (pc : PC) : bool :=
  match pc with
  | QueueFlag _ _ | QueuePush _ _ | QueueUnlock _ _ | DequeueRemove _ _ | DequeueFlag _ _ _ | DequeueUnlock _ _ _
  | WakeupSweep | WakeupCas _ _ _ => true
  | _ => false
  end.

(** The mode in which a process is counted in the state word. *)
Definition holds (p : Proc) : option LWLockMode :=
  match p_pc p with
  | Idle => held_this (held_lwlocks p)
  | DequeueLock _ mode | DequeueRemove _ mode | DequeueFlag _ mode _ | DequeueUnlock _ mode _ | DequeueFound _ mode
  | DequeueReleaseOk _ mode | DequeueSleep _ mode | Finish _ mode true | ReleaseSub mode => Some mode
  | _ => None
  end.

Definition excl (p : Proc) : nat := match holds p with Some LW_EXCLUSIVE => 1 | _ => 0 end.
Definition share (p : Proc) : nat := match holds p with Some LW_SHARED => 1 | _ => 0 end.
Definition crit (p : Proc) : nat := if crit_pc (p_pc p) then 1 else 0.

Record local_ok (p : Proc) : Prop := {
  lo_pc : pc_ok (p_pc p) = true;
  lo_once : (n_this (held_lwlocks p) <= 1)%nat;
  lo_busy : p_pc p <> Idle -> n_this (held_lwlocks p) = 0%nat;
  lo_modes : forall h, h ∈ held_lwlocks p -> h_lock h = this_lock -> lock_mode (h_mode h) = true;
  lo_waiting : lwWaiting p = true -> queued_mode (p_pc p) = Some (lwWaitMode p);
  lo_found : found_pc (p_pc p) = true -> lwWaiting p = true;
  lo_sem : 0 <= sem p /\ 0 <= extraWaits p
}.

Definition exclusive (s : Sys) : nat := sum_list_with excl (procs s).
Definition shared (s : Sys) : nat := sum_list_with share (procs s).
Definition critical (s : Sys) : nat := sum_list_with crit (procs s).

Definition has_waiters (s : Sys) : bool := Z.testbit (lw_state s) 30.
Definition release_ok (s : Sys) : bool := Z.testbit (lw_state s) 29.
Definition list_locked (s : Sys) : bool := Z.testbit (lw_state s) 28.

(** The first layer of the invariant. *)
Record Inv1 (s : Sys) : Prop := {
  i1_few : Z.of_nat (length (procs s)) < 2 ^ 23;
  i1_local : forall i p, procs s !! i = Some p -> local_ok p;
  i1_word : lw_state s = word (has_waiters s) (release_ok s) (list_locked s) (Z.of_nat (exclusive s)) (Z.of_nat (shared s));
  i1_excl : (exclusive s <= 1)%nat /\ (exclusive s = 1%nat -> shared s = 0%nat);
  i1_crit : critical s = if list_locked s then 1%nat else 0%nat
}.

Lemma sum_insert {A} (f : A -> nat) l i x y : l !! i = Some x ->
  (sum_list_with f (<[i := y]> l) + f x = sum_list_with f l + f y)%nat.
Proof.
  revert i. induction l as [|a l IH]; intros [|i] E; cbn in *; [done|done| |].
  - injection E as ->. lia.
  - rewrite <- !Nat.add_assoc. f_equal. apply (IH i E).
Qed.

Lemma sum_member {A} (f : A -> nat) l i x : l !! i = Some x -> (f x <= sum_list_with f l)%nat.
Proof.
  revert i. induction l as [|a l IH]; intros [|i] E; cbn in *; [done|done| |].
  - injection E as ->. lia.
  - pose proof (IH i E). lia.
Qed.

Lemma sum_two {A} (f : A -> nat) l i j x y : i <> j -> l !! i = Some x -> l !! j = Some y ->
  (f x + f y <= sum_list_with f l)%nat.
Proof.
  revert i j. induction l as [|a l IH]; intros [|i] [|j] Hne E1 E2; cbn in *; try done.
  - injection E1 as ->. pose proof (sum_member f l j y E2). lia.
  - injection E2 as ->. pose proof (sum_member f l i x E1). lia.
  - assert (i <> j) by congruence. specialize (IH i j ltac:(done) E1 E2). lia.
Qed.

Lemma sum_bound {A} (f : A -> nat) l : (forall x, f x <= 1)%nat -> (sum_list_with f l <= length l)%nat.
Proof. intros Hf. induction l as [|a l IH]; cbn; [lia|]. specialize (Hf a). lia. Qed.

Lemma share_le p : (share p <= 1)%nat.
Proof. unfold share. repeat case_match; lia. Qed.

Lemma inv1_counts s : Inv1 s -> counts_ok (Z.of_nat (exclusive s)) (Z.of_nat (shared s)).
Proof.
  intros [Hf _ _ [He Hs] _]. assert (shared s <= length (procs s))%nat.
  { apply sum_bound, share_le. }
  unfold counts_ok. split_and!; try lia.
Qed.

(** A step that changes one process and the state word. *)
Lemma inv1_put s i p p' state waiters hw rok lkd :
  Inv1 s -> procs s !! i = Some p -> local_ok p' ->
  state = word hw rok lkd (Z.of_nat (exclusive (put s i p' state waiters))) (Z.of_nat (shared (put s i p' state waiters))) ->
  (exclusive (put s i p' state waiters) <= 1)%nat ->
  (exclusive (put s i p' state waiters) = 1%nat -> shared (put s i p' state waiters) = 0%nat) ->
  critical (put s i p' state waiters) = (if lkd then 1%nat else 0%nat) ->
  Inv1 (put s i p' state waiters) /\
  has_waiters (put s i p' state waiters) = hw /\ release_ok (put s i p' state waiters) = rok /\
  list_locked (put s i p' state waiters) = lkd.
Proof.
  intros [Hf Hl _ _ _] Hi Hp' Ew He Hs Hc. set (s' := put s i p' state waiters) in *.
  assert (length (procs s') = length (procs s)) as Hlen by apply length_insert.
  assert (counts_ok (Z.of_nat (exclusive s')) (Z.of_nat (shared s'))) as Hco.
  { assert (shared s' <= length (procs s'))%nat by apply sum_bound, share_le.
    unfold counts_ok. split_and!; lia. }
  assert (has_waiters s' = hw /\ release_ok s' = rok /\ list_locked s' = lkd) as (E1 & E2 & E3).
  { unfold has_waiters, release_ok, list_locked. cbn [lw_state put s']. rewrite Ew, !word_bit by auto. done. }
  split; [|done]. constructor.
  - by rewrite Hlen.
  - intros j q. cbn. destruct (decide (i = j)) as [<-|Hne].
    + rewrite list_lookup_insert_eq by (by eapply lookup_lt_Some). by intros [= <-].
    + rewrite list_lookup_insert_ne by done. apply Hl.
  - rewrite E1, E2, E3. exact Ew.
  - done.
  - by rewrite E3.
Qed.

(** ** What a step does *)

(** One process changed; the flags and the list as given. *)
Record become (s s' : Sys) (i : nat) (p' : Proc) (hw rok lkd : bool) (ws : list nat) : Prop := {
  b_procs : procs s' = <[i := p']> (procs s);
  b_waiters : lw_waiters s' = ws;
  b_flags : has_waiters s' = hw /\ release_ok s' = rok /\ list_locked s' = lkd
}.

(** Only the value last read changes, to the present one. *)
Inductive reread (state : Z) : PC -> PC -> Prop :=
  | reread1 c mode old : old <> Some state -> reread state (Attempt1 c mode old) (Attempt1 c mode (Some state))
  | reread2 c mode old : old <> Some state -> reread state (Attempt2 c mode old) (Attempt2 c mode (Some state))
  | reread_cas wake ok old : old <> Some state -> reread state (WakeupCas wake ok old) (WakeupCas wake ok (Some state)).

Definition is_free (s : Sys) : Prop := exclusive s = 0%nat /\ shared s = 0%nat.

Inductive view (s s' : Sys) (i : nat) (p : Proc) : Prop :=
  | v_reread pc' : reread (lw_state s) (p_pc p) pc' -> lw_state s' = lw_state s ->
      become s s' i (at_pc p pc') (has_waiters s) (release_ok s) (list_locked s) (lw_waiters s) -> view s s' i p
  | v_attempt1 c mode old got : p_pc p = Attempt1 c mode old -> (got = false -> ~ is_free s) ->
      become s s' i
        (at_pc p (if got then Finish c mode true
                  else match c with CallConditionalAcquire => Finish c mode false | _ => QueueLock c mode end))
        (has_waiters s) (release_ok s) (list_locked s) (lw_waiters s) -> view s s' i p
  | v_attempt2 c mode old got : p_pc p = Attempt2 c mode old -> (got = false -> ~ is_free s) ->
      become s s' i (at_pc p (if got then DequeueLock c mode else Sleep c mode))
        (has_waiters s) (release_ok s) (list_locked s) (lw_waiters s) -> view s s' i p
  | v_lock pc' :
      match p_pc p with
      | QueueLock c mode => pc' = QueueFlag c mode /\ lwWaiting p = false
      | DequeueLock c mode => pc' = DequeueRemove c mode
      | WakeupLock => pc' = WakeupSweep
      | _ => False
      end -> list_locked s = false ->
      become s s' i (at_pc p pc') (has_waiters s) (release_ok s) true (lw_waiters s) -> view s s' i p
  | v_flag c mode : p_pc p = QueueFlag c mode ->
      become s s' i (at_pc p (QueuePush c mode)) true (release_ok s) true (lw_waiters s) -> view s s' i p
  | v_push c mode : p_pc p = QueuePush c mode ->
      become s s' i (at_pc (set_waiting p true (queue_mode c mode)) (QueueUnlock c mode))
        (has_waiters s) (release_ok s) true
        (if decide (queue_mode c mode = LW_WAIT_UNTIL_FREE) then i :: lw_waiters s else lw_waiters s ++ [i]) -> view s s' i p
  | v_unlock pc' :
      match p_pc p with
      | QueueUnlock c mode => pc' = Attempt2 c mode None
      | DequeueUnlock c mode found => pc' = if found then DequeueFound c mode else DequeueReleaseOk c mode
      | _ => False
      end -> become s s' i (at_pc p pc') (has_waiters s) (release_ok s) false (lw_waiters s) -> view s s' i p
  | v_sleep pc' :
      match p_pc p with
      | Sleep c mode => pc' = match c with CallAcquire => SetReleaseOk mode | _ => Finish c mode false end
      | DequeueSleep c mode => pc' = Finish c mode true
      | _ => False
      end -> 0 < sem p ->
      become s s' i (if lwWaiting p then set_sem p (sem p - 1) (extraWaits p + 1)
                     else at_pc (set_sem p (sem p - 1) (extraWaits p)) pc')
        (has_waiters s) (release_ok s) (list_locked s) (lw_waiters s) -> view s s' i p
  | v_release_ok p' :
      match p_pc p with
      | SetReleaseOk mode => p' = at_pc (set_result p false) (Attempt1 CallAcquire mode None)
      | DequeueReleaseOk c mode => p' = at_pc p (DequeueSleep c mode)
      | _ => False
      end -> become s s' i p' (has_waiters s) true (list_locked s) (lw_waiters s) -> view s s' i p
  | v_remove c mode : p_pc p = DequeueRemove c mode ->
      become s s' i (at_pc p (DequeueFlag c mode (bool_decide (i ∈ lw_waiters s)))) (has_waiters s) (release_ok s) true
        (filter (fun w => w <> i) (lw_waiters s)) -> view s s' i p
  | v_clear c mode found : p_pc p = DequeueFlag c mode found ->
      become s s' i (at_pc p (DequeueUnlock c mode found))
        (has_waiters s && negb (bool_decide (lw_waiters s = []))) (release_ok s) true (lw_waiters s) -> view s s' i p
  | v_found c mode : p_pc p = DequeueFound c mode ->
      become s s' i (at_pc (set_waiting p false (lwWaitMode p)) (Finish c mode true))
        (has_waiters s) (release_ok s) (list_locked s) (lw_waiters s) -> view s s' i p
  | v_finish c mode got : p_pc p = Finish c mode got ->
      become s s' i
        (let p := set_sem p (sem p + extraWaits p) 0 in
         at_pc (if got then set_held p (held_add (held_lwlocks p) this_lock mode) else set_result p false) Idle)
        (has_waiters s) (release_ok s) (list_locked s) (lw_waiters s) -> view s s' i p
  | v_release mode check : p_pc p = ReleaseSub mode ->
      (check = false -> is_free s' -> has_waiters s = true -> release_ok s = false) ->
      become s s' i (at_pc p (if check then WakeupLock else Idle))
        (has_waiters s) (release_ok s) (list_locked s) (lw_waiters s) -> view s s' i p
  | v_sweep stay wake ok : p_pc p = WakeupSweep ->
      wakeup_sweep (wait_mode_of s) (lw_waiters s) false true = (stay, wake, ok) ->
      become s s' i (at_pc p (WakeupCas wake ok None)) (has_waiters s) (release_ok s) true stay -> view s s' i p
  | v_cas wake ok old : p_pc p = WakeupCas wake ok old ->
      become s s' i (at_pc p (WakeupLoop wake)) (has_waiters s && negb (bool_decide (wake = []))) ok false
        (lw_waiters s) -> view s s' i p
  | v_loop_end : p_pc p = WakeupLoop [] ->
      become s s' i (at_pc p Idle) (has_waiters s) (release_ok s) (list_locked s) (lw_waiters s) -> view s s' i p
  | v_wake w wake q : p_pc p = WakeupLoop (w :: wake) -> procs s !! w = Some q -> w <> i ->
      lw_state s' = lw_state s -> lw_waiters s' = lw_waiters s ->
      procs s' = <[i := at_pc p (WakeupSignal w wake)]> (<[w := set_waiting q false (lwWaitMode q)]> (procs s)) -> view s s' i p
  | v_signal w wake q : p_pc p = WakeupSignal w wake -> procs s !! w = Some q -> w <> i ->
      lw_state s' = lw_state s -> lw_waiters s' = lw_waiters s ->
      procs s' = <[i := at_pc p (WakeupLoop wake)]> (<[w := set_sem q (sem q + 1) (extraWaits q)]> (procs s)) -> view s s' i p.

(** Or what a call, or a signal for another reason, does. *)
Inductive move (s s' : Sys) (i : nat) (p : Proc) : Prop :=
  | m_step : view s s' i p -> move s s' i p
  | m_call p' : p_pc p = Idle ->
      match p_pc p' with
      | Attempt1 _ _ None => LWLockHeldByMe (held_lwlocks p) this_lock = false
      | ReleaseSub _ => True
      | _ => False
      end -> lwWaiting p' = lwWaiting p -> holds p' = holds p ->
      become s s' i p' (has_waiters s) (release_ok s) (list_locked s) (lw_waiters s) -> move s s' i p
  | m_other :
      become s s' i (set_sem p (sem p + 1) (extraWaits p)) (has_waiters s) (release_ok s) (list_locked s) (lw_waiters s) ->
      move s s' i p.

(** ** The first layer is kept *)

Lemma local_step p pc' : local_ok p -> pc_ok pc' = true -> p_pc p <> Idle ->
  (lwWaiting p = true -> queued_mode pc' = queued_mode (p_pc p)) -> (found_pc pc' = true -> lwWaiting p = true) ->
  local_ok (at_pc p pc').
Proof.
  intros [H1 H2 H3 H4 H5 H6 H7] Hpc Hni Hw Hf. constructor; cbn; try done.
  - intros _. by apply H3.
  - intros E. rewrite Hw by done. by apply H5.
Qed.

Lemma waiting_pc p : local_ok p -> queued_mode (p_pc p) = None -> lwWaiting p = false.
Proof. intros Hl E. destruct (lwWaiting p) eqn:Ew; [|done]. pose proof (lo_waiting p Hl Ew). congruence. Qed.

Section Decode.
Context (s : Sys) (i : nat) (p : Proc) (Hinv : Inv1 s) (Hi : procs s !! i = Some p).

Lemma put_sums p' state ws :
  (exclusive (put s i p' state ws) + excl p = exclusive s + excl p')%nat /\
  (shared (put s i p' state ws) + share p = shared s + share p')%nat /\
  (critical (put s i p' state ws) + crit p = critical s + crit p')%nat.
Proof using Hi. split_and!; by apply sum_insert. Qed.

Lemma member_sums : (excl p <= exclusive s)%nat /\ (share p <= shared s)%nat /\ (crit p <= critical s)%nat.
Proof using Hi. split_and!; by eapply sum_member. Qed.

(** A step that leaves the numbers of holders alone. *)
Lemma decode_put p' state ws hw rok lkd :
  local_ok p' -> excl p' = excl p -> share p' = share p ->
  state = word hw rok lkd (Z.of_nat (exclusive s)) (Z.of_nat (shared s)) ->
  (critical s + crit p' = (if lkd then 1 else 0) + crit p)%nat ->
  Inv1 (put s i p' state ws) /\ become s (put s i p' state ws) i p' hw rok lkd ws.
Proof using Hinv Hi.
  intros Hl He Hs Ew Hc. destruct (put_sums p' state ws) as (S1 & S2 & S3). destruct (i1_excl s Hinv) as [X1 X2].
  destruct (inv1_put s i p p' state ws hw rok lkd Hinv Hi Hl) as (Hinv' & Hf); try lia.
  - by replace (exclusive (put s i p' state ws)) with (exclusive s) by lia; replace (shared (put s i p' state ws)) with (shared s) by lia.
  - split; [done|]. by constructor.
Qed.

(** A step that changes nothing but the process. *)
Lemma decode_go p' :
  local_ok p' -> excl p' = excl p -> share p' = share p -> crit p' = crit p ->
  Inv1 (go s i p') /\ become s (go s i p') i p' (has_waiters s) (release_ok s) (list_locked s) (lw_waiters s).
Proof using Hinv Hi.
  intros Hl He Hs Hc. apply decode_put; [done..|apply (i1_word s Hinv)|]. rewrite (i1_crit s Hinv), Hc. done.
Qed.
End Decode.

(** Those a process is about to wake. *)
Definition wake_list (p : Proc) : list nat :=
  match p_pc p with
  | WakeupCas wake _ _ | WakeupLoop wake | WakeupSignal _ wake => wake
  | _ => []
  end.

(** Who is in the list of the lock or in one of those. *)
Definition all_queued (s : Sys) : list nat := lw_waiters s ++ (procs s ≫= wake_list).

Definition linked (p : Proc) : bool := lwWaiting p && negb (found_pc (p_pc p)).

(** Not in the list of the lock any more. *)
Definition removed_pc (pc : PC) : bool :=
  match pc with
  | DequeueFlag _ _ _ | DequeueUnlock _ _ _ | DequeueFound _ _ | DequeueReleaseOk _ _ | DequeueSleep _ _ => true
  | _ => false
  end.

(** Where a process can be while the one that took it off the list has the list
    lock: the routine it is in. *)
Definition swept_call (pc : PC) : option Call :=
  match pc with Attempt2 c _ _ | Sleep c _ | DequeueLock c _ => Some c | _ => None end.

Definition linked_at (s : Sys) (i : nat) : bool :=
  match procs s !! i with Some p => linked p | None => false end.
Definition swept_at (s : Sys) (i : nat) : option Call :=
  match procs s !! i with Some p => swept_call (p_pc p) | None => None end.

(** What holds of the lists at the place where process [i] stands. *)
Definition place_ok (s : Sys) (i : nat) (pc : PC) : Prop :=
  (removed_pc pc = true -> i ∉ lw_waiters s) /\
  match pc with
  | QueuePush _ _ => has_waiters s = true
  | WakeupCas wake ok _ =>
      (wake = [] -> lw_waiters s = []) /\ (forall w, w ∈ wake -> swept_at s w <> None) /\
      (ok = false -> exists w, w ∈ wake /\ swept_at s w = Some CallAcquire)
  | WakeupSignal w _ => w <> i /\ (w < length (procs s))%nat
  | _ => True
  end.

(** The second layer of the invariant. *)
Record Inv2 (s : Sys) : Prop := {
  i2_nodup : NoDup (all_queued s);
  i2_linked : forall i, i ∈ all_queued s <-> linked_at s i = true;
  i2_flag : lw_waiters s <> [] -> has_waiters s = true;
  i2_place : forall i p, procs s !! i = Some p -> place_ok s i (p_pc p)
}.

Lemma wake_list_queued s i p w : procs s !! i = Some p -> w ∈ wake_list p -> w ∈ all_queued s.
Proof.
  intros Hi Hw. apply elem_of_app. right. apply list_elem_of_bind. exists p. split; [done|]. by eapply list_elem_of_lookup_2.
Qed.

Section StepDecode.
Context (s : Sys) (i : nat) (p : Proc) (Hinv : Inv1 s) (Hinv2 : Inv2 s) (Hi : procs s !! i = Some p).

Let Hlocal : local_ok p := i1_local s Hinv i p Hi.

Definition decoded (o : option Sys) : Prop :=
  match o with Some s' => Inv1 s' /\ view s s' i p | None => True end.

Lemma decode_attempt mode old again got_pc wait_pc :
  p_pc p = again old -> lock_mode mode = true ->
  (forall old', local_ok (at_pc p (again old'))) ->
  (forall old', holds (at_pc p (again old')) = None /\ crit_pc (again old') = false) ->
  local_ok (at_pc p got_pc) -> local_ok (at_pc p wait_pc) ->
  holds (at_pc p got_pc) = Some mode -> crit_pc got_pc = false ->
  holds (at_pc p wait_pc) = None -> crit_pc wait_pc = false ->
  (old <> Some (lw_state s) -> reread (lw_state s) (again old) (again (Some (lw_state s)))) ->
  (forall s' got, (got = false -> ~ is_free s) ->
     become s s' i (at_pc p (if (got : bool) then got_pc else wait_pc)) (has_waiters s) (release_ok s) (list_locked s) (lw_waiters s) ->
     view s s' i p) ->
  decoded (Some (attempt_step s i p mode old again got_pc wait_pc)).
Proof.
  intros Hpc Hm Hla Hha Hlg Hlw Hhg Hcg Hhw Hcw Hre Hview.
  assert (holds p = None /\ crit p = 0%nat) as [Hp Hcp].
  { destruct (Hha old) as [Hh Hc]. unfold crit. rewrite Hpc, Hc. split; [|done]. rewrite <- Hh. unfold holds. cbn. by rewrite Hpc. }
  assert (excl p = 0%nat /\ share p = 0%nat) as [Ee Es] by (unfold excl, share; rewrite Hp; done).
  assert (old <> Some (lw_state s) -> decoded (Some (go s i (at_pc p (again (Some (lw_state s))))))) as Hread.
  { intros Hold. destruct (Hha (Some (lw_state s))) as [Hh Hc].
    destruct (decode_go s i p Hinv Hi (at_pc p (again (Some (lw_state s))))) as [Hinv' Hb]; [apply Hla|..].
    - unfold excl at 1. by rewrite Hh, Ee.
    - unfold share at 1. by rewrite Hh, Es.
    - unfold crit at 1. cbn. by rewrite Hc, Hcp.
    - split; [done|]. eapply v_reread; [|done|exact Hb]. rewrite Hpc. by apply Hre. }
  unfold attempt_step. destruct old as [old|]; [|by apply Hread].
  destruct (attempt_desired old mode) as [desired lock_free] eqn:Ed.
  destruct (Z.eqb_spec old (lw_state s)) as [->|]; [|apply Hread; congruence].
  pose proof (inv1_counts s Hinv) as Hco. destruct (i1_excl s Hinv) as [X1 X2].
  rewrite (i1_word s Hinv), word_attempt in Ed by done.
  destruct lock_free.
  - set (p' := at_pc p got_pc). destruct (put_sums s i p Hi p' desired (lw_waiters s)) as (S1 & S2 & S3).
    assert (crit p' = 0%nat) as Ec by (unfold crit; cbn; by rewrite Hcg).
    assert (excl p' = match mode with LW_EXCLUSIVE => 1 | _ => 0 end%nat /\
            share p' = match mode with LW_SHARED => 1 | _ => 0 end%nat) as [Ee' Es'].
    { unfold excl, share. unfold p'. rewrite Hhg. done. }
    assert (exclusive (put s i p' desired (lw_waiters s)) = excl p' /\
            shared (put s i p' desired (lw_waiters s)) = (shared s + share p')%nat /\ (excl p' = 1 -> shared s = 0)%nat /\
            desired = word (has_waiters s) (release_ok s) (list_locked s) (Z.of_nat (excl p')) (Z.of_nat (shared s + share p')))
      as (N1 & N2 & N3 & ->).
    { rewrite Ee', Es'. destruct mode; [| |done]; destruct (Z.eqb_spec (Z.of_nat (exclusive s)) 0); try done.
      - destruct (Z.eqb_spec (Z.of_nat (shared s)) 0); [|done]. injection Ed as <-. split_and!; [lia..|]. f_equal; lia.
      - injection Ed as <-. split_and!; [lia..|]. f_equal; lia. }
    destruct (inv1_put s i p p'
      (word (has_waiters s) (release_ok s) (list_locked s) (Z.of_nat (excl p')) (Z.of_nat (shared s + share p')))
      (lw_waiters s) (has_waiters s) (release_ok s) (list_locked s) Hinv Hi Hlg) as [Hinv' Hf].
    + by rewrite N1, N2.
    + rewrite N1, Ee'. destruct mode; lia.
    + rewrite N1, N2. intros E. assert (share p' = 0%nat) by (rewrite Es'; rewrite Ee' in E; destruct mode; done). rewrite N3 by done. lia.
    + rewrite (i1_crit s Hinv) in S3. lia.
    + split; [done|]. apply (Hview _ true); [done|]. by constructor.
  - assert (desired = lw_state s /\ ~ is_free s) as [-> Hnf].
    { rewrite (i1_word s Hinv). unfold is_free. destruct mode; [| |done]; destruct (Z.eqb_spec (Z.of_nat (exclusive s)) 0);
        try destruct (Z.eqb_spec (Z.of_nat (shared s)) 0); cbn in Ed; try done; injection Ed as <-; (split; [done|lia]). }
    destruct (decode_go s i p Hinv Hi (at_pc p wait_pc)) as [Hinv' Hb]; [done|..].
    + unfold excl at 1. by rewrite Hhw, Ee.
    + unfold share at 1. by rewrite Hhw, Es.
    + unfold crit at 1. cbn. by rewrite Hcw, Hcp.
    + split; [done|]. by apply (Hview _ false).
Qed.

Lemma crit_locked : crit_pc (p_pc p) = true -> list_locked s = true /\ critical s = 1%nat.
Proof using Hinv Hi.
  intros Hc. pose proof (i1_crit s Hinv) as E. destruct (member_sums s i p Hi) as (_ & _ & M).
  unfold crit in M. rewrite Hc in M. destruct (list_locked s); [done|lia].
Qed.

(** A step that leaves the holders alone, with the new state word computed. *)
Lemma decode_word (p' : Proc) state ws hw rok lkd :
  local_ok p' -> holds p' = holds p ->
  state = word hw rok lkd (Z.of_nat (exclusive s)) (Z.of_nat (shared s)) ->
  (critical s + crit p' = (if lkd then 1 else 0) + crit p)%nat ->
  (become s (put s i p' state ws) i p' hw rok lkd ws -> view s (put s i p' state ws) i p) ->
  decoded (Some (put s i p' state ws)).
Proof using Hinv Hi.
  intros Hl Hh Ew Hc Hv. destruct (decode_put s i p Hinv Hi p' state ws hw rok lkd Hl) as [Hinv' Hb]; [..|done|done|].
  - unfold excl. by rewrite Hh.
  - unfold share. by rewrite Hh.
  - split; [done|by apply Hv].
Qed.

Lemma decode_same (p' : Proc) :
  local_ok p' -> holds p' = holds p -> crit_pc (p_pc p') = crit_pc (p_pc p) ->
  (become s (go s i p') i p' (has_waiters s) (release_ok s) (list_locked s) (lw_waiters s) -> view s (go s i p') i p) ->
  decoded (Some (go s i p')).
Proof using Hinv Hi.
  intros Hl Hh Hc Hv. apply decode_word with (has_waiters s) (release_ok s) (list_locked s);
    [done|done|apply (i1_word s Hinv)| |done].
  rewrite (i1_crit s Hinv). unfold crit. by rewrite Hc.
Qed.

Lemma decode_list_lock pc' :
  local_ok (at_pc p pc') -> holds (at_pc p pc') = holds p -> crit_pc (p_pc p) = false -> crit_pc pc' = true ->
  (forall s', list_locked s = false ->
     become s s' i (at_pc p pc') (has_waiters s) (release_ok s) true (lw_waiters s) -> view s s' i p) ->
  decoded (list_lock_step s i p pc').
Proof using Hinv Hi.
  intros Hl Hh Hc Hc' Hv. unfold list_lock_step. pose proof (inv1_counts s Hinv) as Hco.
  pose proof (i1_crit s Hinv) as E. rewrite (i1_word s Hinv), word_locked by done.
  destruct (list_locked s); [done|]. cbn [negb].
  apply decode_word with (has_waiters s) (release_ok s) true; [done|done|by rewrite word_or_locked| |by apply Hv].
  unfold crit. cbn [p_pc at_pc]. rewrite Hc, Hc'. lia.
Qed.

Lemma decode_list_unlock pc' :
  local_ok (at_pc p pc') -> holds (at_pc p pc') = holds p -> crit_pc (p_pc p) = true -> crit_pc pc' = false ->
  (forall s', become s s' i (at_pc p pc') (has_waiters s) (release_ok s) false (lw_waiters s) -> view s s' i p) ->
  decoded (Some (list_unlock_step s i p pc')).
Proof using Hinv Hi.
  intros Hl Hh Hc Hc' Hv. unfold list_unlock_step. pose proof (inv1_counts s Hinv) as Hco.
  destruct (crit_locked Hc) as [El Ec]. rewrite (i1_word s Hinv), word_locked, El by done. cbn [negb break_if].
  apply decode_word with (has_waiters s) (release_ok s) false; [done|done|by rewrite word_not_locked| |by apply Hv].
  unfold crit. cbn [p_pc at_pc]. rewrite Hc, Hc'. lia.
Qed.

Lemma decode_sleep pc' :
  local_ok p -> (lwWaiting p = false -> local_ok (at_pc (set_sem p (sem p - 1) (extraWaits p)) pc') \/ sem p <= 0) ->
  holds (at_pc p pc') = holds p -> crit_pc (p_pc p) = false -> crit_pc pc' = false -> p_pc p <> Idle ->
  (forall s', 0 < sem p ->
      become s s' i (if lwWaiting p then set_sem p (sem p - 1) (extraWaits p + 1)
                     else at_pc (set_sem p (sem p - 1) (extraWaits p)) pc')
        (has_waiters s) (release_ok s) (list_locked s) (lw_waiters s) -> view s s' i p) ->
  decoded (sleep_step s i p pc').
Proof using Hinv Hi.
  intros Hl Hl' Hh Hc Hc' Hni Hv. unfold sleep_step. destruct (Z.ltb_spec 0 (sem p)) as [Hs|]; [|done].
  apply decode_same; [| | |by apply Hv].
  - destruct (lwWaiting p) eqn:Ew; [|destruct Hl'; [done|done|lia]].
    destruct Hl as [H1 H2 H3 H4 H5 H6 H7]. constructor; cbn; try done. lia.
  - destruct (lwWaiting p); [done|]. rewrite <- Hh. unfold holds. done.
  - destruct (lwWaiting p); [done|]. cbn. by rewrite Hc, Hc'.
Qed.

Lemma decode_release mode : p_pc p = ReleaseSub mode ->
  let state := u32 (lw_state s - (match mode with LW_EXCLUSIVE => LW_VAL_EXCLUSIVE | _ => LW_VAL_SHARED end)) in
  decoded (Some (put s i
    (at_pc p (break_if (negb (Z.land state LW_VAL_EXCLUSIVE =? 0)) "still held exclusively"
                (if check_waiters state then WakeupLock else Idle))) state (lw_waiters s))).
Proof using Hinv Hi Hlocal.
  intros Epc. cbn zeta. pose proof (inv1_counts s Hinv) as Hco. destruct (i1_excl s Hinv) as [X1 X2].
  pose proof (lo_busy p Hlocal ltac:(by rewrite Epc)) as Hn. pose proof (lo_pc p Hlocal) as Hpc. rewrite Epc in Hpc. cbn in Hpc.
  set (e := (exclusive s - excl p)%nat). set (sh := (shared s - share p)%nat).
  destruct (member_sums s i p Hi) as (M1 & M2 & _).
  assert (e = 0%nat) as He.
  { unfold e. unfold excl, share, holds in *. rewrite Epc in *. destruct mode; [lia| |done].
    destruct (exclusive s) as [|[|]]; [done| |lia]. specialize (X2 eq_refl). lia. }
  assert (counts_ok (Z.of_nat e) (Z.of_nat sh)) as Hco'. { unfold counts_ok in *. unfold sh. lia. }
  assert (u32 (lw_state s - (match mode with LW_EXCLUSIVE => LW_VAL_EXCLUSIVE | _ => LW_VAL_SHARED end)) =
          word (has_waiters s) (release_ok s) (list_locked s) (Z.of_nat e) (Z.of_nat sh)) as ->.
  { assert (lw_state s - (match mode with LW_EXCLUSIVE => LW_VAL_EXCLUSIVE | _ => LW_VAL_SHARED end) =
          word (has_waiters s) (release_ok s) (list_locked s) (Z.of_nat e) (Z.of_nat sh)) as ->.
    { rewrite (i1_word s Hinv). unfold word, e, sh. rewrite !Nat2Z.inj_sub by done.
      unfold excl, share, holds in *. rewrite Epc in *. change LW_VAL_EXCLUSIVE with (2 ^ 24). unfold LW_VAL_SHARED.
      destruct mode; [lia|lia|done]. }
    unfold u32. apply Z.mod_small. by apply word_range. }
  rewrite word_exclusive, word_check by done. rewrite He. cbn [Z.of_nat Z.eqb negb break_if].
  set (check := has_waiters s && release_ok s && true && (Z.of_nat sh =? 0)).
  set (p' := at_pc p (if check then WakeupLock else Idle)).
  assert (holds p' = None) as Hh.
  { unfold holds, p'. cbn. destruct check; [done|]. by apply held_this_none. }
  assert (excl p' = 0%nat /\ share p' = 0%nat) as [Ee Es] by (unfold excl, share; by rewrite Hh).
  set (state := word _ _ _ _ _).
  destruct (put_sums s i p Hi p' state (lw_waiters s)) as (S1 & S2 & S3).
  assert (exclusive (put s i p' state (lw_waiters s)) = e /\ shared (put s i p' state (lw_waiters s)) = sh) as [N1 N2]
    by (unfold sh; lia).
  assert (local_ok p') as Hlp.
  { apply local_step; [done|by destruct check|by rewrite Epc| |by destruct check].
    intros Ew. pose proof (lo_waiting p Hlocal Ew) as Eq. by rewrite Epc in Eq. }
  assert (crit p = 0%nat /\ crit p' = 0%nat) as [C1 C2].
  { unfold crit, p'. rewrite Epc. cbn. split; [done|]. by destruct check. }
  destruct (inv1_put s i p p' state (lw_waiters s) (has_waiters s) (release_ok s) (list_locked s) Hinv Hi Hlp) as [Hinv' Hf].
  - by rewrite N1, N2, He.
  - lia.
  - lia.
  - rewrite (i1_crit s Hinv) in S3. lia.
  - split; [done|]. apply v_release with mode check; [done| |by constructor].
    intros Hck [_ Hfree] Hw. change (shared (put s i p' state (lw_waiters s)) = 0%nat) in Hfree. rewrite N2 in Hfree.
    unfold check in Hck. rewrite Hw, Hfree in Hck. by destruct (release_ok s).
Qed.
End StepDecode.
