(* ===== verification/LWLockSteps.v ===== *)
(** Light-weight locks: every step of a routine is one of the changes of
    [view], and keeps the two layers of the invariant. *)
From stdpp Require Import list.
From S2P Require Import Prelude LWLock LWLockProofs.

(** ** Decoding a step *)

Lemma word_wakeup hw rok lkd e sh ok nobody : counts_ok e sh ->
  wakeup_desired (word hw rok lkd e sh) ok nobody = word (hw && negb nobody) ok false e sh.
Proof.
  intros Hc. unfold wakeup_desired.
  destruct ok, nobody, hw; rewrite ?word_or_release_ok, ?word_not_release_ok, ?word_not_waiters, ?word_not_locked by done; done.
Qed.

Lemma filter_keep {A} (P : A -> Prop) `{forall x, Decision (P x)} (l : list A) : (forall x, x ∈ l -> P x) -> filter P l = l.
Proof.
  intros Hall. induction l as [|x l IH]; [done|]. rewrite filter_cons_True by (apply Hall; left).
  f_equal. apply IH. intros y Hy. apply Hall. by right.
Qed.

Lemma dequeue_spec i ws : NoDup ws -> dequeue_loop i ws = (filter (fun w => w <> i) ws, bool_decide (i ∈ ws)).
Proof.
  induction ws as [|w ws IH]; intros Hn; [done|]. apply NoDup_cons in Hn as [Hw Hn]. cbn [dequeue_loop].
  destruct (decide (w = i)) as [Hd|Hd].
  - subst w. rewrite filter_cons_False, filter_keep, bool_decide_true by (naive_solver || left). done.
  - rewrite IH, filter_cons_True by done. f_equal. apply bool_decide_ext. rewrite elem_of_cons. naive_solver.
Qed.

Lemma sweep_perm mode_of ws somebody ok stay wake ok' :
  wakeup_sweep mode_of ws somebody ok = (stay, wake, ok') -> stay ++ wake ≡ₚ ws.
Proof.
  revert somebody ok stay wake ok'. induction ws as [|w ws IH]; intros somebody ok stay wake ok'; cbn; [by intros [= <- <- <-]|].
  destruct (somebody && _).
  - destruct (wakeup_sweep _ ws _ _) as [[stay1 wake1] ok1] eqn:E. intros [= <- <- <-]. cbn. f_equiv. by eapply IH.
  - destruct (bool_decide (mode_of w = LW_EXCLUSIVE)).
    + intros [= <- <- <-]. apply Permutation_app_comm.
    + destruct (wakeup_sweep _ ws _ _) as [[stay1 wake1] ok1] eqn:E. intros [= <- <- <-].
      rewrite <- Permutation_middle. f_equiv. by eapply IH.
Qed.

Lemma local_woken q : local_ok q -> found_pc (p_pc q) = false -> local_ok (set_waiting q false (lwWaitMode q)).
Proof. intros [H1 H2 H3 H4 H5 H6 H7] Hf. constructor; cbn; try done. congruence. Qed.

Lemma local_signalled q : local_ok q -> local_ok (set_sem q (sem q + 1) (extraWaits q)).
Proof. intros [H1 H2 H3 H4 H5 H6 H7]. constructor; cbn; try done. lia. Qed.

(** The call a process is in, where the step is the call's own. *)
Definition call_of (pc : PC) : option Call :=
  match pc with Attempt1 c _ _ | Attempt2 c _ _ | Sleep c _ | Finish c _ _ => Some c | SetReleaseOk _ => Some CallAcquire | _ => None end.

Section Step.
Context (s : Sys) (i : nat) (p : Proc) (Hinv : Inv1 s) (Hinv2 : Inv2 s) (Hi : procs s !! i = Some p).

Let Hlocal : local_ok p := i1_local s Hinv i p Hi.

Lemma word_now hw rok lkd :
  (hw, rok, lkd) = (has_waiters s, release_ok s, list_locked s) ->
  lw_state s = word hw rok lkd (Z.of_nat (exclusive s)) (Z.of_nat (shared s)).
Proof using Hinv. intros [= -> -> ->]. apply (i1_word s Hinv). Qed.

(** A process never wakes itself, and who it wakes is there and waits. *)
Lemma wake_other w wake : p_pc p = WakeupLoop (w :: wake) -> w <> i /\ exists q, procs s !! w = Some q /\ linked q = true.
Proof using Hinv Hinv2 Hi Hlocal.
  intros Epc. assert (linked_at s w = true) as Hl.
  { apply (i2_linked s Hinv2). eapply wake_list_queued; [exact Hi|]. unfold wake_list. rewrite Epc. left. }
  unfold linked_at in Hl. destruct (procs s !! w) as [q|] eqn:Hq; [|done].
  split; [|eauto]. intros ->. rewrite Hi in Hq. injection Hq as <-. unfold linked in Hl.
  by rewrite (waiting_pc p Hlocal) in Hl by (by rewrite Epc).
Qed.

(** Whoever is woken was in the list, so the flag is set. *)
Lemma sweep_flag stay wake ok : wakeup_sweep (wait_mode_of s) (lw_waiters s) false true = (stay, wake, ok) ->
  negb (bool_decide (wake = [])) && negb (has_waiters s) = false.
Proof using Hinv2.
  intros E%sweep_perm. destruct (has_waiters s) eqn:Ew; [by rewrite andb_false_r|].
  destruct wake as [|w wake]; [done|]. destruct (lw_waiters s) as [|w' ws] eqn:El.
  - symmetry in E. by apply Permutation_nil, app_nil in E as [_ [=]].
  - pose proof (i2_flag s Hinv2) as Hf. rewrite El, Ew in Hf. by specialize (Hf ltac:(done)).
Qed.

Lemma decode_two w q q' pc' :
  procs s !! w = Some q -> w <> i -> local_ok q' -> holds q' = holds q -> crit_pc (p_pc q') = crit_pc (p_pc q) ->
  local_ok (at_pc p pc') -> holds (at_pc p pc') = holds p -> crit_pc pc' = crit_pc (p_pc p) ->
  Inv1 (go (go s w q') i (at_pc p pc')).
Proof using Hinv Hi.
  intros Hq Hne Hl Hh Hc Hl' Hh' Hc'.
  assert (Inv1 (go s w q')) as Hone.
  { apply (decode_go s w q Hinv Hq q' Hl); unfold excl, share, crit; by rewrite ?Hh, ?Hc. }
  apply (decode_go (go s w q') i p Hone); [|done|..].
  - cbn. by rewrite list_lookup_insert_ne.
  - unfold excl. by rewrite Hh'.
  - unfold share. by rewrite Hh'.
  - unfold crit. cbn. by rewrite Hc'.
Qed.


Lemma local_queued c mode : p_pc p <> Idle -> lock_mode mode && may_queue c = true ->
  local_ok (at_pc (set_waiting p true (queue_mode c mode)) (QueueUnlock c mode)).
Proof using Hlocal. intros Hni Hm. destruct Hlocal as [H1 H2 H3 H4 H5 H6 H7]. constructor; cbn; auto. Qed.

Lemma local_unqueued pc' : p_pc p <> Idle -> pc_ok pc' = true -> found_pc pc' = false ->
  local_ok (at_pc (set_waiting p false (lwWaitMode p)) pc').
Proof using Hlocal.
  intros Hni Hp Hf. destruct Hlocal as [H1 H2 H3 H4 H5 H6 H7]. constructor; cbn; try done; [auto|congruence].
Qed.

Lemma local_awake pc' : p_pc p <> Idle -> pc_ok pc' = true -> found_pc pc' = false -> lwWaiting p = false ->
  local_ok (at_pc (set_sem p (sem p - 1) (extraWaits p)) pc') \/ sem p <= 0.
Proof using Hlocal.
  intros Hni Hp Hf Hw. destruct (Z.leb_spec (sem p) 0); [by right|left].
  destruct Hlocal as [H1 H2 H3 H4 H5 H6 H7]. constructor; cbn; try done; [auto|congruence|congruence|lia].
Qed.

Lemma local_retry pc' : p_pc p <> Idle -> pc_ok pc' = true -> queued_mode pc' = None /\ found_pc pc' = false ->
  queued_mode (p_pc p) = None -> local_ok (at_pc (set_result p false) pc').
Proof using Hlocal.
  intros Hni Hp [Hq Hf] Hw%(waiting_pc p Hlocal). destruct Hlocal as [H1 H2 H3 H4 H5 H6 H7].
  constructor; cbn; try done; [auto|congruence|congruence].
Qed.

Lemma waiter_waits : i ∈ lw_waiters s -> lwWaiting p = true.
Proof using Hinv2 Hi.
  intros Hin. assert (linked_at s i = true) as Hl by (apply (i2_linked s Hinv2), elem_of_app; by left).
  unfold linked_at in Hl. rewrite Hi in Hl. by apply andb_true_iff in Hl as [? _].
Qed.

Lemma local_finish mode got : p_pc p <> Idle -> lock_mode mode = true -> lwWaiting p = false ->
  local_ok (let p := set_sem p (sem p + extraWaits p) 0 in
    at_pc (if got : bool then set_held p (held_add (held_lwlocks p) this_lock mode) else set_result p false) Idle).
Proof using Hlocal.
  intros Hni Hm Hw. destruct Hlocal as [H1 H2 H3 H4 H5 H6 H7]. specialize (H3 Hni).
  destruct got; constructor; cbn; try done; try congruence; try lia.
  - pose proof (n_this_remove _ _ _ (held_remove_add (held_lwlocks p) mode)) as E. rewrite H3 in E. by apply Nat.eq_le_incl.
  - intros h [Hin|Hin]%elem_of_app Hl; [by apply H4|]. apply list_elem_of_singleton in Hin as ->. done.
Qed.

(** The new program counter, when it is one of the same phase. *)
Ltac local_at Hpc Epc :=
  apply local_step; [done|first [done|cbn; by rewrite andb_true_r|cbn; by apply andb_true_iff in Hpc as [? _]]|by rewrite Epc|rewrite Epc; first [done|by intros; exfalso; auto]|try done].
Ltac same_holds Epc := unfold holds; cbn; by rewrite Epc.

(** The facts a step starts from, and the cases of the program counter. *)
Ltac start_decode :=
  pose proof (lo_pc p Hlocal) as Hpc; pose proof (waiting_pc p Hlocal) as Hw;
  assert (queued_mode (p_pc p) = None -> lwWaiting p = true -> False) as Hnw by (intros E1 E2; rewrite Hw in E2; done);
  pose proof (inv1_counts s Hinv) as Hco; pose proof (i1_word s Hinv) as Eword;
  pose proof (crit_locked s i p Hinv Hi) as Hcrit;
  destruct (p_pc p) as [|c mode old|c mode|c mode|c mode|c mode|c mode old|c mode|mode|c mode|c mode|c mode found|c mode found
    |c mode|c mode|c mode|c mode got|mode| | |wake ok old|wake|w wake|what] eqn:Epc; cbn in Hpc, Hw, Hnw; cbn [crit_pc] in Hcrit; try done.

(** Queueing. *)
Lemma queue_decode : decoded s i p (LWLockQueueSelf_step i s p).
Proof using Hinv Hinv2 Hi Hlocal.
  unfold LWLockQueueSelf_step. start_decode.
  - (* QueueLock *)
    rewrite Hw by done. apply (decode_list_lock s i p Hinv Hi); try done; [local_at Hpc Epc|same_holds Epc|by rewrite Epc|].
    intros s' El Hb. eapply v_lock; [|done|exact Hb]. rewrite Epc. auto.
  - (* QueueFlag *)
    destruct Hcrit as [El Ec]; [done|]. apply (decode_word s i p Hinv Hi) with true (release_ok s) true; try done.
    + local_at Hpc Epc.
    + same_holds Epc.
    + rewrite Eword, word_or_waiters, El by done. done.
    + unfold crit. cbn. rewrite Epc. cbn. lia.
    + by apply v_flag.
  - (* QueuePush *)
    destruct Hcrit as [El Ec]; [done|]. apply (decode_word s i p Hinv Hi) with (has_waiters s) (release_ok s) true; try done.
    + apply local_queued; try done. by rewrite Epc.
    + same_holds Epc.
    + by rewrite Eword, El at 1.
    + unfold crit. cbn. rewrite Epc. cbn. lia.
    + by apply v_push.
  - (* QueueUnlock *)
    apply (decode_list_unlock s i p Hinv Hi); try done; [local_at Hpc Epc|same_holds Epc|by rewrite Epc|].
    intros s' Hb. eapply v_unlock; [|exact Hb]. by rewrite Epc.
Qed.

(** Leaving the queue. *)
Lemma dequeue_decode : decoded s i p (LWLockDequeueSelf_step i s p).
Proof using Hinv Hinv2 Hi Hlocal.
  unfold LWLockDequeueSelf_step. start_decode.
  - (* DequeueLock *)
    apply (decode_list_lock s i p Hinv Hi); try done; [local_at Hpc Epc|same_holds Epc|by rewrite Epc|].
    intros s' El Hb. eapply v_lock; [|done|exact Hb]. by rewrite Epc.
  - (* DequeueRemove *)
    destruct Hcrit as [El Ec]; [done|]. pose proof (i2_nodup s Hinv2) as Hnd. apply NoDup_app in Hnd as (Hnd & _ & _). rewrite dequeue_spec by done.
    apply (decode_word s i p Hinv Hi) with (has_waiters s) (release_ok s) true.
    + local_at Hpc Epc. destruct (bool_decide_reflect (i ∈ lw_waiters s)) as [Hin|]; [intros _; by apply waiter_waits|done].
    + same_holds Epc.
    + by rewrite Eword, El at 1.
    + unfold crit. cbn. rewrite Epc. cbn. lia.
    + by apply v_remove.
  - (* DequeueFlag *)
    destruct Hcrit as [El Ec]; [done|].
    apply (decode_word s i p Hinv Hi) with (has_waiters s && negb (bool_decide (lw_waiters s = []))) (release_ok s) true.
    + local_at Hpc Epc. intros E. apply (lo_found p Hlocal). by rewrite Epc.
    + same_holds Epc.
    + rewrite Eword, word_waiters, word_not_waiters, El by done.
      destruct (bool_decide (lw_waiters s = [])), (has_waiters s); done.
    + unfold crit. cbn. rewrite Epc. cbn. lia.
    + by apply v_clear.
  - (* DequeueUnlock *)
    apply (decode_list_unlock s i p Hinv Hi); [destruct found; local_at Hpc Epc|destruct found; same_holds Epc|by rewrite Epc|by destruct found|].
    + intros _. apply (lo_found p Hlocal). by rewrite Epc.
    + intros s' Hb. eapply v_unlock; [|exact Hb]. by rewrite Epc.
  - (* DequeueFound *)
    apply (decode_same s i p Hinv Hi); [|same_holds Epc|by rewrite Epc|by apply v_found].
    apply local_unqueued; [by rewrite Epc|by apply andb_true_iff in Hpc as [? _]|done].
  - (* DequeueReleaseOk *)
    apply (decode_word s i p Hinv Hi) with (has_waiters s) true (list_locked s).
    + local_at Hpc Epc.
    + same_holds Epc.
    + by rewrite Eword, word_or_release_ok at 1.
    + rewrite (i1_crit s Hinv). unfold crit. cbn. by rewrite Epc.
    + intros Hb. eapply v_release_ok; [|exact Hb]. by rewrite Epc.
  - (* DequeueSleep *)
    apply (decode_sleep s i p Hinv Hi); try done; [|same_holds Epc|by rewrite Epc|by rewrite Epc|].
    + intros. apply local_awake; [by rewrite Epc|by cbn; apply andb_true_iff in Hpc as [? _]|done|done].
    + intros s' Hs Hb. eapply v_sleep; [|done|exact Hb]. by rewrite Epc.
Qed.

(** Waking the waiters. *)
Lemma wakeup_decode : decoded s i p (LWLockWakeup_step i s p).
Proof using Hinv Hinv2 Hi Hlocal.
  unfold LWLockWakeup_step. start_decode.
  - (* WakeupLock *)
    apply (decode_list_lock s i p Hinv Hi); try done; [local_at Hpc Epc|same_holds Epc|by rewrite Epc|].
    intros s' El Hb. eapply v_lock; [|done|exact Hb]. by rewrite Epc.
  - (* WakeupSweep *)
    destruct Hcrit as [El Ec]; [done|].
    destruct (wakeup_sweep (wait_mode_of s) (lw_waiters s) false true) as [[stay wake] ok] eqn:Esw.
    rewrite Eword, word_waiters by done. pose proof (sweep_flag stay wake ok Esw) as ->.
    rewrite <- Eword. apply (decode_word s i p Hinv Hi) with (has_waiters s) (release_ok s) true.
    + local_at Hpc Epc.
    + same_holds Epc.
    + by rewrite Eword, El at 1.
    + unfold crit. cbn. rewrite Epc. cbn. lia.
    + by apply v_sweep.
  - (* WakeupCas *)
    destruct Hcrit as [El Ec]; [done|].
    assert (old <> Some (lw_state s) -> decoded s i p (Some (go s i (at_pc p (WakeupCas wake ok (Some (lw_state s))))))) as Hread.
    { intros Hold. apply (decode_same s i p Hinv Hi); [local_at Hpc Epc|same_holds Epc|by rewrite Epc|].
      apply v_reread; [|done]. rewrite Epc. by constructor. }
    destruct old as [old|]; [|by apply Hread]. destruct (Z.eqb_spec old (lw_state s)) as [->|]; [|apply Hread; congruence].
    apply (decode_word s i p Hinv Hi) with (has_waiters s && negb (bool_decide (wake = []))) ok false.
    + local_at Hpc Epc.
    + same_holds Epc.
    + rewrite Eword at 1. by apply word_wakeup.
    + unfold crit. cbn. rewrite Epc. cbn. lia.
    + by eapply v_cas.
  - (* WakeupLoop *)
    destruct wake as [|w wake].
    + apply (decode_same s i p Hinv Hi); [local_at Hpc Epc| |by rewrite Epc|by apply v_loop_end].
      unfold holds. rewrite Epc. cbn. apply held_this_none, (lo_busy p Hlocal). by rewrite Epc.
    + destruct (wake_other w wake Epc) as (Hne & q & Hq & Hl). rewrite Hq. split; [|by eapply v_wake].
      apply andb_true_iff in Hl as [Hl1 Hl2]. apply negb_true_iff in Hl2.
      apply decode_two with q; try done; [|local_at Hpc Epc|same_holds Epc|by rewrite Epc].
      apply local_woken; [by eapply i1_local|done].
  - (* WakeupSignal *)
    pose proof (i2_place s Hinv2 i p Hi) as Hpl. rewrite Epc in Hpl. destruct Hpl as (_ & Hne & Hlt).
    destruct (lookup_lt_is_Some_2 _ _ Hlt) as [q Hq]. rewrite Hq. split; [|by eapply v_signal].
    apply decode_two with q; try done; [|local_at Hpc Epc|same_holds Epc|by rewrite Epc].
    apply local_signalled. by eapply i1_local.
Qed.

(** The three calls. *)
Lemma call_decode : forall c, call_of (p_pc p) = Some c -> decoded s i p (call_step c i s p).
Proof using Hinv Hinv2 Hi Hlocal.
  unfold call_step, LWLockAcquire_step, LWLockConditionalAcquire_step, LWLockAcquireOrWait_step. start_decode.
  - (* Attempt1 *)
    intros ? [= <-]. enough (decoded s i p (Some (attempt_step s i p mode old (Attempt1 c mode) (Finish c mode true)
      (match c with CallConditionalAcquire => Finish c mode false | _ => QueueLock c mode end))))
      by (destruct c; rewrite ?Epc; done).
    apply decode_attempt; try done; try (by destruct c); try (by intros; constructor).
    + intros. local_at Hpc Epc.
    + local_at Hpc Epc.
    + destruct c; local_at Hpc Epc.
    + intros s' got Hgot Hb. by eapply v_attempt1.
  - (* Attempt2 *)
    intros ? [= <-]. enough (decoded s i p (Some (attempt_step s i p mode old (Attempt2 c mode) (DequeueLock c mode) (Sleep c mode))))
      by (by destruct c; rewrite ?Epc).
    apply decode_attempt; try done; try (by intros; constructor).
    + by destruct mode.
    + intros. local_at Hpc Epc.
    + local_at Hpc Epc.
    + local_at Hpc Epc.
    + intros s' got Hgot Hb. by eapply v_attempt2.
  - (* Sleep *)
    intros ? [= <-]. enough (decoded s i p (sleep_step s i p (match c with CallAcquire => SetReleaseOk mode | _ => Finish c mode false end)))
      by (by destruct c; rewrite ?Epc).
    apply (decode_sleep s i p Hinv Hi); try done; [|destruct c; same_holds Epc|by rewrite Epc|by destruct c|by rewrite Epc|].
    + intros. apply local_awake; [by rewrite Epc|by destruct c; cbn; apply andb_true_iff in Hpc as [? _]|by destruct c|done].
    + intros s' Hs Hb. eapply v_sleep; [|done|exact Hb]. by rewrite Epc.
  - (* SetReleaseOk *)
    intros ? [= <-]. rewrite Epc. apply (decode_word s i p Hinv Hi) with (has_waiters s) true (list_locked s).
    + apply local_retry; [by rewrite Epc|done|done|by rewrite Epc].
    + same_holds Epc.
    + by rewrite Eword, word_or_release_ok at 1.
    + rewrite (i1_crit s Hinv). unfold crit. cbn. by rewrite Epc.
    + intros Hb. eapply v_release_ok; [|exact Hb]. by rewrite Epc.
  - (* Finish *)
    intros ? [= <-]. enough (decoded s i p (finish_step i s p mode got)) by (by destruct c; rewrite ?Epc).
    apply (decode_same s i p Hinv Hi); [..|by apply v_finish with c].
    + apply local_finish; [by rewrite Epc|done|by apply Hw].
    + assert (n_this (held_lwlocks p) = 0%nat) as Hn by (apply (lo_busy p Hlocal); by rewrite Epc).
      unfold holds. rewrite Epc. destruct got; [|by apply held_this_none].
      change (held_this (held_add (held_lwlocks p) this_lock mode) = Some mode). unfold held_this. by rewrite held_remove_add.
    + rewrite Epc. by destruct got.
Qed.

Lemma step_decode : decoded s i p (lwlock_step i s).
Proof using Hinv Hinv2 Hi Hlocal.
  unfold lwlock_step. rewrite Hi. pose proof call_decode as Hcall. destruct (p_pc p) eqn:Epc; try done;
    solve [apply queue_decode|apply dequeue_decode|apply wakeup_decode|by apply Hcall|by apply (Hcall CallAcquire)|by unfold LWLockRelease_step; rewrite Epc; apply decode_release].
Qed.
End Step.

(** ** The second layer is kept *)

(** The loop of [LWLockWakeup]: it wakes somebody if anybody waits; it forbids
    further wakeups only after waking one that will retry, and always if it leaves
    somebody waiting. *)
Lemma sweep_first mode_of ws ok stay wake ok' :
  wakeup_sweep mode_of ws false ok = (stay, wake, ok') -> wake = [] -> ws = [].
Proof.
  destruct ws as [|w ws]; [done|]. cbn. destruct (bool_decide (mode_of w = LW_EXCLUSIVE)); [by intros [= <- <- <-]|].
  destruct (wakeup_sweep _ ws _ _) as [[stay1 wake1] ok1]. by intros [= <- <- <-].
Qed.

Lemma sweep_ok mode_of ws somebody ok stay wake ok' :
  wakeup_sweep mode_of ws somebody ok = (stay, wake, ok') -> ok' = false ->
  ok = false \/ exists w, w ∈ wake /\ mode_of w <> LW_WAIT_UNTIL_FREE.
Proof.
  revert somebody ok stay wake ok'. induction ws as [|w ws IH]; intros somebody ok stay wake ok'; cbn; [intros [= <- <- <-]; auto|].
  destruct (somebody && _).
  - destruct (wakeup_sweep _ ws _ _) as [[stay1 wake1] ok1] eqn:E. intros [= <- <- <-]. by eapply IH.
  - destruct (bool_decide_reflect (mode_of w = LW_WAIT_UNTIL_FREE)) as [Hm|Hm].
    + rewrite Hm. cbn. destruct (wakeup_sweep _ ws _ _) as [[stay1 wake1] ok1] eqn:E. intros [= <- <- <-] Hok.
      destruct (IH _ _ _ _ _ E Hok) as [|(v & Hv & Hm')]; [by left|right]. exists v. split; [by right|done].
    + intros E _. right. exists w. split; [|done]. destruct (bool_decide (mode_of w = LW_EXCLUSIVE)).
      * injection E as <- <- <-. left.
      * destruct (wakeup_sweep _ ws _ _) as [[stay1 wake1] ok1]. injection E as <- <- <-. left.
Qed.

Lemma sweep_not_ok mode_of ws somebody stay wake ok' :
  wakeup_sweep mode_of ws somebody false = (stay, wake, ok') -> ok' = false.
Proof.
  revert somebody stay wake ok'. induction ws as [|w ws IH]; intros somebody stay wake ok'; cbn; [by intros [= <- <- <-]|].
  destruct (somebody && _).
  - destruct (wakeup_sweep _ ws _ _) as [[stay1 wake1] ok1] eqn:E. intros [= <- <- <-]. by eapply IH.
  - destruct (bool_decide (mode_of w = LW_WAIT_UNTIL_FREE)), (bool_decide (mode_of w = LW_EXCLUSIVE)); try by intros [= <- <- <-].
    all: destruct (wakeup_sweep _ ws _ _) as [[stay1 wake1] ok1] eqn:E; intros [= <- <- <-]; by eapply IH.
Qed.

Lemma sweep_stay mode_of ws somebody ok stay wake ok' :
  wakeup_sweep mode_of ws somebody ok = (stay, wake, ok') -> (somebody = true -> ok = false) -> stay <> [] -> ok' = false.
Proof.
  revert somebody ok stay wake ok'. induction ws as [|w ws IH]; intros somebody ok stay wake ok'; cbn; [by intros [= <- <- <-]|].
  destruct (somebody && bool_decide (mode_of w = LW_EXCLUSIVE)) eqn:Es.
  - apply andb_true_iff in Es as [-> _]. destruct (wakeup_sweep _ ws _ _) as [[stay1 wake1] ok1] eqn:E.
    intros [= <- <- <-] Hok _. rewrite Hok in E by done. by eapply sweep_not_ok.
  - destruct (bool_decide_reflect (mode_of w = LW_WAIT_UNTIL_FREE)) as [Hm|Hm].
    + rewrite Hm. cbn. rewrite orb_false_r. destruct (wakeup_sweep _ ws _ _) as [[stay1 wake1] ok1] eqn:E.
      intros [= <- <- <-] Hok. by eapply IH.
    + destruct (bool_decide (mode_of w = LW_EXCLUSIVE)); [by intros [= <- <- <-]|].
      destruct (wakeup_sweep _ ws _ _) as [[stay1 wake1] ok1] eqn:E. intros [= <- <- <-] _ _. by eapply sweep_not_ok.
Qed.

Lemma bind_insert {A B} (f : A -> list B) l i x y : l !! i = Some x -> (<[i := y]> l ≫= f) ++ f x ≡ₚ (l ≫= f) ++ f y.
Proof.
  revert i. induction l as [|a l IH]; intros [|i] E; cbn in *; [done|done| |].
  - injection E as ->. rewrite !(Permutation_app_comm _ (f _)), !app_assoc. f_equiv. apply Permutation_app_comm.
  - rewrite <- !app_assoc. f_equiv. by apply IH.
Qed.

Lemma linked_at_insert s s' i p' j : procs s' = <[i := p']> (procs s) -> (i < length (procs s))%nat ->
  linked_at s' j = if decide (j = i) then linked p' else linked_at s j.
Proof.
  intros E Hlt. unfold linked_at. rewrite E. case_decide as Hd.
  - subst j. by rewrite list_lookup_insert_eq.
  - by rewrite list_lookup_insert_ne.
Qed.

Definition queues_ok (s : Sys) : Prop := NoDup (all_queued s) /\ forall i, i ∈ all_queued s <-> linked_at s i = true.

Section Queues.
Context (s s' : Sys) (i : nat) (Hinv2 : Inv2 s).

Lemma queues_keep : all_queued s' ≡ₚ all_queued s -> (forall j, linked_at s' j = linked_at s j) -> queues_ok s'.
Proof using Hinv2.
  intros E Hl. split; [rewrite E; apply (i2_nodup s Hinv2)|]. intros j. rewrite E, Hl. apply (i2_linked s Hinv2).
Qed.

Lemma queues_add : all_queued s' ≡ₚ i :: all_queued s -> linked_at s i = false ->
  (forall j, linked_at s' j = if decide (j = i) then true else linked_at s j) -> queues_ok s'.
Proof using Hinv2.
  intros E Hi Hl. split.
  - rewrite E. apply NoDup_cons. split; [|apply (i2_nodup s Hinv2)]. rewrite (i2_linked s Hinv2), Hi. done.
  - intros j. rewrite E, Hl, elem_of_cons, (i2_linked s Hinv2). case_decide; naive_solver.
Qed.

Lemma queues_drop : all_queued s ≡ₚ i :: all_queued s' ->
  (forall j, linked_at s' j = if decide (j = i) then false else linked_at s j) -> queues_ok s'.
Proof using Hinv2.
  intros E Hl. pose proof (i2_nodup s Hinv2) as Hn. rewrite E in Hn. apply NoDup_cons in Hn as [Hni Hn].
  split; [done|]. intros j. rewrite Hl. case_decide as Hd; [subst; naive_solver|].
  rewrite <- (i2_linked s Hinv2), E, elem_of_cons. naive_solver.
Qed.
End Queues.

(** At most one process has the list lock. *)
Lemma one_critical s i j p q : Inv1 s -> procs s !! i = Some p -> procs s !! j = Some q -> i <> j ->
  crit_pc (p_pc p) = true -> crit_pc (p_pc q) = true -> False.
Proof.
  intros Hinv Hi Hj Hne Hp Hq. pose proof (sum_two crit (procs s) i j p q Hne Hi Hj) as Hs.
  pose proof (i1_crit s Hinv) as Hc. unfold critical in Hc. unfold crit in Hs. rewrite Hp, Hq in Hs.
  destruct (list_locked s); fold crit in *; lia.
Qed.

(** The places of the others, when the lists change only under the list lock. *)
Lemma place_frame s s' j pc : place_ok s j pc -> length (procs s') = length (procs s) ->
  (j ∈ lw_waiters s' -> j ∈ lw_waiters s) ->
  (crit_pc pc = true ->
     (has_waiters s = true -> has_waiters s' = true) /\ lw_waiters s' = lw_waiters s /\
     (forall wake ok old w, pc = WakeupCas wake ok old -> w ∈ wake -> swept_at s' w = swept_at s w)) ->
  place_ok s' j pc.
Proof.
  intros [H1 H2] Hlen Hin Hc. split; [naive_solver|]. destruct pc; cbn in Hc; try done.
  - by apply Hc.
  - destruct H2 as (A1 & A2 & A3), Hc as (_ & Ew & Hs); [done|].
    assert (forall w, w ∈ wakeup -> swept_at s' w = swept_at s w) as Hs' by eauto. split_and!.
    + by rewrite Ew.
    + intros w Hw. rewrite Hs' by done. by apply A2.
    + intros Hok. destruct (A3 Hok) as (w & Hw & Ec). exists w. by rewrite Hs'.
  - by rewrite Hlen.
Qed.

Lemma become_others s s' i p' hw rok lkd ws j q : become s s' i p' hw rok lkd ws -> (i < length (procs s))%nat ->
  procs s' !! j = Some q -> j = i /\ q = p' \/ j <> i /\ procs s !! j = Some q.
Proof.
  intros [E _ _] Hlt. rewrite E. destruct (decide (j = i)) as [->|Hne].
  - rewrite list_lookup_insert_eq by done. intros [= ->]. by left.
  - rewrite list_lookup_insert_ne by done. by right.
Qed.

Section Keep2.
Context (s s' : Sys) (i : nat) (p p' : Proc) (hw rok lkd : bool) (ws : list nat).
Context (Hinv : Inv1 s) (Hinv2 : Inv2 s) (Hi : procs s !! i = Some p) (Hb : become s s' i p' hw rok lkd ws).

Lemma inv2_become :
  queues_ok s' -> (ws <> [] -> hw = true) -> place_ok s' i (p_pc p') -> ws ⊆ i :: lw_waiters s ->
  (crit_pc (p_pc p) = false ->
     ws = lw_waiters s /\ (has_waiters s = true -> hw = true) /\
     (lwWaiting p = true -> list_locked s = true -> swept_call (p_pc p) <> None ->
      swept_call (p_pc p') = swept_call (p_pc p))) ->
  Inv2 s'.
Proof using Hinv Hinv2 Hi Hb.
  intros [Q1 Q2] Hflag Hpl Hsub Hnc. pose proof (lookup_lt_Some _ _ _ Hi) as Hlt.
  pose proof Hb as [Eprocs Ews (Ehw & _ & _)]. constructor; [done|done|by rewrite Ehw, Ews|].
  intros j q Hq. destruct (become_others _ _ _ _ _ _ _ _ j q Hb Hlt Hq) as [[-> ->]|[Hne Hq0]]; [done|].
  pose proof (i2_place s Hinv2 j q Hq0) as Hold. apply (place_frame s); [done|by rewrite Eprocs, length_insert| |].
  - rewrite Ews. intros Hin%Hsub. by apply elem_of_cons in Hin as [|].
  - intros Hc. destruct (crit_pc (p_pc p)) eqn:Hcp; [by destruct (one_critical s i j p q)|].
    destruct (Hnc eq_refl) as (-> & Hw & Hs). split_and!; [by rewrite Ehw|done|].
    intros wake ok old w Eq Hin. destruct Hold as [_ Hold]. rewrite Eq in Hold. destruct Hold as (_ & A2 & _).
    specialize (A2 w Hin). unfold swept_at in *. rewrite Eprocs. destruct (decide (w = i)) as [->|Hwi].
    + rewrite list_lookup_insert_eq by done. rewrite Hi in *. apply Hs; [| |done].
      * assert (linked_at s i = true) as Hl.
        { apply (i2_linked s Hinv2). eapply wake_list_queued; [exact Hq0|]. unfold wake_list. by rewrite Eq. }
        unfold linked_at in Hl. rewrite Hi in Hl. by apply andb_true_iff in Hl as [? _].
      * by apply (crit_locked s j q Hinv Hq0).
    + by rewrite list_lookup_insert_ne.
Qed.

(** The lists stay as they are. *)
Lemma inv2_plain :
  ws = lw_waiters s -> wake_list p' = wake_list p -> linked p' = linked p ->
  (ws <> [] -> has_waiters s = true -> hw = true) -> place_ok s' i (p_pc p') ->
  (crit_pc (p_pc p) = false ->
     (has_waiters s = true -> hw = true) /\
     (lwWaiting p = true -> list_locked s = true -> swept_call (p_pc p) <> None ->
      swept_call (p_pc p') = swept_call (p_pc p))) ->
  Inv2 s'.
Proof using Hinv Hinv2 Hi Hb.
  intros Ekeep Ewl El Hw Hpl Hc. pose proof (lookup_lt_Some _ _ _ Hi) as Hlt. pose proof Hb as [Eprocs Ews _].
  apply inv2_become; [| |done|rewrite Ekeep; by intros w; right|naive_solver].
  - apply (queues_keep s s' Hinv2).
    + unfold all_queued. rewrite Eprocs, Ews, Ekeep. f_equiv. apply (Permutation_app_inv_r (wake_list p)).
      rewrite bind_insert by done. by rewrite Ewl.
    + intros j. rewrite (linked_at_insert s s' i p') by done. case_decide as Hd; [subst|done].
      rewrite El. unfold linked_at. by rewrite Hi.
  - intros Hne. apply Hw; [done|]. apply (i2_flag s Hinv2). by rewrite <- Ekeep.
Qed.
End Keep2.

(** The place of the process itself. *)
Lemma place_plain s s' i p p' hw rok lkd pc : procs s !! i = Some p -> become s s' i p' hw rok lkd (lw_waiters s) ->
  swept_call (p_pc p') = swept_call (p_pc p) -> (has_waiters s = true -> hw = true) -> place_ok s i pc -> place_ok s' i pc.
Proof.
  intros Hi [E1 E2 (E3 & _ & _)] Hs Hw Hpl. pose proof (lookup_lt_Some _ _ _ Hi) as Hlt.
  apply (place_frame s); [done|by rewrite E1, length_insert|by rewrite E2|]. intros _.
  split_and!; [by rewrite E3|done|]. intros _ _ _ w _ _. unfold swept_at. rewrite E1.
  destruct (decide (w = i)) as [->|Hne]; [by rewrite list_lookup_insert_eq, Hs, Hi|by rewrite list_lookup_insert_ne].
Qed.

Lemma place_trivial s i pc : removed_pc pc = false ->
  match pc with QueuePush _ _ | WakeupCas _ _ _ | WakeupSignal _ _ => False | _ => True end -> place_ok s i pc.
Proof. intros Hr Hp. split; [by rewrite Hr|]. by destruct pc. Qed.

Lemma place_removed s s' i p pc' : Inv2 s -> procs s !! i = Some p -> lw_waiters s' = lw_waiters s -> removed_pc (p_pc p) = true ->
  removed_pc pc' = true -> place_ok s' i pc'.
Proof.
  intros Hinv2 Hi Ew Hr Hr'. split; [|by destruct pc'].
  intros _. rewrite Ew. by apply (i2_place s Hinv2 i p Hi).
Qed.

Section View2.
Context (s s' : Sys) (i : nat) (p : Proc) (Hinv : Inv1 s) (Hinv2 : Inv2 s) (Hi : procs s !! i = Some p).

Let Hlocal : local_ok p := i1_local s Hinv i p Hi.

Lemma keep_reread pc' : reread (lw_state s) (p_pc p) pc' ->
  become s s' i (at_pc p pc') (has_waiters s) (release_ok s) (list_locked s) (lw_waiters s) -> Inv2 s'.
Proof using Hinv Hinv2 Hi.
  intros Hre Hb.
  assert (wake_list (at_pc p pc') = wake_list p /\ found_pc pc' = found_pc (p_pc p) /\ swept_call pc' = swept_call (p_pc p) /\
          (place_ok s i (p_pc p) -> place_ok s i pc')) as (E1 & E2 & E3 & E4).
  { unfold wake_list. cbn. by destruct Hre. }
  eapply (inv2_plain s s' i p); try done.
  - unfold linked. cbn. by rewrite E2.
  - eapply (place_plain s); try done. by apply E4, (i2_place s Hinv2).
Qed.

Lemma keep_attempt pc' : removed_pc pc' = false -> found_pc pc' = false -> wake_list (at_pc p pc') = [] ->
  match pc' with QueuePush _ _ | WakeupCas _ _ _ | WakeupSignal _ _ => False | _ => True end ->
  wake_list p = [] -> found_pc (p_pc p) = false ->
  (lwWaiting p = true -> list_locked s = true -> swept_call (p_pc p) <> None -> swept_call pc' = swept_call (p_pc p)) ->
  forall rok lkd,
  become s s' i (at_pc p pc') (has_waiters s) rok lkd (lw_waiters s) -> Inv2 s'.
Proof using Hinv Hinv2 Hi.
  intros Hr Hf Hw Hpl Hw' Hf' Hs rok lkd Hb. eapply (inv2_plain s s' i p); try done.
  - by rewrite Hw, Hw'.
  - unfold linked. cbn. by rewrite Hf, Hf'.
  - by apply place_trivial.
Qed.

Lemma linked_here : linked_at s i = linked p.
Proof using Hi. unfold linked_at. by rewrite Hi. Qed.

Lemma not_linked : queued_mode (p_pc p) = None -> linked p = false.
Proof using Hlocal. intros E. unfold linked. by rewrite (waiting_pc p Hlocal E). Qed.

(** The wake lists, when that of the process does not change. *)
Lemma wake_lists p' : procs s' = <[i := p']> (procs s) -> wake_list p' = wake_list p ->
  procs s' ≫= wake_list ≡ₚ procs s ≫= wake_list.
Proof using Hi.
  intros -> Ew. apply (Permutation_app_inv_r (wake_list p)). rewrite bind_insert by done. by rewrite Ew.
Qed.

Lemma keep_push c mode : p_pc p = QueuePush c mode ->
  become s s' i (at_pc (set_waiting p true (queue_mode c mode)) (QueueUnlock c mode)) (has_waiters s) (release_ok s) true
    (if decide (queue_mode c mode = LW_WAIT_UNTIL_FREE) then i :: lw_waiters s else lw_waiters s ++ [i]) -> Inv2 s'.
Proof using Hinv Hinv2 Hi Hlocal.
  intros Epc Hb. pose proof (lookup_lt_Some _ _ _ Hi) as Hlt. pose proof (i2_place s Hinv2 i p Hi) as Hpl.
  rewrite Epc in Hpl. destruct Hpl as [_ Hfl].
  assert ((if decide (queue_mode c mode = LW_WAIT_UNTIL_FREE) then i :: lw_waiters s else lw_waiters s ++ [i]) ≡ₚ
          i :: lw_waiters s) as Ep by (case_decide; [done|by rewrite Permutation_app_comm]).
  eapply (inv2_become s s' i p); [done..| | | |intros w; by rewrite Ep|by rewrite Epc].
  - pose proof Hb as [E1 E2 _]. apply (queues_add s s' i Hinv2).
    + unfold all_queued. rewrite E2, Ep, (wake_lists _ E1); [done|]. unfold wake_list. cbn. by rewrite Epc.
    + rewrite linked_here. apply not_linked. by rewrite Epc.
    + intros j. by rewrite (linked_at_insert s s' i _ j E1).
  - done.
  - by apply place_trivial.
Qed.

Lemma keep_remove c mode : p_pc p = DequeueRemove c mode ->
  become s s' i (at_pc p (DequeueFlag c mode (bool_decide (i ∈ lw_waiters s)))) (has_waiters s) (release_ok s) true
    (filter (fun w => w <> i) (lw_waiters s)) -> Inv2 s'.
Proof using Hinv Hinv2 Hi Hlocal.
  intros Epc Hb. pose proof (lookup_lt_Some _ _ _ Hi) as Hlt. pose proof Hb as [E1 E2 _].
  pose proof (i2_nodup s Hinv2) as Hnd. apply NoDup_app in Hnd as (Hnd & _ & _).
  assert (procs s' ≫= wake_list ≡ₚ procs s ≫= wake_list) as Ewl.
  { eapply wake_lists; [exact E1|]. unfold wake_list. cbn. by rewrite Epc. }
  eapply (inv2_become s s' i p); [done..| | | | |by rewrite Epc].
  - destruct (bool_decide_reflect (i ∈ lw_waiters s)) as [Hin|Hin].
    + apply (queues_drop s s' i Hinv2).
      * unfold all_queued. rewrite E2, Ewl, app_comm_cons. f_equiv. apply NoDup_Permutation.
        -- done.
        -- apply NoDup_cons. split; [rewrite list_elem_of_filter; naive_solver|].
           by apply NoDup_filter.
        -- intros w. rewrite elem_of_cons, list_elem_of_filter. destruct (decide (w = i)); naive_solver.
      * intros j. rewrite (linked_at_insert s s' i _ j E1) by done. unfold linked. cbn. by rewrite andb_false_r.
    + apply (queues_keep s s' Hinv2).
      * unfold all_queued. rewrite E2, Ewl. f_equiv. assert (filter (fun w => w <> i) (lw_waiters s) = lw_waiters s) as ->; [|done].
        apply filter_keep. intros w Hw ->. done.
      * intros j. rewrite (linked_at_insert s s' i _ j E1) by done. case_decide as Hd; [subst j|done].
        rewrite linked_here. unfold linked. cbn. by rewrite Epc.
  - intros Hne. apply (i2_flag s Hinv2). intros E. by rewrite E in Hne.
  - split; [|done]. intros _. rewrite E2, list_elem_of_filter. naive_solver.
  - intros w [_ Hw]%list_elem_of_filter. by right.
Qed.

(** Who is in the list while another process has the list lock. *)
Lemma waiter_swept w : crit_pc (p_pc p) = true -> queued_mode (p_pc p) = None -> w ∈ lw_waiters s ->
  w <> i /\ exists q c mode, procs s !! w = Some q /\ swept_call (p_pc q) = Some c /\ c <> CallConditionalAcquire /\
    lwWaitMode q = queue_mode c mode /\ lock_mode mode = true.
Proof using Hinv Hinv2 Hi Hlocal.
  intros Hc Hq Hw. assert (linked_at s w = true) as Hl by (apply (i2_linked s Hinv2), elem_of_app; by left).
  assert (w <> i) as Hne. { intros ->. by rewrite linked_here, not_linked in Hl. }
  split; [done|]. unfold linked_at in Hl. destruct (procs s !! w) as [q|] eqn:Hwq; [|done].
  apply andb_true_iff in Hl as [Hl _]. pose proof (i1_local s Hinv w q Hwq) as Hlq.
  pose proof (lo_waiting q Hlq Hl) as Hm. pose proof (lo_pc q Hlq) as Hpc.
  pose proof (one_critical s i w p q Hinv Hi Hwq (not_eq_sym Hne) Hc) as Hoc. destruct (i2_place s Hinv2 w q Hwq) as [Hrm _].
  destruct (p_pc q) as [| | | | |c mode|c mode old|c mode| |c mode|c mode|c mode found|c mode found|c mode|c mode|c mode| | | | | | | |] eqn:Epq;
    cbn in Hm, Hpc, Hoc, Hrm; try done; try (by destruct Hoc); try (by destruct Hrm).
  all: injection Hm as Hm; apply andb_true_iff in Hpc as [Hm' Hc']; exists q, c, mode; split_and!; try done; [by rewrite Epq|by intros ->].
Qed.

Lemma keep_sweep stay wake ok : p_pc p = WakeupSweep ->
  wakeup_sweep (wait_mode_of s) (lw_waiters s) false true = (stay, wake, ok) ->
  become s s' i (at_pc p (WakeupCas wake ok None)) (has_waiters s) (release_ok s) true stay -> Inv2 s'.
Proof using Hinv Hinv2 Hi Hlocal.
  intros Epc Esw Hb. pose proof (lookup_lt_Some _ _ _ Hi) as Hlt. pose proof Hb as [E1 E2 _].
  pose proof (sweep_perm _ _ _ _ _ _ _ Esw) as Eperm.
  assert (forall w, w ∈ wake -> w ∈ lw_waiters s) as Hsub by (intros w Hw; rewrite <- Eperm; apply elem_of_app; by right).
  assert (forall w q, w <> i -> procs s !! w = Some q -> swept_at s' w = swept_call (p_pc q)) as Hsw.
  { intros w q Hne Hwq. unfold swept_at. by rewrite E1, list_lookup_insert_ne, Hwq. }
  eapply (inv2_become s s' i p); [done..| | | | |by rewrite Epc].
  - apply (queues_keep s s' Hinv2).
    + unfold all_queued. rewrite E2, E1, <- Eperm, <- app_assoc. f_equiv.
      pose proof (bind_insert wake_list (procs s) i p (at_pc p (WakeupCas wake ok None)) Hi) as Ebi.
      unfold wake_list in Ebi at 2. rewrite Epc, app_nil_r in Ebi. rewrite Ebi. apply Permutation_app_comm.
    + intros j. rewrite (linked_at_insert s s' i _ j E1) by done. case_decide as Hd; [subst j|done].
      rewrite linked_here. unfold linked. cbn. by rewrite Epc.
  - intros Hne. apply (i2_flag s Hinv2). intros E. rewrite E in Eperm. symmetry in Eperm.
    apply Permutation_nil in Eperm. by destruct stay.
  - split; [done|]. cbn. rewrite E2. split_and!.
    + intros Ew. pose proof (sweep_first _ _ _ _ _ _ Esw Ew) as E. rewrite E in Eperm. symmetry in Eperm.
      apply Permutation_nil, app_nil in Eperm. by destruct Eperm.
    + intros w Hw. destruct (waiter_swept w) as (Hne & q & c & mode & Hwq & Ec & _); [by rewrite Epc|by rewrite Epc|by apply Hsub|].
      rewrite (Hsw w q) by done. by rewrite Ec.
    + intros Hok. destruct (sweep_ok _ _ _ _ _ _ _ Esw Hok) as [|(w & Hw & Hm)]; [done|]. exists w. split; [done|].
      destruct (waiter_swept w) as (Hne & q & c & mode & Hwq & Ec & Hc & Em & _); [by rewrite Epc|by rewrite Epc|by apply Hsub|].
      rewrite (Hsw w q), Ec by done. unfold wait_mode_of in Hm. rewrite Hwq, Em in Hm. by destruct c.
  - intros w Hw. right. rewrite <- Eperm. apply elem_of_app. by left.
Qed.

(** One more process changes, and a waiter goes from a wake list to none; or no
    list changes. *)
Lemma keep_two w q q' pc' : procs s !! w = Some q -> w <> i -> p_pc q' = p_pc q ->
  crit_pc (p_pc p) = false -> swept_call (p_pc p) = None -> swept_call pc' = None ->
  lw_state s' = lw_state s -> lw_waiters s' = lw_waiters s ->
  procs s' = <[i := at_pc p pc']> (<[w := q']> (procs s)) ->
  queues_ok s' -> place_ok s' i pc' -> Inv2 s'.
Proof using Hinv Hinv2 Hi.
  intros Hq Hne Epq Hc Hs Hs' Est Ews Eprocs [Q1 Q2] Hpl. pose proof (lookup_lt_Some _ _ _ Hi) as Hlt.
  pose proof (lookup_lt_Some _ _ _ Hq) as Hlw.
  assert (has_waiters s' = has_waiters s) as Ehw by (unfold has_waiters; by rewrite Est).
  assert (forall v, swept_at s' v = swept_at s v) as Hsw.
  { intros v. unfold swept_at. rewrite Eprocs. destruct (decide (v = i)) as [->|].
    - rewrite list_lookup_insert_eq, Hi by (by rewrite length_insert). cbn. by rewrite Hs, Hs'.
    - rewrite list_lookup_insert_ne by done. destruct (decide (v = w)) as [->|]; [|by rewrite list_lookup_insert_ne].
      by rewrite list_lookup_insert_eq, Hq, Epq. }
  constructor; [done|done|rewrite Ehw, Ews; apply (i2_flag s Hinv2)|].
  intros j r. rewrite Eprocs. destruct (decide (j = i)) as [->|Hji].
  - rewrite list_lookup_insert_eq by (by rewrite length_insert). by intros [= <-].
  - rewrite list_lookup_insert_ne by done. intros Hr.
    assert (exists r', procs s !! j = Some r' /\ p_pc r = p_pc r') as (r' & Hr' & ->).
    { destruct (decide (j = w)) as [->|]; [|rewrite list_lookup_insert_ne in Hr by done; eauto].
      rewrite list_lookup_insert_eq in Hr by done. injection Hr as <-. eauto. }
    apply (place_frame s); [by apply (i2_place s Hinv2)|by rewrite Eprocs, !length_insert|by rewrite Ews|].
    intros _. by rewrite Ehw, Ews.
Qed.

Lemma linked_two w q q' pc' j : procs s !! w = Some q -> w <> i ->
  procs s' = <[i := at_pc p pc']> (<[w := q']> (procs s)) -> found_pc pc' = found_pc (p_pc p) ->
  linked_at s' j = if decide (j = w) then linked q' else linked_at s j.
Proof using Hi.
  intros Hq Hne E Hf. pose proof (lookup_lt_Some _ _ _ Hi) as Hlt. pose proof (lookup_lt_Some _ _ _ Hq) as Hlw.
  unfold linked_at. rewrite E. destruct (decide (j = i)) as [->|].
  - rewrite list_lookup_insert_eq, decide_False, Hi by (done || by rewrite length_insert). unfold linked. cbn. by rewrite Hf.
  - rewrite list_lookup_insert_ne by done. case_decide as Hd; [subst j; by rewrite list_lookup_insert_eq|].
    by rewrite list_lookup_insert_ne.
Qed.

Lemma wake_two w q q' pc' : procs s !! w = Some q -> w <> i -> wake_list q' = wake_list q ->
  procs s' = <[i := at_pc p pc']> (<[w := q']> (procs s)) ->
  (procs s' ≫= wake_list) ++ wake_list p ≡ₚ (procs s ≫= wake_list) ++ wake_list (at_pc p pc').
Proof using Hi.
  intros Hq Hne Ew ->. rewrite (bind_insert _ _ i p) by (by rewrite list_lookup_insert_ne). f_equiv.
  apply (Permutation_app_inv_r (wake_list q)). rewrite bind_insert by done. by rewrite Ew.
Qed.

Lemma keep_wake w wake q : p_pc p = WakeupLoop (w :: wake) -> procs s !! w = Some q -> w <> i ->
  lw_state s' = lw_state s -> lw_waiters s' = lw_waiters s ->
  procs s' = <[i := at_pc p (WakeupSignal w wake)]> (<[w := set_waiting q false (lwWaitMode q)]> (procs s)) -> Inv2 s'.
Proof using Hinv Hinv2 Hi.
  intros Epc Hq Hne Est Ews Eprocs. pose proof (lookup_lt_Some _ _ _ Hq) as Hlw.
  apply (keep_two w q (set_waiting q false (lwWaitMode q)) (WakeupSignal w wake)); try done; [by rewrite Epc|by rewrite Epc| |].
  - apply (queues_drop s s' w Hinv2).
    + unfold all_queued. rewrite Ews, Permutation_middle. f_equiv.
      pose proof (wake_two w q (set_waiting q false (lwWaitMode q)) (WakeupSignal w wake) Hq Hne eq_refl Eprocs) as E.
      unfold wake_list at 2 4 in E. cbn [p_pc at_pc] in E. rewrite Epc in E.
      apply (Permutation_app_inv_r wake). rewrite <- E. symmetry. apply Permutation_middle.
    + intros j. rewrite (linked_two w q _ _ j Hq Hne Eprocs) by (by rewrite Epc). done.
  - split; [done|]. split; [done|]. by rewrite Eprocs, !length_insert.
Qed.

Lemma keep_signal w wake q : p_pc p = WakeupSignal w wake -> procs s !! w = Some q -> w <> i ->
  lw_state s' = lw_state s -> lw_waiters s' = lw_waiters s ->
  procs s' = <[i := at_pc p (WakeupLoop wake)]> (<[w := set_sem q (sem q + 1) (extraWaits q)]> (procs s)) -> Inv2 s'.
Proof using Hinv Hinv2 Hi.
  intros Epc Hq Hne Est Ews Eprocs. 
  apply (keep_two w q (set_sem q (sem q + 1) (extraWaits q)) (WakeupLoop wake)); try done;
    [by rewrite Epc|by rewrite Epc|].
  apply (queues_keep s s' Hinv2).
  - unfold all_queued. rewrite Ews. f_equiv. pose proof (wake_two w q (set_sem q (sem q + 1) (extraWaits q)) (WakeupLoop wake) Hq Hne eq_refl Eprocs) as E.
    unfold wake_list at 2 4 in E. cbn [p_pc at_pc] in E. rewrite Epc in E. by apply (Permutation_app_inv_r wake).
  - intros j. rewrite (linked_two w q _ _ j Hq Hne Eprocs) by (by rewrite Epc). case_decide as Hd; [subst j|done].
    unfold linked_at. by rewrite Hq.
Qed.

Lemma inv2_move : move s s' i p -> Inv2 s'.
Proof using Hinv Hinv2 Hi Hlocal.
  pose proof (i2_place s Hinv2 i p Hi) as Hpl. pose proof not_linked as Hnl. pose proof (waiting_pc p Hlocal) as Hnw.
  intros [[pc' Hre _ Hb|c mode old got Epc _ Hb|c mode old got Epc _ Hb|pc' Hpc El Hb|c mode Epc Hb|c mode Epc Hb|pc' Hpc Hb
    |pc' Hpc Hsem Hb|p' Hpc Hb|c mode Epc Hb|c mode found Epc Hb|c mode Epc Hb|c mode got Epc Hb|mode check Epc _ Hb
    |stay wake ok Epc Esw Hb|wake ok old Epc Hb|Epc Hb|w wake q Epc Hq Hne Est Ews Eprocs|w wake q Epc Hq Hne Est Ews Eprocs]
    |p' Epc Hpc' Ewt _ Hb|Hb].
  - by eapply keep_reread.
  - eapply keep_attempt; [..|exact Hb]; unfold wake_list; cbn [p_pc at_pc]; rewrite ?Epc; by destruct got, c.
  - eapply keep_attempt; [..|exact Hb]; unfold wake_list; cbn [p_pc at_pc]; rewrite ?Epc; by destruct got.
  - destruct (p_pc p) eqn:Epc; try done; try (apply proj1 in Hpc); subst pc';
      (eapply keep_attempt; [..|exact Hb]; unfold wake_list; cbn [p_pc at_pc]; rewrite ?Epc, ?El; done).
  - eapply (inv2_plain s s' i p); [done|done|done|exact Hb|..]; unfold wake_list, linked; cbn [p_pc at_pc lwWaiting]; rewrite ?Epc; try done.
    split; [done|]. apply (b_flags _ _ _ _ _ _ _ _ Hb).
  - by eapply keep_push.
  - destruct (p_pc p) eqn:Epc; try done; subst pc'.
    + eapply keep_attempt; [..|exact Hb]; unfold wake_list; cbn [p_pc at_pc]; rewrite ?Epc; done.
    + eapply (inv2_plain s s' i p); [done|done|done|exact Hb|..]; unfold wake_list, linked; cbn [p_pc at_pc lwWaiting];
        rewrite ?Epc; try (by destruct found).
      eapply place_removed; [exact Hinv2|exact Hi|apply (b_waiters _ _ _ _ _ _ _ _ Hb)|by rewrite Epc|by destruct found].
  - destruct (lwWaiting p) eqn:Ew.
    + eapply (inv2_plain s s' i p); [done|done|done|exact Hb|..]; try done. by eapply (place_plain s); [exact Hi|exact Hb|..].
    + eapply (inv2_plain s s' i p); [done|done|done|exact Hb|..]; unfold wake_list, linked; cbn [p_pc at_pc lwWaiting set_sem];
        rewrite ?Ew; try done; destruct (p_pc p) as [| | | | | | |c| | | | | | | | | | | | | | | |]; try done; subst pc';
        first [done|by destruct c|by apply place_trivial; destruct c].
  - eapply (inv2_plain s s' i p); [done|done|done|exact Hb|..]; unfold wake_list, linked;
      destruct (p_pc p) eqn:Epc; try done; subst p'; cbn [p_pc at_pc lwWaiting set_result]; try done.
    eapply place_removed; [exact Hinv2|exact Hi|apply (b_waiters _ _ _ _ _ _ _ _ Hb)|by rewrite Epc|done].
  - by eapply keep_remove.
  - eapply (inv2_plain s s' i p); [done|done|done|exact Hb|..]; unfold wake_list, linked; cbn [p_pc at_pc lwWaiting];
      rewrite ?Epc; try done.
    + intros Hne ->. by rewrite bool_decide_false.
    + eapply place_removed; [exact Hinv2|exact Hi|apply (b_waiters _ _ _ _ _ _ _ _ Hb)|by rewrite Epc|done].
  - eapply (inv2_plain s s' i p); [done|done|done|exact Hb|..]; unfold wake_list, linked; cbn [p_pc at_pc lwWaiting set_waiting];
      rewrite ?Epc; try done. by rewrite andb_false_r.
  - eapply (inv2_plain s s' i p); [done|done|done|exact Hb|..]; unfold wake_list, linked; destruct got;
      cbn [p_pc at_pc lwWaiting set_held set_result set_sem]; rewrite ?Epc, ?Hnw; try done; by rewrite Epc.
  - eapply keep_attempt; [..|exact Hb]; unfold wake_list; cbn [p_pc at_pc]; rewrite ?Epc; by destruct check.
  - by eapply keep_sweep.
  - eapply (inv2_plain s s' i p); [done|done|done|exact Hb|..]; unfold wake_list, linked; cbn [p_pc at_pc lwWaiting];
      rewrite ?Epc; try done.
    intros Hne ->. rewrite Epc in Hpl. destruct Hpl as (_ & Hw & _). destruct wake; [|done]. by destruct Hne; apply Hw.
  - eapply keep_attempt; [..|exact Hb]; unfold wake_list; cbn [p_pc at_pc]; rewrite ?Epc; done.
  - by eapply keep_wake.
  - by eapply keep_signal.
  - eapply (inv2_plain s s' i p); [done|done|done|exact Hb|..]; unfold wake_list, linked;
      rewrite ?Epc, ?Ewt; destruct (p_pc p'); try done; by rewrite Hnw by (by rewrite Epc).
  - eapply (inv2_plain s s' i p); [done|done|done|exact Hb|..]; try done. by eapply (place_plain s); [exact Hi|exact Hb|..].
Qed.
End View2.
