(* ===== verification/LWLockWakeup.v ===== *)
(** Light-weight locks: no wakeup is lost.  The third layer of the invariant
    says who will allow wakeups again, who will look at a free lock that others
    wait for, and who will raise the semaphore of a process that is not
    waiting any more. *)
From stdpp Require Import list relations.
From S2P Require Import Prelude LWLock LWLockProofs LWLockSteps.

(** The process will set the flag that allows wakeups. *)
Definition owes (s : Sys) (i : nat) (pc : PC) : Prop :=
  match pc with
  | Attempt2 CallAcquire _ _ | Sleep CallAcquire _ | DequeueLock _ _ | DequeueRemove _ _ => i ∉ lw_waiters s
  | DequeueFlag _ _ false | DequeueUnlock _ _ false | DequeueReleaseOk _ _ | SetReleaseOk _ => True
  | _ => False
  end.

(** The process will try to take the lock, or wake others. *)
Definition helps (s : Sys) (i : nat) (pc : PC) : Prop :=
  match pc with
  | Attempt1 _ _ _ | Attempt2 _ _ _ | SetReleaseOk _ | QueueUnlock _ _ | WakeupLock | WakeupSweep => True
  | Sleep CallAcquire _ => i ∉ lw_waiters s
  | _ => False
  end.

Record Inv3 (s : Sys) : Prop := {
  i3_release : release_ok s = false -> exists i p, procs s !! i = Some p /\ owes s i (p_pc p);
  i3_free : is_free s -> lw_waiters s <> [] -> exists i p, procs s !! i = Some p /\ helps s i (p_pc p);
  i3_token : forall i p, procs s !! i = Some p -> lwWaiting p = false -> queued_mode (p_pc p) <> None ->
    0 < sem p \/ exists j q wake, procs s !! j = Some q /\ p_pc q = WakeupSignal i wake
}.

(** ** What a step leaves to the others *)

(** The cases of a step, with what the process becomes. *)
Ltac step_cases Hv :=
  destruct Hv as [pc' Hre Hst Hb|c mode old got Epc Hgot Hb|c mode old got Epc Hgot Hb|pc' Hpc El Hb|c mode Epc Hb|c mode Epc Hb
    |pc' Hpc Hb|pc' Hpc Hsem Hb|p2 Hpc Hb|c mode Epc Hb|c mode found Epc Hb|c mode Epc Hb|c mode got Epc Hb
    |mode check Epc Hcheck Hb|stay wake ok Epc Esw Hb|wake ok old Epc Hb|Epc Hb|w wake q Epc Hwq Hne Est Ews Eprocs
    |w wake q Epc Hwq Hne Est Ews Eprocs].
Ltac view_cases Hv :=
  let Hstep := fresh in destruct Hv as [Hstep|p2 Epc Hpc Ewt Hho Hb|Hb]; [step_cases Hstep|..].
Ltac self_cases s s' i p Hv Hi Hp' :=
  pose proof (lookup_lt_Some _ _ _ Hi) as Hlt; view_cases Hv;
    try match goal with Hb : become _ _ _ _ _ _ _ _ |- _ => pose proof (b_procs _ _ _ _ _ _ _ _ Hb) as Eprocs end;
    match goal with E : procs s' = _ |- _ => rewrite E, list_lookup_insert_eq in Hp' by (by rewrite ?length_insert) end;
    injection Hp' as <-.

Lemma sum_zero {A} (f : A -> nat) l : sum_list_with f l = 0%nat <-> forall i x, l !! i = Some x -> f x = 0%nat.
Proof.
  split.
  - intros E i x Hx. pose proof (sum_member f l i x Hx). lia.
  - intros Hz. induction l as [|a l IH]; [done|]. cbn. rewrite (Hz 0%nat a) by done. apply IH.
    intros i x Hx. by apply (Hz (S i)).
Qed.

Lemma free_iff s : Inv1 s -> is_free s <-> forall i p, procs s !! i = Some p -> holds p = None.
Proof.
  intros Hinv. unfold is_free, exclusive, shared. rewrite !sum_zero. split.
  - intros [He Hs] i p Hi. specialize (He i p Hi). specialize (Hs i p Hi). unfold excl, share in *.
    destruct (holds p) as [[| |]|] eqn:Eh; try done.
    pose proof (i1_local s Hinv i p Hi) as [Hpc _ _ Hm _ _ _]. unfold holds in Eh.
    destruct (p_pc p); cbn in Hpc; try done; try (injection Eh as ->; done).
    + unfold held_this in Eh. pose proof (held_remove_spec (held_lwlocks p) this_lock) as Hr.
      destruct (held_remove _ _) as [[mode h']| |]; try done. injection Eh as ->. destruct Hr as (l1 & l2 & El & _).
      specialize (Hm {| h_lock := this_lock; h_mode := LW_WAIT_UNTIL_FREE |}). rewrite El in Hm.
      by specialize (Hm ltac:(apply elem_of_app; right; left) eq_refl).
    + destruct got; [|done]. by injection Eh as ->.
  - intros Hn. unfold excl, share. split; intros i p Hi; by rewrite (Hn i p Hi).
Qed.

Section View3.
Context (s s' : Sys) (i : nat) (p : Proc).
Context (Hinv : Inv1 s) (Hinv2 : Inv2 s) (Hinv3 : Inv3 s) (Hi : procs s !! i = Some p).
Context (Hinv' : Inv1 s') (Hinv2' : Inv2 s') (Hv : move s s' i p).

Let Hlocal : local_ok p := i1_local s Hinv i p Hi.

(** The others stand where they stood, except that one may be woken or signalled. *)
Record kept (k : nat) (r r' : Proc) : Prop := {
  k_pc : p_pc r' = p_pc r;
  k_holds : holds r' = holds r;
  k_waiting : lwWaiting r' = lwWaiting r \/ exists q wake, procs s' !! i = Some q /\ p_pc q = WakeupSignal k wake;
  k_sem : sem r <= sem r';
  k_signal : forall wake, p_pc p = WakeupSignal k wake ->
    sem r < sem r' \/ exists q, procs s' !! i = Some q /\ p_pc q = WakeupSignal k wake
}.

Lemma others k r : k <> i -> procs s !! k = Some r -> exists r', procs s' !! k = Some r' /\ kept k r r'.
Proof using Hi Hv.
  intros Hki Hr. pose proof (lookup_lt_Some _ _ _ Hi) as Hlt. pose proof (lookup_lt_Some _ _ _ Hr) as Hlr.
  assert (forall p' hw rok lkd ws, become s s' i p' hw rok lkd ws ->
    (forall wake, p_pc p = WakeupSignal k wake -> p_pc p' = WakeupSignal k wake) ->
    exists r', procs s' !! k = Some r' /\ kept k r r') as Hone.
  { intros p' hw rok lkd ws [E _ _] Hns. exists r. rewrite E, list_lookup_insert_ne by done. split; [done|].
    constructor; [done|done|by left|done|]. intros wake Ew. right. exists p'.
    rewrite E, list_lookup_insert_eq by done. auto. }
  pose proof Hv as Hv1. view_cases Hv1;
    try (eapply Hone; [eassumption|]; intros wk Ewk; exfalso; repeat case_match; congruence).
  - eapply Hone; [exact Hb|]. intros wk Ewk. rewrite Ewk in Hre. by inversion Hre.
  - destruct (decide (k = w)) as [->|Hkw].
    + exists (set_waiting q false (lwWaitMode q)).
      rewrite Eprocs, list_lookup_insert_ne, list_lookup_insert_eq by done. split; [done|].
      rewrite Hwq in Hr. injection Hr as <-. constructor; try done; [|congruence].
      right. eexists _, wake. by rewrite Eprocs, list_lookup_insert_eq by (by rewrite length_insert).
    + exists r. rewrite Eprocs, !list_lookup_insert_ne by done. split; [done|]. constructor; try done; [by left|congruence].
  - destruct (decide (k = w)) as [->|Hkw].
    + exists (set_sem q (sem q + 1) (extraWaits q)).
      rewrite Eprocs, list_lookup_insert_ne, list_lookup_insert_eq by done. split; [done|].
      rewrite Hwq in Hr. injection Hr as <-. constructor; try done; [by left|cbn; lia|]. left. cbn. lia.
    + exists r. rewrite Eprocs, !list_lookup_insert_ne by done. split; [done|]. constructor; try done; [by left|congruence].
  - by eapply Hone.
Qed.

Lemma same_length : length (procs s') = length (procs s).
Proof using Hv.
  view_cases Hv; try (rewrite (b_procs _ _ _ _ _ _ _ _ Hb)); try (rewrite Eprocs); by rewrite !length_insert.
Qed.

Lemma self_there : exists p', procs s' !! i = Some p'.
Proof using Hi Hv. apply lookup_lt_is_Some_2. rewrite same_length. by eapply lookup_lt_Some. Qed.

Lemma waiters_sub : lw_waiters s' ⊆ i :: lw_waiters s.
Proof using Hv.
  view_cases Hv; try (rewrite (b_waiters _ _ _ _ _ _ _ _ Hb)); try (rewrite Ews); try (intros w'; by right).
  - intros w'. case_decide; [done|]. rewrite elem_of_app, list_elem_of_singleton, elem_of_cons. naive_solver.
  - intros w' [_ Hw]%list_elem_of_filter. by right.
  - intros w' Hw. right. rewrite <- (sweep_perm _ _ _ _ _ _ _ Esw). apply elem_of_app. by left.
Qed.

Lemma owes_kept k r r' : k <> i -> kept k r r' -> owes s k (p_pc r) -> owes s' k (p_pc r').
Proof using Hv.
  intros Hne Hk Ho. rewrite (k_pc _ _ _ Hk). pose proof (waiters_sub k) as Hs. rewrite elem_of_cons in Hs.
  destruct (p_pc r); try done; try (destruct c; try done); cbn in *; tauto.
Qed.

Lemma helps_kept k r r' : k <> i -> kept k r r' -> helps s k (p_pc r) -> helps s' k (p_pc r').
Proof using Hv.
  intros Hne Hk Ho. rewrite (k_pc _ _ _ Hk). pose proof (waiters_sub k) as Hs. rewrite elem_of_cons in Hs.
  destruct (p_pc r); try done. destruct c; try done; cbn in *; tauto.
Qed.

Lemma before k r' : k <> i -> procs s' !! k = Some r' -> exists r, procs s !! k = Some r /\ kept k r r'.
Proof using Hi Hv.
  intros Hne Hr'. destruct (procs s !! k) as [r|] eqn:Hr.
  - destruct (others k r Hne Hr) as (r2 & Hr2 & Hk). rewrite Hr' in Hr2. injection Hr2 as ->. eauto.
  - exfalso. apply lookup_ge_None in Hr. apply lookup_lt_Some in Hr'. rewrite same_length in Hr'. lia.
Qed.

(** ** The semaphores *)

Lemma self_token p' : procs s' !! i = Some p' -> lwWaiting p' = false -> queued_mode (p_pc p') <> None ->
  lwWaiting p = false /\ queued_mode (p_pc p) <> None /\ sem p <= sem p'.
Proof using Hi Hv.
  intros Hp' Hw Hq. self_cases s s' i p Hv Hi Hp'; cbn in Hw, Hq |- *; try done; try (by rewrite Epc).
  - by destruct Hre.
  - by destruct got, c.
  - destruct (p_pc p); try done; try (apply proj1 in Hpc); subst pc'; done.
  - destruct (p_pc p); try done; subst pc'; done.
  - destruct (lwWaiting p) eqn:Ew; [by cbn in Hw; congruence|]. destruct (p_pc p); try done; subst pc'; by destruct c.
  - destruct (p_pc p); try done; subst p2; done.
  - by destruct check.
  - by destruct (p_pc p2).
  - split_and!; [done|done|lia].
Qed.

Lemma tokens_kept k r' : procs s' !! k = Some r' -> lwWaiting r' = false -> queued_mode (p_pc r') <> None ->
  0 < sem r' \/ exists j q wake, procs s' !! j = Some q /\ p_pc q = WakeupSignal k wake.
Proof using Hinv Hinv3 Hi Hv.
  intros Hr' Hw Hq. pose proof (i3_token s Hinv3) as Ht.
  destruct (decide (k = i)) as [->|Hne].
  - destruct (self_token r' Hr' Hw Hq) as (Hw0 & Hq0 & Hs). destruct (Ht i p Hi Hw0 Hq0) as [|(j & q & wake & Hj & Eq)]; [left; lia|].
    assert (j <> i) as Hji. { intros ->. rewrite Hi in Hj. injection Hj as <-. by rewrite Eq in Hq0. }
    destruct (others j q Hji Hj) as (q' & Hq' & Hk). right. exists j, q', wake. by rewrite (k_pc _ _ _ Hk).
  - destruct (before k r' Hne Hr') as (r & Hr & Hk).
    destruct (k_waiting _ _ _ Hk) as [Ew|(q & wake & Hq' & Eq)]; [|right; by exists i, q, wake].
    rewrite Ew in Hw. rewrite (k_pc _ _ _ Hk) in Hq. pose proof (k_sem _ _ _ Hk).
    destruct (Ht k r Hr Hw Hq) as [|(j & q & wake & Hj & Eq)]; [left; lia|].
    destruct (decide (j = i)) as [->|Hji].
    + rewrite Hi in Hj. injection Hj as <-. destruct (k_signal _ _ _ Hk wake Eq) as [|(q & Hq' & Eq')]; [|right; by exists i, q, wake].
      left. pose proof (lo_sem r (i1_local s Hinv k r Hr)). lia.
    + destruct (others j q Hji Hj) as (q' & Hq' & Hk'). right. exists j, q', wake. by rewrite (k_pc _ _ _ Hk').
Qed.

(** ** Allowing wakeups *)

Lemma self_owes p' : procs s' !! i = Some p' -> owes s i (p_pc p) -> owes s' i (p_pc p') \/ release_ok s' = true.
Proof using Hi Hv.
  intros Hp' Ho. self_cases s s' i p Hv Hi Hp'; try (destruct (b_flags _ _ _ _ _ _ _ _ Hb) as (_ & Er & _));
    try (pose proof (b_waiters _ _ _ _ _ _ _ _ Hb) as Ews); try rewrite Epc in Ho; try done.
  - left. destruct Hre; try done. destruct c; cbn in *; [by rewrite Ews|done|done].
  - left. destruct c; try done. destruct got; cbn in *; by rewrite Ews.
  - left. destruct (p_pc p); try done. subst pc'. cbn in *. by rewrite Ews.
  - left. destruct (p_pc p); try done; subst pc'. by destruct found.
  - left. destruct (p_pc p) eqn:Epc; try done. destruct c; try done. subst pc'. destruct (lwWaiting p); cbn; [|done].
    rewrite Epc. cbn in *. by rewrite Ews.
  - by right.
  - left. cbn in *. by rewrite bool_decide_false.
  - left. by destruct found.
  - left. cbn [p_pc set_sem]. destruct (p_pc p); try done; try (destruct c; try done); cbn in *; by rewrite Ews.
Qed.

Lemma wake_not_waiter w : w ∈ wake_list p -> w ∉ lw_waiters s.
Proof using Hinv2 Hi.
  intros Hw Hin. pose proof (i2_nodup s Hinv2) as Hn. apply NoDup_app in Hn as (_ & Hd & _). apply (Hd w Hin).
  apply list_elem_of_bind. exists p. split; [done|]. by eapply list_elem_of_lookup_2.
Qed.

Lemma release_cleared : release_ok s = true -> release_ok s' = false ->
  exists w r, procs s' !! w = Some r /\ owes s' w (p_pc r).
Proof using Hinv2 Hi Hv.
  intros Hok Hno.
  assert (exists wake old, p_pc p = WakeupCas wake false old /\ lw_waiters s' = lw_waiters s) as (wake & old & Epc & Ews).
  { pose proof Hv as Hv1. view_cases Hv1; try (destruct (b_flags _ _ _ _ _ _ _ _ Hb) as (_ & Er & _)); try congruence.
    - rewrite Er in Hno. rewrite Hno in Epc. exists wake, old. split; [done|]. apply (b_waiters _ _ _ _ _ _ _ _ Hb).
    - unfold release_ok in *. rewrite Est in Hno. congruence.
    - unfold release_ok in *. rewrite Est in Hno. congruence. }
  pose proof (i2_place s Hinv2 i p Hi) as Hpl. rewrite Epc in Hpl. destruct Hpl as (_ & _ & _ & Hex).
  destruct (Hex eq_refl) as (w & Hw & Esw).
  assert (w ∉ lw_waiters s') as Hnw. { rewrite Ews. apply wake_not_waiter. unfold wake_list. by rewrite Epc. }
  unfold swept_at in Esw. destruct (procs s !! w) as [r|] eqn:Hr; [|done].
  assert (w <> i) as Hwi. { intros ->. rewrite Hi in Hr. injection Hr as <-. by rewrite Epc in Esw. }
  destruct (others w r Hwi Hr) as (r' & Hr' & Hk). exists w, r'. split; [done|]. rewrite (k_pc _ _ _ Hk).
  destruct (p_pc r); try done; by injection Esw as ->.
Qed.

Lemma release_kept : release_ok s' = false -> exists k r, procs s' !! k = Some r /\ owes s' k (p_pc r).
Proof using Hinv2 Hinv3 Hi Hv.
  intros Hno. destruct (release_ok s) eqn:Hok; [by apply release_cleared|].
  destruct (i3_release s Hinv3 Hok) as (k & r & Hr & Ho). destruct (decide (k = i)) as [->|Hne].
  - rewrite Hi in Hr. injection Hr as <-. destruct (self_there) as [p' Hp'].
    destruct (self_owes p' Hp' Ho) as [|]; [eauto|congruence].
  - destruct (others k r Hne Hr) as (r' & Hr' & Hk). exists k, r'. split; [done|]. by eapply owes_kept.
Qed.

(** ** A free lock *)

Lemma self_holds p' : procs s' !! i = Some p' -> holds p' = None -> holds p = None \/ exists mode, p_pc p = ReleaseSub mode.
Proof using Hi Hv.
  intros Hp' Hh. self_cases s s' i p Hv Hi Hp'; try rewrite Epc; try (right; by exists mode); left; unfold holds in *; cbn in Hh;
    try rewrite Epc; try done.
  - by destruct Hre.
  - destruct (p_pc p); try done; subst pc'; done.
  - destruct (p_pc p); try done; subst pc'; by destruct found.
  - destruct (p_pc p) eqn:Epc; try done; subst pc'. destruct (lwWaiting p); cbn in Hh; by rewrite ?Epc in Hh.
  - destruct (p_pc p); try done; subst p2; done.
  - destruct got; [|done]. change (held_this (held_add (held_lwlocks p) this_lock mode) = None) in Hh.
    unfold held_this in Hh. by rewrite held_remove_add in Hh.
  - rewrite Epc in Hho. by rewrite <- Hho.
Qed.

Lemma free_before : is_free s' -> (forall mode, p_pc p <> ReleaseSub mode) -> is_free s.
Proof using Hinv Hi Hinv' Hv.
  intros Hf Hnr. rewrite free_iff in Hf by done. apply free_iff; [done|]. intros k r Hr.
  destruct (decide (k = i)) as [->|Hne].
  - rewrite Hi in Hr. injection Hr as <-. destruct self_there as [p' Hp'].
    destruct (self_holds p' Hp') as [|[mode E]]; [by eapply Hf|done|by destruct (Hnr mode)].
  - destruct (others k r Hne Hr) as (r' & Hr' & Hk). rewrite <- (k_holds _ _ _ Hk). by eapply Hf.
Qed.

(** Who owes the flag while the lock is free will look at the lock. *)
Lemma owes_helps t k r : Inv1 t -> is_free t -> procs t !! k = Some r -> owes t k (p_pc r) -> helps t k (p_pc r).
Proof.
  intros Ht Hf Hr Ho. rewrite free_iff in Hf by done. specialize (Hf k r Hr). unfold holds in Hf. by destruct (p_pc r).
Qed.

(** Once the list was searched, somebody who was taken off it tries. *)
Lemma swept_helps wake old p' : is_free s' -> procs s' !! i = Some p' -> p_pc p' = WakeupCas wake false old ->
  exists k r, procs s' !! k = Some r /\ helps s' k (p_pc r).
Proof using Hinv' Hinv2'.
  intros Hf Hp' Epc. pose proof (i2_place s' Hinv2' i p' Hp') as Hpl. rewrite Epc in Hpl. destruct Hpl as (_ & _ & _ & Hex).
  destruct (Hex eq_refl) as (w & Hw & Esw). unfold swept_at in Esw. destruct (procs s' !! w) as [r|] eqn:Hr; [|done].
  exists w, r. split; [done|]. rewrite free_iff in Hf by done. specialize (Hf w r Hr). unfold holds in Hf.
  assert (w ∉ lw_waiters s') as Hnw.
  { intros Hin. pose proof (i2_nodup s' Hinv2') as Hn. apply NoDup_app in Hn as (_ & Hd & _). apply (Hd w Hin).
    apply list_elem_of_bind. exists p'. split; [unfold wake_list; by rewrite Epc|]. by eapply list_elem_of_lookup_2. }
  destruct (p_pc r); try done. by injection Esw as ->.
Qed.

Lemma self_helps p' : is_free s -> is_free s' -> lw_waiters s' <> [] -> helps s i (p_pc p) -> procs s' !! i = Some p' ->
  exists k r, procs s' !! k = Some r /\ helps s' k (p_pc r).
Proof using Hinv Hi Hinv' Hinv2' Hv.
  intros Hf Hf' Hws Hh Hp'.
  assert (holds p' = None) as Hnh by (rewrite free_iff in Hf' by done; by eapply Hf').
  assert (forall wake ok old, p_pc p' = WakeupCas wake ok old -> ok = false -> exists k r, procs s' !! k = Some r /\ helps s' k (p_pc r))
    as Hcas by (intros wake ok old E ->; by eapply swept_helps).
  assert (helps s' i (p_pc p') -> exists k r, procs s' !! k = Some r /\ helps s' k (p_pc r)) as Hself by eauto.
  self_cases s s' i p Hv Hi Hp'; try (pose proof (b_waiters _ _ _ _ _ _ _ _ Hb) as Ews); try rewrite Epc in Hh; try done;
    unfold holds in Hnh.
  - apply Hself. by destruct Hre.
  - destruct got; [done|]. by destruct Hgot.
  - destruct got; [done|]. by destruct Hgot.
  - apply Hself. destruct (p_pc p); try done; by subst pc'.
  - apply Hself. destruct (p_pc p); try done; by subst pc'.
  - apply Hself. destruct (p_pc p) eqn:Epc; try done. subst pc'. destruct c; try done. destruct (lwWaiting p); [|done].
    cbn. rewrite Epc. cbn in *. by rewrite Ews.
  - apply Hself. destruct (p_pc p); try done; by subst p2.
  - eapply Hcas; [done|]. eapply sweep_stay; [exact Esw|done|]. by rewrite <- Ews.
  - apply Hself. cbn [p_pc set_sem]. destruct (p_pc p); try done. destruct c; try done. cbn in *. by rewrite Ews.
Qed.

Lemma free_kept : is_free s' -> lw_waiters s' <> [] -> exists k r, procs s' !! k = Some r /\ helps s' k (p_pc r).
Proof using Hinv Hinv2 Hinv3 Hi Hinv' Hinv2' Hv.
  intros Hf' Hws. destruct self_there as [p' Hp'].
  assert ((exists mode, p_pc p = ReleaseSub mode) \/ (forall mode, p_pc p <> ReleaseSub mode)) as [[m Epr]|Hnr].
  { destruct (p_pc p); try (right; congruence). left. by eexists. }
  - assert (holds p' = None) as Hnh by (rewrite free_iff in Hf' by done; by eapply Hf').
    pose proof Hv as Hv1. self_cases s s' i p Hv1 Hi Hp'; try congruence; try (rewrite Epr in *; done).
    + rewrite Epr in Hre. inversion Hre.
    + destruct check; [by exists i, (at_pc p WakeupLock); rewrite Eprocs, list_lookup_insert_eq|].
      assert (release_ok s = false) as Hno.
      { apply Hcheck; [done|done|]. apply (i2_flag s Hinv2). by rewrite <- (b_waiters _ _ _ _ _ _ _ _ Hb). }
      destruct release_kept as (k & r & Hr & Ho).
      { destruct (b_flags _ _ _ _ _ _ _ _ Hb) as (_ & -> & _). done. }
      exists k, r. split; [done|]. by apply owes_helps.
    + unfold holds in Hnh. cbn in Hnh. by rewrite Epr in Hnh.
  - pose proof (free_before Hf' Hnr) as Hf. destruct (decide (lw_waiters s = [])) as [Hem|Hne].
    + exists i, p'. split; [done|]. pose proof (waiters_sub) as Hsub. rewrite Hem in Hsub. pose proof Hv as Hv1.
      self_cases s s' i p Hv1 Hi Hp'; try (pose proof (b_waiters _ _ _ _ _ _ _ _ Hb) as Ews); try congruence.
      * done.
      * rewrite Ews, Hem in Hws. done.
      * rewrite Hem in Esw. injection Esw as <- <- <-. by rewrite Ews in Hws.
    + destruct (i3_free s Hinv3 Hf Hne) as (k & r & Hr & Hh). destruct (decide (k = i)) as [->|Hki].
      * rewrite Hi in Hr. injection Hr as <-. by eapply self_helps.
      * destruct (others k r Hki Hr) as (r' & Hr' & Hk). exists k, r'. split; [done|]. by eapply helps_kept.
Qed.

Lemma inv3_move : Inv3 s'.
Proof using Hinv Hinv2 Hinv3 Hi Hinv' Hinv2' Hv.
  constructor; [apply release_kept|apply free_kept|intros k r Hr; by apply tokens_kept].
Qed.
End View3.
