(* ===== verification/LWLockTheorems.v ===== *)
(** Light-weight locks: what holds after any interleaving of calls. *)
From stdpp Require Import list relations.
From S2P Require Import Prelude LWLock LWLockProofs LWLockSteps LWLockWakeup.

(** A process before its first call. *)
Definition fresh_proc (p : Proc) : bool :=
  match p_pc p with Idle => true | _ => false end && negb (lwWaiting p) && negb (LWLockHeldByMe (held_lwlocks p) this_lock) &&
  (0 <=? sem p) && (0 <=? extraWaits p).

(** The state after any sequence of calls, steps and signals. *)
Definition lwlock_reachable (start : list Proc) (s : Sys) : Prop :=
  Z.of_nat (length start) < 2 ^ 23 /\ forallb fresh_proc start = true /\ rtc sys_step (LWLockInitialize start) s.

Definition Inv (s : Sys) : Prop := Inv1 s /\ Inv2 s /\ Inv3 s.

(** ** The invariant holds *)

Lemma move_inv s s' i p : Inv s -> procs s !! i = Some p -> Inv1 s' -> move s s' i p -> Inv s'.
Proof.
  intros (H1 & H2 & H3) Hi H1' Hv. assert (Inv2 s') as H2' by (by apply (inv2_move s s' i p)).
  split_and!; [done|done|by apply (inv3_move s s' i p)].
Qed.

Lemma acquire_inv s s' i p c mode : Inv s -> procs s !! i = Some p -> p_pc p = Idle ->
  LWLockHeldByMe (held_lwlocks p) this_lock = false -> call_acquire i c mode s = Ret s' -> Inv s'.
Proof.
  intros Hinv Hi Epc Hnh. unfold call_acquire. rewrite Hi. cbn [deref cbind].
  case_bool_decide as Hm; [|done]. cbn [c_assert cbind]. destruct (MAX_SIMUL_LWLOCKS <=? _); [done|]. intros [= <-].
  pose proof Hinv as (H1 & _ & _). pose proof (i1_local s H1 i p Hi) as Hl.
  assert (queued_mode (p_pc p) = None) as Hq by (by rewrite Epc). pose proof (waiting_pc p Hl Hq) as Hw.
  apply not_held in Hnh as Hn0. set (p' := at_pc _ _).
  assert (holds p' = holds p) as Hh by (unfold holds; rewrite Epc; cbn; symmetry; by apply held_this_none).
  destruct (decode_go s i p H1 Hi p') as [H1' Hb].
  - destruct Hl as [L1 L2 L3 L4 L5 L6 L7]. constructor; cbn; try done; try congruence; try lia.
    unfold lock_mode. by rewrite bool_decide_false.
  - unfold excl. by rewrite Hh.
  - unfold share. by rewrite Hh.
  - unfold crit. by rewrite Epc.
  - eapply move_inv; [done..|]. by apply (m_call s _ i p p').
Qed.

Lemma release_inv s s' i p : Inv s -> procs s !! i = Some p -> p_pc p = Idle -> call_release i s = Ret s' -> Inv s'.
Proof.
  intros Hinv Hi Epc. unfold call_release. rewrite Hi. cbn [deref cbind].
  pose proof (held_remove_spec (held_lwlocks p) this_lock) as Hr.
  destruct (held_remove _ _) as [[mode held]| |] eqn:Er; cbn [cbind]; try done. intros [= <-].
  pose proof Hinv as (H1 & _ & _). pose proof (i1_local s H1 i p Hi) as Hl.
  assert (queued_mode (p_pc p) = None) as Hq by (by rewrite Epc). pose proof (waiting_pc p Hl Hq) as Hw.
  pose proof (n_this_remove _ _ _ Er) as Hn. set (p' := at_pc _ _).
  assert (holds p' = holds p) as Hh by (unfold holds; rewrite Epc; cbn; unfold held_this; by rewrite Er).
  destruct Hr as (l1 & l2 & El & ->).
  destruct (decode_go s i p H1 Hi p') as [H1' Hb].
  - destruct Hl as [L1 L2 L3 L4 L5 L6 L7]. constructor; cbn [p' p_pc at_pc set_held held_lwlocks lwWaiting lwWaitMode sem extraWaits];
      try done; try congruence; try lia.
    + apply (L4 {| h_lock := this_lock; h_mode := mode |}); [|done]. rewrite El. apply elem_of_app. right. left.
    + intros h Hin. apply L4. rewrite El. apply elem_of_app. apply elem_of_app in Hin as [|]; [by left|right; by right].
  - unfold excl. by rewrite Hh.
  - unfold share. by rewrite Hh.
  - unfold crit. by rewrite Epc.
  - eapply move_inv; [done..|]. by apply (m_call s _ i p p').
Qed.

Lemma signal_inv s i : Inv s -> Inv (other_signal i s).
Proof.
  intros Hinv. unfold other_signal. destruct (procs s !! i) as [p|] eqn:Hi; [|done].
  pose proof Hinv as (H1 & _ & _). destruct (decode_go s i p H1 Hi (set_sem p (sem p + 1) (extraWaits p))) as [H1' Hb]; try done.
  - apply local_signalled. by eapply i1_local.
  - eapply move_inv; [done..|]. by apply m_other.
Qed.

Lemma lwlock_step_inv i s s' : Inv s -> lwlock_step i s = Some s' -> Inv s'.
Proof.
  intros Hinv E. pose proof Hinv as (H1 & H2 & _). destruct (procs s !! i) as [p|] eqn:Hi.
  - pose proof (step_decode s i p H1 H2 Hi) as Hd. rewrite E in Hd. destruct Hd as [H1' Hv]. by eapply move_inv, m_step.
  - unfold lwlock_step in E. by rewrite Hi in E.
Qed.

Lemma fresh_local p : fresh_proc p = true -> local_ok p /\ holds p = None /\ crit p = 0%nat /\ linked p = false /\
  p_pc p = Idle.
Proof.
  unfold fresh_proc. rewrite !andb_true_iff, !negb_true_iff, !Z.leb_le.
  intros ((((Epc & Hw) & Hh) & Hs) & He). destruct (p_pc p) eqn:E; try done. apply not_held in Hh as Hn.
  unfold holds, crit, linked. rewrite E, Hw. split_and!; try done; [|by apply held_this_none].
  constructor; rewrite ?E; try done; try congruence; [lia|]. intros h Hin Hl. by destruct (proj1 (n_this_zero _) Hn h Hin).
Qed.

Lemma initial_inv start : Z.of_nat (length start) < 2 ^ 23 -> forallb fresh_proc start = true -> Inv (LWLockInitialize start).
Proof.
  intros Hlen Hf. rewrite forallb_forall in Hf.
  assert (forall i p, start !! i = Some p -> fresh_proc p = true) as Hfr.
  { intros i p Hi. apply Hf, list_elem_of_In. by eapply list_elem_of_lookup_2. }
  set (s := LWLockInitialize start).
  assert (exclusive s = 0%nat /\ shared s = 0%nat /\ critical s = 0%nat) as (E1 & E2 & E3).
  { unfold exclusive, shared, critical. rewrite !sum_zero. unfold excl, share.
    split_and!; intros i p Hi; destruct (fresh_local p (Hfr i p Hi)) as (_ & Hh & Hc & _); by rewrite ?Hh. }
  assert (procs s ≫= wake_list = []) as Ewl.
  { cbn. clear -Hfr. induction start as [|p l IH]; [done|]. cbn. rewrite IH by (intros i q Hq; by apply (Hfr (S i))).
    destruct (fresh_local p (Hfr 0%nat p eq_refl)) as (_ & _ & _ & _ & Epc). unfold wake_list. by rewrite Epc. }
  split_and!.
  - constructor; rewrite ?E1, ?E2, ?E3; try done; [|lia]. intros i p Hi. by apply fresh_local, (Hfr i).
  - constructor; unfold all_queued; rewrite ?Ewl; cbn; [constructor| |done|].
    + intros i. split; [by intros ?%not_elem_of_nil|]. unfold linked_at. destruct (procs s !! i) as [p|] eqn:Hi; [|done].
      by destruct (fresh_local p (Hfr i p Hi)) as (_ & _ & _ & -> & _).
    + intros i p Hi. destruct (fresh_local p (Hfr i p Hi)) as (_ & _ & _ & _ & ->). by apply place_trivial.
  - constructor; [done|done|]. intros i p Hi. destruct (fresh_local p (Hfr i p Hi)) as (_ & _ & _ & _ & ->). done.
Qed.

Lemma reachable_inv start s : lwlock_reachable start s -> Inv s.
Proof.
  intros (Hlen & Hf & Hrun). assert (Inv (LWLockInitialize start)) as Hinv by (by apply initial_inv).
  revert Hrun Hinv. generalize (LWLockInitialize start) as s0. intros s0 Hrun Hinv.
  induction Hrun as [|s s1 s2 Hst _ IH]; [done|]. apply IH. destruct Hst as [i s s' E|i c mode s s' p Hi Epc Hn E|i s s' p Hi Epc E|i s].
  - by eapply lwlock_step_inv.
  - by eapply acquire_inv.
  - by eapply release_inv.
  - by apply signal_inv.
Qed.

(** ** Schedules *)

(** What happens next, and the state after it, if it can happen. *)
Inductive Action := Next (i : nat) | Acquire (i : nat) (c : Call) (mode : LWLockMode) | Release (i : nat) | Signal (i : nat).

Definition act (a : Action) (s : Sys) : option Sys :=
  match a with
  | Next i => lwlock_step i s
  | Acquire i c mode =>
      match procs s !! i with
      | Some p =>
          if match p_pc p with Idle => true | _ => false end && negb (LWLockHeldByMe (held_lwlocks p) this_lock)
          then match call_acquire i c mode s with Ret s' => Some s' | _ => None end else None
      | None => None
      end
  | Release i =>
      match procs s !! i with
      | Some p =>
          if match p_pc p with Idle => true | _ => false end
          then match call_release i s with Ret s' => Some s' | _ => None end else None
      | None => None
      end
  | Signal i => Some (other_signal i s)
  end.

Fixpoint run (acts : list Action) (s : Sys) : option Sys :=
  match acts with
  | [] => Some s
  | a :: acts => match act a s with Some s' => run acts s' | None => None end
  end.

Lemma act_step a s s' : act a s = Some s' -> sys_step s s'.
Proof.
  destruct a as [i|i c mode|i|i]; cbn.
  - apply sys_internal.
  - destruct (procs s !! i) as [p|] eqn:Hi; [|done]. destruct (p_pc p) eqn:Epc; try done.
    destruct (LWLockHeldByMe _ _) eqn:Eh; [done|]. cbn. destruct (call_acquire i c mode s) as [s1| |] eqn:E; try done.
    intros [= <-]. by eapply sys_acquire.
  - destruct (procs s !! i) as [p|] eqn:Hi; [|done]. destruct (p_pc p) eqn:Epc; try done.
    destruct (call_release i s) as [s1| |] eqn:E; try done. intros [= <-]. by eapply sys_release.
  - intros [= <-]. apply sys_signal.
Qed.

Lemma run_reachable start acts s : Z.of_nat (length start) < 2 ^ 23 -> forallb fresh_proc start = true ->
  run acts (LWLockInitialize start) = Some s -> lwlock_reachable start s.
Proof.
  intros Hl Hf Hr. split_and!; [done|done|]. clear Hl Hf. revert Hr. generalize (LWLockInitialize start) as s0.
  induction acts as [|a acts IH]; intros s0; cbn; [by intros [= ->]|].
  destruct (act a s0) as [s1|] eqn:E; [|done]. intros Hr. eapply rtc_l; [by eapply act_step|by apply IH].
Qed.

(** Two processes: the first takes the lock exclusively, the second asks for it
    and falls asleep; the first releases the lock, wakes the second, and that has
    it. *)
Definition new_proc : Proc :=
  {| p_pc := Idle; lwWaiting := false; lwWaitMode := LW_EXCLUSIVE; sem := 0; extraWaits := 0; result := false; held_lwlocks := [] |}.
Definition contention : list Action :=
  [Acquire 0 CallAcquire LW_EXCLUSIVE; Next 0; Next 0; Next 0; Acquire 1 CallAcquire LW_SHARED] ++ repeat (Next 1) 8.
Definition handover : list Action := [Release 0] ++ repeat (Next 0) 8 ++ repeat (Next 1) 5.
Definition after (acts : list Action) : Sys :=
  default (LWLockInitialize []) (run acts (LWLockInitialize [new_proc; new_proc])).

Lemma after_reachable acts : run acts (LWLockInitialize [new_proc; new_proc]) <> None ->
  lwlock_reachable [new_proc; new_proc] (after acts).
Proof.
  intros Hr. unfold after. destruct (run acts _) as [s|] eqn:E; [|done]. by eapply run_reachable.
Qed.

(** ** Exclusion *)

Lemma held_in_mode held mode : LWLockHeldByMeInMode held this_lock mode = true <->
  {| h_lock := this_lock; h_mode := mode |} ∈ held.
Proof.
  unfold LWLockHeldByMeInMode. rewrite existsb_exists. split.
  - intros ([l m] & Hin & E). apply andb_true_iff in E as [El%Z.eqb_eq Em%bool_decide_eq_true]. cbn in El, Em. subst.
    by apply list_elem_of_In.
  - intros Hin. eexists. split; [by apply list_elem_of_In|]. cbn. by rewrite bool_decide_true.
Qed.

(** Who has the lock in its list is not in a routine, and is counted. *)
Lemma held_holds p mode : local_ok p -> LWLockHeldByMeInMode (held_lwlocks p) this_lock mode = true ->
  p_pc p = Idle /\ holds p = Some mode.
Proof.
  rewrite held_in_mode. intros Hl Hin. assert (n_this (held_lwlocks p) <> 0%nat) as Hn.
  { intros Hz. by destruct (proj1 (n_this_zero _) Hz _ Hin). }
  assert (p_pc p = Idle) as Epc. { destruct (p_pc p) eqn:E; try done; destruct Hn; apply (lo_busy p Hl); by rewrite E. }
  split; [done|]. unfold holds. rewrite Epc. unfold held_this.
  pose proof (held_remove_spec (held_lwlocks p) this_lock) as Hr. pose proof (n_this_remove (held_lwlocks p)) as Hc.
  pose proof (lo_once p Hl) as Ho.
  destruct (held_remove _ _) as [[mode' held']| |]; [|by destruct (Hr _ Hin)|by destruct (Hr _ Hin)].
  specialize (Hc mode' held' eq_refl). destruct Hr as (l1 & l2 & El & Eh).
  rewrite El in Hin. assert (n_this held' = 0%nat) as Hz by lia.
  apply elem_of_app in Hin as [Hin|Hin].
  - destruct (proj1 (n_this_zero _) Hz {| h_lock := this_lock; h_mode := mode |}); [|done]. rewrite Eh. apply elem_of_app. by left.
  - apply elem_of_cons in Hin as [[= ->]|Hin]; [done|].
    destruct (proj1 (n_this_zero _) Hz {| h_lock := this_lock; h_mode := mode |}); [|done]. rewrite Eh. apply elem_of_app. by right.
Qed.

Lemma held_some p : local_ok p -> LWLockHeldByMe (held_lwlocks p) this_lock = true ->
  exists mode, LWLockHeldByMeInMode (held_lwlocks p) this_lock mode = true /\ lock_mode mode = true.
Proof.
  intros Hl Hh. unfold LWLockHeldByMe in Hh. apply existsb_exists in Hh as ([l m] & Hin & E%Z.eqb_eq). cbn in E. subst l.
  apply list_elem_of_In in Hin. exists m. split; [by apply held_in_mode|]. by apply (lo_modes p Hl _ Hin).
Qed.

(** C7. Mutual exclusion: whatever the interleaving of the steps of any number
    of processes, no assertion fails and no PANIC is raised; and while a process
    holds the lock exclusively, no other holds it in any mode. *)
Theorem lwlock_exclusion start s : lwlock_reachable start s ->
  (forall i p what, procs s !! i = Some p -> p_pc p <> Broken what) /\
  (forall i j p q, i <> j -> procs s !! i = Some p -> procs s !! j = Some q ->
     LWLockHeldByMeInMode (held_lwlocks p) this_lock LW_EXCLUSIVE = true ->
     LWLockHeldByMe (held_lwlocks q) this_lock = false).
Proof.
  intros (H1 & _ & _)%reachable_inv. split.
  - intros i p what Hi E. pose proof (lo_pc p (i1_local s H1 i p Hi)) as Hpc. by rewrite E in Hpc.
  - intros i j p q Hne Hi Hj Hp. pose proof (i1_local s H1 i p Hi) as Lp. pose proof (i1_local s H1 j q Hj) as Lq.
    apply not_true_iff_false. intros Hq. destruct (held_some q Lq Hq) as (mode & Hm & Hlm).
    destruct (held_holds p _ Lp Hp) as [_ Hhp]. destruct (held_holds q _ Lq Hm) as [_ Hhq].
    destruct (i1_excl s H1) as [He Hs]. pose proof (sum_two excl _ i j p q Hne Hi Hj) as S1.
    pose proof (sum_member share _ j q Hj) as S2. fold (exclusive s) in S1. fold (shared s) in S2.
    unfold excl in S1. unfold share in S2. rewrite Hhp, Hhq in S1. rewrite Hhq in S2.
    destruct mode; [lia| |done]. specialize (Hs ltac:(lia)). lia.
Qed.

(** One process holds the lock, the other sleeps in the list. *)
Lemma lwlock_exclusion_witness :
  LWLockHeldByMeInMode [{| h_lock := this_lock; h_mode := LW_EXCLUSIVE |}] this_lock LW_EXCLUSIVE = true /\
  lw_waiters (after contention) = [1%nat] /\
  forall q, procs (after contention) !! 1%nat = Some q -> LWLockHeldByMe (held_lwlocks q) this_lock = false.
Proof.
  split; [vm_compute; reflexivity|]. split; [vm_compute; reflexivity|]. intros q Hq.
  destruct (procs (after contention) !! 0%nat) as [p|] eqn:Hp; [|vm_compute in Hp; discriminate Hp].
  apply (proj2 (lwlock_exclusion [new_proc; new_proc] (after contention)
                  (after_reachable contention ltac:(vm_compute; discriminate))) 0%nat 1%nat p q); [lia|exact Hp|exact Hq|].
  vm_compute in Hp. injection Hp as <-. vm_compute. reflexivity.
Defined.

(** ** At rest *)

Definition n_held (s : Sys) (mode : LWLockMode) : Z :=
  Z.of_nat (length (filter (fun p => LWLockHeldByMeInMode (held_lwlocks p) this_lock mode = true) (procs s))).

Lemma sum_filter {A} (f : A -> nat) (P : A -> Prop) `{forall x, Decision (P x)} l :
  (forall x, x ∈ l -> f x = if decide (P x) then 1%nat else 0%nat) -> sum_list_with f l = length (filter P l).
Proof.
  intros Hf. induction l as [|x l IH]; [done|]. cbn [sum_list_with]. rewrite Hf by left.
  rewrite IH by (intros y Hy; apply Hf; by right). destruct (decide (P x)).
  - by rewrite filter_cons_True.
  - by rewrite filter_cons_False.
Qed.

Lemma holds_mode p mode : local_ok p -> p_pc p = Idle ->
  holds p = Some mode <-> LWLockHeldByMeInMode (held_lwlocks p) this_lock mode = true.
Proof.
  intros Hl Epc. split; [|by intros [_ ?]%held_holds].
  unfold holds. rewrite Epc. unfold held_this. pose proof (held_remove_spec (held_lwlocks p) this_lock) as Hr.
  destruct (held_remove _ _) as [[m held']| |]; try done. intros [= ->]. apply held_in_mode.
  destruct Hr as (l1 & l2 & -> & _). apply elem_of_app. right. left.
Qed.

(** When no process is in a routine, the state word says who holds the lock:
    its low bits are the number of exclusive holders, times [LW_VAL_EXCLUSIVE],
    plus that of shared holders.  Nobody is left in the list of waiters, the list
    is not locked, and releasing the lock may wake processes. *)
Theorem lwlock_at_rest start s : lwlock_reachable start s -> (forall i p, procs s !! i = Some p -> p_pc p = Idle) ->
  Z.land (lw_state s) LW_LOCK_MASK = n_held s LW_EXCLUSIVE * LW_VAL_EXCLUSIVE + n_held s LW_SHARED * LW_VAL_SHARED /\
  lw_waiters s = [] /\ Z.testbit (lw_state s) 28 = false /\ Z.testbit (lw_state s) 29 = true.
Proof.
  intros (H1 & H2 & H3)%reachable_inv Hidle. pose proof (inv1_counts s H1) as Hco.
  assert (forall p, p ∈ procs s -> local_ok p /\ p_pc p = Idle) as Hall.
  { intros p [i Hi]%list_elem_of_lookup. split; [by eapply i1_local|by eapply Hidle]. }
  split_and!.
  - assert (exclusive s = Z.to_nat (n_held s LW_EXCLUSIVE) /\ shared s = Z.to_nat (n_held s LW_SHARED)) as [Ee Es].
    { unfold n_held. rewrite !Nat2Z.id. unfold exclusive, shared.
      split; apply sum_filter; intros p (Hl & Epc)%Hall; unfold excl, share;
        case_decide as Hd; rewrite <- (holds_mode p _ Hl Epc) in Hd; [by rewrite Hd| |by rewrite Hd|];
        destruct (holds p) as [[| |]|]; done. }
    rewrite (i1_word s H1). rewrite Ee, Es in *. unfold n_held in *. rewrite !Z2Nat.id in * by lia.
    apply word_mask. done.
  - destruct (lw_waiters s) as [|w ws] eqn:Ew; [done|]. exfalso.
    assert (linked_at s w = true) as Hl. { apply (i2_linked s H2). unfold all_queued. rewrite Ew. left. }
    unfold linked_at in Hl. destruct (procs s !! w) as [q|] eqn:Hw; [|done]. unfold linked in Hl.
    rewrite (waiting_pc q (i1_local s H1 w q Hw)) in Hl; [done|]. by rewrite (Hidle w q Hw).
  - pose proof (i1_crit s H1) as Hc. fold (list_locked s). destruct (list_locked s); [|done]. exfalso.
    assert (critical s = 0%nat) as E; [|lia]. apply sum_zero. intros i p Hi. unfold crit. by rewrite (Hidle i p Hi).
  - fold (release_ok s). destruct (release_ok s) eqn:Hr; [done|]. destruct (i3_release s H3 Hr) as (i & p & Hi & Ho).
    by rewrite (Hidle i p Hi) in Ho.
Qed.

(** After the lock was handed over there is one shared holder. *)
Lemma lwlock_at_rest_witness :
  n_held (after (contention ++ handover)) LW_SHARED = 1 /\
  Z.land (lw_state (after (contention ++ handover))) LW_LOCK_MASK = 1.
Proof.
  split; [vm_compute; reflexivity|].
  assert (forall i p, procs (after (contention ++ handover)) !! i = Some p -> p_pc p = Idle) as Hidle.
  { intros i p Hi. apply list_elem_of_lookup_2 in Hi. vm_compute in Hi.
    apply elem_of_cons in Hi as [->|Hi]; [reflexivity|]. apply elem_of_cons in Hi as [->|Hi]; [reflexivity|].
    by apply not_elem_of_nil in Hi. }
  rewrite (proj1 (lwlock_at_rest [new_proc; new_proc] (after (contention ++ handover))
                    (after_reachable (contention ++ handover) ltac:(vm_compute; discriminate)) Hidle)).
  vm_compute. reflexivity.
Defined.
