(* ===== verification/LWLockLiveness.v ===== *)
(** Light-weight locks: every routine ends, provided that the holders release
    the lock.  A state in which no process can go on is one in which all have
    returned or the lock is held by a process that has returned; and there are
    only finitely many steps to it. *)
From stdpp Require Import list relations.
From S2P Require Import Prelude LWLock LWLockProofs LWLockSteps LWLockWakeup LWLockTheorems.

(** A step of a routine. *)
Definition internal (s s' : Sys) : Prop := exists i, lwlock_step i s = Some s'.

Definition idle_pc (pc : PC) : bool := match pc with Idle => true | _ => false end.

(** ** Where a process cannot go on *)

Definition blocked (s : Sys) (p : Proc) : Prop :=
  match p_pc p with
  | Idle => True
  | QueueLock _ _ | DequeueLock _ _ | WakeupLock => list_locked s = true
  | Sleep _ _ | DequeueSleep _ _ => sem p <= 0
  | _ => False
  end.

Lemma list_lock_none s i p pc : Inv1 s -> list_lock_step s i p pc = None -> list_locked s = true.
Proof.
  intros H1. unfold list_lock_step. rewrite (i1_word s H1), word_locked by (by apply inv1_counts).
  by destruct (list_locked s).
Qed.

Lemma sleep_none s i p pc : sleep_step s i p pc = None -> sem p <= 0.
Proof. unfold sleep_step. by destruct (Z.ltb_spec 0 (sem p)). Qed.

Lemma none_blocked s i p : Inv s -> procs s !! i = Some p -> lwlock_step i s = None -> blocked s p.
Proof.
  intros (H1 & H2 & _) Hi. pose proof (i1_local s H1 i p Hi) as Hl. pose proof (lo_pc p Hl) as Hpc.
  pose proof (i2_place s H2 i p Hi) as Hpl. pose proof (waiting_pc p Hl) as Hw.
  unfold blocked, lwlock_step, call_step, LWLockAcquire_step, LWLockConditionalAcquire_step, LWLockAcquireOrWait_step, LWLockQueueSelf_step,
    LWLockDequeueSelf_step, LWLockRelease_step, LWLockWakeup_step.
  rewrite Hi. destruct (p_pc p) eqn:Epc; try done; cbn in Hpc.
  - by destruct c; rewrite Epc.
  - rewrite Hw by done. by apply list_lock_none.
  - destruct c; rewrite Epc; [done|by rewrite andb_false_r in Hpc|done].
  - destruct c; rewrite Epc; [by apply sleep_none|by rewrite andb_false_r in Hpc|by apply sleep_none].
  - by apply list_lock_none.
  - by destruct (dequeue_loop _ _).
  - by apply sleep_none.
  - by destruct c; rewrite Epc.
  - by apply list_lock_none.
  - by destruct (wakeup_sweep _ _ _ _) as [[stay wake] ok].
  - destruct old as [old|]; [|done]. by destruct (old =? lw_state s).
  - destruct wakeup as [|w wake]; [done|]. destruct (wake_other s i p H1 H2 Hi w wake Epc) as (_ & q & Hq & _). by rewrite Hq.
  - destruct Hpl as (_ & _ & Hlt). destruct (lookup_lt_is_Some_2 _ _ Hlt) as [q Hq]. by rewrite Hq.
Qed.

Lemma holder_exists s : Inv1 s -> ~ is_free s -> exists j q, procs s !! j = Some q /\ holds q <> None.
Proof.
  intros H1 Hnf. destruct (decide (Forall (fun q => holds q = None) (procs s))) as [Hall|Hex].
  - destruct Hnf. apply free_iff; [done|]. intros i p Hi. by eapply (Forall_lookup_1 _ _ i p Hall).
  - apply not_Forall_Exists in Hex; [|apply _]. apply Exists_exists in Hex as (q & [j Hj]%list_elem_of_lookup & Hq). eauto.
Qed.

Section Stuck.
Context (s : Sys) (Hinv : Inv s) (Hstuck : forall j, lwlock_step j s = None).

Lemma all_blocked i p : procs s !! i = Some p -> blocked s p.
Proof using Hinv Hstuck. intros Hi. by eapply none_blocked. Qed.

Lemma list_unlocked : list_locked s = false.
Proof using Hinv Hstuck.
  pose proof Hinv as (H1 & _ & _). pose proof (i1_crit s H1) as Hc. destruct (list_locked s) eqn:E; [|done]. exfalso.
  assert (critical s = 0%nat) as Hz; [|lia]. apply sum_zero. intros i p Hi. pose proof (all_blocked i p Hi) as Hb.
  unfold blocked in Hb. unfold crit. by destruct (p_pc p).
Qed.

(** Outside of the routines, or asleep. *)
Lemma idle_or_asleep i p : procs s !! i = Some p ->
  p_pc p = Idle \/ (exists c mode, p_pc p = Sleep c mode \/ p_pc p = DequeueSleep c mode) /\ sem p <= 0.
Proof using Hinv Hstuck.
  intros Hi. pose proof (all_blocked i p Hi) as Hb. unfold blocked in Hb. rewrite list_unlocked in Hb.
  destruct (p_pc p); try done; [by left|right; eauto|right; eauto].
Qed.

Lemma asleep_waits i p : procs s !! i = Some p -> p_pc p <> Idle ->
  i ∈ lw_waiters s /\ exists c mode, p_pc p = Sleep c mode.
Proof using Hinv Hstuck.
  intros Hi Hni. pose proof Hinv as (H1 & H2 & H3). pose proof (i1_local s H1 i p Hi) as Hl.
  destruct (idle_or_asleep i p Hi) as [|[(c & mode & Epc) Hs]]; [done|].
  assert (queued_mode (p_pc p) <> None /\ found_pc (p_pc p) = false) as [Hq Hf] by (destruct Epc as [-> | ->]; done).
  assert (lwWaiting p = true) as Hw.
  { destruct (lwWaiting p) eqn:Ew; [done|]. destruct (i3_token s H3 i p Hi Ew Hq) as [|(j & q & wake & Hj & Eq)]; [lia|].
    pose proof (all_blocked j q Hj) as Hb. unfold blocked in Hb. by rewrite Eq in Hb. }
  assert (i ∈ lw_waiters s) as Hin.
  { assert (i ∈ all_queued s) as Ha. { apply (i2_linked s H2). unfold linked_at, linked. by rewrite Hi, Hw, Hf. }
    apply elem_of_app in Ha as [|(q & Hwq & Hq')%list_elem_of_bind]; [done|exfalso].
    apply list_elem_of_lookup in Hq' as [j Hj]. pose proof (all_blocked j q Hj) as Hb.
    unfold wake_list in Hwq. unfold blocked in Hb. destruct (p_pc q); (done || by apply not_elem_of_nil in Hwq). }
  split; [done|]. destruct Epc as [Epc|Epc]; [eauto|]. exfalso.
  destruct (i2_place s H2 i p Hi) as [Hr _]. by apply Hr; [rewrite Epc|].
Qed.

(** If anybody is asleep, somebody outside of the routines holds the lock. *)
Lemma stuck_holder i p : procs s !! i = Some p -> p_pc p <> Idle ->
  exists j q, procs s !! j = Some q /\ p_pc q = Idle /\ LWLockHeldByMe (held_lwlocks q) this_lock = true.
Proof using Hinv Hstuck.
  intros Hi Hni. pose proof Hinv as (H1 & H2 & H3). destruct (asleep_waits i p Hi Hni) as [Hin _].
  assert (~ is_free s) as Hnf.
  { intros Hf. destruct (i3_free s H3 Hf) as (k & r & Hr & Hh); [by intros E; rewrite E in Hin; apply not_elem_of_nil in Hin|].
    destruct (idle_or_asleep k r Hr) as [Er|_]; [by rewrite Er in Hh|].
    destruct (asleep_waits k r Hr) as (Hk & c & mode & Er); [by intros E; rewrite E in Hh|].
    rewrite Er in Hh. by destruct c. }
  destruct (holder_exists s H1 Hnf) as (j & q & Hj & Hh). exists j, q. split; [done|].
  assert (p_pc q = Idle \/ p_pc q <> Idle) as [Eq|Hne] by (destruct (p_pc q); (by left) || by right).
  - split; [done|]. apply not_false_iff_true. intros Hn%not_held. unfold holds in Hh. rewrite Eq in Hh.
    by rewrite held_this_none in Hh.
  - exfalso. destruct (asleep_waits j q Hj Hne) as (_ & c & mode & Eq). unfold holds in Hh. by rewrite Eq in Hh.
Qed.
End Stuck.

(** ** A bound on the number of steps *)

Fixpoint total (g : nat -> nat) (n : nat) : nat :=
  match n with O => O | S n => (g n + total g n)%nat end.

Lemma total_le g d h e n : (forall k, (k < n)%nat -> (g k + d k <= h k + e k)%nat) ->
  (total g n + total d n <= total h n + total e n)%nat.
Proof.
  induction n as [|n IH]; intros Hle; cbn; [lia|]. pose proof (Hle n ltac:(lia)).
  specialize (IH ltac:(intros k Hk; apply Hle; lia)). lia.
Qed.

Lemma total_const a n : total (fun _ => a) n = (n * a)%nat.
Proof. induction n as [|n IH]; [done|]. cbn. rewrite IH. lia. Qed.

Definition at_point (i a : nat) (k : nat) : nat := if decide (k = i) then a else 0%nat.

Lemma total_below i a n : (n <= i)%nat -> total (at_point i a) n = 0%nat.
Proof.
  induction n as [|n IH]; intros Hn; [done|]. cbn. unfold at_point at 1. rewrite decide_False by lia. apply IH. lia.
Qed.

Lemma total_point i a n : (i < n)%nat -> total (at_point i a) n = a.
Proof.
  induction n as [|n IH]; [lia|]. intros Hi. cbn. unfold at_point at 1. case_decide as Hd.
  - subst. rewrite total_below by lia. lia.
  - rewrite IH by lia. done.
Qed.

(** How far a process has to go, at most, until it returns or sleeps in the
    list; [n] processes, [listed] if it is in the list.  The sweep of
    [LWLockWakeup] sends up to [n] of them round the loop of [LWLockAcquire]. *)
Definition weight (n : nat) (listed : bool) (pc : PC) : nat :=
  match pc with
  | Idle | Broken _ => 0
  | Finish _ _ _ => 1
  | DequeueSleep _ _ => 2
  | DequeueReleaseOk _ _ | DequeueFound _ _ => 3
  | DequeueUnlock _ _ _ => 4
  | DequeueFlag _ _ _ => 5
  | DequeueRemove _ _ => 6
  | DequeueLock _ _ => 7
  | Sleep _ _ => if listed then 8 else 16
  | Attempt2 _ _ _ => if listed then 9 else 17
  | QueueUnlock _ _ => if listed then 10 else 18
  | QueuePush _ _ => 11
  | QueueFlag _ _ => 12
  | QueueLock _ _ => 13
  | Attempt1 _ _ _ => 14
  | SetReleaseOk _ => 15
  | WakeupLoop wake => 1 + 3 * length wake
  | WakeupSignal _ wake => 3 + 3 * length wake
  | WakeupCas wake _ _ => 2 + 3 * length wake
  | WakeupSweep => 11 * n + 3
  | WakeupLock => 11 * n + 4
  | ReleaseSub _ => 11 * n + 5
  end%nat.

(** With the signals the process may still absorb. *)
Definition load (n : nat) (listed : bool) (p : Proc) : nat :=
  (weight n listed (p_pc p) + match p_pc p with Idle => 0 | _ => Z.to_nat (sem p) end)%nat.

Definition load_at (s : Sys) (k : nat) : nat :=
  match procs s !! k with
  | Some p => load (length (procs s)) (bool_decide (k ∈ lw_waiters s)) p
  | None => 0%nat
  end.

(** The value read last is not the present one. *)
Definition stale (state : Z) (pc : PC) : nat :=
  match pc with
  | Attempt1 _ _ old | Attempt2 _ _ old | WakeupCas _ _ old => if decide (old = Some state) then 0%nat else 1%nat
  | _ => 0%nat
  end.
Definition stale_at (s : Sys) (k : nat) : nat :=
  match procs s !! k with Some p => stale (lw_state s) (p_pc p) | None => 0%nat end.

Definition step_bound (s : Sys) : nat :=
  let n := length (procs s) in (total (load_at s) n * S n + total (stale_at s) n)%nat.

Lemma stale_le s : (total (stale_at s) (length (procs s)) <= length (procs s))%nat.
Proof.
  pose proof (total_le (stale_at s) (fun _ => 0%nat) (fun _ => 1%nat) (fun _ => 0%nat) (length (procs s))) as Hle.
  rewrite !total_const in Hle. specialize (Hle ltac:(intros k _; unfold stale_at, stale; repeat case_match; lia)). lia.
Qed.

(** A step that makes some process come closer to its end. *)
Lemma bound_load s s' : length (procs s') = length (procs s) ->
  (total (load_at s') (length (procs s)) < total (load_at s) (length (procs s)))%nat -> (step_bound s' < step_bound s)%nat.
Proof.
  intros El Hlt. pose proof (stale_le s') as Hs. unfold step_bound. rewrite El in *. set (n := length (procs s)) in *. nia.
Qed.

Section Decrease.
Context (s s' : Sys) (i : nat) (p : Proc) (Hinv : Inv s) (Hinv' : Inv s') (Hi : procs s !! i = Some p).

Let n := length (procs s).

Lemma n_pos : (i < n)%nat.
Proof using Hi. by eapply lookup_lt_Some. Qed.

(** Only the process itself moves, and the list changes only by it. *)
Lemma bound_one p' hw rok lkd ws : become s s' i p' hw rok lkd ws ->
  (forall k, k <> i -> k ∈ ws <-> k ∈ lw_waiters s) ->
  (load n (bool_decide (i ∈ ws)) p' < load n (bool_decide (i ∈ lw_waiters s)) p)%nat -> (step_bound s' < step_bound s)%nat.
Proof using Hi.
  intros [Ep Ew _] Hk Hl. pose proof n_pos as Hn. assert (length (procs s') = n) as El by (by rewrite Ep, length_insert).
  apply bound_load; [done|]. fold n.
  pose proof (total_le (load_at s') (at_point i 1) (load_at s) (fun _ => 0%nat) n) as Ht.
  rewrite total_point, total_const in Ht by done. rewrite Nat.mul_0_r in Ht.
  assert (total (load_at s') n + 1 <= total (load_at s) n + 0)%nat; [apply Ht|lia]. intros k Hkn. unfold load_at, at_point. rewrite El, Ep, Ew. fold n.
  destruct (decide (k = i)) as [Hd|Hd].
  - subst k. rewrite list_lookup_insert_eq, Hi by done. lia.
  - rewrite list_lookup_insert_ne by done. rewrite (bool_decide_ext _ _ (Hk k Hd)). destruct (procs s !! k); lia.
Qed.

Lemma bound_reread pc' : reread (lw_state s) (p_pc p) pc' -> lw_state s' = lw_state s ->
  procs s' = <[i := at_pc p pc']> (procs s) -> lw_waiters s' = lw_waiters s -> (step_bound s' < step_bound s)%nat.
Proof using Hi.
  intros Hre Est Ep Ew. pose proof n_pos as Hn. assert (length (procs s') = n) as El by (by rewrite Ep, length_insert).
  unfold step_bound. rewrite El. fold n.
  assert (total (load_at s') n + 0 <= total (load_at s) n + 0)%nat as Hload.
  { pose proof (total_le (load_at s') (fun _ => 0%nat) (load_at s) (fun _ => 0%nat) n) as Ht.
    rewrite !total_const, !Nat.mul_0_r in Ht. apply Ht. intros k Hkn. unfold load_at. rewrite El, Ep, Ew. fold n.
    destruct (decide (k = i)) as [->|Hd]; [|rewrite list_lookup_insert_ne by done; lia].
    rewrite list_lookup_insert_eq, Hi by done. unfold load. cbn [p_pc at_pc sem]. destruct Hre; cbn; lia. }
  assert (total (stale_at s') n + 1 <= total (stale_at s) n + 0)%nat as Hstale.
  { pose proof (total_le (stale_at s') (at_point i 1) (stale_at s) (fun _ => 0%nat) n) as Ht.
    rewrite total_point, total_const, Nat.mul_0_r in Ht by done. apply Ht. intros k Hkn. unfold stale_at, at_point.
    rewrite Ep, Est. destruct (decide (k = i)) as [Hd|Hd]; [subst k|rewrite list_lookup_insert_ne by done; lia].
    rewrite list_lookup_insert_eq, Hi by done. cbn [p_pc at_pc]. destruct Hre; cbn; rewrite decide_True, decide_False by done; lia. }
  nia.
Qed.

(** The waiter woken or signalled as well. *)
Lemma bound_two w q q' pc' : procs s !! w = Some q -> w <> i ->
  (forall listed, load n listed q' <= load n listed q + 1)%nat ->
  procs s' = <[i := at_pc p pc']> (<[w := q']> (procs s)) -> lw_waiters s' = lw_waiters s ->
  (forall listed, load n listed (at_pc p pc') + 2 <= load n listed p \/
     load n listed (at_pc p pc') < load n listed p /\ forall l, load n l q' <= load n l q)%nat ->
  (step_bound s' < step_bound s)%nat.
Proof using Hi.
  intros Hq Hne Hlq Ep Ew Hl. pose proof n_pos as Hn. pose proof (lookup_lt_Some _ _ _ Hq) as Hw.
  assert (length (procs s') = n) as El by (by rewrite Ep, !length_insert).
  apply bound_load; [done|]. fold n.
  assert (forall d e, (e < d)%nat -> (load n (bool_decide (i ∈ lw_waiters s)) (at_pc p pc') + d <= load n (bool_decide (i ∈ lw_waiters s)) p)%nat ->
    (forall l, load n l q' <= load n l q + e)%nat -> (total (load_at s') n + d <= total (load_at s) n + e)%nat) as Hgo.
  { intros d e Hed Hd He. pose proof (total_le (load_at s') (at_point i d) (load_at s) (at_point w e) n) as Ht.
    rewrite !total_point in Ht by done. apply Ht. intros k Hkn. unfold load_at, at_point. rewrite El, Ep, Ew. fold n.
    destruct (decide (k = i)) as [->|Hki].
    - rewrite list_lookup_insert_eq, Hi, decide_False by (done || by rewrite length_insert). lia.
    - rewrite list_lookup_insert_ne by done. destruct (decide (k = w)) as [Hd'|Hd'].
      + subst k. rewrite list_lookup_insert_eq, Hq by done. specialize (He (bool_decide (w ∈ lw_waiters s))). lia.
      + rewrite list_lookup_insert_ne by done. lia. }
  destruct (Hl (bool_decide (i ∈ lw_waiters s))) as [H2|[H1 Hq0]].
  - specialize (Hgo 2%nat 1%nat ltac:(lia) H2 Hlq). lia.
  - specialize (Hgo 1%nat 0%nat ltac:(lia)). assert (total (load_at s') n + 1 <= total (load_at s) n + 0)%nat; [|lia].
    apply Hgo; [lia|]. intros l. specialize (Hq0 l). lia.
Qed.

(** The sweep sends those it takes off the list round the loop once more. *)
Lemma bound_sweep stay wake ok : p_pc p = WakeupSweep ->
  wakeup_sweep (wait_mode_of s) (lw_waiters s) false true = (stay, wake, ok) ->
  procs s' = <[i := at_pc p (WakeupCas wake ok None)]> (procs s) -> lw_waiters s' = stay -> (step_bound s' < step_bound s)%nat.
Proof using Hinv Hi.
  intros Epc Esw Ep Ew. pose proof n_pos as Hn. assert (length (procs s') = n) as El by (by rewrite Ep, length_insert).
  pose proof Hinv as (_ & H2 & _). pose proof (sweep_perm _ _ _ _ _ _ _ Esw) as Eperm.
  assert (length wake <= n)%nat as Hlw.
  { assert (length (lw_waiters s) <= n)%nat as Hlen.
    { pose proof (i2_nodup s H2) as Hnd. apply NoDup_app in Hnd as (Hnd & _ & _).
      rewrite <- (length_seq n 0). apply submseteq_length, NoDup_submseteq; [done|]. intros w Hw.
      assert (linked_at s w = true) as Hl by (apply (i2_linked s H2), elem_of_app; by left).
      unfold linked_at in Hl. destruct (procs s !! w) as [q|] eqn:Hq; [|done]. apply lookup_lt_Some in Hq.
      apply elem_of_seq. fold n in Hq. lia. }
    apply Permutation_length in Eperm. rewrite length_app in Eperm. lia. }
  apply bound_load; [done|]. fold n.
  pose proof (total_le (load_at s') (at_point i (8 * n + 1)) (load_at s) (fun _ => 8%nat) n) as Ht.
  rewrite total_point, total_const in Ht by done.
  assert (total (load_at s') n + (8 * n + 1) <= total (load_at s) n + n * 8)%nat; [apply Ht|lia].
  intros k Hkn. unfold load_at, at_point. rewrite El, Ep. fold n. destruct (decide (k = i)) as [Hd|Hd].
  - subst k. rewrite list_lookup_insert_eq, Hi by done. unfold load. cbn [p_pc at_pc sem]. rewrite Epc. cbn [weight]. lia.
  - rewrite list_lookup_insert_ne by done. destruct (procs s !! k) as [r|]; [|lia]. unfold load.
    destruct (p_pc r); cbn [weight]; repeat case_bool_decide; lia.
Qed.

Lemma bound_step : view s s' i p -> (step_bound s' < step_bound s)%nat.
Proof using Hinv Hi.
  intros Hv.
  assert (forall p' hw rok lkd, become s s' i p' hw rok lkd (lw_waiters s) ->
    (load n (bool_decide (i ∈ lw_waiters s)) p' < load n (bool_decide (i ∈ lw_waiters s)) p)%nat -> (step_bound s' < step_bound s)%nat) as Hone.
  { intros p' hw rok lkd Hb Hl. by eapply bound_one. }
  assert (forall pc' hw rok lkd, become s s' i (at_pc p pc') hw rok lkd (lw_waiters s) -> p_pc p <> Idle ->
    (weight n (bool_decide (i ∈ lw_waiters s)) pc' < weight n (bool_decide (i ∈ lw_waiters s)) (p_pc p))%nat ->
    (step_bound s' < step_bound s)%nat) as Hpc1.
  { intros pc' hw rok lkd Hb Hni Hw. eapply Hone; [exact Hb|]. unfold load. cbn [p_pc at_pc sem].
    destruct (p_pc p); try done; destruct pc'; lia. }
  step_cases Hv.
  - eapply bound_reread; [done|done|apply (b_procs _ _ _ _ _ _ _ _ Hb)|apply (b_waiters _ _ _ _ _ _ _ _ Hb)].
  - eapply Hpc1; [exact Hb|by rewrite Epc|]. rewrite Epc. destruct got, c; cbn; lia.
  - eapply Hpc1; [exact Hb|by rewrite Epc|]. rewrite Epc. destruct got; cbn; case_bool_decide; lia.
  - destruct (p_pc p) eqn:Epc; try done; try (apply proj1 in Hpc); subst pc'; (eapply Hpc1; [exact Hb|done|cbn; lia]).
  - eapply Hpc1; [exact Hb|by rewrite Epc|]. rewrite Epc. cbn. lia.
  - eapply bound_one; [exact Hb|..].
    + intros k Hk. case_decide; [rewrite elem_of_cons|rewrite elem_of_app, list_elem_of_singleton]; naive_solver.
    + rewrite bool_decide_true by (case_decide; [left|apply elem_of_app; right; left]).
      unfold load. cbn [p_pc at_pc set_waiting sem]. rewrite Epc. cbn. lia.
  - destruct (p_pc p) eqn:Epc; try done; subst pc'.
    + eapply Hpc1; [exact Hb|done|cbn; case_bool_decide; lia].
    + eapply Hpc1; [exact Hb|done|destruct found; cbn; lia].
  - eapply Hone; [exact Hb|]. unfold load. destruct (lwWaiting p) eqn:Ew.
    + cbn [p_pc set_sem sem]. destruct (p_pc p); try done; cbn [weight]; repeat case_bool_decide; lia.
    + rewrite bool_decide_false by (intros Hin; apply (waiter_waits s i p) in Hin; [congruence|apply Hinv|done]).
      cbn [p_pc set_sem sem at_pc]. destruct (p_pc p); try done; subst pc'; try destruct c; cbn [weight]; lia.
  - eapply Hone; [exact Hb|]. unfold load. destruct (p_pc p); try done; subst p2; cbn; lia.
  - eapply bound_one; [exact Hb|..].
    + intros k Hk. rewrite list_elem_of_filter. naive_solver.
    + unfold load. cbn [p_pc at_pc sem]. rewrite Epc. cbn. lia.
  - eapply Hpc1; [exact Hb|by rewrite Epc|]. rewrite Epc. cbn. lia.
  - eapply Hone; [exact Hb|]. unfold load. rewrite Epc. cbn. lia.
  - eapply Hone; [exact Hb|]. unfold load. rewrite Epc. destruct got; cbn; lia.
  - eapply Hpc1; [exact Hb|by rewrite Epc|]. rewrite Epc. destruct check; cbn; lia.
  - eapply bound_sweep; [done|done|apply (b_procs _ _ _ _ _ _ _ _ Hb)|apply (b_waiters _ _ _ _ _ _ _ _ Hb)].
  - eapply Hpc1; [exact Hb|by rewrite Epc|]. rewrite Epc. cbn. lia.
  - eapply Hpc1; [exact Hb|by rewrite Epc|]. rewrite Epc. cbn. lia.
  - apply (bound_two w q (set_waiting q false (lwWaitMode q)) (WakeupSignal w wake)); try done.
    + intros l. unfold load. cbn. lia.
    + intros l. right. split; [|done]. unfold load. cbn [p_pc at_pc sem]. rewrite Epc. cbn. lia.
  - apply (bound_two w q (set_sem q (sem q + 1) (extraWaits q)) (WakeupLoop wake)); try done.
    + intros l. unfold load. cbn [p_pc set_sem sem]. destruct (p_pc q); lia.
    + intros l. left. unfold load. cbn [p_pc at_pc sem]. rewrite Epc. cbn. lia.
Qed.
End Decrease.

Lemma internal_bound s s' : Inv s -> internal s s' -> Inv s' /\ (step_bound s' < step_bound s)%nat.
Proof.
  intros Hinv [i E]. split; [by eapply lwlock_step_inv|]. pose proof Hinv as (H1 & H2 & _). destruct (procs s !! i) as [p|] eqn:Hi.
  - pose proof (step_decode s i p H1 H2 Hi) as Hd. rewrite E in Hd. destruct Hd as [_ Hv]. by eapply bound_step.
  - unfold lwlock_step in E. by rewrite Hi in E.
Qed.

Lemma run_bound k s s' : Inv s -> nsteps internal k s s' -> Inv s' /\ (k + step_bound s' <= step_bound s)%nat.
Proof.
  intros Hinv Hrun. induction Hrun as [|k s s1 s2 Hst _ IH]; [split; [done|lia]|].
  destruct (internal_bound s s1 Hinv Hst) as [Hinv1 Hlt]. destruct (IH Hinv1) as [Hinv2 Hle]. split; [done|lia].
Qed.

(** ** No call hangs *)

(** C8. The routines end: from any state that can be reached, the steps of the
    processes, in any order and without new calls, are bounded in number; and
    where no process can take another, each has returned from its call, or the lock
    is held by a process that has returned and is still to release it.  So no
    process sleeps, or spins, while the lock is free: no wakeup is lost. *)
Theorem lwlock_calls_end start s : lwlock_reachable start s ->
  (forall k s', nsteps internal k s s' -> (k <= step_bound s)%nat) /\
  (forall s', rtc internal s s' -> (forall i, lwlock_step i s' = None) ->
     (forall i p, procs s' !! i = Some p -> p_pc p = Idle) \/
     (exists j q, procs s' !! j = Some q /\ p_pc q = Idle /\ LWLockHeldByMe (held_lwlocks q) this_lock = true)).
Proof.
  intros Hinv%reachable_inv. split.
  - intros k s' Hrun. destruct (run_bound k s s' Hinv Hrun) as [_ Hle]. lia.
  - intros s' [k Hrun]%rtc_nsteps_1 Hstuck. destruct (run_bound k s s' Hinv Hrun) as [Hinv' _].
    destruct (decide (Exists (fun p => idle_pc (p_pc p) = false) (procs s'))) as [Hex|Hno].
    + right. apply Exists_exists in Hex as (p & [i Hi]%list_elem_of_lookup & Hp).
      eapply stuck_holder; [done|done|exact Hi|]. intros E. by rewrite E in Hp.
    + left. intros i p Hi. destruct (p_pc p) eqn:E; try done; destruct Hno; apply Exists_exists;
        exists p; (split; [by eapply list_elem_of_lookup_2|by rewrite E]).
Qed.

(** The holder is about to release the lock, the other process sleeps: the
    hand-over of thirteen steps is within the bound, and ends with all returned. *)
Lemma lwlock_calls_end_witness :
  (forall k s', nsteps internal k (after (contention ++ [Release 0])) s' -> (k <= step_bound (after (contention ++ [Release 0])))%nat) /\
  (13 <= step_bound (after (contention ++ [Release 0])))%nat /\
  (forall i p, procs (after (contention ++ handover)) !! i = Some p -> p_pc p = Idle) /\
  (forall s', rtc internal (after (contention ++ [Release 0])) s' -> (forall i, lwlock_step i s' = None) ->
     (forall i p, procs s' !! i = Some p -> p_pc p = Idle) \/
     (exists j q, procs s' !! j = Some q /\ p_pc q = Idle /\ LWLockHeldByMe (held_lwlocks q) this_lock = true)).
Proof.
  pose proof (lwlock_calls_end [new_proc; new_proc] (after (contention ++ [Release 0]))
                (after_reachable (contention ++ [Release 0]) ltac:(vm_compute; discriminate))) as [Hb He].
  split; [exact Hb|]. split; [vm_compute; lia|]. split; [|exact He].
  intros i p Hi. apply list_elem_of_lookup_2 in Hi. vm_compute in Hi.
  apply elem_of_cons in Hi as [->|Hi]; [reflexivity|]. apply elem_of_cons in Hi as [->|Hi]; [reflexivity|].
  by apply not_elem_of_nil in Hi.
Defined.
