(* ===== verification/Pglz.v ===== *)
(** The LZ compressor for large values ([common/pg_lzcompress.c]).

    A buffer is a list of bytes ([0 .. 255]) and a pointer into it an index; the
    output buffer and the static work arrays come with whatever they contained
    before.  An access outside of a buffer is [Undef], so a theorem that a routine
    returns says that there is none. *)
From stdpp Require Import list.
From S2P Require Import Prelude.

Definition PGLZ_MAX_HISTORY_LISTS : Z := 8192.
Definition PGLZ_HISTORY_SIZE : Z := 4096.
Definition PGLZ_MAX_MATCH : Z := 273.
Definition INVALID_ENTRY : Z := 0.
Definition INT_MAX : Z := 2 ^ 31 - 1.
Definition PGLZ_MAX_OUTPUT (dlen : Z) : Z := dlen + 4.

Record PGLZ_Strategy := {
  min_input_size : Z;
  max_input_size : Z;
  min_comp_rate : Z;
  first_success_by : Z;
  match_size_good : Z;
  match_size_drop : Z
}.

Definition PGLZ_strategy_default : PGLZ_Strategy :=
  {| min_input_size := 32; max_input_size := INT_MAX; min_comp_rate := 25; first_success_by := 1024;
     match_size_good := 128; match_size_drop := 10 |}.
Definition PGLZ_strategy_always : PGLZ_Strategy :=
  {| min_input_size := 0; max_input_size := INT_MAX; min_comp_rate := 0; first_success_by := INT_MAX;
     match_size_good := 128; match_size_drop := 6 |}.

(** ** History *)

(** Pointers to entries are their indices, [None] is NULL. *)
Record PGLZ_HistEntry := {
  h_next : option Z;
  h_prev : option Z;
  h_hindex : Z;
  h_pos : Z
}.
Definition set_next (e : PGLZ_HistEntry) (n : option Z) : PGLZ_HistEntry :=
  {| h_next := n; h_prev := h_prev e; h_hindex := h_hindex e; h_pos := h_pos e |}.
Definition set_prev (e : PGLZ_HistEntry) (p : option Z) : PGLZ_HistEntry :=
  {| h_next := h_next e; h_prev := p; h_hindex := h_hindex e; h_pos := h_pos e |}.

(** The static arrays, and [hist_next] and [hist_recycle] of [pglz_compress]. *)
Record Hist := {
  hist_start : list Z;
  hist_entries : list PGLZ_HistEntry;
  hist_next : Z;
  hist_recycle : bool
}.

(** A byte as a signed [char]. *)
Definition schar (b : Z) : Z := if b <? 128 then b else b - 256.

(** The bytes at [s], of a buffer that ends at [e]. *)
Definition pglz_hist_idx (source : list Z) (s e mask : Z) : cres Z :=
  let* c0 := deref (zget source s) in
  if e - s <? 4 then Ret (Z.land (schar c0) mask)
  else
    let* c1 := deref (zget source (s + 1)) in
    let* c2 := deref (zget source (s + 2)) in
    let* c3 := deref (zget source (s + 3)) in
    Ret (Z.land (Z.lxor (Z.lxor (Z.lxor (Z.shiftl (schar c0) 6) (Z.shiftl (schar c1) 4)) (Z.shiftl (schar c2) 2)) (schar c3)) mask).

(** Removing entry [hn] from its list. *)
Definition hist_delink (hs : list Z) (he : list PGLZ_HistEntry) (hn : Z) : cres (list Z * list PGLZ_HistEntry) :=
  let* my := deref (zget he hn) in
  let* (hs, he) :=
    match h_prev my with
    | None =>
        let* next := deref (h_next my) in
        let* hs := deref (zset hs (h_hindex my) (s16 next)) in
        Ret (hs, he)
    | Some prev =>
        let* pe := deref (zget he prev) in
        let* he := deref (zset he prev (set_next pe (h_next my))) in
        Ret (hs, he)
    end in
  match h_next my with
  | None => Ret (hs, he)
  | Some next =>
      let* ne := deref (zget he next) in
      let* he := deref (zset he next (set_prev ne (h_prev my))) in
      Ret (hs, he)
  end.

Definition pglz_hist_add (h : Hist) (source : list Z) (s e mask : Z) : cres Hist :=
  let hn := hist_next h in
  let* hindex := pglz_hist_idx source s e mask in
  let* (hs, he) :=
    if hist_recycle h then hist_delink (hist_start h) (hist_entries h) hn
    else Ret (hist_start h, hist_entries h) in
  let* first := deref (zget hs hindex) in
  let* he := deref (zset he hn {| h_next := Some first; h_prev := None; h_hindex := hindex; h_pos := s |}) in
  let* fe := deref (zget he first) in
  let* he := deref (zset he first (set_prev fe (Some hn))) in
  let* hs := deref (zset hs hindex (s16 hn)) in
  let hn := hn + 1 in
  Ret (if PGLZ_HISTORY_SIZE + 1 <=? hn
       then {| hist_start := hs; hist_entries := he; hist_next := 1; hist_recycle := true |}
       else {| hist_start := hs; hist_entries := he; hist_next := hn; hist_recycle := hist_recycle h |}).

(** ** Output *)

(** The output buffer, [bp], [ctrlp] ([None] is the address of [ctrl_dummy]),
    [ctrlb] and [ctrl]. *)
Record Out := {
  o_dest : list Z;
  o_bp : Z;
  o_ctrlp : option Z;
  o_ctrlb : Z;
  o_ctrl : Z
}.

Definition store_ctrl (o : Out) : cres (list Z) :=
  match o_ctrlp o with
  | None => Ret (o_dest o)
  | Some ctrlp => deref (zset (o_dest o) ctrlp (o_ctrlb o))
  end.

Definition pglz_out_ctrl (o : Out) : cres Out :=
  if Z.land (o_ctrl o) 255 =? 0 then
    let* dest := store_ctrl o in
    Ret {| o_dest := dest; o_bp := o_bp o + 1; o_ctrlp := Some (o_bp o); o_ctrlb := 0; o_ctrl := 1 |}
  else Ret o.

Definition pglz_out_literal (o : Out) (byte : Z) : cres Out :=
  let* o := pglz_out_ctrl o in
  let* dest := deref (zset (o_dest o) (o_bp o) (u8 byte)) in
  Ret {| o_dest := dest; o_bp := o_bp o + 1; o_ctrlp := o_ctrlp o; o_ctrlb := o_ctrlb o; o_ctrl := u8 (Z.shiftl (o_ctrl o) 1) |}.

Definition pglz_out_tag (o : Out) (len off : Z) : cres Out :=
  let* o := pglz_out_ctrl o in
  let ctrlb := u8 (Z.lor (o_ctrlb o) (o_ctrl o)) in
  let ctrl := u8 (Z.shiftl (o_ctrl o) 1) in
  let bp := o_bp o in
  if 17 <? len then
    let* dest := deref (zset (o_dest o) bp (u8 (Z.lor (Z.shiftr (Z.land off 3840) 4) 15))) in
    let* dest := deref (zset dest (bp + 1) (u8 (Z.land off 255))) in
    let* dest := deref (zset dest (bp + 2) (u8 (len - 18))) in
    Ret {| o_dest := dest; o_bp := bp + 3; o_ctrlp := o_ctrlp o; o_ctrlb := ctrlb; o_ctrl := ctrl |}
  else
    let* dest := deref (zset (o_dest o) bp (u8 (Z.lor (Z.shiftr (Z.land off 3840) 4) (len - 3)))) in
    let* dest := deref (zset dest (bp + 1) (u8 (Z.land off 255))) in
    Ret {| o_dest := dest; o_bp := bp + 2; o_ctrlp := o_ctrlp o; o_ctrlb := ctrlb; o_ctrl := ctrl |}.

(** ** Matching *)

(** [while (ip < end && *ip == *hp && thislen < PGLZ_MAX_MATCH)]: the length. *)
Fixpoint match_loop (fuel : nat) (source : list Z) (ip hp e thislen : Z) : cres Z :=
  match fuel with
  | O => Undef
  | S fuel =>
      if ip <? e then
        let* a := deref (zget source ip) in
        let* b := deref (zget source hp) in
        if (a =? b) && (thislen <? PGLZ_MAX_MATCH) then match_loop fuel source (ip + 1) (hp + 1) e (thislen + 1)
        else Ret thislen
      else Ret thislen
  end.

(** [memcmp(ip, hp, len) == 0]. *)
Fixpoint memcmp_equal (source : list Z) (ip hp : Z) (len : nat) : cres bool :=
  match len with
  | O => Ret true
  | S len =>
      let* a := deref (zget source ip) in
      let* b := deref (zget source hp) in
      let* rest := memcmp_equal source (ip + 1) (hp + 1) len in
      Ret ((a =? b) && rest)
  end.

(** Enough for a match of any length. *)
Definition match_fuel : nat := Z.to_nat (PGLZ_MAX_MATCH + 1).

(** The length of the match at history position [hp], if it can be better than [len]. *)
Definition match_length (source : list Z) (ip hp e len : Z) : cres Z :=
  if 16 <=? len then
    let* same := memcmp_equal source ip hp (Z.to_nat len) in
    if same then match_loop match_fuel source (ip + len) (hp + len) e len else Ret 0
  else match_loop match_fuel source ip hp e 0.

(** The walk through the list: the best length and its offset. *)
Fixpoint find_loop (fuel : nat) (he : list PGLZ_HistEntry) (source : list Z) (input e : Z) (hent len off good_match good_drop : Z)
  : cres (Z * Z) :=
  match fuel with
  | O => Undef
  | S fuel =>
      if hent =? INVALID_ENTRY then Ret (len, off)
      else
        let* he1 := deref (zget he hent) in
        let thisoff := input - h_pos he1 in
        if 4095 <=? thisoff then Ret (len, off)
        else
          let* thislen := match_length source input (h_pos he1) e len in
          let '(len, off) := if len <? thislen then (thislen, thisoff) else (len, off) in
          let* hent := deref (h_next he1) in
          if hent =? INVALID_ENTRY then Ret (len, off)
          else if good_match <=? len then Ret (len, off)
          else find_loop fuel he source input e hent len off (good_match - Z.quot (good_match * good_drop) 100) good_drop
  end.

(** A list has at most as many entries as there are. *)
Definition find_fuel : nat := S (Z.to_nat PGLZ_HISTORY_SIZE).

Definition pglz_find_match (h : Hist) (source : list Z) (input e good_match good_drop mask : Z) : cres (option (Z * Z)) :=
  let* hindex := pglz_hist_idx source input e mask in
  let* hentno := deref (zget (hist_start h) hindex) in
  let* (len, off) := find_loop find_fuel (hist_entries h) source input e hentno 0 0 good_match good_drop in
  Ret (if 2 <? len then Some (len, off) else None).

(** ** Compression *)

(** [while (match_len--)]: the matched bytes go to the history. *)
Fixpoint add_loop (match_len : nat) (h : Hist) (source : list Z) (dp e mask : Z) : cres (Hist * Z) :=
  match match_len with
  | O => Ret (h, dp)
  | S match_len =>
      let* h := pglz_hist_add h source dp e mask in
      add_loop match_len h source (dp + 1) e mask
  end.

(** What the strategy comes to. *)
Record Params := {
  good_match : Z;
  good_drop : Z;
  result_max : Z;
  mask : Z;
  success_by : Z
}.

Definition compress_params (strategy : PGLZ_Strategy) (slen : Z) : Params :=
  let need_rate := if min_comp_rate strategy <? 0 then 0 else if 99 <? min_comp_rate strategy then 99 else min_comp_rate strategy in
  let hashsz :=
    if slen <? 128 then 512 else if slen <? 256 then 1024 else if slen <? 512 then 2048 else if slen <? 1024 then 4096 else 8192 in
  {| good_match := if PGLZ_MAX_MATCH <? match_size_good strategy then PGLZ_MAX_MATCH
                   else if match_size_good strategy <? 17 then 17 else match_size_good strategy;
     good_drop := if match_size_drop strategy <? 0 then 0 else if 100 <? match_size_drop strategy then 100 else match_size_drop strategy;
     result_max := if INT_MAX / 100 <? slen then s32 (slen / 100 * (100 - need_rate)) else s32 (slen * (100 - need_rate)) / 100;
     mask := hashsz - 1;
     success_by := first_success_by strategy |}.

(** The loop over the input; [None] is failure. *)
Fixpoint compress_loop (fuel : nat) (p : Params) (source : list Z) (dend : Z) (h : Hist) (o : Out) (dp : Z) (found_match : bool)
  : cres (option (Hist * Out)) :=
  match fuel with
  | O => Undef
  | S fuel =>
      if dp <? dend then
        if result_max p <=? o_bp o then Ret None
        else if negb found_match && (success_by p <=? o_bp o) then Ret None
        else
          let* found := pglz_find_match h source dp dend (good_match p) (good_drop p) (mask p) in
          match found with
          | Some (match_len, match_off) =>
              let* o := pglz_out_tag o match_len match_off in
              let* (h, dp) := add_loop (Z.to_nat match_len) h source dp dend (mask p) in
              compress_loop fuel p source dend h o dp true
          | None =>
              let* byte := deref (zget source dp) in
              let* o := pglz_out_literal o byte in
              let* h := pglz_hist_add h source dp dend (mask p) in
              compress_loop fuel p source dend h o (dp + 1) found_match
          end
      else Ret (Some (h, o))
  end.

(** [memset(hist_start, 0, hashsz * sizeof(int16))]. *)
Definition clear_start (hs : list Z) (hashsz : Z) : cres (list Z) :=
  if hashsz <=? zlen hs then Ret (replicate (Z.to_nat hashsz) 0 ++ drop (Z.to_nat hashsz) hs) else Undef.

(** The bytes written, or [None] for [-1]; [hs], [he] and [dest] are the work
    arrays and the output buffer as they were before. *)
Definition pglz_compress (hs : list Z) (he : list PGLZ_HistEntry) (source dest : list Z) (strategy : option PGLZ_Strategy)
  : cres (option (list Z)) :=
  let slen := zlen source in
  let strategy := default PGLZ_strategy_default strategy in
  if (match_size_good strategy <=? 0) || (slen <? min_input_size strategy) || (max_input_size strategy <? slen) then Ret None
  else
    let p := compress_params strategy slen in
    let* hs := clear_start hs (mask p + 1) in
    let h := {| hist_start := hs; hist_entries := he; hist_next := 1; hist_recycle := false |} in
    let o := {| o_dest := dest; o_bp := 0; o_ctrlp := None; o_ctrlb := 0; o_ctrl := 0 |} in
    let* done := compress_loop (S (length source)) p source slen h o 0 false in
    match done with
    | None => Ret None
    | Some (_, o) =>
        let* dest := store_ctrl o in
        Ret (if result_max p <=? o_bp o then None else Some (take (Z.to_nat (o_bp o)) dest))
    end.

(** ** Decompression *)

(** [while (len--) { *dp = dp[-off]; dp++; }]. *)
Fixpoint copy_loop (len : nat) (dest : list Z) (dp off : Z) : cres (list Z * Z) :=
  match len with
  | O => Ret (dest, dp)
  | S len =>
      let* b := deref (zget dest (dp - off)) in
      let* dest := deref (zset dest dp b) in
      copy_loop len dest (dp + 1) off
  end.

(** The loop over the eight items of a control byte. *)
Fixpoint item_loop (items : nat) (source : list Z) (ctrl sp : Z) (dest : list Z) (dp : Z) : cres (Z * list Z * Z) :=
  match items with
  | O => Ret (sp, dest, dp)
  | S items =>
      if sp <? zlen source then
        if Z.testbit ctrl 0 then
          let* t1 := deref (zget source sp) in
          let* t2 := deref (zget source (sp + 1)) in
          let len := Z.land t1 15 + 3 in
          let off := Z.lor (Z.shiftl (Z.land t1 240) 4) t2 in
          let sp := sp + 2 in
          let* (len, sp) :=
            if len =? 18 then let* t3 := deref (zget source sp) in Ret (len + t3, sp + 1) else Ret (len, sp) in
          if zlen dest <? dp + len then Ret (sp, dest, dp + len)
          else
            let* (dest, dp) := copy_loop (Z.to_nat len) dest dp off in
            item_loop items source (Z.shiftr ctrl 1) sp dest dp
        else if zlen dest <=? dp then Ret (sp, dest, dp)
        else
          let* b := deref (zget source sp) in
          let* dest := deref (zset dest dp b) in
          item_loop items source (Z.shiftr ctrl 1) (sp + 1) dest (dp + 1)
      else Ret (sp, dest, dp)
  end.

Fixpoint decompress_loop (fuel : nat) (source : list Z) (sp : Z) (dest : list Z) (dp : Z) : cres (Z * list Z * Z) :=
  match fuel with
  | O => Undef
  | S fuel =>
      if (sp <? zlen source) && (dp <? zlen dest) then
        let* ctrl := deref (zget source sp) in
        let* (sp, dest, dp) := item_loop 8 source ctrl (sp + 1) dest dp in
        decompress_loop fuel source sp dest dp
      else Ret (sp, dest, dp)
  end.

(** The contents of [dest], of [rawsize] bytes, or [None] for [-1]. *)
Definition pglz_decompress (source dest : list Z) : cres (option (list Z)) :=
  let* (sp, dest, dp) := decompress_loop (S (length source)) source 0 dest 0 in
  Ret (if (dp =? zlen dest) && (sp =? zlen source) then Some dest else None).
