(* ===== verification/PglzFormat.v ===== *)
(** The format of compressed data: items, each a literal byte or a reference to
    earlier output, in groups of up to eight behind a control byte; and what
    [pglz_decompress] makes of it. *)
From stdpp Require Import list.
From S2P Require Import Prelude Pglz.

Inductive Item := Lit (b : Z) | Tag (len off : Z).

Definition item_ok (it : Item) : Prop :=
  match it with
  | Lit b => is_u 8 b
  | Tag len off => 3 <= len <= 273 /\ 1 <= off <= 4095
  end.

Definition is_tag (it : Item) : bool := match it with Lit _ => false | Tag _ _ => true end.

Definition item_bytes (it : Item) : list Z :=
  match it with
  | Lit b => [b]
  | Tag len off =>
      if 17 <? len then [off / 256 * 16 + 15; off mod 256; len - 18] else [off / 256 * 16 + (len - 3); off mod 256]
  end.

(** Bit [k] says whether item [k] is a reference. *)
Fixpoint ctrl_byte (items : list Item) : Z :=
  match items with
  | [] => 0
  | it :: items => Z.b2z (is_tag it) + 2 * ctrl_byte items
  end.

Definition payload (items : list Item) : list Z := items ≫= item_bytes.
Definition group_bytes (items : list Item) : list Z := ctrl_byte items :: payload items.
Definition encode (groups : list (list Item)) : list Z := groups ≫= group_bytes.

(** What the items stand for, after [acc]. *)
Fixpoint copy_back (n : nat) (acc : list Z) (off : Z) : list Z :=
  match n with
  | O => acc
  | S n => copy_back n (acc ++ [default 0 (zget acc (zlen acc - off))]) off
  end.
Definition replay1 (acc : list Z) (it : Item) : list Z :=
  match it with
  | Lit b => acc ++ [b]
  | Tag len off => copy_back (Z.to_nat len) acc off
  end.
Definition replay (acc : list Z) (items : list Item) : list Z := foldl replay1 acc items.

(** References stay within what there is. *)
Fixpoint refs_ok (acc : list Z) (items : list Item) : Prop :=
  match items with
  | [] => True
  | it :: items => match it with Lit _ => True | Tag _ off => off <= zlen acc end /\ refs_ok (replay1 acc it) items
  end.

Lemma copy_back_app n acc off : exists l, copy_back n acc off = acc ++ l /\ length l = n.
Proof.
  revert acc. induction n as [|n IH]; intros acc; cbn; [exists []; by rewrite app_nil_r|].
  destruct (IH (acc ++ [default 0 (zget acc (zlen acc - off))])) as (l & -> & <-).
  eexists (_ :: l). by rewrite <- app_assoc.
Qed.

Lemma copy_back_len n acc off : zlen (copy_back n acc off) = zlen acc + Z.of_nat n.
Proof. destruct (copy_back_app n acc off) as (l & -> & <-). by rewrite zlen_app. Qed.

Lemma replay1_app acc it : exists l, replay1 acc it = acc ++ l.
Proof. destruct it; cbn; [by eexists|]. destruct (copy_back_app (Z.to_nat len) acc off) as (l & -> & _). by eexists. Qed.

Lemma replay_le acc items : zlen acc <= zlen (replay acc items).
Proof.
  unfold replay. revert acc. induction items as [|it items IH]; intros acc; cbn; [lia|].
  destruct (replay1_app acc it) as [l E]. specialize (IH (replay1 acc it)). rewrite E, zlen_app in IH at 1.
  pose proof (zlen_nonneg l). lia.
Qed.

(** The loop that copies from the output to the output. *)
Lemma copy_loop_spec n acc junk off : 1 <= off <= zlen acc -> Z.of_nat n <= zlen junk ->
  copy_loop n (acc ++ junk) (zlen acc) off = Ret (copy_back n acc off ++ drop n junk, zlen acc + Z.of_nat n).
Proof.
  revert acc junk. induction n as [|n IH]; intros acc junk Ho Hn; cbn [copy_loop copy_back].
  - rewrite drop_0. do 2 f_equal. lia.
  - destruct junk as [|x junk]; [unfold zlen in Hn; cbn in Hn; lia|]. rewrite zlen_cons in Hn.
    rewrite zget_app_l by lia. destruct (zget_is_Some acc (zlen acc - off)) as [b Hb]; [lia|]. rewrite Hb. cbn [deref cbind default from_option].
    rewrite zset_app_r. cbn [deref cbind]. specialize (IH (acc ++ [b]) junk). rewrite zlen_app in IH.
    change (zlen [b]) with 1 in IH. rewrite <- app_assoc in IH. cbn in IH. change (drop (S n) (x :: junk)) with (drop n junk).
    rewrite IH by lia. do 2 f_equal. lia.
Qed.

(** ** Tags *)

(** A decidable property of all numbers below a bound, by evaluation. *)
Lemma all_below (P : Z -> bool) n x : forallb P (seqZ 0 n) = true -> 0 <= x < n -> P x = true.
Proof. rewrite forallb_forall. intros Hall Hx. apply Hall, list_elem_of_In, elem_of_seqZ. lia. Qed.

Lemma tag_nibbles t : 0 <= t < 256 -> Z.land t 15 = t mod 16 /\ Z.shiftl (Z.land t 240) 4 = t / 16 * 256.
Proof.
  intros Ht.
  pose proof (all_below (fun t => (Z.land t 15 =? t mod 16) && (Z.shiftl (Z.land t 240) 4 =? t / 16 * 256)) 256 t) as Hall.
  specialize (Hall ltac:(vm_compute; reflexivity) Ht). apply andb_true_iff in Hall as [?%Z.eqb_eq ?%Z.eqb_eq]. done.
Qed.

Lemma off_nibbles off nib : 0 <= off < 4096 -> 0 <= nib < 16 ->
  u8 (Z.lor (Z.shiftr (Z.land off 3840) 4) nib) = off / 256 * 16 + nib /\ u8 (Z.land off 255) = off mod 256.
Proof.
  intros Ho Hn.
  assert (u8 (Z.lor (off / 256 * 16) nib) = off / 256 * 16 + nib) as E.
  { pose proof (all_below (fun hi => forallb (fun nib => u8 (Z.lor (hi * 16) nib) =? hi * 16 + nib) (seqZ 0 16)) 16 (off / 256)) as Hall.
    specialize (Hall ltac:(vm_compute; reflexivity) ltac:(Z.div_mod_to_equations; lia)). apply (all_below _ 16 nib) in Hall; [|done].
    by apply Z.eqb_eq in Hall. }
  pose proof (all_below (fun off => (Z.shiftr (Z.land off 3840) 4 =? off / 256 * 16) && (u8 (Z.land off 255) =? off mod 256)) 4096 off) as Hall.
  specialize (Hall ltac:(vm_compute; reflexivity) Ho). apply andb_true_iff in Hall as [E1%Z.eqb_eq E2%Z.eqb_eq].
  by rewrite E1, E2, E.
Qed.

Lemma lor_byte hi lo : 0 <= hi -> 0 <= lo < 256 -> Z.lor (hi * 256) lo = hi * 256 + lo.
Proof.
  intros Hh Hl. apply Z.bits_inj'. intros i Hi. replace (hi * 256 + lo) with (lo + 2 ^ 8 * hi) by lia.
  rewrite testbit_split by (unfold is_u; lia). replace (hi * 256) with (Z.shiftl hi 8) by (rewrite Z.shiftl_mul_pow2 by lia; done).
  rewrite Z.lor_spec, Z.shiftl_spec by done. destruct (Z.ltb_spec i 8).
  - rewrite (Z.testbit_neg_r hi) by lia. done.
  - rewrite (is_u_testbit 8 lo i) by (unfold is_u; lia). apply orb_false_r.
Qed.

(** ** Decoding *)

Lemma item_bytes_len it : item_ok it -> 1 <= zlen (item_bytes it) <= 3 /\ Forall (is_u 8) (item_bytes it).
Proof.
  unfold is_u. destruct it as [b|len off]; cbn [item_ok item_bytes].
  - intros Hb. unfold zlen. cbn. split; [lia|]. by apply Forall_cons_2; [|apply Forall_nil_2].
  - intros [Hl Ho]. change (2 ^ 8) with 256. destruct (Z.ltb_spec 17 len); unfold zlen; cbn;
      (split; [lia|]); repeat apply Forall_cons_2; try apply Forall_nil_2; Z.div_mod_to_equations; lia.
Qed.

Lemma ctrl_byte_bit items : Z.testbit (ctrl_byte items) 0 = match items with [] => false | it :: _ => is_tag it end.
Proof. destruct items as [|it items]; [done|]. cbn [ctrl_byte]. rewrite Z.add_comm, Z.testbit_0_r. by destruct (is_tag it). Qed.

Lemma ctrl_byte_shift it items : Z.shiftr (ctrl_byte (it :: items)) 1 = ctrl_byte items.
Proof.
  cbn [ctrl_byte]. rewrite Z.shiftr_div_pow2 by lia. change (2 ^ 1) with 2.
  destruct (is_tag it); cbn [Z.b2z]; Z.div_mod_to_equations; lia.
Qed.

(** The rest of the buffer after some output. *)
Lemma drop_more {A} (a b : nat) (l : list A) : (a <= b)%nat -> drop (b - a) (drop a l) = drop b l.
Proof. intros Hab. rewrite drop_drop. f_equal. lia. Qed.

Definition rest_of (acc acc' junk : list Z) : list Z := drop (length acc' - length acc) junk.

Lemma rest_step acc acc1 acc2 junk l l' : acc1 = acc ++ l -> acc2 = acc1 ++ l' ->
  rest_of acc1 acc2 (rest_of acc acc1 junk) = rest_of acc acc2 junk.
Proof. intros -> ->. unfold rest_of. rewrite !length_app, drop_drop. f_equal. lia. Qed.

Lemma replay_app acc items : exists l, replay acc items = acc ++ l.
Proof.
  unfold replay. revert acc. induction items as [|it items IH]; intros acc; cbn; [exists []; by rewrite app_nil_r|].
  destruct (replay1_app acc it) as [l1 E1]. destruct (IH (replay1 acc it)) as [l2 E2]. rewrite E2, E1, <- app_assoc. eauto.
Qed.

(** Reading a tag. *)
Lemma read_tag len off pre post : 3 <= len <= 273 -> 1 <= off <= 4095 ->
  let source := pre ++ item_bytes (Tag len off) ++ post in
  exists t1 t2, zget source (zlen pre) = Some t1 /\ zget source (zlen pre + 1) = Some t2 /\
    Z.lor (Z.shiftl (Z.land t1 240) 4) t2 = off /\
    (if Z.land t1 15 + 3 =? 18
     then let* t3 := deref (zget source (zlen pre + 2)) in Ret (Z.land t1 15 + 3 + t3, zlen pre + 2 + 1)
     else Ret (Z.land t1 15 + 3, zlen pre + 2)) = Ret (len, zlen pre + zlen (item_bytes (Tag len off))).
Proof.
  intros Hl Ho source. set (nib := if 17 <? len then 15 else len - 3).
  assert (0 <= nib < 16) as Hn by (unfold nib; destruct (Z.ltb_spec 17 len); lia).
  set (t1 := off / 256 * 16 + nib). set (t2 := off mod 256).
  assert (0 <= t1 < 256 /\ 0 <= t2 < 256 /\ t1 mod 16 = nib /\ t1 / 16 = off / 256 /\ off = off / 256 * 256 + t2) as (H1 & H2 & E1 & E2 & E3)
    by (unfold t1, t2; Z.div_mod_to_equations; lia).
  destruct (tag_nibbles t1 H1) as [E4 E5].
  assert (exists l, item_bytes (Tag len off) = t1 :: t2 :: l /\ l = if 17 <? len then [len - 18] else []) as (l & Eb & El).
  { unfold t1, nib, t2. cbn [item_bytes]. destruct (17 <? len); by eexists. }
  exists t1, t2. rewrite E4, E5, E1, E2, lor_byte by (lia || Z.div_mod_to_equations; lia).
  assert (forall k, 0 <= k < zlen (item_bytes (Tag len off)) -> zget source (zlen pre + k) = zget (item_bytes (Tag len off)) k) as Hz
    by (intros; by apply zget_mid).
  rewrite Eb in *. pose proof (zlen_nonneg l) as Hll.
  assert (zget source (zlen pre) = Some t1) as G0.
  { rewrite <- (Z.add_0_r (zlen pre)), Hz by (rewrite !zlen_cons; lia). done. }
  assert (zget source (zlen pre + 1) = Some t2) as G1 by (rewrite Hz by (rewrite !zlen_cons; lia); done).
  split_and!; [done|done|lia|]. unfold nib. subst l. destruct (Z.ltb_spec 17 len) as [Hgt|Hle].
  - change (15 + 3 =? 18) with true. cbn iota. rewrite Hz by (unfold zlen; cbn; lia). change (zget [t1; t2; len - 18] 2) with (Some (len - 18)).
    cbn [deref cbind]. unfold zlen. cbn [length]. do 2 f_equal; lia.
  - destruct (Z.eqb_spec (len - 3 + 3) 18); [lia|]. unfold zlen. cbn [length]. do 2 f_equal; lia.
Qed.

(** One item. *)
Lemma item_step n it pre post acc junk ctrl : item_ok it -> Z.testbit ctrl 0 = is_tag it ->
  match it with Lit _ => True | Tag _ off => off <= zlen acc end -> zlen (replay1 acc it) <= zlen acc + zlen junk ->
  item_loop (S n) (pre ++ item_bytes it ++ post) ctrl (zlen pre) (acc ++ junk) (zlen acc) =
  item_loop n (pre ++ item_bytes it ++ post) (Z.shiftr ctrl 1) (zlen pre + zlen (item_bytes it))
    (replay1 acc it ++ rest_of acc (replay1 acc it) junk) (zlen (replay1 acc it)).
Proof.
  intros Hok Hc Hr Hlen. destruct (item_bytes_len it Hok) as [Hb _].
  cbn [item_loop]. pose proof (zlen_nonneg pre) as Hp. pose proof (zlen_nonneg post) as Hpo.
  destruct (Z.ltb_spec (zlen pre) (zlen (pre ++ item_bytes it ++ post))) as [_|Hbad]; [|rewrite !zlen_app in Hbad; lia].
  rewrite Hc. destruct it as [b|len off]; cbn [is_tag item_ok] in *.
  - cbn [replay1] in Hlen. rewrite zlen_app in Hlen. change (zlen [b]) with 1 in Hlen.
    rewrite zlen_app. destruct (Z.leb_spec (zlen acc + zlen junk) (zlen acc)); [lia|].
    replace (zlen pre) with (zlen pre + 0) at 1 by lia. rewrite zget_mid by (unfold zlen; cbn; lia). cbn [zget item_bytes].
    change (zget [b] 0) with (Some b). cbn [deref cbind].
    destruct junk as [|x junk]; [unfold zlen in *; cbn in *; lia|]. rewrite zset_app_r. cbn [deref cbind replay1].
    unfold rest_of. rewrite length_app. cbn [length]. replace (length acc + 1 - length acc)%nat with 1%nat by lia.
    cbn [drop]. rewrite zlen_app, <- app_assoc. done.
  - destruct Hok as [Hl Ho]. cbn [replay1] in Hlen |- *. rewrite copy_back_len in Hlen |- *.
    destruct (read_tag len off pre post Hl Ho) as (t1 & t2 & G1 & G2 & Eoff & Elen). rewrite G1, G2. cbn [deref cbind].
    rewrite Elen, Eoff. cbn [cbind]. rewrite zlen_app.
    destruct (Z.ltb_spec (zlen acc + zlen junk) (zlen acc + len)); [lia|]. rewrite copy_loop_spec by lia. cbn [cbind].
    unfold rest_of. destruct (copy_back_app (Z.to_nat len) acc off) as (l & -> & El). rewrite length_app, El.
    by replace (length acc + Z.to_nat len - length acc)%nat with (Z.to_nat len) by lia.
Qed.

Lemma item_loop_spec items : forall n pre post acc junk,
  Forall item_ok items -> (length items <= n)%nat -> length items = n \/ post = [] -> refs_ok acc items ->
  zlen (replay acc items) <= zlen acc + zlen junk ->
  item_loop n (pre ++ payload items ++ post) (ctrl_byte items) (zlen pre) (acc ++ junk) (zlen acc) =
  Ret (zlen pre + zlen (payload items), replay acc items ++ rest_of acc (replay acc items) junk, zlen (replay acc items)).
Proof.
  induction items as [|it items IH]; intros n pre post acc junk Hok Hn Hend Hr Hlen.
  - cbn [payload replay foldl]. unfold rest_of. rewrite Nat.sub_diag, drop_0, app_nil_l. change (zlen (payload [])) with 0.
    rewrite Z.add_0_r. destruct n as [|n]; [done|]. destruct Hend as [?| ->]; [done|]. cbn [item_loop]. rewrite app_nil_r.
    destruct (Z.ltb_spec (zlen pre) (zlen pre)); [lia|done].
  - destruct n as [|n]; [cbn in Hn; lia|]. apply Forall_cons in Hok as [Hit Hok]. cbn in Hr. destruct Hr as [Hr1 Hr].
    change (replay acc (it :: items)) with (replay (replay1 acc it) items) in *.
    pose proof (replay_le (replay1 acc it) items) as Hle. destruct (replay1_app acc it) as [l El].
    change (payload (it :: items)) with (item_bytes it ++ payload items). rewrite <- app_assoc.
    rewrite item_step; [|done|apply ctrl_byte_bit|done|lia]. rewrite ctrl_byte_shift.
    specialize (IH n (pre ++ item_bytes it) post (replay1 acc it) (rest_of acc (replay1 acc it) junk)).
    rewrite zlen_app, <- app_assoc in IH. rewrite IH; [|done|cbn in Hn; lia|cbn in Hend; destruct Hend; [left; lia|by right]|done|].
    + destruct (replay_app (replay1 acc it) items) as [l' El']. rewrite (rest_step acc _ _ junk l l') by done.
      rewrite (zlen_app (item_bytes it)). do 3 f_equal. lia.
    + rewrite El in Hlen |- *. unfold rest_of. unfold zlen in *. rewrite length_app in *. rewrite length_drop. lia.
Qed.


(** All groups but the last are full. *)
Fixpoint groups_ok (groups : list (list Item)) : Prop :=
  match groups with
  | [] => True
  | g :: groups =>
      g <> [] /\ (length g <= 8)%nat /\ (length g = 8%nat \/ groups = []) /\ Forall item_ok g /\ groups_ok groups
  end.

Lemma replay1_lt acc it : item_ok it -> zlen acc < zlen (replay1 acc it).
Proof. destruct it; cbn; intros Hok; [rewrite zlen_app; unfold zlen; cbn; lia|rewrite copy_back_len; lia]. Qed.

Lemma refs_ok_app acc items items' : refs_ok acc (items ++ items') <-> refs_ok acc items /\ refs_ok (replay acc items) items'.
Proof.
  revert acc. induction items as [|it items IH]; intros acc; cbn; [tauto|]. rewrite IH. tauto.
Qed.

Lemma rest_of_len acc acc' junk : zlen acc <= zlen acc' <= zlen acc + zlen junk ->
  zlen (rest_of acc acc' junk) = zlen acc + zlen junk - zlen acc'.
Proof. unfold rest_of, zlen. rewrite length_drop. lia. Qed.

Lemma group_replay acc g groups : replay acc (concat (g :: groups)) = replay (replay acc g) (concat groups).
Proof. unfold replay. cbn [concat]. apply foldl_app. Qed.

Lemma replay_lt acc g : Forall item_ok g -> g <> [] -> zlen acc < zlen (replay acc g).
Proof.
  intros Hit Hne. destruct g as [|it g]; [done|]. apply Forall_cons in Hit as [Hit _]. pose proof (replay1_lt acc it Hit).
  pose proof (replay_le (replay1 acc it) g). change (replay acc (it :: g)) with (replay (replay1 acc it) g). lia.
Qed.

(** A round of the outer loop. *)
Lemma group_step fuel pre g groups acc junk : 0 < zlen junk ->
  decompress_loop (S fuel) (pre ++ encode (g :: groups)) (zlen pre) (acc ++ junk) (zlen acc) =
  (let source := (pre ++ [ctrl_byte g]) ++ payload g ++ encode groups in
   let* (sp, dest, dp) := item_loop 8 source (ctrl_byte g) (zlen (pre ++ [ctrl_byte g])) (acc ++ junk) (zlen acc) in
   decompress_loop fuel source sp dest dp).
Proof.
  intros Hj. change (encode (g :: groups)) with ((ctrl_byte g :: payload g) ++ encode groups). cbn [decompress_loop].
  pose proof (zlen_nonneg (payload g)). pose proof (zlen_nonneg (encode groups)).
  destruct (Z.ltb_spec (zlen pre) (zlen (pre ++ (ctrl_byte g :: payload g) ++ encode groups))) as [_|Hbad];
    [|rewrite !zlen_app, zlen_cons in Hbad; lia].
  destruct (Z.ltb_spec (zlen acc) (zlen (acc ++ junk))) as [_|Hbad]; [|rewrite zlen_app in Hbad; lia]. cbn [andb].
  assert (zget (pre ++ (ctrl_byte g :: payload g) ++ encode groups) (zlen pre) = Some (ctrl_byte g)) as ->.
  { rewrite <- (Z.add_0_r (zlen pre)). rewrite zget_mid by (rewrite zlen_cons; lia). done. }
  cbn [deref cbind]. cbn zeta. rewrite zlen_app, <- app_assoc. done.
Qed.

Lemma decompress_loop_spec groups : forall fuel pre acc junk,
  groups_ok groups -> refs_ok acc (concat groups) -> zlen (replay acc (concat groups)) <= zlen acc + zlen junk ->
  (length groups < fuel)%nat ->
  decompress_loop fuel (pre ++ encode groups) (zlen pre) (acc ++ junk) (zlen acc) =
  Ret (zlen pre + zlen (encode groups), replay acc (concat groups) ++ rest_of acc (replay acc (concat groups)) junk,
       zlen (replay acc (concat groups))).
Proof.
  induction groups as [|g groups IH]; intros fuel pre acc junk Hok Hr Hlen Hf.
  - destruct fuel as [|fuel]; [cbn in Hf; lia|]. cbn [decompress_loop encode mbind list_bind concat replay foldl] in *.
    rewrite app_nil_r. destruct (Z.ltb_spec (zlen pre) (zlen pre)); [lia|]. cbn [andb]. unfold rest_of. rewrite Nat.sub_diag, drop_0.
    change (zlen (@nil Z)) with 0. by rewrite Z.add_0_r.
  - destruct fuel as [|fuel]; [cbn in Hf; lia|]. destruct Hok as (Hne & Hg8 & Hfull & Hit & Hok).
    rewrite group_replay in *. cbn [concat] in Hr. rewrite refs_ok_app in Hr. destruct Hr as [Hr1 Hr2].
    pose proof (replay_le (replay acc g) (concat groups)) as Hle. pose proof (replay_lt acc g Hit Hne) as Hlt.
    rewrite group_step by (done || lia). cbn zeta. rewrite item_loop_spec; [|done|done| |done|lia].
    2:{ destruct Hfull as [?| ->]; [by left|by right]. }
    cbn [cbind]. specialize (IH fuel ((pre ++ [ctrl_byte g]) ++ payload g) (replay acc g) (rest_of acc (replay acc g) junk) Hok Hr2).
    rewrite zlen_app, <- app_assoc, rest_of_len in IH by lia. rewrite IH; [|lia|cbn in Hf; lia].
    destruct (replay_app acc g) as [l El]. destruct (replay_app (replay acc g) (concat groups)) as [l' El'].
    rewrite (rest_step acc _ _ junk l l') by done.
    change (encode (g :: groups)) with ((ctrl_byte g :: payload g) ++ encode groups).
    rewrite (zlen_app (ctrl_byte g :: payload g)), zlen_cons, zlen_app. change (zlen [ctrl_byte g]) with 1. do 3 f_equal. lia.
Qed.

(** ** A buffer that is too small *)

Lemma item_loop_over items : forall n pre post acc junk,
  Forall item_ok items -> (length items <= n)%nat -> refs_ok acc items -> zlen acc + zlen junk < zlen (replay acc items) ->
  exists sp dest dp, item_loop n (pre ++ payload items ++ post) (ctrl_byte items) (zlen pre) (acc ++ junk) (zlen acc) = Ret (sp, dest, dp) /\
    zlen dest = zlen acc + zlen junk /\
    (zlen dest < dp \/ dp = zlen dest /\ sp < zlen (pre ++ payload items ++ post)).
Proof.
  induction items as [|it items IH]; intros n pre post acc junk Hok Hn Hr Hlen.
  - cbn in Hlen. pose proof (zlen_nonneg junk). lia.
  - destruct n as [|n]; [cbn in Hn; lia|]. apply Forall_cons in Hok as [Hit Hok]. cbn in Hr. destruct Hr as [Hr1 Hr].
    change (replay acc (it :: items)) with (replay (replay1 acc it) items) in *.
    change (payload (it :: items)) with (item_bytes it ++ payload items). rewrite <- app_assoc.
    destruct (Z.le_gt_cases (zlen (replay1 acc it)) (zlen acc + zlen junk)) as [Hfit|Hbig].
    + rewrite item_step; [|done|apply ctrl_byte_bit|done|done]. rewrite ctrl_byte_shift.
      destruct (replay1_app acc it) as [l El]. assert (zlen acc <= zlen (replay1 acc it)) as Hle by (rewrite El, zlen_app; pose proof (zlen_nonneg l); lia).
      specialize (IH n (pre ++ item_bytes it) post (replay1 acc it) (rest_of acc (replay1 acc it) junk) Hok ltac:(cbn in Hn; lia) Hr).
      rewrite rest_of_len in IH by lia. destruct IH as (sp & dest & dp & E & Hd & Hend); [lia|].
      rewrite zlen_app, <- app_assoc in E. rewrite <- app_assoc in Hend. rewrite E. exists sp, dest, dp. split; [done|]. split; [lia|done].
    + cbn [item_loop]. destruct (item_bytes_len it Hit) as [Hb _]. pose proof (zlen_nonneg (payload items)). pose proof (zlen_nonneg post).
      destruct (Z.ltb_spec (zlen pre) (zlen (pre ++ item_bytes it ++ payload items ++ post))) as [Hs|Hbad]; [|rewrite !zlen_app in Hbad; lia].
      rewrite ctrl_byte_bit. destruct it as [b|len off]; cbn [is_tag item_ok replay1] in *.
      * rewrite zlen_app in Hbig. change (zlen [b]) with 1 in Hbig. pose proof (zlen_nonneg junk). rewrite zlen_app.
        destruct (Z.leb_spec (zlen acc + zlen junk) (zlen acc)); [|lia]. eexists _, _, _. split; [done|]. rewrite zlen_app. split; [done|]. right. split; [lia|done].
      * destruct Hit as [Hl Ho]. rewrite copy_back_len in Hbig.
        destruct (read_tag len off pre (payload items ++ post) Hl Ho) as (t1 & t2 & G1 & G2 & Eoff & Elen). rewrite G1, G2. cbn [deref cbind].
        rewrite Elen. cbn [cbind]. rewrite zlen_app. destruct (Z.ltb_spec (zlen acc + zlen junk) (zlen acc + len)); [|lia].
        eexists _, _, _. split; [done|]. rewrite zlen_app. split; [done|]. left. lia.
Qed.

Lemma decompress_stop fuel source sp dest dp : (0 < fuel)%nat -> zlen dest <= dp ->
  decompress_loop fuel source sp dest dp = Ret (sp, dest, dp).
Proof.
  intros Hf Hd. destruct fuel as [|fuel]; [lia|]. cbn [decompress_loop]. destruct (Z.ltb_spec dp (zlen dest)); [lia|]. by rewrite andb_false_r.
Qed.

Lemma decompress_loop_over groups : forall fuel pre acc junk,
  groups_ok groups -> refs_ok acc (concat groups) -> zlen acc + zlen junk < zlen (replay acc (concat groups)) ->
  (length groups < fuel)%nat ->
  exists sp dest dp, decompress_loop fuel (pre ++ encode groups) (zlen pre) (acc ++ junk) (zlen acc) = Ret (sp, dest, dp) /\
    (zlen dest < dp \/ dp = zlen dest /\ sp < zlen (pre ++ encode groups)).
Proof.
  induction groups as [|g groups IH]; intros fuel pre acc junk Hok Hr Hlen Hf.
  - cbn in Hlen. pose proof (zlen_nonneg junk). lia.
  - destruct fuel as [|fuel]; [cbn in Hf; lia|]. destruct Hok as (Hne & Hg8 & Hfull & Hit & Hok). pose proof (zlen_nonneg junk).
    rewrite group_replay in *. cbn [concat] in Hr. rewrite refs_ok_app in Hr. destruct Hr as [Hr1 Hr2].
    change (encode (g :: groups)) with ((ctrl_byte g :: payload g) ++ encode groups).
    pose proof (zlen_nonneg (payload g)). pose proof (zlen_nonneg (encode groups)).
    destruct (Z.eq_dec (zlen junk) 0) as [Hz|Hz].
    { rewrite decompress_stop by (lia || rewrite zlen_app; lia). eexists _, _, _. split; [done|]. right. rewrite !zlen_app, zlen_cons. lia. }
    change ((ctrl_byte g :: payload g) ++ encode groups) with (encode (g :: groups)).
    rewrite group_step by (done || lia). cbn zeta.
    destruct (Z.le_gt_cases (zlen (replay acc g)) (zlen acc + zlen junk)) as [Hfit|Hbig].
    + pose proof (replay_le acc g) as Hle. rewrite item_loop_spec; [|done|done| |done|lia].
      2:{ destruct Hfull as [?| ->]; [by left|by right]. }
      cbn [cbind]. specialize (IH fuel ((pre ++ [ctrl_byte g]) ++ payload g) (replay acc g) (rest_of acc (replay acc g) junk) Hok Hr2).
      rewrite rest_of_len in IH by lia. destruct IH as (sp & dest & dp & E & Hend); [lia|cbn in Hf; lia|].
      rewrite zlen_app, <- !app_assoc in E. rewrite <- !app_assoc in Hend. exists sp, dest, dp. split; [|done].
      rewrite zlen_app in E. rewrite <- app_assoc, zlen_app. done.
    + destruct (item_loop_over g 8 (pre ++ [ctrl_byte g]) (encode groups) acc junk Hit Hg8 Hr1 ltac:(lia)) as (sp & dest & dp & E & Hd & Hend).
      rewrite E. cbn [cbind]. rewrite decompress_stop by (cbn in Hf; lia). exists sp, dest, dp. split; [done|].
      rewrite <- app_assoc in Hend. done.
Qed.

Lemma encode_len groups : (length groups <= length (encode groups))%nat.
Proof.
  induction groups as [|g groups IH]; [done|]. change (encode (g :: groups)) with (group_bytes g ++ encode groups).
  rewrite length_app. cbn. lia.
Qed.

(** Decompressing the encoding of items gives what they stand for, if the buffer
    has that size, and fails otherwise. *)
Lemma decompress_encode groups dest : groups_ok groups -> refs_ok [] (concat groups) ->
  pglz_decompress (encode groups) dest =
  Ret (if zlen dest =? zlen (replay [] (concat groups)) then Some (replay [] (concat groups)) else None).
Proof.
  intros Hok Hr. unfold pglz_decompress. pose proof (encode_len groups) as Hl.
  destruct (Z.le_gt_cases (zlen (replay [] (concat groups))) (zlen dest)) as [Hle|Hgt].
  - pose proof (decompress_loop_spec groups (S (length (encode groups))) [] [] dest Hok Hr) as Hd.
    change (zlen (@nil Z)) with 0 in Hd. rewrite !app_nil_l in Hd. rewrite Hd by lia. cbn [cbind].
    rewrite Z.add_0_l, Z.eqb_refl, andb_true_r. set (r := replay [] (concat groups)) in *.
    assert (zlen (r ++ rest_of [] r dest) = zlen dest) as ->.
    { rewrite zlen_app, rest_of_len by (change (zlen (@nil Z)) with 0; pose proof (zlen_nonneg r); lia). change (zlen (@nil Z)) with 0. lia. }
    destruct (Z.eqb_spec (zlen r) (zlen dest)) as [E|E], (Z.eqb_spec (zlen dest) (zlen r)); try congruence. do 2 f_equal.
    unfold rest_of. rewrite drop_ge by (unfold zlen in E; cbn [length]; lia). apply app_nil_r.
  - destruct (decompress_loop_over groups (S (length (encode groups))) [] [] dest Hok Hr) as (sp & d & dp & E & Hend);
      [change (zlen (@nil Z)) with 0; lia|lia|].
    change (zlen (@nil Z)) with 0 in E. rewrite !app_nil_l in E. rewrite E. cbn [cbind]. rewrite app_nil_l in Hend.
    destruct (Z.eqb_spec (zlen dest) (zlen (replay [] (concat groups)))); [lia|].
    destruct (Z.eqb_spec dp (zlen d)), (Z.eqb_spec sp (zlen (encode groups))); cbn [andb]; try done. lia.
Qed.
