(* ===== verification/PglzHistory.v ===== *)
(** The history of [pglz_compress]: the last 4096 input positions, in a doubly
    linked list per hash value with the latest first. *)
From stdpp Require Import list.
From S2P Require Import Prelude Pglz PglzFormat.

Lemma land_le a b : 0 <= a -> Z.land a b <= a.
Proof.
  intros Ha. assert (a - Z.land a b = Z.ldiff a (Z.land a b)) as E.
  { apply Z.sub_nocarry_ldiff. apply Z.bits_inj'. intros i Hi. rewrite Z.ldiff_spec, Z.land_spec, Z.bits_0.
    by destruct (Z.testbit a i), (Z.testbit b i). }
  assert (0 <= Z.ldiff a (Z.land a b)) by (apply Z.ldiff_nonneg; by left). lia.
Qed.

Section History.
Context (source : list Z) (mask : Z) (Hmask : 0 <= mask < PGLZ_MAX_HISTORY_LISTS).

(** The list a position belongs to. *)
Definition hash (q : Z) : Z := match pglz_hist_idx source q (zlen source) mask with Ret h => h | _ => 0 end.

Lemma hist_idx_spec q : 0 <= q < zlen source -> pglz_hist_idx source q (zlen source) mask = Ret (hash q) /\ 0 <= hash q <= mask.
Proof using Hmask.
  intros Hq. assert (forall x, 0 <= Z.land x mask <= mask) as Hl.
  { intros x. rewrite Z.land_comm. split; [apply Z.land_nonneg; left; lia|]. apply land_le. lia. }
  unfold hash, pglz_hist_idx. destruct (zget_is_Some source q) as [c0 ->]; [lia|]. cbn [deref cbind].
  destruct (Z.ltb_spec (zlen source - q) 4); [split; [done|apply Hl]|].
  destruct (zget_is_Some source (q + 1)) as [c1 ->]; [lia|]. destruct (zget_is_Some source (q + 2)) as [c2 ->]; [lia|].
  destruct (zget_is_Some source (q + 3)) as [c3 ->]; [lia|]. split; [done|apply Hl].
Qed.

(** The entry of a position. *)
Definition slot (q : Z) : Z := 1 + q mod PGLZ_HISTORY_SIZE.

Lemma slot_range q : 1 <= slot q <= 4096.
Proof. unfold slot, PGLZ_HISTORY_SIZE. pose proof (Z.mod_pos_bound q 4096). lia. Qed.

Lemma slot_inj q r : slot q = slot r -> Z.abs (q - r) < 4096 -> q = r.
Proof. unfold slot, PGLZ_HISTORY_SIZE. intros E Hd. Z.div_mod_to_equations. lia. Qed.

(** [v] is the latest position with hash value [hh] from [lo] on and before [b], or 0. *)
Definition last_before (lo b hh v : Z) : Prop :=
  (v = 0 /\ forall r, lo <= r < b -> hash r <> hh) \/
  (exists q, v = slot q /\ lo <= q < b /\ hash q = hh /\ forall r, q < r < b -> hash r <> hh).

(** [o] is the first position with that hash value after [a] and before [b]. *)
Definition first_after (a b hh : Z) (o : option Z) : Prop :=
  (o = None /\ forall r, a < r < b -> hash r <> hh) \/
  (exists q, o = Some (slot q) /\ a < q < b /\ hash q = hh /\ forall r, a < r < q -> hash r <> hh).

(** The entry of position [q], while positions [lo .. b - 1] are in the history. *)
Definition entry_ok (lo b q : Z) (e : PGLZ_HistEntry) : Prop :=
  h_pos e = q /\ h_hindex e = hash q /\ (exists v, h_next e = Some v /\ last_before lo q (hash q) v) /\
  first_after q b (hash q) (h_prev e).

Record hist_at (hs : list Z) (he : list PGLZ_HistEntry) (lo b : Z) : Prop := {
  ha_window : 0 <= lo <= b /\ b - lo <= 4096 /\ b <= zlen source;
  ha_starts : mask < zlen hs;
  ha_size : zlen he = 4097;
  ha_start : forall hh, 0 <= hh <= mask -> exists v, zget hs hh = Some v /\ last_before lo b hh v;
  ha_entry : forall q, lo <= q < b -> exists e, zget he (slot q) = Some e /\ entry_ok lo b q e
}.

(** ** The oldest position leaves *)

Lemma last_before_lo lo b hh v : last_before lo b hh v ->
  hash lo <> hh \/ (exists r, lo < r < b /\ hash r = hh) -> last_before (lo + 1) b hh v.
Proof using.
  intros [[-> Hn]|(q & -> & Hq & Eq & Hm)] Hex.
  - left. split; [done|]. intros r Hr. apply Hn. lia.
  - right. exists q. split_and!; try done; try lia. destruct Hex as [Hne|(r & Hr & Er)].
    + assert (q <> lo) by congruence. lia.
    + destruct (Z.eq_dec q lo) as [->|]; [|lia]. by destruct (Hm r).
Qed.

Lemma last_before_self lo hh v : last_before lo lo hh v -> v = 0.
Proof using. intros [[-> _]|(q & _ & Hq & _)]; [done|lia]. Qed.

Lemma delink_spec hs he lo b : hist_at hs he lo b -> lo < b ->
  exists hs' he', hist_delink hs he (slot lo) = Ret (hs', he') /\ hist_at hs' he' (lo + 1) b /\ zlen hs' = zlen hs.
Proof using Hmask.
  intros [Hw Hs Hsz Hst Hen] Hlt. destruct (Hen lo) as (my & Hmy & Epos & Ehx & (v & Env & Hv) & Hprev); [lia|].
  apply last_before_self in Hv as ->. pose proof (hist_idx_spec lo ltac:(lia)) as [_ Hhash].
  pose proof (slot_range lo) as Hsl. destruct (zget_is_Some he 0) as [e0 He0]; [lia|].
  unfold hist_delink. rewrite Hmy. cbn [deref cbind]. rewrite Env.
  destruct Hprev as [[Ep Hno]|(q2 & Ep & Hq2 & Eh2 & Hno)]; rewrite Ep.
  - cbn [deref cbind]. rewrite Ehx. destruct (zset_is_Some hs (hash lo) (s16 0)) as [hs' Ehs]; [lia|]. rewrite Ehs. cbn [deref cbind].
    rewrite He0. cbn [deref cbind]. destruct (zset_is_Some he 0 (set_prev e0 None)) as [he' Ehe]; [lia|]. rewrite Ehe. cbn [deref cbind].
    exists hs', he'. split; [done|]. split; [|by eapply zset_len]. constructor; [lia|by rewrite (zset_len _ _ _ _ Ehs)|by rewrite (zset_len _ _ _ _ Ehe)| |].
    + intros hh Hhh. rewrite (zget_zset _ _ _ _ _ Ehs). destruct (decide (hh = hash lo)) as [->|Hne].
      * exists 0. split; [done|]. left. split; [done|]. intros r Hr. apply Hno. lia.
      * destruct (Hst hh Hhh) as (v & Ev & Hv). exists v. split; [done|]. apply last_before_lo; [done|]. left. congruence.
    + intros q Hq. destruct (Hen q) as (e & He & E1 & E2 & (v & E3 & Hv) & E4); [lia|]. exists e.
      rewrite (zget_zset _ _ _ _ _ Ehe). rewrite decide_False by (pose proof (slot_range q); lia). split; [done|].
      split_and!; [done|done| |done]. exists v. split; [done|]. apply last_before_lo; [done|]. left. intros E. by apply (Hno q); [lia|].
  - pose proof (slot_range q2) as Hs2. assert (slot q2 <> slot lo) as Hns by (intros E; apply slot_inj in E; lia).
    destruct (Hen q2) as (pe & Hpe & E1 & E2 & (v & E3 & Hv) & E4); [lia|]. rewrite Hpe. cbn [deref cbind].
    destruct (zset_is_Some he (slot q2) (set_next pe (Some 0))) as [he1 Ehe1]; [lia|]. rewrite Ehe1. cbn [deref cbind].
    rewrite (zget_zset _ _ _ _ _ Ehe1), decide_False by lia. rewrite He0. cbn [deref cbind].
    destruct (zset_is_Some he1 0 (set_prev e0 (Some (slot q2)))) as [he2 Ehe2]; [rewrite (zset_len _ _ _ _ Ehe1); lia|].
    rewrite Ehe2. cbn [deref cbind]. exists hs, he2. split; [done|]. split; [|done].
    constructor; [lia|done|by rewrite (zset_len _ _ _ _ Ehe2), (zset_len _ _ _ _ Ehe1)| |].
    + intros hh Hhh. destruct (Hst hh Hhh) as (v' & Ev & Hv'). exists v'. split; [done|]. apply last_before_lo; [done|].
      destruct (Z.eq_dec (hash lo) hh) as [<-|]; [right; exists q2; split; [lia|done]|by left].
    + intros q Hq. rewrite (zget_zset _ _ _ _ _ Ehe2), decide_False by (pose proof (slot_range q); lia).
      rewrite (zget_zset _ _ _ _ _ Ehe1). destruct (decide (slot q = slot q2)) as [E|Hne].
      * apply slot_inj in E as ->; [|lia]. eexists. split; [done|]. split_and!; [done|done| |done]. exists 0. split; [done|].
        left. split; [done|]. intros r Hr. rewrite Eh2. apply Hno. lia.
      * destruct (Hen q) as (e & He & F1 & F2 & (v' & F3 & Hv') & F4); [lia|]. exists e. split; [done|].
        split_and!; [done|done| |done]. exists v'. split; [done|]. apply last_before_lo; [done|].
        destruct (Z.eq_dec (hash lo) (hash q)) as [E|]; [right|by left]. exists q2. split; [|congruence].
        destruct (Z.lt_trichotomy q q2) as [Hc|[Hc|Hc]]; [|congruence|lia]. destruct (Hno q); [lia|congruence].
Qed.

(** ** A position is added *)

Lemma last_before_b lo b hh v : last_before lo b hh v -> hash b <> hh -> last_before lo (b + 1) hh v.
Proof using.
  intros [[-> Hn]|(q & -> & Hq & Eq & Hm)] Hne.
  - left. split; [done|]. intros r Hr. destruct (Z.eq_dec r b) as [->|]; [done|]. apply Hn. lia.
  - right. exists q. split_and!; try done; try lia. intros r Hr. destruct (Z.eq_dec r b) as [->|]; [done|]. apply Hm. lia.
Qed.

Lemma first_after_b a b hh o : first_after a b hh o -> a < b -> hash b <> hh \/ o <> None -> first_after a (b + 1) hh o.
Proof using.
  intros [[-> Hn]|(q & -> & Hq & Eq & Hm)] Hab Hne.
  - destruct Hne as [Hne|]; [|done]. left. split; [done|]. intros r Hr. destruct (Z.eq_dec r b) as [->|]; [done|]. apply Hn. lia.
  - right. exists q. split_and!; try done; lia.
Qed.

Lemma link_spec hs he lo b : hist_at hs he lo b -> b - lo < 4096 -> b < zlen source ->
  exists first he1 fe he2 hs', zget hs (hash b) = Some first /\
    zset he (slot b) {| h_next := Some first; h_prev := None; h_hindex := hash b; h_pos := b |} = Some he1 /\
    zget he1 first = Some fe /\ zset he1 first (set_prev fe (Some (slot b))) = Some he2 /\
    zset hs (hash b) (s16 (slot b)) = Some hs' /\ hist_at hs' he2 lo (b + 1) /\ zlen hs' = zlen hs.
Proof using Hmask.
  intros [Hw Hs Hsz Hst Hen] Hlt Hb. pose proof (hist_idx_spec b ltac:(lia)) as [_ Hhash]. pose proof (slot_range b) as Hsb.
  destruct (Hst (hash b) Hhash) as (first & Ef & Hfirst). exists first. set (me := {| h_next := Some first |}).
  destruct (zset_is_Some he (slot b) me) as [he1 E1]; [lia|]. exists he1.
  assert (0 <= first <= 4096) as Hfr. { destruct Hfirst as [[-> _]|(q & -> & _)]; [lia|]. pose proof (slot_range q). lia. }
  destruct (zget_is_Some he1 first) as [fe Efe]; [rewrite (zset_len _ _ _ _ E1); lia|]. exists fe.
  destruct (zset_is_Some he1 first (set_prev fe (Some (slot b)))) as [he2 E2]; [rewrite (zset_len _ _ _ _ E1); lia|]. exists he2.
  destruct (zset_is_Some hs (hash b) (s16 (slot b))) as [hs' E3]; [lia|]. exists hs'. do 5 (split; [done|]). split; [|by eapply zset_len].
  assert (forall q, lo <= q < b -> slot q <> slot b) as Hsep by (intros q Hq E; apply slot_inj in E; lia).
  assert (first <> slot b) as Hfb. { destruct Hfirst as [[-> _]|(q & -> & Hq & _)]; [lia|]. apply Hsep. lia. }
  constructor; [lia|by rewrite (zset_len _ _ _ _ E3)|by rewrite (zset_len _ _ _ _ E2), (zset_len _ _ _ _ E1)| |].
  - intros hh Hhh. rewrite (zget_zset _ _ _ _ _ E3). destruct (decide (hh = hash b)) as [->|Hne].
    + eexists. split; [done|]. rewrite s16_small by lia. right. exists b. split_and!; try done; lia.
    + destruct (Hst hh Hhh) as (v & Ev & Hv). exists v. split; [done|]. apply last_before_b; [done|congruence].
  - intros q Hq. rewrite (zget_zset _ _ _ _ _ E2). destruct (Z.eq_dec q b) as [->|Hqb].
    + rewrite decide_False by congruence. rewrite (zget_zset _ _ _ _ _ E1), decide_True by done. exists me. split; [done|].
      split_and!; [done|done|by exists first|]. left. split; [done|]. intros r Hr. lia.
    + destruct (Hen q) as (e & He & F1 & F2 & F3 & F4); [lia|].
      assert (zget he1 (slot q) = Some e) as He1 by (rewrite (zget_zset _ _ _ _ _ E1), decide_False by (apply Hsep; lia); done).
      destruct (decide (slot q = first)) as [Eqf|Hqf].
      * rewrite Eqf in He1. rewrite He1 in Efe. injection Efe as <-. eexists. split; [done|]. split_and!; [done|done|done|].
        assert (hash q = hash b /\ forall r, q < r < b -> hash r <> hash b) as [Eh Hm].
        { destruct Hfirst as [[E _]|(q' & E & Hq' & Eh & Hm)]; [pose proof (slot_range q); lia|].
          rewrite E in Eqf. apply slot_inj in Eqf as ->; [done|lia]. }
        right. exists b. split_and!; try done; try lia. intros r Hr. rewrite Eh. apply Hm. lia.
      * exists e. split; [done|]. split_and!; [done|done|done|]. apply first_after_b; [done|lia|].
        destruct (Z.eq_dec (hash b) (hash q)) as [Eh|]; [right|by left]. intros Eo.
        destruct F4 as [[_ Hno]|(q' & E & _)]; [|congruence]. destruct Hfirst as [[_ Hn]|(q' & E & Hq' & Eh' & Hm)].
        -- by apply (Hn q); [lia|].
        -- destruct (Z.lt_trichotomy q' q) as [Hc|[Hc|Hc]].
           ++ by apply (Hm q); [lia|].
           ++ congruence.
           ++ apply (Hno q'); [lia|congruence].
Qed.

(** The history before position [b] is looked at. *)
Definition hist_ok (h : Hist) (b : Z) : Prop :=
  hist_at (hist_start h) (hist_entries h) (Z.max 0 (b - 4096)) b /\ hist_next h = slot b /\ hist_recycle h = (4096 <=? b).

Lemma slot_next b : 0 <= b ->
  (if PGLZ_HISTORY_SIZE + 1 <=? slot b + 1 then slot (b + 1) = 1 /\ 4096 <= b + 1 else slot (b + 1) = slot b + 1 /\ (b + 1 <> 4096)).
Proof. intros Hb. unfold slot, PGLZ_HISTORY_SIZE. destruct (Z.leb_spec (4096 + 1) (1 + b mod 4096 + 1)); Z.div_mod_to_equations; lia. Qed.

Lemma hist_add_spec h b : hist_ok h b -> b < zlen source ->
  exists h', pglz_hist_add h source b (zlen source) mask = Ret h' /\ hist_ok h' (b + 1).
Proof using Hmask.
  intros (Hat & Enext & Erec) Hb. pose proof (ha_window _ _ _ _ Hat) as Hw.
  destruct (hist_idx_spec b ltac:(lia)) as [Eidx _].
  unfold pglz_hist_add. rewrite Eidx, Enext. cbn [cbind].
  assert (exists hs he, (if hist_recycle h then hist_delink (hist_start h) (hist_entries h) (slot b) else Ret (hist_start h, hist_entries h))
    = Ret (hs, he) /\ hist_at hs he (Z.max 0 (b + 1 - 4096)) b) as (hs & he & E & Hat1).
  { rewrite Erec. destruct (Z.leb_spec 4096 b).
    - assert (slot b = slot (Z.max 0 (b - 4096))) as -> by (unfold slot, PGLZ_HISTORY_SIZE; f_equal; Z.div_mod_to_equations; lia).
      destruct (delink_spec _ _ _ _ Hat ltac:(lia)) as (hs & he & E & Hat' & _). exists hs, he. split; [done|].
      by replace (Z.max 0 (b + 1 - 4096)) with (Z.max 0 (b - 4096) + 1) by lia.
    - exists (hist_start h), (hist_entries h). split; [done|]. replace (Z.max 0 (b + 1 - 4096)) with (Z.max 0 (b - 4096)) by lia. done. }
  rewrite E. cbn [cbind].
  destruct (link_spec _ _ _ _ Hat1 ltac:(lia) Hb) as (first & he1 & fe & he2 & hs' & -> & E1 & E2 & E3 & E4 & Hat2 & _).
  cbn [deref cbind]. rewrite E1. cbn [deref cbind]. rewrite E2. cbn [deref cbind]. rewrite E3. cbn [deref cbind]. rewrite E4. cbn [deref cbind].
  eexists. split; [done|]. pose proof (slot_next b ltac:(lia)) as Hn.
  destruct (PGLZ_HISTORY_SIZE + 1 <=? slot b + 1); destruct Hn as [Hn1 Hn2]; (split_and!; [done|done|]); cbn [hist_recycle].
  - destruct (Z.leb_spec 4096 (b + 1)); [done|lia].
  - rewrite Erec. destruct (Z.leb_spec 4096 b), (Z.leb_spec 4096 (b + 1)); (done || lia).
Qed.

Lemma add_loop_spec n h b : hist_ok h b -> b + Z.of_nat n <= zlen source ->
  exists h', add_loop n h source b (zlen source) mask = Ret (h', b + Z.of_nat n) /\ hist_ok h' (b + Z.of_nat n).
Proof using Hmask.
  revert h b. induction n as [|n IH]; intros h b Hh Hn; cbn [add_loop].
  - exists h. by rewrite Z.add_0_r.
  - destruct (hist_add_spec h b Hh ltac:(lia)) as (h1 & -> & Hh1). cbn [cbind].
    destruct (IH h1 (b + 1) Hh1 ltac:(lia)) as (h2 & E & Hh2). exists h2. rewrite E.
    replace (b + Z.of_nat (S n)) with (b + 1 + Z.of_nat n) by lia. done.
Qed.

(** ** Matching *)

Definition same (ip hp len : Z) : Prop := forall k, 0 <= k < len -> zget source (ip + k) = zget source (hp + k).

Lemma match_loop_spec fuel ip hp t : 0 <= hp < ip -> 0 <= t <= 273 -> ip + t <= zlen source -> same ip hp t -> (Z.to_nat (273 - t) < fuel)%nat ->
  exists len, match_loop fuel source (ip + t) (hp + t) (zlen source) t = Ret len /\
    t <= len <= 273 /\ ip + len <= zlen source /\ same ip hp len.
Proof using.
  revert t. induction fuel as [|fuel IH]; intros t Hh Ht Hle Hs Hf; [lia|]. cbn [match_loop].
  destruct (Z.ltb_spec (ip + t) (zlen source)) as [Hlt|]; [|exists t; split_and!; try done; lia].
  destruct (zget_is_Some source (ip + t)) as [a Ea]; [lia|]. destruct (zget_is_Some source (hp + t)) as [b Eb]; [lia|].
  rewrite Ea, Eb. cbn [deref cbind].
  destruct (Z.eqb_spec a b) as [<-|], (Z.ltb_spec t PGLZ_MAX_MATCH) as [Hm|]; cbn [andb];
    try (exists t; split_and!; try done; lia).
  unfold PGLZ_MAX_MATCH in Hm. rewrite <- !Z.add_assoc. destruct (IH (t + 1)) as (len & E & H1 & H2 & H3); [done|lia|lia| |lia|].
  - intros k Hk. destruct (Z.eq_dec k t) as [->|]; [congruence|]. apply Hs. lia.
  - exists len. rewrite E. split_and!; try done; lia.
Qed.

Lemma memcmp_spec n ip hp : 0 <= hp < ip -> ip + Z.of_nat n <= zlen source ->
  exists r, memcmp_equal source ip hp n = Ret r /\ (r = true -> same ip hp (Z.of_nat n)).
Proof using.
  revert ip hp. induction n as [|n IH]; intros ip hp Hh Hle; cbn [memcmp_equal].
  - exists true. split; [done|]. intros _ k Hk. lia.
  - destruct (zget_is_Some source ip) as [a Ea]; [lia|]. destruct (zget_is_Some source hp) as [b Eb]; [lia|].
    rewrite Ea, Eb. cbn [deref cbind]. destruct (IH (ip + 1) (hp + 1)) as (r & -> & Hr); [lia|lia|]. cbn [cbind].
    eexists. split; [done|]. intros [->%Z.eqb_eq Hr']%andb_true_iff k Hk. destruct (Z.eq_dec k 0) as [->|]; [rewrite !Z.add_0_r; congruence|].
    specialize (Hr Hr' (k - 1) ltac:(lia)). by rewrite <- !Z.add_assoc, !Zplus_minus in Hr.
Qed.

(** A match worth a tag: how long, and how far back. *)
Definition match_ok (input len off : Z) : Prop :=
  1 <= off <= 4094 /\ off <= input /\ 0 <= len <= 273 /\ input + len <= zlen source /\ same input (input - off) len.

Lemma match_length_spec input hp len off : 0 <= hp < input -> input < zlen source -> len = 0 \/ match_ok input len off ->
  exists this, match_length source input hp (zlen source) len = Ret this /\
    (0 <= this <= 273 /\ input + this <= zlen source /\ same input hp this).
Proof using.
  intros Hh Hi Hlen. unfold match_length.
  destruct (Z.leb_spec 16 len) as [H16|].
  - destruct Hlen as [->|(_ & _ & Hl & Hle & _)]; [lia|].
    destruct (memcmp_spec (Z.to_nat len) input hp) as (r & -> & Hr); [lia|lia|]. cbn [cbind]. rewrite Z2Nat.id in Hr by lia.
    destruct r; [|exists 0; split; [done|]; split_and!; [lia|lia|lia|]; intros k Hk; lia].
    destruct (match_loop_spec match_fuel input hp len Hh Hl Hle (Hr eq_refl)) as (this & E & H1 & H2 & H3).
    { change match_fuel with (Z.to_nat 274). lia. }
    exists this. rewrite E. split_and!; try done; lia.
  - destruct (match_loop_spec match_fuel input hp 0) as (this & E & H1 & H2 & H3); [done|lia|lia|intros k Hk; lia| |].
    { change match_fuel with (Z.to_nat 274). lia. }
    rewrite !Z.add_0_r in E. exists this. rewrite E. split_and!; try done; lia.
Qed.

(** The walk ends, and what it finds is a match. *)
Lemma find_loop_spec hs he lo input gd : hist_at hs he lo input -> input < zlen source ->
  forall fuel b v len off gm, lo <= b <= input -> last_before lo b (hash input) v -> (Z.to_nat (b - lo) < fuel)%nat ->
  len = 0 \/ match_ok input len off ->
  exists len' off', find_loop fuel he source input (zlen source) v len off gm gd = Ret (len', off') /\
    (len' = 0 \/ match_ok input len' off').
Proof using.
  intros Hat Hin. induction fuel as [|fuel IH]; intros b v len off gm Hb Hv Hf Hm; [lia|]. cbn [find_loop]. unfold INVALID_ENTRY.
  pose proof (ha_window _ _ _ _ Hat) as Hw.
  destruct Hv as [[-> _]|(q & -> & Hq & Eh & _)]; [cbn; eauto|].
  pose proof (slot_range q). destruct (Z.eqb_spec (slot q) 0); [lia|].
  destruct (ha_entry _ _ _ _ Hat q ltac:(lia)) as (e & -> & Epos & _ & (v & En & Hv) & _). cbn [deref cbind]. rewrite Epos.
  destruct (Z.leb_spec 4095 (input - q)); [eauto|].
  destruct (match_length_spec input q len off ltac:(lia) Hin Hm) as (this & -> & H1 & H2 & H3). cbn [cbind].
  destruct (if len <? this then (this, input - q) else (len, off)) as [len1 off1] eqn:E1.
  assert (len1 = 0 \/ match_ok input len1 off1) as Hm1.
  { destruct (Z.ltb_spec len this); injection E1 as <- <-; [|done]. right. unfold match_ok.
    replace (input - (input - q)) with q by lia. split_and!; try done; lia. }
  rewrite En. cbn [deref cbind]. destruct (v =? 0); [eauto|]. destruct (gm <=? len1); [eauto|].
  apply (IH q); [lia| |lia|done]. by rewrite <- Eh.
Qed.

Lemma find_match_spec h b gm gd : hist_ok h b -> 0 <= b < zlen source ->
  exists r, pglz_find_match h source b (zlen source) gm gd mask = Ret r /\
    match r with Some (len, off) => 3 <= len /\ match_ok b len off | None => True end.
Proof using Hmask.
  intros (Hat & _ & _) Hb. destruct (hist_idx_spec b Hb) as [Eidx Hhash]. unfold pglz_find_match. rewrite Eidx. cbn [cbind].
  destruct (ha_start _ _ _ _ Hat (hash b) Hhash) as (v & -> & Hv). cbn [deref cbind].
  pose proof (ha_window _ _ _ _ Hat) as Hw.
  destruct (find_loop_spec _ _ _ _ gd Hat ltac:(lia) find_fuel b v 0 0 gm) as (len & off & -> & Hm);
    [lia|done|change find_fuel with (S (Z.to_nat 4096)); lia|by left|]. cbn [cbind].
  eexists. split; [done|]. destruct (Z.ltb_spec 2 len); [|done]. split; [lia|]. destruct Hm as [->|]; [lia|done].
Qed.
End History.
