(* ===== verification/PglzTheorems.v ===== *)
(** The compressor: its output is the encoding of items that stand for the
    input, so decompression gives the input back. *)
From stdpp Require Import list.
From S2P Require Import Prelude Pglz PglzFormat PglzHistory.

(** ** The output buffer *)

(** [gs] are the groups that are closed, [cur] the items of the open one. *)
Record out_at (o : Out) (size : Z) (gs : list (list Item)) (cur : list Item) : Prop := {
  oa_ctrlp : o_ctrlp o = Some (zlen (encode gs));
  oa_ctrlb : o_ctrlb o = ctrl_byte cur;
  oa_ctrl : o_ctrl o = u8 (2 ^ Z.of_nat (length cur));
  oa_dest : exists x rest, o_dest o = encode gs ++ x :: payload cur ++ rest /\ zlen (o_dest o) = size;
  oa_bp : o_bp o = zlen (encode gs) + 1 + zlen (payload cur)
}.

Definition out_start (o : Out) (size : Z) : Prop :=
  o_ctrlp o = None /\ o_ctrlb o = 0 /\ o_ctrl o = 0 /\ zlen (o_dest o) = size /\ o_bp o = 0.

(** Between two items. *)
Definition out_ok (o : Out) (size : Z) (gs : list (list Item)) (cur : list Item) : Prop :=
  Forall (fun g => length g = 8%nat /\ Forall item_ok g) gs /\ (length cur <= 8)%nat /\ Forall item_ok cur /\
  (out_start o size /\ gs = [] /\ cur = [] \/ out_at o size gs cur /\ cur <> []).

Lemma encode_snoc gs g : encode (gs ++ [g]) = encode gs ++ group_bytes g.
Proof. unfold encode. rewrite bind_app. cbn. by rewrite app_nil_r. Qed.

Lemma payload_snoc cur it : payload (cur ++ [it]) = payload cur ++ item_bytes it.
Proof. unfold payload. rewrite bind_app. cbn. by rewrite app_nil_r. Qed.

Lemma ctrl_range cur : 0 <= ctrl_byte cur < 2 ^ Z.of_nat (length cur).
Proof.
  induction cur as [|it cur IH]; [done|]. cbn [ctrl_byte length]. rewrite Nat2Z.inj_succ, Z.pow_succ_r by lia.
  destruct (is_tag it); cbn [Z.b2z]; lia.
Qed.

Lemma ctrl_snoc cur it : ctrl_byte (cur ++ [it]) = ctrl_byte cur + Z.b2z (is_tag it) * 2 ^ Z.of_nat (length cur).
Proof.
  induction cur as [|a cur IH]; cbn [ctrl_byte app length]; [change (2 ^ Z.of_nat 0) with 1; lia|].
  rewrite IH, Nat2Z.inj_succ, Z.pow_succ_r by lia. lia.
Qed.

Lemma lor_top a k : 0 <= a < 2 ^ k -> 0 <= k -> Z.lor a (2 ^ k) = a + 2 ^ k.
Proof.
  intros Ha Hk. apply Z.bits_inj'. intros i Hi. replace (a + 2 ^ k) with (a + 2 ^ k * 1) by lia.
  rewrite testbit_split, Z.lor_spec, Z.pow2_bits_eqb by (done || unfold is_u; lia). destruct (Z.ltb_spec i k).
  - destruct (Z.eqb_spec k i); [lia|]. apply orb_false_r.
  - rewrite (is_u_testbit k a i) by (unfold is_u; lia). cbn [orb]. destruct (Z.eqb_spec k i) as [->|].
    + by rewrite Z.sub_diag.
    + by rewrite (is_u_testbit 1 1) by (unfold is_u; lia).
Qed.

(** The control bit of the next item. *)
Lemma ctrl_bit cur : (length cur < 8)%nat ->
  u8 (2 ^ Z.of_nat (length cur)) = 2 ^ Z.of_nat (length cur) /\
  u8 (Z.shiftl (2 ^ Z.of_nat (length cur)) 1) = u8 (2 ^ Z.of_nat (S (length cur))) /\
  u8 (Z.lor (ctrl_byte cur) (2 ^ Z.of_nat (length cur))) = ctrl_byte cur + 2 ^ Z.of_nat (length cur).
Proof.
  intros Hc. pose proof (ctrl_range cur) as Hr. set (k := Z.of_nat (length cur)) in *.
  assert (0 < 2 ^ k <= 2 ^ 7) as Hp by (split; [apply Z.pow_pos_nonneg; lia|apply Z.pow_le_mono_r; lia]).
  split_and!.
  - unfold u8. apply Z.mod_small. lia.
  - rewrite Z.shiftl_mul_pow2 by lia. rewrite Nat2Z.inj_succ. fold k. rewrite Z.pow_succ_r by lia. f_equal. lia.
  - rewrite lor_top by lia. unfold u8. apply Z.mod_small. lia.
Qed.

(** Writing bytes at the end of what was written. *)
Lemma put_bytes1 (l : list Z) rest b : 1 <= zlen rest -> exists rest', zset (l ++ rest) (zlen l) b = Some (l ++ b :: rest') /\ zlen rest' = zlen rest - 1.
Proof.
  intros Hr. destruct rest as [|x rest]; [unfold zlen in Hr; cbn in Hr; lia|]. exists rest. rewrite zset_app_r, zlen_cons. split; [done|lia].
Qed.

Lemma put_next (l : list Z) b rest c : 1 <= zlen rest ->
  exists rest', zset (l ++ b :: rest) (zlen l + 1) c = Some (l ++ b :: c :: rest') /\ zlen rest' = zlen rest - 1.
Proof.
  intros Hr. destruct (put_bytes1 (l ++ [b]) rest c Hr) as (rest' & E & El). exists rest'.
  rewrite zlen_app, <- !app_assoc in E. done.
Qed.

Lemma put_third (l : list Z) b c rest d : 1 <= zlen rest ->
  exists rest', zset (l ++ b :: c :: rest) (zlen l + 2) d = Some (l ++ b :: c :: d :: rest') /\ zlen rest' = zlen rest - 1.
Proof.
  intros Hr. destruct (put_next (l ++ [b]) c rest d Hr) as (rest' & E & El). exists rest'.
  rewrite zlen_app, <- !app_assoc in E. change (zlen [b]) with 1 in E. by replace (zlen l + 1 + 1) with (zlen l + 2) in E by lia.
Qed.

Lemma out_ctrl_spec o size gs cur : out_ok o size gs cur -> o_bp o < size ->
  exists o' gs' cur', pglz_out_ctrl o = Ret o' /\ out_at o' size gs' cur' /\ (length cur' < 8)%nat /\
    Forall (fun g => length g = 8%nat /\ Forall item_ok g) gs' /\ Forall item_ok cur' /\
    concat gs' ++ cur' = concat gs ++ cur /\ o_bp o <= o_bp o' <= o_bp o + 1.
Proof.
  intros (Hgs & Hc8 & Hcur & Hst) Hbp. unfold pglz_out_ctrl.
  destruct Hst as [((E1 & E2 & E3 & E4 & E5) & -> & ->)|(Hat & Hne)].
  - rewrite E3. unfold store_ctrl. rewrite E1. cbn [Z.land Z.eqb cbind]. eexists _, [], []. split; [done|].
    split_and!; try done; cbn [o_bp length]; try lia. constructor; cbn [o_ctrlp o_ctrlb o_ctrl o_dest o_bp length]; try done.
    + by rewrite E5.
    + destruct (o_dest o) as [|x rest]; [unfold zlen in E4; cbn in E4; lia|]. exists x, rest. done.
    + rewrite E5. done.
  - destruct Hat as [A1 A2 A3 (x & rest & A4 & A5) A6]. destruct (decide (length cur = 8%nat)) as [E8|E8].
    + rewrite A3, E8. change (Z.land (u8 (2 ^ Z.of_nat 8)) 255 =? 0) with true. cbn iota. unfold store_ctrl. rewrite A1, A4, zset_app_r.
      cbn [deref cbind]. eexists _, (gs ++ [cur]), []. split; [done|]. split_and!; try done; cbn [o_bp length]; try lia.
      * rewrite A4 in A5. rewrite zlen_app, zlen_cons, zlen_app in A5.
        destruct rest as [|y rest]; [change (zlen (@nil Z)) with 0 in A5; lia|].
        constructor; cbn [o_ctrlp o_ctrlb o_ctrl o_dest o_bp length]; rewrite ?encode_snoc; unfold group_bytes; try done.
        -- rewrite zlen_app, zlen_cons, A6. f_equal. lia.
        -- exists y, rest. rewrite A2, <- app_assoc. split; [done|]. rewrite zlen_app, zlen_cons, zlen_app. lia.
        -- rewrite zlen_app, zlen_cons, A6. change (zlen (payload [])) with 0. lia.
      * apply Forall_app. split; [done|]. by apply Forall_cons_2.
      * rewrite concat_app. cbn. by rewrite !app_nil_r.
    + assert (length cur < 8)%nat as Hlt by lia. destruct (ctrl_bit cur Hlt) as (Eu & _).
      assert ((Z.land (o_ctrl o) 255 =? 0) = false) as ->.
      { rewrite A3, Eu. apply Z.eqb_neq. rewrite land_255. fold (u8 (2 ^ Z.of_nat (length cur))). rewrite Eu. lia. }
      exists o, gs, cur. split_and!; try done; try lia. constructor; eauto.
Qed.

(** An item was written behind the others. *)
Lemma out_at_snoc o size gs cur it o' : out_at o size gs cur -> (length cur < 8)%nat -> item_ok it -> cur ++ [it] <> [] ->
  o_ctrlp o' = o_ctrlp o -> o_bp o' = o_bp o + zlen (item_bytes it) ->
  o_ctrlb o' = ctrl_byte cur + Z.b2z (is_tag it) * 2 ^ Z.of_nat (length cur) -> o_ctrl o' = u8 (2 ^ Z.of_nat (S (length cur))) ->
  (forall l rest, o_dest o = l ++ rest -> zlen l = o_bp o -> exists rest', o_dest o' = l ++ item_bytes it ++ rest' /\ zlen (o_dest o') = zlen (o_dest o)) ->
  out_at o' size gs (cur ++ [it]).
Proof.
  intros [A1 A2 A3 (x & rest & A4 & A5) A6] Hc Hok _ E1 E2 E3 E4 Hd. constructor.
  - by rewrite E1.
  - by rewrite E3, ctrl_snoc.
  - rewrite length_app, Nat.add_1_r. done.
  - destruct (Hd (encode gs ++ x :: payload cur) rest) as (rest' & D1 & D2).
    + by rewrite A4, <- app_assoc.
    + rewrite A6, zlen_app, zlen_cons. lia.
    + exists x, rest'. rewrite payload_snoc, D2, A5. split; [|done]. rewrite D1, <- !app_assoc. done.
  - rewrite E2, A6, payload_snoc, zlen_app. lia.
Qed.

Lemma out_literal_spec o size gs cur b : out_ok o size gs cur -> o_bp o + 4 <= size -> is_u 8 b ->
  exists o' gs' cur', pglz_out_literal o b = Ret o' /\ out_ok o' size gs' cur' /\ concat gs' ++ cur' = (concat gs ++ cur) ++ [Lit b] /\
    o_bp o' <= o_bp o + 4.
Proof.
  intros Hok Hbp Hb. destruct (out_ctrl_spec o size gs cur Hok ltac:(lia)) as (o1 & gs1 & cur1 & E & Hat & Hc & Hg & Hi & Eit & Hb1).
  unfold pglz_out_literal. rewrite E. cbn [cbind]. pose proof Hat as [A1 A2 A3 (x & rest & A4 & A5) A6].
  destruct (zset_is_Some (o_dest o1) (o_bp o1) (u8 b)) as [dest Ed].
  { pose proof (zlen_nonneg (encode gs1)). pose proof (zlen_nonneg (payload cur1)). lia. }
  rewrite Ed. cbn [deref cbind]. destruct (ctrl_bit cur1 Hc) as (U1 & U2 & _). assert (u8 b = b) as Eb by (by apply is_u_id).
  eexists _, gs1, (cur1 ++ [Lit b]). split; [done|]. split; [|split; [by rewrite app_assoc, Eit|cbn [o_bp]; lia]].
  split_and!; [done|rewrite length_app; cbn; lia|apply Forall_app; split; [done|by apply Forall_cons_2]|right].
  split; [|by destruct cur1]. eapply out_at_snoc; try done; cbn [o_ctrlp o_bp o_ctrlb o_ctrl o_dest is_tag Z.b2z item_bytes].
  - by destruct cur1.
  - by rewrite A2, Z.add_0_r.
  - by rewrite A3, U1, U2.
  - intros l rest1 El Ell. rewrite El, <- Ell in Ed. destruct rest1 as [|y rest1].
    + rewrite app_nil_r in El. rewrite El in A5. lia.
    + rewrite zset_app_r in Ed. injection Ed as <-. exists rest1. rewrite Eb, El, !zlen_app, !zlen_cons. done.
Qed.

Lemma out_tag_spec o size gs cur len off : out_ok o size gs cur -> o_bp o + 4 <= size -> item_ok (Tag len off) ->
  exists o' gs' cur', pglz_out_tag o len off = Ret o' /\ out_ok o' size gs' cur' /\ concat gs' ++ cur' = (concat gs ++ cur) ++ [Tag len off] /\
    o_bp o' <= o_bp o + 4.
Proof.
  intros Hok Hbp Hit. destruct (out_ctrl_spec o size gs cur Hok ltac:(lia)) as (o1 & gs1 & cur1 & E & Hat & Hc & Hg & Hi & Eit & Hb1).
  unfold pglz_out_tag. rewrite E. cbn [cbind]. pose proof Hat as [A1 A2 A3 (x & rest & A4 & A5) A6].
  destruct (ctrl_bit cur1 Hc) as (U1 & U2 & U3). pose proof Hit as [Hl Ho].
  set (l := encode gs1 ++ x :: payload cur1). assert (o_dest o1 = l ++ rest) as El by (unfold l; by rewrite A4, <- app_assoc).
  assert (zlen l = o_bp o1) as Ell by (unfold l; rewrite A6, zlen_app, zlen_cons; lia).
  assert (3 <= zlen rest) as Hrest by (rewrite El, zlen_app in A5; lia).
  assert (exists dest rest', dest = l ++ item_bytes (Tag len off) ++ rest' /\
    (if 17 <? len then
       let* dest := deref (zset (o_dest o1) (o_bp o1) (u8 (Z.lor (Z.shiftr (Z.land off 3840) 4) 15))) in
       let* dest := deref (zset dest (o_bp o1 + 1) (u8 (Z.land off 255))) in
       let* dest := deref (zset dest (o_bp o1 + 2) (u8 (len - 18))) in
       Ret {| o_dest := dest; o_bp := o_bp o1 + 3; o_ctrlp := o_ctrlp o1; o_ctrlb := u8 (Z.lor (o_ctrlb o1) (o_ctrl o1));
              o_ctrl := u8 (Z.shiftl (o_ctrl o1) 1) |}
     else
       let* dest := deref (zset (o_dest o1) (o_bp o1) (u8 (Z.lor (Z.shiftr (Z.land off 3840) 4) (len - 3)))) in
       let* dest := deref (zset dest (o_bp o1 + 1) (u8 (Z.land off 255))) in
       Ret {| o_dest := dest; o_bp := o_bp o1 + 2; o_ctrlp := o_ctrlp o1; o_ctrlb := u8 (Z.lor (o_ctrlb o1) (o_ctrl o1));
              o_ctrl := u8 (Z.shiftl (o_ctrl o1) 1) |}) =
    Ret {| o_dest := dest; o_bp := o_bp o1 + zlen (item_bytes (Tag len off)); o_ctrlp := o_ctrlp o1;
           o_ctrlb := u8 (Z.lor (o_ctrlb o1) (o_ctrl o1)); o_ctrl := u8 (Z.shiftl (o_ctrl o1) 1) |} /\
    zlen dest = size) as (dest & rest' & D2 & D3 & D1).
  { rewrite El, <- Ell. cbn [item_bytes]. destruct (Z.ltb_spec 17 len).
    - destruct (off_nibbles off 15) as [-> ->]; [lia|lia|].
      destruct (put_bytes1 l rest (off / 256 * 16 + 15) ltac:(lia)) as (r1 & -> & R1). cbn [deref cbind].
      destruct (put_next l (off / 256 * 16 + 15) r1 (off mod 256) ltac:(lia)) as (r2 & -> & R2). cbn [deref cbind].
      destruct (put_third l (off / 256 * 16 + 15) (off mod 256) r2 (u8 (len - 18)) ltac:(lia)) as (r3 & -> & R3). cbn [deref cbind].
      assert (u8 (len - 18) = len - 18) as -> by (unfold u8; apply Z.mod_small; lia). eexists _, r3. split; [done|]. split; [done|].
      rewrite El in A5. rewrite zlen_app in A5. rewrite !zlen_app, !zlen_cons. change (zlen (@nil Z)) with 0. lia.
    - destruct (off_nibbles off (len - 3)) as [-> ->]; [lia|lia|].
      destruct (put_bytes1 l rest (off / 256 * 16 + (len - 3)) ltac:(lia)) as (r1 & -> & R1). cbn [deref cbind].
      destruct (put_next l (off / 256 * 16 + (len - 3)) r1 (off mod 256) ltac:(lia)) as (r2 & -> & R2). cbn [deref cbind].
      eexists _, r2. split; [done|]. split; [done|]. rewrite El in A5. rewrite zlen_app in A5. rewrite !zlen_app, !zlen_cons. change (zlen (@nil Z)) with 0. lia. }
  rewrite D3. destruct (item_bytes_len (Tag len off) Hit) as [Hib _].
  eexists _, gs1, (cur1 ++ [Tag len off]). split; [done|]. split; [|split; [by rewrite app_assoc, Eit|cbn [o_bp]; lia]].
  split_and!; [done|rewrite length_app; cbn; lia|apply Forall_app; split; [done|by apply Forall_cons_2]|right].
  split; [|by destruct cur1]. eapply out_at_snoc; try done; cbn [o_ctrlp o_bp o_ctrlb o_ctrl o_dest is_tag Z.b2z].
  - by destruct cur1.
  - by rewrite A2, A3, U1, U3, Z.mul_1_l.
  - by rewrite A3, U1, U2.
  - intros l1 rest1 El1 Ell1. rewrite El in El1. apply app_inj_1 in El1 as [<- _]; [|unfold zlen in *; lia].
    exists rest'. split; [done|]. by rewrite D1.
Qed.

(** ** The items stand for the input *)

Lemma take_next (l : list Z) n b : 0 <= n -> zget l n = Some b -> take (Z.to_nat (n + 1)) l = take (Z.to_nat n) l ++ [b].
Proof.
  intros Hn Hb. unfold zget in Hb. destruct (Z.ltb_spec n 0); [lia|].
  replace (Z.to_nat (n + 1)) with (S (Z.to_nat n)) by lia. by apply take_S_r.
Qed.

Lemma copy_back_match source n dp off : 1 <= off <= dp -> dp + Z.of_nat n <= zlen source -> same source dp (dp - off) (Z.of_nat n) ->
  copy_back n (take (Z.to_nat dp) source) off = take (Z.to_nat (dp + Z.of_nat n)) source.
Proof.
  revert dp. induction n as [|n IH]; intros dp Ho Hle Hs; cbn [copy_back]; [by rewrite Z.add_0_r|].
  rewrite zlen_take by lia. rewrite zget_take by lia. destruct (Z.ltb_spec (dp - off) dp); [|lia].
  destruct (zget_is_Some source dp) as [b Eb]; [lia|].
  pose proof (Hs 0 ltac:(lia)) as H0. rewrite !Z.add_0_r in H0. rewrite <- H0, Eb. cbn [default from_option].
  rewrite <- take_next by (done || lia). rewrite IH; [f_equal; lia|lia|lia|].
  intros k Hk. specialize (Hs (k + 1) ltac:(lia)). rewrite <- Z.add_assoc, (Z.add_comm 1 k), Hs. f_equal. lia.
Qed.

(** The items written so far, for the input before [dp]. *)
Definition covers (source : list Z) (dp : Z) (items : list Item) : Prop :=
  refs_ok [] items /\ replay [] items = take (Z.to_nat dp) source.

Lemma covers_lit source dp items b : 0 <= dp -> covers source dp items -> zget source dp = Some b ->
  covers source (dp + 1) (items ++ [Lit b]).
Proof.
  intros Hdp [Hr Hp] Hb. split; [by apply refs_ok_app|]. unfold replay. rewrite foldl_app. fold (replay [] items). rewrite Hp. cbn.
  symmetry. by apply take_next.
Qed.

Lemma covers_tag source dp items len off : 0 <= dp -> covers source dp items -> match_ok source dp len off ->
  covers source (dp + len) (items ++ [Tag len off]).
Proof.
  intros Hdp [Hr Hp] (Ho & Hod & Hl & Hle & Hs). split.
  - apply refs_ok_app. split; [done|]. cbn. rewrite Hp, zlen_take by lia. split; [lia|done].
  - unfold replay. rewrite foldl_app. fold (replay [] items). rewrite Hp. cbn [foldl replay1].
    rewrite copy_back_match; rewrite ?Z2Nat.id by lia; done || lia.
Qed.

(** ** The loop over the input *)

Section Compress.
Context (source : list Z) (Hbytes : Forall (is_u 8) source) (p : Params).
Context (Hmask : 0 <= mask p < PGLZ_MAX_HISTORY_LISTS) (Hmax : result_max p <= zlen source).

Lemma compress_loop_spec fuel : forall h o dp found gs cur,
  hist_ok source (mask p) h dp -> 0 <= dp <= zlen source -> (Z.to_nat (zlen source - dp) < fuel)%nat ->
  out_ok o (PGLZ_MAX_OUTPUT (zlen source)) gs cur -> covers source dp (concat gs ++ cur) ->
  exists r, compress_loop fuel p source (zlen source) h o dp found = Ret r /\
    match r with
    | None => True
    | Some (_, o') => exists gs' cur', out_ok o' (PGLZ_MAX_OUTPUT (zlen source)) gs' cur' /\ covers source (zlen source) (concat gs' ++ cur')
    end.
Proof using Hbytes Hmask Hmax.
  induction fuel as [|fuel IH]; intros h o dp found gs cur Hh Hdp Hf Ho Hc; [lia|]. cbn [compress_loop].
  destruct (Z.ltb_spec dp (zlen source)) as [Hlt|].
  2:{ eexists. split; [done|]. exists gs, cur. split; [done|]. by replace (zlen source) with dp by lia. }
  destruct (Z.leb_spec (result_max p) (o_bp o)) as [|Hbp]; [by eexists|]. destruct (negb found && _); [by eexists|].
  assert (o_bp o + 4 <= PGLZ_MAX_OUTPUT (zlen source)) as Hroom by (unfold PGLZ_MAX_OUTPUT; lia).
  destruct (find_match_spec source (mask p) Hmask h dp (good_match p) (good_drop p) Hh ltac:(lia)) as (found' & -> & Hm). cbn [cbind].
  destruct found' as [[len off]|].
  - destruct Hm as [H3 Hm]. pose proof Hm as (Ho1 & Hod & Hl & Hle & _).
    destruct (out_tag_spec o _ gs cur len off Ho Hroom) as (o1 & gs1 & cur1 & -> & Ho' & Eit & _); [cbn; lia|]. cbn [cbind].
    destruct (add_loop_spec source (mask p) Hmask (Z.to_nat len) h dp Hh ltac:(lia)) as (h1 & -> & Hh1). cbn [cbind].
    rewrite Z2Nat.id in * by lia. apply (IH h1 o1 (dp + len) true gs1 cur1); [done|lia|lia|done|].
    rewrite Eit. apply covers_tag; [lia|done|done].
  - destruct (zget_is_Some source dp) as [b Eb]; [lia|]. rewrite Eb. cbn [deref cbind].
    assert (is_u 8 b) as Hb.
    { rewrite Forall_lookup in Hbytes. unfold zget in Eb. destruct (Z.ltb_spec dp 0); [lia|]. by eapply Hbytes. }
    destruct (out_literal_spec o _ gs cur b Ho Hroom Hb) as (o1 & gs1 & cur1 & -> & Ho' & Eit & _). cbn [cbind].
    destruct (hist_add_spec source (mask p) Hmask h dp Hh Hlt) as (h1 & -> & Hh1). cbn [cbind].
    apply (IH h1 o1 (dp + 1) found gs1 cur1); [done|lia|lia|done|]. rewrite Eit. apply covers_lit; [lia|done|done].
Qed.
End Compress.

(** The parameters are in range for any strategy. *)
Lemma params_ok strategy slen : 0 <= slen <= INT_MAX ->
  0 <= mask (compress_params strategy slen) < PGLZ_MAX_HISTORY_LISTS /\ result_max (compress_params strategy slen) <= slen.
Proof.
  intros Hs. unfold compress_params, PGLZ_MAX_HISTORY_LISTS. cbn [mask result_max].
  set (rate := if min_comp_rate strategy <? 0 then 0 else _).
  assert (0 <= rate <= 99) as Hr.
  { unfold rate. destruct (Z.ltb_spec (min_comp_rate strategy) 0), (Z.ltb_spec 99 (min_comp_rate strategy)); lia. }
  split; [repeat case_match; lia|].
  assert (forall z, 0 <= z <= INT_MAX -> s32 z = z) as H32.
  { unfold INT_MAX. intros z Hz. unfold s32. rewrite Z.mod_small by lia. lia. }
  destruct (Z.ltb_spec (INT_MAX / 100) slen) as [Hbig|Hsmall].
  - pose proof (Z.mul_div_le slen 100 ltac:(lia)). assert (0 <= slen / 100) by (apply Z.div_pos; lia). rewrite H32 by nia. nia.
  - assert (slen * 100 <= INT_MAX) by (change (INT_MAX / 100) with 21474836 in Hsmall; unfold INT_MAX; lia).
    rewrite H32 by nia. apply Z.div_le_upper_bound; [lia|]. nia.
Qed.

Lemma hist_start_ok source m hs he : 0 <= m < PGLZ_MAX_HISTORY_LISTS -> zlen he = 4097 -> zlen hs = PGLZ_MAX_HISTORY_LISTS ->
  exists hs', clear_start hs (m + 1) = Ret hs' /\
    hist_ok source m {| hist_start := hs'; hist_entries := he; hist_next := 1; hist_recycle := false |} 0.
Proof.
  unfold PGLZ_MAX_HISTORY_LISTS. intros Hm Hhe Hhs. unfold clear_start. destruct (Z.leb_spec (m + 1) (zlen hs)); [|lia].
  eexists. split; [done|]. split_and!; [|done|done]. cbn [hist_start hist_entries].
  constructor; [pose proof (zlen_nonneg source); lia| |done| |intros q Hq; lia].
  - rewrite zlen_app. unfold zlen at 1. rewrite length_replicate. pose proof (zlen_nonneg (drop (Z.to_nat (m + 1)) hs)). lia.
  - intros hh Hhh. exists 0. split; [|left; split; [done|lia]].
    rewrite zget_app_l by (unfold zlen; rewrite length_replicate; lia). unfold zget. destruct (Z.ltb_spec hh 0); [lia|].
    apply lookup_replicate_2. lia.
Qed.

(** ** Round trip *)

Lemma groups_ok_snoc gs cur : Forall (fun g => length g = 8%nat /\ Forall item_ok g) gs -> cur <> [] -> (length cur <= 8)%nat ->
  Forall item_ok cur -> groups_ok (gs ++ [cur]).
Proof.
  induction gs as [|g gs IH]; intros Hgs Hne Hc Hok; cbn [app groups_ok].
  - split_and!; try done. by right.
  - apply Forall_cons in Hgs as [[Hg Hi] Hgs]. split_and!; try done; [by intros ->|lia|by left|by apply IH].
Qed.

(** What is in the buffer in the end. *)
Lemma out_finish o size gs cur : out_ok o size gs cur -> cur <> [] ->
  exists dest, store_ctrl o = Ret dest /\ take (Z.to_nat (o_bp o)) dest = encode (gs ++ [cur]) /\ zlen (encode (gs ++ [cur])) = o_bp o.
Proof.
  intros (_ & _ & _ & [(_ & _ & ->)|([A1 A2 A3 (x & rest & A4 & A5) A6] & _)]) Hne; [done|].
  unfold store_ctrl. rewrite A1, A4, zset_app_r. eexists. split; [done|].
  rewrite encode_snoc, A2, A6. unfold group_bytes. split; [|rewrite zlen_app, zlen_cons; lia]. rewrite app_comm_cons, app_assoc.
  apply take_app_length'. unfold zlen. rewrite length_app. cbn [length]. lia.
Qed.

(** The output is the encoding of items that stand for the input. *)
Lemma compress_spec hs he source dest strategy :
  Forall (is_u 8) source -> zlen source <= INT_MAX ->
  zlen hs = PGLZ_MAX_HISTORY_LISTS -> zlen he = PGLZ_HISTORY_SIZE + 1 -> zlen dest = PGLZ_MAX_OUTPUT (zlen source) ->
  match pglz_compress hs he source dest strategy with
  | Ret (Some compressed) =>
      zlen compressed < zlen source /\
      exists groups, compressed = encode groups /\ groups_ok groups /\ refs_ok [] (concat groups) /\ replay [] (concat groups) = source
  | Ret None => True
  | _ => False
  end.
Proof.
  intros Hbytes Hint Hhs Hhe Hdest. unfold pglz_compress. set (st := default PGLZ_strategy_default strategy).
  destruct (_ || _ || _); [done|]. pose proof (zlen_nonneg source) as Hs.
  destruct (params_ok st (zlen source) (conj Hs Hint)) as [Hm Hr]. set (p := compress_params st (zlen source)) in *.
  destruct (hist_start_ok source (mask p) hs he Hm Hhe Hhs) as (hs' & -> & Hh). cbn [cbind].
  destruct (compress_loop_spec source Hbytes p Hm Hr (S (length source)) _
    {| o_dest := dest; o_bp := 0; o_ctrlp := None; o_ctrlb := 0; o_ctrl := 0 |} 0 false [] [] Hh) as (r & -> & Hres).
  - lia.
  - unfold zlen. lia.
  - split_and!; [done|cbn; lia|done|left; done].
  - done.
  - cbn [cbind]. destruct r as [[h' o]|]; [|done]. destruct Hres as (gs & cur & Ho & Hrefs & Hrep).
    rewrite take_ge in Hrep by (unfold zlen; lia). destruct (decide (cur = [])) as [->|Hne].
    + destruct Ho as (_ & _ & _ & [((E1 & _ & _ & E4 & E5) & -> & _)|(_ & ?)]); [|done]. unfold store_ctrl. rewrite E1. cbn [cbind].
      cbn in Hrep. rewrite E5. destruct (Z.leb_spec (result_max p) 0); [done|]. exfalso.
      assert (zlen source = 0) as Hz; [|lia]. by rewrite <- Hrep.
    + destruct (out_finish o _ gs cur Ho Hne) as (dest' & -> & Et & El). cbn [cbind].
      destruct (Z.leb_spec (result_max p) (o_bp o)) as [|Hlt]; [done|]. rewrite Et, El. split; [lia|].
      assert (concat (gs ++ [cur]) = concat gs ++ cur) as Ec by (rewrite concat_app; cbn; by rewrite app_nil_r).
      exists (gs ++ [cur]). rewrite Ec. destruct Ho as (Hgs & Hc8 & Hcur & _). split_and!; try done. by apply groups_ok_snoc.
Qed.

(** C23. Compression is lossless and safe.  For any input of up to [INT_MAX] bytes
    and any strategy, whatever the work arrays and the output buffer contained,
    [pglz_compress] comes to an end, stays within the input, its arrays and an output
    buffer of [PGLZ_MAX_OUTPUT] bytes, and either gives up or returns data that is
    shorter than the input and from which [pglz_decompress] restores it exactly. *)
Theorem pglz_roundtrip hs he source dest strategy :
  Forall (is_u 8) source -> zlen source <= INT_MAX ->
  zlen hs = PGLZ_MAX_HISTORY_LISTS -> zlen he = PGLZ_HISTORY_SIZE + 1 -> zlen dest = PGLZ_MAX_OUTPUT (zlen source) ->
  match pglz_compress hs he source dest strategy with
  | Ret (Some compressed) =>
      zlen compressed < zlen source /\
      forall raw, zlen raw = zlen source -> pglz_decompress compressed raw = Ret (Some source)
  | Ret None => True
  | _ => False
  end.
Proof.
  intros Hbytes Hint Hhs Hhe Hdest. pose proof (compress_spec hs he source dest strategy Hbytes Hint Hhs Hhe Hdest) as Hc.
  destruct (pglz_compress hs he source dest strategy) as [[compressed|]| |]; try done.
  destruct Hc as (Hlt & groups & -> & Hok & Hr & Hrep). split; [done|]. intros raw Hraw.
  by rewrite decompress_encode, Hrep, Hraw, Z.eqb_refl by done.
Qed.

(** An entry of the work array as the program starts with it. *)
Definition zero_entry : PGLZ_HistEntry := {| h_next := None; h_prev := None; h_hindex := 0; h_pos := 0 |}.

Definition zero_starts : list Z := replicate (Z.to_nat PGLZ_MAX_HISTORY_LISTS) 0.
Definition zero_entries : list PGLZ_HistEntry := replicate (Z.to_nat (PGLZ_HISTORY_SIZE + 1)) zero_entry.

(** Sixty bytes that repeat with a period of seven. *)
Definition periodic : list Z := take 60 (concat (replicate 9 [1; 2; 3; 200; 5; 6; 7])).

Lemma pglz_roundtrip_witness :
  match pglz_compress zero_starts zero_entries periodic (replicate 64 0) None with
  | Ret (Some compressed) => compressed = [128; 1; 2; 3; 200; 5; 6; 7; 15; 7; 35] /\
      pglz_decompress compressed (replicate 60 0) = Ret (Some periodic)
  | _ => False
  end.
Proof.
  pose proof (pglz_roundtrip zero_starts zero_entries periodic (replicate 64 0) None) as Hr.
  assert (pglz_compress zero_starts zero_entries periodic (replicate 64 0) None =
          Ret (Some [128; 1; 2; 3; 200; 5; 6; 7; 15; 7; 35])) as E by (vm_compute; reflexivity).
  rewrite E in Hr |- *. split; [reflexivity|]. apply Hr; try (vm_compute; reflexivity); [|vm_compute; discriminate].
  apply (bool_decide_unpack (Forall (is_u 8) periodic)). vm_compute. exact I.
Defined.

(** C37. A wrong size is noticed: for data that [pglz_compress] has produced, and any
    size of the result other than the original one, larger or smaller,
    [pglz_decompress] stays within its buffers and reports failure. *)
Theorem pglz_wrong_size hs he source dest strategy compressed raw :
  Forall (is_u 8) source -> zlen source <= INT_MAX ->
  zlen hs = PGLZ_MAX_HISTORY_LISTS -> zlen he = PGLZ_HISTORY_SIZE + 1 -> zlen dest = PGLZ_MAX_OUTPUT (zlen source) ->
  pglz_compress hs he source dest strategy = Ret (Some compressed) -> zlen raw <> zlen source ->
  pglz_decompress compressed raw = Ret None.
Proof.
  intros Hbytes Hint Hhs Hhe Hdest E Hraw. pose proof (compress_spec hs he source dest strategy Hbytes Hint Hhs Hhe Hdest) as Hc.
  rewrite E in Hc. destruct Hc as (_ & groups & -> & Hok & Hr & Hrep). rewrite decompress_encode, Hrep by done.
  by destruct (Z.eqb_spec (zlen raw) (zlen source)).
Qed.

Lemma pglz_wrong_size_witness :
  pglz_decompress [128; 1; 2; 3; 200; 5; 6; 7; 15; 7; 35] (replicate 59 0) = Ret None /\
  pglz_decompress [128; 1; 2; 3; 200; 5; 6; 7; 15; 7; 35] (replicate 61 0) = Ret None.
Proof.
  split.
  - apply (pglz_wrong_size zero_starts zero_entries periodic (replicate 64 0) None); try (vm_compute; reflexivity).
    + apply (bool_decide_unpack (Forall (is_u 8) periodic)). vm_compute. exact I.
    + vm_compute. discriminate.
    + vm_compute. discriminate.
  - apply (pglz_wrong_size zero_starts zero_entries periodic (replicate 64 0) None); try (vm_compute; reflexivity).
    + apply (bool_decide_unpack (Forall (is_u 8) periodic)). vm_compute. exact I.
    + vm_compute. discriminate.
    + vm_compute. discriminate.
Defined.

(** Data that no compressor has produced is not checked in the same way: a
    reference that points before the start of the output is followed, and so is a tag
    whose second or third byte lies behind the end of the data.  These runs have no
    outcome in the model, where the C code reads outside of its buffers. *)
Example pglz_reads_outside :
  pglz_decompress [1; 0; 5] [0; 0; 0] = Undef /\
  pglz_decompress [1; 0] [0; 0; 0] = Undef /\
  pglz_decompress [2; 7; 15; 1] (replicate 19 0) = Undef.
Proof. vm_compute. auto. Qed.
