(* ===== verification/LockTable.v ===== *)
(** * Heavyweight locks: the shared lock table

    Models [storage/lmgr/lock.c] and the wait queue of [storage/lmgr/proc.c] of
    the backend: relation, tuple, transaction and advisory locks, with eight
    modes and a conflict table, held by processes that may form lock groups.

    A [LOCK] is identified by its tag (the key of the shared hash table), a
    [PROCLOCK] by the tag of its lock and the number of its process, a [PGPROC]
    by its number.  The queue links of the C structures are lists of process
    numbers in queue order.  Every routine of this file runs while its caller
    holds the partition lock of the tag (all of them, in [CheckDeadLock]), so a
    routine is one function on the shared state; what a process does while it
    sleeps is another routine's step.  [cres] carries [elog(ERROR|PANIC)] and
    failed [Assert]s. *)
From stdpp Require Import list gmap functions.
From S2P Require Import Prelude LockModes.

(** ** The lock method tables *)

Definition MAX_LOCKMODES : Z := 10.
Definition LOCKBIT_OFF (lockmode : Z) : Z := Z.lnot (Z.shiftl 1 lockmode).

(** Both lock methods use the same table and the same number of modes. *)
Definition numLockModes : Z := AccessExclusiveLock.
Definition conflictTab (lockmode : Z) : Z := default 0 (zget LockConflicts lockmode).

(** The modes [1 .. numLockModes], in the order the loops visit them. *)
Definition lock_modes : list Z := seqZ 1 numLockModes.

Definition STATUS_OK : Z := 0.
Definition STATUS_ERROR : Z := -1.
Definition STATUS_FOUND : Z := 1.
Definition STATUS_WAITING : Z := 2.

(** ** The shared structures *)

Record LOCKTAG := {
  locktag_field1 : Z; locktag_field2 : Z; locktag_field3 : Z; locktag_field4 : Z;
  locktag_type : Z; locktag_lockmethodid : Z }.

#[export] Instance LOCKTAG_eq_dec : EqDecision LOCKTAG.
Proof. solve_decision. Defined.

#[export] Program Instance LOCKTAG_countable : Countable LOCKTAG :=
  inj_countable' (fun t => (locktag_field1 t, locktag_field2 t, locktag_field3 t, locktag_field4 t, locktag_type t, locktag_lockmethodid t)) (fun '(a, b, c, d, e, f) => Build_LOCKTAG a b c d e f) _.
Next Obligation. by intros []. Qed.

Record LOCK := {
  grantMask : Z; waitMask : Z;
  procLocks : list Z;      (* the owners of its PROCLOCKs, in list order *)
  waitProcs : list Z;      (* the waiting processes, in queue order *)
  requested : list Z; nRequested : Z;
  granted : list Z; nGranted : Z }.

Record PROCLOCK := { groupLeader : Z; holdMask : Z }.

Record PGPROC := {
  pid : Z;
  lockGroupLeader : option Z; lockGroupMembers : list Z;
  links : bool;            (* links.next != NULL: on some wait queue *)
  waitLock : option LOCKTAG; waitProcLock : option (LOCKTAG * Z);
  waitLockMode : Z; heldLocks : Z; waitStatus : Z }.

Record lmgr := {
  allProcs : Z -> PGPROC;
  LockHash : gmap LOCKTAG LOCK;
  ProcLockHash : gmap (LOCKTAG * Z) PROCLOCK }.

Definition set_procs (s : lmgr) (f : Z -> PGPROC) : lmgr :=
  {| allProcs := f; LockHash := LockHash s; ProcLockHash := ProcLockHash s |}.
Definition set_locks (s : lmgr) (m : gmap LOCKTAG LOCK) : lmgr :=
  {| allProcs := allProcs s; LockHash := m; ProcLockHash := ProcLockHash s |}.
Definition set_proclocks (s : lmgr) (m : gmap (LOCKTAG * Z) PROCLOCK) : lmgr :=
  {| allProcs := allProcs s; LockHash := LockHash s; ProcLockHash := m |}.

Definition put_proc (s : lmgr) (p : Z) (x : PGPROC) : lmgr := set_procs s (<[p := x]> (allProcs s)).
Definition put_lock (s : lmgr) (t : LOCKTAG) (l : LOCK) : lmgr := set_locks s (<[t := l]> (LockHash s)).
Definition put_proclock (s : lmgr) (k : LOCKTAG * Z) (x : PROCLOCK) : lmgr :=
  set_proclocks s (<[k := x]> (ProcLockHash s)).

(** An array of counters indexed by lock mode. *)
Definition mget (a : list Z) (m : Z) : Z := default 0 (zget a m).
Definition mset (a : list Z) (m v : Z) : list Z := default a (zset a m v).

(** The leader of a process's lock group, or the process itself. *)
Definition leader_of (s : lmgr) (p : Z) : Z := default p (lockGroupLeader (allProcs s p)).

(** ** Conflicts with the locks granted *)

(** The inner loop of [LockCheckConflicts]: take one proclock of the group out
    of the conflicts that remain. *)
Fixpoint subtract_group_locks (modes : list Z) (intersectMask : Z) (conflictsRemaining : list Z) (total : Z) : cres (list Z * Z) :=
  match modes with
  | [] => Ret (conflictsRemaining, total)
  | i :: modes =>
      if Z.land intersectMask (LOCKBIT_ON i) =? 0 then subtract_group_locks modes intersectMask conflictsRemaining total
      else if mget conflictsRemaining i <=? 0 then Elog "proclocks held do not match lock"
      else subtract_group_locks modes intersectMask (mset conflictsRemaining i (mget conflictsRemaining i - 1)) (total - 1)
  end.

(** The loop over the proclocks of the lock. *)
Fixpoint group_conflicts_loop (s : lmgr) (tag : LOCKTAG) (proclock : Z) (leader conflictMask : Z) (others : list Z) (conflictsRemaining : list Z) (total : Z) : cres Z :=
  match others with
  | [] => Ret STATUS_FOUND
  | other :: others =>
      let* pl := deref (ProcLockHash s !! (tag, other)) in
      let intersectMask := Z.land (holdMask pl) conflictMask in
      if negb (other =? proclock) && (leader =? groupLeader pl) && negb (intersectMask =? 0) then
        let* (conflictsRemaining, total) := subtract_group_locks lock_modes intersectMask conflictsRemaining total in
        if total =? 0 then Ret STATUS_OK
        else group_conflicts_loop s tag proclock leader conflictMask others conflictsRemaining total
      else group_conflicts_loop s tag proclock leader conflictMask others conflictsRemaining total
  end.

(** How many locks of mode [i] conflict, less the caller's own. *)
Definition conflicts_of_mode (lock : LOCK) (conflictMask myLocks i : Z) : Z :=
  if Z.land conflictMask (LOCKBIT_ON i) =? 0 then 0
  else mget (granted lock) i - (if Z.land myLocks (LOCKBIT_ON i) =? 0 then 0 else 1).

Definition LockCheckConflicts (s : lmgr) (MyProc : Z) (lockmode : Z) (tag : LOCKTAG) (proclock : Z) : cres Z :=
  let* lock := deref (LockHash s !! tag) in
  let* pl := deref (ProcLockHash s !! (tag, proclock)) in
  let conflictMask := conflictTab lockmode in
  if Z.land conflictMask (grantMask lock) =? 0 then Ret STATUS_OK
  else
    let conflictsRemaining := 0 :: map (conflicts_of_mode lock conflictMask (holdMask pl)) lock_modes in
    let total := foldr Z.add 0 conflictsRemaining in
    if total =? 0 then Ret STATUS_OK
    else if (groupLeader pl =? MyProc) && bool_decide (lockGroupLeader (allProcs s MyProc) = None) then
      c_assert (proclock =? MyProc);; Ret STATUS_FOUND
    else group_conflicts_loop s tag proclock (groupLeader pl) conflictMask (procLocks lock) conflictsRemaining total.

(** ** Granting and releasing *)

Definition GrantLock (s : lmgr) (tag : LOCKTAG) (proclock lockmode : Z) : cres lmgr :=
  let* lock := deref (LockHash s !! tag) in
  let* pl := deref (ProcLockHash s !! (tag, proclock)) in
  let nGranted' := nGranted lock + 1 in
  let granted' := mset (granted lock) lockmode (mget (granted lock) lockmode + 1) in
  let waitMask' := if mget granted' lockmode =? mget (requested lock) lockmode
                   then Z.land (waitMask lock) (LOCKBIT_OFF lockmode) else waitMask lock in
  c_assert ((0 <? nGranted') && (0 <? mget granted' lockmode));;
  c_assert (nGranted' <=? nRequested lock);;
  Ret (put_proclock
         (put_lock s tag
            {| grantMask := Z.lor (grantMask lock) (LOCKBIT_ON lockmode); waitMask := waitMask';
               procLocks := procLocks lock; waitProcs := waitProcs lock;
               requested := requested lock; nRequested := nRequested lock;
               granted := granted'; nGranted := nGranted' |})
         (tag, proclock)
         {| groupLeader := groupLeader pl; holdMask := Z.lor (holdMask pl) (LOCKBIT_ON lockmode) |}).

(** The state after, and whether waiters may have to be woken. *)
Definition UnGrantLock (s : lmgr) (tag : LOCKTAG) (lockmode proclock : Z) : cres (lmgr * bool) :=
  let* lock := deref (LockHash s !! tag) in
  let* pl := deref (ProcLockHash s !! (tag, proclock)) in
  c_assert ((0 <? nRequested lock) && (0 <? mget (requested lock) lockmode));;
  c_assert ((0 <? nGranted lock) && (0 <? mget (granted lock) lockmode));;
  c_assert (nGranted lock <=? nRequested lock);;
  let granted' := mset (granted lock) lockmode (mget (granted lock) lockmode - 1) in
  let grantMask' := if mget granted' lockmode =? 0 then Z.land (grantMask lock) (LOCKBIT_OFF lockmode) else grantMask lock in
  let lock' := {| grantMask := grantMask'; waitMask := waitMask lock;
                  procLocks := procLocks lock; waitProcs := waitProcs lock;
                  requested := mset (requested lock) lockmode (mget (requested lock) lockmode - 1);
                  nRequested := nRequested lock - 1;
                  granted := granted'; nGranted := nGranted lock - 1 |} in
  let wakeupNeeded := negb (Z.land (conflictTab lockmode) (waitMask lock) =? 0) in
  Ret (put_proclock (put_lock s tag lock') (tag, proclock)
         {| groupLeader := groupLeader pl; holdMask := Z.land (holdMask pl) (LOCKBIT_OFF lockmode) |}, wakeupNeeded).

(** ** Waking waiters *)

(** Off the queue of the lock it waits for, with the result in [waitStatus]. *)
Definition ProcWakeup (s : lmgr) (proc : Z) (status : Z) : cres lmgr :=
  let p := allProcs s proc in
  if negb (links p) then Undef
  else
    c_assert (waitStatus p =? STATUS_WAITING);;
    let* tag := deref (waitLock p) in
    let* lock := deref (LockHash s !! tag) in
    Ret (put_proc
           (put_lock s tag
              {| grantMask := grantMask lock; waitMask := waitMask lock; procLocks := procLocks lock;
                 waitProcs := filter (fun q => q <> proc) (waitProcs lock);
                 requested := requested lock; nRequested := nRequested lock;
                 granted := granted lock; nGranted := nGranted lock |})
           proc
           {| pid := pid p; lockGroupLeader := lockGroupLeader p; lockGroupMembers := lockGroupMembers p;
              links := false; waitLock := None; waitProcLock := None;
              waitLockMode := waitLockMode p; heldLocks := heldLocks p; waitStatus := status |}).

(** The loop over the queue, from its first process to its last. *)
Fixpoint wakeup_loop (MyProc : Z) (tag : LOCKTAG) (queue : list Z) (aheadRequests : Z) (s : lmgr) : cres lmgr :=
  match queue with
  | [] => Ret s
  | proc :: queue =>
      let lockmode := waitLockMode (allProcs s proc) in
      let* (_, owner) := deref (waitProcLock (allProcs s proc)) in
      let* status :=
        (if Z.land (conflictTab lockmode) aheadRequests =? 0
         then LockCheckConflicts s MyProc lockmode tag owner else Ret STATUS_FOUND) in
      if status =? STATUS_OK then
        let* s := GrantLock s tag owner lockmode in
        let* s := ProcWakeup s proc STATUS_OK in
        wakeup_loop MyProc tag queue aheadRequests s
      else wakeup_loop MyProc tag queue (Z.lor aheadRequests (LOCKBIT_ON lockmode)) s
  end.

Definition ProcLockWakeup (s : lmgr) (MyProc : Z) (tag : LOCKTAG) : cres lmgr :=
  let* lock := deref (LockHash s !! tag) in
  wakeup_loop MyProc tag (waitProcs lock) 0 s.

(** Drop the proclock if it holds nothing, the lock if nobody requests it, and
    wake waiters otherwise. *)
Definition CleanUpLock (s : lmgr) (MyProc : Z) (tag : LOCKTAG) (proclock : Z) (wakeupNeeded : bool) : cres lmgr :=
  let* pl := deref (ProcLockHash s !! (tag, proclock)) in
  let* lock := deref (LockHash s !! tag) in
  let dropped := holdMask pl =? 0 in
  let lock := if dropped then {| grantMask := grantMask lock; waitMask := waitMask lock;
                                 procLocks := filter (fun q => q <> proclock) (procLocks lock);
                                 waitProcs := waitProcs lock;
                                 requested := requested lock; nRequested := nRequested lock;
                                 granted := granted lock; nGranted := nGranted lock |} else lock in
  let s := if dropped then set_proclocks (put_lock s tag lock) (delete (tag, proclock) (ProcLockHash s)) else s in
  if nRequested lock =? 0 then
    c_assert (bool_decide (procLocks lock = []));;
    Ret (set_locks s (delete tag (LockHash s)))
  else if wakeupNeeded then ProcLockWakeup s MyProc tag
  else Ret s.

(** A process that failed to get the lock leaves the queue. *)
Definition RemoveFromWaitQueue (s : lmgr) (MyProc proc : Z) : cres lmgr :=
  let p := allProcs s proc in
  let lockmode := waitLockMode p in
  c_assert (waitStatus p =? STATUS_WAITING);;
  c_assert (links p);;
  let* tag := deref (waitLock p) in
  let* (_, owner) := deref (waitProcLock p) in
  let* lock := deref (LockHash s !! tag) in
  c_assert (negb (bool_decide (waitProcs lock = [])));;
  c_assert (0 <? nRequested lock);;
  c_assert (nGranted lock <? nRequested lock);;
  c_assert (0 <? mget (requested lock) lockmode);;
  let requested' := mset (requested lock) lockmode (mget (requested lock) lockmode - 1) in
  let waitMask' := if mget (granted lock) lockmode =? mget requested' lockmode
                   then Z.land (waitMask lock) (LOCKBIT_OFF lockmode) else waitMask lock in
  let s := put_proc
      (put_lock s tag
         {| grantMask := grantMask lock; waitMask := waitMask'; procLocks := procLocks lock;
            waitProcs := filter (fun q => q <> proc) (waitProcs lock);
            requested := requested'; nRequested := nRequested lock - 1;
            granted := granted lock; nGranted := nGranted lock |})
      proc
      {| pid := pid p; lockGroupLeader := lockGroupLeader p; lockGroupMembers := lockGroupMembers p;
         links := false; waitLock := None; waitProcLock := None;
         waitLockMode := waitLockMode p; heldLocks := heldLocks p; waitStatus := STATUS_ERROR |} in
  CleanUpLock s MyProc tag owner true.

(** ** Requesting a lock *)

Inductive setup_result := SetupOutOfMemory | SetupDone | SetupAlreadyHeld.

Definition new_LOCK : LOCK :=
  {| grantMask := 0; waitMask := 0; procLocks := []; waitProcs := [];
     requested := replicate (Z.to_nat MAX_LOCKMODES) 0; nRequested := 0;
     granted := replicate (Z.to_nat MAX_LOCKMODES) 0; nGranted := 0 |}.

(** The entry of the process for the lock, found or made, and the request counted.
    [room_proclock]: the shared table has room for one more PROCLOCK. *)
Definition setup_proclock (room_proclock : bool) (s : lmgr) (proc : Z) (tag : LOCKTAG) (lockmode : Z) (lock : LOCK) : cres (lmgr * setup_result) :=
  match ProcLockHash s !! (tag, proc), room_proclock with
  | None, false =>
      if nRequested lock =? 0 then
        c_assert (bool_decide (procLocks lock = []));;
        Ret (set_locks s (delete tag (LockHash s)), SetupOutOfMemory)
      else Ret (put_lock s tag lock, SetupOutOfMemory)
  | found, _ =>
      let pl := default {| groupLeader := leader_of s proc; holdMask := 0 |} found in
      let procLocks' := match found with Some _ => procLocks lock | None => procLocks lock ++ [proc] end in
      c_assert (Z.land (holdMask pl) (Z.lnot (grantMask lock)) =? 0);;
      let s := put_proclock
          (put_lock s tag
             {| grantMask := grantMask lock; waitMask := waitMask lock;
                procLocks := procLocks'; waitProcs := waitProcs lock;
                requested := mset (requested lock) lockmode (mget (requested lock) lockmode + 1);
                nRequested := nRequested lock + 1;
                granted := granted lock; nGranted := nGranted lock |})
          (tag, proc) pl in
      if Z.land (holdMask pl) (LOCKBIT_ON lockmode) =? 0 then Ret (s, SetupDone)
      else Ret (s, SetupAlreadyHeld)
  end.

(** [room_lock]: the shared table has room for one more LOCK. *)
Definition SetupLockInTable (room_lock room_proclock : bool) (s : lmgr) (proc : Z) (tag : LOCKTAG) (lockmode : Z) : cres (lmgr * setup_result) :=
  match LockHash s !! tag, room_lock with
  | None, false => Ret (s, SetupOutOfMemory)
  | found, _ =>
      let lock := default new_LOCK found in
      c_assert ((0 <=? nRequested lock) && (0 <=? mget (requested lock) lockmode));;
      c_assert ((0 <=? nGranted lock) && (0 <=? mget (granted lock) lockmode));;
      c_assert (nGranted lock <=? nRequested lock);;
      setup_proclock room_proclock s proc tag lockmode lock
  end.

(** Where to stand in the queue: before the process at an index, with or
    without a deadlock with it; or the lock can be had at once. *)
Inductive sleep_place := PlaceBefore (i : nat) | PlaceDeadlock (i : nat) (other : Z) | PlaceGrant.

(** The loop of [ProcSleep] over the wait queue. *)
Fixpoint sleep_scan (s : lmgr) (MyProc : Z) (tag : LOCKTAG) (lockmode myHeldLocks : Z) (queue : list Z) (i : nat) (aheadRequests : Z) : cres sleep_place :=
  match queue with
  | [] => Ret (PlaceBefore i)
  | proc :: queue =>
      let p := allProcs s proc in
      let leader := lockGroupLeader (allProcs s MyProc) in
      if bool_decide (leader <> None) && bool_decide (leader = lockGroupLeader p)
      then sleep_scan s MyProc tag lockmode myHeldLocks queue (S i) aheadRequests
      else if negb (Z.land (conflictTab (waitLockMode p)) myHeldLocks =? 0) then
        if negb (Z.land (conflictTab lockmode) (heldLocks p) =? 0) then Ret (PlaceDeadlock i proc)
        else
          let* status :=
            (if Z.land (conflictTab lockmode) aheadRequests =? 0
             then LockCheckConflicts s MyProc lockmode tag MyProc else Ret STATUS_FOUND) in
          if status =? STATUS_OK then Ret PlaceGrant else Ret (PlaceBefore i)
      else sleep_scan s MyProc tag lockmode myHeldLocks queue (S i) (Z.lor aheadRequests (LOCKBIT_ON (waitLockMode p)))
  end.

(** The locks held by the members of the group. *)
Definition group_held_locks (s : lmgr) (MyProc : Z) (tag : LOCKTAG) (lock : LOCK) : Z :=
  match lockGroupLeader (allProcs s MyProc) with
  | None => heldLocks (allProcs s MyProc)
  | Some leader =>
      foldl (fun held other =>
               match ProcLockHash s !! (tag, other) with
               | Some pl => if groupLeader pl =? leader then Z.lor held (holdMask pl) else held
               | None => held
               end) (heldLocks (allProcs s MyProc)) (procLocks lock)
  end.

(** Into the queue before the process at index [i]. *)
Definition enqueue (s : lmgr) (MyProc : Z) (tag : LOCKTAG) (lock : LOCK) (lockmode : Z) (i : nat) : lmgr :=
  let p := allProcs s MyProc in
  put_proc
    (put_lock s tag
       {| grantMask := grantMask lock; waitMask := Z.lor (waitMask lock) (LOCKBIT_ON lockmode);
          procLocks := procLocks lock;
          waitProcs := take i (waitProcs lock) ++ MyProc :: drop i (waitProcs lock);
          requested := requested lock; nRequested := nRequested lock;
          granted := granted lock; nGranted := nGranted lock |})
    MyProc
    {| pid := pid p; lockGroupLeader := lockGroupLeader p; lockGroupMembers := lockGroupMembers p;
       links := true; waitLock := Some tag; waitProcLock := Some (tag, MyProc);
       waitLockMode := lockmode; heldLocks := heldLocks p; waitStatus := STATUS_WAITING |}.

Inductive sleep_result := SleepGranted | SleepDeadlock | SleepWaiting.

(** [ProcSleep] up to the point where the process lets the partition lock go. *)
Definition ProcSleep (s : lmgr) (MyProc : Z) (tag : LOCKTAG) (lockmode : Z) : cres (lmgr * sleep_result) :=
  let* lock := deref (LockHash s !! tag) in
  let myHeldLocks := group_held_locks s MyProc tag lock in
  let* place :=
    (if myHeldLocks =? 0 then Ret (PlaceBefore (length (waitProcs lock)))
     else sleep_scan s MyProc tag lockmode myHeldLocks (waitProcs lock) 0 0) in
  match place with
  | PlaceGrant =>
      let* s := GrantLock s tag MyProc lockmode in Ret (s, SleepGranted)
  | PlaceDeadlock i _ =>
      let* s := RemoveFromWaitQueue (enqueue s MyProc tag lock lockmode i) MyProc MyProc in Ret (s, SleepDeadlock)
  | PlaceBefore i => Ret (enqueue s MyProc tag lock lockmode i, SleepWaiting)
  end.

Inductive acquire_result := AcquireOutOfMemory | AcquireOK | AcquireNotAvail | AcquireDeadlock | AcquireWaiting.

(** The part of [LockAcquireExtended] that runs under the partition lock:
    find or make the entries, grant the lock if nothing conflicts, and otherwise
    give up or join the queue. *)
Definition acquire_shared (room_lock room_proclock : bool) (s : lmgr) (MyProc : Z) (tag : LOCKTAG) (lockmode : Z) (dontWait : bool) : cres (lmgr * acquire_result) :=
  let* (s, res) := SetupLockInTable room_lock room_proclock s MyProc tag lockmode in
  match res with
  | SetupOutOfMemory => Ret (s, AcquireOutOfMemory)
  | SetupAlreadyHeld => Elog "lock is already held"
  | SetupDone =>
      let* lock := deref (LockHash s !! tag) in
      let* pl := deref (ProcLockHash s !! (tag, MyProc)) in
      let* status :=
        (if negb (Z.land (conflictTab lockmode) (waitMask lock) =? 0) then Ret STATUS_FOUND
         else LockCheckConflicts s MyProc lockmode tag MyProc) in
      if status =? STATUS_OK then
        let* s := GrantLock s tag MyProc lockmode in Ret (s, AcquireOK)
      else if dontWait then
        let dropped := holdMask pl =? 0 in
        let requested' := mset (requested lock) lockmode (mget (requested lock) lockmode - 1) in
        let lock' := {| grantMask := grantMask lock; waitMask := waitMask lock;
                        procLocks := if dropped then filter (fun q => q <> MyProc) (procLocks lock) else procLocks lock;
                        waitProcs := waitProcs lock;
                        requested := requested'; nRequested := nRequested lock - 1;
                        granted := granted lock; nGranted := nGranted lock |} in
        let s := put_lock s tag lock' in
        let s := if dropped then set_proclocks s (delete (tag, MyProc) (ProcLockHash s)) else s in
        c_assert ((0 <? nRequested lock') && (0 <=? mget requested' lockmode));;
        c_assert (nGranted lock' <=? nRequested lock');;
        Ret (s, AcquireNotAvail)
      else
        let p := allProcs s MyProc in
        let s := put_proc s MyProc
            {| pid := pid p; lockGroupLeader := lockGroupLeader p; lockGroupMembers := lockGroupMembers p;
               links := links p; waitLock := waitLock p; waitProcLock := waitProcLock p;
               waitLockMode := waitLockMode p; heldLocks := holdMask pl; waitStatus := waitStatus p |} in
        let* (s, res) := ProcSleep s MyProc tag lockmode in
        match res with
        | SleepGranted => Ret (s, AcquireOK)
        | SleepDeadlock => Ret (s, AcquireDeadlock)
        | SleepWaiting => Ret (s, AcquireWaiting)
        end
  end.

(** The part of [LockRelease] that runs under the partition lock.  [false]: the
    process does not hold the lock in this mode. *)
Definition release_shared (s : lmgr) (MyProc : Z) (tag : LOCKTAG) (lockmode : Z) : cres (lmgr * bool) :=
  let* lock := deref (LockHash s !! tag) in
  let* pl := deref (ProcLockHash s !! (tag, MyProc)) in
  if Z.land (holdMask pl) (LOCKBIT_ON lockmode) =? 0 then Ret (s, false)
  else
    let* (s, wakeupNeeded) := UnGrantLock s tag lockmode MyProc in
    let* s := CleanUpLock s MyProc tag MyProc wakeupNeeded in
    Ret (s, true).

(** ** Releasing several modes at once *)

(** The loop of [LockReleaseAll] over the modes marked in [releaseMask]. *)
Fixpoint ungrant_modes (modes : list Z) (s : lmgr) (tag : LOCKTAG) (proclock releaseMask : Z) (wakeupNeeded : bool) : cres (lmgr * bool) :=
  match modes with
  | [] => Ret (s, wakeupNeeded)
  | i :: modes =>
      if Z.land releaseMask (LOCKBIT_ON i) =? 0 then ungrant_modes modes s tag proclock releaseMask wakeupNeeded
      else
        let* (s, w) := UnGrantLock s tag i proclock in
        ungrant_modes modes s tag proclock releaseMask (wakeupNeeded || w)
  end.

(** What [LockReleaseAll] does with one PROCLOCK that has modes to release. *)
Definition release_proclock (s : lmgr) (MyProc : Z) (tag : LOCKTAG) (releaseMask : Z) : cres lmgr :=
  let* lock := deref (LockHash s !! tag) in
  let* pl := deref (ProcLockHash s !! (tag, MyProc)) in
  c_assert (0 <=? nRequested lock);;
  c_assert (0 <=? nGranted lock);;
  c_assert (nGranted lock <=? nRequested lock);;
  c_assert (Z.land (holdMask pl) (Z.lnot (grantMask lock)) =? 0);;
  let* (s, wakeupNeeded) := ungrant_modes lock_modes s tag MyProc releaseMask false in
  let* lock := deref (LockHash s !! tag) in
  c_assert ((0 <=? nRequested lock) && (0 <=? nGranted lock));;
  c_assert (nGranted lock <=? nRequested lock);;
  CleanUpLock s MyProc tag MyProc wakeupNeeded.
