(* ===== verification/LockInvariant.v ===== *)
(** * Heavyweight locks: the invariant of the lock table

    What the counters, masks and queues of a [LOCK] say about the processes
    that hold and await it, and what [LockCheckConflicts] computes from them. *)
From stdpp Require Import list gmap functions.
From S2P Require Import Prelude LockModes LockTable.

(** ** Masks *)

Lemma testbit_LOCKBIT_ON i m : 0 <= i -> Z.testbit (LOCKBIT_ON i) m = (m =? i).
Proof.
  intros Hi. unfold LOCKBIT_ON. destruct (Z.ltb_spec m 0).
  - rewrite Z.testbit_neg_r by lia. lia.
  - rewrite Z.shiftl_spec by lia. destruct (Z.eqb_spec m i) as [->|].
    + by rewrite Z.sub_diag.
    + destruct (Z.ltb_spec m i); [apply Z.testbit_neg_r; lia|].
      replace 1 with (2 ^ 0) by done. rewrite Z.pow2_bits_eqb by lia. lia.
Qed.

Lemma testbit_LOCKBIT_OFF i m : 0 <= i -> 0 <= m -> Z.testbit (LOCKBIT_OFF i) m = negb (m =? i).
Proof. intros Hi Hm. unfold LOCKBIT_OFF. rewrite Z.lnot_spec by lia. f_equal. by apply testbit_LOCKBIT_ON. Qed.

Lemma land_bit x i : 0 <= i -> (Z.land x (LOCKBIT_ON i) =? 0) = negb (Z.testbit x i).
Proof.
  intros Hi. destruct (Z.testbit x i) eqn:E; cbn [negb].
  - apply Z.eqb_neq. apply (bits_nonzero _ i). by rewrite Z.land_spec, E, testbit_LOCKBIT_ON, Z.eqb_refl.
  - apply Z.eqb_eq, Z.bits_inj'. intros m Hm. rewrite Z.land_spec, testbit_LOCKBIT_ON, Z.bits_0 by done.
    destruct (Z.eqb_spec m i) as [->|]; [by rewrite E|by rewrite andb_false_r].
Qed.

Lemma nonzero_bit x : x <> 0 -> exists m, 0 <= m /\ Z.testbit x m = true.
Proof.
  intros Hx. destruct (Z.ltb_spec 0 x).
  - exists (Z.log2 x). split; [apply Z.log2_nonneg|by apply Z.bit_log2].
  - exists (Z.succ (Z.log2 (Z.pred (- x)))). split; [pose proof (Z.log2_nonneg (Z.pred (- x))); lia|].
    apply Z.bits_above_log2_neg; lia.
Qed.

Lemma land_masks a b :
  (Z.land a b =? 0) = false <-> exists m, 0 <= m /\ Z.testbit a m = true /\ Z.testbit b m = true.
Proof.
  rewrite Z.eqb_neq. split.
  - intros (m & Hm & E)%nonzero_bit. rewrite Z.land_spec, andb_true_iff in E. naive_solver.
  - intros (m & Hm & Ha & Hb). apply (bits_nonzero _ m). by rewrite Z.land_spec, Ha, Hb.
Qed.

Lemma land_masks_none a b :
  (Z.land a b =? 0) = true <-> forall m, Z.testbit a m = true -> Z.testbit b m = false.
Proof.
  split.
  - intros H m Ha. destruct (Z.testbit b m) eqn:Hb; [|done]. rewrite (proj2 (land_masks a b)) in H; [done|].
    exists m. split; [|done]. destruct (Z.ltb_spec m 0); [|done]. by rewrite Z.testbit_neg_r in Ha by done.
  - intros H. destruct (Z.land a b =? 0) eqn:E; [done|]. apply land_masks in E as (m & _ & Ha & Hb).
    rewrite (H m Ha) in Hb. done.
Qed.

(** Two modes conflict. *)
Definition conf (m m' : Z) : bool := Z.testbit (conflictTab m) m'.

Definition is_mode (m : Z) : Prop := 1 <= m <= numLockModes.

Lemma elem_of_lock_modes m : m ∈ lock_modes <-> is_mode m.
Proof. unfold lock_modes, is_mode. rewrite elem_of_seqZ. lia. Qed.

Lemma is_mode_cases m : is_mode m -> m = 1 \/ m = 2 \/ m = 3 \/ m = 4 \/ m = 5 \/ m = 6 \/ m = 7 \/ m = 8.
Proof. unfold is_mode, numLockModes, AccessExclusiveLock. lia. Qed.

Lemma conflictTab_range m : 0 <= conflictTab m < 2 ^ 9.
Proof.
  unfold conflictTab. destruct (zget LockConflicts m) as [c|] eqn:E; [|done]. cbn [default].
  assert (Forall (fun c => 0 <= c < 2 ^ 9) LockConflicts) as HF by (repeat constructor; done).
  unfold zget in E. destruct (m <? 0); [done|]. exact (Forall_lookup_1 _ _ _ _ HF E).
Qed.

Lemma conf_modes m m' : conf m m' = true -> is_mode m /\ is_mode m'.
Proof.
  intros H. assert (0 <= m' < 9) as Hm'.
  { split; [destruct (Z.ltb_spec m' 0); [|done]; unfold conf in H; by rewrite Z.testbit_neg_r in H by done|].
    destruct (Z.ltb_spec m' 9); [done|]. unfold conf in H.
    rewrite (is_u_testbit 9) in H; [done|apply conflictTab_range|lia]. }
  assert (0 <= m < 9) as Hm.
  { unfold conf, conflictTab in H. destruct (zget LockConflicts m) as [c|] eqn:E.
    - apply zget_Some_lt in E. unfold zlen in E. change (length LockConflicts) with 9%nat in E. lia.
    - cbn in H. by rewrite Z.bits_0 in H. }
  assert (m = 0 \/ m <> 0) as [->|] by lia; [by unfold conf in H; change (conflictTab 0) with 0 in H; rewrite Z.bits_0 in H|].
  split; [unfold is_mode, numLockModes, AccessExclusiveLock; lia|].
  assert (m' = 0 \/ m' <> 0) as [->|] by lia; [|unfold is_mode, numLockModes, AccessExclusiveLock; lia].
  exfalso. destruct (is_mode_cases m) as [->|[->|[->|[->|[->|[->|[->| ->]]]]]]]; [unfold is_mode, numLockModes, AccessExclusiveLock; lia|..]; vm_compute in H; done.
Qed.

(** The conflict table is symmetric. *)
Lemma conf_sym m m' : conf m m' = conf m' m.
Proof.
  assert (forall a b, conf a b = true -> conf b a = true) as H.
  { intros a b H. destruct (conf_modes a b H) as (Ha & Hb). revert H.
    destruct (is_mode_cases a Ha) as [->|[->|[->|[->|[->|[->|[->| ->]]]]]]];
      destruct (is_mode_cases b Hb) as [->|[->|[->|[->|[->|[->|[->| ->]]]]]]]; vm_compute; done. }
  destruct (conf m m') eqn:E1, (conf m' m) eqn:E2; try done; [by rewrite (H _ _ E1) in E2|by rewrite (H _ _ E2) in E1].
Qed.

(** The table as the callers of the lock manager see it. *)
Lemma modes_conflict m m' : is_mode m -> is_mode m' -> DoLockModesConflict m m' = Ret (conf m m').
Proof.
  intros Hm Hm'. unfold DoLockModesConflict, conf, conflictTab.
  assert (exists x, zget LockConflicts m = Some x) as (x & ->) by (destruct (is_mode_cases m Hm) as [->|[->|[->|[->|[->|[->|[->| ->]]]]]]]; eexists; vm_compute; reflexivity).
  cbn [deref cbind]. rewrite land_bit by (unfold is_mode in Hm'; lia). by rewrite negb_involutive.
Qed.

(** ** Counting *)

Fixpoint countb {A} (P : A -> bool) (l : list A) : Z :=
  match l with [] => 0 | x :: l => (if P x then 1 else 0) + countb P l end.

Lemma countb_perm {A} (P : A -> bool) l l' : l ≡ₚ l' -> countb P l = countb P l'.
Proof. induction 1; cbn [countb]; lia. Qed.

Section countb.
Context {A : Type} `{EqDecision A}.
Implicit Types (P Q : A -> bool) (l : list A).

Lemma countb_nonneg P l : 0 <= countb P l.
Proof. induction l; cbn [countb]; [done|]. destruct (P a); lia. Qed.

Lemma countb_le P l : countb P l <= zlen l.
Proof. induction l as [|x l IH]; cbn [countb]; [done|]. rewrite zlen_cons. destruct (P x); lia. Qed.

Lemma countb_ext P Q l : (forall x, x ∈ l -> P x = Q x) -> countb P l = countb Q l.
Proof. induction l as [|x l IH]; intros H; [done|]. cbn [countb]. rewrite (H x), IH; set_solver. Qed.

Lemma countb_app P l l' : countb P (l ++ l') = countb P l + countb P l'.
Proof. induction l as [|x l IH]; cbn [countb app]; lia. Qed.

Lemma countb_pos P l : 0 < countb P l <-> exists x, x ∈ l /\ P x = true.
Proof.
  induction l as [|x l IH]; cbn [countb]; [split; [lia|intros (x & H & _); by apply elem_of_nil in H]|].
  pose proof (countb_nonneg P l). destruct (P x) eqn:E; split.
  - intros _. exists x. set_solver.
  - lia.
  - intros (y & Hy & HP)%IH. exists y. set_solver.
  - intros (y & [->|Hy]%elem_of_cons & HP); [by rewrite E in HP|]. rewrite IH. eauto.
Qed.

Lemma countb_zero P l : countb P l = 0 <-> forall x, x ∈ l -> P x = false.
Proof.
  pose proof (countb_nonneg P l). pose proof (countb_pos P l). split.
  - intros H1 x Hx. destruct (P x) eqn:E; [|done]. assert (0 < countb P l) by (apply H0; eauto). lia.
  - intros H1. destruct (Z.ltb_spec 0 (countb P l)) as [(x & Hx & E)%H0|]; [|lia]. by rewrite H1 in E.
Qed.

Lemma countb_filter_ne P a l : countb P (filter (fun q => q <> a) l) = countb (fun x => P x && negb (bool_decide (x = a))) l.
Proof.
  induction l as [|x l IH]; [done|]. rewrite filter_cons. cbn [countb].
  destruct (decide (x = a)) as [->|].
  - rewrite decide_False by naive_solver. rewrite (bool_decide_eq_true_2 (a = a)), andb_false_r by done. lia.
  - rewrite decide_True, (bool_decide_eq_false_2 (x = a)), andb_true_r by done. cbn [countb]. lia.
Qed.

(** Changing the predicate at one element of a list without duplicates. *)
Lemma countb_change P Q a l :
  NoDup l -> a ∈ l -> (forall x, x ∈ l -> x <> a -> P x = Q x) ->
  countb Q l = countb P l - (if P a then 1 else 0) + (if Q a then 1 else 0).
Proof.
  induction l as [|x l IH]; [set_solver|]. intros [Hx Hnd]%NoDup_cons Ha HPQ. cbn [countb].
  apply elem_of_cons in Ha as [->|Ha].
  - rewrite (countb_ext P Q l); [lia|]. intros y Hy. apply HPQ; set_solver.
  - assert (x <> a) by set_solver. rewrite (HPQ x), IH; [lia|done|done|set_solver|set_solver|done].
Qed.

Lemma countb_remove P a l :
  NoDup l -> a ∈ l -> countb P (filter (fun q => q <> a) l) = countb P l - (if P a then 1 else 0).
Proof.
  intros Hnd Ha. rewrite countb_filter_ne, (countb_change P _ a); [|done|done|].
  - rewrite (bool_decide_eq_true_2 (a = a)), andb_false_r by done. lia.
  - intros x _ Hx. by rewrite (bool_decide_eq_false_2 (x = a)), andb_true_r.
Qed.

Lemma filter_ne_id a l : a ∉ l -> filter (fun q => q <> a) l = l.
Proof.
  induction l as [|x l IH]; [done|]. intros (Hne & Hl)%not_elem_of_cons.
  rewrite filter_cons, decide_True, IH by (done || by intros ->). done.
Qed.

Lemma zlen_remove a l : NoDup l -> a ∈ l -> zlen (filter (fun q => q <> a) l) = zlen l - 1.
Proof.
  intros Hnd Ha. assert (forall l : list A, zlen l = countb (fun _ => true) l) as Hc.
  { induction l0 as [|x l0 IH]; [done|]. rewrite zlen_cons, IH. done. }
  rewrite !Hc. by apply countb_remove.
Qed.

End countb.

(** The sum of a per-mode quantity. *)
Definition msum (f : Z -> Z) : Z := foldr Z.add 0 (map f lock_modes).

Lemma msum_ext f g : (forall m, is_mode m -> f m = g m) -> msum f = msum g.
Proof.
  intros H. unfold msum. f_equal. apply map_ext_in. intros m Hm%list_elem_of_In. by apply H, elem_of_lock_modes.
Qed.

Lemma msum_plus f g : msum (fun m => f m + g m) = msum f + msum g.
Proof. unfold msum. induction lock_modes as [|m l IH]; cbn [map foldr]; lia. Qed.

Lemma msum_nonneg f : (forall m, is_mode m -> 0 <= f m) -> 0 <= msum f.
Proof.
  intros H. unfold msum. assert (forall l, (forall m, m ∈ l -> is_mode m) -> 0 <= foldr Z.add 0 (map f l)) as Hl.
  { induction l as [|m l IH]; cbn [map foldr]; [done|]. intros Hin.
    pose proof (H m (Hin m (list_elem_of_here _ _))). pose proof (IH (fun x Hx => Hin x (list_elem_of_further _ _ _ Hx))). lia. }
  apply Hl. intros m. apply elem_of_lock_modes.
Qed.

Lemma msum_le_zero f m : (forall m, is_mode m -> 0 <= f m) -> is_mode m -> f m <= msum f.
Proof.
  intros H Hm. unfold msum.
  assert (forall l, (forall m, m ∈ l -> is_mode m) -> m ∈ l -> f m <= foldr Z.add 0 (map f l) /\ 0 <= foldr Z.add 0 (map f l)) as Hl.
  { induction l as [|x l IH]; [set_solver|]. cbn [map foldr]. intros Hin Hml.
    pose proof (H x (Hin x (list_elem_of_here _ _))).
    assert (0 <= foldr Z.add 0 (map f l)).
    { clear -H Hin. induction l as [|y l IH]; [done|]. cbn [map foldr]. pose proof (H y ltac:(apply Hin; set_solver)).
      assert (0 <= foldr Z.add 0 (map f l)) by (apply IH; set_solver). lia. }
    apply elem_of_cons in Hml as [->|Hml]; [lia|]. destruct (IH ltac:(set_solver) Hml). lia. }
  apply Hl; [|by apply elem_of_lock_modes]. intros x. apply elem_of_lock_modes.
Qed.

Lemma msum_change f g m :
  is_mode m -> (forall x, is_mode x -> x <> m -> f x = g x) -> msum g = msum f - f m + g m.
Proof.
  intros Hm Hfg. unfold msum.
  assert (forall l, NoDup l -> (forall x, x ∈ l -> is_mode x) ->
    foldr Z.add 0 (map g l) = foldr Z.add 0 (map f l) + (if bool_decide (m ∈ l) then g m - f m else 0)) as Hl.
  { induction l as [|x l IH]; intros Hnd Hin; [done|]. cbn [map foldr]. apply NoDup_cons in Hnd as [Hx Hnd].
    rewrite IH by set_solver. destruct (decide (x = m)) as [->|Hne].
    - rewrite bool_decide_eq_false_2, bool_decide_eq_true_2 by set_solver. lia.
    - rewrite <- (Hfg x) by set_solver. rewrite (bool_decide_ext (m ∈ x :: l) (m ∈ l)) by set_solver. lia. }
  rewrite Hl; [|apply NoDup_seqZ|intros x; apply elem_of_lock_modes].
  rewrite bool_decide_eq_true_2 by (by apply elem_of_lock_modes). lia.
Qed.

(** ** Arrays of counters *)

Lemma mget_mset a m v m' :
  0 <= m < zlen a -> mget (mset a m v) m' = if m' =? m then v else mget a m'.
Proof.
  intros Hm. unfold mget, mset. destruct (zset_is_Some a m v Hm) as [a' E]. rewrite E. simpl.
  unfold id. rewrite (zget_zset _ _ _ _ _ E). destruct (Z.eqb_spec m' m) as [->|].
  - by rewrite decide_True.
  - by rewrite decide_False.
Qed.

Lemma mset_len a m v : zlen (mset a m v) = zlen a.
Proof. unfold mset. destruct (zset a m v) as [a'|] eqn:E; [|done]. exact (zset_len _ _ _ _ E). Qed.

(** ** Who holds and who waits *)

(** Process [p] holds lock [t] in mode [m]. *)
Definition holds (s : lmgr) (t : LOCKTAG) (p m : Z) : bool :=
  match ProcLockHash s !! (t, p) with Some pl => Z.testbit (holdMask pl) m | None => false end.

Definition waits_mode (s : lmgr) (w : Z) : Z := waitLockMode (allProcs s w).

(** A mask with bits of lock modes only. *)
Definition mask_ok (mask : Z) : Prop := forall m, Z.testbit mask m = true -> is_mode m.

(** The process is on the queue of the lock. *)
Record waiter_ok (s : lmgr) (t : LOCKTAG) (w : Z) : Prop := {
  wk_links : links (allProcs s w) = true;
  wk_lock : waitLock (allProcs s w) = Some t;
  wk_proclock : waitProcLock (allProcs s w) = Some (t, w);
  wk_status : waitStatus (allProcs s w) = STATUS_WAITING;
  wk_mode : is_mode (waits_mode s w);
  wk_not_held : holds s t w (waits_mode s w) = false;
  wk_held : forall m, Z.testbit (heldLocks (allProcs s w)) m = true -> holds s t w m = true }.

(** [p] waits for mode [m] behind a holder of another group. *)
Definition hard_blocked (s : lmgr) (t : LOCKTAG) (p m : Z) : Prop :=
  exists q m', leader_of s q <> leader_of s p /\ holds s t q m' = true /\ conf m m' = true.

(** The grants of a lock: counters and mask agree with what the processes hold. *)
Record lock_grants (s : lmgr) (t : LOCKTAG) (L : LOCK) : Prop := {
  lc_nodup : NoDup (procLocks L);
  lc_proclocks : forall p, p ∈ procLocks L <-> is_Some (ProcLockHash s !! (t, p));
  lc_entry : forall p pl, ProcLockHash s !! (t, p) = Some pl -> groupLeader pl = leader_of s p /\ mask_ok (holdMask pl);
  lc_glen : zlen (granted L) = MAX_LOCKMODES;
  lc_rlen : zlen (requested L) = MAX_LOCKMODES;
  lc_granted : forall m, mget (granted L) m = countb (fun p => holds s t p m) (procLocks L);
  lc_grantMask : forall m, 0 <= m -> Z.testbit (grantMask L) m = (0 <? mget (granted L) m);
  lc_nGranted : nGranted L = msum (mget (granted L)) }.

(** Two groups hold conflicting modes in the second state only if they did in the
    first. *)
Record no_new_conflicts (s s' : lmgr) : Prop := {
  nc_leader : forall p, leader_of s' p = leader_of s p;
  nc_pairs : forall t p q m m', leader_of s p <> leader_of s q -> conf m m' = true -> holds s' t p m = true -> holds s' t q m' = true ->
    holds s t p m = true /\ holds s t q m' = true }.

Lemma no_new_conflicts_refl s : no_new_conflicts s s.
Proof. by constructor. Qed.

Lemma no_new_conflicts_trans s s1 s2 : no_new_conflicts s s1 -> no_new_conflicts s1 s2 -> no_new_conflicts s s2.
Proof.
  intros [A1 A2] [B1 B2]. constructor; [intros p; by rewrite B1|]. intros t p q m m' Hne Hc Hp Hq.
  destruct (B2 t p q m m') as (Hp' & Hq'); [by rewrite !A1|done|done|done|]. by apply A2.
Qed.

(** Nothing is granted. *)
Lemma no_new_conflicts_fewer s s' :
  (forall p, leader_of s' p = leader_of s p) -> (forall t q m, holds s' t q m = true -> holds s t q m = true) -> no_new_conflicts s s'.
Proof. intros Hl Hh. constructor; [done|]. intros t p q m m' _ _ Hp Hq. split; by apply Hh. Qed.

(** The wait queue of a lock and its mask. *)
Record lock_queue (s : lmgr) (t : LOCKTAG) (L : LOCK) : Prop := {
  lc_waiters : forall w, w ∈ waitProcs L -> waiter_ok s t w /\ w ∈ procLocks L;
  lc_queue_nodup : NoDup (waitProcs L);
  lc_waitMask : forall m, 0 <= m -> Z.testbit (waitMask L) m = (0 <? countb (fun w => waits_mode s w =? m) (waitProcs L)) }.

Definition pend (pending : option Z) (m : Z) : Z := match pending with Some m' => if m' =? m then 1 else 0 | None => 0 end.
Definition pend_any (pending : option Z) : Z := match pending with Some _ => 1 | None => 0 end.

(** Requests are grants, waiters and, while a routine runs, one request that is
    neither granted nor waiting yet. *)
Record lock_counts (s : lmgr) (L : LOCK) (pending : option Z) : Prop := {
  lq_requested : forall m, mget (requested L) m = mget (granted L) m + countb (fun w => waits_mode s w =? m) (waitProcs L) + pend pending m;
  lq_nRequested : nRequested L = nGranted L + zlen (waitProcs L) + pend_any pending }.

(** The requests before a waiter in the queue, or a holder, stand in its way. *)
Definition blocked (s : lmgr) (t : LOCKTAG) (ahead : list Z) (w : Z) : Prop :=
  (exists a, a ∈ ahead /\ conf (waits_mode s w) (waits_mode s a) = true) \/ hard_blocked s t w (waits_mode s w).

(** Every waiter is blocked: none should have been woken. *)
Definition queue_blocked (s : lmgr) (t : LOCKTAG) (L : LOCK) : Prop :=
  forall ahead w behind, waitProcs L = ahead ++ w :: behind -> blocked s t ahead w.

(** Every entry is in use. *)
Definition entries_used (s : lmgr) (t : LOCKTAG) (L : LOCK) : Prop :=
  forall p pl, ProcLockHash s !! (t, p) = Some pl -> holdMask pl <> 0 \/ p ∈ waitProcs L.

(** Lock groups: the leader leads itself, and lists its members. *)
Record groups_ok (f : Z -> PGPROC) : Prop := {
  gr_leader : forall p l, lockGroupLeader (f p) = Some l -> lockGroupLeader (f l) = Some l;
  gr_members : forall p l, p ∈ lockGroupMembers (f l) <-> lockGroupLeader (f p) = Some l }.

Lemma leader_idem s p : groups_ok (allProcs s) -> leader_of s (leader_of s p) = leader_of s p.
Proof.
  intros ok. unfold leader_of at 2 3. destruct (lockGroupLeader (allProcs s p)) as [l|] eqn:E; simpl; unfold id.
  - unfold leader_of. by rewrite (gr_leader _ ok p l E).
  - unfold leader_of. by rewrite E.
Qed.

(** A lock between two operations on it. *)
Record lock_ok (s : lmgr) (t : LOCKTAG) (L : LOCK) : Prop := {
  lk_grants : lock_grants s t L;
  lk_queue : lock_queue s t L;
  lk_counts : lock_counts s L None;
  lk_blocked : queue_blocked s t L;
  lk_used : entries_used s t L;
  lk_live : 0 < nRequested L }.

(** A process on a queue is on the queue of the lock it waits for, and a process
    that is on none waits for none. *)
Record links_ok (s : lmgr) : Prop := {
  ln_queued : forall p, links (allProcs s p) = true ->
    exists t L, waitLock (allProcs s p) = Some t /\ LockHash s !! t = Some L /\ p ∈ waitProcs L;
  ln_idle : forall p, links (allProcs s p) = false -> waitLock (allProcs s p) = None }.

Record lmgr_ok (s : lmgr) : Prop := {
  ok_groups : groups_ok (allProcs s);
  ok_locks : forall t L, LockHash s !! t = Some L -> lock_ok s t L;
  ok_dom : forall t p, is_Some (ProcLockHash s !! (t, p)) -> is_Some (LockHash s !! t);
  ok_links : links_ok s }.

(** While a routine works on lock [t]: that lock may have a pending request,
    unused entries and waiters that can be woken; every other lock is in order. *)
Record busy (s : lmgr) (t : LOCKTAG) (L : LOCK) (pending : option Z) : Prop := {
  bz_groups : groups_ok (allProcs s);
  bz_lock : LockHash s !! t = Some L;
  bz_grants : lock_grants s t L;
  bz_queue : lock_queue s t L;
  bz_counts : lock_counts s L pending;
  bz_others : forall t' L', t' <> t -> LockHash s !! t' = Some L' -> lock_ok s t' L';
  bz_dom : forall t p, is_Some (ProcLockHash s !! (t, p)) -> is_Some (LockHash s !! t);
  bz_links : links_ok s }.

(** ** What [LockCheckConflicts] computes *)

(** Conflicting locks held by other processes: those already looked at and not
    of the group, and all the others. *)
Definition foreign (s : lmgr) (t : LOCKTAG) (p m q : Z) : bool := holds s t q m && negb (q =? p) && negb (leader_of s q =? leader_of s p).
Definition others (s : lmgr) (t : LOCKTAG) (p m q : Z) : bool := holds s t q m && negb (q =? p).
Definition left_over (s : lmgr) (t : LOCKTAG) (lockmode p : Z) (done todo : list Z) (i : Z) : Z :=
  if conf lockmode i then countb (foreign s t p i) done + countb (others s t p i) todo else 0.

Lemma left_over_nonneg s t lockmode p done todo i : 0 <= left_over s t lockmode p done todo i.
Proof. unfold left_over. pose proof (countb_nonneg (foreign s t p i) done). pose proof (countb_nonneg (others s t p i) todo). destruct (conf lockmode i); lia. Qed.

(** The inner loop takes the modes of one process out. *)
Lemma subtract_group_locks_ok modes mask (R R' : Z -> Z) rem total :
  NoDup modes -> (forall m, m ∈ modes -> is_mode m) -> zlen rem = 9 ->
  (forall m, is_mode m -> mget rem m = if bool_decide (m ∈ modes) then R m else R' m) ->
  (forall m, is_mode m -> R m = R' m + (if Z.testbit mask m then 1 else 0)) ->
  (forall m, is_mode m -> 0 <= R' m) ->
  total = msum (fun m => if bool_decide (m ∈ modes) then R m else R' m) ->
  exists rem', subtract_group_locks modes mask rem total = Ret (rem', msum R') /\ zlen rem' = 9 /\
    (forall m, is_mode m -> mget rem' m = R' m).
Proof.
  revert rem total. induction modes as [|i modes IH]; intros rem total Hnd Hmodes Hlen Hrem HR Hpos Htotal.
  { exists rem. cbn [subtract_group_locks]. rewrite Htotal. split_and!; [|done|].
    - done.
    - intros m Hm. rewrite Hrem by done. by rewrite bool_decide_eq_false_2 by set_solver. }
  apply NoDup_cons in Hnd as [Hi Hnd]. assert (is_mode i) as Him by set_solver.
  assert (0 <= i < 9) by (unfold is_mode, numLockModes, AccessExclusiveLock in Him; lia).
  cbn [subtract_group_locks]. rewrite land_bit by lia. pose proof (HR i Him) as HRi.
  assert (forall m, is_mode m -> m <> i -> (m ∈ i :: modes <-> m ∈ modes)) as Hother by set_solver.
  assert (msum (fun m => if bool_decide (m ∈ modes) then R m else R' m) = total - R i + R' i) as Hsum.
  { rewrite Htotal, (msum_change (fun m => if bool_decide (m ∈ i :: modes) then R m else R' m)
      (fun m => if bool_decide (m ∈ modes) then R m else R' m) i Him).
    - rewrite (bool_decide_eq_true_2 (i ∈ i :: modes)), (bool_decide_eq_false_2 (i ∈ modes)); [lia|done|set_solver].
    - intros x Hx Hne. by rewrite (bool_decide_ext _ _ (Hother x Hx Hne)). }
  destruct (Z.testbit mask i) eqn:Ebit; cbn [negb].
  - rewrite Hrem, bool_decide_eq_true_2 by set_solver. pose proof (Hpos i Him).
    destruct (Z.leb_spec (R i) 0); [lia|].
    apply IH; [done|set_solver|by rewrite mset_len| |done|done|lia].
    intros m Hm. rewrite mget_mset by lia. destruct (Z.eqb_spec m i) as [->|Hne].
    + rewrite bool_decide_eq_false_2 by done. lia.
    + rewrite Hrem by done. by rewrite (bool_decide_ext _ _ (Hother m Hm Hne)).
  - apply IH; [done|set_solver|done| |done|done|lia].
    intros m Hm. rewrite Hrem by done. destruct (decide (m = i)) as [->|Hne].
    + rewrite bool_decide_eq_true_2, bool_decide_eq_false_2 by set_solver. lia.
    + by rewrite (bool_decide_ext _ _ (Hother m Hm Hne)).
Qed.

(** No other group holds a conflicting mode. *)
Definition conflict_free (s : lmgr) (t : LOCKTAG) (lockmode p : Z) : Prop := forall q m, leader_of s q <> leader_of s p -> holds s t q m = true -> conf lockmode m = false.

Section check_conflicts.
Context (s : lmgr) (t : LOCKTAG) (L : LOCK).
Hypothesis HL : LockHash s !! t = Some L.
Hypothesis core : lock_grants s t L.
Hypothesis groups : groups_ok (allProcs s).

Lemma leader_of_alone p q :
  lockGroupLeader (allProcs s p) = None -> leader_of s q = leader_of s p -> q = p.
Proof.
  unfold leader_of. intros Hp. rewrite Hp. simpl. destruct (lockGroupLeader (allProcs s q)) as [l|] eqn:E; simpl; [|done].
  unfold id. intros ->. apply (gr_leader _ groups) in E. congruence.
Qed.

Lemma held_mode p m : holds s t p m = true -> is_mode m /\ p ∈ procLocks L.
Proof.
  unfold holds. destruct (ProcLockHash s !! (t, p)) as [pl|] eqn:E; [|done]. intros H.
  split; [by apply (lc_entry _ _ _ core _ _ E)|]. apply (lc_proclocks _ _ _ core). eauto.
Qed.

Lemma no_left_over lockmode p done todo :
  procLocks L = done ++ todo -> msum (left_over s t lockmode p done todo) = 0 -> conflict_free s t lockmode p.
Proof.
  intros Hl Hz q m Hq Hh. destruct (conf lockmode m) eqn:Ec; [|done].
  destruct (held_mode q m Hh) as (Hm & Hin).
  pose proof (msum_le_zero (left_over s t lockmode p done todo) m (fun m _ => left_over_nonneg s t lockmode p done todo m) Hm) as Hle.
  rewrite Hz in Hle. unfold left_over in Hle. rewrite Ec in Hle.
  assert (q <> p) by congruence. rewrite Hl in Hin. apply elem_of_app in Hin as [Hin|Hin].
  - assert (0 < countb (foreign s t p m) done); [|pose proof (countb_nonneg (others s t p m) todo); lia].
    apply countb_pos. exists q. split; [done|]. unfold foreign. rewrite Hh. cbn. apply andb_true_iff. split; apply negb_true_iff; lia.
  - assert (0 < countb (others s t p m) todo); [|pose proof (countb_nonneg (foreign s t p m) done); lia].
    apply countb_pos. exists q. split; [done|]. unfold others. rewrite Hh. cbn. apply negb_true_iff. lia.
Qed.

Lemma some_left_over lockmode p :
  msum (left_over s t lockmode p (procLocks L) []) <> 0 -> hard_blocked s t p lockmode.
Proof.
  intros Hz. destruct (decide (Exists (fun m => left_over s t lockmode p (procLocks L) [] m <> 0) lock_modes)) as [H|H].
  - apply Exists_exists in H as (m & _ & Hm). unfold left_over in Hm. destruct (conf lockmode m) eqn:Ec; [|done].
    cbn [countb] in Hm. pose proof (countb_nonneg (foreign s t p m) (procLocks L)).
    assert (0 < countb (foreign s t p m) (procLocks L)) as (q & _ & Hq)%countb_pos by lia. unfold foreign in Hq.
    apply andb_true_iff in Hq as (Hq & Hne). apply andb_true_iff in Hq as (Hq & _). apply negb_true_iff, Z.eqb_neq in Hne.
    by exists q, m.
  - exfalso. apply Hz. rewrite (msum_ext _ (fun _ => 0)); [done|]. intros m Hm%elem_of_lock_modes.
    destruct (decide (left_over s t lockmode p (procLocks L) [] m = 0)); [done|]. exfalso. apply H, Exists_exists. eauto.
Qed.

Lemma hard_blocked_not_free lockmode p : hard_blocked s t p lockmode -> conflict_free s t lockmode p -> False.
Proof. intros (q & m & Hq & Hh & Hc) Hf. by rewrite (Hf q m Hq Hh) in Hc. Qed.

(** The loop over the proclocks finds out whether another group conflicts. *)
Lemma group_conflicts_loop_ok lockmode p done todo rem total :
  procLocks L = done ++ todo -> zlen rem = 9 ->
  (forall m, is_mode m -> mget rem m = left_over s t lockmode p done todo m) ->
  total = msum (left_over s t lockmode p done todo) -> total <> 0 ->
  (group_conflicts_loop s t p (leader_of s p) (conflictTab lockmode) todo rem total = Ret STATUS_OK /\ conflict_free s t lockmode p) \/
  (group_conflicts_loop s t p (leader_of s p) (conflictTab lockmode) todo rem total = Ret STATUS_FOUND /\ hard_blocked s t p lockmode).
Proof.
  revert done rem total. induction todo as [|o todo IH]; intros done rem total Hl Hlen Hrem Htotal Hnz.
  { right. split; [done|]. rewrite app_nil_r in Hl. apply some_left_over. rewrite Hl. congruence. }
  cbn [group_conflicts_loop]. assert (o ∈ procLocks L) as Ho by (rewrite Hl; set_solver).
  apply (lc_proclocks _ _ _ core) in Ho as [pl Hpl]. rewrite Hpl. cbn [deref cbind].
  destruct (lc_entry _ _ _ core _ _ Hpl) as (Hlead & Hmask). rewrite Hlead.
  set (mask := Z.land (holdMask pl) (conflictTab lockmode)).
  assert (forall m, Z.testbit mask m = holds s t o m && conf lockmode m) as Hbit.
  { intros m. unfold mask, holds, conf. by rewrite Hpl, Z.land_spec. }
  assert (forall m, left_over s t lockmode p done (o :: todo) m = left_over s t lockmode p (done ++ [o]) todo m +
    (if Z.testbit mask m && negb (o =? p) && (leader_of s p =? leader_of s o) then 1 else 0)) as Hstep.
  { intros m. unfold left_over. rewrite countb_app, Hbit. cbn [countb]. unfold foreign, others.
    rewrite (Z.eqb_sym (leader_of s o)).
    destruct (conf lockmode m), (holds s t o m), (o =? p), (leader_of s p =? leader_of s o); cbn; lia. }
  assert (procLocks L = (done ++ [o]) ++ todo) as Hl' by (by rewrite <- app_assoc).
  destruct (negb (o =? p) && (leader_of s p =? leader_of s o) && negb (mask =? 0)) eqn:Econd.
  - apply andb_true_iff in Econd as ((H1 & H2)%andb_true_iff & H3).
    edestruct (subtract_group_locks_ok lock_modes mask (left_over s t lockmode p done (o :: todo)) (left_over s t lockmode p (done ++ [o]) todo) rem total) as (rem' & -> & Hlen' & Hrem').
    + apply NoDup_seqZ.
    + intros m. apply elem_of_lock_modes.
    + done.
    + intros m Hm. rewrite bool_decide_eq_true_2 by (by apply elem_of_lock_modes). auto.
    + intros m Hm. rewrite Hstep, H1, H2. by rewrite !andb_true_r.
    + intros m Hm. apply left_over_nonneg.
    + rewrite Htotal. apply msum_ext. intros m Hm. by rewrite bool_decide_eq_true_2 by (by apply elem_of_lock_modes).
    + cbn [cbind]. destruct (Z.eqb_spec (msum (left_over s t lockmode p (done ++ [o]) todo)) 0).
      * left. split; [done|]. by eapply no_left_over.
      * by apply (IH (done ++ [o])).
  - assert (forall m, left_over s t lockmode p done (o :: todo) m = left_over s t lockmode p (done ++ [o]) todo m) as Heq.
    { intros m. rewrite Hstep. destruct (Z.testbit mask m) eqn:Eb; cbn [andb]; [|lia].
      assert ((mask =? 0) = false) as Hm0 by (apply Z.eqb_neq; by eapply bits_nonzero).
      rewrite Hm0, andb_true_r in Econd. rewrite Econd. lia. }
    apply (IH (done ++ [o])); [done|done| |by rewrite Htotal; apply msum_ext|done].
    intros m Hm. rewrite Hrem by done. apply Heq.
Qed.

(** The first count: every conflicting lock but the process's own. *)
Lemma conflicts_of_mode_left lockmode p pl i :
  ProcLockHash s !! (t, p) = Some pl -> is_mode i ->
  conflicts_of_mode L (conflictTab lockmode) (holdMask pl) i = left_over s t lockmode p [] (procLocks L) i.
Proof.
  intros Hpl Hi. assert (0 <= i) by (unfold is_mode in Hi; lia).
  unfold conflicts_of_mode, left_over. rewrite !land_bit by done. unfold conf.
  destruct (Z.testbit (conflictTab lockmode) i); cbn [negb countb]; [|done].
  rewrite (lc_granted _ _ _ core). rewrite Z.add_0_l.
  rewrite (countb_change (fun q => holds s t q i) (others s t p i) p).
  - unfold others. rewrite Z.eqb_refl, andb_false_r. unfold holds. rewrite Hpl.
    destruct (Z.testbit (holdMask pl) i); cbn [negb]; lia.
  - apply (lc_nodup _ _ _ core).
  - apply (lc_proclocks _ _ _ core). eauto.
  - intros x _ Hx. unfold others. destruct (Z.eqb_spec x p); [done|]. by rewrite andb_true_r.
Qed.

(** [LockCheckConflicts] never panics, and says whether another group holds a
    conflicting lock. *)
Lemma LockCheckConflicts_ok MyProc lockmode p :
  is_mode lockmode -> p ∈ procLocks L ->
  (LockCheckConflicts s MyProc lockmode t p = Ret STATUS_OK /\ conflict_free s t lockmode p) \/
  (LockCheckConflicts s MyProc lockmode t p = Ret STATUS_FOUND /\ hard_blocked s t p lockmode).
Proof.
  intros Hmode [pl Hpl]%(lc_proclocks _ _ _ core). unfold LockCheckConflicts. rewrite HL, Hpl. cbn [deref cbind].
  destruct (lc_entry _ _ _ core _ _ Hpl) as (Hlead & _). rewrite Hlead.
  destruct (Z.land (conflictTab lockmode) (grantMask L) =? 0) eqn:Eg.
  { left. split; [done|]. intros q m _ Hh. destruct (conf lockmode m) eqn:Ec; [|done].
    destruct (conf_modes _ _ Ec) as (_ & Hm). rewrite land_masks_none in Eg. specialize (Eg m Ec).
    rewrite (lc_grantMask _ _ _ core) in Eg by (unfold is_mode in Hm; lia). rewrite (lc_granted _ _ _ core) in Eg.
    apply Z.ltb_ge in Eg. assert (0 < countb (fun p => holds s t p m) (procLocks L)); [|lia].
    apply countb_pos. exists q. split; [|done]. by apply (held_mode q m). }
  set (rem := 0 :: map (conflicts_of_mode L (conflictTab lockmode) (holdMask pl)) lock_modes).
  assert (foldr Z.add 0 rem = msum (left_over s t lockmode p [] (procLocks L))) as Hsum.
  { unfold rem. cbn [foldr]. rewrite Z.add_0_l. apply (msum_ext (conflicts_of_mode L (conflictTab lockmode) (holdMask pl))).
    intros m Hm. by apply conflicts_of_mode_left. }
  rewrite Hsum. destruct (Z.eqb_spec (msum (left_over s t lockmode p [] (procLocks L))) 0) as [Ez|Ez].
  { left. split; [done|]. exact (no_left_over lockmode p [] (procLocks L) eq_refl Ez). }
  destruct ((leader_of s p =? MyProc) && bool_decide (lockGroupLeader (allProcs s MyProc) = None)) eqn:Egr.
  { right. apply andb_true_iff in Egr as (H1%Z.eqb_eq & H2%bool_decide_eq_true).
    assert (p = MyProc) as Hpm by (apply (leader_of_alone MyProc p H2); unfold leader_of at 2; by rewrite H2).
    split; [by rewrite (proj2 (Z.eqb_eq p MyProc) Hpm)|]. apply some_left_over. intros Hz. apply Ez. rewrite <- Hz at 1. apply msum_ext. intros m Hm. unfold left_over.
    destruct (conf lockmode m); [|done]. cbn [countb]. rewrite Z.add_0_r, Z.add_0_l. apply countb_ext. intros q _.
    unfold others, foreign. destruct (Z.eqb_spec q p); [by rewrite !andb_false_r|].
    destruct (Z.eqb_spec (leader_of s q) (leader_of s p)) as [El|]; [|by rewrite !andb_true_r].
    exfalso. assert (leader_of s MyProc = MyProc) as Hme by (unfold leader_of; by rewrite H2).
    assert (p = MyProc) by (apply (leader_of_alone MyProc); congruence).
    assert (q = MyProc) by (apply (leader_of_alone MyProc); congruence). congruence. }
  apply (group_conflicts_loop_ok lockmode p [] (procLocks L)); [done|..]; [| |done|done].
  - unfold rem. rewrite zlen_cons. unfold zlen. by rewrite length_map.
  - intros m Hm. rewrite <- (conflicts_of_mode_left lockmode p pl m Hpl Hm).
    unfold rem, mget. destruct (is_mode_cases m Hm) as [->|[->|[->|[->|[->|[->|[->| ->]]]]]]]; done.
Qed.
End check_conflicts.
