(* ===== verification/LockOps.v ===== *)
(** * Heavyweight locks: the routines keep the invariant *)
From stdpp Require Import list gmap functions.
From S2P Require Import Prelude LockModes LockTable LockInvariant.

(** ** Between operations and during one *)

Lemma lmgr_ok_busy s t L : lmgr_ok s -> LockHash s !! t = Some L -> busy s t L None.
Proof.
  intros [Hg Hl Hd Hk] HL. destruct (Hl t L HL). constructor; try done. intros t' L' _. apply Hl.
Qed.

Lemma busy_lmgr_ok s t L :
  busy s t L None -> queue_blocked s t L -> entries_used s t L -> 0 < nRequested L -> lmgr_ok s.
Proof.
  intros [Hg HL Hgr Hq Hc Ho Hd Hk] Hb Hu Hr. constructor; [done| |done|done].
  intros t' L' HL'. destruct (decide (t' = t)) as [->|]; [|by apply Ho].
  assert (L' = L) as -> by congruence. by constructor.
Qed.

(** ** Steps on one lock leave the others alone *)

(** [s'] differs from [s] in lock [t] and in processes that wait for no other lock. *)
Record frame (s s' : lmgr) (t : LOCKTAG) : Prop := {
  fr_locks : forall t', t' <> t -> LockHash s' !! t' = LockHash s !! t';
  fr_proclocks : forall t' p, t' <> t -> ProcLockHash s' !! (t', p) = ProcLockHash s !! (t', p);
  fr_leader : forall p, lockGroupLeader (allProcs s' p) = lockGroupLeader (allProcs s p);
  fr_members : forall p, lockGroupMembers (allProcs s' p) = lockGroupMembers (allProcs s p);
  fr_waiters : forall p t', t' <> t -> waitLock (allProcs s p) = Some t' -> allProcs s' p = allProcs s p }.

Section framed.
Context (s s' : lmgr) (t : LOCKTAG).
Hypothesis fr : frame s s' t.

Lemma frame_leader p : leader_of s' p = leader_of s p.
Proof. unfold leader_of. by rewrite (fr_leader _ _ _ fr). Qed.

Lemma frame_groups : groups_ok (allProcs s) -> groups_ok (allProcs s').
Proof.
  intros [H1 H2]. constructor.
  - intros p l. rewrite !(fr_leader _ _ _ fr). apply H1.
  - intros p l. rewrite (fr_members _ _ _ fr), (fr_leader _ _ _ fr). apply H2.
Qed.

Lemma frame_holds t' p m : t' <> t -> holds s' t' p m = holds s t' p m.
Proof. intros Hne. unfold holds. by rewrite (fr_proclocks _ _ _ fr). Qed.

Lemma frame_hard_blocked t' p m : t' <> t -> hard_blocked s t' p m -> hard_blocked s' t' p m.
Proof.
  intros Hne (q & m' & Hq & Hh & Hc). exists q, m'. rewrite !frame_leader, frame_holds by done. done.
Qed.

Lemma frame_lock_ok t' L : t' <> t -> lock_ok s t' L -> lock_ok s' t' L.
Proof.
  intros Hne [Hg Hq Hc Hb Hu Hr].
  assert (forall w, w ∈ waitProcs L -> allProcs s' w = allProcs s w) as Hw.
  { intros w Hw. destruct (lc_waiters _ _ _ Hq w Hw) as ([] & _). by eapply (fr_waiters _ _ _ fr). }
  assert (forall m, countb (fun w => waits_mode s' w =? m) (waitProcs L) = countb (fun w => waits_mode s w =? m) (waitProcs L)) as Hcnt.
  { intros m. apply countb_ext. intros w Hin. unfold waits_mode. by rewrite (Hw w Hin). }
  constructor.
  - destruct Hg as [Hg1 Hg2 Hg3 Hg4 Hg5 Hg6 Hg7 Hg8]. constructor; try done.
    + intros p. rewrite (fr_proclocks _ _ _ fr) by done. done.
    + intros p pl. rewrite (fr_proclocks _ _ _ fr), frame_leader by done. auto.
    + intros m. rewrite Hg6. apply countb_ext. intros p _. by rewrite frame_holds.
  - destruct Hq as [Hq1 Hq2 Hq3]. constructor; [|done|].
    + intros w Hin. destruct (Hq1 w Hin) as ([] & Hp). split; [|done].
      constructor; unfold waits_mode in *; rewrite ?(Hw w Hin), ?frame_holds by done; try done.
      intros m. rewrite frame_holds by done. auto.
    + intros m Hm. by rewrite Hcnt, Hq3.
  - destruct Hc as [Hc1 Hc2]. constructor; [|done]. intros m. by rewrite Hcnt.
  - intros ahead w behind Hsplit. assert (w ∈ waitProcs L) as Hin by (rewrite Hsplit; set_solver).
    destruct (Hb ahead w behind Hsplit) as [(a & Ha & Hca)|Hh].
    + left. exists a. split; [done|]. unfold waits_mode in *. rewrite !Hw; [done| |done]. rewrite Hsplit. set_solver.
    + right. unfold waits_mode in *. rewrite Hw by done. by apply frame_hard_blocked.
  - intros p pl. rewrite (fr_proclocks _ _ _ fr) by done. apply Hu.
  - done.
Qed.

(** A step on lock [t] from a busy state to another. *)
Lemma busy_step L L' pending pending' :
  busy s t L pending -> LockHash s' !! t = Some L' ->
  lock_grants s' t L' -> lock_queue s' t L' -> lock_counts s' L' pending' ->
  (forall p, waitLock (allProcs s p) = Some t \/ waitLock (allProcs s p) = None ->
     (links (allProcs s' p) = true /\ waitLock (allProcs s' p) = Some t /\ p ∈ waitProcs L') \/
     (links (allProcs s' p) = false /\ waitLock (allProcs s' p) = None)) ->
  busy s' t L' pending'.
Proof.
  intros B HL' Hg Hq Hc Hp. constructor; [|done|done|done|done| | |].
  - by apply frame_groups, (bz_groups _ _ _ _ B).
  - intros t' L1 Hne H1. rewrite (fr_locks _ _ _ fr) in H1 by done. by apply frame_lock_ok, (bz_others _ _ _ _ B).
  - intros t' p Hs. destruct (decide (t' = t)) as [->|]; [eauto|].
    rewrite (fr_proclocks _ _ _ fr) in Hs by done. rewrite (fr_locks _ _ _ fr) by done. by eapply (bz_dom _ _ _ _ B).
  - assert (forall p, (exists t', t' <> t /\ waitLock (allProcs s p) = Some t') \/ waitLock (allProcs s p) = Some t \/ waitLock (allProcs s p) = None) as Hcase.
    { intros p. destruct (waitLock (allProcs s p)) as [t'|]; [|by eauto]. destruct (decide (t' = t)) as [->|]; eauto. }
    constructor.
    + intros p Hk. destruct (Hcase p) as [(t' & Hne & Hw)|Hw].
      * rewrite (fr_waiters _ _ _ fr p t' Hne Hw) in *. destruct (ln_queued _ (bz_links _ _ _ _ B) p Hk) as (t1 & L1 & H1 & H2 & H3).
        assert (t1 = t') as -> by congruence. exists t', L1. by rewrite (fr_locks _ _ _ fr).
      * destruct (Hp p Hw) as [(H1 & H2 & H3)|(H1 & _)]; [by exists t, L'|congruence].
    + intros p Hk. destruct (Hcase p) as [(t' & Hne & Hw)|Hw].
      * rewrite (fr_waiters _ _ _ fr p t' Hne Hw) in *. by apply (ln_idle _ (bz_links _ _ _ _ B)).
      * destruct (Hp p Hw) as [(H1 & _)|(_ & H2)]; [congruence|done].
Qed.
End framed.

(** A lock nobody requests any more can be dropped. *)
Lemma busy_drop s t L :
  busy s t L None -> nRequested L = 0 -> procLocks L = [] -> lmgr_ok (set_locks s (delete t (LockHash s))).
Proof.
  intros B Hr Hp. constructor.
  - apply (bz_groups _ _ _ _ B).
  - intros t' L'. cbn [set_locks LockHash]. rewrite lookup_delete_Some. intros (Hne & HL').
    apply (frame_lock_ok s (set_locks s (delete t (LockHash s))) t); [|done|by apply (bz_others _ _ _ _ B)].
    constructor; try done. intros t1 H1. by apply lookup_delete_ne.
  - cbn [set_locks LockHash ProcLockHash]. intros t' p Hs. destruct (decide (t' = t)) as [->|].
    + apply (lc_proclocks _ _ _ (bz_grants _ _ _ _ B)) in Hs. rewrite Hp in Hs. by apply elem_of_nil in Hs.
    + rewrite lookup_delete_ne by done. by eapply (bz_dom _ _ _ _ B).
  - pose proof (lq_nRequested _ _ _ (bz_counts _ _ _ _ B)) as Hn. cbn in Hn.
    assert (0 <= nGranted L).
    { rewrite (lc_nGranted _ _ _ (bz_grants _ _ _ _ B)). apply msum_nonneg. intros m _.
      rewrite (lc_granted _ _ _ (bz_grants _ _ _ _ B)). apply countb_nonneg. }
    assert (waitProcs L = []) as Hw by (destruct (waitProcs L); [done|rewrite zlen_cons in Hn; pose proof (zlen_nonneg l); lia]).
    destruct (bz_links _ _ _ _ B) as [Hq Hi]. constructor; [|done].
    intros p Hk. destruct (Hq p Hk) as (t' & L' & Ht & HL' & Hin). exists t', L'. split_and!; [done| |done].
    cbn [set_locks LockHash]. rewrite lookup_delete_ne; [done|]. intros <-.
    rewrite (bz_lock _ _ _ _ B) in HL'. injection HL' as <-. rewrite Hw in Hin. by apply elem_of_nil in Hin.
Qed.


(** ** Granting *)

(** [s'] has the entries of [s] at lock [t], but for the mask of process [p]. *)
Definition remask (s s' : lmgr) (t : LOCKTAG) (p : Z) (pl : PROCLOCK) (mask : Z) : Prop :=
  ProcLockHash s !! (t, p) = Some pl /\
  forall q, ProcLockHash s' !! (t, q) = if decide (q = p) then Some {| groupLeader := groupLeader pl; holdMask := mask |} else ProcLockHash s !! (t, q).

Lemma remask_holds s s' t p pl mask q m :
  remask s s' t p pl mask -> holds s' t q m = if decide (q = p) then Z.testbit mask m else holds s t q m.
Proof. intros (_ & H). unfold holds. rewrite H. by destruct (decide (q = p)). Qed.

Lemma mode_index m (a : list Z) : is_mode m -> zlen a = MAX_LOCKMODES -> 0 <= m < zlen a.
Proof. intros Hm ->. unfold is_mode, numLockModes, AccessExclusiveLock, MAX_LOCKMODES in *. lia. Qed.

Lemma is_mode_nonneg m : is_mode m -> 0 <= m.
Proof. unfold is_mode. lia. Qed.

(** What changing the mask of one process does to the grants: the new counters
    have to follow it. *)
Lemma grants_remask s s' t L L' p pl mask :
  lock_grants s t L -> remask s s' t p pl mask -> (forall q, leader_of s' q = leader_of s q) ->
  procLocks L' = procLocks L -> mask_ok mask ->
  zlen (granted L') = MAX_LOCKMODES -> zlen (requested L') = MAX_LOCKMODES ->
  (forall m, mget (granted L') m = mget (granted L) m - (if holds s t p m then 1 else 0) + (if Z.testbit mask m then 1 else 0)) ->
  (forall m, 0 <= m -> Z.testbit (grantMask L') m = (0 <? mget (granted L') m)) ->
  nGranted L' = msum (mget (granted L')) ->
  lock_grants s' t L'.
Proof.
  intros G Hre Hlead Hpl Hmask Hgl Hrl Hgr Hgm Hng. pose proof Hre as (Hp & Hs').
  assert (forall q, is_Some (ProcLockHash s' !! (t, q)) <-> is_Some (ProcLockHash s !! (t, q))) as Hdom.
  { intros q. rewrite Hs'. destruct (decide (q = p)) as [->|]; [|done]. rewrite Hp. split; eauto. }
  constructor; try done.
  - rewrite Hpl. apply (lc_nodup _ _ _ G).
  - intros q. rewrite Hpl, Hdom. apply (lc_proclocks _ _ _ G).
  - intros q x. rewrite Hs', Hlead. destruct (decide (q = p)) as [->|]; [|apply (lc_entry _ _ _ G)].
    intros [= <-]. split; [|done]. exact (proj1 (lc_entry _ _ _ G p pl Hp)).
  - intros m. rewrite Hgr, Hpl, (lc_granted _ _ _ G).
    rewrite (countb_change (fun q => holds s t q m) (fun q => holds s' t q m) p).
    + rewrite (remask_holds _ _ _ _ _ _ p m Hre). by rewrite decide_True.
    + apply (lc_nodup _ _ _ G).
    + apply (lc_proclocks _ _ _ G). eauto.
    + intros q _ Hq. rewrite (remask_holds _ _ _ _ _ _ q m Hre). by rewrite decide_False.
Qed.

(** Setting one bit. *)
Lemma lor_bit mask m i : is_mode m -> Z.testbit (Z.lor mask (LOCKBIT_ON m)) i = Z.testbit mask i || (i =? m).
Proof. intros Hm. by rewrite Z.lor_spec, testbit_LOCKBIT_ON by (by apply is_mode_nonneg). Qed.

Lemma land_off_bit mask m i : is_mode m -> Z.testbit (Z.land mask (LOCKBIT_OFF m)) i = Z.testbit mask i && negb (i =? m).
Proof.
  intros Hm%is_mode_nonneg. rewrite Z.land_spec. destruct (Z.ltb_spec i 0).
  - by rewrite !(Z.testbit_neg_r _ i) by done.
  - by rewrite testbit_LOCKBIT_OFF.
Qed.

Lemma mset_sum a m v : is_mode m -> zlen a = MAX_LOCKMODES -> msum (mget (mset a m v)) = msum (mget a) - mget a m + v.
Proof.
  intros Hm Hl. pose proof (mode_index m a Hm Hl) as Hi.
  rewrite (msum_change (mget a) (mget (mset a m v)) m Hm); rewrite ?mget_mset by done.
  - by rewrite Z.eqb_refl.
  - intros x _ Hx. rewrite mget_mset by done. destruct (Z.eqb_spec x m); [done|]. done.
Qed.

(** A mode counted once less: its bit goes with the last one. *)
Lemma counted_mask_off mask m (c : Z -> Z) (last : bool) :
  is_mode m -> (forall i, 0 <= i -> Z.testbit mask i = (0 <? c i)) -> 0 < c m -> (last = true <-> c m = 1) ->
  forall i, 0 <= i -> Z.testbit (if last then Z.land mask (LOCKBIT_OFF m) else mask) i = (0 <? c i - (if m =? i then 1 else 0)).
Proof.
  intros Hm Hmask Hpos Hlast i Hi. destruct last; [rewrite land_off_bit by done|]; rewrite Hmask by done; destruct (Z.eqb_spec m i) as [<-|Hne]; rewrite ?Z.sub_0_r.
  - rewrite Z.eqb_refl, andb_false_r. symmetry. apply Z.ltb_ge. naive_solver lia.
  - destruct (Z.eqb_spec i m); [congruence|]. by rewrite andb_true_r.
  - assert (c m <> 1) by (intros E; by apply Hlast in E). destruct (Z.ltb_spec 0 (c m)), (Z.ltb_spec 0 (c m - 1)); lia.
  - done.
Qed.

(** The lock record [GrantLock] leaves, whatever happens to the wait fields. *)
Lemma grants_grant s s' t L L' p pl m :
  lock_grants s t L -> remask s s' t p pl (Z.lor (holdMask pl) (LOCKBIT_ON m)) ->
  (forall q, leader_of s' q = leader_of s q) ->
  is_mode m -> holds s t p m = false ->
  procLocks L' = procLocks L -> zlen (requested L') = MAX_LOCKMODES ->
  granted L' = mset (granted L) m (mget (granted L) m + 1) ->
  grantMask L' = Z.lor (grantMask L) (LOCKBIT_ON m) -> nGranted L' = nGranted L + 1 ->
  lock_grants s' t L'.
Proof.
  intros G Hre Hlead Hm Hnot Hpl Hrl Hgr Hgm Hng. pose proof Hre as (Hp & _).
  pose proof (mode_index m _ Hm (lc_glen _ _ _ G)) as Hi.
  assert (forall i, holds s t p i = Z.testbit (holdMask pl) i) as Hh by (intros i; unfold holds; by rewrite Hp).
  assert (forall i, 0 <= mget (granted L) i) as Hpos by (intros i; rewrite (lc_granted _ _ _ G); apply countb_nonneg).
  eapply grants_remask; [exact G|exact Hre|done|done| |by rewrite Hgr, mset_len; apply (lc_glen _ _ _ G)|done|..].
  - intros i. rewrite lor_bit by done. intros [Hb|Hb%Z.eqb_eq]%orb_true_iff; [|by subst]. by apply (lc_entry _ _ _ G _ _ Hp).
  - intros i. rewrite Hgr, mget_mset, lor_bit, <- Hh by done. destruct (Z.eqb_spec i m) as [->|].
    + rewrite Hnot. cbn [orb]. lia.
    + rewrite orb_false_r. destruct (holds s t p i); lia.
  - intros i H0. rewrite Hgm, Hgr, lor_bit, mget_mset, (lc_grantMask _ _ _ G) by done.
    destruct (Z.eqb_spec i m) as [->|]; [rewrite orb_true_r; pose proof (Hpos m); lia|by rewrite orb_false_r].
  - rewrite Hng, Hgr, mset_sum, (lc_nGranted _ _ _ G); [lia|done|apply (lc_glen _ _ _ G)].
Qed.

(** [s'] has the holders of [s] at lock [t], and process [p] in mode [m] too. *)
Definition hold_added (s s' : lmgr) (t : LOCKTAG) (p m : Z) : Prop :=
  forall q i, holds s' t q i = holds s t q i || ((q =? p) && (i =? m)).

Lemma remask_added s s' t p pl m :
  is_mode m -> remask s s' t p pl (Z.lor (holdMask pl) (LOCKBIT_ON m)) -> hold_added s s' t p m.
Proof.
  intros Hm Hre q i. rewrite (remask_holds _ _ _ _ _ _ _ _ Hre). destruct (decide (q = p)) as [->|].
  - rewrite Z.eqb_refl, lor_bit by done. unfold holds. destruct Hre as (-> & _). done.
  - destruct (Z.eqb_spec q p); [done|]. by rewrite orb_false_r.
Qed.

Lemma hold_added_blocked s s' t p m q i :
  hold_added s s' t p m -> (forall q, leader_of s' q = leader_of s q) -> hard_blocked s t q i -> hard_blocked s' t q i.
Proof. intros Ha Hl (x & j & H1 & H2 & H3). exists x, j. rewrite !Hl, Ha, H2. done. Qed.

(** A waiter keeps waiting when a lock is granted that it does not wait for. *)
Lemma waiter_ok_added s s' t p m w :
  hold_added s s' t p m -> allProcs s' w = allProcs s w -> (w = p -> waits_mode s w <> m) -> waiter_ok s t w -> waiter_ok s' t w.
Proof.
  intros Ha Hp Hne [H1 H2 H3 H4 H5 H6 H7]. unfold waits_mode in *. constructor; unfold waits_mode; rewrite ?Hp; try done.
  - rewrite Ha, H6. destruct (Z.eqb_spec w p); [|done]. by destruct (Z.eqb_spec (waitLockMode (allProcs s w)) m); [destruct Hne|].
  - intros i Hi. rewrite Ha, (H7 i Hi). done.
Qed.

Lemma nGranted_le s t L pending : busy s t L pending -> nGranted L <= nRequested L.
Proof.
  intros B. rewrite (lq_nRequested _ _ _ (bz_counts _ _ _ _ B)). pose proof (zlen_nonneg (waitProcs L)).
  destruct pending; cbn; lia.
Qed.

Lemma granted_nonneg s t L m : lock_grants s t L -> 0 <= mget (granted L) m.
Proof. intros G. rewrite (lc_granted _ _ _ G). apply countb_nonneg. Qed.

Lemma nGranted_nonneg s t L : lock_grants s t L -> 0 <= nGranted L.
Proof. intros G. rewrite (lc_nGranted _ _ _ G). apply msum_nonneg. intros m _. by eapply granted_nonneg. Qed.

(** Whatever a routine does to processes and to lock [t], others are framed. *)
Lemma frame_put s t L q pl : frame s (put_proclock (put_lock s t L) (t, q) pl) t.
Proof.
  constructor; try done.
  - intros t' Hne. cbn. by apply lookup_insert_ne.
  - intros t' p Hne. cbn. apply lookup_insert_ne. congruence.
Qed.

(** A grant that conflicts with nothing. *)
Lemma no_new_conflicts_grant s s' t p m :
  frame s s' t -> hold_added s s' t p m -> conflict_free s t m p -> no_new_conflicts s s'.
Proof.
  intros F Ha Hf. constructor; [apply (frame_leader _ _ _ F)|]. intros t' x y i j Hne Hc Hx Hy.
  destruct (decide (t' = t)) as [->|Ht]; [|by rewrite <- !(frame_holds _ _ _ F t') by done].
  rewrite Ha in Hx, Hy. apply orb_true_iff in Hx as [Hx|Hx], Hy as [Hy|Hy]; [done|..].
  - apply andb_true_iff in Hy as (->%Z.eqb_eq & ->%Z.eqb_eq). rewrite conf_sym, (Hf x i Hne Hx) in Hc. done.
  - apply andb_true_iff in Hx as (->%Z.eqb_eq & ->%Z.eqb_eq). rewrite (Hf y j (not_eq_sym Hne) Hy) in Hc. done.
  - apply andb_true_iff in Hx as (->%Z.eqb_eq & _). apply andb_true_iff in Hy as (->%Z.eqb_eq & _). done.
Qed.

(** The request that was pending is granted. *)
Lemma GrantLock_pending s t L p m :
  busy s t L (Some m) -> p ∈ procLocks L -> (p ∈ waitProcs L -> waits_mode s p <> m) -> is_mode m -> holds s t p m = false ->
  exists s' L', GrantLock s t p m = Ret s' /\ busy s' t L' None /\ waitProcs L' = waitProcs L /\ nRequested L' = nRequested L /\
    allProcs s' = allProcs s /\ hold_added s s' t p m /\ frame s s' t /\
    (forall q, is_Some (ProcLockHash s' !! (t, q)) <-> is_Some (ProcLockHash s !! (t, q))).
Proof.
  intros B Hp Hnq Hm Hnot. pose proof (bz_grants _ _ _ _ B) as G. pose proof (bz_counts _ _ _ _ B) as C.
  pose proof (proj1 (lc_proclocks _ _ _ G p) Hp) as [pl Hpl].
  pose proof (mode_index m _ Hm (lc_glen _ _ _ G)) as Hi. pose proof (granted_nonneg _ _ _ m G) as Hg0.
  pose proof (nGranted_nonneg _ _ _ G) as Hn0.
  pose proof (lq_requested _ _ _ C m) as Hreq. cbn [pend] in Hreq. rewrite Z.eqb_refl in Hreq.
  pose proof (lq_nRequested _ _ _ C) as Hnreq. cbn [pend_any] in Hnreq.
  pose proof (zlen_nonneg (waitProcs L)) as Hz. pose proof (countb_nonneg (fun w => waits_mode s w =? m) (waitProcs L)) as Hw0.
  unfold GrantLock. rewrite (bz_lock _ _ _ _ B), Hpl. cbn [deref cbind]. rewrite !mget_mset by done. rewrite Z.eqb_refl.
  destruct (Z.ltb_spec 0 (nGranted L + 1)); [|lia]. destruct (Z.ltb_spec 0 (mget (granted L) m + 1)); [|lia].
  destruct (Z.leb_spec (nGranted L + 1) (nRequested L)); [|lia]. cbn [andb c_assert cbind].
  set (L' := Build_LOCK _ _ _ _ _ _ _ _).
  match goal with |- context [Ret ?x = _] => set (s' := x) end. exists s', L'. split; [done|].
  assert (remask s s' t p pl (Z.lor (holdMask pl) (LOCKBIT_ON m))) as Hre.
  { split; [done|]. intros q. cbn. destruct (decide (q = p)) as [->|]; [by rewrite lookup_insert_eq|].
    apply lookup_insert_ne. congruence. }
  assert (frame s s' t) as Hfr by apply frame_put.
  pose proof (remask_added _ _ _ _ _ _ Hm Hre) as Hadd.
  split_and!; [|done|done|done|done|done|].
  - eapply busy_step; [exact Hfr|exact B|apply lookup_insert_eq| | | |].
    + eapply grants_grant; [exact G|exact Hre|done|done|done|done|cbn; apply (lc_rlen _ _ _ G)|done|done|done].
    + destruct (bz_queue _ _ _ _ B) as [Q1 Q2 Q3]. constructor; [|done|].
      * intros w Hw. destruct (Q1 w Hw). split; [|done]. eapply waiter_ok_added; [exact Hadd|done| |done].
        intros ->. by apply Hnq.
      * intros i Hi0. cbn. rewrite Hreq. destruct (Z.eqb_spec (mget (granted L) m + 1) (mget (granted L) m + countb (fun w => waits_mode s w =? m) (waitProcs L) + 1)).
        -- rewrite land_off_bit, Q3 by done. unfold waits_mode in *. destruct (Z.eqb_spec i m) as [->|]; [cbn|by rewrite andb_true_r].
           rewrite andb_false_r. symmetry. apply Z.ltb_ge. cbn. lia.
        -- by rewrite Q3.
    + constructor; cbn.
      * intros i. rewrite mget_mset by done. rewrite (lq_requested _ _ _ C). unfold waits_mode, pend. change (allProcs s') with (allProcs s).
        rewrite (Z.eqb_sym m i). destruct (Z.eqb_spec i m) as [->|]; lia.
      * lia.
    + intros q Hq. cbn. destruct (bz_links _ _ _ _ B) as [K1 K2]. destruct (links (allProcs s q)) eqn:Ek.
      * left. destruct (K1 q Ek) as (t1 & L1 & H1' & H2' & H3'). assert (t1 = t) as -> by (destruct Hq; congruence).
        rewrite (bz_lock _ _ _ _ B) in H2'. injection H2' as <-. done.
      * right. split; [done|]. by apply K2.
  - intros q. destruct Hre as (_ & ->). destruct (decide (q = p)) as [->|]; [|done]. rewrite Hpl. split; eauto.
Qed.

Lemma links_here s t L pending q :
  busy s t L pending -> waitLock (allProcs s q) = Some t \/ waitLock (allProcs s q) = None ->
  (links (allProcs s q) = true /\ waitLock (allProcs s q) = Some t /\ q ∈ waitProcs L) \/
  (links (allProcs s q) = false /\ waitLock (allProcs s q) = None).
Proof.
  intros B Hq. destruct (bz_links _ _ _ _ B) as [K1 K2]. destruct (links (allProcs s q)) eqn:Ek.
  - left. destruct (K1 q Ek) as (t1 & L1 & H1 & H2 & H3). assert (t1 = t) as -> by (destruct Hq; congruence).
    rewrite (bz_lock _ _ _ _ B) in H2. injection H2 as <-. done.
  - right. split; [done|]. by apply K2.
Qed.

(** ** A process leaves the queue *)

(** Process [w] is not linked any more; the others, and the groups, are as before. *)
Record left_queue (s s' : lmgr) (w : Z) (L L' : LOCK) : Prop := {
  lv_others : forall q, q <> w -> allProcs s' q = allProcs s q;
  lv_links : links (allProcs s' w) = false;
  lv_wait : waitLock (allProcs s' w) = None;
  lv_leader : lockGroupLeader (allProcs s' w) = lockGroupLeader (allProcs s w);
  lv_members : lockGroupMembers (allProcs s' w) = lockGroupMembers (allProcs s w);
  lv_queue : waitProcs L' = filter (fun q => q <> w) (waitProcs L) }.

Section left_queue.
Context (s s' : lmgr) (t : LOCKTAG) (w : Z) (L L' : LOCK).
Hypotheses (V : left_queue s s' w L L') (B : busy s t L None) (Hw : w ∈ waitProcs L).

Lemma left_frame :
  (forall t', t' <> t -> LockHash s' !! t' = LockHash s !! t') -> (forall t' p, t' <> t -> ProcLockHash s' !! (t', p) = ProcLockHash s !! (t', p)) -> frame s s' t.
Proof using V B Hw.
  intros H1 H2. constructor; [done|done|..].
  - intros q. destruct (decide (q = w)) as [->|]; [apply (lv_leader _ _ _ _ _ V)|by rewrite (lv_others _ _ _ _ _ V)].
  - intros q. destruct (decide (q = w)) as [->|]; [apply (lv_members _ _ _ _ _ V)|by rewrite (lv_others _ _ _ _ _ V)].
  - intros q t' Hne Hq. apply (lv_others _ _ _ _ _ V). intros ->.
    destruct (lc_waiters _ _ _ (bz_queue _ _ _ _ B) w Hw) as (W & _). rewrite (wk_lock _ _ _ W) in Hq. congruence.
Qed.

Lemma left_count i :
  countb (fun q => waits_mode s' q =? i) (waitProcs L') = countb (fun q => waits_mode s q =? i) (waitProcs L) - (if waits_mode s w =? i then 1 else 0).
Proof using V B Hw.
  rewrite (lv_queue _ _ _ _ _ V), (countb_ext _ (fun q => waits_mode s q =? i)).
  - rewrite countb_remove; [done| |done]. apply (lc_queue_nodup _ _ _ (bz_queue _ _ _ _ B)).
  - intros q Hq%list_elem_of_filter. unfold waits_mode. rewrite (lv_others _ _ _ _ _ V); naive_solver.
Qed.

Lemma left_links q : waitLock (allProcs s q) = Some t \/ waitLock (allProcs s q) = None ->
  (links (allProcs s' q) = true /\ waitLock (allProcs s' q) = Some t /\ q ∈ waitProcs L') \/ (links (allProcs s' q) = false /\ waitLock (allProcs s' q) = None).
Proof using V B.
  intros Hq. destruct (decide (q = w)) as [->|Hne]; [right; split; [apply (lv_links _ _ _ _ _ V)|apply (lv_wait _ _ _ _ _ V)]|].
  rewrite (lv_others _ _ _ _ _ V), (lv_queue _ _ _ _ _ V), list_elem_of_filter by done. destruct (links_here s t L None q B Hq); naive_solver.
Qed.

(** The mask of the modes waited for, and its queue. *)
Lemma left_lock_queue (last : bool) :
  (forall q, q <> w -> q ∈ waitProcs L -> waiter_ok s' t q) -> procLocks L' = procLocks L ->
  waitMask L' = (if last then Z.land (waitMask L) (LOCKBIT_OFF (waits_mode s w)) else waitMask L) ->
  (last = true <-> countb (fun q => waits_mode s q =? waits_mode s w) (waitProcs L) = 1) -> lock_queue s' t L'.
Proof using V B Hw.
  intros Hok Hpl Hmask Hlast. destruct (bz_queue _ _ _ _ B) as [Q1 Q2 Q3]. destruct (Q1 w Hw) as (W & _). constructor.
  - rewrite (lv_queue _ _ _ _ _ V), Hpl. intros q (Hne & Hq)%list_elem_of_filter. destruct (Q1 q Hq). auto.
  - rewrite (lv_queue _ _ _ _ _ V). by apply NoDup_filter.
  - intros i Hi. rewrite left_count, Hmask. apply (counted_mask_off (waitMask L) (waits_mode s w) (fun i => countb (fun q => waits_mode s q =? i) (waitProcs L)) last);
      [apply (wk_mode _ _ _ W)|done| |done|done]. apply countb_pos. exists w. split; [done|apply Z.eqb_refl].
Qed.
End left_queue.

(** A waiter nothing conflicts with gets the lock and leaves the queue. *)
Lemma wake_waiter s t L w :
  busy s t L None -> w ∈ waitProcs L ->
  exists s1 s' L', GrantLock s t w (waits_mode s w) = Ret s1 /\ ProcWakeup s1 w STATUS_OK = Ret s' /\ busy s' t L' None /\
    waitProcs L' = filter (fun q => q <> w) (waitProcs L) /\ nRequested L' = nRequested L /\
    (forall q, q <> w -> allProcs s' q = allProcs s q) /\ (waitStatus (allProcs s' w) = STATUS_OK /\ links (allProcs s' w) = false) /\
    hold_added s s' t w (waits_mode s w) /\ frame s s' t /\
    (forall q, is_Some (ProcLockHash s' !! (t, q)) <-> is_Some (ProcLockHash s !! (t, q))).
Proof.
  intros B Hw. pose proof (bz_grants _ _ _ _ B) as G. pose proof (bz_counts _ _ _ _ B) as C.
  destruct (bz_queue _ _ _ _ B) as [Q1 Q2 Q3]. destruct (Q1 w Hw) as (W & Hpw).
  set (m := waits_mode s w) in *. pose proof (wk_mode _ _ _ W) as Hm. pose proof (wk_not_held _ _ _ W) as Hnot. fold m in Hm, Hnot.
  pose proof (proj1 (lc_proclocks _ _ _ G w) Hpw) as [pl Hpl].
  pose proof (mode_index m _ Hm (lc_glen _ _ _ G)) as Hi. pose proof (granted_nonneg _ _ _ m G) as Hg0.
  pose proof (nGranted_nonneg _ _ _ G) as Hn0.
  pose proof (lq_requested _ _ _ C) as Hreq. cbn [pend] in Hreq.
  pose proof (lq_nRequested _ _ _ C) as Hnreq. cbn [pend_any] in Hnreq.
  pose proof (zlen_remove w _ Q2 Hw) as Hz. pose proof (zlen_nonneg (filter (fun q => q <> w) (waitProcs L))) as Hz0.
  unfold GrantLock. rewrite (bz_lock _ _ _ _ B), Hpl. cbn [deref cbind]. rewrite !mget_mset by done. rewrite Z.eqb_refl.
  destruct (Z.ltb_spec 0 (nGranted L + 1)); [|lia]. destruct (Z.ltb_spec 0 (mget (granted L) m + 1)); [|lia].
  destruct (Z.leb_spec (nGranted L + 1) (nRequested L)); [|lia]. cbn [andb c_assert cbind].
  set (L1 := Build_LOCK _ _ _ _ _ _ _ _).
  match goal with |- context [Ret ?x = _] => set (s1 := x) end. exists s1.
  unfold ProcWakeup. change (allProcs s1) with (allProcs s).
  rewrite (wk_links _ _ _ W), (wk_status _ _ _ W), (wk_lock _ _ _ W). cbn [negb cbind deref].
  assert (LockHash s1 !! t = Some L1) as -> by apply lookup_insert_eq. rewrite Z.eqb_refl. cbn [c_assert cbind deref].
  set (L' := Build_LOCK _ _ _ (filter _ _) _ _ _ _). set (p' := Build_PGPROC _ _ _ _ _ _ _ _ _).
  set (s' := put_proc _ _ _). exists s', L'. split; [done|]. split; [done|].
  assert (left_queue s s' w L L') as V.
  { constructor; try done; try (cbn; by rewrite fn_lookup_insert). intros q Hq. by apply fn_lookup_insert_ne. }
  assert (remask s s' t w pl (Z.lor (holdMask pl) (LOCKBIT_ON m))) as Hre.
  { split; [done|]. intros q. cbn. destruct (decide (q = w)) as [->|]; [by rewrite lookup_insert_eq|].
    apply lookup_insert_ne. congruence. }
  assert (frame s s' t) as Hfr.
  { apply (left_frame s s' t w L L' V B Hw); intros; cbn; [by rewrite !lookup_insert_ne|apply lookup_insert_ne; congruence]. }
  pose proof (remask_added _ _ _ _ _ _ Hm Hre) as Hadd. pose proof (left_count s s' t w L L' V B Hw) as Hcnt. fold m in Hcnt.
  split_and!; [|done|done|apply V|by cbn; rewrite fn_lookup_insert|apply V|done|done|].
  - eapply busy_step; [exact Hfr|exact B|apply lookup_insert_eq| | | |apply (left_links s s' t w L L' V B)].
    + eapply grants_grant; [exact G|exact Hre|apply (frame_leader _ _ _ Hfr)|done|done|done|cbn; apply (lc_rlen _ _ _ G)|done|done|done].
    + eapply (left_lock_queue s s' t w L L' V B Hw); [|done|cbn; reflexivity|rewrite Z.eqb_eq, Hreq; fold m; lia].
      intros q Hne Hq. destruct (Q1 q Hq). eapply waiter_ok_added; [exact Hadd|by apply V|done|done].
    + constructor.
      * intros i. rewrite Hcnt. cbn. rewrite mget_mset by done. rewrite Hreq. rewrite (Z.eqb_sym m i). destruct (Z.eqb_spec i m) as [->|]; lia.
      * cbn. unfold L1. cbn. lia.
  - intros q. destruct Hre as (_ & ->). destruct (decide (q = w)) as [->|]; [|done]. rewrite Hpl. split; eauto.
Qed.

(** ** Processes that do nothing *)

(** Process [q] has not noticed anything, or it got the lock it was waiting for. *)
Definition unaffected (s s' : lmgr) (q : Z) : Prop :=
  allProcs s' q = allProcs s q /\ forall t m, holds s' t q m = holds s t q m.
Definition given (s s' : lmgr) (q : Z) : Prop :=
  links (allProcs s q) = true /\ links (allProcs s' q) = false /\ waitStatus (allProcs s' q) = STATUS_OK /\
  exists t, waitLock (allProcs s q) = Some t /\
    forall t' m, holds s' t' q m = holds s t' q m || (bool_decide (t' = t) && (m =? waits_mode s q)).
Definition bystander (s s' : lmgr) (q : Z) : Prop := unaffected s s' q \/ given s s' q.

Lemma bystander_refl s q : bystander s s q.
Proof. by left. Qed.

Lemma unaffected_given s s1 s2 q : unaffected s s1 q -> given s1 s2 q -> given s s2 q.
Proof.
  intros (E & Hh) (H1 & H2 & H3 & t & H4 & H5). unfold waits_mode in *. rewrite E in H1, H4. split_and!; [done|done|done|].
  exists t. split; [done|]. intros t' m. by rewrite H5, Hh, E.
Qed.

Lemma bystander_trans s s1 s2 q : bystander s s1 q -> bystander s1 s2 q -> bystander s s2 q.
Proof.
  intros [A|A] [B|B]; [left|right; by eapply unaffected_given|right|].
  - destruct A as (E1 & H1), B as (E2 & H2). split; [by rewrite E2|]. intros t m. by rewrite H2.
  - destruct A as (H1 & H2 & H3 & t & H4 & H5), B as (E2 & H6). split_and!; [done|by rewrite E2|by rewrite E2|].
    exists t. split; [done|]. intros t' m. by rewrite H6.
  - destruct A as (_ & A & _), B as (B & _). congruence.
Qed.

(** ** Waking *)

(** [a] stands before [b]. *)
Definition precedes (l : list Z) (a b : Z) : Prop := exists l1 l2, l = l1 ++ l2 /\ a ∈ l1 /\ b ∈ l2.

Lemma precedes_cons x l a b : precedes l a b -> precedes (x :: l) a b.
Proof. intros (l1 & l2 & -> & Ha & Hb). exists (x :: l1), l2. set_solver. Qed.

Lemma precedes_app l0 l a b : precedes l a b -> precedes (l0 ++ l) a b.
Proof. intros (l1 & l2 & -> & Ha & Hb). exists (l0 ++ l1), l2. rewrite app_assoc. set_solver. Qed.

Lemma precedes_irrefl l a b : NoDup l -> precedes l a b -> ~ precedes l b a.
Proof.
  intros Hnd (l1 & l2 & E1 & Ha & Hb) (k1 & k2 & E2 & Hb' & Ha').
  assert (forall x, x ∈ l1 -> x ∈ l2 -> False) as D1 by (rewrite E1 in Hnd; apply NoDup_app in Hnd; naive_solver).
  assert (forall x, x ∈ k1 -> x ∈ k2 -> False) as D2 by (rewrite E2 in Hnd; apply NoDup_app in Hnd; naive_solver).
  rewrite E1 in E2. apply app_eq_app in E2 as (k & [(-> & ->)|(-> & ->)]).
  - apply (D1 b); [|done]. set_solver.
  - apply (D1 a); [done|]. set_solver.
Qed.

Lemma precedes_split l1 l2 a b : NoDup (l1 ++ b :: l2) -> precedes (l1 ++ b :: l2) a b -> a ∈ l1.
Proof.
  intros Hnd (k1 & k2 & E & Ha & Hb). rewrite E in Hnd. apply NoDup_app in Hnd as (_ & Hd & _).
  apply app_eq_app in E as (k & [(-> & E)|(-> & E)]); [set_solver|].
  destruct k as [|x k]; [set_solver|]. injection E as <- E. exfalso. apply (Hd b); [set_solver|done].
Qed.

Lemma precedes_filter P l a b : precedes l a b -> P a = true -> P b = true -> precedes (List.filter P l) a b.
Proof.
  intros (l1 & l2 & -> & Ha & Hb) Pa Pb. exists (List.filter P l1), (List.filter P l2). rewrite List.filter_app.
  split_and!; [done|..]; apply list_elem_of_In, List.filter_In; (split; [by apply list_elem_of_In|done]).
Qed.

Lemma filter_precedes P l a b : precedes (List.filter P l) a b -> precedes l a b.
Proof.
  intros (l1 & l2 & E & Ha & Hb). revert l1 E Ha. induction l as [|x l IH]; intros l1 E Ha; cbn [List.filter] in E.
  { symmetry in E. apply app_nil in E as (-> & ->). by apply elem_of_nil in Hb. }
  destruct (P x); [|by apply precedes_cons, (IH l1)]. destruct l1 as [|y l1]; [by apply elem_of_nil in Ha|]. injection E as -> E.
  apply elem_of_cons in Ha as [->|Ha]; [|by apply precedes_cons, (IH l1)].
  exists [y], l. split_and!; [done|set_solver|]. assert (b ∈ List.filter P l) as Hin by (rewrite E; set_solver).
  apply list_elem_of_In, List.filter_In in Hin as (Hin & _). by apply list_elem_of_In.
Qed.

Lemma filter_filter_andb {A} (P R : A -> bool) l : List.filter P (List.filter R l) = List.filter (fun x => R x && P x) l.
Proof. induction l as [|x l IH]; [done|]. cbn [List.filter]. destruct (R x); cbn [List.filter andb]; [destruct (P x); by rewrite IH|done]. Qed.

Lemma filter_ne_bool w l : filter (fun q => q <> w) l = List.filter (fun q => negb (q =? w)) l.
Proof.
  induction l as [|x l IH]; [done|]. rewrite filter_cons. cbn [List.filter]. destruct (Z.eqb_spec x w) as [->|Hne]; cbn [negb].
  - by rewrite decide_False by naive_solver.
  - by rewrite decide_True, IH.
Qed.


(** The mask has the modes the processes wait for. *)
Definition mask_of (s : lmgr) (l : list Z) (mask : Z) : Prop :=
  forall m, Z.testbit mask m = true <-> exists a, a ∈ l /\ waits_mode s a = m.

(** What waking waiters of lock [t] changes: some leave the queue with the lock. *)
Record woken (s s' : lmgr) (t : LOCKTAG) (L L' : LOCK) : Prop := {
  wn_frame : frame s s' t;
  wn_procs : forall q, q ∉ waitProcs L -> allProcs s' q = allProcs s q;
  wn_queue : forall q, q ∈ waitProcs L' -> q ∈ waitProcs L /\ allProcs s' q = allProcs s q;
  wn_got : forall q, q ∈ waitProcs L -> q ∉ waitProcs L' -> holds s' t q (waits_mode s q) = true /\ waitStatus (allProcs s' q) = STATUS_OK /\ links (allProcs s' q) = false;
  wn_holds : forall q m, holds s t q m = true -> holds s' t q m = true;
  wn_new : forall q m, holds s' t q m = true -> holds s t q m = true \/ (q ∈ waitProcs L /\ q ∉ waitProcs L' /\ m = waits_mode s q);
  wn_dom : forall q, is_Some (ProcLockHash s' !! (t, q)) <-> is_Some (ProcLockHash s !! (t, q));
  wn_conflicts : no_new_conflicts s s';
  wn_requested : nRequested L' = nRequested L;
  wn_rest : exists P, waitProcs L' = List.filter P (waitProcs L);
  wn_order : forall x q, precedes (waitProcs L) x q -> x ∈ waitProcs L' -> q ∉ waitProcs L' -> conf (waits_mode s q) (waits_mode s x) = false }.

Lemma woken_bystander s s' t L L' q :
  (q ∈ waitProcs L -> waiter_ok s t q) -> woken s s' t L L' -> bystander s s' q.
Proof.
  intros Hw W. pose proof (frame_holds _ _ _ (wn_frame _ _ _ _ _ W)) as Hf.
  assert (q ∉ waitProcs L \/ q ∈ waitProcs L' -> unaffected s s' q) as Hun.
  { intros Hq. split; [destruct Hq; [by apply (wn_procs _ _ _ _ _ W)|by apply (wn_queue _ _ _ _ _ W)]|]. intros t' m.
    destruct (decide (t' = t)) as [->|]; [|by apply Hf]. apply eq_true_iff_eq. split; [|apply (wn_holds _ _ _ _ _ W)].
    intros [?|(H1 & H2 & _)]%(wn_new _ _ _ _ _ W); [done|]. by destruct Hq. }
  destruct (decide (q ∈ waitProcs L)) as [Hq|Hq]; [|left; auto]. destruct (decide (q ∈ waitProcs L')) as [Hq'|Hq']; [left; auto|right].
  destruct (Hw Hq) as [W1 W2 _ _ _ _ _]. destruct (wn_got _ _ _ _ _ W q Hq Hq') as (H1 & H2 & H3). split_and!; [done|done|done|].
  exists t. split; [done|]. intros t' m. destruct (decide (t' = t)) as [->|Hne].
  - rewrite (bool_decide_eq_true_2 (t = t)) by done. cbn [andb]. apply eq_true_iff_eq. rewrite orb_true_iff, Z.eqb_eq. split.
    + intros [?|(_ & _ & ->)]%(wn_new _ _ _ _ _ W); auto.
    + intros [?| ->]; [by apply (wn_holds _ _ _ _ _ W)|done].
  - rewrite (bool_decide_eq_false_2 (t' = t)), orb_false_r by done. by apply Hf.
Qed.

Lemma filter_all {A} (l : list A) : List.filter (fun _ => true) l = l.
Proof. induction l as [|x l IH]; [done|]. cbn. by rewrite IH. Qed.

Lemma woken_refl s t L : woken s s t L L.
Proof.
  constructor; try done; try (by constructor); try naive_solver.
  - exists (fun _ => true). by rewrite filter_all.
  - intros x q (l1 & l2 & E & _ & Hq) _ Hn. exfalso. apply Hn. rewrite E. set_solver.
Qed.

Lemma blocked_mono s s' t ahead w :
  (forall q, leader_of s' q = leader_of s q) -> (forall q m, holds s t q m = true -> holds s' t q m = true) ->
  (forall q, q ∈ ahead -> waits_mode s' q = waits_mode s q) -> waits_mode s' w = waits_mode s w ->
  blocked s t ahead w -> blocked s' t ahead w.
Proof.
  intros Hl Hh Hm Hw [(a & Ha & Hc)|(q & m & Hq & Hhq & Hc)].
  - left. exists a. by rewrite Hw, Hm.
  - right. exists q, m. rewrite Hw, !Hl. auto.
Qed.

Lemma entries_used_woken s s' t L L' : woken s s' t L L' -> entries_used s t L -> entries_used s' t L'.
Proof.
  intros W Hu p pl' Hpl'. assert (is_Some (ProcLockHash s !! (t, p))) as [pl Hpl] by (apply (wn_dom _ _ _ _ _ W); eauto).
  assert (forall m, holds s' t p m = true -> holdMask pl' <> 0) as Hnz.
  { intros m Hm. unfold holds in Hm. rewrite Hpl' in Hm. by eapply bits_nonzero. }
  destruct (Hu p pl Hpl) as [Hnz'|Hq].
  - left. destruct (nonzero_bit _ Hnz') as (m & _ & Hm). apply (Hnz m), (wn_holds _ _ _ _ _ W). unfold holds. by rewrite Hpl.
  - destruct (decide (p ∈ waitProcs L')) as [|Hn]; [by right|]. left. eapply Hnz, (wn_got _ _ _ _ _ W p Hq Hn).
Qed.

Lemma frame_trans s s1 s2 t : frame s s1 t -> frame s1 s2 t -> frame s s2 t.
Proof.
  intros F1 F2. constructor.
  - intros t' Hne. by rewrite (fr_locks _ _ _ F2), (fr_locks _ _ _ F1).
  - intros t' p Hne. by rewrite (fr_proclocks _ _ _ F2), (fr_proclocks _ _ _ F1).
  - intros p. by rewrite (fr_leader _ _ _ F2), (fr_leader _ _ _ F1).
  - intros p. by rewrite (fr_members _ _ _ F2), (fr_members _ _ _ F1).
  - intros p t' Hne Hw. pose proof (fr_waiters _ _ _ F1 p t' Hne Hw) as E. rewrite (fr_waiters _ _ _ F2 p t' Hne); [done|by rewrite E].
Qed.

Lemma woken_trans s s1 s2 t L L1 L2 :
  woken s s1 t L L1 -> woken s1 s2 t L1 L2 -> woken s s2 t L L2.
Proof.
  intros W1 W2. constructor.
  - exact (frame_trans _ _ _ _ (wn_frame _ _ _ _ _ W1) (wn_frame _ _ _ _ _ W2)).
  - intros q Hq. rewrite (wn_procs _ _ _ _ _ W2), (wn_procs _ _ _ _ _ W1); [done|done|].
    intros Hq1. by destruct (wn_queue _ _ _ _ _ W1 q Hq1).
  - intros q Hq. destruct (wn_queue _ _ _ _ _ W2 q Hq) as (H1 & ->). by apply (wn_queue _ _ _ _ _ W1).
  - intros q Hq Hn. destruct (decide (q ∈ waitProcs L1)) as [H1|H1].
    + destruct (wn_got _ _ _ _ _ W2 q H1 Hn) as (H2 & H3 & H4). unfold waits_mode in *.
      rewrite (proj2 (wn_queue _ _ _ _ _ W1 q H1)) in H2. done.
    + destruct (wn_got _ _ _ _ _ W1 q Hq H1) as (H2 & H3 & H4). rewrite (wn_procs _ _ _ _ _ W2 q H1).
      split_and!; [by apply (wn_holds _ _ _ _ _ W2)|done|done].
  - intros q m Hh. by apply (wn_holds _ _ _ _ _ W2), (wn_holds _ _ _ _ _ W1).
  - intros q m Hh. destruct (wn_new _ _ _ _ _ W2 q m Hh) as [H1|(H1 & H2 & H3)].
    + destruct (wn_new _ _ _ _ _ W1 q m H1) as [?|(H3 & H4 & H5)]; [by left|]. right. split_and!; [done| |done].
      intros Hin. by apply H4, (wn_queue _ _ _ _ _ W2).
    + destruct (wn_queue _ _ _ _ _ W1 q H1) as (H4 & H5). right. split_and!; [done|done|]. unfold waits_mode in *. by rewrite <- H5.
  - intros q. rewrite (wn_dom _ _ _ _ _ W2). apply (wn_dom _ _ _ _ _ W1).
  - exact (no_new_conflicts_trans _ _ _ (wn_conflicts _ _ _ _ _ W1) (wn_conflicts _ _ _ _ _ W2)).
  - by rewrite (wn_requested _ _ _ _ _ W2), (wn_requested _ _ _ _ _ W1).
  - destruct (wn_rest _ _ _ _ _ W2) as (P2 & ->), (wn_rest _ _ _ _ _ W1) as (P1 & ->). eexists. apply filter_filter_andb.
  - intros x q Hpre Hx Hn. destruct (wn_queue _ _ _ _ _ W2 x Hx) as (Hx1 & _). destruct (decide (q ∈ waitProcs L1)) as [Hq1|Hq1]; [|by apply (wn_order _ _ _ _ _ W1)].
    destruct (wn_queue _ _ _ _ _ W1 x Hx1) as (_ & Ex), (wn_queue _ _ _ _ _ W1 q Hq1) as (_ & Eq).
    pose proof (wn_order _ _ _ _ _ W2 x q) as Ho. unfold waits_mode in *. rewrite Ex, Eq in Ho. apply Ho; [|done|done].
    destruct (wn_rest _ _ _ _ _ W1) as (P1 & E1). rewrite E1 in Hx1, Hq1 |- *. rewrite list_elem_of_In, List.filter_In in Hx1, Hq1. apply precedes_filter; tauto.
Qed.

Lemma mask_of_conf s l mask m :
  mask_of s l mask -> (Z.land (conflictTab m) mask =? 0) = false <-> exists a, a ∈ l /\ conf m (waits_mode s a) = true.
Proof.
  intros Hm. rewrite land_masks. split.
  - intros (i & _ & Hc & (a & Ha & <-)%Hm). by exists a.
  - intros (a & Ha & Hc). exists (waits_mode s a). split_and!; [apply is_mode_nonneg; by eapply conf_modes|done|apply Hm; eauto].
Qed.

(** One waiter leaves, seen as a wake-up. *)
Lemma woken_one s s' t L L' w :
  frame s s' t -> w ∈ waitProcs L -> waitProcs L' = filter (fun q => q <> w) (waitProcs L) -> nRequested L' = nRequested L ->
  (forall x, precedes (waitProcs L) x w -> conf (waits_mode s w) (waits_mode s x) = false) ->
  (forall q, q <> w -> allProcs s' q = allProcs s q) -> waitStatus (allProcs s' w) = STATUS_OK -> links (allProcs s' w) = false ->
  hold_added s s' t w (waits_mode s w) -> conflict_free s t (waits_mode s w) w ->
  (forall q, is_Some (ProcLockHash s' !! (t, q)) <-> is_Some (ProcLockHash s !! (t, q))) -> woken s s' t L L'.
Proof.
  intros Hfr Hw Hq Hn Hord Hp Hst Hk Hadd Hfree Hdom. assert (forall q, q ∈ waitProcs L' <-> q <> w /\ q ∈ waitProcs L) as Hin.
  { intros q. rewrite Hq, list_elem_of_filter. done. }
  constructor; try done.
  - intros q Hnq. apply Hp. by intros ->.
  - intros q (Hne & Hq')%Hin. auto.
  - intros q Hq' Hnq. rewrite Hin in Hnq. assert (q = w) as -> by (destruct (decide (q = w)); [done|tauto]).
    split_and!; [|done|done]. by rewrite Hadd, !Z.eqb_refl, orb_true_r.
  - intros q m Hh. by rewrite Hadd, Hh.
  - intros q m. rewrite Hadd. intros [Hh|(->%Z.eqb_eq & ->%Z.eqb_eq)%andb_true_iff]%orb_true_iff; [by left|].
    right. rewrite Hin. naive_solver.
  - by eapply no_new_conflicts_grant.
  - eexists. rewrite Hq. apply filter_ne_bool.
  - intros x q Hpre _ Hnq. rewrite Hin in Hnq. destruct (decide (q = w)) as [->|]; [by apply Hord|]. exfalso. apply Hnq. split; [done|].
    destruct Hpre as (l1 & l2 & -> & _ & Hq'). set_solver.
Qed.

(** The test for a grant: nothing conflicts with the requests ahead nor with the
    locks of another group. *)
Lemma check_ahead MyProc s t L pending p m stay ahead :
  busy s t L pending -> p ∈ procLocks L -> is_mode m -> mask_of s stay ahead ->
  exists status, (if Z.land (conflictTab m) ahead =? 0 then LockCheckConflicts s MyProc m t p else Ret STATUS_FOUND) = Ret status /\
    ((status = STATUS_OK /\ conflict_free s t m p /\ forall a, a ∈ stay -> conf m (waits_mode s a) = false) \/
     (status = STATUS_FOUND /\ ((exists a, a ∈ stay /\ conf m (waits_mode s a) = true) \/ hard_blocked s t p m))).
Proof.
  intros B Hp Hm Hmask. destruct (Z.land (conflictTab m) ahead =? 0) eqn:E.
  - destruct (LockCheckConflicts_ok s t L (bz_lock _ _ _ _ B) (bz_grants _ _ _ _ B) (bz_groups _ _ _ _ B) MyProc m p Hm Hp) as [(-> & Hf)|(-> & Hf)].
    + exists STATUS_OK. split; [done|]. left. split_and!; [done|done|]. intros a Ha.
      destruct (conf m (waits_mode s a)) eqn:Ec; [|done]. rewrite (proj2 (mask_of_conf s stay ahead m Hmask)) in E; [done|eauto].
    + exists STATUS_FOUND. eauto.
  - exists STATUS_FOUND. split; [done|]. right. split; [done|]. left. by eapply mask_of_conf.
Qed.

(** Everything before a waiter stays, or it is blocked by the split it stands at. *)
Lemma stay_snoc s t stay w :
  (forall before x after, stay = before ++ x :: after -> blocked s t before x) -> blocked s t stay w ->
  forall before x after, stay ++ [w] = before ++ x :: after -> blocked s t before x.
Proof.
  intros Hs Hw before x after E. destruct after as [|y after _] using rev_ind.
  - apply app_inj_tail in E as (-> & ->). done.
  - rewrite app_comm_cons, app_assoc in E. apply app_inj_tail in E as (-> & ->). by eapply Hs.
Qed.

Lemma mask_of_snoc s stay w ahead :
  mask_of s stay ahead -> is_mode (waits_mode s w) -> mask_of s (stay ++ [w]) (Z.lor ahead (LOCKBIT_ON (waits_mode s w))).
Proof.
  intros Hm Hw m. rewrite lor_bit, orb_true_iff, Z.eqb_eq, (Hm m) by done. set_solver.
Qed.

Lemma mask_of_ext s s' l mask : (forall q, q ∈ l -> waits_mode s' q = waits_mode s q) -> mask_of s l mask -> mask_of s' l mask.
Proof. intros He Hm m. rewrite (Hm m). split; intros (a & Ha & <-); exists a; (split; [done|]); [by apply He|by symmetry; apply He]. Qed.

(** The loop of [ProcLockWakeup]: afterwards nobody in the queue can be woken. *)
Lemma wakeup_loop_ok MyProc t queue : forall s L stay ahead,
  busy s t L None -> waitProcs L = stay ++ queue -> mask_of s stay ahead ->
  (forall before w after, stay = before ++ w :: after -> blocked s t before w) ->
  exists s' L', wakeup_loop MyProc t queue ahead s = Ret s' /\ busy s' t L' None /\ queue_blocked s' t L' /\ woken s s' t L L'.
Proof.
  induction queue as [|w queue IH]; intros s L stay ahead B Hsplit Hmask Hblocked; cbn [wakeup_loop].
  { exists s, L. rewrite app_nil_r in Hsplit. split_and!; [done|done| |apply woken_refl].
    intros before x after Hx. rewrite Hsplit in Hx. by eapply Hblocked. }
  destruct (bz_queue _ _ _ _ B) as [Q1 Q2 Q3]. assert (w ∈ waitProcs L) as Hw by (rewrite Hsplit; set_solver).
  destruct (Q1 w Hw) as (W & Hpw). rewrite (wk_proclock _ _ _ W). cbn [deref cbind]. fold (waits_mode s w).
  destruct (check_ahead MyProc s t L None w (waits_mode s w) stay ahead B Hpw (wk_mode _ _ _ W) Hmask) as (status & -> & [(-> & Hf & Hahead)|(-> & Hb)]); cbn [cbind].
  - rewrite Z.eqb_refl. destruct (wake_waiter s t L w B Hw) as (s1 & s2 & L2 & -> & HW & B2 & Hq2 & Hn2 & Hp2 & Hm2 & Ha2 & Hfr & Hd2).
    cbn [cbind]. rewrite HW. cbn [cbind].
    assert (w ∉ stay ++ queue) as Hnw.
    { rewrite Hsplit in Q2. apply NoDup_app in Q2 as (_ & H2 & H3). apply NoDup_cons in H3 as (H3 & _).
      intros [H|H]%elem_of_app; [by apply (H2 w H), list_elem_of_here|done]. }
    assert (waitProcs L2 = stay ++ queue) as Hsplit2.
    { apply not_elem_of_app in Hnw as (Hn1 & Hn3).
      by rewrite Hq2, Hsplit, filter_app, filter_cons, decide_False, !filter_ne_id by naive_solver. }
    assert (forall x, precedes (waitProcs L) x w -> conf (waits_mode s w) (waits_mode s x) = false) as Hord.
    { intros x Hx. apply Hahead. rewrite Hsplit in Hx. eapply precedes_split; [|exact Hx]. by rewrite <- Hsplit. }
    pose proof (woken_one s s2 t L L2 w Hfr Hw Hq2 Hn2 Hord Hp2 (proj1 Hm2) (proj2 Hm2) Ha2 Hf Hd2) as W2.
    assert (forall q, q ∈ stay -> waits_mode s2 q = waits_mode s q) as Hmode.
    { intros q Hq. unfold waits_mode. rewrite Hp2; [done|]. set_solver. }
    destruct (IH s2 L2 stay ahead B2 Hsplit2) as (s3 & L3 & H3 & B3 & Hb3 & W3).
    + by eapply mask_of_ext.
    + intros before x after Hx. apply (blocked_mono s); [apply (frame_leader _ _ _ Hfr)|apply (wn_holds _ _ _ _ _ W2)|..].
      * intros q Hq. apply Hmode. rewrite Hx. set_solver.
      * apply Hmode. rewrite Hx. set_solver.
      * by eapply Hblocked.
    + exists s3, L3. split_and!; [done|done|done|]. by eapply woken_trans.
  - change (STATUS_FOUND =? STATUS_OK) with false. apply (IH s L (stay ++ [w])); [done|by rewrite <- app_assoc|by apply mask_of_snoc, (wk_mode _ _ _ W)|].
    by apply stay_snoc.
Qed.

Lemma ProcLockWakeup_ok s MyProc t L :
  busy s t L None ->
  exists s' L', ProcLockWakeup s MyProc t = Ret s' /\ busy s' t L' None /\ queue_blocked s' t L' /\ woken s s' t L L'.
Proof.
  intros B. unfold ProcLockWakeup. rewrite (bz_lock _ _ _ _ B). cbn [deref cbind].
  apply (wakeup_loop_ok MyProc t (waitProcs L) s L []); [done|done| |].
  - intros m. rewrite Z.bits_0. split; [done|]. by intros (a & Ha%elem_of_nil & _).
  - intros before w after E. by destruct before.
Qed.

(** ** Dropping entries *)

(** From [s] to [s'], processes of the queue [Q] of lock [t] may have been given
    what they wait for, and nothing else is given or taken. *)
Record served (s s' : lmgr) (t : LOCKTAG) (Q : list Z) : Prop := {
  sv_frame : frame s s' t;
  sv_procs : forall q, q ∉ Q -> allProcs s' q = allProcs s q;
  sv_others : forall q, bystander s s' q;
  sv_conflicts : no_new_conflicts s s';
  sv_holds : forall q m, holds s t q m = true -> holds s' t q m = true;
  sv_new : forall q m, holds s' t q m = true ->
    holds s t q m = true \/ (q ∈ Q /\ m = waits_mode s q /\ waitStatus (allProcs s' q) = STATUS_OK /\ links (allProcs s' q) = false) }.

Lemma woken_served s s' t L L' pending : busy s t L pending -> woken s s' t L L' -> served s s' t (waitProcs L).
Proof.
  intros B W. constructor; [apply W|apply W| |apply W|apply W|].
  { intros q. eapply woken_bystander; [|exact W]. intros Hq. by apply (lc_waiters _ _ _ (bz_queue _ _ _ _ B)). }
  intros q m Hh. destruct (wn_new _ _ _ _ _ W q m Hh) as [?|(H1 & H2 & H3)]; [by left|]. right.
  destruct (wn_got _ _ _ _ _ W q H1 H2) as (_ & H4 & H5). done.
Qed.

Definition without_entry (L : LOCK) (p : Z) : LOCK :=
  {| grantMask := grantMask L; waitMask := waitMask L; procLocks := filter (fun q => q <> p) (procLocks L);
     waitProcs := waitProcs L; requested := requested L; nRequested := nRequested L;
     granted := granted L; nGranted := nGranted L |}.

Definition drop_entry (s : lmgr) (t : LOCKTAG) (L : LOCK) (p : Z) : lmgr :=
  set_proclocks (put_lock s t (without_entry L p)) (delete (t, p) (ProcLockHash s)).

(** An empty entry holds nothing, so dropping it changes no holder. *)
Lemma drop_entry_holds s t L p pl q m t' :
  ProcLockHash s !! (t, p) = Some pl -> holdMask pl = 0 -> holds (drop_entry s t L p) t' q m = holds s t' q m.
Proof.
  intros Hpl Hz. unfold holds. cbn. destruct (decide ((t', q) = (t, p))) as [E|Hne].
  - injection E as -> ->. by rewrite lookup_delete_eq, Hpl, Hz, Z.bits_0.
  - by rewrite lookup_delete_ne by congruence.
Qed.

Lemma drop_entry_frame s t L p : frame s (drop_entry s t L p) t.
Proof.
  constructor; try done.
  - intros t' Hne. by apply lookup_insert_ne.
  - intros t' q Hne. apply lookup_delete_ne. congruence.
Qed.

Lemma drop_entry_busy s t L p pl pending :
  busy s t L pending -> ProcLockHash s !! (t, p) = Some pl -> holdMask pl = 0 -> p ∉ waitProcs L ->
  busy (drop_entry s t L p) t (without_entry L p) pending.
Proof.
  intros B Hpl Hz Hnq. pose proof (bz_grants _ _ _ _ B) as G.
  pose proof (fun q m => drop_entry_holds s t L p pl q m t Hpl Hz) as Hh.
  eapply busy_step; [apply drop_entry_frame|exact B|apply lookup_insert_eq| | | |].
  - destruct G as [G1 G2 G3 G4 G5 G6 G7 G8]. constructor; try done; cbn [procLocks without_entry granted].
    + by apply NoDup_filter.
    + intros q. rewrite list_elem_of_filter, G2. cbn. destruct (decide (q = p)) as [->|].
      * rewrite lookup_delete_eq. split; [naive_solver|]. by intros [? [=]].
      * rewrite lookup_delete_ne by congruence. naive_solver.
    + intros q x. cbn. rewrite lookup_delete_Some. intros (_ & H). by apply G3.
    + intros m. rewrite countb_remove; [|done|apply G2; eauto]. rewrite G6. rewrite Hh. unfold holds at 3. rewrite Hpl, Hz, Z.bits_0, Z.sub_0_r.
      apply countb_ext. intros q _. by rewrite Hh.
  - destruct (bz_queue _ _ _ _ B) as [Q1 Q2 Q3]. constructor; [|done|done].
    intros w Hw. destruct (Q1 w Hw) as ([] & Hpw). split.
    + constructor; try done; [by rewrite Hh|]. intros m. rewrite Hh. auto.
    + apply list_elem_of_filter. split; [|done]. by intros ->.
  - destruct (bz_counts _ _ _ _ B). by constructor.
  - intros q Hq. by apply (links_here s t L pending q B).
Qed.

Lemma served_refl s t Q : served s s t Q.
Proof. constructor; try done; try (by constructor); try (by left). Qed.

Lemma served_after_drop s s' t L p pl Q :
  ProcLockHash s !! (t, p) = Some pl -> holdMask pl = 0 -> served (drop_entry s t L p) s' t Q -> served s s' t Q.
Proof.
  intros Hpl Hz V. pose proof (fun q m => drop_entry_holds s t L p pl q m t Hpl Hz) as Hh. constructor.
  - exact (frame_trans _ _ _ _ (drop_entry_frame s t L p) (sv_frame _ _ _ _ V)).
  - apply (sv_procs _ _ _ _ V).
  - intros q. eapply bystander_trans; [|apply (sv_others _ _ _ _ V)]. left. split; [done|]. intros t' m. by rewrite (drop_entry_holds s t L p pl).
  - eapply no_new_conflicts_trans; [|exact (sv_conflicts _ _ _ _ V)]. apply no_new_conflicts_fewer; [done|]. intros t' q m. by rewrite (drop_entry_holds s t L p pl).
  - intros q m H. apply (sv_holds _ _ _ _ V). by rewrite Hh.
  - intros q m H. destruct (sv_new _ _ _ _ V q m H) as [H1|H1]; [left; by rewrite Hh in H1|by right].
Qed.

(** Without requests there are no entries. *)
Lemma no_requests s t L : busy s t L None -> entries_used s t L -> nRequested L = 0 -> procLocks L = [].
Proof.
  intros B Hu Hz. pose proof (bz_grants _ _ _ _ B) as G. pose proof (lq_nRequested _ _ _ (bz_counts _ _ _ _ B)) as Hn. cbn in Hn.
  pose proof (nGranted_nonneg _ _ _ G). pose proof (zlen_nonneg (waitProcs L)).
  destruct (procLocks L) as [|p l] eqn:El; [done|]. exfalso.
  assert (is_Some (ProcLockHash s !! (t, p))) as [pl Hpl] by (apply (lc_proclocks _ _ _ G); rewrite El; set_solver).
  destruct (Hu p pl Hpl) as [Hne|Hq].
  - destruct (nonzero_bit _ Hne) as (m & _ & Hm). assert (holds s t p m = true) as Hh by (unfold holds; by rewrite Hpl).
    assert (0 < mget (granted L) m).
    { rewrite (lc_granted _ _ _ G). apply countb_pos. exists p. split; [rewrite El; set_solver|done]. }
    pose proof (msum_le_zero (mget (granted L)) m (fun m _ => granted_nonneg _ _ _ m G) (proj2 (lc_entry _ _ _ G p pl Hpl) m Hm)).
    rewrite (lc_nGranted _ _ _ G) in Hn. lia.
  - destruct (waitProcs L); [by apply elem_of_nil in Hq|]. rewrite zlen_cons in *. pose proof (zlen_nonneg l0). lia.
Qed.

Lemma nRequested_nonneg s t L pending : busy s t L pending -> 0 <= nRequested L.
Proof. intros B. pose proof (nGranted_le _ _ _ _ B). pose proof (nGranted_nonneg _ _ _ (bz_grants _ _ _ _ B)). lia. Qed.

(** The end of [CleanUpLock], after the entry is gone if it was empty. *)
Lemma cleanup_tail s MyProc t L (wake : bool) :
  busy s t L None -> entries_used s t L -> (wake = false -> queue_blocked s t L) ->
  exists s', (if nRequested L =? 0 then c_assert (bool_decide (procLocks L = []));; Ret (set_locks s (delete t (LockHash s)))
      else if wake then ProcLockWakeup s MyProc t else Ret s) = Ret s' /\ lmgr_ok s' /\ served s s' t (waitProcs L).
Proof.
  intros B Hu Hb. pose proof (nRequested_nonneg _ _ _ _ B). destruct (Z.eqb_spec (nRequested L) 0) as [Ez|Ez].
  - pose proof (no_requests s t L B Hu Ez) as Hnil. rewrite bool_decide_eq_true_2 by done. cbn [c_assert cbind].
    eexists. split; [done|]. split; [by eapply busy_drop|]. constructor; try done; try by left.
    constructor; try done. intros t' Hne. by apply lookup_delete_ne.
  - destruct wake.
    + destruct (ProcLockWakeup_ok s MyProc t L B) as (s' & L' & -> & B' & Hb' & W). exists s'. split; [done|].
      split; [|by eapply woken_served]. eapply busy_lmgr_ok; [exact B'|done|by eapply entries_used_woken|rewrite (wn_requested _ _ _ _ _ W); lia].
    + exists s. split; [done|]. split; [|apply served_refl]. eapply busy_lmgr_ok; [exact B|by apply Hb|done|lia].
Qed.

Lemma CleanUpLock_ok s MyProc t L p pl (wake : bool) :
  busy s t L None -> ProcLockHash s !! (t, p) = Some pl -> (holdMask pl = 0 -> p ∉ waitProcs L) ->
  (forall q x, q <> p -> ProcLockHash s !! (t, q) = Some x -> holdMask x <> 0 \/ q ∈ waitProcs L) ->
  (wake = false -> queue_blocked s t L) ->
  exists s', CleanUpLock s MyProc t p wake = Ret s' /\ lmgr_ok s' /\ served s s' t (waitProcs L).
Proof.
  intros B Hpl Hnq Hu Hb. unfold CleanUpLock. rewrite Hpl, (bz_lock _ _ _ _ B). cbn [deref cbind].
  destruct (Z.eqb_spec (holdMask pl) 0) as [Ez|Ez].
  - pose proof (drop_entry_busy s t L p pl None B Hpl Ez (Hnq Ez)) as B1.
    destruct (cleanup_tail _ MyProc t (without_entry L p) wake B1) as (s' & E & Hok & Hs).
    + intros q x. cbn. rewrite lookup_delete_Some. intros (Hne & Hx). apply (Hu q x); [congruence|done].
    + intros Hw before w after Hsplit. specialize (Hb Hw before w after Hsplit).
      eapply blocked_mono; [| | | |exact Hb]; try done. intros q m. by rewrite (drop_entry_holds s t L p pl q m t Hpl Ez).
    + exists s'. split; [exact E|]. split; [done|]. by eapply served_after_drop.
  - apply cleanup_tail; [done| |done]. intros q x Hx. destruct (decide (q = p)) as [->|]; [|by eapply Hu].
    left. congruence.
Qed.

(** ** Leaving the queue *)

(** The state [RemoveFromWaitQueue] hands to [CleanUpLock]. *)
Definition dequeued (s : lmgr) (t : LOCKTAG) (L : LOCK) (w : Z) : lmgr :=
  let p := allProcs s w in
  put_proc (put_lock s t L) w
    {| pid := pid p; lockGroupLeader := lockGroupLeader p; lockGroupMembers := lockGroupMembers p;
       links := false; waitLock := None; waitProcLock := None;
       waitLockMode := waitLockMode p; heldLocks := heldLocks p; waitStatus := STATUS_ERROR |}.

Lemma dequeued_procs s t L w q : q <> w -> allProcs (dequeued s t L w) q = allProcs s q.
Proof. intros Hq. by apply fn_lookup_insert_ne. Qed.

Lemma dequeued_leader s t L w q : leader_of (dequeued s t L w) q = leader_of s q.
Proof.
  unfold leader_of. destruct (decide (q = w)) as [->|]; [|by rewrite dequeued_procs].
  cbn. by rewrite fn_lookup_insert.
Qed.

Lemma dequeued_mode s t L w q : waits_mode (dequeued s t L w) q = waits_mode s q.
Proof.
  unfold waits_mode. destruct (decide (q = w)) as [->|]; [|by rewrite dequeued_procs].
  cbn. by rewrite fn_lookup_insert.
Qed.

Lemma dequeued_frame s t L w : waitLock (allProcs s w) = Some t -> frame s (dequeued s t L w) t.
Proof.
  intros Hw. constructor; try done.
  - intros t' Hne. by apply lookup_insert_ne.
  - intros q. destruct (decide (q = w)) as [->|]; [cbn; by rewrite fn_lookup_insert|by rewrite dequeued_procs].
  - intros q. destruct (decide (q = w)) as [->|]; [cbn; by rewrite fn_lookup_insert|by rewrite dequeued_procs].
  - intros q t' Hne Hq. apply dequeued_procs. congruence.
Qed.

(** The grants of a lock do not depend on its queue. *)
Lemma grants_ext s s' t L L' :
  (forall q, ProcLockHash s' !! (t, q) = ProcLockHash s !! (t, q)) -> (forall q, leader_of s' q = leader_of s q) ->
  procLocks L' = procLocks L -> granted L' = granted L -> grantMask L' = grantMask L -> nGranted L' = nGranted L ->
  zlen (requested L') = MAX_LOCKMODES -> lock_grants s t L -> lock_grants s' t L'.
Proof.
  intros Hpl Hl H1 H2 H3 H4 H5 [G1 G2 G3 G4 G5 G6 G7 G8].
  assert (forall q m, holds s' t q m = holds s t q m) as Hh by (intros q m; unfold holds; by rewrite Hpl).
  constructor; rewrite ?H1, ?H2, ?H3, ?H4; try done.
  - intros p. by rewrite Hpl.
  - intros p pl. rewrite Hpl, Hl. apply G3.
  - intros m. rewrite G6. apply countb_ext. intros p _. by rewrite Hh.
Qed.

(** What a process that gave up leaves behind. *)
Record gave_up (s s' : lmgr) (t : LOCKTAG) (Q : list Z) (w : Z) : Prop := {
  gu_frame : frame s s' t;
  gu_proc : waitStatus (allProcs s' w) = STATUS_ERROR /\ links (allProcs s' w) = false;
  gu_procs : forall q, q ∉ Q -> q <> w -> allProcs s' q = allProcs s q;
  gu_own : forall m, holds s' t w m = holds s t w m;
  gu_others : forall q, q <> w -> bystander s s' q;
  gu_conflicts : no_new_conflicts s s';
  gu_holds : forall q m, holds s t q m = true -> holds s' t q m = true;
  gu_new : forall q m, holds s' t q m = true -> holds s t q m = true \/ (q ∈ Q /\ m = waits_mode s q) }.

Lemma RemoveFromWaitQueue_ok s MyProc t L w :
  busy s t L None -> entries_used s t L -> w ∈ waitProcs L ->
  exists s', RemoveFromWaitQueue s MyProc w = Ret s' /\ lmgr_ok s' /\ gave_up s s' t (waitProcs L) w.
Proof.
  intros B Hu Hw. pose proof (bz_grants _ _ _ _ B) as G. destruct (bz_queue _ _ _ _ B) as [Q1 Q2 Q3].
  destruct (Q1 w Hw) as (W & Hpw). pose proof (wk_mode _ _ _ W) as Hm. set (m := waits_mode s w) in *.
  pose proof (lq_requested _ _ _ (bz_counts _ _ _ _ B)) as Hreq. pose proof (lq_nRequested _ _ _ (bz_counts _ _ _ _ B)) as Hnreq.
  cbn in Hreq, Hnreq. pose proof (nGranted_nonneg _ _ _ G). pose proof (granted_nonneg _ _ _ m G).
  pose proof (zlen_remove w _ Q2 Hw) as Hz. pose proof (zlen_nonneg (filter (fun q => q <> w) (waitProcs L))).
  assert (0 < countb (fun q => waits_mode s q =? m) (waitProcs L)) as Hpos by (apply countb_pos; exists w; split; [done|apply Z.eqb_refl]).
  pose proof (mode_index m _ Hm (lc_rlen _ _ _ G)) as Hi.
  assert (is_Some (ProcLockHash s !! (t, w))) as [pl Hpl] by (by apply (lc_proclocks _ _ _ G)).
  unfold RemoveFromWaitQueue. rewrite (wk_status _ _ _ W), (wk_links _ _ _ W), (wk_lock _ _ _ W), (wk_proclock _ _ _ W).
  rewrite Z.eqb_refl. cbn [c_assert cbind deref]. rewrite (bz_lock _ _ _ _ B). cbn [cbind deref]. fold (waits_mode s w). fold m.
  rewrite bool_decide_eq_false_2 by (intros E; rewrite E in Hw; by apply elem_of_nil in Hw). cbn [negb c_assert cbind].
  pose proof (Hreq m) as Hreqm.
  destruct (Z.ltb_spec 0 (nRequested L)); [|lia]. destruct (Z.ltb_spec (nGranted L) (nRequested L)); [|lia].
  destruct (Z.ltb_spec 0 (mget (requested L) m)); [|lia]. cbn [c_assert cbind].
  set (L1 := Build_LOCK _ _ _ (filter _ _) _ _ _ _). change (put_proc _ _ _) with (dequeued s t L1 w).
  pose proof (dequeued_frame s t L1 w (wk_lock _ _ _ W)) as Hfr.
  assert (left_queue s (dequeued s t L1 w) w L L1) as V0.
  { constructor; try done; try (cbn; by rewrite fn_lookup_insert). intros q. apply dequeued_procs. }
  assert (busy (dequeued s t L1 w) t L1 None) as B1.
  { eapply busy_step; [exact Hfr|exact B|apply lookup_insert_eq| | | |apply (left_links _ _ t w L L1 V0 B)].
    - eapply grants_ext; [| | | | | | |exact G]; try done; [intros q; apply dequeued_leader|]. cbn. rewrite mset_len. apply (lc_rlen _ _ _ G).
    - eapply (left_lock_queue s _ t w L L1 V0 B Hw); [|done|cbn; reflexivity|rewrite Z.eqb_eq, mget_mset, Z.eqb_refl by done; fold m; lia].
      intros q Hne Hq. destruct (Q1 q Hq) as ([] & _). constructor; rewrite ?dequeued_mode, ?dequeued_procs by done; done.
    - constructor; [|cbn; lia]. intros i. rewrite (left_count _ _ t w L L1 V0 B Hw). fold m. cbn. rewrite mget_mset by done. rewrite !Hreq.
      rewrite (Z.eqb_sym m i). destruct (Z.eqb_spec i m) as [->|]; lia. }
  destruct (CleanUpLock_ok _ MyProc t L1 w pl true B1 Hpl) as (s' & E & Hok & V).
  - intros _ Hin. by apply list_elem_of_filter in Hin as (Hin & _).
  - intros q x Hne Hx. destruct (Hu q x Hx) as [?|?]; [by left|right]. by apply list_elem_of_filter.
  - done.
  - exists s'. split; [exact E|]. split; [done|].
    assert (w ∉ waitProcs L1) as Hnw by (intros Hin; by apply list_elem_of_filter in Hin as (Hin & _)).
    assert (allProcs s' w = allProcs (dequeued s t L1 w) w) as Ew by (by apply (sv_procs _ _ _ _ V)).
    constructor.
    + exact (frame_trans _ _ _ _ Hfr (sv_frame _ _ _ _ V)).
    + rewrite Ew. cbn. by rewrite fn_lookup_insert.
    + intros q Hq Hne. rewrite (sv_procs _ _ _ _ V); [by apply dequeued_procs|]. intros Hin. by apply list_elem_of_filter in Hin as (_ & Hin).
    + intros i. apply eq_true_iff_eq. split; [|apply (sv_holds _ _ _ _ V)].
      intros [?|(Hin & _)]%(sv_new _ _ _ _ V); done.
    + intros q Hne. eapply bystander_trans; [|apply (sv_others _ _ _ _ V)]. left. split; [by apply dequeued_procs|done].
    + eapply no_new_conflicts_trans; [|exact (sv_conflicts _ _ _ _ V)]. apply no_new_conflicts_fewer; [apply dequeued_leader|done].
    + apply (sv_holds _ _ _ _ V).
    + intros q i [?|(Hin & Hmi & _)]%(sv_new _ _ _ _ V); [by left|right]. rewrite dequeued_mode in Hmi.
      by apply list_elem_of_filter in Hin as (_ & Hin).
Qed.
