(* ===== verification/LockRequests.v ===== *)
(** * Heavyweight locks: requests and releases keep the invariant *)
From stdpp Require Import list gmap functions.
From S2P Require Import Prelude LockModes LockTable LockInvariant LockOps.

(** ** Releasing *)

(** Without a conflict of the mode with the modes waited for, nobody waited for it. *)
Lemma ungrant_blocked s s' t L L' p m :
  lock_queue s t L -> waitProcs L' = waitProcs L -> allProcs s' = allProcs s ->
  (forall q i, holds s' t q i = holds s t q i && negb ((q =? p) && (i =? m))) ->
  Z.land (conflictTab m) (waitMask L) =? 0 = true -> queue_blocked s t L -> queue_blocked s' t L'.
Proof.
  intros [Q1 Q2 Q3] HQ Hp Hhs Hwake Hb before w after Hsplit. rewrite HQ in Hsplit. specialize (Hb before w after Hsplit).
  assert (forall q, leader_of s' q = leader_of s q) as Hl by (intros; unfold leader_of; by rewrite Hp).
  assert (forall q, waits_mode s' q = waits_mode s q) as Hm by (intros; unfold waits_mode; by rewrite Hp).
  unfold blocked, hard_blocked in *. rewrite !Hm.
  destruct Hb as [(a & Ha & Hc)|(q & i & Hl1 & Hl2 & Hl3)]; [left; exists a; by rewrite Hm|right]. exists q, i. rewrite !Hl. split; [done|]. split; [|done].
  rewrite Hhs, Hl2. cbn [andb]. apply negb_true_iff. destruct (Z.eqb_spec q p) as [->|]; [|done]. destruct (Z.eqb_spec i m) as [->|]; [|done].
  exfalso. rewrite land_masks_none in Hwake.
  specialize (Hwake (waits_mode s w)). rewrite Q3 in Hwake by (apply is_mode_nonneg, (conf_modes _ m Hl3)).
  assert (conf m (waits_mode s w) = true) as Hc by (by rewrite conf_sym).
  apply Hwake, Z.ltb_ge in Hc. assert (0 < countb (fun q => waits_mode s q =? waits_mode s w) (waitProcs L)); [|lia].
  apply countb_pos. exists w. split; [rewrite Hsplit; set_solver|apply Z.eqb_refl].
Qed.

(** Lock [t] after process [p] gave mode [m] back. *)
Record released (s s' : lmgr) (t : LOCKTAG) (Q : list Z) (p m : Z) : Prop := {
  re_frame : frame s s' t;
  re_procs : forall q, q ∉ Q -> allProcs s' q = allProcs s q;
  re_others : forall q, q <> p -> bystander s s' q;
  re_conflicts : no_new_conflicts s s';
  re_gone : holds s' t p m = false;
  re_holds : forall q i, holds s t q i = true -> (q, i) <> (p, m) -> holds s' t q i = true;
  re_new : forall q i, holds s' t q i = true ->
    holds s t q i = true \/ (q ∈ Q /\ i = waits_mode s q /\ waitStatus (allProcs s' q) = STATUS_OK /\ links (allProcs s' q) = false) }.

Lemma UnGrantLock_ok s t L p m :
  busy s t L None -> p ∉ waitProcs L -> is_mode m -> holds s t p m = true ->
  exists s' L' wake, UnGrantLock s t m p = Ret (s', wake) /\ busy s' t L' None /\ waitProcs L' = waitProcs L /\
    allProcs s' = allProcs s /\ frame s s' t /\
    (forall q i, holds s' t q i = holds s t q i && negb ((q =? p) && (i =? m))) /\
    (forall q, q <> p -> ProcLockHash s' !! (t, q) = ProcLockHash s !! (t, q)) /\
    is_Some (ProcLockHash s' !! (t, p)) /\
    (wake = false -> queue_blocked s t L -> queue_blocked s' t L').
Proof.
  intros B Hnq Hm Hh. pose proof (bz_grants _ _ _ _ B) as G. destruct (bz_queue _ _ _ _ B) as [Q1 Q2 Q3].
  pose proof Hh as Hh'. unfold holds in Hh'. destruct (ProcLockHash s !! (t, p)) as [pl|] eqn:Hpl; [|done].
  assert (p ∈ procLocks L) as Hp by (apply (lc_proclocks _ _ _ G); eauto).
  pose proof (lq_requested _ _ _ (bz_counts _ _ _ _ B)) as Hreq. pose proof (lq_nRequested _ _ _ (bz_counts _ _ _ _ B)) as Hnreq.
  cbn in Hreq, Hnreq. pose proof (zlen_nonneg (waitProcs L)). pose proof (countb_nonneg (fun q => waits_mode s q =? m) (waitProcs L)).
  assert (0 < mget (granted L) m) as Hg by (rewrite (lc_granted _ _ _ G); apply countb_pos; eauto).
  pose proof (msum_le_zero (mget (granted L)) m (fun m _ => granted_nonneg _ _ _ m G) Hm) as Hsum. rewrite <- (lc_nGranted _ _ _ G) in Hsum.
  pose proof (mode_index m _ Hm (lc_rlen _ _ _ G)) as Hir. pose proof (mode_index m _ Hm (lc_glen _ _ _ G)) as Hig.
  pose proof (Hreq m) as Hreqm. unfold UnGrantLock. rewrite (bz_lock _ _ _ _ B), Hpl. cbn [deref cbind].
  destruct (Z.ltb_spec 0 (nRequested L)); [|lia]. destruct (Z.ltb_spec 0 (mget (requested L) m)); [|lia].
  destruct (Z.ltb_spec 0 (nGranted L)); [|lia]. destruct (Z.ltb_spec 0 (mget (granted L) m)); [|lia].
  destruct (Z.leb_spec (nGranted L) (nRequested L)); [|lia]. cbn [andb c_assert cbind].
  set (L' := Build_LOCK _ _ _ _ _ _ _ _). set (wake := negb _). set (s' := put_proclock _ _ _). exists s', L', wake. split; [done|].
  assert (remask s s' t p pl (Z.land (holdMask pl) (LOCKBIT_OFF m))) as Hre.
  { split; [done|]. intros q. cbn. destruct (decide (q = p)) as [->|]; [by rewrite lookup_insert_eq|]. apply lookup_insert_ne. congruence. }
  assert (frame s s' t) as Hfr by apply frame_put.
  assert (forall q i, holds s' t q i = holds s t q i && negb ((q =? p) && (i =? m))) as Hhs.
  { intros q i. rewrite (remask_holds _ _ _ _ _ _ _ _ Hre). destruct (decide (q = p)) as [->|].
    - rewrite land_off_bit, Z.eqb_refl by done. unfold holds. by rewrite Hpl.
    - destruct (Z.eqb_spec q p); [done|]. by rewrite andb_true_r. }
  split_and!; [|done|done|done|done| |by cbn; rewrite lookup_insert_eq; eauto|].
  - eapply busy_step; [exact Hfr|exact B|apply lookup_insert_eq| | | |].
    + assert (forall i, holds s t p i = Z.testbit (holdMask pl) i) as Hhp by (intros i; unfold holds; by rewrite Hpl).
      eapply grants_remask; [exact G|exact Hre|done|done| |by cbn; rewrite mset_len; apply (lc_glen _ _ _ G)|by cbn; rewrite mset_len; apply (lc_rlen _ _ _ G)|..]; cbn.
      * intros i. rewrite land_off_bit by done. intros (Hb & _)%andb_true_iff. by apply (lc_entry _ _ _ G _ _ Hpl).
      * intros i. rewrite mget_mset, land_off_bit, <- Hhp by done. destruct (Z.eqb_spec i m) as [->|].
        -- rewrite Hh. cbn. lia.
        -- rewrite andb_true_r. destruct (holds s t p i); lia.
      * intros i Hi. rewrite !mget_mset, Z.eqb_refl by done.
        rewrite (counted_mask_off (grantMask L) m (mget (granted L)) _ Hm (lc_grantMask _ _ _ G) Hg) by (rewrite ?Z.eqb_eq; lia).
        rewrite (Z.eqb_sym m i). destruct (Z.eqb_spec i m) as [->|]; [done|by rewrite Z.sub_0_r].
      * rewrite mset_sum; [rewrite (lc_nGranted _ _ _ G); lia|done|apply (lc_glen _ _ _ G)].
    + constructor; [|done|done]. intros w Hw. destruct (Q1 w Hw) as ([W1 W2 W3 W4 W5 W6 W7] & Hpw). split; [|done].
      assert (w <> p) by (by intros ->). constructor; try done.
      * rewrite Hhs. change (waits_mode s' w) with (waits_mode s w). by rewrite W6.
      * intros i Hi. rewrite Hhs, (W7 i Hi). destruct (Z.eqb_spec w p); [done|]. done.
    + constructor; cbn; [|lia]. intros i. rewrite !mget_mset by done. rewrite !Hreq. unfold waits_mode. change (allProcs s') with (allProcs s).
      destruct (Z.eqb_spec i m) as [->|]; lia.
    + intros q Hq. by apply (links_here s t L None q B).
  - intros q Hne. cbn. apply lookup_insert_ne. congruence.
  - intros Hwake. eapply ungrant_blocked; [by constructor|done|done|exact Hhs|]. by apply negb_false_iff in Hwake.
Qed.

(** Releasing a lock that is held. *)
Lemma release_shared_ok s t p m :
  lmgr_ok s -> links (allProcs s p) = false -> is_mode m -> holds s t p m = true ->
  exists L s', LockHash s !! t = Some L /\ release_shared s p t m = Ret (s', true) /\ lmgr_ok s' /\ released s s' t (waitProcs L) p m.
Proof.
  intros Hok Hk Hm Hh. pose proof Hh as Hh'. unfold holds in Hh'. destruct (ProcLockHash s !! (t, p)) as [pl|] eqn:Hpl; [|done].
  destruct (ok_dom _ Hok t p) as [L HL]; [eauto|]. exists L. pose proof (lmgr_ok_busy s t L Hok HL) as B.
  destruct (ok_locks _ Hok t L HL) as [_ Hq _ Hb Hu Hr].
  assert (p ∉ waitProcs L) as Hnq by (intros Hin; destruct (lc_waiters _ _ _ Hq p Hin) as ([] & _); congruence).
  unfold release_shared. rewrite HL, Hpl. cbn [deref cbind]. rewrite land_bit, Hh' by (by apply is_mode_nonneg). cbn [negb].
  destruct (UnGrantLock_ok s t L p m B Hnq Hm Hh) as (s1 & L1 & wake & -> & B1 & Hq1 & Hp1 & Hfr & Hh1 & He1 & [pl1 Hpl1] & Hb1). cbn [cbind].
  destruct (CleanUpLock_ok s1 p t L1 p pl1 wake B1 Hpl1) as (s' & -> & Hok' & V).
  - intros _. by rewrite Hq1.
  - intros q x Hne Hx. rewrite He1 in Hx by done. rewrite Hq1. by apply Hu.
  - intros Hw. by apply Hb1.
  - cbn [cbind]. exists s'. split_and!; [done|done|done|]. rewrite Hq1 in V. constructor.
    + exact (frame_trans _ _ _ _ Hfr (sv_frame _ _ _ _ V)).
    + intros q Hq'. rewrite (sv_procs _ _ _ _ V) by done. by rewrite Hp1.
    + intros q Hne. eapply bystander_trans; [|apply (sv_others _ _ _ _ V)]. left. split; [by rewrite Hp1|]. intros t' i.
      destruct (decide (t' = t)) as [->|]; [|by apply (frame_holds _ _ _ Hfr)]. rewrite Hh1. destruct (Z.eqb_spec q p); [done|]. by rewrite andb_true_r.
    + eapply no_new_conflicts_trans; [|exact (sv_conflicts _ _ _ _ V)]. apply no_new_conflicts_fewer; [apply (frame_leader _ _ _ Hfr)|].
      intros t' q i Hqi. destruct (decide (t' = t)) as [->|]; [|by rewrite <- (frame_holds _ _ _ Hfr)]. rewrite Hh1 in Hqi. by apply andb_true_iff in Hqi as (? & _).
    + destruct (holds s' t p m) eqn:E; [|done]. exfalso. destruct (sv_new _ _ _ _ V p m E) as [H1|(H1 & _)]; [|done].
      by rewrite Hh1, !Z.eqb_refl, andb_false_r in H1.
    + intros q i Hqi Hne. apply (sv_holds _ _ _ _ V). rewrite Hh1, Hqi. cbn [andb]. apply negb_true_iff.
      destruct (Z.eqb_spec q p), (Z.eqb_spec i m); try done. congruence.
    + intros q i Hqi. destruct (sv_new _ _ _ _ V q i Hqi) as [H1|(H1 & H2 & H3)].
      * left. rewrite Hh1 in H1. by apply andb_true_iff in H1 as (H1 & _).
      * right. unfold waits_mode in *. rewrite Hp1 in H2. done.
Qed.

(** Several modes given back at once. *)
Lemma holdMask_granted s t L p pl : lock_grants s t L -> ProcLockHash s !! (t, p) = Some pl -> (Z.land (holdMask pl) (Z.lnot (grantMask L)) =? 0) = true.
Proof.
  intros G Hpl. apply land_masks_none. intros i Hi. assert (is_mode i) as Hmi by (by apply (lc_entry _ _ _ G p pl Hpl)).
  rewrite Z.lnot_spec by (by apply is_mode_nonneg). apply negb_false_iff. rewrite (lc_grantMask _ _ _ G) by (by apply is_mode_nonneg).
  apply Z.ltb_lt. rewrite (lc_granted _ _ _ G). apply countb_pos. exists p. split; [apply (lc_proclocks _ _ _ G); eauto|].
  unfold holds. by rewrite Hpl.
Qed.

Lemma ungrant_modes_ok t p mask modes : forall s L wake,
  busy s t L None -> p ∉ waitProcs L -> NoDup modes -> (forall m, m ∈ modes -> is_mode m) -> is_Some (ProcLockHash s !! (t, p)) ->
  (forall m, m ∈ modes -> Z.testbit mask m = true -> holds s t p m = true) -> (wake = false -> queue_blocked s t L) ->
  exists s' L' wake', ungrant_modes modes s t p mask wake = Ret (s', wake') /\ busy s' t L' None /\ waitProcs L' = waitProcs L /\
    allProcs s' = allProcs s /\ frame s s' t /\
    (forall q i, holds s' t q i = holds s t q i && negb ((q =? p) && (bool_decide (i ∈ modes) && Z.testbit mask i))) /\
    (forall q, q <> p -> ProcLockHash s' !! (t, q) = ProcLockHash s !! (t, q)) /\
    is_Some (ProcLockHash s' !! (t, p)) /\ (wake' = false -> queue_blocked s' t L').
Proof.
  induction modes as [|m modes IH]; intros s L wake B Hnq Hnd Hmodes Hp Hh Hwake; cbn [ungrant_modes].
  { exists s, L, wake. split_and!; try done. intros q i. rewrite bool_decide_eq_false_2 by set_solver. by rewrite andb_false_r, andb_true_r. }
  apply NoDup_cons in Hnd as (Hm & Hnd). assert (is_mode m) as Him by (apply Hmodes; set_solver).
  assert (forall i, i <> m -> bool_decide (i ∈ m :: modes) = bool_decide (i ∈ modes)) as Hother by (intros i Hi; apply bool_decide_ext; set_solver).
  rewrite land_bit by (by apply is_mode_nonneg). destruct (Z.testbit mask m) eqn:Em; cbn [negb].
  - destruct (UnGrantLock_ok s t L p m B Hnq Him) as (s1 & L1 & w & -> & B1 & Hq1 & Hp1 & F1 & Hh1 & He1 & Hs1 & Hb1); [by apply Hh; [set_solver|]|]. cbn [cbind].
    destruct (IH s1 L1 (wake || w)) as (s' & L' & wake' & -> & B' & Hq' & Hp' & F' & Hh' & He' & Hs' & Hb'); try done; [by rewrite Hq1|set_solver| | |].
    + intros i Hi Hb. rewrite Hh1, (Hh i) by set_solver. destruct (Z.eqb_spec i m) as [->|]; [done|]. by rewrite andb_false_r.
    + intros (H1 & H2)%orb_false_iff. auto.
    + exists s', L', wake'. split_and!; try done; [by rewrite Hq'|by rewrite Hp'|exact (frame_trans _ _ _ _ F1 F')| |intros q Hne; by rewrite He', He1].
      intros q i. rewrite Hh', Hh1. destruct (Z.eqb_spec q p); cbn [andb negb]; [|by rewrite !andb_true_r]. destruct (Z.eqb_spec i m) as [->|Hne].
      * rewrite (bool_decide_eq_true_2 (m ∈ m :: modes)), Em by set_solver. by rewrite !andb_false_r.
      * rewrite Hother by done. cbn [negb]. by rewrite andb_true_r.
  - destruct (IH s L wake) as (s' & L' & wake' & -> & B' & Hq' & Hp' & F' & Hh' & He' & Hs' & Hb'); try done; [set_solver|intros i Hi; apply Hh; set_solver|].
    exists s', L', wake'. split_and!; try done. intros q i. rewrite Hh'. destruct (Z.eqb_spec i m) as [->|Hne]; [by rewrite Em, !andb_false_r|by rewrite Hother].
Qed.

(** Lock [t] after process [p] gave back the modes of [mask]. *)
Record released_modes (s s' : lmgr) (t : LOCKTAG) (Q : list Z) (p mask : Z) : Prop := {
  rm_frame : frame s s' t;
  rm_procs : forall q, q ∉ Q -> allProcs s' q = allProcs s q;
  rm_others : forall q, q <> p -> bystander s s' q;
  rm_conflicts : no_new_conflicts s s';
  rm_own : forall i, holds s' t p i = holds s t p i && negb (Z.testbit mask i);
  rm_new : forall q i, holds s' t q i = true -> holds s t q i = true \/ q ∈ Q }.

Lemma release_proclock_ok s t p mask :
  lmgr_ok s -> links (allProcs s p) = false -> is_Some (ProcLockHash s !! (t, p)) ->
  (forall m, Z.testbit mask m = true -> holds s t p m = true) ->
  exists L s', LockHash s !! t = Some L /\ release_proclock s p t mask = Ret s' /\ lmgr_ok s' /\ p ∉ waitProcs L /\ released_modes s s' t (waitProcs L) p mask.
Proof.
  intros Hok Hk [pl Hpl] Hh. destruct (ok_dom _ Hok t p) as [L HL]; [eauto|]. exists L. pose proof (lmgr_ok_busy s t L Hok HL) as B.
  destruct (ok_locks _ Hok t L HL) as [G Hq _ Hb Hu Hr].
  assert (p ∉ waitProcs L) as Hnq by (intros Hin; destruct (lc_waiters _ _ _ Hq p Hin) as ([] & _); congruence).
  pose proof (nGranted_nonneg _ _ _ G). pose proof (nGranted_le _ _ _ _ B). unfold release_proclock. rewrite HL, Hpl. cbn [deref cbind].
  rewrite (holdMask_granted s t L p pl G Hpl). destruct (Z.leb_spec 0 (nRequested L)); [|lia]. destruct (Z.leb_spec 0 (nGranted L)); [|lia].
  destruct (Z.leb_spec (nGranted L) (nRequested L)); [|lia]. cbn [c_assert cbind].
  destruct (ungrant_modes_ok t p mask lock_modes s L false B Hnq (NoDup_seqZ _ _) (fun m => proj1 (elem_of_lock_modes m)) (mk_is_Some _ _ Hpl) (fun m _ => Hh m) (fun _ => Hb))
    as (s1 & L1 & wake & -> & B1 & Hq1 & Hp1 & F1 & Hh1 & He1 & [pl1 Hpl1] & Hb1). cbn [cbind].
  pose proof (nGranted_nonneg _ _ _ (bz_grants _ _ _ _ B1)). pose proof (nGranted_le _ _ _ _ B1). rewrite (bz_lock _ _ _ _ B1). cbn [deref cbind].
  destruct (Z.leb_spec 0 (nRequested L1)); [|lia]. destruct (Z.leb_spec 0 (nGranted L1)); [|lia]. destruct (Z.leb_spec (nGranted L1) (nRequested L1)); [|lia]. cbn [andb c_assert cbind].
  assert (forall q i, holds s1 t q i = holds s t q i && negb ((q =? p) && Z.testbit mask i)) as Hh2.
  { intros q i. rewrite Hh1. destruct (q =? p); [|done]. cbn [andb]. destruct (Z.testbit mask i) eqn:Ei; [|by rewrite andb_false_r].
    rewrite bool_decide_eq_true_2; [done|]. apply elem_of_lock_modes. by destruct (held_mode s t L G p i (Hh i Ei)). }
  destruct (CleanUpLock_ok s1 p t L1 p pl1 wake B1 Hpl1) as (s' & -> & Hok' & V); [by rewrite Hq1|intros q x Hne Hx; rewrite He1 in Hx by done; rewrite Hq1; by apply Hu|done|].
  exists s'. rewrite Hq1 in V. split_and!; try done. constructor.
  - exact (frame_trans _ _ _ _ F1 (sv_frame _ _ _ _ V)).
  - intros q Hq'. rewrite (sv_procs _ _ _ _ V) by done. by rewrite Hp1.
  - intros q Hne. eapply bystander_trans; [|apply (sv_others _ _ _ _ V)]. left. split; [by rewrite Hp1|]. intros t' i.
    destruct (decide (t' = t)) as [->|]; [|by apply (frame_holds _ _ _ F1)]. rewrite Hh2. destruct (Z.eqb_spec q p); [done|]. by rewrite andb_true_r.
  - eapply no_new_conflicts_trans; [|exact (sv_conflicts _ _ _ _ V)]. apply no_new_conflicts_fewer; [apply (frame_leader _ _ _ F1)|].
    intros t' q i Hqi. destruct (decide (t' = t)) as [->|]; [|by rewrite <- (frame_holds _ _ _ F1)]. rewrite Hh2 in Hqi. by apply andb_true_iff in Hqi as (? & _).
  - intros i. rewrite <- (andb_true_l (Z.testbit mask i)), <- (Z.eqb_refl p), <- Hh2. apply eq_true_iff_eq. split; [|apply (sv_holds _ _ _ _ V)].
    intros [?|(? & _)]%(sv_new _ _ _ _ V); done.
  - intros q i [Hi|(? & _)]%(sv_new _ _ _ _ V); [left|by right]. rewrite Hh2 in Hi. by apply andb_true_iff in Hi as (? & _).
Qed.

(** ** Entering a request *)

Lemma put_lock_same s t L : LockHash s !! t = Some L -> put_lock s t L = s.
Proof. intros HL. unfold put_lock, set_locks. rewrite insert_id by done. by destruct s. Qed.

Lemma del_lock_none s t : LockHash s !! t = None -> set_locks s (delete t (LockHash s)) = s.
Proof. intros HL. unfold set_locks. rewrite delete_id by done. by destruct s. Qed.

Lemma put_lock_frame s t L : frame s (put_lock s t L) t.
Proof. constructor; try done. intros t' Hne. by apply lookup_insert_ne. Qed.

Lemma mget_zeros m : mget (replicate (Z.to_nat MAX_LOCKMODES) 0) m = 0.
Proof.
  unfold mget, zget. destruct (m <? 0); [done|]. destruct (replicate (Z.to_nat MAX_LOCKMODES) 0 !! Z.to_nat m) eqn:E; [|done].
  by apply lookup_replicate in E as (-> & _).
Qed.

(** A lock that was not in the table, put there. *)
Lemma new_lock_busy s t : lmgr_ok s -> LockHash s !! t = None -> busy (put_lock s t new_LOCK) t new_LOCK None.
Proof.
  intros Hok HN. pose proof (put_lock_frame s t new_LOCK) as Hfr.
  assert (forall p, ProcLockHash s !! (t, p) = None) as Hnone.
  { intros p. destruct (ProcLockHash s !! (t, p)) eqn:E; [|done]. destruct (ok_dom _ Hok t p); [eauto|]. congruence. }
  constructor.
  - apply (ok_groups _ Hok).
  - apply lookup_insert_eq.
  - constructor; cbn [procLocks granted requested grantMask nGranted new_LOCK]; try done.
    + apply NoDup_nil_2.
    + intros p. cbn. rewrite Hnone. split; [by intros H%elem_of_nil|by intros [? [=]]].
    + intros p pl. cbn. by rewrite Hnone.
    + apply mget_zeros.
    + intros m _. by rewrite Z.bits_0, mget_zeros.
  - constructor; cbn [waitProcs waitMask new_LOCK]; [by intros w Hw%elem_of_nil|apply NoDup_nil_2|]. intros m _. apply Z.bits_0.
  - constructor; [|done]. intros m. cbn [requested granted new_LOCK]. rewrite mget_zeros. done.
  - intros t' L' Hne HL'. eapply frame_lock_ok; [exact Hfr|done|]. apply (ok_locks _ Hok). by rewrite (fr_locks _ _ _ Hfr) in HL'.
  - intros t' p Hs. destruct (decide (t' = t)) as [->|]; [cbn; rewrite lookup_insert_eq; eauto|].
    rewrite (fr_locks _ _ _ Hfr) by done. by eapply (ok_dom _ Hok).
  - destruct (ok_links _ Hok) as [K1 K2]. constructor; [|done]. intros p Hk. destruct (K1 p Hk) as (t' & L' & H1 & H2 & H3).
    exists t', L'. split_and!; [done| |done]. rewrite (fr_locks _ _ _ Hfr); [done|]. congruence.
Qed.

(** The lock a request finds or makes. *)
Lemma found_lock s t :
  lmgr_ok s -> let L := default new_LOCK (LockHash s !! t) in
  busy (put_lock s t L) t L None /\ queue_blocked (put_lock s t L) t L /\ entries_used (put_lock s t L) t L /\
  (nRequested L = 0 -> LockHash s !! t = None).
Proof.
  intros Hok L. subst L. destruct (LockHash s !! t) as [L|] eqn:HL; cbn [default from_option]; unfold id.
  - rewrite put_lock_same by done. destruct (ok_locks _ Hok t L HL). split_and!; [by apply lmgr_ok_busy|done|done|lia].
  - split_and!; [by apply new_lock_busy| | |done].
    + intros before w after E. by destruct before.
    + intros p pl Hpl. destruct (ok_dom _ Hok t p) as [L E]; [eauto|congruence].
Qed.

(** The request is in the table, neither granted nor waiting. *)
Record entered (s : lmgr) (t : LOCKTAG) (L : LOCK) (p m : Z) : Prop := {
  rq_busy : busy s t L (Some m);
  rq_entry : p ∈ procLocks L;
  rq_not_held : holds s t p m = false;
  rq_blocked : queue_blocked s t L;
  rq_used : forall q x, q <> p -> ProcLockHash s !! (t, q) = Some x -> holdMask x <> 0 \/ q ∈ waitProcs L }.

(** The process that makes the request waits for nothing else. *)
Record requesting (s : lmgr) (t : LOCKTAG) (L : LOCK) (p m : Z) : Prop := {
  rq_entered :> entered s t L p m;
  rq_idle : links (allProcs s p) = false }.

Lemma requesting_not_queued s t L p m : requesting s t L p m -> p ∉ waitProcs L.
Proof.
  intros R Hin. destruct (lc_waiters _ _ _ (bz_queue _ _ _ _ (rq_busy _ _ _ _ _ R)) p Hin) as ([] & _).
  pose proof (rq_idle _ _ _ _ _ R). congruence.
Qed.

(** Adding an entry for [p], empty if it is new, and one request. *)
Lemma add_request s t L p m pl :
  busy s t L None -> queue_blocked s t L -> entries_used s t L -> is_mode m -> holds s t p m = false ->
  (ProcLockHash s !! (t, p) = Some pl \/ ProcLockHash s !! (t, p) = None /\ pl = {| groupLeader := leader_of s p; holdMask := 0 |}) ->
  let L' := {| grantMask := grantMask L; waitMask := waitMask L;
               procLocks := match ProcLockHash s !! (t, p) with Some _ => procLocks L | None => procLocks L ++ [p] end;
               waitProcs := waitProcs L;
               requested := mset (requested L) m (mget (requested L) m + 1); nRequested := nRequested L + 1;
               granted := granted L; nGranted := nGranted L |} in
  let s' := put_proclock (put_lock s t L') (t, p) pl in
  entered s' t L' p m /\ (forall q i, holds s' t q i = holds s t q i).
Proof.
  intros B Hb Hu Hm Hh Hpl L' s'. pose proof (bz_grants _ _ _ _ B) as G. destruct (bz_queue _ _ _ _ B) as [Q1 Q2 Q3].
  assert (forall q i, holds s' t q i = holds s t q i) as Hhs.
  { intros q i. unfold holds. cbn. destruct (decide (q = p)) as [->|]; [|by rewrite lookup_insert_ne by congruence].
    rewrite lookup_insert_eq. destruct Hpl as [->|(-> & ->)]; [done|]. apply Z.bits_0. }
  assert (frame s s' t) as Hfr by apply frame_put. pose proof (mode_index m _ Hm (lc_rlen _ _ _ G)) as Hi.
  assert (ProcLockHash s !! (t, p) = None -> p ∉ procLocks L) as Hnew.
  { intros E Hin. apply (lc_proclocks _ _ _ G) in Hin as [? Hin]. congruence. }
  assert (NoDup (procLocks L') /\ (forall q, q ∈ procLocks L' <-> q = p \/ q ∈ procLocks L) /\
    (forall P : Z -> bool, P p = false \/ is_Some (ProcLockHash s !! (t, p)) -> countb P (procLocks L') = countb P (procLocks L))) as (Hnd & Hin & Hcnt).
  { subst L'. cbn [procLocks]. destruct (ProcLockHash s !! (t, p)) as [x|] eqn:E.
    - split_and!; [apply (lc_nodup _ _ _ G)| |done]. intros q. split; [by right|]. intros [->|?]; [|done]. apply (lc_proclocks _ _ _ G). eauto.
    - split_and!.
      + apply NoDup_app. split_and!; [apply (lc_nodup _ _ _ G)| |apply NoDup_singleton]. intros x Hx ->%list_elem_of_singleton. by apply Hnew.
      + intros q. rewrite elem_of_app, list_elem_of_singleton. tauto.
      + intros P [HP|[? [=]]]. rewrite countb_app. cbn. rewrite HP. lia. }
  split; [|done]. constructor; [|by apply Hin; left|by rewrite Hhs| |].
  - eapply busy_step; [exact Hfr|exact B|apply lookup_insert_eq| | | |].
    + constructor; try done.
      * intros q. rewrite Hin. cbn. destruct (decide (q = p)) as [->|]; [rewrite lookup_insert_eq; split; eauto|].
        rewrite lookup_insert_ne by congruence. rewrite (lc_proclocks _ _ _ G). naive_solver.
      * intros q x. change (leader_of s' q) with (leader_of s q). cbn. destruct (decide (q = p)) as [->|].
        -- rewrite lookup_insert_eq. intros [= <-]. destruct Hpl as [E|(_ & ->)]; [by apply (lc_entry _ _ _ G)|].
           split; [done|]. intros i. cbn. by rewrite Z.bits_0.
        -- rewrite lookup_insert_ne by congruence. apply (lc_entry _ _ _ G).
      * apply (lc_glen _ _ _ G).
      * cbn. rewrite mset_len. apply (lc_rlen _ _ _ G).
      * intros i. cbn [granted L']. rewrite (lc_granted _ _ _ G), Hcnt; [apply countb_ext; intros q _; by rewrite Hhs|].
        rewrite Hhs. destruct (ProcLockHash s !! (t, p)) as [x|] eqn:E; [right; eauto|left]. unfold holds. by rewrite E.
      * apply (lc_grantMask _ _ _ G).
      * apply (lc_nGranted _ _ _ G).
    + constructor; [|done|done]. intros w Hw. destruct (Q1 w Hw) as ([W1 W2 W3 W4 W5 W6 W7] & Hpw). split; [|by apply Hin; right].
      constructor; try done; [by rewrite Hhs|]. intros i. rewrite Hhs. apply W7.
    + pose proof (bz_counts _ _ _ _ B) as [C1 C2]. constructor; cbn; [|cbn in C2; lia]. intros i. rewrite mget_mset by done.
      rewrite !C1. unfold waits_mode, pend. change (allProcs s') with (allProcs s). rewrite (Z.eqb_sym m i). destruct (Z.eqb_spec i m) as [->|]; lia.
    + intros q Hq. by apply (links_here s t L None q B).
  - intros before w after E. eapply blocked_mono; [| | | |by apply (Hb before w after)]; try done. intros q i. by rewrite Hhs.
  - intros q x Hne. cbn. rewrite lookup_insert_ne by congruence. apply Hu.
Qed.

Lemma put_lock_twice s t L L' : put_lock (put_lock s t L) t L' = put_lock s t L'.
Proof. unfold put_lock, set_locks. cbn. by rewrite insert_insert_eq. Qed.

(** [SetupLockInTable] fails for lack of room and changes nothing, or enters the
    request. *)
Definition setup_post (s : lmgr) (t : LOCKTAG) (p m : Z) (room : bool) (L : LOCK) (r : cres (lmgr * setup_result)) : Prop :=
  (r = Ret (s, SetupOutOfMemory) /\ room = false) \/
  (exists s' L', r = Ret (s', SetupDone) /\ entered s' t L' p m /\ allProcs s' = allProcs s /\ frame s s' t /\
     (forall q i, holds s' t q i = holds s t q i) /\ waitProcs L' = waitProcs L).

Lemma setup_proclock_ok room_proclock s p t m L :
  busy (put_lock s t L) t L None -> queue_blocked (put_lock s t L) t L -> entries_used (put_lock s t L) t L ->
  (nRequested L = 0 -> LockHash s !! t = None) -> (nRequested L <> 0 -> LockHash s !! t = Some L) ->
  is_mode m -> holds s t p m = false ->
  setup_post s t p m room_proclock L (setup_proclock room_proclock s p t m L).
Proof.
  intros B Hb Hu H0 H1 Hm Hh. pose proof (bz_grants _ _ _ _ B) as G.
  pose proof (fun pl => add_request (put_lock s t L) t L p m pl B Hb Hu Hm Hh) as Hadd. cbv zeta in Hadd.
  rewrite put_lock_twice in Hadd. change (ProcLockHash (put_lock s t L)) with (ProcLockHash s) in Hadd.
  unfold setup_proclock. destruct (ProcLockHash s !! (t, p)) as [pl|] eqn:Hpl; [|destruct room_proclock].
  - right. cbn [default from_option]. unfold id. destruct (Hadd pl (or_introl eq_refl)) as (R & Hhs).
    assert (forall i, Z.testbit (holdMask pl) i = holds s t p i) as Hbit by (intros i; unfold holds; by rewrite Hpl).
    rewrite (holdMask_granted (put_lock s t L) t L p pl G Hpl).
    cbn [c_assert cbind]. rewrite land_bit, Hbit, Hh by (by apply is_mode_nonneg). cbn [negb].
    eexists _, _. split; [done|]. split; [exact R|]. split_and!; [done|apply frame_put|exact Hhs|done].
  - right. cbn [default from_option holdMask]. destruct (Hadd {| groupLeader := leader_of s p; holdMask := 0 |}) as (R & Hhs); [by right|].
    rewrite !Z.land_0_l. cbn [Z.eqb c_assert cbind].
    eexists _, _. split; [done|]. split; [exact R|]. split_and!; [done|apply frame_put|exact Hhs|done].
  - left. split; [|done]. destruct (Z.eqb_spec (nRequested L) 0) as [Ez|Ez].
    + rewrite bool_decide_eq_true_2 by (by eapply no_requests). cbn [c_assert cbind]. by rewrite del_lock_none by auto.
    + by rewrite put_lock_same by auto.
Qed.

Lemma SetupLockInTable_ok room_lock room_proclock s p t m :
  lmgr_ok s -> is_mode m -> holds s t p m = false ->
  setup_post s t p m (room_lock && room_proclock) (default new_LOCK (LockHash s !! t)) (SetupLockInTable room_lock room_proclock s p t m).
Proof.
  intros Hok Hm Hh. destruct (found_lock s t Hok) as (B & Hb & Hu & H0). set (L := default new_LOCK (LockHash s !! t)) in *.
  pose proof (bz_grants _ _ _ _ B) as G. pose proof (lq_requested _ _ _ (bz_counts _ _ _ _ B) m) as Hreq.
  pose proof (granted_nonneg _ _ _ m G). pose proof (nGranted_nonneg _ _ _ G). pose proof (nGranted_le _ _ _ _ B).
  pose proof (countb_nonneg (fun w => waits_mode (put_lock s t L) w =? m) (waitProcs L)). cbn [pend] in Hreq.
  assert (nRequested L <> 0 -> LockHash s !! t = Some L) as Hfound by (subst L; by destruct (LockHash s !! t)).
  pose proof (setup_proclock_ok room_proclock s p t m L B Hb Hu H0 Hfound Hm Hh) as Hpost.
  assert (setup_post s t p m room_proclock L
      (c_assert ((0 <=? nRequested L) && (0 <=? mget (requested L) m));; c_assert ((0 <=? nGranted L) && (0 <=? mget (granted L) m));;
       c_assert (nGranted L <=? nRequested L);; setup_proclock room_proclock s p t m L)) as Hfull.
  { destruct (Z.leb_spec 0 (nRequested L)); [|lia]. destruct (Z.leb_spec 0 (mget (requested L) m)); [|lia].
    destruct (Z.leb_spec 0 (nGranted L)); [|lia]. destruct (Z.leb_spec 0 (mget (granted L) m)); [|lia].
    destruct (Z.leb_spec (nGranted L) (nRequested L)); [|lia]. exact Hpost. }
  unfold SetupLockInTable. destruct (LockHash s !! t) as [L0|] eqn:HL, room_lock; cbn [andb]; try exact Hfull; [|by left].
  destruct Hfull as [(E & _)|?]; [by left|by right].
Qed.

(** A request that is entered and granted, whatever else its process waits for. *)
Lemma grant_entered s t L p m :
  entered s t L p m -> is_mode m -> (p ∈ waitProcs L -> waits_mode s p <> m) ->
  exists s', GrantLock s t p m = Ret s' /\ lmgr_ok s' /\ frame s s' t /\ hold_added s s' t p m /\ allProcs s' = allProcs s.
Proof.
  intros R Hm Hnq. pose proof (rq_busy _ _ _ _ _ R) as B.
  destruct (GrantLock_pending s t L p m B (rq_entry _ _ _ _ _ R) Hnq Hm (rq_not_held _ _ _ _ _ R)) as (s' & L' & -> & B' & Hq' & Hn' & Hp' & Ha' & Hfr' & Hd').
  exists s'. split; [done|]. assert (forall q i, holds s t q i = true -> holds s' t q i = true) as Hmono by (intros q i Hh; by rewrite Ha', Hh).
  split; [|split_and!; done].
  eapply busy_lmgr_ok; [exact B'| | |].
  - intros before w after E. rewrite Hq' in E. assert (forall q, waits_mode s' q = waits_mode s q) as Hwm by (intros q; unfold waits_mode; by rewrite Hp').
    eapply blocked_mono; [exact (frame_leader _ _ _ Hfr')|exact Hmono|auto|auto|]. by apply (rq_blocked _ _ _ _ _ R before w after).
  - intros q x Hx. rewrite Hq'. assert (forall b, holds s' t q b = true -> holdMask x <> 0) as Hnz.
    { intros b Hb. unfold holds in Hb. rewrite Hx in Hb. by eapply bits_nonzero. }
    destruct (decide (q = p)) as [->|Hne].
    + left. apply (Hnz m). by rewrite Ha', !Z.eqb_refl, orb_true_r.
    + assert (is_Some (ProcLockHash s !! (t, q))) as [x0 Hx0] by (apply Hd'; eauto).
      destruct (rq_used _ _ _ _ _ R q x0 Hne Hx0) as [Hz|?]; [left|by right].
      destruct (nonzero_bit _ Hz) as (b & _ & Hb). apply (Hnz b), Hmono. unfold holds. by rewrite Hx0.
  - rewrite Hn'. pose proof (lq_nRequested _ _ _ (bz_counts _ _ _ _ B)). pose proof (nGranted_nonneg _ _ _ (bz_grants _ _ _ _ B)).
    pose proof (zlen_nonneg (waitProcs L)). cbn in *. lia.
Qed.

(** A lock put into the table as granted: no conflicts are looked for. *)
Lemma enter_granted room_lock room_proclock s p t m :
  lmgr_ok s -> is_mode m -> holds s t p m = false -> (waitLock (allProcs s p) = Some t -> waits_mode s p <> m) ->
  (SetupLockInTable room_lock room_proclock s p t m = Ret (s, SetupOutOfMemory) /\ room_lock && room_proclock = false) \/
  exists s1 s', SetupLockInTable room_lock room_proclock s p t m = Ret (s1, SetupDone) /\ GrantLock s1 t p m = Ret s' /\
    lmgr_ok s' /\ frame s s' t /\ hold_added s s' t p m /\ allProcs s' = allProcs s.
Proof.
  intros Hok Hm Hh Hw. destruct (SetupLockInTable_ok room_lock room_proclock s p t m Hok Hm Hh) as [?|(s1 & L1 & E & R & Hp1 & F1 & Hh1 & _)]; [by left|right].
  destruct (grant_entered s1 t L1 p m R Hm) as (s' & E' & ok' & F' & Ha' & Hp').
  { intros Hin. unfold waits_mode. rewrite Hp1. apply Hw. rewrite <- Hp1. by apply (wk_lock _ t p), (lc_waiters _ _ _ (bz_queue _ _ _ _ (rq_busy _ _ _ _ _ R))). }
  exists s1, s'. split_and!; [done|done|done|exact (frame_trans _ _ _ _ F1 F')| |by rewrite Hp']. intros q i. by rewrite Ha', Hh1.
Qed.
