(* ===== verification/LockSleep.v ===== *)
(** * Heavyweight locks: joining the wait queue, and the whole request *)
From stdpp Require Import list gmap functions.
From S2P Require Import Prelude LockModes LockTable LockInvariant LockOps LockRequests.

(** ** Into the queue *)

Section enqueue.
Context (s : lmgr) (t : LOCKTAG) (L : LOCK) (p m : Z) (i : nat).
Hypothesis R : requesting s t L p m.
Hypothesis Hm : is_mode m.
Hypothesis Hheld : forall b, Z.testbit (heldLocks (allProcs s p)) b = true -> holds s t p b = true.

Let s' := enqueue s p t L m i.
Let Q := take i (waitProcs L) ++ p :: drop i (waitProcs L).

Definition enqueued_lock : LOCK :=
  {| grantMask := grantMask L; waitMask := Z.lor (waitMask L) (LOCKBIT_ON m); procLocks := procLocks L;
     waitProcs := take i (waitProcs L) ++ p :: drop i (waitProcs L);
     requested := requested L; nRequested := nRequested L; granted := granted L; nGranted := nGranted L |}.

Lemma enqueue_procs q : q <> p -> allProcs s' q = allProcs s q.
Proof. intros Hq. by apply fn_lookup_insert_ne. Qed.

Lemma enqueue_self :
  links (allProcs s' p) = true /\ waitLock (allProcs s' p) = Some t /\ waitProcLock (allProcs s' p) = Some (t, p) /\
  waitStatus (allProcs s' p) = STATUS_WAITING /\ waits_mode s' p = m /\ heldLocks (allProcs s' p) = heldLocks (allProcs s p) /\
  lockGroupLeader (allProcs s' p) = lockGroupLeader (allProcs s p) /\ lockGroupMembers (allProcs s' p) = lockGroupMembers (allProcs s p).
Proof. unfold waits_mode. cbn. by rewrite fn_lookup_insert. Qed.

Lemma enqueue_leader q : leader_of s' q = leader_of s q.
Proof.
  unfold leader_of. destruct (decide (q = p)) as [->|]; [|by rewrite enqueue_procs].
  by destruct enqueue_self as (_ & _ & _ & _ & _ & _ & -> & _).
Qed.

Lemma enqueue_mode q : q <> p -> waits_mode s' q = waits_mode s q.
Proof. intros Hq. unfold waits_mode. by rewrite enqueue_procs. Qed.

Lemma elem_of_enqueued q : q ∈ Q <-> q = p \/ q ∈ waitProcs L.
Proof. unfold Q. rewrite elem_of_app, elem_of_cons. rewrite <- (take_drop i (waitProcs L)) at 3. rewrite elem_of_app. tauto. Qed.

Lemma enqueue_frame : frame s s' t.
Proof.
  destruct enqueue_self as (_ & _ & _ & _ & _ & _ & Hl & Hm').
  constructor; try done.
  - intros t' Hne. by apply lookup_insert_ne.
  - intros q. destruct (decide (q = p)) as [->|]; [done|by rewrite enqueue_procs].
  - intros q. destruct (decide (q = p)) as [->|]; [done|by rewrite enqueue_procs].
  - intros q t' Hne Hq. apply enqueue_procs. intros ->.
    pose proof (ln_idle _ (bz_links _ _ _ _ (rq_busy _ _ _ _ _ R)) p (rq_idle _ _ _ _ _ R)). congruence.
Qed.

Lemma enqueue_count P P' :
  (forall q, q <> p -> P' q = P q) -> countb P' Q = countb P (waitProcs L) + (if P' p then 1 else 0).
Proof.
  intros HP. pose proof (requesting_not_queued _ _ _ _ _ R) as Hnq.
  assert (forall l, p ∉ l -> countb P' l = countb P l) as He by (intros l Hl; apply countb_ext; intros q Hq; apply HP; by intros ->).
  unfold Q. rewrite countb_app. cbn [countb].
  rewrite (He (take i (waitProcs L))), (He (drop i (waitProcs L))) by (intros Hin; apply Hnq; rewrite <- (take_drop i (waitProcs L)); set_solver).
  rewrite <- (take_drop i (waitProcs L)) at 3. rewrite countb_app. lia.
Qed.

Lemma enqueue_busy : busy s' t enqueued_lock None.
Proof.
  pose proof (rq_busy _ _ _ _ _ R) as B. pose proof (requesting_not_queued _ _ _ _ _ R) as Hnq.
  destruct enqueue_self as (S1 & S2 & S3 & S4 & S5 & S6 & _). destruct (bz_queue _ _ _ _ B) as [Q1 Q2 Q3].
  eapply busy_step; [exact enqueue_frame|exact B|apply lookup_insert_eq| | | |].
  - eapply grants_ext; [| | | | | | |exact (bz_grants _ _ _ _ B)]; try done; [exact enqueue_leader|]. apply (lc_rlen _ _ _ (bz_grants _ _ _ _ B)).
  - constructor.
    + intros w [->|Hw]%elem_of_enqueued.
      * split; [|apply (rq_entry _ _ _ _ _ R)]. constructor; try done; rewrite ?S5; [done|apply (rq_not_held _ _ _ _ _ R)|].
        intros b. rewrite S6. apply Hheld.
      * destruct (Q1 w Hw) as ([W1 W2 W3 W4 W5 W6 W7] & Hpw). split; [|done]. assert (w <> p) by (by intros ->).
        constructor; rewrite ?enqueue_mode, ?enqueue_procs by done; done.
    + cbn [waitProcs enqueued_lock]. rewrite <- (take_drop i (waitProcs L)) in Q2, Hnq. apply NoDup_app in Q2 as (N1 & N2 & N3).
      apply not_elem_of_app in Hnq as (H1 & H2). apply NoDup_app. split_and!; [done| |by apply NoDup_cons].
      intros x Hx [->|Hin]%elem_of_cons; [done|]. by apply (N2 x Hx).
    + intros b Hb. cbn [waitMask waitProcs enqueued_lock]. rewrite lor_bit, Q3 by done. fold Q.
      rewrite (enqueue_count (fun w => waits_mode s w =? b)) by (intros q Hq; by rewrite enqueue_mode). rewrite S5, (Z.eqb_sym m b).
      pose proof (countb_nonneg (fun w => waits_mode s w =? b) (waitProcs L)). destruct (b =? m); [rewrite orb_true_r; lia|by rewrite orb_false_r, Z.add_0_r].
  - destruct (bz_counts _ _ _ _ B) as [C1 C2]. constructor; cbn [waitProcs enqueued_lock requested granted nRequested nGranted]; fold Q.
    + intros b. rewrite C1. cbn [pend]. rewrite (enqueue_count (fun w => waits_mode s w =? b)) by (intros q Hq; by rewrite enqueue_mode). rewrite S5. lia.
    + cbn [pend_any] in *. rewrite C2. unfold Q, zlen. rewrite length_app. cbn [length]. rewrite <- (take_drop i (waitProcs L)) at 1. rewrite length_app. lia.
  - intros q Hq. destruct (decide (q = p)) as [->|]; [left; split_and!; [done|done|apply elem_of_enqueued; by left]|].
    rewrite enqueue_procs by done. destruct (links_here s t L _ q B Hq) as [(H1 & H2 & H3)|?]; [left|by right].
    split_and!; [done|done|]. apply elem_of_enqueued. by right.
Qed.

Lemma enqueue_used : entries_used s' t enqueued_lock.
Proof.
  intros q x Hx. destruct (decide (q = p)) as [->|]; [right; apply elem_of_enqueued; by left|].
  destruct (rq_used _ _ _ _ _ R q x) as [?|?]; [done|done|by left|right; apply elem_of_enqueued; by right].
Qed.

Lemma blocked_more ahead ahead' w :
  (forall a, a ∈ ahead -> a ∈ ahead') -> w <> p -> p ∉ ahead -> blocked s t ahead w -> blocked s' t ahead' w.
Proof.
  intros Hsub Hw Hnp [(a & Ha & Hc)|(q & b & H1 & H2 & H3)].
  - left. exists a. split; [auto|]. rewrite !enqueue_mode by (done || by intros ->). done.
  - right. exists q, b. rewrite !enqueue_leader, enqueue_mode by done. done.
Qed.

(** If the process is blocked where it stands, everybody is. *)
Lemma enqueue_blocked :
  (exists a, a ∈ take i (waitProcs L) /\ conf m (waits_mode s a) = true) \/ hard_blocked s t p m ->
  queue_blocked s' t enqueued_lock.
Proof.
  intros Hself before w after Hsplit. pose proof (requesting_not_queued _ _ _ _ _ R) as Hnq.
  pose proof (rq_blocked _ _ _ _ _ R) as Hb. cbn [waitProcs enqueued_lock] in Hsplit.
  destruct enqueue_self as (_ & _ & _ & _ & S5 & _).
  pose proof (take_drop i (waitProcs L)) as Htd.
  assert ((p ∉ take i (waitProcs L)) /\ (p ∉ drop i (waitProcs L))) as (Hn1 & Hn2) by (rewrite <- Htd in Hnq; by apply not_elem_of_app).
  destruct (decide (w = p)) as [->|Hne].
  - assert (p ∉ before) as Hnb.
    { pose proof (lc_queue_nodup _ _ _ (bz_queue _ _ _ _ enqueue_busy)) as Hnd. cbn [waitProcs enqueued_lock] in Hnd.
      rewrite Hsplit in Hnd. apply NoDup_app in Hnd as (_ & Hnd & _). intros Hin. apply (Hnd p Hin). set_solver. }
    apply not_elem_of_app_cons_inv_l in Hsplit as (<- & _ & _); [|done|done].
    destruct Hself as [(a & Ha & Hc)|(q & b & H1 & H2 & H3)].
    + left. exists a. split; [done|]. rewrite S5, enqueue_mode; [done|]. by intros ->.
    + right. exists q, b. rewrite !enqueue_leader, S5. done.
  - assert (waitProcs L = filter (fun q => q <> p) before ++ w :: filter (fun q => q <> p) after) as Horig.
    { assert (filter (fun q => q <> p) (take i (waitProcs L) ++ p :: drop i (waitProcs L)) = waitProcs L) as <-.
      { rewrite filter_app, filter_cons, decide_False, !filter_ne_id by naive_solver. done. }
      rewrite Hsplit, filter_app, filter_cons, decide_True by done. done. }
    apply (blocked_more (filter (fun q => q <> p) before)); [|done| |by eapply Hb].
    + intros a (_ & Ha)%list_elem_of_filter. done.
    + intros Hin. by apply list_elem_of_filter in Hin as (Hin & _).
Qed.
End enqueue.

(** ** Where to stand *)

(** The modes the process's group holds. *)
Definition group_holds (s : lmgr) (t : LOCKTAG) (p b : Z) : Prop := exists q, leader_of s q = leader_of s p /\ holds s t q b = true.

Lemma group_held_locks_ok s t L p b :
  lock_grants s t L -> (forall b, Z.testbit (heldLocks (allProcs s p)) b = true -> holds s t p b = true) ->
  Z.testbit (group_held_locks s p t L) b = true -> group_holds s t p b.
Proof.
  intros G Hheld. unfold group_held_locks. destruct (lockGroupLeader (allProcs s p)) as [l|] eqn:El.
  - assert (leader_of s p = l) as Hl by (unfold leader_of; by rewrite El).
    assert (forall b, Z.testbit (heldLocks (allProcs s p)) b = true -> group_holds s t p b) as H0 by (intros b' Hb'; exists p; auto).
    revert H0. generalize (heldLocks (allProcs s p)). induction (procLocks L) as [|o others IH]; intros held H0; cbn [foldl]; [apply H0|].
    apply IH. intros b'. destruct (ProcLockHash s !! (t, o)) as [pl|] eqn:E; [|apply H0].
    destruct (Z.eqb_spec (groupLeader pl) l); [|apply H0]. rewrite Z.lor_spec, orb_true_iff. intros [Hb|Hb]; [by apply H0|].
    exists o. rewrite Hl. split; [by rewrite <- (proj1 (lc_entry _ _ _ G o pl E))|]. unfold holds. by rewrite E.
  - intros Hb. exists p. auto.
Qed.

(** What the place found for a request means. *)
Definition place_ok (s : lmgr) (t : LOCKTAG) (L : LOCK) (p m : Z) (place : sleep_place) : Prop :=
  match place with
  | PlaceBefore i =>
      i = length (waitProcs L) \/ (exists a, a ∈ take i (waitProcs L) /\ conf m (waits_mode s a) = true) \/ hard_blocked s t p m
  | PlaceDeadlock i x =>
      x ∈ waitProcs L /\ leader_of s x <> leader_of s p /\
      (exists b, group_holds s t p b /\ conf (waits_mode s x) b = true) /\ (exists b, holds s t x b = true /\ conf m b = true)
  | PlaceGrant => conflict_free s t m p
  end.

Lemma same_group s p q l :
  groups_ok (allProcs s) -> lockGroupLeader (allProcs s p) = Some l -> leader_of s q = leader_of s p ->
  lockGroupLeader (allProcs s q) = Some l.
Proof.
  intros Hg Hp. unfold leader_of. rewrite Hp. simpl. unfold id. destruct (lockGroupLeader (allProcs s q)) as [l'|] eqn:E; simpl; [by intros ->|].
  intros ->. apply (gr_leader _ Hg) in Hp. congruence.
Qed.

Lemma sleep_scan_ok s t L p m held queue : forall pre stay ahead,
  requesting s t L p m -> is_mode m -> (forall b, Z.testbit held b = true -> group_holds s t p b) ->
  waitProcs L = pre ++ queue -> mask_of s stay ahead -> (forall a, a ∈ stay -> a ∈ pre) ->
  exists place, sleep_scan s p t m held queue (length pre) ahead = Ret place /\ place_ok s t L p m place.
Proof.
  induction queue as [|x queue IH]; intros pre stay ahead R Hm Hheld Hsplit Hmask Hsub; cbn [sleep_scan].
  { exists (PlaceBefore (length pre)). split; [done|]. left. by rewrite Hsplit, app_nil_r. }
  pose proof (rq_busy _ _ _ _ _ R) as B. assert (x ∈ waitProcs L) as Hx by (rewrite Hsplit; set_solver).
  destruct (lc_waiters _ _ _ (bz_queue _ _ _ _ B) x Hx) as (W & Hpx).
  assert (forall a ahead', mask_of s a ahead' -> (forall y, y ∈ a -> y ∈ pre ++ [x]) ->
    exists place, sleep_scan s p t m held queue (S (length pre)) ahead' = Ret place /\ place_ok s t L p m place) as Hnext.
  { intros a ahead' Hma Hsa. destruct (IH (pre ++ [x]) a ahead' R Hm Hheld) as (place & E & Hp); [by rewrite <- app_assoc|done|done|].
    exists place. split; [|done]. rewrite <- E, length_app. f_equal. cbn. lia. }
  destruct (bool_decide (lockGroupLeader (allProcs s p) <> None) && bool_decide (lockGroupLeader (allProcs s p) = lockGroupLeader (allProcs s x))) eqn:Egr.
  { apply (Hnext stay); [done|]. intros y Hy. apply elem_of_app. left. auto. }
  assert (leader_of s x <> leader_of s p) as Hlead.
  { intros El. apply andb_false_iff in Egr. destruct (lockGroupLeader (allProcs s p)) as [l|] eqn:Ep.
    - rewrite (same_group s p x l (bz_groups _ _ _ _ B) Ep El) in Egr. rewrite !bool_decide_eq_true_2 in Egr by done. by destruct Egr.
    - assert (x = p) as -> by (by apply (leader_of_alone s (bz_groups _ _ _ _ B))). by apply (requesting_not_queued _ _ _ _ _ R). }
  fold (waits_mode s x). destruct (Z.land (conflictTab (waits_mode s x)) held =? 0) eqn:Eh; cbn [negb].
  { apply (Hnext (stay ++ [x])); [by apply mask_of_snoc, (wk_mode _ _ _ W)|]. intros y. rewrite !elem_of_app. naive_solver. }
  apply land_masks in Eh as (b & _ & Hb1 & Hb2).
  destruct (Z.land (conflictTab m) (heldLocks (allProcs s x)) =? 0) eqn:Ed; cbn [negb].
  - destruct (check_ahead p s t L (Some m) p m stay ahead B (rq_entry _ _ _ _ _ R) Hm Hmask) as (status & -> & [(-> & Hf & _)|(-> & Hbl)]); cbn [cbind].
    + rewrite Z.eqb_refl. exists PlaceGrant. done.
    + change (STATUS_FOUND =? STATUS_OK) with false. eexists. split; [done|]. right. destruct Hbl as [(a & Ha & Hc)|?]; [left|by right].
      exists a. split; [|done]. rewrite Hsplit, take_app_length. auto.
  - apply land_masks in Ed as (b' & _ & Hb3 & Hb4). eexists. split; [done|]. split_and!; [done|done|exists b; auto|].
    exists b'. split; [|done]. by apply (wk_held _ _ _ W).
Qed.

(** ** The whole request *)

(** The wait queue, or a holder of another group, stands in the way of a request. *)
Definition in_the_way (s : lmgr) (t : LOCKTAG) (L : LOCK) (p m : Z) : Prop :=
  (exists a, a ∈ waitProcs L /\ conf m (waits_mode s a) = true) \/ hard_blocked s t p m.

(** The process and a waiter of another group wait for each other. *)
Definition two_way_deadlock (s : lmgr) (t : LOCKTAG) (L : LOCK) (p m : Z) : Prop :=
  exists x, x ∈ waitProcs L /\ leader_of s x <> leader_of s p /\
    (exists b, group_holds s t p b /\ conf (waits_mode s x) b = true) /\ (exists b, holds s t x b = true /\ conf m b = true).

(** What the outcome of a request means. *)
Definition acquire_post (s s' : lmgr) (t : LOCKTAG) (L : LOCK) (p m : Z) (dontWait : bool) (r : acquire_result) : Prop :=
  lmgr_ok s' /\ frame s s' t /\ no_new_conflicts s s' /\ (forall q, q <> p -> bystander s s' q) /\
  match r with
  | AcquireOutOfMemory => s' = s
  | AcquireOK => conflict_free s t m p /\ hold_added s s' t p m /\ links (allProcs s' p) = false /\ (forall q, q <> p -> allProcs s' q = allProcs s q)
  | AcquireNotAvail => dontWait = true /\ in_the_way s t L p m /\ (forall q i, holds s' t q i = holds s t q i) /\ allProcs s' = allProcs s
  | AcquireWaiting => dontWait = false /\ in_the_way s t L p m /\ (forall q i, holds s' t q i = holds s t q i) /\
      links (allProcs s' p) = true /\ waitLock (allProcs s' p) = Some t /\ waits_mode s' p = m /\ (forall q, q <> p -> allProcs s' q = allProcs s q)
  | AcquireDeadlock => dontWait = false /\ two_way_deadlock s t L p m /\ links (allProcs s' p) = false /\ waitStatus (allProcs s' p) = STATUS_ERROR /\
      (forall i, holds s' t p i = holds s t p i) /\ (forall q i, holds s t q i = true -> holds s' t q i = true) /\
      (forall q i, holds s' t q i = true -> holds s t q i = true \/ q ∈ waitProcs L) /\ (forall q, q ∉ waitProcs L -> q <> p -> allProcs s' q = allProcs s q)
  end.

Lemma quiet_bystanders s s' t p :
  frame s s' t -> (forall q, q <> p -> allProcs s' q = allProcs s q) -> (forall q i, q <> p -> holds s' t q i = holds s t q i) ->
  forall q, q <> p -> bystander s s' q.
Proof.
  intros F Hp Hh q Hne. left. split; [auto|]. intros t' m. destruct (decide (t' = t)) as [->|]; [auto|by apply (frame_holds _ _ _ F)].
Qed.

Lemma queue_mask s t L : lock_queue s t L -> mask_of s (waitProcs L) (waitMask L).
Proof.
  intros Q m. destruct (Z.ltb_spec m 0).
  - rewrite Z.testbit_neg_r by done. split; [done|]. intros (a & Ha & <-).
    destruct (lc_waiters _ _ _ Q a Ha) as (W & _). pose proof (is_mode_nonneg _ (wk_mode _ _ _ W)). lia.
  - rewrite (lc_waitMask _ _ _ Q), Z.ltb_lt, countb_pos by done. split; intros (a & Ha & E); exists a; (split; [done|]); by apply Z.eqb_eq.
Qed.

(** Remembering what it holds does not change a process that is not waiting. *)
Lemma requesting_heldLocks s t L p m x :
  requesting s t L p m -> lockGroupLeader x = lockGroupLeader (allProcs s p) -> lockGroupMembers x = lockGroupMembers (allProcs s p) ->
  links x = false -> waitLock x = None -> requesting (put_proc s p x) t L p m.
Proof.
  intros R Hl Hme Hk Hw. pose proof (rq_busy _ _ _ _ _ R) as B. pose proof (requesting_not_queued _ _ _ _ _ R) as Hnq.
  assert (forall q, q <> p -> allProcs (put_proc s p x) q = allProcs s q) as Hother by (intros q Hq; by apply fn_lookup_insert_ne).
  assert (allProcs (put_proc s p x) p = x) as Hself by apply fn_lookup_insert.
  assert (frame s (put_proc s p x) t) as Hfr.
  { constructor; try done.
    - intros q. destruct (decide (q = p)) as [->|]; [by rewrite Hself|by rewrite Hother].
    - intros q. destruct (decide (q = p)) as [->|]; [by rewrite Hself|by rewrite Hother].
    - intros q t' Hne Hq. apply Hother. intros ->. pose proof (ln_idle _ (bz_links _ _ _ _ B) p (rq_idle _ _ _ _ _ R)). congruence. }
  assert (forall q, q ∈ waitProcs L -> allProcs (put_proc s p x) q = allProcs s q) as Hq by (intros q Hq; apply Hother; by intros ->).
  assert (forall q, q ∈ waitProcs L -> waits_mode (put_proc s p x) q = waits_mode s q) as Hmode by (intros q Hin; unfold waits_mode; by rewrite Hq).
  split; [constructor|by rewrite Hself].
  - eapply busy_step; [exact Hfr|exact B|apply (bz_lock _ _ _ _ B)| | | |].
    + eapply grants_ext; [| | | | | | |exact (bz_grants _ _ _ _ B)]; try done; [exact (frame_leader _ _ _ Hfr)|apply (lc_rlen _ _ _ (bz_grants _ _ _ _ B))].
    + destruct (bz_queue _ _ _ _ B) as [Q1 Q2 Q3]. constructor; [|done|].
      * intros w Hin. destruct (Q1 w Hin) as ([] & Hpw). split; [|done]. constructor; rewrite ?Hmode, ?Hq by done; done.
      * intros i Hi. rewrite Q3 by done. f_equal. apply countb_ext. intros w Hin. by rewrite Hmode.
    + destruct (bz_counts _ _ _ _ B) as [C1 C2]. constructor; [|done]. intros i. rewrite C1. do 2 f_equal. apply countb_ext. intros w Hin. by rewrite Hmode.
    + intros q Hqw. destruct (decide (q = p)) as [->|]; [right; by rewrite Hself|]. rewrite Hother by done. by apply (links_here s t L _ q B).
  - apply (rq_entry _ _ _ _ _ R).
  - apply (rq_not_held _ _ _ _ _ R).
  - intros before w after E. assert (w ∈ waitProcs L /\ forall a, a ∈ before -> a ∈ waitProcs L) as (Hw' & Hb') by (rewrite E; set_solver).
    eapply blocked_mono; [exact (frame_leader _ _ _ Hfr)|done| | |by apply (rq_blocked _ _ _ _ _ R before w after)]; auto.
  - apply (rq_used _ _ _ _ _ R).
Qed.

(** A request nothing conflicts with is granted. *)
Lemma grant_request s t L p m dontWait :
  requesting s t L p m -> is_mode m -> conflict_free s t m p ->
  exists s', GrantLock s t p m = Ret s' /\ acquire_post s s' t L p m dontWait AcquireOK.
Proof.
  intros R Hm Hf. pose proof (requesting_not_queued _ _ _ _ _ R) as Hnq.
  destruct (grant_entered s t L p m R Hm) as (s' & -> & ok' & Hfr' & Ha' & Hp'); [done|]. exists s'. split; [done|].
  split_and!; [done|done|by eapply no_new_conflicts_grant| |done|done|rewrite Hp'; apply (rq_idle _ _ _ _ _ R)|intros q _; by rewrite Hp'].
  eapply quiet_bystanders; [done|intros q _; by rewrite Hp'|]. intros q i Hne. rewrite Ha'. destruct (Z.eqb_spec q p); [done|]. by rewrite orb_false_r.
Qed.

(** [ProcSleep] from a request that cannot be granted now. *)
Lemma ProcSleep_ok s t L p m :
  requesting s t L p m -> is_mode m -> in_the_way s t L p m ->
  (forall b, Z.testbit (heldLocks (allProcs s p)) b = true -> holds s t p b = true) ->
  exists s' r, ProcSleep s p t m = Ret (s', r) /\
    acquire_post s s' t L p m false (match r with SleepGranted => AcquireOK | SleepDeadlock => AcquireDeadlock | SleepWaiting => AcquireWaiting end).
Proof.
  intros R Hm Hway Hheld. pose proof (rq_busy _ _ _ _ _ R) as B. pose proof (requesting_not_queued _ _ _ _ _ R) as Hnq.
  assert (exists place, (if group_held_locks s p t L =? 0 then Ret (PlaceBefore (length (waitProcs L)))
      else sleep_scan s p t m (group_held_locks s p t L) (waitProcs L) 0 0) = Ret place /\ place_ok s t L p m place) as (place & Eplace & Hplace).
  { destruct (group_held_locks s p t L =? 0); [eexists; split; [done|]; by left|].
    apply (sleep_scan_ok s t L p m _ (waitProcs L) [] []); try done.
    - intros b. apply group_held_locks_ok; [apply (bz_grants _ _ _ _ B)|done].
    - intros b. rewrite Z.bits_0. split; [done|]. by intros (a & Ha%elem_of_nil & _). }
  unfold ProcSleep. rewrite (bz_lock _ _ _ _ B). cbn [deref cbind]. rewrite Eplace. cbn [cbind].
  destruct place as [i|i x|]; cbn [place_ok] in Hplace.
  - exists (enqueue s p t L m i), SleepWaiting. split; [done|].
    pose proof (enqueue_busy s t L p m i R Hm Hheld) as B'. destruct (enqueue_self s t L p m i) as (S1 & S2 & _ & _ & S5 & _).
    split; [|split; [by apply enqueue_frame|split; [by apply no_new_conflicts_fewer; [apply enqueue_leader|]|split; [by eapply quiet_bystanders; [apply enqueue_frame; exact R|intros q Hq; by apply enqueue_procs|]|]]]].
    + eapply busy_lmgr_ok; [exact B'| |by apply enqueue_used|].
      * apply enqueue_blocked; [done|done|done|]. destruct Hplace as [->|?]; [|done]. by rewrite firstn_all.
      * pose proof (lq_nRequested _ _ _ (bz_counts _ _ _ _ B)). pose proof (nGranted_nonneg _ _ _ (bz_grants _ _ _ _ B)).
        pose proof (zlen_nonneg (waitProcs L)). cbn in *. lia.
    + split_and!; try done. intros q Hq. by apply enqueue_procs.
  - destruct Hplace as (Hx & Hlx & Hbx & Hcx).
    pose proof (enqueue_busy s t L p m i R Hm Hheld) as B'. destruct (enqueue_self s t L p m i) as (S1 & S2 & _ & _ & S5 & _).
    destruct (RemoveFromWaitQueue_ok _ p t (enqueued_lock L p m i) p B') as (s' & E & Hok & [Hfr Hst Hpr Hown Hby Hcf Hho Hnew]); [by apply enqueue_used|by apply elem_of_enqueued; left|].
    rewrite E. cbn [cbind]. exists s', SleepDeadlock. split; [done|]. split; [done|]. split; [exact (frame_trans _ _ _ _ (enqueue_frame s t L p m i R) Hfr)|].
    split; [eapply no_new_conflicts_trans; [|exact Hcf]; apply no_new_conflicts_fewer; [apply enqueue_leader|done]|].
    split; [intros q Hne; eapply bystander_trans; [|by apply Hby]; left; split; [by apply enqueue_procs|done]|].
    destruct Hst. split_and!; try done; [by exists x| |].
    + intros q b Hq. destruct (decide (q = p)) as [->|Hne]; [left; by rewrite Hown in Hq|].
      destruct (Hnew q b Hq) as [?|(Hin & _)]; [by left|right]. by apply elem_of_enqueued in Hin as [?|?].
    + intros q Hq Hne. rewrite Hpr; [by apply enqueue_procs| |done]. by intros [?|?]%elem_of_enqueued.
  - destruct (grant_request s t L p m false R Hm Hplace) as (s' & -> & Hpost). cbn [cbind]. by exists s', SleepGranted.
Qed.

(** What a routine reads of lock [t] and its queue is the same in both states. *)
Record same_view (s1 s2 : lmgr) (t : LOCKTAG) (Q : list Z) : Prop := {
  vw_leader : forall q, leader_of s2 q = leader_of s1 q;
  vw_holds : forall q i, holds s2 t q i = holds s1 t q i;
  vw_mode : forall q, q ∈ Q -> waits_mode s2 q = waits_mode s1 q }.

Lemma view_hard_blocked s1 s2 t Q p m : same_view s1 s2 t Q -> hard_blocked s2 t p m -> hard_blocked s1 t p m.
Proof. intros [Vl Vh Vm] (q & b & H1 & H2 & H3). exists q, b. by rewrite <- !Vl, <- Vh. Qed.

Lemma view_in_the_way s1 s2 t L1 L2 p m :
  same_view s1 s2 t (waitProcs L2) -> waitProcs L2 = waitProcs L1 -> in_the_way s2 t L2 p m -> in_the_way s1 t L1 p m.
Proof.
  intros V HQ [(a & Ha & Hc)|Hb]; [left|right; by eapply view_hard_blocked].
  exists a. rewrite <- HQ. split; [done|]. by rewrite <- (vw_mode _ _ _ _ V).
Qed.

Lemma view_two_way s1 s2 t L1 L2 p m :
  same_view s1 s2 t (waitProcs L2) -> waitProcs L2 = waitProcs L1 -> two_way_deadlock s2 t L2 p m -> two_way_deadlock s1 t L1 p m.
Proof.
  intros V HQ (x & Hx & Hl & (b & (q & Hq1 & Hq2) & Hc) & b' & Hb' & Hc'). destruct V as [Vl Vh Vm]. exists x. rewrite <- HQ.
  split_and!; [done|by rewrite <- !Vl| |by exists b'; rewrite <- Vh]. exists b. rewrite <- Vm by done. split; [|done].
  exists q. by rewrite <- !Vl, <- Vh.
Qed.

Lemma view_conflicts s1 s2 t Q : same_view s1 s2 t Q -> frame s1 s2 t -> no_new_conflicts s1 s2.
Proof.
  intros V F. apply no_new_conflicts_fewer; [apply (frame_leader _ _ _ F)|]. intros t' q m.
  destruct (decide (t' = t)) as [->|]; [by rewrite (vw_holds _ _ _ _ V)|by rewrite (frame_holds _ _ _ F)].
Qed.

(** What a request means for the state it started from. *)
Lemma acquire_post_view s1 s2 s' t L1 L2 p m dontWait r :
  same_view s1 s2 t (waitProcs L2) -> waitProcs L2 = waitProcs L1 -> frame s1 s2 t -> (forall q, q <> p -> allProcs s2 q = allProcs s1 q) ->
  match r with AcquireOutOfMemory | AcquireNotAvail => False | _ => True end ->
  acquire_post s2 s' t L2 p m dontWait r -> acquire_post s1 s' t L1 p m dontWait r.
Proof.
  intros V HQ Hfr Hp Hr (Hok & Hfr2 & Hcf & Hby & Hpost). split; [done|]. split; [exact (frame_trans _ _ _ _ Hfr Hfr2)|].
  split; [eapply no_new_conflicts_trans; [|exact Hcf]; by eapply view_conflicts|].
  split; [intros q Hne; eapply bystander_trans; [|by apply Hby]; eapply quiet_bystanders; [exact Hfr|exact Hp|intros; apply (vw_holds _ _ _ _ V)|done]|].
  destruct r; try done.
  - destruct Hpost as (Hf & Ha & Hk & Hq). split_and!; [| |done|].
    + intros q b Hl Hh. apply (Hf q b); [by rewrite !(vw_leader _ _ _ _ V)|by rewrite (vw_holds _ _ _ _ V)].
    + intros q i. by rewrite Ha, (vw_holds _ _ _ _ V).
    + intros q Hne. by rewrite Hq, Hp.
  - destruct Hpost as (H1 & H2 & H3 & H4 & H5 & H6 & H7 & H8). rewrite HQ in H7, H8. split_and!; try done.
    + by eapply view_two_way.
    + intros i. by rewrite H5, (vw_holds _ _ _ _ V).
    + intros q i Hh. apply H6. by rewrite (vw_holds _ _ _ _ V).
    + intros q i Hh. rewrite <- (vw_holds _ _ _ _ V). by apply H7.
    + intros q Hq Hne. by rewrite H8, Hp.
  - destruct Hpost as (H1 & H2 & H3 & H4 & H5 & H6 & H7). split_and!; try done.
    + by eapply view_in_the_way.
    + intros q i. by rewrite H3, (vw_holds _ _ _ _ V).
    + intros q Hne. by rewrite H7, Hp.
Qed.

(** A request that is withdrawn at once. *)
Section withdraw.
Context (s : lmgr) (t : LOCKTAG) (L : LOCK) (p m : Z).
Hypothesis R : requesting s t L p m.
Hypothesis Hm : is_mode m.

Let withdrawn : LOCK :=
  {| grantMask := grantMask L; waitMask := waitMask L; procLocks := procLocks L; waitProcs := waitProcs L;
     requested := mset (requested L) m (mget (requested L) m - 1); nRequested := nRequested L - 1;
     granted := granted L; nGranted := nGranted L |}.

Lemma withdraw_busy : busy (put_lock s t withdrawn) t withdrawn None.
Proof.
  pose proof (rq_busy _ _ _ _ _ R) as B. pose proof (bz_grants _ _ _ _ B) as G. pose proof (mode_index m _ Hm (lc_rlen _ _ _ G)) as Hi.
  eapply busy_step; [apply put_lock_frame|exact B|apply lookup_insert_eq| | | |].
  - eapply grants_ext; [| | | | | | |exact G]; try done. cbn. rewrite mset_len. apply (lc_rlen _ _ _ G).
  - destruct (bz_queue _ _ _ _ B) as [Q1 Q2 Q3]. constructor; [|done|done]. intros w Hw. destruct (Q1 w Hw) as ([] & Hpw). split; [|done]. by constructor.
  - destruct (bz_counts _ _ _ _ B) as [C1 C2]. constructor; cbn; [|cbn in C2; lia]. intros i. rewrite mget_mset by done.
    rewrite !C1. cbn [pend]. rewrite (Z.eqb_sym m i), Z.eqb_refl. unfold waits_mode. cbn. destruct (Z.eqb_spec i m) as [->|]; lia.
  - intros q Hq. by apply (links_here s t L _ q B).
Qed.

Lemma withdraw_blocked : queue_blocked (put_lock s t withdrawn) t withdrawn.
Proof. intros before w after E. apply (blocked_mono s); try done. by apply (rq_blocked _ _ _ _ _ R before w after). Qed.

Lemma in_the_way_requested : in_the_way s t L p m -> 0 < nRequested withdrawn.
Proof.
  pose proof (rq_busy _ _ _ _ _ R) as B. pose proof (bz_grants _ _ _ _ B) as G.
  pose proof (lq_nRequested _ _ _ (bz_counts _ _ _ _ B)) as Hn. cbn in Hn. pose proof (nGranted_nonneg _ _ _ G). cbn.
  intros [(a & Ha & _)|(q & b & _ & Hh & _)].
  - destruct (waitProcs L) as [|y l]; [by apply elem_of_nil in Ha|]. rewrite zlen_cons in Hn. pose proof (zlen_nonneg l). lia.
  - destruct (held_mode s t L G q b Hh) as (Hb & Hq).
    assert (0 < mget (granted L) b) by (rewrite (lc_granted _ _ _ G); apply countb_pos; eauto).
    pose proof (msum_le_zero (mget (granted L)) b (fun m _ => granted_nonneg _ _ _ m G) Hb). rewrite <- (lc_nGranted _ _ _ G) in *.
    pose proof (zlen_nonneg (waitProcs L)). lia.
Qed.

Lemma withdraw_ok pl :
  ProcLockHash s !! (t, p) = Some pl -> in_the_way s t L p m ->
  let s' := if holdMask pl =? 0 then drop_entry (put_lock s t withdrawn) t withdrawn p else put_lock s t withdrawn in
  lmgr_ok s' /\ frame s s' t /\ (forall q i, holds s' t q i = holds s t q i).
Proof.
  intros Hpl Hway s'. pose proof (requesting_not_queued _ _ _ _ _ R) as Hnq. pose proof (in_the_way_requested Hway) as Hpos.
  subst s'. destruct (Z.eqb_spec (holdMask pl) 0) as [Ez|Ez].
  - pose proof (fun q i => drop_entry_holds (put_lock s t withdrawn) t withdrawn p pl q i t Hpl Ez) as Hh.
    split; [|split; [|exact Hh]].
    + eapply busy_lmgr_ok; [by eapply drop_entry_busy; [exact withdraw_busy| | |]| | |done].
      * intros before w after E. apply (blocked_mono (put_lock s t withdrawn)); try done; [|by apply (withdraw_blocked before w after)].
        intros q i. by rewrite Hh.
      * intros q x. cbn. rewrite lookup_delete_Some. intros (Hne & Hx). apply (rq_used _ _ _ _ _ R q x); [congruence|done].
    + exact (frame_trans _ _ _ _ (put_lock_frame s t withdrawn) (drop_entry_frame _ t withdrawn p)).
  - split; [|split; [apply put_lock_frame|done]]. eapply busy_lmgr_ok; [exact withdraw_busy|exact withdraw_blocked| |done].
    intros q x Hx. destruct (decide (q = p)) as [->|Hne]; [left; cbn in Hx; congruence|]. by apply (rq_used _ _ _ _ _ R).
Qed.
End withdraw.

(** ** What a request does *)

(** The counts allow the request to be withdrawn. *)
Lemma refuse_counts s t L p m :
  requesting s t L p m -> in_the_way s t L p m ->
  0 < nRequested L - 1 /\ 0 <= mget (requested L) m - 1 /\ nGranted L <= nRequested L - 1.
Proof.
  intros R Hway. pose proof (rq_busy _ _ _ _ _ R) as B. pose proof (bz_grants _ _ _ _ B) as G.
  pose proof (in_the_way_requested s t L p m R Hway) as Hpos. cbn in Hpos.
  pose proof (lq_requested _ _ _ (bz_counts _ _ _ _ B) m) as Hreq. cbn [pend] in Hreq. rewrite Z.eqb_refl in Hreq.
  pose proof (lq_nRequested _ _ _ (bz_counts _ _ _ _ B)) as Hnreq. cbn [pend_any] in Hnreq. pose proof (zlen_nonneg (waitProcs L)).
  pose proof (granted_nonneg _ _ _ m G). pose proof (countb_nonneg (fun w => waits_mode s w =? m) (waitProcs L)). lia.
Qed.

(** A process that does not wait changes fields of its own, but not its group. *)
Section noted.
Context (s : lmgr) (p : Z) (pr : PGPROC).
Hypotheses (Hl : lockGroupLeader pr = lockGroupLeader (allProcs s p)) (Hg : lockGroupMembers pr = lockGroupMembers (allProcs s p)).

Lemma noted_procs q : q <> p -> allProcs (put_proc s p pr) q = allProcs s q.
Proof. intros Hq. by apply fn_lookup_insert_ne. Qed.

Lemma noted_view t Q : p ∉ Q -> same_view s (put_proc s p pr) t Q.
Proof using Hl.
  intros Hp. constructor; [|done|].
  - intros q. unfold leader_of. destruct (decide (q = p)) as [->|]; [cbn; by rewrite fn_lookup_insert, Hl|by rewrite noted_procs].
  - intros q Hq. unfold waits_mode. rewrite noted_procs; [done|]. by intros ->.
Qed.

Lemma noted_frame t : waitLock (allProcs s p) = None -> frame s (put_proc s p pr) t.
Proof using Hl Hg.
  intros Hw. constructor; try done.
  - intros q. destruct (decide (q = p)) as [->|]; [cbn; by rewrite fn_lookup_insert|by rewrite noted_procs].
  - intros q. destruct (decide (q = p)) as [->|]; [cbn; by rewrite fn_lookup_insert|by rewrite noted_procs].
  - intros q t' _ Hq. apply noted_procs. congruence.
Qed.
End noted.

Lemma acquire_shared_ok room_lock room_proclock s p t m dontWait :
  lmgr_ok s -> links (allProcs s p) = false -> is_mode m -> holds s t p m = false ->
  exists s' r, acquire_shared room_lock room_proclock s p t m dontWait = Ret (s', r) /\
    acquire_post s s' t (default new_LOCK (LockHash s !! t)) p m dontWait r /\
    (r = AcquireOutOfMemory -> room_lock && room_proclock = false).
Proof.
  intros Hok Hk Hm Hh. unfold acquire_shared.
  destruct (SetupLockInTable_ok room_lock room_proclock s p t m Hok Hm Hh) as [(-> & Hroom)|(s1 & L1 & -> & R0 & Hp1 & Hfr1 & Hh1 & HQ1)]; cbn [cbind].
  { exists s, AcquireOutOfMemory. split; [done|]. split; [|done]. split_and!; [done|by constructor|apply no_new_conflicts_refl|intros; apply bystander_refl|done]. }
  assert (requesting s1 t L1 p m) as R by (split; [done|by rewrite Hp1]).
  set (L := default new_LOCK (LockHash s !! t)) in *. pose proof (rq_busy _ _ _ _ _ R) as B.
  assert (is_Some (ProcLockHash s1 !! (t, p))) as [pl Hpl] by (apply (lc_proclocks _ _ _ (bz_grants _ _ _ _ B)), (rq_entry _ _ _ _ _ R)).
  rewrite (bz_lock _ _ _ _ B), Hpl. cbn [deref cbind].
  assert (same_view s s1 t (waitProcs L1)) as V.
  { constructor; [apply (frame_leader _ _ _ Hfr1)|exact Hh1|]. intros q _. unfold waits_mode. by rewrite Hp1. }
  destruct (check_ahead p s1 t L1 (Some m) p m (waitProcs L1) (waitMask L1) B (rq_entry _ _ _ _ _ R) Hm (queue_mask _ _ _ (bz_queue _ _ _ _ B))) as (status & Est & Hst).
  assert ((if negb (Z.land (conflictTab m) (waitMask L1) =? 0) then Ret STATUS_FOUND else LockCheckConflicts s1 p m t p) = Ret status) as ->.
  { rewrite <- Est. by destruct (Z.land (conflictTab m) (waitMask L1) =? 0). }
  cbn [cbind]. destruct Hst as [(-> & Hf & _)|(-> & Hway)].
  { rewrite Z.eqb_refl. destruct (grant_request s1 t L1 p m dontWait R Hm Hf) as (s' & -> & Hpost). cbn [cbind].
    exists s', AcquireOK. split; [done|]. split; [|done]. eapply acquire_post_view; [exact V|done|done|intros q _; by rewrite Hp1|done|done]. }
  change (STATUS_FOUND =? STATUS_OK) with false. cbv iota. change (in_the_way s1 t L1 p m) in Hway.
  destruct dontWait.
  - destruct (withdraw_ok s1 t L1 p m R Hm pl Hpl Hway) as (Hok' & Hfr' & Hh').
    pose proof (mode_index m _ Hm (lc_rlen _ _ _ (bz_grants _ _ _ _ B))) as Hi. destruct (refuse_counts s1 t L1 p m R Hway) as (? & ? & ?).
    cbn [nRequested nGranted]. rewrite mget_mset, Z.eqb_refl by done.
    destruct (Z.ltb_spec 0 (nRequested L1 - 1)); [|lia]. destruct (Z.leb_spec 0 (mget (requested L1) m - 1)); [|lia].
    destruct (Z.leb_spec (nGranted L1) (nRequested L1 - 1)); [|lia]. cbn [andb c_assert cbind].
    eexists _, AcquireNotAvail. split; [done|]. split; [|done].
    unfold drop_entry in *. rewrite put_lock_twice in *. destruct (Z.eqb_spec (holdMask pl) 0).
    all: split; [exact Hok'|split; [exact (frame_trans _ _ _ _ Hfr1 Hfr')|]].
    all: split; [eapply no_new_conflicts_trans; [by eapply view_conflicts|]; apply no_new_conflicts_fewer; [apply (frame_leader _ _ _ Hfr')|]; intros t' q i; destruct (decide (t' = t)) as [->|]; [by rewrite Hh'|by rewrite (frame_holds _ _ _ Hfr')]|].
    all: split; [eapply quiet_bystanders; [exact (frame_trans _ _ _ _ Hfr1 Hfr')|intros q _; by rewrite <- Hp1|intros q i _; by rewrite <- Hh1, <- Hh']|].
    all: split_and!; [done|by eapply view_in_the_way|intros q i; by rewrite <- Hh1, <- Hh'|by rewrite <- Hp1].
  - match goal with |- context [ProcSleep ?x _ _ _] => set (s2 := x) end.
    assert (requesting s2 t L1 p m) as R2.
    { apply requesting_heldLocks; try done; [apply (rq_idle _ _ _ _ _ R)|]. apply (ln_idle _ (bz_links _ _ _ _ B)), (rq_idle _ _ _ _ _ R). }
    assert (same_view s1 s2 t (waitProcs L1)) as V2 by (apply noted_view; [done|apply (requesting_not_queued _ _ _ _ _ R)]).
    assert (same_view s s2 t (waitProcs L1)) as V'.
    { constructor; intros; [by rewrite (vw_leader _ _ _ _ V2), (vw_leader _ _ _ _ V)|by rewrite (vw_holds _ _ _ _ V2), (vw_holds _ _ _ _ V)|].
      by rewrite (vw_mode _ _ _ _ V2), (vw_mode _ _ _ _ V). }
    destruct (ProcSleep_ok s2 t L1 p m R2 Hm) as (s' & r & -> & Hpost).
    + destruct Hway as [(a & Ha & Hc)|(q & b & H1 & H2 & H3)].
      * left. exists a. split; [done|]. by rewrite (vw_mode _ _ _ _ V2).
      * right. exists q, b. by rewrite !(vw_leader _ _ _ _ V2), (vw_holds _ _ _ _ V2).
    + intros b. cbn. rewrite fn_lookup_insert. cbn. unfold holds. cbn. by rewrite Hpl.
    + cbn [cbind]. assert (frame s s2 t) as Hfr2.
      { eapply frame_trans; [exact Hfr1|]. apply noted_frame; [done|done|]. rewrite Hp1. apply (ln_idle _ (ok_links _ Hok) p Hk). }
      assert (forall q, q <> p -> allProcs s2 q = allProcs s q) as Hp' by (intros q Hq; by rewrite <- Hp1; apply noted_procs).
      destruct r; (eexists _, _; split; [done|]; split; [|done]); by eapply acquire_post_view.
Qed.
