(* ===== verification/Deadlock.v ===== *)
(** * The deadlock detector

    Models [storage/lmgr/deadlock.c] of the backend.  The caller holds every
    partition lock, so the lock table stands still but for the wait queues that
    [DeadLockCheck] rearranges at the end.

    The work arrays of the C file are lists: [visitedProcs] in visiting order;
    [deadlockDetails[depth ..]] as the list a call at [depth] returns; the soft
    edges in the order they are written.  [possibleConstraints] stays an array with
    a fill level, because saved edge lists live in it across calls.  The [pred] and
    [link] fields of an [EDGE] are only read inside [TopoSort], which is where they
    are.  Writes past the end of a work array are [Undef], by the sizes
    [InitDeadLockChecking] gives them.  When [ExpandConstraints] fails, the orders it
    has built so far are dropped: nothing reads them before the next call builds
    new ones.  Recursion is bounded by fuel; [Undef] also stands for fuel that runs
    out, and the theorems show it does not. *)
From stdpp Require Import list gmap functions.
From S2P Require Import Prelude LockModes LockTable.

(** One edge of the waits-for graph, between lock groups named by their leaders. *)
Record EDGE := { waiter : Z; blocker : Z; elock : LOCKTAG }.

(** A possible reordering of the queue of a lock. *)
Record WAIT_ORDER := { wo_lock : LOCKTAG; wo_procs : list Z }.

Record DEADLOCK_INFO := { info_locktag : LOCKTAG; info_lockmode : Z; info_pid : Z }.

Definition PROC_IS_AUTOVACUUM : Z := 1.

Inductive DeadLockState := DS_NOT_YET_CHECKED | DS_NO_DEADLOCK | DS_SOFT_DEADLOCK | DS_HARD_DEADLOCK | DS_BLOCKED_BY_AUTOVACUUM.

(** The static variables a search changes. *)
Record search_state := { visitedProcs : list Z; blocking_autovacuum_proc : option Z }.

(** No cycle, or the details of the cycle from here on and its soft edges. *)
Definition search_result : Type := option (list DEADLOCK_INFO * list EDGE).

Section detector.
Context (MaxBackends : Z) (vacuumFlags : Z -> Z) (MyProc : Z).

(** ** FindLockCycle *)

Section search.
Context (s : lmgr) (waitOrders : list WAIT_ORDER).

Definition is_waiting (p : Z) : bool := links (allProcs s p) && bool_decide (waitLock (allProcs s p) <> None).

Definition cycle_info (tag : LOCKTAG) (checkProc : Z) : DEADLOCK_INFO :=
  {| info_locktag := tag; info_lockmode := waitLockMode (allProcs s checkProc); info_pid := pid (allProcs s checkProc) |}.

(** The search from a process one level deeper. *)
Variable recurse : Z -> search_state -> cres (search_state * search_result).

(** The holders of the lock: hard edges. *)
Fixpoint hard_edges_loop (checkProc checkProcLeader : Z) (tag : LOCKTAG) (holders : list Z) (st : search_state) : cres (search_state * search_result) :=
  match holders with
  | [] => Ret (st, None)
  | proc :: holders =>
      let* pl := deref (ProcLockHash s !! (tag, proc)) in
      let conflictMask := conflictTab (waitLockMode (allProcs s checkProc)) in
      if negb (leader_of s proc =? checkProcLeader) &&
         existsb (fun lm => negb (Z.land (holdMask pl) (LOCKBIT_ON lm) =? 0) && negb (Z.land conflictMask (LOCKBIT_ON lm) =? 0)) lock_modes
      then
        let* (st, res) := recurse proc st in
        match res with
        | Some (details, edges) => Ret (st, Some (cycle_info tag checkProc :: details, edges))
        | None =>
            let st := if (checkProc =? MyProc) && negb (Z.land (vacuumFlags proc) PROC_IS_AUTOVACUUM =? 0)
                      then {| visitedProcs := visitedProcs st; blocking_autovacuum_proc := Some proc |} else st in
            hard_edges_loop checkProc checkProcLeader tag holders st
        end
      else hard_edges_loop checkProc checkProcLeader tag holders st
  end.

(** A waiter ahead with a conflicting request: a soft edge. *)
Definition soft_edge (checkProc checkProcLeader : Z) (tag : LOCKTAG) (proc : Z) (st : search_state) : cres (search_state * search_result) :=
  let* (st, res) := recurse proc st in
  match res with
  | Some (details, edges) =>
      c_assert (zlen edges <? MaxBackends);;
      Ret (st, Some (cycle_info tag checkProc :: details, edges ++ [{| waiter := checkProcLeader; blocker := leader_of s proc; elock := tag |}]))
  | None => Ret (st, None)
  end.

(** Along a proposed order of the queue, up to the first member of the group. *)
Fixpoint ordered_queue_loop (checkProc checkProcLeader : Z) (tag : LOCKTAG) (procs : list Z) (st : search_state) : cres (search_state * search_result) :=
  match procs with
  | [] => Ret (st, None)
  | proc :: procs =>
      if leader_of s proc =? checkProcLeader then Ret (st, None)
      else if negb (Z.land (LOCKBIT_ON (waitLockMode (allProcs s proc))) (conflictTab (waitLockMode (allProcs s checkProc))) =? 0) then
        let* (st, res) := soft_edge checkProc checkProcLeader tag proc st in
        match res with
        | Some r => Ret (st, Some r)
        | None => ordered_queue_loop checkProc checkProcLeader tag procs st
        end
      else ordered_queue_loop checkProc checkProcLeader tag procs st
  end.

(** Along the queue as it is, up to the last member of the group. *)
Fixpoint true_queue_loop (checkProc checkProcLeader : Z) (tag : LOCKTAG) (lastGroupMember : Z) (procs : list Z) (st : search_state) : cres (search_state * search_result) :=
  match procs with
  | [] => Ret (st, None)
  | proc :: procs =>
      if proc =? lastGroupMember then Ret (st, None)
      else if negb (Z.land (LOCKBIT_ON (waitLockMode (allProcs s proc))) (conflictTab (waitLockMode (allProcs s checkProc))) =? 0) &&
              negb (leader_of s proc =? checkProcLeader) then
        let* (st, res) := soft_edge checkProc checkProcLeader tag proc st in
        match res with
        | Some r => Ret (st, Some r)
        | None => true_queue_loop checkProc checkProcLeader tag lastGroupMember procs st
        end
      else true_queue_loop checkProc checkProcLeader tag lastGroupMember procs st
  end.

(** The last process of the queue that belongs to the group. *)
Definition last_group_member (checkProcLeader : Z) (queue : list Z) : option Z :=
  foldl (fun found proc => if bool_decide (lockGroupLeader (allProcs s proc) = Some checkProcLeader) then Some proc else found) None queue.

Definition FindLockCycleRecurseMember (checkProc checkProcLeader : Z) (st : search_state) : cres (search_state * search_result) :=
  let* tag := deref (waitLock (allProcs s checkProc)) in
  let* lock := deref (LockHash s !! tag) in
  let* (st, res) := hard_edges_loop checkProc checkProcLeader tag (procLocks lock) st in
  match res with
  | Some r => Ret (st, Some r)
  | None =>
      match List.find (fun o => bool_decide (wo_lock o = tag)) waitOrders with
      | Some order => ordered_queue_loop checkProc checkProcLeader tag (wo_procs order) st
      | None =>
          let* lastGroupMember :=
            match lockGroupLeader (allProcs s checkProc) with
            | None => Ret checkProc
            | Some _ => deref (last_group_member checkProcLeader (waitProcs lock))
            end in
          true_queue_loop checkProc checkProcLeader tag lastGroupMember (waitProcs lock) st
      end
  end.

(** The members of the group other than the leader. *)
Fixpoint members_loop (checkProc : Z) (members : list Z) (st : search_state) : cres (search_state * search_result) :=
  match members with
  | [] => Ret (st, None)
  | memberProc :: members =>
      if is_waiting memberProc && negb (memberProc =? checkProc) then
        let* (st, res) := FindLockCycleRecurseMember memberProc checkProc st in
        match res with
        | Some r => Ret (st, Some r)
        | None => members_loop checkProc members st
        end
      else members_loop checkProc members st
  end.
End search.

Fixpoint FindLockCycleRecurse (fuel : nat) (s : lmgr) (waitOrders : list WAIT_ORDER) (checkProc : Z) (depth : Z) (st : search_state) : cres (search_state * search_result) :=
  match fuel with
  | O => Undef
  | S fuel =>
      let checkProc := leader_of s checkProc in
      if bool_decide (checkProc ∈ visitedProcs st) then
        if bool_decide (head (visitedProcs st) = Some checkProc) then
          c_assert (depth <=? MaxBackends);; Ret (st, Some ([], []))
        else Ret (st, None)
      else
        c_assert (zlen (visitedProcs st) <? MaxBackends);;
        let st := {| visitedProcs := visitedProcs st ++ [checkProc]; blocking_autovacuum_proc := blocking_autovacuum_proc st |} in
        let recurse p st := FindLockCycleRecurse fuel s waitOrders p (depth + 1) st in
        let* (st, res) :=
          (if is_waiting s checkProc then FindLockCycleRecurseMember s waitOrders recurse checkProc checkProc st else Ret (st, None)) in
        match res with
        | Some r => Ret (st, Some r)
        | None => members_loop s waitOrders recurse checkProc (lockGroupMembers (allProcs s checkProc)) st
        end
  end.

(** Enough for every search: a call that goes deeper visits a new process. *)
Definition search_fuel : nat := S (S (Z.to_nat MaxBackends)).

(** The result, and the autovacuum worker seen to block [MyProc], if any. *)
Definition FindLockCycle (s : lmgr) (waitOrders : list WAIT_ORDER) (checkProc : Z) (autovac : option Z) : cres (search_result * option Z) :=
  let* (st, res) := FindLockCycleRecurse search_fuel s waitOrders checkProc 0
                      {| visitedProcs := []; blocking_autovacuum_proc := autovac |} in
  Ret (res, blocking_autovacuum_proc st).

(** ** TopoSort *)

Definition aset {A} (a : list A) (i : Z) (x : A) : cres (list A) := deref (zset a i x).
Definition aget {A} (a : list A) (i : Z) : cres A := deref (zget a i).

(** The work arrays: the counts and list heads per process of the queue, and the
    [pred] and [link] fields of the constraints. *)
Record topo := { beforeConstraints : list Z; afterConstraints : list Z; pred : list Z; link : list Z }.

Section toposort.
Context (s : lmgr) (tag : LOCKTAG).

(** The process is the leader or belongs to its group. *)
Definition in_group (leader p : Z) : bool := (p =? leader) || bool_decide (lockGroupLeader (allProcs s p) = Some leader).

(** The last process of the group among the first [j] of the queue; the loop
    stops there. *)
Fixpoint find_waiter (topoProcs : list Z) (proc : Z) (j : nat) : cres Z :=
  match j with
  | O => Ret (-1)
  | S j =>
      let* waiter := deref (topoProcs !! j) in
      if in_group proc waiter then
        c_assert (bool_decide (waitLock (allProcs s waiter) = Some tag));; Ret (Z.of_nat j)
      else find_waiter topoProcs proc j
  end.

(** The last process of the group, and the others marked as not separate. *)
Fixpoint find_blocker (topoProcs : list Z) (proc : Z) (k : nat) (kk : Z) (before : list Z) : cres (Z * list Z) :=
  match k with
  | O => Ret (kk, before)
  | S k =>
      let* blocker := deref (topoProcs !! k) in
      if in_group proc blocker then
        c_assert (bool_decide (waitLock (allProcs s blocker) = Some tag));;
        if kk =? -1 then find_blocker topoProcs proc k (Z.of_nat k) before
        else
          let* b := aget before (Z.of_nat k) in
          c_assert (b <=? 0);;
          let* before := aset before (Z.of_nat k) (-1) in
          find_blocker topoProcs proc k kk before
      else find_blocker topoProcs proc k kk before
  end.

(** Enter constraint [i] into the arrays. *)
Definition add_constraint (topoProcs : list Z) (i : Z) (c : EDGE) (w : topo) : cres topo :=
  let* jj := find_waiter topoProcs (waiter c) (length topoProcs) in
  if jj <? 0 then Ret w
  else
    let* (kk, before) := find_blocker topoProcs (blocker c) (length topoProcs) (-1) (beforeConstraints w) in
    if kk <? 0 then Ret {| beforeConstraints := before; afterConstraints := afterConstraints w; pred := pred w; link := link w |}
    else
      let* b := aget before jj in
      let* before := aset before jj (b + 1) in
      let* pred' := aset (pred w) i jj in
      let* a := aget (afterConstraints w) kk in
      let* link' := aset (link w) i a in
      let* after := aset (afterConstraints w) kk (i + 1) in
      Ret {| beforeConstraints := before; afterConstraints := after; pred := pred'; link := link' |}.

Fixpoint add_constraints (topoProcs : list Z) (constraints : list EDGE) (i : Z) (w : topo) : cres topo :=
  match constraints with
  | [] => Ret w
  | c :: constraints =>
      let* w := add_constraint topoProcs i c w in
      add_constraints topoProcs constraints (i + 1) w
  end.

(** [while (topoProcs[last] == NULL) last--] from [last = n - 1], as a number of
    entries. *)
Fixpoint skip_output (topoProcs : list (option Z)) (n : nat) : cres nat :=
  match n with
  | O => Undef
  | S n' =>
      let* p := deref (topoProcs !! n') in
      match p with Some _ => Ret n | None => skip_output topoProcs n' end
  end.

(** The last process left without constraints among the first [n]. *)
Fixpoint find_candidate (topoProcs : list (option Z)) (before : list Z) (n : nat) : cres (option nat) :=
  match n with
  | O => Ret None
  | S n =>
      let* p := deref (topoProcs !! n) in
      let* b := deref (before !! n) in
      if bool_decide (p <> None) && (b =? 0) then Ret (Some n) else find_candidate topoProcs before n
  end.

(** Output every process of the group among the first [n]; what is output goes
    in front of what was output before. *)
Fixpoint output_group (proc : Z) (topoProcs : list (option Z)) (n : nat) (ordering : list Z) : list (option Z) * list Z :=
  match n, topoProcs with
  | S n, Some p :: topoProcs =>
      if in_group proc p then
        let '(topoProcs, ordering) := output_group proc topoProcs n (p :: ordering) in (None :: topoProcs, ordering)
      else let '(topoProcs, ordering) := output_group proc topoProcs n ordering in (Some p :: topoProcs, ordering)
  | S n, None :: topoProcs =>
      let '(topoProcs, ordering) := output_group proc topoProcs n ordering in (None :: topoProcs, ordering)
  | _, _ => (topoProcs, ordering)
  end.

(** Walk the list of constraints that starts at [k]. *)
Fixpoint release_constraints (fuel : nat) (w : topo) (k : Z) (before : list Z) : cres (list Z) :=
  if k <=? 0 then Ret before
  else
    match fuel with
    | O => Undef
    | S fuel =>
        let* j := aget (pred w) (k - 1) in
        let* b := aget before j in
        let* before := aset before j (b - 1) in
        let* next := aget (link w) (k - 1) in
        release_constraints fuel w next before
    end.

(** The loop that fills [ordering] from its end; [remaining] entries are to be
    filled. *)
Fixpoint topo_output (fuel : nat) (w : topo) (topoProcs : list (option Z)) (before : list Z) (last : nat) (remaining : Z) (ordering : list Z) : cres (option (list Z)) :=
  if remaining <=? 0 then Ret (Some ordering)
  else
    match fuel with
    | O => Undef
    | S fuel =>
        let* last := skip_output topoProcs last in
        let* candidate := find_candidate topoProcs before last in
        match candidate with
        | None => Ret None
        | Some j =>
            let* p := deref (topoProcs !! j) in
            let* p := deref p in
            let '(topoProcs', ordering') := output_group (leader_of s p) topoProcs last ordering in
            c_assert (zlen ordering <? zlen ordering');;
            let* k := aget (afterConstraints w) (Z.of_nat j) in
            let* before := release_constraints (length (link w)) w k before in
            topo_output fuel w topoProcs' before last (remaining - (zlen ordering' - zlen ordering)) ordering'
        end
    end.

(** The new order of the queue of lock [tag], [None] if the constraints contradict each other. *)
Definition TopoSort (queue : list Z) (constraints : list EDGE) : cres (option (list Z)) :=
  let zeros n := replicate n 0 in
  let* w := add_constraints queue constraints 0
      {| beforeConstraints := zeros (length queue); afterConstraints := zeros (length queue);
         pred := zeros (length constraints); link := zeros (length constraints) |} in
  topo_output (length queue) w (map Some queue) (beforeConstraints w) (length queue) (zlen queue) [].

End toposort.

Section expand.
Context (s : lmgr).

(** The loop of [ExpandConstraints], from the last constraint to the first. *)
Fixpoint expand_loop (constraints : list EDGE) (i : nat) (waitOrders : list WAIT_ORDER) : cres (option (list WAIT_ORDER)) :=
  match i with
  | O => Ret (Some waitOrders)
  | S i =>
      let* c := deref (constraints !! i) in
      let tag := elock c in
      if existsb (fun o => bool_decide (wo_lock o = tag)) waitOrders then expand_loop constraints i waitOrders
      else
        let* lock := deref (LockHash s !! tag) in
        c_assert (zlen waitOrders <? MaxBackends / 2);;
        c_assert (foldr Z.add 0 (map (fun o => zlen (wo_procs o)) waitOrders) + zlen (waitProcs lock) <=? MaxBackends);;
        let* order := TopoSort s tag (waitProcs lock) (take (S i) constraints) in
        match order with
        | None => Ret None
        | Some procs => expand_loop constraints i (waitOrders ++ [{| wo_lock := tag; wo_procs := procs |}])
        end
  end.

(** The wait orders that satisfy the constraints, [None] if there are none. *)
Definition ExpandConstraints (constraints : list EDGE) : cres (option (list WAIT_ORDER)) :=
  expand_loop constraints (length constraints) [].
End expand.

(** ** Looking for a configuration without deadlock *)

(** The static variables of the outer search. *)
Record check_state := {
  curConstraints : list EDGE;
  possibleConstraints : list EDGE; nPossibleConstraints : Z;
  waitOrders : list WAIT_ORDER;
  ck_autovac : option Z }.

Definition maxCurConstraints : Z := MaxBackends.
Definition maxPossibleConstraints : Z := MaxBackends * 4.

(** Write the soft edges from [possibleConstraints + nPossibleConstraints] on. *)
Definition write_edges (a : list EDGE) (off : Z) (edges : list EDGE) : list EDGE :=
  take (Z.to_nat off) a ++ edges ++ drop (Z.to_nat off + length edges) a.

Section check.
Context (s : lmgr).

Definition set_search (st : check_state) (possible : list EDGE) (autovac : option Z) : check_state :=
  {| curConstraints := curConstraints st; possibleConstraints := possible;
     nPossibleConstraints := nPossibleConstraints st; waitOrders := waitOrders st; ck_autovac := autovac |}.

(** One cycle search of [TestConfiguration]: [inl] the number of soft edges of the
    cycle last found so far, [inr] if the cycle is hard. *)
Definition test_proc (proc : Z) (st : check_state) (softFound : Z) : cres (check_state * (Z + unit)) :=
  let* (res, autovac) := FindLockCycle s (waitOrders st) proc (ck_autovac st) in
  match res with
  | None => Ret (set_search st (possibleConstraints st) autovac, inl softFound)
  | Some (_, edges) =>
      c_assert (nPossibleConstraints st + zlen edges <=? maxPossibleConstraints);;
      let st := set_search st (write_edges (possibleConstraints st) (nPossibleConstraints st) edges) autovac in
      if zlen edges =? 0 then Ret (st, inr tt) else Ret (st, inl (zlen edges))
  end.

(** The searches of [TestConfiguration] in turn. *)
Fixpoint test_procs (procs : list Z) (st : check_state) (softFound : Z) : cres (check_state * Z) :=
  match procs with
  | [] => Ret (st, softFound)
  | proc :: procs =>
      let* (st, r) := test_proc proc st softFound in
      match r with
      | inr _ => Ret (st, -1)
      | inl softFound => test_procs procs st softFound
      end
  end.

(** -1: a hard deadlock or contradictory constraints; 0: no deadlock; otherwise
    the number of soft edges of a soft deadlock. *)
Definition TestConfiguration (startProc : Z) (st : check_state) : cres (check_state * Z) :=
  if nPossibleConstraints st + MaxBackends >? maxPossibleConstraints then Ret (st, -1)
  else
    let* orders := ExpandConstraints s (curConstraints st) in
    match orders with
    | None => Ret (st, -1)
    | Some orders =>
        let st := {| curConstraints := curConstraints st; possibleConstraints := possibleConstraints st;
                     nPossibleConstraints := nPossibleConstraints st; waitOrders := orders; ck_autovac := ck_autovac st |} in
        test_procs (concat (map (fun c => [waiter c; blocker c]) (curConstraints st)) ++ [startProc]) st 0
    end.

Definition set_cur (st : check_state) (cur : list EDGE) : check_state :=
  {| curConstraints := cur; possibleConstraints := possibleConstraints st;
     nPossibleConstraints := nPossibleConstraints st; waitOrders := waitOrders st; ck_autovac := ck_autovac st |}.
Definition set_nPossible (st : check_state) (n : Z) : check_state :=
  {| curConstraints := curConstraints st; possibleConstraints := possibleConstraints st;
     nPossibleConstraints := n; waitOrders := waitOrders st; ck_autovac := ck_autovac st |}.

(** The loop of [DeadLockCheckRecurse]: the edges [i, i + 1, ...], [k] of them, are
    tried in turn as an additional constraint. *)
Fixpoint try_edges (recurse : check_state -> cres (check_state * bool)) (proc : Z) (nEdges oldPossible : Z) (savedList : bool) (k : nat) (i : Z) (st : check_state) : cres (check_state * bool) :=
  match k with
  | O => Ret (set_nPossible st oldPossible, true)
  | S k =>
      let* st :=
        (if negb savedList && (0 <? i) then
           let* (st, n) := TestConfiguration proc st in
           if n =? nEdges then Ret st else Elog "inconsistent results during deadlock check"
         else Ret st) in
      let* e := aget (possibleConstraints st) (oldPossible + i) in
      c_assert (zlen (curConstraints st) <? maxCurConstraints);;
      let* (st, failed) := recurse (set_cur st (curConstraints st ++ [e])) in
      if failed then try_edges recurse proc nEdges oldPossible savedList k (i + 1) (set_cur st (removelast (curConstraints st)))
      else Ret (st, false)
  end.

(** [true] if no solution exists.  A level adds one constraint, so the number of
    levels is bounded by the room for constraints. *)
Fixpoint DeadLockCheckRecurse (fuel : nat) (proc : Z) (st : check_state) : cres (check_state * bool) :=
  match fuel with
  | O => Undef
  | S fuel =>
      let* (st, nEdges) := TestConfiguration proc st in
      if nEdges <? 0 then Ret (st, true)
      else if nEdges =? 0 then Ret (st, false)
      else if zlen (curConstraints st) >=? maxCurConstraints then Ret (st, true)
      else
        let oldPossible := nPossibleConstraints st in
        let savedList := oldPossible + nEdges + MaxBackends <=? maxPossibleConstraints in
        let st := if savedList then set_nPossible st (oldPossible + nEdges) else st in
        try_edges (DeadLockCheckRecurse fuel proc) proc nEdges oldPossible savedList (Z.to_nat nEdges) 0 st
  end.

Definition recurse_fuel : nat := S (Z.to_nat maxCurConstraints).
End check.

(** Put the proposed orders in force, and wake who can be woken. *)
Fixpoint apply_orders (orders : list WAIT_ORDER) (s : lmgr) : cres lmgr :=
  match orders with
  | [] => Ret s
  | o :: orders =>
      let* lock := deref (LockHash s !! wo_lock o) in
      c_assert (zlen (wo_procs o) =? zlen (waitProcs lock));;
      let s := put_lock s (wo_lock o)
          {| grantMask := grantMask lock; waitMask := waitMask lock; procLocks := procLocks lock; waitProcs := wo_procs o;
             requested := requested lock; nRequested := nRequested lock; granted := granted lock; nGranted := nGranted lock |} in
      let* s := ProcLockWakeup s MyProc (wo_lock o) in
      apply_orders orders s
  end.

(** The state of the lock table after, the verdict, and the details of the
    deadlock or the autovacuum worker in the way.  [possible0]: what the array of
    possible constraints holds from earlier. *)
Definition DeadLockCheck (s : lmgr) (proc : Z) (possible0 : list EDGE) : cres (lmgr * DeadLockState * list DEADLOCK_INFO * option Z) :=
  let* (st, failed) := DeadLockCheckRecurse s recurse_fuel proc
      {| curConstraints := []; possibleConstraints := possible0; nPossibleConstraints := 0; waitOrders := []; ck_autovac := None |} in
  if failed then
    let* (res, autovac) := FindLockCycle s [] proc (ck_autovac st) in
    match res with
    | None => Elog "deadlock seems to have disappeared"
    | Some (details, _) => Ret (s, DS_HARD_DEADLOCK, details, autovac)
    end
  else
    let* s := apply_orders (waitOrders st) s in
    let verdict := if 0 <? zlen (waitOrders st) then DS_SOFT_DEADLOCK
                   else if bool_decide (ck_autovac st <> None) then DS_BLOCKED_BY_AUTOVACUUM else DS_NO_DEADLOCK in
    Ret (s, verdict, [], ck_autovac st).
End detector.

(** What [ProcSleep] reports when it finds a two-way deadlock itself. *)
Definition RememberSimpleDeadLock (s : lmgr) (proc1 lockmode : Z) (tag : LOCKTAG) (proc2 : Z) : list DEADLOCK_INFO :=
  match waitLock (allProcs s proc2) with
  | Some tag2 =>
      [ {| info_locktag := tag; info_lockmode := lockmode; info_pid := pid (allProcs s proc1) |};
        {| info_locktag := tag2; info_lockmode := waitLockMode (allProcs s proc2); info_pid := pid (allProcs s proc2) |} ]
  | None => []
  end.

(** The timeout handler of a waiting process: look for a deadlock, and leave the
    queue if there is one that cannot be resolved. *)
Definition CheckDeadLock (MaxBackends : Z) (vacuumFlags : Z -> Z) (s : lmgr) (MyProc : Z) (possible0 : list EDGE) : cres (lmgr * DeadLockState) :=
  if negb (links (allProcs s MyProc)) then Ret (s, DS_NOT_YET_CHECKED)
  else
    let* (s, verdict, _, _) := DeadLockCheck MaxBackends vacuumFlags MyProc s MyProc possible0 in
    match verdict with
    | DS_HARD_DEADLOCK => let* s := RemoveFromWaitQueue s MyProc MyProc in Ret (s, verdict)
    | _ => Ret (s, verdict)
    end.
