(* ===== verification/DeadlockCycle.v ===== *)
(** * The deadlock detector: searching for a cycle

    The waits-for graph between lock groups, and the proof that [FindLockCycle]
    returns, finds a cycle through its start exactly when there is one, and
    describes the cycle it found. *)
From stdpp Require Import list gmap functions relations.
From S2P Require Import Prelude LockModes LockTable LockInvariant LockOps Deadlock.

(** The elements before the first that satisfies the predicate. *)
Fixpoint until (P : Z -> bool) (l : list Z) : list Z :=
  match l with [] => [] | x :: l => if P x then [] else x :: until P l end.

Lemma elem_of_until P l x : x ∈ until P l -> x ∈ l /\ P x = false.
Proof.
  induction l as [|y l IH]; cbn [until]; [by intros H%elem_of_nil|].
  destruct (P y) eqn:E; [by intros H%elem_of_nil|]. intros [->|H]%elem_of_cons; [set_solver|]. destruct (IH H). set_solver.
Qed.

Section graph.
Context (s : lmgr) (orders : list WAIT_ORDER).

(** The processes that stand before a member [c] of group [g] in the queue of a
    lock: in the order proposed for it if there is one, else as they are. *)
Definition ahead_of (c g : Z) (tag : LOCKTAG) (L : LOCK) : list Z :=
  match List.find (fun o => bool_decide (wo_lock o = tag)) orders with
  | Some o => until (fun p => leader_of s p =? g) (wo_procs o)
  | None =>
      match (match lockGroupLeader (allProcs s c) with None => Some c | Some _ => last_group_member s g (waitProcs L) end) with
      | Some last => until (fun p => p =? last) (waitProcs L)
      | None => []
      end
  end.

(** Process [c] awaits lock [tag], which group [h] holds in a conflicting mode. *)
Definition hard_wait (c g h : Z) (tag : LOCKTAG) : Prop :=
  exists L proc lm, waitLock (allProcs s c) = Some tag /\ LockHash s !! tag = Some L /\ proc ∈ procLocks L /\
    leader_of s proc = h /\ h <> g /\ holds s tag proc lm = true /\ conf (waits_mode s c) lm = true.

(** Process [c] awaits lock [tag], and group [h] has a conflicting request ahead. *)
Definition soft_wait (c g h : Z) (tag : LOCKTAG) : Prop :=
  exists L proc, waitLock (allProcs s c) = Some tag /\ LockHash s !! tag = Some L /\ proc ∈ ahead_of c g tag L /\
    leader_of s proc = h /\ h <> g /\ conf (waits_mode s c) (waits_mode s proc) = true.

(** A process through which group [g] waits. *)
Definition waits_for_group (c g : Z) : Prop :=
  is_waiting s c = true /\ (c = g \/ c ∈ lockGroupMembers (allProcs s g)).

Definition hard_edge (g h : Z) : Prop := exists c tag, waits_for_group c g /\ hard_wait c g h tag.
Definition wait_edge (g h : Z) : Prop := exists c tag, waits_for_group c g /\ (hard_wait c g h tag \/ soft_wait c g h tag).

(** A path of the graph, with the details and the soft edges the search records. *)
Inductive walk : Z -> Z -> list DEADLOCK_INFO -> list EDGE -> Prop :=
  | walk_nil g : walk g g [] []
  | walk_hard g c h k tag d e :
      waits_for_group c g -> hard_wait c g h tag -> walk h k d e -> walk g k (cycle_info s tag c :: d) e
  | walk_soft g c h k tag d e :
      waits_for_group c g -> soft_wait c g h tag -> walk h k d e ->
      walk g k (cycle_info s tag c :: d) (e ++ [{| waiter := g; blocker := h; elock := tag |}]).

Lemma walk_rtc g k d e : walk g k d e -> rtc wait_edge g k.
Proof.
  induction 1 as [|g c h k tag d e Hc Hh _ IH|g c h k tag d e Hc Hh _ IH]; [done|..]; (eapply rtc_l; [|exact IH]); exists c, tag; auto.
Qed.

Lemma walk_tc g k d e : walk g k d e -> d <> [] -> tc wait_edge g k.
Proof.
  intros H Hd. inversion H; subst; [done|..]; (eapply tc_rtc_r; [apply tc_once; exists c, tag; eauto|by eapply walk_rtc]).
Qed.

(** Without soft edges every edge is hard. *)
Lemma walk_hard_only g k d e : walk g k d e -> e = [] -> rtc hard_edge g k.
Proof.
  induction 1 as [|g c h k tag d e Hc Hh _ IH|g c h k tag d e Hc Hh _ IH]; [done| |intros H; by destruct e].
  intros ->. eapply rtc_l; [by exists c, tag|auto].
Qed.
End graph.

(** ** What a search may assume *)

(** The processes of the graph are known and fit the work arrays, and the proposed
    orders rearrange queues. *)
Record searchable (MaxBackends : Z) (s : lmgr) (orders : list WAIT_ORDER) (U : list Z) : Prop := {
  se_size : zlen U <= MaxBackends;
  se_holders : forall t p, is_Some (ProcLockHash s !! (t, p)) -> p ∈ U /\ leader_of s p ∈ U;
  se_orders : forall o, o ∈ orders -> exists L, LockHash s !! wo_lock o = Some L /\ forall p, p ∈ wo_procs o <-> p ∈ waitProcs L }.

Section search.
Context (MaxBackends : Z) (vacuumFlags : Z -> Z) (MyProc : Z) (s : lmgr) (orders : list WAIT_ORDER) (U : list Z) (start : Z).
Hypothesis ok : lmgr_ok s.
Hypothesis se : searchable MaxBackends s orders U.

(** The visited processes: the start first, each once, all of the graph. *)
Record visited_ok (V : list Z) : Prop := {
  vo_head : head V = Some start;
  vo_nodup : NoDup V;
  vo_known : forall p, p ∈ V -> p ∈ U }.

(** Every process visited since [V] was looked at to the end: its edges lead to
    visited processes, and not to the start. *)
Definition closed (V V' : list Z) : Prop :=
  forall n h, n ∈ V' -> n ∉ V -> wait_edge s orders n h -> h ∈ V' /\ h <> start.

(** What looking at some edges of group [g] has found out: a cycle, or that those
    edges, to the groups of [T], lead to no cycle. *)
Definition looked (depth : Z) (st : search_state) (T : Z -> Prop) (Cyc : list DEADLOCK_INFO -> list EDGE -> Prop) (r : cres (search_state * search_result)) : Prop :=
  exists st' res, r = Ret (st', res) /\ (exists ext, visitedProcs st' = visitedProcs st ++ ext) /\ visited_ok (visitedProcs st') /\
    match res with
    | None => closed (visitedProcs st) (visitedProcs st') /\ forall h, T h -> h ∈ visitedProcs st' /\ h <> start
    | Some (d, e) => Cyc d e /\ zlen e <= zlen d /\ zlen d + depth <= MaxBackends
    end.

Lemma looked_none depth st (T : Z -> Prop) Cyc :
  visited_ok (visitedProcs st) -> (forall h, ~ T h) -> looked depth st T Cyc (Ret (st, None)).
Proof.
  intros V HT. exists st, None. split_and!; [done|exists []; by rewrite app_nil_r|done|by intros n h Hn Hn'|]. intros h Hh. by destruct (HT h).
Qed.

Lemma closed_trans V V1 V2 :
  (forall x, x ∈ V1 -> x ∈ V2) -> closed V V1 -> closed V1 V2 -> closed V V2.
Proof.
  intros Hsub C1 C2 n h Hn Hnv He. destruct (decide (n ∈ V1)) as [H1|H1]; [|by apply (C2 n h)].
  destruct (C1 n h H1 Hnv He). auto.
Qed.

(** Looking at some edges and, if they lead to no cycle, at others. *)
Lemma looked_bind depth st T1 T2 Cyc r k :
  looked depth st T1 Cyc r ->
  (forall st', visited_ok (visitedProcs st') -> zlen (visitedProcs st) <= zlen (visitedProcs st') -> looked depth st' T2 Cyc (k st')) ->
  looked depth st (fun h => T1 h \/ T2 h) Cyc
    (let* (st', res) := r in match res with Some r => Ret (st', Some r) | None => k st' end).
Proof.
  intros (st1 & res & -> & (ext1 & E1) & V1 & H1) Hk. cbn [cbind]. destruct res as [[d e]|].
  { exists st1, (Some (d, e)). split_and!; eauto; by destruct H1 as (? & ? & ?). }
  destruct (Hk st1 V1) as (st2 & res2 & -> & (ext2 & E2) & V2 & H2); [rewrite E1, zlen_app; pose proof (zlen_nonneg ext1); lia|]. exists st2, res2.
  split_and!; [done|exists (ext1 ++ ext2); by rewrite app_assoc, <- E1|done|].
  destruct res2 as [[d e]|]; [done|]. destruct H1 as (C1 & T1'), H2 as (C2 & T2').
  assert (forall x, x ∈ visitedProcs st1 -> x ∈ visitedProcs st2) as Hsub by (intros x; rewrite E2; set_solver).
  split; [by eapply closed_trans|]. intros h [Hh|Hh]; [|auto]. destruct (T1' h Hh). auto.
Qed.

Lemma looked_ext depth st (T T' : Z -> Prop) Cyc r : (forall h, T' h -> T h) -> looked depth st T Cyc r -> looked depth st T' Cyc r.
Proof.
  intros HT (st' & res & -> & E & V & H). exists st', res. split_and!; try done. destruct res as [[]|]; [done|].
  destruct H as (C & H). split; [done|]. auto.
Qed.

(** The search one level deeper, once [low] processes are visited. *)
Definition recurse_ok (depth low : Z) (recurse : Z -> search_state -> cres (search_state * search_result)) : Prop :=
  forall p st, visited_ok (visitedProcs st) -> low <= zlen (visitedProcs st) -> leader_of s p ∈ U ->
    looked (depth + 1) st (fun h => h = leader_of s p) (walk s orders (leader_of s p) start) (recurse p st).

Lemma visited_size V : visited_ok V -> zlen V <= MaxBackends.
Proof.
  intros Hv. pose proof (se_size _ _ _ _ se). assert (length V <= length U)%nat; [|unfold zlen in *; lia].
  apply submseteq_length, NoDup_submseteq; [apply Hv|]. intros x. apply (vo_known _ Hv).
Qed.

Section level.
Context (depth low : Z) (recurse : Z -> search_state -> cres (search_state * search_result)).
Hypothesis depth0 : 0 <= depth.
Hypothesis rec_ok : recurse_ok depth low recurse.

Context (c g : Z) (tag : LOCKTAG) (L : LOCK).
Hypothesis member : waits_for_group s c g.
Hypothesis Htag : waitLock (allProcs s c) = Some tag.
Hypothesis HL : LockHash s !! tag = Some L.

Let cyc (d : list DEADLOCK_INFO) (e : list EDGE) := walk s orders g start d e /\ d <> [].
Let ready (st : search_state) := visited_ok (visitedProcs st) /\ low <= zlen (visitedProcs st).

Lemma holder_known p : p ∈ procLocks L -> leader_of s p ∈ U.
Proof. intros Hp. apply (se_holders _ _ _ _ se tag), (lc_proclocks _ _ _ (lk_grants _ _ _ (ok_locks _ ok tag L HL))), Hp. Qed.

Lemma queued_holder p : p ∈ waitProcs L -> p ∈ procLocks L.
Proof. intros Hp. by apply (lc_waiters _ _ _ (lk_queue _ _ _ (ok_locks _ ok tag L HL))). Qed.

(** Going on after edges that led to no cycle. *)
Lemma looked_step st st1 T1 T2 k :
  (exists ext, visitedProcs st1 = visitedProcs st ++ ext) -> visited_ok (visitedProcs st1) ->
  closed (visitedProcs st) (visitedProcs st1) -> (forall h, T1 h -> h ∈ visitedProcs st1 /\ h <> start) ->
  looked depth st1 T2 cyc k -> looked depth st (fun h => T1 h \/ T2 h) cyc k.
Proof.
  intros Hext V1 C1 H1 Hk.
  destruct Hext as (ext & E). destruct Hk as (st2 & res & -> & (ext2 & E2) & V2 & H2). exists st2, res.
  split_and!; [done|exists (ext ++ ext2); by rewrite app_assoc, <- E|done|]. destruct res as [[]|]; [done|]. destruct H2 as (C2 & H2).
  assert (forall x, x ∈ visitedProcs st1 -> x ∈ visitedProcs st2) as Hsub by (intros x; rewrite E2; set_solver).
  split; [by eapply closed_trans|]. intros h [Hh|Hh]; [|auto]. destruct (H1 h Hh). auto.
Qed.

Definition hard_target (holders : list Z) (h : Z) : Prop :=
  exists proc lm, proc ∈ holders /\ leader_of s proc = h /\ h <> g /\ holds s tag proc lm = true /\ conf (waits_mode s c) lm = true.

Lemma hard_edges_loop_ok holders : forall st, ready st -> (forall p, p ∈ holders -> p ∈ procLocks L) ->
  looked depth st (hard_target holders) cyc (hard_edges_loop vacuumFlags MyProc s recurse c g tag holders st).
Proof.
  induction holders as [|proc holders IH]; intros st (V & Hd) Hin; cbn [hard_edges_loop].
  { apply looked_none; [done|]. by intros h (p & lm & Hp%elem_of_nil & _). }
  assert (proc ∈ procLocks L) as Hproc by (apply Hin; set_solver).
  pose proof (lk_grants _ _ _ (ok_locks _ ok tag L HL)) as G.
  pose proof (proj1 (lc_proclocks _ _ _ G proc) Hproc) as [pl Hpl]. rewrite Hpl. cbn [deref cbind].
  assert (forall st', ready st' -> looked depth st' (hard_target holders) cyc (hard_edges_loop vacuumFlags MyProc s recurse c g tag holders st')) as IH'.
  { intros st' Hr. apply IH; [done|]. intros p Hp. apply Hin. set_solver. }
  destruct (negb (leader_of s proc =? g) && _) eqn:Econd.
  - apply andb_true_iff in Econd as (Hne%negb_true_iff%Z.eqb_neq & (lm & Hlm & Hm)%existsb_exists).
    apply list_elem_of_In, elem_of_lock_modes in Hlm. pose proof (is_mode_nonneg _ Hlm).
    rewrite !land_bit, !negb_involutive in Hm by done. apply andb_true_iff in Hm as (Hm1 & Hm2).
    assert (holds s tag proc lm = true) as Hh by (unfold holds; by rewrite Hpl).
    destruct (rec_ok proc st V Hd (holder_known proc Hproc)) as (st1 & res & -> & (ext & E) & V1 & H1). cbn [cbind].
    destruct res as [[d e]|].
    + destruct H1 as (Hw & H2 & H3). exists st1, (Some (cycle_info s tag c :: d, e)). split_and!; [done|eauto|done|..]; rewrite ?zlen_cons; try lia.
      split; [|done]. eapply walk_hard; [done| |exact Hw]. by exists L, proc, lm.
    + destruct H1 as (C1 & H1). match goal with |- context [hard_edges_loop _ _ _ _ _ _ _ _ ?x] => set (st2 := x) end.
      assert (visitedProcs st2 = visitedProcs st1) as E2 by (unfold st2; by destruct (_ && _)).
      apply (looked_ext depth st (fun h => h = leader_of s proc \/ hard_target holders h)).
      { intros h (p & lm' & [->|Hp]%elem_of_cons & Hl & Hrest); [by left|right]. by exists p, lm'. }
      apply (looked_step st st2); rewrite ?E2; eauto. apply IH'. split; rewrite E2; [done|]. rewrite E, zlen_app. pose proof (zlen_nonneg ext). lia.
  - eapply looked_ext; [|by apply IH']. intros h (p & lm & [->|Hp]%elem_of_cons & Hl & Hne & Hh & Hc); [|by exists p, lm].
    exfalso. apply andb_false_iff in Econd as [Econd|Econd]; [apply negb_false_iff, Z.eqb_eq in Econd; congruence|].
    rewrite <- not_true_iff_false in Econd. apply Econd, existsb_exists. exists lm. destruct (conf_modes _ _ Hc) as (_ & Hlm).
    split; [by apply list_elem_of_In, elem_of_lock_modes|]. rewrite !land_bit, !negb_involutive by (by apply is_mode_nonneg).
    unfold holds in Hh. rewrite Hpl in Hh. by rewrite Hh.
Qed.

Lemma soft_edge_ok proc st :
  ready st -> proc ∈ procLocks L -> proc ∈ ahead_of s orders c g tag L -> leader_of s proc <> g ->
  conf (waits_mode s c) (waits_mode s proc) = true ->
  looked depth st (fun h => h = leader_of s proc) cyc (soft_edge MaxBackends s recurse c g tag proc st).
Proof.
  intros (V & Hd) Hproc Ha Hne Hc. unfold soft_edge.
  destruct (rec_ok proc st V Hd (holder_known proc Hproc)) as (st1 & res & -> & E & V1 & H1). cbn [cbind].
  destruct res as [[d e]|]; [|by exists st1, None].
  destruct H1 as (Hw & H2 & H3). pose proof (zlen_nonneg d). destruct (Z.ltb_spec (zlen e) MaxBackends); [|lia]. cbn [c_assert cbind].
  eexists st1, (Some (_, _)). split_and!; [done|done|done|..]; rewrite ?zlen_app, ?zlen_cons; change (zlen []) with 0; try lia.
  split; [|done]. eapply walk_soft; [done| |exact Hw]. by exists L, proc.
Qed.

Lemma mode_conflict proc :
  is_mode (waits_mode s proc) ->
  negb (Z.land (LOCKBIT_ON (waitLockMode (allProcs s proc))) (conflictTab (waitLockMode (allProcs s c))) =? 0) = conf (waits_mode s c) (waits_mode s proc).
Proof. intros Hm. rewrite Z.land_comm, land_bit, negb_involutive by (by apply is_mode_nonneg). done. Qed.

(** Conflicting requests among some processes. *)
Definition soft_target (procs : list Z) (h : Z) : Prop :=
  exists proc, proc ∈ procs /\ leader_of s proc = h /\ h <> g /\ conf (waits_mode s c) (waits_mode s proc) = true.

Lemma soft_target_cons proc procs h : soft_target (proc :: procs) h -> h = leader_of s proc \/ soft_target procs h.
Proof. intros (p & [->|Hp]%elem_of_cons & <- & H); [by left|right]. by exists p. Qed.

Lemma queued_mode p : p ∈ waitProcs L -> is_mode (waits_mode s p).
Proof. intros Hp. destruct (lc_waiters _ _ _ (lk_queue _ _ _ (ok_locks _ ok tag L HL)) p Hp) as (W & _). apply (wk_mode _ _ _ W). Qed.

(** One process of the queue, and the rest. *)
Lemma soft_step proc rest st k :
  ready st -> proc ∈ waitProcs L -> proc ∈ ahead_of s orders c g tag L -> leader_of s proc <> g ->
  conf (waits_mode s c) (waits_mode s proc) = true -> (forall st', ready st' -> looked depth st' (soft_target rest) cyc (k st')) ->
  looked depth st (soft_target (proc :: rest)) cyc
    (let* (st, res) := soft_edge MaxBackends s recurse c g tag proc st in match res with Some r => Ret (st, Some r) | None => k st end).
Proof.
  intros Hr Hq Ha Hne Hc Hk. eapply looked_ext; [apply soft_target_cons|]. apply looked_bind.
  - apply soft_edge_ok; try done. by apply queued_holder.
  - intros st' V' Hlen. apply Hk. split; [done|]. destruct Hr. lia.
Qed.

Lemma ordered_queue_loop_ok procs : forall st, ready st -> (forall p, p ∈ procs -> p ∈ waitProcs L) ->
  (forall p, p ∈ until (fun p => leader_of s p =? g) procs -> p ∈ ahead_of s orders c g tag L) ->
  looked depth st (soft_target (until (fun p => leader_of s p =? g) procs)) cyc (ordered_queue_loop MaxBackends s recurse c g tag procs st).
Proof.
  induction procs as [|proc procs IH]; intros st Hr Hq Ha; cbn [ordered_queue_loop until].
  { apply looked_none; [apply Hr|]. by intros h (p & Hp%elem_of_nil & _). }
  cbn [until] in Ha. destruct (Z.eqb_spec (leader_of s proc) g) as [El|Hne].
  { apply looked_none; [apply Hr|]. by intros h (p & Hp%elem_of_nil & _). }
  rewrite mode_conflict by (apply queued_mode; set_solver). destruct (conf (waits_mode s c) (waits_mode s proc)) eqn:Ec.
  - apply soft_step; [done|set_solver|set_solver|done|done|]. intros st' Hr'. apply IH; set_solver.
  - eapply looked_ext; [|apply IH; set_solver]. intros h (p & [->|Hp]%elem_of_cons & Hl & Hne' & Hc); [congruence|]. by exists p.
Qed.

Lemma true_queue_loop_ok last procs : forall st, ready st -> (forall p, p ∈ procs -> p ∈ waitProcs L) ->
  (forall p, p ∈ until (fun p => p =? last) procs -> p ∈ ahead_of s orders c g tag L) ->
  looked depth st (soft_target (until (fun p => p =? last) procs)) cyc (true_queue_loop MaxBackends s recurse c g tag last procs st).
Proof.
  induction procs as [|proc procs IH]; intros st Hr Hq Ha; cbn [true_queue_loop until].
  { apply looked_none; [apply Hr|]. by intros h (p & Hp%elem_of_nil & _). }
  cbn [until] in Ha. destruct (Z.eqb_spec proc last) as [El|Hne].
  { apply looked_none; [apply Hr|]. by intros h (p & Hp%elem_of_nil & _). }
  rewrite mode_conflict by (apply queued_mode; set_solver). destruct (conf (waits_mode s c) (waits_mode s proc) && negb (leader_of s proc =? g)) eqn:Ec.
  - apply andb_true_iff in Ec as (Ec & El%negb_true_iff%Z.eqb_neq).
    apply soft_step; [done|set_solver|set_solver|done|done|]. intros st' Hr'. apply IH; set_solver.
  - eapply looked_ext; [|apply IH; set_solver]. intros h (p & [->|Hp]%elem_of_cons & Hl & Hne' & Hc); [|by exists p].
    exfalso. rewrite Hc in Ec. cbn in Ec. apply negb_false_iff, Z.eqb_eq in Ec. congruence.
Qed.

(** Every edge through the member. *)
Lemma FindLockCycleRecurseMember_ok st :
  ready st -> leader_of s c = g -> is_waiting s c = true ->
  looked depth st (fun h => exists tag, hard_wait s c g h tag \/ soft_wait s orders c g h tag) cyc
    (FindLockCycleRecurseMember MaxBackends vacuumFlags MyProc s orders recurse c g st).
Proof.
  intros Hr Hlead Hwait. unfold FindLockCycleRecurseMember. rewrite Htag. cbn [deref cbind]. rewrite HL. cbn [deref cbind].
  apply (looked_ext depth st (fun h => hard_target (procLocks L) h \/ soft_target (ahead_of s orders c g tag L) h)).
  { intros h (tag' & [(L' & p & lm & H1 & H2 & H3 & H4 & H5 & H6 & H7)|(L' & p & H1 & H2 & H3 & H4 & H5 & H6)]).
    - left. assert (tag' = tag) as -> by congruence. assert (L' = L) as -> by congruence. by exists p, lm.
    - right. assert (tag' = tag) as -> by congruence. assert (L' = L) as -> by congruence. by exists p. }
  apply looked_bind; [by apply hard_edges_loop_ok|]. intros st' V' Hlen.
  assert (ready st') as Hr' by (split; [done|]; destruct Hr; lia). unfold ahead_of.
  destruct (List.find _ orders) as [o|] eqn:Eo.
  - apply List.find_some in Eo as Ho. destruct Ho as (Hin%list_elem_of_In & Htg%bool_decide_eq_true).
    destruct (se_orders _ _ _ _ se o Hin) as (L' & HL' & Hperm). rewrite Htg in HL'. assert (L' = L) as -> by congruence.
    apply ordered_queue_loop_ok; [done|by intros p Hp%Hperm|]. intros p Hp. unfold ahead_of. by rewrite Eo.
  - assert (c ∈ waitProcs L) as Hc.
    { unfold is_waiting in Hwait. apply andb_true_iff in Hwait as (Hk & _). destruct (ln_queued _ (ok_links _ ok) c Hk) as (t' & L' & H1 & H2 & H3).
      rewrite Htag in H1. injection H1 as <-. rewrite HL in H2. by injection H2 as <-. }
    assert (exists last, (match lockGroupLeader (allProcs s c) with None => Some c | Some _ => last_group_member s g (waitProcs L) end) = Some last) as (last & Elast).
    { destruct (lockGroupLeader (allProcs s c)) as [l|] eqn:El; [|eauto].
      assert (l = g) as -> by (unfold leader_of in Hlead; by rewrite El in Hlead).
      assert (forall l init, c ∈ l \/ is_Some init -> is_Some (foldl (fun found proc => if bool_decide (lockGroupLeader (allProcs s proc) = Some g) then Some proc else found) init l)) as Hf.
      { clear -El. induction l as [|x l IH]; intros init [Hin|Hin]; cbn [foldl]; [by apply elem_of_nil in Hin|done| |].
        - apply IH. apply elem_of_cons in Hin as [<-|Hin]; [right|by left]. rewrite bool_decide_eq_true_2 by done. eauto.
        - apply IH. right. case_bool_decide; eauto. }
      destruct (Hf (waitProcs L) None (or_introl Hc)) as [last Hlast]. by exists last. }
    assert ((match lockGroupLeader (allProcs s c) with None => Ret c | Some _ => deref (last_group_member s g (waitProcs L)) end) = Ret last) as ->.
    { destruct (lockGroupLeader (allProcs s c)); [by rewrite Elast|congruence]. }
    cbn [cbind]. rewrite Elast. apply true_queue_loop_ok; [done|done|]. intros p Hp. unfold ahead_of. by rewrite Eo, Elast.
Qed.
End level.

Lemma looked_weaken depth st T Cyc Cyc' r : (forall d e, Cyc d e -> Cyc' d e) -> looked depth st T Cyc r -> looked depth st T Cyc' r.
Proof. intros HC (st' & res & -> & E & V & H). exists st', res. split_and!; try done. destruct res as [[]|]; [naive_solver|done]. Qed.

(** A leader's members have it as their leader. *)
Lemma member_leader c g : leader_of s g = g -> c = g \/ c ∈ lockGroupMembers (allProcs s g) -> leader_of s c = g.
Proof.
  intros Hg [->|Hc]; [done|]. apply (gr_members _ (ok_groups _ ok)) in Hc. unfold leader_of. by rewrite Hc.
Qed.

Section explore.
Context (depth low : Z) (recurse : Z -> search_state -> cres (search_state * search_result)) (g : Z).
Hypothesis depth0 : 0 <= depth.
Hypothesis rec_ok : recurse_ok depth low recurse.
Hypothesis lead : leader_of s g = g.

Let cyc (d : list DEADLOCK_INFO) (e : list EDGE) := walk s orders g start d e /\ d <> [].

Definition member_target (c h : Z) : Prop :=
  waits_for_group s c g /\ exists tag, hard_wait s c g h tag \/ soft_wait s orders c g h tag.

Lemma member_ok c st :
  visited_ok (visitedProcs st) -> low <= zlen (visitedProcs st) -> waits_for_group s c g ->
  looked depth st (member_target c) cyc (FindLockCycleRecurseMember MaxBackends vacuumFlags MyProc s orders recurse c g st).
Proof.
  intros V Hd Hc. pose proof Hc as (Hw & Hm). pose proof (member_leader c g lead Hm) as Hl.
  unfold is_waiting in Hw. apply andb_true_iff in Hw as (Hk & _). destruct (ln_queued _ (ok_links _ ok) c Hk) as (tag & L & H1 & H2 & H3).
  eapply looked_ext; [|apply (FindLockCycleRecurseMember_ok depth low recurse depth0 rec_ok c g tag L Hc H1 H2); [done|done|apply Hc]].
  by intros h (_ & H).
Qed.

Lemma members_loop_ok members : forall st, visited_ok (visitedProcs st) -> low <= zlen (visitedProcs st) ->
  (forall c, c ∈ members -> c ∈ lockGroupMembers (allProcs s g)) ->
  looked depth st (fun h => exists c, c ∈ members /\ c <> g /\ member_target c h) cyc (members_loop MaxBackends vacuumFlags MyProc s orders recurse g members st).
Proof.
  induction members as [|c members IH]; intros st V Hd Hin; cbn [members_loop].
  { apply looked_none; [done|]. by intros h (c & Hc%elem_of_nil & _). }
  destruct (is_waiting s c && negb (c =? g)) eqn:Ec.
  - apply andb_true_iff in Ec as (Hw & _).
    eapply looked_ext; [|apply looked_bind; [apply member_ok; [done|done|]|]].
    + intros h (c' & [->|Hc']%elem_of_cons & Hne & Ht); [left; exact Ht|right]. exact (ex_intro _ c' (conj Hc' (conj Hne Ht))).
    + split; [done|]. right. apply Hin. set_solver.
    + intros st' V' Hlen. apply IH; [done|lia|set_solver].
  - eapply looked_ext; [|apply IH; [done|done|set_solver]]. intros h (c' & [->|Hc']%elem_of_cons & Hne & Ht); [|eauto].
    exfalso. destruct Ht as ((Hw & _) & _). rewrite Hw in Ec. cbn in Ec. apply negb_false_iff, Z.eqb_eq in Ec. done.
Qed.

(** Every edge of the group. *)
Lemma explore_ok st :
  visited_ok (visitedProcs st) -> low <= zlen (visitedProcs st) ->
  looked depth st (wait_edge s orders g) cyc
    (let* (st, res) := (if is_waiting s g then FindLockCycleRecurseMember MaxBackends vacuumFlags MyProc s orders recurse g g st else Ret (st, None)) in
     match res with Some r => Ret (st, Some r) | None => members_loop MaxBackends vacuumFlags MyProc s orders recurse g (lockGroupMembers (allProcs s g)) st end).
Proof.
  intros V Hd. eapply looked_ext; [|apply (looked_bind depth st (member_target g) (fun h => exists c, c ∈ lockGroupMembers (allProcs s g) /\ c <> g /\ member_target c h))].
  - intros h (c & tag & (Hw & Hm) & He). destruct (decide (c = g)) as [->|Hne]; [left; split; [by split|eauto]|right].
    destruct Hm as [?|Hm]; [done|]. exists c. split_and!; [done|done|]. split; [split; auto|eauto].
  - destruct (is_waiting s g) eqn:Ew; [apply member_ok; [done|done|by split; [|left]]|].
    apply looked_none; [done|]. intros h ((Hw & _) & _). congruence.
  - intros st' V' Hlen. by apply members_loop_ok; [|lia|].
Qed.
End explore.

(** Marking a process as seen. *)
Lemma visited_snoc V x : visited_ok V -> x ∉ V -> x ∈ U -> visited_ok (V ++ [x]).
Proof.
  intros [H1 H2 H3] Hx HU. constructor.
  - destruct V; [done|]. exact H1.
  - apply NoDup_app. split_and!; [done| |apply NoDup_singleton]. intros y Hy ->%list_elem_of_singleton. done.
  - intros p [Hp| ->%list_elem_of_singleton]%elem_of_app; auto.
Qed.

Lemma FindLockCycleRecurse_ok fuel : forall depth p st,
  0 <= depth -> visited_ok (visitedProcs st) -> depth <= zlen (visitedProcs st) -> leader_of s p ∈ U ->
  zlen U - zlen (visitedProcs st) < Z.of_nat fuel ->
  looked depth st (fun h => h = leader_of s p) (walk s orders (leader_of s p) start)
    (FindLockCycleRecurse MaxBackends vacuumFlags MyProc fuel s orders p depth st).
Proof.
  induction fuel as [|fuel IH]; intros depth p st Hd0 V Hd HU Hfuel.
  { exfalso. assert (length (visitedProcs st) <= length U)%nat; [|unfold zlen in *; lia].
    apply submseteq_length, NoDup_submseteq; [apply V|apply V]. }
  cbn [FindLockCycleRecurse]. set (x := leader_of s p) in *. pose proof (visited_size _ V) as Hsize.
  destruct (bool_decide (x ∈ visitedProcs st)) eqn:Ein.
  - apply bool_decide_eq_true in Ein. destruct (bool_decide (head (visitedProcs st) = Some x)) eqn:Eh.
    + apply bool_decide_eq_true in Eh. rewrite (vo_head _ V) in Eh. injection Eh as Eh.
      destruct (Z.leb_spec depth MaxBackends); [|lia]. cbn [c_assert cbind]. exists st, (Some ([], [])).
      split_and!; [done|exists []; by rewrite app_nil_r|done|rewrite <- Eh; constructor|done|change (zlen []) with 0; lia].
    + apply bool_decide_eq_false in Eh. exists st, None. split_and!; [done|exists []; by rewrite app_nil_r|done|by intros n h Hn Hn'|].
      intros h ->. split; [done|]. intros ->. apply Eh, (vo_head _ V).
  - apply bool_decide_eq_false in Ein. pose proof (visited_snoc _ _ V Ein HU) as V1.
    assert (zlen (visitedProcs st ++ [x]) = zlen (visitedProcs st) + 1) as Hlen1 by (by rewrite zlen_app).
    pose proof (visited_size _ V1). destruct (Z.ltb_spec (zlen (visitedProcs st)) MaxBackends); [|lia]. cbn [c_assert cbind].
    set (st1 := {| visitedProcs := visitedProcs st ++ [x]; blocking_autovacuum_proc := blocking_autovacuum_proc st |}).
    assert (start ∈ visitedProcs st) as Hstart by (apply head_Some_elem_of, (vo_head _ V)).
    destruct (explore_ok depth (zlen (visitedProcs st) + 1) (fun q st => FindLockCycleRecurse MaxBackends vacuumFlags MyProc fuel s orders q (depth + 1) st) x Hd0) with (st := st1) as (st2 & res & -> & (ext & E2) & V2 & H2).
    + intros q st' V' Hd' HU'. apply IH; [lia|done|lia|done|lia].
    + apply leader_idem, ok.
    + done.
    + cbn [st1 visitedProcs]. lia.
    + exists st2, res. cbn [st1 visitedProcs] in E2. split_and!; [done|exists ([x] ++ ext); by rewrite app_assoc|done|].
      destruct res as [[d e]|]; [destruct H2 as ((Hw & _) & H2 & H3); done|]. destruct H2 as (C2 & H2).
      assert (x ∈ visitedProcs st2) as Hx by (rewrite E2; set_solver). split.
      * intros n h Hn Hnv He. destruct (decide (n = x)) as [->|Hne]; [by apply H2|]. apply (C2 n h); [done| |done].
        cbn [st1 visitedProcs]. set_solver.
      * intros h ->. split; [done|]. by intros ->.
Qed.

(** The first call: no process is visited yet. *)
Lemma FindLockCycle_body p autovac :
  leader_of s p = start -> start ∈ U ->
  exists st res, FindLockCycleRecurse MaxBackends vacuumFlags MyProc (search_fuel MaxBackends) s orders p 0
      {| visitedProcs := []; blocking_autovacuum_proc := autovac |} = Ret (st, res) /\
    match res with
    | None => ~ tc (wait_edge s orders) start start
    | Some (d, e) => walk s orders start start d e /\ d <> [] /\ zlen e <= zlen d <= MaxBackends
    end.
Proof.
  intros Hp HU. unfold search_fuel. remember (S (Z.to_nat MaxBackends)) as fuel eqn:Efuel. cbn [FindLockCycleRecurse visitedProcs]. rewrite Hp.
  rewrite bool_decide_eq_false_2 by (by intros H%elem_of_nil). pose proof (se_size _ _ _ _ se).
  assert (1 <= zlen U) by (destruct U as [|y l]; [by apply elem_of_nil in HU|rewrite zlen_cons; pose proof (zlen_nonneg l); lia]).
  change (zlen []) with 0. destruct (Z.ltb_spec 0 MaxBackends); [|lia]. cbn [c_assert cbind visitedProcs blocking_autovacuum_proc app].
  set (st1 := {| visitedProcs := [start]; blocking_autovacuum_proc := autovac |}).
  assert (visited_ok (visitedProcs st1)) as V1.
  { constructor; [done|apply NoDup_singleton|]. intros q ->%list_elem_of_singleton. done. }
  destruct (explore_ok 0 1 (fun q st => FindLockCycleRecurse MaxBackends vacuumFlags MyProc fuel s orders q (0 + 1) st) start ltac:(done)) with (st := st1) as (st2 & res & -> & (ext & E2) & V2 & H2).
  - intros q st' V' Hd' HU'. apply FindLockCycleRecurse_ok; [lia|done|lia|done|]. pose proof (zlen_nonneg (visitedProcs st')). lia.
  - rewrite <- Hp. apply leader_idem, ok.
  - done.
  - done.
  - exists st2, res. split; [done|]. destruct res as [[d e]|]; [destruct H2 as ((Hw & Hd) & H3 & H4); split_and!; [done|done|lia|lia]|].
    destruct H2 as (C2 & H2). assert (forall n h, n ∈ visitedProcs st2 -> wait_edge s orders n h -> h ∈ visitedProcs st2 /\ h <> start) as Hall.
    { intros n h Hn He. destruct (decide (n = start)) as [->|Hne]; [by apply H2|]. apply (C2 n h); [done| |done].
      cbn [st1 visitedProcs]. by rewrite list_elem_of_singleton. }
    intros Hcyc. assert (forall a b, tc (wait_edge s orders) a b -> a ∈ visitedProcs st2 -> b ∈ visitedProcs st2 /\ b <> start) as Htc.
    { intros a b. induction 1 as [a b He|a b c He _ IH]; intros Ha; [by apply (Hall a)|]. apply IH. by apply (Hall a b). }
    destruct (Htc start start Hcyc); [|done]. rewrite E2. set_solver.
Qed.
End search.

(** ** FindLockCycle *)

(** The search returns; it finds a cycle exactly when the group of the process is
    on one, and what it returns describes such a cycle. *)
Lemma FindLockCycle_ok MaxBackends vacuumFlags MyProc s orders U p autovac :
  lmgr_ok s -> searchable MaxBackends s orders U -> leader_of s p ∈ U ->
  exists res autovac', FindLockCycle MaxBackends vacuumFlags MyProc s orders p autovac = Ret (res, autovac') /\
    match res with
    | None => ~ tc (wait_edge s orders) (leader_of s p) (leader_of s p)
    | Some (d, e) => walk s orders (leader_of s p) (leader_of s p) d e /\ d <> [] /\ zlen e <= zlen d <= MaxBackends
    end.
Proof.
  intros ok se HU. unfold FindLockCycle.
  destruct (FindLockCycle_body MaxBackends vacuumFlags MyProc s orders U (leader_of s p) ok se p autovac eq_refl HU) as (st & res & -> & H).
  cbn [cbind]. eauto.
Qed.
