(* ===== verification/DeadlockTopo.v ===== *)
(** * The deadlock detector: sorting a wait queue

    [TopoSort] orders a queue so that every constraint that concerns it holds,
    keeps each lock group together, and fails only if no order satisfies the
    constraints - as long as no group that has to move forward has two processes in
    the queue. *)
From stdpp Require Import list gmap functions.
From S2P Require Import Prelude LockModes LockTable LockInvariant LockOps Deadlock.

Lemma precedes_of_app l1 l2 a b : precedes (l1 ++ l2) a b -> a ∈ l1 \/ precedes l2 a b.
Proof.
  intros (k1 & k2 & E & Ha & Hb). apply app_eq_app in E as (k & [(-> & ->)|(-> & ->)]); [set_solver|].
  apply elem_of_app in Ha as [Ha|Ha]; [by left|]. right. by exists k, k2.
Qed.

Lemma precedes_index l a b i j : NoDup l -> l !! i = Some a -> l !! j = Some b -> precedes l a b -> (i < j)%nat.
Proof.
  intros Hnd Hi Hj (l1 & l2 & -> & Ha & Hb). apply list_elem_of_lookup in Ha as (i' & Hi'), Hb as (j' & Hj').
  assert ((l1 ++ l2) !! i' = Some a) as Hi2 by (rewrite lookup_app_l; [done|by eapply lookup_lt_Some]).
  assert ((l1 ++ l2) !! (length l1 + j')%nat = Some b) as Hj2 by (by rewrite lookup_app_r, Nat.add_sub_swap, Nat.sub_diag by lia).
  rewrite (NoDup_lookup _ _ _ _ Hnd Hi Hi2), (NoDup_lookup _ _ _ _ Hnd Hj Hj2). apply lookup_lt_Some in Hi'. lia.
Qed.

Lemma aget_nat {A} (a : list A) k x : a !! k = Some x -> aget a (Z.of_nat k) = Ret x.
Proof. intros H. unfold aget, zget. destruct (Z.ltb_spec (Z.of_nat k) 0); [lia|]. by rewrite Nat2Z.id, H. Qed.

Lemma aset_nat {A} (a : list A) k x : (k < length a)%nat -> aset a (Z.of_nat k) x = Ret (<[k := x]> a).
Proof.
  intros H. unfold aset, zset. destruct (Z.leb_spec 0 (Z.of_nat k)); [|lia].
  destruct (Z.ltb_spec (Z.of_nat k) (Z.of_nat (length a))); [|lia]. cbn. by rewrite Nat2Z.id.
Qed.

Section toposort.
Context (s : lmgr) (tag : LOCKTAG) (Q : list Z) (cs : list EDGE).
Hypothesis groups : groups_ok (allProcs s).
Hypothesis nodup : NoDup Q.
Hypothesis waiting : forall p, p ∈ Q -> waitLock (allProcs s p) = Some tag.
Hypothesis leaders : forall c, c ∈ cs -> leader_of s (waiter c) = waiter c /\ leader_of s (blocker c) = blocker c /\ waiter c <> blocker c.

Lemma in_group_leader g p : leader_of s g = g -> in_group s g p = (leader_of s p =? g).
Proof.
  intros Hg. unfold in_group. destruct (Z.eqb_spec p g) as [->|Hne]; cbn [orb]; [by rewrite Hg, Z.eqb_refl|].
  case_bool_decide as E.
  - symmetry. apply Z.eqb_eq. unfold leader_of. by rewrite E.
  - symmetry. apply Z.eqb_neq. unfold leader_of. intros Hl. destruct (lockGroupLeader (allProcs s p)) as [l|] eqn:El; simpl in Hl; unfold id in Hl; congruence.
Qed.

Lemma waiting_here p : p ∈ Q -> bool_decide (waitLock (allProcs s p) = Some tag) = true.
Proof. intros H. apply bool_decide_eq_true_2. by apply waiting. Qed.

(** A group with a process in the queue. *)
Definition present (g : Z) : bool := existsb (fun p => leader_of s p =? g) Q.

Lemma present_spec g : present g = true <-> exists p, p ∈ Q /\ leader_of s p = g.
Proof.
  unfold present. rewrite existsb_exists. split; intros (p & Hp & E); exists p; rewrite list_elem_of_In in *; (split; [done|]); by apply Z.eqb_eq.
Qed.

(** The constraint concerns this queue. *)
Definition relevant (c : EDGE) : bool := present (waiter c) && present (blocker c).

(** Process [j] of the queue is the last of its group. *)
Definition is_rep (j : nat) : bool :=
  match Q !! j with Some p => negb (existsb (fun p' => leader_of s p' =? leader_of s p) (drop (S j) Q)) | None => false end.

Lemma is_rep_spec j p : Q !! j = Some p -> is_rep j = true <-> forall j' p', Q !! j' = Some p' -> leader_of s p' = leader_of s p -> (j' <= j)%nat.
Proof.
  intros Hp. unfold is_rep. rewrite Hp, negb_true_iff, <- not_true_iff_false, existsb_exists. split.
  - intros Hn j' p' Hj' E. destruct (decide (j' <= j)%nat) as [|Hgt]; [done|]. exfalso. apply Hn. exists p'. split; [|by apply Z.eqb_eq].
    apply list_elem_of_In, (list_elem_of_lookup_2 _ (j' - S j)). rewrite lookup_drop. by replace (S j + (j' - S j))%nat with j' by lia.
  - intros H (p' & Hin & E%Z.eqb_eq). apply list_elem_of_In, list_elem_of_lookup in Hin as (i & Hi). rewrite lookup_drop in Hi.
    pose proof (H _ _ Hi E). lia.
Qed.

Lemma rep_unique j j' p p' : is_rep j = true -> is_rep j' = true -> Q !! j = Some p -> Q !! j' = Some p' -> leader_of s p = leader_of s p' -> j = j'.
Proof.
  intros H H' Hp Hp' E. rewrite (is_rep_spec j p Hp) in H. rewrite (is_rep_spec j' p' Hp') in H'.
  pose proof (H j' p' Hp' (eq_sym E)). pose proof (H' j p Hp E). lia.
Qed.

(** The representative of a group that is present. *)
Lemma find_waiter_ok g j :
  leader_of s g = g -> (j <= length Q)%nat ->
  (find_waiter s tag Q g j = Ret (-1) /\ forall k p, (k < j)%nat -> Q !! k = Some p -> leader_of s p <> g) \/
  (exists k p, find_waiter s tag Q g j = Ret (Z.of_nat k) /\ (k < j)%nat /\ Q !! k = Some p /\ leader_of s p = g /\
     forall k' p', (k < k' < j)%nat -> Q !! k' = Some p' -> leader_of s p' <> g).
Proof.
  intros Hg. induction j as [|j IH]; intros Hj; cbn [find_waiter]; [left; split; [done|lia]|].
  destruct (lookup_lt_is_Some_2 Q j) as [p Hp]; [lia|]. rewrite Hp. cbn [deref cbind]. rewrite in_group_leader by done.
  destruct (Z.eqb_spec (leader_of s p) g) as [E|E].
  - rewrite waiting_here by (by eapply list_elem_of_lookup_2). cbn [c_assert cbind].
    right. exists j, p. split_and!; [done|lia|done|done|]. intros k' p' Hk'. lia.
  - destruct IH as [(-> & H)|(k & q & -> & H1 & H2 & H3 & H4)]; [lia| |].
    + left. split; [done|]. intros k q Hk Hq. destruct (decide (k = j)) as [->|]; [congruence|]. apply (H k); [lia|done].
    + right. exists k, q. split_and!; [done|lia|done|done|]. intros k' p' Hk' Hp'. destruct (decide (k' = j)) as [->|]; [congruence|].
      apply (H4 k'); [lia|done].
Qed.

Lemma find_waiter_rep g :
  leader_of s g = g ->
  (find_waiter s tag Q g (length Q) = Ret (-1) /\ present g = false) \/
  (exists k p, find_waiter s tag Q g (length Q) = Ret (Z.of_nat k) /\ Q !! k = Some p /\ leader_of s p = g /\ is_rep k = true /\ present g = true).
Proof.
  intros Hg. destruct (find_waiter_ok g (length Q) Hg) as [(-> & H)|(k & p & -> & H1 & H2 & H3 & H4)]; [done| |].
  - left. split; [done|]. destruct (present g) eqn:E; [|done]. apply present_spec in E as (p & Hp & E).
    apply list_elem_of_lookup in Hp as (k & Hk). destruct (H k p); [by eapply lookup_lt_Some|done|done].
  - right. exists k, p. split_and!; [done|done|done| |].
    + apply (is_rep_spec k p H2). intros j' p' Hj' E. destruct (decide (j' <= k)%nat) as [|Hgt]; [done|].
      destruct (H4 j' p'); [|done|congruence]. apply lookup_lt_Some in Hj'. lia.
    + apply present_spec. exists p. split; [by eapply list_elem_of_lookup_2|done].
Qed.

(** Process [j] of the queue belongs to the group. *)
Definition at_group (j : nat) (g : Z) : bool := match Q !! j with Some p => leader_of s p =? g | None => false end.

(** The rest of the search for a blocker marks the other members. *)
Lemma find_blocker_marks g k kk : forall before,
  leader_of s g = g -> kk <> -1 -> (k <= length Q)%nat -> length before = length Q ->
  (forall j, (j < k)%nat -> at_group j g = true -> exists b, before !! j = Some b /\ b <= 0) ->
  exists before', find_blocker s tag Q g k kk before = Ret (kk, before') /\ length before' = length Q /\
    forall j, before' !! j = if bool_decide (j < k)%nat && at_group j g then Some (-1) else before !! j.
Proof.
  induction k as [|k IH]; intros before Hg Hkk Hk Hlen Hle; cbn [find_blocker]; [by exists before|].
  destruct (lookup_lt_is_Some_2 Q k) as [p Hp]; [lia|]. rewrite Hp. cbn [deref cbind]. rewrite in_group_leader by done. 
  assert (at_group k g = (leader_of s p =? g)) as Hat by (unfold at_group; by rewrite Hp).
  destruct (leader_of s p =? g) eqn:E.
  - rewrite waiting_here by (by eapply list_elem_of_lookup_2). cbn [c_assert cbind]. destruct (Z.eqb_spec kk (-1)); [done|]. destruct (Hle k) as (b & Hb & Hb0); [lia|done|].
    rewrite (aget_nat before k b Hb). cbn [cbind]. destruct (Z.leb_spec b 0); [|lia]. cbn [c_assert cbind].
    rewrite aset_nat by lia.
    cbn [cbind]. destruct (IH (<[k := -1]> before)) as (before' & -> & Hlen' & H'); [done|done|lia|by rewrite length_insert| |].
    { intros j Hj Hgj. rewrite list_lookup_insert_ne by lia. apply Hle; [lia|done]. }
    exists before'. split_and!; [done|done|]. intros j. rewrite H'. destruct (decide (j = k)) as [->|Hne].
    + rewrite (bool_decide_eq_false_2 (k < k)%nat), (bool_decide_eq_true_2 (k < S k)%nat), Hat by lia. cbn. apply list_lookup_insert_eq. lia.
    + rewrite list_lookup_insert_ne by done. by rewrite (bool_decide_ext (j < S k)%nat (j < k)%nat) by lia.
  - destruct (IH before) as (before' & -> & Hlen' & H'); [done|done|lia|done|intros j Hj; apply Hle; lia|].
    exists before'. split_and!; [done|done|]. intros j. rewrite H'. destruct (decide (j = k)) as [->|Hne].
    + by rewrite Hat, !andb_false_r.
    + by rewrite (bool_decide_ext (j < S k)%nat (j < k)%nat) by lia.
Qed.

(** The search for a blocker finds the representative and marks the others. *)
Lemma find_blocker_from g k : forall before,
  leader_of s g = g -> (k <= length Q)%nat -> length before = length Q ->
  (forall j, is_rep j = false -> at_group j g = true -> exists b, before !! j = Some b /\ b <= 0) ->
  (forall j, (k <= j)%nat -> at_group j g = false) ->
  (find_blocker s tag Q g k (-1) before = Ret (-1, before) /\ forall j, at_group j g = false) \/
  (exists r before', find_blocker s tag Q g k (-1) before = Ret (Z.of_nat r, before') /\ length before' = length Q /\
     at_group r g = true /\ is_rep r = true /\
     forall j, before' !! j = if at_group j g && negb (is_rep j) then Some (-1) else before !! j).
Proof.
  induction k as [|k IH]; intros before Hg Hk Hlen Hle Hafter; cbn [find_blocker].
  { left. split; [done|]. intros j. apply Hafter. lia. }
  destruct (lookup_lt_is_Some_2 Q k) as [p Hp]; [lia|]. rewrite Hp. cbn [deref cbind]. rewrite in_group_leader by done. 
  assert (at_group k g = (leader_of s p =? g)) as Hat by (unfold at_group; by rewrite Hp).
  destruct (leader_of s p =? g) eqn:E; cbn [Z.eqb].
  - rewrite waiting_here by (by eapply list_elem_of_lookup_2). cbn [c_assert cbind].
    right. assert (is_rep k = true) as Hrep.
    { apply (is_rep_spec k p Hp). intros j' p' Hj' E'. destruct (decide (j' <= k)%nat) as [|Hgt]; [done|].
      assert (at_group j' g = false) as Hf by (apply Hafter; lia). unfold at_group in Hf. rewrite Hj' in Hf. apply Z.eqb_eq in E. apply Z.eqb_neq in Hf. congruence. }
    assert (forall j, at_group j g = true -> is_rep j = true -> j = k) as Huniq.
    { intros j Hj Hr. unfold at_group in Hj. destruct (Q !! j) as [q|] eqn:Hq; [|done]. apply Z.eqb_eq in Hj, E. eapply rep_unique; [done|done|done|done|congruence]. }
    destruct (find_blocker_marks g k (Z.of_nat k) before) as (before' & -> & Hlen' & H'); [done|lia|lia|done| |].
    { intros j Hj Hgj. apply Hle; [|done]. destruct (is_rep j) eqn:Er; [|done]. pose proof (Huniq j Hgj Er). lia. }
    exists k, before'. split_and!; [done|done|done|done|]. intros j. rewrite H'.
    destruct (at_group j g) eqn:Eg; [|by rewrite andb_false_r]. rewrite andb_true_r. cbn [andb].
    destruct (is_rep j) eqn:Er; cbn [negb].
    + pose proof (Huniq j Eg Er). subst j. by rewrite bool_decide_eq_false_2 by lia.
    + rewrite bool_decide_eq_true_2; [done|]. destruct (decide (j < k)%nat) as [|Hge]; [done|].
      assert (j <> k) by congruence. rewrite Hafter in Eg by lia. done.
  - apply IH; [done|lia|done|done|]. intros j Hj. destruct (decide (j = k)) as [->|]; [done|]. apply Hafter. lia.
Qed.

(** ** The constraints in the arrays *)

Definition relevant_at (i : nat) : bool := match cs !! i with Some c => relevant c | None => false end.
Definition waiter_at (i : nat) (g : Z) : bool := match cs !! i with Some c => waiter c =? g | None => false end.
Definition blocker_at (i : nat) (g : Z) : bool := match cs !! i with Some c => blocker c =? g | None => false end.

(** The first [m] constraints that say the group must come after another, the last first. *)
Definition after_list (m : nat) (g : Z) : list nat := rev (List.filter (fun i => relevant_at i && blocker_at i g) (seq 0 m)).

(** Some constraint among the first [m] says that the group must come after another. *)
Definition marked (m : nat) (g : Z) : bool := existsb (fun i => relevant_at i && blocker_at i g) (seq 0 m).

(** The list of constraints that starts at [k]. *)
Inductive chain (link : list Z) : Z -> list nat -> Prop :=
  | chain_nil : chain link 0 []
  | chain_cons i k l : link !! i = Some k -> chain link k l -> chain link (Z.of_nat i + 1) (i :: l).

Lemma chain_insert link m x k l : chain link k l -> (forall i, i ∈ l -> i <> m) -> chain (<[m := x]> link) k l.
Proof.
  induction 1 as [|i k l Hi _ IH]; intros Hl; [constructor|]. eapply chain_cons; [|apply IH; set_solver].
  rewrite list_lookup_insert_ne; [done|]. assert (i <> m) by (apply Hl; set_solver). done.
Qed.

Lemma after_list_lt m g i : i ∈ after_list m g -> (i < m)%nat.
Proof. unfold after_list. rewrite list_elem_of_In, <- in_rev, List.filter_In, in_seq. lia. Qed.

Lemma after_list_S m g : after_list (S m) g = if relevant_at m && blocker_at m g then m :: after_list m g else after_list m g.
Proof.
  unfold after_list. rewrite seq_S, List.filter_app. cbn [List.filter Nat.add]. destruct (relevant_at m && blocker_at m g).
  - by rewrite rev_app_distr.
  - by rewrite app_nil_r.
Qed.

Lemma marked_S m g : marked (S m) g = marked m g || (relevant_at m && blocker_at m g).
Proof. unfold marked. rewrite seq_S, existsb_app. cbn. by rewrite orb_false_r. Qed.

(** How many of the first [m] constraints say that the group must come before
    another that satisfies [alive]. *)
Definition before_count (m : nat) (g : Z) (alive : Z -> bool) : Z :=
  countb (fun i => relevant_at i && waiter_at i g && match cs !! i with Some c => alive (blocker c) | None => false end) (seq 0 m).

Lemma before_count_S m g alive :
  before_count (S m) g alive = before_count m g alive +
    (if relevant_at m && waiter_at m g && match cs !! m with Some c => alive (blocker c) | None => false end then 1 else 0).
Proof. unfold before_count. rewrite seq_S, countb_app. cbn. lia. Qed.

(** What the counter of a process is when [m] constraints are entered and the
    groups of [alive] are still to be output. *)
Definition counter (m : nat) (alive : Z -> bool) (j : nat) (p : Z) : Z :=
  if is_rep j then before_count m (leader_of s p) alive else if marked m (leader_of s p) then -1 else 0.

Record arrays_ok (m : nat) (w : topo) : Prop := {
  ar_blen : length (beforeConstraints w) = length Q;
  ar_alen : length (afterConstraints w) = length Q;
  ar_plen : length (pred w) = length cs;
  ar_llen : length (link w) = length cs;
  ar_before : forall j p, Q !! j = Some p -> beforeConstraints w !! j = Some (counter m (fun _ => true) j p);
  ar_after : forall j p, Q !! j = Some p -> exists a, afterConstraints w !! j = Some a /\ chain (link w) a (if is_rep j then after_list m (leader_of s p) else []);
  ar_pred : forall i c, (i < m)%nat -> cs !! i = Some c -> relevant c = true ->
    exists r q, pred w !! i = Some (Z.of_nat r) /\ is_rep r = true /\ Q !! r = Some q /\ leader_of s q = waiter c }.

Lemma arrays_skip m w c : cs !! m = Some c -> relevant c = false -> arrays_ok m w -> arrays_ok (S m) w.
Proof.
  intros Hc Hr [H1 H2 H3 H4 H5 H6 H7]. assert (relevant_at m = false) as Hra by (unfold relevant_at; by rewrite Hc).
  constructor; try done.
  - intros j p Hp. rewrite (H5 j p Hp). unfold counter. rewrite marked_S, before_count_S, Hra. cbn [andb]. by rewrite orb_false_r, Z.add_0_r.
  - intros j p Hp. rewrite after_list_S, Hra. by apply H6.
  - intros i c' Hi Hc' Hr'. destruct (decide (i = m)) as [->|]; [congruence|]. eapply (H7 i c'); [lia|done|done].
Qed.

Lemma at_group_spec j p g : Q !! j = Some p -> at_group j g = (leader_of s p =? g).
Proof. intros Hp. unfold at_group. by rewrite Hp. Qed.

Lemma no_group_absent g : (forall j, at_group j g = false) -> present g = false.
Proof.
  intros H. destruct (present g) eqn:E; [|done]. apply present_spec in E as (p & Hp & E). apply list_elem_of_lookup in Hp as (j & Hj).
  specialize (H j). rewrite (at_group_spec j p g Hj) in H. apply Z.eqb_neq in H. done.
Qed.

Lemma add_constraint_ok m c w :
  cs !! m = Some c -> arrays_ok m w -> exists w', add_constraint s tag Q (Z.of_nat m) c w = Ret w' /\ arrays_ok (S m) w'.
Proof.
  intros Hc A. pose proof (leaders c ltac:(by eapply list_elem_of_lookup_2)) as (Hgw & Hgb & Hne). pose proof A as [H1 H2 H3 H4 H5 H6 H7].
  assert (m < length cs)%nat as Hm by (by eapply lookup_lt_Some). unfold add_constraint.
  destruct (find_waiter_rep (waiter c) Hgw) as [(-> & Hp)|(jj & pj & -> & Hj & Hgj & Hrj & Hp)]; cbn [cbind].
  { exists w. split; [done|]. eapply arrays_skip; [done|unfold relevant; by rewrite Hp|done]. }
  destruct (Z.ltb_spec (Z.of_nat jj) 0); [lia|].
  destruct (find_blocker_from (blocker c) (length Q) (beforeConstraints w)) as [(-> & Hno)|(r & before' & -> & Hlen' & Hgr & Hrr & Hb')]; [done|done|done| | | |]; cbn [cbind].
  { intros j Hrep Hat. destruct (Q !! j) as [p|] eqn:Hq; [|unfold at_group in Hat; by rewrite Hq in Hat].
    eexists. split; [by apply H5|]. unfold counter. rewrite Hrep. destruct (marked m (leader_of s p)); lia. }
  { intros j Hj'. unfold at_group. by rewrite (proj2 (lookup_ge_None Q j)) by lia. }
  { eexists. split; [done|]. eapply (arrays_skip m _ c); [done| |by destruct w]. unfold relevant. rewrite (no_group_absent _ Hno). apply andb_false_r. }
  destruct (Z.ltb_spec (Z.of_nat r) 0); [lia|].
  assert (exists pr, Q !! r = Some pr /\ leader_of s pr = blocker c) as (pr & Hpr & Hlr).
  { unfold at_group in Hgr. destruct (Q !! r) as [q|]; [|done]. exists q. split; [done|]. by apply Z.eqb_eq. }
  assert (relevant c = true) as Hrel. { unfold relevant. rewrite Hp. apply present_spec. exists pr. split; [by eapply list_elem_of_lookup_2|done]. }
  assert (relevant_at m = true) as Hra by (unfold relevant_at; by rewrite Hc).
  assert (before' !! jj = Some (before_count m (waiter c) (fun _ => true))) as Hbj.
  { rewrite Hb', Hrj, andb_false_r, (H5 jj pj Hj). unfold counter. by rewrite Hrj, Hgj. }
  rewrite (aget_nat _ _ _ Hbj). cbn [cbind]. assert (jj < length Q)%nat as Hjl by (by eapply lookup_lt_Some).
  assert (r < length Q)%nat as Hrl by (by eapply lookup_lt_Some).
  rewrite aset_nat by lia. cbn [cbind]. rewrite aset_nat by lia. cbn [cbind]. destruct (H6 r pr Hpr) as (a & Ha & Hch). rewrite Hrr in Hch.
  rewrite (aget_nat _ _ _ Ha). cbn [cbind]. rewrite aset_nat by lia. cbn [cbind]. rewrite aset_nat by lia. cbn [cbind].
  eexists. split; [done|]. constructor; cbn [beforeConstraints afterConstraints pred link]; rewrite ?length_insert; try done.
  - intros j p Hq. unfold counter. rewrite marked_S, before_count_S, Hra. unfold waiter_at, blocker_at. rewrite Hc. cbn [andb].
    destruct (decide (j = jj)) as [->|Hjj].
    + rewrite list_lookup_insert_eq by lia. assert (p = pj) as -> by congruence. rewrite Hrj, Hgj, Z.eqb_refl. done.
    + rewrite list_lookup_insert_ne by done. rewrite Hb', (at_group_spec j p _ Hq), (H5 j p Hq). unfold counter. destruct (is_rep j) eqn:Erep.
      * rewrite andb_false_r. destruct (Z.eqb_spec (waiter c) (leader_of s p)) as [E|E]; [|cbn; by rewrite Z.add_0_r].
        exfalso. apply Hjj. eapply rep_unique; [done|done|done|done|congruence].
      * cbn [negb]. rewrite andb_true_r. rewrite (Z.eqb_sym (blocker c)). by destruct (leader_of s p =? blocker c); [rewrite orb_true_r|rewrite orb_false_r].
  - intros j p Hq. rewrite after_list_S, Hra. unfold blocker_at. rewrite Hc. cbn [andb]. destruct (decide (j = r)) as [->|Hjr].
    + assert (p = pr) as -> by congruence. rewrite list_lookup_insert_eq by lia. exists (Z.of_nat m + 1). split; [done|].
      rewrite Hrr, Hlr, Z.eqb_refl. eapply chain_cons; [apply list_lookup_insert_eq; lia|]. rewrite <- Hlr. apply chain_insert; [done|].
      intros i Hi%after_list_lt. lia.
    + rewrite list_lookup_insert_ne by done. destruct (H6 j p Hq) as (a' & Ha' & Hch'). exists a'. split; [done|].
      destruct (is_rep j) eqn:Erep; [|by apply chain_insert; [done|set_solver]].
      destruct (Z.eqb_spec (blocker c) (leader_of s p)) as [E|E].
      * exfalso. apply Hjr. eapply rep_unique; [done|done|done|done|congruence].
      * apply chain_insert; [done|]. intros i Hi%after_list_lt. lia.
  - intros i c' Hi Hc' Hr'. destruct (decide (i = m)) as [->|Him].
    + assert (c' = c) as -> by congruence. exists jj, pj. rewrite list_lookup_insert_eq by lia. done.
    + rewrite list_lookup_insert_ne by done. eapply (H7 i c'); [lia|done|done].
Qed.

Lemma add_constraints_ok rest : forall m w,
  drop m cs = rest -> (m <= length cs)%nat -> arrays_ok m w -> exists w', add_constraints s tag Q rest (Z.of_nat m) w = Ret w' /\ arrays_ok (length cs) w'.
Proof.
  induction rest as [|c rest IH]; intros m w Hd Hm A; cbn [add_constraints].
  - exists w. split; [done|]. assert (length (drop m cs) = 0%nat) as Hz by (by rewrite Hd). rewrite length_drop in Hz.
    by replace (length cs) with m by lia.
  - assert (cs !! m = Some c) as Hc. { rewrite <- (Nat.add_0_r m), <- lookup_drop, Hd. done. }
    destruct (add_constraint_ok m c w Hc A) as (w' & -> & A'). cbn [cbind]. replace (Z.of_nat m + 1) with (Z.of_nat (S m)) by lia.
    apply IH; [|apply lookup_lt_Some in Hc; lia|done]. rewrite <- Nat.add_1_r, <- drop_drop, Hd. done.
Qed.

Lemma arrays_init :
  arrays_ok 0 {| beforeConstraints := replicate (length Q) 0; afterConstraints := replicate (length Q) 0;
                 pred := replicate (length cs) 0; link := replicate (length cs) 0 |}.
Proof.
  constructor; cbn [beforeConstraints afterConstraints pred link]; rewrite ?length_replicate; try done.
  - intros j p Hp. apply lookup_lt_Some in Hp. unfold counter, before_count, marked. cbn. rewrite lookup_replicate_2 by done. by destruct (is_rep j).
  - intros j p Hp. apply lookup_lt_Some in Hp. exists 0. rewrite lookup_replicate_2 by done. split; [done|]. destruct (is_rep j); constructor.
  - intros i c Hi. lia.
Qed.

(** ** Output *)

(** A group that has to come before another has one process in the queue. *)
Definition single_waiters : Prop := forall c j, c ∈ cs -> relevant c = true -> at_group j (waiter c) = true -> is_rep j = true.

Let N := length cs.

(** The queue with the groups that are output taken out. *)
Definition left (alive : Z -> bool) (l : list Z) : list (option Z) := map (fun p => if alive (leader_of s p) then Some p else None) l.

Definition without (alive : Z -> bool) (g : Z) : Z -> bool := fun x => alive x && negb (x =? g).

Lemma left_lookup alive l j : left alive l !! j = (fun p => if alive (leader_of s p) then Some p else None) <$> (l !! j).
Proof. unfold left. apply list_lookup_fmap. Qed.

Lemma skip_output_ok alive n :
  (n <= length Q)%nat -> (exists j p, (j < n)%nat /\ Q !! j = Some p /\ alive (leader_of s p) = true) ->
  exists n', skip_output (left alive Q) n = Ret n' /\ (n' <= n)%nat /\
    (forall j p, (n' <= j < n)%nat -> Q !! j = Some p -> alive (leader_of s p) = false) /\
    (exists j p, (j < n')%nat /\ Q !! j = Some p /\ alive (leader_of s p) = true).
Proof.
  induction n as [|n IH]; intros Hn (j & p & Hj & Hp & Ha); [lia|]. cbn [skip_output].
  destruct (lookup_lt_is_Some_2 Q n) as [q Hq]; [lia|]. rewrite left_lookup, Hq. cbn [fmap option_fmap option_map deref cbind].
  destruct (alive (leader_of s q)) eqn:Eq.
  - exists (S n). split_and!; [done|lia|lia|eauto].
  - destruct IH as (n' & -> & H1 & H2 & H3); [lia| |].
    + exists j, p. split_and!; [|done|done]. destruct (decide (j = n)) as [->|]; [congruence|lia].
    + exists n'. split_and!; [done|lia| |done]. intros j' p' Hj' Hp'. destruct (decide (j' = n)) as [->|]; [congruence|]. apply (H2 j'); [lia|done].
Qed.

Lemma find_candidate_ok alive before n :
  (n <= length Q)%nat -> (forall j p, Q !! j = Some p -> before !! j = Some (counter N alive j p)) ->
  (find_candidate (left alive Q) before n = Ret None /\
     forall j p, (j < n)%nat -> Q !! j = Some p -> alive (leader_of s p) = true -> counter N alive j p <> 0) \/
  (exists j p, find_candidate (left alive Q) before n = Ret (Some j) /\ (j < n)%nat /\ Q !! j = Some p /\
     alive (leader_of s p) = true /\ counter N alive j p = 0 /\
     forall k q, (j < k < n)%nat -> Q !! k = Some q -> alive (leader_of s q) = true -> counter N alive k q <> 0).
Proof.
  intros Hn Hb. induction n as [|n IH]; cbn [find_candidate]; [left; split; [done|lia]|].
  destruct (lookup_lt_is_Some_2 Q n) as [q Hq]; [lia|]. rewrite left_lookup, Hq, (Hb n q Hq). cbn [fmap option_fmap option_map deref cbind].
  destruct (alive (leader_of s q)) eqn:Eq; [destruct (Z.eqb_spec (counter N alive n q) 0) as [Ec|Ec]|].
  - right. exists n, q. rewrite bool_decide_eq_true_2 by done. split_and!; [done|lia|done|done|done|intros k q' Hk; lia].
  - rewrite andb_false_r. destruct IH as [(-> & H)|(j & p & -> & H1 & H2 & H3 & H4 & H5)]; [lia| |].
    2:{ right. exists j, p. split_and!; [done|lia|done|done|done|]. intros k q' Hk Hq' Ha. destruct (decide (k = n)) as [->|]; [congruence|]. apply H5; [lia|done|done]. }
    left. split; [done|]. intros j p Hj Hp Ha. destruct (decide (j = n)) as [->|]; [congruence|]. apply H; [lia|done|done].
  - rewrite bool_decide_eq_false_2 by naive_solver. cbn [andb]. destruct IH as [(-> & H)|(j & p & -> & H1 & H2 & H3 & H4 & H5)]; [lia| |].
    2:{ right. exists j, p. split_and!; [done|lia|done|done|done|]. intros k q' Hk Hq' Ha. destruct (decide (k = n)) as [->|]; [congruence|]. apply H5; [lia|done|done]. }
    left. split; [done|]. intros j p Hj Hp Ha. destruct (decide (j = n)) as [->|]; [congruence|]. apply H; [lia|done|done].
Qed.

Lemma output_group_ok g alive : forall l n ordering,
  leader_of s g = g -> (forall j p, l !! j = Some p -> (n <= j)%nat -> alive (leader_of s p) = false) ->
  output_group s g (left alive l) n ordering =
    (left (without alive g) l, rev (List.filter (fun p => alive (leader_of s p) && (leader_of s p =? g)) l) ++ ordering).
Proof.
  induction l as [|p l IH]; intros n ordering Hg Hn; [by destruct n|].
  assert (forall x, without alive g x = alive x && negb (x =? g)) as Hwo by done.
  cbn [left map List.filter]. fold (left alive l) (left (without alive g) l). rewrite Hwo.
  destruct n as [|n].
  { assert (alive (leader_of s p) = false) as -> by (apply (Hn 0%nat p); [done|lia]). cbn [andb output_group].
    assert (output_group s g (left alive l) 0 ordering = (left alive l, ordering)) as E0 by (by destruct (left alive l)).
    rewrite IH in E0; [|done|intros j q Hq _; apply (Hn (S j) q); [done|lia]]. injection E0 as E1 E2. by rewrite E1, E2. }
  assert (forall j q, l !! j = Some q -> (n <= j)%nat -> alive (leader_of s q) = false) as Hn' by (intros j q Hq Hj; apply (Hn (S j) q); [done|lia]).
  destruct (alive (leader_of s p)) eqn:Ea; cbn [andb output_group].
  - rewrite in_group_leader by done. destruct (leader_of s p =? g) eqn:Eg; cbn [negb].
    + rewrite IH by done. cbn [rev]. by rewrite <- app_assoc.
    + by rewrite IH.
  - by rewrite IH.
Qed.

(** Walking a list of constraints counts each of them off its predecessor. *)
Lemma release_constraints_ok w l : forall fuel k before,
  chain (link w) k l -> (length l <= fuel)%nat ->
  (forall i, i ∈ l -> exists r, pred w !! i = Some (Z.of_nat r) /\ (r < length before)%nat) ->
  exists before', release_constraints fuel w k before = Ret before' /\ length before' = length before /\
    forall j b, before !! j = Some b -> before' !! j = Some (b - countb (fun i => bool_decide (pred w !! i = Some (Z.of_nat j))) l).
Proof.
  induction l as [|i l IH]; intros fuel k before Hch Hf Hpred; inversion Hch as [|? k' ? Hlink Hch']; subst.
  { exists before. assert (release_constraints fuel w 0 before = Ret before) as -> by (by destruct fuel). split_and!; [done|done|].
    intros j b Hb. cbn. by rewrite Z.sub_0_r. }
  destruct fuel as [|fuel]; [cbn in Hf; lia|]. cbn [release_constraints]. destruct (Z.leb_spec (Z.of_nat i + 1) 0); [lia|].
  replace (Z.of_nat i + 1 - 1) with (Z.of_nat i) by lia. destruct (Hpred i) as (r & Hr & Hrl); [set_solver|].
  rewrite (aget_nat _ _ _ Hr). cbn [cbind]. destruct (lookup_lt_is_Some_2 before r Hrl) as [b Hb]. rewrite (aget_nat _ _ _ Hb). cbn [cbind].
  rewrite aset_nat by done. cbn [cbind]. rewrite (aget_nat _ _ _ Hlink). cbn [cbind].
  destruct (IH fuel k' (<[r := b - 1]> before)) as (before' & -> & Hlen & H'); [done|cbn in Hf; lia| |].
  { intros i' Hi'. rewrite length_insert. apply Hpred. set_solver. }
  rewrite length_insert in Hlen. exists before'. split_and!; [done|done|]. intros j bj Hbj. cbn [countb].
  destruct (decide (j = r)) as [->|Hne].
  - assert (bj = b) as -> by congruence. rewrite (H' r (b - 1)) by (by apply list_lookup_insert_eq). rewrite bool_decide_eq_true_2 by done. f_equal. lia.
  - rewrite (H' j bj) by (by rewrite list_lookup_insert_ne). rewrite (bool_decide_eq_false_2 (pred w !! i = _)); [done|].
    rewrite Hr. intros [= E]. lia.
Qed.

Lemma countb_rev {A} (P : A -> bool) l : countb P (rev l) = countb P l.
Proof. induction l as [|x l IH]; [done|]. cbn [rev]. rewrite countb_app, IH. cbn. lia. Qed.

Lemma countb_filter {A} (P R : A -> bool) l : countb P (List.filter R l) = countb (fun x => R x && P x) l.
Proof. induction l as [|x l IH]; [done|]. cbn [List.filter countb]. destruct (R x); cbn [countb andb]; lia. Qed.

(** The counters after a group is output. *)
Lemma counter_release w alive g j p :
  arrays_ok N w -> Q !! j = Some p -> alive g = true ->
  counter N alive j p - countb (fun i => bool_decide (pred w !! i = Some (Z.of_nat j))) (after_list N g) = counter N (without alive g) j p.
Proof.
  intros A Hp Hg. unfold after_list. rewrite countb_rev, countb_filter. unfold counter.
  assert (forall i, i ∈ seq 0 N -> relevant_at i = true -> exists c r q, cs !! i = Some c /\ pred w !! i = Some (Z.of_nat r) /\ is_rep r = true /\ Q !! r = Some q /\ leader_of s q = waiter c) as Hpred.
  { intros i Hi Hr. unfold relevant_at in Hr. destruct (cs !! i) as [c|] eqn:Hc; [|done].
    destruct (ar_pred _ _ A i c) as (r & q & H); [by eapply lookup_lt_Some|done|done|]. exists c, r, q. tauto. }
  destruct (is_rep j) eqn:Er.
  - unfold before_count. assert (forall l, (forall i, i ∈ l -> i ∈ seq 0 N) ->
      countb (fun i => relevant_at i && waiter_at i (leader_of s p) && match cs !! i with Some c => alive (blocker c) | None => false end) l -
      countb (fun i => relevant_at i && blocker_at i g && bool_decide (pred w !! i = Some (Z.of_nat j))) l =
      countb (fun i => relevant_at i && waiter_at i (leader_of s p) && match cs !! i with Some c => without alive g (blocker c) | None => false end) l) as Hl; [|by apply Hl].
    induction l as [|i l IH]; intros Hin; [done|]. cbn [countb]. rewrite <- IH by set_solver.
    destruct (relevant_at i) eqn:Erel; cbn [andb]; [|lia]. destruct (Hpred i) as (c & r & q & Hc & Hr & Hrep & Hq & Hlq); [set_solver|done|].
    unfold waiter_at, blocker_at, without. rewrite Hc, Hr. assert (bool_decide (Some (Z.of_nat r) = Some (Z.of_nat j)) = (waiter c =? leader_of s p)) as ->.
    { destruct (Z.eqb_spec (waiter c) (leader_of s p)) as [E|E].
      - apply bool_decide_eq_true_2. do 2 f_equal. eapply rep_unique; [done|done|done|done|congruence].
      - apply bool_decide_eq_false_2. intros [= E']. assert (r = j) as -> by lia. congruence. }
    destruct (Z.eqb_spec (blocker c) g) as [->|]; cbn [andb negb].
    + rewrite Hg. destruct (waiter c =? leader_of s p); cbn; lia.
    + rewrite andb_true_r. lia.
  - rewrite (proj2 (countb_zero _ _)); [lia|]. intros i Hi. destruct (relevant_at i) eqn:Erel; cbn [andb]; [|done].
    destruct (Hpred i Hi Erel) as (c & r & q & Hc & Hr & Hrep & Hq & Hlq). apply andb_false_iff. right. apply bool_decide_eq_false_2. rewrite Hr.
    intros [= E']. assert (r = j) as -> by lia. congruence.
Qed.
(** Every process of the group waits for the blocker's to come after it. *)
Definition keeps (order : list Z) (c : EDGE) : Prop :=
  forall p q, p ∈ Q -> q ∈ Q -> leader_of s p = waiter c -> leader_of s q = blocker c -> precedes order p q.

(** The processes of a group stand next to each other. *)
Definition adjacent (order : list Z) : Prop :=
  forall g, exists l1 l2 l3, order = l1 ++ l2 ++ l3 /\ (forall p, p ∈ l2 -> leader_of s p = g) /\ (forall p, p ∈ l1 ++ l3 -> leader_of s p <> g).

(** All of the group of [p] stands before [q]. *)
Definition behind_group (p q : Z) : Prop := forall p', p' ∈ Q -> leader_of s p' = leader_of s p -> precedes Q p' q.

(** A constraint says that the group has to move forward. *)
Definition must_move (g : Z) : Prop := exists c, c ∈ cs /\ waiter c = g.

Definition gone (alive : Z -> bool) : list Z := List.filter (fun p => negb (alive (leader_of s p))) Q.

Record output_ok (alive : Z -> bool) (before : list Z) (last : nat) (ordering : list Z) : Prop := {
  ou_blen : length before = length Q;
  ou_before : forall j p, Q !! j = Some p -> before !! j = Some (counter N alive j p);
  ou_last : (last <= length Q)%nat;
  ou_beyond : forall j p, (last <= j)%nat -> Q !! j = Some p -> alive (leader_of s p) = false;
  ou_perm : ordering ≡ₚ gone alive;
  ou_closed : single_waiters -> forall c, c ∈ cs -> relevant c = true -> alive (waiter c) = false -> alive (blocker c) = false;
  ou_keeps : single_waiters -> forall c p q, c ∈ cs -> relevant c = true -> p ∈ ordering -> q ∈ ordering -> leader_of s p = waiter c -> leader_of s q = blocker c -> precedes ordering p q;
  ou_adjacent : adjacent ordering;
  ou_moved : forall p q, p ∈ ordering -> q ∈ Q -> behind_group p q -> alive (leader_of s q) = true \/ precedes ordering q p -> must_move (leader_of s q) }.

Lemma elem_of_gone alive p : p ∈ gone alive <-> p ∈ Q /\ alive (leader_of s p) = false.
Proof. unfold gone. rewrite !list_elem_of_In, List.filter_In, negb_true_iff. done. Qed.

Lemma before_count_zero g alive c : before_count N g alive = 0 -> c ∈ cs -> relevant c = true -> waiter c = g -> alive (blocker c) = false.
Proof.
  unfold before_count. intros H Hc Hr Hw. apply list_elem_of_lookup in Hc as (i & Hi).
  pose proof (proj1 (countb_zero _ _) H i) as Hz. cbv beta in Hz. unfold relevant_at, waiter_at in Hz. rewrite Hi, Hr, Hw, Z.eqb_refl in Hz.
  apply Hz. apply elem_of_seq. apply lookup_lt_Some in Hi. unfold N. lia.
Qed.

Lemma before_count_pos g alive : before_count N g alive <> 0 -> exists c, c ∈ cs /\ relevant c = true /\ waiter c = g /\ alive (blocker c) = true.
Proof.
  unfold before_count. intros H. 
  destruct (existsb (fun i => relevant_at i && waiter_at i g && match cs !! i with Some c => alive (blocker c) | None => false end) (seq 0 N)) eqn:E.
  - apply existsb_exists in E as (i & _ & Hi). unfold relevant_at, waiter_at in Hi. destruct (cs !! i) as [c|] eqn:Hc; [|done].
    rewrite !andb_true_iff, Z.eqb_eq in Hi. exists c. split; [by eapply list_elem_of_lookup_2|]. tauto.
  - exfalso. apply H. apply countb_zero. intros i Hi. apply not_true_iff_false. intros Ht. apply not_true_iff_false in E. apply E.
    apply existsb_exists. exists i. by rewrite <- list_elem_of_In.
Qed.

Lemma unmarked_after g : marked N g = false -> after_list N g = [].
Proof.
  intros H. unfold after_list. destruct (List.filter _ (seq 0 N)) as [|i l] eqn:E; [done|].
  assert (In i (List.filter (fun i => relevant_at i && blocker_at i g) (seq 0 N))) as Hi by (rewrite E; by left). apply List.filter_In in Hi as (Hi & Hr).
  apply not_true_iff_false in H. exfalso. apply H. apply existsb_exists. by exists i.
Qed.

(** What a process without constraints tells about its group. *)
Lemma candidate_free alive j p :
  Q !! j = Some p -> counter N alive j p = 0 ->
  (single_waiters -> forall c, c ∈ cs -> relevant c = true -> waiter c = leader_of s p -> alive (blocker c) = false) /\
  (is_rep j = false -> after_list N (leader_of s p) = []).
Proof.
  intros Hp Hc. unfold counter in Hc. destruct (is_rep j) eqn:Er; (split; [|done || (intros _; apply unmarked_after; by destruct (marked N (leader_of s p)))]).
  - intros _ c Hin Hr Hw. by eapply before_count_zero.
  - intros single c Hin Hr Hw. rewrite (single c j Hin Hr) in Er; [done|]. rewrite (at_group_spec j p _ Hp), Hw. apply Z.eqb_refl.
Qed.

Lemma gone_without alive g :
  gone (without alive g) ≡ₚ List.filter (fun p => alive (leader_of s p) && (leader_of s p =? g)) Q ++ gone alive.
Proof.
  unfold gone. clear nodup waiting. induction Q as [|p l IH]; [done|]. cbn [List.filter]. unfold without in *.
  destruct (alive (leader_of s p)); cbn [andb negb]; [destruct (leader_of s p =? g); cbn [negb]|]; rewrite IH; [done|done|].
  apply Permutation_middle.
Qed.

(** A process alive behind the candidate has to wait for another group to be output. *)
Lemma later_must_move alive j p q :
  Q !! j = Some p -> (forall k r, (j < k)%nat -> Q !! k = Some r -> alive (leader_of s r) = true -> counter N alive k r <> 0) ->
  alive (leader_of s q) = true -> precedes Q p q -> must_move (leader_of s q).
Proof.
  intros Hp Hlater Ha Hpre. assert (q ∈ Q) as Hq by (destruct Hpre as (l1 & l2 & -> & _ & Hq); set_solver).
  apply list_elem_of_lookup in Hq as (k & Hk). pose proof (precedes_index Q p q j k nodup Hp Hk Hpre) as Hjk.
  destruct (find_waiter_rep (leader_of s q)) as [(_ & Hn)|(r & x & _ & Hr & Hlr & Hrep & _)]; [by apply leader_idem| |].
  { assert (present (leader_of s q) = true) as Hy by (apply present_spec; exists q; split; [by eapply list_elem_of_lookup_2|done]). congruence. }
  assert (k <= r)%nat as Hkr by (by apply (proj1 (is_rep_spec r x Hr) Hrep k q)).
  pose proof (Hlater r x ltac:(lia) Hr) as Hc. rewrite Hlr in Hc. specialize (Hc Ha). unfold counter in Hc. rewrite Hrep, Hlr in Hc.
  apply before_count_pos in Hc as (c & Hc & _ & Hw & _). by exists c.
Qed.

Lemma output_step alive before before' last j p ordering :
  output_ok alive before last ordering -> Q !! j = Some p -> alive (leader_of s p) = true -> counter N alive j p = 0 ->
  (forall k q, (j < k)%nat -> Q !! k = Some q -> alive (leader_of s q) = true -> counter N alive k q <> 0) ->
  length before' = length Q -> (forall k q, Q !! k = Some q -> before' !! k = Some (counter N (without alive (leader_of s p)) k q)) ->
  output_ok (without alive (leader_of s p)) before' last
    (rev (List.filter (fun q => alive (leader_of s q) && (leader_of s q =? leader_of s p)) Q) ++ ordering).
Proof.
  intros [O1 O2 O3 O4 O5 O6 O7 O8 O9] Hp Ha Hc Hlater Hlen Hb. set (G := List.filter _ Q). destruct (candidate_free alive j p Hp Hc) as (Hfree & _).
  assert (forall q, q ∈ G -> leader_of s q = leader_of s p) as HG.
  { intros q. unfold G. rewrite list_elem_of_In, List.filter_In, andb_true_iff, Z.eqb_eq. tauto. }
  assert (forall q, q ∈ ordering -> q ∈ Q /\ alive (leader_of s q) = false) as Hord by (intros q; rewrite O5; apply elem_of_gone).
  assert (forall q, q ∈ rev G -> leader_of s q = leader_of s p) as HrG by (intros q; rewrite list_elem_of_In, <- in_rev, <- list_elem_of_In; apply HG).
  constructor; [done|done|done| | | | | |].
  - intros k q Hk Hq. unfold without. by rewrite (O4 k q Hk Hq).
  - rewrite gone_without, O5. fold G. rewrite <- (Permutation_rev G). done.
  - intros single c Hin Hr. unfold without. destruct (Z.eqb_spec (waiter c) (leader_of s p)) as [E|E]; cbn [negb].
    + intros _. by rewrite (Hfree single c Hin Hr E).
    + rewrite andb_true_r. intros Hw. by rewrite (O6 single c Hin Hr Hw).
  - intros single c a b Hin Hr Ha' Hb' Hla Hlb. destruct (leaders c Hin) as (_ & _ & Hne). apply elem_of_app in Ha' as [Ha'|Ha'], Hb' as [Hb'|Hb'].
    + apply HrG in Ha', Hb'. congruence.
    + exists (rev G), ordering. done.
    + exfalso. apply HrG in Hb'. apply Hord in Ha' as (_ & Ha'). rewrite Hla in Ha'. apply (O6 single c Hin Hr) in Ha'. congruence.
    + apply precedes_app. by eapply O7.
  - intros g. destruct (decide (g = leader_of s p)) as [->|Hne].
    + exists [], (rev G), ordering. split_and!; [done|done|]. intros q Hq. apply Hord in Hq as (_ & Hq). congruence.
    + destruct (O8 g) as (l1 & l2 & l3 & -> & H2 & H3). exists (rev G ++ l1), l2, l3. rewrite <- app_assoc. split_and!; [done|done|].
      intros q. rewrite <- app_assoc, elem_of_app. intros [Hq|Hq]; [apply HrG in Hq; congruence|by apply H3].
  - intros a q Haq Hq Hbeh Hor.
    assert (forall x, x ∈ rev G -> alive (leader_of s x) = true) as HaG by (intros x Hx; by rewrite (HrG x Hx)).
    assert (alive (leader_of s q) = true -> leader_of s q <> leader_of s p -> a ∈ rev G -> must_move (leader_of s q)) as Hfresh.
    { intros Hal Hne HaG'. apply (later_must_move alive j p q); [done|done|done|]. apply Hbeh; [by eapply list_elem_of_lookup_2|]. symmetry. by apply HrG. }
    assert (a ∈ rev G -> leader_of s q <> leader_of s p) as Hdiff.
    { intros HaG' E. apply (precedes_irrefl Q q q); [done|..]; (apply Hbeh; [done|]); rewrite (HrG a HaG'); done. }
    apply elem_of_app in Haq as [HaG'|Haq]; destruct Hor as [Hal|Hpre].
    + unfold without in Hal. apply andb_true_iff in Hal as (Hal & _). auto.
    + apply precedes_of_app in Hpre as [Hin|Hpre]; [by destruct (Hdiff HaG'); apply HrG|]. exfalso.
      assert (a ∈ ordering) as Hin by (destruct Hpre as (l1 & l2 & -> & _ & Hin); set_solver). apply Hord in Hin as (_ & Hin). rewrite (HaG a HaG') in Hin. done.
    + apply (O9 a q Haq Hq Hbeh). left. unfold without in Hal. by apply andb_true_iff in Hal as (Hal & _).
    + apply (O9 a q Haq Hq Hbeh). apply precedes_of_app in Hpre as [Hin|Hpre]; [left; by apply HaG|by right].
Qed.

(** Constraints that leave no candidate contradict each other. *)
Lemma stuck_contradiction alive order :
  (exists p, p ∈ Q /\ alive (leader_of s p) = true) ->
  (forall j p, Q !! j = Some p -> alive (leader_of s p) = true -> counter N alive j p <> 0) ->
  order ≡ₚ Q -> ~ (forall c, c ∈ cs -> keeps order c).
Proof.
  intros Hsome Hall Hperm Hk. assert (NoDup order) as Hnd by (by rewrite Hperm).
  assert (forall p, p ∈ Q -> alive (leader_of s p) = true -> exists q, q ∈ Q /\ alive (leader_of s q) = true /\ precedes order p q) as Hnext.
  { intros p Hp Ha. destruct (find_waiter_rep (leader_of s p)) as [(_ & Hn)|(k & r & _ & Hr & Hlr & Hrep & _)]; [by apply leader_idem| |].
    { assert (present (leader_of s p) = true) as Hy by (apply present_spec; eauto). congruence. }
    pose proof (Hall k r Hr) as Hc. rewrite Hlr in Hc. specialize (Hc Ha). unfold counter in Hc. rewrite Hrep, Hlr in Hc.
    apply before_count_pos in Hc as (c & Hc & Hrel & Hw & Hal). unfold relevant in Hrel. apply andb_true_iff in Hrel as (_ & Hpb).
    apply present_spec in Hpb as (q & Hq & Hlq). exists q. split_and!; [done|by rewrite Hlq|]. by apply (Hk c Hc p q). }
  assert (forall n, exists p, p ∈ Q /\ alive (leader_of s p) = true /\ exists l1 l2, order = l1 ++ l2 /\ (n <= length l1)%nat /\ p ∈ l2) as Hfar.
  { induction n as [|n (p & Hp & Ha & l1 & l2 & E & Hl & Hin)].
    - destruct Hsome as (p & Hp & Ha). exists p. split_and!; [done|done|]. exists [], order. split_and!; [done|cbn; lia|by rewrite Hperm].
    - destruct (Hnext p Hp Ha) as (q & Hq & Haq & k1 & k2 & E' & Hpk & Hqk). exists q. split_and!; [done|done|]. exists k1, k2. split_and!; [done| |done].
      rewrite E in E'. apply app_eq_app in E' as (k & [(-> & ->)|(-> & ->)]).
      + exfalso. rewrite E in Hnd. apply NoDup_app in Hnd as (_ & Hnd & _). apply (Hnd p); [set_solver|done].
      + rewrite length_app. destruct k as [|x k]; [|cbn; lia]. exfalso. rewrite app_nil_r in Hpk. rewrite E in Hnd. apply NoDup_app in Hnd as (_ & Hnd & _). by apply (Hnd p). }
  destruct (Hfar (S (length order))) as (p & _ & _ & l1 & l2 & -> & Hl & _). rewrite length_app in Hl. lia.
Qed.
(** What the sort answers. *)
Definition sorted_or_stuck (r : option (list Z)) : Prop :=
  match r with
  | Some order => order ≡ₚ Q /\ adjacent order /\ (single_waiters -> forall c, c ∈ cs -> keeps order c) /\
      (forall p q, p ∈ Q -> q ∈ Q -> behind_group p q -> precedes order q p -> must_move (leader_of s q))
  | None => forall order, order ≡ₚ Q -> ~ (forall c, c ∈ cs -> keeps order c)
  end.

Lemma gone_all alive ordering : ordering ≡ₚ gone alive -> zlen Q <= zlen ordering -> (forall p, p ∈ Q -> alive (leader_of s p) = false) /\ ordering ≡ₚ Q.
Proof.
  intros Hp Hl. unfold zlen in Hl. rewrite (Permutation_length Hp) in Hl. unfold gone in *.
  rewrite Hp. clear Hp nodup waiting. induction Q as [|p l IH]; [split; [set_solver|done]|]. cbn [List.filter length] in *.
  pose proof (List.filter_length_le (fun p => negb (alive (leader_of s p))) l). destruct (alive (leader_of s p)) eqn:E; cbn [negb length] in *; [lia|].
  destruct IH as (H1 & H2); [lia|]. split; [|by rewrite H2]. intros q [->|Hq]%elem_of_cons; [done|by apply H1].
Qed.

Lemma gone_some alive ordering : ordering ≡ₚ gone alive -> zlen ordering < zlen Q -> exists p, p ∈ Q /\ alive (leader_of s p) = true.
Proof.
  intros Hp Hl. unfold zlen in Hl. rewrite (Permutation_length Hp) in Hl. unfold gone in Hl. clear Hp nodup waiting.
  induction Q as [|p l IH]; [cbn in Hl; lia|]. cbn [List.filter length] in *. destruct (alive (leader_of s p)) eqn:E; [exists p; set_solver|].
  cbn [negb length] in Hl. destruct IH as (q & Hq & Ha); [lia|]. exists q. set_solver.
Qed.

(** One round: the candidate's group is output and its constraints are counted off. *)
Lemma output_round w alive before last j p ordering :
  arrays_ok N w -> output_ok alive before last ordering -> Q !! j = Some p -> alive (leader_of s p) = true -> counter N alive j p = 0 ->
  (forall k q, (j < k < last)%nat -> Q !! k = Some q -> alive (leader_of s q) = true -> counter N alive k q <> 0) ->
  exists before' ordering' a,
    output_group s (leader_of s p) (left alive Q) last ordering = (left (without alive (leader_of s p)) Q, ordering') /\
    aget (afterConstraints w) (Z.of_nat j) = Ret a /\ release_constraints (length (link w)) w a before = Ret before' /\
    output_ok (without alive (leader_of s p)) before' last ordering' /\ zlen ordering < zlen ordering'.
Proof.
  intros A O Hp Ha Hc Hlater. destruct (ar_after _ _ A j p Hp) as (a & Haf & Hch).
  assert (chain (link w) a (after_list N (leader_of s p))) as Hchain.
  { destruct (is_rep j) eqn:Er; [done|]. by rewrite (proj2 (candidate_free alive j p Hp Hc) Er). }
  destruct (release_constraints_ok w _ (length (link w)) a before Hchain) as (before' & Hrel & Hlen & Hb').
  { rewrite (ar_llen _ _ A). unfold after_list. rewrite length_rev. pose proof (List.filter_length_le (fun i => relevant_at i && blocker_at i (leader_of s p)) (seq 0 N)) as Hf.
    rewrite length_seq in Hf. exact Hf. }
  { intros i Hi. pose proof (after_list_lt _ _ _ Hi) as Hlt. unfold after_list in Hi. rewrite list_elem_of_In, <- in_rev, List.filter_In in Hi. destruct Hi as (_ & Hi).
    apply andb_true_iff in Hi as (Hi & _). unfold relevant_at in Hi. destruct (cs !! i) as [c|] eqn:Hci; [|done].
    destruct (ar_pred _ _ A i c Hlt Hci Hi) as (r & q & Hr & _ & Hq & _). exists r. split; [done|]. rewrite (ou_blen _ _ _ _ O). by eapply lookup_lt_Some. }
  eexists before', _, a. rewrite output_group_ok; [|by apply leader_idem|intros k q Hq Hk; by eapply (ou_beyond _ _ _ _ O)].
  split_and!; [done|by apply aget_nat|done| |].
  - eapply (output_step alive before before' last j p ordering); [done|done|done|done| |by rewrite Hlen, (ou_blen _ _ _ _ O)|].
    { intros k q Hk Hq Hal. apply Hlater; [|done|done]. split; [done|]. destruct (decide (k < last)%nat); [done|]. rewrite (ou_beyond _ _ _ _ O k q) in Hal; [done|lia|done]. }
    intros k q Hq. rewrite (Hb' k _ (ou_before _ _ _ _ O k q Hq)). f_equal. by apply counter_release.
  - unfold zlen. rewrite length_app, length_rev. assert (p ∈ List.filter (fun q => alive (leader_of s q) && (leader_of s q =? leader_of s p)) Q) as Hin.
    { apply list_elem_of_In, List.filter_In. rewrite Ha, Z.eqb_refl. split; [|done]. apply list_elem_of_In. by eapply list_elem_of_lookup_2. }
    apply list_elem_of_In in Hin. destruct (List.filter _ Q); [done|]. cbn. lia.
Qed.

Lemma topo_output_ok w fuel : forall alive before last ordering,
  arrays_ok N w -> output_ok alive before last ordering -> zlen Q - zlen ordering <= Z.of_nat fuel ->
  exists r, topo_output s fuel w (left alive Q) before last (zlen Q - zlen ordering) ordering = Ret r /\ sorted_or_stuck r.
Proof.
  induction fuel as [|fuel IH]; intros alive before last ordering A O Hf; cbn [topo_output]; destruct (Z.leb_spec (zlen Q - zlen ordering) 0) as [Hd|Hd]; try lia.
  1,2: exists (Some ordering); split; [done|]; destruct (gone_all alive ordering (ou_perm _ _ _ _ O)) as (Hall & Hperm); [lia|]; split_and!; [done|apply O| |intros p q Hp Hq Hb Hpre; eapply (ou_moved _ _ _ _ O p q); [by rewrite Hperm|done|done|by right]];
    intros single c Hc p q Hp Hq Hlp Hlq; (eapply (ou_keeps _ _ _ _ O single c); [done| |by rewrite Hperm|by rewrite Hperm|done|done]);
    unfold relevant; apply andb_true_iff; split; apply present_spec; eauto.
  destruct (gone_some alive ordering (ou_perm _ _ _ _ O)) as (p0 & Hp0 & Ha0); [lia|].
  destruct (skip_output_ok alive last (ou_last _ _ _ _ O)) as (last' & -> & Hle & Hdead & _).
  { apply list_elem_of_lookup in Hp0 as (j0 & Hj0). exists j0, p0. split_and!; [|done|done]. destruct (decide (j0 < last)%nat) as [|Hge]; [done|].
    rewrite (ou_beyond _ _ _ _ O j0 p0) in Ha0; [done|lia|done]. }
  cbn [cbind]. assert (output_ok alive before last' ordering) as O'.
  { destruct O as [O1 O2 O3 O4 O5 O6 O7 O8 O9]. constructor; try done; [lia|]. intros j p Hj Hp. destruct (decide (last <= j)%nat); [by apply (O4 j)|apply (Hdead j); [lia|done]]. }
  destruct (find_candidate_ok alive before last' (ou_last _ _ _ _ O') (ou_before _ _ _ _ O')) as [(-> & Hn)|(j & p & -> & Hj & Hp & Ha & Hc & Hlater)]; cbn [cbind].
  { exists None. split; [done|]. intros order. apply (stuck_contradiction alive); [by exists p0|]. intros j p Hp Ha. destruct (decide (j < last')%nat) as [|Hge]; [by apply Hn|].
    rewrite (ou_beyond _ _ _ _ O' j p) in Ha; [done|lia|done]. }
  rewrite left_lookup, Hp. cbn [fmap option_fmap option_map deref cbind]. rewrite Ha. cbn [deref cbind].
  destruct (output_round w alive before last' j p ordering A O' Hp Ha Hc Hlater) as (before' & ordering' & a & -> & Haf & Hrel & O2 & Hlt).
  rewrite (proj2 (Z.ltb_lt _ _) Hlt), Haf. cbn [c_assert cbind]. rewrite Hrel. cbn [cbind].
  replace (zlen Q - zlen ordering - (zlen ordering' - zlen ordering)) with (zlen Q - zlen ordering') by lia. apply IH; [done|done|lia].
Qed.

Lemma TopoSort_sorts : exists r, TopoSort s tag Q cs = Ret r /\ sorted_or_stuck r.
Proof.
  unfold TopoSort. destruct (add_constraints_ok cs 0 _ eq_refl (Nat.le_0_l _) arrays_init) as (w & Hw & A).
  change (Z.of_nat 0) with 0 in Hw. rewrite Hw. cbn [cbind].
  assert (map Some Q = left (fun _ => true) Q) as -> by done. replace (zlen Q) with (zlen Q - zlen (@nil Z)) by (unfold zlen; cbn [length]; lia).
  apply topo_output_ok; [done| |unfold zlen; cbn [length]; lia]. constructor; [apply A|apply A|done| | |done| | |].
  - intros j p Hj Hp. apply lookup_lt_Some in Hp. lia.
  - unfold gone. clear. induction Q; done.
  - set_solver.
  - intros g. exists [], [], []. set_solver.
  - intros p q Hp%elem_of_nil. done.
Qed.
End toposort.
