(* ===== verification/DeadlockSearch.v ===== *)
(** * The deadlock detector: looking for a configuration without deadlock

    The outer search always returns, stays inside its work arrays, never sees
    inconsistent results, and what it accepts has no cycle through the process it is
    run for nor through any process it moves. *)
From stdpp Require Import list gmap functions relations.
From S2P Require Import Prelude LockModes LockTable LockInvariant LockOps Deadlock DeadlockCycle DeadlockTopo.

(** ** The remembered autovacuum worker does not influence a search *)

Definition agree (r1 r2 : cres (search_state * search_result)) : Prop :=
  match r1, r2 with
  | Ret (st1, res1), Ret (st2, res2) => visitedProcs st1 = visitedProcs st2 /\ res1 = res2
  | Ret _, _ | _, Ret _ => False
  | _, _ => True
  end.

Lemma agree_bind r1 r2 k1 k2 :
  agree r1 r2 -> (forall st1 st2 res, visitedProcs st1 = visitedProcs st2 -> agree (k1 (st1, res)) (k2 (st2, res))) -> agree (cbind r1 k1) (cbind r2 k2).
Proof. intros H Hk. destruct r1 as [[st1 res1]|?|], r2 as [[st2 res2]|?|]; try done. destruct H as (H & ->). by apply Hk. Qed.

Lemma agree_assert b r1 r2 : agree r1 r2 -> agree (c_assert b;; r1) (c_assert b;; r2).
Proof. by destruct b. Qed.

Lemma agree_deref {A} (o : option A) k1 k2 : (forall x, agree (k1 x) (k2 x)) -> agree (let* x := deref o in k1 x) (let* x := deref o in k2 x).
Proof. intros H. destruct o; [apply H|done]. Qed.

Section autovac.
Context (MaxBackends : Z) (vacuumFlags : Z -> Z) (MyProc : Z) (s : lmgr) (orders : list WAIT_ORDER).
Context (recurse : Z -> search_state -> cres (search_state * search_result)).
Hypothesis rec_agree : forall p st1 st2, visitedProcs st1 = visitedProcs st2 -> agree (recurse p st1) (recurse p st2).

Lemma hard_edges_agree c g tag holders : forall st1 st2, visitedProcs st1 = visitedProcs st2 ->
  agree (hard_edges_loop vacuumFlags MyProc s recurse c g tag holders st1) (hard_edges_loop vacuumFlags MyProc s recurse c g tag holders st2).
Proof.
  induction holders as [|p holders IH]; intros st1 st2 E; cbn [hard_edges_loop]; [done|]. apply agree_deref. intros pl.
  destruct (_ && _); [|by apply IH]. apply agree_bind; [by apply rec_agree|]. intros st1' st2' [[d e]|] E'; [done|]. apply IH. by destruct (_ && _).
Qed.

Lemma soft_edge_agree c g tag p st1 st2 : visitedProcs st1 = visitedProcs st2 ->
  agree (soft_edge MaxBackends s recurse c g tag p st1) (soft_edge MaxBackends s recurse c g tag p st2).
Proof.
  intros E. unfold soft_edge. apply agree_bind; [by apply rec_agree|]. intros st1' st2' [[d e]|] E'; [|done]. by apply agree_assert.
Qed.

Lemma ordered_queue_agree c g tag procs : forall st1 st2, visitedProcs st1 = visitedProcs st2 ->
  agree (ordered_queue_loop MaxBackends s recurse c g tag procs st1) (ordered_queue_loop MaxBackends s recurse c g tag procs st2).
Proof.
  induction procs as [|p procs IH]; intros st1 st2 E; cbn [ordered_queue_loop]; [done|]. destruct (_ =? g); [done|]. destruct (negb _); [|by apply IH].
  apply agree_bind; [by apply soft_edge_agree|]. intros st1' st2' [r|] E'; [done|]. by apply IH.
Qed.

Lemma true_queue_agree c g tag last procs : forall st1 st2, visitedProcs st1 = visitedProcs st2 ->
  agree (true_queue_loop MaxBackends s recurse c g tag last procs st1) (true_queue_loop MaxBackends s recurse c g tag last procs st2).
Proof.
  induction procs as [|p procs IH]; intros st1 st2 E; cbn [true_queue_loop]; [done|]. destruct (_ =? last); [done|]. destruct (_ && _); [|by apply IH].
  apply agree_bind; [by apply soft_edge_agree|]. intros st1' st2' [r|] E'; [done|]. by apply IH.
Qed.

Lemma member_agree c g st1 st2 : visitedProcs st1 = visitedProcs st2 ->
  agree (FindLockCycleRecurseMember MaxBackends vacuumFlags MyProc s orders recurse c g st1) (FindLockCycleRecurseMember MaxBackends vacuumFlags MyProc s orders recurse c g st2).
Proof.
  intros E. unfold FindLockCycleRecurseMember. apply agree_deref. intros tag. apply agree_deref. intros L.
  apply agree_bind; [by apply hard_edges_agree|]. intros st1' st2' [r|] E'; [done|]. destruct (List.find _ orders); [by apply ordered_queue_agree|].
  destruct (lockGroupLeader _); [apply agree_deref; intros last|cbn [cbind]]; by apply true_queue_agree.
Qed.

Lemma members_agree g members : forall st1 st2, visitedProcs st1 = visitedProcs st2 ->
  agree (members_loop MaxBackends vacuumFlags MyProc s orders recurse g members st1) (members_loop MaxBackends vacuumFlags MyProc s orders recurse g members st2).
Proof.
  induction members as [|p members IH]; intros st1 st2 E; cbn [members_loop]; [done|]. destruct (_ && _); [|by apply IH].
  apply agree_bind; [by apply member_agree|]. intros st1' st2' [r|] E'; [done|]. by apply IH.
Qed.
End autovac.

Lemma FindLockCycleRecurse_agree MaxBackends vacuumFlags MyProc s orders fuel : forall p depth st1 st2, visitedProcs st1 = visitedProcs st2 ->
  agree (FindLockCycleRecurse MaxBackends vacuumFlags MyProc fuel s orders p depth st1) (FindLockCycleRecurse MaxBackends vacuumFlags MyProc fuel s orders p depth st2).
Proof.
  induction fuel as [|fuel IH]; intros p depth st1 st2 E; cbn [FindLockCycleRecurse]; [done|]. rewrite E. destruct (bool_decide _).
  { destruct (bool_decide _); [by apply agree_assert|done]. }
  apply agree_assert, agree_bind.
  - destruct (is_waiting _ _); [|done]. apply member_agree; [|done]. intros q st st' E'. by apply IH.
  - intros st1' st2' [r|] E'; [done|]. apply members_agree; [|done]. intros q st st' E''. by apply IH.
Qed.

(** ** Soft edges *)

Lemma elem_of_ahead s orders c g t L p :
  (forall o, o ∈ orders -> exists L, LockHash s !! wo_lock o = Some L /\ forall p, p ∈ wo_procs o <-> p ∈ waitProcs L) -> LockHash s !! t = Some L -> p ∈ ahead_of s orders c g t L -> p ∈ waitProcs L.
Proof.
  intros Hord HL. unfold ahead_of. destruct (List.find _ orders) as [o|] eqn:E.
  - apply List.find_some in E as (Hin%list_elem_of_In & Ht%bool_decide_eq_true). destruct (Hord o Hin) as (L' & HL' & Hp).
    rewrite Ht, HL in HL'. injection HL' as <-. intros H%elem_of_until. by apply Hp, H.
  - destruct (match lockGroupLeader _ with Some _ => _ | None => _ end); [|by intros H%elem_of_nil]. intros H%elem_of_until. tauto.
Qed.

Section outer.
Context (MaxBackends : Z) (vacuumFlags : Z -> Z) (MyProc : Z) (s : lmgr) (U : list Z).
Hypothesis ok : lmgr_ok s.
Hypothesis se : searchable MaxBackends s [] U.

(** An edge between two groups that both have processes in the queue of its lock. *)
Record edge_ok (c : EDGE) : Prop := {
  ed_waiter : leader_of s (waiter c) = waiter c;
  ed_blocker : leader_of s (blocker c) = blocker c;
  ed_other : waiter c <> blocker c;
  ed_known : waiter c ∈ U /\ blocker c ∈ U;
  ed_lock : exists L pw pb, LockHash s !! elock c = Some L /\ pw ∈ waitProcs L /\ leader_of s pw = waiter c /\ pb ∈ waitProcs L /\ leader_of s pb = blocker c }.

Lemma queued_known t L p : LockHash s !! t = Some L -> p ∈ waitProcs L -> p ∈ U /\ leader_of s p ∈ U.
Proof.
  intros HL Hp. pose proof (ok_locks _ ok t L HL) as K. apply (se_holders _ _ _ _ se t), (lc_proclocks _ _ _ (lk_grants _ _ _ K)).
  by apply (lc_waiters _ _ _ (lk_queue _ _ _ K)).
Qed.

Lemma waiting_queued c g t L : waits_for_group s c g -> waitLock (allProcs s c) = Some t -> LockHash s !! t = Some L -> c ∈ waitProcs L.
Proof.
  intros (Hw & _) Ht HL. unfold is_waiting in Hw. apply andb_true_iff in Hw as (Hk & _).
  destruct (ln_queued _ (ok_links _ ok) c Hk) as (t' & L' & H1 & H2 & H3). rewrite Ht in H1. injection H1 as <-. rewrite HL in H2. by injection H2 as <-.
Qed.

Lemma queued_waits t L c : LockHash s !! t = Some L -> c ∈ waitProcs L -> waitLock (allProcs s c) = Some t.
Proof. intros HL Hc. apply (wk_lock _ t c). by apply (lc_waiters _ _ _ (lk_queue _ _ _ (ok_locks _ ok t L HL))). Qed.

Lemma walk_edges orders g k d e :
  searchable MaxBackends s orders U -> leader_of s g = g -> walk s orders g k d e -> forall c, c ∈ e -> edge_ok c.
Proof.
  intros se' Hg W. induction W as [g|g c h k t d e Hc Hh _ IH|g c h k t d e Hc Hs _ IH]; [by intros c H%elem_of_nil|..].
  - apply IH. destruct Hh as (L & p & lm & _ & _ & _ & <- & _). apply leader_idem, ok.
  - destruct Hs as (L & p & Ht & HL & Hp & Hlp & Hne & _). assert (leader_of s h = h) as Hh by (rewrite <- Hlp; apply leader_idem, ok).
    intros x [Hx|Hx]%elem_of_app; [by apply IH|]. apply list_elem_of_singleton in Hx as ->.
    pose proof (elem_of_ahead _ _ _ _ _ _ _ (se_orders _ _ _ _ se') HL Hp) as Hq. pose proof (waiting_queued c g t L Hc Ht HL) as Hcq.
    assert (leader_of s c = g) as Hlc by (apply (member_leader s ok c g Hg), Hc). constructor; cbn [waiter blocker elock]; try done.
    + split; [rewrite <- Hlc|rewrite <- Hlp]; by eapply queued_known.
    + by exists L, c, p.
Qed.

(** ** Expanding constraints *)

Definition orders_sum (orders : list WAIT_ORDER) : Z := foldr Z.add 0 (map (fun o => zlen (wo_procs o)) orders).

Definition rearranges (o : WAIT_ORDER) : Prop := exists L, LockHash s !! wo_lock o = Some L /\ wo_procs o ≡ₚ waitProcs L.

Lemma orders_sum_app l1 l2 : orders_sum (l1 ++ l2) = orders_sum l1 + orders_sum l2.
Proof. unfold orders_sum. rewrite map_app. induction (map (fun o => zlen (wo_procs o)) l1) as [|x l IH]; cbn in *; lia. Qed.

(** All the queues together fit, since a process waits in one of them only. *)
Lemma orders_fit orders : NoDup (map wo_lock orders) -> (forall o, o ∈ orders -> rearranges o) -> orders_sum orders <= MaxBackends.
Proof.
  intros Hnd Hr. pose proof (se_size _ _ _ _ se).
  assert (NoDup (concat (map wo_procs orders)) /\ (forall p, p ∈ concat (map wo_procs orders) -> exists o, o ∈ orders /\ waitLock (allProcs s p) = Some (wo_lock o) /\ p ∈ U) /\
    zlen (concat (map wo_procs orders)) = orders_sum orders) as (H1 & H2 & H3).
  { clear H. induction orders as [|o orders IH]; [split_and!; [constructor|by intros p H%elem_of_nil|done]|]. cbn [map concat] in *.
    apply NoDup_cons in Hnd as (Hn & Hnd). destruct IH as (I1 & I2 & I3); [done|set_solver|]. destruct (Hr o) as (L & HL & Hperm); [set_solver|].
    assert (forall p, p ∈ wo_procs o -> waitLock (allProcs s p) = Some (wo_lock o) /\ p ∈ U) as Hin.
    { intros p Hp. rewrite Hperm in Hp. split; [by eapply queued_waits|by eapply queued_known]. }
    split_and!.
    - apply NoDup_app. split_and!; [rewrite Hperm; by apply (lc_queue_nodup _ _ _ (lk_queue _ _ _ (ok_locks _ ok _ L HL)))| |done].
      intros p Hp Hp'. destruct (Hin p Hp) as (Hw & _), (I2 p Hp') as (o' & Ho' & Hw' & _). apply Hn.
      apply list_elem_of_In, in_map_iff. exists o'. split; [congruence|by apply list_elem_of_In].
    - intros p [Hp|Hp]%elem_of_app; [exists o; destruct (Hin p Hp); set_solver|]. destruct (I2 p Hp) as (o' & Ho' & H). exists o'. set_solver.
    - rewrite zlen_app, I3. done. }
  rewrite <- H3. transitivity (zlen U); [|done]. unfold zlen. apply inj_le, submseteq_length, NoDup_submseteq; [done|]. intros p Hp. by destruct (H2 p Hp) as (_ & _ & _ & ?).
Qed.

Lemma orders_count orders : (forall o, o ∈ orders -> 2 <= zlen (wo_procs o)) -> 2 * zlen orders <= orders_sum orders.
Proof.
  induction orders as [|o orders IH]; intros H; [done|]. rewrite zlen_cons. cbn. fold (orders_sum orders).
  specialize (H o) as Ho. pose proof (IH ltac:(set_solver)). pose proof (Ho ltac:(set_solver)). lia.
Qed.

(** An order built from the first [n] constraints, which are all that concern the
    lock. *)
Record order_ok (cs : list EDGE) (o : WAIT_ORDER) (n : nat) (L : LOCK) : Prop := {
  oo_lock : LockHash s !! wo_lock o = Some L;
  oo_sorted : sorted_or_stuck s (waitProcs L) (take n cs) (Some (wo_procs o));
  oo_two : 2 <= zlen (wo_procs o);
  oo_all : forall k c, cs !! k = Some c -> elock c = wo_lock o -> (k < n)%nat }.

(** The orders for the constraints from index [i] on. *)
Record orders_from (cs : list EDGE) (i : nat) (orders : list WAIT_ORDER) : Prop := {
  or_nodup : NoDup (map wo_lock orders);
  or_each : forall o, o ∈ orders -> exists n L, order_ok cs o n L;
  or_cover : forall k c, (i <= k)%nat -> cs !! k = Some c -> exists o, o ∈ orders /\ wo_lock o = elock c }.

(** The queue of some lock cannot be ordered to satisfy the constraints. *)
Definition contradictory (cs : list EDGE) : Prop :=
  exists t L, LockHash s !! t = Some L /\ forall order, order ≡ₚ waitProcs L -> ~ (forall c, c ∈ cs -> keeps s (waitProcs L) order c).

Lemma order_rearranges cs o n L : order_ok cs o n L -> rearranges o.
Proof. intros [H1 H2 _ _]. exists L. split; [done|apply H2]. Qed.

Lemma expand_loop_ok cs i : forall orders,
  (forall c, c ∈ cs -> edge_ok c) -> (i <= length cs)%nat -> orders_from cs i orders ->
  exists r, expand_loop MaxBackends s cs i orders = Ret r /\ match r with Some orders' => orders_from cs 0 orders' | None => contradictory cs end.
Proof.
  induction i as [|i IH]; intros orders Hcs Hi [O1 O2 O3]; cbn [expand_loop]; [eexists; split; [done|]; by constructor|].
  destruct (lookup_lt_is_Some_2 cs i) as [c Hc]; [lia|]. rewrite Hc. cbn [deref cbind].
  destruct (existsb (fun o => bool_decide (wo_lock o = elock c)) orders) eqn:Ex.
  { apply IH; [done|lia|]. constructor; [done|done|]. intros k c' Hk Hc'. destruct (decide (k = i)) as [->|]; [|apply (O3 k); [lia|done]].
    apply existsb_exists in Ex as (o & Ho & E%bool_decide_eq_true). exists o. split; [by apply list_elem_of_In|congruence]. }
  assert (forall o, o ∈ orders -> wo_lock o <> elock c) as Hfresh.
  { intros o Ho E. apply not_true_iff_false in Ex. apply Ex, existsb_exists. exists o. split; [by apply list_elem_of_In|by apply bool_decide_eq_true_2]. }
  destruct (Hcs c) as [H1 H2 H3 H4 (L & pw & pb & HL & Hpw & Hlw & Hpb & Hlb)]; [by eapply list_elem_of_lookup_2|]. rewrite HL. cbn [deref cbind].
  pose proof (ok_locks _ ok _ L HL) as K. pose proof (lc_queue_nodup _ _ _ (lk_queue _ _ _ K)) as Hnd.
  assert (2 <= zlen (waitProcs L)) as Htwo.
  { assert (pw <> pb) by congruence. unfold zlen. assert (length [pw; pb] <= length (waitProcs L))%nat; [|cbn [length] in *; lia].
    apply submseteq_length, NoDup_submseteq; [repeat constructor; set_solver|]. intros x. set_solver. }
  assert (forall o, o ∈ orders -> rearranges o /\ 2 <= zlen (wo_procs o)) as Hrear.
  { intros o Ho. destruct (O2 o Ho) as (n & L' & Hok). split; [by eapply order_rearranges|apply Hok]. }
  assert (orders_sum orders + zlen (waitProcs L) <= MaxBackends) as Hfit.
  { pose proof (orders_fit (orders ++ [{| wo_lock := elock c; wo_procs := waitProcs L |}])) as F. rewrite orders_sum_app in F.
    unfold orders_sum at 2 in F. cbn in F. rewrite Z.add_0_r in F. apply F.
    - rewrite map_app. apply NoDup_app. split_and!; [done| |apply NoDup_singleton]. intros t Ht%list_elem_of_In%in_map_iff ->%list_elem_of_singleton.
      destruct Ht as (o & E & Ho%list_elem_of_In). by apply (Hfresh o Ho).
    - intros o [Ho| ->%list_elem_of_singleton]%elem_of_app; [by apply Hrear|]. by exists L. }
  pose proof (orders_count orders ltac:(intros o Ho; by apply Hrear)). fold (orders_sum orders).
  assert (zlen orders + 1 <= MaxBackends / 2) by (apply Z.div_le_lower_bound; lia).
  rewrite (proj2 (Z.ltb_lt (zlen orders) (MaxBackends / 2))) by lia. cbn [c_assert cbind].
  rewrite (proj2 (Z.leb_le _ _) Hfit). cbn [c_assert cbind].
  destruct (TopoSort_sorts s (elock c) (waitProcs L) (take (S i) cs) (ok_groups _ ok) Hnd) as (r & -> & Hr).
  { intros p Hp. by eapply queued_waits. }
  { intros c' Hc'. assert (c' ∈ cs) as Hin by (rewrite <- (take_drop (S i) cs); set_solver). destruct (Hcs c' Hin). done. }
  cbn [cbind]. destruct r as [procs|]; [|].
  - apply IH; [done|lia|]. constructor.
    + rewrite map_app. apply NoDup_app. split_and!; [done| |apply NoDup_singleton]. intros t Ht%list_elem_of_In%in_map_iff ->%list_elem_of_singleton.
      destruct Ht as (o & E & Ho%list_elem_of_In). by apply (Hfresh o Ho).
    + intros o [Ho| ->%list_elem_of_singleton]%elem_of_app; [by apply O2|]. exists (S i), L. constructor; cbn [wo_lock wo_procs]; [done|done| |].
      * destruct Hr as (Hp & _). unfold zlen. rewrite Hp. exact Htwo.
      * intros k c' Hk E. destruct (decide (k < S i)%nat) as [|Hge]; [done|]. destruct (O3 k c') as (o & Ho & Eo); [lia|done|]. destruct (Hfresh o Ho). congruence.
    + intros k c' Hk Hc'. destruct (decide (k = i)) as [->|].
      * assert (c' = c) as -> by congruence. eexists. split; [apply elem_of_app; right; by apply list_elem_of_singleton|done].
      * destruct (O3 k c') as (o & Ho & E); [lia|done|]. exists o. split; [set_solver|done].
  - exists None. split; [done|]. exists (elock c), L. split; [done|]. intros order Hperm Hall. apply (Hr order Hperm).
    intros c' Hc'. apply Hall. rewrite <- (take_drop (S i) cs). set_solver.
Qed.
(** ** Testing a configuration *)

Definition tested (cs : list EDGE) (proc : Z) : list Z := concat (map (fun c => [waiter c; blocker c]) cs) ++ [proc].

Definition no_cycle (orders : list WAIT_ORDER) (p : Z) : Prop := ~ tc (wait_edge s orders) (leader_of s p) (leader_of s p).

Lemma orders_searchable cs i orders : orders_from cs i orders -> searchable MaxBackends s orders U.
Proof.
  intros [_ O2 _]. destruct se as [S1 S2 _]. constructor; [done|done|]. intros o Ho. destruct (O2 o Ho) as (n & L & Hok). exists L.
  split; [apply Hok|]. intros p. by rewrite (proj1 (oo_sorted _ _ _ _ Hok)).
Qed.

(** What a state of the search needs: the array of possible constraints has its
    size, and there is room for the result of one more search. *)
Definition room (st : check_state) : Prop :=
  zlen (possibleConstraints st) = maxPossibleConstraints MaxBackends /\ 0 <= nPossibleConstraints st /\
  nPossibleConstraints st + MaxBackends <= maxPossibleConstraints MaxBackends.

(** The array keeps its size and its saved part. *)
Definition kept (st st' : check_state) : Prop :=
  zlen (possibleConstraints st') = zlen (possibleConstraints st) /\
  take (Z.to_nat (nPossibleConstraints st)) (possibleConstraints st') = take (Z.to_nat (nPossibleConstraints st)) (possibleConstraints st).

Lemma kept_refl st : kept st st.
Proof. done. Qed.

Lemma write_edges_ok a off edges :
  0 <= off -> off + zlen edges <= zlen a ->
  zlen (write_edges a off edges) = zlen a /\ take (Z.to_nat off) (write_edges a off edges) = take (Z.to_nat off) a /\
  forall i c, edges !! i = Some c -> write_edges a off edges !! (Z.to_nat off + i)%nat = Some c.
Proof.
  unfold write_edges, zlen. intros H1 H2. assert (length (take (Z.to_nat off) a) = Z.to_nat off) as Hl by (rewrite length_take; lia). split_and!.
  - rewrite !length_app, Hl, length_drop. lia.
  - rewrite take_app_le by lia. rewrite take_take. f_equal. lia.
  - intros i c Hi. rewrite lookup_app_r by lia. rewrite Hl. replace (Z.to_nat off + i - Z.to_nat off)%nat with i by lia.
    rewrite lookup_app_l; [done|by eapply lookup_lt_Some].
Qed.

(** [n] good edges stand at the end of the saved part. *)
Definition edges_at (st : check_state) (off n : Z) : Prop :=
  forall i, 0 <= i < n -> exists c, zget (possibleConstraints st) (off + i) = Some c /\ edge_ok c.

(** The static variables that a test leaves alone. *)
Definition same_config (st st' : check_state) : Prop :=
  curConstraints st' = curConstraints st /\ nPossibleConstraints st' = nPossibleConstraints st /\ waitOrders st' = waitOrders st.

Lemma test_proc_ok proc st softFound :
  room st -> searchable MaxBackends s (waitOrders st) U -> leader_of s proc ∈ U -> 0 <= softFound <= MaxBackends -> edges_at st (nPossibleConstraints st) softFound ->
  exists st' r, test_proc MaxBackends vacuumFlags MyProc s proc st softFound = Ret (st', r) /\ kept st st' /\ same_config st st' /\
    match r with
    | inr _ => True
    | inl n => 0 <= n <= MaxBackends /\ edges_at st' (nPossibleConstraints st) n /\ (n = 0 -> softFound = 0 /\ no_cycle (waitOrders st) proc)
    end.
Proof.
  intros (R1 & R2 & R3) se' HU Hsoft Hat. unfold test_proc.
  destruct (FindLockCycle_ok MaxBackends vacuumFlags MyProc s (waitOrders st) U proc (ck_autovac st) ok se' HU) as (res & autovac & -> & Hres).
  cbn [cbind]. destruct res as [[d e]|].
  - destruct Hres as (W & Hd & He). rewrite (proj2 (Z.leb_le _ _)) by lia. cbn [c_assert cbind]. pose proof (zlen_nonneg e).
    destruct (write_edges_ok (possibleConstraints st) (nPossibleConstraints st) e R2) as (W1 & W2 & W3); [lia|].
    destruct (Z.eqb_spec (zlen e) 0) as [E0|E0]; (eexists _, _; split; [done|]; split; [done|]; split; [done|]); [done|]. split_and!; [lia|lia| |lia].
    intros i Hi. unfold zlen in Hi. destruct (lookup_lt_is_Some_2 e (Z.to_nat i)) as [c Hc]; [lia|]. exists c. split.
    + unfold zget. destruct (Z.ltb_spec (nPossibleConstraints st + i) 0); [lia|]. cbn [set_search possibleConstraints].
      rewrite <- (W3 _ c Hc). f_equal. lia.
    + eapply walk_edges; [exact se'|apply leader_idem, ok|exact W|]. by eapply list_elem_of_lookup_2.
  - eexists _, _. split; [done|]. split; [done|]. split; [done|]. split_and!; [lia|lia|exact Hat|]. done.
Qed.

Lemma kept_trans st1 st2 st3 : nPossibleConstraints st2 = nPossibleConstraints st1 -> kept st1 st2 -> kept st2 st3 -> kept st1 st3.
Proof. intros E (H1 & H2) (H3 & H4). rewrite E in H4. split; congruence. Qed.

Lemma test_procs_ok procs : forall st softFound,
  room st -> searchable MaxBackends s (waitOrders st) U -> (forall p, p ∈ procs -> leader_of s p ∈ U) ->
  0 <= softFound <= MaxBackends -> edges_at st (nPossibleConstraints st) softFound ->
  exists st' n, test_procs MaxBackends vacuumFlags MyProc s procs st softFound = Ret (st', n) /\ kept st st' /\ same_config st st' /\ n <= MaxBackends /\
    (0 <= n -> edges_at st' (nPossibleConstraints st) n) /\ (n = 0 -> softFound = 0 /\ forall p, p ∈ procs -> no_cycle (waitOrders st) p).
Proof.
  induction procs as [|p procs IH]; intros st softFound R se' HU Hsoft Hat; cbn [test_procs].
  { exists st, softFound. split_and!; try done; try lia. intros ->. split; [done|]. by intros p H%elem_of_nil. }
  destruct (test_proc_ok p st softFound R se' (HU p ltac:(set_solver)) Hsoft Hat) as (st1 & r & -> & K1 & (C1 & C2 & C3) & Hr). cbn [cbind].
  destruct r as [n|]; [|exists st1, (-1); split_and!; try done; lia]. destruct Hr as (Hn & Hat1 & Hz).
  destruct R as (R1 & R2 & R3). destruct (IH st1 n) as (st2 & n2 & -> & K2 & (D1 & D2 & D3) & Hle & Hat2 & Hz2).
  - split_and!; [by rewrite (proj1 K1)|by rewrite C2|by rewrite C2].
  - by rewrite C3.
  - intros q Hq. apply HU. set_solver.
  - done.
  - by rewrite C2.
  - exists st2, n2. rewrite C2 in Hat2. rewrite C3 in Hz2. split_and!; [done|by eapply kept_trans| |done|done|].
    + unfold same_config. split_and!; congruence.
    + intros E. destruct (Hz2 E) as (-> & Hall). destruct (Hz eq_refl) as (-> & Hp). split; [done|]. intros q [->|Hq]%elem_of_cons; [done|by apply Hall].
Qed.

(** The answer depends on the orders alone. *)
Lemma test_procs_value procs : forall st1 st2 softFound r1 r2 n1 n2,
  waitOrders st1 = waitOrders st2 -> nPossibleConstraints st1 = nPossibleConstraints st2 ->
  test_procs MaxBackends vacuumFlags MyProc s procs st1 softFound = Ret (r1, n1) ->
  test_procs MaxBackends vacuumFlags MyProc s procs st2 softFound = Ret (r2, n2) -> n1 = n2.
Proof.
  induction procs as [|p procs IH]; intros st1 st2 softFound r1 r2 n1 n2 Eo En H1 H2; cbn [test_procs] in *; [congruence|].
  unfold test_proc, FindLockCycle in H1, H2. rewrite Eo in H1.
  pose proof (FindLockCycleRecurse_agree MaxBackends vacuumFlags MyProc s (waitOrders st2) (search_fuel MaxBackends) p 0
    {| visitedProcs := []; blocking_autovacuum_proc := ck_autovac st1 |} {| visitedProcs := []; blocking_autovacuum_proc := ck_autovac st2 |} eq_refl) as A.
  destruct (FindLockCycleRecurse _ _ _ _ _ _ _ _ {| visitedProcs := []; blocking_autovacuum_proc := ck_autovac st1 |}) as [[a1 b1]| |]; try done.
  destruct (FindLockCycleRecurse _ _ _ _ _ _ _ _ {| visitedProcs := []; blocking_autovacuum_proc := ck_autovac st2 |}) as [[a2 b2]| |]; try done.
  destruct A as (_ & ->). cbn [cbind] in H1, H2. destruct b2 as [[d e]|].
  - rewrite En in H1. destruct (_ <=? _); cbn [c_assert cbind] in H1, H2; [|done].
    destruct (zlen e =? 0); cbn [cbind] in H1, H2; [congruence|]. by eapply IH; [| |exact H1|exact H2].
  - cbn [cbind] in H1, H2. by eapply IH; [| |exact H1|exact H2].
Qed.
(** The orders expand the constraints, and no group concerned is on a cycle. *)
Definition solution (cs : list EDGE) (proc : Z) (orders : list WAIT_ORDER) : Prop :=
  (forall c, c ∈ cs -> edge_ok c) /\ orders_from cs 0 orders /\ forall p, p ∈ tested cs proc -> no_cycle orders p.

Lemma tested_known cs proc : (forall c, c ∈ cs -> edge_ok c) -> leader_of s proc ∈ U -> forall p, p ∈ tested cs proc -> leader_of s p ∈ U.
Proof.
  intros Hcs Hproc p. unfold tested. intros [Hp| ->%list_elem_of_singleton]%elem_of_app; [|done].
  apply list_elem_of_In, in_concat in Hp as (l & Hl & Hp). apply in_map_iff in Hl as (c & <- & Hc%list_elem_of_In).
  destruct (Hcs c Hc) as [H1 H2 _ (H4 & H5) _]. destruct Hp as [<-|[<-|[]]]; congruence.
Qed.

Lemma no_orders cs : orders_from cs (length cs) [].
Proof. constructor; [constructor|by intros o H%elem_of_nil|]. intros k c Hk Hc. apply lookup_lt_Some in Hc. lia. Qed.

Section with_proc.
Context (proc : Z).
Hypothesis known : leader_of s proc ∈ U.

Lemma TestConfiguration_ok st :
  room st -> (forall c, c ∈ curConstraints st -> edge_ok c) ->
  exists st' n, TestConfiguration MaxBackends vacuumFlags MyProc s proc st = Ret (st', n) /\ kept st st' /\
    curConstraints st' = curConstraints st /\ nPossibleConstraints st' = nPossibleConstraints st /\ n <= MaxBackends /\
    (0 <= n -> edges_at st' (nPossibleConstraints st) n) /\ (n = 0 -> solution (curConstraints st) proc (waitOrders st')).
Proof.
  intros R Hcs. pose proof R as (R1 & R2 & R3). unfold TestConfiguration. rewrite Z.gtb_ltb, (proj2 (Z.ltb_ge _ _)) by lia.
  pose proof (se_size _ _ _ _ se). pose proof (zlen_nonneg U). unfold ExpandConstraints.
  destruct (expand_loop_ok _ _ [] Hcs (le_n _) (no_orders _)) as (r & -> & Hr). cbn [cbind].
  destruct r as [orders|]; [|exists st, (-1); split_and!; try done; lia].
  cbv zeta. set (st1 := {| curConstraints := curConstraints st; possibleConstraints := possibleConstraints st;
    nPossibleConstraints := nPossibleConstraints st; waitOrders := orders; ck_autovac := ck_autovac st |}).
  change (concat _ ++ [proc]) with (tested (curConstraints st) proc).
  destruct (test_procs_ok (tested (curConstraints st) proc) st1 0) as (st2 & n & -> & K & (C1 & C2 & C3) & Hn & Hat & Hz).
  - done.
  - by eapply orders_searchable.
  - by apply tested_known.
  - lia.
  - intros i Hi. lia.
  - exists st2, n. split_and!; try done. intros E. rewrite C3. split_and!; [done|done|by apply Hz].
Qed.

Lemma TestConfiguration_value st1 st2 r1 r2 n1 n2 :
  curConstraints st1 = curConstraints st2 -> nPossibleConstraints st1 = nPossibleConstraints st2 ->
  TestConfiguration MaxBackends vacuumFlags MyProc s proc st1 = Ret (r1, n1) ->
  TestConfiguration MaxBackends vacuumFlags MyProc s proc st2 = Ret (r2, n2) -> n1 = n2.
Proof.
  intros Ec En. unfold TestConfiguration. rewrite Ec, En. destruct (_ >? _); [congruence|].
  destruct (ExpandConstraints _ _ _) as [[orders|]|?|]; cbn [cbind]; [|congruence|done|done].
  intros H1 H2. by eapply test_procs_value; [| |exact H1|exact H2].
Qed.

(** ** The search for a solution *)

Definition kept_to (off : Z) (st st' : check_state) : Prop :=
  zlen (possibleConstraints st') = zlen (possibleConstraints st) /\
  take (Z.to_nat off) (possibleConstraints st') = take (Z.to_nat off) (possibleConstraints st).

Lemma kept_to_weaken off off' st st' : 0 <= off <= off' -> kept_to off' st st' -> kept_to off st st'.
Proof.
  intros H (H1 & H2). split; [done|]. replace (Z.to_nat off) with (Z.to_nat off `min` Z.to_nat off')%nat by lia. by rewrite <- !take_take, H2.
Qed.

Lemma kept_to_trans off st1 st2 st3 : kept_to off st1 st2 -> kept_to off st2 st3 -> kept_to off st1 st3.
Proof. intros (H1 & H2) (H3 & H4). split; congruence. Qed.

Lemma edges_at_kept st st' off n : 0 <= off -> 0 <= n -> kept_to (off + n) st st' -> edges_at st off n -> edges_at st' off n.
Proof.
  intros H0 Hn (_ & Ht) Hat i Hi. destruct (Hat i Hi) as (c & Hc & Hok). exists c. split; [|done]. unfold zget in *. destruct (Z.ltb_spec (off + i) 0); [lia|].
  rewrite <- (lookup_take_lt (possibleConstraints st') (Z.to_nat (off + n))), Ht, lookup_take_lt by lia. done.
Qed.

(** How a (partial) search for a solution ends. *)
Definition search_ends (cs : list EDGE) (off : Z) (st : check_state) (r : cres (check_state * bool)) : Prop :=
  exists st' failed, r = Ret (st', failed) /\ kept_to off st st' /\
    if failed then curConstraints st' = cs /\ nPossibleConstraints st' = off else exists cs', solution cs' proc (waitOrders st').

Section edges.
Context (recurse : check_state -> cres (check_state * bool)) (cs : list EDGE) (nEdges old : Z) (savedList : bool).
Hypothesis edges_ok : forall c, c ∈ cs -> edge_ok c.
Hypothesis short : zlen cs < maxCurConstraints MaxBackends.
Hypothesis bounds : 0 <= old /\ 0 <= nEdges.
Hypothesis rec_ok : forall st, room st -> (forall c, c ∈ curConstraints st -> edge_ok c) -> zlen (curConstraints st) = zlen cs + 1 ->
  search_ends (curConstraints st) (nPossibleConstraints st) st (recurse st).
Hypothesis again : savedList = false -> forall st st' n, curConstraints st = cs -> nPossibleConstraints st = old ->
  TestConfiguration MaxBackends vacuumFlags MyProc s proc st = Ret (st', n) -> n = nEdges.

Definition fill : Z := if savedList then old + nEdges else old.

Lemma try_edges_ok k : forall i st,
  room st -> curConstraints st = cs -> nPossibleConstraints st = fill -> 0 <= i -> i + Z.of_nat k = nEdges ->
  (savedList = true \/ i = 0 -> edges_at st old nEdges) ->
  search_ends cs old st (try_edges MaxBackends vacuumFlags MyProc s recurse proc nEdges old savedList k i st).
Proof.
  induction k as [|k IH]; intros i st R Hcur HnP Hi Hk Hat; cbn [try_edges].
  { eexists _, true. split; [done|]. split; [done|]. done. }
  assert (old <= fill) as Hfill by (unfold fill; destruct savedList; lia).
  assert (exists st1, (if negb savedList && (0 <? i) then
      let* (st, n) := TestConfiguration MaxBackends vacuumFlags MyProc s proc st in
      if n =? nEdges then Ret st else Elog "inconsistent results during deadlock check" else Ret st) = Ret st1 /\
    kept_to old st st1 /\ room st1 /\ curConstraints st1 = cs /\ nPossibleConstraints st1 = fill /\ edges_at st1 old nEdges) as (st1 & -> & K1 & R1 & C1 & N1 & A1).
  { destruct (negb savedList && (0 <? i)) eqn:Eg; [|exists st; split_and!; try done; apply Hat; destruct savedList; [by left|right]; cbn in Eg; apply Z.ltb_ge in Eg; lia].
    apply andb_true_iff in Eg as (Es%negb_true_iff & _). assert (fill = old) as Ef by (unfold fill; by rewrite Es).
    destruct (TestConfiguration_ok st R) as (st1 & n & E & K & C & N & Hn & Hat1 & _); [by rewrite Hcur|]. rewrite E. cbn [cbind].
    assert (nPossibleConstraints st = old) as Eold by congruence. pose proof (again Es st st1 n Hcur Eold E) as ->. rewrite Z.eqb_refl.
    exists st1. unfold room, kept in *. rewrite N, (proj1 K), C. rewrite Eold in *. split_and!; try done; try congruence; try apply R. apply Hat1. lia. }
  cbn [cbind]. destruct (A1 i) as (c & Hc & Hok); [lia|]. unfold aget. rewrite Hc. cbn [deref cbind]. rewrite C1.
  rewrite (proj2 (Z.ltb_lt _ _) short). cbn [c_assert cbind].
  destruct (rec_ok (set_cur st1 (cs ++ [c]))) as (st2 & failed & E2 & K2 & H2).
  - done.
  - cbn [set_cur curConstraints]. intros x [Hx| ->%list_elem_of_singleton]%elem_of_app; [by apply edges_ok|done].
  - cbn [set_cur curConstraints]. rewrite zlen_app. done.
  - rewrite E2. cbn [cbind set_cur curConstraints nPossibleConstraints] in *. rewrite N1 in *.
    assert (kept_to old st st2) as K02 by (eapply kept_to_trans; [exact K1|]; by eapply kept_to_weaken; [|exact K2]; lia).
    destruct failed; [|by exists st2, false]. destruct H2 as (Hc2 & Hn2). rewrite Hc2, removelast_last.
    destruct (IH (i + 1) (set_cur st2 cs)) as (st3 & failed & -> & K3 & H3).
    + destruct R1 as (Q1 & Q2 & Q3). unfold room. cbn [set_cur possibleConstraints nPossibleConstraints]. rewrite Hn2, <- N1. split_and!; [|done|done].
      rewrite <- Q1. exact (proj1 K2).
    + done.
    + done.
    + lia.
    + lia.
    + intros Hor. assert (savedList = true) as Es by (destruct Hor; [done|lia]). unfold fill in K2. rewrite Es in K2. by eapply (edges_at_kept st1); [lia|lia| |].
    + exists st3, failed. split; [done|]. split; [by eapply kept_to_trans|done].
Qed.
End edges.

Lemma DeadLockCheckRecurse_ok fuel : forall st,
  room st -> (forall c, c ∈ curConstraints st -> edge_ok c) -> zlen (curConstraints st) <= maxCurConstraints MaxBackends ->
  maxCurConstraints MaxBackends - zlen (curConstraints st) < Z.of_nat fuel ->
  search_ends (curConstraints st) (nPossibleConstraints st) st (DeadLockCheckRecurse MaxBackends vacuumFlags MyProc s fuel proc st).
Proof.
  induction fuel as [|fuel IH]; intros st R Hcs Hlen Hf; [lia|]. cbn [DeadLockCheckRecurse].
  destruct (TestConfiguration_ok st R Hcs) as (st1 & n & E & K & C & N & Hn & Hat & Hz). rewrite E. cbn [cbind].
  destruct (Z.ltb_spec n 0); [by exists st1, true|]. destruct (Z.eqb_spec n 0) as [E0|E0].
  { exists st1, false. split_and!; [done|done|]. eauto. }
  rewrite Z.geb_leb. destruct (Z.leb_spec (maxCurConstraints MaxBackends) (zlen (curConstraints st1))) as [Hfull|Hfull]; [by exists st1, true|].
  pose proof R as (R1 & R2 & R3). set (saved := _ <=? maxPossibleConstraints MaxBackends).
  assert (room (if saved then set_nPossible st1 (nPossibleConstraints st1 + n) else st1)) as R'.
  { unfold room. destruct saved eqn:Es; cbn [set_nPossible possibleConstraints nPossibleConstraints]; rewrite (proj1 K), N; [|done].
    unfold saved in Es. apply Z.leb_le in Es. rewrite N in Es. split_and!; [done|lia|lia]. }
  destruct (try_edges_ok (DeadLockCheckRecurse MaxBackends vacuumFlags MyProc s fuel proc) (curConstraints st) n (nPossibleConstraints st1) saved
    Hcs ltac:(rewrite <- C; lia) ltac:(lia)) with (k := Z.to_nat n) (i := 0) (st := if saved then set_nPossible st1 (nPossibleConstraints st1 + n) else st1)
    as (st2 & failed & E2 & K2 & H2).
  - intros st' Rs Hs Hl. apply IH; [done|done| |]; rewrite Hl; rewrite C in *; lia.
  - intros _ st' st'' n' Hc Hp Ht. eapply TestConfiguration_value; [| |exact Ht|exact E]; congruence.
  - done.
  - by destruct saved.
  - unfold fill. by destruct saved.
  - lia.
  - lia.
  - intros _. rewrite N. assert (0 <= n) as Hn0 by lia. specialize (Hat Hn0). by destruct saved.
  - unfold search_ends. rewrite E2. exists st2, failed. rewrite N in *. split; [done|]. split; [|done].
    eapply kept_to_trans; [exact K|]. by destruct saved.
Qed.

(** If the process is on no cycle, the first test ends the search. *)
Lemma DeadLockCheckRecurse_start st fuel :
  room st -> curConstraints st = [] -> no_cycle [] proc ->
  exists st', DeadLockCheckRecurse MaxBackends vacuumFlags MyProc s (S fuel) proc st = Ret (st', false) /\ waitOrders st' = [].
Proof.
  intros (R1 & R2 & R3) Hcur Hno. cbn [DeadLockCheckRecurse]. unfold TestConfiguration, ExpandConstraints. rewrite Z.gtb_ltb, (proj2 (Z.ltb_ge _ _)), Hcur by lia.
  cbn [length expand_loop cbind]. cbv zeta. cbn [curConstraints map concat app test_procs]. unfold test_proc. cbn [waitOrders ck_autovac].
  destruct (FindLockCycle_ok MaxBackends vacuumFlags MyProc s [] U proc (ck_autovac st) ok se known) as (res & autovac & -> & Hres). cbn [cbind].
  destruct res as [[d e]|].
  - destruct Hres as (W & Hd & _). destruct Hno. by eapply walk_tc.
  - cbn [cbind]. eexists. split; [done|done].
Qed.
End with_proc.
End outer.
