(* ===== verification/DeadlockApply.v ===== *)
(** * The deadlock detector: putting a solution in force

    The waits-for graph of the rearranged queues is the one the search looked at;
    putting the orders in force and waking waiters only takes edges away; and the
    edges a rearrangement adds all lead to a group that the search has tested. *)
From stdpp Require Import list gmap functions relations.
From S2P Require Import Prelude LockModes LockTable LockInvariant LockOps Deadlock DeadlockCycle DeadlockTopo DeadlockSearch.

(** ** Order in lists *)

Lemma precedes_in l a b : precedes l a b -> a ∈ l /\ b ∈ l.
Proof. intros (l1 & l2 & -> & Ha & Hb). set_solver. Qed.

Lemma precedes_extend l l' a b : precedes l a b -> precedes (l ++ l') a b.
Proof. intros (l1 & l2 & -> & Ha & Hb). exists l1, (l2 ++ l'). rewrite <- app_assoc. set_solver. Qed.

Lemma precedes_snoc l a x : a ∈ l -> precedes (l ++ [x]) a x.
Proof. intros Ha. exists l, [x]. set_solver. Qed.

Lemma precedes_total l a b : a ∈ l -> b ∈ l -> a = b \/ precedes l a b \/ precedes l b a.
Proof.
  induction l as [|x l IH]; [by intros H%elem_of_nil|]. intros [->|Ha]%elem_of_cons [->|Hb]%elem_of_cons; [by left|..].
  - right. left. exists [x], l. set_solver.
  - right. right. exists [x], l. set_solver.
  - destruct (IH Ha Hb) as [?|[?|?]]; [by left|..]; right; [left|right]; by apply precedes_cons.
Qed.

Lemma precedes_trans l a b c : NoDup l -> precedes l a b -> precedes l b c -> precedes l a c.
Proof.
  intros Hnd (l1 & l2 & -> & Ha & Hb) (k1 & k2 & E & Hb' & Hc). apply app_eq_app in E as (k & [(-> & ->)|(-> & ->)]).
  - exfalso. apply NoDup_app in Hnd as (_ & Hd & _). apply (Hd b); [set_solver|done].
  - exists l1, (k ++ k2). set_solver.
Qed.

Lemma until_precedes P l x c : x ∈ until P l -> c ∈ l -> P c = true -> precedes l x c.
Proof.
  induction l as [|y l IH]; cbn [until]; [by intros H%elem_of_nil|]. destruct (P y) eqn:E; [by intros H%elem_of_nil|].
  intros Hx Hc HP. apply elem_of_cons in Hc as [->|Hc]; [congruence|]. apply elem_of_cons in Hx as [->|Hx].
  - exists [y], l. set_solver.
  - by apply precedes_cons, IH.
Qed.

Lemma precedes_until P l x : NoDup l -> x ∈ l -> P x = false -> (forall c, c ∈ l -> P c = true -> precedes l x c) -> x ∈ until P l.
Proof.
  induction l as [|y l IH]; intros Hnd Hx HP Hall; [by apply elem_of_nil in Hx|]. apply NoDup_cons in Hnd as Hnd'. destruct Hnd' as (Hy & Hnd'). cbn [until].
  assert (forall c, c ∈ y :: l -> precedes (y :: l) c y -> False) as Hfirst.
  { intros c Hc (l1 & l2 & E & H1 & H2). destruct l1 as [|z l1]; [by apply elem_of_nil in H1|]. injection E as <- ->. apply Hy. set_solver. }
  destruct (P y) eqn:E; [exfalso; apply (Hfirst x Hx), Hall; [set_solver|done]|]. apply elem_of_cons in Hx as [->|Hx]; [set_solver|].
  apply elem_of_cons. right. apply IH; [done|done|done|]. intros c Hc Pc. destruct (Hall c) as (l1 & l2 & E' & H1 & H2); [set_solver|done|].
  destruct l1 as [|z l1]; [by apply elem_of_nil in H1|]. injection E' as <- ->. exists l1, l2. split_and!; [done| |done].
  apply elem_of_cons in H1 as [->|H1]; [|done]. done.
Qed.

Section graph.
Context (s : lmgr).
Hypothesis groups : groups_ok (allProcs s).

(** The processes of a group follow each other, so what stands before one of them
    stands before all. *)
Lemma adjacent_precedes order g x c c' :
  NoDup order -> adjacent s order -> leader_of s x <> g -> leader_of s c = g -> leader_of s c' = g ->
  precedes order x c -> c' ∈ order -> precedes order x c'.
Proof.
  intros Hnd Hadj Hx Hc Hc' Hpre Hin. destruct (Hadj g) as (l1 & l2 & l3 & -> & H2 & H3). destruct (precedes_in _ _ _ Hpre) as (Hxin & Hcin).
  assert (forall y, y ∈ l1 ++ l2 ++ l3 -> leader_of s y = g -> y ∈ l2) as Hmid.
  { intros y Hy E. apply elem_of_app in Hy as [Hy|Hy]; [destruct (H3 y); [set_solver|done]|]. apply elem_of_app in Hy as [Hy|Hy]; [done|destruct (H3 y); [set_solver|done]]. }
  apply elem_of_app in Hxin as [Hx1|Hx1]; [exists l1, (l2 ++ l3); specialize (Hmid c' Hin Hc'); set_solver|].
  apply elem_of_app in Hx1 as [Hx1|Hx1]; [by destruct Hx; apply H2|]. exfalso. apply (precedes_irrefl _ x c Hnd Hpre).
  exists (l1 ++ l2), l3. rewrite <- app_assoc. specialize (Hmid c Hcin Hc). set_solver.
Qed.

(** The last process of a group in a queue. *)
Lemma last_group_member_ok g q :
  (exists p, p ∈ q /\ lockGroupLeader (allProcs s p) = Some g) ->
  exists last, last_group_member s g q = Some last /\ last ∈ q /\ lockGroupLeader (allProcs s last) = Some g /\
    forall p, p ∈ q -> lockGroupLeader (allProcs s p) = Some g -> p = last \/ precedes q p last.
Proof.
  unfold last_group_member. induction q as [|x q IH] using rev_ind; intros (p & Hp & Hg); [by apply elem_of_nil in Hp|].
  rewrite foldl_app. cbn [foldl]. case_bool_decide as E.
  - exists x. split_and!; [done|set_solver|done|]. intros p' [Hp'|Hp']%elem_of_app Hg'; [right; by apply precedes_snoc|left; by apply list_elem_of_singleton in Hp'].
  - destruct IH as (last & -> & H1 & H2 & H3).
    { apply elem_of_app in Hp as [Hp|Hp]; [eauto|]. apply list_elem_of_singleton in Hp as ->. congruence. }
    exists last. split_and!; [done|set_solver|done|]. intros p' [Hp'|Hp']%elem_of_app Hg'.
    + destruct (H3 p' Hp' Hg') as [->|?]; [by left|right; by apply precedes_extend].
    + apply list_elem_of_singleton in Hp' as ->. congruence.
Qed.

(** Where the scan of a true queue for a member of a group stops. *)
Definition scan_stop (c g : Z) (q : list Z) : option Z :=
  match lockGroupLeader (allProcs s c) with None => Some c | Some _ => last_group_member s g q end.

Lemma scan_stop_ok c g q :
  c ∈ q -> leader_of s c = g ->
  exists last, scan_stop c g q = Some last /\ last ∈ q /\ leader_of s last = g /\ forall p, p ∈ q -> leader_of s p = g -> p = last \/ precedes q p last.
Proof.
  intros Hc Hg. unfold scan_stop. unfold leader_of in Hg. destruct (lockGroupLeader (allProcs s c)) as [l|] eqn:El; simpl in Hg; unfold id in Hg; subst g.
  - destruct (last_group_member_ok l q) as (last & -> & H1 & H2 & H3); [eauto|]. exists last. split_and!; [done|done|unfold leader_of; by rewrite H2|].
    intros p Hp Hlp. apply H3; [done|]. unfold leader_of in Hlp. destruct (lockGroupLeader (allProcs s p)) as [l'|] eqn:Ep; simpl in Hlp; unfold id in Hlp; subst l; [done|].
    rewrite (gr_leader _ groups c p El) in Ep. done.
  - exists c. split_and!; [done|done|unfold leader_of; by rewrite El|]. intros p Hp Hlp. left. unfold leader_of in Hlp.
    destruct (lockGroupLeader (allProcs s p)) as [l'|] eqn:Ep; simpl in Hlp; unfold id in Hlp; subst; [|done]. rewrite (gr_leader _ groups p c Ep) in El. done.
Qed.

(** Without a proposed order, what stands ahead of a process stands before the last
    of its group. *)
Lemma elem_of_ahead_true c g t L x last :
  NoDup (waitProcs L) -> scan_stop c g (waitProcs L) = Some last -> last ∈ waitProcs L ->
  x ∈ ahead_of s [] c g t L <-> precedes (waitProcs L) x last.
Proof.
  intros Hnd Hs Hl. unfold ahead_of. cbn [List.find]. change (match lockGroupLeader _ with Some _ => _ | None => _ end) with (scan_stop c g (waitProcs L)).
  rewrite Hs. split.
  - intros H. eapply until_precedes; [exact H|done|apply Z.eqb_refl].
  - intros H. apply precedes_until; [done|by apply (precedes_in _ _ _ H)|apply Z.eqb_neq; intros ->; exact (precedes_irrefl _ _ _ Hnd H H)|].
    intros c' _ ->%Z.eqb_eq. done.
Qed.
End graph.

Lemma until_ext P R l : (forall x, P x = R x) -> until P l = until R l.
Proof. intros H. induction l as [|x l IH]; [done|]. cbn [until]. by rewrite H, IH. Qed.

Lemma last_group_member_ext s s' g q :
  (forall p, lockGroupLeader (allProcs s' p) = lockGroupLeader (allProcs s p)) -> last_group_member s' g q = last_group_member s g q.
Proof.
  intros H. unfold last_group_member. generalize (@None Z). induction q as [|x q IH]; intros init; [done|]. cbn [foldl]. rewrite H. apply IH.
Qed.

Lemma ahead_of_ext s s' orders c g t L :
  (forall p, lockGroupLeader (allProcs s' p) = lockGroupLeader (allProcs s p)) -> ahead_of s' orders c g t L = ahead_of s orders c g t L.
Proof.
  intros H. assert (forall p, leader_of s' p = leader_of s p) as Hl by (intros p; unfold leader_of; by rewrite H).
  unfold ahead_of. rewrite H, (last_group_member_ext s s' g _ H). destruct (List.find _ orders); [|done]. apply until_ext. intros x. by rewrite Hl.
Qed.

Lemma ahead_of_skip s o orders c g t L : wo_lock o <> t -> ahead_of s (o :: orders) c g t L = ahead_of s orders c g t L.
Proof. intros H. unfold ahead_of. cbn [List.find]. by rewrite bool_decide_eq_false_2. Qed.

(** ** The edges a rearrangement adds *)

Lemma added_edges s cs orders a b :
  lmgr_ok s -> orders_from s cs 0 orders -> leader_of s a = a -> wait_edge s orders a b -> wait_edge s [] a b \/ must_move cs b.
Proof.
  intros ok O Ha (c & t & Hc & [Hh|(L & p & Ht & HL & Hp & Hlp & Hne & Hconf)]); [left; exists c, t; auto|].
  pose proof (ok_locks _ ok t L HL) as K. pose proof (lc_queue_nodup _ _ _ (lk_queue _ _ _ K)) as Hnd.
  pose proof (waiting_queued s ok c a t L Hc Ht HL) as Hcq. pose proof (member_leader s ok c a Ha (proj2 Hc)) as Hlc.
  destruct (scan_stop_ok s (ok_groups _ ok) c a _ Hcq Hlc) as (last & Hs & Hlast & Hll & Hmax).
  destruct (List.find (fun o => bool_decide (wo_lock o = t)) orders) as [o|] eqn:Eo.
  2:{ left. exists c, t. split; [done|]. right. exists L, p. split_and!; try done. unfold ahead_of in Hp |- *. by rewrite Eo in Hp. }
  unfold ahead_of in Hp. rewrite Eo in Hp. apply List.find_some in Eo as (Ho%list_elem_of_In & Et%bool_decide_eq_true).
  destruct (or_each _ _ _ _ O o Ho) as (n & L' & [H1 (Hperm & Hadj & _ & Hmoved) _ _]). assert (L' = L) as -> by congruence.
  assert (precedes (wo_procs o) p c) as Hpre by (eapply until_precedes; [exact Hp|by rewrite Hperm|by apply Z.eqb_eq]).
  assert (p ∈ waitProcs L) as Hpq by (rewrite <- Hperm; by apply (precedes_in _ _ _ Hpre)).
  destruct (precedes_total (waitProcs L) p last Hpq Hlast) as [->|[Hbefore|Hafter]]; [congruence|..].
  - left. exists c, t. split; [done|]. right. exists L, p. split_and!; try done. by eapply elem_of_ahead_true.
  - right. destruct (Hmoved c p Hcq Hpq) as (x & Hx & E); [|done|].
    + intros p' Hp' Hlp'. destruct (Hmax p' Hp') as [->|Hm]; [congruence|done|].
      destruct (precedes_total (waitProcs L) p' p Hp' Hpq) as [->|[?|Hbad]]; [congruence|done|].
      exfalso. destruct (precedes_total (waitProcs L) p last Hpq Hlast) as [->|_]; [congruence|].
      apply (precedes_irrefl _ p' last Hnd Hm). by eapply precedes_trans.
    + exists x. split; [|congruence]. rewrite <- (take_drop n cs). set_solver.
Qed.

(** ** Putting one order in force *)

Definition requeue (L : LOCK) (procs : list Z) : LOCK :=
  {| grantMask := grantMask L; waitMask := waitMask L; procLocks := procLocks L; waitProcs := procs;
     requested := requested L; nRequested := nRequested L; granted := granted L; nGranted := nGranted L |}.

Lemma requeue_busy s t L procs :
  lmgr_ok s -> LockHash s !! t = Some L -> procs ≡ₚ waitProcs L ->
  busy (put_lock s t (requeue L procs)) t (requeue L procs) None /\ entries_used (put_lock s t (requeue L procs)) t (requeue L procs) /\ 0 < nRequested L.
Proof.
  intros ok HL Hp. pose proof (ok_locks _ ok t L HL) as K. destruct (lk_queue _ _ _ K) as [Q1 Q2 Q3]. destruct (lk_counts _ _ _ K) as [C1 C2].
  split_and!; [|intros p pl Hpl; cbn [requeue waitProcs]; rewrite Hp; by apply (lk_used _ _ _ K)|apply K].
  eapply (busy_step s _ t) with (L := L) (pending := None).
  - constructor; try done. intros t' Hne. by apply lookup_insert_ne.
  - by apply lmgr_ok_busy.
  - apply lookup_insert_eq.
  - apply (grants_ext s _ t L); try done; [|apply K]. apply (lc_rlen _ _ _ (lk_grants _ _ _ K)).
  - constructor; cbn [requeue waitProcs].
    + intros w Hw. rewrite Hp in Hw. destruct (Q1 w Hw) as (W & Hpw). split; [destruct W; by constructor|done].
    + by rewrite Hp.
    + intros m Hm. rewrite (countb_perm _ _ _ Hp). by apply Q3.
  - constructor; cbn [requeue waitProcs requested granted nRequested nGranted].
    + intros m. rewrite (countb_perm _ _ _ Hp). apply C1.
    + unfold zlen. rewrite Hp. exact C2.
  - intros p Hw. cbn [put_lock set_locks allProcs requeue waitProcs]. destruct (links (allProcs s p)) eqn:Ek.
    + left. destruct (ln_queued _ (ok_links _ ok) p Ek) as (t' & L' & H1 & H2 & H3). assert (t' = t) as -> by (destruct Hw; congruence).
      assert (L' = L) as -> by congruence. by rewrite Hp.
    + right. split; [done|]. by apply (ln_idle _ (ok_links _ ok)).
Qed.

(** From [s] to [s'], waiters may have been given what they wait for, and nothing else
    is given or taken. *)
Record only_wakes (s s' : lmgr) : Prop := {
  ow_groups : forall p, lockGroupLeader (allProcs s' p) = lockGroupLeader (allProcs s p);
  ow_holds : forall t q m, holds s t q m = true -> holds s' t q m = true;
  ow_new : forall t q m, holds s' t q m = true ->
    holds s t q m = true \/ (links (allProcs s q) = true /\ waitLock (allProcs s q) = Some t /\ waits_mode s q = m /\ links (allProcs s' q) = false);
  ow_others : forall q, bystander s s' q;
  ow_conflicts : no_new_conflicts s s';
  ow_waiting : forall q, links (allProcs s' q) = true -> allProcs s' q = allProcs s q;
  ow_idle : forall q, links (allProcs s q) = false -> allProcs s' q = allProcs s q }.

Lemma only_wakes_refl s : only_wakes s s.
Proof. constructor; auto using bystander_refl, no_new_conflicts_refl. Qed.

Lemma only_wakes_trans s s1 s2 : only_wakes s s1 -> only_wakes s1 s2 -> only_wakes s s2.
Proof.
  intros [A1 A2 A3 A6 A7 A4 A5] [B1 B2 B3 B6 B7 B4 B5]. constructor.
  - intros p. by rewrite B1, A1.
  - auto.
  - intros t q m H. destruct (B3 t q m H) as [H1|(H1 & H2 & H3 & H4)].
    + destruct (A3 t q m H1) as [?|(H2 & H3 & H4 & H5)]; [by left|right]. split_and!; [done|done|done|by rewrite (B5 q H5)].
    + right. pose proof (A4 q H1) as E. unfold waits_mode in *. rewrite E in H1, H2, H3. done.
  - intros q. exact (bystander_trans _ _ _ _ (A6 q) (B6 q)).
  - exact (no_new_conflicts_trans _ _ _ A7 B7).
  - intros q H. pose proof (B4 q H) as E. rewrite E. apply A4. by rewrite <- E.
  - intros q H. pose proof (A5 q H) as E. rewrite <- E. apply B5. by rewrite E.
Qed.

(** What one order in force changes. *)
Record in_force (s s2 : lmgr) (o : WAIT_ORDER) : Prop := {
  if_ok : lmgr_ok s2;
  if_wakes : only_wakes s s2;
  if_others : forall t, t <> wo_lock o -> LockHash s2 !! t = LockHash s !! t;
  if_edges : forall rest a b, (forall x, x ∈ rest -> rearranges s x) -> wo_lock o ∉ map wo_lock rest -> leader_of s a = a -> wait_edge s2 rest a b -> wait_edge s (o :: rest) a b }.

Section step.
Context (s s2 : lmgr) (o : WAIT_ORDER) (L L2 : LOCK).
Hypothesis ok : lmgr_ok s.
Hypothesis HL : LockHash s !! wo_lock o = Some L.
Hypothesis perm : wo_procs o ≡ₚ waitProcs L.
Hypothesis adj : adjacent s (wo_procs o).
Hypothesis B2 : busy s2 (wo_lock o) L2 None.
Hypothesis W : woken (put_lock s (wo_lock o) (requeue L (wo_procs o))) s2 (wo_lock o) (requeue L (wo_procs o)) L2.

Lemma step_procs p : p ∉ wo_procs o \/ p ∈ waitProcs L2 -> allProcs s2 p = allProcs s p.
Proof. intros [H|H]; [by apply (wn_procs _ _ _ _ _ W p)|by apply (wn_queue _ _ _ _ _ W p)]. Qed.

Lemma step_leader p : leader_of s2 p = leader_of s p.
Proof. unfold leader_of. by rewrite (fr_leader _ _ _ (wn_frame _ _ _ _ _ W)). Qed.

Lemma step_wakes : only_wakes s s2.
Proof.
  assert (forall q, q ∈ wo_procs o -> waiter_ok s (wo_lock o) q) as Hq.
  { intros q Hq. rewrite perm in Hq. by apply (lc_waiters _ _ _ (lk_queue _ _ _ (ok_locks _ ok _ L HL))). }
  constructor.
  - apply (fr_leader _ _ _ (wn_frame _ _ _ _ _ W)).
  - intros t q m Hh. destruct (decide (t = wo_lock o)) as [->|Hne]; [by apply (wn_holds _ _ _ _ _ W)|]. by rewrite (frame_holds _ _ _ (wn_frame _ _ _ _ _ W)).
  - intros t q m Hh. destruct (decide (t = wo_lock o)) as [->|Hne]; [|left; by rewrite (frame_holds _ _ _ (wn_frame _ _ _ _ _ W)) in Hh].
    destruct (wn_new _ _ _ _ _ W q m Hh) as [?|(H1 & H2 & ->)]; [by left|right]. destruct (Hq q H1) as [K1 K2 _ _ _ _ _].
    destruct (wn_got _ _ _ _ _ W q H1 H2) as (_ & _ & K3). done.
  - intros q. eapply woken_bystander in W; [exact W|]. intros Hin. destruct (Hq q Hin). by constructor.
  - destruct (wn_conflicts _ _ _ _ _ W). by constructor.
  - intros q Hk. apply step_procs. destruct (decide (q ∈ wo_procs o)) as [Hin|]; [right|by left]. destruct (decide (q ∈ waitProcs L2)) as [|Hn]; [done|].
    destruct (wn_got _ _ _ _ _ W q Hin Hn) as (_ & _ & K3). congruence.
  - intros q Hk. apply step_procs. left. intros Hin. destruct (Hq q Hin) as [K1 _ _ _ _ _ _]. congruence.
Qed.

Lemma step_waiting c g : waits_for_group s2 c g -> waits_for_group s c g /\ allProcs s2 c = allProcs s c.
Proof.
  intros (Hw & Hm). rewrite (fr_members _ _ _ (wn_frame _ _ _ _ _ W)) in Hm. assert (allProcs s2 c = allProcs s c) as E.
  { destruct (decide (c ∈ wo_procs o)) as [Hin|Hn]; [|apply step_procs; by left]. destruct (decide (c ∈ waitProcs L2)) as [|Hn]; [apply step_procs; by right|].
    destruct (wn_got _ _ _ _ _ W c Hin Hn) as (_ & _ & Hk). unfold is_waiting in Hw. by rewrite Hk in Hw. }
  split; [|done]. split; [|done]. unfold is_waiting in *. by rewrite <- E.
Qed.

Lemma step_queued c g : waits_for_group s2 c g -> waitLock (allProcs s c) = Some (wo_lock o) -> c ∈ waitProcs L2.
Proof.
  intros Hc2 Hw. destruct (step_waiting c g Hc2) as (_ & Ec). destruct Hc2 as (Hk & _). unfold is_waiting in Hk. apply andb_true_iff in Hk as (Hk & _).
  destruct (ln_queued _ (bz_links _ _ _ _ B2) c Hk) as (t' & L3 & H1 & H2 & H3). rewrite Ec, Hw in H1. injection H1 as <-.
  rewrite (bz_lock _ _ _ _ B2) in H2. by injection H2 as <-.
Qed.

Lemma order_nodup : NoDup (wo_procs o).
Proof. rewrite perm. apply (lc_queue_nodup _ _ _ (lk_queue _ _ _ (ok_locks _ ok _ L HL))). Qed.

(** A conflicting request before a member of the group is a soft edge. *)
Lemma ordered_soft rest c g p :
  waits_for_group s c g -> leader_of s g = g -> waitLock (allProcs s c) = Some (wo_lock o) -> leader_of s p <> g -> conf (waits_mode s c) (waits_mode s p) = true ->
  (exists c', precedes (wo_procs o) p c' /\ leader_of s c' = g) -> soft_wait s (o :: rest) c g (leader_of s p) (wo_lock o).
Proof.
  intros Hc Hg Ht Hne Hconf (c' & Hpre & Hc'). exists L, p. split_and!; try done. unfold ahead_of. cbn [List.find].
  rewrite (bool_decide_eq_true_2 (wo_lock o = wo_lock o)) by done. apply precedes_until; [apply order_nodup|by apply (precedes_in _ _ _ Hpre)|by apply Z.eqb_neq|].
  intros x Hx Hlx%Z.eqb_eq. eapply adjacent_precedes; [apply ok|apply order_nodup|exact adj|exact Hne|exact Hc'|done|done|done].
Qed.

Lemma step_hard rest c g h tag :
  waits_for_group s2 c g -> leader_of s g = g -> hard_wait s2 c g h tag -> hard_wait s c g h tag \/ soft_wait s (o :: rest) c g h tag.
Proof.
  intros Hc2 Hg (L' & p & lm & Hw & HL' & Hp & Hlp & Hne & Hh & Hconf). destruct (step_waiting c g Hc2) as (Hc & Ec).
  unfold waits_mode in Hconf. rewrite Ec in Hw, Hconf. rewrite step_leader in Hlp. destruct (decide (tag = wo_lock o)) as [->|Hnt].
  2:{ left. rewrite (fr_locks _ _ _ (wn_frame _ _ _ _ _ W) tag Hnt) in HL'. cbn in HL'. rewrite lookup_insert_ne in HL' by done.
      rewrite (frame_holds _ _ _ (wn_frame _ _ _ _ _ W) tag p lm Hnt) in Hh. by exists L', p, lm. }
  destruct (wn_new _ _ _ _ _ W p lm Hh) as [Hold|(Hq & Hn & ->)].
  - left. exists L, p, lm. split_and!; try done. apply (lc_proclocks _ _ _ (lk_grants _ _ _ (ok_locks _ ok _ L HL))).
    unfold holds in Hold. cbn in Hold. destruct (ProcLockHash s !! (wo_lock o, p)); [eauto|done].
  - right. rewrite <- Hlp. cbn [requeue waitProcs] in Hq. apply ordered_soft; try done; [congruence|]. exists c.
    split; [|by apply (member_leader s ok c g Hg), Hc]. pose proof (step_queued c g Hc2 Hw) as Hc2q.
    destruct (wn_queue _ _ _ _ _ W c Hc2q) as (Hcq & _). destruct (precedes_total (wo_procs o) p c Hq Hcq) as [->|[?|Hbad]]; [done|done|].
    pose proof (wn_order _ _ _ _ _ W c p Hbad Hc2q Hn) as Hno. rewrite conf_sym in Hno. unfold waits_mode in *. cbn in Hno, Hconf. congruence.
Qed.

Lemma step_soft rest c g h tag :
  (forall x, x ∈ rest -> rearranges s x) -> wo_lock o ∉ map wo_lock rest ->
  waits_for_group s2 c g -> leader_of s g = g -> soft_wait s2 rest c g h tag -> soft_wait s (o :: rest) c g h tag.
Proof.
  intros Hrest Hfresh Hc2 Hg (L' & p & Hw & HL' & Hp & Hlp & Hne & Hconf). destruct (step_waiting c g Hc2) as (Hc & Ec).
  rewrite step_leader in Hlp. rewrite Ec in Hw. destruct (decide (tag = wo_lock o)) as [->|Hnt].
  - rewrite (bz_lock _ _ _ _ B2) in HL'. injection HL' as <-. destruct (bz_queue _ _ _ _ B2) as [_ Hnd _].
    assert (List.find (fun x => bool_decide (wo_lock x = wo_lock o)) rest = None) as Hnone.
    { destruct (List.find _ rest) as [x|] eqn:Ex; [|done]. apply List.find_some in Ex as (Hx & Et%bool_decide_eq_true). destruct Hfresh.
      apply list_elem_of_In, in_map_iff. by exists x. }
    assert (p ∈ ahead_of s2 [] c g (wo_lock o) L2) as Hp' by (unfold ahead_of in Hp |- *; by rewrite Hnone in Hp). clear Hp.
    pose proof (step_queued c g Hc2 Hw) as Hc2q.
    destruct (scan_stop_ok s2 (bz_groups _ _ _ _ B2) c g (waitProcs L2) Hc2q) as (last & Hs & Hl & Hll & _); [rewrite step_leader; by apply (member_leader s ok c g Hg), Hc|].
    apply (elem_of_ahead_true s2 c g (wo_lock o) L2 p last Hnd Hs Hl) in Hp'. destruct (precedes_in _ _ _ Hp') as (Hpq & _).
    unfold waits_mode in Hconf. rewrite Ec, (step_procs p (or_intror Hpq)) in Hconf. rewrite <- Hlp. apply ordered_soft; try done; [congruence|].
    exists last. rewrite step_leader in Hll. split; [|done]. destruct (wn_rest _ _ _ _ _ W) as (P & EP). rewrite EP in Hp'. by eapply filter_precedes.
  - rewrite (fr_locks _ _ _ (wn_frame _ _ _ _ _ W) tag Hnt) in HL'. cbn in HL'. rewrite lookup_insert_ne in HL' by done.
    rewrite (ahead_of_ext s s2) in Hp by apply (fr_leader _ _ _ (wn_frame _ _ _ _ _ W)). exists L', p. rewrite (ahead_of_skip s o) by done. split_and!; try done.
    assert (allProcs s2 p = allProcs s p) as Ep.
    { assert (p ∈ waitProcs L') as Hpq.
      { eapply elem_of_ahead; [|exact HL'|exact Hp]. intros x Hx. destruct (Hrest x Hx) as (L3 & H3 & H4). exists L3. split; [done|]. intros q. by rewrite H4. }
      eapply (fr_waiters _ _ _ (wn_frame _ _ _ _ _ W) p tag Hnt). cbn. by eapply (queued_waits s ok). }
    unfold waits_mode in *. by rewrite Ec, Ep in Hconf.
Qed.
End step.

Lemma force_order s MyProc o L :
  lmgr_ok s -> LockHash s !! wo_lock o = Some L -> wo_procs o ≡ₚ waitProcs L -> adjacent s (wo_procs o) ->
  exists s2, ProcLockWakeup (put_lock s (wo_lock o) (requeue L (wo_procs o))) MyProc (wo_lock o) = Ret s2 /\ in_force s s2 o.
Proof.
  intros ok HL Hp Hadj. destruct (requeue_busy s _ L (wo_procs o) ok HL Hp) as (B & Hu & Hr).
  destruct (ProcLockWakeup_ok _ MyProc _ _ B) as (s2 & L2 & E & B2 & Hb & W). exists s2. split; [done|]. constructor.
  - eapply busy_lmgr_ok; [exact B2|done|by eapply entries_used_woken|]. rewrite (wn_requested _ _ _ _ _ W). done.
  - by eapply step_wakes.
  - intros t Hne. rewrite (fr_locks _ _ _ (wn_frame _ _ _ _ _ W) t Hne). by apply lookup_insert_ne.
  - intros rest a b Hrest Hfresh Ha (c & t & Hc & He). destruct (step_waiting _ _ _ _ _ W c a Hc) as (Hc0 & _). exists c, t. split; [done|].
    destruct He as [He|He]; [by eapply step_hard|right; by eapply step_soft].
Qed.

Lemma wait_edge_leader s orders a b : groups_ok (allProcs s) -> wait_edge s orders a b -> leader_of s b = b.
Proof. intros G (c & t & _ & [(L & p & lm & _ & _ & _ & <- & _)|(L & p & _ & _ & _ & <- & _)]); by apply leader_idem. Qed.

(** Orders that can be put in force. *)
Definition order_fits (s : lmgr) (o : WAIT_ORDER) : Prop :=
  exists L, LockHash s !! wo_lock o = Some L /\ wo_procs o ≡ₚ waitProcs L /\ adjacent s (wo_procs o).

Lemma apply_orders_ok MyProc orders : forall s,
  lmgr_ok s -> NoDup (map wo_lock orders) -> (forall o, o ∈ orders -> order_fits s o) ->
  exists s', apply_orders MyProc orders s = Ret s' /\ lmgr_ok s' /\ only_wakes s s' /\
    forall a b, leader_of s a = a -> wait_edge s' [] a b -> wait_edge s orders a b.
Proof.
  induction orders as [|o orders IH]; intros s ok Hnd Hfit; cbn [apply_orders]; [exists s; split_and!; [done|done|apply only_wakes_refl|done]|]. apply NoDup_cons in Hnd as (Hn & Hnd).
  destruct (Hfit o) as (L & HL & Hp & Hadj); [set_solver|]. rewrite HL. cbn [deref cbind].
  rewrite (proj2 (Z.eqb_eq (zlen (wo_procs o)) (zlen (waitProcs L)))) by (unfold zlen; by rewrite Hp). cbn [c_assert cbind].
  destruct (force_order s MyProc o L ok HL Hp Hadj) as (s2 & E & [F1 F2 F3 F4]). unfold requeue in E. rewrite E. cbn [cbind].
  assert (forall p, leader_of s2 p = leader_of s p) as Hl by (intros p; unfold leader_of; by rewrite (ow_groups _ _ F2)).
  assert (forall x, x ∈ orders -> wo_lock x <> wo_lock o) as Hne.
  { intros x Hx Ex. apply Hn. rewrite <- Ex. apply list_elem_of_In, in_map, list_elem_of_In, Hx. }
  destruct (IH s2 F1 Hnd) as (s' & -> & ok' & Ho' & He').
  { intros x Hx. destruct (Hfit x) as (Lx & H1 & H2 & H3); [set_solver|]. exists Lx. rewrite F3 by auto. split_and!; [done|done|].
    intros g. destruct (H3 g) as (l1 & l2 & l3 & -> & H4 & H5). exists l1, l2, l3. split_and!; [done|..]; intros p; rewrite Hl; auto. }
  exists s'. split_and!; [done|done|by eapply only_wakes_trans|]. intros a b Ha He. apply F4; [|done|done|].
  - intros x Hx. destruct (Hfit x) as (Lx & H1 & H2 & _); [set_solver|]. by exists Lx.
  - apply He'; [by rewrite Hl|done].
Qed.

(** ** Cycles *)

Lemma tc_last (R : Z -> Z -> Prop) a b : tc R a b -> exists y, R y b.
Proof. induction 1 as [a b H|a b c H _ IH]; eauto. Qed.

Lemma tc_impl (R R' : Z -> Z -> Prop) (P : Z -> Prop) a b :
  (forall x y, P x -> R x y -> R' x y /\ P y) -> P a -> tc R a b -> tc R' a b.
Proof.
  intros H Ha Hc. revert Ha. induction Hc as [a b HR|a c b HR _ IH]; intros Ha; [apply tc_once; by apply H|].
  destruct (H a c Ha HR). eapply tc_l; [done|auto].
Qed.

(** The steps of a cycle are steps between groups on cycles. *)
Lemma cycle_inner (R : Z -> Z -> Prop) a b : tc R a b -> rtc R b a -> tc (fun x y => R x y /\ tc R x x /\ tc R y y) a b.
Proof.
  induction 1 as [a b H|a c b H H1 IH]; intros Hback.
  - apply tc_once. split_and!; [done|eapply tc_rtc_r; [apply tc_once; exact H|exact Hback]|eapply tc_rtc_l; [exact Hback|apply tc_once; exact H]].
  - assert (tc R c a) as Hca by (by eapply tc_rtc_r). eapply tc_l; [|apply IH; by eapply rtc_r].
    split_and!; [done|eapply tc_l; [exact H|exact Hca]|]. eapply tc_r; [exact Hca|done].
Qed.

(** A graph that has no cycle through the tested groups and, but for edges to them,
    no edges that the other graph has not, has no cycle that the other has not. *)
Lemma cycles_persist (R R' : Z -> Z -> Prop) (T : Z -> Prop) x :
  (forall y, T y -> ~ tc R' y y) -> (forall a b, tc R' a a -> R' a b -> R a b \/ T b) ->
  tc R' x x -> tc (fun a b => R a b /\ ~ T a /\ ~ T b) x x.
Proof.
  intros HT Hadd Hc. pose proof (cycle_inner R' x x Hc (rtc_refl _ _)) as H. clear Hc. revert H. generalize x at 2 4. intros z H.
  induction H as [a b (H & Ha & Hb)|a c b (H & Ha & Hc) _ IH]; [apply tc_once|eapply tc_l; [|exact IH]].
  all: split_and!; [|intros Ht; by apply (HT _ Ht)|intros Ht; by apply (HT _ Ht)].
  - destruct (Hadd a b Ha H) as [?|Ht]; [done|by destruct (HT _ Ht)].
  - destruct (Hadd a c Ha H) as [?|Ht]; [done|by destruct (HT _ Ht)].
Qed.
