(* ===== verification/DeadlockVerdict.v ===== *)
(** * The deadlock detector: its verdict

    [DeadLockCheck] and [CheckDeadLock] always return, and their answer is right. *)
From stdpp Require Import list gmap functions relations.
From S2P Require Import Prelude LockModes LockTable LockInvariant LockOps Deadlock DeadlockCycle DeadlockTopo DeadlockSearch DeadlockApply.

(** A deadlock: a group that waits, through others, for itself. *)
Definition deadlocked (s : lmgr) (g : Z) : Prop := tc (wait_edge s []) g g.

(** A deadlock that group [g] has no part in. *)
Definition deadlocked_without (s : lmgr) (g x : Z) : Prop := tc (fun a b => wait_edge s [] a b /\ a <> g /\ b <> g) x x.

Section verdict.
Context (MaxBackends : Z) (vacuumFlags : Z -> Z) (MyProc : Z) (s : lmgr) (U : list Z) (proc : Z).
Hypothesis ok : lmgr_ok s.
Hypothesis se : searchable MaxBackends s [] U.
Hypothesis known : leader_of s proc ∈ U.

Lemma solution_fits cs orders : solution s U cs proc orders -> NoDup (map wo_lock orders) /\ forall o, o ∈ orders -> order_fits s o.
Proof.
  intros (_ & [O1 O2 _] & _). split; [done|]. intros o Ho. destruct (O2 o Ho) as (n & L & [H1 (H2 & H3 & _) _ _]). by exists L.
Qed.

(** A solution in force: the group is on no cycle, and no deadlock is left that does
    not go back to one the group had no part in. *)
Lemma solution_applied cs orders :
  solution s U cs proc orders ->
  exists s', apply_orders MyProc orders s = Ret s' /\ lmgr_ok s' /\ only_wakes s s' /\ ~ deadlocked s' (leader_of s proc) /\
    ((forall x, ~ deadlocked_without s (leader_of s proc) x) -> forall x, ~ deadlocked s' x).
Proof.
  intros S. destruct (solution_fits cs orders S) as (Hnd & Hfit). destruct S as (Hcs & O & Hno).
  destruct (apply_orders_ok MyProc orders s ok Hnd Hfit) as (s' & -> & ok' & Hwk & He). exists s'.
  assert (forall p, leader_of s' p = leader_of s p) as Hl by (intros p; unfold leader_of; by rewrite (ow_groups _ _ Hwk)).
  assert (forall a b, wait_edge s' [] a b -> leader_of s b = b) as Hlead.
  { intros a b H. rewrite <- Hl. eapply wait_edge_leader; [apply ok'|exact H]. }
  assert (forall x, deadlocked s' x -> tc (wait_edge s orders) x x) as Hsub.
  { intros x Hx. destruct (tc_last _ _ _ Hx) as (y & Hy). eapply (tc_impl _ _ (fun a => leader_of s a = a)); [|by eapply Hlead|exact Hx].
    intros a b Ha Hab. split; [by apply He|by eapply Hlead]. }
  assert (no_cycle s orders proc) as Hp by (apply Hno; unfold tested; set_solver).
  split_and!; [done|done|done|intros H; by apply Hp, Hsub|]. intros Hold x Hx. apply Hsub in Hx.
  apply (Hold x). apply (cycles_persist (wait_edge s []) (wait_edge s orders) (fun y => y = leader_of s proc \/ must_move cs y)) in Hx.
  - eapply (tc_impl _ _ (fun _ => True)); [|done|exact Hx]. intros a b _ (H & H1 & H2). naive_solver.
  - intros y [->|(c & Hc & <-)]; [done|]. destruct (Hcs c Hc) as [Hw _ _ _ _]. rewrite <- Hw. apply Hno. unfold tested.
    apply elem_of_app. left. apply list_elem_of_In, in_concat. exists [waiter c; blocker c]. split; [|by left]. apply in_map_iff. exists c. split; [done|by apply list_elem_of_In].
  - intros a b Ha Hab. destruct (added_edges s cs orders a b ok O) as [?|?]; [|done|by left|right; by right].
    destruct (tc_last _ _ _ Ha) as (y & H). by eapply wait_edge_leader; [apply ok|].
Qed.

Lemma DeadLockCheck_ok possible0 :
  zlen possible0 = maxPossibleConstraints MaxBackends ->
  exists s' v d a, DeadLockCheck MaxBackends vacuumFlags MyProc s proc possible0 = Ret (s', v, d, a) /\
    match v with
    | DS_HARD_DEADLOCK => s' = s /\ d <> [] /\ exists e, walk s [] (leader_of s proc) (leader_of s proc) d e
    | DS_NO_DEADLOCK => s' = s /\ ~ deadlocked s (leader_of s proc) /\ a = None
    | DS_BLOCKED_BY_AUTOVACUUM => s' = s /\ ~ deadlocked s (leader_of s proc) /\ a <> None
    | DS_SOFT_DEADLOCK => deadlocked s (leader_of s proc) /\ lmgr_ok s' /\ only_wakes s s' /\ ~ deadlocked s' (leader_of s proc) /\
        ((forall x, ~ deadlocked_without s (leader_of s proc) x) -> forall x, ~ deadlocked s' x)
    | DS_NOT_YET_CHECKED => False
    end.
Proof.
  intros Hlen. unfold DeadLockCheck. set (st0 := {| curConstraints := []; possibleConstraints := possible0; nPossibleConstraints := 0; waitOrders := []; ck_autovac := None |}).
  pose proof (se_size _ _ _ _ se). pose proof (zlen_nonneg U).
  assert (room MaxBackends st0) as R by (split_and!; [done|done|unfold maxPossibleConstraints; cbn [st0 nPossibleConstraints]; lia]).
  destruct (FindLockCycle_ok MaxBackends vacuumFlags MyProc s [] U proc None ok se known) as (res0 & av0 & _ & Hres0).
  destruct (DeadLockCheckRecurse_ok MaxBackends vacuumFlags MyProc s U ok se proc known (recurse_fuel MaxBackends) st0) as (st' & failed & E & _ & Hpost);
    [done|by intros c Hc%elem_of_nil|unfold maxCurConstraints; cbn [curConstraints st0]; change (zlen []) with 0; lia|unfold recurse_fuel, maxCurConstraints; cbn [curConstraints st0]; change (zlen []) with 0; lia|].
  assert (no_cycle s [] proc -> failed = false /\ waitOrders st' = []) as Hstart.
  { intros Hno. destruct (DeadLockCheckRecurse_start MaxBackends vacuumFlags MyProc s U ok se proc known st0 (Z.to_nat (maxCurConstraints MaxBackends)) R eq_refl Hno) as (st2 & E2 & H2).
    unfold recurse_fuel in E. rewrite E2 in E. by injection E as <- <-. }
  rewrite E. cbn [cbind]. destruct failed.
  - destruct (FindLockCycle_ok MaxBackends vacuumFlags MyProc s [] U proc (ck_autovac st') ok se known) as (res & av & -> & Hres). cbn [cbind].
    destruct res as [[d e]|]; [|by destruct (Hstart Hres)]. destruct Hres as (W & Hd & _). eexists _, _, _, _. split; [done|]. cbn. eauto.
  - destruct Hpost as (cs & S). destruct (solution_applied cs _ S) as (s' & E' & ok' & Hw & Hno & Hall). rewrite E'. cbn [cbind].
    eexists _, _, _, _. split; [done|]. destruct (Z.ltb_spec 0 (zlen (waitOrders st'))) as [Hpos|Hpos].
    + split_and!; [|done|done|done|done]. destruct res0 as [[d e]|]; [destruct Hres0 as (W & Hd & _); by eapply walk_tc|].
      destruct (Hstart Hres0) as (_ & Hnil). rewrite Hnil in Hpos. change (zlen (@nil WAIT_ORDER)) with 0 in Hpos. lia.
    + assert (waitOrders st' = []) as Hnil by (destruct (waitOrders st') as [|x l]; [done|rewrite zlen_cons in Hpos; pose proof (zlen_nonneg l); lia]).
      rewrite Hnil in E'. cbn in E'. injection E' as <-. case_bool_decide; split_and!; try done.
Qed.
End verdict.

(** ** The check of a waiting process *)

Lemma queued_at s p : lmgr_ok s -> links (allProcs s p) = true -> exists t L, waitLock (allProcs s p) = Some t /\ LockHash s !! t = Some L /\ p ∈ waitProcs L.
Proof. intros ok Hk. apply (ln_queued _ (ok_links _ ok) p Hk). Qed.

Lemma give_up_ok s p :
  lmgr_ok s -> links (allProcs s p) = true ->
  exists t L s', waitLock (allProcs s p) = Some t /\ LockHash s !! t = Some L /\ RemoveFromWaitQueue s p p = Ret s' /\ lmgr_ok s' /\ gave_up s s' t (waitProcs L) p.
Proof.
  intros ok Hk. destruct (queued_at s p ok Hk) as (t & L & Ht & HL & Hp).
  destruct (RemoveFromWaitQueue_ok s p t L p (lmgr_ok_busy s t L ok HL) (lk_used _ _ _ (ok_locks _ ok t L HL)) Hp) as (s' & E & ok' & G).
  by exists t, L, s'.
Qed.

Lemma CheckDeadLock_ok MaxBackends vacuumFlags s U p possible0 :
  lmgr_ok s -> searchable MaxBackends s [] U -> leader_of s p ∈ U -> zlen possible0 = maxPossibleConstraints MaxBackends ->
  exists s' v, CheckDeadLock MaxBackends vacuumFlags s p possible0 = Ret (s', v) /\ lmgr_ok s' /\
    match v with
    | DS_NOT_YET_CHECKED => links (allProcs s p) = false /\ s' = s
    | DS_HARD_DEADLOCK => deadlocked s (leader_of s p) /\ exists t L, waitLock (allProcs s p) = Some t /\ LockHash s !! t = Some L /\ gave_up s s' t (waitProcs L) p
    | DS_NO_DEADLOCK | DS_BLOCKED_BY_AUTOVACUUM => s' = s /\ ~ deadlocked s (leader_of s p)
    | DS_SOFT_DEADLOCK => deadlocked s (leader_of s p) /\ only_wakes s s' /\ ~ deadlocked s' (leader_of s p) /\
        ((forall x, ~ deadlocked_without s (leader_of s p) x) -> forall x, ~ deadlocked s' x)
    end.
Proof.
  intros ok se HU Hlen. unfold CheckDeadLock. destruct (links (allProcs s p)) eqn:Hk; cbn [negb]; [|by exists s, DS_NOT_YET_CHECKED].
  destruct (DeadLockCheck_ok MaxBackends vacuumFlags p s U p ok se HU possible0 Hlen) as (s' & v & d & a & -> & Hv). cbn [cbind]. destruct v; try done.
  - destruct Hv as (-> & Hv & _). by exists s, DS_NO_DEADLOCK.
  - destruct Hv as (H1 & H2 & H3 & H4 & H5). by exists s', DS_SOFT_DEADLOCK.
  - destruct Hv as (-> & Hd & e & W). destruct (give_up_ok s p ok Hk) as (t & L & s2 & Ht & HL & -> & ok2 & G). cbn [cbind].
    exists s2, DS_HARD_DEADLOCK. split_and!; [done|done|by eapply walk_tc|by exists t, L].
  - destruct Hv as (-> & Hv & _). by exists s, DS_BLOCKED_BY_AUTOVACUUM.
Qed.
