(* ===== verification/LockSystem.v ===== *)
(** * Heavyweight locks: the system

    The shared state under any interleaving of the operations of the backends: each
    runs under the partition lock (all of them for the deadlock check), so that an
    operation is one step.  Every reachable state is in order. *)
From stdpp Require Import list gmap functions relations.
From S2P Require Import Prelude LockModes LockTable LockInvariant LockOps LockRequests LockSleep Deadlock DeadlockCycle DeadlockTopo DeadlockSearch DeadlockApply DeadlockVerdict.

Section system.
Context (MaxBackends : Z) (vacuumFlags : Z -> Z) (U : list Z).

(** One operation of a backend.  A lock that was taken by the fast path is put into the
    table as granted ([step_enter]); at the end of a transaction all modes of a lock are
    given back at once ([step_release_modes]). *)
Inductive lock_step (s : lmgr) : lmgr -> Prop :=
  | step_acquire room_lock room_proclock p t m dontWait s' r :
      p ∈ U -> leader_of s p ∈ U -> links (allProcs s p) = false -> is_mode m -> holds s t p m = false ->
      acquire_shared room_lock room_proclock s p t m dontWait = Ret (s', r) -> lock_step s s'
  | step_release p t m s' r :
      links (allProcs s p) = false -> is_mode m -> holds s t p m = true -> release_shared s p t m = Ret (s', r) -> lock_step s s'
  | step_enter room_lock room_proclock p t m s1 s' :
      p ∈ U -> leader_of s p ∈ U -> is_mode m -> holds s t p m = false -> (waitLock (allProcs s p) = Some t -> waits_mode s p <> m) ->
      SetupLockInTable room_lock room_proclock s p t m = Ret (s1, SetupDone) -> GrantLock s1 t p m = Ret s' -> lock_step s s'
  | step_release_modes p t mask s' :
      links (allProcs s p) = false -> mask <> 0 -> (forall m, Z.testbit mask m = true -> holds s t p m = true) ->
      release_proclock s p t mask = Ret s' -> lock_step s s'
  | step_cancel p s' : links (allProcs s p) = true -> RemoveFromWaitQueue s p p = Ret s' -> lock_step s s'
  | step_timeout p possible0 s' v :
      links (allProcs s p) = true -> zlen possible0 = maxPossibleConstraints MaxBackends ->
      CheckDeadLock MaxBackends vacuumFlags s p possible0 = Ret (s', v) -> lock_step s s'.

(** At startup nobody holds or awaits a lock. *)
Record starting (s : lmgr) : Prop := {
  in_groups : groups_ok (allProcs s);
  in_locks : LockHash s = ∅;
  in_proclocks : ProcLockHash s = ∅;
  in_idle : forall p, links (allProcs s p) = false /\ waitLock (allProcs s p) = None }.

Definition lock_reachable (s : lmgr) : Prop := exists s0, starting s0 /\ rtc lock_step s0 s.

(** The processes that hold or await locks are backends. *)
Record populated (s : lmgr) : Prop := {
  po_holders : forall t q m, holds s t q m = true -> q ∈ U /\ leader_of s q ∈ U;
  po_waiters : forall q, links (allProcs s q) = true -> q ∈ U /\ leader_of s q ∈ U }.

Lemma starting_ok s : starting s -> lmgr_ok s /\ populated s.
Proof.
  intros [H1 H2 H3 H4]. assert (forall t p, ~ is_Some (ProcLockHash s !! (t, p))) as Hn by (intros t p [x Hx]; rewrite H3, lookup_empty in Hx; done).
  split; constructor; [done| | | | |].
  - intros t L HL. by rewrite H2, lookup_empty in HL.
  - intros t p Hs. by destruct (Hn t p).
  - constructor; intros p Hp; [rewrite (proj1 (H4 p)) in Hp; done|by apply H4].
  - intros t q m Hh. unfold holds in Hh. by rewrite H3, lookup_empty in Hh.
  - intros q Hq. by rewrite (proj1 (H4 q)) in Hq.
Qed.

Lemma populated_searchable s : zlen U <= MaxBackends -> lmgr_ok s -> populated s -> searchable MaxBackends s [] U.
Proof.
  intros Hs ok [P1 P2]. constructor; [done| |by intros o H%elem_of_nil]. intros t p Hp. destruct (ok_dom _ ok t p Hp) as [L HL].
  pose proof (ok_locks _ ok t L HL) as K. destruct Hp as [pl Hpl]. destruct (lk_used _ _ _ K p pl Hpl) as [Hz|Hq].
  - destruct (nonzero_bit _ Hz) as (m & _ & Hm). apply (P1 t p m). unfold holds. by rewrite Hpl.
  - apply P2. by apply (wk_links _ t p), (lc_waiters _ _ _ (lk_queue _ _ _ K)).
Qed.

(** Only the process that runs, or a process that was waiting, gains a lock. *)
Lemma populated_step s s' p :
  populated s -> p ∈ U /\ leader_of s p ∈ U -> (forall q, leader_of s' q = leader_of s q) ->
  (forall t q m, holds s' t q m = true -> holds s t q m = true \/ links (allProcs s q) = true \/ q = p) ->
  (forall q, links (allProcs s' q) = true -> links (allProcs s q) = true \/ q = p) -> populated s'.
Proof.
  intros [P1 P2] Hp Hl Hh Hk. constructor.
  - intros t q m H. rewrite Hl. destruct (Hh t q m H) as [?|[?| ->]]; [by eapply P1|by apply P2|done].
  - intros q H. rewrite Hl. destruct (Hk q H) as [?| ->]; [by apply P2|done].
Qed.

(** The same for a step on one lock, by what it does to that lock. *)
Lemma populated_frame s s' t p :
  populated s -> p ∈ U /\ leader_of s p ∈ U -> frame s s' t ->
  (forall q m, holds s' t q m = true -> holds s t q m = true \/ links (allProcs s q) = true \/ q = p) ->
  (forall q, links (allProcs s' q) = true -> links (allProcs s q) = true \/ q = p) -> populated s'.
Proof.
  intros P Hp F Hh Hk. apply (populated_step s s' p P Hp (frame_leader _ _ _ F)); [|done]. intros t' q m H.
  destruct (decide (t' = t)) as [->|Hne]; [by apply Hh|]. left. by rewrite <- (frame_holds _ _ _ F).
Qed.

Lemma queue_links s t L q : lmgr_ok s -> LockHash s !! t = Some L -> q ∈ waitProcs L -> links (allProcs s q) = true.
Proof. intros ok HL Hq. apply (wk_links _ t q). by apply (lc_waiters _ _ _ (lk_queue _ _ _ (ok_locks _ ok t L HL))). Qed.

Lemma default_queue s t q : lmgr_ok s -> q ∈ waitProcs (default new_LOCK (LockHash s !! t)) -> links (allProcs s q) = true.
Proof. intros ok. destruct (LockHash s !! t) as [L|] eqn:HL; simpl; unfold id; [by eapply queue_links|by intros H%elem_of_nil]. Qed.

Lemma acquire_populated s s' t p m dontWait r :
  lmgr_ok s -> populated s -> p ∈ U /\ leader_of s p ∈ U ->
  acquire_post s s' t (default new_LOCK (LockHash s !! t)) p m dontWait r -> populated s'.
Proof.
  intros ok P Hp (_ & F & _ & _ & Hpost). assert (forall q, q <> p -> allProcs s' q = allProcs s q -> links (allProcs s' q) = true -> links (allProcs s q) = true) as Hsame by (intros q _ ->; done).
  assert ((forall q, q <> p -> allProcs s' q = allProcs s q) -> forall q, links (allProcs s' q) = true -> links (allProcs s q) = true \/ q = p) as Hothers.
  { intros H q Hk. destruct (decide (q = p)) as [->|Hne]; [by right|left]. by rewrite <- H. }
  destruct r; [by subst| | | |]; apply (populated_frame s s' t p P Hp F).
  - intros q i. rewrite (proj1 (proj2 Hpost)). intros [?|(->%Z.eqb_eq & _)%andb_true_iff]%orb_true_iff; auto.
  - apply Hothers, Hpost.
  - destruct Hpost as (_ & _ & Hh & _). intros q i. rewrite Hh. auto.
  - destruct Hpost as (_ & _ & _ & ->). auto.
  - destruct Hpost as (_ & _ & _ & _ & _ & _ & Hn & _). intros q i Hq. destruct (Hn q i Hq) as [?|Hin]; [by left|right; left]. by eapply default_queue.
  - destruct Hpost as (_ & _ & Hk & _ & _ & _ & _ & Hs). intros q Hq. destruct (decide (q = p)) as [->|Hne]; [by right|left].
    destruct (decide (q ∈ waitProcs (default new_LOCK (LockHash s !! t)))) as [Hin|Hn]; [by eapply default_queue|]. by rewrite <- Hs.
  - destruct Hpost as (_ & _ & Hh & _). intros q i. rewrite Hh. auto.
  - apply Hothers, Hpost.
Qed.

Lemma gave_up_populated s s' t L p :
  lmgr_ok s -> populated s -> p ∈ U /\ leader_of s p ∈ U -> LockHash s !! t = Some L -> gave_up s s' t (waitProcs L) p -> populated s'.
Proof.
  intros ok P Hp HL [F K1 K2 K3 _ _ K4 K5]. apply (populated_frame s s' t p P Hp F).
  - intros q m Hq. destruct (K5 q m Hq) as [?|(Hin & _)]; [by left|right; left]. by eapply queue_links.
  - intros q Hq. destruct (decide (q = p)) as [->|Hne]; [by right|left]. destruct (decide (q ∈ waitProcs L)) as [Hin|Hn]; [by eapply queue_links|]. by rewrite <- K2.
Qed.

Lemma released_populated s s' t L p m :
  lmgr_ok s -> populated s -> p ∈ U /\ leader_of s p ∈ U -> LockHash s !! t = Some L -> released s s' t (waitProcs L) p m -> populated s'.
Proof.
  intros ok P Hp HL [F K1 _ _ K2 K3 K4]. apply (populated_frame s s' t p P Hp F).
  - intros q i Hq. destruct (K4 q i Hq) as [?|(Hin & _)]; [by left|right; left]. by eapply queue_links.
  - intros q Hq. left. destruct (decide (q ∈ waitProcs L)) as [Hin|Hn]; [by eapply queue_links|]. by rewrite <- K1.
Qed.

Lemma released_modes_populated s s' t L p mask :
  lmgr_ok s -> populated s -> p ∈ U /\ leader_of s p ∈ U -> LockHash s !! t = Some L -> released_modes s s' t (waitProcs L) p mask -> populated s'.
Proof.
  intros ok P Hp HL R. apply (populated_frame s s' t p P Hp (rm_frame _ _ _ _ _ _ R)).
  - intros q i Hq. destruct (rm_new _ _ _ _ _ _ R q i Hq) as [?|Hin]; [by left|right; left]. by eapply queue_links.
  - intros q Hq. left. destruct (decide (q ∈ waitProcs L)) as [Hin|Hn]; [by eapply queue_links|]. by rewrite <- (rm_procs _ _ _ _ _ _ R).
Qed.

Lemma wakes_populated s s' : populated s -> only_wakes s s' -> populated s'.
Proof.
  intros [P1 P2] [W1 W2 W3 _ _ W4 W5]. assert (forall q, leader_of s' q = leader_of s q) as Hl by (intros q; unfold leader_of; by rewrite W1). constructor.
  - intros t q m Hq. rewrite Hl. destruct (W3 t q m Hq) as [?|(? & _)]; [by eapply P1|by apply P2].
  - intros q Hq. rewrite Hl. apply P2. by rewrite <- (W4 q Hq).
Qed.

Hypothesis enough : zlen U <= MaxBackends.

Lemma lock_step_ok s s' : lmgr_ok s -> populated s -> lock_step s s' -> lmgr_ok s' /\ populated s'.
Proof.
  intros ok P Hs. destruct Hs as [rl rp p t m dw s' r HU HU' Hk Hm Hh E|p t m s' r Hk Hm Hh E|rl rp p t m s1 s' HU HU' Hm Hh Hw E1 E2|p t mask s' Hk Hz Hh E|p s' Hk E|p possible0 s' v Hk Hlen E].
  - destruct (acquire_shared_ok rl rp s p t m dw ok Hk Hm Hh) as (s2 & r2 & E2 & Hpost & _). rewrite E2 in E. injection E as <- <-.
    split; [apply Hpost|]. eapply (acquire_populated s s2 t p m dw r2); [done|done|by split|done].
  - destruct (release_shared_ok s t p m ok Hk Hm Hh) as (L & s2 & HL & E2 & ok2 & R). rewrite E2 in E. injection E as <- <-.
    split; [done|]. exact (released_populated s s2 t L p m ok P (po_holders _ P t p m Hh) HL R).
  - destruct (enter_granted rl rp s p t m ok Hm Hh Hw) as [(E3 & _)|(s3 & s4 & E3 & E4 & ok4 & F & Ha & Hp)]; [by rewrite E3 in E1|].
    rewrite E3 in E1. injection E1 as <-. rewrite E4 in E2. injection E2 as <-. split; [done|]. apply (populated_frame s s4 t p P (conj HU HU') F).
    + intros q i. rewrite Ha. intros [?|(->%Z.eqb_eq & _)%andb_true_iff]%orb_true_iff; auto.
    + intros q. rewrite Hp. auto.
  - destruct (nonzero_bit mask Hz) as (m & _ & Hm%Hh). pose proof (po_holders _ P t p m Hm) as Hp.
    destruct (release_proclock_ok s t p mask ok Hk) as (L & s2 & HL & E2 & ok2 & _ & R); [unfold holds in Hm; destruct (ProcLockHash s !! (t, p)); [eauto|done]|done|].
    rewrite E2 in E. injection E as <-. split; [done|]. exact (released_modes_populated s s2 t L p mask ok P Hp HL R).
  - destruct (give_up_ok s p ok Hk) as (t & L & s2 & Ht & HL & E2 & ok2 & G). rewrite E2 in E. injection E as <-.
    split; [done|]. exact (gave_up_populated s s2 t L p ok P (po_waiters _ P p Hk) HL G).
  - destruct (po_waiters _ P p Hk) as (HU & HU').
    destruct (CheckDeadLock_ok MaxBackends vacuumFlags s U p possible0 ok (populated_searchable s enough ok P) HU' Hlen) as (s2 & v2 & E2 & ok2 & Hv).
    rewrite E2 in E. injection E as <- <-. split; [done|]. destruct v2.
    + by destruct Hv as (_ & ->).
    + by destruct Hv as (-> & _).
    + eapply wakes_populated; [exact P|apply Hv].
    + destruct Hv as (_ & t & L & _ & HL & G). exact (gave_up_populated s s2 t L p ok P (conj HU HU') HL G).
    + by destruct Hv as (-> & _).
Qed.

Lemma lock_reachable_ok s : lock_reachable s -> lmgr_ok s /\ populated s.
Proof.
  intros (s0 & Hi & Hr). destruct (starting_ok s0 Hi) as (ok & P). clear Hi. induction Hr as [s|s s1 s2 H _ IH]; [done|].
  destruct (lock_step_ok s s1 ok P H). by apply IH.
Qed.
End system.
