(* ===== verification/LockTheorems.v ===== *)
(** * Heavyweight locks and deadlocks: the claims

    What the lock manager and the deadlock detector promise in every reachable state,
    with concrete states on which each claim applies, and two defects of the
    detector. *)
From stdpp Require Import list gmap functions relations.
From S2P Require Import Prelude LockModes LockTable LockInvariant LockOps LockRequests LockSleep Deadlock DeadlockCycle DeadlockTopo DeadlockSearch DeadlockApply DeadlockVerdict LockSystem.

(** ** Concrete states *)

Module demo.
Definition idle (leader : option Z) (members : list Z) : PGPROC :=
  {| pid := 0; lockGroupLeader := leader; lockGroupMembers := members; links := false; waitLock := None;
     waitProcLock := None; waitLockMode := 0; heldLocks := 0; waitStatus := STATUS_OK |}.

(** Processes without groups, and with a group of 10 and 11. *)
Definition start : lmgr := {| allProcs := fun _ => idle None []; LockHash := ∅; ProcLockHash := ∅ |}.
Definition grouped (p : Z) : PGPROC :=
  if p =? 10 then idle (Some 10) [10; 11] else if p =? 11 then idle (Some 10) [] else idle None [].
Definition start_grouped : lmgr := {| allProcs := grouped; LockHash := ∅; ProcLockHash := ∅ |}.

Definition t1 : LOCKTAG := Build_LOCKTAG 1 0 0 0 0 1.
Definition t2 : LOCKTAG := Build_LOCKTAG 2 0 0 0 0 1.
Definition backends : list Z := [1; 2; 3; 4].

Definition acquire (s : lmgr) (p : Z) (t : LOCKTAG) (m : Z) : lmgr :=
  match acquire_shared true true s p t m false with Ret (s', _) => s' | _ => s end.

Lemma start_starting : starting start.
Proof.
  constructor; try done. constructor; [done|]. intros p l. cbn. split; [by intros H%elem_of_nil|done].
Qed.

Lemma grouped_starting : starting start_grouped.
Proof.
  constructor; try done.
  - constructor; intros p l; cbn [start_grouped allProcs]; unfold grouped.
    + intros H. assert (l = 10) as -> by (repeat case_match; cbn in H; congruence). done.
    + repeat case_match; cbn; rewrite ?Z.eqb_eq, ?Z.eqb_neq in *; subst; rewrite ?elem_of_nil; set_unfold; try (split; [lia|done]); try (split; [done|congruence]); naive_solver congruence.
  - intros p. cbn [start_grouped allProcs]. unfold grouped. by repeat case_match.
Qed.

Lemma acquire_step n flags U s p t m :
  lock_reachable n flags U s -> zlen U <= n -> p ∈ U -> leader_of s p ∈ U -> links (allProcs s p) = false -> is_mode m -> holds s t p m = false ->
  lock_reachable n flags U (acquire s p t m).
Proof.
  intros Hr Hn H1 H2 H3 H4 H5. destruct (lock_reachable_ok n flags U Hn s Hr) as (ok & _). unfold acquire.
  destruct (acquire_shared_ok true true s p t m false ok H3 H4 H5) as (s' & r & E & _). rewrite E.
  destruct Hr as (s0 & Hi & Hs). exists s0. split; [done|]. eapply rtc_r; [exact Hs|]. exact (step_acquire n flags U s true true p t m false s' r H1 H2 H3 H4 H5 E).
Qed.

(** 1 and 2 share lock 1. *)
Definition shared : lmgr := acquire (acquire start 1 t1 AccessShareLock) 2 t1 AccessShareLock.
(** 3 waits for lock 1 in a mode that conflicts with both, 4 behind it. *)
Definition queued : lmgr := acquire (acquire shared 3 t1 AccessExclusiveLock) 4 t1 AccessShareLock.
(** 1 holds lock 1 and waits for lock 2, 2 holds lock 2 and waits for lock 1. *)
Definition crossed : lmgr :=
  acquire (acquire (acquire (acquire start 1 t1 AccessExclusiveLock) 2 t2 AccessExclusiveLock) 1 t2 AccessExclusiveLock) 2 t1 AccessExclusiveLock.
(** 2 waits for lock 1 behind 1; 3 holds lock 2 and waits behind 2 though only 2 is in
    its way; 1 waits for lock 2. *)
Definition entangled : lmgr :=
  acquire (acquire (acquire (acquire (acquire start 1 t1 AccessShareLock) 2 t1 AccessExclusiveLock) 3 t2 AccessExclusiveLock) 3 t1 AccessShareLock) 1 t2 AccessExclusiveLock.

(** 30 holds lock 1; 20 and then the group of 10 and 11 wait for it. *)
Definition group_queue : lmgr :=
  acquire (acquire (acquire (acquire start_grouped 30 t1 AccessExclusiveLock) 20 t1 AccessExclusiveLock) 10 t1 AccessExclusiveLock) 11 t1 AccessExclusiveLock.
(** The only backend, 1, waits for a lock of the prepared transaction 5. *)
Definition prepared : lmgr := acquire (acquire start 5 t1 AccessExclusiveLock) 1 t1 AccessExclusiveLock.

Ltac reach := repeat (first [apply acquire_step; [ | vm_compute; discriminate | set_solver | vm_compute; set_solver | vm_compute; reflexivity | vm_compute; split; congruence | vm_compute; reflexivity]
                            | exists start_grouped; split; [apply grouped_starting|apply rtc_refl]
                            | exists start; split; [apply start_starting|apply rtc_refl]]).

Lemma shared_reachable flags : lock_reachable 4 flags backends shared.
Proof. unfold shared. reach. Qed.

Lemma queued_reachable flags : lock_reachable 4 flags backends queued.
Proof. unfold queued, shared. reach. Qed.

Lemma crossed_reachable flags : lock_reachable 4 flags backends crossed.
Proof. unfold crossed. reach. Qed.

Lemma entangled_reachable flags : lock_reachable 4 flags backends entangled.
Proof. unfold entangled. reach. Qed.

Lemma group_queue_reachable flags : lock_reachable 4 flags [10; 11; 20; 30] group_queue.
Proof. unfold group_queue. reach. Qed.

(** The edge to reverse: group 10 has to come before 20. *)
Definition edge : EDGE := {| waiter := 10; blocker := 20; elock := t1 |}.
Definition soft_edge3 : EDGE := {| waiter := 3; blocker := 2; elock := t1 |}.
Definition no_edges : list EDGE := replicate 16 edge.
End demo.

Section claims.
Context (MaxBackends : Z) (vacuumFlags : Z -> Z) (U : list Z).

(** ** The lock table *)

(** C18. In every reachable state the lock table is well formed: a lock's list of owners
    and its entries in the table of owners agree; the counters and masks of a lock are
    what its owners hold and its waiters ask for, mode by mode and in total; a process
    stands in a queue exactly if it waits for that lock, for one of the eight modes and
    not one it has; and no lock or entry is left over that nobody uses. *)
Theorem lock_table_well_formed s t L :
  zlen U <= MaxBackends -> lock_reachable MaxBackends vacuumFlags U s -> LockHash s !! t = Some L ->
  (NoDup (procLocks L) /\ forall p, p ∈ procLocks L <-> is_Some (ProcLockHash s !! (t, p))) /\
  (forall m, mget (granted L) m = countb (fun p => holds s t p m) (procLocks L) /\
     mget (requested L) m = mget (granted L) m + countb (fun w => waitLockMode (allProcs s w) =? m) (waitProcs L)) /\
  nGranted L = msum (mget (granted L)) /\ nRequested L = nGranted L + zlen (waitProcs L) /\
  (forall m, 0 <= m -> Z.testbit (grantMask L) m = (0 <? mget (granted L) m) /\
     Z.testbit (waitMask L) m = (0 <? countb (fun w => waitLockMode (allProcs s w) =? m) (waitProcs L))) /\
  NoDup (waitProcs L) /\
  (forall w, w ∈ waitProcs L <-> links (allProcs s w) = true /\ waitLock (allProcs s w) = Some t) /\
  (forall w, w ∈ waitProcs L -> is_mode (waitLockMode (allProcs s w)) /\ holds s t w (waitLockMode (allProcs s w)) = false) /\
  0 < nRequested L /\ (forall p pl, ProcLockHash s !! (t, p) = Some pl -> holdMask pl <> 0 \/ p ∈ waitProcs L).
Proof.
  intros Hn Hr HL. destruct (lock_reachable_ok _ _ _ Hn s Hr) as (ok & _). destruct (ok_locks _ ok t L HL) as [G Q C _ Hu Hl].
  destruct C as [C1 C2]. cbn in C1, C2. split_and!.
  - apply G.
  - apply (lc_proclocks _ _ _ G).
  - intros m. split; [apply G|]. rewrite (C1 m). unfold waits_mode. lia.
  - apply G.
  - lia.
  - intros m Hm. split; [by apply G|by apply Q].
  - apply Q.
  - intros w. split.
    + intros Hw. destruct (lc_waiters _ _ _ Q w Hw) as ([W1 W2 _ _ _ _ _] & _). done.
    + intros (Hk & Hw). destruct (ln_queued _ (ok_links _ ok) w Hk) as (t' & L' & H1 & H2 & H3). congruence.
  - intros w Hw. destruct (lc_waiters _ _ _ Q w Hw) as ([_ _ _ _ W5 W6 _] & _). done.
  - done.
  - exact Hu.
Qed.

(** C6. No wake-up is ever lost: in every reachable state each waiter of a queue is
    blocked, by a holder of another group or by a conflicting request ahead of it. *)
Theorem lock_no_lost_wakeup s t L ahead w behind :
  zlen U <= MaxBackends -> lock_reachable MaxBackends vacuumFlags U s -> LockHash s !! t = Some L -> waitProcs L = ahead ++ w :: behind ->
  (exists a, a ∈ ahead /\ DoLockModesConflict (waitLockMode (allProcs s w)) (waitLockMode (allProcs s a)) = Ret true) \/
  (exists q m, leader_of s q <> leader_of s w /\ holds s t q m = true /\ DoLockModesConflict (waitLockMode (allProcs s w)) m = Ret true).
Proof.
  intros Hn Hr HL E. destruct (lock_reachable_ok _ _ _ Hn s Hr) as (ok & _). destruct (ok_locks _ ok t L HL) as [G Q _ Hb _ _].
  destruct (lc_waiters _ _ _ Q w) as ([_ _ _ _ Hmw _ _] & _); [rewrite E; set_solver|]. destruct (Hb ahead w behind E) as [(a & Ha & Hc)|(q & m & H1 & H2 & H3)].
  - left. exists a. split; [done|]. destruct (lc_waiters _ _ _ Q a) as ([_ _ _ _ W5 _ _] & _); [rewrite E; set_solver|].
    unfold waits_mode in *. by rewrite modes_conflict, Hc.
  - right. exists q, m. split_and!; [done|done|]. destruct (held_mode s t L G q m H2) as (Hm & _).
    unfold waits_mode in *. by rewrite modes_conflict, H3.
Qed.

(** C21. A request for a lock always returns, without a panic or a failed assertion, and
    its outcome is right: granted only if no other group holds a conflicting mode;
    refused or queued only if a holder of another group or a waiter is in the way;
    a deadlock reported at once only if the process and a waiter of another group do
    block each other; out of memory only if the shared table is full.  It changes
    nothing of other locks, takes nothing from anybody and keeps the table in order. *)
Theorem lock_acquire_outcomes room_lock room_proclock s p t m dontWait :
  zlen U <= MaxBackends -> lock_reachable MaxBackends vacuumFlags U s -> links (allProcs s p) = false -> is_mode m -> holds s t p m = false ->
  exists s' r, acquire_shared room_lock room_proclock s p t m dontWait = Ret (s', r) /\
    acquire_post s s' t (default new_LOCK (LockHash s !! t)) p m dontWait r /\
    (r = AcquireOutOfMemory -> room_lock && room_proclock = false).
Proof. intros Hn Hr Hk Hm Hh. apply acquire_shared_ok; [|done|done|done]. by apply (lock_reachable_ok _ _ _ Hn s Hr). Qed.

(** ** The deadlock detector *)

(** C17. The search for a cycle always ends inside its work arrays, whatever order is
    proposed for the queues, and is exact: it finds a cycle of the waits-for graph
    through the group of the process if and only if there is one, and what it reports is
    such a cycle, step by step, with all its soft edges. *)
Theorem find_lock_cycle_exact MyProc s orders p autovac :
  zlen U <= MaxBackends -> lock_reachable MaxBackends vacuumFlags U s -> leader_of s p ∈ U -> (forall o, o ∈ orders -> rearranges s o) ->
  exists res autovac', FindLockCycle MaxBackends vacuumFlags MyProc s orders p autovac = Ret (res, autovac') /\
    (is_Some res <-> tc (wait_edge s orders) (leader_of s p) (leader_of s p)) /\
    (forall d e, res = Some (d, e) -> walk s orders (leader_of s p) (leader_of s p) d e /\ d <> [] /\ zlen e <= zlen d <= MaxBackends).
Proof.
  intros Hn Hr HU Ho. destruct (lock_reachable_ok _ _ _ Hn s Hr) as (ok & P).
  assert (searchable MaxBackends s orders U) as se.
  { destruct (populated_searchable MaxBackends U s Hn ok P) as [S1 S2 _]. constructor; [done|done|]. intros o Hin. destruct (Ho o Hin) as (L & H1 & H2). exists L. split; [done|]. intros q. by rewrite H2. }
  destruct (FindLockCycle_ok MaxBackends vacuumFlags MyProc s orders U p autovac ok se HU) as (res & av & E & H). exists res, av. split; [done|].
  destruct res as [[d e]|]; split.
  - split; [|by eauto]. intros _. destruct H as (W & Hd & _). by eapply walk_tc.
  - intros d' e' [= <- <-]. done.
  - split; [by intros []|]. intros Hc. by destruct H.
  - done.
Qed.

(** C22. Sorting a wait queue always ends.  The order it finds has the processes of the
    queue, each once, keeps every group together, and moves a process past a group that
    stood before it only if a constraint asks for it; if no group that has to move
    forward has two processes in the queue, the order satisfies every constraint.  If it
    finds none, no order of the queue satisfies the constraints. *)
Theorem topo_sort_correct s t L constraints :
  zlen U <= MaxBackends -> lock_reachable MaxBackends vacuumFlags U s -> LockHash s !! t = Some L ->
  (forall c, c ∈ constraints -> leader_of s (waiter c) = waiter c /\ leader_of s (blocker c) = blocker c /\ waiter c <> blocker c) ->
  exists r, TopoSort s t (waitProcs L) constraints = Ret r /\
    match r with
    | Some order =>
        order ≡ₚ waitProcs L /\ adjacent s order /\
        (single_waiters s (waitProcs L) constraints -> forall c, c ∈ constraints -> keeps s (waitProcs L) order c) /\
        (forall p q, p ∈ waitProcs L -> q ∈ waitProcs L -> behind_group s (waitProcs L) p q -> precedes order q p -> must_move constraints (leader_of s q))
    | None => forall order, order ≡ₚ waitProcs L -> ~ (forall c, c ∈ constraints -> keeps s (waitProcs L) order c)
    end.
Proof.
  intros Hn Hr HL Hc. destruct (lock_reachable_ok _ _ _ Hn s Hr) as (ok & _).
  apply TopoSort_sorts; [apply ok|apply (lc_queue_nodup _ _ _ (lk_queue _ _ _ (ok_locks _ ok t L HL)))| |done].
  intros p Hp. by eapply (queued_waits s ok).
Qed.

(** C2. The deadlock check always returns: its searches end, it stays inside its work
    arrays, and neither of its internal errors can occur.  A hard deadlock is reported
    only for a real cycle through the process, which the details describe, and the table
    is left alone.  No deadlock, or one blocked by an autovacuum worker, is reported only
    if the process is on no cycle.  A soft deadlock is reported only if it was on one;
    then queues were rearranged so that it is on none, waiters may have been woken and
    nothing else changed, and unless there was a deadlock without the process before
    there is no deadlock left at all. *)
Theorem deadlock_check_correct MyProc s proc possible0 :
  zlen U <= MaxBackends -> lock_reachable MaxBackends vacuumFlags U s -> leader_of s proc ∈ U -> zlen possible0 = maxPossibleConstraints MaxBackends ->
  exists s' v d a, DeadLockCheck MaxBackends vacuumFlags MyProc s proc possible0 = Ret (s', v, d, a) /\
    match v with
    | DS_HARD_DEADLOCK => s' = s /\ d <> [] /\ exists e, walk s [] (leader_of s proc) (leader_of s proc) d e
    | DS_NO_DEADLOCK => s' = s /\ ~ deadlocked s (leader_of s proc) /\ a = None
    | DS_BLOCKED_BY_AUTOVACUUM => s' = s /\ ~ deadlocked s (leader_of s proc) /\ a <> None
    | DS_SOFT_DEADLOCK => deadlocked s (leader_of s proc) /\ lmgr_ok s' /\ only_wakes s s' /\ ~ deadlocked s' (leader_of s proc) /\
        ((forall x, ~ deadlocked_without s (leader_of s proc) x) -> forall x, ~ deadlocked s' x)
    | DS_NOT_YET_CHECKED => False
    end.
Proof.
  intros Hn Hr HU Hlen. destruct (lock_reachable_ok _ _ _ Hn s Hr) as (ok & P).
  by apply (DeadLockCheck_ok MaxBackends vacuumFlags MyProc s U proc ok (populated_searchable MaxBackends U s Hn ok P) HU).
Qed.
End claims.

(** Two defects of the detector.  A group with two processes in the queue that has
    to move forward is not moved: [TopoSort] counts the constraint on the group's last
    process only and takes the other one for free, so its answer violates the constraint
    although an order that satisfies it exists.  And the array of visited processes has
    room for the backends only, but the holders of prepared transactions are visited
    too: with one backend that waits for such a holder the search has no outcome in
    the model, where the C code fails its assertion or writes past the end. *)
Example deadlock_detector_flaws :
  (exists s L, lock_reachable 4 (fun _ => 0) [10; 11; 20; 30] s /\ LockHash s !! demo.t1 = Some L /\ waitProcs L = [20; 10; 11] /\
     TopoSort s demo.t1 (waitProcs L) [demo.edge] = Ret (Some [20; 11; 10]) /\
     ~ keeps s (waitProcs L) [20; 11; 10] demo.edge /\ keeps s (waitProcs L) [10; 11; 20] demo.edge) /\
  (lock_reachable 2 (fun _ => 0) [1; 5] demo.prepared /\ links (allProcs demo.prepared 1) = true /\
   FindLockCycle 1 (fun _ => 0) 1 demo.prepared [] 1 None = Undef).
Proof.
  split; [|split; [unfold demo.prepared; demo.reach|split; vm_compute; reflexivity]].
  assert (leader_of demo.group_queue 10 = 10 /\ leader_of demo.group_queue 11 = 10 /\ leader_of demo.group_queue 20 = 20) as (E1 & E2 & E3) by (vm_compute; done).
  eexists demo.group_queue, _. split; [apply demo.group_queue_reachable|]. split; [vm_compute; reflexivity|]. cbn [waitProcs]. split; [reflexivity|]. split; [vm_compute; reflexivity|].
  revert E1 E2 E3. generalize demo.group_queue. intros s E1 E2 E3. split.
  - intros Hk. apply (precedes_irrefl [20; 11; 10] 10 20); [repeat constructor; set_solver|apply Hk; [set_solver|set_solver|exact E1|exact E3]|exists [20], [11; 10]; set_solver].
  - intros p q Hp Hq Hlp Hlq. cbn [demo.edge waiter blocker] in *. exists [10; 11], [20]. set_unfold.
    destruct Hp as [->|[->|[->|[]]]], Hq as [->|[->|[->|[]]]]; rewrite ?E1, ?E2, ?E3 in *; try lia; split_and!; auto.
Qed.

(** ** Witnesses *)

Lemma lock_table_well_formed_witness : exists L, LockHash demo.queued !! demo.t1 = Some L /\ waitProcs L = [3; 4] /\ nRequested L = nGranted L + zlen (waitProcs L).
Proof.
  eexists. split; [vm_compute; reflexivity|]. split; [reflexivity|].
  apply (lock_table_well_formed 4 (fun _ => 0) demo.backends demo.queued demo.t1);
    [vm_compute; discriminate|apply demo.queued_reachable|vm_compute; reflexivity].
Defined.

Lemma lock_no_lost_wakeup_witness :
  (exists a, a ∈ [3] /\ DoLockModesConflict (waitLockMode (allProcs demo.queued 4)) (waitLockMode (allProcs demo.queued a)) = Ret true) \/
  (exists q m, leader_of demo.queued q <> leader_of demo.queued 4 /\ holds demo.queued demo.t1 q m = true /\ DoLockModesConflict (waitLockMode (allProcs demo.queued 4)) m = Ret true).
Proof.
  eapply (lock_no_lost_wakeup 4 (fun _ => 0) demo.backends demo.queued demo.t1 _ [3] 4 []);
    [vm_compute; discriminate|apply demo.queued_reachable|vm_compute; reflexivity|vm_compute; reflexivity].
Defined.

Lemma lock_acquire_outcomes_witness :
  exists s' r, acquire_shared true true demo.queued 1 demo.t2 AccessShareLock true = Ret (s', r) /\
    acquire_post demo.queued s' demo.t2 (default new_LOCK (LockHash demo.queued !! demo.t2)) 1 AccessShareLock true r /\
    (r = AcquireOutOfMemory -> true && true = false).
Proof.
  apply (lock_acquire_outcomes 4 (fun _ => 0) demo.backends true true demo.queued 1 demo.t2 AccessShareLock true);
    [vm_compute; discriminate|apply demo.queued_reachable|vm_compute; reflexivity|vm_compute; split; congruence|vm_compute; reflexivity].
Defined.

Lemma find_lock_cycle_exact_witness :
  exists res autovac', FindLockCycle 4 (fun _ => 0) 2 demo.crossed [] 2 None = Ret (res, autovac') /\
    (is_Some res <-> tc (wait_edge demo.crossed []) (leader_of demo.crossed 2) (leader_of demo.crossed 2)) /\
    (forall d e, res = Some (d, e) -> walk demo.crossed [] (leader_of demo.crossed 2) (leader_of demo.crossed 2) d e /\ d <> [] /\ zlen e <= zlen d <= 4).
Proof.
  apply (find_lock_cycle_exact 4 (fun _ => 0) demo.backends 2 demo.crossed [] 2 None);
    [vm_compute; discriminate|apply demo.crossed_reachable|vm_compute; set_solver|by intros o H%elem_of_nil].
Defined.

Lemma topo_sort_correct_witness :
  exists L, LockHash demo.entangled !! demo.t1 = Some L /\ waitProcs L = [2; 3] /\
  exists r, TopoSort demo.entangled demo.t1 (waitProcs L) [demo.soft_edge3] = Ret r /\
    match r with
    | Some order =>
        order ≡ₚ waitProcs L /\ adjacent demo.entangled order /\
        (single_waiters demo.entangled (waitProcs L) [demo.soft_edge3] -> forall c, c ∈ [demo.soft_edge3] -> keeps demo.entangled (waitProcs L) order c) /\
        (forall p q, p ∈ waitProcs L -> q ∈ waitProcs L -> behind_group demo.entangled (waitProcs L) p q -> precedes order q p -> must_move [demo.soft_edge3] (leader_of demo.entangled q))
    | None => forall order, order ≡ₚ waitProcs L -> ~ (forall c, c ∈ [demo.soft_edge3] -> keeps demo.entangled (waitProcs L) order c)
    end.
Proof.
  eexists. split; [vm_compute; reflexivity|]. split; [reflexivity|].
  apply (topo_sort_correct 4 (fun _ => 0) demo.backends demo.entangled demo.t1);
    [vm_compute; discriminate|apply demo.entangled_reachable|vm_compute; reflexivity|].
  intros c ->%list_elem_of_singleton. vm_compute. split_and!; [reflexivity|reflexivity|discriminate].
Defined.

Lemma deadlock_check_correct_witness :
  exists s' v d a, DeadLockCheck 4 (fun _ => 0) 1 demo.entangled 1 demo.no_edges = Ret (s', v, d, a) /\
    match v with
    | DS_HARD_DEADLOCK => s' = demo.entangled /\ d <> [] /\ exists e, walk demo.entangled [] (leader_of demo.entangled 1) (leader_of demo.entangled 1) d e
    | DS_NO_DEADLOCK => s' = demo.entangled /\ ~ deadlocked demo.entangled (leader_of demo.entangled 1) /\ a = None
    | DS_BLOCKED_BY_AUTOVACUUM => s' = demo.entangled /\ ~ deadlocked demo.entangled (leader_of demo.entangled 1) /\ a <> None
    | DS_SOFT_DEADLOCK => deadlocked demo.entangled (leader_of demo.entangled 1) /\ lmgr_ok s' /\ only_wakes demo.entangled s' /\ ~ deadlocked s' (leader_of demo.entangled 1) /\
        ((forall x, ~ deadlocked_without demo.entangled (leader_of demo.entangled 1) x) -> forall x, ~ deadlocked s' x)
    | DS_NOT_YET_CHECKED => False
    end.
Proof.
  apply (deadlock_check_correct 4 (fun _ => 0) demo.backends 1 demo.entangled 1 demo.no_edges);
    [vm_compute; discriminate|apply demo.entangled_reachable|vm_compute; set_solver|reflexivity].
Defined.

(** Both kinds of deadlock are met. *)
Example crossed_is_hard : exists d, DeadLockCheck 4 (fun _ => 0) 2 demo.crossed 2 demo.no_edges = Ret (demo.crossed, DS_HARD_DEADLOCK, d, None) /\ zlen d = 2.
Proof. eexists. split; vm_compute; reflexivity. Qed.

Example entangled_is_soft :
  exists s' L, DeadLockCheck 4 (fun _ => 0) 1 demo.entangled 1 demo.no_edges = Ret (s', DS_SOFT_DEADLOCK, [], None) /\
    LockHash s' !! demo.t1 = Some L /\ waitProcs L = [2] /\ holds s' demo.t1 3 AccessShareLock = true.
Proof. eexists _, _. split; [vm_compute; reflexivity|]. split; [vm_compute; reflexivity|]. split; vm_compute; reflexivity. Qed.
