(* ===== verification/LockBackend.v ===== *)
(** * Heavyweight locks: the backend's side

    Models the rest of [storage/lmgr/lock.c]: the backend's own table of the locks it
    holds ([LOCALLOCK]) with their resource owners, the fast path by which weak locks on
    relations stay out of the shared table, and the whole of [LockAcquireExtended],
    [LockRelease], [LockReleaseAll] and [LockErrorCleanup] over them.

    A call is cut where another backend can come in between: before every critical
    section (the partition lock, a backend's fast-path lock, the spinlock of the counts
    of strong locks) and while it sleeps; only the count that a failed request gives
    back is given back in the section that failed.  The point a backend has reached is
    part of its state; one function per section takes it to the next point. *)
From stdpp Require Import list gmap functions.
From S2P Require Import Prelude LockModes LockTable.

(** ** Tags *)

Definition DEFAULT_LOCKMETHOD : Z := 1.
Definition USER_LOCKMETHOD : Z := 2.
Definition LOCKTAG_RELATION : Z := 0.
Definition LOCKTAG_OBJECT : Z := 7.
Definition InvalidOid : Z := 0.

(** The number of lock methods and the unused method 0. *)
Definition lengthof_LockMethods : Z := 3.

Definition SET_LOCKTAG_RELATION (dboid reloid : Z) : LOCKTAG := Build_LOCKTAG dboid reloid 0 0 LOCKTAG_RELATION DEFAULT_LOCKMETHOD.

Notation LOCALLOCKTAG := (LOCKTAG * Z)%type.

(** ** Fast-path slots of a PGPROC *)

Definition FP_LOCK_SLOTS_PER_BACKEND : Z := 16.
Definition FAST_PATH_BITS_PER_SLOT : Z := 3.
Definition FAST_PATH_LOCKNUMBER_OFFSET : Z := 1.
Definition FAST_PATH_MASK : Z := Z.shiftl 1 FAST_PATH_BITS_PER_SLOT - 1.

Record fastpath := { fpRelId : list Z; fpLockBits : Z; databaseId : Z }.

Definition FAST_PATH_GET_BITS (F : fastpath) (n : Z) : Z := Z.land (Z.shiftr (fpLockBits F) (FAST_PATH_BITS_PER_SLOT * n)) FAST_PATH_MASK.

Definition FAST_PATH_BIT_POSITION (n l : Z) : cres Z :=
  c_assert (FAST_PATH_LOCKNUMBER_OFFSET <=? l);;
  c_assert (l <? FAST_PATH_BITS_PER_SLOT + FAST_PATH_LOCKNUMBER_OFFSET);;
  c_assert (n <? FP_LOCK_SLOTS_PER_BACKEND);;
  Ret (l - FAST_PATH_LOCKNUMBER_OFFSET + FAST_PATH_BITS_PER_SLOT * n).

Definition set_bits (F : fastpath) (v : Z) : fastpath := {| fpRelId := fpRelId F; fpLockBits := v; databaseId := databaseId F |}.

Definition FAST_PATH_SET_LOCKMODE (F : fastpath) (n l : Z) : cres fastpath :=
  let* pos := FAST_PATH_BIT_POSITION n l in Ret (set_bits F (Z.lor (fpLockBits F) (Z.shiftl 1 pos))).
Definition FAST_PATH_CLEAR_LOCKMODE (F : fastpath) (n l : Z) : cres fastpath :=
  let* pos := FAST_PATH_BIT_POSITION n l in Ret (set_bits F (Z.land (fpLockBits F) (Z.lnot (Z.shiftl 1 pos)))).
Definition FAST_PATH_CHECK_LOCKMODE (F : fastpath) (n l : Z) : cres bool :=
  let* pos := FAST_PATH_BIT_POSITION n l in Ret (negb (Z.land (fpLockBits F) (Z.shiftl 1 pos) =? 0)).

(** Relation locks of the backend's database, in modes that do not conflict with each
    other; and the locks such a lock can conflict with. *)
Definition EligibleForRelationFastPath (MyDatabaseId : Z) (t : LOCKTAG) (mode : Z) : bool :=
  (locktag_lockmethodid t =? DEFAULT_LOCKMETHOD) && (locktag_type t =? LOCKTAG_RELATION) &&
  (locktag_field1 t =? MyDatabaseId) && negb (MyDatabaseId =? InvalidOid) && (mode <? ShareUpdateExclusiveLock).
Definition ConflictsWithRelationFastPath (t : LOCKTAG) (mode : Z) : bool :=
  (locktag_lockmethodid t =? DEFAULT_LOCKMETHOD) && (locktag_type t =? LOCKTAG_RELATION) &&
  negb (locktag_field1 t =? InvalidOid) && (ShareUpdateExclusiveLock <? mode).

Definition fast_slots : list Z := seqZ 0 FP_LOCK_SLOTS_PER_BACKEND.

(** The scan of [FastPathGrantRelationLock]: the slot of the relation, or the last free
    slot. *)
Fixpoint grant_scan (slots : list Z) (F : fastpath) (relid lockmode unused_slot : Z) : cres (Z + Z) :=
  match slots with
  | [] => Ret (inr unused_slot)
  | f :: slots =>
      if FAST_PATH_GET_BITS F f =? 0 then grant_scan slots F relid lockmode f
      else
        let* r := deref (zget (fpRelId F) f) in
        if r =? relid then
          let* b := FAST_PATH_CHECK_LOCKMODE F f lockmode in
          c_assert (negb b);; Ret (inl f)
        else grant_scan slots F relid lockmode unused_slot
  end.

(** With the use count of the backend; [false]: there is no slot for the lock. *)
Definition FastPathGrantRelationLock (F : fastpath) (useCount relid lockmode : Z) : cres (fastpath * Z * bool) :=
  let* r := grant_scan fast_slots F relid lockmode FP_LOCK_SLOTS_PER_BACKEND in
  match r with
  | inl f => let* F := FAST_PATH_SET_LOCKMODE F f lockmode in Ret (F, useCount, true)
  | inr unused_slot =>
      if unused_slot <? FP_LOCK_SLOTS_PER_BACKEND then
        let* ids := deref (zset (fpRelId F) unused_slot relid) in
        let* F := FAST_PATH_SET_LOCKMODE {| fpRelId := ids; fpLockBits := fpLockBits F; databaseId := databaseId F |} unused_slot lockmode in
        Ret (F, useCount + 1, true)
      else Ret (F, useCount, false)
  end.

(** The loop of [FastPathUnGrantRelationLock], which also counts the slots in use. *)
Fixpoint ungrant_scan (slots : list Z) (F : fastpath) (useCount relid lockmode : Z) (result : bool) : cres (fastpath * Z * bool) :=
  match slots with
  | [] => Ret (F, useCount, result)
  | f :: slots =>
      let* r := deref (zget (fpRelId F) f) in
      let* here := (if r =? relid then FAST_PATH_CHECK_LOCKMODE F f lockmode else Ret false) in
      let* (F, result) :=
        (if here then c_assert (negb result);; let* F := FAST_PATH_CLEAR_LOCKMODE F f lockmode in Ret (F, true) else Ret (F, result)) in
      ungrant_scan slots F (if FAST_PATH_GET_BITS F f =? 0 then useCount else useCount + 1) relid lockmode result
  end.

Definition FastPathUnGrantRelationLock (F : fastpath) (relid lockmode : Z) : cres (fastpath * Z * bool) :=
  ungrant_scan fast_slots F 0 relid lockmode false.

(** Moving the locks of one process on a relation to the shared table, mode by mode.
    [room] says for each mode whether the table has room for a LOCK and a PROCLOCK;
    [false]: it had not. *)
Fixpoint transfer_modes (room : Z -> bool * bool) (modes : list Z) (s : lmgr) (F : fastpath) (proc : Z) (tag : LOCKTAG) (f : Z) : cres (lmgr * fastpath * bool) :=
  match modes with
  | [] => Ret (s, F, true)
  | lockmode :: modes =>
      let* here := FAST_PATH_CHECK_LOCKMODE F f lockmode in
      if negb here then transfer_modes room modes s F proc tag f
      else
        let* (s, res) := SetupLockInTable (fst (room lockmode)) (snd (room lockmode)) s proc tag lockmode in
        match res with
        | SetupOutOfMemory => Ret (s, F, false)
        | SetupAlreadyHeld => Elog "lock is already held"
        | SetupDone =>
            let* s := GrantLock s tag proc lockmode in
            let* F := FAST_PATH_CLEAR_LOCKMODE F f lockmode in
            transfer_modes room modes s F proc tag f
        end
  end.

(** The slots are searched for the relation. *)
Fixpoint transfer_slots (room : Z -> bool * bool) (slots : list Z) (s : lmgr) (F : fastpath) (proc : Z) (tag : LOCKTAG) : cres (lmgr * fastpath * bool) :=
  match slots with
  | [] => Ret (s, F, true)
  | f :: slots =>
      let* r := deref (zget (fpRelId F) f) in
      if negb (locktag_field2 tag =? r) || (FAST_PATH_GET_BITS F f =? 0) then transfer_slots room slots s F proc tag
      else transfer_modes room (seqZ FAST_PATH_LOCKNUMBER_OFFSET FAST_PATH_BITS_PER_SLOT) s F proc tag f
  end.

(** One round of the loop of [FastPathTransferRelationLocks]. *)
Definition transfer_proc (room : Z -> bool * bool) (s : lmgr) (F : fastpath) (proc : Z) (tag : LOCKTAG) : cres (lmgr * fastpath * bool) :=
  if negb (databaseId F =? locktag_field1 tag) then Ret (s, F, true) else transfer_slots room fast_slots s F proc tag.

(** ** The local lock table *)

(** [ll_shared]: the pointers to the LOCK and the PROCLOCK are set; what they point to
    is found by the tag.  The owners in use are listed in array order; [None] is the
    session. *)
Record LOCALLOCK := {
  ll_shared : bool; nLocks : Z; holdsStrongLockCount : bool; lockCleared : bool;
  lockOwners : list (option Z * Z); maxLockOwners : Z }.

(** What a resource owner remembers of its locks. *)
Definition MAX_RESOWNER_LOCKS : Z := 15.
Record ResourceOwner := { nlocks : Z; ro_locks : list LOCALLOCKTAG }.

(** [l[i] = l[n - 1]] and [n] one less. *)
Definition swap_remove {A} (l : list A) (i : nat) : list A :=
  match last l with Some x => take (pred (length l)) (<[i := x]> l) | None => l end.

(** The last index with a property, as the loops that count down find it. *)
Fixpoint find_last {A} (P : A -> bool) (l : list A) : option nat :=
  match l with
  | [] => None
  | x :: l => match find_last P l with Some i => Some (S i) | None => if P x then Some 0%nat else None end
  end.

Definition ResourceOwnerRememberLock (o : ResourceOwner) (k : LOCALLOCKTAG) : ResourceOwner :=
  if MAX_RESOWNER_LOCKS <? nlocks o then o
  else {| nlocks := nlocks o + 1; ro_locks := if nlocks o <? MAX_RESOWNER_LOCKS then ro_locks o ++ [k] else ro_locks o |}.

Definition ResourceOwnerForgetLock (o : ResourceOwner) (k : LOCALLOCKTAG) : cres ResourceOwner :=
  if MAX_RESOWNER_LOCKS <? nlocks o then Ret o
  else
    c_assert (0 <? nlocks o);;
    match find_last (fun k' => bool_decide (k' = k)) (ro_locks o) with
    | Some i => Ret {| nlocks := nlocks o - 1; ro_locks := swap_remove (ro_locks o) i |}
    | None => Elog "lock reference is not owned by resource owner"
    end.

(** ** The state *)

Record request := { q_tag : LOCKTAG; q_mode : Z; q_owner : option Z; q_dontWait : bool; q_reportMemoryError : bool }.
Definition q_key (r : request) : LOCALLOCKTAG := (q_tag r, q_mode r).

Inductive LockAcquireResult := LOCKACQUIRE_NOT_AVAIL | LOCKACQUIRE_OK | LOCKACQUIRE_ALREADY_HELD | LOCKACQUIRE_ALREADY_CLEAR.

Inductive call_result :=
  | NoCall
  | Acquired (k : LOCALLOCKTAG) (r : LockAcquireResult)
  | Released (k : LOCALLOCKTAG) (r : bool)
  | AllReleased (lockmethodid : Z) (allLocks : bool)
  | CleanedUp.

(** Where a backend is: outside of the lock manager with the result of the last call; in
    [LockAcquireExtended] before the test of the count, after it with the fast-path lock
    held, before the transfer from process [i], before the shared table, or asleep; with
    an error raised, and in [LockErrorCleanup] after the count is given back; in
    [LockRelease] before the shared table, and before the local entry goes; in
    [LockReleaseAll] with local entries to do and the fast-path lock held or not, before
    the release of a lock that had been transferred, and before a partition. *)
Inductive point :=
  | Outside (r : call_result)
  | AtFastTest (r : request)
  | AtFastGrant (r : request)
  | AtTransfer (r : request) (i : Z)
  | AtShared (r : request)
  | AtSleep (r : request)
  | AtError
  | AtCleanup
  | AtRelease (k : LOCALLOCKTAG)
  | AtRemove (k : LOCALLOCKTAG)
  | AtReleaseLocal (lockmethodid : Z) (allLocks : bool) (todo : list LOCALLOCKTAG) (have_fast_path_lwlock : bool)
  | AtRefind (lockmethodid : Z) (allLocks : bool) (k : LOCALLOCKTAG) (todo : list LOCALLOCKTAG)
  | AtReleaseShared (lockmethodid : Z) (allLocks : bool) (partition : Z).

(** The variables of a backend.  [awaited] is [awaitedLock] with [awaitedOwner];
    [releaseMask] is the field of the backend's PROCLOCKs, which only it reads and
    writes. *)
Record backend := {
  LocalHash : gmap LOCALLOCKTAG LOCALLOCK;
  resOwners : Z -> ResourceOwner;
  FastPathLocalUseCount : Z;
  StrongLockInProgress : option LOCALLOCKTAG;
  lockAwaited : option LOCALLOCKTAG;
  awaited : option (LOCALLOCKTAG * option Z);
  releaseMask : LOCKTAG -> Z;
  at_point : point }.

(** The shared table, the fast-path slots of the processes, the counts of strong locks by
    partition of the tags, and the backends. *)
Record lockenv := {
  shared : lmgr;
  fast : Z -> fastpath;
  strongCount : Z -> Z;
  backend_of : Z -> backend }.

Definition set_shared (x : lockenv) (s : lmgr) : lockenv := {| shared := s; fast := fast x; strongCount := strongCount x; backend_of := backend_of x |}.
Definition set_fast (x : lockenv) (p : Z) (F : fastpath) : lockenv :=
  {| shared := shared x; fast := <[p := F]> (fast x); strongCount := strongCount x; backend_of := backend_of x |}.
Definition set_count (x : lockenv) (h v : Z) : lockenv :=
  {| shared := shared x; fast := fast x; strongCount := <[h := v]> (strongCount x); backend_of := backend_of x |}.
Definition set_backend (x : lockenv) (p : Z) (b : backend) : lockenv :=
  {| shared := shared x; fast := fast x; strongCount := strongCount x; backend_of := <[p := b]> (backend_of x) |}.

Definition with_locals (b : backend) (m : gmap LOCALLOCKTAG LOCALLOCK) : backend :=
  {| LocalHash := m; resOwners := resOwners b; FastPathLocalUseCount := FastPathLocalUseCount b; StrongLockInProgress := StrongLockInProgress b;
     lockAwaited := lockAwaited b; awaited := awaited b; releaseMask := releaseMask b; at_point := at_point b |}.
Definition with_owners (b : backend) (f : Z -> ResourceOwner) : backend :=
  {| LocalHash := LocalHash b; resOwners := f; FastPathLocalUseCount := FastPathLocalUseCount b; StrongLockInProgress := StrongLockInProgress b;
     lockAwaited := lockAwaited b; awaited := awaited b; releaseMask := releaseMask b; at_point := at_point b |}.
Definition with_useCount (b : backend) (n : Z) : backend :=
  {| LocalHash := LocalHash b; resOwners := resOwners b; FastPathLocalUseCount := n; StrongLockInProgress := StrongLockInProgress b;
     lockAwaited := lockAwaited b; awaited := awaited b; releaseMask := releaseMask b; at_point := at_point b |}.
Definition with_strong (b : backend) (k : option LOCALLOCKTAG) : backend :=
  {| LocalHash := LocalHash b; resOwners := resOwners b; FastPathLocalUseCount := FastPathLocalUseCount b; StrongLockInProgress := k;
     lockAwaited := lockAwaited b; awaited := awaited b; releaseMask := releaseMask b; at_point := at_point b |}.
Definition with_wait (b : backend) (k : option LOCALLOCKTAG) (a : option (LOCALLOCKTAG * option Z)) : backend :=
  {| LocalHash := LocalHash b; resOwners := resOwners b; FastPathLocalUseCount := FastPathLocalUseCount b; StrongLockInProgress := StrongLockInProgress b;
     lockAwaited := k; awaited := a; releaseMask := releaseMask b; at_point := at_point b |}.
Definition with_mask (b : backend) (t : LOCKTAG) (v : Z) : backend :=
  {| LocalHash := LocalHash b; resOwners := resOwners b; FastPathLocalUseCount := FastPathLocalUseCount b; StrongLockInProgress := StrongLockInProgress b;
     lockAwaited := lockAwaited b; awaited := awaited b; releaseMask := <[t := v]> (releaseMask b); at_point := at_point b |}.
Definition with_point (b : backend) (pt : point) : backend :=
  {| LocalHash := LocalHash b; resOwners := resOwners b; FastPathLocalUseCount := FastPathLocalUseCount b; StrongLockInProgress := StrongLockInProgress b;
     lockAwaited := lockAwaited b; awaited := awaited b; releaseMask := releaseMask b; at_point := pt |}.

Definition put_local (b : backend) (k : LOCALLOCKTAG) (l : LOCALLOCK) : backend := with_locals b (<[k := l]> (LocalHash b)).
Definition put_owner (b : backend) (o : Z) (r : ResourceOwner) : backend := with_owners b (<[o := r]> (resOwners b)).
Definition goto (x : lockenv) (p : Z) (pt : point) : lockenv := set_backend x p (with_point (backend_of x p) pt).

(** ** Local operations *)

Definition new_LOCALLOCK : LOCALLOCK :=
  {| ll_shared := false; nLocks := 0; holdsStrongLockCount := false; lockCleared := false; lockOwners := []; maxLockOwners := 8 |}.

Definition ll_with (l : LOCALLOCK) (shared' : bool) (strong : bool) : LOCALLOCK :=
  {| ll_shared := shared'; nLocks := nLocks l; holdsStrongLockCount := strong; lockCleared := lockCleared l; lockOwners := lockOwners l; maxLockOwners := maxLockOwners l |}.
Definition ll_count (l : LOCALLOCK) (n : Z) (owners : list (option Z * Z)) (cleared : bool) : LOCALLOCK :=
  {| ll_shared := ll_shared l; nLocks := n; holdsStrongLockCount := holdsStrongLockCount l; lockCleared := cleared; lockOwners := owners; maxLockOwners := maxLockOwners l |}.

(** The first entry of an owner counts one more; [None]: it has no entry. *)
Fixpoint bump_owner (owner : option Z) (owners : list (option Z * Z)) : option (list (option Z * Z)) :=
  match owners with
  | [] => None
  | (o, n) :: owners => if bool_decide (o = owner) then Some ((o, n + 1) :: owners) else option_map (cons (o, n)) (bump_owner owner owners)
  end.

Definition GrantLockLocal (b : backend) (k : LOCALLOCKTAG) (owner : option Z) : cres backend :=
  let* l := deref (LocalHash b !! k) in
  c_assert (zlen (lockOwners l) <? maxLockOwners l);;
  match bump_owner owner (lockOwners l) with
  | Some owners => Ret (put_local b k (ll_count l (nLocks l + 1) owners (lockCleared l)))
  | None =>
      let b := put_local b k (ll_count l (nLocks l + 1) (lockOwners l ++ [(owner, 1)]) (lockCleared l)) in
      Ret (match owner with Some o => put_owner b o (ResourceOwnerRememberLock (resOwners b o) k) | None => b end)
  end.

Definition GrantAwaitedLock (b : backend) : cres backend :=
  let* (k, owner) := deref (awaited b) in GrantLockLocal b k owner.

Definition MarkLockClear (b : backend) (k : LOCALLOCKTAG) : cres backend :=
  let* l := deref (LocalHash b !! k) in
  c_assert (0 <? nLocks l);;
  Ret (put_local b k (ll_count l (nLocks l) (lockOwners l) true)).

(** The resource owners of the entries forget the lock, from the last to the first. *)
Fixpoint forget_owners (b : backend) (k : LOCALLOCKTAG) (owners : list (option Z * Z)) : cres backend :=
  match owners with
  | [] => Ret b
  | (o, _) :: owners =>
      let* b := forget_owners b k owners in
      match o with
      | Some o => let* r := ResourceOwnerForgetLock (resOwners b o) k in Ret (put_owner b o r)
      | None => Ret b
      end
  end.

(** The locks of the current owner become its parent's. *)
Definition owner_entry (owner : option Z) (e : option Z * Z) : bool := bool_decide (fst e = owner).
Fixpoint find_first {A} (P : A -> bool) (l : list A) : option nat :=
  match l with [] => None | x :: l => if P x then Some 0%nat else option_map S (find_first P l) end.

Definition LockReassignOwner (b : backend) (k : LOCALLOCKTAG) (CurrentResourceOwner parent : Z) : cres backend :=
  let* l := deref (LocalHash b !! k) in
  match find_first (owner_entry (Some CurrentResourceOwner)) (lockOwners l) with
  | None => Ret b
  | Some ic =>
      let* (_, nc) := deref (lockOwners l !! ic) in
      let* b :=
        match find_first (owner_entry (Some parent)) (lockOwners l) with
        | None =>
            let b := put_local b k (ll_count l (nLocks l) (<[ic := (Some parent, nc)]> (lockOwners l)) (lockCleared l)) in
            Ret (put_owner b parent (ResourceOwnerRememberLock (resOwners b parent) k))
        | Some ip =>
            let* (op, np) := deref (lockOwners l !! ip) in
            Ret (put_local b k (ll_count l (nLocks l) (swap_remove (<[ip := (op, np + nc)]> (lockOwners l)) ic) (lockCleared l)))
        end in
      let* r := ResourceOwnerForgetLock (resOwners b CurrentResourceOwner) k in
      Ret (put_owner b CurrentResourceOwner r)
  end.

Section operations.
Context (LockTagHashCode : LOCKTAG -> Z) (allProcCount : Z).

Definition FAST_PATH_STRONG_LOCK_HASH_PARTITIONS : Z := Z.shiftl 1 10.
Definition FastPathStrongLockHashPartition (t : LOCKTAG) : Z := LockTagHashCode t mod FAST_PATH_STRONG_LOCK_HASH_PARTITIONS.

Definition NUM_LOCK_PARTITIONS : Z := Z.shiftl 1 4.
Definition LockHashPartition (t : LOCKTAG) : Z := LockTagHashCode t mod NUM_LOCK_PARTITIONS.

(** ** Counts of strong locks *)

Definition BeginStrongLockAcquire (x : lockenv) (p : Z) (k : LOCALLOCKTAG) : cres lockenv :=
  let b := backend_of x p in
  let h := FastPathStrongLockHashPartition (fst k) in
  let* l := deref (LocalHash b !! k) in
  c_assert (bool_decide (StrongLockInProgress b = None));;
  c_assert (negb (holdsStrongLockCount l));;
  Ret (set_backend (set_count x h (u32 (strongCount x h + 1))) p (with_strong (put_local b k (ll_with l (ll_shared l) true)) (Some k))).

Definition FinishStrongLockAcquire (b : backend) : backend := with_strong b None.

(** One strong lock less in the partition of the tag. *)
Definition drop_strong (x : lockenv) (t : LOCKTAG) : cres lockenv :=
  let h := FastPathStrongLockHashPartition t in
  c_assert (0 <? strongCount x h);;
  Ret (set_count x h (u32 (strongCount x h - 1))).

Definition AbortStrongLockAcquire (x : lockenv) (p : Z) : cres lockenv :=
  let b := backend_of x p in
  match StrongLockInProgress b with
  | None => Ret x
  | Some k =>
      let* l := deref (LocalHash b !! k) in
      c_assert (holdsStrongLockCount l);;
      let* x := drop_strong x (fst k) in
      Ret (set_backend x p (with_strong (put_local b k (ll_with l (ll_shared l) false)) None))
  end.

Definition RemoveLocalLock (x : lockenv) (p : Z) (k : LOCALLOCKTAG) : cres lockenv :=
  let* l := deref (LocalHash (backend_of x p) !! k) in
  let* b := forget_owners (backend_of x p) k (lockOwners l) in
  let* x := (if holdsStrongLockCount l then drop_strong x (fst k) else Ret x) in
  Ret (set_backend x p (with_locals b (delete k (LocalHash b)))).

(** ** LockAcquireExtended *)

(** After the fast path was not to be had: a strong lock disables it and transfers what
    others have taken by it. *)
Definition after_fast_path (x : lockenv) (p : Z) (r : request) : cres lockenv :=
  if ConflictsWithRelationFastPath (q_tag r) (q_mode r) then
    let* x := BeginStrongLockAcquire x p (q_key r) in Ret (goto x p (AtTransfer r 0))
  else Ret (goto x p (AtShared r)).

(** Up to the first critical section.  [recovery]: the server is in recovery and this is
    not the process that replays the log. *)
Definition acquire_begin (recovery : bool) (x : lockenv) (p : Z) (r : request) : cres lockenv :=
  let t := q_tag r in
  let lockmode := q_mode r in
  if (locktag_lockmethodid t <=? 0) || (lengthof_LockMethods <=? locktag_lockmethodid t) then Elog "unrecognized lock method"
  else if (lockmode <=? 0) || (numLockModes <? lockmode) then Elog "unrecognized lock mode"
  else if recovery && ((locktag_type t =? LOCKTAG_OBJECT) || (locktag_type t =? LOCKTAG_RELATION)) && (RowExclusiveLock <? lockmode) then
    Elog "cannot acquire lock mode on database objects while recovery is in progress"
  else
    let b := backend_of x p in
    let l := match LocalHash b !! q_key r with
             | None => new_LOCALLOCK
             | Some l =>
                 if maxLockOwners l <=? zlen (lockOwners l) then
                   {| ll_shared := ll_shared l; nLocks := nLocks l; holdsStrongLockCount := holdsStrongLockCount l; lockCleared := lockCleared l;
                      lockOwners := lockOwners l; maxLockOwners := maxLockOwners l * 2 |}
                 else l
             end in
    let b := put_local b (q_key r) l in
    if 0 <? nLocks l then
      let* b := GrantLockLocal b (q_key r) (q_owner r) in
      Ret (set_backend x p (with_point b (Outside (Acquired (q_key r) (if lockCleared l then LOCKACQUIRE_ALREADY_CLEAR else LOCKACQUIRE_ALREADY_HELD)))))
    else
      let x := set_backend x p b in
      if EligibleForRelationFastPath (databaseId (fast x p)) t lockmode && (FastPathLocalUseCount b <? FP_LOCK_SLOTS_PER_BACKEND)
      then Ret (goto x p (AtFastTest r))
      else after_fast_path x p r.

(** The fast-path lock of the backend is taken and the count read. *)
Definition fast_test (x : lockenv) (p : Z) (r : request) : cres lockenv :=
  if strongCount x (FastPathStrongLockHashPartition (q_tag r)) =? 0 then Ret (goto x p (AtFastGrant r)) else after_fast_path x p r.

(** The count was zero. *)
Definition fast_grant (x : lockenv) (p : Z) (r : request) : cres lockenv :=
  let b := backend_of x p in
  let* (F, n, acquired) := FastPathGrantRelationLock (fast x p) (FastPathLocalUseCount b) (locktag_field2 (q_tag r)) (q_mode r) in
  let x := set_backend (set_fast x p F) p (with_useCount b n) in
  if acquired then
    let b := backend_of x p in
    let* l := deref (LocalHash b !! q_key r) in
    let* b := GrantLockLocal (put_local b (q_key r) (ll_with l false (holdsStrongLockCount l))) (q_key r) (q_owner r) in
    Ret (set_backend x p (with_point b (Outside (Acquired (q_key r) LOCKACQUIRE_OK))))
  else after_fast_path x p r.

(** The request is given up: [ereport] if memory was the reason and the caller wants it. *)
Definition not_available (x : lockenv) (p : Z) (r : request) (memory : bool) : cres lockenv :=
  let* x := AbortStrongLockAcquire x p in
  let* l := deref (LocalHash (backend_of x p) !! q_key r) in
  let* x := (if nLocks l =? 0 then RemoveLocalLock x p (q_key r) else Ret x) in
  Ret (goto x p (if memory && q_reportMemoryError r then AtError else Outside (Acquired (q_key r) LOCKACQUIRE_NOT_AVAIL))).

(** One process is searched for locks of the tag; after the last one the shared table is
    next. *)
Definition transfer_step (room : Z -> bool * bool) (x : lockenv) (p : Z) (r : request) (i : Z) : cres lockenv :=
  if i <? allProcCount then
    let* (s, F, ok) := transfer_proc room (shared x) (fast x i) i (q_tag r) in
    let x := set_fast (set_shared x s) i F in
    if ok then Ret (goto x p (AtTransfer r (i + 1))) else not_available x p r true
  else Ret (goto x p (AtShared r)).

(** Under the partition lock, up to the sleep. *)
Definition shared_step (room_lock room_proclock : bool) (x : lockenv) (p : Z) (r : request) : cres lockenv :=
  let* (s, res) := acquire_shared room_lock room_proclock (shared x) p (q_tag r) (q_mode r) (q_dontWait r) in
  let x := set_shared x s in
  match res with
  | AcquireOutOfMemory => not_available x p r true
  | _ =>
      let b := backend_of x p in
      let* l := deref (LocalHash b !! q_key r) in
      let b := put_local b (q_key r) (ll_with l true (holdsStrongLockCount l)) in
      match res with
      | AcquireOK =>
          let* b := GrantLockLocal b (q_key r) (q_owner r) in
          Ret (set_backend x p (with_point (FinishStrongLockAcquire b) (Outside (Acquired (q_key r) LOCKACQUIRE_OK))))
      | AcquireWaiting =>
          Ret (set_backend x p (with_point (with_wait b (Some (q_key r)) (Some (q_key r, q_owner r))) (AtSleep r)))
      | AcquireDeadlock => Ret (set_backend x p (with_point (with_wait b (lockAwaited b) None) AtError))
      | _ => not_available (set_backend x p b) p r false
      end
  end.

(** Awake: the end of [ProcSleep], [WaitOnLock] and [LockAcquireExtended]. *)
Definition wake_step (x : lockenv) (p : Z) (r : request) : cres lockenv :=
  let b := with_wait (backend_of x p) None (awaited (backend_of x p)) in
  if waitStatus (allProcs (shared x) p) =? STATUS_OK then
    let* b := GrantAwaitedLock b in
    let b := with_wait b None None in
    let* pl := deref (ProcLockHash (shared x) !! (q_tag r, p)) in
    if Z.land (holdMask pl) (LOCKBIT_ON (q_mode r)) =? 0 then Elog "LockAcquire failed"
    else Ret (set_backend x p (with_point (FinishStrongLockAcquire b) (Outside (Acquired (q_key r) LOCKACQUIRE_OK))))
  else Ret (set_backend x p (with_point (with_wait b None None) AtError)).

(** ** LockErrorCleanup *)

Definition cleanup_begin (x : lockenv) (p : Z) : cres lockenv :=
  let* x := AbortStrongLockAcquire x p in Ret (goto x p AtCleanup).

Definition cleanup_end (x : lockenv) (p : Z) : cres lockenv :=
  let b := backend_of x p in
  match lockAwaited b with
  | None => Ret (goto x p (Outside CleanedUp))
  | Some _ =>
      let* (s, b) :=
        (if links (allProcs (shared x) p) then let* s := RemoveFromWaitQueue (shared x) p p in Ret (s, b)
         else if waitStatus (allProcs (shared x) p) =? STATUS_OK then let* b := GrantAwaitedLock b in Ret (shared x, b)
         else Ret (shared x, b)) in
      Ret (set_backend (set_shared x s) p (with_point (with_wait b None (awaited b)) (Outside CleanedUp)))
  end.

(** ** LockRelease *)

(** The lock and the entry of the process, found again. *)
Definition refind (s : lmgr) (p : Z) (t : LOCKTAG) : cres unit :=
  match LockHash s !! t with
  | None => Elog "failed to re-find shared lock object"
  | Some _ => match ProcLockHash s !! (t, p) with None => Elog "failed to re-find shared proclock object" | Some _ => Ret tt end
  end.

(** One less for the owner; [None]: it does not own the lock. *)
Definition unown (b : backend) (k : LOCALLOCKTAG) (l : LOCALLOCK) (owner : option Z) : cres (option (backend * list (option Z * Z))) :=
  match find_last (owner_entry owner) (lockOwners l) with
  | None => Ret None
  | Some i =>
      let* (o, n) := deref (lockOwners l !! i) in
      c_assert (0 <? n);;
      if n - 1 =? 0 then
        let* b := match owner with
                  | Some o => let* r := ResourceOwnerForgetLock (resOwners b o) k in Ret (put_owner b o r)
                  | None => Ret b
                  end in
        Ret (Some (b, swap_remove (lockOwners l) i))
      else Ret (Some (b, <[i := (o, n - 1)]> (lockOwners l)))
  end.

(** Up to the shared table. *)
Definition release_begin (x : lockenv) (p : Z) (k : LOCALLOCKTAG) (owner : option Z) : cres lockenv :=
  let (t, lockmode) := k in
  if (locktag_lockmethodid t <=? 0) || (lengthof_LockMethods <=? locktag_lockmethodid t) then Elog "unrecognized lock method"
  else if (lockmode <=? 0) || (numLockModes <? lockmode) then Elog "unrecognized lock mode"
  else
    let b := backend_of x p in
    match LocalHash b !! k with
    | None => Ret (goto x p (Outside (Released k false)))
    | Some l =>
        if nLocks l <=? 0 then Ret (goto x p (Outside (Released k false)))
        else
          let* owned := unown b k l owner in
          match owned with
          | None => Ret (goto x p (Outside (Released k false)))
          | Some (b, owners) =>
              let last := nLocks l - 1 <=? 0 in
              let b := put_local b k (ll_count l (nLocks l - 1) owners (if last then false else lockCleared l)) in
              let x := set_backend x p b in
              if negb last then Ret (goto x p (Outside (Released k true)))
              else
                let* (x, released) :=
                  (if EligibleForRelationFastPath (databaseId (fast x p)) t lockmode && (0 <? FastPathLocalUseCount b) then
                     let* (F, n, released) := FastPathUnGrantRelationLock (fast x p) (locktag_field2 t) lockmode in
                     Ret (set_backend (set_fast x p F) p (with_useCount b n), released)
                   else Ret (x, false)) in
                if released then let* x := RemoveLocalLock x p k in Ret (goto x p (Outside (Released k true)))
                else Ret (goto x p (AtRelease k))
          end
    end.

(** The shared table. *)
Definition release_step (x : lockenv) (p : Z) (k : LOCALLOCKTAG) : cres lockenv :=
  let (t, lockmode) := k in
  let* l := deref (LocalHash (backend_of x p) !! k) in
  let* x :=
    (if ll_shared l then Ret x
     else
       c_assert (EligibleForRelationFastPath (databaseId (fast x p)) t lockmode);;
       refind (shared x) p t;;
       Ret (set_backend x p (put_local (backend_of x p) k (ll_with l true (holdsStrongLockCount l))))) in
  let* (s, held) := release_shared (shared x) p t lockmode in
  if held then Ret (goto (set_shared x s) p (AtRemove k))
  else let* x := RemoveLocalLock x p k in Ret (goto x p (Outside (Released k false))).

Definition remove_step (x : lockenv) (p : Z) (k : LOCALLOCKTAG) : cres lockenv :=
  let* x := RemoveLocalLock x p k in Ret (goto x p (Outside (Released k true))).

(** Releasing what one owner has of a lock, however often: the counts are cut so that one
    call of [LockRelease] gives it up. *)
Definition ReleaseLockIfHeld (x : lockenv) (p : Z) (k : LOCALLOCKTAG) (owner : option Z) : cres lockenv :=
  let b := backend_of x p in
  let* l := deref (LocalHash b !! k) in
  match find_last (owner_entry owner) (lockOwners l) with
  | None => Ret (goto x p (Outside NoCall))
  | Some i =>
      let* (o, n) := deref (lockOwners l !! i) in
      c_assert (0 <? n);;
      if n <? nLocks l then
        let b := put_local b k (ll_count l (nLocks l - n) (swap_remove (lockOwners l) i) (lockCleared l)) in
        let* b := match owner with
                  | Some o => let* r := ResourceOwnerForgetLock (resOwners b o) k in Ret (put_owner b o r)
                  | None => Ret b
                  end in
        Ret (set_backend x p (with_point b (Outside NoCall)))
      else
        c_assert (n =? nLocks l);;
        release_begin (set_backend x p (with_point (put_local b k (ll_count l 1 (<[i := (o, 1)]> (lockOwners l)) (lockCleared l))) (Outside NoCall))) p k owner
  end.

(** ** LockReleaseAll *)

Definition release_all_begin (x : lockenv) (p : Z) (lockmethodid : Z) (allLocks : bool) (order : list LOCALLOCKTAG) : cres lockenv :=
  if (lockmethodid <=? 0) || (lengthof_LockMethods <=? lockmethodid) then Elog "unrecognized lock method"
  else Ret (goto x p (AtReleaseLocal lockmethodid allLocks order false)).

(** The loop over the owners: the session's entry is kept, the others forget the lock. *)
Fixpoint keep_session (b : backend) (k : LOCALLOCKTAG) (owners : list (option Z * Z)) (first : option (option Z * Z)) : cres (backend * option (option Z * Z)) :=
  match owners with
  | [] => Ret (b, first)
  | (o, n) :: owners =>
      match o with
      | None => keep_session b k owners (Some (o, n))
      | Some o =>
          let* r := ResourceOwnerForgetLock (resOwners b o) k in
          keep_session (put_owner b o r) k owners first
      end
  end.

(** [true]: the entry stays, with the session's locks only. *)
Definition strip_to_session (b : backend) (k : LOCALLOCKTAG) (l : LOCALLOCK) : cres (backend * bool) :=
  let* (b, first) := keep_session b k (lockOwners l) (head (lockOwners l)) in
  match first with
  | Some (None, n) =>
      if 0 <? n then Ret (put_local b k (ll_count l n [(None, n)] (lockCleared l)), true)
      else Ret (put_local b k (ll_count l (nLocks l) [] (lockCleared l)), false)
  | _ => Ret (put_local b k (ll_count l (nLocks l) [] (lockCleared l)), false)
  end.

(** An entry that goes: a fast-path lock is released now, others are marked. *)
Definition release_entry (x : lockenv) (p : Z) (lockmethodid : Z) (allLocks : bool) (k : LOCALLOCKTAG) (todo : list LOCALLOCKTAG) (have : bool) : cres lockenv :=
  let b := backend_of x p in
  let* l := deref (LocalHash b !! k) in
  if negb (ll_shared l) then
    if negb (EligibleForRelationFastPath (databaseId (fast x p)) (fst k) (snd k)) then Elog "locallock table corrupted"
    else
      let* (F, n, released) := FastPathUnGrantRelationLock (fast x p) (locktag_field2 (fst k)) (snd k) in
      let x := set_backend (set_fast x p F) p (with_useCount b n) in
      if released then let* x := RemoveLocalLock x p k in Ret (goto x p (AtReleaseLocal lockmethodid allLocks todo true))
      else Ret (goto x p (AtRefind lockmethodid allLocks k todo))
  else
    let x := (if 0 <? nLocks l then set_backend x p (with_mask b (fst k) (Z.lor (releaseMask b (fst k)) (LOCKBIT_ON (snd k)))) else x) in
    let* x := RemoveLocalLock x p k in
    Ret (goto x p (AtReleaseLocal lockmethodid allLocks todo have)).

(** One round of the loop over the local table; at its end the partitions are next. *)
Definition release_all_local (x : lockenv) (p : Z) (lockmethodid : Z) (allLocks : bool) (todo : list LOCALLOCKTAG) (have : bool) : cres lockenv :=
  match todo with
  | [] => Ret (goto x p (AtReleaseShared lockmethodid allLocks 0))
  | k :: todo =>
      let b := backend_of x p in
      let* l := deref (LocalHash b !! k) in
      if nLocks l =? 0 then let* x := RemoveLocalLock x p k in Ret (goto x p (AtReleaseLocal lockmethodid allLocks todo have))
      else if negb (locktag_lockmethodid (fst k) =? lockmethodid) then Ret (goto x p (AtReleaseLocal lockmethodid allLocks todo have))
      else if allLocks then release_entry x p lockmethodid allLocks k todo have
      else
        let* (b, kept) := strip_to_session b k l in
        let x := set_backend x p b in
        if kept then Ret (goto x p (AtReleaseLocal lockmethodid allLocks todo have)) else release_entry x p lockmethodid allLocks k todo have
  end.

(** [LockRefindAndRelease] of a lock another backend has transferred. *)
Definition LockRefindAndRelease (s : lmgr) (p : Z) (t : LOCKTAG) (lockmode : Z) : cres lmgr :=
  refind s p t;;
  let* (s, _) := release_shared s p t lockmode in Ret s.

Definition refind_step (x : lockenv) (p : Z) (lockmethodid : Z) (allLocks : bool) (k : LOCALLOCKTAG) (todo : list LOCALLOCKTAG) : cres lockenv :=
  let* s := LockRefindAndRelease (shared x) p (fst k) (snd k) in
  let* x := RemoveLocalLock (set_shared x s) p k in
  Ret (goto x p (AtReleaseLocal lockmethodid allLocks todo false)).

(** The loop over the PROCLOCKs of one partition. *)
Fixpoint release_partition (x : lockenv) (p : Z) (lockmethodid : Z) (allLocks : bool) (tags : list LOCKTAG) : cres lockenv :=
  match tags with
  | [] => Ret x
  | t :: tags =>
      if negb (locktag_lockmethodid t =? lockmethodid) then release_partition x p lockmethodid allLocks tags
      else
        let* pl := deref (ProcLockHash (shared x) !! (t, p)) in
        let mask := if allLocks then holdMask pl else releaseMask (backend_of x p) t in
        c_assert (allLocks || (Z.land mask (Z.lnot (holdMask pl)) =? 0));;
        if (mask =? 0) && negb (holdMask pl =? 0) then release_partition x p lockmethodid allLocks tags
        else
          let* s := release_proclock (shared x) p t mask in
          release_partition (set_backend (set_shared x s) p (with_mask (backend_of x p) t 0)) p lockmethodid allLocks tags
  end.

(** The PROCLOCKs of the process in the partition are [tags]. *)
Definition release_all_shared (x : lockenv) (p : Z) (lockmethodid : Z) (allLocks : bool) (partition : Z) (tags : list LOCKTAG) : cres lockenv :=
  if partition <? NUM_LOCK_PARTITIONS then
    let* x := release_partition x p lockmethodid allLocks tags in
    Ret (goto x p (AtReleaseShared lockmethodid allLocks (partition + 1)))
  else Ret (goto x p (Outside (AllReleased lockmethodid allLocks))).
End operations.
