(* ===== verification/LockFastPath.v ===== *)
(** * Heavyweight locks: the fast-path slots

    What the slots of a process say about the locks it has taken by the fast path, and
    what granting, releasing and transferring does to them. *)
From stdpp Require Import list gmap functions relations.
From S2P Require Import Prelude LockModes LockTable LockInvariant LockOps LockRequests LockSystem LockBackend.

(** ** Slots *)

(** The lock modes the fast path serves. *)
Definition weak_mode (m : Z) : Prop := 1 <= m <= 3.

Definition slot_bit (F : fastpath) (f m : Z) : bool := Z.testbit (fpLockBits F) (m - 1 + 3 * f).
Definition slot_rel (F : fastpath) (f : Z) : option Z := zget (fpRelId F) f.
Definition slot_used (F : fastpath) (f : Z) : bool := negb (FAST_PATH_GET_BITS F f =? 0).

(** The process has a lock on the relation in this mode. *)
Definition fast_bit (F : fastpath) (relid m : Z) : bool :=
  (1 <=? m) && (m <=? 3) && existsb (fun f => bool_decide (slot_rel F f = Some relid) && slot_bit F f m) fast_slots.

Definition used_count (F : fastpath) : Z := countb (slot_used F) fast_slots.

(** The slots are in order: a relation has at most one. *)
Record fast_ok (F : fastpath) : Prop := {
  fo_len : zlen (fpRelId F) = FP_LOCK_SLOTS_PER_BACKEND;
  fo_bits : 0 <= fpLockBits F < 2 ^ 48;
  fo_unique : forall f g, f ∈ fast_slots -> g ∈ fast_slots -> slot_used F f = true -> slot_used F g = true -> slot_rel F f = slot_rel F g -> f = g }.

Lemma elem_of_fast_slots f : f ∈ fast_slots <-> 0 <= f < 16.
Proof. unfold fast_slots. rewrite elem_of_seqZ. unfold FP_LOCK_SLOTS_PER_BACKEND. lia. Qed.

Lemma slot_used_spec F f : 0 <= f -> slot_used F f = true <-> exists m, weak_mode m /\ slot_bit F f m = true.
Proof.
  intros Hf. unfold slot_used, FAST_PATH_GET_BITS, slot_bit, weak_mode. change FAST_PATH_MASK with (Z.ones 3). rewrite negb_true_iff, Z.eqb_neq.
  unfold FAST_PATH_BITS_PER_SLOT. split.
  - intros (i & Hi & H)%nonzero_bit. rewrite Z.land_spec, Z.shiftr_spec in H by done. apply andb_true_iff in H as (H1 & H2).
    destruct (Z.ltb_spec i 3); [|rewrite Z.ones_spec_high in H2 by lia; done]. exists (i + 1). split; [lia|]. by replace (i + 1 - 1 + 3 * f) with (i + 3 * f) by lia.
  - intros (m & Hm & H). apply (bits_nonzero _ (m - 1)). rewrite Z.land_spec, Z.shiftr_spec, Z.ones_spec_low by lia. by rewrite H.
Qed.

Lemma bit_position f m : f ∈ fast_slots -> weak_mode m -> FAST_PATH_BIT_POSITION f m = Ret (m - 1 + 3 * f).
Proof.
  intros Hf%elem_of_fast_slots Hm. unfold weak_mode in Hm. unfold FAST_PATH_BIT_POSITION, FAST_PATH_LOCKNUMBER_OFFSET, FAST_PATH_BITS_PER_SLOT, FP_LOCK_SLOTS_PER_BACKEND.
  destruct (Z.leb_spec 1 m); [|lia]. destruct (Z.ltb_spec m (3 + 1)); [|lia]. destruct (Z.ltb_spec f 16); [|lia]. done.
Qed.

Lemma check_lockmode F f m : f ∈ fast_slots -> weak_mode m -> FAST_PATH_CHECK_LOCKMODE F f m = Ret (slot_bit F f m).
Proof.
  intros Hf Hm. unfold FAST_PATH_CHECK_LOCKMODE. rewrite bit_position by done. cbn [cbind].
  fold (LOCKBIT_ON (m - 1 + 3 * f)). apply elem_of_fast_slots in Hf. unfold weak_mode in Hm. rewrite land_bit by lia. by rewrite negb_involutive.
Qed.

Definition same_slots (F F' : fastpath) : Prop := fpRelId F' = fpRelId F /\ databaseId F' = databaseId F /\ (0 <= fpLockBits F < 2 ^ 48 -> 0 <= fpLockBits F' < 2 ^ 48).

Lemma set_lockmode F f m :
  f ∈ fast_slots -> weak_mode m ->
  exists F', FAST_PATH_SET_LOCKMODE F f m = Ret F' /\ same_slots F F' /\
    forall g i, 0 <= g -> weak_mode i -> slot_bit F' g i = slot_bit F g i || ((g =? f) && (i =? m)).
Proof.
  intros Hf Hm. unfold FAST_PATH_SET_LOCKMODE. rewrite bit_position by done. cbn [cbind]. eexists. split; [done|].
  apply elem_of_fast_slots in Hf. unfold weak_mode in Hm. fold (LOCKBIT_ON (m - 1 + 3 * f)). split.
  - split_and!; [done|done|]. intros Hb. apply is_u_lor; [lia|done|]. unfold LOCKBIT_ON. rewrite Z.shiftl_1_l. split; [apply Z.pow_nonneg; lia|]. apply Z.pow_lt_mono_r; lia.
  - intros g i Hg Hi. unfold weak_mode in Hi. unfold slot_bit. cbn. rewrite Z.lor_spec, testbit_LOCKBIT_ON by lia. f_equal.
    destruct (Z.eqb_spec (i - 1 + 3 * g) (m - 1 + 3 * f)), (Z.eqb_spec g f), (Z.eqb_spec i m); cbn; try done; lia.
Qed.

Lemma clear_lockmode F f m :
  f ∈ fast_slots -> weak_mode m ->
  exists F', FAST_PATH_CLEAR_LOCKMODE F f m = Ret F' /\ same_slots F F' /\
    forall g i, 0 <= g -> weak_mode i -> slot_bit F' g i = slot_bit F g i && negb ((g =? f) && (i =? m)).
Proof.
  intros Hf Hm. unfold FAST_PATH_CLEAR_LOCKMODE. rewrite bit_position by done. cbn [cbind]. eexists. split; [done|].
  apply elem_of_fast_slots in Hf. unfold weak_mode in Hm. fold (LOCKBIT_OFF (m - 1 + 3 * f)). split.
  - split_and!; [done|done|]. intros Hb. cbn. apply is_u_of_bits; [done|apply Z.land_nonneg; lia|]. intros i Hi. by rewrite Z.land_spec, (is_u_testbit 48).
  - intros g i Hg Hi. unfold weak_mode in Hi. unfold slot_bit. cbn. rewrite Z.land_spec, testbit_LOCKBIT_OFF by lia. do 2 f_equal.
    destruct (Z.eqb_spec (i - 1 + 3 * g) (m - 1 + 3 * f)), (Z.eqb_spec g f), (Z.eqb_spec i m); cbn; try done; lia.
Qed.

Lemma fast_bit_spec F relid m :
  fast_bit F relid m = true <-> weak_mode m /\ exists f, f ∈ fast_slots /\ slot_rel F f = Some relid /\ slot_bit F f m = true.
Proof.
  unfold fast_bit, weak_mode. rewrite !andb_true_iff, !Z.leb_le, existsb_exists. split.
  - intros ((H1 & H2) & f & Hf & (Hr%bool_decide_eq_true & Hb)%andb_true_iff). split; [lia|]. exists f. by rewrite list_elem_of_In.
  - intros ((H1 & H2) & f & Hf & Hr & Hb). split; [done|]. exists f. rewrite <- list_elem_of_In, (bool_decide_eq_true_2 _ Hr). done.
Qed.

Lemma slot_in_range F f : fast_ok F -> f ∈ fast_slots -> exists r, slot_rel F f = Some r.
Proof.
  intros ok Hf%elem_of_fast_slots. unfold slot_rel. apply zget_is_Some. rewrite (fo_len _ ok). unfold FP_LOCK_SLOTS_PER_BACKEND. lia.
Qed.

Lemma bit_used F f m : 0 <= f -> weak_mode m -> slot_bit F f m = true -> slot_used F f = true.
Proof. intros Hf Hm Hb. apply slot_used_spec; eauto. Qed.

(** Bits only go. *)
Lemma fast_ok_fewer F F' :
  fast_ok F -> same_slots F F' -> (forall g i, 0 <= g -> weak_mode i -> slot_bit F' g i = true -> slot_bit F g i = true) -> fast_ok F'.
Proof.
  intros [H1 H2 H3] (E1 & _ & Hr) Hb. assert (forall g, g ∈ fast_slots -> slot_used F' g = true -> slot_used F g = true) as Hu.
  { intros g Hg%elem_of_fast_slots. rewrite !slot_used_spec by lia. intros (i & Hi & Hbi). exists i. split; [done|]. apply Hb; [lia|done|done]. }
  constructor; [by rewrite E1|auto|]. intros f g Hf Hg Uf Ug. unfold slot_rel. rewrite E1. apply H3; auto.
Qed.

(** ** Granting *)

Lemma grant_scan_ok F relid m slots : forall unused,
  fast_ok F -> weak_mode m -> (forall f, f ∈ slots -> f ∈ fast_slots) -> (forall f, f ∈ slots -> slot_rel F f = Some relid -> slot_bit F f m = false) ->
  (exists f, grant_scan slots F relid m unused = Ret (inl f) /\ f ∈ slots /\ slot_used F f = true /\ slot_rel F f = Some relid) \/
  (exists u, grant_scan slots F relid m unused = Ret (inr u) /\ (forall f, f ∈ slots -> slot_used F f = true -> slot_rel F f <> Some relid) /\
     (u = unused \/ (u ∈ slots /\ slot_used F u = false))).
Proof.
  induction slots as [|f slots IH]; intros unused ok Hm Hs Hb; cbn [grant_scan].
  { right. exists unused. split_and!; [done| |by left]. by intros f H%elem_of_nil. }
  assert (f ∈ fast_slots) as Hf by (apply Hs; set_solver). destruct (slot_in_range F f ok Hf) as (r & Hr).
  destruct (FAST_PATH_GET_BITS F f =? 0) eqn:Eu.
  - assert (slot_used F f = false) as Hu by (unfold slot_used; by rewrite Eu).
    destruct (IH f ok Hm) as [(g & E & H1 & H2 & H3)|(u & E & H1 & H2)]; [set_solver|set_solver|left; exists g; split_and!; [done|set_solver|done|done]|].
    right. exists u. split_and!; [done| |right; destruct H2 as [->|(H2 & H3)]; [|]; split; try done; set_solver].
    intros g [->|Hg]%elem_of_cons Ug; [congruence|by apply H1].
  - assert (slot_used F f = true) as Hu by (unfold slot_used; by rewrite Eu). unfold slot_rel in Hr. rewrite Hr. cbn [deref cbind].
    destruct (Z.eqb_spec r relid) as [->|Hne].
    + rewrite check_lockmode, (Hb f) by (done || set_solver). cbn [cbind negb c_assert]. left. exists f. split_and!; [done|set_solver|done|done].
    + destruct (IH unused ok Hm) as [(g & E & H1 & H2 & H3)|(u & E & H1 & H2)]; [set_solver|set_solver|left; exists g; split_and!; [done|set_solver|done|done]|].
      right. exists u. split_and!; [done| |destruct H2 as [->|(H2 & H3)]; [by left|right; split; [set_solver|done]]].
      intros g [->|Hg]%elem_of_cons Ug; [|by apply H1]. unfold slot_rel. congruence.
Qed.

(** What the slots say after one more lock. *)
Definition fast_added (F F' : fastpath) (relid m : Z) : Prop :=
  forall rel i, fast_bit F' rel i = fast_bit F rel i || ((rel =? relid) && (i =? m)).

(** The bit is set in slot [f], which is the relation's from now on. *)
Lemma fast_added_slot F F' f relid m :
  f ∈ fast_slots -> weak_mode m -> slot_rel F' f = Some relid -> (forall g, g <> f -> slot_rel F' g = slot_rel F g) ->
  (slot_rel F f = Some relid \/ slot_used F f = false) ->
  (forall g i, 0 <= g -> weak_mode i -> slot_bit F' g i = slot_bit F g i || ((g =? f) && (i =? m))) -> fast_added F F' relid m.
Proof.
  intros Hf Hm Hr Hrel Hold Hb rel i. apply eq_true_iff_eq. rewrite orb_true_iff, andb_true_iff, !Z.eqb_eq, !fast_bit_spec.
  pose proof (proj1 (elem_of_fast_slots f) Hf) as Hf0. split.
  - intros (Hi & g & Hg & Hrg & Hbg). pose proof (proj1 (elem_of_fast_slots g) Hg). rewrite Hb in Hbg by (done || lia). apply orb_true_iff in Hbg as [Hbg|(->%Z.eqb_eq & ->%Z.eqb_eq)%andb_true_iff].
    + left. split; [done|]. exists g. split_and!; [done| |done]. destruct (decide (g = f)) as [->|]; [|by rewrite <- Hrel].
      destruct Hold as [Ho|Ho]; [congruence|]. rewrite (bit_used F f i) in Ho; [done|lia|done|done].
    + right. split; [congruence|done].
  - intros [(Hi & g & Hg & Hrg & Hbg)|(-> & ->)].
    + pose proof (proj1 (elem_of_fast_slots g) Hg). split; [done|]. exists g. split_and!; [done| |rewrite Hb by (done || lia); by rewrite Hbg].
      destruct (decide (g = f)) as [->|]; [|by rewrite Hrel]. destruct Hold as [Ho|Ho]; [congruence|]. rewrite (bit_used F f i) in Ho; [done|lia|done|done].
    + split; [done|]. exists f. split_and!; [done|done|]. rewrite Hb by (done || lia). by rewrite !Z.eqb_refl, orb_true_r.
Qed.

(** Which slots are in use afterwards. *)
Lemma used_after F F' f m g :
  f ∈ fast_slots -> g ∈ fast_slots -> weak_mode m ->
  (forall g i, 0 <= g -> weak_mode i -> slot_bit F' g i = slot_bit F g i || ((g =? f) && (i =? m))) ->
  slot_used F' g = slot_used F g || (g =? f).
Proof.
  intros Hf%elem_of_fast_slots Hg%elem_of_fast_slots Hm Hb. apply eq_true_iff_eq. rewrite orb_true_iff, Z.eqb_eq, !slot_used_spec by lia. split.
  - intros (i & Hi & H). rewrite Hb in H by (done || lia). apply orb_true_iff in H as [H|(->%Z.eqb_eq & _)%andb_true_iff]; [left; eauto|by right].
  - intros [(i & Hi & H)| ->]; [exists i|exists m]; (split; [done|]); rewrite Hb by (done || lia); [by rewrite H|by rewrite !Z.eqb_refl, orb_true_r].
Qed.

Lemma FastPathGrantRelationLock_ok F n relid m :
  fast_ok F -> weak_mode m -> fast_bit F relid m = false -> used_count F <= n ->
  exists F' n' r, FastPathGrantRelationLock F n relid m = Ret (F', n', r) /\ fast_ok F' /\ databaseId F' = databaseId F /\ used_count F' <= n' /\
    (if r then fast_added F F' relid m else F' = F).
Proof.
  intros ok Hm Hbit Hn. unfold FastPathGrantRelationLock.
  destruct (grant_scan_ok F relid m fast_slots FP_LOCK_SLOTS_PER_BACKEND ok Hm) as [(f & -> & Hf & Hu & Hr)|(u & -> & Hno & Hu)]; [done| | |]; cbn [cbind].
  - intros f Hf Hr. destruct (slot_bit F f m) eqn:E; [|done]. rewrite (proj2 (fast_bit_spec F relid m)) in Hbit; [done|]. split; [done|]. by exists f.
  - destruct (set_lockmode F f m Hf Hm) as (F' & -> & (E1 & E2 & E3) & Hb). cbn [cbind]. exists F', n, true.
    assert (forall g, slot_rel F' g = slot_rel F g) as Hrel by (intros g; unfold slot_rel; by rewrite E1).
    assert (forall g, g ∈ fast_slots -> slot_used F' g = slot_used F g) as Hused.
    { intros g Hg. rewrite (used_after F F' f m g Hf Hg Hm Hb). destruct (Z.eqb_spec g f) as [->|]; [by rewrite Hu|by rewrite orb_false_r]. }
    split_and!; [done| |done|by unfold used_count; rewrite (countb_ext _ (slot_used F))|].
    + constructor; [by rewrite E1; apply ok|apply E3, ok|]. intros g h Hg Hh. rewrite !Hused, !Hrel by done. by apply (fo_unique _ ok).
    + apply (fast_added_slot F F' f relid m Hf Hm); [by rewrite Hrel|done|by left|done].
  - destruct (Z.ltb_spec u FP_LOCK_SLOTS_PER_BACKEND) as [Hlt|Hge]; [|exists F, n, false; by split_and!].
    destruct Hu as [->|(Hu & Hfree)]; [lia|]. assert (0 <= u < zlen (fpRelId F)) as Hrange by (rewrite (fo_len _ ok); apply elem_of_fast_slots in Hu; unfold FP_LOCK_SLOTS_PER_BACKEND; lia).
    destruct (zset_is_Some (fpRelId F) u relid Hrange) as (ids & Hids). rewrite Hids. cbn [deref cbind].
    set (F1 := {| fpRelId := ids; fpLockBits := fpLockBits F; databaseId := databaseId F |}).
    destruct (set_lockmode F1 u m Hu Hm) as (F' & -> & (E1 & E2 & E3) & Hb). cbn [cbind]. exists F', (n + 1), true.
    assert (forall g, slot_rel F' g = if decide (g = u) then Some relid else slot_rel F g) as Hrel by (intros g; unfold slot_rel; rewrite E1; by apply (zget_zset _ _ _ _ _ Hids)).
    change (slot_bit F1) with (slot_bit F) in Hb. pose proof (fun g Hg => used_after F F' u m g Hu Hg Hm Hb) as Hused.
    split_and!; [done| |done| |].
    + constructor; [rewrite E1; cbn; rewrite (zset_len _ _ _ _ Hids); apply ok|apply E3, ok|]. intros g h Hg Hh. rewrite !Hused, !Hrel by done.
      destruct (decide (g = u)) as [->|Hgu], (decide (h = u)) as [->|Hhu]; [done| | |].
      * destruct (Z.eqb_spec h u); [done|]. rewrite orb_false_r. intros _ Uh E. destruct (Hno h Hh Uh). done.
      * destruct (Z.eqb_spec g u); [done|]. rewrite orb_false_r. intros Ug _ E. destruct (Hno g Hg Ug). done.
      * destruct (Z.eqb_spec g u), (Z.eqb_spec h u); try done. rewrite !orb_false_r. by apply (fo_unique _ ok).
    + unfold used_count. rewrite (countb_change (slot_used F) (slot_used F') u); [|apply NoDup_seqZ|done|].
      * rewrite Hfree. destruct (slot_used F' u); unfold used_count in Hn; lia.
      * intros g Hg Hne. rewrite Hused by done. destruct (Z.eqb_spec g u); [done|]. by rewrite orb_false_r.
    + apply (fast_added_slot F F' u relid m Hu Hm); [rewrite Hrel; by rewrite decide_True|intros g Hne; rewrite Hrel; by rewrite decide_False|by right|done].
Qed.

(** ** Releasing *)

Definition fast_removed (F F' : fastpath) (relid m : Z) : Prop :=
  forall rel i, fast_bit F' rel i = fast_bit F rel i && negb ((rel =? relid) && (i =? m)).

Definition matching (F : fastpath) (relid m f : Z) : bool := bool_decide (slot_rel F f = Some relid) && slot_bit F f m.

Lemma matching_unique F relid m f g :
  fast_ok F -> weak_mode m -> f ∈ fast_slots -> g ∈ fast_slots -> matching F relid m f = true -> matching F relid m g = true -> f = g.
Proof.
  intros ok Hm Hf Hg (Rf%bool_decide_eq_true & Bf)%andb_true_iff (Rg%bool_decide_eq_true & Bg)%andb_true_iff.
  pose proof (proj1 (elem_of_fast_slots f) Hf). pose proof (proj1 (elem_of_fast_slots g) Hg).
  apply (fo_unique _ ok); [done|done|eapply bit_used; [lia|exact Hm|done]|eapply bit_used; [lia|exact Hm|done]|congruence].
Qed.

(** The loop from any slot on: slots already passed have no lock of this kind left. *)
Lemma ungrant_scan_ok relid m slots : forall F n result,
  fast_ok F -> weak_mode m -> NoDup slots -> (forall f, f ∈ slots -> f ∈ fast_slots) ->
  (result = true -> forall f, f ∈ slots -> matching F relid m f = false) ->
  exists F', ungrant_scan slots F n relid m result = Ret (F', n + countb (slot_used F') slots, result || existsb (matching F relid m) slots) /\
    same_slots F F' /\ (forall g i, 0 <= g -> weak_mode i -> slot_bit F' g i = slot_bit F g i && negb (bool_decide (g ∈ slots) && matching F relid m g && (i =? m))).
Proof.
  induction slots as [|f slots IH]; intros F n result ok Hm Hnd Hs Hres; cbn [ungrant_scan].
  { exists F. cbn [countb existsb]. rewrite orb_false_r, Z.add_0_r. split_and!; [done|done|]. intros g i _ _. rewrite bool_decide_eq_false_2 by set_solver. by rewrite andb_true_r. }
  apply NoDup_cons in Hnd as (Hnf & Hnd). assert (f ∈ fast_slots) as Hf by (apply Hs; set_solver). pose proof (proj1 (elem_of_fast_slots f) Hf) as Hf0.
  destruct (slot_in_range F f ok Hf) as (r & Hr). unfold slot_rel in Hr. rewrite Hr. cbn [deref cbind].
  assert ((if r =? relid then FAST_PATH_CHECK_LOCKMODE F f m else Ret false) = Ret (matching F relid m f)) as ->.
  { unfold matching, slot_rel. rewrite Hr. destruct (Z.eqb_spec r relid) as [->|]; [by rewrite (bool_decide_eq_true_2 (Some relid = _)), check_lockmode|].
    by rewrite bool_decide_eq_false_2 by congruence. }
  cbn [cbind existsb]. destruct (matching F relid m f) eqn:Ef.
  - assert (result = false) as ->. { destruct result; [|done]. rewrite (Hres eq_refl f) in Ef by set_solver. done. }
    cbn [negb c_assert cbind]. destruct (clear_lockmode F f m Hf Hm) as (F1 & -> & S1 & Hb1). cbn [cbind].
    assert (fast_ok F1) as ok1 by (eapply fast_ok_fewer; [exact ok|done|]; intros g i Hg Hi; rewrite Hb1 by done; by intros (? & _)%andb_true_iff).
    assert (forall g, g ∈ slots -> matching F relid m g = false) as Hno.
    { intros g Hg. destruct (matching F relid m g) eqn:E; [|done]. assert (f = g) as -> by (eapply (matching_unique F); eauto; set_solver). done. }
    assert (forall g, g ∈ slots -> matching F1 relid m g = false) as Hno1.
    { intros g Hg. specialize (Hno g Hg). unfold matching, slot_rel in Hno |- *. rewrite (proj1 S1).
      assert (g ∈ fast_slots) as Hg0%elem_of_fast_slots by (apply Hs; set_solver). rewrite Hb1 by (done || lia). apply andb_false_iff in Hno as [->| ->]; [done|by rewrite andb_false_r]. }
    destruct (IH F1 (if FAST_PATH_GET_BITS F1 f =? 0 then n else n + 1) true ok1 Hm Hnd) as (F' & -> & S' & Hb'); [set_solver|done|].
    exists F'. cbn [orb]. assert (forall g i, 0 <= g -> weak_mode i -> slot_bit F' g i = slot_bit F1 g i) as Hsame.
    { intros g i Hg Hi. rewrite Hb' by done. destruct (bool_decide_reflect (g ∈ slots)); cbn [andb negb]; [|by rewrite andb_true_r]. rewrite Hno1 by done. by rewrite andb_true_r. }
    split_and!.
    + f_equal. f_equal. f_equal. cbn [countb]. assert (slot_used F' f = slot_used F1 f) as ->.
      { apply eq_true_iff_eq. rewrite !slot_used_spec by lia. split; intros (i & Hi & H); exists i; (split; [done|]); [rewrite <- Hsame by (done || lia)|rewrite Hsame by (done || lia)]; done. }
      unfold slot_used. destruct (FAST_PATH_GET_BITS F1 f =? 0); cbn [negb]; lia.
    + destruct S1 as (A1 & A2 & A3), S' as (B1 & B2 & B3). split_and!; [by rewrite B1|by rewrite B2|auto].
    + intros g i Hg Hi. rewrite Hsame, Hb1 by done. f_equal. f_equal. f_equal. destruct (Z.eqb_spec g f) as [->|Hne].
      * rewrite bool_decide_eq_true_2, Ef by set_solver. done.
      * destruct (bool_decide_reflect (g ∈ f :: slots)) as [[?|Hin]%elem_of_cons|]; [done| |done]. by rewrite Hno.
  - cbn [orb cbind]. destruct (IH F (if FAST_PATH_GET_BITS F f =? 0 then n else n + 1) result ok Hm Hnd) as (F' & -> & S' & Hb'); [set_solver|intros ->; intros g Hg; apply Hres; [done|set_solver]|].
    exists F'. split_and!; [|done|].
    + f_equal. f_equal. f_equal. cbn [countb]. assert (slot_used F' f = slot_used F f) as ->.
      { apply eq_true_iff_eq. rewrite !slot_used_spec by lia. split; intros (i & Hi & H); exists i; (split; [done|]); rewrite Hb', (bool_decide_eq_false_2 (f ∈ slots)) in * by (done || lia); [by rewrite andb_true_r in H|by rewrite H]. }
      unfold slot_used. destruct (FAST_PATH_GET_BITS F f =? 0); cbn [negb]; lia.
    + intros g i Hg Hi. rewrite Hb' by done. f_equal. f_equal. f_equal. destruct (decide (g = f)) as [->|Hne]; [by rewrite Ef, !andb_false_r|].
      f_equal. apply bool_decide_ext. set_solver.
Qed.

Lemma FastPathUnGrantRelationLock_ok F relid m :
  fast_ok F -> weak_mode m ->
  exists F', FastPathUnGrantRelationLock F relid m = Ret (F', used_count F', fast_bit F relid m) /\ fast_ok F' /\ databaseId F' = databaseId F /\ fast_removed F F' relid m.
Proof.
  intros ok Hm. unfold FastPathUnGrantRelationLock.
  destruct (ungrant_scan_ok relid m fast_slots F 0 false ok Hm) as (F' & -> & S & Hb); [apply NoDup_seqZ|done|done|].
  exists F'. assert (fast_bit F relid m = existsb (matching F relid m) fast_slots) as ->.
  { unfold fast_bit. unfold weak_mode in Hm. destruct (Z.leb_spec 1 m); [|lia]. destruct (Z.leb_spec m 3); [|lia]. done. }
  split_and!; [done|eapply fast_ok_fewer; [exact ok|done|]; intros g i Hg Hi; rewrite Hb by done; by intros (? & _)%andb_true_iff|apply S|].
  intros rel i. apply eq_true_iff_eq. rewrite andb_true_iff, negb_true_iff, andb_false_iff, !Z.eqb_neq, !fast_bit_spec.
  assert (forall f, slot_rel F' f = slot_rel F f) as Hrel by (intros f; unfold slot_rel; by rewrite (proj1 S)).
  setoid_rewrite Hrel. split.
  - intros (Hi & f & Hf & Hr & Hbf). pose proof (proj1 (elem_of_fast_slots f) Hf). rewrite Hb in Hbf by (done || lia). apply andb_true_iff in Hbf as (Hbf & Hn).
    split; [split; [done|]; by exists f|]. rewrite (bool_decide_eq_true_2 (f ∈ fast_slots)) in Hn by done. destruct (decide (rel = relid)) as [->|]; [right|by left]. intros ->.
    unfold matching in Hn. by rewrite (bool_decide_eq_true_2 _ Hr), Hbf, Z.eqb_refl in Hn.
  - intros ((Hi & f & Hf & Hr & Hbf) & Hne). pose proof (proj1 (elem_of_fast_slots f) Hf). split; [done|]. exists f. split_and!; [done|done|].
    rewrite Hb, Hbf by (done || lia). cbn [andb]. apply negb_true_iff. rewrite <- andb_assoc. apply andb_false_iff. right. unfold matching. destruct Hne as [Hne|Hne].
    + rewrite bool_decide_eq_false_2 by congruence. done.
    + destruct (Z.eqb_spec i m); [done|]. by rewrite andb_false_r.
Qed.

(** ** Transferring to the shared table *)

Lemma countb_mono {A} (P Q : A -> bool) l : (forall x, x ∈ l -> P x = true -> Q x = true) -> countb P l <= countb Q l.
Proof.
  induction l as [|x l IH]; intros H; [done|]. cbn [countb]. assert (countb P l <= countb Q l) by (apply IH; set_solver).
  pose proof (H x ltac:(set_solver)). destruct (P x), (Q x); try lia; by discriminate (H1 eq_refl).
Qed.

Lemma used_fewer F F' : (forall g i, 0 <= g -> weak_mode i -> slot_bit F' g i = true -> slot_bit F g i = true) -> used_count F' <= used_count F.
Proof.
  intros Hb. apply countb_mono. intros g Hg%elem_of_fast_slots. rewrite !slot_used_spec by lia. intros (i & Hi & H). exists i. split; [done|]. apply Hb; [lia|done|done].
Qed.

(** Clearing one bit of the relation's slot. *)
Lemma clear_removed F F' f relid m :
  fast_ok F -> f ∈ fast_slots -> weak_mode m -> slot_rel F f = Some relid -> slot_bit F f m = true -> same_slots F F' ->
  (forall g i, 0 <= g -> weak_mode i -> slot_bit F' g i = slot_bit F g i && negb ((g =? f) && (i =? m))) -> fast_removed F F' relid m.
Proof.
  intros ok Hf Hm Hr Hbf S Hb rel i. apply eq_true_iff_eq. rewrite andb_true_iff, negb_true_iff, andb_false_iff, !Z.eqb_neq, !fast_bit_spec.
  assert (forall g, slot_rel F' g = slot_rel F g) as Hrel by (intros g; unfold slot_rel; by rewrite (proj1 S)). setoid_rewrite Hrel. split.
  - intros (Hi & g & Hg & Hrg & Hbg). pose proof (proj1 (elem_of_fast_slots g) Hg). rewrite Hb in Hbg by (done || lia). apply andb_true_iff in Hbg as (Hbg & Hn).
    split; [split; [done|]; by exists g|]. destruct (decide (rel = relid)) as [->|]; [right|by left]. intros ->.
    assert (g = f) as ->; [|by rewrite !Z.eqb_refl in Hn]. apply (matching_unique F relid m); [done|done|done|done|unfold matching|unfold matching].
    + by rewrite (bool_decide_eq_true_2 _ Hrg), Hbg.
    + by rewrite (bool_decide_eq_true_2 _ Hr), Hbf.
  - intros ((Hi & g & Hg & Hrg & Hbg) & Hne). pose proof (proj1 (elem_of_fast_slots g) Hg). split; [done|]. exists g. split_and!; [done|done|].
    rewrite Hb, Hbg by (done || lia). cbn [andb]. apply negb_true_iff, andb_false_iff. rewrite !Z.eqb_neq. destruct Hne as [Hne|Hne]; [left|by right]. intros ->. congruence.
Qed.

Section transfer.
Context (MaxBackends : Z) (vacuumFlags : Z -> Z) (U : list Z) (q : Z) (t : LOCKTAG).

(** Locks of process [q] on the relation went from its slots to the shared table. *)
Record moved (s s' : lmgr) (F F' : fastpath) : Prop := {
  mv_ok : lmgr_ok s -> lmgr_ok s';
  mv_procs : allProcs s' = allProcs s;
  mv_frame : frame s s' t;
  mv_fast : fast_ok F -> fast_ok F';
  mv_slots : same_slots F F';
  mv_used : used_count F' <= used_count F;
  mv_bits : forall g i, 0 <= g -> weak_mode i -> slot_bit F' g i = true -> slot_bit F g i = true;
  mv_others : forall p m, p <> q -> holds s' t p m = holds s t p m;
  mv_more : forall m, holds s t q m = true -> holds s' t q m = true;
  mv_fewer : forall rel m, fast_bit F' rel m = true -> fast_bit F rel m = true;
  mv_rest : forall rel m, rel <> locktag_field2 t -> fast_bit F' rel m = fast_bit F rel m;
  mv_sum : forall m, holds s' t q m || fast_bit F' (locktag_field2 t) m = holds s t q m || fast_bit F (locktag_field2 t) m;
  mv_apart : (forall m, fast_bit F (locktag_field2 t) m = true -> holds s t q m = false) -> forall m, fast_bit F' (locktag_field2 t) m = true -> holds s' t q m = false;
  mv_steps : rtc (lock_step MaxBackends vacuumFlags U) s s' }.

Lemma moved_refl s F : moved s s F F.
Proof. by constructor. Qed.

Lemma moved_trans s s1 s2 F F1 F2 : moved s s1 F F1 -> moved s1 s2 F1 F2 -> moved s s2 F F2.
Proof.
  intros A B. constructor.
  - intros H. by apply (mv_ok _ _ _ _ B), (mv_ok _ _ _ _ A).
  - by rewrite (mv_procs _ _ _ _ B), (mv_procs _ _ _ _ A).
  - exact (frame_trans _ _ _ _ (mv_frame _ _ _ _ A) (mv_frame _ _ _ _ B)).
  - intros H. by apply (mv_fast _ _ _ _ B), (mv_fast _ _ _ _ A).
  - destruct (mv_slots _ _ _ _ A) as (A1 & A2 & A3), (mv_slots _ _ _ _ B) as (B1 & B2 & B3). split_and!; [by rewrite B1|by rewrite B2|auto].
  - pose proof (mv_used _ _ _ _ A). pose proof (mv_used _ _ _ _ B). lia.
  - intros g i Hg Hi H. apply (mv_bits _ _ _ _ A); [done|done|]. by apply (mv_bits _ _ _ _ B).
  - intros p m Hne. by rewrite (mv_others _ _ _ _ B), (mv_others _ _ _ _ A).
  - intros m H. by apply (mv_more _ _ _ _ B), (mv_more _ _ _ _ A).
  - intros rel m H. by apply (mv_fewer _ _ _ _ A), (mv_fewer _ _ _ _ B).
  - intros rel m H. by rewrite (mv_rest _ _ _ _ B), (mv_rest _ _ _ _ A).
  - intros m. by rewrite (mv_sum _ _ _ _ B), (mv_sum _ _ _ _ A).
  - intros H. by apply (mv_apart _ _ _ _ B), (mv_apart _ _ _ _ A).
  - etrans; [exact (mv_steps _ _ _ _ A)|exact (mv_steps _ _ _ _ B)].
Qed.

(** What is needed to move: the lock is in the slots only, and not waited for. *)
Record movable (s : lmgr) (F : fastpath) : Prop := {
  mo_ok : lmgr_ok s;
  mo_fast : fast_ok F;
  mo_apart : forall m, fast_bit F (locktag_field2 t) m = true -> holds s t q m = false;
  mo_wait : forall m, fast_bit F (locktag_field2 t) m = true -> waitLock (allProcs s q) = Some t -> waits_mode s q <> m;
  mo_known : forall m, fast_bit F (locktag_field2 t) m = true -> q ∈ U /\ leader_of s q ∈ U }.

Lemma movable_moved s s' F F' : movable s F -> moved s s' F F' -> movable s' F'.
Proof.
  intros [H1 H2 H3 H4 H5] M. constructor.
  - by apply (mv_ok _ _ _ _ M).
  - by apply (mv_fast _ _ _ _ M).
  - by apply (mv_apart _ _ _ _ M).
  - intros m Hm. unfold waits_mode. rewrite (mv_procs _ _ _ _ M). by apply H4, (mv_fewer _ _ _ _ M).
  - intros m Hm. unfold leader_of. rewrite (mv_procs _ _ _ _ M). by eapply H5, (mv_fewer _ _ _ _ M).
Qed.

(** One mode. *)
Lemma move_one room_lock room_proclock s F f m :
  movable s F -> f ∈ fast_slots -> weak_mode m -> slot_rel F f = Some (locktag_field2 t) -> slot_bit F f m = true ->
  SetupLockInTable room_lock room_proclock s q t m = Ret (s, SetupOutOfMemory) \/
  exists s1 s' F', SetupLockInTable room_lock room_proclock s q t m = Ret (s1, SetupDone) /\ GrantLock s1 t q m = Ret s' /\
    FAST_PATH_CLEAR_LOCKMODE F f m = Ret F' /\ moved s s' F F' /\ (forall g i, 0 <= g -> weak_mode i -> slot_bit F' g i = slot_bit F g i && negb ((g =? f) && (i =? m))).
Proof.
  intros [ok okF Hap Hwt Hkn] Hf Hm Hr Hbf. assert (fast_bit F (locktag_field2 t) m = true) as Hfb by (apply fast_bit_spec; split; [done|]; by exists f).
  assert (is_mode m) as Him by (unfold weak_mode in Hm; unfold is_mode, numLockModes, AccessExclusiveLock; lia).
  destruct (enter_granted room_lock room_proclock s q t m ok Him (Hap m Hfb) (Hwt m Hfb)) as [(E & _)|(s1 & s' & E1 & E2 & ok' & Fr & Ha & Hp)]; [by left|right].
  destruct (clear_lockmode F f m Hf Hm) as (F' & EF & S & Hb). exists s1, s', F'. split_and!; [done|done|done| |done].
  pose proof (clear_removed F F' f (locktag_field2 t) m okF Hf Hm Hr Hbf S Hb) as Hrem.
  assert (forall g i, 0 <= g -> weak_mode i -> slot_bit F' g i = true -> slot_bit F g i = true) as Hless by (intros g i Hg Hi; rewrite Hb by done; by intros (? & _)%andb_true_iff).
  constructor; [done|done|done|intros _; by eapply fast_ok_fewer|done|by apply used_fewer|done| | | | | | |].
  - intros p i Hne. rewrite Ha. destruct (Z.eqb_spec p q); [done|]. by rewrite orb_false_r.
  - intros i Hi. by rewrite Ha, Hi.
  - intros rel i. rewrite Hrem. by intros (? & _)%andb_true_iff.
  - intros rel i Hne. rewrite Hrem. destruct (Z.eqb_spec rel (locktag_field2 t)); [done|]. by rewrite andb_true_r.
  - intros i. rewrite Ha, Hrem, !Z.eqb_refl. cbn [andb]. destruct (Z.eqb_spec i m) as [->|]; [by rewrite Hfb, !orb_true_r|by rewrite orb_false_r, andb_true_r].
  - intros Hd i. rewrite Ha, Hrem, !Z.eqb_refl. cbn [andb]. intros (Hi & Hn)%andb_true_iff. rewrite (Hd i Hi). by destruct (Z.eqb_spec i m).
  - destruct (Hkn m Hfb) as (HU & HU'). eapply rtc_once, (step_enter _ _ _ _ room_lock room_proclock q t m s1 s'); auto.
Qed.

Lemma transfer_modes_ok room f modes : forall s F,
  movable s F -> f ∈ fast_slots -> slot_rel F f = Some (locktag_field2 t) -> (forall m, m ∈ modes -> weak_mode m) ->
  exists s' F' ok, transfer_modes room modes s F q t f = Ret (s', F', ok) /\ moved s s' F F' /\
    (forall m, slot_bit F f m = false -> weak_mode m -> slot_bit F' f m = false) /\
    (ok = true -> forall m, m ∈ modes -> slot_bit F' f m = false).
Proof.
  induction modes as [|m modes IH]; intros s F M Hf Hr Hmodes; cbn [transfer_modes].
  { exists s, F, true. split_and!; [done|apply moved_refl|done|]. by intros _ m H%elem_of_nil. }
  assert (weak_mode m) as Hm by (apply Hmodes; set_solver). rewrite check_lockmode by done. cbn [cbind]. pose proof (proj1 (elem_of_fast_slots f) Hf) as Hf0.
  destruct (slot_bit F f m) eqn:Eb; cbn [negb].
  - destruct (move_one (fst (room m)) (snd (room m)) s F f m M Hf Hm Hr Eb) as [->|(s1 & s2 & F1 & -> & E2 & E3 & M1 & Hb1)]; cbn [cbind].
    { exists s, F, false. split_and!; [done|apply moved_refl|done|done]. }
    rewrite E2. cbn [cbind]. rewrite E3. cbn [cbind].
    destruct (IH s2 F1) as (s' & F' & ok & -> & M' & Hb' & Hd'); [by eapply movable_moved|done|unfold slot_rel; by rewrite (proj1 (mv_slots _ _ _ _ M1))|set_solver|].
    exists s', F', ok. split_and!; [done|by eapply moved_trans| |].
    + intros i Hi Hw. apply Hb'; [|done]. by rewrite Hb1, Hi by (done || lia).
    + intros Hok i [->|Hi]%elem_of_cons; [|by apply Hd']. apply Hb'; [|done]. rewrite Hb1 by (done || lia). by rewrite !Z.eqb_refl, andb_false_r.
  - destruct (IH s F M Hf Hr) as (s' & F' & ok & -> & M' & Hb' & Hd'); [set_solver|]. exists s', F', ok. split_and!; [done|done|done|].
    intros Hok i [->|Hi]%elem_of_cons; [by apply Hb'|by apply Hd'].
Qed.

Lemma transfer_slots_ok room slots : forall s F,
  movable s F -> (forall f, f ∈ slots -> f ∈ fast_slots) ->
  exists s' F' ok, transfer_slots room slots s F q t = Ret (s', F', ok) /\ moved s s' F F' /\
    (ok = true -> forall f m, f ∈ slots -> slot_rel F f = Some (locktag_field2 t) -> weak_mode m -> slot_bit F' f m = false).
Proof.
  induction slots as [|f slots IH]; intros s F M Hs; cbn [transfer_slots].
  { exists s, F, true. split_and!; [done|apply moved_refl|]. by intros _ f m H%elem_of_nil. }
  assert (f ∈ fast_slots) as Hf by (apply Hs; set_solver). pose proof (proj1 (elem_of_fast_slots f) Hf) as Hf0.
  destruct (slot_in_range F f (mo_fast _ _ M) Hf) as (r & Hr). pose proof Hr as Hr'. unfold slot_rel in Hr'. rewrite Hr'. cbn [deref cbind].
  destruct (negb (locktag_field2 t =? r) || (FAST_PATH_GET_BITS F f =? 0)) eqn:Eskip.
  - destruct (IH s F M) as (s' & F' & ok & -> & M' & Hd'); [set_solver|]. exists s', F', ok. split_and!; [done|done|].
    intros Hok g m [->|Hg]%elem_of_cons Hrg Hm; [|by apply Hd']. destruct (slot_bit F' f m) eqn:E; [|done]. exfalso.
    apply (mv_bits _ _ _ _ M') in E; [|lia|done]. apply (bit_used F f m) in E; [|lia|done]. unfold slot_used in E.
    apply orb_true_iff in Eskip as [Hne|Hfree]; [rewrite Hrg in Hr; injection Hr as <-; by rewrite Z.eqb_refl in Hne|by rewrite Hfree in E].
  - apply orb_false_iff in Eskip as (Eq & Eu). apply negb_false_iff, Z.eqb_eq in Eq. subst r.
    destruct (transfer_modes_ok room f (seqZ FAST_PATH_LOCKNUMBER_OFFSET FAST_PATH_BITS_PER_SLOT) s F M Hf Hr) as (s' & F' & ok & -> & M' & _ & Hd').
    { intros m Hm%elem_of_seqZ. unfold FAST_PATH_LOCKNUMBER_OFFSET, FAST_PATH_BITS_PER_SLOT in Hm. unfold weak_mode. lia. }
    exists s', F', ok. split_and!; [done|done|]. intros Hok g m Hg Hrg Hm. destruct (decide (g = f)) as [->|Hne].
    + apply Hd'; [done|]. apply elem_of_seqZ. unfold FAST_PATH_LOCKNUMBER_OFFSET, FAST_PATH_BITS_PER_SLOT. unfold weak_mode in Hm. lia.
    + destruct (slot_bit F' g m) eqn:E; [|done]. destruct Hne. assert (g ∈ fast_slots) as Hg' by (by apply Hs). pose proof (proj1 (elem_of_fast_slots g) Hg').
      apply (mv_bits _ _ _ _ M') in E; [|lia|done]. apply (fo_unique _ (mo_fast _ _ M)); [done|done|eapply bit_used; [lia|exact Hm|done]|unfold slot_used; by rewrite Eu|congruence].
Qed.

(** A process of another database is passed; of the others nothing is left in the slots
    unless the shared table is full. *)
Lemma transfer_proc_ok room s F :
  (databaseId F = locktag_field1 t -> movable s F) ->
  exists s' F' ok, transfer_proc room s F q t = Ret (s', F', ok) /\
    ((databaseId F <> locktag_field1 t /\ s' = s /\ F' = F /\ ok = true) \/
     (databaseId F = locktag_field1 t /\ moved s s' F F' /\ (ok = true -> forall m, fast_bit F' (locktag_field2 t) m = false))).
Proof.
  intros M. unfold transfer_proc. destruct (Z.eqb_spec (databaseId F) (locktag_field1 t)) as [E|E]; cbn [negb]; [|exists s, F, true; split; [done|]; by left].
  destruct (transfer_slots_ok room fast_slots s F (M E)) as (s' & F' & ok & -> & M' & Hd'); [done|]. exists s', F', ok. split; [done|]. right. split_and!; [done|done|].
  intros Hok m. destruct (fast_bit F' (locktag_field2 t) m) eqn:Eb; [|done]. apply fast_bit_spec in Eb as (Hm & f & Hf & Hr & Hb).
  rewrite (Hd' Hok f m) in Hb; [done|done| |done]. unfold slot_rel in Hr |- *. by rewrite <- (proj1 (mv_slots _ _ _ _ M')).
Qed.
End transfer.
