(* ===== verification/LockLocal.v ===== *)
(** * Heavyweight locks: the local lock table

    The counts of a [LOCALLOCK] and the memory of the resource owners agree, and every
    routine of [LockBackend] that works on them keeps it so; in particular an owner is
    never asked to forget a lock it does not know. *)
From stdpp Require Import list gmap functions.
From S2P Require Import Prelude LockModes LockTable LockInvariant LockBackend.

(** ** Arrays that are kept compact *)

Lemma find_last_Some {A} (P : A -> bool) l i : find_last P l = Some i -> exists x, l !! i = Some x /\ P x = true.
Proof.
  revert i. induction l as [|y l IH]; intros i; cbn [find_last]; [done|]. destruct (find_last P l) as [j|].
  - intros [= <-]. destruct (IH j eq_refl) as (x & Hx & HP). by exists x.
  - destruct (P y) eqn:E; [|done]. intros [= <-]. by exists y.
Qed.

Lemma find_last_None {A} (P : A -> bool) l : find_last P l = None -> forall x, x ∈ l -> P x = false.
Proof.
  induction l as [|y l IH]; cbn [find_last]; [intros _ x H; by apply elem_of_nil in H|].
  destruct (find_last P l); [done|]. destruct (P y) eqn:E; [done|]. intros _ x [->|Hx]%elem_of_cons; [done|by apply IH].
Qed.

Lemma find_first_Some {A} (P : A -> bool) l i : find_first P l = Some i -> exists x, l !! i = Some x /\ P x = true.
Proof.
  revert i. induction l as [|y l IH]; intros i; cbn [find_first]; [done|]. destruct (P y) eqn:E; [intros [= <-]; by exists y|].
  destruct (find_first P l) as [j|]; [|done]. intros [= <-]. destruct (IH j eq_refl) as (x & Hx & HP). by exists x.
Qed.

Lemma find_first_None {A} (P : A -> bool) l : find_first P l = None -> forall x, x ∈ l -> P x = false.
Proof.
  induction l as [|y l IH]; cbn [find_first]; [intros _ x H; by apply elem_of_nil in H|].
  destruct (P y) eqn:E; [done|]. destruct (find_first P l); [done|]. intros _ x [->|Hx]%elem_of_cons; [done|by apply IH].
Qed.

(** The slot is filled with the last element: a permutation of what is left. *)
Lemma swap_remove_perm {A} (l : list A) i x : l !! i = Some x -> l ≡ₚ x :: swap_remove l i.
Proof.
  intros Hx. pose proof (list_elem_of_split_length l i x Hx) as (l1 & l2 & -> & ->). unfold swap_remove.
  destruct l2 as [|y l2 _] using rev_ind.
  - rewrite last_snoc, length_app, insert_app_r_alt, Nat.sub_diag by lia. cbn [length list_insert]. replace (pred (length l1 + 1)) with (length l1) by lia.
    change (<[0%nat := x]> [x]) with [x]. rewrite take_app_length. by rewrite Permutation_app_comm.
  - assert (last (l1 ++ x :: l2 ++ [y]) = Some y) as -> by (rewrite app_comm_cons, app_assoc; apply last_snoc).
    rewrite insert_app_r_alt, Nat.sub_diag by lia. change (<[0%nat := y]> (x :: l2 ++ [y])) with (y :: l2 ++ [y]).
    assert (take (pred (length (l1 ++ x :: l2 ++ [y]))) (l1 ++ y :: l2 ++ [y]) = l1 ++ y :: l2) as ->.
    { replace (l1 ++ y :: l2 ++ [y]) with ((l1 ++ y :: l2) ++ [y]) by (by rewrite <- app_assoc). apply take_app_length'. rewrite !length_app. cbn [length]. rewrite length_app. cbn [length]. lia. }
    rewrite (Permutation_app_comm l2 [y]). cbn [app]. symmetry. apply Permutation_middle.
Qed.

(** ** Resource owners *)

(** The owner knows exactly the locks [S], unless it has had too many of them. *)
Definition ro_ok (r : ResourceOwner) (S : LOCALLOCKTAG -> Prop) : Prop :=
  0 <= nlocks r <= MAX_RESOWNER_LOCKS + 1 /\
  (nlocks r <= MAX_RESOWNER_LOCKS -> zlen (ro_locks r) = nlocks r /\ NoDup (ro_locks r) /\ forall k, k ∈ ro_locks r <-> S k).

Lemma ro_ok_ext r (S S' : LOCALLOCKTAG -> Prop) : (forall k, S k <-> S' k) -> ro_ok r S -> ro_ok r S'.
Proof. intros H (H1 & H2). split; [done|]. intros Hn. destruct (H2 Hn) as (A & B & C). split_and!; [done|done|]. intros k. by rewrite C. Qed.

Lemma remember_ok r (S : LOCALLOCKTAG -> Prop) k : ro_ok r S -> ~ S k -> ro_ok (ResourceOwnerRememberLock r k) (fun k' => k' = k \/ S k').
Proof.
  unfold ResourceOwnerRememberLock, ro_ok, MAX_RESOWNER_LOCKS. intros (H1 & H2) Hk. destruct (Z.ltb_spec 15 (nlocks r)); [split; [done|]; lia|]. cbn [nlocks ro_locks].
  split; [lia|]. intros Hn. destruct (Z.ltb_spec (nlocks r) 15); [|lia]. destruct H2 as (A & B & C); [lia|]. split_and!.
  - rewrite zlen_app. change (zlen [k]) with 1. lia.
  - apply NoDup_app. split_and!; [done| |apply NoDup_singleton]. intros x Hx ->%list_elem_of_singleton. by apply Hk, C.
  - intros k'. rewrite elem_of_app, list_elem_of_singleton, C. tauto.
Qed.

Lemma forget_ok r (S : LOCALLOCKTAG -> Prop) k : ro_ok r S -> S k -> exists r', ResourceOwnerForgetLock r k = Ret r' /\ ro_ok r' (fun k' => k' <> k /\ S k').
Proof.
  unfold ResourceOwnerForgetLock. intros (H1 & H2) Hk. destruct (Z.ltb_spec MAX_RESOWNER_LOCKS (nlocks r)) as [Hlt|Hle].
  { exists r. split; [done|]. split; [done|]. lia. }
  destruct (H2 Hle) as (A & B & C). apply C in Hk. assert (0 < nlocks r) by (rewrite <- A; destruct (ro_locks r) as [|x l]; [by apply elem_of_nil in Hk|rewrite zlen_cons; pose proof (zlen_nonneg l); lia]).
  destruct (Z.ltb_spec 0 (nlocks r)); [|lia]. cbn [c_assert cbind]. destruct (find_last _ (ro_locks r)) as [i|] eqn:Ei.
  - apply find_last_Some in Ei as (x & Hx & ->%bool_decide_eq_true). pose proof (swap_remove_perm _ _ _ Hx) as Hp. eexists. split; [done|]. generalize dependent (swap_remove (ro_locks r) i). intros R Hp.
    split; cbn [nlocks ro_locks]; [lia|]. intros _. rewrite Hp in B. apply NoDup_cons in B as (B1 & B2). split_and!.
    + rewrite <- A. unfold zlen. rewrite (Permutation_length Hp). cbn [length]. lia.
    + done.
    + intros k'. rewrite <- C, Hp, elem_of_cons. split; [intros Hin; split; [by intros ->|by right]|]. intros (Hne & [?|?]); done.
  - pose proof (find_last_None _ _ Ei k Hk) as Hn. by apply bool_decide_eq_false in Hn.
Qed.

(** The owners of a backend know the locks of [O]. *)
Definition owners_match (b : backend) (O : Z -> LOCALLOCKTAG -> Prop) : Prop := forall o, ro_ok (resOwners b o) (O o).

(** Nothing but the entries and the owners has changed. *)
Record same_rest (b b' : backend) : Prop := {
  sr_use : FastPathLocalUseCount b' = FastPathLocalUseCount b;
  sr_strong : StrongLockInProgress b' = StrongLockInProgress b;
  sr_wait : lockAwaited b' = lockAwaited b;
  sr_awaited : awaited b' = awaited b;
  sr_mask : releaseMask b' = releaseMask b;
  sr_point : at_point b' = at_point b }.

Lemma same_rest_refl b : same_rest b b.
Proof. by constructor. Qed.

Lemma same_rest_trans b b1 b2 : same_rest b b1 -> same_rest b1 b2 -> same_rest b b2.
Proof. intros [A1 A2 A3 A4 A5 A6] [B1 B2 B3 B4 B5 B6]. constructor; congruence. Qed.

Lemma owners_match_ext b (O O' : Z -> LOCALLOCKTAG -> Prop) : (forall o k, O o k <-> O' o k) -> owners_match b O -> owners_match b O'.
Proof. intros H M o. eapply ro_ok_ext; [apply H|apply M]. Qed.

Lemma owner_remembers b O o k :
  owners_match b O -> ~ O o k -> owners_match (put_owner b o (ResourceOwnerRememberLock (resOwners b o) k)) (fun o' k' => (o' = o /\ k' = k) \/ O o' k').
Proof.
  intros M Hk o'. cbn. destruct (decide (o' = o)) as [->|Hne].
  - rewrite fn_lookup_insert. eapply ro_ok_ext; [|by apply remember_ok]. tauto.
  - rewrite fn_lookup_insert_ne by done. eapply ro_ok_ext; [|apply M]. tauto.
Qed.

Lemma owner_forgets b O o k :
  owners_match b O -> O o k -> exists r, ResourceOwnerForgetLock (resOwners b o) k = Ret r /\ owners_match (put_owner b o r) (fun o' k' => ~ (o' = o /\ k' = k) /\ O o' k').
Proof.
  intros M Hk. destruct (forget_ok _ _ k (M o) Hk) as (r & E & Hr). exists r. split; [done|]. intros o'. cbn. destruct (decide (o' = o)) as [->|Hne].
  - rewrite fn_lookup_insert. eapply ro_ok_ext; [|exact Hr]. tauto.
  - rewrite fn_lookup_insert_ne by done. eapply ro_ok_ext; [|apply M]. tauto.
Qed.

(** The optional owner of an entry forgets the lock. *)
Lemma entry_forgets b O owner k :
  owners_match b O -> (forall o, owner = Some o -> O o k) ->
  exists b', match owner with Some o => let* r := ResourceOwnerForgetLock (resOwners b o) k in Ret (put_owner b o r) | None => Ret b end = Ret b' /\
    owners_match b' (fun o' k' => ~ (owner = Some o' /\ k' = k) /\ O o' k') /\ LocalHash b' = LocalHash b /\ same_rest b b'.
Proof.
  intros M Hk. destruct owner as [o|].
  - destruct (owner_forgets b O o k M (Hk o eq_refl)) as (r & -> & Hr). cbn [cbind]. eexists. split; [done|]. split_and!; [|done|by constructor].
    eapply owners_match_ext; [|exact Hr]. intros o' k'. cbn. split; intros (H1 & H2); (split; [|done]); intros (H3 & H4); apply H1; split; congruence.
  - exists b. split_and!; [done| |done|by constructor]. eapply owners_match_ext; [|exact M]. intros o' k'. cbn. naive_solver.
Qed.

Lemma forget_owners_ok b O k owners :
  owners_match b O -> NoDup (map fst owners) -> (forall o, Some o ∈ map fst owners -> O o k) ->
  exists b', forget_owners b k owners = Ret b' /\ owners_match b' (fun o' k' => ~ (Some o' ∈ map fst owners /\ k' = k) /\ O o' k') /\
    LocalHash b' = LocalHash b /\ same_rest b b'.
Proof.
  induction owners as [|[o n] owners IH]; intros M Hnd Hk; cbn [forget_owners].
  { exists b. split_and!; [done| |done|by constructor]. eapply owners_match_ext; [|exact M]. intros o' k'. cbn. set_solver. }
  cbn [map fst] in *. apply NoDup_cons in Hnd as (Hn & Hnd). destruct (IH M Hnd) as (b1 & -> & M1 & L1 & R1); [set_solver|]. cbn [cbind].
  destruct (entry_forgets b1 _ o k M1) as (b2 & -> & M2 & L2 & R2); [intros o' ->; cbn; split; [naive_solver|apply Hk; set_solver]|].
  exists b2. split_and!; [done| |by rewrite L2|by eapply same_rest_trans]. eapply owners_match_ext; [|exact M2]. intros o' k'. cbn. rewrite elem_of_cons. naive_solver.
Qed.

(** ** Entries *)

Definition owner_sum (owners : list (option Z * Z)) : Z := foldr (fun e n => snd e + n) 0 owners.

(** The entry counts what its owners have, each of them at least once. *)
Record local_ok (l : LOCALLOCK) : Prop := {
  lo_sum : nLocks l = owner_sum (lockOwners l);
  lo_pos : forall e, e ∈ lockOwners l -> 0 < snd e;
  lo_nodup : NoDup (map fst (lockOwners l));
  lo_room : zlen (lockOwners l) <= maxLockOwners l;
  lo_max : 0 < maxLockOwners l }.

Definition owned_by (b : backend) (o : Z) (k : LOCALLOCKTAG) : Prop := exists l, LocalHash b !! k = Some l /\ Some o ∈ map fst (lockOwners l).

Record locals_ok (b : backend) : Prop := {
  lb_entry : forall k l, LocalHash b !! k = Some l -> local_ok l;
  lb_owners : owners_match b (owned_by b) }.

Lemma owner_sum_nonneg owners : (forall e, e ∈ owners -> 0 < snd e) -> 0 <= owner_sum owners.
Proof. induction owners as [|e owners IH]; intros H; [done|]. cbn. pose proof (H e ltac:(set_solver)). assert (0 <= owner_sum owners) by (apply IH; set_solver). unfold owner_sum in *. lia. Qed.

Lemma nLocks_nonneg l : local_ok l -> 0 <= nLocks l.
Proof. intros ok. rewrite (lo_sum _ ok). apply owner_sum_nonneg, ok. Qed.

(** An entry that counts nothing has no owners. *)
Lemma nLocks_zero l : local_ok l -> nLocks l = 0 -> lockOwners l = [].
Proof.
  intros ok Hz. rewrite (lo_sum _ ok) in Hz. pose proof (lo_pos _ ok) as Hp. destruct (lockOwners l) as [|e owners]; [done|]. cbn in Hz.
  pose proof (Hp e ltac:(set_solver)). assert (0 <= owner_sum owners) by (apply owner_sum_nonneg; set_solver). unfold owner_sum in *. lia.
Qed.

Lemma owner_sum_perm owners owners' : owners ≡ₚ owners' -> owner_sum owners = owner_sum owners'.
Proof. unfold owner_sum. induction 1; cbn; lia. Qed.

Lemma perm_local_ok l e owners n cleared :
  local_ok l -> lockOwners l ≡ₚ e :: owners -> n = nLocks l - snd e -> local_ok (ll_count l n owners cleared).
Proof.
  intros [H1 H2 H3 H4 H5] Hp ->. constructor; cbn.
  - rewrite H1, (owner_sum_perm _ _ Hp). cbn. unfold owner_sum. lia.
  - intros e' He. apply H2. rewrite Hp. set_solver.
  - rewrite Hp in H3. by apply NoDup_cons in H3 as (_ & H3).
  - unfold zlen in *. rewrite (Permutation_length Hp) in H4. cbn in H4. lia.
  - done.
Qed.

(** Only entry [k] is new, and the owners know it as they know the others. *)
Lemma locals_put b b' k l :
  locals_ok b -> LocalHash b' = <[k := l]> (LocalHash b) -> local_ok l ->
  owners_match b' (fun o k' => (k' = k /\ Some o ∈ map fst (lockOwners l)) \/ (k' <> k /\ owned_by b o k')) -> locals_ok b'.
Proof.
  intros [H1 H2] HL Hl M. constructor.
  - intros k' l'. rewrite HL. destruct (decide (k' = k)) as [->|]; [rewrite lookup_insert_eq; by intros [= <-]|rewrite lookup_insert_ne by done; apply H1].
  - eapply owners_match_ext; [|exact M]. intros o k'. cbn. unfold owned_by. rewrite HL. destruct (decide (k' = k)) as [->|].
    + rewrite lookup_insert_eq. naive_solver.
    + rewrite lookup_insert_ne by done. naive_solver.
Qed.

(** The same owners as before. *)
Lemma locals_same_owners b k l l' :
  locals_ok b -> LocalHash b !! k = Some l -> local_ok l' -> map fst (lockOwners l') = map fst (lockOwners l) -> locals_ok (put_local b k l').
Proof.
  intros ok Hk Hl' E. eapply (locals_put b _ k l' ok); [done|done|]. eapply owners_match_ext; [|apply (lb_owners _ ok)]. intros o k'. rewrite E. unfold owned_by.
  destruct (decide (k' = k)) as [->|]; [rewrite Hk|]; naive_solver.
Qed.

(** A new entry without owners. *)
Lemma locals_new b k l :
  locals_ok b -> LocalHash b !! k = None -> local_ok l -> lockOwners l = [] -> locals_ok (put_local b k l).
Proof.
  intros ok Hk Hl E. eapply (locals_put b _ k l ok); [done|done|]. eapply owners_match_ext; [|apply (lb_owners _ ok)]. intros o k'. rewrite E. unfold owned_by.
  destruct (decide (k' = k)) as [->|]; [rewrite Hk|]; set_solver.
Qed.

(** An entry goes that nobody knows any more. *)
Lemma locals_delete b b' k :
  locals_ok b -> LocalHash b' = LocalHash b -> owners_match b' (fun o k' => k' <> k /\ owned_by b o k') -> locals_ok (with_locals b' (delete k (LocalHash b'))).
Proof.
  intros [H1 H2] HL M. constructor; cbn; rewrite HL.
  - intros k' l. rewrite lookup_delete_Some. intros (_ & H). by eapply H1.
  - eapply owners_match_ext; [|exact M]. intros o k'. cbn. unfold owned_by. cbn. setoid_rewrite lookup_delete_Some. naive_solver.
Qed.

Lemma bump_owner_ok owner owners :
  match bump_owner owner owners with
  | Some owners' => map fst owners' = map fst owners /\ owner_sum owners' = owner_sum owners + 1 /\ length owners' = length owners /\
      ((forall e, e ∈ owners -> 0 < snd e) -> forall e, e ∈ owners' -> 0 < snd e)
  | None => owner ∉ map fst owners
  end.
Proof.
  induction owners as [|[o n] owners IH]; cbn [bump_owner]; [apply not_elem_of_nil|]. case_bool_decide as E.
  - split_and!; [done| |done|]; [unfold owner_sum; cbn; lia|]. intros H e [->|He]%elem_of_cons; [|apply H; set_solver]. cbn. pose proof (H (o, n) ltac:(set_solver)). cbn in *. lia.
  - destruct (bump_owner owner owners) as [owners'|]; cbn [option_map].
    + destruct IH as (A & B & C & D). split_and!; [cbn; by rewrite A|unfold owner_sum in *; cbn; lia|cbn; by rewrite C|].
      intros H e [->|He]%elem_of_cons; [apply H; set_solver|]. apply D; [|done]. intros e' He'. apply H. set_solver.
    + cbn [map fst]. rewrite not_elem_of_cons. split; [by intros ->|done].
Qed.

(** What an entry is beside its counts. *)
Definition same_flags (l l' : LOCALLOCK) : Prop :=
  ll_shared l' = ll_shared l /\ holdsStrongLockCount l' = holdsStrongLockCount l.

Lemma GrantLockLocal_ok b k owner l :
  locals_ok b -> LocalHash b !! k = Some l -> zlen (lockOwners l) < maxLockOwners l ->
  exists b' l', GrantLockLocal b k owner = Ret b' /\ locals_ok b' /\ LocalHash b' = <[k := l']> (LocalHash b) /\ same_rest b b' /\
    nLocks l' = nLocks l + 1 /\ same_flags l l'.
Proof.
  intros ok Hk Hroom. unfold GrantLockLocal. rewrite Hk. cbn [deref cbind]. destruct (Z.ltb_spec (zlen (lockOwners l)) (maxLockOwners l)); [|lia]. cbn [c_assert cbind].
  pose proof (lb_entry _ ok k l Hk) as [H1 H2 H3 H4 H5]. pose proof (bump_owner_ok owner (lockOwners l)) as Hbump. destruct (bump_owner owner (lockOwners l)) as [owners|].
  - destruct Hbump as (A & B & C & D). eexists _, _. split; [done|]. split_and!; [|done|by constructor|done|done].
    apply (locals_same_owners b k l); [done|done| |done]. constructor; cbn [nLocks lockOwners ll_count maxLockOwners]; [lia|auto|by rewrite A|unfold zlen in *; by rewrite C|done].
  - set (l' := ll_count l (nLocks l + 1) (lockOwners l ++ [(owner, 1)]) (lockCleared l)).
    assert (map fst (lockOwners l') = map fst (lockOwners l) ++ [owner]) as Emap by (cbn; by rewrite map_app).
    assert (local_ok l') as Hl'.
    { constructor; cbn.
      - unfold owner_sum in *. rewrite foldr_app, H1. cbn. clear. induction (lockOwners l) as [|e owners IH]; cbn; lia.
      - intros e [He| ->%list_elem_of_singleton]%elem_of_app; [auto|done].
      - rewrite map_app. apply NoDup_app. split_and!; [done| |apply NoDup_singleton]. intros x Hx ->%list_elem_of_singleton. done.
      - rewrite zlen_app. change (zlen [(owner, 1)]) with 1. lia.
      - done. }
    assert (forall b', LocalHash b' = <[k := l']> (LocalHash b) -> owners_match b' (fun o k' => (owner = Some o /\ k' = k) \/ owned_by b o k') -> locals_ok b') as Hput.
    { intros b' HL M. apply (locals_put b b' k l' ok HL Hl'). eapply owners_match_ext; [|exact M]. intros o k'. cbn beta. rewrite Emap, elem_of_app, list_elem_of_singleton. unfold owned_by.
      destruct (decide (k' = k)) as [->|]; [rewrite Hk|]; naive_solver. }
    destruct owner as [o|]; (eexists _, l'; split; [done|]; split_and!; [apply Hput; [done|]|done|by constructor|done|done]).
    + eapply owners_match_ext; [|apply (owner_remembers (put_local b k l') (owned_by b) o k (lb_owners _ ok))].
      * intros o' k'. cbn. naive_solver.
      * intros (l0 & Hl0 & Ho). rewrite Hk in Hl0. injection Hl0 as <-. done.
    + eapply owners_match_ext; [|apply (lb_owners _ ok)]. naive_solver.
Qed.

(** ** Entries that go *)

(** Every entry but [k] is in order, and the owners of [k] know it. *)
Record locals_but (b : backend) (k : LOCALLOCKTAG) (l : LOCALLOCK) : Prop := {
  bt_entry : forall k' l', k' <> k -> LocalHash b !! k' = Some l' -> local_ok l';
  bt_nodup : NoDup (map fst (lockOwners l));
  bt_owners : owners_match b (fun o k' => (k' = k /\ Some o ∈ map fst (lockOwners l)) \/ (k' <> k /\ owned_by b o k')) }.

Lemma locals_ok_but b k l : locals_ok b -> LocalHash b !! k = Some l -> locals_but b k l.
Proof.
  intros ok Hk. constructor.
  - intros k' l' _. apply (lb_entry _ ok).
  - apply (lb_entry _ ok k l Hk).
  - eapply owners_match_ext; [|apply (lb_owners _ ok)]. intros o k'. unfold owned_by. destruct (decide (k' = k)) as [->|]; [rewrite Hk|]; naive_solver.
Qed.

(** What [RemoveLocalLock] does to the local table. *)
Lemma remove_entry b k l :
  locals_but b k l ->
  exists b', forget_owners b k (lockOwners l) = Ret b' /\ locals_ok (with_locals b' (delete k (LocalHash b'))) /\ LocalHash b' = LocalHash b /\ same_rest b b'.
Proof.
  intros [H1 H2 H3]. destruct (forget_owners_ok b _ k (lockOwners l) H3 H2) as (b' & -> & M & HL & R); [naive_solver|]. exists b'. split_and!; [done| |done|done].
  constructor; cbn; rewrite HL.
  - intros k' l'. rewrite lookup_delete_Some. intros (Hne & H). by eapply H1.
  - eapply owners_match_ext; [|exact M]. intros o k'. cbn. unfold owned_by. cbn. setoid_rewrite lookup_delete_Some. naive_solver.
Qed.

(** The entry of one owner is taken out. *)
Lemma locals_swap_out b b' k l i owner n cleared :
  locals_ok b -> LocalHash b !! k = Some l -> lockOwners l !! i = Some (owner, n) ->
  LocalHash b' = <[k := ll_count l (nLocks l - n) (swap_remove (lockOwners l) i) cleared]> (LocalHash b) ->
  owners_match b' (fun o k' => ~ (owner = Some o /\ k' = k) /\ owned_by b o k') -> locals_ok b'.
Proof.
  intros ok Hk Hi HL M. pose proof (lb_entry _ ok k l Hk) as Hl. pose proof (swap_remove_perm _ _ _ Hi) as Hp.
  eapply (locals_put b b' k _ ok HL); [by eapply perm_local_ok|]. pose proof (lo_nodup _ Hl) as Hnd.
  eapply owners_match_ext; [|exact M]. intros o' k'. cbn beta. cbn [lockOwners ll_count].
  assert (forall o, o ∈ map fst (lockOwners l) <-> o = owner \/ o ∈ map fst (swap_remove (lockOwners l) i)) as Hsp by (intros o; rewrite (Permutation_map fst Hp) at 1; apply elem_of_cons).
  assert (owner ∉ map fst (swap_remove (lockOwners l) i)) as Hno by (rewrite (Permutation_map fst Hp) in Hnd at 1; by apply NoDup_cons in Hnd as (? & _)).
  unfold owned_by. destruct (decide (k' = k)) as [->|]; [|naive_solver]. rewrite Hk. split.
  - intros (H1 & l0 & [= <-] & [H2|H2]%Hsp); [by destruct H1|left; done].
  - intros [(_ & H2)|(? & _)]; [|done]. split; [intros (-> & _); done|]. exists l. split; [done|]. apply Hsp. by right.
Qed.

(** One less for an owner. *)
Lemma unown_ok b k l owner :
  locals_ok b -> LocalHash b !! k = Some l ->
  (unown b k l owner = Ret None /\ owner ∉ map fst (lockOwners l)) \/
  exists b' owners, unown b k l owner = Ret (Some (b', owners)) /\ LocalHash b' = LocalHash b /\ same_rest b b' /\ owner ∈ map fst (lockOwners l) /\
    forall cleared, locals_ok (put_local b' k (ll_count l (nLocks l - 1) owners cleared)).
Proof.
  intros ok Hk. pose proof (lb_entry _ ok k l Hk) as Hl. unfold unown. destruct (find_last _ (lockOwners l)) as [i|] eqn:Ei.
  2:{ left. split; [done|]. intros (e & -> & He)%list_elem_of_fmap. pose proof (find_last_None _ _ Ei e He) as Hn. by apply bool_decide_eq_false in Hn. }
  right. apply find_last_Some in Ei as ([o n] & Hi & Ho%bool_decide_eq_true). cbn in Ho. subst o. rewrite Hi. cbn [deref cbind].
  assert (owner ∈ map fst (lockOwners l)) as Hin by (apply list_elem_of_fmap; exists (owner, n); split; [done|by eapply list_elem_of_lookup_2]).
  pose proof (lo_pos _ Hl (owner, n) (list_elem_of_lookup_2 _ _ _ Hi)) as Hpos. cbn in Hpos. destruct (Z.ltb_spec 0 n); [|lia]. cbn [c_assert cbind].
  destruct (Z.eqb_spec (n - 1) 0) as [E|E].
  - destruct (entry_forgets b _ owner k (lb_owners _ ok)) as (b' & -> & M & HL & R); [intros o ->; by exists l|]. cbn [cbind].
    eexists _, _. split; [done|]. split_and!; [done|done|done|]. intros cleared. replace (nLocks l - 1) with (nLocks l - n) by lia.
    by eapply (locals_swap_out b _ k l i owner n cleared ok Hk Hi); [cbn; by rewrite HL|].
  - eexists b, _. split; [done|]. split_and!; [done|by constructor|done|]. intros cleared.
    apply (locals_same_owners b k l); [done|done| |].
    + destruct Hl as [H1 H2 H3 H4 H5]. pose proof (list_elem_of_split_length _ _ _ Hi) as (l1 & l2 & El & ->). rewrite El in H1, H2, H3, H4.
      assert (<[length l1 := (owner, n - 1)]> (lockOwners l) = l1 ++ (owner, n - 1) :: l2) as -> by (by rewrite El, insert_app_r_alt, Nat.sub_diag by lia).
      constructor; cbn [nLocks lockOwners ll_count maxLockOwners].
      * rewrite H1. unfold owner_sum. rewrite !foldr_app. cbn. clear. induction l1 as [|e l1 IH]; cbn; lia.
      * intros e [He|[->|He]%elem_of_cons]%elem_of_app; [apply H2; set_solver|cbn; lia|apply H2; set_solver].
      * rewrite map_app in H3 |- *. done.
      * unfold zlen in *. rewrite length_app in *. done.
      * done.
    + cbn. rewrite list_fmap_insert. apply list_insert_id. rewrite list_lookup_fmap, Hi. done.
Qed.

Lemma keep_session_ok b O k owners first :
  owners_match b O -> NoDup (map fst owners) -> (forall o, Some o ∈ map fst owners -> O o k) ->
  exists b' r, keep_session b k owners first = Ret (b', r) /\ owners_match b' (fun o' k' => ~ (Some o' ∈ map fst owners /\ k' = k) /\ O o' k') /\
    LocalHash b' = LocalHash b /\ same_rest b b' /\
    ((None ∉ map fst owners /\ r = first) \/ exists n, (None, n) ∈ owners /\ r = Some (None, n)).
Proof.
  revert b O first. induction owners as [|[o n] owners IH]; intros b O first M Hnd Hk; cbn [keep_session].
  { exists b, first. split_and!; [done| |done|by constructor|left; split; [apply not_elem_of_nil|done]]. eapply owners_match_ext; [|exact M]. intros o' k'. cbn. set_solver. }
  cbn [map fst] in *. apply NoDup_cons in Hnd as (Hn & Hnd). destruct o as [o|].
  - destruct (owner_forgets b O o k M) as (r & -> & M1); [apply Hk; set_solver|]. cbn [cbind].
    destruct (IH _ _ first M1 Hnd) as (b' & r' & -> & M' & HL & R & Hr); [intros o' Ho'; cbn; split; [naive_solver|apply Hk; set_solver]|].
    exists b', r'. split_and!; [done| |done|eapply same_rest_trans; [|exact R]; by constructor|].
    + eapply owners_match_ext; [|exact M']. intros o' k'. cbn. rewrite elem_of_cons. naive_solver.
    + destruct Hr as [(H1 & ->)|(n' & H1 & ->)]; [left|right; exists n'; set_solver]. split; [|done]. rewrite not_elem_of_cons. done.
  - destruct (IH b O (Some (None, n)) M Hnd) as (b' & r' & -> & M' & HL & R & Hr); [intros o' Ho'; apply Hk; set_solver|].
    exists b', r'. split_and!; [done| |done|done|].
    + eapply owners_match_ext; [|exact M']. intros o' k'. cbn. rewrite elem_of_cons. naive_solver.
    + right. destruct Hr as [(H1 & ->)|(n' & H1 & ->)]; [exists n; set_solver|exists n'; set_solver].
Qed.

(** The session's locks stay; without any the entry is ready to go. *)
Lemma strip_to_session_ok b k l :
  locals_ok b -> LocalHash b !! k = Some l ->
  exists b' l' kept, strip_to_session b k l = Ret (b', kept) /\ LocalHash b' = <[k := l']> (LocalHash b) /\ same_rest b b' /\ same_flags l l' /\
    (if kept then locals_ok b' /\ 0 < nLocks l' /\ map fst (lockOwners l') = [None]
     else locals_but b' k l' /\ nLocks l' = nLocks l).
Proof.
  intros ok Hk. pose proof (lb_entry _ ok k l Hk) as Hl. pose proof (locals_ok_but b k l ok Hk) as [B1 B2 B3]. unfold strip_to_session.
  destruct (keep_session_ok b _ k (lockOwners l) (head (lockOwners l)) B3 B2) as (b1 & r & -> & M & HL & R & Hr); [naive_solver|]. cbn [cbind].
  assert (owners_match b1 (fun o k' => k' <> k /\ owned_by b o k')) as M' by (eapply owners_match_ext; [|exact M]; naive_solver).
  destruct Hr as [(Hno & ->)|(n & Hn & ->)].
  - assert (exists b', match head (lockOwners l) with Some (None, n) => if 0 <? n then Ret (put_local b1 k (ll_count l n [(None, n)] (lockCleared l)), true) else Ret (put_local b1 k (ll_count l (nLocks l) [] (lockCleared l)), false)
      | _ => Ret (put_local b1 k (ll_count l (nLocks l) [] (lockCleared l)), false) end = Ret (b', false) /\ b' = put_local b1 k (ll_count l (nLocks l) [] (lockCleared l))) as (b' & -> & ->).
    { destruct (lockOwners l) as [|[[o|] m] owners]; [by eexists|by eexists|]. cbn [map fst] in Hno. set_solver. }
    eexists _, (ll_count l (nLocks l) [] (lockCleared l)), false. split; [done|]. split_and!; [cbn; by rewrite HL|eapply same_rest_trans; [exact R|by constructor]|done| |done].
    constructor.
    + intros k' l' Hne. cbn. rewrite lookup_insert_ne, HL by done. by apply B1.
    + apply NoDup_nil_2.
    + eapply owners_match_ext; [|exact M']. intros o k'. unfold owned_by. cbn. rewrite HL. destruct (decide (k' = k)) as [->|]; [set_solver|]. rewrite lookup_insert_ne by done. set_solver.
  - pose proof (lo_pos _ Hl _ Hn) as Hpos. cbn in Hpos. destruct (Z.ltb_spec 0 n); [|lia].
    eexists _, (ll_count l n [(None, n)] (lockCleared l)), true. split; [done|]. split_and!; [cbn; by rewrite HL|eapply same_rest_trans; [exact R|by constructor]|done| |done|done].
    eapply (locals_put b _ k _ ok); [cbn; by rewrite HL| |].
    + constructor; cbn; [unfold owner_sum; cbn; lia|by intros e ->%list_elem_of_singleton|apply NoDup_singleton| |apply Hl].
      pose proof (lo_room _ Hl) as Hroom. destruct (lockOwners l) as [|e owners]; [by apply elem_of_nil in Hn|]. rewrite zlen_cons in Hroom. pose proof (zlen_nonneg owners). change (zlen [(@None Z, n)]) with 1. lia.
    + eapply owners_match_ext; [|exact M']. intros o k'. cbn. set_solver.
Qed.

(** ** Moving locks between owners *)

Lemma sum_split owners e rest : owners ≡ₚ e :: rest -> owner_sum owners = snd e + owner_sum rest.
Proof. intros Hp. by rewrite (owner_sum_perm _ _ Hp). Qed.

(** The entry of an owner is given to another that has none. *)
Lemma local_renamed l i cur parent n :
  local_ok l -> lockOwners l !! i = Some (Some cur, n) -> cur <> parent -> Some parent ∉ map fst (lockOwners l) ->
  let l' := ll_count l (nLocks l) (<[i := (Some parent, n)]> (lockOwners l)) (lockCleared l) in
  local_ok l' /\ forall o, o ∈ map fst (lockOwners l') <-> o = Some parent \/ (o ∈ map fst (lockOwners l) /\ o <> Some cur).
Proof.
  intros [L1 L2 L3 L4 L5] Hi Hcp Hnp l'. pose proof (list_elem_of_split_length _ _ _ Hi) as (l1 & l2 & El & Hlen).
  assert (lockOwners l' = l1 ++ (Some parent, n) :: l2) as El' by (cbn; rewrite El, Hlen, insert_app_r_alt, Nat.sub_diag by lia; done).
  rewrite El in L1, L2, L3, L4, Hnp. rewrite map_app in L3, Hnp. cbn [map fst] in L3, Hnp. pose proof L3 as Hnd.
  apply NoDup_app in Hnd as (N1 & N2 & N3). apply NoDup_cons in N3 as (N3 & N4). apply not_elem_of_app in Hnp as (P1 & P2). apply not_elem_of_cons in P2 as (P2 & P3). split.
  - constructor; [change (nLocks l') with (nLocks l); rewrite L1, El'; unfold owner_sum; by rewrite !foldr_app|rewrite El'|rewrite El', map_app|rewrite El'|done].
    + intros e [He|[->|He]%elem_of_cons]%elem_of_app; [apply L2; set_solver|apply (L2 (Some cur, n)); set_solver|apply L2; set_solver].
    + cbn [map fst]. apply NoDup_app. split_and!; [done| |by apply NoDup_cons]. intros x Hx [->|Hin]%elem_of_cons; [done|apply (N2 x Hx); set_solver].
    + unfold zlen in *. rewrite length_app in *. done.
  - intros o. rewrite El', El, !map_app. cbn [map fst]. rewrite !elem_of_app, !elem_of_cons. split; [|naive_solver].
    intros [Ho|[?|Ho]]; [right|by left|right]; (split; [auto|]); intros ->; [apply (N2 (Some cur)); set_solver|done].
Qed.

(** The entry of an owner is merged with another's. *)
Lemma local_merged l i j cur parent n n' :
  local_ok l -> lockOwners l !! i = Some (Some cur, n) -> lockOwners l !! j = Some (Some parent, n') -> cur <> parent ->
  let l' := ll_count l (nLocks l) (swap_remove (<[j := (Some parent, n' + n)]> (lockOwners l)) i) (lockCleared l) in
  local_ok l' /\ forall o, o ∈ map fst (lockOwners l') <-> o ∈ map fst (lockOwners l) /\ o <> Some cur.
Proof.
  intros Hl Hi Hj Hcp l'. pose proof (lo_nodup _ Hl) as Hnd. assert (j <> i) as Hne by congruence.
  pose proof (lo_pos _ Hl _ (list_elem_of_lookup_2 _ _ _ Hi)) as Hn. pose proof (lo_pos _ Hl _ (list_elem_of_lookup_2 _ _ _ Hj)) as Hn'. cbn in Hn, Hn'.
  set (owners := <[j := (Some parent, n' + n)]> (lockOwners l)) in *. assert (owners !! i = Some (Some cur, n)) as Hi' by (unfold owners; by rewrite list_lookup_insert_ne).
  pose proof (swap_remove_perm _ _ _ Hi') as Hp. assert (map fst owners = map fst (lockOwners l)) as Em.
  { unfold owners. rewrite list_fmap_insert. apply list_insert_id. by rewrite list_lookup_fmap, Hj. }
  assert (owner_sum owners = nLocks l + n /\ (forall e, e ∈ owners -> 0 < snd e) /\ length owners = length (lockOwners l)) as (Hsum & Hpos & Hlen).
  { unfold owners. rewrite length_insert. pose proof (list_elem_of_split_length _ _ _ Hj) as (l1 & l2 & El & ->). pose proof Hl as [L1 L2 L3 L4 L5]. rewrite El in L1, L2.
    assert (<[length l1 := (Some parent, n' + n)]> (lockOwners l) = l1 ++ (Some parent, n' + n) :: l2) as -> by (by rewrite El, insert_app_r_alt, Nat.sub_diag by lia).
    split_and!; [|intros e [He|[->|He]%elem_of_cons]%elem_of_app; [apply L2; set_solver|cbn; lia|apply L2; set_solver]|done].
    rewrite L1. unfold owner_sum. rewrite !foldr_app. cbn. clear. induction l1 as [|e l1 IH]; cbn; lia. }
  rewrite <- Em, (Permutation_map fst Hp) in Hnd. cbn [map fst] in Hnd. apply NoDup_cons in Hnd as (Hno & Hnd). split.
  - constructor; cbn [nLocks lockOwners ll_count maxLockOwners l'].
    + pose proof (sum_split _ _ _ Hp). cbn in *. lia.
    + intros e He. apply Hpos. rewrite Hp. set_solver.
    + done.
    + pose proof (lo_room _ Hl). pose proof (Permutation_length Hp). unfold zlen in *. cbn in *. lia.
    + apply Hl.
  - intros o. rewrite <- Em, (Permutation_map fst Hp). cbn [map fst]. rewrite elem_of_cons. change (lockOwners l') with (swap_remove owners i). split; [|naive_solver].
    intros Ho. split; [by right|]. by intros ->.
Qed.

Lemma find_owner_None owner owners : find_first (owner_entry owner) owners = None -> owner ∉ map fst owners.
Proof. intros E (e & -> & He)%list_elem_of_fmap. pose proof (find_first_None _ _ E e He) as Hn. by apply bool_decide_eq_false in Hn. Qed.

Lemma find_owner_Some owner owners i : find_first (owner_entry owner) owners = Some i -> exists n, owners !! i = Some (owner, n).
Proof. intros ([o n] & Hi & Ho%bool_decide_eq_true)%find_first_Some. cbn in Ho. subst o. eauto. Qed.

Lemma owner_at (owner : option Z) (n : Z) owners i : owners !! i = Some (owner, n) -> owner ∈ map fst owners.
Proof. intros Hi. apply list_elem_of_fmap. exists (owner, n). split; [done|]. by eapply list_elem_of_lookup_2. Qed.

(** The child's entry goes to the parent, or is added to what the parent has. *)
Lemma LockReassignOwner_ok b k l cur parent :
  locals_ok b -> LocalHash b !! k = Some l -> cur <> parent ->
  exists b' l', LockReassignOwner b k cur parent = Ret b' /\ locals_ok b' /\ LocalHash b' = <[k := l']> (LocalHash b) /\ same_rest b b' /\
    nLocks l' = nLocks l /\ same_flags l l' /\ Some cur ∉ map fst (lockOwners l').
Proof.
  intros ok Hk Hcp. pose proof (lb_entry _ ok k l Hk) as Hl. unfold LockReassignOwner. rewrite Hk. cbn [deref cbind].
  destruct (find_first (owner_entry (Some cur)) (lockOwners l)) as [ic|] eqn:Ec.
  2:{ exists b, l. split_and!; [done|done|by rewrite insert_id|by constructor|done|done|]. by apply find_owner_None. }
  apply find_owner_Some in Ec as (nc & Hc). rewrite Hc. cbn [deref cbind]. pose proof (owner_at _ _ _ _ Hc) as Hcur.
  destruct (find_first (owner_entry (Some parent)) (lockOwners l)) as [ip|] eqn:Ep.
  - apply find_owner_Some in Ep as (np & Hpi). rewrite Hpi. cbn [deref cbind]. destruct (local_merged l ic ip cur parent nc np Hl Hc Hpi Hcp) as (Hl' & Hsp). cbn zeta in *. set (l' := ll_count _ _ _ _) in *.
    destruct (owner_forgets (put_local b k l') (owned_by b) cur k (lb_owners _ ok)) as (r & Er & M); [by exists l|].
    rewrite Er. cbn [cbind]. eexists _, l'. split; [done|]. split_and!; [|done|by constructor|done|done|by rewrite Hsp; intros (_ & ?)].
    eapply (locals_put b _ k l' ok); [done|done|]. eapply owners_match_ext; [|exact M]. intros o k'. cbn beta. unfold owned_by. destruct (decide (k' = k)) as [->|]; [|naive_solver].
    rewrite Hsp, Hk. naive_solver congruence.
  - cbn [cbind]. pose proof (find_owner_None _ _ Ep) as Hnp. destruct (local_renamed l ic cur parent nc Hl Hc Hcp Hnp) as (Hl' & Hsp). cbn zeta in *. set (l' := ll_count _ _ _ _) in *.
    set (b1 := put_owner (put_local b k l') parent (ResourceOwnerRememberLock (resOwners (put_local b k l') parent) k)).
    assert (owners_match b1 (fun o k' => (o = parent /\ k' = k) \/ owned_by b o k')) as M1.
    { apply (owner_remembers (put_local b k l') (owned_by b) parent k (lb_owners _ ok)). intros (l0 & Hl0 & Ho). congruence. }
    destruct (owner_forgets b1 _ cur k M1) as (r & Er & M); [right; by exists l|].
    rewrite Er. cbn [cbind]. eexists _, l'. split; [done|]. split_and!; [|done|by constructor|done|done|rewrite Hsp; naive_solver congruence].
    eapply (locals_put b _ k l' ok); [done|done|]. eapply owners_match_ext; [|exact M]. intros o k'. cbn beta. unfold owned_by. destruct (decide (k' = k)) as [->|]; [|naive_solver].
    rewrite Hsp, Hk. naive_solver congruence.
Qed.

(** [ReleaseLockIfHeld]: an owner gives up all it has while others keep the lock, or the
    entry is cut to one lock for [LockRelease] to give up. *)
Lemma release_owner_ok b k l i owner n :
  locals_ok b -> LocalHash b !! k = Some l -> lockOwners l !! i = Some (owner, n) ->
  0 < n /\
  (n < nLocks l -> exists b', (match owner with
      | Some o => let* r := ResourceOwnerForgetLock (resOwners (put_local b k (ll_count l (nLocks l - n) (swap_remove (lockOwners l) i) (lockCleared l))) o) k in
          Ret (put_owner (put_local b k (ll_count l (nLocks l - n) (swap_remove (lockOwners l) i) (lockCleared l))) o r)
      | None => Ret (put_local b k (ll_count l (nLocks l - n) (swap_remove (lockOwners l) i) (lockCleared l))) end) = Ret b' /\
    locals_ok b' /\ LocalHash b' = <[k := ll_count l (nLocks l - n) (swap_remove (lockOwners l) i) (lockCleared l)]> (LocalHash b) /\ same_rest b b') /\
  (nLocks l <= n -> n = nLocks l /\ locals_ok (put_local b k (ll_count l 1 (<[i := (owner, 1)]> (lockOwners l)) (lockCleared l)))).
Proof.
  intros ok Hk Hi. pose proof (lb_entry _ ok k l Hk) as Hl. pose proof (lo_pos _ Hl _ (list_elem_of_lookup_2 _ _ _ Hi)) as Hpos. cbn in Hpos.
  pose proof (swap_remove_perm _ _ _ Hi) as Hp. split_and!; [done| |].
  - intros _. set (l' := ll_count l (nLocks l - n) (swap_remove (lockOwners l) i) (lockCleared l)).
    destruct (entry_forgets (put_local b k l') (owned_by b) owner k (lb_owners _ ok)) as (b' & E & M & HL & R).
    { intros o ->. exists l. split; [done|]. apply list_elem_of_fmap. exists (Some o, n). split; [done|by eapply list_elem_of_lookup_2]. }
    exists b'. split_and!; [exact E| |done|eapply same_rest_trans; [|exact R]; by constructor]. by eapply (locals_swap_out b b' k l i owner n (lockCleared l) ok Hk Hi HL).
  - intros Hle. pose proof (sum_split _ _ _ Hp) as Hs. cbn in Hs. pose proof (lo_sum _ Hl) as Hsum.
    assert (forall e, e ∈ swap_remove (lockOwners l) i -> 0 < snd e) as Hrest by (intros e He; apply (lo_pos _ Hl); rewrite Hp; set_solver).
    pose proof (owner_sum_nonneg _ Hrest). assert (n = nLocks l) as -> by lia. split; [done|].
    assert (swap_remove (lockOwners l) i = []) as Hnil.
    { destruct (swap_remove (lockOwners l) i) as [|e r]; [done|]. exfalso. assert (owner_sum (e :: r) = 0) as Hz by lia. pose proof (Hrest e ltac:(set_solver)).
      assert (0 <= owner_sum r) by (apply owner_sum_nonneg; intros e' He'; apply Hrest; set_solver). unfold owner_sum in *. cbn in Hz. lia. }
    rewrite Hnil in Hp. apply Permutation_singleton_r in Hp. rewrite Hp in Hi |- *. destruct i as [|i]; [|done]. change (<[0%nat := (owner, 1)]> [(owner, nLocks l)]) with [(owner, 1)].
    apply (locals_same_owners b k l _ ok Hk); [|cbn; by rewrite Hp]. constructor; cbn; [unfold owner_sum; cbn; lia|by intros e ->%list_elem_of_singleton|apply NoDup_singleton| |apply Hl].
    pose proof (lo_max _ Hl). change (zlen [(owner, 1)]) with 1. lia.
Qed.
