(* ===== verification/LockCounts.v ===== *)
(** * Heavyweight locks: the counts of strong locks

    The count of a partition is the number of entries in the local tables that say so. *)
From stdpp Require Import list gmap functions.
From S2P Require Import Prelude LockModes LockTable LockInvariant LockBackend LockLocal.

Section counts.
Context (H : LOCKTAG -> Z).
Notation part := (FastPathStrongLockHashPartition H).

(** What one entry adds to the count of partition [h]. *)
Definition adds (k : LOCALLOCKTAG) (o : option LOCALLOCK) (h : Z) : Z :=
  match o with Some l => if holdsStrongLockCount l && (part (fst k) =? h) then 1 else 0 | None => 0 end.

Definition strong_in (m : gmap LOCALLOCKTAG LOCALLOCK) (h : Z) : Z :=
  countb (fun e => holdsStrongLockCount (snd e) && (part (fst (fst e)) =? h)) (map_to_list m).

Lemma adds_range k o h : 0 <= adds k o h <= 1.
Proof. unfold adds. destruct o as [l|]; [destruct (_ && _)|]; lia. Qed.

Lemma strong_in_delete m k h : strong_in (delete k m) h = strong_in m h - adds k (m !! k) h.
Proof.
  destruct (m !! k) as [l|] eqn:E; [|rewrite delete_id by done; cbn; lia]. unfold strong_in at 2. rewrite (countb_perm _ _ ((k, l) :: map_to_list (delete k m))).
  - cbn [countb fst snd adds]. unfold strong_in. lia.
  - symmetry. by apply map_to_list_delete.
Qed.

Lemma strong_in_insert m k l h : strong_in (<[k := l]> m) h = strong_in m h - adds k (m !! k) h + adds k (Some l) h.
Proof.
  rewrite <- strong_in_delete. unfold strong_in. rewrite <- insert_delete_eq, (countb_perm _ _ ((k, l) :: map_to_list (delete k m))).
  - cbn [countb fst snd adds]. lia.
  - apply map_to_list_insert, lookup_delete_eq.
Qed.

Lemma strong_in_same m k l' h :
  holdsStrongLockCount l' = match m !! k with Some l => holdsStrongLockCount l | None => false end -> strong_in (<[k := l']> m) h = strong_in m h.
Proof. intros E. rewrite strong_in_insert. unfold adds. rewrite E. destruct (m !! k) as [l|]; cbn; lia. Qed.

Lemma strong_in_nonneg m h : 0 <= strong_in m h.
Proof. apply countb_nonneg. Qed.

Lemma adds_le m k h : adds k (m !! k) h <= strong_in m h.
Proof. pose proof (strong_in_nonneg (delete k m) h). rewrite strong_in_delete in H0. lia. Qed.

(** Fewer entries are counted. *)
Lemma strong_in_mono m' h : forall m,
  (forall k l', m' !! k = Some l' -> holdsStrongLockCount l' = true -> exists l, m !! k = Some l /\ holdsStrongLockCount l = true) -> strong_in m' h <= strong_in m h.
Proof.
  induction m' as [|k l' m0 Hk IH] using map_ind; intros m Hsub; [apply strong_in_nonneg|].
  assert (strong_in m0 h <= strong_in (delete k m) h) as Hle.
  { apply IH. intros k' l0 Hl0 Hs. assert (k' <> k) as Hne by (intros ->; congruence). destruct (Hsub k' l0) as (l & Hl & Hs'); [by rewrite lookup_insert_ne|done|].
    exists l. by rewrite lookup_delete_ne. }
  rewrite strong_in_delete in Hle. rewrite strong_in_insert, Hk. assert (adds k (Some l') h <= adds k (m !! k) h); [|cbn [adds] in *; lia]. cbn. destruct (holdsStrongLockCount l') eqn:Es; [|apply adds_range].
  destruct (Hsub k l') as (l & -> & Hs'); [by rewrite lookup_insert_eq|done|]. cbn. by rewrite Hs'.
Qed.

(** All backends together. *)
Definition strong_total (f : Z -> gmap LOCALLOCKTAG LOCALLOCK) (U : list Z) (h : Z) : Z := foldr (fun p n => strong_in (f p) h + n) 0 U.

Lemma strong_total_ext f f' U h : (forall p, p ∈ U -> f' p = f p) -> strong_total f' U h = strong_total f U h.
Proof. induction U as [|p U IH]; intros E; [done|]. cbn [strong_total foldr]. unfold strong_total in IH. rewrite IH, E by set_solver. done. Qed.

Lemma strong_total_change f f' U p h :
  NoDup U -> p ∈ U -> (forall q, q <> p -> f' q = f q) -> strong_total f' U h = strong_total f U h - strong_in (f p) h + strong_in (f' p) h.
Proof.
  induction U as [|q U IH]; intros Hnd Hp E; [by apply elem_of_nil in Hp|]. apply NoDup_cons in Hnd as (Hq & Hnd). cbn [strong_total foldr].
  destruct (decide (q = p)) as [->|Hne].
  - pose proof (strong_total_ext f f' U h) as Hext. unfold strong_total in Hext. rewrite Hext; [lia|]. intros x Hx. apply E. by intros ->.
  - apply elem_of_cons in Hp as [?|Hp]; [congruence|]. unfold strong_total in IH. rewrite (E q) by done. rewrite IH by done. lia.
Qed.

Lemma strong_total_le f U p h : p ∈ U -> strong_in (f p) h <= strong_total f U h.
Proof.
  intros Hp. assert (forall V, 0 <= strong_total f V h) as Hn by (induction V as [|q V IH]; cbn [strong_total foldr]; [done|]; pose proof (strong_in_nonneg (f q) h); unfold strong_total in IH; lia).
  induction U as [|q U IH]; [by apply elem_of_nil in Hp|]. cbn [strong_total foldr]. apply elem_of_cons in Hp as [->|Hp].
  - pose proof (Hn U). unfold strong_total in *. lia.
  - pose proof (strong_in_nonneg (f q) h). specialize (IH Hp). unfold strong_total in *. lia.
Qed.

Lemma strong_total_empty f U h : (forall p, f p = ∅) -> strong_total f U h = 0.
Proof. intros E. induction U as [|p U IH]; [done|]. cbn [strong_total foldr]. unfold strong_total in IH. by rewrite IH, E. Qed.

(** A count of zero: no entry of the partition is counted. *)
Lemma strong_total_zero f U p h k l :
  strong_total f U h = 0 -> p ∈ U -> f p !! k = Some l -> holdsStrongLockCount l = true -> part (fst k) <> h.
Proof.
  intros Hz Hp Hk Hs E. pose proof (strong_total_le f U p h Hp). pose proof (adds_le (f p) k h) as Ha. rewrite Hk in Ha. cbn in Ha. rewrite Hs, E, Z.eqb_refl in Ha. cbn in Ha. lia.
Qed.
End counts.
