(* ===== verification/LockSession.v ===== *)
(** * Heavyweight locks: backends at work

    The steps of any number of backends on the shared table, the fast-path slots, the
    counts of strong locks and their own tables, and the invariant of the whole: what a
    backend counts is what it holds, in the shared table or in its slots. *)
From stdpp Require Import list gmap functions relations.
From S2P Require Import Prelude LockModes LockTable LockInvariant LockOps LockRequests LockSleep Deadlock DeadlockVerdict LockSystem LockBackend LockFastPath LockLocal.

(** ** Steps *)

(** A tag of a relation is the one its macro makes. *)
Definition tag_ok (t : LOCKTAG) : Prop := locktag_type t = LOCKTAG_RELATION -> t = SET_LOCKTAG_RELATION (locktag_field1 t) (locktag_field2 t).

Section steps.
Context (LockTagHashCode : LOCKTAG -> Z) (allProcCount MaxBackends : Z) (vacuumFlags : Z -> Z) (U : list Z).

Definition at_of (x : lockenv) (p : Z) : point := at_point (backend_of x p).

(** The backend holds its own fast-path lock between two steps. *)
Definition fast_locked (x : lockenv) (p : Z) : bool :=
  match at_of x p with AtFastGrant _ => true | AtReleaseLocal _ _ _ have => have | _ => false end.

(** The count of the partition can still grow: it counts entries of local tables. *)
Definition count_room (x : lockenv) (t : LOCKTAG) : Prop := strongCount x (FastPathStrongLockHashPartition LockTagHashCode t) < 2 ^ 32 - 1.

(** One step of backend [p].  What other parts of the server decide (the request, the
    owner, the order in which a hash table is read, room in the shared table, when a
    timeout or a cancel request comes) is arbitrary. *)
Inductive backend_step (p : Z) (x : lockenv) : lockenv -> Prop :=
  | bs_acquire recovery r res x' :
      at_of x p = Outside res -> tag_ok (q_tag r) -> count_room x (q_tag r) -> acquire_begin LockTagHashCode recovery x p r = Ret x' -> backend_step p x x'
  | bs_fast_test r x' : at_of x p = AtFastTest r -> count_room x (q_tag r) -> fast_test LockTagHashCode x p r = Ret x' -> backend_step p x x'
  | bs_fast_grant r x' : at_of x p = AtFastGrant r -> count_room x (q_tag r) -> fast_grant LockTagHashCode x p r = Ret x' -> backend_step p x x'
  | bs_transfer room r i x' :
      at_of x p = AtTransfer r i -> fast_locked x i = false -> transfer_step LockTagHashCode allProcCount room x p r i = Ret x' -> backend_step p x x'
  | bs_shared room_lock room_proclock r x' : at_of x p = AtShared r -> shared_step LockTagHashCode room_lock room_proclock x p r = Ret x' -> backend_step p x x'
  | bs_wake r x' : at_of x p = AtSleep r -> waitStatus (allProcs (shared x) p) <> STATUS_WAITING -> wake_step x p r = Ret x' -> backend_step p x x'
  | bs_timeout r possible0 s' v :
      at_of x p = AtSleep r -> zlen possible0 = maxPossibleConstraints MaxBackends ->
      CheckDeadLock MaxBackends vacuumFlags (shared x) p possible0 = Ret (s', v) -> backend_step p x (set_shared x s')
  | bs_interrupt r : at_of x p = AtSleep r -> backend_step p x (goto x p AtError)
  | bs_cleanup_begin x' : at_of x p = AtError -> cleanup_begin LockTagHashCode x p = Ret x' -> backend_step p x x'
  | bs_cleanup_end x' : at_of x p = AtCleanup -> cleanup_end x p = Ret x' -> backend_step p x x'
  | bs_release k owner res x' : at_of x p = Outside res -> release_begin LockTagHashCode x p k owner = Ret x' -> backend_step p x x'
  | bs_release_shared k x' : at_of x p = AtRelease k -> release_step LockTagHashCode x p k = Ret x' -> backend_step p x x'
  | bs_remove k x' : at_of x p = AtRemove k -> remove_step LockTagHashCode x p k = Ret x' -> backend_step p x x'
  | bs_release_if_held k owner res x' :
      at_of x p = Outside res -> is_Some (LocalHash (backend_of x p) !! k) -> ReleaseLockIfHeld LockTagHashCode x p k owner = Ret x' -> backend_step p x x'
  | bs_reassign k cur parent res b' :
      at_of x p = Outside res -> is_Some (LocalHash (backend_of x p) !! k) -> cur <> parent ->
      LockReassignOwner (backend_of x p) k cur parent = Ret b' -> backend_step p x (set_backend x p (with_point b' (Outside NoCall)))
  | bs_mark_clear k l res b' :
      at_of x p = Outside res -> LocalHash (backend_of x p) !! k = Some l -> 0 < nLocks l -> MarkLockClear (backend_of x p) k = Ret b' -> backend_step p x (set_backend x p (with_point b' (Outside NoCall)))
  | bs_release_all lockmethodid allLocks order res x' :
      at_of x p = Outside res -> NoDup order -> (forall k, k ∈ order <-> is_Some (LocalHash (backend_of x p) !! k)) ->
      release_all_begin x p lockmethodid allLocks order = Ret x' -> backend_step p x x'
  | bs_release_local lockmethodid allLocks todo have x' :
      at_of x p = AtReleaseLocal lockmethodid allLocks todo have -> release_all_local LockTagHashCode x p lockmethodid allLocks todo have = Ret x' -> backend_step p x x'
  | bs_refind lockmethodid allLocks k todo x' :
      at_of x p = AtRefind lockmethodid allLocks k todo -> refind_step LockTagHashCode x p lockmethodid allLocks k todo = Ret x' -> backend_step p x x'
  | bs_release_partition lockmethodid allLocks i tags x' :
      at_of x p = AtReleaseShared lockmethodid allLocks i -> NoDup tags ->
      (forall t, t ∈ tags <-> is_Some (ProcLockHash (shared x) !! (t, p)) /\ LockHashPartition LockTagHashCode t = i) ->
      release_all_shared x p lockmethodid allLocks i tags = Ret x' -> backend_step p x x'.

Definition session_step (x x' : lockenv) : Prop := exists p, p ∈ U /\ backend_step p x x'.
End steps.

(** ** What a backend holds *)

Definition nlocks_of (b : backend) (k : LOCALLOCKTAG) : Z := match LocalHash b !! k with Some l => nLocks l | None => 0 end.
Definition strong_of (b : backend) (k : LOCALLOCKTAG) : bool := match LocalHash b !! k with Some l => holdsStrongLockCount l | None => false end.
Definition shared_of (b : backend) (k : LOCALLOCKTAG) : bool := match LocalHash b !! k with Some l => ll_shared l | None => false end.

(** A relation of the process's database. *)
Definition fast_tag (F : fastpath) (t : LOCKTAG) : bool := bool_decide (t = SET_LOCKTAG_RELATION (databaseId F) (locktag_field2 t)) && negb (databaseId F =? InvalidOid).

Definition fastheld (F : fastpath) (t : LOCKTAG) (m : Z) : bool := fast_tag F t && fast_bit F (locktag_field2 t) m.
Definition heldp (s : lmgr) (F : fastpath) (p : Z) (t : LOCKTAG) (m : Z) : bool := holds s t p m || fastheld F t m.

Notation strong := ConflictsWithRelationFastPath.

(** What the routines refuse: an unknown lock method or mode. *)
Definition bad_lock (t : LOCKTAG) (m : Z) : bool :=
  (locktag_lockmethodid t <=? 0) || (lengthof_LockMethods <=? locktag_lockmethodid t) || (m <=? 0) || (numLockModes <? m).

Lemma bad_lock_mode t m : bad_lock t m = false -> is_mode m.
Proof. unfold bad_lock, is_mode. rewrite !orb_false_iff, !Z.leb_gt, Z.ltb_ge. lia. Qed.

(** ** One lock, as the backend sees it *)

(** The lock was given to the sleeping process, which has not noticed yet. *)
Definition granted_asleep (s : lmgr) (b : backend) (p : Z) (k : LOCALLOCKTAG) : bool :=
  bool_decide (lockAwaited b = Some k) && negb (links (allProcs s p)) && (waitStatus (allProcs s p) =? STATUS_OK).

Definition releasing (b : backend) (k : LOCALLOCKTAG) : bool := match at_point b with AtRelease k' => bool_decide (k' = k) | _ => false end.
Definition removing (b : backend) (k : LOCALLOCKTAG) : bool := match at_point b with AtRemove k' => bool_decide (k' = k) | _ => false end.

(** The local entry is there, counts locks, points to the shared table and is counted as
    strong; the lock is held in the shared table or in a slot; it was given to the
    sleeper, is about to be released, its entry to be removed, or it is marked for the
    release of all locks; it is the strong lock in progress. *)
Record view := {
  v_present : bool; v_counted : bool; v_pointer : bool; v_strong : bool; v_held : bool; v_fast : bool;
  v_given : bool; v_releasing : bool; v_removing : bool; v_marked : bool; v_progress : bool }.

Definition view_of (s : lmgr) (F : fastpath) (b : backend) (p : Z) (t : LOCKTAG) (m : Z) : view := {|
  v_present := bool_decide (is_Some (LocalHash b !! (t, m))); v_counted := 0 <? nlocks_of b (t, m); v_pointer := shared_of b (t, m); v_strong := strong_of b (t, m);
  v_held := holds s t p m; v_fast := fastheld F t m; v_given := granted_asleep s b p (t, m); v_releasing := releasing b (t, m); v_removing := removing b (t, m);
  v_marked := Z.testbit (releaseMask b t) m; v_progress := bool_decide (StrongLockInProgress b = Some (t, m)) |}.

(** A lock is held in one place if it is counted, or for a reason the backend knows; what
    it points to is there; the counts of strong locks are kept by those who need them. *)
Record view_ok (db : Z) (t : LOCKTAG) (m : Z) (v : view) : Prop := {
  vk_key : v_present v = true -> tag_ok t /\ bad_lock t m = false;
  vk_apart : v_fast v = true -> v_held v = false;
  vk_held : v_held v || v_fast v = v_counted v || v_given v || v_releasing v || v_marked v;
  vk_pointer : v_counted v || v_releasing v = true -> if v_pointer v then v_held v = true else EligibleForRelationFastPath db t m = true;
  vk_strong : v_strong v = true -> strong t m = true /\ v_counted v || v_progress v || v_releasing v || v_removing v = true;
  vk_progress : v_progress v = true -> v_strong v = true /\ v_counted v = false;
  vk_marked : v_marked v = true -> v_held v = true /\ v_counted v = false;
  vk_given : v_given v = true -> v_held v = true }.

Definition unmarked (b : backend) : Prop := forall t, releaseMask b t = 0.
Definition quiet (b : backend) : Prop := lockAwaited b = None /\ StrongLockInProgress b = None /\ unmarked b.

(** The entry of a request is there and counts nothing yet. *)
Definition entry_empty (b : backend) (k : LOCALLOCKTAG) : Prop := is_Some (LocalHash b !! k) /\ nlocks_of b k = 0.

Definition in_progress (r : request) : option LOCALLOCKTAG := if strong (q_tag r) (q_mode r) then Some (q_key r) else None.

(** What is left of a lock method: locks of the session, if not all are released. *)
Definition only_session (b : backend) (lockmethodid : Z) (allLocks : bool) (k : LOCALLOCKTAG) : Prop :=
  locktag_lockmethodid (fst k) = lockmethodid -> forall l, LocalHash b !! k = Some l -> allLocks = false /\ map fst (lockOwners l) = [None].

Definition marks_of (b : backend) (lockmethodid : Z) : Prop := forall t m, Z.testbit (releaseMask b t) m = true -> locktag_lockmethodid t = lockmethodid.

Definition result_ok (b : backend) (r : call_result) : Prop :=
  match r with
  | Acquired k LOCKACQUIRE_NOT_AVAIL => nlocks_of b k = 0
  | Acquired k LOCKACQUIRE_OK => 0 < nlocks_of b k /\ (strong (fst k) (snd k) = true -> strong_of b k = true)
  | Acquired k _ => 0 < nlocks_of b k
  | AllReleased lockmethodid allLocks => forall k, only_session b lockmethodid allLocks k
  | _ => True
  end.

Definition point_ok (H : LOCKTAG -> Z) (s : lmgr) (F : fastpath) (b : backend) (p : Z) (pt : point) : Prop :=
  match pt with
  | Outside r => quiet b /\ result_ok b r
  | AtFastTest r | AtFastGrant r => quiet b /\ entry_empty b (q_key r) /\ EligibleForRelationFastPath (databaseId F) (q_tag r) (q_mode r) = true
  | AtTransfer r i => lockAwaited b = None /\ unmarked b /\ entry_empty b (q_key r) /\ strong (q_tag r) (q_mode r) = true /\ StrongLockInProgress b = Some (q_key r)
  | AtShared r => lockAwaited b = None /\ unmarked b /\ entry_empty b (q_key r) /\ StrongLockInProgress b = in_progress r
  | AtSleep r => lockAwaited b = Some (q_key r) /\ unmarked b /\ StrongLockInProgress b = in_progress r
  | AtError => unmarked b
  | AtCleanup => unmarked b /\ StrongLockInProgress b = None
  | AtRelease k => quiet b /\ entry_empty b k /\ holds s (fst k) p (snd k) = true
  | AtRemove k => quiet b /\ entry_empty b k
  | AtReleaseLocal lockmethodid allLocks todo _ =>
      lockAwaited b = None /\ StrongLockInProgress b = None /\ NoDup todo /\ (forall k, k ∈ todo -> is_Some (LocalHash b !! k)) /\
      (forall k, k ∉ todo -> only_session b lockmethodid allLocks k) /\ marks_of b lockmethodid
  | AtRefind lockmethodid allLocks k todo =>
      lockAwaited b = None /\ StrongLockInProgress b = None /\ NoDup (k :: todo) /\ (forall k', k' ∈ todo -> is_Some (LocalHash b !! k')) /\
      0 < nlocks_of b k /\ holds s (fst k) p (snd k) = true /\
      (forall k', k' ∉ k :: todo -> only_session b lockmethodid allLocks k') /\ marks_of b lockmethodid
  | AtReleaseShared lockmethodid allLocks i =>
      lockAwaited b = None /\ StrongLockInProgress b = None /\ 0 <= i /\ (forall k, only_session b lockmethodid allLocks k) /\
      marks_of b lockmethodid /\ forall t m, Z.testbit (releaseMask b t) m = true -> i <= LockHashPartition H t
  end.

(** A waiting process waits for what its backend thinks; its local entry is ready. *)
Definition wait_ok (s : lmgr) (b : backend) (p : Z) : Prop :=
  match lockAwaited b with
  | None => links (allProcs s p) = false
  | Some k => (exists owner, awaited b = Some (k, owner)) /\ entry_empty b k /\ shared_of b k = true /\
      ((links (allProcs s p) = true /\ waitLock (allProcs s p) = Some (fst k) /\ waits_mode s p = snd k) \/
       (links (allProcs s p) = false /\ waitStatus (allProcs s p) <> STATUS_WAITING))
  end.

(** Entries and owners: in order, apart from an entry that is being dismantled. *)
Definition table_ok (b : backend) : Prop :=
  match at_point b with
  | AtRefind _ _ k _ => exists l, LocalHash b !! k = Some l /\ locals_but b k l
  | _ => locals_ok b
  end.

Record proc_ok (H : LOCKTAG -> Z) (s : lmgr) (F : fastpath) (b : backend) (p : Z) : Prop := {
  pk_table : table_ok b;
  pk_fast : fast_ok F;
  pk_use : used_count F <= FastPathLocalUseCount b;
  pk_view : forall t m, view_ok (databaseId F) t m (view_of s F b p t m);
  pk_wait : wait_ok s b p;
  pk_point : point_ok H s F b p (at_point b) }.

(** ** Steps of others *)

Lemma unaffected_ok H s s' F b p : unaffected s s' p -> proc_ok H s F b p -> proc_ok H s' F b p.
Proof.
  intros (E & Hh) [P1 P2 P3 P4 P5 P6]. constructor; try done.
  - intros t m. unfold view_of, granted_asleep. rewrite Hh, E. apply P4.
  - unfold wait_ok, waits_mode in *. by rewrite E.
  - unfold point_ok in *. destruct (at_point b); try done; by rewrite Hh.
Qed.

(** Who waits is asleep or about to give up. *)
Lemma awaiting_point H s F b p k :
  proc_ok H s F b p -> lockAwaited b = Some k -> unmarked b /\ match at_point b with AtSleep _ | AtError | AtCleanup => True | _ => False end.
Proof.
  intros P Ha. pose proof (pk_point _ _ _ _ _ P) as Hp. unfold point_ok, quiet in Hp. destruct (at_point b); naive_solver congruence.
Qed.

(** A lock that is waited for is not held. *)
Lemma awaited_not_held H s F b p :
  proc_ok H s F b p -> links (allProcs s p) = true ->
  exists t m, waitLock (allProcs s p) = Some t /\ waits_mode s p = m /\ lockAwaited b = Some (t, m) /\ nlocks_of b (t, m) = 0 /\ heldp s F p t m = false.
Proof.
  intros P Hk. pose proof (pk_wait _ _ _ _ _ P) as W. unfold wait_ok in W. destruct (lockAwaited b) as [[t m]|] eqn:Ea; [|congruence].
  destruct W as (_ & (_ & Hn) & _ & [(_ & W1 & W2)|(W1 & _)]); [|congruence]. exists t, m. split_and!; try done.
  destruct (awaiting_point _ _ _ _ _ _ P Ea) as (Hu & Hpt). pose proof (vk_held _ _ _ _ (pk_view _ _ _ _ _ P t m)) as V. cbn in V. unfold heldp. rewrite V, Hn, Hu, Z.bits_0.
  unfold granted_asleep, releasing. rewrite Hk, andb_false_r. by destruct (at_point b).
Qed.

(** Getting a lock while asleep. *)
Lemma given_ok H s s' F b p : given s s' p -> proc_ok H s F b p -> proc_ok H s' F b p.
Proof.
  intros (Hk & Hk' & Hst & t0 & Ht0 & Hh) P. destruct (awaited_not_held _ _ _ _ _ P Hk) as (t1 & m1 & Ht1 & Hm1 & Ha & Hn & Hnot).
  rewrite Ht0 in Ht1. injection Ht1 as <-. rewrite Hm1 in Hh. destruct (awaiting_point _ _ _ _ _ _ P Ha) as (Hu & Hpt).
  destruct P as [P1 P2 P3 P4 P5 P6]. constructor; try done.
  - intros t m. destruct (decide ((t, m) = (t0, m1))) as [[= -> ->]|Hne].
    + destruct (P4 t0 m1) as [V1 V2 V3 V4 V5 V6 V7 V8]. cbn in *. unfold heldp in Hnot. apply orb_false_iff in Hnot as (Hh0 & Hf0).
      assert (holds s' t0 p m1 = true) as Hh1 by (by rewrite Hh, bool_decide_eq_true_2, Z.eqb_refl, orb_true_r).
      assert (granted_asleep s' b p (t0, m1) = true) as Hg1 by (unfold granted_asleep; by rewrite Ha, bool_decide_eq_true_2, Hk', Hst).
      constructor; cbn; try done.
      * congruence.
      * rewrite Hh1, Hg1. by rewrite orb_true_r.
      * intros Hc. specialize (V4 Hc). destruct (shared_of b (t0, m1)); congruence.
      * intros Hb. by rewrite Hu, Z.bits_0 in Hb.
    + replace (view_of s' F b p t m) with (view_of s F b p t m); [apply P4|]. unfold view_of, granted_asleep. rewrite Ha, Hh, (bool_decide_eq_false_2 (Some (t0, m1) = _)) by congruence.
      replace (bool_decide (t = t0) && (m =? m1)) with false; [by rewrite orb_false_r|]. symmetry. apply andb_false_iff. destruct (decide (t = t0)) as [->|]; [right; apply Z.eqb_neq; congruence|left; by apply bool_decide_eq_false_2].
  - unfold wait_ok in *. rewrite Ha in *. destruct P5 as (W1 & W2 & W3 & _). split_and!; [done|done|done|]. right. split; [done|]. by rewrite Hst.
  - unfold point_ok in *. by destruct (at_point b).
Qed.

Lemma bystander_ok H s s' F b p : bystander s s' p -> proc_ok H s F b p -> proc_ok H s' F b p.
Proof. intros [B|B]; [by apply unaffected_ok|by apply given_ok]. Qed.

(** ** Locks transferred by others *)

Lemma fast_tag_spec F t : fast_tag F t = true <-> t = SET_LOCKTAG_RELATION (databaseId F) (locktag_field2 t) /\ databaseId F <> InvalidOid.
Proof. unfold fast_tag. by rewrite andb_true_iff, bool_decide_eq_true, negb_true_iff, Z.eqb_neq. Qed.

Lemma fast_tag_ext F F' t : databaseId F' = databaseId F -> fast_tag F' t = fast_tag F t.
Proof. intros E. unfold fast_tag. by rewrite E. Qed.

(** Two relations of the database differ in their number. *)
Lemma fast_tag_inj F t t' : fast_tag F t = true -> fast_tag F t' = true -> locktag_field2 t' = locktag_field2 t -> t' = t.
Proof. intros (E1 & _)%fast_tag_spec (E2 & _)%fast_tag_spec E. congruence. Qed.

Lemma fast_key F t t' m m' : fast_tag F t = true -> fast_tag F t' = true -> (locktag_field2 t' =? locktag_field2 t) && (m' =? m) = bool_decide ((t', m') = (t, m)).
Proof.
  intros Ht Ht'. destruct (Z.eqb_spec (locktag_field2 t') (locktag_field2 t)) as [E|E], (Z.eqb_spec m' m) as [E'|E']; cbn.
  - subst. rewrite (fast_tag_inj F t t' Ht Ht' E). by rewrite bool_decide_eq_true_2.
  - rewrite bool_decide_eq_false_2 by congruence. done.
  - rewrite bool_decide_eq_false_2 by congruence. done.
  - rewrite bool_decide_eq_false_2 by congruence. done.
Qed.

Lemma fastheld_added F F' t m t' m' :
  fast_tag F t = true -> databaseId F' = databaseId F -> fast_added F F' (locktag_field2 t) m -> fastheld F' t' m' = fastheld F t' m' || bool_decide ((t', m') = (t, m)).
Proof.
  intros Ht Edb Ha. unfold fastheld. rewrite (fast_tag_ext F F' t' Edb). destruct (fast_tag F t') eqn:Et; cbn [andb orb].
  - rewrite Ha. f_equal. by apply (fast_key F).
  - symmetry. apply bool_decide_eq_false_2. congruence.
Qed.

Lemma fastheld_removed F F' t m t' m' :
  fast_tag F t = true -> databaseId F' = databaseId F -> fast_removed F F' (locktag_field2 t) m -> fastheld F' t' m' = fastheld F t' m' && negb (bool_decide ((t', m') = (t, m))).
Proof.
  intros Ht Edb Ha. unfold fastheld. rewrite (fast_tag_ext F F' t' Edb). destruct (fast_tag F t') eqn:Et; cbn [andb]; [|done]. rewrite Ha. f_equal. f_equal. by apply (fast_key F).
Qed.

Lemma moved_ok H MaxBackends vacuumFlags U s s' F F' b p t :
  fast_tag F t = true -> moved MaxBackends vacuumFlags U p t s s' F F' -> proc_ok H s F b p -> proc_ok H s' F' b p.
Proof.
  intros Ht M P. destruct P as [P1 P2 P3 P4 P5 P6]. pose proof (proj1 (proj2 (mv_slots _ _ _ _ _ _ _ _ _ M))) as Edb.
  pose proof (fun t => fast_tag_ext F F' t Edb) as Etag. pose proof (mv_procs _ _ _ _ _ _ _ _ _ M) as Ep. pose proof (mv_frame _ _ _ _ _ _ _ _ _ M) as Fr.
  assert (forall t', fast_tag F t' = true -> t' <> t -> locktag_field2 t' <> locktag_field2 t) as Hother.
  { intros t' Ht' Hne E. by apply Hne, (fast_tag_inj F). }
  assert (forall t' m, holds s t' p m = true -> holds s' t' p m = true) as Hmore.
  { intros t' m Hm. destruct (decide (t' = t)) as [->|]; [by apply (mv_more _ _ _ _ _ _ _ _ _ M)|by rewrite (frame_holds _ _ _ Fr)]. }
  constructor; try done.
  - by apply (mv_fast _ _ _ _ _ _ _ _ _ M).
  - pose proof (mv_used _ _ _ _ _ _ _ _ _ M). lia.
  - intros t' m. destruct (P4 t' m) as [V1 V2 V3 V4 V5 V6 V7 V8]. rewrite Edb. unfold view_of, granted_asleep in *. rewrite Ep. cbn in *. constructor; cbn; try done.
    + intros Hf. destruct (decide (t' = t)) as [->|Hne]; unfold fastheld in *; rewrite Etag in Hf.
      * rewrite Ht in *. apply (mv_apart _ _ _ _ _ _ _ _ _ M); [|done]. intros i Hi. apply (vk_apart _ _ _ _ (P4 t i)). cbn. unfold fastheld. by rewrite Ht, Hi.
      * rewrite (frame_holds _ _ _ Fr) by done. apply V2. apply andb_true_iff in Hf as (Hf1 & Hf2). rewrite Hf1. by rewrite <- (mv_rest _ _ _ _ _ _ _ _ _ M) by auto.
    + rewrite <- V3. unfold fastheld. rewrite Etag. destruct (decide (t' = t)) as [->|Hne]; [rewrite Ht; apply (mv_sum _ _ _ _ _ _ _ _ _ M)|].
      rewrite (frame_holds _ _ _ Fr) by done. destruct (fast_tag F t') eqn:Et; [|done]. by rewrite (mv_rest _ _ _ _ _ _ _ _ _ M) by auto.
    + intros Hc. specialize (V4 Hc). destruct (shared_of b (t', m)); auto.
    + intros Hb. destruct (V7 Hb). auto.
    + auto.
  - unfold wait_ok, waits_mode in *. by rewrite Ep.
  - unfold point_ok in *. rewrite Edb. destruct (at_point b); naive_solver.
Qed.
