(* ===== verification/LockOwn.v ===== *)
(** * Heavyweight locks: what a step of a backend may do

    The effect of a step on the other backends, on the counts of strong locks and on the
    fast path, and the common cases of it. *)
From stdpp Require Import list gmap functions relations.
From S2P Require Import Prelude LockModes LockTable LockInvariant LockOps LockRequests LockSleep Deadlock LockSystem LockBackend LockFastPath LockLocal LockCounts LockSession.

Notation strong := ConflictsWithRelationFastPath.

(** The lock has its local entry, and its count if it is a strong one. *)
Definition live (b : backend) (t : LOCKTAG) (m : Z) : Prop := is_Some (LocalHash b !! (t, m)) /\ (strong t m = true -> strong_of b (t, m) = true).

(** The backend has fast-path locks on the relation or is about to take one. *)
Definition open_to (x : lockenv) (p : Z) (t : LOCKTAG) : Prop :=
  (exists m, fastheld (fast x p) t m = true) \/ (exists r, at_of x p = AtFastGrant r /\ q_tag r = t).

(** A strong lock is being acquired: from which process on its relation is still to be
    searched. *)
Definition transferring (b : backend) (k : LOCALLOCKTAG) (i : Z) : Prop := exists r, at_point b = AtTransfer r i /\ q_key r = k.

(** Entries are added to the local table only for locks that are not held. *)
Record no_more (s : lmgr) (p : Z) (b b' : backend) : Prop := {
  nm_present : forall t m, is_Some (LocalHash b' !! (t, m)) -> is_Some (LocalHash b !! (t, m)) \/ holds s t p m = false;
  nm_strong : forall k, strong_of b' k = true -> strong_of b k = true }.

(** Points without a lock or entry under way. *)
Definition plain (pt : point) : bool := match pt with AtRelease _ | AtRemove _ | AtRefind _ _ _ _ => false | _ => true end.
Definition closed_point (pt : point) : bool := match pt with AtFastGrant _ | AtTransfer _ _ => false | _ => true end.

Lemma no_more_refl s p b b' : LocalHash b' = LocalHash b -> no_more s p b b'.
Proof. intros E. constructor; [intros t m|intros k; unfold strong_of]; rewrite E; auto. Qed.

Lemma no_more_trans s p b b1 b2 : no_more s p b b1 -> no_more s p b1 b2 -> no_more s p b b2.
Proof. intros [A1 A2] [B1 B2]. constructor; [|auto]. intros t m H. destruct (B1 t m H) as [H1|?]; [by apply A1|by right]. Qed.

Lemma no_more_delete s p b b' k : LocalHash b' = delete k (LocalHash b) -> no_more s p b b'.
Proof.
  intros E. constructor; [intros t m [l Hl]|intros k']; [rewrite E in Hl; apply lookup_delete_Some in Hl as (_ & Hl); left; eauto|].
  unfold strong_of. rewrite E. destruct (decide (k' = k)) as [->|]; [by rewrite lookup_delete_eq|by rewrite lookup_delete_ne].
Qed.

Lemma no_more_insert s p b b' k l l' :
  LocalHash b !! k = Some l -> LocalHash b' = <[k := l']> (LocalHash b) -> holdsStrongLockCount l' = holdsStrongLockCount l -> no_more s p b b'.
Proof.
  intros Hl E Es. constructor; [intros t m|intros k']; unfold strong_of; rewrite E.
  - destruct (decide ((t, m) = k)) as [->|]; [left; eauto|]. rewrite lookup_insert_ne by done. auto.
  - destruct (decide (k' = k)) as [->|]; [by rewrite lookup_insert_eq, Hl, Es|by rewrite lookup_insert_ne].
Qed.

(** ** Reading the local table *)

Lemma nlocks_nonneg b k : table_ok b -> plain (at_point b) = true -> 0 <= nlocks_of b k.
Proof.
  intros T Hp. assert (locals_ok b) as ok by (unfold table_ok in T; by destruct (at_point b)). unfold nlocks_of. destruct (LocalHash b !! k) as [l|] eqn:E; [|done].
  by apply nLocks_nonneg, (lb_entry _ ok k).
Qed.

Lemma plain_locals b : table_ok b -> plain (at_point b) = true -> locals_ok b.
Proof. unfold table_ok. by destruct (at_point b). Qed.

Lemma locals_table b : locals_ok b -> (forall a b' k todo, at_point b <> AtRefind a b' k todo) -> table_ok b.
Proof. unfold table_ok. intros ok Hn. destruct (at_point b); try done. by destruct (Hn lockmethodid allLocks k todo). Qed.

Lemma locals_with_point b pt : locals_ok b -> locals_ok (with_point b pt).
Proof. intros [H1 H2]. by constructor. Qed.

Lemma plain_no_release b k : plain (at_point b) = true -> releasing b k = false /\ removing b k = false.
Proof. unfold releasing, removing. by destruct (at_point b). Qed.

Section own.
Context (H : LOCKTAG -> Z) (allProcCount MaxBackends : Z) (vacuumFlags : Z -> Z) (U : list Z).
Notation part := (FastPathStrongLockHashPartition H).

(** Of the whole state only the shared table, the slots and variables of [p] and the
    counts change, and the counts by what its entries say. *)
Record effect (x x' : lockenv) (p : Z) (s' : lmgr) (F' : fastpath) (b' : backend) : Prop := {
  ef_shared : shared x' = s';
  ef_fast : fast x' p = F';
  ef_fasts : forall q, q <> p -> fast x' q = fast x q;
  ef_backend : backend_of x' p = b';
  ef_backends : forall q, q <> p -> backend_of x' q = backend_of x q;
  ef_count : forall h, strongCount x' h = strongCount x h - strong_in H (LocalHash (backend_of x p)) h + strong_in H (LocalHash b') h }.

Lemma effect_refl x p : effect x x p (shared x) (fast x p) (backend_of x p).
Proof. constructor; try done. intros h. lia. Qed.

Lemma effect_backend x x1 p s F b b' :
  effect x x1 p s F b -> (forall h, strong_in H (LocalHash b') h = strong_in H (LocalHash b) h) -> effect x (set_backend x1 p b') p s F b'.
Proof.
  intros [E1 E2 E3 E4 E5 E6] Hc. constructor; cbn; try done.
  - by rewrite fn_lookup_insert.
  - intros q Hq. rewrite fn_lookup_insert_ne by done. auto.
  - intros h. rewrite E6, Hc. done.
Qed.

Lemma effect_goto x x1 p s F b pt : effect x x1 p s F b -> effect x (goto x1 p pt) p s F (with_point b pt).
Proof. intros E. unfold goto. rewrite (ef_backend _ _ _ _ _ _ E). by eapply effect_backend. Qed.

Lemma effect_shared x x1 p s F b s' : effect x x1 p s F b -> effect x (set_shared x1 s') p s' F b.
Proof. intros [E1 E2 E3 E4 E5 E6]. by constructor. Qed.

Lemma effect_fast x x1 p s F b F' : effect x x1 p s F b -> effect x (set_fast x1 p F') p s F' b.
Proof.
  intros [E1 E2 E3 E4 E5 E6]. constructor; cbn; try done; [by rewrite fn_lookup_insert|]. intros q Hq. rewrite fn_lookup_insert_ne by done. auto.
Qed.

(** What a step of [p] guarantees to the others and keeps for itself. *)
Record own_step (x x' : lockenv) (p : Z) : Prop := {
  on_shared : rtc (lock_step MaxBackends vacuumFlags U) (shared x) (shared x');
  on_others : forall q, q <> p -> bystander (shared x) (shared x') q;
  on_conflicts : no_new_conflicts (shared x) (shared x');
  on_fasts : forall q, q <> p -> fast x' q = fast x q;
  on_backends : forall q, q <> p -> backend_of x' q = backend_of x q;
  on_proc : proc_ok H (shared x') (fast x' p) (backend_of x' p) p;
  on_count : forall h, strongCount x' h = strongCount x h - strong_in H (LocalHash (backend_of x p)) h + strong_in H (LocalHash (backend_of x' p)) h;
  on_strong : forall k, strong_of (backend_of x' p) k = true ->
    transferring (backend_of x' p) k 0 \/ (strong_of (backend_of x p) k = true /\ forall i, ~ transferring (backend_of x' p) k i /\ ~ transferring (backend_of x p) k i);
  on_live : forall t m, holds (shared x) t p m = true -> live (backend_of x' p) t m -> live (backend_of x p) t m;
  on_open : forall t, open_to x' p t -> open_to x p t \/ strongCount x (part t) = 0;
  on_range : (forall h, strongCount x h < 2 ^ 32) -> forall h, strongCount x' h < 2 ^ 32 }.

Lemma own_quiet' x x' p s' F' b' :
  effect x x' p s' F' b' -> rtc (lock_step MaxBackends vacuumFlags U) (shared x) s' -> (forall q, q <> p -> bystander (shared x) s' q) -> no_new_conflicts (shared x) s' ->
  proc_ok H s' F' b' p -> no_more (shared x) p (backend_of x p) b' -> closed_point (at_point b') = true -> (forall r i, at_of x p = AtTransfer r i -> strong_of b' (q_key r) = false) ->
  (forall t m, fastheld F' t m = true -> open_to x p t) -> own_step x x' p.
Proof.
  intros [E1 E2 E3 E4 E5 E6] Hs Ho Hc P [N1 N2] Hcl Hnt Hf. constructor; rewrite ?E1, ?E2, ?E4; try done.
  - intros k Hk. right. split; [auto|]. intros i. split; intros (r & Hr & Hk'); [by rewrite Hr in Hcl|]. subst k. specialize (Hnt r i Hr). congruence.
  - intros t m Hh (L1 & L2). split; [|auto]. destruct (N1 t m L1); [done|congruence].
  - intros t [(m & Hm)|(r & Hr & _)]; [rewrite E2 in Hm; left; eauto|]. unfold at_of in Hr. rewrite E4 in Hr. by rewrite Hr in Hcl.
  - intros Hr h. rewrite E6. assert (strong_in H (LocalHash b') h <= strong_in H (LocalHash (backend_of x p)) h); [|specialize (Hr h); lia].
    apply strong_in_mono. intros k l' Hl' Hs'. specialize (N2 k). unfold strong_of in N2. rewrite Hl' in N2. specialize (N2 Hs'). destruct (LocalHash (backend_of x p) !! k); [eauto|done].
Qed.

Lemma own_quiet x x' p s' F' b' :
  effect x x' p s' F' b' -> rtc (lock_step MaxBackends vacuumFlags U) (shared x) s' -> (forall q, q <> p -> bystander (shared x) s' q) -> no_new_conflicts (shared x) s' ->
  proc_ok H s' F' b' p -> no_more (shared x) p (backend_of x p) b' -> closed_point (at_point b') = true -> (forall r i, at_of x p <> AtTransfer r i) ->
  (forall t m, fastheld F' t m = true -> open_to x p t) -> own_step x x' p.
Proof. intros E Hs Ho Hc P N Hcl Hnt Hf. apply (own_quiet' x x' p s' F' b'); try done. intros r i Hr. by destruct (Hnt r i). Qed.

(** Nothing changes in the shared table. *)
Lemma own_local x x' p F' b' :
  effect x x' p (shared x) F' b' -> proc_ok H (shared x) F' b' p -> no_more (shared x) p (backend_of x p) b' -> closed_point (at_point b') = true ->
  (forall r i, at_of x p <> AtTransfer r i) -> (forall t m, fastheld F' t m = true -> fastheld (fast x p) t m = true) -> own_step x x' p.
Proof.
  intros E P N Hc Hn Hf. apply (own_quiet x x' p (shared x) F' b'); eauto using bystander_refl, no_new_conflicts_refl, rtc_refl.
  intros t m Hm. left. eauto.
Qed.

(** ** Giving back a count *)

Definition counts_bounded (x : lockenv) (p : Z) : Prop := forall h, strong_in H (LocalHash (backend_of x p)) h <= strongCount x h < 2 ^ 32.

Lemma counted_pos x p k l : counts_bounded x p -> LocalHash (backend_of x p) !! k = Some l -> holdsStrongLockCount l = true -> 0 < strongCount x (part (fst k)).
Proof.
  intros Hb Hk Hs. pose proof (adds_le H (LocalHash (backend_of x p)) k (part (fst k))) as Ha. rewrite Hk in Ha. cbn in Ha. rewrite Hs, Z.eqb_refl in Ha. cbn in Ha.
  specialize (Hb (part (fst k))). lia.
Qed.

Lemma drop_strong_effect x x1 p s F b k l m' b' :
  effect x x1 p s F b -> counts_bounded x1 p -> LocalHash b !! k = Some l -> holdsStrongLockCount l = true ->
  LocalHash b' = m' -> (forall h, strong_in H m' h = strong_in H (LocalHash b) h - adds H k (Some l) h) ->
  exists x2, drop_strong H x1 (fst k) = Ret x2 /\ effect x (set_backend x2 p b') p s F b' /\ counts_bounded (set_backend x2 p b') p.
Proof.
  intros [E1 E2 E3 E4 E5 E6] Hb Hk Hs <- Hm. pose proof Hb as Hb'. unfold counts_bounded in Hb'. rewrite E4 in Hb'.
  pose proof (counted_pos x1 p k l Hb) as Hpos. rewrite E4 in Hpos. specialize (Hpos Hk Hs). unfold drop_strong. destruct (Z.ltb_spec 0 (strongCount x1 (part (fst k)))); [|lia]. cbn [c_assert cbind].
  assert (forall h, <[part (fst k) := u32 (strongCount x1 (part (fst k)) - 1)]> (strongCount x1) h = strongCount x1 h - adds H k (Some l) h) as Hc.
  { intros h. cbn. rewrite Hs. destruct (Z.eqb_spec (part (fst k)) h) as [<-|Hne]; cbn.
    - rewrite fn_lookup_insert. pose proof (Hb' (part (fst k))). unfold u32. rewrite Z.mod_small by lia. done.
    - rewrite fn_lookup_insert_ne by congruence. lia. }
  eexists. split; [done|]. split.
  - constructor; cbn; try done; [by rewrite fn_lookup_insert|intros q Hq; rewrite fn_lookup_insert_ne by done; auto|]. intros h. rewrite Hc, E6, Hm. lia.
  - intros h. cbn. rewrite fn_lookup_insert, Hc, Hm. pose proof (Hb' h). pose proof (adds_range H k (Some l) h). pose proof (strong_in_nonneg H (LocalHash b') h). rewrite Hm in *. lia.
Qed.

(** [AbortStrongLockAcquire], as it changes the backend. *)
Definition aborted (b : backend) : backend :=
  match StrongLockInProgress b with
  | None => b
  | Some k => match LocalHash b !! k with Some l => with_strong (put_local b k (ll_with l (ll_shared l) false)) None | None => b end
  end.

Lemma AbortStrongLockAcquire_effect x x1 p s F b :
  effect x x1 p s F b -> counts_bounded x1 p -> (forall k, StrongLockInProgress b = Some k -> strong_of b k = true) ->
  exists x2, AbortStrongLockAcquire H x1 p = Ret x2 /\ effect x x2 p s F (aborted b) /\ counts_bounded x2 p.
Proof.
  intros E Hb Hs. unfold AbortStrongLockAcquire, aborted. rewrite (ef_backend _ _ _ _ _ _ E). destruct (StrongLockInProgress b) as [k|] eqn:Ek; [|by exists x1].
  specialize (Hs k eq_refl). unfold strong_of in Hs. destruct (LocalHash b !! k) as [l|] eqn:El; [|done]. cbn [deref cbind]. rewrite Hs. cbn [c_assert cbind].
  destruct (drop_strong_effect x x1 p s F b k l _ (with_strong (put_local b k (ll_with l (ll_shared l) false)) None) E Hb El Hs eq_refl) as (x2 & -> & E2 & Hb2); [|cbn [cbind]; eauto].
  intros h. cbn. rewrite strong_in_insert, El. cbn. lia.
Qed.

Lemma RemoveLocalLock_effect x x1 p s F b k l :
  effect x x1 p s F b -> counts_bounded x1 p -> LocalHash b !! k = Some l -> locals_but b k l ->
  exists x2 b2, RemoveLocalLock H x1 p k = Ret x2 /\ effect x x2 p s F b2 /\ counts_bounded x2 p /\ locals_ok b2 /\ LocalHash b2 = delete k (LocalHash b) /\ same_rest b b2.
Proof.
  intros E Hb Hk But. unfold RemoveLocalLock. rewrite (ef_backend _ _ _ _ _ _ E), Hk. cbn [deref cbind].
  destruct (remove_entry b k l But) as (b1 & -> & ok & HL & R). cbn [cbind]. set (b2 := with_locals b1 (delete k (LocalHash b1))) in *.
  assert (LocalHash b2 = delete k (LocalHash b)) as HL2 by (cbn; by rewrite HL).
  assert (same_rest b b2) as R2 by (destruct R; by constructor). destruct (holdsStrongLockCount l) eqn:Es.
  - destruct (drop_strong_effect x x1 p s F b k l _ b2 E Hb Hk Es eq_refl) as (x2 & -> & E2 & Hb2); [|cbn [cbind]; by exists (set_backend x2 p b2), b2].
    intros h. by rewrite HL2, strong_in_delete, Hk.
  - cbn [cbind]. assert (forall h, strong_in H (LocalHash b2) h = strong_in H (LocalHash b) h) as Hc by (intros h; rewrite HL2, strong_in_delete, Hk; cbn; rewrite Es; cbn; lia).
    exists (set_backend x1 p b2), b2. split_and!; [done|by eapply effect_backend| |done|done|done]. intros h. cbn. rewrite fn_lookup_insert, Hc. pose proof (Hb h) as Hh. by rewrite (ef_backend _ _ _ _ _ _ E) in Hh.
Qed.
End own.
