(* ===== verification/LockOwnViews.v ===== *)
(** * Heavyweight locks: changes of a backend's state

    How the invariant of a backend follows after the changes its steps are made of: moving
    to another point, updating, adding or removing an entry of the local table, taking or
    giving up a lock in a slot or in the shared table. *)
From stdpp Require Import list gmap functions relations.
From S2P Require Import Prelude LockModes LockTable LockInvariant LockOps LockRequests LockSleep Deadlock LockSystem LockBackend LockFastPath LockLocal LockCounts LockSession LockOwn.

(** The entry is the same for the shared table. *)
Definition same_entry (b b' : backend) (k : LOCALLOCKTAG) : Prop :=
  (is_Some (LocalHash b' !! k) <-> is_Some (LocalHash b !! k)) /\ (0 <? nlocks_of b' k) = (0 <? nlocks_of b k) /\ shared_of b' k = shared_of b k /\ strong_of b' k = strong_of b k.

Lemma same_entry_lookup b b' k : LocalHash b' !! k = LocalHash b !! k -> same_entry b b' k.
Proof. intros E. unfold same_entry, nlocks_of, shared_of, strong_of. by rewrite E. Qed.

Lemma same_entry_insert b b' k l l' k' :
  LocalHash b !! k = Some l -> LocalHash b' = <[k := l']> (LocalHash b) -> same_flags l l' -> (0 <? nLocks l') = (0 <? nLocks l) -> same_entry b b' k'.
Proof.
  intros Hk HL (E1 & E2) E3. destruct (decide (k' = k)) as [->|Hne]; [|apply same_entry_lookup; by rewrite HL, lookup_insert_ne].
  unfold same_entry, nlocks_of, shared_of, strong_of. rewrite HL, Hk, lookup_insert_eq. by split_and!.
Qed.

Lemma same_entries_no_more s p b b' : (forall k, same_entry b b' k) -> no_more s p b b'.
Proof. intros E. constructor; [intros t m; destruct (E (t, m)) as (-> & _); auto|intros k; by destruct (E k) as (_ & _ & _ & ->)]. Qed.

Lemma same_entry_empty b b' k : same_entry b b' k -> 0 <= nlocks_of b' k -> entry_empty b k -> entry_empty b' k.
Proof. intros (E1 & E2 & _) Hn (H1 & H2). split; [by apply E1|]. rewrite H2 in E2. apply Z.ltb_ge in E2. lia. Qed.

Lemma quiet_same b b' pt : same_rest b b' -> quiet b -> quiet (with_point b' pt).
Proof. intros [R1 R2 R3 R4 R5 R6] (Q1 & Q2 & Q3). unfold quiet, unmarked. cbn. by rewrite R3, R2, R5. Qed.

(** The process goes on waiting, or not waiting. *)
Lemma wait_ok_same s b b' p :
  lockAwaited b' = lockAwaited b -> awaited b' = awaited b -> (forall k, entry_empty b k -> entry_empty b' k) -> (forall k, shared_of b' k = shared_of b k) -> wait_ok s b p -> wait_ok s b' p.
Proof. intros E1 E2 E3 E4. unfold wait_ok. rewrite E1, E2. destruct (lockAwaited b) as [k|]; [|done]. rewrite E4. naive_solver. Qed.

Lemma view_same s s' F F' b b' p t m :
  same_entry b b' (t, m) -> holds s' t p m = holds s t p m -> fastheld F' t m = fastheld F t m ->
  granted_asleep s' b' p (t, m) = granted_asleep s b p (t, m) -> releasing b' (t, m) = releasing b (t, m) -> removing b' (t, m) = removing b (t, m) ->
  Z.testbit (releaseMask b' t) m = Z.testbit (releaseMask b t) m -> (StrongLockInProgress b' = Some (t, m) <-> StrongLockInProgress b = Some (t, m)) ->
  view_of s' F' b' p t m = view_of s F b p t m.
Proof.
  intros (A1 & A2 & A3 & A4) E2 E3 E4 E5 E6 E7 E8. unfold view_of. rewrite A2, A3, A4, E2, E3, E4, E5, E6, E7. f_equal; by apply bool_decide_ext.
Qed.

(** A lock that has no entry. *)
Lemma view_gone db s F b p t m :
  LocalHash b !! (t, m) = None -> (fastheld F t m = true -> holds s t p m = false) ->
  holds s t p m || fastheld F t m = granted_asleep s b p (t, m) || Z.testbit (releaseMask b t) m -> (Z.testbit (releaseMask b t) m = true -> holds s t p m = true) ->
  (granted_asleep s b p (t, m) = true -> holds s t p m = true) ->
  releasing b (t, m) = false -> StrongLockInProgress b <> Some (t, m) -> view_ok db t m (view_of s F b p t m).
Proof.
  intros E1 E2 E3 E4 E7 E5 E6. assert (~ is_Some (LocalHash b !! (t, m))) as Hn by (rewrite E1; by intros []).
  constructor; cbn; unfold nlocks_of, shared_of, strong_of; rewrite ?E1, ?E5, ?(bool_decide_eq_false_2 _ Hn), ?(bool_decide_eq_false_2 _ E6); cbn; try done.
  - rewrite E3. by rewrite orb_false_r.
  - auto.
Qed.

(** A lock whose entry is all there is to say. *)
Lemma view_settled db s F b p t m l :
  LocalHash b !! (t, m) = Some l -> tag_ok t -> bad_lock t m = false -> releasing b (t, m) = false -> granted_asleep s b p (t, m) = false ->
  Z.testbit (releaseMask b t) m = false -> StrongLockInProgress b <> Some (t, m) ->
  (fastheld F t m = true -> holds s t p m = false) -> holds s t p m || fastheld F t m = (0 <? nLocks l) ->
  (0 < nLocks l -> if ll_shared l then holds s t p m = true else EligibleForRelationFastPath db t m = true) ->
  (holdsStrongLockCount l = true -> strong t m = true /\ 0 < nLocks l) -> view_ok db t m (view_of s F b p t m).
Proof.
  intros Hl Ht Hm Hr Hg Hk Hp Ha Hh Hq Hs. unfold view_of, nlocks_of, shared_of, strong_of. rewrite Hl, Hr, Hg, Hk, (bool_decide_eq_false_2 _ Hp). constructor; cbn; try done.
  - rewrite Hh. by rewrite !orb_false_r.
  - rewrite orb_false_r, Z.ltb_lt. done.
  - intros E. destruct (Hs E) as (E1 & E2%Z.ltb_lt). by rewrite E2.
Qed.

(** What one lock's change leaves alone at another. *)
Definition alone (s : lmgr) (F : fastpath) (b : backend) (p : Z) (s' : lmgr) (F' : fastpath) (b' : backend) (t : LOCKTAG) (m : Z) : Prop :=
  same_entry b b' (t, m) /\ holds s' t p m = holds s t p m /\ fastheld F' t m = fastheld F t m /\ granted_asleep s' b' p (t, m) = granted_asleep s b p (t, m) /\
  Z.testbit (releaseMask b' t) m = Z.testbit (releaseMask b t) m /\ (StrongLockInProgress b' = Some (t, m) <-> StrongLockInProgress b = Some (t, m)).

(** Nothing is under way with another lock. *)
Definition focused (b : backend) (k : LOCALLOCKTAG) : Prop := forall k', k' <> k -> releasing b k' = false /\ removing b k' = false.

Lemma proc_focus H s F b p s' F' b' t0 m0 :
  proc_ok H s F b p -> focused b (t0, m0) -> focused b' (t0, m0) -> table_ok b' -> fast_ok F' -> used_count F' <= FastPathLocalUseCount b' -> databaseId F' = databaseId F ->
  (forall t m, (t, m) <> (t0, m0) -> alone s F b p s' F' b' t m) -> view_ok (databaseId F) t0 m0 (view_of s' F' b' p t0 m0) ->
  wait_ok s' b' p -> point_ok H s' F' b' p (at_point b') -> proc_ok H s' F' b' p.
Proof.
  intros P Hf Hf' T HF Hu Edb Ho Hv Hw Hok. constructor; try done. intros t m. rewrite Edb. destruct (decide ((t, m) = (t0, m0))) as [[= -> ->]|Hne]; [done|].
  destruct (Ho t m Hne) as (E1 & E2 & E3 & E4 & E5 & E6). destruct (Hf (t, m) Hne) as (R1 & R2), (Hf' (t, m) Hne) as (R3 & R4). rewrite (view_same s s' F F' b b' p t m); try done; [apply P|congruence|congruence].
Qed.

Section changes.
Context (H : LOCKTAG -> Z) (s : lmgr) (F : fastpath) (b : backend) (p : Z).
Hypotheses (P : proc_ok H s F b p) (Hplain : plain (at_point b) = true).

Lemma plain_table : locals_ok b.
Proof. apply plain_locals; [apply P|done]. Qed.

Lemma releasing_point b' pt k : plain pt = true -> releasing (with_point b' pt) k = releasing b k /\ removing (with_point b' pt) k = removing b k.
Proof. intros Hpt. destruct (plain_no_release b k Hplain) as (-> & ->). apply (plain_no_release (with_point b' pt) k). done. Qed.

Lemma plain_table_ok b' pt : locals_ok b' -> plain pt = true -> table_ok (with_point b' pt).
Proof. intros ok Hpt. apply locals_table; [by apply locals_with_point|]. intros ? ? ? ? E. cbn in E. by rewrite E in Hpt. Qed.

(** The table changes in ways that only the backend sees. *)
Lemma proc_same b' pt :
  locals_ok b' -> same_rest b b' -> (forall k, same_entry b b' k) -> plain pt = true -> point_ok H s F (with_point b' pt) p pt -> proc_ok H s F (with_point b' pt) p.
Proof.
  intros ok' [R1 R2 R3 R4 R5 R6] E Hpt Hok. destruct P as [P1 P2 P3 P4 P5 _]. constructor; try done.
  - by apply plain_table_ok.
  - cbn. by rewrite R1.
  - intros t m. rewrite (view_same s s F F b _ p t m); try done; try (by apply releasing_point); [apply E| |cbn; by rewrite R5|cbn; by rewrite R2].
    unfold granted_asleep. cbn. by rewrite R3.
  - apply (wait_ok_same s b); [done|done| |intros k; apply E|done]. intros k. apply same_entry_empty; [apply E|]. apply nlocks_nonneg; [by apply plain_table_ok|done].
Qed.

Lemma proc_point pt : plain pt = true -> point_ok H s F (with_point b pt) p pt -> proc_ok H s F (with_point b pt) p.
Proof. intros Hpt Hok. apply proc_same; auto using plain_table, same_rest_refl, same_entry_lookup. Qed.

(** What the backend holds when nothing is under way. *)
Lemma quiet_view t m : quiet b -> holds s t p m || fastheld F t m = (0 <? nlocks_of b (t, m)).
Proof.
  intros (Q1 & _ & Q3). pose proof (vk_held _ _ _ _ (pk_view _ _ _ _ _ P t m)) as V. cbn in V. rewrite V. unfold granted_asleep. rewrite Q1, Q3, Z.bits_0.
  destruct (plain_no_release b (t, m) Hplain) as (-> & _). rewrite bool_decide_eq_false_2 by done. cbn. by rewrite !orb_false_r.
Qed.

Lemma empty_not_held t m : quiet b -> nlocks_of b (t, m) = 0 -> holds s t p m = false /\ fastheld F t m = false.
Proof. intros Q Hn. apply orb_false_iff. by rewrite quiet_view, Hn. Qed.

(** One lock changes. *)
Lemma proc_key s' F' b' pt t0 m0 :
  locals_ok b' -> plain pt = true -> fast_ok F' -> used_count F' <= FastPathLocalUseCount b' -> databaseId F' = databaseId F ->
  (forall t m, (t, m) <> (t0, m0) -> alone s F b p s' F' b' t m) -> view_ok (databaseId F) t0 m0 (view_of s' F' (with_point b' pt) p t0 m0) ->
  wait_ok s' b' p -> point_ok H s' F' (with_point b' pt) p pt -> proc_ok H s' F' (with_point b' pt) p.
Proof.
  intros ok' Hpt HF Hu Edb Ho Hv Hw Hok. apply (proc_focus H s F b p s' F' (with_point b' pt) t0 m0); try done.
  - intros k _. by apply plain_no_release.
  - intros k _. by apply (plain_no_release (with_point b' pt)).
  - by apply plain_table_ok.
Qed.

(** An entry that counts nothing goes. *)
Lemma proc_removed b' k pt :
  quiet b -> nlocks_of b k = 0 -> locals_ok b' -> LocalHash b' = delete k (LocalHash b) -> same_rest b b' ->
  plain pt = true -> point_ok H s F (with_point b' pt) p pt -> proc_ok H s F (with_point b' pt) p.
Proof.
  intros Q Hz ok' HL R Hpt Hok. destruct k as [t0 m0]. destruct (empty_not_held t0 m0 Q Hz) as (Hh & Hf). destruct Q as (Q1 & Q2 & Q3). destruct R as [R1 R2 R3 R4 R5 R6].
  apply (proc_key s F b' pt t0 m0); try done; [apply P|rewrite R1; apply P| | |].
  - intros t m Hne. unfold alone, granted_asleep. rewrite R2, R3, R5. split_and!; try done. apply same_entry_lookup. by rewrite HL, lookup_delete_ne.
  - apply view_gone; cbn; rewrite ?Hh, ?Hf, ?R2, ?R3, ?R5, ?Q2, ?Q3, ?Z.bits_0; try done.
    + by rewrite HL, lookup_delete_eq.
    + unfold granted_asleep. cbn. by rewrite R3, Q1, bool_decide_eq_false_2.
    + unfold granted_asleep. cbn. by rewrite R3, Q1, bool_decide_eq_false_2.
    + destruct (releasing_point b' pt (t0, m0) Hpt) as (-> & _). by apply plain_no_release.
  - pose proof (pk_wait _ _ _ _ _ P) as W. unfold wait_ok in *. rewrite R3. by rewrite Q1 in *.
Qed.

(** The strong lock in progress is given up. *)
Lemma aborted_entry k :
  (is_Some (LocalHash (aborted b) !! k) <-> is_Some (LocalHash b !! k)) /\ nlocks_of (aborted b) k = nlocks_of b k /\ shared_of (aborted b) k = shared_of b k /\
  strong_of (aborted b) k = strong_of b k && negb (bool_decide (StrongLockInProgress b = Some k)).
Proof.
  unfold aborted, nlocks_of, shared_of, strong_of. destruct (StrongLockInProgress b) as [k0|] eqn:Ek; [|by rewrite bool_decide_eq_false_2, andb_true_r].
  destruct (LocalHash b !! k0) as [l|] eqn:El.
  - cbn. destruct (decide (k = k0)) as [->|Hne]; [rewrite lookup_insert_eq, El, bool_decide_eq_true_2 by done; cbn; rewrite andb_false_r; split_and!; done || naive_solver|].
    rewrite lookup_insert_ne, bool_decide_eq_false_2 by congruence. by rewrite andb_true_r.
  - destruct k0 as [t0 m0]. pose proof (vk_progress _ _ _ _ (pk_view _ _ _ _ _ P t0 m0)) as V. cbn in V. rewrite Ek, bool_decide_eq_true_2 in V by done. destruct (V eq_refl) as (V1 & _).
    unfold strong_of in V1. by rewrite El in V1.
Qed.

Lemma progress_strong k : StrongLockInProgress b = Some k -> strong_of b k = true.
Proof. destruct k as [t m]. intros E. apply (vk_progress _ _ _ _ (pk_view _ _ _ _ _ P t m)). cbn. by apply bool_decide_eq_true_2. Qed.

Lemma aborted_rest :
  StrongLockInProgress (aborted b) = None /\ lockAwaited (aborted b) = lockAwaited b /\ awaited (aborted b) = awaited b /\ releaseMask (aborted b) = releaseMask b /\
  FastPathLocalUseCount (aborted b) = FastPathLocalUseCount b.
Proof.
  pose proof progress_strong as Hs. unfold aborted. destruct (StrongLockInProgress b) as [k|] eqn:Ek; [|by rewrite Ek]. specialize (Hs k eq_refl). unfold strong_of in Hs.
  destruct (LocalHash b !! k); [|done]. done.
Qed.

Lemma aborted_locals : locals_ok (aborted b).
Proof.
  pose proof plain_table as ok. unfold aborted. destruct (StrongLockInProgress b) as [k|] eqn:Ek; [|done]. destruct (LocalHash b !! k) as [l|] eqn:El; [|done].
  assert (locals_ok (put_local b k (ll_with l (ll_shared l) false))) as [] by (eapply locals_same_owners; [done|done| |done]; destruct (lb_entry _ ok _ _ El); by constructor). by constructor.
Qed.

Lemma proc_aborted pt : plain pt = true -> point_ok H s F (with_point (aborted b) pt) p pt -> proc_ok H s F (with_point (aborted b) pt) p.
Proof.
  intros Hpt Hok. pose proof aborted_entry as He. destruct aborted_rest as (R1 & R2 & R3 & R4 & R5). constructor; try done.
  - apply plain_table_ok; [apply aborted_locals|done].
  - apply P.
  - cbn. rewrite R5. apply P.
  - intros t m. destruct (He (t, m)) as (E1 & E2 & E3 & E4). destruct (releasing_point (aborted b) pt (t, m) Hpt) as (E5 & E6).
    destruct (pk_view _ _ _ _ _ P t m) as [V1 V2 V3 V4 V5 V6 V7 V8]. cbn in *. unfold view_of. rewrite E5, E6. unfold granted_asleep in *. cbn.
    change (nlocks_of (with_point (aborted b) pt)) with (nlocks_of (aborted b)). change (strong_of (with_point (aborted b) pt)) with (strong_of (aborted b)).
    change (shared_of (with_point (aborted b) pt)) with (shared_of (aborted b)). rewrite E2, E3, E4, R1, R2, R4, (bool_decide_eq_false_2 (None = _)) by done.
    constructor; cbn; try done.
    + intros Hp%bool_decide_eq_true. apply V1, bool_decide_eq_true. by apply E1.
    + intros (Hs & Hn%negb_true_iff)%andb_true_iff. rewrite Hn in V5. by apply V5.
  - apply (wait_ok_same s b); [done|done| |intros k; apply He|apply P]. intros k (H1 & H2). destruct (He k) as (E1 & E2 & _). split; [by apply E1|by rewrite <- E2 in H2].
Qed.
End changes.
