(* ===== verification/LockOwnAcquire.v ===== *)
(** * Heavyweight locks: the steps of an acquisition

    [LockAcquireExtended] from the local table over the fast path to the shared table,
    the sleep, and [LockErrorCleanup]: from a state in order no assertion fails and no
    error is raised that the code does not announce, and the state stays in order. *)
From stdpp Require Import list gmap functions relations.
From S2P Require Import Prelude LockModes LockTable LockInvariant LockOps LockRequests LockSleep Deadlock DeadlockVerdict LockSystem LockBackend LockFastPath LockLocal LockCounts LockSession LockOwn LockOwnViews.

Section acquire.
Context (H : LOCKTAG -> Z) (allProcCount MaxBackends : Z) (vacuumFlags : Z -> Z) (U : list Z).
Notation part := (FastPathStrongLockHashPartition H).
Notation own x x' p := (own_step H MaxBackends vacuumFlags U x x' p).

(** An entry that counts nothing is not counted as strong either. *)
Lemma quiet_not_strong s F b p t m : proc_ok H s F b p -> plain (at_point b) = true -> quiet b -> nlocks_of b (t, m) = 0 -> strong_of b (t, m) = false.
Proof.
  intros P Hpl (_ & Q & _) Hn. destruct (strong_of b (t, m)) eqn:E; [|done]. pose proof (vk_strong _ _ _ _ (pk_view _ _ _ _ _ P t m) E) as (_ & V). cbn in V.
  destruct (plain_no_release b (t, m) Hpl) as (R1 & R2). rewrite Hn, Q, R1, R2, bool_decide_eq_false_2 in V by done. done.
Qed.

(** Beginning to acquire a strong lock. *)
Definition begun (b : backend) (k : LOCALLOCKTAG) (l : LOCALLOCK) : backend := with_strong (put_local b k (ll_with l (ll_shared l) true)) (Some k).

Lemma begun_ok s F b p r l :
  proc_ok H s F b p -> plain (at_point b) = true -> quiet b -> LocalHash b !! q_key r = Some l -> nLocks l = 0 -> strong (q_tag r) (q_mode r) = true ->
  proc_ok H s F (with_point (begun b (q_key r) l) (AtTransfer r 0)) p.
Proof.
  intros P Hpl Q Hk Hl Hs. pose proof (plain_table H s F b p P Hpl) as ok. destruct Q as (Q1 & Q2 & Q3). destruct P as [P1 P2 P3 P4 P5 P6].
  assert (locals_ok (begun b (q_key r) l)) as ok'.
  { assert (locals_ok (put_local b (q_key r) (ll_with l (ll_shared l) true))) as [] by (eapply locals_same_owners; [done|done| |done]; destruct (lb_entry _ ok _ _ Hk); by constructor). by constructor. }
  assert (forall k, same_entry b (begun b (q_key r) l) k \/ k = q_key r) as Hsame.
  { intros k. destruct (decide (k = q_key r)) as [->|]; [by right|left]. apply same_entry_lookup. cbn. by rewrite lookup_insert_ne. }
  assert (forall k, entry_empty b k -> entry_empty (begun b (q_key r) l) k) as Hempty.
  { intros k He. destruct (Hsame k) as [E| ->]; [|unfold entry_empty, nlocks_of; cbn; rewrite lookup_insert_eq; cbn; eauto].
    apply (same_entry_empty b); [done| |done]. unfold nlocks_of. destruct (LocalHash (begun b (q_key r) l) !! k) eqn:E0; [by eapply nLocks_nonneg, lb_entry|done]. }
  constructor; try done.
  - by apply plain_table_ok.
  - intros t m. destruct (decide ((t, m) = q_key r)) as [Ek|Hne].
    + destruct (P4 t m) as [V1 V2 V3 V4 V5 V6 V7 V8]. cbn in V1, V2, V3, V7. assert (nlocks_of b (t, m) = 0) as Hn by (unfold nlocks_of; by rewrite Ek, Hk).
      destruct (plain_no_release b (t, m) Hpl) as (R1 & R2). unfold granted_asleep in V3. rewrite Hn, R1, Q1, bool_decide_eq_false_2 in V3 by done. cbn in V3.
      rewrite <- Ek in Hk. unfold q_key in Ek. injection Ek as -> ->. rewrite Hk, bool_decide_eq_true_2 in V1 by eauto. constructor; cbn; unfold nlocks_of, shared_of, strong_of, granted_asleep, releasing, removing; cbn; unfold q_key in *; rewrite ?lookup_insert_eq; cbn; rewrite ?Hl; try done.
      * rewrite Q1, bool_decide_eq_false_2 by done. done.
      * rewrite bool_decide_eq_true_2 by done. done.
      * rewrite Q3, Z.bits_0. done.
    + rewrite (view_same s s F F b _ p t m); try done; [by destruct (Hsame (t, m))|by apply releasing_point|by apply releasing_point|]. cbn. rewrite Q2. split; congruence.
  - apply (wait_ok_same s b); auto. intros k. destruct (Hsame k) as [(_ & _ & E & _)| ->]; [done|]. unfold shared_of. cbn. by rewrite lookup_insert_eq, Hk.
  - cbn. split_and!; [done|done| |done|done]. apply Hempty. split; [eauto|]. unfold nlocks_of. by rewrite Hk.
Qed.

(** The entry is ready and nothing else has happened: the request goes on after the fast
    path. *)
Record prepared (x x1 : lockenv) (p : Z) (r : request) (F1 : fastpath) (b1 : backend) : Prop := {
  pr_effect : effect H x x1 p (shared x) F1 b1;
  pr_proc : proc_ok H (shared x) F1 (with_point b1 (Outside NoCall)) p;
  pr_entry : entry_empty b1 (q_key r);
  pr_more : no_more (shared x) p (backend_of x p) b1;
  pr_count : forall h, strong_in H (LocalHash b1) h = strong_in H (LocalHash (backend_of x p)) h;
  pr_fast : forall t m, fastheld F1 t m = true -> fastheld (fast x p) t m = true;
  pr_start : forall r i, at_of x p <> AtTransfer r i }.

Lemma prepared_quiet x x1 p r F1 b1 : prepared x x1 p r F1 b1 -> quiet b1.
Proof. intros R. apply (pk_point _ _ _ _ _ (pr_proc _ _ _ _ _ _ R)). Qed.

Lemma prepared_goto x x1 p r F1 b1 pt :
  prepared x x1 p r F1 b1 -> plain pt = true -> closed_point pt = true -> point_ok H (shared x) F1 (with_point b1 pt) p pt -> own x (goto x1 p pt) p.
Proof.
  intros [E P He Hm Hc Hf Hn] Hpt Hcl Hok. apply (own_local _ _ _ _ x _ p F1 (with_point b1 pt)); try done; [by apply effect_goto| |].
  - exact (proc_point H (shared x) F1 (with_point b1 (Outside NoCall)) p P eq_refl pt Hpt Hok).
  - eapply no_more_trans; [exact Hm|by apply no_more_refl].
Qed.

Lemma after_fast_path_ok x x1 p r F1 b1 :
  prepared x x1 p r F1 b1 -> counts_bounded H x p -> count_room H x (q_tag r) -> exists x2, after_fast_path H x1 p r = Ret x2 /\ own x x2 p.
Proof.
  intros R Hb Hroom. pose proof (prepared_quiet _ _ _ _ _ _ R) as Q. unfold after_fast_path. destruct (strong (q_tag r) (q_mode r)) eqn:Es.
  - destruct R as [E P (He & Hz) [N1 N2] Hc Hf Hn]. destruct He as [l Hl]. unfold BeginStrongLockAcquire. rewrite (ef_backend _ _ _ _ _ _ _ E), Hl. cbn [deref cbind].
    assert (strong_of b1 (q_key r) = false) as Hns by exact (quiet_not_strong _ _ _ _ _ _ P eq_refl Q Hz).
    unfold strong_of in Hns. rewrite Hl in Hns. rewrite (bool_decide_eq_true_2 _ (proj1 (proj2 Q))), Hns. cbn [negb c_assert cbind].
    unfold nlocks_of in Hz. rewrite Hl in Hz. eexists. split; [done|].
    pose proof (begun_ok (shared x) F1 _ p r l P eq_refl Q Hl Hz Es) as P2. fold (begun b1 (q_key r) l). set (b2 := with_point (begun b1 (q_key r) l) (AtTransfer r 0)) in *.
    assert (forall h, <[part (q_tag r) := u32 (strongCount x1 (part (q_tag r)) + 1)]> (strongCount x1) h = strongCount x h - strong_in H (LocalHash (backend_of x p)) h + strong_in H (LocalHash b2) h) as Hcnt.
    { intros h. assert (strongCount x1 h = strongCount x h) as Ex by (rewrite (ef_count _ _ _ _ _ _ _ E), Hc; lia).
      cbn. rewrite strong_in_insert, Hl, Hc. cbn. rewrite Hns. cbn. destruct (Z.eqb_spec (part (q_tag r)) h) as [<-|Hne].
      - rewrite fn_lookup_insert, Ex. unfold count_room in Hroom. pose proof (Hb (part (q_tag r))). pose proof (strong_in_nonneg H (LocalHash (backend_of x p)) (part (q_tag r))). unfold u32. rewrite Z.mod_small by lia. lia.
      - rewrite fn_lookup_insert_ne by congruence. rewrite Ex. lia. }
    assert (forall k, k <> q_key r -> LocalHash b2 !! k = LocalHash b1 !! k) as Hl2 by (intros k Hk; cbn; by rewrite lookup_insert_ne).
    destruct E as [E1 E2 E3 E4 E5 E6]. constructor; cbn; rewrite ?fn_lookup_insert; rewrite ?E1, ?E2; try done.
    + auto using bystander_refl.
    + intros q Hq. rewrite !fn_lookup_insert_ne by done. auto.
    + intros k Hk. destruct (decide (k = q_key r)) as [->|Hne]; [left; by exists r|right]. split; [apply N2; unfold strong_of in Hk |- *; by rewrite <- Hl2|].
      intros i. split; intros (r' & Hr' & Hk'); [cbn in Hr'; congruence|by apply (Hn r' i)].
    + intros t m Hh (L1 & L2). assert ((t, m) <> q_key r) as Hne.
      { intros Ek. pose proof (empty_not_held H (shared x) F1 _ p P eq_refl t m Q) as (E0 & _); [cbn; unfold nlocks_of; cbn; by rewrite Ek, Hl|]. congruence. }
      unfold strong_of in L2. change (LocalHash (with_point _ _)) with (LocalHash b2) in L1, L2. rewrite Hl2 in L1, L2 by done. split; [|auto]. destruct (N1 t m L1); [done|congruence].
    + intros t [(m & Hm)|(r' & Hr' & _)]; [cbn in Hm; rewrite E2 in Hm; left; left; eauto|]. unfold at_of in Hr'. cbn in Hr'. by rewrite fn_lookup_insert in Hr'.
    + intros Hr h. rewrite Hcnt. cbn. rewrite strong_in_insert, Hl, Hc. cbn. rewrite Hns. cbn. specialize (Hr h). unfold count_room in Hroom. destruct (Z.eqb_spec (part (q_tag r)) h) as [<-|]; lia.
  - eexists. split; [done|]. apply (prepared_goto _ _ _ _ _ _ _ R); try done. cbn. unfold in_progress. rewrite Es. destruct R, Q as (? & ? & ?). done.
Qed.

(** ** The local table *)

Definition bad_request (recovery : bool) (r : request) : bool :=
  bad_lock (q_tag r) (q_mode r) ||
  (recovery && ((locktag_type (q_tag r) =? LOCKTAG_OBJECT) || (locktag_type (q_tag r) =? LOCKTAG_RELATION)) && (RowExclusiveLock <? q_mode r)).

(** The entry of the request: there already, made wider, or new. *)
Definition found_entry (b : backend) (k : LOCALLOCKTAG) : LOCALLOCK :=
  match LocalHash b !! k with
  | None => new_LOCALLOCK
  | Some l =>
      if maxLockOwners l <=? zlen (lockOwners l) then
        {| ll_shared := ll_shared l; nLocks := nLocks l; holdsStrongLockCount := holdsStrongLockCount l; lockCleared := lockCleared l;
           lockOwners := lockOwners l; maxLockOwners := maxLockOwners l * 2 |}
      else l
  end.

Lemma found_entry_ok b k :
  locals_ok b -> locals_ok (put_local b k (found_entry b k)) /\ zlen (lockOwners (found_entry b k)) < maxLockOwners (found_entry b k) /\
  nLocks (found_entry b k) = nlocks_of b k /\ ll_shared (found_entry b k) = shared_of b k /\ holdsStrongLockCount (found_entry b k) = strong_of b k.
Proof.
  intros ok. unfold found_entry, nlocks_of, shared_of, strong_of. destruct (LocalHash b !! k) as [l|] eqn:Hk.
  - pose proof (lb_entry _ ok k l Hk) as Hl. destruct (Z.leb_spec (maxLockOwners l) (zlen (lockOwners l))); (split_and!; [|cbn; destruct Hl; lia|done|done|done]);
      (apply (locals_same_owners b k l); [done|done| |done]); [|done]. destruct Hl as [H1 H2 H3 H4 H5]. constructor; cbn; [done|done|done|lia|lia].
  - split_and!; try done. apply locals_new; try done. constructor; cbn; try done; [by intros e He%elem_of_nil|apply NoDup_nil_2].
Qed.

Lemma found_prepared x p r res :
  proc_ok H (shared x) (fast x p) (backend_of x p) p -> at_of x p = Outside res -> tag_ok (q_tag r) -> bad_lock (q_tag r) (q_mode r) = false -> nlocks_of (backend_of x p) (q_key r) = 0 ->
  let b1 := put_local (backend_of x p) (q_key r) (found_entry (backend_of x p) (q_key r)) in prepared x (set_backend x p b1) p r (fast x p) b1.
Proof.
  intros P Hat Ht Hm Hz b1. set (b := backend_of x p) in *. assert (plain (at_point b) = true) as Hpl by (unfold at_of in Hat; fold b in Hat; by rewrite Hat).
  assert (quiet b) as Q by (pose proof (pk_point _ _ _ _ _ P) as Hp; unfold at_of in Hat; fold b in Hat; rewrite Hat in Hp; apply Hp).
  pose proof (plain_table _ _ _ _ _ P Hpl) as ok. destruct (found_entry_ok b (q_key r) ok) as (ok1 & _ & F1 & F2 & F3). fold b1 in ok1. rewrite Hz in F1.
  destruct (empty_not_held _ _ _ _ _ P Hpl (q_tag r) (q_mode r) Q Hz) as (Hh & Hf). pose proof (quiet_not_strong _ _ _ _ (q_tag r) (q_mode r) P Hpl Q Hz) as Hs. destruct Q as (Q1 & Q2 & Q3).
  assert (forall h, strong_in H (LocalHash b1) h = strong_in H (LocalHash b) h) as Hc by (intros h; apply strong_in_same; by rewrite F3).
  assert (forall k, k <> q_key r -> LocalHash b1 !! k = LocalHash b !! k) as Hother by (intros k Hk; cbn; by rewrite lookup_insert_ne).
  constructor; try done.
  - eapply effect_backend; [apply effect_refl|done].
  - apply (proc_key H (shared x) (fast x p) b p P Hpl _ _ _ _ (q_tag r) (q_mode r)); try done; [apply P|apply P| | |].
    + intros t m Hne. unfold alone. split_and!; try done. apply same_entry_lookup, Hother, Hne.
    + apply (view_settled _ _ _ _ _ _ _ (found_entry b (q_key r))); try done.
      * cbn. unfold q_key. by rewrite lookup_insert_eq.
      * unfold granted_asleep. cbn. by rewrite Q1, bool_decide_eq_false_2.
      * cbn. by rewrite Q3, Z.bits_0.
      * cbn. by rewrite Q2.
      * by rewrite Hh, Hf, F1.
      * rewrite F1. lia.
      * rewrite F3. intros E. unfold q_key in E. congruence.
    + pose proof (pk_wait _ _ _ _ _ P) as W. unfold wait_ok in *. cbn. by rewrite Q1 in *.
  - split; [cbn; rewrite lookup_insert_eq; eauto|]. unfold nlocks_of. cbn. by rewrite lookup_insert_eq.
  - constructor; [intros t m Hp|intros k].
    + destruct (decide ((t, m) = q_key r)) as [[= -> ->]|Hne]; [by right|left]. by rewrite Hother in Hp.
    + unfold strong_of. destruct (decide (k = q_key r)) as [->|Hne]; [|by rewrite Hother]. cbn. by rewrite lookup_insert_eq, F3.
  - intros r' i E. congruence.
Qed.

Lemma acquire_begin_ok recovery x p r res :
  proc_ok H (shared x) (fast x p) (backend_of x p) p -> counts_bounded H x p -> at_of x p = Outside res -> tag_ok (q_tag r) -> count_room H x (q_tag r) ->
  if bad_request recovery r then exists e, acquire_begin H recovery x p r = Elog e else exists x', acquire_begin H recovery x p r = Ret x' /\ own x x' p.
Proof.
  intros P Hb Hat Ht Hroom. unfold bad_request. destruct (bad_lock (q_tag r) (q_mode r)) eqn:Ebad; cbn [orb]; unfold acquire_begin.
  { unfold bad_lock in Ebad. destruct (_ || (lengthof_LockMethods <=? _)); cbn [orb] in *; [eauto|]. rewrite Ebad. eauto. }
  pose proof Ebad as Hm. unfold bad_lock in Ebad. rewrite !orb_false_iff in Ebad. destruct Ebad as (((-> & ->) & ->) & ->). cbn [orb].
  destruct (recovery && _ && _); [eauto|]. fold (found_entry (backend_of x p) (q_key r)). set (b := backend_of x p) in *.
  assert (plain (at_point b) = true) as Hpl by (unfold at_of in Hat; fold b in Hat; by rewrite Hat). pose proof (plain_table _ _ _ _ _ P Hpl) as ok.
  destruct (found_entry_ok b (q_key r) ok) as (ok1 & Hroom1 & F1 & F2 & F3). destruct (Z.ltb_spec 0 (nLocks (found_entry b (q_key r)))) as [Hpos|Hz].
  - set (b1 := put_local b (q_key r) (found_entry b (q_key r))) in *. destruct (GrantLockLocal_ok b1 (q_key r) (q_owner r) (found_entry b (q_key r)) ok1) as (b2 & l2 & -> & ok2 & HL2 & R & Hn2 & Hfl2 & Hfl2'); [cbn; by rewrite lookup_insert_eq|done|].
    cbn [cbind]. eexists. split; [done|]. unfold nlocks_of, shared_of, strong_of in F1, F2, F3. destruct (LocalHash b !! q_key r) as [l|] eqn:Hk; [|lia].
    assert (LocalHash b2 = <[q_key r := l2]> (LocalHash b)) as HL by (rewrite HL2; cbn; by rewrite insert_insert_eq).
    assert (forall k, same_entry b b2 k) as Hsame.
    { intros k. apply (same_entry_insert b b2 (q_key r) l l2 k Hk HL); [split; congruence|]. destruct (Z.ltb_spec 0 (nLocks l2)), (Z.ltb_spec 0 (nLocks l)); [done|lia|lia|done]. }
    assert (same_rest b b2) as R0 by (by destruct R). set (b3 := with_point _ _). assert (quiet b) as Q by (pose proof (pk_point _ _ _ _ _ P) as Hp; unfold at_of in Hat; fold b in Hat; rewrite Hat in Hp; apply Hp).
    apply (own_local _ _ _ _ x _ p (fast x p) b3); try done.
    + eapply effect_backend; [apply effect_refl|]. intros h. cbn. rewrite HL. apply strong_in_same. fold b. rewrite Hk. congruence.
    + apply (proc_same H (shared x) (fast x p) b p P Hpl b2); try done. split; [by apply (quiet_same b b2)|].
      cbn. destruct (lockCleared _); cbn; unfold nlocks_of; cbn; rewrite HL, lookup_insert_eq; lia.
    + eapply no_more_trans; [by apply (same_entries_no_more _ _ b b2)|by apply no_more_refl].
    + intros r' i. congruence.
  - assert (nlocks_of b (q_key r) = 0) as Hz0 by (pose proof (nlocks_nonneg b (q_key r) (pk_table _ _ _ _ _ P) Hpl); lia).
    pose proof (found_prepared x p r res P Hat Ht Hm Hz0) as R. cbv zeta in R. fold b in R. set (b1 := put_local b (q_key r) (found_entry b (q_key r))) in *.
    destruct (_ && _) eqn:Ee.
    + apply andb_true_iff in Ee as (Ee & _). eexists. split; [done|]. apply (prepared_goto _ _ _ _ _ _ _ R); try done. cbn. split_and!; [exact (prepared_quiet _ _ _ _ _ _ R)|apply R|done].
    + by apply (after_fast_path_ok _ _ _ _ _ _ R).
Qed.

(** ** The fast path *)

Lemma eligible_tag F t m : EligibleForRelationFastPath (databaseId F) t m = true -> tag_ok t -> fast_tag F t = true /\ m < 4.
Proof.
  unfold EligibleForRelationFastPath. rewrite !andb_true_iff, !Z.eqb_eq, negb_true_iff, Z.eqb_neq, Z.ltb_lt. intros ((((_ & E1) & E2) & E3) & E4) Ht. split; [|done].
  apply fast_tag_spec. split; [|done]. rewrite <- E2. by apply Ht.
Qed.

Lemma fast_prepared x p r :
  proc_ok H (shared x) (fast x p) (backend_of x p) p -> at_of x p = AtFastTest r \/ at_of x p = AtFastGrant r ->
  prepared x x p r (fast x p) (backend_of x p) /\ EligibleForRelationFastPath (databaseId (fast x p)) (q_tag r) (q_mode r) = true.
Proof.
  intros P Hat. assert (quiet (backend_of x p) /\ entry_empty (backend_of x p) (q_key r) /\ EligibleForRelationFastPath (databaseId (fast x p)) (q_tag r) (q_mode r) = true) as (Q & He & Hel).
  { pose proof (pk_point _ _ _ _ _ P) as Hp. unfold at_of in Hat. by destruct Hat as [Hat|Hat]; rewrite Hat in Hp. }
  split; [|done]. constructor; try done.
  - apply effect_refl.
  - apply proc_point; try done. unfold at_of in Hat. by destruct Hat as [-> | ->].
  - by apply no_more_refl.
  - intros r' i. destruct Hat; congruence.
Qed.

Lemma fast_test_ok x p r :
  proc_ok H (shared x) (fast x p) (backend_of x p) p -> counts_bounded H x p -> at_of x p = AtFastTest r -> count_room H x (q_tag r) ->
  exists x', fast_test H x p r = Ret x' /\ own x x' p.
Proof.
  intros P Hb Hat Hroom. destruct (fast_prepared x p r P (or_introl Hat)) as (R & Hel). unfold fast_test. destruct (Z.eqb_spec (strongCount x (part (q_tag r))) 0) as [Hz|]; [|by apply (after_fast_path_ok _ _ _ _ _ _ R)].
  eexists. split; [done|]. pose proof (pr_proc _ _ _ _ _ _ R) as P0. assert (proc_ok H (shared x) (fast x p) (with_point (backend_of x p) (AtFastGrant r)) p) as P1.
  { apply (proc_point _ _ _ _ _ P0 eq_refl (AtFastGrant r) eq_refl). cbn. split_and!; [exact (prepared_quiet _ _ _ _ _ _ R)|apply R|done]. }
  assert (forall k i, ~ transferring (backend_of x p) k i) as Hnt by (intros k i (r' & Hr' & _); unfold at_of in Hat; congruence).
  constructor; cbn; rewrite ?fn_lookup_insert; try done.
  - intros q _. apply bystander_refl.
  - intros q Hq. by rewrite fn_lookup_insert_ne.
  - intros h. cbn. lia.
  - intros k Hk. right. split; [done|]. intros i. split; [|done]. by intros (r' & Hr' & _).
  - intros t [(m & Hm)|(r' & Hr' & <-)]; [left; left; eauto|right]. unfold at_of in Hr'. cbn in Hr'. rewrite fn_lookup_insert in Hr'. by injection Hr' as <-.
Qed.

(** The entry of the request counts its first lock. *)
Lemma grant_first b k l sh owner :
  locals_ok b -> LocalHash b !! k = Some l -> nLocks l = 0 ->
  exists b' l', GrantLockLocal (put_local b k (ll_with l sh (holdsStrongLockCount l))) k owner = Ret b' /\ locals_ok b' /\ LocalHash b' = <[k := l']> (LocalHash b) /\ same_rest b b' /\
    nLocks l' = 1 /\ ll_shared l' = sh /\ holdsStrongLockCount l' = holdsStrongLockCount l.
Proof.
  intros ok Hk Hz. pose proof (lb_entry _ ok k l Hk) as Hl. pose proof (nLocks_zero l Hl Hz) as Hnil. set (b1 := put_local b k (ll_with l sh (holdsStrongLockCount l))).
  assert (locals_ok b1) as ok1 by (eapply locals_same_owners; [done|done| |done]; destruct Hl; by constructor).
  destruct (GrantLockLocal_ok b1 k owner (ll_with l sh (holdsStrongLockCount l)) ok1) as (b2 & l2 & E & ok2 & HL2 & R & Hn2 & Hf1 & Hf2); [cbn; by rewrite lookup_insert_eq|cbn; rewrite Hnil; apply Hl|].
  exists b2, l2. split_and!; [done|done|rewrite HL2; cbn; by rewrite insert_insert_eq|by destruct R|cbn in Hn2; lia|done|done].
Qed.

(** A request that is given up. *)
Lemma not_available_ok x x1 p s' F' b1 r memory :
  effect H x x1 p s' F' b1 -> counts_bounded H x1 p -> proc_ok H s' F' (with_point b1 (AtShared r)) p ->
  exists x2 b2, not_available H x1 p r memory = Ret x2 /\ effect H x x2 p s' F' b2 /\ proc_ok H s' F' b2 p /\ (forall s, no_more s p b1 b2) /\ closed_point (at_point b2) = true /\ strong_of b2 (q_key r) = false.
Proof.
  intros E Hb P. unfold not_available. pose proof (pk_point _ _ _ _ _ P) as (Q1 & Q3 & (He & Hz) & Hpr).
  destruct (AbortStrongLockAcquire_effect H x x1 p s' F' b1 E Hb) as (x2 & -> & E2 & Hb2); [exact (progress_strong _ _ _ _ _ P)|]. cbn [cbind]. rewrite (ef_backend _ _ _ _ _ _ _ E2).
  assert (aborted (with_point b1 (AtShared r)) = with_point (aborted b1) (AtShared r)) as Eab by (unfold aborted; cbn; destruct (StrongLockInProgress b1) as [k|]; [destruct (LocalHash b1 !! k)|]; done).
  pose proof (aborted_entry _ _ _ _ _ P) as Hab. pose proof (aborted_locals _ _ _ _ _ P eq_refl) as okab. pose proof (aborted_rest _ _ _ _ _ P) as (R1 & R2 & R3 & R4 & R5).
  pose proof (proc_aborted _ _ _ _ _ P eq_refl (Outside NoCall) eq_refl) as P2. rewrite Eab in *. cbn in R1, R2, R3, R4, R5.
  assert (locals_ok (aborted b1)) as ok2 by (destruct okab; by constructor).
  assert (quiet (aborted b1)) as Q2 by (unfold quiet, unmarked; by rewrite R1, R2, R4).
  specialize (P2 (conj Q2 I)). cbn in P2. change (LocalHash (with_point ?b ?pt)) with (LocalHash b) in Hab.
  destruct (Hab (q_key r)) as (He2 & Hz2 & _). apply He2 in He as [l Hl]. rewrite Hl. cbn [deref cbind]. unfold nlocks_of in Hz2. cbn in Hz2. rewrite Hl in Hz2.
  assert (nLocks l = 0) as Hl0. { rewrite Hz2. unfold nlocks_of in Hz. done. } rewrite Hl0. cbn [Z.eqb].
  destruct (RemoveLocalLock_effect H x x2 p s' F' (aborted b1) (q_key r) l E2 Hb2 Hl (locals_ok_but _ _ _ ok2 Hl)) as (x3 & b3 & -> & E3 & Hb3 & ok3 & HL3 & Rs3). cbn [cbind].
  assert (same_rest (with_point (aborted b1) (Outside NoCall)) (with_point b3 (Outside NoCall))) as Rs by (by destruct Rs3).
  set (pt := if memory && q_reportMemoryError r then _ else _). assert (plain pt = true /\ closed_point pt = true) as (Hpt & Hcl) by (unfold pt; by destruct (_ && _)).
  eexists _, (with_point b3 pt). split; [done|]. split_and!; [by apply effect_goto| | |done|unfold strong_of; cbn; by rewrite HL3, lookup_delete_eq].
  - apply (proc_removed H s' F' _ p P2 eq_refl (with_point b3 (Outside NoCall)) (q_key r) pt Q2); try done; [unfold nlocks_of; cbn; by rewrite Hl|by apply locals_with_point|].
    assert (quiet (with_point b3 pt)) as Q by (by apply (quiet_same (aborted b1))). unfold pt. destruct (_ && _); [by destruct Q as (_ & _ & ?)|]. split; [done|]. cbn. unfold nlocks_of. cbn. by rewrite HL3, lookup_delete_eq.
  - intros s. apply (no_more_trans _ _ _ (aborted b1)); [|by apply (no_more_delete _ _ _ _ (q_key r))]. constructor; [intros t m ?; left; by apply (Hab (t, m))|].
    intros k Hk. destruct (Hab k) as (_ & _ & _ & Es). change (strong_of (with_point ?b ?pt)) with (strong_of b) in Es. rewrite Es in Hk. by apply andb_true_iff in Hk as (? & _).
Qed.

Lemma fast_grant_ok x p r :
  proc_ok H (shared x) (fast x p) (backend_of x p) p -> counts_bounded H x p -> at_of x p = AtFastGrant r -> count_room H x (q_tag r) ->
  exists x', fast_grant H x p r = Ret x' /\ own x x' p.
Proof.
  intros P Hb Hat Hroom. destruct (fast_prepared x p r P (or_intror Hat)) as (R & Hel). pose proof (prepared_quiet _ _ _ _ _ _ R) as Q. pose proof (pr_entry _ _ _ _ _ _ R) as ([l Hl] & Hz).
  unfold nlocks_of in Hz. rewrite Hl in Hz. set (b := backend_of x p) in *. set (F := fast x p) in *. assert (plain (at_point b) = true) as Hpl by (unfold at_of in Hat; fold b in Hat; by rewrite Hat).
  pose proof (pk_view _ _ _ _ _ P (q_tag r) (q_mode r)) as V. destruct (vk_key _ _ _ _ V) as (Ht & Hm'); [cbn; apply bool_decide_eq_true; eauto|]. pose proof (bad_lock_mode _ _ Hm') as Hm.
  destruct (eligible_tag F _ _ Hel Ht) as (Htag & Hm4). assert (weak_mode (q_mode r)) as Hw by (unfold weak_mode, is_mode in *; lia).
  destruct (empty_not_held _ _ _ _ _ P Hpl (q_tag r) (q_mode r) Q) as (Hnh & Hnf); [unfold nlocks_of; fold (q_key r); by rewrite Hl|].
  assert (fast_bit F (locktag_field2 (q_tag r)) (q_mode r) = false) as Hbit by (unfold fastheld in Hnf; by rewrite Htag in Hnf).
  destruct (FastPathGrantRelationLock_ok F (FastPathLocalUseCount b) (locktag_field2 (q_tag r)) (q_mode r) (pk_fast _ _ _ _ _ P) Hw Hbit (pk_use _ _ _ _ _ P)) as (F' & n' & a & E & HF' & Edb & Hu' & Ha).
  unfold fast_grant. fold F b. rewrite E. cbn [cbind]. set (b0 := with_useCount b n'). assert (effect H x (set_backend (set_fast x p F') p b0) p (shared x) F' b0) as E0 by (eapply effect_backend; [eapply effect_fast, effect_refl|done]).
  destruct a.
  - rewrite (ef_backend _ _ _ _ _ _ _ E0). change (LocalHash b0) with (LocalHash b). rewrite Hl. cbn [deref cbind].
    assert (locals_ok b0) as ok0 by (by destruct (plain_table _ _ _ _ _ P Hpl)).
    destruct (grant_first b0 (q_key r) l false (q_owner r) ok0 Hl Hz) as (b' & l' & -> & ok' & HL' & [R1 R2 R3 R4 R5 R6] & N' & S' & T'). cbn [cbind]. eexists. split; [done|].
    change (lockAwaited b' = lockAwaited b) in R3. change (StrongLockInProgress b' = StrongLockInProgress b) in R2. change (releaseMask b' = releaseMask b) in R5.
    set (pt := Outside _). assert (strong_of b (q_key r) = false) as Hns by (apply (quiet_not_strong _ _ _ _ _ _ P Hpl Q); unfold nlocks_of; fold (q_key r); by rewrite Hl).
    unfold strong_of in Hns. rewrite Hl in Hns. destruct Q as (Q1 & Q2 & Q3).
    assert (forall k, k <> q_key r -> LocalHash b' !! k = LocalHash b !! k) as Hother by (intros k Hk; rewrite HL'; by rewrite lookup_insert_ne).
    apply (own_quiet _ _ _ _ x _ p (shared x) F' (with_point b' pt)); try done.
    + eapply effect_backend; [exact E0|]. intros h. cbn. rewrite HL'. apply strong_in_same. cbn. by rewrite Hl.
    + intros; apply bystander_refl.
    + apply (proc_key H (shared x) F b p P Hpl _ _ _ _ (q_tag r) (q_mode r)); try done.
      * by rewrite R1.
      * intros t m Hne. unfold alone, granted_asleep. rewrite R2, R3, R5, (fastheld_added F F' _ _ _ _ Htag Edb Ha), (bool_decide_eq_false_2 _ Hne), orb_false_r. split_and!; try done.
        apply same_entry_lookup, Hother, Hne.
      * apply (view_settled _ _ _ _ _ _ _ l'); cbn; try done.
        -- unfold q_key in HL'. by rewrite HL', lookup_insert_eq.
        -- unfold granted_asleep. cbn. by rewrite R3, Q1, bool_decide_eq_false_2.
        -- by rewrite R5, Q3, Z.bits_0.
        -- by rewrite R2, Q2.
        -- by rewrite Hnh, (fastheld_added F F' _ _ _ _ Htag Edb Ha), bool_decide_eq_true_2, orb_true_r, N'.
        -- intros _. by rewrite S'.
        -- by rewrite T', Hns.
      * pose proof (pk_wait _ _ _ _ _ P) as W. unfold wait_ok in *. rewrite R3. by rewrite Q1 in *.
      * split; [unfold quiet, unmarked; cbn; by rewrite R2, R3, R5|]. cbn. unfold nlocks_of. cbn. rewrite HL', lookup_insert_eq. split; [lia|].
        unfold ConflictsWithRelationFastPath. rewrite !andb_true_iff, Z.ltb_lt. unfold ShareUpdateExclusiveLock. lia.
    + constructor; [intros t m Hp|intros k].
      * left. destruct (decide ((t, m) = q_key r)) as [Ek|Hne]; [fold b; rewrite Ek; eauto|]. cbn in Hp. by rewrite Hother in Hp.
      * unfold strong_of. cbn. destruct (decide (k = q_key r)) as [->|Hne]; [rewrite HL', lookup_insert_eq, T', Hns; done|by rewrite Hother].
    + intros r' i. congruence.
    + intros t m. rewrite (fastheld_added F F' _ _ _ _ Htag Edb Ha). intros [Hf|[= -> ->]%bool_decide_eq_true]%orb_true_iff; [left; eauto|right; eauto].
  - subst F'. apply (after_fast_path_ok x _ p r F b0); [|done|done]. destruct R as [_ P1 He Hmo Hc Hf Hn]. constructor; try done.
    + destruct P1 as [A1 A2 A3 A4 A5 A6]. constructor; try done. by destruct A1; constructor.
    + by apply no_more_refl.
Qed.
End acquire.
