(* ===== verification/LockOwnWait.v ===== *)
(** * Heavyweight locks: the shared table and the sleep

    The rest of [LockAcquireExtended] and [LockErrorCleanup]. *)
From stdpp Require Import list gmap functions relations.
From S2P Require Import Prelude LockModes LockTable LockInvariant LockOps LockRequests LockSleep Deadlock DeadlockCycle DeadlockTopo DeadlockSearch DeadlockApply DeadlockVerdict LockSystem LockBackend LockFastPath LockLocal LockCounts LockSession LockOwn LockOwnViews LockOwnAcquire.

Section wait.
Context (H : LOCKTAG -> Z) (allProcCount MaxBackends : Z) (vacuumFlags : Z -> Z) (U : list Z).
Notation part := (FastPathStrongLockHashPartition H).
Notation own x x' p := (own_step H MaxBackends vacuumFlags U x x' p).

(** A request that is not for a lock held already. *)
Lemma request_not_held s F b p k :
  proc_ok H s F b p -> plain (at_point b) = true -> lockAwaited b = None -> unmarked b -> nlocks_of b k = 0 -> holds s (fst k) p (snd k) = false /\ fastheld F (fst k) (snd k) = false.
Proof.
  intros P Hpl Ha Hu Hz. destruct k as [t m]. pose proof (vk_held _ _ _ _ (pk_view _ _ _ _ _ P t m)) as V. cbn in V. unfold granted_asleep in V. destruct (plain_no_release b (t, m) Hpl) as (R & _).
  rewrite Hz, Ha, R, Hu, Z.bits_0, bool_decide_eq_false_2 in V by done. by apply orb_false_iff.
Qed.

(** The request has its shared entry; it may have joined the queue. *)
Definition pointed (b : backend) (k : LOCALLOCKTAG) (l : LOCALLOCK) : backend := put_local b k (ll_with l true (holdsStrongLockCount l)).

Lemma pointed_ok s s' F b p r l a own' pt :
  proc_ok H s F b p -> at_point b = AtShared r -> LocalHash b !! q_key r = Some l -> (forall t m, holds s' t p m = holds s t p m) ->
  ((a = None /\ links (allProcs s' p) = false) \/
   (a = Some (q_key r) /\ (exists owner, own' = Some (q_key r, owner)) /\ links (allProcs s' p) = true /\ waitLock (allProcs s' p) = Some (q_tag r) /\ waits_mode s' p = q_mode r)) ->
  plain pt = true -> point_ok H s' F (with_point (with_wait (pointed b (q_key r) l) a own') pt) p pt ->
  proc_ok H s' F (with_point (with_wait (pointed b (q_key r) l) a own') pt) p.
Proof.
  intros P Hat Hl Hh Ha Hpt Hok. pose proof (pk_point _ _ _ _ _ P) as Hp. rewrite Hat in Hp. destruct Hp as (Q1 & Q3 & (_ & Hz) & Q2).
  assert (plain (at_point b) = true) as Hpl by (by rewrite Hat). pose proof (plain_table _ _ _ _ _ P Hpl) as ok.
  destruct (request_not_held _ _ _ _ _ P Hpl Q1 Q3 Hz) as (Hnh & Hnf). cbn in Hnh, Hnf.
  assert (locals_ok (with_wait (pointed b (q_key r) l) a own')) as ok'.
  { assert (locals_ok (pointed b (q_key r) l)) as [] by (eapply locals_same_owners; [done|done| |done]; destruct (lb_entry _ ok _ _ Hl); by constructor). by constructor. }
  assert (forall b0 k, granted_asleep s' (with_point (with_wait b0 a own') pt) p k = false) as Hg.
  { intros b0 k. unfold granted_asleep. cbn. destruct Ha as [(-> & _)|(_ & _ & -> & _)]; [by rewrite bool_decide_eq_false_2|by rewrite andb_false_r]. }
  assert (forall k, granted_asleep s b p k = false) as Hg0 by (intros k; unfold granted_asleep; by rewrite Q1, bool_decide_eq_false_2).
  apply (proc_key H s F b p P Hpl s' F _ pt (q_tag r) (q_mode r)); try done; [apply P|apply P| | |].
  - intros t m Hne. unfold alone. rewrite Hg0. split_and!; try done; [|apply (Hg (pointed b (q_key r) l))]. apply same_entry_lookup. cbn. by rewrite lookup_insert_ne.
  - destruct (pk_view _ _ _ _ _ P (q_tag r) (q_mode r)) as [V1 V2 V3 V4 V5 V6 V7 V8]. cbn in V1, V5, V6, V7. fold (q_key r) in *. unfold nlocks_of, strong_of in V5, V6, Hz. rewrite Hl in V1, V5, V6, Hz.
    destruct (plain_no_release b (q_key r) Hpl) as (R1 & R2). destruct (plain_no_release (with_point (with_wait (pointed b (q_key r) l) a own') pt) (q_key r) Hpt) as (R3 & R4).
    constructor; cbn; fold (q_key r); unfold nlocks_of, shared_of, strong_of; cbn; rewrite ?lookup_insert_eq, ?Hg, ?R3, ?R4, ?Hh, ?Hnh, ?Hnf, ?Q3, ?Z.bits_0; cbn; rewrite ?Hz; try done.
    + rewrite R1, R2, Hz in V5. done.
    + rewrite Hz in V6. done.
  - unfold wait_ok. cbn. destruct Ha as [(-> & Ha)|(-> & Ho & Ha)]; [done|]. split_and!; [done| |unfold shared_of; cbn; by rewrite lookup_insert_eq|by left]. split; [cbn; rewrite lookup_insert_eq; eauto|].
    unfold nlocks_of in Hz |- *. cbn. rewrite lookup_insert_eq. by rewrite Hl in Hz.
Qed.

Lemma pointed_no_more s p b k l a own' pt : LocalHash b !! k = Some l -> no_more s p b (with_point (with_wait (pointed b k l) a own') pt).
Proof. intros Hl. by eapply no_more_insert. Qed.

Lemma pointed_count k l b a own' pt h : LocalHash b !! k = Some l -> strong_in H (LocalHash (with_point (with_wait (pointed b k l) a own') pt)) h = strong_in H (LocalHash b) h.
Proof. intros Hl. cbn. apply strong_in_same. by rewrite Hl. Qed.

(** The backend learns that it has the lock. *)
Lemma counted_ok s s' F b b' p t m l l' pt :
  proc_ok H s F b p -> plain (at_point b) = true -> unmarked b -> LocalHash b !! (t, m) = Some l -> nLocks l = 0 ->
  (forall t' m', (t', m') <> (t, m) -> holds s' t' p m' = holds s t' p m') -> holds s' t p m = true -> fastheld F t m = false ->
  (lockAwaited b = None \/ lockAwaited b = Some (t, m)) -> (forall k, StrongLockInProgress b = Some k -> k = (t, m)) ->
  locals_ok b' -> LocalHash b' = <[(t, m) := l']> (LocalHash b) -> nLocks l' = 1 /\ ll_shared l' = true /\ holdsStrongLockCount l' = holdsStrongLockCount l ->
  FastPathLocalUseCount b' = FastPathLocalUseCount b -> lockAwaited b' = None -> StrongLockInProgress b' = None -> releaseMask b' = releaseMask b ->
  links (allProcs s' p) = false -> plain pt = true -> point_ok H s' F (with_point b' pt) p pt -> proc_ok H s' F (with_point b' pt) p.
Proof.
  intros P Hpl Hu Hl Hz Hh Hh1 Hf Ha Hp ok' HL' (N' & S' & T') R1 R2 R3 R4 Hk Hpt Hok. pose proof (pk_view _ _ _ _ _ P t m) as V.
  assert (forall k, granted_asleep s' (with_point b' pt) p k = false) as Hg by (intros k; unfold granted_asleep; cbn; by rewrite R2, bool_decide_eq_false_2).
  assert (forall k, k <> (t, m) -> granted_asleep s b p k = false) as Hg0.
  { intros k Hne. unfold granted_asleep. destruct Ha as [-> | ->]; (by rewrite bool_decide_eq_false_2 by congruence). }
  apply (proc_key H s F b p P Hpl s' F b' pt t m); try done; [apply P|rewrite R1; apply P| | |].
  - intros t' m' Hne. unfold alone. rewrite Hg0, R3, R4, Hh by done. split_and!; [apply same_entry_lookup; by rewrite HL', lookup_insert_ne|done|done|exact (Hg (t', m'))|done|]. split; [done|]. by intros E%Hp.
  - apply (view_settled _ _ _ _ _ _ _ l'); cbn; try done.
    + by rewrite HL', lookup_insert_eq.
    + apply (vk_key _ _ _ _ V). cbn. apply bool_decide_eq_true. eauto.
    + apply (vk_key _ _ _ _ V). cbn. apply bool_decide_eq_true. eauto.
    + by apply plain_no_release.
    + by rewrite R4, Hu, Z.bits_0.
    + by rewrite R3.
    + congruence.
    + by rewrite Hh1, N'.
    + intros _. by rewrite S'.
    + rewrite T', N'. intros E. pose proof (vk_strong _ _ _ _ V) as V5. cbn in V5. unfold strong_of in V5. rewrite Hl in V5. split; [by apply V5|lia].
  - unfold wait_ok. by rewrite R2.
Qed.

Lemma with_point_same b pt : at_point b = pt -> with_point b pt = b.
Proof. intros <-. by destruct b. Qed.

Lemma bounded_effect x x1 p s F b : effect H x x1 p s F b -> counts_bounded H x p -> (forall h, strong_in H (LocalHash b) h = strong_in H (LocalHash (backend_of x p)) h) -> counts_bounded H x1 p.
Proof. intros E Hb Hc h. rewrite (ef_count _ _ _ _ _ _ _ E), (ef_backend _ _ _ _ _ _ _ E), Hc. specialize (Hb h). lia. Qed.

(** The outcomes of [acquire_shared], for the backend that asked. *)
Section shared_result.
Context (x : lockenv) (p : Z) (r : request) (l : LOCALLOCK) (s' : lmgr).
Notation b := (backend_of x p).
Notation F := (fast x p).
Hypotheses (P : proc_ok H (shared x) F b p) (Hb : counts_bounded H x p) (Hat : at_point b = AtShared r) (Hl : LocalHash b !! q_key r = Some l) (Fr : frame (shared x) s' (q_tag r)).

Lemma shared_effect : effect H x (set_shared x s') p s' F b.
Proof using. exact (effect_shared H x x p _ _ _ s' (effect_refl H x p)). Qed.

Lemma shared_same_holds : (forall i, holds s' (q_tag r) p i = holds (shared x) (q_tag r) p i) -> forall t m, holds s' t p m = holds (shared x) t p m.
Proof using Fr. intros Hh t m. destruct (decide (t = q_tag r)) as [->|]; [apply Hh|by apply (frame_holds _ _ _ Fr)]. Qed.

Lemma shared_granted :
  hold_added (shared x) s' (q_tag r) p (q_mode r) -> links (allProcs s' p) = false ->
  exists b2, GrantLockLocal (put_local b (q_key r) (ll_with l true (holdsStrongLockCount l))) (q_key r) (q_owner r) = Ret b2 /\
    let b3 := with_point (FinishStrongLockAcquire b2) (Outside (Acquired (q_key r) LOCKACQUIRE_OK)) in
    effect H x (set_backend (set_shared x s') p b3) p s' F b3 /\ proc_ok H s' F b3 p /\ no_more (shared x) p b b3.
Proof using P Hat Hl Fr.
  intros Hadd Hk. pose proof (pk_point _ _ _ _ _ P) as Hp. rewrite Hat in Hp. destruct Hp as (Q1 & Q3 & (_ & Hz) & Q2).
  assert (plain (at_point b) = true) as Hpl by (by rewrite Hat). destruct (request_not_held _ _ _ _ _ P Hpl Q1 Q3 Hz) as (_ & Hnf). unfold nlocks_of in Hz. rewrite Hl in Hz.
  destruct (grant_first b (q_key r) l true (q_owner r) (plain_table _ _ _ _ _ P Hpl) Hl Hz) as (b2 & l2 & E2 & ok2 & HL2 & [R1 R2 R3 R4 R5 R6] & N2 & S2 & T2).
  exists b2. split; [exact E2|]. cbn zeta. split_and!.
  - eapply effect_backend; [apply shared_effect|]. intros h. cbn. rewrite HL2. apply strong_in_same. by rewrite Hl.
  - apply (counted_ok (shared x) s' F b (FinishStrongLockAcquire b2) p (q_tag r) (q_mode r) l l2); try done.
    + intros t m Hne. destruct (decide (t = q_tag r)) as [->|Hnt']; [|by apply (frame_holds _ _ _ Fr)]. rewrite Hadd. rewrite Z.eqb_refl. cbn. destruct (Z.eqb_spec m (q_mode r)) as [->|]; [done|by rewrite orb_false_r].
    + rewrite Hadd, !Z.eqb_refl. by rewrite orb_true_r.
    + by left.
    + intros k. rewrite Q2. unfold in_progress. destruct (strong _ _); [by intros [= <-]|done].
    + by destruct ok2; constructor.
    + cbn. by rewrite R3.
    + split; [unfold quiet, unmarked; cbn; by rewrite R3, R5|]. cbn. unfold nlocks_of, strong_of. cbn. rewrite HL2, lookup_insert_eq, T2. split; [lia|]. intros Es.
      pose proof (progress_strong _ _ _ _ _ P (q_key r)) as Hps. unfold strong_of in Hps. rewrite Hl, Q2 in Hps. unfold in_progress in Hps. rewrite Es in Hps. by apply Hps.
  - by eapply no_more_insert.
Qed.

Lemma shared_refused :
  (forall t m, holds s' t p m = holds (shared x) t p m) -> links (allProcs s' p) = false ->
  exists x2 b2, not_available H (set_backend (set_shared x s') p (pointed b (q_key r) l)) p r false = Ret x2 /\
    effect H x x2 p s' F b2 /\ proc_ok H s' F b2 p /\ no_more (shared x) p b b2 /\ closed_point (at_point b2) = true.
Proof using P Hb Hat Hl.
  intros Hh Hk. pose proof (pk_point _ _ _ _ _ P) as Hp. rewrite Hat in Hp. destruct Hp as (Q1 & Q3 & (_ & Hz) & Q2). set (b2 := pointed b (q_key r) l).
  assert (with_point (with_wait b2 None (awaited b)) (AtShared r) = b2) as Eb2 by (unfold b2, pointed, put_local, with_locals, with_wait, with_point; cbn; by rewrite Q1, Hat).
  assert (forall h, strong_in H (LocalHash b2) h = strong_in H (LocalHash b) h) as Hc by (intros h; rewrite <- Eb2; by apply (pointed_count (q_key r) l b)).
  assert (effect H x (set_backend (set_shared x s') p b2) p s' F b2) as E2 by (eapply effect_backend; [apply shared_effect|exact Hc]).
  destruct (not_available_ok H x _ p s' F b2 r false E2) as (x3 & b3 & E & E3 & P3 & N3 & Hcl & _).
  - exact (bounded_effect _ _ _ _ _ _ E2 Hb Hc).
  - rewrite <- Eb2 at 1. cbn. eapply (pointed_ok (shared x) s' F b p r l None (awaited b) (AtShared r)); try done; [by left|]. cbn. split_and!; try done. split; [cbn; rewrite lookup_insert_eq; eauto|].
    unfold nlocks_of in Hz |- *. cbn. rewrite lookup_insert_eq. by rewrite Hl in Hz.
  - exists x3, b3. split_and!; try done. eapply no_more_trans; [|apply N3]. rewrite <- Eb2. by apply pointed_no_more.
Qed.
End shared_result.

Lemma shared_step_ok room_lock room_proclock x p r :
  lmgr_ok (shared x) -> proc_ok H (shared x) (fast x p) (backend_of x p) p -> counts_bounded H x p -> p ∈ U -> leader_of (shared x) p ∈ U -> at_of x p = AtShared r ->
  exists x', shared_step H room_lock room_proclock x p r = Ret x' /\ own x x' p.
Proof.
  intros ok P Hb HU HU' Hat. unfold at_of in Hat. set (b := backend_of x p) in *. set (F := fast x p) in *. pose proof (pk_point _ _ _ _ _ P) as Hp. rewrite Hat in Hp. destruct Hp as (Q1 & Q3 & ([l Hl] & Hz) & Q2).
  assert (plain (at_point b) = true) as Hpl by (by rewrite Hat). assert (links (allProcs (shared x) p) = false) as Hk by (pose proof (pk_wait _ _ _ _ _ P) as W; unfold wait_ok in W; by rewrite Q1 in W).
  destruct (vk_key _ _ _ _ (pk_view _ _ _ _ _ P (q_tag r) (q_mode r))) as (Ht & Hm%bad_lock_mode); [cbn; apply bool_decide_eq_true; eauto|].
  destruct (request_not_held _ _ _ _ _ P Hpl Q1 Q3 Hz) as (Hnh & _). cbn in Hnh.
  destruct (acquire_shared_ok room_lock room_proclock (shared x) p (q_tag r) (q_mode r) (q_dontWait r) ok Hk Hm Hnh) as (s' & res & E & (ok' & Fr & Hnc & Hby & Hpost) & _).
  assert (rtc (lock_step MaxBackends vacuumFlags U) (shared x) s') as Hstep by (apply rtc_once; exact (step_acquire _ _ _ _ _ _ _ _ _ _ _ _ HU HU' Hk Hm Hnh E)).
  assert (forall r' i, at_of x p <> AtTransfer r' i) as Hnt by (intros r' i; unfold at_of; fold b; congruence).
  assert (forall x2 s2 b2, effect H x x2 p s2 F b2 -> s2 = s' -> proc_ok H s' F b2 p -> no_more (shared x) p b b2 -> closed_point (at_point b2) = true -> own x x2 p) as Hown.
  { intros x2 s2 b2 E2 -> P2 N2 Hcl. apply (own_quiet _ _ _ _ x x2 p s' F b2); try done. intros t m Hf. left. eauto. }
  unfold shared_step. rewrite E. cbn [cbind]. change (backend_of (set_shared x s') p) with b. destruct res.
  { subst s'. destruct (not_available_ok H x (set_shared x (shared x)) p _ _ _ r true (shared_effect x p _)) as (x2 & b2 & -> & E2 & P2 & N2 & Hcl & _).
    { exact Hb. } { by rewrite with_point_same. } exists x2. split; [done|]. by eapply Hown. }
  all: rewrite Hl; cbn [deref cbind].
  - destruct Hpost as (_ & Hadd & Hk' & _). destruct (shared_granted x p r l s' P Hat Hl Fr Hadd Hk') as (b2 & E2 & E3 & P3 & N3). fold b in E2. rewrite E2. cbn [cbind].
    eexists. split; [done|]. by eapply Hown.
  - destruct Hpost as (_ & _ & Hh & Hproc). destruct (shared_refused x p r l s' P Hb Hat Hl) as (x3 & b3 & E3 & E4 & P3 & N3 & Hcl); [by apply (shared_same_holds x p r s' Fr)|by rewrite Hproc|].
    exists x3. split; [exact E3|]. by eapply Hown.
  - destruct Hpost as (_ & _ & Hk1 & Hk2 & Hh & _). eexists. split; [done|].
    eapply Hown; [eapply effect_backend; [apply shared_effect|]; intros h; by apply (pointed_count (q_key r) l b)|done| |by apply (pointed_no_more _ _ b)|done].
    apply (pointed_ok (shared x) s' F b p r l); try done; [by apply (shared_same_holds x p r s' Fr)|by left].
  - destruct Hpost as (_ & _ & Hh & Hk1 & Hk2 & Hk3 & _). eexists. split; [done|].
    eapply Hown; [eapply effect_backend; [apply shared_effect|]; intros h; by apply (pointed_count (q_key r) l b)|done| |by apply (pointed_no_more _ _ b)|done].
    apply (pointed_ok (shared x) s' F b p r l); try done; [by apply (shared_same_holds x p r s' Fr)|right; split_and!; eauto].
Qed.

(** ** Awake again *)

Lemma grant_awaited_ok b k owner :
  locals_ok b -> entry_empty b k -> shared_of b k = true ->
  exists b' l l', LocalHash b !! k = Some l /\ nLocks l = 0 /\ GrantLockLocal b k owner = Ret b' /\ locals_ok b' /\ LocalHash b' = <[k := l']> (LocalHash b) /\ same_rest b b' /\
    (nLocks l' = 1 /\ ll_shared l' = true /\ holdsStrongLockCount l' = holdsStrongLockCount l).
Proof.
  intros ok ([l Hl] & Hz) Hs. unfold nlocks_of, shared_of in *. rewrite Hl in *. pose proof (lb_entry _ ok k l Hl) as L. pose proof (nLocks_zero l L Hz) as Hnil.
  destruct (GrantLockLocal_ok b k owner l ok Hl) as (b' & l' & E & ok' & HL & R & Hn & Hf1 & Hf2); [rewrite Hnil; apply L|]. exists b', l, l'. split_and!; try done; [lia|congruence].
Qed.

(** Asleep or woken by an interrupt, with the lock granted. *)
Lemma awaited_grant s F b p t m :
  proc_ok H s F b p -> lockAwaited b = Some (t, m) -> links (allProcs s p) = false -> waitStatus (allProcs s p) = STATUS_OK ->
  holds s t p m = true /\ fastheld F t m = false /\ entry_empty b (t, m) /\ shared_of b (t, m) = true /\ exists owner, awaited b = Some ((t, m), owner).
Proof.
  intros P Ha Hk Hst. pose proof (pk_wait _ _ _ _ _ P) as W. unfold wait_ok in W. rewrite Ha in W. destruct W as (Ho & He & Hs & _).
  destruct (pk_view _ _ _ _ _ P t m) as [V1 V2 V3 V4 V5 V6 V7 V8]. cbn in *. assert (holds s t p m = true) as Hh by (apply V8; unfold granted_asleep; by rewrite Ha, bool_decide_eq_true_2, Hk, Hst).
  split_and!; try done. destruct (fastheld F t m); [|done]. specialize (V2 eq_refl). congruence.
Qed.

Lemma own_counted x x1 p t m b1 b' owner pt :
  proc_ok H (shared x) (fast x p) (backend_of x p) p -> plain (at_point (backend_of x p)) = true -> (forall r i, at_of x p <> AtTransfer r i) -> unmarked (backend_of x p) ->
  lockAwaited (backend_of x p) = Some (t, m) -> links (allProcs (shared x) p) = false -> waitStatus (allProcs (shared x) p) = STATUS_OK ->
  (forall k, StrongLockInProgress (backend_of x p) = Some k -> k = (t, m)) ->
  LocalHash b1 = LocalHash (backend_of x p) -> resOwners b1 = resOwners (backend_of x p) -> GrantLockLocal b1 (t, m) owner = Ret b' ->
  (forall b2, LocalHash b2 = LocalHash b' -> resOwners b2 = resOwners b' -> FastPathLocalUseCount b2 = FastPathLocalUseCount (backend_of x p) -> lockAwaited b2 = None -> StrongLockInProgress b2 = None ->
    releaseMask b2 = releaseMask (backend_of x p) -> effect H x x1 p (shared x) (fast x p) (backend_of x p) -> closed_point pt = true -> plain pt = true ->
    (0 < nlocks_of b2 (t, m) -> strong_of b2 (t, m) = strong_of (backend_of x p) (t, m) -> point_ok H (shared x) (fast x p) (with_point b2 pt) p pt) -> own x (set_backend x1 p (with_point b2 pt)) p).
Proof.
  intros P Hpl Hnt Hu Ha Hk Hst Hpr HL1 HR1 E b2 HL2 HR2 Hus Haw Hsp Hmask Eff Hcl Hpt Hok. set (b := backend_of x p) in *.
  destruct (awaited_grant _ _ _ _ _ _ P Ha Hk Hst) as (Hh & Hf & He & Hs & _). pose proof (plain_table _ _ _ _ _ P Hpl) as ok.
  assert (locals_ok b1) as ok1 by (destruct ok as [O1 O2]; constructor; [by rewrite HL1|]; intros o; rewrite HR1; unfold owned_by; rewrite HL1; apply O2).
  destruct (grant_awaited_ok b1 (t, m) owner ok1) as (b'' & l & l' & Hl & Hz & E' & ok' & HL' & _ & Hl'); [unfold entry_empty, nlocks_of; by rewrite HL1|unfold shared_of; by rewrite HL1|].
  rewrite E' in E. injection E as ->. rewrite HL1 in Hl, HL'.
  assert (locals_ok b2) as ok2 by (destruct ok' as [O1 O2]; constructor; [by rewrite HL2|]; intros o; rewrite HR2; unfold owned_by; rewrite HL2; apply O2).
  rewrite <- HL2 in HL'. apply (own_quiet _ _ _ _ x _ p (shared x) (fast x p) (with_point b2 pt)); try done.
  - eapply effect_backend; [exact Eff|]. intros h. cbn. rewrite HL'. apply strong_in_same. rewrite Hl. apply Hl'.
  - intros; apply bystander_refl.
  - apply (counted_ok (shared x) (shared x) (fast x p) b b2 p t m l l' pt); try done; [by right|]. apply Hok; [unfold nlocks_of; rewrite HL', lookup_insert_eq; lia|]. unfold strong_of. fold b. rewrite HL', lookup_insert_eq, Hl. apply Hl'.
  - by eapply no_more_insert; [| |apply Hl'].
  - intros t' m' Hf'. left. eauto.
Qed.

(** The wait is over without the lock. *)
Lemma unwait_ok s F b p a own' pt :
  proc_ok H s F b p -> plain (at_point b) = true -> (forall k, lockAwaited b = Some k -> granted_asleep s b p k = false) -> a = None -> links (allProcs s p) = false ->
  plain pt = true -> point_ok H s F (with_point (with_wait b a own') pt) p pt -> proc_ok H s F (with_point (with_wait b a own') pt) p.
Proof.
  intros P Hpl Hg -> Hk Hpt Hok. pose proof (plain_table _ _ _ _ _ P Hpl) as ok. destruct P as [P1 P2 P3 P4 P5 P6]. constructor; try done.
  - apply plain_table_ok; [by destruct ok; constructor|done].
  - intros t m. rewrite (view_same s s F F b _ p t m); try done.
    + unfold granted_asleep in *. cbn. rewrite (bool_decide_eq_false_2 (None = _)) by done. cbn. symmetry. case_bool_decide as E; [|done]. by rewrite <- (Hg (t, m) E), bool_decide_eq_true_2.
    + by apply releasing_point.
    + by apply releasing_point.
Qed.

Lemma sleeping x p r :
  proc_ok H (shared x) (fast x p) (backend_of x p) p -> at_of x p = AtSleep r ->
  plain (at_point (backend_of x p)) = true /\ lockAwaited (backend_of x p) = Some (q_key r) /\ unmarked (backend_of x p) /\
  StrongLockInProgress (backend_of x p) = in_progress r /\ (forall r i, at_of x p <> AtTransfer r i).
Proof. intros P Hat. pose proof (pk_point _ _ _ _ _ P) as Hp. unfold at_of in *. rewrite Hat in *. destruct Hp as (H1 & H2 & H3). by split_and!. Qed.

Lemma in_progress_key r k : in_progress r = Some k -> k = q_key r.
Proof. unfold in_progress. destruct (strong _ _); congruence. Qed.

(** A process in a queue has the status of one. *)
Lemma queued_status s p : lmgr_ok s -> waitStatus (allProcs s p) <> STATUS_WAITING -> links (allProcs s p) = false.
Proof.
  intros ok Hs. destruct (links (allProcs s p)) eqn:E; [|done]. destruct (queued_at s p ok E) as (t & L & _ & HL & Hp).
  by destruct (lc_waiters _ _ _ (lk_queue _ _ _ (ok_locks _ ok t L HL)) p Hp) as ([] & _).
Qed.

Lemma wake_step_ok x p r :
  lmgr_ok (shared x) -> proc_ok H (shared x) (fast x p) (backend_of x p) p -> at_of x p = AtSleep r -> waitStatus (allProcs (shared x) p) <> STATUS_WAITING ->
  exists x', wake_step x p r = Ret x' /\ own x x' p.
Proof.
  intros ok P Hat Hst. destruct (sleeping x p r P Hat) as (Hpl & Ha & Hu & Hpr & Hnt). pose proof (queued_status _ _ ok Hst) as Hk. unfold wake_step. set (b := backend_of x p) in *.
  destruct (Z.eqb_spec (waitStatus (allProcs (shared x) p)) STATUS_OK) as [Hok|Hno].
  - destruct (awaited_grant _ _ _ _ _ _ P Ha Hk Hok) as (Hh & Hf & He & Hs & owner & Ho). unfold GrantAwaitedLock. cbn [awaited with_wait]. rewrite Ho. cbn [deref cbind]. set (b1 := with_wait b None _).
    assert (locals_ok b1) as ok1 by (by destruct (plain_table _ _ _ _ _ P Hpl); constructor).
    destruct (grant_awaited_ok b1 (q_key r) owner ok1 He Hs) as (b2 & l & l' & _ & _ & E & _ & HL & [R1 R2 R3 R4 R5 R6] & Hl'). unfold q_key in E. rewrite E. cbn [cbind].
    pose proof Hh as Hm. unfold holds in Hm. destruct (ProcLockHash (shared x) !! (q_tag r, p)) as [pl|] eqn:Epl; [|done]. cbn [deref cbind].
    destruct (vk_key _ _ _ _ (pk_view _ _ _ _ _ P (q_tag r) (q_mode r))) as (_ & Hmode%bad_lock_mode); [cbn; apply bool_decide_eq_true, He|]. rewrite land_bit, Hm by (by apply is_mode_nonneg). cbn [negb].
    eexists. split; [done|]. set (pt := Outside _).
    apply (own_counted x _ p (q_tag r) (q_mode r) b1 b2 owner pt P Hpl Hnt Hu Ha Hk Hok) with (b2 := FinishStrongLockAcquire (with_wait b2 None None)); try done.
    + intros k. fold b; rewrite Hpr. by intros ->%in_progress_key.
    + apply effect_refl.
    + cbn. intros Hn Hs2. split; [unfold quiet, unmarked; cbn; by rewrite R5|]. split; [done|]. intros Es. change (strong_of (with_point ?b0 ?pt0)) with (strong_of b0). unfold q_key. rewrite Hs2.
      apply (progress_strong _ _ _ _ _ P). fold b. rewrite Hpr. unfold in_progress. by rewrite Es.
  - eexists. split; [done|]. set (b1 := with_wait _ None None).
    apply (own_local _ _ _ _ x _ p (fast x p) (with_point b1 AtError)); try done; [by eapply effect_backend; [apply effect_refl|]| |by apply no_more_refl].
    apply (unwait_ok (shared x) (fast x p) b p None None AtError); try done. intros k _. unfold granted_asleep. apply Z.eqb_neq in Hno. by rewrite Hno, andb_false_r.
Qed.

(** ** Giving up *)

Lemma gave_up_own s s' F b p t Q : proc_ok H s F b p -> links (allProcs s p) = true -> gave_up s s' t Q p -> proc_ok H s' F b p.
Proof.
  intros P Hk G. destruct (awaited_not_held _ _ _ _ _ P Hk) as (t0 & m0 & _ & _ & Ha & _). destruct (awaiting_point _ _ _ _ _ _ P Ha) as (_ & Hpt).
  destruct (gu_proc _ _ _ _ _ G) as (Hst & Hk'). assert (forall t' m, holds s' t' p m = holds s t' p m) as Hh.
  { intros t' m. destruct (decide (t' = t)) as [->|]; [apply (gu_own _ _ _ _ _ G)|by apply (frame_holds _ _ _ (gu_frame _ _ _ _ _ G))]. }
  destruct P as [P1 P2 P3 P4 P5 P6]. constructor; try done.
  - intros t' m. rewrite (view_same s s' F F b b p t' m); try done. unfold granted_asleep. by rewrite Hk, Hst, !andb_false_r.
  - unfold wait_ok in *. rewrite Ha in *. destruct P5 as (W1 & W2 & W3 & _). split_and!; [done|done|done|]. right. by rewrite Hst.
  - unfold point_ok in *. by destruct (at_point b).
Qed.

Lemma timeout_ok x p r possible0 :
  lmgr_ok (shared x) -> searchable MaxBackends (shared x) [] U -> leader_of (shared x) p ∈ U -> proc_ok H (shared x) (fast x p) (backend_of x p) p ->
  at_of x p = AtSleep r -> zlen possible0 = maxPossibleConstraints MaxBackends ->
  exists s' v, CheckDeadLock MaxBackends vacuumFlags (shared x) p possible0 = Ret (s', v) /\ own x (set_shared x s') p.
Proof.
  intros ok se HU' P Hat Hlen. destruct (sleeping x p r P Hat) as (Hpl & Ha & Hu & Hpr & Hnt).
  destruct (CheckDeadLock_ok MaxBackends vacuumFlags (shared x) U p possible0 ok se HU' Hlen) as (s' & v & E & ok' & Hv). exists s', v. split; [done|].
  assert (rtc (lock_step MaxBackends vacuumFlags U) (shared x) s') as Hstep.
  { destruct (links (allProcs (shared x) p)) eqn:Hk; [apply rtc_once; by eapply step_timeout|]. unfold CheckDeadLock in E. rewrite Hk in E. cbn in E. by injection E as <- _. }
  assert ((forall q, q <> p -> bystander (shared x) s' q) /\ no_new_conflicts (shared x) s' /\ proc_ok H s' (fast x p) (backend_of x p) p) as (Hby & Hnc & P').
  { destruct v.
    - destruct Hv as (_ & ->). auto using bystander_refl, no_new_conflicts_refl.
    - destruct Hv as (-> & _). auto using bystander_refl, no_new_conflicts_refl.
    - destruct Hv as (_ & W & _). split_and!; [intros; apply W|apply W|]. eapply bystander_ok; [apply W|done].
    - destruct Hv as (_ & t & L & Ht & _ & G). split_and!; [apply G|apply G|]. eapply gave_up_own; [done| |exact G].
      destruct (links (allProcs (shared x) p)) eqn:Hk; [done|]. by rewrite (ln_idle _ (ok_links _ ok) p Hk) in Ht.
    - destruct Hv as (-> & _). auto using bystander_refl, no_new_conflicts_refl. }
  apply (own_quiet _ _ _ _ x _ p s' (fast x p) (backend_of x p)); try done; [eapply effect_shared, effect_refl|by apply no_more_refl| |intros t m Hf; left; eauto].
  unfold at_of in Hat. by rewrite Hat.
Qed.

(** A cancel request ends the sleep. *)
Lemma interrupt_ok x p r : proc_ok H (shared x) (fast x p) (backend_of x p) p -> at_of x p = AtSleep r -> own x (goto x p AtError) p.
Proof.
  intros P Hat. destruct (sleeping x p r P Hat) as (Hpl & Ha & Hu & Hpr & Hnt).
  apply (own_local _ _ _ _ x _ p (fast x p) (with_point (backend_of x p) AtError)); try done; [apply effect_goto, effect_refl|by apply proc_point|by apply no_more_refl].
Qed.

Lemma aborted_no_more s F b p s0 pt : proc_ok H s F b p -> no_more s0 p b (with_point (aborted b) pt).
Proof.
  intros P. pose proof (aborted_entry _ _ _ _ _ P) as Hab. constructor; [intros t m ?; left; by apply (Hab (t, m))|]. intros k Hk. destruct (Hab k) as (_ & _ & _ & Es).
  change (strong_of (with_point ?b0 ?pt0)) with (strong_of b0) in Hk. rewrite Es in Hk. by apply andb_true_iff in Hk as (? & _).
Qed.

Lemma cleanup_begin_ok x p : proc_ok H (shared x) (fast x p) (backend_of x p) p -> counts_bounded H x p -> at_of x p = AtError -> exists x', cleanup_begin H x p = Ret x' /\ own x x' p.
Proof.
  intros P Hb Hat. unfold at_of in Hat. pose proof (pk_point _ _ _ _ _ P) as Hu. rewrite Hat in Hu. unfold cleanup_begin.
  destruct (AbortStrongLockAcquire_effect H x x p _ _ _ (effect_refl H x p) Hb) as (x2 & -> & E2 & Hb2); [exact (progress_strong _ _ _ _ _ P)|]. cbn [cbind]. eexists. split; [done|].
  destruct (aborted_rest _ _ _ _ _ P) as (R1 & R2 & R3 & R4 & R5).
  apply (own_local _ _ _ _ x _ p (fast x p) (with_point (aborted (backend_of x p)) AtCleanup)); try done; [by apply effect_goto| |by eapply aborted_no_more|intros r i; unfold at_of; congruence].
  apply proc_aborted; try done; [by rewrite Hat|]. cbn. split; [|done]. intros t. cbn. by rewrite R4.
Qed.

Lemma cleanup_end_ok x p :
  lmgr_ok (shared x) -> proc_ok H (shared x) (fast x p) (backend_of x p) p -> at_of x p = AtCleanup -> exists x', cleanup_end x p = Ret x' /\ own x x' p.
Proof.
  intros ok P Hat. unfold at_of in Hat. pose proof (pk_point _ _ _ _ _ P) as Hp. rewrite Hat in Hp. destruct Hp as (Hu & Hsp). unfold cleanup_end. set (b := backend_of x p) in *.
  assert (plain (at_point b) = true) as Hpl by (by rewrite Hat). assert (forall r i, at_of x p <> AtTransfer r i) as Hnt by (intros r i; unfold at_of; fold b; congruence).
  destruct (lockAwaited b) as [[t m]|] eqn:Ha.
  2:{ eexists. split; [done|]. apply (own_local _ _ _ _ x _ p (fast x p) (with_point b (Outside CleanedUp))); try done; [apply effect_goto, effect_refl| |by apply no_more_refl]. by apply proc_point. }
  assert (forall s', rtc (lock_step MaxBackends vacuumFlags U) (shared x) s' -> (forall q, q <> p -> bystander (shared x) s' q) -> no_new_conflicts (shared x) s' ->
    proc_ok H s' (fast x p) b p -> links (allProcs s' p) = false -> waitStatus (allProcs s' p) <> STATUS_OK ->
    own x (set_backend (set_shared x s') p (with_point (with_wait b None (awaited b)) (Outside CleanedUp))) p) as Hdone.
  { intros s' Hs Hby Hnc P' Hk Hst. apply (own_quiet _ _ _ _ x _ p s' (fast x p) (with_point (with_wait b None (awaited b)) (Outside CleanedUp))); try done.
    - by eapply effect_backend; [eapply effect_shared, effect_refl|].
    - apply unwait_ok; try done. intros k _. unfold granted_asleep. apply Z.eqb_neq in Hst. by rewrite Hst, andb_false_r.
    - by apply no_more_refl.
    - intros t' m' Hf. left. eauto. }
  destruct (links (allProcs (shared x) p)) eqn:Hk; [|destruct (Z.eqb_spec (waitStatus (allProcs (shared x) p)) STATUS_OK) as [Hst|Hst]].
  - destruct (give_up_ok (shared x) p ok Hk) as (t' & L & s' & Ht' & HL & E & ok' & G). rewrite E. cbn [cbind]. eexists. split; [done|]. destruct (gu_proc _ _ _ _ _ G) as (Hst & Hk').
    apply Hdone; [apply rtc_once; by eapply step_cancel|apply G|apply G|by eapply gave_up_own|done|by rewrite Hst].
  - destruct (awaited_grant _ _ _ _ _ _ P Ha Hk Hst) as (Hh & Hf & He & Hs & owner & Ho). unfold GrantAwaitedLock. rewrite Ho. cbn [deref cbind].
    destruct (grant_awaited_ok b (t, m) owner (plain_table _ _ _ _ _ P Hpl) He Hs) as (b2 & l & l' & _ & _ & E & _ & HL & [R1 R2 R3 R4 R5 R6] & Hl'). rewrite E. cbn [cbind]. eexists. split; [done|].
    apply (own_counted x (set_shared x (shared x)) p t m b b2 owner (Outside CleanedUp) P Hpl Hnt Hu Ha Hk Hst) with (b2 := with_wait b2 None (awaited b2)); try done.
    + intros k. fold b. by rewrite Hsp.
    + cbn. by rewrite R2.
    + eapply effect_shared, effect_refl.
    + intros _ _. cbn. split; [|done]. unfold quiet, unmarked. cbn. by rewrite R2, R5.
  - eexists. split; [done|]. apply Hdone; auto using bystander_refl, no_new_conflicts_refl, rtc_refl.
Qed.
End wait.
