(* ===== verification/LockOwnRelease.v ===== *)
(** * Heavyweight locks: the steps of a release

    [LockRelease], [LockReleaseOwner] and [LockReassignOwner] as they call it, and the
    entries marked clear. *)
From stdpp Require Import list gmap functions relations.
From S2P Require Import Prelude LockModes LockTable LockInvariant LockOps LockRequests LockSleep Deadlock DeadlockVerdict LockSystem LockBackend LockFastPath LockLocal LockCounts LockSession LockOwn LockOwnViews LockOwnAcquire LockOwnWait.

(** A lock in a slot is one the fast path is for. *)
Lemma fastheld_eligible F t m : fastheld F t m = true -> EligibleForRelationFastPath (databaseId F) t m = true /\ weak_mode m.
Proof.
  intros ((E & Hdb)%fast_tag_spec & Hb)%andb_true_iff. apply fast_bit_spec in Hb as (Hm & _). split; [|done]. unfold EligibleForRelationFastPath. rewrite E. cbn. rewrite Z.eqb_refl. cbn.
  apply Z.eqb_neq in Hdb. rewrite Hdb. cbn. apply Z.ltb_lt. unfold weak_mode in Hm. unfold ShareUpdateExclusiveLock. lia.
Qed.

(** No slot in use: no lock. *)
Lemma fastheld_used F t m : fastheld F t m = true -> 0 < used_count F.
Proof.
  intros (_ & (Hm & f & Hf & _ & Hb)%fast_bit_spec)%andb_true_iff. unfold used_count. apply countb_pos. exists f. split; [done|]. apply elem_of_fast_slots in Hf. eapply bit_used; [lia|done|done].
Qed.

Section release.
Context (H : LOCKTAG -> Z) (allProcCount MaxBackends : Z) (vacuumFlags : Z -> Z) (U : list Z).
Notation part := (FastPathStrongLockHashPartition H).
Notation own x x' p := (own_step H MaxBackends vacuumFlags U x x' p).

(** Trying the slots first: what is left of them and where the lock is. *)
Lemma ungrant_fast F t m :
  fast_ok F -> EligibleForRelationFastPath (databaseId F) t m = true -> tag_ok t -> is_mode m ->
  exists F', FastPathUnGrantRelationLock F (locktag_field2 t) m = Ret (F', used_count F', fastheld F t m) /\ fast_ok F' /\ databaseId F' = databaseId F /\
    (forall t' m', fastheld F' t' m' = fastheld F t' m' && negb (bool_decide ((t', m') = (t, m)))).
Proof.
  intros HF Hel Ht Hm. destruct (eligible_tag F t m Hel Ht) as (Htag & Hm4). assert (weak_mode m) as Hw by (unfold weak_mode, is_mode in *; lia).
  destruct (FastPathUnGrantRelationLock_ok F (locktag_field2 t) m HF Hw) as (F' & E & HF' & Edb & Hr). exists F'. unfold fastheld at 1. rewrite Htag. split_and!; try done.
  intros t' m'. by apply fastheld_removed.
Qed.

(** The entry counts nothing any more and the lock is next to be released. *)
Lemma released_entry_ok s F F' b b' p t m l l' :
  proc_ok H s F b p -> plain (at_point b) = true -> quiet b -> LocalHash b !! (t, m) = Some l -> 0 < nLocks l -> holds s t p m = true -> fastheld F t m = false ->
  fast_ok F' -> used_count F' <= FastPathLocalUseCount b' -> databaseId F' = databaseId F -> (forall t' m', fastheld F' t' m' = fastheld F t' m') ->
  locals_ok b' -> LocalHash b' = <[(t, m) := l']> (LocalHash b) -> same_flags l l' -> nLocks l' = 0 ->
  lockAwaited b' = None -> StrongLockInProgress b' = None -> releaseMask b' = releaseMask b -> proc_ok H s F' (with_point b' (AtRelease (t, m))) p.
Proof.
  intros P Hpl Q Hl Hn Hh Hf HF Hu Edb Hfs ok' HL (S1 & S2) Hz R3 R2 R5. destruct Q as (Q1 & Q2 & Q3). pose proof (pk_view _ _ _ _ _ P t m) as V.
  apply (proc_focus H s F b p s F' _ t m); try done.
  - intros k _. by apply plain_no_release.
  - intros k Hne. unfold releasing, removing. cbn. by rewrite bool_decide_eq_false_2.
  - exact (locals_with_point b' _ ok').
  - intros t' m' Hne. unfold alone, granted_asleep. cbn. rewrite R2, R3, R5, Q1, Q2, Hfs. split_and!; try done. apply same_entry_lookup. cbn. by rewrite HL, lookup_insert_ne.
  - destruct V as [V1 V2 V3 V4 V5 V6 V7 V8]. cbn in V1, V4, V5. unfold nlocks_of, shared_of, strong_of in V4, V5. rewrite Hl in V1, V4, V5.
    constructor; cbn; unfold nlocks_of, shared_of, strong_of, granted_asleep, releasing, removing; cbn; rewrite ?HL, ?lookup_insert_eq, ?R2, ?R3, ?R5, ?Q3, ?Z.bits_0, ?Hfs, ?Hf, ?Hh, ?Hz, ?S1, ?S2; cbn; try done.
    + by rewrite (bool_decide_eq_false_2 (None = _)), bool_decide_eq_true_2 by done.
    + intros _. destruct (ll_shared l) eqn:E; [done|]. apply V4. apply Z.ltb_lt in Hn. by rewrite Hn.
    + intros E. rewrite (bool_decide_eq_true_2 ((t, m) = _)) by done. split; [by apply V5|]. by rewrite orb_true_r.
  - unfold wait_ok. cbn. rewrite R3. pose proof (pk_wait _ _ _ _ _ P) as W. unfold wait_ok in W. by rewrite Q1 in W.
  - cbn. split; [by unfold quiet, unmarked; cbn; rewrite R2, R3, R5|]. split; [|done]. unfold entry_empty, nlocks_of. cbn. rewrite HL, lookup_insert_eq. eauto.
Qed.

Lemma outside x p res :
  proc_ok H (shared x) (fast x p) (backend_of x p) p -> at_of x p = Outside res ->
  plain (at_point (backend_of x p)) = true /\ quiet (backend_of x p) /\ (forall r i, at_of x p <> AtTransfer r i).
Proof. intros P Hat. pose proof (pk_point _ _ _ _ _ P) as Hp. unfold at_of in *. rewrite Hat in *. by destruct Hp. Qed.

Lemma outside_goto x p res r :
  proc_ok H (shared x) (fast x p) (backend_of x p) p -> at_of x p = Outside res -> result_ok (with_point (backend_of x p) (Outside r)) r -> own x (goto x p (Outside r)) p.
Proof.
  intros P Hat Hr. destruct (outside x p res P Hat) as (Hpl & Q & Hnt).
  apply (own_local _ _ _ _ x _ p (fast x p) (with_point (backend_of x p) (Outside r))); try done; [apply effect_goto, effect_refl|by apply proc_point|by apply no_more_refl].
Qed.

(** An entry changes outside of any call, as others see it not at all. *)
Lemma outside_entry x x' p res b' k l l' r :
  proc_ok H (shared x) (fast x p) (backend_of x p) p -> at_of x p = Outside res -> LocalHash (backend_of x p) !! k = Some l ->
  locals_ok b' -> LocalHash b' = <[k := l']> (LocalHash (backend_of x p)) -> same_rest (backend_of x p) b' -> same_flags l l' -> (0 <? nLocks l') = (0 <? nLocks l) ->
  result_ok (with_point b' (Outside r)) r -> effect H x x' p (shared x) (fast x p) (with_point b' (Outside r)) -> own x x' p.
Proof.
  intros P Hat Hl ok' HL R Hfl Hpos Hr E. destruct (outside x p res P Hat) as (Hpl & Q & Hnt).
  apply (own_local _ _ _ _ x _ p (fast x p) (with_point b' (Outside r))); try done.
  - apply (proc_same H (shared x) (fast x p) (backend_of x p) p P Hpl b'); try done; [intros k'; by eapply same_entry_insert|]. split; [by eapply quiet_same|done].
  - eapply no_more_insert; [done|exact HL|apply Hfl].
Qed.

Lemma entry_effect x p b' k l l' :
  LocalHash (backend_of x p) !! k = Some l -> LocalHash b' = <[k := l']> (LocalHash (backend_of x p)) -> holdsStrongLockCount l' = holdsStrongLockCount l ->
  effect H x (set_backend x p b') p (shared x) (fast x p) b' /\ forall h, strong_in H (LocalHash b') h = strong_in H (LocalHash (backend_of x p)) h.
Proof.
  intros Hl HL Hs. assert (forall h, strong_in H (LocalHash b') h = strong_in H (LocalHash (backend_of x p)) h) as Hc by (intros h; rewrite HL; apply strong_in_same; by rewrite Hl).
  split; [|done]. eapply effect_backend; [apply effect_refl|done].
Qed.

(** The last lock an entry counts, when it is not in a slot. *)
Lemma release_begin_shared x x1 p t m l l' b1 F1 res :
  proc_ok H (shared x) (fast x p) (backend_of x p) p -> at_of x p = Outside res -> LocalHash (backend_of x p) !! (t, m) = Some l -> 0 < nLocks l -> fastheld (fast x p) t m = false ->
  effect H x x1 p (shared x) F1 b1 -> fast_ok F1 -> used_count F1 <= FastPathLocalUseCount b1 -> databaseId F1 = databaseId (fast x p) ->
  (forall t' m', fastheld F1 t' m' = fastheld (fast x p) t' m') -> locals_ok b1 -> LocalHash b1 = <[(t, m) := l']> (LocalHash (backend_of x p)) -> same_flags l l' -> nLocks l' = 0 ->
  lockAwaited b1 = None /\ StrongLockInProgress b1 = None /\ releaseMask b1 = releaseMask (backend_of x p) -> own x (goto x1 p (AtRelease (t, m))) p.
Proof.
  intros P Hat Hl Hn Hf E HF Hu Edb Hfs ok1 HL Hfl Hz (R1 & R2 & R3). destruct (outside x p res P Hat) as (Hpl & Q & Hnt).
  pose proof (quiet_view _ _ _ _ _ P Hpl t m Q) as V. rewrite Hf, orb_false_r in V. unfold nlocks_of in V. rewrite Hl in V.
  apply (own_local _ _ _ _ x _ p F1 (with_point b1 (AtRelease (t, m)))); try done.
  - by apply effect_goto.
  - eapply (released_entry_ok (shared x) (fast x p) F1 (backend_of x p) b1 p t m l l'); try done. rewrite V. by apply Z.ltb_lt.
  - eapply no_more_insert; [done|exact HL|apply Hfl].
  - intros t' m'. by rewrite Hfs.
Qed.

(** The last lock an entry counts, in a slot. *)
Lemma release_begin_fast x x1 p t m l l' b1 F1 res :
  proc_ok H (shared x) (fast x p) (backend_of x p) p -> at_of x p = Outside res -> LocalHash (backend_of x p) !! (t, m) = Some l -> fastheld (fast x p) t m = true ->
  effect H x x1 p (shared x) F1 b1 -> counts_bounded H x1 p -> fast_ok F1 -> used_count F1 <= FastPathLocalUseCount b1 -> databaseId F1 = databaseId (fast x p) ->
  (forall t' m', fastheld F1 t' m' = fastheld (fast x p) t' m' && negb (bool_decide ((t', m') = (t, m)))) -> locals_ok b1 -> LocalHash b1 = <[(t, m) := l']> (LocalHash (backend_of x p)) ->
  same_flags l l' -> lockAwaited b1 = None /\ StrongLockInProgress b1 = None /\ releaseMask b1 = releaseMask (backend_of x p) ->
  exists x2, (let* x := RemoveLocalLock H x1 p (t, m) in Ret (goto x p (Outside (Released (t, m) true)))) = Ret x2 /\ own x x2 p.
Proof.
  intros P Hat Hl Hf E Hb HF Hu Edb Hfs ok1 HL Hfl (R1 & R2 & R3). destruct (outside x p res P Hat) as (Hpl & Q & Hnt). assert (LocalHash b1 !! (t, m) = Some l') as Hl1 by (by rewrite HL, lookup_insert_eq).
  destruct (RemoveLocalLock_effect H x x1 p _ F1 b1 (t, m) l' E Hb Hl1 (locals_ok_but _ _ _ ok1 Hl1)) as (x3 & b3 & -> & E3 & Hb3 & ok3 & HL3 & [S1 S2 S3 S4 S5 S6]). cbn [cbind]. eexists. split; [done|].
  assert (LocalHash b3 = delete (t, m) (LocalHash (backend_of x p))) as HL' by (rewrite HL3, HL; by rewrite delete_insert_eq).
  apply (own_local _ _ _ _ x _ p F1 (with_point b3 (Outside (Released (t, m) true)))); try done.
  - by apply effect_goto.
  - destruct Q as (Q1 & Q2 & Q3). pose proof (vk_apart _ _ _ _ (pk_view _ _ _ _ _ P t m) Hf) as Hnh. cbn in Hnh.
    apply (proc_key H (shared x) (fast x p) (backend_of x p) p P Hpl (shared x) F1 b3 _ t m); try done.
    + by rewrite S1.
    + intros t' m' Hne. unfold alone, granted_asleep. rewrite S2, S3, S5, R1, R2, R3, Q1, Q2, Hfs, (bool_decide_eq_false_2 _ Hne), andb_true_r. split_and!; try done. apply same_entry_lookup. by rewrite HL', lookup_delete_ne.
    + assert (fastheld F1 t m = false) as Hf1 by (by rewrite Hfs, bool_decide_eq_true_2, andb_false_r).
      apply view_gone; cbn; unfold granted_asleep; cbn; rewrite ?Hnh, ?Hf1, ?S2, ?S3, ?S5, ?R1, ?R2, ?R3, ?Q3, ?Z.bits_0; first [done|by rewrite HL', lookup_delete_eq|by rewrite bool_decide_eq_false_2].
    + unfold wait_ok. rewrite S3, R1. pose proof (pk_wait _ _ _ _ _ P) as W. unfold wait_ok in W. by rewrite Q1 in W.
    + split; [|done]. unfold quiet, unmarked. cbn. rewrite S2, S3, S5, R1, R2, R3. done.
  - by eapply no_more_delete.
  - intros t' m'. rewrite Hfs. by intros (? & _)%andb_true_iff.
Qed.

Lemma release_begin_ok x p k owner res :
  proc_ok H (shared x) (fast x p) (backend_of x p) p -> counts_bounded H x p -> at_of x p = Outside res ->
  if bad_lock (fst k) (snd k) then exists e, release_begin H x p k owner = Elog e else exists x', release_begin H x p k owner = Ret x' /\ own x x' p.
Proof.
  intros P Hb Hat. destruct k as [t m]. cbn [fst snd]. destruct (bad_lock t m) eqn:Ebad; unfold release_begin.
  { unfold bad_lock in Ebad. destruct (_ || (lengthof_LockMethods <=? _)); cbn [orb] in *; [eauto|]. rewrite Ebad. eauto. }
  unfold bad_lock in Ebad. rewrite !orb_false_iff in Ebad. destruct Ebad as (((-> & ->) & ->) & ->). cbn [orb].
  destruct (outside x p res P Hat) as (Hpl & Q & Hnt). pose proof (plain_table _ _ _ _ _ P Hpl) as ok. set (b := backend_of x p) in *.
  assert (own x (goto x p (Outside (Released (t, m) false))) p) as Hno by (by eapply outside_goto). destruct (LocalHash b !! (t, m)) as [l|] eqn:Hl; [|eauto].
  destruct (Z.leb_spec (nLocks l) 0) as [|Hn]; [eauto|]. destruct (unown_ok b (t, m) l owner ok Hl) as [(-> & _)|(b0 & owners & -> & HL0 & R0 & _ & ok1)]; cbn [cbind]; [eauto|].
  set (l1 := ll_count l (nLocks l - 1) owners _). set (b1 := put_local b0 (t, m) l1). specialize (ok1 (if nLocks l - 1 <=? 0 then false else lockCleared l)). fold l1 b1 in ok1.
  assert (LocalHash b1 = <[(t, m) := l1]> (LocalHash b)) as HL1 by (cbn; by rewrite HL0). destruct (entry_effect x p b1 (t, m) l l1 Hl HL1 eq_refl) as (E1 & Hc1).
  assert (same_rest b b1) as R1 by (by destruct R0). destruct (Z.leb_spec (nLocks l - 1) 0) as [Hlast|Hlast]; cbn [negb].
  2:{ eexists. split; [done|]. apply (outside_entry x _ p res b1 (t, m) l l1 (Released (t, m) true)); try done; [cbn; destruct (Z.ltb_spec 0 (nLocks l - 1)), (Z.ltb_spec 0 (nLocks l)); lia|by apply effect_goto]. }
  assert (counts_bounded H (set_backend x p b1) p) as Hb1 by (by eapply bounded_effect). destruct R1 as [R1 R2 R3 R4 R5 R6]. destruct (Q) as (Q1 & Q2 & Q3).
  assert (lockAwaited b1 = None /\ StrongLockInProgress b1 = None /\ releaseMask b1 = releaseMask b) as Hrest by (split_and!; congruence).
  assert (nLocks l1 = 0) as Hz by (cbn; lia). rewrite (ef_fast _ _ _ _ _ _ _ E1). destruct (vk_key _ _ _ _ (pk_view _ _ _ _ _ P t m)) as (Ht & Hm%bad_lock_mode); [cbn; apply bool_decide_eq_true; fold b; eauto|].
  destruct (EligibleForRelationFastPath (databaseId (fast x p)) t m && (0 <? FastPathLocalUseCount b1)) eqn:Eel; cbn [cbind].
  - apply andb_true_iff in Eel as (Eel & _). destruct (ungrant_fast (fast x p) t m (pk_fast _ _ _ _ _ P) Eel Ht Hm) as (F' & -> & HF' & Edb & Hfs). cbn [cbind]. set (b2 := with_useCount b1 _).
    assert (effect H x (set_backend (set_fast (set_backend x p b1) p F') p b2) p (shared x) F' b2) as E2 by (eapply effect_backend; [eapply effect_fast, E1|done]).
    assert (locals_ok b2) as ok2 by (by destruct ok1; constructor). destruct (fastheld (fast x p) t m) eqn:Ef.
    + apply (release_begin_fast x _ p t m l l1 b2 F' res P Hat Hl Ef E2); try done. by eapply bounded_effect.
    + eexists. split; [done|]. apply (release_begin_shared x _ p t m l l1 b2 F' res P Hat Hl Hn Ef E2); try done.
      intros t' m'. rewrite Hfs. case_bool_decide as Ek; cbn; [injection Ek as -> ->; by rewrite Ef|by rewrite andb_true_r].
  - eexists. split; [done|]. assert (fastheld (fast x p) t m = false) as Ef.
    { destruct (fastheld (fast x p) t m) eqn:Ef; [|done]. destruct (fastheld_eligible _ _ _ Ef) as (Eel' & _). rewrite Eel' in Eel. apply Z.ltb_ge in Eel. pose proof (fastheld_used _ _ _ Ef). pose proof (pk_use _ _ _ _ _ P) as Hu. fold b in Hu. lia. }
    eapply (release_begin_shared x _ p t m l l1 b1 (fast x p) res P Hat Hl Hn Ef E1); try done; [apply P|rewrite R1; apply P].
Qed.

(** ** The shared table *)

(** One's own holdings after a release. *)
Lemma released_own s s' t L p m :
  lmgr_ok s -> links (allProcs s p) = false -> LockHash s !! t = Some L -> released s s' t (waitProcs L) p m ->
  allProcs s' p = allProcs s p /\ forall t' m', holds s' t' p m' = holds s t' p m' && negb (bool_decide ((t', m') = (t, m))).
Proof.
  intros ok Hk HL R. assert (p ∉ waitProcs L) as Hn by (intros Hin; pose proof (queue_links s t L p ok HL Hin); congruence). split; [by apply (re_procs _ _ _ _ _ _ R)|]. intros t' m'.
  destruct (decide (t' = t)) as [->|Hne]; [|rewrite (frame_holds _ _ _ (re_frame _ _ _ _ _ _ R)), bool_decide_eq_false_2 by congruence; by rewrite andb_true_r].
  destruct (decide (m' = m)) as [->|Hne]; [rewrite bool_decide_eq_true_2, andb_false_r by done; apply (re_gone _ _ _ _ _ _ R)|]. rewrite bool_decide_eq_false_2, andb_true_r by congruence.
  apply eq_true_iff_eq. split; [|intros Hh; apply (re_holds _ _ _ _ _ _ R); [done|congruence]]. intros [?|(? & _)]%(re_new _ _ _ _ _ _ R); [done|done].
Qed.

Lemma refind_ok s p t m : lmgr_ok s -> holds s t p m = true -> refind s p t = Ret tt.
Proof.
  intros ok Hh. unfold refind, holds in *. destruct (ProcLockHash s !! (t, p)) eqn:E; [|done]. destruct (ok_dom _ ok t p) as [L ->]; [eauto|done].
Qed.

Lemma held_not_fast s F b p t m : proc_ok H s F b p -> holds s t p m = true -> fastheld F t m = false.
Proof. intros P Hh. pose proof (vk_apart _ _ _ _ (pk_view _ _ _ _ _ P t m)) as V. cbn in V. destruct (fastheld F t m); [|done]. specialize (V eq_refl). congruence. Qed.

Lemma removing_ok s s' F b b1 p t m l l1 :
  proc_ok H s F b p -> at_point b = AtRelease (t, m) -> LocalHash b !! (t, m) = Some l -> locals_ok b1 -> LocalHash b1 = <[(t, m) := l1]> (LocalHash b) -> nLocks l1 = 0 ->
  holdsStrongLockCount l1 = holdsStrongLockCount l -> same_rest b b1 -> allProcs s' p = allProcs s p ->
  (forall t' m', holds s' t' p m' = holds s t' p m' && negb (bool_decide ((t', m') = (t, m)))) -> proc_ok H s' F (with_point b1 (AtRemove (t, m))) p.
Proof.
  intros P Hat Hl ok1 HL Hz Hs [R1 R2 R3 R4 R5 R6] Hp Hh. pose proof (pk_point _ _ _ _ _ P) as Hpt. rewrite Hat in Hpt. destruct Hpt as ((Q1 & Q2 & Q3) & _ & Hheld). cbn in Hheld.
  pose proof (held_not_fast _ _ _ _ _ _ P Hheld) as Hf. assert (holds s' t p m = false) as Hgone by (by rewrite Hh, bool_decide_eq_true_2, andb_false_r).
  apply (proc_focus H s F b p s' F _ t m); try done; [| | |apply P|cbn; rewrite R1; apply P| | | |].
  - intros k Hne. unfold releasing, removing. rewrite Hat. by rewrite bool_decide_eq_false_2.
  - intros k Hne. unfold releasing, removing. cbn. by rewrite bool_decide_eq_false_2.
  - exact (locals_with_point b1 _ ok1).
  - intros t' m' Hne. unfold alone, granted_asleep. cbn. rewrite R2, R3, R5, Q1, Q2, Hh, (bool_decide_eq_false_2 _ Hne), andb_true_r. split_and!; try done. apply same_entry_lookup. cbn. by rewrite HL, lookup_insert_ne.
  - destruct (pk_view _ _ _ _ _ P t m) as [V1 V2 V3 V4 V5 V6 V7 V8]. cbn in V1, V5. unfold strong_of in V5. rewrite Hl in V1, V5.
    constructor; cbn; unfold nlocks_of, shared_of, strong_of, granted_asleep, releasing, removing; cbn; rewrite ?HL, ?lookup_insert_eq, ?R2, ?R3, ?R5, ?Q3, ?Q2, ?Q1, ?Z.bits_0, ?Hf, ?Hgone, ?Hz, ?Hs; cbn; try done.
    intros E. rewrite (bool_decide_eq_true_2 ((t, m) = _)) by done. split; [by apply V5|]. by rewrite orb_true_r.
  - unfold wait_ok. cbn. rewrite R3, Hp. pose proof (pk_wait _ _ _ _ _ P) as W. unfold wait_ok in W. by rewrite Q1 in *.
  - cbn. split; [by unfold quiet, unmarked; cbn; rewrite R2, R3, R5|]. unfold entry_empty, nlocks_of. cbn. rewrite HL, lookup_insert_eq. eauto.
Qed.

Lemma release_step_ok x p k :
  lmgr_ok (shared x) -> proc_ok H (shared x) (fast x p) (backend_of x p) p -> at_of x p = AtRelease k -> exists x', release_step H x p k = Ret x' /\ own x x' p.
Proof.
  intros ok P Hat. destruct k as [t m]. unfold at_of in Hat. set (b := backend_of x p) in *. pose proof (pk_point _ _ _ _ _ P) as Hpt. rewrite Hat in Hpt. destruct Hpt as (Q & ([l Hl] & Hz) & Hh). cbn in Hh.
  destruct Q as (Q1 & Q2 & Q3). assert (locals_ok b) as okb by (pose proof (pk_table _ _ _ _ _ P) as T; unfold table_ok in T; by rewrite Hat in T). unfold nlocks_of in Hz. rewrite Hl in Hz.
  destruct (vk_key _ _ _ _ (pk_view _ _ _ _ _ P t m)) as (Ht & Hm%bad_lock_mode); [cbn; apply bool_decide_eq_true; fold b; eauto|].
  assert (links (allProcs (shared x) p) = false) as Hk by (pose proof (pk_wait _ _ _ _ _ P) as W; unfold wait_ok in W; fold b in W; by rewrite Q1 in W).
  destruct (release_shared_ok (shared x) t p m ok Hk Hm Hh) as (L & s' & HL & Er & ok' & R). destruct (released_own _ _ _ _ _ _ ok Hk HL R) as (Hp' & Hh').
  assert (rtc (lock_step MaxBackends vacuumFlags U) (shared x) s') as Hstep by (apply rtc_once; by eapply step_release).
  unfold release_step. fold b. rewrite Hl. cbn [deref cbind].
  assert (exists x1 b1 l1, (if ll_shared l then Ret x else c_assert (EligibleForRelationFastPath (databaseId (fast x p)) t m);; refind (shared x) p t;; Ret (set_backend x p (put_local b (t, m) (ll_with l true (holdsStrongLockCount l))))) = Ret x1 /\
    effect H x x1 p (shared x) (fast x p) b1 /\ locals_ok b1 /\ LocalHash b1 = <[(t, m) := l1]> (LocalHash b) /\ nLocks l1 = 0 /\ holdsStrongLockCount l1 = holdsStrongLockCount l /\ same_rest b b1) as (x1 & b1 & l1 & -> & E1 & ok1 & HL1 & Hz1 & Hs1 & R1).
  { destruct (ll_shared l) eqn:Esh.
    - exists x, b, l. split_and!; try done; [apply effect_refl|by rewrite insert_id].
    - assert (EligibleForRelationFastPath (databaseId (fast x p)) t m = true) as ->.
      { pose proof (vk_pointer _ _ _ _ (pk_view _ _ _ _ _ P t m)) as V. cbn in V. unfold shared_of, releasing in V. fold b in V. rewrite Hl, Esh, Hat, bool_decide_eq_true_2, orb_true_r in V by done. by apply V. }
      rewrite (refind_ok _ _ _ _ ok Hh). cbn [c_assert cbind]. eexists _, (put_local b (t, m) (ll_with l true (holdsStrongLockCount l))), _. split; [done|].
      split_and!; try done; [eapply entry_effect; done| eapply locals_same_owners; [done|done| |done]; destruct (lb_entry _ okb _ _ Hl); by constructor]. }
  cbn [cbind]. rewrite (ef_shared _ _ _ _ _ _ _ E1), Er. cbn [cbind]. eexists. split; [done|].
  apply (own_quiet _ _ _ _ x _ p s' (fast x p) (with_point b1 (AtRemove (t, m)))); try done.
  - by eapply effect_goto, effect_shared.
  - apply R.
  - apply R.
  - by eapply (removing_ok (shared x) s' (fast x p) b b1 p t m l l1).
  - eapply no_more_insert; [exact Hl|exact HL1|done].
  - intros r i. unfold at_of. fold b. congruence.
  - intros t' m' Hf. left. eauto.
Qed.

Lemma remove_step_ok x p k :
  proc_ok H (shared x) (fast x p) (backend_of x p) p -> counts_bounded H x p -> at_of x p = AtRemove k -> exists x', remove_step H x p k = Ret x' /\ own x x' p.
Proof.
  intros P Hb Hat. destruct k as [t m]. unfold at_of in Hat. set (b := backend_of x p) in *. pose proof (pk_point _ _ _ _ _ P) as Hpt. rewrite Hat in Hpt. destruct Hpt as ((Q1 & Q2 & Q3) & ([l Hl] & Hz)).
  assert (locals_ok b) as okb by (pose proof (pk_table _ _ _ _ _ P) as T; unfold table_ok in T; by rewrite Hat in T). unfold nlocks_of in Hz. rewrite Hl in Hz.
  unfold remove_step. destruct (RemoveLocalLock_effect H x x p _ _ _ (t, m) l (effect_refl H x p) Hb Hl (locals_ok_but _ _ _ okb Hl)) as (x2 & b2 & -> & E2 & Hb2 & ok2 & HL2 & [R1 R2 R3 R4 R5 R6]). cbn [cbind].
  fold b in HL2, R1, R2, R3, R4, R5, R6. eexists. split; [done|]. set (pt := Outside _).
  apply (own_local _ _ _ _ x _ p (fast x p) (with_point b2 pt)); try done; [by apply effect_goto| |by eapply no_more_delete|intros r i; unfold at_of; fold b; congruence].
  pose proof (vk_held _ _ _ _ (pk_view _ _ _ _ _ P t m)) as V. cbn in V. unfold nlocks_of, granted_asleep, releasing in V. fold b in V. rewrite Hl, Hz, Q1, Q3, Hat, Z.bits_0, (bool_decide_eq_false_2 (None = _)) in V by done. cbn in V.
  apply orb_false_iff in V as (Hh & Hf). apply (proc_focus H (shared x) (fast x p) b p _ _ _ t m); try done; [| |apply P|cbn; rewrite R1; apply P| | | |].
  - intros k Hne. unfold releasing, removing. rewrite Hat. by rewrite bool_decide_eq_false_2.
  - exact (locals_with_point b2 _ ok2).
  - intros t' m' Hne. unfold alone, granted_asleep. cbn. rewrite R2, R3, R5. split_and!; try done. apply same_entry_lookup. cbn. by rewrite HL2, lookup_delete_ne.
  - apply view_gone; cbn; unfold granted_asleep; cbn; rewrite ?Hh, ?Hf, ?R2, ?R3, ?R5, ?Q1, ?Q2, ?Q3, ?Z.bits_0; first [done|by rewrite HL2, lookup_delete_eq|by rewrite bool_decide_eq_false_2].
  - unfold wait_ok. cbn. rewrite R3. pose proof (pk_wait _ _ _ _ _ P) as W. unfold wait_ok in W. fold b in W. by rewrite Q1 in *.
  - split; [|done]. unfold quiet, unmarked. cbn. by rewrite R2, R3, R5.
Qed.

(** ** Owners *)

(** A change of the local table first. *)
Lemma own_after x x1 x' p :
  own x x1 p -> own x1 x' p -> shared x1 = shared x -> (forall h, strongCount x1 h = strongCount x h) -> own x x' p.
Proof.
  intros [A1 A2 A3 A4 A5 A6 A7 A8 A9 A10 A11] [B1 B2 B3 B4 B5 B6 B7 B8 B9 B10 B11] Es Ec. rewrite Es in *. constructor; try done.
  - intros q Hq. rewrite B4, A4; done.
  - intros q Hq. rewrite B5, A5; done.
  - intros h. rewrite B7, A7. lia.
  - intros k Hk. destruct (B8 k Hk) as [?|(Hk1 & Hn)]; [by left|right]. destruct (A8 k Hk1) as [Ht|(Hk0 & Hn0)]; [by destruct (proj2 (Hn 0))|]. split; [done|]. intros i. split; [apply Hn|apply Hn0].
  - intros t m Hh Hl. by apply A9, B9.
  - intros t Ho. destruct (B10 t Ho) as [Ho1|Hz]; [by apply A10|right]. by rewrite <- Ec.
  - auto.
Qed.

Lemma ReleaseLockIfHeld_ok x p k owner res :
  proc_ok H (shared x) (fast x p) (backend_of x p) p -> counts_bounded H x p -> at_of x p = Outside res -> is_Some (LocalHash (backend_of x p) !! k) ->
  exists x', ReleaseLockIfHeld H x p k owner = Ret x' /\ own x x' p.
Proof.
  intros P Hb Hat [l Hl]. assert (bad_lock (fst k) (snd k) = false) as Hbad by (destruct k; apply (vk_key _ _ _ _ (pk_view _ _ _ _ _ P _ _)); cbn; apply bool_decide_eq_true; eauto). destruct (outside x p res P Hat) as (Hpl & Q & Hnt). pose proof (plain_table _ _ _ _ _ P Hpl) as ok. unfold ReleaseLockIfHeld. rewrite Hl. cbn [deref cbind].
  destruct (find_last (owner_entry owner) (lockOwners l)) as [i|] eqn:Ei; [|eexists; split; [done|]; by eapply outside_goto].
  apply find_last_Some in Ei as ([o n] & Hi & Ho%bool_decide_eq_true). cbn in Ho. subst o. rewrite Hi. cbn [deref cbind].
  destruct (release_owner_ok (backend_of x p) k l i owner n ok Hl Hi) as (Hpos & Hmore & Hlast). apply Z.ltb_lt in Hpos as Hpos'. rewrite Hpos'. cbn [c_assert cbind]. destruct (Z.ltb_spec n (nLocks l)) as [Hn|Hn].
  - destruct (Hmore Hn) as (b' & E & ok' & HL & R). rewrite E. cbn [cbind]. eexists. split; [done|].
    eapply (outside_entry x _ p res b' k l _ NoCall P Hat Hl ok' HL R); try done; [cbn; destruct (Z.ltb_spec 0 (nLocks l - n)), (Z.ltb_spec 0 (nLocks l)); lia|].
    eapply effect_backend; [apply effect_refl|]. intros h. cbn. rewrite HL. apply strong_in_same. by rewrite Hl.
  - destruct (Hlast Hn) as (-> & ok1). rewrite Z.eqb_refl. cbn [c_assert cbind]. set (b1 := put_local _ _ _) in *. set (l1 := ll_count l 1 _ _) in b1.
    destruct (entry_effect x p (with_point b1 (Outside NoCall)) k l l1 Hl eq_refl eq_refl) as (E1 & Hc1). set (x1 := set_backend x p (with_point b1 (Outside NoCall))) in *.
    assert (own x x1 p) as O1 by (eapply (outside_entry x _ p res b1 k l l1 NoCall P Hat Hl); try done; cbn; by rewrite Hpos').
    pose proof (release_begin_ok x1 p k owner NoCall (on_proc _ _ _ _ _ _ _ O1)) as Hr. rewrite Hbad in Hr.
    destruct Hr as (x2 & E2 & O2); [by eapply bounded_effect|unfold at_of; by rewrite (ef_backend _ _ _ _ _ _ _ E1)|]. exists x2. split; [done|]. by eapply own_after.
Qed.

Lemma LockReassignOwner_step x p k cur parent res :
  proc_ok H (shared x) (fast x p) (backend_of x p) p -> at_of x p = Outside res -> is_Some (LocalHash (backend_of x p) !! k) -> cur <> parent ->
  exists b', LockReassignOwner (backend_of x p) k cur parent = Ret b' /\ own x (set_backend x p (with_point b' (Outside NoCall))) p.
Proof.
  intros P Hat [l Hl] Hne. destruct (outside x p res P Hat) as (Hpl & Q & Hnt). pose proof (plain_table _ _ _ _ _ P Hpl) as ok.
  destruct (LockReassignOwner_ok _ k l cur parent ok Hl Hne) as (b' & l' & E & ok' & HL & R & Hn & Hfl & _). exists b'. split; [done|].
  eapply (outside_entry x _ p res b' k l l' NoCall P Hat Hl ok' HL R Hfl); [by rewrite Hn|done|]. eapply effect_backend; [apply effect_refl|]. intros h. cbn. rewrite HL. apply strong_in_same. rewrite Hl. apply Hfl.
Qed.

Lemma MarkLockClear_step x p k l res :
  proc_ok H (shared x) (fast x p) (backend_of x p) p -> at_of x p = Outside res -> LocalHash (backend_of x p) !! k = Some l -> 0 < nLocks l ->
  exists b', MarkLockClear (backend_of x p) k = Ret b' /\ own x (set_backend x p (with_point b' (Outside NoCall))) p.
Proof.
  intros P Hat Hl Hn. destruct (outside x p res P Hat) as (Hpl & Q & Hnt). pose proof (plain_table _ _ _ _ _ P Hpl) as ok. unfold MarkLockClear. rewrite Hl. cbn [deref cbind].
  apply Z.ltb_lt in Hn as Hn'. rewrite Hn'. cbn [c_assert cbind]. eexists. split; [done|]. set (l' := ll_count _ _ _ _). set (b' := put_local _ _ _).
  eapply (outside_entry x _ p res b' k l l' NoCall P Hat Hl); try done.
  - apply (locals_same_owners _ k l); try done. destruct (lb_entry _ ok k l Hl). by constructor.
  - eapply effect_backend; [apply effect_refl|]. intros h. cbn. apply strong_in_same. by rewrite Hl.
Qed.
End release.
