(* ===== verification/LockOwnReleaseAll.v ===== *)
(** * Heavyweight locks: releasing all locks

    [LockReleaseAll] at the end of a transaction: the loop over the local table, with the
    fast-path locks released at once and the others marked, then the loop over the
    partitions of the shared table. *)
From stdpp Require Import list gmap functions relations.
From S2P Require Import Prelude LockModes LockTable LockInvariant LockOps LockRequests LockSleep Deadlock DeadlockVerdict LockSystem LockBackend LockFastPath LockLocal LockCounts LockSession LockOwn LockOwnViews LockOwnAcquire LockOwnWait LockOwnRelease.

(** The loop over the local table has come to lock [k]. *)
Record at_lock (b : backend) (lockmethodid : Z) (allLocks : bool) (k : LOCALLOCKTAG) (todo : list LOCALLOCKTAG) : Prop := {
  al_awaited : lockAwaited b = None;
  al_strong : StrongLockInProgress b = None;
  al_nodup : NoDup (k :: todo);
  al_todo : forall k', k' ∈ todo -> is_Some (LocalHash b !! k');
  al_done : forall k', k' ∉ k :: todo -> only_session b lockmethodid allLocks k';
  al_marks : marks_of b lockmethodid;
  al_idle : forall k, releasing b k = false /\ removing b k = false }.

Section release_all.
Context (H : LOCKTAG -> Z) (allProcCount MaxBackends : Z) (vacuumFlags : Z -> Z) (U : list Z).
Notation part := (FastPathStrongLockHashPartition H).
Notation own x x' p := (own_step H MaxBackends vacuumFlags U x x' p).

Lemma at_lock_point s F b p lockmethodid allLocks k todo have :
  proc_ok H s F b p -> at_point b = AtReleaseLocal lockmethodid allLocks (k :: todo) have -> at_lock b lockmethodid allLocks k todo /\ is_Some (LocalHash b !! k) /\ locals_ok b.
Proof.
  intros P Hat. pose proof (pk_point _ _ _ _ _ P) as Hp. rewrite Hat in Hp. destruct Hp as (A1 & A2 & A3 & A4 & A5 & A6). split_and!; [|apply A4; set_solver|apply plain_locals; [apply P|by rewrite Hat]].
  constructor; try done; [intros k' Hk'; apply A4; set_solver|]. intros k'. apply plain_no_release. by rewrite Hat.
Qed.

(** An entry is done with and gone. *)
Lemma gone_ok s s' F F' b b' p lockmethodid allLocks t m todo have :
  proc_ok H s F b p -> at_lock b lockmethodid allLocks (t, m) todo -> locals_ok b' -> LocalHash b' = delete (t, m) (LocalHash b) ->
  fast_ok F' -> used_count F' <= FastPathLocalUseCount b' -> databaseId F' = databaseId F -> allProcs s' p = allProcs s p ->
  (forall t' m', (t', m') <> (t, m) -> holds s' t' p m' = holds s t' p m' /\ fastheld F' t' m' = fastheld F t' m' /\ Z.testbit (releaseMask b' t') m' = Z.testbit (releaseMask b t') m') ->
  (fastheld F' t m = true -> holds s' t p m = false) -> holds s' t p m || fastheld F' t m = Z.testbit (releaseMask b' t) m -> (Z.testbit (releaseMask b' t) m = true -> holds s' t p m = true) ->
  lockAwaited b' = None -> StrongLockInProgress b' = None -> marks_of b' lockmethodid -> proc_ok H s' F' (with_point b' (AtReleaseLocal lockmethodid allLocks todo have)) p.
Proof.
  intros P [A1 A2 A3 A4 A5 A6 A7] ok' HL HF Hu Edb Hp Ho Hap Hsum Hmk R3 R2 Hmarks. apply NoDup_cons in A3 as (Hnk & Hnd).
  assert (forall b0 k, lockAwaited b0 = None -> granted_asleep s' b0 p k = false) as Hg by (intros b0 k E; unfold granted_asleep; by rewrite E, bool_decide_eq_false_2).
  apply (proc_focus H s F b p s' F' _ t m); try done.
  - by intros k _.
  - exact (locals_with_point b' _ ok').
  - intros t' m' Hne. destruct (Ho t' m' Hne) as (E1 & E2 & E3). unfold alone. rewrite (Hg (with_point b' _) (t', m') R3). split_and!; try done.
    + apply same_entry_lookup. cbn. by rewrite HL, lookup_delete_ne.
    + unfold granted_asleep. by rewrite A1, bool_decide_eq_false_2.
    + cbn. by rewrite R2, A2.
  - apply view_gone; try done; [cbn; by rewrite HL, lookup_delete_eq|cbn; by rewrite Hg|by rewrite Hg|cbn; by rewrite R2].
  - unfold wait_ok. cbn. rewrite R3, Hp. pose proof (pk_wait _ _ _ _ _ P) as W. unfold wait_ok in W. by rewrite A1 in W.
  - cbn. split_and!; try done.
    + intros k Hk. rewrite HL, lookup_delete_ne; [by apply A4|]. by intros <-.
    + intros k Hk Hm l. cbn. rewrite HL. intros (Hne & Hl)%lookup_delete_Some. apply (A5 k); [|done|done]. apply not_elem_of_cons. split; [congruence|done].
Qed.

(** Entry [k] of the loop, with its owners stripped or not. *)
Record stripped (x x1 : lockenv) (p : Z) (k : LOCALLOCKTAG) (l l1 : LOCALLOCK) (b1 : backend) : Prop := {
  sp_effect : effect H x x1 p (shared x) (fast x p) b1;
  sp_entry : LocalHash (backend_of x p) !! k = Some l;
  sp_table : LocalHash b1 = <[k := l1]> (LocalHash (backend_of x p));
  sp_flags : same_flags l l1;
  sp_count : nLocks l1 = nLocks l;
  sp_locals : locals_but b1 k l1;
  sp_rest : same_rest (backend_of x p) b1 }.

Lemma stripped_bounded x x1 p k l l1 b1 : stripped x x1 p k l l1 b1 -> counts_bounded H x p -> counts_bounded H x1 p.
Proof. intros S Hb. eapply bounded_effect; [apply S|done|]. intros h. rewrite (sp_table _ _ _ _ _ _ _ S). apply strong_in_same. rewrite (sp_entry _ _ _ _ _ _ _ S). apply S. Qed.

Lemma bounded_set x p b' : counts_bounded H x p -> LocalHash b' = LocalHash (backend_of x p) -> counts_bounded H (set_backend x p b') p.
Proof. intros Hb E h. cbn. rewrite fn_lookup_insert, E. apply Hb. Qed.

(** The entry is removed, and what else has happened to the lock. *)
Lemma own_gone x x2 p lockmethodid allLocks t m todo have s' F' b2 l2 :
  proc_ok H (shared x) (fast x p) (backend_of x p) p -> at_lock (backend_of x p) lockmethodid allLocks (t, m) todo -> (forall r i, at_of x p <> AtTransfer r i) ->
  rtc (lock_step MaxBackends vacuumFlags U) (shared x) s' -> (forall q, q <> p -> bystander (shared x) s' q) -> no_new_conflicts (shared x) s' -> allProcs s' p = allProcs (shared x) p ->
  effect H x x2 p s' F' b2 -> counts_bounded H x2 p -> LocalHash b2 = <[(t, m) := l2]> (LocalHash (backend_of x p)) -> locals_but b2 (t, m) l2 ->
  fast_ok F' -> used_count F' <= FastPathLocalUseCount b2 -> databaseId F' = databaseId (fast x p) -> lockAwaited b2 = None -> StrongLockInProgress b2 = None -> marks_of b2 lockmethodid ->
  (forall t' m', (t', m') <> (t, m) -> holds s' t' p m' = holds (shared x) t' p m' /\ fastheld F' t' m' = fastheld (fast x p) t' m' /\ Z.testbit (releaseMask b2 t') m' = Z.testbit (releaseMask (backend_of x p) t') m') ->
  fastheld F' t m = false -> holds s' t p m = Z.testbit (releaseMask b2 t) m ->
  exists x3, (let* x := RemoveLocalLock H x2 p (t, m) in Ret (goto x p (AtReleaseLocal lockmethodid allLocks todo have))) = Ret x3 /\ own x x3 p.
Proof.
  intros P A Hnt Hs Hby Hnc Hp E2 Hb2 HL2 But HF Hu Edb R3 R2 Hmarks Ho Hf Hh. assert (LocalHash b2 !! (t, m) = Some l2) as Hl2 by (by rewrite HL2, lookup_insert_eq).
  destruct (RemoveLocalLock_effect H x x2 p s' F' b2 (t, m) l2 E2 Hb2 Hl2 But) as (x3 & b3 & -> & E3 & Hb3 & ok3 & HL3 & [S1 S2 S3 S4 S5 S6]). cbn [cbind]. eexists. split; [done|].
  assert (LocalHash b3 = delete (t, m) (LocalHash (backend_of x p))) as HL' by (rewrite HL3, HL2; by rewrite delete_insert_eq).
  apply (own_quiet _ _ _ _ x _ p s' F' (with_point b3 (AtReleaseLocal lockmethodid allLocks todo have))); try done.
  - by apply effect_goto.
  - apply (gone_ok (shared x) s' (fast x p) F' (backend_of x p) b3 p lockmethodid allLocks t m todo have P A); try done; rewrite ?S1, ?S2, ?S3, ?S5; try done.
    + by rewrite Hf.
    + by rewrite Hf, orb_false_r.
    + by rewrite Hh.
    + intros t' m'. rewrite S5. apply Hmarks.
  - by eapply no_more_delete.
  - intros t' m' Hf'. left. exists m'. destruct (decide ((t', m') = (t, m))) as [[= -> ->]|Hne]; [congruence|]. by rewrite <- (proj1 (proj2 (Ho t' m' Hne))).
Qed.

(** The lock is not in a slot any more: it is looked for in the shared table. *)
Lemma own_refind x x2 p lockmethodid allLocks t m todo F' b2 l l2 :
  proc_ok H (shared x) (fast x p) (backend_of x p) p -> at_lock (backend_of x p) lockmethodid allLocks (t, m) todo -> (forall r i, at_of x p <> AtTransfer r i) ->
  effect H x x2 p (shared x) F' b2 -> LocalHash (backend_of x p) !! (t, m) = Some l -> LocalHash b2 = <[(t, m) := l2]> (LocalHash (backend_of x p)) -> same_flags l l2 -> nLocks l2 = nLocks l -> 0 < nLocks l ->
  locals_but b2 (t, m) l2 -> fast_ok F' -> used_count F' <= FastPathLocalUseCount b2 -> databaseId F' = databaseId (fast x p) -> (forall t' m', fastheld F' t' m' = fastheld (fast x p) t' m') ->
  StrongLockInProgress b2 = StrongLockInProgress (backend_of x p) -> lockAwaited b2 = lockAwaited (backend_of x p) -> releaseMask b2 = releaseMask (backend_of x p) -> holds (shared x) t p m = true ->
  own x (goto x2 p (AtRefind lockmethodid allLocks (t, m) todo)) p.
Proof.
  intros P [A1 A2 A3 A4 A5 A6 A7] Hnt E2 Hl HL2 Hfl Hn Hpos But HF Hu Edb Hfs R2 R3 R5 Hh. set (pt := AtRefind _ _ _ _).
  assert (forall k, same_entry (backend_of x p) (with_point b2 pt) k) as Hsame by (intros k; eapply same_entry_insert; [exact Hl|exact HL2|done|by rewrite Hn]).
  apply (own_local _ _ _ _ x _ p F' (with_point b2 pt)); try done; [by apply effect_goto| |by apply same_entries_no_more|intros t' m'; by rewrite Hfs].
  destruct P as [P1 P2 P3 P4 P5 P6]. constructor; try done.
  - cbn. exists l2. split; [by rewrite HL2, lookup_insert_eq|]. by destruct But; constructor.
  - intros t' m'. rewrite Edb, (view_same (shared x) (shared x) (fast x p) F' (backend_of x p) (with_point b2 pt) p t' m'); try done; cbn; rewrite ?R2, ?R5; try done; [unfold granted_asleep; cbn; by rewrite R3| |]; symmetry; apply A7.
  - unfold wait_ok in *. cbn. rewrite R3. by rewrite A1 in *.
  - cbn. rewrite R2, R3. split_and!; try done.
    + intros k Hk. destruct (Hsame k) as (-> & _). by apply A4.
    + unfold nlocks_of. cbn. rewrite HL2, lookup_insert_eq. lia.
    + intros k Hk Hm l0. cbn. rewrite HL2, lookup_insert_ne; [by apply A5|]. intros <-. apply Hk. set_solver.
    + intros t' m'. cbn. rewrite R5. apply A6.
Qed.

Lemma release_entry_ok x x1 p lockmethodid allLocks t m todo have l l1 b1 :
  proc_ok H (shared x) (fast x p) (backend_of x p) p -> counts_bounded H x p -> at_lock (backend_of x p) lockmethodid allLocks (t, m) todo -> (forall r i, at_of x p <> AtTransfer r i) ->
  stripped x x1 p (t, m) l l1 b1 -> 0 < nLocks l -> locktag_lockmethodid t = lockmethodid -> exists x', release_entry H x1 p lockmethodid allLocks (t, m) todo have = Ret x' /\ own x x' p.
Proof.
  intros P Hb A Hnt S Hpos Hmeth. pose proof (stripped_bounded _ _ _ _ _ _ _ S Hb) as Hb1. destruct S as [E1 Hl HL1 (Fl1 & Fl2) Hn But [R1 R2 R3 R4 R5 R6]]. set (b := backend_of x p) in *.
  pose proof (pk_view _ _ _ _ _ P t m) as V. destruct (vk_key _ _ _ _ V) as (Ht & Hm%bad_lock_mode); [cbn; apply bool_decide_eq_true; fold b; eauto|].
  assert (if ll_shared l1 then holds (shared x) t p m = true else EligibleForRelationFastPath (databaseId (fast x p)) t m = true) as Hptr.
  { pose proof (vk_pointer _ _ _ _ V) as Vp. cbn in Vp. unfold nlocks_of, shared_of in Vp. fold b in Vp. rewrite Hl in Vp. rewrite Fl1. apply Vp. apply Z.ltb_lt in Hpos. by rewrite Hpos. }
  unfold release_entry. rewrite (ef_backend _ _ _ _ _ _ _ E1), (ef_fast _ _ _ _ _ _ _ E1), HL1, lookup_insert_eq. cbn [deref cbind fst snd]. destruct (ll_shared l1) eqn:Esh; cbn [negb].
  - assert (0 <? nLocks l1 = true) as -> by (apply Z.ltb_lt; lia). set (b2 := with_mask b1 t _). pose proof (held_not_fast _ _ _ _ _ _ _ P Hptr) as Hf.
    assert (effect H x (set_backend x1 p b2) p (shared x) (fast x p) b2) as E2 by (by eapply effect_backend).
    assert (forall t' m', Z.testbit (releaseMask b2 t') m' = Z.testbit (releaseMask b t') m' || bool_decide ((t', m') = (t, m))) as Hmk.
    { intros t' m'. cbn. rewrite R5. destruct (decide (t' = t)) as [->|Hne]; [|rewrite fn_lookup_insert_ne, bool_decide_eq_false_2 by congruence; by rewrite orb_false_r].
      rewrite fn_lookup_insert, Z.lor_spec, testbit_LOCKBIT_ON by (by apply is_mode_nonneg). f_equal. destruct (Z.eqb_spec m' m) as [->|]; [by rewrite bool_decide_eq_true_2|by rewrite bool_decide_eq_false_2 by congruence]. }
    apply (own_gone x (set_backend x1 p b2) p lockmethodid allLocks t m todo have (shared x) (fast x p) b2 l1 P A Hnt); try done; [intros; apply bystander_refl|by apply bounded_set; [|rewrite (ef_backend _ _ _ _ _ _ _ E1)]|by destruct But|apply P|cbn; rewrite R1; apply P|cbn; rewrite R3; apply A|cbn; rewrite R2; apply A| | |].
    + intros t' m'. rewrite Hmk. intros [?|[= -> ->]%bool_decide_eq_true]%orb_true_iff; [by eapply (al_marks _ _ _ _ _ A)|done].
    + intros t' m' Hne. rewrite Hmk, (bool_decide_eq_false_2 _ Hne), orb_false_r. done.
    + by rewrite Hmk, bool_decide_eq_true_2, orb_true_r.
  - rewrite Hptr. cbn [negb]. destruct (ungrant_fast (fast x p) t m (pk_fast _ _ _ _ _ P) Hptr Ht Hm) as (F' & -> & HF' & Edb & Hfs). cbn [cbind]. set (b2 := with_useCount b1 _).
    assert (effect H x (set_backend (set_fast x1 p F') p b2) p (shared x) F' b2) as E2 by (eapply effect_backend; [eapply effect_fast, E1|done]). destruct (fastheld (fast x p) t m) eqn:Ef.
    + pose proof (vk_apart _ _ _ _ V Ef) as Hnh. cbn in Hnh.
      apply (own_gone x _ p lockmethodid allLocks t m todo true (shared x) F' b2 l1 P A Hnt); try done; [intros; apply bystander_refl|by apply bounded_set; [|cbn; rewrite (ef_backend _ _ _ _ _ _ _ E1)]|by destruct But|cbn; rewrite R3; apply A|cbn; rewrite R2; apply A| | | |].
      * intros t' m'. cbn. rewrite R5. apply A.
      * intros t' m' Hne. cbn. by rewrite R5, Hfs, (bool_decide_eq_false_2 _ Hne), andb_true_r.
      * by rewrite Hfs, bool_decide_eq_true_2, andb_false_r.
      * cbn. rewrite R5, Hnh. destruct (Z.testbit (releaseMask b t) m) eqn:Em; [|done]. destruct (vk_marked _ _ _ _ V Em) as (Hh & _). cbn in Hh. congruence.
    + eexists. split; [done|]. apply (own_refind x _ p lockmethodid allLocks t m todo F' b2 l l1 P A Hnt E2); try done; [by split; [congruence|]|by destruct But| |].
      * intros t' m'. rewrite Hfs. case_bool_decide as Ek; cbn; [injection Ek as -> ->; by rewrite Ef|by rewrite andb_true_r].
      * pose proof (vk_held _ _ _ _ V) as Vh. cbn in Vh. rewrite Ef, orb_false_r in Vh. rewrite Vh. unfold nlocks_of. fold b. rewrite Hl. apply Z.ltb_lt in Hpos. by rewrite Hpos.
Qed.

Lemma release_all_begin_ok x p lockmethodid allLocks order res :
  proc_ok H (shared x) (fast x p) (backend_of x p) p -> at_of x p = Outside res -> NoDup order -> (forall k, k ∈ order <-> is_Some (LocalHash (backend_of x p) !! k)) ->
  if (lockmethodid <=? 0) || (lengthof_LockMethods <=? lockmethodid) then exists e, release_all_begin x p lockmethodid allLocks order = Elog e
  else exists x', release_all_begin x p lockmethodid allLocks order = Ret x' /\ own x x' p.
Proof.
  intros P Hat Hnd Ho. destruct (outside _ x p res P Hat) as (Hpl & (Q1 & Q2 & Q3) & Hnt). unfold release_all_begin. destruct (_ || _); [eauto|]. eexists. split; [done|]. set (pt := AtReleaseLocal _ _ _ _).
  apply (own_local _ _ _ _ x _ p (fast x p) (with_point (backend_of x p) pt)); try done; [apply effect_goto, effect_refl| |by apply no_more_refl]. apply proc_point; try done. cbn. split_and!; try done.
  - intros k. apply Ho.
  - intros k Hk Hm l Hl. destruct Hk. apply Ho. eauto.
  - intros t m Hb. cbn in Hb. by rewrite Q3, Z.bits_0 in Hb.
Qed.

Lemma release_all_local_ok x p lockmethodid allLocks todo have :
  proc_ok H (shared x) (fast x p) (backend_of x p) p -> counts_bounded H x p -> at_of x p = AtReleaseLocal lockmethodid allLocks todo have ->
  exists x', release_all_local H x p lockmethodid allLocks todo have = Ret x' /\ own x x' p.
Proof.
  intros P Hb Hat. assert (forall r i, at_of x p <> AtTransfer r i) as Hnt by (intros r i; congruence). unfold at_of in Hat. pose proof (pk_point _ _ _ _ _ P) as Hp. rewrite Hat in Hp. destruct Hp as (A1 & A2 & A3 & A4 & A5 & A6).
  assert (plain (at_point (backend_of x p)) = true) as Hpl by (by rewrite Hat). unfold release_all_local. destruct todo as [|[t m] todo].
  { eexists. split; [done|]. set (pt := AtReleaseShared _ _ _). apply (own_local _ _ _ _ x _ p (fast x p) (with_point (backend_of x p) pt)); try done; [apply effect_goto, effect_refl| |by apply no_more_refl].
    apply proc_point; try done. cbn. split_and!; try done; [intros k; apply A5, not_elem_of_nil|]. intros t m _. unfold LockHashPartition. by apply Z.mod_pos_bound. }
  destruct (at_lock_point _ _ _ _ _ _ _ _ _ P Hat) as (A & [l Hl] & ok). rewrite Hl. cbn [deref cbind fst snd]. pose proof (nLocks_nonneg _ (lb_entry _ ok _ _ Hl)) as Hnn.
  assert (forall b1 l1 have', locals_ok b1 -> LocalHash b1 = <[(t, m) := l1]> (LocalHash (backend_of x p)) -> same_rest (backend_of x p) b1 -> same_flags l l1 -> (0 <? nLocks l1) = (0 <? nLocks l) ->
    (locktag_lockmethodid t = lockmethodid -> allLocks = false /\ map fst (lockOwners l1) = [None]) -> forall x1, effect H x x1 p (shared x) (fast x p) b1 -> own x (goto x1 p (AtReleaseLocal lockmethodid allLocks todo have')) p) as Hkeep.
  { intros b1 l1 have' ok1 HL1 R Hfl Hpos Hsess x1 E1. set (pt := AtReleaseLocal _ _ _ _).
    assert (forall k, same_entry (backend_of x p) b1 k) as Hsame by (intros k; by eapply same_entry_insert).
    apply (own_local _ _ _ _ x _ p (fast x p) (with_point b1 pt)); try done; [by apply effect_goto| |by apply same_entries_no_more]. apply (proc_same H (shared x) (fast x p) (backend_of x p) p P Hpl b1); try done.
    destruct R as [R1 R2 R3 R4 R5 R6]. apply NoDup_cons in A3 as (Hnk & Hnd). cbn. rewrite R2, R3. split_and!; try done.
    - intros k Hk. destruct (Hsame k) as (-> & _). apply A4. set_solver.
    - intros k Hk Hm l0. cbn. rewrite HL1. destruct (decide (k = (t, m))) as [->|Hne]; [rewrite lookup_insert_eq; intros [= <-]; auto|]. rewrite lookup_insert_ne by done. apply A5; [|done]. by apply not_elem_of_cons.
    - intros t' m'. cbn. rewrite R5. apply A6. }
  destruct (Z.eqb_spec (nLocks l) 0) as [Hz|Hz].
  - pose proof (pk_view _ _ _ _ _ P t m) as V. pose proof (vk_held _ _ _ _ V) as Vh. cbn in Vh. unfold nlocks_of, granted_asleep in Vh. rewrite Hl, Hz, A1, (bool_decide_eq_false_2 (None = _)), (proj1 (al_idle _ _ _ _ _ A (t, m))) in Vh by done. cbn in Vh.
    destruct (fastheld (fast x p) t m) eqn:Ef.
    { exfalso. pose proof (vk_apart _ _ _ _ V Ef) as Hnh. cbn in Hnh. rewrite Hnh in Vh. cbn in Vh. symmetry in Vh. destruct (vk_marked _ _ _ _ V Vh) as (Hh & _). cbn in Hh. congruence. }
    rewrite orb_false_r in Vh.
    apply (own_gone x x p lockmethodid allLocks t m todo have (shared x) (fast x p) (backend_of x p) l P A Hnt); try done;
      [intros; apply bystander_refl|apply effect_refl|by rewrite insert_id|by apply locals_ok_but|apply P|apply P].
  - destruct (Z.eqb_spec (locktag_lockmethodid t) lockmethodid) as [Hm|Hm]; cbn [negb].
    2:{ eexists. split; [done|]. apply (Hkeep (backend_of x p) l have ok); try done; [by rewrite insert_id|apply effect_refl]. }
    assert (0 < nLocks l) as Hpos by lia. destruct allLocks.
    + apply (release_entry_ok x x p lockmethodid true t m todo have l l (backend_of x p) P Hb A Hnt); try done. constructor; try done; [apply effect_refl|by rewrite insert_id|by apply locals_ok_but].
    + destruct (strip_to_session_ok (backend_of x p) (t, m) l ok Hl) as (b1 & l1 & kept & -> & HL1 & R & Hfl & Hk). cbn [cbind].
      destruct (entry_effect H x p b1 (t, m) l l1 Hl HL1 (proj2 Hfl)) as (E1 & Hc1). destruct kept.
      * eexists. split; [done|]. destruct Hk as (ok1 & Hn1 & Hs1). apply (Hkeep b1 l1 have ok1); try done. destruct (Z.ltb_spec 0 (nLocks l1)), (Z.ltb_spec 0 (nLocks l)); [done|lia|lia|done].
      * destruct Hk as (But & Hn1). by apply (release_entry_ok x _ p lockmethodid false t m todo have l l1 b1 P Hb A Hnt).
Qed.

Lemma refind_step_ok x p lockmethodid allLocks k todo :
  lmgr_ok (shared x) -> proc_ok H (shared x) (fast x p) (backend_of x p) p -> counts_bounded H x p -> at_of x p = AtRefind lockmethodid allLocks k todo ->
  exists x', refind_step H x p lockmethodid allLocks k todo = Ret x' /\ own x x' p.
Proof.
  intros ok P Hb Hat. destruct k as [t m]. assert (forall r i, at_of x p <> AtTransfer r i) as Hnt by (intros r i; congruence). unfold at_of in Hat. pose proof (pk_point _ _ _ _ _ P) as Hp. rewrite Hat in Hp.
  destruct Hp as (A1 & A2 & A3 & A4 & A5 & Hh & A6 & A7). cbn in Hh. pose proof (pk_table _ _ _ _ _ P) as T. unfold table_ok in T. rewrite Hat in T. destruct T as (l & Hl & But).
  assert (at_lock (backend_of x p) lockmethodid allLocks (t, m) todo) as A by (constructor; try done; intros k; unfold releasing, removing; by rewrite Hat).
  pose proof (pk_view _ _ _ _ _ P t m) as V. destruct (vk_key _ _ _ _ V) as (_ & Hm%bad_lock_mode); [cbn; apply bool_decide_eq_true; eauto|].
  assert (links (allProcs (shared x) p) = false) as Hk by (pose proof (pk_wait _ _ _ _ _ P) as W; unfold wait_ok in W; by rewrite A1 in W).
  destruct (release_shared_ok (shared x) t p m ok Hk Hm Hh) as (L & s' & HL & Er & ok' & R). destruct (released_own _ _ _ _ _ _ ok Hk HL R) as (Hp' & Hh').
  unfold refind_step, LockRefindAndRelease. cbn [fst snd]. rewrite (refind_ok _ _ _ _ ok Hh). cbn [cbind]. rewrite Er. cbn [cbind].
  apply (own_gone x (set_shared x s') p lockmethodid allLocks t m todo false s' (fast x p) (backend_of x p) l P A Hnt); try done; [apply rtc_once; by eapply step_release|apply R|apply R|eapply effect_shared, effect_refl|by rewrite insert_id|apply P|apply P| | |].
  - intros t' m' Hne. by rewrite Hh', (bool_decide_eq_false_2 _ Hne), andb_true_r.
  - exact (held_not_fast _ _ _ _ _ _ _ P Hh).
  - rewrite Hh', bool_decide_eq_true_2, andb_false_r by done. destruct (Z.testbit (releaseMask (backend_of x p) t) m) eqn:Em; [|done]. destruct (vk_marked _ _ _ _ V Em) as (_ & Hc). cbn in Hc. apply Z.ltb_ge in Hc. lia.
Qed.

(** ** The partitions *)

Lemma own_trans x x1 x2 p :
  own x x1 p -> own x1 x2 p -> LocalHash (backend_of x1 p) = LocalHash (backend_of x p) -> LocalHash (backend_of x2 p) = LocalHash (backend_of x1 p) -> own x x2 p.
Proof.
  intros [A1 A2 A3 A4 A5 A6 A7 A8 A9 A10 A11] [B1 B2 B3 B4 B5 B6 B7 B8 B9 B10 B11] E1 E2. constructor; try done.
  - by etrans.
  - intros q Hq. eapply bystander_trans; auto.
  - by eapply no_new_conflicts_trans.
  - intros q Hq. rewrite B4, A4; done.
  - intros q Hq. rewrite B5, A5; done.
  - intros h. rewrite B7, A7. lia.
  - intros k Hk. destruct (B8 k Hk) as [?|(Hk1 & Hn)]; [by left|right]. destruct (A8 k Hk1) as [Ht|(Hk0 & Hn0)]; [by destruct (proj2 (Hn 0))|]. split; [done|]. intros i. split; [apply Hn|apply Hn0].
  - intros t m _. unfold live, strong_of. by rewrite E2, E1.
  - intros t Ho. destruct (B10 t Ho) as [Ho1|Hz]; [by apply A10|right]. rewrite A7, E1 in Hz. lia.
  - auto.
Qed.

(** The modes to be released of a lock are the marked ones. *)
Lemma partition_mask s F b p lockmethodid allLocks i t pl :
  proc_ok H s F b p -> at_point b = AtReleaseShared lockmethodid allLocks i -> locktag_lockmethodid t = lockmethodid -> ProcLockHash s !! (t, p) = Some pl ->
  forall m, Z.testbit (if allLocks then holdMask pl else releaseMask b t) m = Z.testbit (releaseMask b t) m.
Proof.
  intros P Hat Hm Hpl m. destruct allLocks eqn:Eall; [|done]. pose proof (pk_point _ _ _ _ _ P) as Hp. rewrite Hat in Hp. destruct Hp as (A1 & A2 & A3 & A4 & A5 & A6).
  assert (Z.testbit (holdMask pl) m = holds s t p m) as -> by (unfold holds; by rewrite Hpl). pose proof (pk_view _ _ _ _ _ P t m) as V. pose proof (vk_held _ _ _ _ V) as Vh. cbn in Vh.
  assert (nlocks_of b (t, m) = 0) as Hz by (unfold nlocks_of; destruct (LocalHash b !! (t, m)) as [l|] eqn:El; [|done]; by destruct (A4 (t, m) Hm l El)).
  unfold granted_asleep, releasing in Vh. rewrite Hz, A1, Hat, bool_decide_eq_false_2 in Vh by done. cbn in Vh. apply eq_true_iff_eq. split; [|intros Hb; by apply (vk_marked _ _ _ _ V)].
  intros Hh. by rewrite Hh in Vh.
Qed.

(** The marked modes of one lock are given up. *)
Lemma unmark_ok s s' F b p lockmethodid allLocks i t mask :
  proc_ok H s F b p -> at_point b = AtReleaseShared lockmethodid allLocks i -> (forall m, Z.testbit mask m = Z.testbit (releaseMask b t) m) ->
  (forall m, holds s' t p m = holds s t p m && negb (Z.testbit mask m)) -> (forall t' m, t' <> t -> holds s' t' p m = holds s t' p m) -> allProcs s' p = allProcs s p ->
  proc_ok H s' F (with_mask b t 0) p.
Proof.
  intros P Hat Hmask Hh Hho Hp. pose proof (pk_point _ _ _ _ _ P) as Hpt. rewrite Hat in Hpt. destruct Hpt as (A1 & A2 & A3 & A4 & A5 & A6). destruct P as [P1 P2 P3 P4 P5 P6].
  assert (locals_ok b) as ok by (apply plain_locals; [done|by rewrite Hat]). constructor; try done.
  - unfold table_ok. cbn. rewrite Hat. by destruct ok; constructor.
  - intros t' m. destruct (decide (t' = t)) as [->|Hne].
    2:{ rewrite (view_same s s' F F b _ p t' m); try done; [by apply Hho|unfold granted_asleep; cbn; by rewrite A1, !bool_decide_eq_false_2|cbn; by rewrite fn_lookup_insert_ne]. }
    destruct (P4 t m) as [V1 V2 V3 V4 V5 V6 V7 V8]. constructor; cbn in *; unfold granted_asleep in *; cbn; rewrite ?A1, ?(bool_decide_eq_false_2 (None = Some (t, m))) in * by done; rewrite ?fn_lookup_insert, ?Z.bits_0, ?Hh, ?Hmask; cbn in *; try done.
    + intros Hf. by rewrite (V2 Hf).
    + rewrite orb_false_r in *. destruct (Z.testbit (releaseMask b t) m) eqn:Em; [|cbn [negb]; by rewrite andb_true_r, V3, !orb_false_r]. destruct (V7 eq_refl) as (V7a & V7b). change (nlocks_of (with_mask b t 0)) with (nlocks_of b). rewrite V7b, andb_false_r. cbn.
      unfold releasing. cbn. rewrite Hat. destruct (fastheld F t m); [|done]. specialize (V2 eq_refl). congruence.
    + intros Hc. specialize (V4 Hc). change (shared_of (with_mask b t 0)) with (shared_of b). destruct (shared_of b (t, m)); [|done]. rewrite V4. destruct (Z.testbit (releaseMask b t) m); [|done].
      destruct (V7 eq_refl) as (_ & V7b). unfold releasing in Hc. cbn in Hc. rewrite Hat, orb_false_r in Hc. change (nlocks_of (with_mask b t 0)) with (nlocks_of b) in Hc. congruence.
  - unfold wait_ok in *. cbn. rewrite A1 in *. by rewrite Hp.
  - cbn. rewrite Hat. cbn. assert (forall t' m, Z.testbit (<[t := 0]> (releaseMask b) t') m = true -> Z.testbit (releaseMask b t') m = true) as Hsub.
    { intros t' m. destruct (decide (t' = t)) as [->|]; [by rewrite fn_lookup_insert, Z.bits_0|by rewrite fn_lookup_insert_ne]. }
    split_and!; try done; [intros t' m Hb; eapply A5, Hsub, Hb|intros t' m Hb; eapply A6, Hsub, Hb].
Qed.

(** One lock of the partition. *)
Lemma release_marked x p lockmethodid allLocks i t pl :
  lmgr_ok (shared x) -> proc_ok H (shared x) (fast x p) (backend_of x p) p -> at_of x p = AtReleaseShared lockmethodid allLocks i -> locktag_lockmethodid t = lockmethodid ->
  ProcLockHash (shared x) !! (t, p) = Some pl ->
  let mask := if allLocks then holdMask pl else releaseMask (backend_of x p) t in
  allLocks || (Z.land mask (Z.lnot (holdMask pl)) =? 0) = true /\
  (((mask =? 0) && negb (holdMask pl =? 0) = true /\ releaseMask (backend_of x p) t = 0) \/
   ((mask =? 0) && negb (holdMask pl =? 0) = false /\ exists s', release_proclock (shared x) p t mask = Ret s' /\ lmgr_ok s' /\ (forall t' q, t' <> t -> ProcLockHash s' !! (t', q) = ProcLockHash (shared x) !! (t', q)) /\
      own x (set_backend (set_shared x s') p (with_mask (backend_of x p) t 0)) p)).
Proof.
  intros ok P Hat Hm Hpl mask. unfold at_of in Hat. pose proof (partition_mask _ _ _ _ _ _ _ _ _ P Hat Hm Hpl) as Hmask. fold mask in Hmask.
  pose proof (pk_point _ _ _ _ _ P) as Hp. rewrite Hat in Hp. destruct Hp as (A1 & A2 & A3 & A4 & A5 & A6).
  assert (forall m, Z.testbit mask m = true -> holds (shared x) t p m = true) as Hsub by (intros m Hb; rewrite Hmask in Hb; by apply (vk_marked _ _ _ _ (pk_view _ _ _ _ _ P t m))).
  split.
  { destruct allLocks; [done|]. cbn [orb]. apply Z.eqb_eq, Z.bits_inj. intros m. rewrite Z.land_spec, Z.bits_0. destruct (Z.testbit mask m) eqn:Eb; [|done]. destruct (Z.ltb_spec m 0) as [Hn|Hn]; [by rewrite Z.testbit_neg_r in Eb|].
    rewrite Z.lnot_spec by done. specialize (Hsub m Eb). unfold holds in Hsub. rewrite Hpl in Hsub. by rewrite Hsub. }
  destruct (_ && _) eqn:Eskip; [left; split; [done|]|right; split; [done|]].
  { apply andb_true_iff in Eskip as (Ez%Z.eqb_eq & _). apply Z.bits_inj. intros m. by rewrite <- Hmask, Ez. }
  assert (links (allProcs (shared x) p) = false) as Hk by (pose proof (pk_wait _ _ _ _ _ P) as W; unfold wait_ok in W; by rewrite A1 in W).
  destruct (release_proclock_ok (shared x) t p mask ok Hk (mk_is_Some _ _ Hpl) Hsub) as (L & s' & HL & E & ok' & Hnq & R). exists s'. split_and!; [done|done|intros t' q; apply (fr_proclocks _ _ _ (rm_frame _ _ _ _ _ _ R))|].
  assert (mask <> 0) as Hnz.
  { intros Ez. rewrite Ez in Eskip. cbn in Eskip. apply negb_false_iff, Z.eqb_eq in Eskip. by destruct (lk_used _ _ _ (ok_locks _ ok t L HL) p pl Hpl). }
  apply (own_quiet _ _ _ _ x _ p s' (fast x p) (with_mask (backend_of x p) t 0)); try done.
  - by eapply effect_backend; [eapply effect_shared, effect_refl|].
  - apply rtc_once. by eapply step_release_modes.
  - apply R.
  - apply R.
  - eapply unmark_ok; [exact P|exact Hat|exact Hmask|apply R|intros t' m Hne; by apply (frame_holds _ _ _ (rm_frame _ _ _ _ _ _ R))|by apply (rm_procs _ _ _ _ _ _ R)].
  - by apply no_more_refl.
  - cbn. by rewrite Hat.
  - intros r j. unfold at_of. congruence.
  - intros t' m Hf. left. eauto.
Qed.

Lemma own_refl x p : proc_ok H (shared x) (fast x p) (backend_of x p) p -> closed_point (at_of x p) = true -> own x x p.
Proof.
  intros P Hc. apply (own_local _ _ _ _ x x p (fast x p) (backend_of x p)); try done; [apply effect_refl|by apply no_more_refl|]. intros r i E. by rewrite E in Hc.
Qed.

(** The loop leaves no marks on the locks it has seen. *)
Definition unmarks (b b' : backend) (seen : list LOCKTAG) (lockmethodid : Z) : Prop :=
  LocalHash b' = LocalHash b /\ at_point b' = at_point b /\ (forall t m, Z.testbit (releaseMask b' t) m = true -> Z.testbit (releaseMask b t) m = true) /\
  forall t, t ∈ seen -> locktag_lockmethodid t = lockmethodid -> releaseMask b' t = 0.

Lemma release_partition_ok p lockmethodid allLocks i tags : forall x,
  lmgr_ok (shared x) -> proc_ok H (shared x) (fast x p) (backend_of x p) p -> at_of x p = AtReleaseShared lockmethodid allLocks i -> NoDup tags ->
  (forall t, t ∈ tags -> is_Some (ProcLockHash (shared x) !! (t, p))) ->
  exists x', release_partition x p lockmethodid allLocks tags = Ret x' /\ own x x' p /\ unmarks (backend_of x p) (backend_of x' p) tags lockmethodid.
Proof.
  induction tags as [|t tags IH]; intros x ok P Hat Hnd Hin; cbn [release_partition].
  { exists x. unfold unmarks. split_and!; try done; [apply own_refl; [done|by rewrite Hat]|]. by intros t Ht%elem_of_nil. }
  apply NoDup_cons in Hnd as (Hnt & Hnd). destruct (Hin t) as [pl Hpl]; [set_solver|].
  assert (forall x1, lmgr_ok (shared x1) -> own x x1 p -> unmarks (backend_of x p) (backend_of x1 p) [t] lockmethodid -> (forall t', t' ∈ tags -> is_Some (ProcLockHash (shared x1) !! (t', p))) ->
    exists x', release_partition x1 p lockmethodid allLocks tags = Ret x' /\ own x x' p /\ unmarks (backend_of x p) (backend_of x' p) (t :: tags) lockmethodid) as Hnext.
  { intros x1 ok1 O1 (U1 & U2 & U3 & U4) Hin1. destruct (IH x1 ok1 (on_proc _ _ _ _ _ _ _ O1)) as (x' & E & O2 & V1 & V2 & V3 & V4); [unfold at_of in *; by rewrite U2|done|done|].
    exists x'. unfold unmarks. split_and!; [done|by eapply own_trans|congruence|congruence|auto|]. intros t' [->|Ht']%elem_of_cons Hm; [|auto]. apply Z.bits_inj. intros m. rewrite Z.bits_0.
    destruct (Z.testbit (releaseMask (backend_of x' p) t) m) eqn:Eb; [|done]. apply V3 in Eb. rewrite U4 in Eb by set_solver. by rewrite Z.bits_0 in Eb. }
  destruct (Z.eqb_spec (locktag_lockmethodid t) lockmethodid) as [Hm|Hm]; cbn [negb].
  2:{ apply Hnext; [done|apply own_refl; [done|by rewrite Hat]| |set_solver]. unfold unmarks. split_and!; try done. by intros t' ->%list_elem_of_singleton. }
  rewrite Hpl. cbn [deref cbind]. destruct (release_marked x p lockmethodid allLocks i t pl ok P Hat Hm Hpl) as (-> & [(-> & Hz)|(-> & s' & -> & ok' & Hother & O)]); cbn [c_assert cbind].
  - apply Hnext; [done|apply own_refl; [done|by rewrite Hat]| |set_solver]. unfold unmarks. split_and!; try done. by intros t' ->%list_elem_of_singleton.
  - apply Hnext; try done; [|intros t' Ht'; cbn; rewrite Hother; [apply Hin; set_solver|by intros ->]]. unfold unmarks. cbn. rewrite fn_lookup_insert. cbn. split_and!; try done.
    + intros t' m. destruct (decide (t' = t)) as [->|]; [by rewrite fn_lookup_insert, Z.bits_0|by rewrite fn_lookup_insert_ne].
    + intros t' ->%list_elem_of_singleton _. by rewrite fn_lookup_insert.
Qed.

Lemma release_all_shared_ok x p lockmethodid allLocks i tags :
  lmgr_ok (shared x) -> proc_ok H (shared x) (fast x p) (backend_of x p) p -> at_of x p = AtReleaseShared lockmethodid allLocks i -> NoDup tags ->
  (forall t, t ∈ tags <-> is_Some (ProcLockHash (shared x) !! (t, p)) /\ LockHashPartition H t = i) ->
  exists x', release_all_shared x p lockmethodid allLocks i tags = Ret x' /\ own x x' p.
Proof.
  intros ok P Hat Hnd Htags. pose proof (pk_point _ _ _ _ _ P) as Hp. pose proof Hat as Hat'. unfold at_of in Hat'. rewrite Hat' in Hp. destruct Hp as (A1 & A2 & A3 & A4 & A5 & A6). unfold release_all_shared.
  destruct (Z.ltb_spec i NUM_LOCK_PARTITIONS) as [Hi|Hi].
  - destruct (release_partition_ok p lockmethodid allLocks i tags x ok P Hat Hnd) as (x1 & -> & O & (U1 & U2 & U3 & U4)); [intros t Ht; by apply Htags|]. cbn [cbind]. eexists. split; [done|].
    set (pt := AtReleaseShared lockmethodid allLocks (i + 1)). pose proof (on_proc _ _ _ _ _ _ _ O) as P1. pose proof (pk_point _ _ _ _ _ P1) as Hp1. rewrite U2, Hat' in Hp1. destruct Hp1 as (B1 & B2 & B3 & B4 & B5 & B6).
    eapply own_trans; [exact O| |done|cbn; by rewrite fn_lookup_insert]. apply (own_local _ _ _ _ x1 _ p (fast x1 p) (with_point (backend_of x1 p) pt)); try done; [apply effect_goto, effect_refl| |by apply no_more_refl|intros r j; unfold at_of; rewrite U2, Hat'; done].
    apply proc_point; [done|by rewrite U2, Hat'|done|]. cbn. split_and!; try done; [lia|]. intros t m Hb. cbn in Hb. assert (LockHashPartition H t <> i) as Hne.
    { intros Hpart. assert (t ∈ tags) as Ht. { apply Htags. split; [|done]. apply U3 in Hb. destruct (vk_marked _ _ _ _ (pk_view _ _ _ _ _ P t m) Hb) as (Hh & _). cbn in Hh. unfold holds in Hh. destruct (ProcLockHash (shared x) !! (t, p)); [eauto|done]. }
      rewrite (U4 t Ht (B5 t m Hb)), Z.bits_0 in Hb. done. }
    specialize (B6 t m Hb). lia.
  - eexists. split; [done|]. set (pt := Outside _). apply (own_local _ _ _ _ x _ p (fast x p) (with_point (backend_of x p) pt)); try done; [apply effect_goto, effect_refl| |by apply no_more_refl|intros r j; congruence].
    apply proc_point; [done|by rewrite Hat'|done|]. cbn. split; [split_and!; try done|done]. intros t. apply Z.bits_inj. intros m. cbn. rewrite Z.bits_0. destruct (Z.testbit (releaseMask (backend_of x p) t) m) eqn:Eb; [|done].
    specialize (A6 t m Eb). unfold LockHashPartition in A6. pose proof (Z.mod_pos_bound (H t) NUM_LOCK_PARTITIONS eq_refl). lia.
Qed.
End release_all.
