(* ===== verification/LockEnv.v ===== *)
(** * Heavyweight locks: all backends together

    The invariant of the whole: every backend is in order, the counts of strong locks
    count the entries that say so, a strong lock that has been through the processes
    leaves no fast-path lock on its relation behind, and conflicting locks of different
    groups are not both held.  Every step keeps it, and no step fails. *)
From stdpp Require Import list gmap functions relations.
From S2P Require Import Prelude LockModes LockTable LockInvariant LockOps LockRequests LockSleep Deadlock DeadlockCycle DeadlockTopo DeadlockSearch DeadlockApply DeadlockVerdict LockSystem LockBackend LockFastPath LockLocal LockCounts LockSession LockOwn LockOwnViews LockOwnAcquire LockOwnWait LockOwnRelease LockOwnReleaseAll.

(** Modes of fast-path locks conflict with strong modes only. *)
Lemma weak_conflict m m' : weak_mode m -> conf m m' = true -> ShareUpdateExclusiveLock < m'.
Proof.
  unfold weak_mode. intros Hm Hc. destruct (conf_modes _ _ Hc) as (_ & Hm'). apply is_mode_cases in Hm'.
  assert (m = 1 \/ m = 2 \/ m = 3) as [->|[->| ->]] by lia; destruct Hm' as [->|[->|[->|[->|[->|[->|[->| ->]]]]]]]; vm_compute in Hc |- *; done.
Qed.

Lemma fast_strong F t m m' : fast_tag F t = true -> weak_mode m -> conf m m' = true -> strong t m' = true.
Proof.
  intros (E & Hdb)%fast_tag_spec Hm Hc. pose proof (weak_conflict _ _ Hm Hc). unfold ConflictsWithRelationFastPath. rewrite E. cbn. apply Z.eqb_neq in Hdb. rewrite Hdb. cbn. by apply Z.ltb_lt.
Qed.

(** The strong lock on the relation has looked at process [i]. *)
Definition cleared (x : lockenv) (q : Z) (t : LOCKTAG) (i : Z) : Prop :=
  exists m, strong_of (backend_of x q) (t, m) = true /\ forall j, transferring (backend_of x q) (t, m) j -> i < j.

Section env.
Context (H : LOCKTAG -> Z) (allProcCount MaxBackends : Z) (vacuumFlags : Z -> Z) (U : list Z).
Notation part := (FastPathStrongLockHashPartition H).
Notation own x x' p := (own_step H MaxBackends vacuumFlags U x x' p).

Record env_ok (x : lockenv) : Prop := {
  ev_shared : lock_reachable MaxBackends vacuumFlags U (shared x);
  ev_leaders : forall p, p ∈ U -> leader_of (shared x) p ∈ U;
  ev_proc : forall p, proc_ok H (shared x) (fast x p) (backend_of x p) p;
  ev_absent : forall p, p ∉ U -> LocalHash (backend_of x p) = ∅ /\ at_of x p = Outside NoCall;
  ev_count : forall h, strongCount x h = strong_total H (fun p => LocalHash (backend_of x p)) U h;
  ev_range : forall h, strongCount x h < 2 ^ 32;
  ev_clear : forall q t i, cleared x q t i -> open_to x i t -> False;
  ev_excl : forall t p q m m', leader_of (shared x) p <> leader_of (shared x) q -> conf m m' = true -> holds (shared x) t p m = true -> holds (shared x) t q m' = true ->
    live (backend_of x p) t m -> live (backend_of x q) t m' -> False }.

Hypotheses (Hnd : NoDup U) (Hrange : forall p, p ∈ U -> 0 <= p < allProcCount) (Henough : zlen U <= MaxBackends).

Lemma env_bounded x p : env_ok x -> p ∈ U -> counts_bounded H x p.
Proof. intros E Hp h. split; [|apply E]. rewrite (ev_count _ E). by apply (strong_total_le H (fun p => LocalHash (backend_of x p))). Qed.

(** Processes that are not backends have nothing. *)
Lemma absent_nothing x p t m : env_ok x -> p ∉ U -> strong_of (backend_of x p) (t, m) = false /\ fastheld (fast x p) t m = false.
Proof.
  intros E Hp. destruct (ev_absent _ E p Hp) as (HL & Hat). destruct (outside _ x p NoCall (ev_proc _ E p) Hat) as (Hpl & Q & _). split; [unfold strong_of; by rewrite HL|].
  apply (empty_not_held _ _ _ _ _ (ev_proc _ E p) Hpl t m Q). unfold nlocks_of. by rewrite HL.
Qed.

Lemma strong_counted x q t m : env_ok x -> strong_of (backend_of x q) (t, m) = true -> strongCount x (part t) <> 0.
Proof.
  intros E Hs. destruct (decide (q ∈ U)) as [Hq|Hq]; [|destruct (absent_nothing x q t m E Hq); congruence]. rewrite (ev_count _ E). intros Hz. unfold strong_of in Hs.
  destruct (LocalHash (backend_of x q) !! (t, m)) as [l|] eqn:El; [|done]. by apply (strong_total_zero H (fun p => LocalHash (backend_of x p)) U q (part t) (t, m) l Hz Hq El Hs).
Qed.

(** ** A step of one backend *)

Lemma env_own x x' p : env_ok x -> p ∈ U -> own x x' p -> env_ok x'.
Proof.
  intros E Hp O. destruct O as [O1 O2 O3 O4 O5 O6 O7 O8 O9 O10 O11]. constructor.
  - destruct (ev_shared _ E) as (s0 & Hs & Hr). exists s0. split; [done|]. by etrans.
  - intros q Hq. rewrite (nc_leader _ _ O3). by apply E.
  - intros q. destruct (decide (q = p)) as [->|Hne]; [done|]. rewrite O4, O5 by done. eapply bystander_ok; [by apply O2|]. apply E.
  - intros q Hq. assert (q <> p) by (by intros ->). unfold at_of. rewrite O5 by done. by apply E.
  - intros h. rewrite O7, (ev_count _ E). symmetry. apply (strong_total_change H (fun p => LocalHash (backend_of x p)) (fun p => LocalHash (backend_of x' p))); try done. intros q Hq. by rewrite O5.
  - apply O11, E.
  - intros q t i (m & Hs & Hj) Ho.
    assert (open_to x i t \/ (i = p /\ strongCount x (part t) = 0)) as Ho'.
    { destruct (decide (i = p)) as [->|Hne]; [destruct (O10 t Ho); auto|]. left. unfold open_to, at_of in *. by rewrite O4, O5 in Ho by done. }
    assert (0 <= i < allProcCount \/ i ∉ U) as Hi by (destruct (decide (i ∈ U)); [left; auto|by right]).
    destruct (decide (q = p)) as [->|Hne].
    + destruct (O8 (t, m) Hs) as [Ht|(Hs0 & Hn)].
      * specialize (Hj 0 Ht). destruct Hi as [Hi|Hi]; [lia|]. assert (i <> p) as Hip by (by intros ->). destruct (ev_absent _ E i Hi) as (_ & Hat).
        destruct Ho' as [[(m' & Hm')|(r & Hr & _)]|(? & _)]; [|congruence|done]. destruct (absent_nothing x i t m' E Hi). congruence.
      * destruct Ho' as [Ho'|(_ & Hz)]; [|by apply (strong_counted x p t m E Hs0)]. apply (ev_clear _ E p t i); [|done]. exists m. split; [done|]. intros j Hj'. by destruct (proj2 (Hn j)).
    + rewrite O5 in Hs by done. destruct Ho' as [Ho'|(_ & Hz)]; [|by apply (strong_counted x q t m E Hs)]. apply (ev_clear _ E q t i); [|done]. exists m. split; [done|]. intros j Hj'. apply Hj. by rewrite O5.
  - intros t q1 q2 m m' Hl Hc H1 H2 L1 L2. rewrite !(nc_leader _ _ O3) in Hl. destruct (nc_pairs _ _ O3 t q1 q2 m m' Hl Hc H1 H2) as (H1' & H2').
    assert (forall q m0, holds (shared x) t q m0 = true -> live (backend_of x' q) t m0 -> live (backend_of x q) t m0) as Hlive.
    { intros q m0 Hh Hlv. destruct (decide (q = p)) as [->|Hne]; [by apply O9|]. by rewrite O5 in Hlv. }
    apply (ev_excl _ E t q1 q2 m m' Hl Hc H1' H2'); auto.
Qed.

(** ** Transferring the locks of a process *)

(** A strong lock that is held has been through all processes. *)
Lemma held_cleared x q t m i : env_ok x -> holds (shared x) t q m = true -> strong_of (backend_of x q) (t, m) = true -> cleared x q t i.
Proof.
  intros E Hh Hs. exists m. split; [done|]. intros j (r & Hr & Hk). exfalso. pose proof (ev_proc _ E q) as P. pose proof (pk_point _ _ _ _ _ P) as Hp. rewrite Hr in Hp. destruct Hp as (A1 & A2 & (_ & Hz) & _).
  rewrite Hk in Hz. destruct (request_not_held H _ _ _ _ (t, m) P) as (Hn & _); [by rewrite Hr|done|done|done|]. cbn in Hn. congruence.
Qed.

Lemma env_moved x i t s' F' :
  env_ok x -> fast_tag (fast x i) t = true -> moved MaxBackends vacuumFlags U i t (shared x) s' (fast x i) F' -> env_ok (set_fast (set_shared x s') i F').
Proof.
  intros E Ht M. pose proof (mv_procs _ _ _ _ _ _ _ _ _ M) as Ep. pose proof (mv_frame _ _ _ _ _ _ _ _ _ M) as Fr. assert (forall q, leader_of s' q = leader_of (shared x) q) as El by (intros q; unfold leader_of; by rewrite Ep).
  assert (forall q t' m, q <> i -> holds s' t' q m = holds (shared x) t' q m) as Hoth.
  { intros q t' m Hne. destruct (decide (t' = t)) as [->|]; [by apply (mv_others _ _ _ _ _ _ _ _ _ M)|by apply (frame_holds _ _ _ Fr)]. }
  constructor; cbn.
  - destruct (ev_shared _ E) as (s0 & Hs & Hr). exists s0. split; [done|]. etrans; [exact Hr|apply M].
  - intros q Hq. rewrite El. by apply E.
  - intros q. destruct (decide (q = i)) as [->|Hne].
    + rewrite fn_lookup_insert. by eapply moved_ok; [| |apply E].
    + rewrite fn_lookup_insert_ne by done. eapply unaffected_ok; [|apply E]. split; [by rewrite Ep|]. intros t' m. by apply Hoth.
  - apply E.
  - apply E.
  - apply E.
  - intros q t' j Hcl Ho. apply (ev_clear _ E q t' j Hcl). destruct Ho as [(m & Hm)|Ho]; [left; exists m|by right]. cbn in Hm. destruct (decide (j = i)) as [->|Hne]; [|by rewrite fn_lookup_insert_ne in Hm].
    rewrite fn_lookup_insert in Hm. unfold fastheld in *. rewrite (fast_tag_ext (fast x i) F' t' (proj1 (proj2 (mv_slots _ _ _ _ _ _ _ _ _ M)))) in Hm. apply andb_true_iff in Hm as (Hm1 & Hm2). rewrite Hm1. by apply (mv_fewer _ _ _ _ _ _ _ _ _ M).
  - assert (forall t' q m m', leader_of (shared x) i <> leader_of (shared x) q -> conf m m' = true -> holds s' t' i m = true -> holds s' t' q m' = true ->
      live (backend_of x i) t' m -> live (backend_of x q) t' m' -> False) as Hone.
    { intros t' q m m' Hl Hc H1 H2 L1 L2. assert (q <> i) as Hne by congruence. rewrite Hoth in H2 by done. destruct (holds (shared x) t' i m) eqn:Hold; [by apply (ev_excl _ E t' i q m m')|].
      destruct (decide (t' = t)) as [->|Hnt]; [|rewrite (frame_holds _ _ _ Fr) in H1 by done; congruence].
      pose proof (mv_sum _ _ _ _ _ _ _ _ _ M m) as Hsum. rewrite H1, Hold in Hsum. cbn in Hsum. symmetry in Hsum. pose proof (proj1 (fast_bit_spec _ _ _) Hsum) as (Hw & _).
      apply (ev_clear _ E q t i); [|left; exists m; unfold fastheld; by rewrite Ht]. eapply held_cleared; [done|exact H2|]. apply L2. by eapply fast_strong. }
    intros t' p q m m'. rewrite !El. intros Hl Hc H1 H2 L1 L2. destruct (decide (p = i)) as [->|Hp]; [by apply (Hone t' q m m')|]. destruct (decide (q = i)) as [->|Hq].
    + apply (Hone t' p m' m); try done. by rewrite conf_sym.
    + rewrite !Hoth in * by done. by apply (ev_excl _ E t' p q m m').
Qed.

(** The search goes on to the next process. *)
Lemma env_point x p pt :
  env_ok x -> p ∈ U -> proc_ok H (shared x) (fast x p) (with_point (backend_of x p) pt) p -> (forall r, pt <> AtFastGrant r) ->
  (forall k i, strong_of (backend_of x p) k = true -> (forall j, transferring (with_point (backend_of x p) pt) k j -> i < j) -> open_to (goto x p pt) i (fst k) -> forall j, transferring (backend_of x p) k j -> i < j) ->
  env_ok (goto x p pt).
Proof.
  intros E Hp P Hpt Hadv. assert (forall q, LocalHash (backend_of (goto x p pt) q) = LocalHash (backend_of x q)) as HL.
  { intros q. cbn. destruct (decide (q = p)) as [->|]; [by rewrite fn_lookup_insert|by rewrite fn_lookup_insert_ne]. }
  assert (forall q k, strong_of (backend_of (goto x p pt) q) k = strong_of (backend_of x q) k) as Hs by (intros q k; unfold strong_of; by rewrite HL).
  assert (forall q t m, live (backend_of (goto x p pt) q) t m <-> live (backend_of x q) t m) as Hlv by (intros q t m; unfold live; by rewrite HL, Hs).
  constructor; try apply E; cbn.
  - intros q. destruct (decide (q = p)) as [->|]; [by rewrite fn_lookup_insert|rewrite fn_lookup_insert_ne by done; apply E].
  - intros q Hq. assert (q <> p) by (by intros ->). unfold at_of. cbn. rewrite fn_lookup_insert_ne by done. by apply E.
  - intros h. rewrite (ev_count _ E). symmetry. apply strong_total_ext. intros q _. apply HL.
  - intros q t i (m & Hsm & Hj) Ho. rewrite Hs in Hsm. assert (open_to x i t) as Ho'.
    { destruct Ho as [?|(r & Hr & Ht)]; [by left|]. unfold at_of in Hr. cbn in Hr. destruct (decide (i = p)) as [->|]; [rewrite fn_lookup_insert in Hr; by destruct (Hpt r)|]. rewrite fn_lookup_insert_ne in Hr by done. right. eauto. }
    apply (ev_clear _ E q t i); [|done]. exists m. split; [done|]. destruct (decide (q = p)) as [->|Hne].
    + apply Hadv; [done| |done]. intros j. specialize (Hj j). cbn in Hj. by rewrite fn_lookup_insert in Hj.
    + intros j Hj'. apply Hj. cbn. by rewrite fn_lookup_insert_ne.
  - intros t q1 q2 m m' Hl Hc H1 H2. change (<[p := _]> (backend_of x)) with (backend_of (goto x p pt)). rewrite !Hlv. by apply (ev_excl _ E t q1 q2 m m').
Qed.

Lemma env_lmgr x : env_ok x -> lmgr_ok (shared x) /\ populated U (shared x).
Proof. intros E. exact (lock_reachable_ok MaxBackends vacuumFlags U Henough _ (ev_shared _ E)). Qed.

Lemma open_backend x i t : env_ok x -> open_to x i t -> i ∈ U.
Proof.
  intros E Ho. destruct (decide (i ∈ U)) as [|Hi]; [done|]. exfalso. destruct (ev_absent _ E i Hi) as (_ & Hat). destruct Ho as [(m & Hm)|(r & Hr & _)]; [|congruence].
  destruct (absent_nothing x i t m E Hi). congruence.
Qed.

(** A lock that can be transferred: it is in a slot only, and nobody waits for it. *)
Lemma env_movable x i t : env_ok x -> fast_tag (fast x i) t = true -> movable U i t (shared x) (fast x i).
Proof.
  intros E Ht. destruct (env_lmgr x E) as (ok & _). pose proof (ev_proc _ E i) as P. assert (forall m, fast_bit (fast x i) (locktag_field2 t) m = true -> fastheld (fast x i) t m = true) as Hf by (intros m Hm; unfold fastheld; by rewrite Ht).
  constructor; [done|apply P| | |].
  - intros m Hm%Hf. exact (vk_apart _ _ _ _ (pk_view _ _ _ _ _ P t m) Hm).
  - intros m Hm%Hf Hw Hmode. assert (links (allProcs (shared x) i) = true) as Hk by (destruct (links (allProcs (shared x) i)) eqn:Ek; [done|]; by rewrite (ln_idle _ (ok_links _ ok) i Ek) in Hw).
    destruct (awaited_not_held _ _ _ _ _ P Hk) as (t1 & m1 & Hw1 & Hm1 & _ & _ & Hn). rewrite Hw in Hw1. injection Hw1 as <-. rewrite Hmode in Hm1. subst m1. unfold heldp in Hn. by rewrite Hm, orb_true_r in Hn.
  - intros m Hm%Hf. assert (i ∈ U) as Hi by (apply (open_backend x i t E); left; eauto). split; [done|by apply E].
Qed.

Lemma transfer_step_ok room x p r i :
  env_ok x -> p ∈ U -> at_of x p = AtTransfer r i -> fast_locked x i = false -> exists x', transfer_step H allProcCount room x p r i = Ret x' /\ env_ok x' /\ rtc (lock_step MaxBackends vacuumFlags U) (shared x) (shared x').
Proof.
  intros E Hp Hat Hfl. pose proof (ev_proc _ E p) as P. pose proof (pk_point _ _ _ _ _ P) as Hpt. pose proof Hat as Hat'. unfold at_of in Hat'. rewrite Hat' in Hpt. destruct Hpt as (A1 & A2 & A3 & A4 & A5). unfold transfer_step.
  assert (forall k j, transferring (backend_of x p) k j -> k = q_key r /\ j = i) as Htr by (intros k j (r' & Hr' & <-); rewrite Hat' in Hr'; by injection Hr' as <- <-).
  destruct (Z.ltb_spec i allProcCount) as [Hi|Hi].
  2:{ eexists. split; [done|]. split; [|done]. apply env_point; try done.
      - apply proc_point; [done|by rewrite Hat'|done|]. cbn. unfold in_progress. rewrite A4. done.
      - intros k i0 _ _ Ho j (_ & ->)%Htr. assert (i0 ∈ U) as Hi0; [|specialize (Hrange i0 Hi0); lia]. apply (open_backend x i0 (fst k) E). destruct Ho as [Ho|(r' & Hr' & Ht)]; [by left|right]. exists r'. split; [|done].
        unfold at_of in *. cbn in Hr'. destruct (decide (i0 = p)) as [->|]; [by rewrite fn_lookup_insert in Hr'|by rewrite fn_lookup_insert_ne in Hr']. }
  assert (databaseId (fast x i) = locktag_field1 (q_tag r) -> fast_tag (fast x i) (q_tag r) = true) as Htag.
  { intros Edb. apply fast_tag_spec. destruct A3 as (He & _). destruct (vk_key _ _ _ _ (pk_view _ _ _ _ _ P (q_tag r) (q_mode r))) as (Ht & _); [cbn; by apply bool_decide_eq_true|].
    unfold ConflictsWithRelationFastPath in A4. rewrite !andb_true_iff, !Z.eqb_eq, negb_true_iff, Z.eqb_neq in A4. destruct A4 as (((_ & B1) & B2) & _). rewrite Edb. split; [by apply Ht|done]. }
  destruct (transfer_proc_ok MaxBackends vacuumFlags U i (q_tag r) room (shared x) (fast x i)) as (s' & F' & b & -> & Hres); [intros Edb; apply env_movable; auto|]. cbn [cbind].
  set (x1 := set_fast (set_shared x s') i F').
  assert (env_ok x1 /\ (b = true -> forall m, fastheld (fast x1 i) (q_tag r) m = false) /\ rtc (lock_step MaxBackends vacuumFlags U) (shared x) s') as (E1 & Hnone & Hsteps).
  { destruct Hres as [(Edb & -> & -> & ->)|(Edb & M & Hd)].
    - assert (moved MaxBackends vacuumFlags U i (q_tag r) (shared x) (shared x) (fast x i) (fast x i)) as M by apply moved_refl. split_and!; [| |done].
      + destruct E as [e1 e2 e3 e4 e5 e6 e7 e8]. assert (forall q, fast x1 q = fast x q) as Ef by (intros q; cbn; destruct (decide (q = i)) as [->|]; [by rewrite fn_lookup_insert|by rewrite fn_lookup_insert_ne]).
        constructor; try done; [intros q; rewrite Ef; apply e3|]. intros q t j Hc Ho. apply (e7 q t j Hc). unfold open_to in *. by rewrite Ef in Ho.
      + intros _ m. cbn. rewrite fn_lookup_insert. unfold fastheld. destruct (fast_tag (fast x i) (q_tag r)) eqn:Et; [|done]. apply fast_tag_spec in Et as (Et & _). rewrite Et in Edb. by cbn in Edb.
    - split_and!; [exact (env_moved x i (q_tag r) s' F' E (Htag Edb) M)| |apply M]. intros Hok m. cbn. rewrite fn_lookup_insert. unfold fastheld. by rewrite (Hd Hok), andb_false_r. }
  pose proof (ev_proc _ E1 p) as P1. change (backend_of x1 p) with (backend_of x p) in P1. destruct b.
  - eexists. split; [done|]. split; [|done]. apply env_point; try done.
    + apply proc_point; [done|exact (f_equal plain Hat')|done|]. cbn. done.
    + intros k i0 _ Hj Ho j (-> & ->)%Htr. specialize (Hj (i + 1)). assert (i0 < i + 1) as Hlt by (apply Hj; by exists r). destruct (decide (i0 = i)) as [->|]; [|lia]. exfalso. destruct Ho as [(m & Hm)|(r' & Hr' & _)].
      * cbn in Hm. specialize (Hnone eq_refl m). cbn in Hnone. congruence.
      * unfold at_of in Hr'. unfold fast_locked in Hfl. cbn in Hr'. destruct (decide (i = p)) as [->|Hne]; [by rewrite fn_lookup_insert in Hr'|]. rewrite fn_lookup_insert_ne in Hr' by done. unfold at_of in Hfl. by rewrite Hr' in Hfl.
  - destruct (not_available_ok H x1 x1 p _ _ _ r true (effect_refl H x1 p) (env_bounded _ _ E1 Hp)) as (x2 & b2 & -> & E2 & P2 & N2 & Hcl & Hns).
    { apply proc_point; [done|exact (f_equal plain Hat')|done|]. cbn. unfold in_progress. rewrite A4. done. }
    exists x2. split; [done|]. split; [|by rewrite (ef_shared _ _ _ _ _ _ _ E2)]. apply (env_own x1 x2 p E1 Hp). apply (own_quiet' _ _ _ _ x1 x2 p (shared x1) (fast x1 p) b2); try done; [intros; apply bystander_refl| |].
    + intros r' j Hr'. unfold at_of in Hr'. cbn in Hr'. rewrite Hat' in Hr'. by injection Hr' as <- _.
    + intros t m Hf. left. eauto.
Qed.

(** ** Every step *)

Ltac own_env Hok E Hp Ef :=
  let x1 := fresh in let E1 := fresh in let O1 := fresh in
  destruct Hok as (x1 & E1 & O1); rewrite E1 in Ef; injection Ef as <-; exact (conj (env_own _ _ _ E Hp O1) (on_shared _ _ _ _ _ _ _ O1)).

Lemma backend_step_ok x x' p : env_ok x -> p ∈ U -> backend_step H allProcCount MaxBackends vacuumFlags p x x' -> env_ok x' /\ rtc (lock_step MaxBackends vacuumFlags U) (shared x) (shared x').
Proof.
  intros E Hp S. pose proof (ev_proc _ E p) as P. pose proof (env_bounded x p E Hp) as Hb. destruct (env_lmgr x E) as (ok & Pop). pose proof (ev_leaders _ E p Hp) as Hl.
  destruct S as [recovery r res x' Hat Ht Hr Ef|r x' Hat Hr Ef|r x' Hat Hr Ef|room r i x' Hat Hfl Ef|rl rp r x' Hat Ef|r x' Hat Hst Ef|r possible0 s' v Hat Hlen Ef|r Hat|x' Hat Ef|x' Hat Ef|k owner res x' Hat Ef|k x' Hat Ef|k x' Hat Ef|
    k owner res x' Hat Hk Ef|k cur parent res b' Hat Hk Hne Ef|k l res b' Hat Hk Hn Ef|lm al order res x' Hat Hnd' Ho Ef|lm al todo have x' Hat Ef|lm al k todo x' Hat Ef|lm al i tags x' Hat Hnd' Htags Ef].
  - pose proof (acquire_begin_ok H MaxBackends vacuumFlags U recovery x p r res P Hb Hat Ht Hr) as Hok. destruct (bad_request recovery r); [destruct Hok as (e & He); congruence|]. own_env Hok E Hp Ef.
  - own_env (fast_test_ok H MaxBackends vacuumFlags U x p r P Hb Hat Hr) E Hp Ef.
  - own_env (fast_grant_ok H MaxBackends vacuumFlags U x p r P Hb Hat Hr) E Hp Ef.
  - destruct (transfer_step_ok room x p r i E Hp Hat Hfl) as (x1 & E1 & O1). rewrite E1 in Ef. by injection Ef as <-.
  - own_env (shared_step_ok H MaxBackends vacuumFlags U rl rp x p r ok P Hb Hp Hl Hat) E Hp Ef.
  - own_env (wake_step_ok H MaxBackends vacuumFlags U x p r ok P Hat Hst) E Hp Ef.
  - destruct (timeout_ok H MaxBackends vacuumFlags U x p r possible0 ok (populated_searchable MaxBackends U (shared x) Henough ok Pop) Hl P Hat Hlen) as (s1 & v1 & E1 & O1). rewrite E1 in Ef. injection Ef as <- _. exact (conj (env_own _ _ _ E Hp O1) (on_shared _ _ _ _ _ _ _ O1)).
  - pose proof (interrupt_ok H MaxBackends vacuumFlags U x p r P Hat) as O1. exact (conj (env_own _ _ _ E Hp O1) (on_shared _ _ _ _ _ _ _ O1)).
  - own_env (cleanup_begin_ok H MaxBackends vacuumFlags U x p P Hb Hat) E Hp Ef.
  - own_env (cleanup_end_ok H MaxBackends vacuumFlags U x p ok P Hat) E Hp Ef.
  - pose proof (release_begin_ok H MaxBackends vacuumFlags U x p k owner res P Hb Hat) as Hok. destruct (bad_lock (fst k) (snd k)); [destruct Hok as (e & He); congruence|]. own_env Hok E Hp Ef.
  - own_env (release_step_ok H MaxBackends vacuumFlags U x p k ok P Hat) E Hp Ef.
  - own_env (remove_step_ok H MaxBackends vacuumFlags U x p k P Hb Hat) E Hp Ef.
  - own_env (ReleaseLockIfHeld_ok H MaxBackends vacuumFlags U x p k owner res P Hb Hat Hk) E Hp Ef.
  - own_env (LockReassignOwner_step H MaxBackends vacuumFlags U x p k cur parent res P Hat Hk Hne) E Hp Ef.
  - own_env (MarkLockClear_step H MaxBackends vacuumFlags U x p k l res P Hat Hk Hn) E Hp Ef.
  - pose proof (release_all_begin_ok H MaxBackends vacuumFlags U x p lm al order res P Hat Hnd' Ho) as Hok. destruct (_ || _); [destruct Hok as (e & He); congruence|]. own_env Hok E Hp Ef.
  - own_env (release_all_local_ok H MaxBackends vacuumFlags U x p lm al todo have P Hb Hat) E Hp Ef.
  - own_env (refind_step_ok H MaxBackends vacuumFlags U x p lm al k todo ok P Hb Hat) E Hp Ef.
  - own_env (release_all_shared_ok H MaxBackends vacuumFlags U x p lm al i tags ok P Hat Hnd' Htags) E Hp Ef.
Qed.

(** At startup no backend has done anything. *)
Record session_start (x : lockenv) : Prop := {
  ss_shared : starting (shared x);
  ss_leaders : forall p, p ∈ U -> leader_of (shared x) p ∈ U;
  ss_fast : forall p, zlen (fpRelId (fast x p)) = FP_LOCK_SLOTS_PER_BACKEND /\ fpLockBits (fast x p) = 0;
  ss_count : forall h, strongCount x h = 0;
  ss_backend : forall p, let b := backend_of x p in
    LocalHash b = ∅ /\ (forall o, nlocks (resOwners b o) = 0 /\ ro_locks (resOwners b o) = []) /\ FastPathLocalUseCount b = 0 /\ quiet b /\ at_point b = Outside NoCall }.

Lemma unlocked_fast F : zlen (fpRelId F) = FP_LOCK_SLOTS_PER_BACKEND -> fpLockBits F = 0 -> fast_ok F /\ used_count F = 0 /\ forall t m, fastheld F t m = false.
Proof.
  intros Hlen Hb. assert (forall f m, slot_bit F f m = false) as Hbit by (intros f m; unfold slot_bit; by rewrite Hb, Z.bits_0).
  assert (forall f, f ∈ fast_slots -> slot_used F f = false) as Hu.
  { intros f Hf%elem_of_fast_slots. destruct (slot_used F f) eqn:E; [|done]. apply slot_used_spec in E as (m & _ & E); [|lia]. by rewrite Hbit in E. }
  split_and!.
  - constructor; [done|rewrite Hb; lia|]. intros f g Hf Hg Uf. by rewrite Hu in Uf.
  - unfold used_count. pose proof (countb_nonneg (slot_used F) fast_slots). destruct (Z.eqb_spec (countb (slot_used F) fast_slots) 0) as [|Hne]; [done|]. destruct (proj1 (countb_pos (slot_used F) fast_slots)) as (f & Hf & E); [lia|]. by rewrite Hu in E.
  - intros t m. destruct (fastheld F t m) eqn:E; [|done]. apply andb_true_iff in E as (_ & E). apply fast_bit_spec in E as (_ & f & _ & _ & E). by rewrite Hbit in E.
Qed.

Lemma session_start_ok x : session_start x -> env_ok x.
Proof.
  intros [S1 S2 S3 S4 S5]. assert (forall t q m, holds (shared x) t q m = false) as Hh by (intros t q m; unfold holds; by rewrite (in_proclocks _ S1), lookup_empty).
  assert (forall p t m, fastheld (fast x p) t m = false) as Hf by (intros p; by destruct (S3 p), (unlocked_fast (fast x p)) as (_ & _ & ?)).
  assert (forall p k, LocalHash (backend_of x p) !! k = None) as HL by (intros p k; destruct (S5 p) as (-> & _); apply lookup_empty).
  constructor.
  - exists (shared x). by split.
  - done.
  - intros p. destruct (S5 p) as (B1 & B2 & B3 & Q & B5), (S3 p) as (F1 & F2), (unlocked_fast (fast x p) F1 F2) as (F3 & F4 & _). pose proof Q as (Q1 & Q2 & Q3). constructor; [|done|by rewrite F4, B3| | |].
    + unfold table_ok. rewrite B5. constructor; [intros k l Hl; by rewrite HL in Hl|]. intros o. destruct (B2 o) as (N1 & N2). split; [rewrite N1; done|]. intros _. rewrite N1, N2. split_and!; [done|apply NoDup_nil_2|].
      intros k. split; [by intros ?%elem_of_nil|]. intros (l & Hl & _). by rewrite HL in Hl.
    + intros t m. apply view_gone; rewrite ?Hh, ?Hf, ?Q3, ?Z.bits_0; try done; [unfold granted_asleep; by rewrite Q1, bool_decide_eq_false_2|unfold granted_asleep; by rewrite Q1, bool_decide_eq_false_2|unfold releasing; by rewrite B5|by rewrite Q2].
    + unfold wait_ok. rewrite Q1. by apply (in_idle _ S1).
    + rewrite B5. by split.
  - intros p _. destruct (S5 p) as (B1 & _ & _ & _ & B5). done.
  - intros h. rewrite S4. symmetry. apply strong_total_empty. intros p. apply S5.
  - intros h. rewrite S4. lia.
  - intros q t i (m & Hs & _). unfold strong_of in Hs. by rewrite HL in Hs.
  - intros t p q m m' _ _ Hp. by rewrite Hh in Hp.
Qed.

Definition session_reachable (x : lockenv) : Prop := exists x0, session_start x0 /\ rtc (session_step H allProcCount MaxBackends vacuumFlags U) x0 x.

Lemma session_reachable_ok x : session_reachable x -> env_ok x.
Proof.
  intros (x0 & Hs & Hr). apply session_start_ok in Hs. induction Hr as [x|x x1 x2 (p & Hp & S) _ IH]; [done|]. by apply IH, (backend_step_ok x x1 p).
Qed.
End env.
