(* ===== verification/LockRuns.v ===== *)
(** * Heavyweight locks: running backends

    The next critical section of a backend as a function of the point it has reached, and
    a driver that runs given calls of given backends; what it does are steps of the
    system. *)
From stdpp Require Import list gmap functions relations.
From S2P Require Import Prelude LockModes LockTable LockInvariant LockOps LockSystem LockBackend LockFastPath LockLocal LockSession LockOwn LockEnv.

Section runs.
Context (H : LOCKTAG -> Z) (allProcCount MaxBackends : Z) (vacuumFlags : Z -> Z) (U : list Z).

(** The next section of a call that is under way; [None]: the backend is outside of any
    call, asleep, or waits for the fast-path lock of another one. *)
Definition next_section (room : Z -> bool * bool) (room_lock room_proclock : bool) (tags : list LOCKTAG) (x : lockenv) (p : Z) : option (cres lockenv) :=
  match at_of x p with
  | Outside _ => None
  | AtFastTest r => Some (fast_test H x p r)
  | AtFastGrant r => Some (fast_grant H x p r)
  | AtTransfer r i => if fast_locked x i then None else Some (transfer_step H allProcCount room x p r i)
  | AtShared r => Some (shared_step H room_lock room_proclock x p r)
  | AtSleep r => if waitStatus (allProcs (shared x) p) =? STATUS_WAITING then None else Some (wake_step x p r)
  | AtError => Some (cleanup_begin H x p)
  | AtCleanup => Some (cleanup_end x p)
  | AtRelease k => Some (release_step H x p k)
  | AtRemove k => Some (remove_step H x p k)
  | AtReleaseLocal lockmethodid allLocks todo have => Some (release_all_local H x p lockmethodid allLocks todo have)
  | AtRefind lockmethodid allLocks k todo => Some (refind_step H x p lockmethodid allLocks k todo)
  | AtReleaseShared lockmethodid allLocks i => Some (release_all_shared x p lockmethodid allLocks i tags)
  end.

(** What the section needs from outside: the counts do not overflow, and the loop over a
    partition sees the locks of the process in it. *)
Definition section_input (tags : list LOCKTAG) (x : lockenv) (p : Z) : Prop :=
  match at_of x p with
  | AtFastTest r | AtFastGrant r => count_room H x (q_tag r)
  | AtReleaseShared _ _ i => NoDup tags /\ forall t, t ∈ tags <-> is_Some (ProcLockHash (shared x) !! (t, p)) /\ LockHashPartition H t = i
  | _ => True
  end.

Lemma next_section_step room room_lock room_proclock tags x p x' :
  section_input tags x p -> next_section room room_lock room_proclock tags x p = Some (Ret x') -> backend_step H allProcCount MaxBackends vacuumFlags p x x'.
Proof.
  unfold section_input, next_section. destruct (at_of x p) eqn:Hat; intros Hin E; try discriminate; try (injection E as E).
  - by eapply bs_fast_test.
  - by eapply bs_fast_grant.
  - destruct (fast_locked x i) eqn:Ef; [discriminate|]. injection E as E. by eapply bs_transfer.
  - by eapply bs_shared.
  - destruct (Z.eqb_spec (waitStatus (allProcs (shared x) p)) STATUS_WAITING); [discriminate|]. injection E as E. by eapply bs_wake.
  - by eapply bs_cleanup_begin.
  - by eapply bs_cleanup_end.
  - by eapply bs_release_shared.
  - by eapply bs_remove.
  - by eapply bs_release_local.
  - by eapply bs_refind.
  - destruct Hin. by eapply bs_release_partition.
Qed.

(** The locks of a process in a partition. *)
Definition tags_of (s : lmgr) (p i : Z) : list LOCKTAG :=
  map fst (filter (fun k : LOCKTAG * Z => snd k = p /\ LockHashPartition H (fst k) = i) (map fst (map_to_list (ProcLockHash s)))).

Lemma tags_of_spec s p i : NoDup (tags_of s p i) /\ forall t, t ∈ tags_of s p i <-> is_Some (ProcLockHash s !! (t, p)) /\ LockHashPartition H t = i.
Proof.
  unfold tags_of. split.
  - apply NoDup_fmap_2_strong; [|apply NoDup_filter, NoDup_fst_map_to_list]. intros [t1 p1] [t2 p2] (H1 & _)%list_elem_of_filter (H2 & _)%list_elem_of_filter E. cbn in *. destruct H1, H2. congruence.
  - intros t. rewrite list_elem_of_fmap. split.
    + intros ([t' p'] & -> & (H1 & H2)%list_elem_of_filter). cbn in *. destruct H1 as (-> & ->). split; [|done]. apply list_elem_of_fmap in H2 as ([k pl] & E & H2%elem_of_map_to_list). cbn in E. subst. eauto.
    + intros ([pl Hpl] & Hi). exists (t, p). split; [done|]. apply list_elem_of_filter. split; [done|]. apply list_elem_of_fmap. exists ((t, p), pl). split; [done|]. by apply elem_of_map_to_list.
Qed.

(** What a backend is told to do. *)
Inductive action :=
  | Acquire (r : request)
  | Release (k : LOCALLOCKTAG) (owner : option Z)
  | ReleaseAll (lockmethodid : Z) (allLocks : bool)
  | Interrupt
  | Continue.

Definition roomy : Z -> bool * bool := fun _ => (true, true).

Definition has_room (x : lockenv) (t : LOCKTAG) : bool := strongCount x (FastPathStrongLockHashPartition H t) <? 2 ^ 32 - 1.
Definition good_tag (t : LOCKTAG) : bool := negb (locktag_type t =? LOCKTAG_RELATION) || bool_decide (t = SET_LOCKTAG_RELATION (locktag_field1 t) (locktag_field2 t)).

Definition exec (x : lockenv) (p : Z) (a : action) : cres lockenv :=
  match a, at_of x p with
  | Acquire r, Outside _ => if good_tag (q_tag r) && has_room x (q_tag r) then acquire_begin H false x p r else Undef
  | Release k owner, Outside _ => release_begin H x p k owner
  | ReleaseAll lockmethodid allLocks, Outside _ => release_all_begin x p lockmethodid allLocks (map fst (map_to_list (LocalHash (backend_of x p))))
  | Interrupt, AtSleep _ => Ret (goto x p AtError)
  | Continue, pt =>
      let tags := match pt with AtReleaseShared _ _ i => tags_of (shared x) p i | _ => [] end in
      let room := match pt with AtFastTest r | AtFastGrant r => has_room x (q_tag r) | _ => true end in
      if room then match next_section roomy true true tags x p with Some c => c | None => Undef end else Undef
  | _, _ => Undef
  end.

Lemma exec_step x p a x' : p ∈ U -> exec x p a = Ret x' -> session_step H allProcCount MaxBackends vacuumFlags U x x'.
Proof.
  intros Hp E. exists p. split; [done|]. unfold exec in E. destruct a as [r|k owner|lm al| |].
  - destruct (at_of x p) eqn:Hat; try discriminate. destruct (good_tag (q_tag r) && has_room x (q_tag r)) eqn:Eg; [|discriminate]. apply andb_true_iff in Eg as (Eg & Er%Z.ltb_lt).
    eapply bs_acquire; [done| |done|done]. intros Ht. unfold good_tag in Eg. apply Z.eqb_eq in Ht. rewrite Ht in Eg. by apply bool_decide_eq_true in Eg.
  - destruct (at_of x p) eqn:Hat; try discriminate. by eapply bs_release.
  - destruct (at_of x p) eqn:Hat; try discriminate. eapply bs_release_all; [done| | |exact E]; [apply NoDup_fst_map_to_list|]. intros k. rewrite list_elem_of_fmap. split.
    + intros ([k' l] & -> & Hl%elem_of_map_to_list). eauto.
    + intros [l Hl]. exists (k, l). split; [done|]. by apply elem_of_map_to_list.
  - destruct (at_of x p) eqn:Hat; try discriminate. injection E as <-. by eapply bs_interrupt.
  - set (tags := match at_of x p with AtReleaseShared _ _ i => tags_of (shared x) p i | _ => [] end) in E.
    assert (forall c, c = Ret x' -> next_section roomy true true tags x p = Some c -> section_input tags x p -> backend_step H allProcCount MaxBackends vacuumFlags p x x') as Hn.
    { intros c -> Hs Hin. by eapply next_section_step. }
    destruct (match at_of x p with AtFastTest r | AtFastGrant r => has_room x (q_tag r) | _ => true end) eqn:Er; [|discriminate].
    destruct (next_section roomy true true tags x p) as [c|] eqn:En; [|discriminate]. apply (Hn c E eq_refl). unfold section_input, tags. destruct (at_of x p); try done; [by apply Z.ltb_lt|by apply Z.ltb_lt|apply tags_of_spec].
Qed.

Fixpoint run (x : lockenv) (acts : list (Z * action)) : cres lockenv :=
  match acts with
  | [] => Ret x
  | (p, a) :: acts => if bool_decide (p ∈ U) then let* x := exec x p a in run x acts else Undef
  end.

Lemma run_steps acts : forall x x', run x acts = Ret x' -> rtc (session_step H allProcCount MaxBackends vacuumFlags U) x x'.
Proof.
  induction acts as [|[p a] acts IH]; intros x x'; cbn [run]; [by intros [= ->]|]. case_bool_decide as Hp; [|done]. destruct (exec x p a) as [x1| |] eqn:E; cbn [cbind]; try done.
  intros Hr. eapply rtc_l; [by eapply exec_step|by apply IH].
Qed.

(** The state after a run that goes through. *)
Definition after (x : lockenv) (acts : list (Z * action)) : lockenv := match run x acts with Ret x' => x' | _ => x end.

Lemma session_after_reachable x acts : session_start U x -> session_reachable H allProcCount MaxBackends vacuumFlags U (after x acts).
Proof. intros Hs. exists x. split; [done|]. unfold after. destruct (run x acts) eqn:E; [by eapply run_steps| |]; apply rtc_refl. Qed.
End runs.
