(* ===== verification/LockSessionTheorems.v ===== *)
(** * Heavyweight locks: the claims about whole backends

    What [LockAcquireExtended], [LockRelease], [LockReleaseAll] and [LockErrorCleanup]
    promise when any number of backends run them, with the fast path and the local tables:
    conflicting locks are not owned together, the tables agree, no routine fails, and the
    shared table only does what its own theory says; and a defect of the clean-up. *)
From stdpp Require Import list gmap functions relations.
From S2P Require Import Prelude LockModes LockTable LockInvariant LockOps LockRequests LockSystem LockBackend LockFastPath LockLocal LockCounts LockSession LockOwn LockOwnViews LockOwnAcquire LockOwnWait LockOwnRelease LockOwnReleaseAll LockEnv LockRuns.

(** The backend counts the lock and, if it is a strong one, is counted itself. *)
Definition owns (x : lockenv) (p : Z) (t : LOCKTAG) (m : Z) : Prop :=
  0 < nlocks_of (backend_of x p) (t, m) /\ (strong t m = true -> strong_of (backend_of x p) (t, m) = true).

(** ** Concrete runs *)

Module session_demo.
(** Three backends of one database, 5. *)
Definition backends : list Z := [1; 2; 3].
Definition hash (t : LOCKTAG) : Z := locktag_field2 t.
Definition idle : PGPROC :=
  {| pid := 0; lockGroupLeader := None; lockGroupMembers := []; links := false; waitLock := None;
     waitProcLock := None; waitLockMode := 0; heldLocks := 0; waitStatus := STATUS_OK |}.
Definition fresh : backend :=
  {| LocalHash := ∅; resOwners := fun _ => {| nlocks := 0; ro_locks := [] |}; FastPathLocalUseCount := 0; StrongLockInProgress := None;
     lockAwaited := None; awaited := None; releaseMask := fun _ => 0; at_point := Outside NoCall |}.
Definition start : lockenv :=
  {| shared := {| allProcs := fun _ => idle; LockHash := ∅; ProcLockHash := ∅ |};
     fast := fun _ => {| fpRelId := replicate 16 0; fpLockBits := 0; databaseId := 5 |};
     strongCount := fun _ => 0; backend_of := fun _ => fresh |}.

Lemma start_ok : session_start backends start.
Proof.
  constructor; try done.
  - constructor; try done. constructor; [done|]. intros p l. cbn. split; [by intros ?%elem_of_nil|done].
Qed.

Definition rel : LOCKTAG := SET_LOCKTAG_RELATION 5 100.
Definition ask (m : Z) : action := Acquire {| q_tag := rel; q_mode := m; q_owner := Some 7; q_dontWait := false; q_reportMemoryError := true |}.
Definition steps (p : Z) (n : nat) : list (Z * action) := replicate n (p, Continue).
Definition state (acts : list (Z * action)) : lockenv := after hash 4 backends start acts.

Lemma state_reachable flags acts : session_reachable hash 4 4 flags backends (state acts).
Proof. apply session_after_reachable, start_ok. Qed.

(** 1 and 2 have taken weak locks by the fast path. *)
Definition weak_locks : list (Z * action) := [(1, ask AccessShareLock)] ++ steps 1 2 ++ [(2, ask RowExclusiveLock)] ++ steps 2 2.
(** 3 asks for an exclusive lock, moves them and goes to sleep. *)
Definition sleeper : list (Z * action) := weak_locks ++ [(3, ask AccessExclusiveLock)] ++ steps 3 6.
(** 1 releases all its locks while 3 sleeps. *)
Definition released_one : list (Z * action) := sleeper ++ [(1, ReleaseAll 1 true)] ++ steps 1 20.
(** 2 does, too, and 3 has its lock. *)
Definition exclusive : list (Z * action) := released_one ++ [(2, ReleaseAll 1 true)] ++ steps 2 20 ++ steps 3 1.

(** 2 waits for the exclusive lock of 1, gets it, and is cancelled before it wakes. *)
Definition cancelled : list (Z * action) :=
  [(1, ask AccessExclusiveLock)] ++ steps 1 6 ++ [(2, ask AccessExclusiveLock)] ++ steps 2 6 ++ [(1, Release (rel, AccessExclusiveLock) (Some 7))] ++ steps 1 2 ++
  [(2, Interrupt)] ++ steps 2 1 ++ [(3, ask AccessShareLock)] ++ steps 3 2 ++ steps 2 1.
End session_demo.

(** ** Facts *)

Lemma at_goto x p pt : at_of (goto x p pt) p = pt.
Proof. unfold at_of, goto. cbn. by rewrite fn_lookup_insert. Qed.

(** How far a backend is from the end of [LockReleaseAll]. *)
Definition release_all_left (pt : point) : Z :=
  match pt with
  | AtReleaseLocal _ _ todo _ => 2 * zlen todo + NUM_LOCK_PARTITIONS + 2
  | AtRefind _ _ _ todo => 2 * zlen todo + NUM_LOCK_PARTITIONS + 3
  | AtReleaseShared _ _ i => NUM_LOCK_PARTITIONS + 1 - i
  | _ => 0
  end.

Definition in_release_all (pt : point) (lockmethodid : Z) (allLocks : bool) : Prop :=
  match pt with
  | AtReleaseLocal lm al _ _ | AtRefind lm al _ _ | AtReleaseShared lm al _ => lm = lockmethodid /\ al = allLocks
  | _ => False
  end.

(** One section nearer to the end, or there. *)
Definition nearer (pt pt' : point) (lockmethodid : Z) (allLocks : bool) : Prop :=
  pt' = Outside (AllReleased lockmethodid allLocks) \/ (in_release_all pt' lockmethodid allLocks /\ 0 <= release_all_left pt' < release_all_left pt).

Lemma release_entry_point H x p lm al k todo have x' :
  release_entry H x p lm al k todo have = Ret x' -> (exists h, at_of x' p = AtReleaseLocal lm al todo h) \/ at_of x' p = AtRefind lm al k todo.
Proof.
  unfold release_entry. intros (l & _ & E)%cbind_ret_inv. destruct (negb (ll_shared l)).
  - destruct (negb _); [done|]. apply cbind_ret_inv in E as ([[F n] rel] & _ & E). destruct rel.
    + apply cbind_ret_inv in E as (x1 & _ & E). injection E as <-. left. exists true. apply at_goto.
    + injection E as <-. right. apply at_goto.
  - apply cbind_ret_inv in E as (x1 & _ & E). injection E as <-. left. exists have. apply at_goto.
Qed.

Lemma release_all_local_nearer H x p lm al todo have x' :
  release_all_local H x p lm al todo have = Ret x' -> nearer (AtReleaseLocal lm al todo have) (at_of x' p) lm al.
Proof.
  unfold release_all_local. destruct todo as [|k todo].
  { intros [= <-]. right. rewrite at_goto. split; [done|]. split; vm_compute; congruence. }
  pose proof (zlen_nonneg todo) as Hz. assert (forall h, nearer (AtReleaseLocal lm al (k :: todo) have) (AtReleaseLocal lm al todo h) lm al) as Hnext.
  { intros h. right. split; [done|]. cbn [release_all_left]. rewrite zlen_cons. change NUM_LOCK_PARTITIONS with 16. lia. }
  assert (forall x0, release_entry H x0 p lm al k todo have = Ret x' -> nearer (AtReleaseLocal lm al (k :: todo) have) (at_of x' p) lm al) as Hentry.
  { intros x0 [(h & ->)| ->]%release_entry_point; [apply Hnext|]. right. split; [done|]. cbn [release_all_left]. rewrite zlen_cons. change NUM_LOCK_PARTITIONS with 16. lia. }
  intros (l & _ & E)%cbind_ret_inv. destruct (nLocks l =? 0); [apply cbind_ret_inv in E as (x1 & _ & [= <-]); rewrite at_goto; apply Hnext|].
  destruct (negb _); [injection E as <-; rewrite at_goto; apply Hnext|]. destruct al; [by eapply Hentry|]. apply cbind_ret_inv in E as ([b kept] & _ & E). destruct kept; [injection E as <-; rewrite at_goto; apply Hnext|by eapply Hentry].
Qed.

Lemma refind_step_nearer H x p lm al k todo x' : refind_step H x p lm al k todo = Ret x' -> nearer (AtRefind lm al k todo) (at_of x' p) lm al.
Proof.
  unfold refind_step. intros (s & _ & (x1 & _ & [= <-])%cbind_ret_inv)%cbind_ret_inv. rewrite at_goto. right. split; [done|]. pose proof (zlen_nonneg todo). cbn [release_all_left]. change NUM_LOCK_PARTITIONS with 16. lia.
Qed.

Lemma release_all_shared_nearer x p lm al i tags x' : release_all_shared x p lm al i tags = Ret x' -> nearer (AtReleaseShared lm al i) (at_of x' p) lm al.
Proof.
  unfold release_all_shared. destruct (Z.ltb_spec i NUM_LOCK_PARTITIONS) as [Hi|Hi].
  - intros (x1 & _ & [= <-])%cbind_ret_inv. rewrite at_goto. right. split; [done|]. cbn [release_all_left]. lia.
  - intros [= <-]. rewrite at_goto. by left.
Qed.

Section claims.
Context (H : LOCKTAG -> Z) (allProcCount MaxBackends : Z) (vacuumFlags : Z -> Z) (U : list Z).
Hypotheses (Hnd : NoDup U) (Hrange : forall p, p ∈ U -> 0 <= p < allProcCount) (Henough : zlen U <= MaxBackends).
Notation reachable := (session_reachable H allProcCount MaxBackends vacuumFlags U).

Lemma reachable_env x : reachable x -> env_ok H MaxBackends vacuumFlags U x.
Proof. exact (session_reachable_ok H allProcCount MaxBackends vacuumFlags U Hnd Hrange Henough x). Qed.

(** A counted lock is in the shared table or in a slot. *)
Lemma counted_held x p t m : reachable x -> 0 < nlocks_of (backend_of x p) (t, m) -> holds (shared x) t p m = true \/ (fastheld (fast x p) t m = true /\ weak_mode m).
Proof.
  intros E%reachable_env Hn. pose proof (vk_held _ _ _ _ (pk_view _ _ _ _ _ (ev_proc _ _ _ _ _ E p) t m)) as V. cbn in V. apply Z.ltb_lt in Hn. rewrite Hn in V. cbn in V.
  apply orb_true_iff in V as [?|Hf]; [by left|right]. split; [done|]. by apply (fastheld_eligible _ _ _ Hf).
Qed.

Lemma owns_live x p t m : reachable x -> owns x p t m -> live (backend_of x p) t m.
Proof. intros _ (Hn & Hs). split; [|done]. unfold nlocks_of in Hn. destruct (LocalHash (backend_of x p) !! (t, m)); [eauto|lia]. Qed.

(** A strong lock is not in a slot, and where it is owned there are no fast-path locks. *)
Lemma strong_owner_shared x q t m : reachable x -> owns x q t m -> strong t m = true -> holds (shared x) t q m = true.
Proof.
  intros Hr (Hn & _) Hs. destruct (counted_held x q t m Hr Hn) as [?|(_ & Hw)]; [done|]. exfalso. unfold ConflictsWithRelationFastPath in Hs. rewrite !andb_true_iff, Z.ltb_lt in Hs. unfold weak_mode, ShareUpdateExclusiveLock in *. lia.
Qed.

Lemma strong_owner_closes x p q t m m' : reachable x -> owns x q t m -> strong t m = true -> fastheld (fast x p) t m' = false.
Proof.
  intros Hr Ho Hs. destruct (fastheld (fast x p) t m') eqn:Ef; [|done]. exfalso. pose proof (reachable_env x Hr) as E. pose proof (strong_owner_shared x q t m Hr Ho Hs) as Hh.
  apply (ev_clear _ _ _ _ _ E q t p); [|left; eauto]. eapply held_cleared; [done|done|]. by apply Ho.
Qed.

Lemma fast_conflict x p q t m m' :
  reachable x -> fastheld (fast x p) t m = true -> weak_mode m -> owns x q t m' -> conf m m' = true -> False.
Proof.
  intros Hr Hf Hw Ho Hc. assert (strong t m' = true) as Hs by (unfold fastheld in Hf; apply andb_true_iff in Hf as (Ht & _); by eapply fast_strong). rewrite (strong_owner_closes x p q t m' m Hr Ho Hs) in Hf. done.
Qed.

(** ** Exclusion *)

(** C3. Conflicting locks are never owned together: in every state that any number of
    backends can reach, through the fast path, transfers, sleeps, cancelled requests,
    deadlock checks and the end of transactions, two backends of different lock groups
    that both own a lock on the same object own it in modes that do not conflict.  To own
    a lock is to count it in the local table and, if it is one the fast path has to give
    way to, to be counted among the strong locks; that is what a call that returns
    [LOCKACQUIRE_OK] leaves. *)
Theorem lock_exclusion x t p q m m' :
  reachable x -> leader_of (shared x) p <> leader_of (shared x) q -> owns x p t m -> owns x q t m' -> DoLockModesConflict m m' = Ret false.
Proof.
  intros Hr Hl Hp Hq. pose proof (reachable_env x Hr) as E. assert (forall p' m0, owns x p' t m0 -> is_mode m0) as Hmode.
  { intros p' m0 Ho. pose proof (owns_live x p' t m0 Hr Ho) as (Hs & _). apply (bad_lock_mode t). apply (vk_key _ _ _ _ (pk_view _ _ _ _ _ (ev_proc _ _ _ _ _ E p') t m0)). by apply bool_decide_eq_true. }
  rewrite modes_conflict by eauto. f_equal. destruct (conf m m') eqn:Hc; [|done]. exfalso.
  destruct (counted_held x p t m Hr (proj1 Hp)) as [Hhp|(Hfp & Hwp)]; [|by eapply fast_conflict].
  destruct (counted_held x q t m' Hr (proj1 Hq)) as [Hhq|(Hfq & Hwq)]; [|eapply (fast_conflict x q p t m' m); try done; by rewrite conf_sym].
  apply (ev_excl _ _ _ _ _ E t p q m m' Hl Hc Hhp Hhq); by apply owns_live.
Qed.

(** ** The tables agree *)

(** C5. Between calls a backend counts exactly the locks it holds: a lock has a positive
    count in the local table if and only if the backend holds it in the shared table or
    in one of its fast-path slots, never in both, and a pointer to the shared table is
    only followed where the lock is there; the count is the sum of what its owners have,
    each of them listed once.  A resource owner that has at most [MAX_RESOWNER_LOCKS]
    remembered locks remembers exactly its locks; with more it stops keeping track, as in
    the code, and nothing is said.  The count of strong locks of a partition is the number
    of entries of local tables that are flagged as counted there, which need not be the
    number of strong locks held: see [cancelled_grant_uncounted]. *)
Theorem local_table_agrees x p res :
  reachable x -> at_of x p = Outside res ->
  (forall t m, (0 < nlocks_of (backend_of x p) (t, m) <-> holds (shared x) t p m = true \/ fastheld (fast x p) t m = true) /\
     ~ (holds (shared x) t p m = true /\ fastheld (fast x p) t m = true) /\
     (0 < nlocks_of (backend_of x p) (t, m) -> shared_of (backend_of x p) (t, m) = true -> holds (shared x) t p m = true)) /\
  (forall k l, LocalHash (backend_of x p) !! k = Some l -> nLocks l = owner_sum (lockOwners l) /\ NoDup (map fst (lockOwners l)) /\ zlen (lockOwners l) <= maxLockOwners l) /\
  (forall o, nlocks (resOwners (backend_of x p) o) <= MAX_RESOWNER_LOCKS -> forall k, k ∈ ro_locks (resOwners (backend_of x p) o) <-> owned_by (backend_of x p) o k) /\
  (forall h, strongCount x h = strong_total H (fun q => LocalHash (backend_of x q)) U h).
Proof.
  intros E%reachable_env Hat. pose proof (ev_proc _ _ _ _ _ E p) as P. destruct (outside H x p res P Hat) as (Hpl & Q & _). pose proof (plain_table _ _ _ _ _ P Hpl) as ok. split_and!.
  - intros t m. pose proof (pk_view _ _ _ _ _ P t m) as V. split_and!.
    + rewrite <- orb_true_iff, (quiet_view _ _ _ _ _ P Hpl t m Q). symmetry. apply Z.ltb_lt.
    + intros (Hh & Hf). pose proof (vk_apart _ _ _ _ V Hf) as Hn. cbn in Hn. congruence.
    + intros Hn Hs. pose proof (vk_pointer _ _ _ _ V) as Vp. cbn in Vp. apply Z.ltb_lt in Hn. rewrite Hn, Hs in Vp. by apply Vp.
  - intros k l Hl. destruct (lb_entry _ ok k l Hl). done.
  - intros o Hn k. by apply (lb_owners _ ok o).
  - apply E.
Qed.

(** ** Refinement *)

(** C4. The backends refine the lock table: whatever they do, the shared table only goes
    through states that it reaches by its own operations, each on one lock under its
    partition lock, and every step of a backend is some of these or none, so that all that is proved of those states (no lost wake-ups,
    well-formed queues and counters, the deadlock check) holds for the running system. *)
Theorem lock_session_refines x :
  reachable x ->
  lock_reachable MaxBackends vacuumFlags U (shared x) /\
  forall x', session_step H allProcCount MaxBackends vacuumFlags U x x' -> rtc (lock_step MaxBackends vacuumFlags U) (shared x) (shared x').
Proof.
  intros E%reachable_env. split; [apply E|]. intros x' (p & Hp & S). apply (backend_step_ok H allProcCount MaxBackends vacuumFlags U Hnd Hrange Henough x x' p E Hp S).
Qed.

(** ** No failures *)

(** C19. The routines never fail: in every reachable state a backend that is inside of
    [LockAcquireExtended], [LockRelease], [LockReleaseAll] or [LockErrorCleanup] and is
    not blocked gets through its next section, whatever room the shared table has; and a
    new call gets through its first one unless its arguments are refused.  So none of
    the internal errors of lock.c (shared lock objects that cannot be found again, a
    corrupted local table, a lock the owner does not know, a grant that is missing after
    the sleep) and none of its assertions can be reached. *)
Theorem lock_calls_go_through x p :
  reachable x -> p ∈ U ->
  (forall room room_lock room_proclock tags c, section_input H tags x p -> next_section H allProcCount room room_lock room_proclock tags x p = Some c -> exists x', c = Ret x') /\
  (forall res recovery r, at_of x p = Outside res -> tag_ok (q_tag r) -> count_room H x (q_tag r) -> bad_request recovery r = false -> exists x', acquire_begin H recovery x p r = Ret x') /\
  (forall res k owner, at_of x p = Outside res -> bad_lock (fst k) (snd k) = false -> exists x', release_begin H x p k owner = Ret x').
Proof.
  intros Hr Hp. pose proof (reachable_env x Hr) as E. pose proof (ev_proc _ _ _ _ _ E p) as P. pose proof (env_bounded _ _ _ _ x p E Hp) as Hb.
  destruct (env_lmgr H MaxBackends vacuumFlags U Henough x E) as (ok & _). pose proof (ev_leaders _ _ _ _ _ E p Hp) as Hl. split_and!.
  - intros room rl rp tags c Hin. unfold section_input, next_section in *. destruct (at_of x p) eqn:Hat; intros Hc; try discriminate; try (injection Hc as <-).
    + destruct (fast_test_ok H MaxBackends vacuumFlags U x p r P Hb Hat Hin) as (x' & Ex & _). eauto.
    + destruct (fast_grant_ok H MaxBackends vacuumFlags U x p r P Hb Hat Hin) as (x' & Ex & _). eauto.
    + destruct (fast_locked x i) eqn:Hf; [discriminate|]. injection Hc as <-. destruct (transfer_step_ok H allProcCount MaxBackends vacuumFlags U Hnd Hrange Henough room x p r i E Hp Hat Hf) as (x' & Ex & _). eauto.
    + destruct (shared_step_ok H MaxBackends vacuumFlags U rl rp x p r ok P Hb Hp Hl Hat) as (x' & Ex & _). eauto.
    + destruct (Z.eqb_spec (waitStatus (allProcs (shared x) p)) STATUS_WAITING) as [|Hs]; [discriminate|]. injection Hc as <-. destruct (wake_step_ok H MaxBackends vacuumFlags U x p r ok P Hat Hs) as (x' & Ex & _). eauto.
    + destruct (cleanup_begin_ok H MaxBackends vacuumFlags U x p P Hb Hat) as (x' & Ex & _). eauto.
    + destruct (cleanup_end_ok H MaxBackends vacuumFlags U x p ok P Hat) as (x' & Ex & _). eauto.
    + destruct (release_step_ok H MaxBackends vacuumFlags U x p k ok P Hat) as (x' & Ex & _). eauto.
    + destruct (remove_step_ok H MaxBackends vacuumFlags U x p k P Hb Hat) as (x' & Ex & _). eauto.
    + destruct (release_all_local_ok H MaxBackends vacuumFlags U x p _ _ _ _ P Hb Hat) as (x' & Ex & _). eauto.
    + destruct (refind_step_ok H MaxBackends vacuumFlags U x p _ _ _ _ ok P Hb Hat) as (x' & Ex & _). eauto.
    + destruct Hin as (Hn & Ht). destruct (release_all_shared_ok H MaxBackends vacuumFlags U x p _ _ _ _ ok P Hat Hn Ht) as (x' & Ex & _). eauto.
  - intros res recovery r Hat Ht Hroom Hbad. pose proof (acquire_begin_ok H MaxBackends vacuumFlags U recovery x p r res P Hb Hat Ht Hroom) as Ha. rewrite Hbad in Ha. destruct Ha as (x' & Ex & _). eauto.
  - intros res k owner Hat Hbad. pose proof (release_begin_ok H MaxBackends vacuumFlags U x p k owner res P Hb Hat) as Ha. rewrite Hbad in Ha. destruct Ha as (x' & Ex & _). eauto.
Qed.

(** ** The end of a transaction *)

(** C20. [LockReleaseAll] comes to its end and leaves nothing behind: inside of it a
    backend is never blocked, each section brings it nearer to the end by a measure
    bounded by the locks it has, and when it has returned the backend holds no lock of
    the method any more, in the shared table or in a slot, except, if locks of the
    session are to be kept, ones that only the session owns. *)
Theorem release_all_complete x p lockmethodid allLocks :
  reachable x -> p ∈ U ->
  (in_release_all (at_of x p) lockmethodid allLocks -> forall room room_lock room_proclock tags, section_input H tags x p ->
     exists x', next_section H allProcCount room room_lock room_proclock tags x p = Some (Ret x') /\ nearer (at_of x p) (at_of x' p) lockmethodid allLocks) /\
  (at_of x p = Outside (AllReleased lockmethodid allLocks) -> forall t m, locktag_lockmethodid t = lockmethodid -> holds (shared x) t p m = true \/ fastheld (fast x p) t m = true ->
     allLocks = false /\ exists l, LocalHash (backend_of x p) !! (t, m) = Some l /\ map fst (lockOwners l) = [None]).
Proof.
  intros Hr Hp. pose proof (reachable_env x Hr) as E. pose proof (ev_proc _ _ _ _ _ E p) as P. pose proof (env_bounded _ _ _ _ x p E Hp) as Hb.
  destruct (env_lmgr H MaxBackends vacuumFlags U Henough x E) as (ok & _). split.
  - intros Hin room rl rp tags Htags. unfold in_release_all, section_input, next_section in *. destruct (at_of x p) eqn:Hat; try done; destruct Hin as (-> & ->).
    + destruct (release_all_local_ok H MaxBackends vacuumFlags U x p _ _ _ _ P Hb Hat) as (x' & Ex & _). exists x'. rewrite Ex. split; [done|]. by eapply release_all_local_nearer.
    + destruct (refind_step_ok H MaxBackends vacuumFlags U x p _ _ _ _ ok P Hb Hat) as (x' & Ex & _). exists x'. rewrite Ex. split; [done|]. by eapply refind_step_nearer.
    + destruct Htags as (Hn & Ht). destruct (release_all_shared_ok H MaxBackends vacuumFlags U x p _ _ _ _ ok P Hat Hn Ht) as (x' & Ex & _). exists x'. rewrite Ex. split; [done|]. by eapply release_all_shared_nearer.
  - intros Hat t m Hm Hh. destruct (outside H x p _ P Hat) as (Hpl & Q & _). pose proof (quiet_view _ _ _ _ _ P Hpl t m Q) as V. apply orb_true_iff in Hh. rewrite V in Hh. apply Z.ltb_lt in Hh. unfold nlocks_of in Hh.
    destruct (LocalHash (backend_of x p) !! (t, m)) as [l|] eqn:El; [|lia]. pose proof (pk_point _ _ _ _ _ P) as Hpt. unfold at_of in Hat. rewrite Hat in Hpt. destruct Hpt as (_ & Hres). cbn in Hres.
    destruct (Hres (t, m) Hm l El). split; [done|]. eauto.
Qed.

(** C35. The answers of [LockAcquireExtended] are true: after [LOCKACQUIRE_NOT_AVAIL] the
    backend does not hold the lock, after every other answer it does and counts it, and
    after [LOCKACQUIRE_OK] it owns it in the sense of [lock_exclusion]; where a strong
    lock is owned no backend has a fast-path lock on the relation. *)
Theorem lock_acquire_answers x p t m r :
  reachable x -> at_of x p = Outside (Acquired (t, m) r) ->
  match r with
  | LOCKACQUIRE_NOT_AVAIL => holds (shared x) t p m = false /\ fastheld (fast x p) t m = false
  | LOCKACQUIRE_OK => owns x p t m /\ (strong t m = true -> forall q m', fastheld (fast x q) t m' = false)
  | _ => 0 < nlocks_of (backend_of x p) (t, m)
  end /\
  (r <> LOCKACQUIRE_NOT_AVAIL -> holds (shared x) t p m = true \/ fastheld (fast x p) t m = true).
Proof.
  intros Hr Hat. pose proof (reachable_env x Hr) as E. pose proof (ev_proc _ _ _ _ _ E p) as P. destruct (outside H x p _ P Hat) as (Hpl & Q & _). pose proof (quiet_view _ _ _ _ _ P Hpl t m Q) as V.
  pose proof (pk_point _ _ _ _ _ P) as Hpt. unfold at_of in Hat. rewrite Hat in Hpt. destruct Hpt as (_ & Hres). cbn in Hres. rewrite <- orb_true_iff, V, Z.ltb_lt. destruct r.
  - split; [|done]. apply orb_false_iff. by rewrite V, Hres.
  - split; [|intros _; apply Hres]. split; [done|]. intros Hs q m'. by eapply strong_owner_closes.
  - done.
  - done.
Qed.
End claims.

(** ** A defect *)

(** A granted lock can be held without its count: when a wait is cancelled just after
    the lock was granted, [LockErrorCleanup] gives the count of strong locks back before
    it looks whether it has the lock.  In this run backend 2 then holds
    AccessExclusiveLock on a relation on which backend 3 has taken AccessShareLock by the
    fast path; both locks are counted by their backends. *)
Example cancelled_grant_uncounted : exists x,
  session_reachable session_demo.hash 4 4 (fun _ => 0) session_demo.backends x /\ leader_of (shared x) 2 <> leader_of (shared x) 3 /\
  at_of x 2 = Outside CleanedUp /\ holds (shared x) session_demo.rel 2 AccessExclusiveLock = true /\ nlocks_of (backend_of x 2) (session_demo.rel, AccessExclusiveLock) = 1 /\
  at_of x 3 = Outside (Acquired (session_demo.rel, AccessShareLock) LOCKACQUIRE_OK) /\ fastheld (fast x 3) session_demo.rel AccessShareLock = true /\
  DoLockModesConflict AccessExclusiveLock AccessShareLock = Ret true.
Proof.
  exists (session_demo.state session_demo.cancelled). split; [apply session_demo.state_reachable|]. split_and!; vm_compute; [discriminate|reflexivity|reflexivity|reflexivity|reflexivity|reflexivity|reflexivity].
Qed.

(** ** Witnesses *)

Lemma demo_nodup : NoDup session_demo.backends.
Proof. apply (bool_decide_unpack _). vm_compute. exact I. Qed.

Lemma demo_range : forall p, p ∈ session_demo.backends -> 0 <= p < 4.
Proof. intros p Hp. unfold session_demo.backends in Hp. set_unfold. lia. Qed.

Ltac demo_state := apply session_demo.state_reachable.
Ltac demo_env := first [apply demo_nodup | apply demo_range | (vm_compute; discriminate)].

Lemma lock_exclusion_witness : DoLockModesConflict AccessShareLock RowExclusiveLock = Ret false.
Proof.
  apply (lock_exclusion session_demo.hash 4 4 (fun _ => 0) session_demo.backends demo_nodup demo_range ltac:(vm_compute; discriminate)
    (session_demo.state session_demo.weak_locks) session_demo.rel 1 2).
  - demo_state.
  - vm_compute. discriminate.
  - split; [vm_compute; reflexivity|vm_compute; discriminate].
  - split; [vm_compute; reflexivity|vm_compute; discriminate].
Defined.

Lemma local_table_agrees_witness :
  strongCount (session_demo.state session_demo.exclusive) 100 = strong_total session_demo.hash (fun q => LocalHash (backend_of (session_demo.state session_demo.exclusive) q)) session_demo.backends 100.
Proof.
  apply (local_table_agrees session_demo.hash 4 4 (fun _ => 0) session_demo.backends demo_nodup demo_range ltac:(vm_compute; discriminate)
    (session_demo.state session_demo.exclusive) 3 (Acquired (session_demo.rel, AccessExclusiveLock) LOCKACQUIRE_OK)).
  - demo_state.
  - vm_compute. reflexivity.
Defined.

Lemma lock_session_refines_witness : lock_reachable 4 (fun _ => 0) session_demo.backends (shared (session_demo.state session_demo.sleeper)).
Proof.
  apply (lock_session_refines session_demo.hash 4 4 (fun _ => 0) session_demo.backends demo_nodup demo_range ltac:(vm_compute; discriminate)). demo_state.
Defined.

Lemma lock_calls_go_through_witness : exists x', shared_step session_demo.hash true true (session_demo.state (session_demo.weak_locks ++ [(3, session_demo.ask AccessExclusiveLock)] ++ session_demo.steps 3 5)) 3
    {| q_tag := session_demo.rel; q_mode := AccessExclusiveLock; q_owner := Some 7; q_dontWait := false; q_reportMemoryError := true |} = Ret x'.
Proof.
  destruct (lock_calls_go_through session_demo.hash 4 4 (fun _ => 0) session_demo.backends demo_nodup demo_range ltac:(vm_compute; discriminate)
    (session_demo.state (session_demo.weak_locks ++ [(3, session_demo.ask AccessExclusiveLock)] ++ session_demo.steps 3 5)) 3) as (Hnext & _).
  - demo_state.
  - apply (bool_decide_unpack _). vm_compute. exact I.
  - apply (Hnext roomy true true []); [exact I|]. unfold next_section.
    replace (at_of (session_demo.state (session_demo.weak_locks ++ [(3, session_demo.ask AccessExclusiveLock)] ++ session_demo.steps 3 5)) 3) with
      (AtShared {| q_tag := session_demo.rel; q_mode := AccessExclusiveLock; q_owner := Some 7; q_dontWait := false; q_reportMemoryError := true |}) by (vm_compute; reflexivity). reflexivity.
Defined.

Lemma release_all_complete_witness : ~ (holds (shared (session_demo.state session_demo.released_one)) session_demo.rel 1 AccessShareLock = true).
Proof.
  destruct (release_all_complete session_demo.hash 4 4 (fun _ => 0) session_demo.backends demo_nodup demo_range ltac:(vm_compute; discriminate)
    (session_demo.state session_demo.released_one) 1 1 true) as (_ & Hend).
  - demo_state.
  - apply (bool_decide_unpack _). vm_compute. exact I.
  - intros Hh. destruct (Hend ltac:(vm_compute; reflexivity) session_demo.rel AccessShareLock eq_refl (or_introl Hh)) as (Hf & _). discriminate.
Defined.

Lemma lock_acquire_answers_witness : owns (session_demo.state session_demo.exclusive) 3 session_demo.rel AccessExclusiveLock /\ fastheld (fast (session_demo.state session_demo.exclusive) 1) session_demo.rel AccessShareLock = false.
Proof.
  destruct (lock_acquire_answers session_demo.hash 4 4 (fun _ => 0) session_demo.backends demo_nodup demo_range ltac:(vm_compute; discriminate)
    (session_demo.state session_demo.exclusive) 3 session_demo.rel AccessExclusiveLock LOCKACQUIRE_OK) as ((Ho & Hn) & _).
  - demo_state.
  - vm_compute. reflexivity.
  - split; [exact Ho|]. apply Hn. vm_compute. reflexivity.
Defined.
