(* ===== verification/GinPosting.v ===== *)
(** * Compressed posting lists

    Models [access/gin/ginpostinglist.c]: the item pointers of an index entry are stored
    as the first one followed by the differences between neighbours, each a number of
    variable length.  A buffer is a list of bytes and a pointer into it an index; an access
    outside of a buffer is [Undef].  Fresh memory comes with whatever it contained. *)
From stdpp Require Import list.
From S2P Require Import Prelude HeapTuple BufPage.

(** ** Item pointers as numbers *)

#[export] Instance ItemPointerData_eq_dec : EqDecision ItemPointerData.
Proof. solve_decision. Defined.

Definition MaxHeapTuplesPerPageBits : Z := 11.

Definition itemptr_to_uint64 (iptr : ItemPointerData) : cres Z :=
  c_assert (ItemPointerIsValid iptr);;
  c_assert (ip_posid iptr <? Z.shiftl 1 MaxHeapTuplesPerPageBits);;
  Ret (Z.lor (u64 (Z.shiftl (ip_blkid iptr) MaxHeapTuplesPerPageBits)) (ip_posid iptr)).

Definition uint64_to_itemptr (val : Z) : cres ItemPointerData :=
  let iptr := {| ip_blkid := u32 (Z.shiftr val MaxHeapTuplesPerPageBits);
                 ip_posid := Z.land val (Z.shiftl 1 MaxHeapTuplesPerPageBits - 1) |} in
  c_assert (ItemPointerIsValid iptr);;
  Ret iptr.

Definition ginCompareItemPointers (a b : ItemPointerData) : Z :=
  let ia := Z.lor (u64 (Z.shiftl (ip_blkid a) 32)) (ip_posid a) in
  let ib := Z.lor (u64 (Z.shiftl (ip_blkid b) 32)) (ip_posid b) in
  if ia =? ib then 0 else if ib <? ia then 1 else -1.

(** ** Numbers of variable length *)

(** The loop of [encode_varbyte]; a number of 64 bits takes at most ten bytes. *)
Fixpoint encode_loop (fuel : nat) (val : Z) (buf : list Z) (p : Z) : cres (list Z * Z) :=
  if 0x7F <? val then
    match fuel with
    | O => Undef
    | S fuel =>
        let* buf := deref (zset buf p (u8 (Z.lor 0x80 (Z.land val 0x7F)))) in
        encode_loop fuel (Z.shiftr val 7) buf (p + 1)
    end
  else
    let* buf := deref (zset buf p (u8 val)) in
    Ret (buf, p + 1).

Definition encode_varbyte (val : Z) (buf : list Z) (p : Z) : cres (list Z * Z) := encode_loop 10 val buf p.

Definition decode_varbyte (buf : list Z) (p : Z) : cres (Z * Z) :=
  let* c := deref (zget buf p) in
  let val := Z.land c 0x7F in
  if Z.land c 0x80 =? 0 then Ret (val, p + 1) else
  let* c := deref (zget buf (p + 1)) in
  let val := Z.lor val (Z.shiftl (Z.land c 0x7F) 7) in
  if Z.land c 0x80 =? 0 then Ret (val, p + 2) else
  let* c := deref (zget buf (p + 2)) in
  let val := Z.lor val (Z.shiftl (Z.land c 0x7F) 14) in
  if Z.land c 0x80 =? 0 then Ret (val, p + 3) else
  let* c := deref (zget buf (p + 3)) in
  let val := Z.lor val (Z.shiftl (Z.land c 0x7F) 21) in
  if Z.land c 0x80 =? 0 then Ret (val, p + 4) else
  let* c := deref (zget buf (p + 4)) in
  let val := Z.lor val (Z.shiftl (Z.land c 0x7F) 28) in
  if Z.land c 0x80 =? 0 then Ret (val, p + 5) else
  let* c := deref (zget buf (p + 5)) in
  let val := Z.lor val (Z.shiftl (Z.land c 0x7F) 35) in
  if Z.land c 0x80 =? 0 then Ret (val, p + 6) else
  let* c := deref (zget buf (p + 6)) in
  let val := Z.lor val (Z.shiftl c 42) in
  Ret (val, p + 7).

(** ** Segments *)

Record GinPostingList := { pl_first : ItemPointerData; nbytes : Z; bytes : list Z }.

Definition SHORTALIGN (len : Z) : Z := Z.land (len + 1) (Z.lnot 1).
Definition SHORTALIGN_DOWN (len : Z) : Z := Z.land len (Z.lnot 1).

(** Six bytes for the first item, two for the length. *)
Definition offsetof_bytes : Z := 8.
Definition SizeOfGinPostingList (plist : GinPostingList) : Z := offsetof_bytes + SHORTALIGN (nbytes plist).

(** ** Decoding *)

(** The output array of [nallocated] places is enlarged when it is full. *)
Definition enlarge_result (result : list ItemPointerData) (nallocated : Z) : Z :=
  if nallocated <=? zlen result then s32 (nallocated * 2) else nallocated.

Definition store_result (result : list ItemPointerData) (nallocated : Z) (item : ItemPointerData) : cres (list ItemPointerData) :=
  if zlen result <? nallocated then Ret (result ++ [item]) else Undef.

(** The loop over the bytes of a segment; each round reads at least one. *)
Fixpoint unpack_loop (fuel : nat) (buf : list Z) (endptr ptr val : Z) (result : list ItemPointerData) (nallocated : Z) : cres (list ItemPointerData * Z) :=
  if ptr <? endptr then
    match fuel with
    | O => Undef
    | S fuel =>
        let nallocated := enlarge_result result nallocated in
        let* (delta, ptr) := decode_varbyte buf ptr in
        let val := u64 (val + delta) in
        let* item := uint64_to_itemptr val in
        let* result := store_result result nallocated item in
        unpack_loop fuel buf endptr ptr val result nallocated
    end
  else Ret (result, nallocated).

(** The loop over the segments, of which [len] bytes are left. *)
Fixpoint segments_loop (segments : list GinPostingList) (len : Z) (result : list ItemPointerData) (nallocated : Z) : cres (list ItemPointerData) :=
  if 0 <? len then
    match segments with
    | [] => Undef
    | segment :: segments =>
        let nallocated := enlarge_result result nallocated in
        c_assert (ItemPointerIsValid (pl_first segment));;
        c_assert (OffsetNumberIsValid (ip_posid (pl_first segment)));;
        c_assert (match last result with None => true | Some item => 0 <? ginCompareItemPointers (pl_first segment) item end);;
        let* result := store_result result nallocated (pl_first segment) in
        let* val := itemptr_to_uint64 (pl_first segment) in
        let* (result, nallocated) := unpack_loop (Z.to_nat (nbytes segment)) (bytes segment) (nbytes segment) 0 val result nallocated in
        segments_loop segments (len - SizeOfGinPostingList segment) result nallocated
    end
  else Ret result.

(** The number of items is the length of the result. *)
Definition ginPostingListDecodeAllSegments (segments : list GinPostingList) (len : Z) : cres (list ItemPointerData) :=
  let* segment := deref (head segments) in
  segments_loop segments len [] (nbytes segment * 2 + 1).

Definition ginPostingListDecode (plist : GinPostingList) : cres (list ItemPointerData) :=
  ginPostingListDecodeAllSegments [plist] (SizeOfGinPostingList plist).

(** ** Encoding *)

Section encoding.
(** What [n] fresh bytes contain. *)
Context (fresh : Z -> list Z).

(** [memcpy (dst + p, src, zlen src)]. *)
Fixpoint memcpy_bytes (dst : list Z) (p : Z) (src : list Z) : cres (list Z) :=
  match src with
  | [] => Ret dst
  | c :: src => let* dst := deref (zset dst p c) in memcpy_bytes dst (p + 1) src
  end.

(** The loop over the items after the first; the bytes, where they end, and the number
    of items packed. *)
Fixpoint pack_loop (items : list ItemPointerData) (buf : list Z) (endptr ptr prev totalpacked : Z) : cres (list Z * Z * Z) :=
  match items with
  | [] => Ret (buf, ptr, totalpacked)
  | item :: items =>
      let* val := itemptr_to_uint64 item in
      let delta := u64 (val - prev) in
      c_assert (prev <? val);;
      if 6 <=? endptr - ptr then
        let* (buf, ptr) := encode_varbyte delta buf ptr in
        pack_loop items buf endptr ptr val (totalpacked + 1)
      else
        let* (small, p) := encode_varbyte delta (fresh 6) 0 in
        if endptr - ptr <? p then Ret (buf, ptr, totalpacked)
        else
          let* buf := memcpy_bytes buf ptr (take (Z.to_nat p) small) in
          pack_loop items buf endptr (ptr + p) val (totalpacked + 1)
  end.

(** With the number of items written; the last assertion is that of a build that checks
    the encoding by decoding it. *)
Definition ginCompressPostingList (ipd : list ItemPointerData) (maxsize : Z) : cres (GinPostingList * Z) :=
  let maxsize := SHORTALIGN_DOWN maxsize in
  let maxbytes := maxsize - offsetof_bytes in
  c_assert (0 <? maxbytes);;
  let* first := deref (head ipd) in
  let* prev := itemptr_to_uint64 first in
  let* (buf, ptr, totalpacked) := pack_loop (tail ipd) (fresh maxbytes) maxbytes 0 prev 1 in
  let len := u16 ptr in
  let* buf := (if len =? SHORTALIGN len then Ret buf else deref (zset buf len 0)) in
  let result := {| pl_first := first; nbytes := len; bytes := buf |} in
  c_assert (SizeOfGinPostingList result <=? maxsize);;
  let* decoded := ginPostingListDecode result in
  c_assert (bool_decide (decoded = take (Z.to_nat totalpacked) ipd));;
  Ret (result, totalpacked).
End encoding.

(** ** Merging *)

(** The loops of [ginMergeItemPointers] over arrays that overlap. *)
Fixpoint merge_loop (a b : list ItemPointerData) {struct a} : list ItemPointerData :=
  (fix merge_b (b : list ItemPointerData) : list ItemPointerData :=
     match a, b with
     | [], _ => b
     | _, [] => a
     | x :: a', y :: b' =>
         let cmp := ginCompareItemPointers x y in
         if 0 <? cmp then y :: merge_b b'
         else if cmp =? 0 then y :: merge_loop a' b'
         else x :: merge_loop a' b
     end) b.

(** The number of items is the length of the result, for which there are
    [zlen a + zlen b] places. *)
Definition ginMergeItemPointers (a b : list ItemPointerData) : list ItemPointerData :=
  match last a, head b, last b, head a with
  | Some la, Some hb, Some lb, Some ha =>
      if ginCompareItemPointers la hb <? 0 then a ++ b
      else if ginCompareItemPointers lb ha <? 0 then b ++ a
      else merge_loop a b
  | _, _, _, _ => a ++ b
  end.
