(* ===== verification/GinPostingProofs.v ===== *)
(** Compressed posting lists: numbers of variable length, and what a segment stands for. *)
From stdpp Require Import list sorting.
From S2P Require Import Prelude HeapTuple BufPage GinPosting.

(** ** Item pointers *)

(** A block number of 32 bits, an offset from 1 to 2047. *)
Definition valid_item (it : ItemPointerData) : Prop := 0 <= ip_blkid it < 2 ^ 32 /\ 0 < ip_posid it < 2 ^ 11.

Definition item_val (it : ItemPointerData) : Z := ip_blkid it * 2 ^ 11 + ip_posid it.

(** Bits above and below a position do not overlap. *)
Lemma lor_shift a b n : 0 <= n -> is_u n b -> Z.lor (a * 2 ^ n) b = a * 2 ^ n + b.
Proof.
  intros Hn Hb. apply Z.bits_inj'. intros i Hi. rewrite Z.lor_spec, (Z.add_comm _ b), (Z.mul_comm a), testbit_split by done.
  destruct (Z.ltb_spec i n).
  - rewrite Z.mul_comm, Z.mul_pow2_bits_low by lia. done.
  - rewrite Z.mul_comm, Z.mul_pow2_bits by lia. rewrite (is_u_testbit n b) by (done || lia). by rewrite orb_false_r.
Qed.

Lemma item_val_bounds it : valid_item it -> 0 < item_val it < 2 ^ 43.
Proof. intros (H1 & H2). unfold item_val. lia. Qed.

Lemma item_val_inj a b : valid_item a -> valid_item b -> item_val a = item_val b -> a = b.
Proof.
  intros (Ha & Ha') (Hb & Hb') E. unfold item_val in E. destruct a as [ba pa], b as [bb pb]. cbn in *.
  assert (ba = bb) as -> by lia. f_equal. lia.
Qed.

Lemma to_uint64 it : valid_item it -> itemptr_to_uint64 it = Ret (item_val it).
Proof.
  intros (Hb & Hp). unfold itemptr_to_uint64, ItemPointerIsValid, MaxHeapTuplesPerPageBits. change (Z.shiftl 1 11) with (2 ^ 11).
  destruct (Z.eqb_spec (ip_posid it) 0); [lia|]. destruct (Z.ltb_spec (ip_posid it) (2 ^ 11)); [|lia]. cbn [negb c_assert cbind].
  rewrite Z.shiftl_mul_pow2 by lia. unfold u64. rewrite Z.mod_small by lia. by rewrite lor_shift by (lia || split; lia).
Qed.

Lemma from_uint64 it : valid_item it -> uint64_to_itemptr (item_val it) = Ret it.
Proof.
  intros (Hb & Hp). unfold uint64_to_itemptr, MaxHeapTuplesPerPageBits, item_val. change (Z.shiftl 1 11 - 1) with (Z.ones 11).
  rewrite Z.land_ones, Z.shiftr_div_pow2 by lia. rewrite Z.div_add_l, (Z.div_small (ip_posid it)), Z.add_0_r by lia.
  rewrite Z.add_comm, Z.mod_add, (Z.mod_small (ip_posid it)) by lia. unfold u32. rewrite Z.mod_small by lia.
  unfold ItemPointerIsValid. cbn. destruct (Z.eqb_spec (ip_posid it) 0); [lia|]. by destruct it.
Qed.

(** ** Numbers of variable length *)

(** The bytes of a number below [2 ^ (7 * fuel + 7)]. *)
Fixpoint varbyte (fuel : nat) (v : Z) : list Z :=
  match fuel with
  | O => [v]
  | S fuel => if v <? 128 then [v] else (128 + v mod 128) :: varbyte fuel (v / 128)
  end.
Notation vb := (varbyte 10).

Lemma varbyte_len fuel v : 1 <= zlen (varbyte fuel v) <= Z.of_nat fuel + 1.
Proof.
  revert v. induction fuel as [|fuel IH]; intros v; [done|]. cbn [varbyte]. destruct (v <? 128); [unfold zlen; cbn; lia|].
  rewrite zlen_cons. specialize (IH (v / 128)). lia.
Qed.

(** [k] bytes are enough exactly for [7 * k] bits. *)
Lemma varbyte_len_le fuel v k : (k <= fuel)%nat -> 0 <= v -> zlen (varbyte fuel v) <= Z.of_nat k + 1 <-> v < 2 ^ (7 * (Z.of_nat k + 1)) \/ k = fuel.
Proof.
  revert v k. induction fuel as [|fuel IH]; intros v k Hk Hv.
  { assert (k = 0)%nat as -> by lia. split; [by right|]. intros _. done. }
  cbn [varbyte]. destruct (Z.ltb_spec v 128) as [Hs|Hs].
  - split; [intros _; left|intros _; unfold zlen; cbn; lia]. apply Z.lt_le_trans with (2 ^ 7); [done|]. apply Z.pow_le_mono_r; lia.
  - rewrite zlen_cons. pose proof (varbyte_len fuel (v / 128)). destruct k as [|k].
    { split; [lia|]. intros [Hl|?]; [|lia]. change (2 ^ (7 * (Z.of_nat 0 + 1))) with 128 in Hl. lia. }
    replace (Z.of_nat (S k) + 1) with (1 + (Z.of_nat k + 1)) by lia. rewrite <- Z.add_le_mono_l, IH by (try lia; apply Z.div_pos; lia).
    replace (2 ^ (7 * (1 + (Z.of_nat k + 1)))) with (128 * 2 ^ (7 * (Z.of_nat k + 1))) by (rewrite (Z.mul_add_distr_l 7 1), Z.pow_add_r by lia; done).
    split; (intros [Hl|]; [left|right; lia]).
    + pose proof (Z.div_mod v 128 ltac:(lia)). pose proof (Z.mod_pos_bound v 128 ltac:(lia)). lia.
    + apply Z.div_lt_upper_bound; lia.
Qed.

Lemma vb_len_le v k : (k < 10)%nat -> 0 <= v -> zlen (vb v) <= Z.of_nat k + 1 <-> v < 2 ^ (7 * (Z.of_nat k + 1)).
Proof. intros Hk Hv. rewrite varbyte_len_le by lia. naive_solver lia. Qed.

(** The sum of two numbers takes no more room than the two. *)
Lemma vb_len_add x y : 0 <= x -> 0 <= y -> zlen (vb (x + y)) <= zlen (vb x) + zlen (vb y).
Proof.
  intros Hx Hy. pose proof (varbyte_len 10 x) as Lx. pose proof (varbyte_len 10 y) as Ly. pose proof (varbyte_len 10 (x + y)) as Lxy.
  set (k := Z.to_nat (Z.max (zlen (vb x)) (zlen (vb y)))). destruct (decide (k < 10)%nat) as [Hk|Hk]; [|lia].
  assert (zlen (vb (x + y)) <= Z.of_nat k + 1); [|lia]. apply vb_len_le; [done|lia|].
  destruct k as [|k'] eqn:Ek; [lia|].
  assert (x < 2 ^ (7 * (Z.of_nat k' + 1))) by (apply vb_len_le; lia). assert (y < 2 ^ (7 * (Z.of_nat k' + 1))) by (apply vb_len_le; lia).
  replace (7 * (Z.of_nat (S k') + 1)) with (7 + 7 * (Z.of_nat k' + 1)) by lia. rewrite Z.pow_add_r by lia. change (2 ^ 7) with 128. lia.
Qed.

(** ** Encoding a number *)

Lemma encode_loop_spec fuel v pre old post :
  0 <= v -> v < 2 ^ (7 * (Z.of_nat fuel + 1)) -> zlen old = zlen (varbyte fuel v) ->
  encode_loop fuel v (pre ++ old ++ post) (zlen pre) = Ret (pre ++ varbyte fuel v ++ post, zlen pre + zlen (varbyte fuel v)).
Proof.
  revert v pre old. induction fuel as [|fuel IH]; intros v pre old Hv Hb Hlen; cbn [encode_loop varbyte] in *.
  - change (2 ^ (7 * (Z.of_nat 0 + 1))) with 128 in Hb. destruct (Z.ltb_spec 0x7F v); [lia|].
    destruct old as [|o [|? ?]]; [done| |unfold zlen in Hlen; cbn in Hlen; lia]. cbn [app]. rewrite zset_app_r. cbn [deref cbind]. unfold u8. rewrite Z.mod_small by lia. done.
  - destruct (Z.ltb_spec v 128) as [Hs|Hs].
    + destruct (Z.ltb_spec 0x7F v); [lia|]. destruct old as [|o [|? ?]]; [done| |unfold zlen in Hlen; cbn in Hlen; lia].
      cbn [app]. rewrite zset_app_r. cbn [deref cbind]. unfold u8. rewrite Z.mod_small by lia. done.
    + destruct (Z.ltb_spec 0x7F v); [|lia]. rewrite zlen_cons in Hlen. pose proof (varbyte_len fuel (v / 128)).
      destruct old as [|o old]; [unfold zlen in *; cbn in *; lia|]. rewrite zlen_cons in Hlen. cbn [app]. rewrite zset_app_r. cbn [deref cbind].
      assert (u8 (Z.lor 128 (Z.land v 127)) = 128 + v mod 128) as ->.
      { change 127 with (Z.ones 7). rewrite Z.land_ones by lia. change 128 with (1 * 2 ^ 7) at 1. pose proof (Z.mod_pos_bound v (2 ^ 7)).
        rewrite lor_shift by (lia || split; lia). unfold u8. rewrite Z.mod_small by lia. done. }
      rewrite Z.shiftr_div_pow2 by lia. change (2 ^ 7) with 128. set (c := 128 + v mod 128).
      replace (pre ++ c :: old ++ post) with ((pre ++ [c]) ++ old ++ post) by (by rewrite <- app_assoc).
      replace (zlen pre + 1) with (zlen (pre ++ [c])) by (by rewrite zlen_app).
      rewrite IH; [|apply Z.div_pos; lia| |lia].
      * f_equal. rewrite <- app_assoc. cbn [app]. f_equal. rewrite zlen_app, !zlen_cons. change (zlen (@nil Z)) with 0. lia.
      * apply Z.div_lt_upper_bound; [lia|]. replace (7 * (Z.of_nat (S fuel) + 1)) with (7 + 7 * (Z.of_nat fuel + 1)) in Hb by lia. rewrite Z.pow_add_r in Hb by lia. done.
Qed.

Lemma encode_spec v pre old post :
  0 <= v < 2 ^ 64 -> zlen old = zlen (vb v) -> encode_varbyte v (pre ++ old ++ post) (zlen pre) = Ret (pre ++ vb v ++ post, zlen pre + zlen (vb v)).
Proof.
  intros Hv Hlen. apply encode_loop_spec; [lia| |done]. apply Z.lt_le_trans with (2 ^ 64); [lia|]. by apply Z.pow_le_mono_r.
Qed.

(** ** Decoding a number *)

Lemma low7 w : Z.land (128 + w mod 128) 127 = w mod 128 /\ (Z.land (128 + w mod 128) 128 =? 0) = false.
Proof.
  pose proof (Z.mod_pos_bound w 128 ltac:(lia)) as Hb. split.
  - change 127 with (Z.ones 7). rewrite Z.land_ones by lia. change (2 ^ 7) with 128. rewrite Z.add_mod, Z_mod_same_full, Z.add_0_l by lia. by rewrite !Z.mod_mod by lia.
  - apply Z.eqb_neq. apply (bits_nonzero _ 7). rewrite Z.land_spec. change 128 with (1 * 2 ^ 7) at 1. rewrite Z.add_comm, Z.mul_comm, testbit_split by (lia || split; lia). done.
Qed.

Lemma low7_last w : 0 <= w < 128 -> Z.land w 127 = w /\ (Z.land w 128 =? 0) = true.
Proof.
  intros Hw. split.
  - change 127 with (Z.ones 7). rewrite Z.land_ones by lia. by apply Z.mod_small.
  - apply Z.eqb_eq. apply Z.bits_inj'. intros i Hi. rewrite Z.land_spec, Z.bits_0. change 128 with (2 ^ 7). rewrite Z.pow2_bits_eqb by lia.
    destruct (Z.eqb_spec 7 i) as [<-|]; [|by rewrite andb_false_r]. rewrite (is_u_testbit 7 w); [done|done|lia].
Qed.

Lemma lor_low a x n : 0 <= n -> is_u n a -> Z.lor a (Z.shiftl x n) = a + x * 2 ^ n.
Proof. intros Hn Ha. rewrite Z.shiftl_mul_pow2, Z.lor_comm, lor_shift by done. lia. Qed.

Lemma decode_read (pre l : list Z) i : 0 <= i -> zget (pre ++ l) (zlen pre + i) = l !! Z.to_nat i.
Proof. intros Hi. rewrite zget_app_r by lia. unfold zget. by destruct (Z.ltb_spec i 0); [lia|]. Qed.

Ltac byte_facts w :=
  pose proof (Z.div_mod w 128 ltac:(lia)); pose proof (Z.mod_pos_bound w 128 ltac:(lia)); pose proof (Z.div_pos w 128 ltac:(lia) ltac:(lia)).
Ltac merge_bytes :=
  repeat match goal with |- context [Z.lor ?a (Z.shiftl ?x ?n)] =>
    lazymatch a with context [Z.lor] => fail | _ => rewrite (lor_low a x n) by (lia || split; lia) end end.

Lemma decode_spec v pre post :
  0 <= v < 2 ^ 49 -> decode_varbyte (pre ++ vb v ++ post) (zlen pre) = Ret (v, zlen pre + zlen (vb v)).
Proof.
  intros Hv. unfold decode_varbyte. pose proof (decode_read pre (vb v ++ post)) as R.
  rewrite <- (Z.add_0_r (zlen pre)) at 1. rewrite (R 0), (R 1), (R 2), (R 3), (R 4), (R 5), (R 6) by lia. clear R.
  change (Z.to_nat 0) with 0%nat. change (Z.to_nat 1) with 1%nat. change (Z.to_nat 2) with 2%nat. change (Z.to_nat 3) with 3%nat. change (Z.to_nat 4) with 4%nat. change (Z.to_nat 5) with 5%nat. change (Z.to_nat 6) with 6%nat.
  byte_facts v. set (w1 := v / 128) in *. byte_facts w1. set (w2 := w1 / 128) in *. byte_facts w2. set (w3 := w2 / 128) in *. byte_facts w3. set (w4 := w3 / 128) in *.
  byte_facts w4. set (w5 := w4 / 128) in *. byte_facts w5. set (w6 := w5 / 128) in *. cbn [varbyte]. fold w1 w2 w3 w4 w5 w6.
  repeat match goal with |- context [?w <? 128] => destruct (Z.ltb_spec w 128); [|destruct (low7 w) as (? & ?)] end; try lia.
  all: cbn [app lookup list_lookup deref cbind].
  all: repeat match goal with H : Z.land (128 + ?w mod 128) 127 = _, H' : (Z.land (128 + ?w mod 128) 128 =? 0) = _ |- _ => rewrite H, H'; clear H H'; cbn [cbind deref] end.
  all: try match goal with Hw : ?w < 128 |- context [Z.land ?w 128] => destruct (low7_last w ltac:(lia)) as (E1 & E2); rewrite E1, E2; clear E1 E2 end.
  all: clearbody w1 w2 w3 w4 w5 w6; unfold zlen; cbn [length]; merge_bytes; f_equal; f_equal; lia.
Qed.

(** ** The bytes of a list of items *)

(** The bytes of the items after one with the number [prev]. *)
Fixpoint enc (prev : Z) (items : list ItemPointerData) : list Z :=
  match items with
  | [] => []
  | it :: items => vb (item_val it - prev) ++ enc (item_val it) items
  end.

(** Valid items in ascending order, each less than [2 ^ 42] above the one before. *)
Fixpoint ascending (prev : Z) (items : list ItemPointerData) : Prop :=
  match items with
  | [] => True
  | it :: items => valid_item it /\ prev < item_val it < prev + 2 ^ 42 /\ ascending (item_val it) items
  end.

Lemma enc_take_len n prev items : zlen (enc prev (take n items)) <= zlen (enc prev items).
Proof.
  revert prev items. induction n as [|n IH]; intros prev items; [apply zlen_nonneg|]. destruct items as [|it items]; [done|].
  cbn [take enc]. rewrite !zlen_app. specialize (IH (item_val it) items). lia.
Qed.

Lemma vb_len_six v : 0 <= v < 2 ^ 42 -> 1 <= zlen (vb v) <= 6.
Proof. intros Hv. pose proof (varbyte_len 10 v). split; [lia|]. by apply (vb_len_le v 5); lia. Qed.

Lemma memcpy_bytes_spec pre old post src : zlen old = zlen src -> memcpy_bytes (pre ++ old ++ post) (zlen pre) src = Ret (pre ++ src ++ post).
Proof.
  revert pre old. induction src as [|c src IH]; intros pre old Hlen; cbn [memcpy_bytes].
  - by destruct old.
  - destruct old as [|o old]; [done|]. rewrite !zlen_cons in Hlen. cbn [app]. rewrite zset_app_r. cbn [deref cbind].
    replace (pre ++ c :: old ++ post) with ((pre ++ [c]) ++ old ++ post) by (by rewrite <- app_assoc).
    replace (zlen pre + 1) with (zlen (pre ++ [c])) by (by rewrite zlen_app). rewrite IH by lia. by rewrite <- app_assoc.
Qed.

(** The first bytes of a buffer that is long enough. *)
Lemma split_room (l : list Z) n : 0 <= n <= zlen l -> exists l1 l2, l = l1 ++ l2 /\ zlen l1 = n.
Proof. intros Hn. exists (take (Z.to_nat n) l), (drop (Z.to_nat n) l). split; [by rewrite take_drop|]. by apply zlen_take. Qed.

(** A number written to a small buffer. *)
Lemma encode_small v l : 0 <= v < 2 ^ 64 -> zlen (vb v) <= zlen l -> exists post, encode_varbyte v l 0 = Ret (vb v ++ post, zlen (vb v)).
Proof.
  intros Hv Hl. destruct (split_room l (zlen (vb v))) as (l1 & l2 & -> & Hlen); [split; [apply zlen_nonneg|done]|].
  exists l2. exact (encode_spec v [] l1 l2 Hv Hlen).
Qed.

(** ** Packing *)

Section packing.
Context (fresh : Z -> list Z).
Hypothesis fresh_len : forall n, 0 <= n -> zlen (fresh n) = n.

(** One more item, if there is room for it. *)
Lemma pack_one (pre rest : list Z) delta endptr :
  0 <= delta < 2 ^ 42 -> zlen (pre ++ rest) = endptr -> zlen (vb delta) <= zlen rest ->
  exists rest', zlen ((pre ++ vb delta) ++ rest') = endptr /\
    (if 6 <=? endptr - zlen pre then encode_varbyte delta (pre ++ rest) (zlen pre)
     else let* (small, p) := encode_varbyte delta (fresh 6) 0 in
          let* buf := memcpy_bytes (pre ++ rest) (zlen pre) (take (Z.to_nat p) small) in Ret (buf, zlen pre + p))
    = Ret ((pre ++ vb delta) ++ rest', zlen (pre ++ vb delta)).
Proof using fresh_len.
  intros Hd He Hroom. destruct (split_room rest (zlen (vb delta))) as (old & rest' & -> & Hlen); [split; [apply zlen_nonneg|done]|].
  exists rest'. rewrite !zlen_app in *. split; [lia|]. rewrite <- app_assoc. destruct (Z.leb_spec 6 (endptr - zlen pre)).
  - apply encode_spec; [lia|done].
  - pose proof (vb_len_six delta ltac:(lia)) as H6.
    destruct (encode_small delta (fresh 6)) as (post & ->); [lia|rewrite fresh_len; lia|]. cbn [cbind].
    replace (Z.to_nat (zlen (vb delta))) with (length (vb delta)) by (unfold zlen; lia). rewrite take_app_length.
    by rewrite memcpy_bytes_spec.
Qed.

Lemma pack_full (pre rest : list Z) delta endptr :
  0 <= delta < 2 ^ 42 -> zlen (pre ++ rest) = endptr -> zlen rest < zlen (vb delta) ->
  6 <=? endptr - zlen pre = false /\ exists small p, encode_varbyte delta (fresh 6) 0 = Ret (small, p) /\ endptr - zlen pre <? p = true.
Proof using fresh_len.
  intros Hd He Hroom. rewrite zlen_app in He. pose proof (vb_len_six delta ltac:(lia)) as H6. split; [apply Z.leb_gt; lia|].
  destruct (encode_small delta (fresh 6)) as (post & ->); [lia|rewrite fresh_len; lia|]. eexists _, _. split; [done|]. apply Z.ltb_lt. lia.
Qed.

(** As many items as fit are packed. *)
Lemma pack_loop_spec items pre rest endptr prev total :
  zlen (pre ++ rest) = endptr -> 0 <= prev -> ascending prev items ->
  exists n rest', (n <= length items)%nat /\ zlen ((pre ++ enc prev (take n items)) ++ rest') = endptr /\
    ((n < length items)%nat -> endptr < zlen pre + zlen (enc prev (take (S n) items))) /\
    pack_loop fresh items (pre ++ rest) endptr (zlen pre) prev total
    = Ret ((pre ++ enc prev (take n items)) ++ rest', zlen pre + zlen (enc prev (take n items)), total + Z.of_nat n).
Proof using fresh_len.
  revert pre rest prev total. induction items as [|it items IH]; intros pre rest prev total He Hp Ha; cbn [pack_loop].
  { exists 0%nat, rest. cbn. rewrite app_nil_r. change (zlen (@nil Z)) with 0. rewrite !Z.add_0_r. split_and!; [lia|done|lia|done]. }
  destruct Ha as (Hv & Hd & Ha). rewrite (to_uint64 it Hv). cbn [cbind]. unfold u64. rewrite Z.mod_small by lia.
  destruct (Z.ltb_spec prev (item_val it)); [|lia]. cbn [c_assert cbind]. set (delta := item_val it - prev) in *. assert (0 <= delta < 2 ^ 42) as Hdelta by (subst delta; lia).
  destruct (Z.le_gt_cases (zlen (vb delta)) (zlen rest)) as [Hroom|Hfull].
  - destruct (pack_one pre rest delta endptr Hdelta He Hroom) as (rest' & He' & E).
    destruct (IH (pre ++ vb delta) rest' (item_val it) (total + 1) He') as (n & rest'' & Hn & Hlen & Hmax & Eq); [lia|done|].
    exists (S n), rest''. cbn [take enc length]. fold delta. rewrite app_assoc, !zlen_app in *. split_and!; [lia|lia| |].
    + intros Hlt. specialize (Hmax ltac:(lia)). destruct items as [|it' items]; [cbn in Hlt; lia|]. cbn [take enc] in Hmax |- *. rewrite !zlen_app in *. lia.
    + destruct (6 <=? endptr - zlen pre); [rewrite E|].
      * cbn [cbind]. rewrite Eq. f_equal. f_equal; [f_equal|]; lia.
      * destruct (encode_varbyte delta (fresh 6) 0) as [[small p]| |] eqn:Es; [|done|done]. cbn [cbind] in E |- *.
        assert (endptr - zlen pre <? p = false) as ->.
        { destruct (encode_small delta (fresh 6)) as (post & Es'); [lia|rewrite fresh_len by lia; pose proof (vb_len_six delta Hdelta); lia|]. assert (p = zlen (vb delta)) as -> by congruence. apply Z.ltb_ge. lia. }
        destruct (memcpy_bytes _ _ _) as [buf| |]; [|done|done]. cbn [cbind] in E |- *.
        assert (buf = (pre ++ vb delta) ++ rest') as -> by congruence. replace (zlen pre + p) with (zlen pre + zlen (vb delta)) by congruence. rewrite Eq. f_equal. f_equal; [f_equal|]; lia.
  - destruct (pack_full pre rest delta endptr Hdelta He Hfull) as (-> & small & p & -> & Hp'). cbn [cbind]. rewrite Hp'.
    exists 0%nat, rest. cbn [take enc length]. rewrite app_nil_r. change (zlen (@nil Z)) with 0. rewrite !Z.add_0_r. split_and!; [lia|done| |done].
    intros _. fold delta. rewrite zlen_app in *. pose proof (zlen_nonneg (enc (item_val it) (take 0 items))). lia.
Qed.
End packing.

(** ** Unpacking *)

(** The output array has room for what is in it, and is not much larger. *)
Definition alloc_ok (result : list ItemPointerData) (nallocated : Z) : Prop :=
  1 <= nallocated /\ zlen result <= nallocated /\ (nallocated <= 2 ^ 17 \/ nallocated <= 2 * zlen result).

Lemma store_spec result nallocated item :
  alloc_ok result nallocated -> zlen result < 2 ^ 29 ->
  store_result result (enlarge_result result nallocated) item = Ret (result ++ [item]) /\ alloc_ok (result ++ [item]) (enlarge_result result nallocated).
Proof.
  intros (H1 & H2 & H3) Hl. unfold store_result, enlarge_result, alloc_ok. rewrite zlen_app. change (zlen [item]) with 1. destruct (Z.leb_spec nallocated (zlen result)).
  - assert (s32 (nallocated * 2) = nallocated * 2) as -> by (unfold s32; rewrite Z.mod_small by lia; lia). destruct (Z.ltb_spec (zlen result) (nallocated * 2)); [|lia]. split; [done|]. lia.
  - destruct (Z.ltb_spec (zlen result) nallocated); [|lia]. split; [done|]. lia.
Qed.

Lemma unpack_loop_spec fuel items pre post prev result nallocated :
  zlen (enc prev items) <= Z.of_nat fuel -> 0 <= prev < 2 ^ 43 -> ascending prev items -> alloc_ok result nallocated -> zlen result + zlen items < 2 ^ 29 ->
  exists nallocated', alloc_ok (result ++ items) nallocated' /\
    unpack_loop fuel (pre ++ enc prev items ++ post) (zlen pre + zlen (enc prev items)) (zlen pre) prev result nallocated = Ret (result ++ items, nallocated').
Proof.
  revert items pre prev result nallocated. induction fuel as [|fuel IH]; intros items pre prev result nallocated Hf Hp Ha Hal Hn.
  all: destruct items as [|it items]; cbn [unpack_loop enc].
  1,3: exists nallocated; change (zlen (@nil Z)) with 0; rewrite app_nil_r, Z.add_0_r, Z.ltb_irrefl; done.
  all: destruct Ha as (Hv & Hd & Ha); cbn [enc] in Hf; rewrite zlen_app in *; pose proof (varbyte_len 10 (item_val it - prev)) as Hk; pose proof (zlen_nonneg (enc (item_val it) items)).
  - lia.
  - destruct (Z.ltb_spec (zlen pre) (zlen pre + (zlen (vb (item_val it - prev)) + zlen (enc (item_val it) items)))); [|lia].
    rewrite <- app_assoc, decode_spec by lia. cbn [cbind]. unfold u64. replace (prev + (item_val it - prev)) with (item_val it) by lia. pose proof (item_val_bounds it Hv). rewrite Z.mod_small by lia.
    rewrite (from_uint64 it Hv). cbn [cbind]. rewrite zlen_cons in Hn. pose proof (zlen_nonneg items).
    destruct (store_spec result nallocated it Hal ltac:(lia)) as (-> & Hal'). cbn [cbind]. destruct (IH items (pre ++ vb (item_val it - prev)) (item_val it) (result ++ [it]) (enlarge_result result nallocated)) as (na & Hna & E); try done; try lia.
    + rewrite zlen_app. change (zlen [it]) with 1. lia.
    + exists na. rewrite <- !app_assoc, zlen_app in *. cbn [app] in *. rewrite <- E. split; [done|]. f_equal. lia.
Qed.

(** ** Segments *)

(** The segment holds these items. *)
Record segment_of (plist : GinPostingList) (items : list ItemPointerData) : Prop := {
  so_first : exists rest, items = pl_first plist :: rest /\ ascending (item_val (pl_first plist)) rest /\ nbytes plist = zlen (enc (item_val (pl_first plist)) rest) /\
      exists post, bytes plist = enc (item_val (pl_first plist)) rest ++ post;
  so_valid : valid_item (pl_first plist);
  so_short : nbytes plist < 2 ^ 16 }.

(** Larger than all before. *)
Definition follows (result items : list ItemPointerData) : Prop :=
  match last result, items with Some it, it' :: _ => valid_item it /\ item_val it < item_val it' | _, _ => True end.

Lemma compare_after a b : valid_item a -> valid_item b -> 0 <? ginCompareItemPointers a b = (item_val b <? item_val a).
Proof.
  intros (Ha & Ha') (Hb & Hb'). unfold ginCompareItemPointers, item_val. rewrite !Z.shiftl_mul_pow2 by lia. unfold u64. rewrite !Z.mod_small by lia. rewrite !lor_shift by (lia || split; lia).
  destruct (Z.eqb_spec (ip_blkid a * 2 ^ 32 + ip_posid a) (ip_blkid b * 2 ^ 32 + ip_posid b)) as [E|E].
  - symmetry. apply Z.ltb_ge. lia.
  - destruct (Z.ltb_spec (ip_blkid b * 2 ^ 32 + ip_posid b) (ip_blkid a * 2 ^ 32 + ip_posid a)); symmetry; [apply Z.ltb_lt|apply Z.ltb_ge]; lia.
Qed.

Lemma align_up n : SHORTALIGN n = n + n mod 2.
Proof.
  unfold SHORTALIGN. change (Z.lnot 1) with (Z.lnot (Z.ones 1)). rewrite <- Z.ldiff_land, Z.ldiff_ones_r, Z.shiftr_div_pow2, Z.shiftl_mul_pow2 by lia. change (2 ^ 1) with 2.
  Z.div_mod_to_equations. lia.
Qed.

Lemma align_down n : SHORTALIGN_DOWN n = n - n mod 2.
Proof.
  unfold SHORTALIGN_DOWN. change (Z.lnot 1) with (Z.lnot (Z.ones 1)). rewrite <- Z.ldiff_land, Z.ldiff_ones_r, Z.shiftr_div_pow2, Z.shiftl_mul_pow2 by lia. change (2 ^ 1) with 2.
  Z.div_mod_to_equations. lia.
Qed.

Lemma align_mono a b : a <= b -> SHORTALIGN a <= SHORTALIGN b.
Proof. intros Hab. rewrite !align_up. Z.div_mod_to_equations. lia. Qed.

Lemma segment_size plist items : segment_of plist items -> 0 <= nbytes plist /\ 8 <= SizeOfGinPostingList plist.
Proof.
  intros [(rest & _ & _ & Hn & _) _ _]. unfold SizeOfGinPostingList, offsetof_bytes. rewrite align_up. pose proof (zlen_nonneg (enc (item_val (pl_first plist)) rest)).
  pose proof (Z.mod_pos_bound (nbytes plist) 2). lia.
Qed.

Definition segments_size (segs : list GinPostingList) : Z := foldr (fun s n => SizeOfGinPostingList s + n) 0 segs.

(** Every segment starts after the end of the one before. *)
Fixpoint chained (result : list ItemPointerData) (itemss : list (list ItemPointerData)) : Prop :=
  match itemss with
  | [] => True
  | items :: itemss => follows result items /\ chained (result ++ items) itemss
  end.

Lemma segments_loop_spec segs itemss result nallocated :
  Forall2 segment_of segs itemss -> chained result itemss -> alloc_ok result nallocated -> zlen result + zlen (concat itemss) < 2 ^ 29 ->
  segments_loop segs (segments_size segs) result nallocated = Ret (result ++ concat itemss).
Proof.
  intros HF. revert result nallocated. induction HF as [|seg items segs itemss Hseg HF IH]; intros result nallocated Hc Hal Hlen; cbn [segments_loop segments_size foldr concat].
  { by rewrite app_nil_r. }
  destruct (segment_size _ _ Hseg) as (Hnb & Hs). assert (0 <= segments_size segs) as Hs'.
  { clear -HF. induction HF as [|? ? ? ? H1 _ IH]; [done|]. cbn. pose proof (segment_size _ _ H1). unfold segments_size in *. lia. }
  unfold segments_size in Hs'. destruct (Z.ltb_spec 0 (SizeOfGinPostingList seg + foldr (fun s n => SizeOfGinPostingList s + n) 0 segs)); [|lia].
  destruct Hseg as [(rest & -> & Ha & Hn & post & Hb) Hv Hsh]. pose proof Hv as (_ & Hpos). cbn [concat] in Hlen. rewrite zlen_app, zlen_cons in Hlen. pose proof (zlen_nonneg rest). pose proof (zlen_nonneg (concat itemss)).
  unfold ItemPointerIsValid, OffsetNumberIsValid. change MaxOffsetNumber with 2048. change InvalidOffsetNumber with 0. destruct (Z.eqb_spec (ip_posid (pl_first seg)) 0); [lia|]. destruct (Z.leb_spec (ip_posid (pl_first seg)) 2048); [|lia]. cbn [negb andb c_assert cbind].
  destruct Hc as (Hfo & Hc). assert (match last result with Some it => 0 <? ginCompareItemPointers (pl_first seg) it | None => true end = true) as ->.
  { unfold follows in Hfo. destruct (last result) as [it|]; [|done]. destruct Hfo as (Hvi & Hlt). rewrite compare_after by done. by apply Z.ltb_lt. }
  cbn [c_assert cbind]. destruct (store_spec result nallocated (pl_first seg) Hal ltac:(lia)) as (-> & Hal'). cbn [cbind]. rewrite (to_uint64 _ Hv). cbn [cbind].
  destruct (unpack_loop_spec (Z.to_nat (nbytes seg)) rest [] post (item_val (pl_first seg)) (result ++ [pl_first seg]) (enlarge_result result nallocated)) as (na & Hna & E); try done.
  - lia.
  - pose proof (item_val_bounds _ Hv). lia.
  - rewrite zlen_app. change (zlen [pl_first seg]) with 1. lia.
  - cbn [app] in E. change (zlen (@nil Z)) with 0 in E. rewrite Z.add_0_l, <- Hn, <- Hb in E. rewrite E. cbn [cbind]. replace (SizeOfGinPostingList seg + _ - SizeOfGinPostingList seg) with (segments_size segs) by (unfold segments_size; lia).
    rewrite <- app_assoc in *. cbn [app] in *. rewrite IH; [by rewrite <- app_assoc|done|done|]. rewrite zlen_app, zlen_cons. lia.
Qed.

Lemma decode_segments segs itemss :
  segs <> [] -> Forall2 segment_of segs itemss -> chained [] itemss -> zlen (concat itemss) < 2 ^ 29 ->
  ginPostingListDecodeAllSegments segs (segments_size segs) = Ret (concat itemss).
Proof.
  intros Hne HF Hc Hlen. unfold ginPostingListDecodeAllSegments. destruct HF as [|seg items segs itemss Hseg HF]; [done|]. cbn [head deref cbind].
  rewrite (segments_loop_spec (seg :: segs) (items :: itemss)); [done|by constructor|done| |done].
  destruct (segment_size _ _ Hseg) as (Hnb & _). pose proof (so_short _ _ Hseg). unfold alloc_ok. change (zlen (@nil ItemPointerData)) with 0. lia.
Qed.

Lemma decode_one plist items : segment_of plist items -> zlen items < 2 ^ 29 -> ginPostingListDecode plist = Ret items.
Proof.
  intros Hseg Hlen. unfold ginPostingListDecode. replace (SizeOfGinPostingList plist) with (segments_size [plist]) by (cbn; lia).
  rewrite (decode_segments [plist] [items]); [cbn; by rewrite app_nil_r|done|constructor; [done|constructor]|done|cbn; by rewrite app_nil_r].
Qed.

(** ** Compression *)

Definition posting_ok (ipd : list ItemPointerData) : Prop :=
  match ipd with [] => False | first :: rest => valid_item first /\ ascending (item_val first) rest end.

(** The bytes that the items take after the first. *)
Definition enc_size (ipd : list ItemPointerData) : Z :=
  match ipd with [] => 0 | first :: rest => zlen (enc (item_val first) rest) end.

Lemma ascending_take n prev items : ascending prev items -> ascending prev (take n items).
Proof. revert prev items. induction n as [|n IH]; intros prev [|it items]; try done. cbn. naive_solver. Qed.

Section compress.
Context (fresh : Z -> list Z).
Hypothesis fresh_len : forall n, 0 <= n -> zlen (fresh n) = n.

Lemma compress_posting_spec ipd maxsize :
  posting_ok ipd -> 10 <= maxsize <= 2 ^ 16 -> zlen ipd < 2 ^ 29 ->
  exists plist n, ginCompressPostingList fresh ipd maxsize = Ret (plist, n) /\ 1 <= n <= zlen ipd /\ segment_of plist (take (Z.to_nat n) ipd) /\
    SizeOfGinPostingList plist <= maxsize /\ (n < zlen ipd -> SHORTALIGN_DOWN maxsize - 8 < enc_size (take (Z.to_nat (n + 1)) ipd)).
Proof using fresh_len.
  destruct ipd as [|first rest]; [done|]. intros (Hv & Ha) Hm Hlen. unfold ginCompressPostingList, offsetof_bytes. set (size := SHORTALIGN_DOWN maxsize).
  assert (10 <= size <= 2 ^ 16 /\ size <= maxsize /\ size mod 2 = 0) as (Hsize & Hle & Heven) by (subst size; rewrite align_down; Z.div_mod_to_equations; lia).
  destruct (Z.ltb_spec 0 (size - 8)); [|lia]. cbn [c_assert cbind head deref tail]. rewrite (to_uint64 _ Hv). cbn [cbind]. pose proof (item_val_bounds _ Hv).
  destruct (pack_loop_spec fresh fresh_len rest [] (fresh (size - 8)) (size - 8) (item_val first) 1) as (n & post & Hn & Hpost & Hmax & E); [cbn [app]; apply fresh_len; lia|lia|done|].
  cbn [app] in E, Hpost. change (zlen (@nil Z)) with 0 in E, Hmax. rewrite Z.add_0_l in E. rewrite E. cbn [cbind]. set (bs := enc (item_val first) (take n rest)) in *.
  rewrite zlen_app in Hpost. pose proof (zlen_nonneg bs). pose proof (zlen_nonneg post). assert (u16 (zlen bs) = zlen bs) as -> by (unfold u16; apply Z.mod_small; lia).
  assert (exists post', zlen post' = zlen post /\ (if zlen bs =? SHORTALIGN (zlen bs) then Ret (bs ++ post) else deref (zset (bs ++ post) (zlen bs) 0)) = Ret (bs ++ post')) as (post' & Hp' & ->).
  { rewrite align_up. destruct (Z.eqb_spec (zlen bs) (zlen bs + zlen bs mod 2)); [by exists post|]. destruct post as [|o post]; [exfalso; change (zlen (@nil Z)) with 0 in *; Z.div_mod_to_equations; lia|].
    rewrite zset_app_r. by exists (0 :: post). }
  cbn [cbind]. set (plist := Build_GinPostingList first (zlen bs) (bs ++ post')). assert (SizeOfGinPostingList plist <= size) as Hfit by (unfold SizeOfGinPostingList, offsetof_bytes; rewrite align_up; cbn; Z.div_mod_to_equations; lia).
  assert (Z.to_nat (1 + Z.of_nat n) = S n) as En by lia. assert (segment_of plist (take (Z.to_nat (1 + Z.of_nat n)) (first :: rest))) as Hseg.
  { rewrite En. constructor; [|done|cbn; lia]. exists (take n rest). split_and!; [done|by apply ascending_take|done|by exists post']. }
  destruct (Z.leb_spec (SizeOfGinPostingList plist) size); [|lia]. cbn [c_assert cbind].
  assert (1 + Z.of_nat n <= zlen (first :: rest)) as Hn' by (rewrite zlen_cons; unfold zlen; lia). rewrite (decode_one _ _ Hseg) by (rewrite zlen_take; lia). cbn [cbind]. rewrite bool_decide_eq_true_2 by done. cbn [c_assert cbind].
  exists plist, (1 + Z.of_nat n). split_and!; [done|lia|lia|done|lia|]. intros Hlt. rewrite zlen_cons in Hlt. unfold zlen in Hlt.
  replace (Z.to_nat (1 + Z.of_nat n + 1)) with (S (S n)) by lia. change (take (S (S n)) (first :: rest)) with (first :: take (S n) rest). cbn [enc_size]. specialize (Hmax ltac:(lia)). lia.
Qed.
End compress.
