(* ===== verification/GinPostingTheorems.v ===== *)
(** Compressed posting lists: the claims. *)
From stdpp Require Import list sorting sets.
From S2P Require Import Prelude HeapTuple BufPage GinPosting GinPostingProofs.

(** ** Removing items *)

(** All items are within [2 ^ 31] blocks of the first. *)
Definition near_first (ipd : list ItemPointerData) : Prop :=
  match ipd with [] => True | first :: _ => forall it, it ∈ ipd -> item_val it < item_val first + 2 ^ 42 end.

Lemma ascending_sublist items' items prev prev' :
  items' `sublist_of` items -> ascending prev items -> prev' <= prev -> (forall it, it ∈ items -> item_val it < prev' + 2 ^ 42) -> ascending prev' items'.
Proof.
  intros Hs. revert prev prev'. induction Hs as [|it items' items Hs IH|it items' items Hs IH]; intros prev prev' Ha Hp Hn; cbn in *; [done| |].
  - destruct Ha as (Hv & Hd & Ha). split; [done|]. split; [split; [lia|apply Hn; left]|]. apply (IH (item_val it)); [done|lia|].
    intros it' Hin. specialize (Hn it' ltac:(by right)). lia.
  - destruct Ha as (Hv & Hd & Ha). apply (IH (item_val it)); [done|lia|]. intros it' Hin. apply Hn. by right.
Qed.

(** Without an item before it, the next difference is the sum of two. *)
Lemma enc_skip prev x items : prev < x -> ascending x items -> zlen (enc prev items) <= zlen (vb (x - prev)) + zlen (enc x items).
Proof.
  intros Hx Ha. pose proof (varbyte_len 10 (x - prev)). destruct items as [|it items]; cbn [enc]; [unfold zlen; cbn [length]; lia|].
  destruct Ha as (_ & Hd & _). rewrite !zlen_app. pose proof (vb_len_add (x - prev) (item_val it - x) ltac:(lia) ltac:(lia)) as Hl.
  replace (x - prev + (item_val it - x)) with (item_val it - prev) in Hl by lia. lia.
Qed.

Lemma enc_sublist items' items prev :
  items' `sublist_of` items -> ascending prev items -> (forall it, it ∈ items -> item_val it < prev + 2 ^ 42) -> zlen (enc prev items') <= zlen (enc prev items).
Proof.
  intros Hs. revert prev. induction Hs as [|it items' items Hs IH|it items' items Hs IH]; intros prev Ha Hn; cbn [enc]; [done| |]; destruct Ha as (Hv & Hd & Ha);
    assert (forall it', it' ∈ items -> item_val it' < item_val it + 2 ^ 42) as Hn' by (intros it' Hin; specialize (Hn it' ltac:(by right)); lia); specialize (IH _ Ha Hn'); rewrite ?zlen_app.
  - lia.
  - pose proof (enc_skip prev (item_val it) items' ltac:(lia) (ascending_sublist _ _ _ _ Hs Ha (Z.le_refl _) Hn')). lia.
Qed.

(** The same for whole lists, of which the first item is stored as it is. *)
Lemma posting_sublist ipd' ipd :
  ipd' `sublist_of` ipd -> ipd' <> [] -> posting_ok ipd -> near_first ipd -> posting_ok ipd' /\ enc_size ipd' <= enc_size ipd.
Proof.
  intros Hs Hne Hok Hnear. destruct Hs as [|first rest' rest Hs|first ipd' rest Hs]; [done| |]; destruct Hok as (Hv & Ha);
    assert (forall it, it ∈ rest -> item_val it < item_val first + 2 ^ 42) as Hn by (intros it Hin; apply Hnear; by right).
  - split; [split; [done|]; apply (ascending_sublist _ _ _ _ Hs Ha); [lia|done]|]. by apply enc_sublist.
  - pose proof (ascending_sublist _ _ _ _ Hs Ha (Z.le_refl _) Hn) as Ha'. pose proof (enc_sublist _ _ _ Hs Ha Hn) as Hl. destruct ipd' as [|first' rest']; [done|]. destruct Ha' as (Hv' & Hd & Ha').
    split; [done|]. cbn [enc_size]. cbn [enc] in Hl. rewrite zlen_app in Hl. pose proof (zlen_nonneg (vb (item_val first' - item_val first))). lia.
Qed.

Lemma enc_size_take n ipd : enc_size (take n ipd) <= enc_size ipd.
Proof. destruct n, ipd as [|it ipd]; try done; [apply zlen_nonneg|]. cbn [take enc_size]. apply enc_take_len. Qed.

Lemma segment_bytes plist items : segment_of plist items -> nbytes plist = enc_size items.
Proof. intros [(rest & -> & _ & Hn & _) _ _]. exact Hn. Qed.

(** ** Merging *)

Definition item_key (it : ItemPointerData) : Z := ip_blkid it * 2 ^ 32 + ip_posid it.
Definition item_lt (a b : ItemPointerData) : Prop := item_key a < item_key b.
Definition item_ok (it : ItemPointerData) : Prop := 0 <= ip_blkid it < 2 ^ 32 /\ 0 <= ip_posid it < 2 ^ 16.

#[local] Instance item_lt_trans : Transitive item_lt.
Proof. intros a b c. unfold item_lt. lia. Qed.

Lemma item_key_inj a b : item_ok a -> item_ok b -> item_key a = item_key b -> a = b.
Proof.
  intros (Ha & Ha') (Hb & Hb') E. unfold item_key in E. destruct a as [ba pa], b as [bb pb]. cbn in *. assert (ba = bb) as -> by lia. f_equal. lia.
Qed.

Lemma compare_key a b : item_ok a -> item_ok b ->
  ginCompareItemPointers a b = if item_key a =? item_key b then 0 else if item_key b <? item_key a then 1 else -1.
Proof.
  intros (Ha & Ha') (Hb & Hb'). unfold ginCompareItemPointers, item_key. rewrite !Z.shiftl_mul_pow2 by lia. unfold u64. rewrite !Z.mod_small by lia. by rewrite !lor_shift by (lia || split; lia).
Qed.

(** Sorted without duplicates. *)
Notation sorted l := (StronglySorted item_lt l).

Lemma merge_nil_r a : merge_loop a [] = a.
Proof. by destruct a. Qed.

Lemma merge_cons x a y b :
  merge_loop (x :: a) (y :: b) =
  let cmp := ginCompareItemPointers x y in
  if 0 <? cmp then y :: merge_loop (x :: a) b else if cmp =? 0 then y :: merge_loop a b else x :: merge_loop a (y :: b).
Proof. done. Qed.

(** The three cases of the comparison. *)
Lemma merge_cases x a y b : item_ok x -> item_ok y ->
  (item_lt y x /\ merge_loop (x :: a) (y :: b) = y :: merge_loop (x :: a) b) \/
  (x = y /\ merge_loop (x :: a) (y :: b) = y :: merge_loop a b) \/
  (item_lt x y /\ merge_loop (x :: a) (y :: b) = x :: merge_loop a (y :: b)).
Proof.
  intros Hx Hy. rewrite merge_cons, compare_key by done. cbv zeta. destruct (Z.eqb_spec (item_key x) (item_key y)) as [E|E].
  - right. left. split; [by apply item_key_inj|done].
  - unfold item_lt. destruct (Z.ltb_spec (item_key y) (item_key x)); [by left|right; right]. split; [lia|done].
Qed.

Lemma merge_loop_spec a b :
  Forall item_ok a -> Forall item_ok b -> sorted a -> sorted b ->
  sorted (merge_loop a b) /\ (forall it, it ∈ merge_loop a b <-> it ∈ a \/ it ∈ b) /\ zlen (merge_loop a b) <= zlen a + zlen b.
Proof.
  revert b. induction a as [|x a IHa]; intros b.
  { intros _ _ _ Hb. destruct b; cbn; (split_and!; [done|set_solver|unfold zlen; cbn; lia]). }
  induction b as [|y b IHb]; intros Fa Fb Sa Sb.
  { rewrite merge_nil_r. split_and!; [done|set_solver|]. change (zlen (@nil ItemPointerData)) with 0. lia. }
  pose proof (proj1 (Forall_cons _ _ _) Fa) as (Hx & Fa'). pose proof (proj1 (Forall_cons _ _ _) Fb) as (Hy & Fb').
  pose proof (proj1 (StronglySorted_cons _ _ _) Sa) as (Lx & Sa'). pose proof (proj1 (StronglySorted_cons _ _ _) Sb) as (Ly & Sb'). rewrite Forall_forall in Lx, Ly.
  destruct (merge_cases x a y b Hx Hy) as [(Hc & ->)|[(-> & ->)|(Hc & ->)]].
  - destruct (IHb Fa Fb' Sa Sb') as (S1 & E1 & L1). rewrite !zlen_cons in *. split_and!; [|intros it; rewrite elem_of_cons, E1; set_solver|lia].
    apply StronglySorted_cons. split; [|done]. apply Forall_forall. intros it [[->|Hin]%elem_of_cons|Hin]%E1; [done|by transitivity x; [|apply Lx]|by apply Ly].
  - destruct (IHa b Fa' Fb' Sa' Sb') as (S1 & E1 & L1). rewrite !zlen_cons in *. split_and!; [|intros it; rewrite elem_of_cons, E1; set_solver|lia].
    apply StronglySorted_cons. split; [|done]. apply Forall_forall. intros it [Hin|Hin]%E1; [by apply Lx|by apply Ly].
  - destruct (IHa (y :: b) Fa' Fb Sa' Sb) as (S1 & E1 & L1). rewrite !zlen_cons in *. split_and!; [|intros it; rewrite elem_of_cons, E1; set_solver|lia].
    apply StronglySorted_cons. split; [|done]. apply Forall_forall. intros it [Hin|[->|Hin]%elem_of_cons]%E1; [by apply Lx|done|by transitivity y; [|apply Ly]].
Qed.

(** The first and the last item bound the others. *)
Lemma sorted_last l z x : sorted l -> last l = Some z -> x ∈ l -> item_key x <= item_key z.
Proof.
  intros Hs (l' & ->)%last_Some Hx. apply StronglySorted_app in Hs as (H & _). apply elem_of_app in Hx as [Hx|Hx]; [|apply list_elem_of_singleton in Hx as ->; lia].
  specialize (H x z Hx ltac:(set_solver)). unfold item_lt in H. lia.
Qed.

Lemma sorted_head l z x : sorted l -> head l = Some z -> x ∈ l -> item_key z <= item_key x.
Proof.
  intros Hs Hh Hx. destruct l as [|y l]; [done|]. injection Hh as ->. apply StronglySorted_cons in Hs as (H & _). rewrite Forall_forall in H.
  apply elem_of_cons in Hx as [->|Hx]; [lia|]. specialize (H x Hx). unfold item_lt in H. lia.
Qed.

(** Arrays that do not overlap are put behind each other. *)
Lemma sorted_behind a b la hb :
  Forall item_ok a -> Forall item_ok b -> sorted a -> sorted b -> last a = Some la -> head b = Some hb -> ginCompareItemPointers la hb < 0 -> sorted (a ++ b).
Proof.
  intros Fa Fb Sa Sb Ha Hb Hc. rewrite Forall_forall in Fa, Fb. assert (item_ok la /\ item_ok hb) as (Hla & Hhb).
  { split; [apply Fa; apply last_Some in Ha as (l & ->); set_solver|apply Fb; destruct b; [done|]; injection Hb as ->; left]. }
  rewrite compare_key in Hc by done. destruct (Z.eqb_spec (item_key la) (item_key hb)); [lia|]. destruct (Z.ltb_spec (item_key hb) (item_key la)); [lia|].
  apply StronglySorted_app. split_and!; [|done|done]. intros x y Hx Hy. pose proof (sorted_last a la x Sa Ha Hx). pose proof (sorted_head b hb y Sb Hb Hy). unfold item_lt. lia.
Qed.

(** ** The claims *)

Section claims.
(** Fresh memory has the size asked for. *)
Context (fresh : Z -> list Z).
Hypothesis fresh_len : forall n, 0 <= n -> zlen (fresh n) = n.

(** C24. Compression loses nothing: for every ascending list of valid item pointers whose
    neighbours are less than [2 ^ 31] blocks apart and every size that fits on a page,
    [ginCompressPostingList] stays inside of its buffers, whatever they contained, passes
    its own check, and returns a segment of at most that size that holds the first items
    of the list, at least one, and as many as fit; [ginPostingListDecode] restores exactly
    these; and segments that follow each other are decoded together to the concatenation
    of their items, with the output array enlarged as needed. *)
Theorem posting_list_roundtrip :
  (forall ipd maxsize, posting_ok ipd -> 10 <= maxsize <= 2 ^ 16 -> zlen ipd < 2 ^ 29 ->
     exists plist n, ginCompressPostingList fresh ipd maxsize = Ret (plist, n) /\ 1 <= n <= zlen ipd /\ SizeOfGinPostingList plist <= maxsize /\
       (n < zlen ipd -> SHORTALIGN_DOWN maxsize < offsetof_bytes + enc_size (take (Z.to_nat (n + 1)) ipd)) /\
       segment_of plist (take (Z.to_nat n) ipd) /\ ginPostingListDecode plist = Ret (take (Z.to_nat n) ipd)) /\
  (forall segs itemss, segs <> [] -> Forall2 segment_of segs itemss -> chained [] itemss -> zlen (concat itemss) < 2 ^ 29 ->
     ginPostingListDecodeAllSegments segs (segments_size segs) = Ret (concat itemss)).
Proof using fresh_len.
  split; [|exact decode_segments]. intros ipd maxsize Hok Hm Hlen. destruct (compress_posting_spec fresh fresh_len ipd maxsize Hok Hm Hlen) as (plist & n & E & Hn & Hseg & Hs & Hmax).
  exists plist, n. split_and!; [done|lia|lia|done| |done|].
  - intros Hlt. specialize (Hmax Hlt). unfold offsetof_bytes. lia.
  - apply decode_one; [done|]. rewrite zlen_take; lia.
Qed.

End claims.

(** [ginMergeItemPointers] merges: from two arrays in ascending order without duplicates,
    on each of its paths, it makes the one array in ascending order without duplicates
    that has the items of both, and needs no more places than it has allocated. *)
Theorem gin_merge_spec a b :
  Forall item_ok a -> Forall item_ok b -> StronglySorted item_lt a -> StronglySorted item_lt b ->
  StronglySorted item_lt (ginMergeItemPointers a b) /\ (forall it, it ∈ ginMergeItemPointers a b <-> it ∈ a \/ it ∈ b) /\
  zlen (ginMergeItemPointers a b) <= zlen a + zlen b.
Proof.
  intros Fa Fb Sa Sb. unfold ginMergeItemPointers. destruct a as [|x a]; [cbn; split_and!; [done|set_solver|unfold zlen; cbn; lia]|].
  destruct b as [|y b]; [destruct (last (x :: a)); rewrite app_nil_r; (split_and!; [done|set_solver|unfold zlen; cbn; lia])|].
  destruct (last (x :: a)) as [la|] eqn:Ea; [|by apply last_None in Ea]. destruct (last (y :: b)) as [lb|] eqn:Eb; [|by apply last_None in Eb]. cbn [head].
  destruct (Z.ltb_spec (ginCompareItemPointers la y) 0); [|destruct (Z.ltb_spec (ginCompareItemPointers lb x) 0)].
  - split_and!; [by eapply sorted_behind|intros it; apply elem_of_app|rewrite zlen_app; lia].
  - split_and!; [by eapply sorted_behind|intros it; rewrite elem_of_app; tauto|rewrite zlen_app; lia].
  - by apply merge_loop_spec.
Qed.

(** Seven bytes can be needed where six are checked for: two item pointers that are
    [2 ^ 31] blocks apart differ by a number that takes seven bytes, one more than the
    comment promises.  With six bytes left, where the C code writes one byte past its
    allocation, and with fewer, where it writes past the buffer of six bytes on the
    stack, [ginCompressPostingList] has no outcome in the model. *)
Example varbyte_seven_bytes :
  let far := [{| ip_blkid := 0; ip_posid := 1 |}; {| ip_blkid := 2 ^ 31; ip_posid := 1 |}] in
  let fresh n := replicate (Z.to_nat n) 0 in
  Forall valid_item far /\ encode_varbyte (2 ^ 42) (fresh 7) 0 = Ret ([128; 128; 128; 128; 128; 128; 1], 7) /\
  ginCompressPostingList fresh far 14 = Undef /\ ginCompressPostingList fresh far 12 = Undef /\
  (exists plist, ginCompressPostingList fresh far 16 = Ret (plist, 2) /\ ginPostingListDecode plist = Ret far).
Proof.
  cbn zeta. split_and!; [|vm_compute; reflexivity|vm_compute; reflexivity|vm_compute; reflexivity|].
  - rewrite !Forall_cons. unfold valid_item. cbn [ip_blkid ip_posid]. split_and!; [lia|lia|lia|lia|lia|lia|lia|lia|constructor].
  - exists {| pl_first := {| ip_blkid := 0; ip_posid := 1 |}; nbytes := 7; bytes := [128; 128; 128; 128; 128; 128; 1; 0] |}. split; vm_compute; reflexivity.
Qed.

(** ** Witnesses *)

Module posting_demo.
Definition fresh (n : Z) : list Z := replicate (Z.to_nat n) 170.
Definition item (b o : Z) : ItemPointerData := {| ip_blkid := b; ip_posid := o |}.
Definition ipd : list ItemPointerData := [item 1 1; item 1 5; item 7 2; item 900000 2000].
Definition part : list ItemPointerData := [item 1 5; item 900000 2000].

Lemma fresh_len n : 0 <= n -> zlen (fresh n) = n.
Proof. intros Hn. unfold fresh, zlen. rewrite length_replicate. lia. Qed.

Lemma ipd_ok : posting_ok ipd.
Proof. cbn. repeat split; vm_compute; congruence. Qed.
End posting_demo.

(** A size for which only three of the items fit. *)
Lemma posting_list_roundtrip_witness : exists plist n, ginCompressPostingList posting_demo.fresh posting_demo.ipd 14 = Ret (plist, n) /\ ginPostingListDecode plist = Ret (take (Z.to_nat n) posting_demo.ipd).
Proof.
  destruct (proj1 (posting_list_roundtrip posting_demo.fresh posting_demo.fresh_len) posting_demo.ipd 14 posting_demo.ipd_ok) as (plist & n & E & _ & _ & _ & _ & D);
    [split; vm_compute; congruence|vm_compute; reflexivity|]. exists plist, n. split; [exact E|exact D].
Defined.

